(* ===== verification/_CoqProject ===== *)
-Q . S2P
Prelude.v
Encrypt.v
Obfs.v
TlsFrame.v
ObfsTls.v
Base64.v
ObfsHttp.v
Local.v
LocalStream.v
LocalProtocols.v
ChunkBuffer.v
PacketProto.v
BPending.v
PacketPassInterface.v
BadvpnMisc.v
PacketRecvInterface.v
UdpChannel.v
DeviceUdp.v
DeviceUdpSpec.v
Md5.v
HttpAuth.v
Proto.v
Redsocks.v
Handshake.v
Socks5.v
Socks4.v
HttpConnect.v
HttpConnectSpec.v
HttpRelay.v
HttpRelaySpec.v
Parser.v
RedsocksConf.v
ParserSpec.v
ParserPrint.v
Pressure.v
PressureSpec.v
RedsocksStart.v
SplicePump.v
BufferPump.v
Connection.v
BConnection.v
BSocksClient.v
SocksAgree.v
TcpClient.v
AvlTree.v
Bavl.v
BavlRep.v
BavlOps.v
BavlSpec.v
BavlSet.v
BavlCells.v
SAvl.v
CAvl.v
FairQueue.v
FairQueueSafe.v
FairQueueFair.v
FairQueueLog.v
FairQueueDemo.v
SocksUdpGw.v
SocksUdpGwOrder.v
SocksUdpGwInv.v
SocksUdpGwSubmit.v
SocksUdpGwRun.v
SocksUdpGwSpec.v
SocksUdpGwDemo.v
