(* ===== verification/Prelude.v ===== *)
(** * The native components of Cypher Connect

    Cypher Connect is an Android VPN application.  The Kotlin code starts three
    programs written in C; this development models their data path and proves
    it correct.

    - obfs-local (src/obfs_local/src/main/jni/simple-obfs/src) is a relay in
      front of the shadowsocks server.  It wraps the byte stream of each
      connection in fake HTTP or TLS records and unwraps the answers.
    - redsocks (src/core/src/main/jni/redsocks) turns redirected TCP connections
      into connections through a SOCKS proxy: a handshake, then a pump between
      the two sockets.
    - tun2socks (src/core/src/main/jni/badvpn) turns the packets of a TUN device
      into proxied connections, on a library of asynchronous packet and stream
      components.

    ** Conventions

    Bytes and machine integers are [Z]; the wrap-around of a C type is written
    out ([u8], [u16], [u32], [u64], [s16], [s32]).  An object in memory is a
    list of bytes with [Z] offsets; [mread], [mwrite], [mget] and [memmove]
    return [Fault] for an access outside the object.  Code returns an
    [outcome]: [Ret], [Fault] (undefined behaviour) or [Exit] (the process
    ends), so a theorem whose conclusion is [Ret] also says that no access is
    out of bounds.  Results of system calls, random bytes and the clock are
    arguments of the definitions that use them; theorems hold for all of them.
    Callbacks of an event loop are functions on explicit states and the loop is
    a step relation, so that a theorem on reachable states covers every order
    of events.

    ** Files

    obfs-local:
    - [Encrypt]: [buffer_t] of encrypt.h and encrypt.c ([balloc], [brealloc],
      [bfree]).
    - [Obfs]: [obfs_t], [obfs_para_t] of obfs.h; runs of a protocol over a
      sequence of buffers ([transmit], [receive]).
    - [TlsFrame]: the application-data records of obfs_tls.c: [obfs_app_data]
      and the incremental parser [deobfs_app_data].
    - [ObfsTls]: the client hello and server hello of obfs_tls.c.
    - [Base64]: base64.c of redsocks and of simple-obfs.
    - [ObfsHttp]: obfs_http.c.
    - [Local]: the connection callbacks of local.c over an event loop
      ([cb_step], [loop_step]) and the classes [Encoder] and [Decoder], which
      state what the relay needs of an obfuscation protocol.
    - [LocalStream]: the relay's invariants, proved against the two classes.
    - [LocalProtocols]: instances of the classes for the plain, HTTP and TLS
      protocols, and concrete runs.

    tun2socks:
    - [ChunkBuffer]: the circular packet buffer structure/ChunkBuffer2.h and
      flow/PacketBuffer.c.
    - [PacketProto]: the framing of flow/PacketProtoEncoder.c,
      PacketProtoDecoder.c, PacketStreamSender.c, BufferWriter.c,
      PacketProtoFlow.c and PacketPassConnector.c.
    - [BPending]: the job queue base/BPending.c.
    - [PacketPassInterface], [PacketRecvInterface]: the interfaces between
      packet components, flow/PacketPassInterface.h and .c and
      flow/PacketRecvInterface.h and .c, with flow/BufferWriter.c.
    - [BadvpnMisc]: sizes with overflow detection, comparison and addresses
      (misc/bsize.h, misc/compare.h, system/BAddr.h), protocol constants.
    - [BConnection]: connecting and asynchronous stream input and output of
      system/BConnection_unix.c.
    - [BSocksClient]: the SOCKS5 client socksclient/BSocksClient.c, on
      [BConnection] and the stream sender of [PacketProto].
    - [TcpClient]: one TCP connection of tun2socks/tun2socks.c (the [client_*]
      functions and [listener_accept_func]) between lwIP and the SOCKS client.
    - [AvlTree], [Bavl], [BavlRep], [BavlOps], [BavlSpec], [BavlSet]: the AVL
      tree structure/BAVL.h: trees and paths; the code on a heap of nodes; what
      a heap represents; the operations; their specification on the in-order
      list, for a comparator that satisfies the class [BAVLOrder]; programs on
      the tree.  [BavlCells]: the tree takes and frees no memory.
    - [SAvl], [CAvl]: the class of what the fair queue needs of a tree, and the
      tree generated by structure/CAvl_impl.h as an instance of it.
    - [FairQueue], [FairQueueSafe], [FairQueueFair], [FairQueueLog],
      [FairQueueDemo]: flow/PacketPassFairQueue.c against [SAvl], its invariant,
      its fairness, what it delivers, and a run.
    - [DeviceUdp], [DeviceUdpSpec]: IPv4, IPv6 and UDP packets (misc/udp_proto.h,
      ipv4_proto.h, ipv6_proto.h), [process_device_udp_packet] and
      [udpgw_client_handler_received] of tun2socks.c.
    - [UdpChannel]: a BufferWriter and a PacketBuffer, the send path of a UDP
      connection.
    - [SocksUdpGw], [SocksUdpGwOrder], [SocksUdpGwInv], [SocksUdpGwSubmit],
      [SocksUdpGwRun], [SocksUdpGwSpec], [SocksUdpGwDemo]: the UDP relay
      tun2socks/SocksUdpGwClient.c as compiled for Android, with
      [device_read_handler_send] of tun2socks.c: the code on a heap of
      connections and a stack of pending jobs; the order of addresses; the
      invariant and that every event keeps it; what becomes of a packet; runs;
      the properties; an example.

    redsocks:
    - [Md5]: md5.c.  [HttpAuth]: the Basic and Digest schemes of http-auth.c.
    - [Redsocks]: the client object of redsocks.c, the handshake helpers, the
      buffer pump and the splice pump, and the parts of libevent's bufferevents
      they rely on.
    - [Proto]: handshakes as abstract processes ([proto], [proto_run]).
    - [Handshake]: the class [HandshakeSim] a protocol subsystem implements, and
      the theorem that the event loop computes the meaning of the process.
    - [Socks5], [Socks4]: socks5.c and socks4.c as instances.
    - [HttpConnect], [HttpConnectSpec]: http-connect.c, and its reply and
      authentication specified on the bytes of the proxy.  [HttpRelay],
      [HttpRelaySpec]: http-relay.c, and the request it sends.
    - [Parser], [ParserSpec], [ParserPrint]: parser.c; the tokens of a text as a
      specification of it; configurations that are printed and read back, and the
      one of the application.  [RedsocksConf]: the sections of base.c and
      redsocks.c, instances of the parser's class [ConfStore].
    - [Pressure], [PressureSpec]: the limit of connections in redsocks.c: the
      listeners, the backoff timer, and idle clients.  [RedsocksStart]:
      [base_init], which sets the limits, and the shutdown.
    - [SplicePump], [BufferPump]: the two pumps as transition systems.
    - [Connection]: the SOCKS5 handshake followed by the splice pump.
    - [SocksAgree]: the SOCKS5 clients of redsocks and tun2socks side by side.

    ** What is proved

    Stream correctness of the relay ([LocalStream]): in every reachable state
    the bytes sent and pending are the encoding of the bytes received, in both
    directions, for every protocol that satisfies the classes, as the plain, the
    HTTP and the TLS protocol do; no callback that can run makes an invalid access.
    What arrives from the server must be safe to decode: anything for the plain
    and the HTTP protocol; for TLS, a handshake message that fits the buffer and no
    record of 0x8000 bytes or more, on which the code reads outside its buffer.

    Obfuscation ([TlsFrame], [ObfsTls], [ObfsHttp]): what one side wraps the
    other unwraps, for every cutting of the stream into buffers; the
    incremental TLS parser refines a parser of the whole stream; the functions
    that accept a header are specified on every branch, with the inputs on which
    they read outside an object or refuse a header that arrived in pieces.

    Packet components ([ChunkBuffer], [PacketProto], [BPending]): the circular
    buffer refines a queue and satisfies its debug assertions; framing and
    deframing are inverse through the composed flow; jobs run once, in last-in
    first-out order.  Every packet handed to an interface
    ([PacketPassInterface]) reaches the receiver once and in order, unless it was
    cancelled before.

    Handshakes ([Handshake], [Socks5], [Socks4]): whatever the cutting of the
    proxy's answer and the interleaving with writes and with early data, the
    handshake accepts, rejects or waits as the RFC process says, consumes
    exactly the answer and sends exactly the messages.

    HTTP ([HttpAuth], [HttpConnectSpec], [HttpRelaySpec]): a Digest challenge is
    answered as RFC 2617 says, in a buffer that is large enough, but not one that
    offers a list of protections, which the RFC allows; what becomes of a proxy's
    reply depends on its bytes alone, except that a demand for credentials that
    the client has must arrive in one piece; a header line that does not fit the
    buffer stalls the connection.  The relay for plain requests rewrites the head,
    with the credentials that the last demand calls for, and passes on the body,
    however the stream is cut; of a reply that comes in pieces it loses the
    start.  The other clients of the instance may change the shared state of the
    authentication at any time between two callbacks.

    Configuration ([ParserSpec], [ParserPrint]): the parser, which reads lines into
    a buffer that grows and cuts comments out of it, does what its machine does
    on the tokens of the text; what is printed is read back; the file the
    application writes has the effect it means to have.

    Connection pressure ([PressureSpec], [RedsocksStart]): the count of clients is
    the number of clients on the lists and stays within a limit that the
    descriptors of the process suffice for; the listeners are on or off together;
    accepting goes on if no idle timeout is set, and may stop for ever if it is,
    as by default; the shutdown leaves nothing.

    Pumps ([SplicePump], [BufferPump]): the splice pump loses and reorders
    nothing, passes the end of file on after the last byte, never stalls, and
    closes each descriptor once; the buffer pump's callbacks keep the bytes in
    flight, and an end of file handled before the first write event loses early
    data.

    Whole connections: in redsocks ([Connection]) what passes after an accepted
    handshake is the client's and the proxy's bytes, in order, until each
    descriptor is closed once.  In tun2socks, connections and their SOCKS client
    ([BConnection], [BSocksClient]) fail no assertion and free nothing twice
    whatever the system calls return, also while the user of the client sends and
    receives, and the client refines the same abstract handshake; [SocksAgree]
    draws the conclusion that both programs take the same decision on the same
    answer, but for a reply with a domain name and for an empty login or password.  A TCP connection ([TcpClient]) never
    uses anything after it was given up, frees everything exactly once, relays
    both directions, announces exactly the window it has, never stalls, drains
    after the application closed, and tells lwIP truthfully whether it aborted.

    AVL tree ([BavlSet]): every program of insertions, removals, searches and
    walks behaves as on a sorted list, no pointer is misused, the tree passes
    its own verification, and searches are logarithmic.

    Fair queue ([CAvl], [FairQueueFair], [FairQueueLog]): the generated tree makes
    the same changes as [Bavl]; the queue keeps its assertions whatever the
    flows do, loses, repeats and reorders nothing, and serves a waiting flow
    at least as much as any other, up to one packet and to the lag it started
    with.  That lag is not bounded by the code: the time of an empty queue is 0,
    while idle flows keep theirs.

    UDP ([DeviceUdpSpec], [SocksUdpGwSpec]): exactly the valid packets are taken
    from the device (but for one checksum value), and what is built for the
    device fits its MTU and is valid, but for a checksum that comes out as 0, which
    is sent as it is.  The relay, in every order of packets, jobs, sends and
    datagrams: makes no invalid access, keeps its tree, list and count in
    agreement, evicts the least recently used connection, sends what it was
    given byte for byte and in order, including the first packet, of which it
    keeps only a pointer into the buffer of the device; and its header is read
    back by the receiving side.  The assumption is that header and payload fit
    [udp_mtu], which the code does not check: [udpgw_oversized].

    Encodings ([Base64], [Md5]): base64 equals its reference definition and
    decodes back; the incremental MD5 digest equals the digest of the whole
    message.

    ** Bounds and fuel

    Loops whose recursion is not structural carry fuel: the parsing loops take
    the number of bytes left, of which each iteration consumes at least one;
    the block loop of [Md5] takes the number of bytes; running out of fuel is a
    [Fault] or leaves the loop's exit condition false, and the theorems show it
    does not happen.  The handshake of [BSocksClient] is driven for a number of
    steps computed from the bytes left (its measure [mu]); the closing functions
    of [TcpClient], which call each other, nest less than [close_depth]; the
    loops of [Bavl] that follow links take the number of nodes, and the theorem
    on depth shows how few steps a search takes.  The carries of a checksum are
    folded [carry_rounds] times, which is enough for sums of 32 bits; freeing
    the relay takes as many rounds as it has connections.  [parser_run] takes
    four rounds per byte of the file: a round reads a line or a part of it, doubles
    the buffer, or goes over the tokens that are left.  The buffers of [HttpRelay]
    are doubled at most thirty times, which is as often as an [int] allows.
    [print_u] prints at most twenty digits, enough for 64 bits.  Theorems state the sizes they need: payloads below the TLS record
    limit where the 16-bit length would wrap, MD5 pieces below [2 ^ 28] bytes
    where the bit count would overflow an [int].

    ** What is not modelled

    The option and configuration parsers of obfs-local (options.c, jconf.c) and
    of tun2socks, logging, socket set-up, signals and the reactors (epoll,
    libevent's and libev's loops) are represented by the events and system-call
    results they produce; so is lwIP, and so are the datagram sockets of
    system/BDatagram_unix.c.  UdpGwClient.c is built but not called on Android;
    redudp.c, reddns.c and dnstc.c of redsocks are not built for it.  Of redsocks.c
    the opening of the listening sockets and the debug dump are left out. *)
From stdpp Require Export base numbers list strings option.
From Stdlib Require Export ZArith Lia.
From Stdlib Require Ascii String.

#[global] Open Scope Z_scope.

(** ** Outcomes of C code

    [Ret a]: the code returned [a].  [Fault]: the code would read or write
    outside an object (undefined behaviour in C).  [Exit]: the process called
    [exit] (the [FATAL] paths). *)
Inductive outcome (A : Type) : Type :=
| Ret (a : A)
| Fault
| Exit.
Arguments Ret {A} a.
Arguments Fault {A}.
Arguments Exit {A}.

#[export] Instance outcome_ret : MRet outcome := λ A a, Ret a.
#[export] Instance outcome_bind : MBind outcome := λ A B f m,
  match m with Ret a => f a | Fault => Fault | Exit => Exit end.

Lemma bind_Ret {A B} (a : A) (f : A → outcome B) : (Ret a ≫= f) = f a.
Proof. done. Qed.

Lemma Ret_inj {A} (a b : A) : Ret a = Ret b → a = b.
Proof. congruence. Qed.

Lemma bind_Ret_inv {A B} (m : outcome A) (f : A → outcome B) b :
  (m ≫= f) = Ret b → ∃ a, m = Ret a ∧ f a = Ret b.
Proof. destruct m; [eauto|done..]. Qed.

Lemma bind_assoc_outcome {A B C} (m : outcome A) (f : A → outcome B) (g : B → outcome C) :
  ((m ≫= f) ≫= g) = (m ≫= λ a, f a ≫= g).
Proof. by destruct m. Qed.

(** [ASSERT(b)] *)
Definition assert (b : bool) : outcome unit := if b then Ret tt else Fault.

Lemma assert_true b : b = true → assert b = Ret tt.
Proof. by intros ->. Qed.

(** Decompose every successful bind in the context. *)
Ltac inv_binds :=
  repeat match goal with
  | H : (?m ≫= ?f) = Ret ?b |- _ =>
      let a := fresh "v" in let Ha := fresh "Hv" in
      apply bind_Ret_inv in H as (a & Ha & H)
  | H : Ret _ = Ret _ |- _ => injection H as H
  | H : mret _ = Ret _ |- _ => injection H as H
  end.

(** Resolve the head conditional of the goal by linear arithmetic. *)
Ltac solve_bool := lazymatch goal with
  | |- _ = true => rewrite ?andb_true_iff, ?orb_true_iff, ?negb_true_iff, ?Z.leb_le,
      ?Z.ltb_lt, ?Z.eqb_eq, ?Z.geb_le, ?Z.gtb_lt, ?Z.eqb_neq, ?Z.ltb_ge, ?Z.leb_gt; try lia
  | |- _ = false => rewrite ?andb_false_iff, ?orb_false_iff, ?negb_false_iff, ?Z.leb_gt,
      ?Z.ltb_ge, ?Z.eqb_neq, ?Z.eqb_eq, ?Z.geb_leb, ?Z.gtb_ltb, ?Z.leb_gt, ?Z.ltb_ge; try lia
  end.
Ltac if_true := match goal with
  | |- context [if ?b then _ else _] =>
      let H := fresh in assert (H : b = true) by solve_bool; rewrite H; clear H; cbv match end.
Ltac if_false := match goal with
  | |- context [if ?b then _ else _] =>
      let H := fresh in assert (H : b = false) by solve_bool; rewrite H; clear H; cbv match end.
(** Resolve every conditional that linear arithmetic decides. *)
Ltac ifs := repeat first [if_true | if_false].
(** Turn every boolean comparison of the context into a proposition. *)
Ltac bool_hyps := rewrite ?andb_true_iff, ?andb_false_iff, ?orb_true_iff, ?orb_false_iff,
  ?negb_true_iff, ?negb_false_iff, ?Z.geb_leb, ?Z.gtb_ltb, ?Z.leb_le, ?Z.leb_gt, ?Z.ltb_lt,
  ?Z.ltb_ge, ?Z.eqb_eq, ?Z.eqb_neq in *.

(** Linear arithmetic with division and modulo by constants. *)
Ltac zdiv := Z.to_euclidean_division_equations; lia.

(** ** Machine integers *)
Definition u8 (z : Z) : Z := z mod 2 ^ 8.
Definition u16 (z : Z) : Z := z mod 2 ^ 16.
Definition u32 (z : Z) : Z := z mod 2 ^ 32.
Definition u64 (z : Z) : Z := z mod 2 ^ 64.
Definition s16 (z : Z) : Z := (z + 2 ^ 15) mod 2 ^ 16 - 2 ^ 15.
Definition s32 (z : Z) : Z := (z + 2 ^ 31) mod 2 ^ 32 - 2 ^ 31.

Definition is_byte (z : Z) : Prop := 0 ≤ z < 256.

Lemma u8_range z : is_byte (u8 z).
Proof. unfold is_byte, u8. apply Z.mod_pos_bound. lia. Qed.
Lemma u8_small z : is_byte z → u8 z = z.
Proof. intros. by apply Z.mod_small. Qed.
Lemma u16_range z : 0 ≤ u16 z < 65536.
Proof. apply Z.mod_pos_bound. lia. Qed.
Lemma u16_small z : 0 ≤ z < 65536 → u16 z = z.
Proof. intros. by apply Z.mod_small. Qed.
Lemma u32_small z : 0 ≤ z < 4294967296 → u32 z = z.
Proof. intros. by apply Z.mod_small. Qed.
Lemma u64_small z : 0 ≤ z < 18446744073709551616 → u64 z = z.
Proof. intros. by apply Z.mod_small. Qed.
Lemma s16_small z : -32768 ≤ z < 32768 → s16 z = z.
Proof. intros. unfold s16. rewrite Z.mod_small; lia. Qed.
Lemma s32_small z : -2147483648 ≤ z < 2147483648 → s32 z = z.
Proof. intros. unfold s32. rewrite Z.mod_small; lia. Qed.
Lemma s16_range z : -32768 ≤ s16 z < 32768.
Proof. unfold s16. pose proof (Z.mod_pos_bound (z + 2 ^ 15) (2 ^ 16)). lia. Qed.

(** A small (possibly negative) [size_t] difference stored into a [short]. *)
Lemma s16_u64 z : -32768 ≤ z < 32768 → s16 (u64 z) = z.
Proof.
  intros H. unfold s16, u64.
  rewrite <- Zplus_mod_idemp_l, Z.mod_mod_divide, Zplus_mod_idemp_l by (exists (2 ^ 48); lia).
  rewrite Z.mod_small; lia.
Qed.

(** ** Memory objects: lists of bytes indexed by [Z] offsets *)
Abbreviation zlen l := (Z.of_nat (length l)).

Definition mread (m : list Z) (off n : Z) : outcome (list Z) :=
  if (0 <=? off) && (0 <=? n) && (off + n <=? zlen m)
  then Ret (take (Z.to_nat n) (drop (Z.to_nat off) m)) else Fault.

Definition mwrite (m : list Z) (off : Z) (bs : list Z) : outcome (list Z) :=
  if (0 <=? off) && (off + zlen bs <=? zlen m)
  then Ret (take (Z.to_nat off) m ++ bs ++ drop (Z.to_nat off + length bs) m)
  else Fault.

Definition mget (m : list Z) (i : Z) : outcome Z :=
  if 0 <=? i then match m !! Z.to_nat i with Some b => Ret b | None => Fault end
  else Fault.

(** [memmove(m + dst, m + src, n)] inside one object. *)
Definition memmove (m : list Z) (dst src n : Z) : outcome (list Z) :=
  bs ← mread m src n; mwrite m dst bs.

Lemma mread_Ret m off n bs :
  mread m off n = Ret bs →
  0 ≤ off ∧ 0 ≤ n ∧ off + n ≤ zlen m ∧
  bs = take (Z.to_nat n) (drop (Z.to_nat off) m) ∧ zlen bs = n.
Proof.
  unfold mread. case_match eqn:E; [|done]. intros [= <-].
  rewrite !andb_true_iff, !Z.leb_le in E.
  rewrite length_take, length_drop. split_and!; try done; lia.
Qed.

Lemma mread_app a b c :
  mread (a ++ b ++ c) (zlen a) (zlen b) = Ret b.
Proof.
  unfold mread. rewrite !length_app.
  if_true.
  rewrite !Nat2Z.id, drop_app_length, take_app_length. done.
Qed.

Lemma mread_all a : mread a 0 (zlen a) = Ret a.
Proof. pose proof (mread_app [] a []) as H. by rewrite app_nil_r in H. Qed.

Lemma mread_prefix a b : mread (a ++ b) 0 (zlen a) = Ret a.
Proof. apply (mread_app [] a b). Qed.

Lemma mwrite_app a b c bs :
  length bs = length b →
  mwrite (a ++ b ++ c) (zlen a) bs = Ret (a ++ bs ++ c).
Proof.
  intros Hl. unfold mwrite. rewrite !length_app.
  if_true.
  rewrite !Nat2Z.id, take_app_length, Hl.
  by rewrite drop_app_add, drop_app_length.
Qed.

(** Writing just after a known prefix extends it. *)
Lemma mwrite_extend a rest off b :
  off = zlen a → zlen b ≤ zlen rest →
  mwrite (a ++ rest) off b = Ret ((a ++ b) ++ drop (length b) rest).
Proof.
  intros -> Hl. rewrite <- (take_drop (length b) rest) at 1.
  rewrite mwrite_app; [by rewrite app_assoc|]. rewrite length_take. lia.
Qed.

Lemma mwrite_length m off bs m' :
  mwrite m off bs = Ret m' → length m' = length m.
Proof.
  unfold mwrite. case_match eqn:E; [|done]. intros [= <-].
  rewrite !andb_true_iff, !Z.leb_le in E.
  rewrite !length_app, length_take, length_drop. lia.
Qed.

(** Shifting a prefix [c] up by [n] bytes. *)
Lemma memmove_shift c t n :
  0 ≤ n → n ≤ zlen t →
  memmove (c ++ t) n 0 (zlen c)
  = Ret (take (Z.to_nat n) (c ++ t) ++ c ++ drop (Z.to_nat n) t).
Proof.
  intros Hn Hl. unfold memmove. rewrite mread_prefix, bind_Ret. unfold mwrite.
  rewrite length_app. if_true. rewrite Nat.add_comm, drop_app_add. done.
Qed.

(** Moving an inner segment [b] down to the start. *)
Lemma memmove_down y b t :
  memmove (y ++ b ++ t) 0 (zlen y) (zlen b) = Ret (b ++ drop (length b) (y ++ b ++ t)).
Proof.
  unfold memmove. rewrite mread_app, bind_Ret.
  rewrite (mwrite_extend [] (y ++ b ++ t)); [done|done|]. rewrite !length_app. lia.
Qed.

Lemma memmove_length m dst src n m' :
  memmove m dst src n = Ret m' → length m' = length m.
Proof. unfold memmove. intros. inv_binds. by eapply mwrite_length. Qed.

Lemma mget_app a x b : mget (a ++ x :: b) (zlen a) = Ret x.
Proof.
  unfold mget. if_true.
  by rewrite Nat2Z.id, list_lookup_middle.
Qed.

(** What an object holds after a write. *)
Lemma mwrite_lookup m off bs m' (i : nat) :
  mwrite m off bs = Ret m' → (Z.of_nat i < off ∨ off + zlen bs ≤ Z.of_nat i) → m' !! i = m !! i.
Proof.
  unfold mwrite. case_match eqn:E; [|done]. intros [= <-] Hi. bool_hyps. destruct Hi as [Hi|Hi].
  - rewrite lookup_app_l by (rewrite length_take; lia). apply lookup_take_lt. lia.
  - rewrite lookup_app_r by (rewrite length_take; lia). rewrite length_take.
    rewrite lookup_app_r by lia. rewrite lookup_drop. f_equal. lia.
Qed.

(** A read away from a write sees the old bytes. *)
Lemma mread_mwrite_disjoint m off bs m' o n r :
  mwrite m off bs = Ret m' → mread m o n = Ret r → o + n ≤ off ∨ off + zlen bs ≤ o → mread m' o n = Ret r.
Proof.
  intros Hw Hr Hd. pose proof (mwrite_length _ _ _ _ Hw) as Hl.
  pose proof (mread_Ret _ _ _ _ Hr) as (H1 & H2 & H3 & -> & _).
  unfold mread. rewrite Hl. if_true. f_equal. apply list_eq. intros i.
  destruct (decide (i < Z.to_nat n)%nat).
  - rewrite !lookup_take_lt, !lookup_drop by done. apply (mwrite_lookup m off bs); [done|lia].
  - by rewrite !lookup_take_ge by lia.
Qed.

(** A read of what was just written. *)
Lemma mread_mwrite_same m off bs m' : mwrite m off bs = Ret m' → mread m' off (zlen bs) = Ret bs.
Proof.
  unfold mwrite. case_match eqn:E; [|done]. intros [= <-]. bool_hyps.
  replace off with (zlen (take (Z.to_nat off) m)) at 3 by (rewrite length_take; lia). apply mread_app.
Qed.

(** ** Byte order: 16- and 32-bit big-endian fields *)
Definition be16 (n : Z) : list Z := [u8 (Z.shiftr n 8); u8 n].
Definition be32 (n : Z) : list Z :=
  [u8 (Z.shiftr n 24); u8 (Z.shiftr n 16); u8 (Z.shiftr n 8); u8 n].
Definition of_be16 (h l : Z) : Z := h * 256 + l.

Lemma of_be16_be16 n h l : be16 n = [h; l] → of_be16 h l = u16 n.
Proof.
  unfold be16, of_be16, u8, u16. intros [= <- <-].
  rewrite Z.shiftr_div_pow2 by lia.
  change (2 ^ 16) with (256 * 256). change (2 ^ 8) with 256.
  rewrite Z.rem_mul_r by lia. lia.
Qed.

Lemma be16_of_be16 h l : is_byte h → is_byte l → be16 (of_be16 h l) = [h; l].
Proof.
  unfold is_byte, be16, of_be16, u8. intros.
  rewrite Z.shiftr_div_pow2 by lia. change (2 ^ 8) with 256.
  rewrite Z.div_add_l, (Z.div_small l), Z.add_0_r by lia.
  rewrite (Z.mod_small h) by lia.
  rewrite Z.add_comm, Z_mod_plus_full, Z.mod_small by lia. done.
Qed.

(** ** Text *)
Definition chr (c : Ascii.ascii) : Z := Z.of_nat (Ascii.nat_of_ascii c).
Fixpoint bytes (s : String.string) : list Z :=
  match s with
  | String.EmptyString => []
  | String.String c s' => chr c :: bytes s'
  end.
Definition CR : Z := 13.
Definition LF : Z := 10.
Definition CRLF : list Z := [CR; LF].

(** The bytes of a C string object, up to its NUL. *)
Fixpoint c_str (m : list Z) : list Z :=
  match m with
  | [] => []
  | c :: m' => if c =? 0 then [] else c :: c_str m'
  end.

(** Decimal digits, as [printf] writes them ([10 ^ 20 > 2 ^ 64]). *)
Fixpoint digits (fuel : nat) (n : Z) : list Z :=
  match fuel with
  | O => []
  | S f => (if n <? 10 then [] else digits f (n / 10)) ++ [48 + n mod 10]
  end.
Definition print_u (n : Z) : list Z := digits 20 n.
Definition print_d (n : Z) : list Z := if n <? 0 then 45 :: print_u (- n) else print_u n.

Lemma c_str_app s m : Forall (λ c, c ≠ 0) s → c_str (s ++ 0 :: m) = s.
Proof.
  induction 1 as [|c s Hc _ IH]; simpl; [done|]. if_false. by rewrite IH.
Qed.

Lemma digits_are fuel n : 0 ≤ n → Forall (λ c, 48 ≤ c ≤ 57) (digits fuel n).
Proof.
  revert n. induction fuel as [|f IH]; intros n Hn; simpl; [constructor|].
  apply Forall_app. split; [|constructor; [zdiv|constructor]].
  case_match; [constructor|]. apply IH. zdiv.
Qed.

Lemma print_u_digits n : 0 ≤ n → Forall (λ c, 48 ≤ c ≤ 57) (print_u n).
Proof. apply digits_are. Qed.

Lemma digits_length k fuel n :
  0 ≤ n < 10 ^ Z.of_nat (S k) → (length (digits fuel n) ≤ S k)%nat.
Proof.
  revert fuel n. induction k as [|k IH]; intros [|f] n Hn; simpl digits; simpl length; try lia;
    rewrite length_app; simpl length.
  - case_match; simpl; bool_hyps; lia.
  - case_match; simpl length; [lia|]. bool_hyps.
    assert (0 ≤ n / 10 < 10 ^ Z.of_nat (S k)).
    { replace (Z.of_nat (S (S k))) with (Z.succ (Z.of_nat (S k))) in Hn by lia.
      rewrite Z.pow_succ_r in Hn by lia. set (q := 10 ^ Z.of_nat (S k)) in *. zdiv. }
    pose proof (IH f (n / 10) ltac:(lia)). lia.
Qed.

(** ASCII lower case, as [strncasecmp] compares. *)
Definition tolower (c : Z) : Z := if (65 <=? c) && (c <=? 90) then c + 32 else c.

(** [strncmp(a, b, n) == 0] and [strncasecmp(a, b, n) == 0] on C strings given
    without their NUL, which ends the comparison. *)
Fixpoint strn_eq (f : Z → Z) (n : nat) (a b : list Z) : bool :=
  match n with
  | O => true
  | S n' =>
      match a, b with
      | x :: a', y :: b' => (f x =? f y) && strn_eq f n' a' b'
      | [], [] => true
      | _, _ => false
      end
  end.
Definition strncmp_eq (a b : list Z) (n : Z) : bool := strn_eq id (Z.to_nat n) a b.
Definition strncasecmp_eq (a b : list Z) (n : Z) : bool := strn_eq tolower (Z.to_nat n) a b.

Lemma strn_eq_refl f n a : strn_eq f n a a = true.
Proof. revert a. induction n; intros [|x a]; simpl; [done..|]. by rewrite Z.eqb_refl, IHn. Qed.
