(* ===== verification/Encrypt.v ===== *)
(** * encrypt.c: the [buffer_t] of the obfuscating proxy, and its random bytes

    [buffer_t] owns a heap object of [capacity] bytes; [data] is that object.
    Bytes that [malloc]/[realloc] leave unspecified are written [0]; [ss_malloc]
    and [ss_realloc] exit on exhaustion, so allocation always succeeds here.
    [world] is what [rand], [time] and [strftime] read. *)
From S2P Require Import Prelude.

Record buffer := mkbuf { idx : Z; len : Z; capacity : Z; data : list Z }.

Definition set_data (b : buffer) (d : list Z) : buffer :=
  mkbuf (idx b) (len b) (capacity b) d.
Definition set_len (b : buffer) (n : Z) : buffer :=
  mkbuf (idx b) n (capacity b) (data b).
Definition set_idx (b : buffer) (n : Z) : buffer :=
  mkbuf n (len b) (capacity b) (data b).

(** [malloc]ed object of [n] bytes. *)
Definition fresh_mem (n : Z) : list Z := replicate (Z.to_nat n) 0.

Definition balloc (cap : Z) : buffer := mkbuf 0 0 cap (fresh_mem cap).

Definition brealloc (ptr : option buffer) (n cap : Z) : Z * option buffer :=
  match ptr with
  | None => (-1, None)
  | Some b =>
      let real_capacity := Z.max n cap in
      let b' := if capacity b <? real_capacity
                then mkbuf (idx b) (len b) real_capacity
                       (data b ++ fresh_mem (real_capacity - capacity b))
                else b in
      (s32 real_capacity, Some b')
  end.

Definition bfree (ptr : option buffer) : option buffer :=
  match ptr with None => None | Some b => Some (mkbuf 0 0 0 []) end.

(** The non-null call [brealloc(buf, n, cap)], result ignored, as every caller
    writes it. *)
Definition grow (b : buffer) (n cap : Z) : buffer :=
  default b (brealloc (Some b) n cap).2.

Record world := mkworld {
  rand_at : nat → Z;          (* successive values behind rand() *)
  rand_pos : nat;
  now : Z;                    (* time(NULL) *)
  date : list Z }.            (* strftime of the local time *)

Definition RAND_MAX : Z := 2 ^ 31 - 1.
Definition rand (w : world) : Z * world :=
  (rand_at w (rand_pos w) mod (RAND_MAX + 1),
   mkworld (rand_at w) (S (rand_pos w)) (now w) (date w)).

(** The bytes of a stored [int], little-endian. *)
Definition le32 (n : Z) : list Z := rev (be32 n).

Fixpoint rand_ints (n : nat) (w : world) : list Z * world :=
  match n with
  | O => ([], w)
  | S n' => let '(v, w1) := rand w in
            let '(vs, w2) := rand_ints n' w1 in (le32 v ++ vs, w2)
  end.

(** [rand_bytes(output, n)]: fills [n / sizeof(int)] integers. *)
Definition rand_bytes (n : Z) (w : world) : list Z * world :=
  rand_ints (Z.to_nat (n / 4)) w.

Arguments rand_bytes : simpl never.

(** ** Well-formed buffers *)
Definition bytes_ok (l : list Z) : Prop := Forall is_byte l.

Lemma bytes_ok_app a b : bytes_ok (a ++ b) ↔ bytes_ok a ∧ bytes_ok b.
Proof. apply Forall_app. Qed.

(** Decidable form, for concrete byte lists. *)
Definition bytes_okb (l : list Z) : bool := forallb (λ z, (0 <=? z) && (z <? 256)) l.
Lemma bytes_okb_ok l : bytes_okb l = true → bytes_ok l.
Proof.
  unfold bytes_okb. rewrite forallb_forall. intros H. apply List.Forall_forall.
  intros z Hz. specialize (H z Hz). unfold is_byte. lia.
Qed.

Record buffer_ok (b : buffer) : Prop := {
  ok_data : zlen (data b) = capacity b;
  ok_len : 0 ≤ len b ≤ capacity b;
  ok_idx : 0 ≤ idx b;
  ok_bytes : bytes_ok (data b) }.

(** The [len] bytes the buffer holds. *)
Definition content (b : buffer) : list Z := take (Z.to_nat (len b)) (data b).

Create HintDb obfs.

Lemma length_fresh_mem n : 0 ≤ n → zlen (fresh_mem n) = n.
Proof. unfold fresh_mem. rewrite length_replicate. lia. Qed.

Lemma fresh_mem_ok n : bytes_ok (fresh_mem n).
Proof. apply Forall_replicate. unfold is_byte. lia. Qed.

Lemma balloc_ok cap : 0 ≤ cap → buffer_ok (balloc cap).
Proof.
  intros. split; simpl; try lia; [by apply length_fresh_mem|apply fresh_mem_ok].
Qed.

Lemma grow_capacity b n cap :
  capacity (grow b n cap) = Z.max (capacity b) (Z.max n cap).
Proof. unfold grow. simpl. case_match eqn:E; simpl; bool_hyps; lia. Qed.

Lemma grow_len b n cap : len (grow b n cap) = len b.
Proof. unfold grow. simpl. by case_match. Qed.
Lemma grow_idx b n cap : idx (grow b n cap) = idx b.
Proof. unfold grow. simpl. by case_match. Qed.

Lemma grow_data b n cap :
  ∃ tl, data (grow b n cap) = data b ++ tl ∧ bytes_ok tl ∧
        zlen tl = capacity (grow b n cap) - capacity b.
Proof.
  rewrite grow_capacity. unfold grow. simpl. case_match eqn:E; simpl; bool_hyps.
  - eexists. split_and!; [done|apply fresh_mem_ok|]. rewrite length_fresh_mem; lia.
  - exists []. rewrite app_nil_r. split_and!; [done|constructor|simpl; lia].
Qed.

Lemma grow_ok b n cap : buffer_ok b → buffer_ok (grow b n cap).
Proof.
  intros [Hd Hl Hi Hb]. destruct (grow_data b n cap) as (tl & E & Htl & Hz).
  split; rewrite ?E, ?grow_len, ?grow_idx, ?length_app; try lia.
  by apply Forall_app.
Qed.

Lemma content_length b : buffer_ok b → zlen (content b) = len b.
Proof. intros [Hd Hl _ _]. unfold content. rewrite length_take. lia. Qed.

Lemma data_split b : data b = content b ++ drop (Z.to_nat (len b)) (data b).
Proof. symmetry. apply take_drop. Qed.

Lemma grow_content b n cap : buffer_ok b → content (grow b n cap) = content b.
Proof.
  intros [Hd Hl _ _]. destruct (grow_data b n cap) as (tl & E & _).
  unfold content. rewrite E, grow_len, take_app_le; [done|lia].
Qed.

Lemma content_ok b : buffer_ok b → bytes_ok (content b).
Proof. intros [_ _ _ H]. by apply Forall_take. Qed.

Lemma length_rand_ints n w : zlen (rand_ints n w).1 = 4 * Z.of_nat n.
Proof.
  revert w. induction n as [|n IH]; intros w; [done|].
  simpl. specialize (IH (mkworld (rand_at w) (S (rand_pos w)) (now w) (date w))).
  destruct (rand_ints n _). simpl in *. lia.
Qed.

Lemma length_rand_bytes n w : 0 ≤ n → n mod 4 = 0 → zlen (rand_bytes n w).1 = n.
Proof.
  intros. unfold rand_bytes. rewrite length_rand_ints.
  pose proof (Z.div_mod n 4). pose proof (Z.div_pos n 4). lia.
Qed.

Lemma be32_ok n : bytes_ok (be32 n).
Proof. repeat constructor; apply u8_range. Qed.
Lemma be16_ok n : bytes_ok (be16 n).
Proof. repeat constructor; apply u8_range. Qed.

Lemma rand_bytes_ok n w : bytes_ok (rand_bytes n w).1.
Proof.
  unfold rand_bytes. generalize (Z.to_nat (n / 4)) as k. intros k. revert w.
  induction k as [|k IH]; intros w; [constructor|]. simpl.
  specialize (IH (mkworld (rand_at w) (S (rand_pos w)) (now w) (date w))).
  destruct (rand_ints k _). simpl in *.
  do 4 (constructor; [apply u8_range|]). done.
Qed.

Lemma content_of b a c : data b = a ++ c → len b = zlen a → content b = a.
Proof. intros E L. unfold content. by rewrite E, L, Nat2Z.id, take_app_length. Qed.

#[export] Hint Resolve grow_ok content_ok be16_ok be32_ok rand_bytes_ok fresh_mem_ok : obfs.

Lemma mread_ok m off n bs : bytes_ok m → mread m off n = Ret bs → bytes_ok bs.
Proof.
  intros H (_ & _ & _ & -> & _)%mread_Ret. by apply Forall_take, Forall_drop.
Qed.

Lemma mwrite_ok m off bs m' :
  bytes_ok m → bytes_ok bs → mwrite m off bs = Ret m' → bytes_ok m'.
Proof.
  intros Hm Hb. unfold mwrite. case_match; [|done]. intros [= <-].
  apply Forall_app. split; [by apply Forall_take|].
  apply Forall_app. split; [done|by apply Forall_drop].
Qed.

Lemma memmove_ok m dst src n m' : bytes_ok m → memmove m dst src n = Ret m' → bytes_ok m'.
Proof.
  unfold memmove. intros H E. inv_binds. eapply mwrite_ok; [done| |done]. by eapply mread_ok.
Qed.

(** What every in-place rewriting of an object keeps. *)
Definition same_object (m m' : list Z) : Prop :=
  length m' = length m ∧ (bytes_ok m → bytes_ok m').

#[export] Instance same_object_preorder : PreOrder same_object.
Proof.
  split; [by split|]. intros a b c [H1 H2] [H3 H4]. split; [congruence|auto].
Qed.

Lemma mwrite_same m off bs m' :
  bytes_ok bs → mwrite m off bs = Ret m' → same_object m m'.
Proof. split; [by eapply mwrite_length|intros Hm; by apply (mwrite_ok m off bs)]. Qed.

Lemma same_object_buffer b d n :
  buffer_ok b → same_object (data b) d → 0 ≤ n ≤ capacity b → buffer_ok (set_len (set_data b d) n).
Proof. intros [Hd Hl Hi Hb] [H1 H2] Hn. split; simpl; try lia; auto. Qed.

(** A buffer given by its content and the rest of its object. *)
Lemma buffer_intro b c t :
  data b = c ++ t → len b = zlen c → capacity b = zlen c + zlen t → 0 ≤ idx b →
  bytes_ok c → bytes_ok t → content b = c ∧ buffer_ok b.
Proof.
  intros Hd Hl Hc Hi Bc Bt. split; [by eapply content_of|].
  split; rewrite ?Hd, ?length_app; try lia. by apply Forall_app.
Qed.

(** Overwriting a buffer from its start. *)
Lemma overwrite_ok g x :
  buffer_ok g → bytes_ok x → zlen x ≤ capacity g →
  let b := set_len (set_data g (x ++ drop (length x) (data g))) (zlen x) in
  content b = x ∧ buffer_ok b.
Proof.
  intros [Hd Hl Hi Hb] Hx Hz. apply (buffer_intro _ x (drop (length x) (data g))); simpl;
    rewrite ?length_drop; try done; [lia|by apply Forall_drop].
Qed.

(** A grown buffer: old content, then at least [n - len b] writable bytes. *)
Lemma grow_split b n cap :
  buffer_ok b → ∃ t, data (grow b n cap) = content b ++ t ∧ bytes_ok t ∧
    zlen t = capacity (grow b n cap) - len b.
Proof.
  intros Hb. destruct (grow_data b n cap) as (tl & E & Htl & Hz).
  exists (drop (Z.to_nat (len b)) (data b) ++ tl). split_and!.
  - by rewrite app_assoc, <- data_split.
  - destruct Hb. apply Forall_app. split; [by apply Forall_drop|done].
  - destruct Hb. rewrite length_app, length_drop. lia.
Qed.

Lemma memmove_same m dst src n m' : memmove m dst src n = Ret m' → same_object m m'.
Proof. split; [by eapply memmove_length|intros; by eapply memmove_ok]. Qed.

(** Decidable form, for concrete buffers. *)
Definition buffer_okb (b : buffer) : bool :=
  (zlen (data b) =? capacity b) && (0 <=? len b) && (len b <=? capacity b) &&
  (0 <=? idx b) && bytes_okb (data b).
Lemma buffer_okb_ok b : buffer_okb b = true → buffer_ok b.
Proof.
  unfold buffer_okb. rewrite !andb_true_iff, !Z.leb_le, Z.eqb_eq.
  intros ((((H1 & H2) & H3) & H4) & H5). split; [done..|by apply bytes_okb_ok].
Qed.

(** A buffer holding exactly [l]. *)
Definition buffer_of (l : list Z) : buffer := mkbuf 0 (zlen l) (zlen l) l.
