(* ===== verification/Obfs.v ===== *)
(** * obfs.h: the interface of an obfuscating protocol

    [obfs_t] is the per-connection state; [obfs_para] is the table of function
    pointers ([obfs_para_t]) through which local.c calls a protocol. Every
    operation takes the [obfs_t *] as an [option] (it may be [NULL]) and threads
    the world and the protocol's own static variables [S]. *)
From S2P Require Import Prelude Encrypt.

Definition OBFS_OK : Z := 0.
Definition OBFS_NEED_MORE : Z := -1.
Definition OBFS_ERROR : Z := -2.

(** obfs_tls.h [frame_t]; its fields are C [short]s. *)
Record frame := mkframe { fidx : Z; flen : Z; fbuf : list Z }.

Record obfs_t := mkobfs {
  obfs_stage : Z;
  deobfs_stage : Z;
  obuf : option buffer;
  extra : option frame }.

(** [ss_malloc] followed by [memset(.., 0, ..)] in [new_server]. *)
Definition obfs_zero : obfs_t := mkobfs 0 0 None None.
Definition frame_zero : frame := mkframe 0 0 [0; 0].

Definition set_obfs_stage (o : obfs_t) (n : Z) : obfs_t :=
  mkobfs n (deobfs_stage o) (obuf o) (extra o).
Definition set_deobfs_stage (o : obfs_t) (n : Z) : obfs_t :=
  mkobfs (obfs_stage o) n (obuf o) (extra o).
Definition set_obuf (o : obfs_t) (b : option buffer) : obfs_t :=
  mkobfs (obfs_stage o) (deobfs_stage o) b (extra o).
Definition set_extra (o : obfs_t) (f : option frame) : obfs_t :=
  mkobfs (obfs_stage o) (deobfs_stage o) (obuf o) f.

(** Configuration fields of [obfs_para_t] (C strings without their NUL;
    [host] may be [NULL] on the server side). *)
Record obfs_conf := mkconf { host : option (list Z); uri : list Z; port : Z }.

Section Interface.
Context (S : Type).
(** What an operation returns: result, buffer, connection state, statics and world. *)
Definition op_result : Type := outcome (Z * buffer * option obfs_t * S * world).
Definition obfs_op : Type := buffer → Z → option obfs_t → S → world → op_result.

Record obfs_para := mkpara {
  name : list Z;
  conf : obfs_conf;
  send_empty_response_upon_connection : bool;
  obfs_request : obfs_op;
  obfs_response : obfs_op;
  deobfs_request : obfs_op;
  deobfs_response : obfs_op;
  check_obfs : buffer → outcome Z;
  disable : obfs_t → obfs_t;
  is_enable : obfs_t → bool }.
End Interface.
Arguments mkpara {S}.
Arguments name {S}.
Arguments conf {S}.
Arguments obfs_request {S}.
Arguments obfs_response {S}.
Arguments deobfs_request {S}.
Arguments deobfs_response {S}.
Arguments check_obfs {S}.
Arguments disable {S}.
Arguments is_enable {S}.

(** ** Both ends of a connection as local.c and server.c drive them *)
Section Streams.
Context {S : Type}.
(** The bytes put on the wire when [bs] are obfuscated one after the other. *)
Fixpoint transmit (op : obfs_op S) (cap : Z) (o : option obfs_t) (st : S) (w : world)
    (bs : list buffer) : outcome (list Z) :=
  match bs with
  | [] => Ret []
  | b :: bs' =>
      '(_, b, o, st, w) ← op b cap o st w;
      rest ← transmit op cap o st w bs';
      Ret (content b ++ rest)
  end.

(** The bytes delivered when the received buffers [bs] are deobfuscated one after
    the other; [None] when an operation reports an error, which closes the connection. *)
Fixpoint receive (op : obfs_op S) (cap : Z) (o : option obfs_t) (st : S) (w : world)
    (bs : list buffer) : outcome (option (list Z)) :=
  match bs with
  | [] => Ret (Some [])
  | b :: bs' =>
      '(r, b, o, st, w) ← op b cap o st w;
      if negb (r =? 0) then Ret None
      else rest ← receive op cap o st w bs';
           Ret (option_map (app (content b)) rest)
  end.
End Streams.
