(* ===== verification/TlsFrame.v ===== *)
(** * obfs_tls.c, application data: [obfs_app_data] and [deobfs_app_data]

    [obfs_app_data] prefixes a payload with a TLS record header; the decoder
    works in place on whatever bytes one [recv] returned and keeps its position
    inside a record in [frame_t].  The reference decoder [dec_stream] reads one
    byte at a time; [deobfs_app_data_refines] shows the in-place loop computes
    it, and the stream theorems follow from the reference. *)
From S2P Require Import Prelude Encrypt Obfs.

Definition tls_data_header : list Z := [0x17; 0x03; 0x03].

Definition obfs_app_data (b : buffer) (cap : Z) : outcome (Z * buffer) :=
  let buf_len := len b in
  let b := grow b (buf_len + 5) cap in
  d1 ← memmove (data b) 5 0 buf_len;
  d2 ← mwrite d1 0 tls_data_header;
  d3 ← mwrite d2 3 (be16 buf_len);
  Ret (0, set_len (set_data b d3) (buf_len + 5)).

(** Loop state of [deobfs_app_data]. *)
Record fstate := mkfs { bidx : Z; bofst : Z; fdata : list Z; fr : frame }.

(** The header part of the loop body ([frame->len == 0]); the flag is the
    early [return OBFS_ERROR]. *)
Definition header_step (s : fstate) : outcome (bool * fstate) :=
  let f := fr s in
  c ← (if fidx f <? 0 then Ret 0 (* not read *) else mget (fdata s) (bidx s));
  if (0 <=? fidx f) && (fidx f <? 3) && negb (c =? nth (Z.to_nat (fidx f)) tls_data_header 0)
  then Ret (true, s)
  else
    fb ← (if (3 <=? fidx f) && (fidx f <? 5) then mwrite (fbuf f) (fidx f - 3) [c]
          else Ret (fbuf f));
    let bofst' := if fidx f <? 0 then bofst s + 1 else bofst s in
    let i := s16 (fidx f + 1) in
    if i =? 5 then
      h ← mget fb 0; l ← mget fb 1;
      Ret (false, mkfs (bidx s + 1) bofst' (fdata s) (mkframe 0 (s16 (of_be16 h l)) fb))
    else Ret (false, mkfs (bidx s + 1) bofst' (fdata s) (mkframe i (flen f) fb)).

Definition payload_step (blen : Z) (s : fstate) : outcome (bool * fstate) :=
  let f := fr s in
  if 16384 <? flen f then Ret (true, s)
  else
    let left_len := blen - bidx s in
    if flen f <? left_len then
      d ← memmove (fdata s) (bofst s) (bidx s) (flen f);
      Ret (false, mkfs (bidx s + flen f) (bofst s + flen f) d (mkframe (fidx f) 0 (fbuf f)))
    else
      d ← memmove (fdata s) (bofst s) (bidx s) left_len;
      Ret (false, mkfs blen (bofst s + left_len) d
                    (mkframe (fidx f) (flen f - left_len) (fbuf f))).

Definition deobfs_step (blen : Z) (s : fstate) : outcome (bool * fstate) :=
  if flen (fr s) =? 0 then header_step s else payload_step blen s.

(** [while (bidx < buf->len)]; every iteration that does not return consumes at
    least one byte, so [blen - bidx] iterations suffice. *)
Fixpoint deobfs_loop (fuel : nat) (blen : Z) (s : fstate) : outcome (Z * fstate) :=
  if bidx s <? blen then
    match fuel with
    | O => Fault
    | S fuel' =>
        '(err, s') ← deobfs_step blen s;
        if (err : bool) then Ret (OBFS_ERROR, s') else deobfs_loop fuel' blen s'
    end
  else Ret (OBFS_OK, s).

Definition deobfs_app_data (b : buffer) (i : Z) (f : frame) : outcome (Z * buffer * frame) :=
  '(r, s) ← deobfs_loop (Z.to_nat (len b - i)) (len b) (mkfs i i (data b) f);
  let b' := set_data b (fdata s) in
  if r =? OBFS_OK then Ret (OBFS_OK, set_len b' (bofst s), fr s)
  else Ret (r, b', fr s).

(** ** Reference decoder *)
Definition dec_byte (f : frame) (c : Z) : outcome (option (list Z * frame)) :=
  if flen f =? 0 then
    if fidx f <? 0 then Ret (Some ([c], mkframe (fidx f + 1) 0 (fbuf f)))
    else if fidx f <? 3 then
      if c =? nth (Z.to_nat (fidx f)) tls_data_header 0
      then Ret (Some ([], mkframe (fidx f + 1) 0 (fbuf f))) else Ret None
    else if fidx f =? 3 then Ret (Some ([], mkframe 4 0 [c; nth 1 (fbuf f) 0]))
    else Ret (Some ([], mkframe 0 (s16 (of_be16 (nth 0 (fbuf f) 0) c)) [nth 0 (fbuf f) 0; c]))
  else if 16384 <? flen f then Ret None
  else if flen f <? 0 then Fault
  else Ret (Some ([c], mkframe (fidx f) (flen f - 1) (fbuf f))).

Fixpoint dec_stream (f : frame) (cs : list Z) : outcome (option (list Z * frame)) :=
  match cs with
  | [] => Ret (Some ([], f))
  | c :: cs' =>
      r ← dec_byte f c;
      match r with
      | None => Ret None
      | Some (o, f') =>
          r' ← dec_stream f' cs';
          match r' with
          | None => Ret None
          | Some (o', f'') => Ret (Some (o ++ o', f''))
          end
      end
  end.

Record frame_ok (f : frame) : Prop := {
  fok_idx : -32768 ≤ fidx f < 5;
  fok_len : -32768 ≤ flen f < 32768;
  fok_zero : fidx f ≠ 0 → flen f = 0;
  fok_buf : length (fbuf f) = 2%nat }.

(** The decoder stands between two records. *)
Definition idle (f : frame) : Prop := fidx f = 0 ∧ flen f = 0 ∧ length (fbuf f) = 2%nat.

(** ** Facts about the reference decoder *)
Definition then_dec (cs : list Z) (r : option (list Z * frame)) : outcome (option (list Z * frame)) :=
  match r with
  | None => Ret None
  | Some (o, f) =>
      r' ← dec_stream f cs;
      match r' with None => Ret None | Some (o', f') => Ret (Some (o ++ o', f')) end
  end.

Lemma dec_stream_app f a b :
  dec_stream f (a ++ b) = (dec_stream f a ≫= then_dec b).
Proof.
  revert f. induction a as [|c a IH]; intros f; simpl.
  - by destruct (dec_stream f b) as [[[]|]| |].
  - destruct (dec_byte f c) as [[[o f']|]| |]; simpl; [|done..]. rewrite IH.
    destruct (dec_stream f' a) as [[[o1 f1]|]| |]; simpl; [|done..].
    destruct (dec_stream f1 b) as [[[o2 f2]|]| |]; simpl; [|done..].
    by rewrite app_assoc.
Qed.

Lemma dec_stream_payload f cs :
  zlen cs ≤ flen f ≤ 16384 →
  dec_stream f cs = Ret (Some (cs, mkframe (fidx f) (flen f - zlen cs) (fbuf f))).
Proof.
  revert f. induction cs as [|c cs IH]; intros [i L fb] H; simpl in *.
  - by rewrite Z.sub_0_r.
  - unfold dec_byte. simpl. ifs. simpl. rewrite IH by (simpl; lia). simpl.
    do 4 f_equal. lia.
Qed.

(** A negative index lets that many bytes pass unchanged. *)
Lemma dec_stream_pass f cs :
  flen f = 0 → fidx f + zlen cs ≤ 0 →
  dec_stream f cs = Ret (Some (cs, mkframe (fidx f + zlen cs) 0 (fbuf f))).
Proof.
  revert f. induction cs as [|c cs IH]; intros [i L fb] HL H; simpl in *; subst L.
  - by rewrite Z.add_0_r.
  - unfold dec_byte. simpl. if_true. simpl. rewrite IH by (simpl; lia). simpl.
    do 4 f_equal. lia.
Qed.

Lemma dec_stream_neg m fb cs :
  0 ≤ m →
  dec_stream (mkframe (- m) 0 fb) cs =
  if m <? zlen cs
  then then_dec (drop (Z.to_nat m) cs) (Some (take (Z.to_nat m) cs, mkframe 0 0 fb))
  else Ret (Some (cs, mkframe (zlen cs - m) 0 fb)).
Proof.
  intros Hm. destruct (m <? zlen cs) eqn:E; bool_hyps.
  - rewrite <- (take_drop (Z.to_nat m) cs) at 1.
    rewrite dec_stream_app, dec_stream_pass by (simpl; rewrite ?length_take; lia).
    rewrite length_take. cbn [fidx]. by replace (- m + _) with 0 by lia.
  - rewrite dec_stream_pass by (simpl; lia). cbn [fidx fbuf]. do 4 f_equal. lia.
Qed.

Lemma dec_byte_ok f c o f' :
  frame_ok f → dec_byte f c = Ret (Some (o, f')) → frame_ok f'.
Proof.
  intros [Hi Hl Hz Hb] E. unfold dec_byte in E.
  repeat case_match; simplify_eq; bool_hyps; split; simpl; try lia; try done.
  apply s16_range.
Qed.

(** ** The in-place loop *)
(** [fdata s] is the output so far [P], bytes already consumed [M], bytes of
    this call still to read [R], and the rest [T] of the object. *)
Record layout (blen : Z) (s : fstate) (P M R T : list Z) : Prop := {
  lay_data : fdata s = P ++ M ++ R ++ T;
  lay_ofst : bofst s = zlen P;
  lay_idx : bidx s = zlen P + zlen M;
  lay_len : blen = zlen P + zlen M + zlen R;
  lay_neg : fidx (fr s) < 0 → M = [] }.

Lemma layout_length blen s P M R T :
  layout blen s P M R T → zlen (fdata s) = blen + zlen T.
Proof. intros [-> _ _ -> _]. rewrite !length_app. lia. Qed.

Lemma header_step_dec blen s P M c R T :
  layout blen s P M (c :: R) T → frame_ok (fr s) → flen (fr s) = 0 →
  match dec_byte (fr s) c with
  | Ret (Some (o, f')) => ∃ s' M', header_step s = Ret (false, s') ∧ fr s' = f' ∧
      layout blen s' (P ++ o) M' R T
  | Ret None => header_step s = Ret (true, s)
  | _ => False
  end.
Proof.
  intros [Hd Ho Hx Hl Hn] [Hi HL Hz Hb] H0.
  destruct s as [x o d [i l [|b0 [|b1 [|]]]]]; simpl in *; try done. subst l.
  assert (Hg : mget d x = Ret c).
  { rewrite Hd, app_assoc, Hx, <- Nat2Z.inj_add, <- length_app. apply mget_app. }
  unfold dec_byte, header_step. simpl.
  destruct (decide (i < 0)) as [Hneg|Hneg].
  { specialize (Hn Hneg) as ->. ifs. simpl. ifs. simpl. rewrite (s16_small (i + 1)) by lia. ifs.
    eexists _, []. split_and!; [done|done|].
    split; simpl in *; rewrite ?length_app, ?Hd; simpl; try lia; [|done].
    by rewrite <- app_assoc. }
  if_false. rewrite Hg. simpl. rewrite (s16_small (i + 1)) by lia.
  assert (i = 0 ∨ i = 1 ∨ i = 2 ∨ i = 3 ∨ i = 4) as Hcase by lia.
  assert (Hlay : ∀ f', 0 ≤ fidx f' → layout blen (mkfs (x + 1) o d f') (P ++ []) (M ++ [c]) R T).
  { intros f' Hf. rewrite app_nil_r. split; simpl in *; rewrite ?length_app; simpl; try lia.
    rewrite Hd. by rewrite <- (app_assoc M). }
  destruct Hcase as [-> | [-> | [-> | [-> | ->]]]]; simpl;
    try (destruct (_ =? _) eqn:?; simpl; [|done]);
    (eexists _, (M ++ [c]); split_and!; [done|done|apply Hlay; simpl; lia]).
Qed.

Lemma memmove_layout P M R1 R2 T :
  ∃ M', length M' = length M ∧
    memmove (P ++ M ++ (R1 ++ R2) ++ T) (zlen P) (zlen P + zlen M) (zlen R1)
    = Ret (P ++ R1 ++ M' ++ R2 ++ T).
Proof.
  exists (drop (length R1) (M ++ R1)). rewrite length_drop, length_app. split; [lia|].
  unfold memmove. rewrite <- Nat2Z.inj_add, <- length_app.
  pose proof (mread_app (P ++ M) R1 (R2 ++ T)) as Hr. rewrite <- !app_assoc in *.
  rewrite Hr, bind_Ret.
  rewrite (app_assoc M R1), <- (take_drop (length R1) (M ++ R1)) at 1.
  rewrite <- !app_assoc. rewrite mwrite_app; [done|].
  rewrite length_take, length_app. lia.
Qed.

Lemma payload_step_dec blen s P M R T :
  layout blen s P M R T → frame_ok (fr s) → R ≠ [] → 0 < flen (fr s) ≤ 16384 →
  ∃ s' M' R1 R2, R = R1 ++ R2 ∧ R1 ≠ [] ∧ zlen R1 ≤ flen (fr s) ∧
    payload_step blen s = Ret (false, s') ∧
    fr s' = mkframe (fidx (fr s)) (flen (fr s) - zlen R1) (fbuf (fr s)) ∧
    layout blen s' (P ++ R1) M' R2 T.
Proof.
  intros [Hd Ho Hx Hl Hn] [Hi HL Hz Hb] HR HF.
  destruct s as [x o d [i l fb]]; simpl in *.
  assert (i = 0) as -> by (destruct (decide (i = 0)); [done|lia]).
  assert (HRn : 0 < zlen R) by (destruct R; [done|simpl; lia]).
  set (R1 := take (Z.to_nat l) R). set (R2 := drop (Z.to_nat l) R).
  assert (ER : R = R1 ++ R2) by (symmetry; apply take_drop).
  assert (HR1 : zlen R1 = Z.min l (zlen R)) by (unfold R1; rewrite length_take; lia).
  assert (HR2 : zlen R1 + zlen R2 = zlen R) by (rewrite <- Nat2Z.inj_add, <- length_app, <- ER; done).
  destruct (memmove_layout P M R1 R2 T) as (M' & HM' & Hmv).
  rewrite <- ER in Hmv.
  unfold payload_step. simpl. if_false.
  assert (Hstep : ∀ n, n = zlen R1 → memmove d o x n = Ret (P ++ R1 ++ M' ++ R2 ++ T))
    by (intros n ->; by rewrite Hd, Ho, Hx).
  assert (Hne : R1 ≠ []) by (intros E; rewrite E in HR1; simpl in HR1; lia).
  destruct (l <? blen - x) eqn:E; bool_hyps; rewrite Hstep by lia;
    (eexists _, M', R1, R2; split_and!; [done|done|lia|done|simpl; f_equal; lia|]);
    (split; simpl; rewrite ?length_app; try lia; by rewrite <- app_assoc).
Qed.

Lemma deobfs_loop_dec fuel blen s P M R T :
  layout blen s P M R T → frame_ok (fr s) → zlen R ≤ Z.of_nat fuel →
  match dec_stream (fr s) R with
  | Ret (Some (o, f')) => ∃ s' M', deobfs_loop fuel blen s = Ret (OBFS_OK, s') ∧ fr s' = f' ∧
      fdata s' = (P ++ o) ++ M' ++ T ∧ bofst s' = zlen (P ++ o) ∧ frame_ok f'
  | Ret None => ∃ s', deobfs_loop fuel blen s = Ret (OBFS_ERROR, s') ∧
      length (fdata s') = length (fdata s)
  | Fault => deobfs_loop fuel blen s = Fault
  | Exit => False
  end.
Proof.
  revert s P M R. induction fuel as [|fuel IH]; intros s P M R HL Hok Hf;
    (destruct R as [|c R];
      [pose proof HL as [Hd Ho Hx Hl Hn]; simpl in *; if_false;
       eexists s, M; rewrite app_nil_r; done|]); [simpl in Hf; lia|].
  pose proof HL as [Hd Ho Hx Hl Hn]. simpl (deobfs_loop _ _ _). cbn [length] in Hl. if_true.
  unfold deobfs_step. destruct (flen (fr s) =? 0) eqn:E0; bool_hyps.
  - pose proof (header_step_dec _ _ _ _ _ _ _ HL Hok E0) as Hstep. simpl.
    destruct (dec_byte (fr s) c) as [[[o f']|]| |] eqn:Eb; simpl; [| |done..].
    + destruct Hstep as (s' & M' & -> & <- & HL'). simpl.
      assert (Hok' : frame_ok (fr s')) by by eapply dec_byte_ok.
      specialize (IH s' _ _ _ HL' Hok' ltac:(simpl in Hf; lia)).
      destruct (dec_stream (fr s') R) as [[[o2 f2]|]| |]; simpl in *; [| |done..].
      * by rewrite app_assoc.
      * destruct IH as (s2 & -> & Hs2). eexists. split; [done|]. rewrite Hs2.
        apply layout_length in HL, HL'. lia.
    + rewrite Hstep. simpl. eauto.
  - destruct (decide (16384 < flen (fr s))) as [Hbig|Hbig].
    { simpl. unfold dec_byte, payload_step. ifs. simpl. eauto. }
    destruct (decide (flen (fr s) < 0)) as [Hneg|Hneg].
    { simpl. unfold dec_byte, payload_step. ifs. unfold memmove, mread. ifs. done. }
    destruct (payload_step_dec _ _ _ _ _ _ HL Hok ltac:(done) ltac:(lia))
      as (s' & M' & R1 & R2 & HR & Hne & Hle & -> & Hfr & HL').
    simpl (Ret _ ≫= _). rewrite HR, dec_stream_app, dec_stream_payload by lia. simpl.
    rewrite <- Hfr.
    assert (Hok' : frame_ok (fr s')).
    { destruct Hok. rewrite Hfr. split; simpl; try done; lia. }
    assert (Hlen : zlen (c :: R) = zlen R1 + zlen R2) by (rewrite HR, length_app; lia).
    assert (0 < zlen R1) by (destruct R1; [done|simpl; lia]).
    specialize (IH s' _ _ _ HL' Hok' ltac:(lia)).
    destruct (dec_stream (fr s') R2) as [[[o2 f2]|]| |]; simpl in *; [| |done..].
    + by rewrite app_assoc.
    + destruct IH as (s2 & -> & Hs2). eexists. split; [done|]. rewrite Hs2.
      apply layout_length in HL, HL'. lia.
Qed.

Lemma deobfs_step_same blen s e s' :
  deobfs_step blen s = Ret (e, s') → same_object (fdata s) (fdata s').
Proof.
  unfold deobfs_step, header_step, payload_step. intros E.
  destruct (flen (fr s) =? 0); inv_binds.
  - repeat case_match; inv_binds; by simplify_eq.
  - repeat case_match; inv_binds; simplify_eq; [done|..]; by eapply memmove_same.
Qed.

Lemma deobfs_loop_same fuel blen s r s' :
  deobfs_loop fuel blen s = Ret (r, s') → same_object (fdata s) (fdata s').
Proof.
  revert s. induction fuel as [|fuel IH]; intros s; simpl; (case_match; [|by intros [= _ <-]]).
  - done.
  - intros E. inv_binds. destruct v as [[] s1]; apply deobfs_step_same in Hv.
    + by simplify_eq.
    + etrans; [done|]. by apply IH.
Qed.

Lemma deobfs_app_data_dec b i f :
  buffer_ok b → frame_ok f → 0 ≤ i ≤ len b →
  match dec_stream f (drop (Z.to_nat i) (content b)) with
  | Ret (Some (o, f')) => ∃ b', deobfs_app_data b i f = Ret (OBFS_OK, b', f') ∧
      content b' = take (Z.to_nat i) (content b) ++ o ∧
      capacity b' = capacity b ∧ idx b' = idx b ∧ buffer_ok b' ∧ frame_ok f'
  | Ret None => ∃ b' f', deobfs_app_data b i f = Ret (OBFS_ERROR, b', f')
  | Fault => deobfs_app_data b i f = Fault
  | Exit => False
  end.
Proof.
  intros Hb Hf Hi. pose proof (content_length b Hb) as Hc. destruct Hb as [Hd Hl Hx Hby].
  set (P := take (Z.to_nat i) (content b)). set (R := drop (Z.to_nat i) (content b)).
  set (T := drop (Z.to_nat (len b)) (data b)).
  assert (HP : zlen P = i) by (unfold P; rewrite length_take; lia).
  assert (HR : zlen R = len b - i) by (unfold R; rewrite length_drop; lia).
  assert (HL : layout (len b) (mkfs i i (data b) f) P [] R T).
  { split; simpl; try lia; [|done]. rewrite (data_split b) at 1.
    unfold P, R, T. by rewrite app_assoc, take_drop. }
  pose proof (deobfs_loop_dec (Z.to_nat (len b - i)) _ _ _ _ _ _ HL Hf ltac:(lia)) as H.
  unfold deobfs_app_data. cbn [fr] in H.
  destruct (dec_stream f R) as [[[o f']|]| |]; [| |by rewrite H|done].
  - destruct H as (s' & M' & Heq & <- & Hd' & Ho' & Hok). rewrite Heq.
    apply deobfs_loop_same in Heq as [Hlen Hbytes]. simpl in *.
    eexists. split_and!; [done|by eapply content_of|done|done| |done].
    split; simpl; try lia; [|auto]. rewrite Hd' in Hlen. rewrite length_app in Hlen. lia.
  - destruct H as (s' & -> & _). simpl. eauto.
Qed.

(** ** The encoder *)
Definition record (p : list Z) : list Z := tls_data_header ++ be16 (zlen p) ++ p.

Lemma record_ok p : bytes_ok p → bytes_ok (record p).
Proof.
  intros H. do 3 (constructor; [unfold is_byte; lia|]).
  do 2 (constructor; [apply u8_range|]). done.
Qed.

Lemma obfs_app_data_spec b cap :
  buffer_ok b →
  ∃ b', obfs_app_data b cap = Ret (0, b') ∧ content b' = record (content b) ∧
    buffer_ok b' ∧ capacity b' = Z.max (capacity b) (Z.max (len b + 5) cap) ∧ idx b' = idx b.
Proof.
  intros Hb. pose proof (content_length b Hb) as Hc. pose proof (ok_len b Hb) as Hl.
  destruct (grow_split b (len b + 5) cap Hb) as (t & Hg & Hto & Ht).
  pose proof (grow_idx b (len b + 5) cap) as Gx. pose proof (grow_capacity b (len b + 5) cap) as Gc.
  unfold obfs_app_data. set (g := grow b (len b + 5) cap) in *.
  rewrite Hg, <- Hc, memmove_shift, bind_Ret by lia.
  set (h := take (Z.to_nat 5) (content b ++ t)).
  assert (Hh : length h = 5%nat) by (unfold h; rewrite length_take, length_app; lia).
  set (d1 := h ++ content b ++ drop (Z.to_nat 5) t).
  assert (Hd1 : drop 5 d1 = content b ++ drop 5 t) by (unfold d1; by rewrite drop_app_length').
  assert (Hz : zlen d1 = capacity g)
    by (unfold d1; rewrite !length_app, length_drop; lia).
  rewrite (mwrite_extend [] d1), bind_Ret by (simpl; lia).
  rewrite mwrite_extend, bind_Ret, drop_drop by (simpl; rewrite ?length_drop; lia).
  eexists. split; [done|]. simpl. rewrite Hd1.
  match goal with |- content ?B = _ ∧ _ =>
    destruct (buffer_intro B (record (content b)) (drop 5 t)) as [-> Hok] end;
    simpl; rewrite ?length_drop; try lia.
  - done.
  - destruct Hb; lia.
  - apply record_ok, content_ok, Hb.
  - by apply Forall_drop.
  - rewrite Hc. split_and!; try done. by rewrite <- Hc.
Qed.

Lemma dec_stream_record f p :
  idle f → zlen p ≤ 16384 →
  ∃ f', dec_stream f (record p) = Ret (Some (p, f')) ∧ idle f'.
Proof.
  intros (Hi & Hl & Hb) Hp. destruct f as [i l fb]. simpl in Hi, Hl, Hb. subst i l.
  destruct fb as [|b0 [|b1 [|]]]; try done. unfold record.
  assert (Hn : ∀ h l, be16 (zlen p) = [h; l] →
     dec_stream (mkframe 0 0 [b0; b1]) (tls_data_header ++ be16 (zlen p)) =
     Ret (Some ([], mkframe 0 (zlen p) [h; l]))).
  { intros h l E. rewrite E. apply of_be16_be16 in E. simpl. unfold dec_byte. simpl.
    do 4 f_equal. rewrite E, u16_small, s16_small by lia. done. }
  rewrite app_assoc, dec_stream_app, (Hn _ _ eq_refl). simpl.
  rewrite dec_stream_payload by (simpl; lia). simpl. rewrite Z.sub_diag.
  eexists. split; [done|]. done.
Qed.

Lemma idle_ok f : idle f → frame_ok f.
Proof. intros (Hi & Hl & Hb). split; lia. Qed.

Lemma dec_stream_records f ps :
  idle f → Forall (λ p, zlen p ≤ 16384) ps →
  ∃ f', dec_stream f (concat (map record ps)) = Ret (Some (concat ps, f')) ∧ idle f'.
Proof.
  intros Hf Hps. revert f Hf. induction Hps as [|p ps Hp _ IH]; intros f Hf; [simpl; eauto|].
  cbn [map concat].
  destruct (dec_stream_record f p Hf Hp) as (f1 & E1 & H1).
  destruct (IH f1 H1) as (f2 & E2 & H2).
  rewrite dec_stream_app, E1. simpl. rewrite E2. simpl. eauto.
Qed.

(** Successive calls on the buffers that successive [recv]s fill. *)
Fixpoint deobfs_run (f : frame) (bs : list buffer) : outcome (option (list Z * frame)) :=
  match bs with
  | [] => Ret (Some ([], f))
  | b :: bs' =>
      '(r, b', f') ← deobfs_app_data b 0 f;
      if r =? OBFS_OK then
        t ← deobfs_run f' bs';
        match t with
        | Some (o, f'') => Ret (Some (content b' ++ o, f''))
        | None => Ret None
        end
      else Ret None
  end.

(** C38: the in-place decoder refines the byte-at-a-time reference decoder.
    On any well-formed buffer and frame state, [deobfs_app_data] from offset [i]
    terminates with OBFS_OK, keeping the first [i] bytes and replacing the rest by
    exactly the payload the reference extracts (and leaving the same frame state),
    when the reference accepts; it returns OBFS_ERROR exactly when the reference
    rejects, and faults exactly when the reference meets a negative length. *)
Theorem deobfs_app_data_refines b i f :
  buffer_ok b → frame_ok f → 0 ≤ i ≤ len b →
  match dec_stream f (drop (Z.to_nat i) (content b)) with
  | Ret (Some (o, f')) => ∃ b', deobfs_app_data b i f = Ret (OBFS_OK, b', f') ∧
      content b' = take (Z.to_nat i) (content b) ++ o ∧
      capacity b' = capacity b ∧ idx b' = idx b ∧ buffer_ok b' ∧ frame_ok f'
  | Ret None => ∃ b' f', deobfs_app_data b i f = Ret (OBFS_ERROR, b', f')
  | Fault => deobfs_app_data b i f = Fault
  | Exit => False
  end.
Proof. apply deobfs_app_data_dec. Qed.

Lemma deobfs_app_data_refines_witness :
  ∃ b', deobfs_app_data (buffer_of [9; 0x17; 0x03; 0x03; 0; 3; 1; 2; 3]) 1 frame_zero =
          Ret (OBFS_OK, b', mkframe 0 0 [0; 3]) ∧ content b' = [9; 1; 2; 3].
Proof.
  pose proof (deobfs_app_data_refines (buffer_of [9; 0x17; 0x03; 0x03; 0; 3; 1; 2; 3]) 1 frame_zero
    ltac:(by apply buffer_okb_ok) (idle_ok frame_zero ltac:(done)) ltac:(cbn; lia)) as H.
  cbn in H. destruct H as (b' & H1 & H2 & _). exists b'. exact (conj H1 H2).
Defined.

Lemma deobfs_run_dec bs f :
  Forall buffer_ok bs → frame_ok f →
  deobfs_run f bs = dec_stream f (concat (map content bs)).
Proof.
  intros Hbs. revert f. induction Hbs as [|b bs Hb _ IH]; intros f Hf; [done|].
  cbn [map concat deobfs_run]. rewrite dec_stream_app.
  pose proof (deobfs_app_data_dec b 0 f Hb Hf) as H. rewrite drop_0, take_0 in H.
  specialize (H ltac:(destruct Hb; lia)).
  destruct (dec_stream f (content b)) as [[[o f']|]| |]; [| |by rewrite H|done].
  - destruct H as (b' & -> & Hc & _ & _ & _ & Hf'). simpl. by rewrite IH, Hc.
  - by destruct H as (b' & f' & ->).
Qed.

(** Record framing survives any segmentation. Payload buffers (at most 16384
    bytes each) wrapped one by one by [obfs_app_data], delivered to a decoder
    standing between records in buffers cut at arbitrary other points, decode to
    the concatenated payloads, and the decoder again stands between records. *)
Theorem app_data_stream_roundtrip pbs ebs rbs cap f :
  Forall (λ b, buffer_ok b ∧ len b ≤ 16384) pbs →
  Forall2 (λ p e, obfs_app_data p cap = Ret (0, e)) pbs ebs →
  Forall buffer_ok rbs →
  concat (map content rbs) = concat (map content ebs) →
  idle f →
  ∃ f', deobfs_run f rbs = Ret (Some (concat (map content pbs), f')) ∧ idle f'.
Proof.
  intros Hp He Hr Heq Hf. rewrite deobfs_run_dec by auto using idle_ok. rewrite Heq.
  assert (map content ebs = map record (map content pbs)) as ->.
  { clear Heq Hr Hf. induction He as [|p e pbs ebs H1 _ IH]; [done|]. simpl.
    inversion Hp as [|?? [Hb _] Hp']; subst. rewrite (IH Hp').
    destruct (obfs_app_data_spec p cap Hb) as (e' & E & Ec & _). congruence. }
  apply dec_stream_records; [done|]. apply Forall_map.
  eapply Forall_impl; [|exact Hp]. intros b [Hb Hl]. simpl. rewrite content_length; [lia|done].
Qed.

Lemma app_data_stream_roundtrip_witness :
  ∃ f', deobfs_run frame_zero [buffer_of [0x17; 0x03]; buffer_of [0x03; 0; 2; 7]; buffer_of [8; 0x17; 0x03; 0x03; 0; 0]]
        = Ret (Some ([7; 8], f')) ∧ idle f'.
Proof.
  apply (app_data_stream_roundtrip [buffer_of [7; 8]; buffer_of []]
    [mkbuf 0 7 16 [0x17; 0x03; 0x03; 0; 2; 7; 8; 0; 0; 0; 0; 0; 0; 0; 0; 0];
     mkbuf 0 5 16 [0x17; 0x03; 0x03; 0; 0; 0; 0; 0; 0; 0; 0; 0; 0; 0; 0; 0]] _ 16).
  - repeat constructor; simpl; try lia.
  - repeat constructor.
  - repeat (constructor; [by apply buffer_okb_ok|]); constructor.
  - reflexivity.
  - done.
Defined.

(** What an oversized record length does. With the decoder between records, a
    record header announcing more than 16384 bytes is rejected as soon as one more
    byte arrives when the length is below 0x8000; but [frame_t.len] is a C [short],
    so a length of 0x8000 or more is read as negative, passes the
    [frame->len > 16384] test and reaches [memmove] as an out-of-range size. *)
Theorem deobfs_app_data_oversized b f h l c tl :
  buffer_ok b → idle f → content b = [0x17; 0x03; 0x03; h; l; c] ++ tl →
  is_byte h → is_byte l → 16384 < of_be16 h l →
  if of_be16 h l <? 32768
  then ∃ b' f', deobfs_app_data b 0 f = Ret (OBFS_ERROR, b', f')
  else deobfs_app_data b 0 f = Fault.
Proof.
  intros Hb Hf Hc Hh Hl Hbig. pose proof Hf as (Hi & HL & Hfb).
  destruct f as [i L [|b0 [|b1 [|]]]]; try done. simpl in Hi, HL. subst i L.
  pose proof (deobfs_app_data_dec b 0 _ Hb (idle_ok _ Hf) ltac:(destruct Hb; lia)) as H.
  assert (E : dec_stream (mkframe 0 0 [b0; b1]) [0x17; 0x03; 0x03; h; l] =
              Ret (Some ([], mkframe 0 (s16 (of_be16 h l)) [h; l]))) by reflexivity.
  rewrite drop_0, Hc in H. change (?a ++ tl) with ([0x17; 0x03; 0x03; h; l] ++ c :: tl) in H.
  rewrite dec_stream_app, E in H. cbn [mbind outcome_bind then_dec dec_stream] in H.
  unfold dec_byte in H. cbn [flen] in H. unfold is_byte in *.
  assert (0 ≤ of_be16 h l < 65536) by (unfold of_be16; lia).
  destruct (of_be16 h l <? 32768) eqn:Ecmp; bool_hyps.
  - rewrite s16_small in H by lia. revert H. by ifs.
  - assert (Hneg : s16 (of_be16 h l) = of_be16 h l - 65536).
    { unfold s16. rewrite <- (Z.mod_unique (of_be16 h l + 2 ^ 15) (2 ^ 16) 1 (of_be16 h l - 32768)); lia. }
    rewrite Hneg in H. revert H. by ifs.
Qed.

Lemma deobfs_app_data_oversized_witness :
  deobfs_app_data (buffer_of [0x17; 0x03; 0x03; 0x80; 0; 1]) 0 frame_zero = Fault.
Proof.
  apply (deobfs_app_data_oversized (buffer_of [0x17; 0x03; 0x03; 0x80; 0; 1]) frame_zero 0x80 0 1 []);
    [by apply buffer_okb_ok|done|done|done|done|done].
Defined.
