(* ===== verification/ObfsTls.v ===== *)
(** * obfs_tls.c: the TLS handshake disguise

    The packed structures of obfs_tls.h are records with a byte encoder; 16- and
    32-bit fields hold host-order values, which the encoder stores big-endian
    ([CT_HTONS]/[CT_HTONL]).  The two function-static [tmp] buffers are the
    protocol's own state [tls_statics]. [size_t] is 64 bits wide. *)
From S2P Require Import Prelude Encrypt Obfs TlsFrame.

Record tls_client_hello := mk_client_hello {
  ch_content_type : Z; ch_version : Z; ch_len : Z;
  ch_handshake_type : Z; ch_handshake_len_1 : Z; ch_handshake_len_2 : Z;
  ch_handshake_version : Z;
  ch_random_unix_time : Z; ch_random_bytes : list Z;
  ch_session_id_len : Z; ch_session_id : list Z;
  ch_cipher_suites_len : Z; ch_cipher_suites : list Z;
  ch_comp_methods_len : Z; ch_comp_methods : list Z;
  ch_ext_len : Z }.

Definition enc_client_hello (h : tls_client_hello) : list Z :=
  [ch_content_type h] ++ be16 (ch_version h) ++ be16 (ch_len h) ++
  [ch_handshake_type h; ch_handshake_len_1 h] ++ be16 (ch_handshake_len_2 h) ++
  be16 (ch_handshake_version h) ++
  be32 (ch_random_unix_time h) ++ ch_random_bytes h ++
  [ch_session_id_len h] ++ ch_session_id h ++
  be16 (ch_cipher_suites_len h) ++ ch_cipher_suites h ++
  [ch_comp_methods_len h] ++ ch_comp_methods h ++ be16 (ch_ext_len h).

Record tls_ext_server_name := mk_server_name {
  sn_ext_type : Z; sn_ext_len : Z; sn_list_len : Z; sn_type : Z; sn_len : Z }.
Definition enc_server_name (s : tls_ext_server_name) : list Z :=
  be16 (sn_ext_type s) ++ be16 (sn_ext_len s) ++ be16 (sn_list_len s) ++ [sn_type s] ++ be16 (sn_len s).

Record tls_ext_session_ticket := mk_ticket { st_type : Z; st_ext_len : Z }.
Definition enc_ticket (t : tls_ext_session_ticket) : list Z := be16 (st_type t) ++ be16 (st_ext_len t).

Record tls_server_hello := mk_server_hello {
  sh_content_type : Z; sh_version : Z; sh_len : Z;
  sh_handshake_type : Z; sh_handshake_len_1 : Z; sh_handshake_len_2 : Z;
  sh_handshake_version : Z;
  sh_random_unix_time : Z; sh_random_bytes : list Z;
  sh_session_id_len : Z; sh_session_id : list Z;
  sh_cipher_suite : Z; sh_comp_method : Z; sh_ext_len : Z;
  sh_renego_type : Z; sh_renego_ext_len : Z; sh_renego_len : Z;
  sh_ems_type : Z; sh_ems_ext_len : Z;
  sh_ecpf_type : Z; sh_ecpf_ext_len : Z; sh_ecpf_len : Z; sh_ecpf : list Z }.
Definition enc_server_hello (h : tls_server_hello) : list Z :=
  [sh_content_type h] ++ be16 (sh_version h) ++ be16 (sh_len h) ++
  [sh_handshake_type h; sh_handshake_len_1 h] ++ be16 (sh_handshake_len_2 h) ++
  be16 (sh_handshake_version h) ++
  be32 (sh_random_unix_time h) ++ sh_random_bytes h ++
  [sh_session_id_len h] ++ sh_session_id h ++
  be16 (sh_cipher_suite h) ++ [sh_comp_method h] ++ be16 (sh_ext_len h) ++
  be16 (sh_renego_type h) ++ be16 (sh_renego_ext_len h) ++ [sh_renego_len h] ++
  be16 (sh_ems_type h) ++ be16 (sh_ems_ext_len h) ++
  be16 (sh_ecpf_type h) ++ be16 (sh_ecpf_ext_len h) ++ [sh_ecpf_len h] ++ sh_ecpf h.

Record tls_change_cipher_spec := mk_ccs { cc_content_type : Z; cc_version : Z; cc_len : Z; cc_msg : Z }.
Definition enc_ccs (c : tls_change_cipher_spec) : list Z :=
  [cc_content_type c] ++ be16 (cc_version c) ++ be16 (cc_len c) ++ [cc_msg c].

Record tls_encrypted_handshake := mk_eh { eh_content_type : Z; eh_version : Z; eh_len : Z }.
Definition enc_eh (e : tls_encrypted_handshake) : list Z :=
  [eh_content_type e] ++ be16 (eh_version e) ++ be16 (eh_len e).

(** ** Templates *)
Definition tls_cipher_suites : list Z :=
  [0xc0; 0x2c; 0xc0; 0x30; 0x00; 0x9f; 0xcc; 0xa9; 0xcc; 0xa8; 0xcc; 0xaa; 0xc0; 0x2b; 0xc0; 0x2f;
   0x00; 0x9e; 0xc0; 0x24; 0xc0; 0x28; 0x00; 0x6b; 0xc0; 0x23; 0xc0; 0x27; 0x00; 0x67; 0xc0; 0x0a;
   0xc0; 0x14; 0x00; 0x39; 0xc0; 0x09; 0xc0; 0x13; 0x00; 0x33; 0x00; 0x9d; 0x00; 0x9c; 0x00; 0x3d;
   0x00; 0x3c; 0x00; 0x35; 0x00; 0x2f; 0x00; 0xff].

Definition tls_client_hello_template : tls_client_hello :=
  mk_client_hello 0x16 0x0301 0 1 0 0 0x0303 0 (replicate 28 0) 32 (replicate 32 0)
    56 tls_cipher_suites 1 [0] 0.

Definition tls_ext_server_name_template : tls_ext_server_name := mk_server_name 0 0 0 0 0.

Definition tls_ext_session_ticket_template : tls_ext_session_ticket := mk_ticket 0x0023 0.

(** [struct tls_ext_others], encoded. *)
Definition tls_ext_others_template : list Z :=
  be16 0x000B ++ be16 4 ++ [3] ++ [0x01; 0x00; 0x02] ++
  be16 0x000a ++ be16 10 ++ be16 8 ++ [0x00; 0x1d; 0x00; 0x17; 0x00; 0x19; 0x00; 0x18] ++
  be16 0x000d ++ be16 32 ++ be16 30 ++
  [0x06; 0x01; 0x06; 0x02; 0x06; 0x03; 0x05; 0x01; 0x05; 0x02; 0x05; 0x03; 0x04; 0x01; 0x04; 0x02;
   0x04; 0x03; 0x03; 0x01; 0x03; 0x02; 0x03; 0x03; 0x02; 0x01; 0x02; 0x02; 0x02; 0x03] ++
  be16 0x0016 ++ be16 0 ++ be16 0x0017 ++ be16 0.

Definition tls_server_hello_template : tls_server_hello :=
  mk_server_hello 0x16 0x0301 91 2 0 87 0x0303 0 (replicate 28 0) 32 (replicate 32 0)
    0xCCA8 0 0 0xFF01 1 0 0x0017 0 0x000B 2 1 [0].

Definition tls_change_cipher_spec_template : tls_change_cipher_spec := mk_ccs 0x14 0x0303 1 0x01.
Definition tls_encrypted_handshake_template : tls_encrypted_handshake := mk_eh 0x16 0x0303 0.

(** [sizeof] of the packed structures. *)
Definition sizeof_client_hello : Z := 138.
Definition sizeof_server_name : Z := 9.
Definition sizeof_session_ticket : Z := 4.
Definition sizeof_ext_others : Z := 66.
Definition sizeof_server_hello : Z := 96.
Definition sizeof_change_cipher_spec : Z := 6.
Definition sizeof_encrypted_handshake : Z := 5.

(** ** Operations *)
Record tls_statics := mkstatics { req_tmp : buffer; resp_tmp : buffer }.
Definition tls_statics_init : tls_statics := mkstatics (mkbuf 0 0 0 []) (mkbuf 0 0 0 []).

(** The client hello of [obfs_tls_request] with its run-time fields set. *)
Definition request_hello (tls_len ext_len : Z) (rnd sid : list Z) (t : Z) : tls_client_hello :=
  let h := tls_client_hello_template in
  mk_client_hello (ch_content_type h) (ch_version h) (tls_len - 5)
    (ch_handshake_type h) (ch_handshake_len_1 h) (tls_len - 9) (ch_handshake_version h)
    t rnd (ch_session_id_len h) sid
    (ch_cipher_suites_len h) (ch_cipher_suites h)
    (ch_comp_methods_len h) (ch_comp_methods h) ext_len.

Definition request_server_name (host_len : Z) : tls_ext_server_name :=
  mk_server_name (sn_ext_type tls_ext_server_name_template) (host_len + 3 + 2) (host_len + 3)
    (sn_type tls_ext_server_name_template) host_len.

Definition obfs_tls_request (c : obfs_conf) (b : buffer) (cap : Z) (obfs : option obfs_t)
    (st : tls_statics) (w : world) : op_result tls_statics :=
  match obfs with
  | None => Ret (0, b, obfs, st, w)
  | Some o =>
    if obfs_stage o <? 0 then Ret (0, b, obfs, st, w)
    else if obfs_stage o =? 0 then
      match host c with
      | None => Fault                             (* strlen(NULL) *)
      | Some hst =>
        let buf_len := len b in
        let hello_len := sizeof_client_hello in
        let server_name_len := sizeof_server_name in
        let host_len := zlen hst in
        let ticket_len := sizeof_session_ticket in
        let other_ext_len := sizeof_ext_others in
        let tls_len := buf_len + hello_len + server_name_len + host_len + ticket_len + other_ext_len in
        let tmp := grow (req_tmp st) buf_len cap in
        let b := grow b tls_len cap in
        p ← mread (data b) 0 buf_len;
        td ← mwrite (data tmp) 0 p;
        let tmp := set_data tmp td in
        let '(rnd, w1) := rand_bytes 28 w in
        let '(sid, w2) := rand_bytes 32 w1 in
        d1 ← mwrite (data b) 0 (enc_client_hello
               (request_hello tls_len (server_name_len + host_len + ticket_len + buf_len + other_ext_len)
                  rnd sid (u32 (now w))));
        let ticket := hello_len in
        d2 ← mwrite d1 ticket (enc_ticket (mk_ticket (st_type tls_ext_session_ticket_template) buf_len));
        tp ← mread (data tmp) 0 buf_len;
        d3 ← mwrite d2 (ticket + ticket_len) tp;
        let server_name := ticket + ticket_len + buf_len in
        d4 ← mwrite d3 server_name (enc_server_name (request_server_name host_len));
        d5 ← mwrite d4 (server_name + server_name_len) hst;
        d6 ← mwrite d5 (server_name + server_name_len + host_len) tls_ext_others_template;
        let b := set_len (set_data b d6) tls_len in
        Ret (s32 (len b), b, Some (set_obfs_stage o (obfs_stage o + 1)),
             mkstatics tmp (resp_tmp st), w2)
      end
    else if obfs_stage o =? 1 then
      '(_, b) ← obfs_app_data b cap;
      Ret (s32 (len b), b, obfs, st, w)
    else Ret (s32 (len b), b, obfs, st, w)
  end.

Definition response_hello (rnd sid : list Z) (t : Z) : tls_server_hello :=
  let h := tls_server_hello_template in
  mk_server_hello (sh_content_type h) (sh_version h) (sh_len h)
    (sh_handshake_type h) (sh_handshake_len_1 h) (sh_handshake_len_2 h) (sh_handshake_version h)
    t rnd (sh_session_id_len h) sid
    (sh_cipher_suite h) (sh_comp_method h) (sh_ext_len h)
    (sh_renego_type h) (sh_renego_ext_len h) (sh_renego_len h)
    (sh_ems_type h) (sh_ems_ext_len h)
    (sh_ecpf_type h) (sh_ecpf_ext_len h) (sh_ecpf_len h) (sh_ecpf h).

Definition obfs_tls_response (b : buffer) (cap : Z) (obfs : option obfs_t)
    (st : tls_statics) (w : world) : op_result tls_statics :=
  match obfs with
  | None => Ret (0, b, obfs, st, w)
  | Some o =>
    if obfs_stage o <? 0 then Ret (0, b, obfs, st, w)
    else if obfs_stage o =? 0 then
      let buf_len := len b in
      let hello_len := sizeof_server_hello in
      let change_cipher_spec_len := sizeof_change_cipher_spec in
      let encrypted_handshake_len := sizeof_encrypted_handshake in
      let tls_len := hello_len + change_cipher_spec_len + encrypted_handshake_len + buf_len in
      let tmp := grow (resp_tmp st) buf_len cap in
      let b := grow b tls_len cap in
      p ← mread (data b) 0 buf_len;
      td ← mwrite (data tmp) 0 p;
      let tmp := set_data tmp td in
      let '(rnd, w1) := rand_bytes 28 w in
      '(sid, w2) ← match obuf o with
                   | Some sb => s ← mread (data sb) 0 32; Ret (s, w1)
                   | None => Ret (rand_bytes 32 w1)
                   end;
      d1 ← mwrite (data b) 0 (enc_server_hello (response_hello rnd sid (u32 (now w))));
      d2 ← mwrite d1 hello_len (enc_ccs tls_change_cipher_spec_template);
      d3 ← mwrite d2 (hello_len + change_cipher_spec_len)
             (enc_eh (mk_eh (eh_content_type tls_encrypted_handshake_template)
                            (eh_version tls_encrypted_handshake_template) buf_len));
      tp ← mread (data tmp) 0 buf_len;
      d4 ← mwrite d3 (hello_len + change_cipher_spec_len + encrypted_handshake_len) tp;
      let b := set_len (set_data b d4) tls_len in
      Ret (s32 (len b), b, Some (set_obfs_stage o (obfs_stage o + 1)),
           mkstatics (req_tmp st) tmp, w2)
    else if obfs_stage o =? 1 then
      '(_, b) ← obfs_app_data b cap;
      Ret (s32 (len b), b, obfs, st, w)
    else Ret (s32 (len b), b, obfs, st, w)
  end.

(** A big-endian 16-bit field read through a structure pointer ([CT_NTOHS]). *)
Definition get_be16 (m : list Z) (off : Z) : outcome Z :=
  h ← mget m off; l ← mget m (off + 1); Ret (of_be16 h l).

(** Byte offsets of the fields the decoders read. *)
Definition off_ch_len : Z := 3.
Definition off_ch_session_id : Z := 44.
Definition off_st_ext_len : Z := 2.
Definition off_eh_len : Z := 3.

(** [deobfs_app_data(buf, i, obfs)] through [obfs->extra]. *)
Definition deobfs_app_data_obfs (b : buffer) (i : Z) (o : obfs_t)
    : outcome (Z * buffer * option obfs_t) :=
  match extra o with
  | None => Fault
  | Some f => '(r, b', f') ← deobfs_app_data b i f; Ret (r, b', Some (set_extra o (Some f')))
  end.

(** The lazily allocated fields, at the top of both decoders. *)
Definition alloc_extra (o : obfs_t) : obfs_t :=
  match extra o with None => set_extra o (Some frame_zero) | Some _ => o end.
Definition alloc_obuf (o : obfs_t) : obfs_t :=
  match obuf o with None => set_obuf o (Some (set_len (balloc 32) 32)) | Some _ => o end.

Definition set_frame_idx (o : obfs_t) (i : Z) : obfs_t :=
  set_extra o ((λ f, mkframe i (flen f) (fbuf f)) <$> extra o).

Definition deobfs_tls_request (b : buffer) (obfs : option obfs_t)
    : outcome (Z * buffer * option obfs_t) :=
  match obfs with
  | None => Ret (0, b, obfs)
  | Some o =>
    if deobfs_stage o <? 0 then Ret (0, b, obfs)
    else
      let o := alloc_obuf (alloc_extra o) in
      if deobfs_stage o =? 0 then
        let n := s32 (len b) - sizeof_client_hello in
        if n <=? 0 then Ret (OBFS_NEED_MORE, b, Some o)
        else
          ct ← mget (data b) 0;
          if negb (ct =? ch_content_type tls_client_hello_template) then Ret (OBFS_ERROR, b, Some o)
          else
            hl ← get_be16 (data b) off_ch_len;
            let hello_len := hl + 5 in
            sid ← mread (data b) off_ch_session_id 32;
            match obuf o with
            | None => Fault
            | Some sb =>
              sd ← mwrite (data sb) 0 sid;
              let o := set_obuf o (Some (set_data sb sd)) in
              let n := n - sizeof_session_ticket in
              if n <=? 0 then Ret (OBFS_NEED_MORE, b, Some o)
              else
                let ticket := sizeof_client_hello in
                ty ← get_be16 (data b) ticket;
                if negb (ty =? st_type tls_ext_session_ticket_template)
                then Ret (OBFS_ERROR, b, Some o)
                else
                  ticket_len ← get_be16 (data b) (ticket + off_st_ext_len);
                  if n <? ticket_len then Ret (OBFS_NEED_MORE, b, Some o)
                  else
                    d1 ← memmove (data b) 0 (ticket + sizeof_session_ticket) ticket_len;
                    d2 ← (if hello_len <? len b
                          then memmove d1 ticket_len hello_len (len b - hello_len)
                          else Ret d1);
                    let b := set_len (set_data b d2) (u64 (ticket_len + len b - hello_len)) in
                    let o := set_deobfs_stage o (deobfs_stage o + 1) in
                    if ticket_len <? len b then deobfs_app_data_obfs b ticket_len o
                    else Ret (0, b, Some (set_frame_idx o (s16 (u64 (len b - ticket_len)))))
            end
      else if deobfs_stage o =? 1 then deobfs_app_data_obfs b 0 o
      else Ret (0, b, Some o)
  end.

Definition deobfs_tls_response (b : buffer) (obfs : option obfs_t)
    : outcome (Z * buffer * option obfs_t) :=
  match obfs with
  | None => Ret (0, b, obfs)
  | Some o =>
    if deobfs_stage o <? 0 then Ret (0, b, obfs)
    else
      let o := alloc_extra o in
      if deobfs_stage o =? 0 then
        let hello_len := sizeof_server_hello in
        let n := s32 (len b) - hello_len in
        if n <=? 0 then Ret (OBFS_NEED_MORE, b, Some o)
        else
          ct ← mget (data b) 0;
          if negb (ct =? sh_content_type tls_server_hello_template) then Ret (OBFS_ERROR, b, Some o)
          else
            let change_cipher_spec_len := sizeof_change_cipher_spec in
            let encrypted_handshake_len := sizeof_encrypted_handshake in
            let n := n - (change_cipher_spec_len + encrypted_handshake_len) in
            if n <=? 0 then Ret (OBFS_NEED_MORE, b, Some o)
            else
              let tls_len := hello_len + change_cipher_spec_len + encrypted_handshake_len in
              msg_len ← get_be16 (data b) (hello_len + change_cipher_spec_len + off_eh_len);
              d ← memmove (data b) 0 tls_len (len b - tls_len);
              let b := set_len (set_data b d) (len b - tls_len) in
              let o := set_deobfs_stage o (deobfs_stage o + 1) in
              if msg_len <? len b then deobfs_app_data_obfs b msg_len o
              else Ret (0, b, Some (set_frame_idx o (s16 (u64 (len b - msg_len)))))
      else if deobfs_stage o =? 1 then deobfs_app_data_obfs b 0 o
      else Ret (0, b, Some o)
  end.

Definition check_tls_request (b : buffer) : outcome Z :=
  if s32 (len b) <? 11 then Ret OBFS_NEED_MORE
  else
    d0 ← mget (data b) 0; d1 ← mget (data b) 1; d2 ← mget (data b) 2;
    d5 ← mget (data b) 5; d9 ← mget (data b) 9; d10 ← mget (data b) 10;
    if (d0 =? 0x16) && (d1 =? 0x03) && (d2 =? 0x01) && (d5 =? 0x01) && (d9 =? 0x03) && (d10 =? 0x03)
    then Ret OBFS_OK else Ret OBFS_ERROR.

Definition disable_tls (o : obfs_t) : obfs_t := mkobfs (-1) (-1) (obuf o) (extra o).
Definition is_enable_tls (o : obfs_t) : bool :=
  negb (obfs_stage o =? -1) && negb (deobfs_stage o =? -1).

Definition lift_deobfs (f : buffer → option obfs_t → outcome (Z * buffer * option obfs_t))
    : obfs_op tls_statics :=
  λ b _ o st w, '(r, b', o') ← f b o; Ret (r, b', o', st, w).

(** The table [obfs_tls_st]; host, uri and port are set by [main]. *)
Definition obfs_tls (c : obfs_conf) : obfs_para tls_statics :=
  mkpara (bytes "tls") c false (obfs_tls_request c) obfs_tls_response
    (lift_deobfs deobfs_tls_request) (lift_deobfs deobfs_tls_response)
    check_tls_request disable_tls is_enable_tls.

(** ** Well-formed protocol state *)
Definition statics_ok (st : tls_statics) : Prop := buffer_ok (req_tmp st) ∧ buffer_ok (resp_tmp st).

Lemma statics_init_ok : statics_ok tls_statics_init.
Proof. by split; split; simpl; try lia; constructor. Qed.

(** ** The encoders *)
Lemma length_enc_client_hello tl el rnd sid t :
  zlen rnd = 28 → zlen sid = 32 → zlen (enc_client_hello (request_hello tl el rnd sid t)) = sizeof_client_hello.
Proof.
  intros H1 H2. unfold enc_client_hello, request_hello, sizeof_client_hello. cbn -[length app Z.of_nat].
  rewrite !length_app. cbn. lia.
Qed.

Lemma length_enc_server_hello rnd sid t :
  zlen rnd = 28 → zlen sid = 32 → zlen (enc_server_hello (response_hello rnd sid t)) = sizeof_server_hello.
Proof.
  intros H1 H2. unfold enc_server_hello, response_hello, sizeof_server_hello. cbn -[length app Z.of_nat].
  rewrite !length_app. cbn. lia.
Qed.

Ltac byte_list := repeat first
  [ apply Forall_app; split | apply be16_ok | apply be32_ok | assumption
  | apply bytes_okb_ok; reflexivity ].

Lemma enc_client_hello_ok tl el rnd sid t :
  bytes_ok rnd → bytes_ok sid → bytes_ok (enc_client_hello (request_hello tl el rnd sid t)).
Proof.
  intros. unfold enc_client_hello, request_hello, bytes_ok. cbn -[be16 be32 app]. byte_list.
Qed.

Lemma enc_server_hello_ok rnd sid t :
  bytes_ok rnd → bytes_ok sid → bytes_ok (enc_server_hello (response_hello rnd sid t)).
Proof.
  intros. unfold enc_server_hello, response_hello, bytes_ok. cbn -[be16 be32 app]. byte_list.
Qed.

Lemma enc_server_name_ok n : bytes_ok (enc_server_name (request_server_name n)).
Proof. unfold enc_server_name, bytes_ok. cbn -[be16 app]. byte_list. Qed.

Lemma tls_ext_others_ok : bytes_ok tls_ext_others_template.
Proof. unfold tls_ext_others_template, bytes_ok. byte_list. Qed.

Lemma enc_ticket_ok t n : bytes_ok (enc_ticket (mk_ticket t n)).
Proof. unfold enc_ticket, bytes_ok. cbn -[be16 app]. byte_list. Qed.

Lemma enc_eh_ok n : bytes_ok (enc_eh (mk_eh 0x16 0x0303 n)).
Proof. unfold enc_eh, bytes_ok. cbn -[be16 app]. byte_list. Qed.

Lemma enc_ccs_ok : bytes_ok (enc_ccs tls_change_cipher_spec_template).
Proof. unfold enc_ccs, bytes_ok. cbn -[be16 app]. byte_list. Qed.

#[export] Hint Resolve enc_client_hello_ok enc_server_hello_ok enc_server_name_ok
  tls_ext_others_ok enc_ticket_ok enc_eh_ok enc_ccs_ok : obfs.

(** The bytes [obfs_tls_request] sends for a first payload [p]. *)
Definition request_bytes (hst rnd sid p : list Z) (t : Z) : list Z :=
  let tls_len := zlen p + sizeof_client_hello + sizeof_server_name + zlen hst
                 + sizeof_session_ticket + sizeof_ext_others in
  enc_client_hello (request_hello tls_len
    (sizeof_server_name + zlen hst + sizeof_session_ticket + zlen p + sizeof_ext_others) rnd sid t) ++
  enc_ticket (mk_ticket 0x0023 (zlen p)) ++ p ++
  enc_server_name (request_server_name (zlen hst)) ++ hst ++ tls_ext_others_template.

(** The bytes [obfs_tls_response] sends for a first payload [p]. *)
Definition response_bytes (rnd sid p : list Z) (t : Z) : list Z :=
  enc_server_hello (response_hello rnd sid t) ++ enc_ccs tls_change_cipher_spec_template ++
  enc_eh (mk_eh 0x16 0x0303 (zlen p)) ++ p.

(** Copying a payload through a static [tmp] buffer. *)
Lemma tmp_copy tmp p cap :
  buffer_ok tmp → bytes_ok p →
  ∃ td, mwrite (data (grow tmp (zlen p) cap)) 0 p = Ret td ∧ mread td 0 (zlen p) = Ret p ∧
    buffer_ok (set_data (grow tmp (zlen p) cap) td).
Proof.
  intros Ht Hp. pose proof (grow_ok tmp (zlen p) cap Ht) as Hg.
  pose proof (grow_capacity tmp (zlen p) cap) as Hc. pose proof Hg as [Gd Gl Gi Gb].
  assert (W : mwrite (data (grow tmp (zlen p) cap)) 0 p =
              Ret (([] ++ p) ++ drop (length p) (data (grow tmp (zlen p) cap))))
    by (apply (mwrite_extend []); [done|lia]).
  eexists. split; [exact W|]. split; [apply mread_prefix|].
  eapply mwrite_same in W; [|done]. apply (same_object_buffer _ _ (len (grow tmp (zlen p) cap))) in W; auto.
Qed.

Lemma obfs_tls_request_hello c hst b cap o st w :
  buffer_ok b → statics_ok st → host c = Some hst → bytes_ok hst → obfs_stage o = 0 →
  ∃ b' st' w',
    obfs_tls_request c b cap (Some o) st w =
      Ret (s32 (len b'), b', Some (set_obfs_stage o 1), st', w') ∧
    content b' = request_bytes hst (rand_bytes 28 w).1
                   (rand_bytes 32 (rand_bytes 28 w).2).1 (content b) (u32 (now w)) ∧
    buffer_ok b' ∧ statics_ok st' ∧ capacity b ≤ capacity b'.
Proof.
  intros Hb [Hs1 Hs2] Hh Hho Ho. pose proof (content_length b Hb) as Hc.
  pose proof (content_ok b Hb) as Hco. pose proof (ok_len b Hb) as Hl.
  unfold obfs_tls_request. rewrite Ho, Hh. cbv match beta zeta. rewrite <- Hc.
  set (p := content b) in *. set (tls_len := zlen p + _ + _ + _ + _ + _).
  pose proof (length_rand_bytes 28 w ltac:(lia) eq_refl) as Lr.
  pose proof (rand_bytes_ok 28 w) as Or. destruct (rand_bytes 28 w) as [rnd w1]. simpl in Lr, Or.
  pose proof (length_rand_bytes 32 w1 ltac:(lia) eq_refl) as Ls.
  pose proof (rand_bytes_ok 32 w1) as Os. destruct (rand_bytes 32 w1) as [sid w2] eqn:E32. simpl in Ls, Os.
  destruct (grow_split b tls_len cap Hb) as (t & Hg & Hto & Ht). fold p in Hg.
  pose proof (grow_capacity b tls_len cap) as Gc. pose proof (grow_idx b tls_len cap) as Gi.
  set (g := grow b tls_len cap) in *.
  assert (Htl : tls_len = zlen p + 138 + 9 + zlen hst + 4 + 66) by reflexivity.
  destruct (tmp_copy (req_tmp st) p cap Hs1 Hco) as (td & W0 & R0 & Hs1').
  assert (M0 : mread (data g) 0 (zlen p) = Ret p) by (rewrite Hg; apply mread_prefix).
  assert (Hz : zlen (data g) = capacity g) by (rewrite Hg, length_app; lia).
  simpl (0 <? 0). simpl (0 =? 0). cbv match. rewrite M0, bind_Ret, W0, bind_Ret.
  set (H := enc_client_hello _). set (K := enc_ticket _). set (N := enc_server_name _).
  assert (LH : zlen H = 138) by by apply length_enc_client_hello.
  assert (LK : zlen K = 4) by done. assert (LN : zlen N = 9) by done.
  assert (LO : zlen tls_ext_others_template = 66) by done.
  unfold sizeof_client_hello, sizeof_session_ticket, sizeof_server_name.
  rewrite (mwrite_extend [] (data g)), bind_Ret by (done || lia). rewrite app_nil_l.
  rewrite mwrite_extend, bind_Ret by (rewrite ?length_drop; lia).
  simpl (data (set_data _ _)). rewrite R0, bind_Ret.
  do 4 (rewrite mwrite_extend, bind_Ret by (rewrite ?length_app, ?length_drop; lia)).
  rewrite !drop_drop. eexists _, _, w2. split; [done|].
  assert (EX : request_bytes hst rnd sid p (u32 (now w)) = H ++ K ++ p ++ N ++ hst ++ tls_ext_others_template)
    by reflexivity.
  assert (OX : bytes_ok (request_bytes hst rnd sid p (u32 (now w)))).
  { rewrite EX, !bytes_ok_app. unfold H, K, N. split_and!; auto with obfs. }
  assert (LX : tls_len = zlen (request_bytes hst rnd sid p (u32 (now w))))
    by (rewrite EX, !length_app; lia).
  destruct (overwrite_ok g _ (grow_ok b tls_len cap Hb) OX ltac:(lia)) as [Hcont Hok].
  rewrite <- LX in Hcont, Hok. rewrite EX, !length_app, <- !app_assoc in Hcont, Hok.
  rewrite <- !app_assoc. cbn [fst snd]. rewrite E32. cbn [fst].
  split_and!; [by rewrite EX|done|by split|simpl; lia].
Qed.

Record obfs_ok (o : obfs_t) : Prop := {
  ook_stage : -1 ≤ obfs_stage o ∧ -1 ≤ deobfs_stage o;
  ook_obuf : ∀ sb, obuf o = Some sb → buffer_ok sb ∧ capacity sb = 32;
  ook_extra : ∀ f, extra o = Some f → frame_ok f }.

(** The session id a server hello carries: the client's, once seen. *)
Definition response_sid (o : obfs_t) (w : world) : list Z :=
  match obuf o with
  | Some sb => take 32 (data sb)
  | None => (rand_bytes 32 (rand_bytes 28 w).2).1
  end.

Lemma response_sid_spec o w1 rnd w :
  obfs_ok o → rand_bytes 28 w = (rnd, w1) →
  ∃ w2, match obuf o with
        | Some sb => s ← mread (data sb) 0 32; Ret (s, w1)
        | None => Ret (rand_bytes 32 w1)
        end = Ret (response_sid o w, w2) ∧
    zlen (response_sid o w) = 32 ∧ bytes_ok (response_sid o w).
Proof.
  intros [_ Hob _] E. unfold response_sid. rewrite E. destruct (obuf o) as [sb|].
  - destruct (Hob sb eq_refl) as [[Hd _ _ Hy] Hc]. exists w1. split_and!.
    + unfold mread. ifs. by rewrite drop_0.
    + rewrite length_take. lia.
    + by apply Forall_take.
  - cbn [fst snd]. exists (rand_bytes 32 w1).2.
    pose proof (length_rand_bytes 32 w1 ltac:(lia) eq_refl) as L.
    split_and!; [by destruct (rand_bytes 32 w1)|done|apply rand_bytes_ok].
Qed.

Lemma obfs_tls_response_hello b cap o st w :
  buffer_ok b → statics_ok st → obfs_ok o → obfs_stage o = 0 →
  ∃ b' st' w',
    obfs_tls_response b cap (Some o) st w =
      Ret (s32 (len b'), b', Some (set_obfs_stage o 1), st', w') ∧
    content b' = response_bytes (rand_bytes 28 w).1 (response_sid o w) (content b) (u32 (now w)) ∧
    buffer_ok b' ∧ statics_ok st'.
Proof.
  intros Hb [Hs1 Hs2] Hok Ho. pose proof (content_length b Hb) as Hc.
  pose proof (content_ok b Hb) as Hco. pose proof (ok_len b Hb) as Hl.
  unfold obfs_tls_response. rewrite Ho. cbv beta zeta. rewrite <- Hc.
  set (p := content b) in *. set (tls_len := _ + _ + _ + zlen p).
  pose proof (length_rand_bytes 28 w ltac:(lia) eq_refl) as Lr.
  pose proof (rand_bytes_ok 28 w) as Or. destruct (rand_bytes 28 w) as [rnd w1] eqn:E28. simpl in Lr, Or.
  destruct (response_sid_spec o w1 rnd w Hok E28) as (w2 & Esid & Ls & Os).
  set (sid := response_sid o w) in *.
  destruct (grow_split b tls_len cap Hb) as (t & Hg & Hto & Ht). fold p in Hg.
  pose proof (grow_capacity b tls_len cap) as Gc. set (g := grow b tls_len cap) in *.
  assert (Htl : tls_len = 107 + zlen p) by reflexivity.
  destruct (tmp_copy (resp_tmp st) p cap Hs2 Hco) as (td & W0 & R0 & Hs2').
  assert (M0 : mread (data g) 0 (zlen p) = Ret p) by (rewrite Hg; apply mread_prefix).
  assert (Hz : zlen (data g) = capacity g) by (rewrite Hg, length_app; lia).
  simpl (0 <? 0). simpl (0 =? 0). cbv match. rewrite M0, bind_Ret, W0, bind_Ret, Esid, bind_Ret.
  set (H := enc_server_hello _). set (K := enc_ccs _). set (N := enc_eh _).
  assert (LH : zlen H = 96) by by apply length_enc_server_hello.
  assert (LK : zlen K = 6) by done. assert (LN : zlen N = 5) by done.
  unfold sizeof_server_hello, sizeof_change_cipher_spec, sizeof_encrypted_handshake.
  rewrite (mwrite_extend [] (data g)), bind_Ret by (done || lia). rewrite app_nil_l.
  rewrite mwrite_extend, bind_Ret by (rewrite ?length_drop; lia).
  simpl (data (set_data _ _)).
  rewrite mwrite_extend, bind_Ret by (rewrite ?length_app, ?length_drop; lia).
  rewrite R0, bind_Ret.
  rewrite mwrite_extend, bind_Ret by (rewrite ?length_app, ?length_drop; lia).
  rewrite !drop_drop. eexists _, _, w2. split; [done|].
  assert (EX : response_bytes rnd sid p (u32 (now w)) = H ++ K ++ N ++ p) by reflexivity.
  assert (OX : bytes_ok (response_bytes rnd sid p (u32 (now w)))).
  { rewrite EX, !bytes_ok_app. unfold H, K, N. split_and!; auto with obfs. }
  assert (LX : tls_len = zlen (response_bytes rnd sid p (u32 (now w))))
    by (rewrite EX, !length_app; lia).
  destruct (overwrite_ok g _ (grow_ok b tls_len cap Hb) OX ltac:(lia)) as [Hcont Hok'].
  rewrite <- LX in Hcont, Hok'. rewrite EX, !length_app, <- !app_assoc in Hcont, Hok'.
  rewrite <- !app_assoc. cbn [fst].
  split_and!; [by rewrite EX|done|by split].
Qed.

(** ** The client's decoder *)
Lemma get_be16_app a h l b off : off = zlen a → get_be16 (a ++ h :: l :: b) off = Ret (of_be16 h l).
Proof.
  intros ->. unfold get_be16. rewrite mget_app, bind_Ret.
  pose proof (mget_app (a ++ [h]) l b) as H. rewrite <- app_assoc, length_app in H. simpl in H.
  replace (zlen a + 1) with (Z.of_nat (length a + 1)) by lia. by rewrite H.
Qed.

Lemma get_be16_at m off a h l b n :
  m = a ++ [h; l] ++ b → off = zlen a → of_be16 h l = n → get_be16 m off = Ret n.
Proof. intros -> Ho <-. by apply get_be16_app. Qed.

Lemma deobfs_app_data_obfs_dec b i o f :
  buffer_ok b → frame_ok f → extra o = Some f → 0 ≤ i ≤ len b →
  match dec_stream f (drop (Z.to_nat i) (content b)) with
  | Ret (Some (x, f')) => ∃ b', deobfs_app_data_obfs b i o = Ret (0, b', Some (set_extra o (Some f'))) ∧
      content b' = take (Z.to_nat i) (content b) ++ x ∧ buffer_ok b' ∧ frame_ok f'
  | Ret None => ∃ b' o', deobfs_app_data_obfs b i o = Ret (OBFS_ERROR, b', o')
  | Fault => deobfs_app_data_obfs b i o = Fault
  | Exit => False
  end.
Proof.
  intros Hb Hf He Hi. pose proof (deobfs_app_data_dec b i f Hb Hf Hi) as H.
  unfold deobfs_app_data_obfs. rewrite He.
  destruct (dec_stream f _) as [[[x f']|]| |]; [| |by rewrite H|done].
  - destruct H as (b' & -> & Hc & _ & _ & Hok & Hf'). simpl. eauto 10.
  - destruct H as (b' & f' & ->). simpl. eauto.
Qed.

(** A decoder that has seen no handshake yet. *)
Definition fresh_decoder (o : obfs_t) : Prop :=
  deobfs_stage o = 0 ∧ (extra o = None ∨ extra o = Some frame_zero).

(** A decoder past the handshake, in frame state [f]. *)
Definition streaming (o : obfs_t) (f : frame) : Prop :=
  deobfs_stage o = 1 ∧ extra o = Some f ∧ frame_ok f.

Lemma alloc_extra_fresh o :
  fresh_decoder o → extra (alloc_extra o) = Some frame_zero ∧ deobfs_stage (alloc_extra o) = 0.
Proof. unfold alloc_extra. intros [H1 [H2 | H2]]; rewrite H2; done. Qed.

(** The server hello consumed, the decoder runs on the rest of the buffer with
    the payload length of the encrypted-handshake record still to pass. *)
Lemma deobfs_tls_response_hello b o x mh ml body :
  buffer_ok b → fresh_decoder o → len b < 2 ^ 31 →
  content b = 0x16 :: x ++ mh :: ml :: body → zlen x = 104 → body ≠ [] →
  0 ≤ of_be16 mh ml ≤ 32768 →
  match dec_stream (mkframe (- of_be16 mh ml) 0 [0; 0]) body with
  | Ret (Some (out, f')) => ∃ b' o', deobfs_tls_response b (Some o) = Ret (0, b', Some o') ∧
      content b' = out ∧ buffer_ok b' ∧ streaming o' f'
  | Ret None => ∃ b' o', deobfs_tls_response b (Some o) = Ret (OBFS_ERROR, b', o')
  | Fault => deobfs_tls_response b (Some o) = Fault
  | Exit => False
  end.
Proof.
  intros Hb Hfr Hsz Hc Hx Hbody Hm. pose proof (content_length b Hb) as Hl. rewrite Hc in Hl.
  pose proof (content_ok b Hb) as Hbo. rewrite Hc in Hbo.
  assert (Hlen : len b = 107 + zlen body) by (cbn [length] in Hl; rewrite length_app in Hl; cbn [length] in Hl; lia).
  assert (0 < zlen body) by (destruct body; [done|simpl; lia]).
  destruct (alloc_extra_fresh o Hfr) as [He Hs]. set (m := of_be16 mh ml) in *.
  unfold deobfs_tls_response, sizeof_server_hello, sizeof_change_cipher_spec, sizeof_encrypted_handshake, off_eh_len.
  destruct Hfr as [Hst _]. rewrite Hst, Hs, s32_small by lia. ifs.
  set (T := drop (Z.to_nat (len b)) (data b)).
  assert (Hdat : data b = (0x16 :: x ++ [mh; ml]) ++ body ++ T).
  { rewrite (data_split b) at 1. rewrite Hc. fold T. simpl. by rewrite <- !app_assoc. }
  assert (G0 : mget (data b) 0 = Ret 0x16) by by rewrite Hdat.
  rewrite G0, bind_Ret. simpl (negb _). cbv match.
  assert (G1 : get_be16 (data b) (96 + 6 + 3) = Ret m).
  { rewrite Hdat. simpl app. rewrite <- app_assoc. apply (get_be16_app (0x16 :: x)). simpl. lia. }
  rewrite G1, bind_Ret.
  assert (G2 : memmove (data b) 0 (96 + 6 + 5) (len b - (96 + 6 + 5)) = Ret (body ++ drop (length body) (data b))).
  { rewrite Hdat at 1. replace (len b - (96 + 6 + 5)) with (zlen body) by lia.
    replace (96 + 6 + 5) with (zlen (0x16 :: x ++ [mh; ml])) by (simpl; rewrite length_app; simpl; lia).
    rewrite memmove_down, <- Hdat. done. }
  rewrite G2, bind_Ret. replace (len b - (96 + 6 + 5)) with (zlen body) by lia.
  assert (Hbb : bytes_ok body).
  { assert (Hc' : content b = (0x16 :: x ++ [mh; ml]) ++ body)
      by (rewrite Hc; simpl; by rewrite <- app_assoc).
    rewrite <- Hc, Hc', bytes_ok_app in Hbo. tauto. }
  destruct (overwrite_ok b body Hb Hbb ltac:(destruct Hb; lia)) as [Hc1 Hok1].
  set (b1 := set_len _ _) in *. set (o1 := set_deobfs_stage (alloc_extra o) (0 + 1)).
  assert (Hl1 : len b1 = zlen body) by done. assert (He1 : extra o1 = Some frame_zero) by done.
  rewrite dec_stream_neg, <- Hl1 by lia. destruct (m <? len b1) eqn:Em; bool_hyps.
  - pose proof (deobfs_app_data_obfs_dec b1 m o1 frame_zero Hok1 ltac:(by apply idle_ok) He1 ltac:(lia)) as Hd.
    rewrite Hc1 in Hd. simpl. fold frame_zero.
    destruct (dec_stream frame_zero _) as [[[out f']|]| |]; simpl; [|done..].
    destruct Hd as (b' & -> & Hc2 & Hok2 & Hf2). eexists _, _. by split_and!.
  - eexists _, _. split_and!; [done|done|done|]. unfold set_frame_idx. rewrite He1. simpl.
    rewrite s16_u64 by lia. split_and!; [done..|]. split; simpl; lia.
Qed.

(** ** Whole connections *)
(** The wire bytes of a server that passes each payload buffer through
    [obfs_tls_response], threading the connection state. *)
Fixpoint response_sends (o : obfs_t) (st : tls_statics) (w : world) (cap : Z) (bs : list buffer)
    : outcome (list Z) :=
  match bs with
  | [] => Ret []
  | b :: bs' =>
      '(_, b', o', st', w') ← obfs_tls_response b cap (Some o) st w;
      match o' with
      | None => Fault
      | Some o' => t ← response_sends o' st' w' cap bs'; Ret (content b' ++ t)
      end
  end.

(** A client that passes each received buffer through [deobfs_tls_response] and
    gives up on a non-zero result, as [remote_recv_cb] does. *)
Fixpoint response_run (o : obfs_t) (bs : list buffer) : outcome (option (list Z * obfs_t)) :=
  match bs with
  | [] => Ret (Some ([], o))
  | b :: bs' =>
      '(r, b', o') ← deobfs_tls_response b (Some o);
      match o' with
      | Some o' =>
        if r =? 0 then
          t ← response_run o' bs';
          match t with
          | Some (x, o'') => Ret (Some (content b' ++ x, o''))
          | None => Ret None
          end
        else Ret None
      | None => Fault
      end
  end.

Lemma response_sends_stage1 o st w cap bs :
  obfs_stage o = 1 → Forall buffer_ok bs →
  response_sends o st w cap bs = Ret (concat (map record (map content bs))).
Proof.
  intros Ho. induction 1 as [|b bs Hb _ IH]; [done|]. cbn [response_sends map concat].
  unfold obfs_tls_response. rewrite Ho. ifs.
  destruct (obfs_app_data_spec b cap Hb) as (b' & -> & Hc & _).
  cbn [mbind outcome_bind]. by rewrite IH, Hc.
Qed.

Lemma response_sends_wire o st w cap b bs :
  buffer_ok b → Forall buffer_ok bs → statics_ok st → obfs_ok o → obfs_stage o = 0 →
  response_sends o st w cap (b :: bs) =
  Ret (response_bytes (rand_bytes 28 w).1 (response_sid o w) (content b) (u32 (now w)) ++
       concat (map record (map content bs))).
Proof.
  intros Hb Hbs Hst Ho H0. cbn [response_sends].
  destruct (obfs_tls_response_hello b cap o st w Hb Hst Ho H0) as (b' & st' & w' & -> & Hc & _).
  cbn [mbind outcome_bind]. by rewrite response_sends_stage1, Hc.
Qed.

Lemma response_run_streaming o f bs :
  streaming o f → Forall buffer_ok bs →
  match dec_stream f (concat (map content bs)) with
  | Ret (Some (x, f')) => ∃ o', response_run o bs = Ret (Some (x, o')) ∧ streaming o' f'
  | Ret None => response_run o bs = Ret None ∨ response_run o bs = Fault
  | _ => True
  end.
Proof.
  intros Hs Hbs. revert o f Hs. induction Hbs as [|b bs Hb _ IH]; intros o f (H1 & He & Hf).
  { simpl. eexists. by split_and!. }
  cbn [map concat response_run]. rewrite dec_stream_app.
  assert (Hd : deobfs_tls_response b (Some o) = deobfs_app_data_obfs b 0 o).
  { unfold deobfs_tls_response, alloc_extra. by rewrite He, H1. }
  pose proof (deobfs_app_data_obfs_dec b 0 o f Hb Hf He ltac:(destruct Hb; lia)) as H.
  rewrite drop_0, take_0 in H. rewrite Hd.
  destruct (dec_stream f (content b)) as [[[x f']|]| |]; [| |done..].
  - destruct H as (b' & -> & Hc & _ & Hf'). cbn [mbind outcome_bind]. rewrite Hc. simpl.
    specialize (IH (set_extra o (Some f')) f' ltac:(by split_and!)).
    destruct (dec_stream f' _) as [[[x' f'']|]| |]; simpl; [| |done..].
    + destruct IH as (o' & -> & Ho'). simpl. eauto.
    + destruct IH as [-> | ->]; simpl; auto.
  - destruct H as (b' & [o'|] & ->); simpl; auto.
Qed.

Lemma response_bytes_shape rnd sid p t :
  zlen rnd = 28 → zlen sid = 32 →
  ∃ x, response_bytes rnd sid p t = 0x16 :: x ++ be16 (zlen p) ++ p ∧ zlen x = 104.
Proof.
  intros Hr Hs. unfold response_bytes.
  pose proof (length_enc_server_hello rnd sid t Hr Hs) as HL. unfold sizeof_server_hello in HL.
  set (H := enc_server_hello _) in *.
  assert (E : H = 0x16 :: tl H) by reflexivity.
  exists (tl H ++ enc_ccs tls_change_cipher_spec_template ++ [0x16; 0x03; 0x03]).
  split.
  - rewrite E at 1. rewrite <- app_comm_cons, <- !app_assoc. done.
  - rewrite !length_app. simpl (length _) at 2 3. rewrite E in HL. cbn [length] in HL. lia.
Qed.

(** A successful decoding of [a ++ b] splits. *)
Lemma dec_stream_app_inv f a b x f' :
  dec_stream f (a ++ b) = Ret (Some (x, f')) →
  ∃ x1 f1 x2, dec_stream f a = Ret (Some (x1, f1)) ∧ dec_stream f1 b = Ret (Some (x2, f')) ∧ x = x1 ++ x2.
Proof.
  rewrite dec_stream_app. destruct (dec_stream f a) as [[[x1 f1]|]| |]; simpl; [|done..].
  destruct (dec_stream f1 b) as [[[x2 f2]|]| |] eqn:E; simpl; [|done..].
  intros [= <- <-]. eauto 10.
Qed.

Lemma dec_response p ps :
  zlen p ≤ 16384 → Forall (λ p, zlen p ≤ 16384) ps →
  ∃ f, dec_stream (mkframe (- zlen p) 0 [0; 0]) (p ++ concat (map record ps)) =
         Ret (Some (p ++ concat ps, f)) ∧ idle f.
Proof.
  intros Hp Hps. rewrite dec_stream_app, dec_stream_pass by (simpl; lia).
  cbn [mbind outcome_bind then_dec fidx fbuf]. rewrite Z.add_opp_diag_l.
  destruct (dec_stream_records (mkframe 0 0 [0; 0]) ps ltac:(done) Hps) as (f & -> & Hf).
  simpl. eauto.
Qed.

Lemma response_run_hello co rb rbs x mh ml p R out f :
  Forall buffer_ok (rb :: rbs) → fresh_decoder co → 107 < len rb < 2 ^ 31 →
  concat (map content (rb :: rbs)) = 0x16 :: x ++ mh :: ml :: p ++ R → zlen x = 104 →
  of_be16 mh ml = zlen p → zlen p ≤ 16384 →
  dec_stream (mkframe (- zlen p) 0 [0; 0]) (p ++ R) = Ret (Some (out, f)) →
  ∃ co', response_run co (rb :: rbs) = Ret (Some (out, co')) ∧ streaming co' f.
Proof.
  intros Hrb Hco Hlen Hw Hx Hm Hp Hdec. inversion Hrb as [|?? Hb Hbs]; subst.
  pose proof (content_length rb Hb) as Hl. cbn [map concat] in Hw.
  assert (∃ body, content rb = 0x16 :: x ++ mh :: ml :: body ∧ p ++ R = body ++ concat (map content rbs))
    as (body & Hcb & Hbody).
  { change (0x16 :: x ++ mh :: ml :: p ++ R) with ((0x16 :: x) ++ [mh; ml] ++ p ++ R) in Hw.
    rewrite app_assoc in Hw. apply app_eq_inv in Hw as [(k & H1 & H2)|(k & H1 & H2)].
    - exists k. split; [|done]. rewrite H1. simpl. by rewrite <- app_assoc.
    - apply (f_equal length) in H1. rewrite !length_app in H1. cbn [length] in H1. lia. }
  assert (body ≠ []).
  { intros ->. rewrite Hcb in Hl. cbn [length] in Hl. rewrite length_app in Hl. cbn [length] in Hl. lia. }
  pose proof (deobfs_tls_response_hello rb co x mh ml body Hb Hco ltac:(lia) Hcb Hx ltac:(done)) as Hstep.
  rewrite Hm in Hstep. specialize (Hstep ltac:(lia)).
  rewrite Hbody in Hdec. apply dec_stream_app_inv in Hdec as (x1 & f1 & x2 & E1 & E2 & ->).
  rewrite E1 in Hstep. destruct Hstep as (b' & o' & Ho & Hc & _ & Hst).
  cbn [response_run]. rewrite Ho. cbn [mbind outcome_bind]. simpl (0 =? 0). cbv match.
  pose proof (response_run_streaming o' f1 rbs Hst Hbs) as Hrun. rewrite E2 in Hrun.
  destruct Hrun as (o'' & -> & Hs). simpl. rewrite Hc. eauto.
Qed.

(** C3: the client recovers what the server sends, however TCP cuts it. The server
    passes its payload buffers (each at most 16384 bytes) through
    [obfs_tls_response] from a fresh connection, the first wrapped in the fake
    server handshake; the client receives the same wire bytes cut into other
    buffers, of which the first holds the whole 107-byte handshake and more.
    Every call of [deobfs_tls_response] succeeds, and the concatenated output is
    exactly the concatenated payload. *)
Theorem tls_response_stream_roundtrip o st w cap b bs wire rb rbs co :
  Forall (λ b, buffer_ok b ∧ len b ≤ 16384) (b :: bs) →
  statics_ok st → obfs_ok o → obfs_stage o = 0 →
  response_sends o st w cap (b :: bs) = Ret wire →
  Forall buffer_ok (rb :: rbs) →
  concat (map content (rb :: rbs)) = wire → 107 < len rb < 2 ^ 31 →
  fresh_decoder co →
  ∃ co' f, response_run co (rb :: rbs) = Ret (Some (concat (map content (b :: bs)), co')) ∧
    streaming co' f ∧ idle f.
Proof.
  intros Hps Hst Ho H0 Hw Hr Hcat Hlen Hco. inversion Hps as [|?? [Hb Hl] Hps']; subst.
  rewrite response_sends_wire in Hw; try done;
    [|eapply Forall_impl; [|exact Hps']; by intros ? []]. apply Ret_inj in Hw.
  destruct (response_sid_spec o (rand_bytes 28 w).2 (rand_bytes 28 w).1 w Ho) as (w2 & _ & Ls & _);
    [by destruct (rand_bytes 28 w)|].
  destruct (response_bytes_shape (rand_bytes 28 w).1 (response_sid o w) (content b) (u32 (now w)))
    as (x & Hsh & Hx); [by apply length_rand_bytes|done|].
  pose proof (content_length b Hb) as Hcl.
  rewrite Hsh, <- app_comm_cons, <- !app_assoc in Hw. symmetry in Hw.
  destruct (dec_response (content b) (map content bs)) as (f & Hdec & Hidle); [lia| |].
  { apply Forall_map. eapply Forall_impl; [|exact Hps']. intros b' [Hb' Hl']. simpl.
    rewrite content_length; done. }
  destruct (response_run_hello co rb rbs x _ _ (content b) (concat (map record (map content bs)))
      (content b ++ concat (map content bs)) f Hr Hco Hlen Hw Hx) as (co' & Hrun & Hs);
    [| lia | exact Hdec |].
  - erewrite of_be16_be16; [|reflexivity]. apply u16_small. lia.
  - exists co', f. by split_and!.
Qed.

(** Concrete world, host and buffers for the instances below. *)
Definition demo_world : world := mkworld (λ n, Z.of_nat n * 7919) 0 1700000000 [].
Definition demo_conf : obfs_conf := mkconf (Some (bytes "example.com")) (bytes "/") 443.
Definition demo_wire : list Z :=
  match response_sends obfs_zero tls_statics_init demo_world 64 [buffer_of [1; 2; 3]; buffer_of [4; 5]] with
  | Ret x => x | _ => [] end.

Lemma obfs_zero_ok : obfs_ok obfs_zero.
Proof. by split; simpl; try lia. Qed.

Lemma tls_response_stream_roundtrip_witness :
  ∃ co' f, response_run obfs_zero [buffer_of (take 108 demo_wire); buffer_of (drop 108 demo_wire)]
    = Ret (Some ([1; 2; 3; 4; 5], co')) ∧ streaming co' f ∧ idle f.
Proof.
  apply (tls_response_stream_roundtrip obfs_zero tls_statics_init demo_world 64
           (buffer_of [1; 2; 3]) [buffer_of [4; 5]] demo_wire).
  - repeat (constructor; [split; [by apply buffer_okb_ok|cbn; lia]|]); constructor.
  - apply statics_init_ok.
  - apply obfs_zero_ok.
  - done.
  - vm_compute. reflexivity.
  - repeat (constructor; [apply buffer_okb_ok; vm_compute; reflexivity|]); constructor.
  - vm_compute. reflexivity.
  - vm_compute. done.
  - split; [done|by left].
Defined.

(** ** The server's decoder *)
Lemma client_hello_shape tl el rnd sid t :
  zlen rnd = 28 → zlen sid = 32 →
  ∃ x y, enc_client_hello (request_hello tl el rnd sid t) =
    0x16 :: [0x03; 0x01] ++ be16 (tl - 5) ++ x ++ sid ++ y ∧ zlen x = 39 ∧ zlen y = 62.
Proof.
  intros Hr Hs. unfold enc_client_hello, request_hello. cbn -[be16 be32 app length Z.of_nat tls_cipher_suites].
  exists ([1; 0] ++ be16 (tl - 9) ++ be16 0x0303 ++ be32 t ++ rnd ++ [32]),
         (be16 56 ++ tls_cipher_suites ++ [1] ++ [0] ++ be16 el).
  split; [by rewrite <- !app_assoc|]. rewrite !length_app. cbn. lia.
Qed.

(** The hello in a received buffer, as the decoder's field accesses see it:
    [hello_len] is the announced length, [p] the session ticket. *)
Record hello_at (m : list Z) (hello_len : Z) (sid p rest : list Z) : Prop := {
  ha_type : mget m 0 = Ret 0x16;
  ha_len : get_be16 m 3 = Ret (hello_len - 5);
  ha_sid : mread m 44 32 = Ret sid;
  ha_sid_len : zlen sid = 32;
  ha_ticket : get_be16 m 138 = Ret 0x0023;
  ha_ticket_len : get_be16 m 140 = Ret (zlen p);
  ha_body : ∃ y, m = y ++ p ++ rest ∧ zlen y = 142 }.

Lemma request_bytes_hello hst rnd sid p t rest :
  zlen rnd = 28 → zlen sid = 32 → zlen p + zlen hst + 217 < 65541 →
  hello_at (request_bytes hst rnd sid p t ++ rest) (zlen p + zlen hst + 217) sid p
    (enc_server_name (request_server_name (zlen hst)) ++ hst ++ tls_ext_others_template ++ rest).
Proof.
  intros Hr Hs Hl. unfold request_bytes. set (tl := zlen p + _ + _ + _ + _ + _).
  assert (Htl : tl = zlen p + zlen hst + 217)
    by (unfold tl, sizeof_client_hello, sizeof_server_name, sizeof_session_ticket, sizeof_ext_others; lia).
  set (N := enc_server_name _). set (el := sizeof_server_name + _ + _ + _ + _).
  destruct (client_hello_shape tl el rnd sid t Hr Hs) as (x & y & -> & Hx & Hy).
  assert (Ht : enc_ticket (mk_ticket 0x0023 (zlen p)) = [0; 0x23] ++ be16 (zlen p)) by reflexivity.
  rewrite Ht. clearbody N. set (P2 := be16 (zlen p)).
  rewrite <- !app_assoc, <- !app_comm_cons, <- !app_assoc.
  set (Z1 := N ++ hst ++ tls_ext_others_template ++ rest).
  assert (Hp16 : ∀ n, 0 ≤ n < 65536 → of_be16 (u8 (Z.shiftr n 8)) (u8 n) = n).
  { intros n Hn. erewrite of_be16_be16; [|reflexivity]. by apply u16_small. }
  split; [done| | | | | |].
  - eapply (get_be16_at _ _ [0x16; 0x03; 0x01]); [reflexivity|done|]. rewrite Hp16; lia.
  - etrans; [|apply (mread_app (0x16 :: [0x03; 0x01] ++ be16 (tl - 5) ++ x) sid
      (y ++ [0; 0x23] ++ P2 ++ p ++ Z1))]. f_equal; simpl; rewrite <- ?app_assoc; (done || lia).
  - done.
  - eapply (get_be16_at _ _ (0x16 :: [0x03; 0x01] ++ be16 (tl - 5) ++ x ++ sid ++ y) 0 0x23 (P2 ++ p ++ Z1));
      [simpl; by rewrite <- ?app_assoc|simpl; rewrite !length_app; lia|done].
  - eapply (get_be16_at _ _ (0x16 :: [0x03; 0x01] ++ be16 (tl - 5) ++ x ++ sid ++ y ++ [0; 0x23])
      (u8 (Z.shiftr (zlen p) 8)) (u8 (zlen p)) (p ++ Z1));
      [simpl; by rewrite <- ?app_assoc|simpl; rewrite !length_app; simpl; lia|apply Hp16; lia].
  - exists (0x16 :: [0x03; 0x01] ++ be16 (tl - 5) ++ x ++ sid ++ y ++ [0; 0x23] ++ P2). split.
    + simpl. by rewrite <- ?app_assoc.
    + simpl. rewrite !length_app. simpl. lia.
Qed.

Lemma alloc_obuf_ok o :
  obfs_ok o → ∃ sb, obuf (alloc_obuf o) = Some sb ∧ buffer_ok sb ∧ capacity sb = 32.
Proof.
  intros [_ Hob _]. unfold alloc_obuf. destruct (obuf o) as [sb|] eqn:E.
  - exists sb. rewrite E. split; [done|by apply Hob].
  - eexists. split_and!; [done| |done]. split; simpl; try lia. apply fresh_mem_ok.
Qed.

Lemma alloc_obuf_stage o : obfs_stage (alloc_obuf o) = obfs_stage o.
Proof. unfold alloc_obuf. by destruct (obuf o). Qed.

(** Up to the end of the hello, in terms of the fields: the ticket is moved to
    the front, the session id is remembered, the decoder enters stage 1. *)
Lemma deobfs_tls_request_parse b o hello_len sid p rest :
  buffer_ok b → fresh_decoder o → obfs_ok o → len b < 2 ^ 31 →
  hello_at (data b) hello_len sid p rest → 142 + zlen p ≤ len b → 142 < len b →
  ∃ sb, take 32 (data sb) = sid ∧
  let o1 := mkobfs (obfs_stage o) 1 (Some sb) (Some frame_zero) in
  let d1 := p ++ drop (length p) (data b) in
  deobfs_tls_request b (Some o) =
   (d2 ← (if hello_len <? len b then memmove d1 (zlen p) hello_len (len b - hello_len) else Ret d1);
    let b' := set_len (set_data b d2) (u64 (zlen p + len b - hello_len)) in
    if zlen p <? len b' then deobfs_app_data_obfs b' (zlen p) o1
    else Ret (0, b', Some (set_frame_idx o1 (s16 (u64 (len b' - zlen p)))))).
Proof.
  intros Hb Hfr Hok Hsz [Ht Hhl Hsid Hsl Htk Htl (y & Hm & Hy)] Hp Hn.
  destruct (alloc_extra_fresh o Hfr) as [He Hs].
  assert (Hok' : obfs_ok (alloc_extra o)).
  { unfold alloc_extra. destruct (extra o) eqn:Ee; [done|]. destruct Hok as [H1 H2 H3].
    split; simpl; [done|done|]. intros f [= <-]. by apply idle_ok. }
  destruct (alloc_obuf_ok _ Hok') as (sb & Esb & [Sd Sl Si Sb] & Sc).
  exists (set_data sb (sid ++ drop 32 (data sb))). split.
  { simpl. by rewrite take_app_length' by lia. }
  cbv zeta. unfold deobfs_tls_request, sizeof_client_hello, sizeof_session_ticket.
  unfold off_ch_len, off_ch_session_id, off_st_ext_len.
  assert (Hst : deobfs_stage (alloc_obuf (alloc_extra o)) = 0)
    by (unfold alloc_obuf; by destruct (obuf (alloc_extra o))).
  destruct Hfr as [Hst0 _]. rewrite Hst0, Hst, s32_small, Esb by lia. ifs.
  rewrite Ht, bind_Ret, Hhl, bind_Ret, Hsid, bind_Ret. simpl (negb _). cbv match.
  rewrite (mwrite_extend [] (data sb)), bind_Ret by (done || lia). ifs.
  rewrite Htk, bind_Ret. simpl (negb _). cbv match.
  change (138 + 2) with 140. rewrite Htl, bind_Ret. ifs.
  change (138 + 4) with 142. rewrite Hm at 1. rewrite <- Hy, memmove_down, <- Hm, bind_Ret.
  replace (hello_len - 5 + 5) with hello_len by lia.
  replace (length sid) with 32%nat by lia. rewrite app_nil_l.
  set (X := set_deobfs_stage _ _).
  assert (X = mkobfs (obfs_stage o) 1 (Some (set_data sb (sid ++ drop 32 (data sb)))) (Some frame_zero))
    as ->; [|done].
  unfold X, set_deobfs_stage, set_obuf. simpl. rewrite Hst. f_equal.
  - rewrite alloc_obuf_stage. unfold alloc_extra. by destruct (extra o).
  - rewrite <- He. unfold alloc_obuf. by destruct (obuf (alloc_extra o)).
Qed.

Lemma deobfs_tls_request_whole b o hello_len sid p rest R :
  buffer_ok b → fresh_decoder o → obfs_ok o → len b < 2 ^ 31 →
  hello_at (data b) hello_len sid p rest → 142 + zlen p ≤ hello_len → 142 < hello_len ≤ len b →
  drop (Z.to_nat hello_len) (content b) = R →
  match dec_stream frame_zero R with
  | Ret (Some (out, f')) => ∃ b' o' sb, deobfs_tls_request b (Some o) = Ret (0, b', Some o') ∧
      content b' = p ++ out ∧ buffer_ok b' ∧ streaming o' f' ∧
      obuf o' = Some sb ∧ take 32 (data sb) = sid
  | Ret None => ∃ b' o', deobfs_tls_request b (Some o) = Ret (OBFS_ERROR, b', o')
  | Fault => deobfs_tls_request b (Some o) = Fault
  | Exit => False
  end.
Proof.
  intros Hb Hfr Hok Hsz Hh Hp Hn HR. pose proof (content_length b Hb) as Hl.
  assert (Hpb : bytes_ok p).
  { destruct Hh as [_ _ _ _ _ _ (y & Hy & _)]. destruct Hb as [_ _ _ Hbo].
    rewrite Hy, !bytes_ok_app in Hbo. tauto. }
  destruct (deobfs_tls_request_parse b o hello_len sid p rest Hb Hfr Hok Hsz Hh ltac:(lia) ltac:(lia))
    as (sb & Hsb & ->).
  set (o1 := mkobfs _ _ _ _). set (d1 := p ++ _).
  assert (HRl : zlen R = len b - hello_len) by (rewrite <- HR, length_drop; lia).
  assert (HRb : bytes_ok R) by (rewrite <- HR; apply Forall_drop, content_ok, Hb).
  assert (Hd2 : (if hello_len <? len b then memmove d1 (zlen p) hello_len (len b - hello_len) else Ret d1)
     = Ret ((p ++ R) ++ drop (length (p ++ R)) (data b))).
  { assert (Hz : zlen (data b) = capacity b) by (by destruct Hb). pose proof (ok_len b Hb).
    destruct (hello_len <? len b) eqn:E; bool_hyps.
    - unfold memmove. assert (Hrd : mread d1 hello_len (len b - hello_len) = Ret R).
      { unfold mread, d1. rewrite length_app, length_drop. ifs. f_equal. rewrite <- HR. unfold content.
        rewrite drop_app_ge, drop_drop, skipn_firstn_comm by lia. f_equal; [lia|f_equal; lia]. }
      rewrite Hrd, bind_Ret. unfold d1. rewrite mwrite_extend by (rewrite ?length_drop; lia).
      rewrite drop_drop, length_app. done.
    - assert (R = []) as -> by (destruct R; [done|simpl in HRl; lia]). by rewrite app_nil_r. }
  rewrite Hd2, bind_Ret. cbv zeta.
  replace (zlen p + len b - hello_len) with (zlen (p ++ R)) by (rewrite length_app; lia).
  pose proof (ok_len b Hb). rewrite u64_small by (rewrite length_app; lia).
  destruct (overwrite_ok b (p ++ R) Hb) as [Hc1 Hok1]; [by apply bytes_ok_app|rewrite length_app; lia|].
  set (b1 := set_len _ _) in *. assert (Hl1 : len b1 = zlen p + zlen R) by (simpl; rewrite length_app; lia).
  destruct (zlen p <? len b1) eqn:E; bool_hyps.
  - pose proof (deobfs_app_data_obfs_dec b1 (zlen p) o1 frame_zero Hok1 ltac:(by apply idle_ok) eq_refl ltac:(lia)) as H2.
    rewrite Hc1, Nat2Z.id, drop_app_length, take_app_length in H2.
    destruct (dec_stream frame_zero R) as [[[out f']|]| |]; [|done..].
    destruct H2 as (b' & -> & Hc2 & Hok2 & Hf2). eexists _, _, sb. by split_and!.
  - assert (R = []) as -> by (apply nil_length_inv; lia). simpl.
    eexists _, _, sb. split_and!; [done|done|done| |done|done].
    rewrite app_nil_r, Z.sub_diag. change (s16 (u64 0)) with 0. by split_and!; [..|apply idle_ok].
Qed.

Lemma request_bytes_length hst rnd sid p t :
  zlen rnd = 28 → zlen sid = 32 → zlen (request_bytes hst rnd sid p t) = zlen p + zlen hst + 217.
Proof.
  intros Hr Hs. unfold request_bytes. set (H := enc_client_hello _).
  assert (LH : zlen H = 138) by by apply length_enc_client_hello.
  rewrite !length_app. simpl (length (enc_ticket _)). simpl (length (enc_server_name _)).
  change (length tls_ext_others_template) with 66%nat. lia.
Qed.

Lemma request_bytes_sid hst rnd sid p t rest :
  zlen rnd = 28 → zlen sid = 32 → zlen p + zlen hst + 217 < 65541 →
  mread (request_bytes hst rnd sid p t ++ rest) 44 32 = Ret sid.
Proof. intros. by eapply ha_sid, request_bytes_hello. Qed.

(** A client's first segment is recovered by the server. [obfs_tls_request] on
    a fresh connection turns a payload into a fake ClientHello carrying the payload
    as session ticket; when that hello reaches the server whole, possibly followed
    by application-data records in the same buffer, [deobfs_tls_request] returns 0
    and leaves the first payload followed by the record payloads, the decoder
    between records, and the client's session id saved for the ServerHello. *)
Theorem tls_request_roundtrip c hst b cap o st w rb so ps :
  buffer_ok b → statics_ok st → host c = Some hst → bytes_ok hst → obfs_stage o = 0 →
  len b + zlen hst + 217 < 65541 → Forall (λ p, zlen p ≤ 16384) ps →
  buffer_ok rb → len rb < 2 ^ 31 → fresh_decoder so → obfs_ok so →
  ∃ r b' o' st' w', obfs_tls_request c b cap (Some o) st w = Ret (r, b', o', st', w') ∧
  (content rb = content b' ++ concat (map record ps) →
   ∃ rb' so' sb f, deobfs_tls_request rb (Some so) = Ret (0, rb', Some so') ∧
     content rb' = content b ++ concat ps ∧ buffer_ok rb' ∧ streaming so' f ∧ idle f ∧
     obuf so' = Some sb ∧ mread (content b') 44 32 = Ret (take 32 (data sb))).
Proof.
  intros Hb Hst Hh Hho Ho Hsz Hps Hrb Hrl Hfr Hso.
  destruct (obfs_tls_request_hello c hst b cap o st w Hb Hst Hh Hho Ho) as (b' & st' & w' & E & Hc & _ & _).
  eexists _, b', _, st', w'. split; [exact E|]. intros Hrc.
  pose proof (content_length b Hb) as Hl. pose proof (content_length rb Hrb) as Hlr.
  pose proof (length_rand_bytes 28 w ltac:(lia) eq_refl) as Lr. set (rnd := (rand_bytes 28 w).1) in *.
  pose proof (length_rand_bytes 32 (rand_bytes 28 w).2 ltac:(lia) eq_refl) as Ls.
  set (sid := (rand_bytes 32 _).1) in *. set (p := content b) in *. set (t := u32 (now w)) in *.
  assert (Hdat : data rb = request_bytes hst rnd sid p t ++ concat (map record ps) ++ drop (Z.to_nat (len rb)) (data rb)).
  { rewrite (data_split rb) at 1. by rewrite Hrc, Hc, <- app_assoc. }
  pose proof (request_bytes_hello hst rnd sid p t (concat (map record ps) ++ drop (Z.to_nat (len rb)) (data rb))
                Lr Ls ltac:(lia)) as Hha. rewrite <- Hdat in Hha.
  pose proof (request_bytes_length hst rnd sid p t Lr Ls) as Hrbl.
  assert (HR : drop (Z.to_nat (zlen p + zlen hst + 217)) (content rb) = concat (map record ps)).
  { rewrite Hrc, Hc. apply drop_app_length'. lia. }
  assert (Hlen : len rb = zlen p + zlen hst + 217 + zlen (concat (map record ps)))
    by (rewrite <- Hlr, Hrc, Hc, length_app; lia).
  pose proof (deobfs_tls_request_whole rb so _ sid p _ _ Hrb Hfr Hso Hrl Hha ltac:(lia) ltac:(lia) HR) as Hd.
  destruct (dec_stream_records frame_zero ps ltac:(done) Hps) as (f & Hf & Hidle). rewrite Hf in Hd.
  destruct Hd as (rb' & so' & sb & E1 & E2 & E3 & E4 & E5 & E6).
  exists rb', so', sb, f. split_and!; try done. rewrite E6, Hc.
  pose proof (request_bytes_sid hst rnd sid p t [] Lr Ls ltac:(lia)) as Hs. by rewrite app_nil_r in Hs.
Qed.

Definition demo_hello : list Z :=
  match obfs_tls_request demo_conf (buffer_of [1; 2; 3]) 64 (Some obfs_zero) tls_statics_init demo_world with
  | Ret (_, b, _, _, _) => content b | _ => [] end.

Lemma tls_request_roundtrip_witness :
  ∃ rb' so' sb f, deobfs_tls_request (buffer_of (demo_hello ++ record [4; 5])) (Some obfs_zero)
      = Ret (0, rb', Some so') ∧ content rb' = [1; 2; 3; 4; 5] ∧ buffer_ok rb' ∧ streaming so' f ∧
      idle f ∧ obuf so' = Some sb ∧ mread demo_hello 44 32 = Ret (take 32 (data sb)).
Proof.
  destruct (tls_request_roundtrip demo_conf (bytes "example.com") (buffer_of [1; 2; 3]) 64 obfs_zero
    tls_statics_init demo_world (buffer_of (demo_hello ++ record [4; 5])) obfs_zero [[4; 5]])
    as (r & b' & o' & st' & w' & E & H);
    try (apply buffer_okb_ok; vm_compute; reflexivity).
  - apply statics_init_ok.
  - done.
  - apply bytes_okb_ok. reflexivity.
  - done.
  - vm_compute. done.
  - repeat constructor. simpl. lia.
  - vm_compute. done.
  - split; [done|by left].
  - apply obfs_zero_ok.
  - assert (Hb : content b' = demo_hello) by (unfold demo_hello; by rewrite E).
    rewrite Hb in H. apply H. vm_compute. reflexivity.
Defined.

(** An incomplete ClientHello is mis-decoded. When the server's first buffer
    lacks the last [k] bytes of the hello (after the ticket), [deobfs_tls_request]
    does not ask for more: it succeeds, drops the last [k] bytes of the payload,
    and arranges for the next [k] bytes, which belong to the hello, to be passed
    on as payload. *)
Theorem deobfs_tls_request_split b o hello_len sid p rest k :
  buffer_ok b → fresh_decoder o → obfs_ok o → len b < 2 ^ 31 →
  hello_at (data b) hello_len sid p rest → 142 + zlen p ≤ len b → 142 < len b →
  len b = hello_len - k → 0 < k ≤ zlen p → zlen p ≤ 32768 →
  ∃ b' o' f, deobfs_tls_request b (Some o) = Ret (0, b', Some o') ∧
    content b' = take (Z.to_nat (zlen p - k)) p ∧ streaming o' f ∧
    ∀ junk, zlen junk = k → ∃ f', dec_stream f junk = Ret (Some (junk, f')) ∧ idle f'.
Proof.
  intros Hb Hfr Hok Hsz Hh Hp Hn Hl Hk Hp2.
  destruct (deobfs_tls_request_parse b o hello_len sid p rest Hb Hfr Hok Hsz Hh Hp Hn) as (sb & Hsb & ->).
  cbv zeta. if_false. rewrite bind_Ret. replace (zlen p + len b - hello_len) with (zlen p - k) by lia.
  rewrite u64_small by lia. simpl (len _). if_false.
  eexists _, _, (mkframe (- k) 0 [0; 0]). split; [done|]. split_and!.
  - unfold content. simpl. by rewrite take_app_le by lia.
  - unfold set_frame_idx. simpl. replace (zlen p - k - zlen p) with (- k) by lia.
    rewrite s16_u64 by lia. split_and!; [done|done|]. split; simpl; lia.
  - intros junk Hj. rewrite dec_stream_pass by (simpl; lia). eexists. split; [done|].
    simpl. split_and!; [simpl; lia|done|done].
Qed.

(** The fields of a concrete hello. *)
Lemma hello_at_intro m hello_len sid p rest :
  mget m 0 = Ret 0x16 → get_be16 m 3 = Ret (hello_len - 5) → mread m 44 32 = Ret sid →
  get_be16 m 138 = Ret 0x0023 → get_be16 m 140 = Ret (zlen p) →
  drop 142 m = p ++ rest → 142 ≤ zlen m → hello_at m hello_len sid p rest.
Proof.
  intros H1 H2 H3 H4 H5 H6 H7. pose proof H3 as (_ & _ & _ & _ & Hs)%mread_Ret.
  split; try done. exists (take 142 m). rewrite <- H6, take_drop, length_take. split; [done|lia].
Qed.

Lemma deobfs_tls_request_split_witness :
  ∃ b' o' f, deobfs_tls_request (buffer_of (take 229 demo_hello)) (Some obfs_zero) = Ret (0, b', Some o') ∧
    content b' = [1] ∧ streaming o' f ∧
    ∀ junk, zlen junk = 2 → ∃ f', dec_stream f junk = Ret (Some (junk, f')) ∧ idle f'.
Proof.
  apply (deobfs_tls_request_split (buffer_of (take 229 demo_hello)) obfs_zero 231
           (take 32 (drop 44 demo_hello)) [1; 2; 3] (drop 145 (take 229 demo_hello)) 2);
    [apply buffer_okb_ok; vm_compute; reflexivity|split; [done|by left]|apply obfs_zero_ok
    |vm_compute; done|by apply hello_at_intro; vm_compute|vm_compute; done..].
Defined.

(** A hello that announces less than its ticket overflows the buffer. When the
    announced hello length is smaller than the ticket length it contains and the
    buffer is full, moving the bytes after the hello behind the ticket writes past
    the end of the buffer. *)
Theorem deobfs_tls_request_overflow b o hello_len sid p rest :
  buffer_ok b → fresh_decoder o → obfs_ok o → len b < 2 ^ 31 →
  hello_at (data b) hello_len sid p rest → 142 + zlen p ≤ len b → 142 < len b →
  len b = capacity b → 0 ≤ hello_len < zlen p →
  deobfs_tls_request b (Some o) = Fault.
Proof.
  intros Hb Hfr Hok Hsz Hh Hp Hn Hl Hhl.
  destruct (deobfs_tls_request_parse b o hello_len sid p rest Hb Hfr Hok Hsz Hh Hp Hn) as (sb & Hsb & ->).
  pose proof (ok_data b Hb) as Hd. cbv zeta. if_true. unfold memmove, mread.
  rewrite length_app, length_drop. if_true. rewrite bind_Ret. unfold mwrite.
  rewrite length_take, !length_drop, !length_app, length_drop. by if_false.
Qed.

(** A 200-byte buffer whose hello announces 5 bytes but carries a 58-byte ticket. *)
Definition demo_bad_hello : list Z :=
  [0x16; 3; 1; 0; 0] ++ replicate 133 0 ++ [0; 0x23; 0; 58] ++ replicate 58 7.

Lemma deobfs_tls_request_overflow_witness :
  deobfs_tls_request (buffer_of demo_bad_hello) (Some obfs_zero) = Fault.
Proof.
  apply (deobfs_tls_request_overflow (buffer_of demo_bad_hello) obfs_zero 5 (replicate 32 0) (replicate 58 7) []);
    [apply buffer_okb_ok; vm_compute; reflexivity|split; [done|by left]|apply obfs_zero_ok
    |vm_compute; done|by apply hello_at_intro; vm_compute|vm_compute; done..].
Defined.

(** The server's check accepts what the client sends. Whatever the payload and
    host, the buffer [obfs_tls_request] produces for a fresh connection passes
    [check_tls_request]; the operation itself never faults, advances the stage
    once, and keeps the buffers well formed. *)
Theorem obfs_tls_request_checked c hst b cap o st w :
  buffer_ok b → statics_ok st → host c = Some hst → bytes_ok hst → obfs_stage o = 0 →
  len b + zlen hst < 2 ^ 31 - 217 →
  ∃ b' st' w', obfs_tls_request c b cap (Some o) st w =
      Ret (len b + zlen hst + 217, b', Some (set_obfs_stage o 1), st', w') ∧
    len b' = len b + zlen hst + 217 ∧ check_tls_request b' = Ret OBFS_OK ∧
    buffer_ok b' ∧ statics_ok st'.
Proof.
  intros Hb Hst Hh Hho Ho Hsz. pose proof (ok_len b Hb) as Hlb.
  destruct (obfs_tls_request_hello c hst b cap o st w Hb Hst Hh Hho Ho) as (b' & st' & w' & E & Hc & Hb' & Hs' & _).
  exists b', st', w'. pose proof (content_length b Hb) as Hl. pose proof (content_length b' Hb') as Hl'.
  pose proof (length_rand_bytes 28 w ltac:(lia) eq_refl) as Lr.
  pose proof (length_rand_bytes 32 (rand_bytes 28 w).2 ltac:(lia) eq_refl) as Ls.
  assert (Hlen : len b' = len b + zlen hst + 217).
  { rewrite <- Hl', Hc, request_bytes_length by done. lia. }
  rewrite E, Hlen, s32_small by lia. split_and!; try done.
  unfold check_tls_request. rewrite s32_small by lia. if_false.
  rewrite (data_split b'), Hc. unfold request_bytes, enc_client_hello. reflexivity.
Qed.

Lemma obfs_tls_request_checked_witness :
  ∃ b' st' w', obfs_tls_request demo_conf (buffer_of [1; 2; 3]) 64 (Some obfs_zero) tls_statics_init demo_world
     = Ret (231, b', Some (set_obfs_stage obfs_zero 1), st', w') ∧
    len b' = 231 ∧ check_tls_request b' = Ret OBFS_OK ∧ buffer_ok b' ∧ statics_ok st'.
Proof.
  apply (obfs_tls_request_checked demo_conf (bytes "example.com") (buffer_of [1; 2; 3])); try done.
  - by apply buffer_okb_ok.
  - apply statics_init_ok.
  - by apply bytes_okb_ok.
Defined.
