(* ===== verification/Base64.v ===== *)
(** * base64.c (simple-obfs; redsocks carries the same code)

    [base64_encode] keeps a 32-bit accumulator [i_bits] and the number [i_shift]
    of its low bits not yet written; [base64_decode] keeps a signed accumulator
    [v] (its left shift wraps as two's complement) of which only low bits are
    used. Input and output strings are without their NUL.
    The equivalence with the 3-byte/4-character definition and the round trip
    rest on one lemma per group. *)
From S2P Require Import Prelude Encrypt.

Definition UINT_MAX : Z := 2 ^ 32 - 1.
Definition BASE64_SIZE (x : Z) : Z := (x + 2) / 3 * 4 + 1.

Definition map2 : list Z :=
  [0x3e; 0xff; 0xff; 0xff; 0x3f; 0x34; 0x35; 0x36;
   0x37; 0x38; 0x39; 0x3a; 0x3b; 0x3c; 0x3d; 0xff;
   0xff; 0xff; 0xff; 0xff; 0xff; 0xff; 0x00; 0x01;
   0x02; 0x03; 0x04; 0x05; 0x06; 0x07; 0x08; 0x09;
   0x0a; 0x0b; 0x0c; 0x0d; 0x0e; 0x0f; 0x10; 0x11;
   0x12; 0x13; 0x14; 0x15; 0x16; 0x17; 0x18; 0x19;
   0xff; 0xff; 0xff; 0xff; 0xff; 0xff; 0x1a; 0x1b;
   0x1c; 0x1d; 0x1e; 0x1f; 0x20; 0x21; 0x22; 0x23;
   0x24; 0x25; 0x26; 0x27; 0x28; 0x29; 0x2a; 0x2b;
   0x2c; 0x2d; 0x2e; 0x2f; 0x30; 0x31; 0x32; 0x33].

(** One loop iteration's table lookup; [None] is [return -1]. *)
Definition dec_char (c : Z) : option Z :=
  let index := u32 (c - 43) in
  if zlen map2 <=? index then None
  else let x := nth (Z.to_nat index) map2 0xff in
       if x =? 0xff then None else Some x.

(** [for (i = 0; in[i] && in[i] != '='; i++)]; [out] is what [dst - out] counts. *)
Fixpoint decode_loop (i v out_size : Z) (out l : list Z) : option (list Z) :=
  match l with
  | [] => Some out
  | c :: l' =>
      if (c =? 0) || (c =? 61) then Some out
      else match dec_char c with
           | None => None
           | Some x =>
               let v := s32 (Z.shiftl v 6 + x) in
               let out :=
                 if negb (Z.land i 3 =? 0) && (zlen out <? out_size)
                 then out ++ [u8 (Z.shiftr v (6 - 2 * Z.land i 3))] else out in
               decode_loop (i + 1) v out_size out l'
           end
  end.

(** The bytes written to [out] ([None]: the result is -1). *)
Definition base64_decode (l : list Z) (out_size : Z) : option (list Z) :=
  decode_loop 0 0 out_size [] l.

Definition b64 : list Z := bytes "ABCDEFGHIJKLMNOPQRSTUVWXYZabcdefghijklmnopqrstuvwxyz0123456789+/".

Definition b64_char (bits shift : Z) : Z :=
  nth (Z.to_nat (Z.land (Z.shiftr (u32 (Z.shiftl bits 6)) shift) 0x3f)) b64 0.

(** [do ... while (i_shift > 6 || (bytes_remaining == 0 && i_shift > 0))];
    [i_shift] is at most 14 here, so three rounds suffice. *)
Fixpoint emit (fuel : nat) (last : bool) (bits shift : Z) : list Z * Z :=
  let c := b64_char bits shift in
  let shift := shift - 6 in
  match fuel with
  | S fuel' =>
      if (6 <? shift) || (last && (0 <? shift))
      then let '(o, s) := emit fuel' last bits shift in (c :: o, s) else ([c], shift)
  | O => ([c], shift)
  end.

Fixpoint encode_loop (bits shift : Z) (l : list Z) : list Z :=
  match l with
  | [] => []
  | x :: l' =>
      let bits := u32 (Z.shiftl bits 8 + x) in
      let '(o, shift') := emit 3 (match l' with [] => true | _ => false end) bits (shift + 8) in
      o ++ encode_loop bits shift' l'
  end.

(** [while ((dst - ret) & 3) *dst++ = '=']. *)
Fixpoint pad_loop (fuel : nat) (out : list Z) : list Z :=
  match fuel with
  | O => out
  | S fuel' => if Z.land (zlen out) 3 =? 0 then out else pad_loop fuel' (out ++ [61])
  end.

(** [None] is the result [NULL]; otherwise the bytes written to [out], with the NUL. *)
Definition base64_encode (out_size : Z) (l : list Z) (in_size : Z) : option (list Z) :=
  if (UINT_MAX / 4 <=? u32 in_size) || (out_size <? BASE64_SIZE in_size) then None
  else Some (pad_loop 3 (encode_loop 0 0 (take (Z.to_nat in_size) l)) ++ [0]).

(** The same functions in redsocks/base64.c. *)
Definition redsocks_map2 : list Z := map2.
Definition redsocks_base64_decode (l : list Z) (out_size : Z) : option (list Z) := base64_decode l out_size.
Definition redsocks_base64_encode (out_size : Z) (l : list Z) (in_size : Z) : option (list Z) :=
  base64_encode out_size l in_size.

(** ** Reference encoding: three bytes make four 6-bit digits *)
Definition digit (n : Z) : Z := nth (Z.to_nat n) b64 0.

Fixpoint spec_encode (l : list Z) : list Z :=
  match l with
  | a :: b :: c :: l' =>
      [digit (a / 4); digit (a mod 4 * 16 + b / 16); digit (b mod 16 * 4 + c / 64); digit (c mod 64)]
      ++ spec_encode l'
  | [a; b] => [digit (a / 4); digit (a mod 4 * 16 + b / 16); digit (b mod 16 * 4); 61]
  | [a] => [digit (a / 4); digit (a mod 4 * 16); 61; 61]
  | [] => []
  end.

(** Induction in groups of three. *)
Lemma group3_ind (P : list Z → Prop) :
  P [] → (∀ a, P [a]) → (∀ a b, P [a; b]) → (∀ a b c l, P l → P (a :: b :: c :: l)) → ∀ l, P l.
Proof.
  intros H0 H1 H2 H3 l. assert (H : P l ∧ (∀ a, P (a :: l)) ∧ (∀ a b, P (a :: b :: l))); [|tauto].
  induction l as [|c l (IH0 & IH1 & IH2)]; [done|]. split_and!; auto.
Qed.

(** The shifts that occur. *)
Definition shift_ok (s : Z) : Prop := s = 2 ∨ s = 4 ∨ s = 6 ∨ s = 8 ∨ s = 10 ∨ s = 12 ∨ s = 14.

Lemma b64_char_eq bits s :
  shift_ok s → b64_char bits s = digit (bits * 64 / 2 ^ s mod 64).
Proof.
  intros Hs. unfold b64_char, digit. do 2 f_equal.
  change 0x3f with (Z.ones 6). rewrite Z.land_ones, Z.shiftl_mul_pow2 by lia.
  rewrite Z.shiftr_div_pow2 by (unfold shift_ok in Hs; lia). unfold u32.
  destruct Hs as [-> | [-> | [-> | [-> | [-> | [-> | ->]]]]]]; zdiv.
Qed.

Lemma emit_more k last bits s :
  (6 <? s - 6) || (last && (0 <? s - 6)) = true →
  emit (S k) last bits s = (b64_char bits s :: (emit k last bits (s - 6)).1, (emit k last bits (s - 6)).2).
Proof. intros H. cbn [emit]. rewrite H. by destruct (emit k last bits (s - 6)). Qed.

Lemma emit_last k last bits s :
  (6 <? s - 6) || (last && (0 <? s - 6)) = false →
  emit (S k) last bits s = ([b64_char bits s], s - 6).
Proof. intros H. cbn [emit]. by rewrite H. Qed.

Ltac emits := repeat first
  [rewrite emit_more by reflexivity | rewrite emit_last by reflexivity]; simpl fst; simpl snd.

Lemma encode_loop_carry bits x l :
  is_byte x →
  encode_loop bits 6 (x :: l) = digit (bits mod 64) :: encode_loop bits 0 (x :: l).
Proof.
  intros Hx. cbn [encode_loop]. change (6 + 8) with 14. change (0 + 8) with 8.
  set (b' := u32 _).
  assert (Hb : b64_char b' 14 = digit (bits mod 64)).
  { rewrite b64_char_eq by (unfold shift_ok; lia). f_equal. unfold b', u32, is_byte in *.
    rewrite Z.shiftl_mul_pow2 by lia. zdiv. }
  destruct l as [|y l]; emits; by rewrite Hb.
Qed.

Lemma encode_group bits a b c l :
  is_byte a → is_byte b → is_byte c → bytes_ok l →
  encode_loop bits 0 (a :: b :: c :: l) =
  [digit (a / 4); digit (a mod 4 * 16 + b / 16); digit (b mod 16 * 4 + c / 64); digit (c mod 64)]
  ++ encode_loop (u32 (Z.shiftl (u32 (Z.shiftl (u32 (Z.shiftl bits 8 + a)) 8 + b)) 8 + c)) 0 l.
Proof.
  intros Ha Hb Hc Hl. unfold is_byte in *. cbn [encode_loop].
  set (b1 := u32 (_ + a)). set (b2 := u32 (_ + b)). set (b3 := u32 (_ + c)).
  change (0 + 8) with 8. emits. change (8 - 6 + 8) with 10. emits. change (10 - 6 + 8) with 12.
  assert (E1 : b64_char b1 8 = digit (a / 4)).
  { rewrite b64_char_eq by (unfold shift_ok; lia). f_equal. unfold b1, u32.
    rewrite Z.shiftl_mul_pow2 by lia. zdiv. }
  assert (E2 : b64_char b2 10 = digit (a mod 4 * 16 + b / 16)).
  { rewrite b64_char_eq by (unfold shift_ok; lia). f_equal. unfold b2, b1, u32.
    rewrite !Z.shiftl_mul_pow2 by lia. zdiv. }
  assert (E3 : b64_char b3 12 = digit (b mod 16 * 4 + c / 64)).
  { rewrite b64_char_eq by (unfold shift_ok; lia). f_equal. unfold b3, b2, u32.
    rewrite !Z.shiftl_mul_pow2 by lia. zdiv. }
  assert (E4 : digit (b3 mod 64) = digit (c mod 64)).
  { f_equal. unfold b3, u32. rewrite !Z.shiftl_mul_pow2 by lia. zdiv. }
  rewrite E1, E2. destruct l as [|x l].
  - emits. rewrite E3. rewrite (b64_char_eq _ 6) by (unfold shift_ok; lia).
    change (2 ^ 6) with 64. rewrite Z.div_mul by lia. by rewrite E4.
  - emits. rewrite E3. change (12 - 6) with 6. rewrite encode_loop_carry by (by inversion Hl).
    by rewrite E4.
Qed.

Lemma land3 i : Z.land i 3 = i mod 4.
Proof. change 3 with (Z.ones 2). by rewrite Z.land_ones by lia. Qed.

Ltac same_list tac := repeat (apply (f_equal2 cons)); [tac..|done].

Lemma encode_one bits a :
  is_byte a → encode_loop bits 0 [a] = [digit (a / 4); digit (a mod 4 * 16)].
Proof.
  intros Ha. unfold is_byte in *. cbn [encode_loop]. change (0 + 8) with 8. emits.
  change (8 - 6) with 2. rewrite !b64_char_eq by (unfold shift_ok; lia). unfold u32.
  rewrite Z.shiftl_mul_pow2 by lia. same_list ltac:(apply (f_equal digit); zdiv).
Qed.

Lemma encode_two bits a b :
  is_byte a → is_byte b →
  encode_loop bits 0 [a; b] = [digit (a / 4); digit (a mod 4 * 16 + b / 16); digit (b mod 16 * 4)].
Proof.
  intros Ha Hb. unfold is_byte in *. cbn [encode_loop]. change (0 + 8) with 8. emits.
  change (8 - 6 + 8) with 10. emits. change (10 - 6) with 4.
  rewrite !b64_char_eq by (unfold shift_ok; lia). unfold u32.
  rewrite !Z.shiftl_mul_pow2 by lia. same_list ltac:(apply (f_equal digit); zdiv).
Qed.

Lemma pad_loop_group k w x y z r :
  pad_loop k ([w; x; y; z] ++ r) = [w; x; y; z] ++ pad_loop k r.
Proof.
  revert r. induction k as [|k IH]; intros r; [done|]. cbn [pad_loop].
  replace (Z.land (zlen ([w; x; y; z] ++ r)) 3) with (Z.land (zlen r) 3)
    by (rewrite !land3, length_app; simpl length; zdiv).
  case_match; [done|]. by rewrite <- app_assoc, IH.
Qed.

Lemma encode_spec l : bytes_ok l → ∀ bits, pad_loop 3 (encode_loop bits 0 l) = spec_encode l.
Proof.
  induction l as [|a|a b|a b c l IH] using group3_ind; intros Hl bits.
  - done.
  - rewrite encode_one by (by inversion Hl). done.
  - rewrite encode_two by (inversion Hl as [|??? Hl']; by inversion Hl'). done.
  - inversion Hl as [|?? Ha Hl1]; subst. inversion Hl1 as [|?? Hb Hl2]; subst.
    inversion Hl2 as [|?? Hc Hl3]; subst.
    rewrite encode_group, pad_loop_group, IH by done. done.
Qed.

Lemma spec_encode_length l : zlen (spec_encode l) = (zlen l + 2) / 3 * 4.
Proof.
  induction l as [|a|a b|a b c l IH] using group3_ind; [done..|].
  cbn [spec_encode]. rewrite length_app. simpl length. zdiv.
Qed.

(** The table is the inverse of the alphabet. *)
Lemma dec_digit x : 0 ≤ x < 64 → dec_char (digit x) = Some x ∧ digit x ≠ 0 ∧ digit x ≠ 61.
Proof.
  intros Hx.
  assert (H : forallb (λ n : nat, let x := Z.of_nat n in
     bool_decide (dec_char (digit x) = Some x) && negb (digit x =? 0) && negb (digit x =? 61)) (seq 0 64) = true)
    by (vm_compute; reflexivity).
  rewrite forallb_forall in H. specialize (H (Z.to_nat x)). rewrite Z2Nat.id in H by lia.
  assert (Hin : In (Z.to_nat x) (seq 0 64)) by (apply List.in_seq; lia).
  specialize (H Hin). rewrite !andb_true_iff, bool_decide_eq_true, !negb_true_iff, !Z.eqb_neq in H. tauto.
Qed.

Lemma decode_digit i v n out x l :
  0 ≤ x < 64 →
  decode_loop i v n out (digit x :: l) =
  decode_loop (i + 1) (s32 (v * 64 + x)) n
    (if negb (i mod 4 =? 0) && (zlen out <? n)
     then out ++ [u8 (s32 (v * 64 + x) / 2 ^ (6 - 2 * (i mod 4)))] else out) l.
Proof.
  intros Hx. destruct (dec_digit x Hx) as (Hd & H0 & H61). cbn [decode_loop].
  rewrite (proj2 (Z.eqb_neq _ _) H0), (proj2 (Z.eqb_neq _ _) H61), Hd, land3.
  simpl orb. cbv match zeta. rewrite Z.shiftl_mul_pow2 by lia. change (2 ^ 6) with 64.
  assert (Hr : 0 ≤ 6 - 2 * (i mod 4)) by zdiv. by rewrite Z.shiftr_div_pow2.
Qed.

Lemma decode_pad i v n out l : decode_loop i v n out (61 :: l) = Some out.
Proof. done. Qed.

(** The remainder of a counter that started a group. *)
Lemma group_mod i k : i mod 4 = 0 → 0 ≤ k < 4 → (i + k) mod 4 = k.
Proof. intros. zdiv. Qed.

Lemma decode_group i v n out w x y z r :
  0 ≤ w < 64 → 0 ≤ x < 64 → 0 ≤ y < 64 → 0 ≤ z < 64 → i mod 4 = 0 → zlen out + 3 ≤ n →
  ∃ v', decode_loop i v n out (digit w :: digit x :: digit y :: digit z :: r) =
  decode_loop (i + 4) v' n (out ++ [w * 4 + x / 16; x mod 16 * 16 + y / 4; y mod 4 * 64 + z]) r.
Proof.
  intros Hw Hx Hy Hz Hi Hn. do 4 (rewrite decode_digit by done).
  replace (i + 1 + 1 + 1) with (i + 3) by lia. replace (i + 1 + 1) with (i + 2) by lia.
  rewrite Hi, !group_mod by lia. simpl (negb _). cbn [andb].
  do 3 (ifs; rewrite ?length_app; simpl length).
  replace (i + 3 + 1) with (i + 4) by lia. eexists. f_equal.
  rewrite <- !app_assoc. f_equal. simpl app. unfold u8, s32. change (6 - 2 * 1) with 4.
  change (6 - 2 * 2) with 2. change (6 - 2 * 3) with 0. same_list zdiv.
Qed.

Lemma decode_spec l :
  bytes_ok l → ∀ i v n out, i mod 4 = 0 → zlen out + zlen l ≤ n →
  decode_loop i v n out (spec_encode l) = Some (out ++ l).
Proof.
  induction l as [|a|a b|a b c l IH] using group3_ind; intros Hl i v n out Hi Hn; simpl length in Hn.
  - simpl. by rewrite app_nil_r.
  - assert (is_byte a) as Ha by (by inversion Hl). unfold is_byte in Ha.
    cbn [spec_encode]. rewrite !decode_digit, decode_pad by zdiv.
    rewrite Hi, group_mod by lia. simpl (negb _). cbn [andb]. ifs.
    do 2 f_equal. unfold u8, s32. change (2 ^ (6 - 2 * 1)) with 16. same_list zdiv.
  - assert (is_byte a ∧ is_byte b) as [Ha Hb] by (inversion Hl as [|??? Hl']; by inversion Hl').
    unfold is_byte in *. cbn [spec_encode]. rewrite !decode_digit, decode_pad by zdiv.
    replace (i + 1 + 1) with (i + 2) by lia.
    rewrite Hi, !group_mod by lia. simpl (negb _). cbn [andb]. do 2 (ifs; rewrite ?length_app; simpl length).
    rewrite <- app_assoc. do 2 f_equal. simpl app. unfold u8, s32. change (2 ^ (6 - 2 * 1)) with 16.
    change (2 ^ (6 - 2 * 2)) with 4. same_list zdiv.
  - inversion Hl as [|?? Ha Hl1]; subst. inversion Hl1 as [|?? Hb Hl2]; subst.
    inversion Hl2 as [|?? Hc Hl3]; subst. unfold is_byte in *. cbn [spec_encode app].
    destruct (decode_group i v n out (a / 4) (a mod 4 * 16 + b / 16) (b mod 16 * 4 + c / 64) (c mod 64)
      (spec_encode l)) as (v' & ->); [zdiv..|done|lia|].
    rewrite IH; [|done|zdiv|rewrite length_app; simpl length; lia].
    f_equal. rewrite <- app_assoc. f_equal. simpl app.
    repeat (apply (f_equal2 cons); [zdiv|]). done.
Qed.

Lemma base64_encode_eq l out_size in_size :
  bytes_ok l → zlen l = in_size → in_size < UINT_MAX / 4 →
  base64_encode out_size l in_size =
    (if out_size <? BASE64_SIZE in_size then None else Some (spec_encode l ++ [0])).
Proof.
  intros Hl Hz Hs. unfold UINT_MAX in Hs. unfold base64_encode, UINT_MAX. rewrite u32_small by zdiv.
  replace (_ <=? in_size) with false by (symmetry; solve_bool). simpl orb.
  case_match; [done|]. rewrite take_ge, encode_spec by (done || lia). done.
Qed.

Lemma digit_char n : 0 ≤ n < 64 → 43 ≤ digit n ≤ 122.
Proof.
  intros H. assert (F : Forall (λ c, 43 ≤ c ≤ 122) b64)
    by (vm_compute; repeat (constructor; [split; discriminate|]); constructor).
  rewrite List.Forall_nth in F. apply F. simpl. lia.
Qed.

(** Encoded text is made of characters from '+' to 'z'. *)
Lemma spec_encode_chars l : bytes_ok l → Forall (λ c, 43 ≤ c ≤ 122) (spec_encode l).
Proof.
  induction l as [|a|a b|a b c l IH] using group3_ind; intros Hl; cbn [spec_encode app];
    repeat match goal with H : bytes_ok (_ :: _) |- _ => inversion H; subst; clear H
                         | H : Forall is_byte (_ :: _) |- _ => inversion H; subst; clear H end;
    unfold is_byte in *; repeat (constructor; [first [apply digit_char; zdiv|lia]|]); auto.
Qed.

(** [base64_encode] is the standard encoding and stays inside its buffer.
    For an input of [in_size] bytes with room for [BASE64_SIZE(in_size)], it returns
    exactly the three-bytes-to-four-digits encoding with [=] padding and the NUL,
    which takes [BASE64_SIZE(in_size)] bytes; with less room, or an absurd or
    negative size, it returns NULL. *)
Theorem base64_encode_correct l out_size in_size :
  bytes_ok l → zlen l = in_size → in_size < UINT_MAX / 4 →
  base64_encode out_size l in_size =
    (if out_size <? BASE64_SIZE in_size then None else Some (spec_encode l ++ [0])) ∧
  zlen (spec_encode l ++ [0]) = BASE64_SIZE in_size.
Proof.
  intros Hl Hz Hs. split; [by apply base64_encode_eq|].
  rewrite length_app, Nat2Z.inj_add, spec_encode_length, Hz. done.
Qed.

Lemma base64_encode_correct_witness :
  base64_encode 9 [77; 97; 110; 77] 4 = Some (bytes "TWFuTQ==" ++ [0]) ∧
  zlen (spec_encode [77; 97; 110; 77] ++ [0]) = BASE64_SIZE 4.
Proof.
  apply (base64_encode_correct [77; 97; 110; 77] 9 4); [by apply bytes_okb_ok|done|done].
Defined.

(** A character outside the alphabet before any terminator makes decoding fail. *)
Lemma decode_bad p c q room :
  dec_char c = None → c ≠ 0 → c ≠ 61 → Forall (λ x, x ≠ 0 ∧ x ≠ 61) p →
  ∀ i v out, decode_loop i v room out (p ++ c :: q) = None.
Proof.
  intros Hc H0 H61. induction p as [|x p IH]; intros Hp i v out; simpl.
  - if_false. by rewrite Hc.
  - inversion Hp as [|?? [Hx0 Hx61] Hp']; subst. if_false. case_match; [by apply IH|done].
Qed.

(** Decoding an encoded buffer gives it back, for every byte string and any
    output room of at least its length; a character outside the alphabet anywhere
    before the end makes [base64_decode] fail. *)
Theorem base64_roundtrip l out_size in_size room e :
  bytes_ok l → zlen l = in_size → in_size < UINT_MAX / 4 → in_size ≤ room →
  base64_encode out_size l in_size = Some e →
  base64_decode e room = Some l ∧
  ∀ p c q, dec_char c = None → c ≠ 0 → c ≠ 61 → Forall (λ x, x ≠ 0 ∧ x ≠ 61) p →
    base64_decode (p ++ c :: q) room = None.
Proof.
  intros Hl Hz Hs Hr He. split.
  - rewrite (base64_encode_eq l) in He by done. destruct (_ <? _); [done|].
    apply (inj Some) in He as <-. unfold base64_decode.
    assert (Hnul : ∀ k i v n out, decode_loop i v n out (k ++ [0]) = decode_loop i v n out k).
    { induction k as [|x k IH]; intros; simpl; [done|]. case_match; [done|]. case_match; [apply IH|done]. }
    rewrite Hnul. apply (decode_spec l Hl); [done|simpl; lia].
  - intros p c q Hc H0 H61 Hp. by apply decode_bad.
Qed.

Lemma base64_roundtrip_witness : base64_decode (bytes "TWFuTQ==" ++ [0]) 4 = Some [77; 97; 110; 77].
Proof.
  apply (base64_roundtrip [77; 97; 110; 77] 9 4 4 (bytes "TWFuTQ==" ++ [0]));
    [by apply bytes_okb_ok|done|done|done|reflexivity].
Defined.
