(* ===== verification/ObfsHttp.v ===== *)
(** * obfs_http.c: payload behind one fake HTTP upgrade header

    The first buffer of each direction is prefixed with a request or response
    header; the receiver drops everything up to the first empty line. Template
    strings are the C ones; [snprintf] writes at most the size of its buffer and
    returns the untruncated length, which is what the code then copies. *)
From S2P Require Import Prelude Encrypt Obfs Base64.

Definition http_request_template (uri host_port : list Z) (major minor : Z) (b64 : list Z) (n : Z) : list Z :=
  bytes "GET " ++ uri ++ bytes " HTTP/1.1" ++ CRLF ++
  bytes "Host: " ++ host_port ++ CRLF ++
  bytes "User-Agent: curl/7." ++ print_d major ++ bytes "." ++ print_d minor ++ CRLF ++
  bytes "Upgrade: websocket" ++ CRLF ++
  bytes "Connection: Upgrade" ++ CRLF ++
  bytes "Sec-WebSocket-Key: " ++ b64 ++ CRLF ++
  bytes "Content-Length: " ++ print_u n ++ CRLF ++
  CRLF.

Definition http_response_template (major minor : Z) (datetime b64 : list Z) : list Z :=
  bytes "HTTP/1.1 101 Switching Protocols" ++ CRLF ++
  bytes "Server: nginx/1." ++ print_d major ++ bytes "." ++ print_d minor ++ CRLF ++
  bytes "Date: " ++ datetime ++ CRLF ++
  bytes "Upgrade: websocket" ++ CRLF ++
  bytes "Connection: Upgrade" ++ CRLF ++
  bytes "Sec-WebSocket-Accept: " ++ b64 ++ CRLF ++
  CRLF.

(** [snprintf] into a fresh [char[size]]: the returned length and the array. *)
Definition snprintf (size : Z) (s : list Z) : Z * list Z :=
  (zlen s, take (Z.to_nat size) (take (Z.to_nat (size - 1)) s ++ 0 :: fresh_mem size)).

Arguments snprintf : simpl never.

(** The [static int] version numbers of the two functions. *)
Record http_statics := mkhttp { req_major : Z; req_minor : Z; resp_major : Z; resp_minor : Z }.
Definition http_statics_init : http_statics := mkhttp 0 0 0 0.

(** [v = v ? v : rand() % n] *)
Definition pick (v n : Z) (w : world) : Z * world :=
  if v =? 0 then let '(r, w') := rand w in (r mod n, w') else (v, w).

(** The random WebSocket key as text. *)
Definition random_key (w : world) : list Z * world :=
  let '(key, w') := rand_bytes 16 w in (c_str (default [] (base64_encode 64 key 16)), w').

(** The common tail: grow, shift the payload and copy the header in front. *)
Definition prepend (b : buffer) (cap : Z) (header : Z * list Z) : outcome buffer :=
  let '(obfs_len, http_header) := header in
  let buf_len := len b in
  let b := grow b (obfs_len + buf_len) cap in
  d1 ← memmove (data b) obfs_len 0 buf_len;
  h ← mread http_header 0 obfs_len;
  d2 ← mwrite d1 0 h;
  Ret (set_len (set_data b d2) (obfs_len + buf_len)).

Definition host_port_text (c : obfs_conf) (hst : list Z) : list Z :=
  c_str (snprintf 256 (if negb (port c =? 80) then hst ++ bytes ":" ++ print_d (port c) else hst)).2.

Definition obfs_http_request (c : obfs_conf) (b : buffer) (cap : Z) (obfs : option obfs_t)
    (st : http_statics) (w : world) : op_result http_statics :=
  match obfs with
  | None => Ret (0, b, obfs, st, w)
  | Some o =>
    if negb (obfs_stage o =? 0) then Ret (0, b, obfs, st, w)
    else
      let o := set_obfs_stage o (obfs_stage o + 1) in
      let '(major, w1) := pick (req_major st) 51 w in
      let '(minor, w2) := pick (req_minor st) 2 w1 in
      let st := mkhttp major minor (resp_major st) (resp_minor st) in
      match host c with
      | None => Fault                                  (* "%s" of NULL *)
      | Some hst =>
        let host_port := host_port_text c hst in
        let '(b64, w3) := random_key w2 in
        b ← prepend b cap (snprintf 512 (http_request_template (uri c) host_port major minor b64 (len b)));
        Ret (s32 (len b), b, Some o, st, w3)
      end
  end.

Definition obfs_http_response (b : buffer) (cap : Z) (obfs : option obfs_t)
    (st : http_statics) (w : world) : op_result http_statics :=
  match obfs with
  | None => Ret (0, b, obfs, st, w)
  | Some o =>
    if negb (obfs_stage o =? 0) then Ret (0, b, obfs, st, w)
    else
      let o := set_obfs_stage o (obfs_stage o + 1) in
      let '(major, w1) := pick (resp_major st) 11 w in
      let '(minor, w2) := pick (resp_minor st) 12 w1 in
      let st := mkhttp (req_major st) (req_minor st) major minor in
      let '(b64, w3) := random_key w2 in
      b ← prepend b cap (snprintf 512 (http_response_template major minor (date w) b64));
      Ret (s32 (len b), b, Some o, st, w3)
  end.

(** [while (len >= 4) ...]: the offset of [data] and [len] after the loop, or
    [None] when no empty line is found ([err] stays -1). *)
Fixpoint find_blank_line (m : list Z) (len data : Z) : option (Z * Z) :=
  if 4 <=? len then
    match m with
    | [] => None
    | a :: m' =>
        match m' with
        | b :: c :: d :: _ =>
            if (a =? CR) && (b =? LF) && (c =? CR) && (d =? LF) then Some (data + 4, len - 4)
            else find_blank_line m' (len - 1) (data + 1)
        | _ => None
        end
    end
  else None.

Definition deobfs_http_header (b : buffer) (obfs : option obfs_t) : outcome (Z * buffer * option obfs_t) :=
  match obfs with
  | None => Ret (0, b, obfs)
  | Some o =>
    if negb (deobfs_stage o =? 0) then Ret (0, b, obfs)
    else match find_blank_line (data b) (s32 (len b)) 0 with
         | None => Ret (-1, b, obfs)
         | Some (p, n) =>
             d ← memmove (data b) 0 p n;
             Ret (0, set_len (set_data b d) n, Some (set_deobfs_stage o (deobfs_stage o + 1)))
         end
  end.

(** [while ( *len > 2 && ( *data)[0] != '\r' && ( *data)[1] != '\n')]. *)
Fixpoint skip_line (data : list Z) (len : Z) : outcome (list Z * Z) :=
  if 2 <? len then
    match data with
    | [] => Fault
    | c0 :: tl =>
        if c0 =? CR then Ret (data, len)
        else match tl with
             | [] => Fault
             | c1 :: _ => if c1 =? LF then Ret (data, len) else skip_line tl (len - 1)
             end
    end
  else Ret (data, len).

(** [while ( *len > header_len + 1 && ...) header_len++], on the rest of the data. *)
Fixpoint header_scan (data : list Z) (len header_len : Z) : outcome Z :=
  if header_len + 1 <? len then
    match data with
    | [] => Fault
    | c0 :: tl =>
        if c0 =? CR then Ret header_len
        else match tl with
             | [] => Fault
             | c1 :: _ => if c1 =? LF then Ret header_len else header_scan tl len (header_len + 1)
             end
    end
  else Ret header_len.

Definition next_header (data : list Z) (len : Z) : outcome (Z * list Z * Z) :=
  '(data, len) ← skip_line data len;
  let data := drop 2 data in
  let len := len - 2 in
  header_len ← header_scan data len 0;
  Ret (header_len, data, len).

Definition isblank (c : Z) : bool := (c =? 32) || (c =? 9).

(** [while (header_len < len && isblank(data[header_len])) header_len++]. *)
Fixpoint skip_blanks (data : list Z) (header_len len : Z) : Z :=
  if header_len <? len then
    match data with
    | [] => header_len
    | c :: data' => if isblank c then skip_blanks data' (header_len + 1) len else header_len
    end
  else header_len.

(** The value ([strncpy] stops at a NUL) with the returned length, or the
    negative result. [fuel] bounds the headers read: each one consumes input. *)
Fixpoint get_header_loop (fuel : nat) (header data : list Z) (data_len : Z) : outcome (Z * list Z) :=
  match fuel with
  | O => Fault
  | S fuel' =>
      '(len, data, data_len) ← next_header data data_len;
      if len =? 0 then Ret (if data_len =? 0 then -1 else -2, [])
      else
        let header_len := zlen header in
        if (header_len <? len) && strncasecmp_eq header (take (length header) data) header_len then
          let header_len := skip_blanks (drop (length header) data) header_len len in
          Ret (len - header_len, c_str (take (Z.to_nat (len - header_len)) (drop (Z.to_nat header_len) data)))
        else get_header_loop fuel' header data data_len
  end.

Definition get_header (header data : list Z) (data_len : Z) : outcome (Z * list Z) :=
  get_header_loop (S (Z.to_nat data_len)) header data data_len.

(** The last ':' of a host name starts the port, which is cut off. *)
Fixpoint trim_port (rhost : list Z) : option (list Z) :=
  match rhost with
  | [] => None
  | c :: r => if c =? 58 then Some r else trim_port r
  end.

Definition check_http_header (c : obfs_conf) (b : buffer) : outcome Z :=
  let len := s32 (len b) in
  if len <? 4 then Ret OBFS_NEED_MORE
  else if negb (strncasecmp_eq (c_str (take 3 (data b))) (bytes "GET") 3) then Ret OBFS_ERROR
  else
    '(result, protocol) ← get_header (bytes "Upgrade:") (data b) len;
    if result <? 0 then Ret (if result =? -1 then OBFS_NEED_MORE else OBFS_ERROR)
    else if negb (strncmp_eq protocol (bytes "websocket") result) then Ret OBFS_ERROR
    else match host c with
    | None => Ret OBFS_OK
    | Some hst =>
        '(result, hostname) ← get_header (bytes "Host:") (data b) len;
        if result <? 0 then Ret (if result =? -1 then OBFS_NEED_MORE else OBFS_ERROR)
        else
          let hostname := match trim_port (rev hostname) with Some r => rev r | None => hostname end in
          (* the length passed is (size_t)OBFS_ERROR: the whole strings *)
          Ret (if strncasecmp_eq hostname hst (Z.max (zlen hostname) (zlen hst) + 1) then OBFS_OK else OBFS_ERROR)
    end.

Definition disable_http (o : obfs_t) : obfs_t := mkobfs (-1) (-1) (obuf o) (extra o).
Definition is_enable_http (o : obfs_t) : bool :=
  negb (obfs_stage o =? -1) && negb (deobfs_stage o =? -1).

Definition lift_header (b : buffer) (cap : Z) (obfs : option obfs_t) (st : http_statics) (w : world)
  : op_result http_statics :=
  '(r, b, obfs) ← deobfs_http_header b obfs; Ret (r, b, obfs, st, w).

Definition obfs_http (c : obfs_conf) : obfs_para http_statics :=
  mkpara (bytes "http") c true (obfs_http_request c) obfs_http_response
    lift_header lift_header (check_http_header c) disable_http is_enable_http.

(** ** Scanning headers *)
(** Text free of line ends, and free of NUL. *)
Definition plain (c : Z) : Prop := 0 < c < 256 ∧ c ≠ CR ∧ c ≠ LF.
(** What a header is made of: a first line, more lines, an empty line. *)
Definition header_of (l0 : list Z) (ls : list (list Z)) : list Z :=
  l0 ++ concat (map (app CRLF) ls) ++ CRLF ++ CRLF.
Definition line_ok (l : list Z) : Prop := l ≠ [] ∧ Forall plain l.

Lemma find_blank_skip s m n p :
  Forall (λ c, c ≠ CR) s → 4 ≤ zlen m → zlen s + 4 ≤ n →
  find_blank_line (s ++ m) n p = find_blank_line m (n - zlen s) (p + zlen s).
Proof.
  intros Hs Hm. revert n p. induction Hs as [|x s Hx Hs IH]; intros n p Hn.
  - simpl. f_equal; lia.
  - simpl app. cbn [find_blank_line]. simpl length in Hn. if_true.
    destruct (s ++ m) as [|b [|c [|d t]]] eqn:E;
      try (apply (f_equal length) in E; rewrite length_app in E; simpl in E; lia).
    if_false. rewrite IH by lia. f_equal; simpl length; lia.
Qed.

(** A line end followed by a non-empty line is passed over. *)
Lemma find_blank_crlf x m n p :
  x ≠ CR → 1 ≤ zlen m → 4 ≤ n →
  find_blank_line (CR :: LF :: x :: m) n p = find_blank_line (LF :: x :: m) (n - 1) (p + 1).
Proof.
  intros Hx Hm Hn. destruct m as [|y m]; [simpl in Hm; lia|].
  remember (LF :: x :: y :: m) as k eqn:E. cbn [find_blank_line]. if_true. subst k. by if_false.
Qed.

Lemma plain_not_cr l : Forall plain l → Forall (λ c, c ≠ CR) l.
Proof. intros H. eapply Forall_impl; [|exact H]. by intros c (_ & ? & _). Qed.

Lemma find_blank_lines ls rest n p :
  Forall line_ok ls →
  zlen (concat (map (app CRLF) ls)) + 4 ≤ n →
  find_blank_line (concat (map (app CRLF) ls) ++ CRLF ++ CRLF ++ rest) n p
  = Some (p + zlen (concat (map (app CRLF) ls)) + 4, n - zlen (concat (map (app CRLF) ls)) - 4).
Proof.
  intros Hls. revert n p. induction Hls as [|l ls [Hl0 Hl] Hls IH]; intros n p Hn.
  - cbn. simpl in Hn. if_true. do 2 f_equal; lia.
  - cbn [map concat app CRLF] in Hn |- *. rewrite <- app_assoc.
    set (K := concat _) in *. destruct l as [|x l]; [done|].
    simpl length in Hn. rewrite length_app in Hn.
    inversion Hl as [|? ? (Hx1 & Hx2 & Hx3) Hl']; subst. simpl app.
    rewrite find_blank_crlf by (done || rewrite ?length_app; simpl length; lia).
    change (LF :: x :: l ++ ?k) with ((LF :: x :: l) ++ k).
    rewrite find_blank_skip; [| |rewrite length_app; simpl length; lia|simpl length; lia].
    + unfold CRLF in IH. simpl app in IH. rewrite IH by (simpl length; lia).
      simpl length. rewrite length_app. do 2 f_equal; lia.
    + constructor; [done|]. by apply plain_not_cr.
Qed.

Lemma find_header l0 ls rest n p :
  Forall plain l0 → Forall line_ok ls → zlen (header_of l0 ls) ≤ n →
  find_blank_line (header_of l0 ls ++ rest) n p
  = Some (p + zlen (header_of l0 ls), n - zlen (header_of l0 ls)).
Proof.
  unfold header_of. rewrite <- !app_assoc, !length_app. change (length CRLF) with 2%nat. intros H0 Hls Hn.
  rewrite find_blank_skip; [|by apply plain_not_cr| |].
  - rewrite find_blank_lines by (done || lia). do 2 f_equal; lia.
  - rewrite !length_app. change (length CRLF) with 2%nat. lia.
  - lia.
Qed.

(** The scan finds the first empty line, wherever it is. *)
Definition blank_at (m : list Z) (n k : Z) : Prop :=
  0 ≤ k ∧ k + 4 ≤ n ∧ take 4 (drop (Z.to_nat k) m) = CRLF ++ CRLF.

Lemma blank_at_0 a b c d t n :
  4 ≤ n → (a =? CR) && (b =? LF) && (c =? CR) && (d =? LF) = true ↔ blank_at (a :: b :: c :: d :: t) n 0.
Proof.
  intros Hn. unfold blank_at. rewrite !andb_true_iff, !Z.eqb_eq. simpl. rewrite take_0.
  split; [by intros (((-> & ->) & ->) & ->)|]. by intros (_ & _ & [= -> -> -> ->]).
Qed.

Lemma blank_at_S a m n k : 0 < k → blank_at (a :: m) n k ↔ blank_at m (n - 1) (k - 1).
Proof.
  intros Hk. unfold blank_at. replace (Z.to_nat k) with (S (Z.to_nat (k - 1))) by lia.
  simpl. intuition lia.
Qed.

Lemma find_blank_line_spec m n p :
  n ≤ zlen m →
  match find_blank_line m n p with
  | Some (q, r) => ∃ k, q = p + k + 4 ∧ r = n - k - 4 ∧ blank_at m n k ∧ ∀ j, blank_at m n j → k ≤ j
  | None => ∀ k, ¬ blank_at m n k
  end.
Proof.
  revert n p. induction m as [|a m IH]; intros n p Hn; simpl length in Hn.
  - simpl. destruct (4 <=? n) eqn:E; bool_hyps; intros k (? & ? & _); simpl in *; lia.
  - cbn [find_blank_line]. destruct (4 <=? n) eqn:E; bool_hyps; [|intros k (? & ? & _); lia].
    destruct m as [|b [|c [|d t]]]; try (simpl length in Hn; lia).
    destruct (_ && _) eqn:Eh.
    + apply (blank_at_0 a b c d t n E) in Eh. exists 0. split_and!; [lia|lia|done|]. by intros j (? & _).
    + assert (¬ blank_at (a :: b :: c :: d :: t) n 0) as N0 by (rewrite <- blank_at_0, Eh by done; done).
      specialize (IH (n - 1) (p + 1) ltac:(simpl length in *; lia)).
      destruct (find_blank_line _ _ _) as [[q r]|].
      * destruct IH as (k & -> & -> & Hk & Hmin). assert (0 ≤ k) by by destruct Hk.
        exists (k + 1). split_and!; [lia|lia| |].
        -- apply blank_at_S; [lia|]. by replace (k + 1 - 1) with k by lia.
        -- intros j Hj. destruct (Z.eq_dec j 0) as [-> |]; [done|].
           assert (0 ≤ j) by by destruct Hj. apply blank_at_S in Hj; [|lia]. apply Hmin in Hj. lia.
      * intros k Hk. destruct (Z.eq_dec k 0) as [-> |]; [done|].
        assert (0 ≤ k) by by destruct Hk. apply blank_at_S in Hk; [|lia]. by apply IH in Hk.
Qed.

(** ** Building the headers *)
Lemma snprintf_len size s : (snprintf size s).1 = zlen s.
Proof. done. Qed.

Lemma length_snprintf size s : 0 < size → zlen (snprintf size s).2 = size.
Proof.
  intros H. unfold snprintf. cbn [snd]. rewrite length_take, length_app. cbn [length].
  rewrite length_take. unfold fresh_mem. rewrite length_replicate. lia.
Qed.

Lemma snprintf_fits size s :
  zlen s < size → ∃ t, (snprintf size s).2 = s ++ 0 :: t.
Proof.
  intros H. unfold snprintf. cbn [snd]. rewrite (take_ge s) by lia.
  rewrite take_app_ge by lia. destruct (Z.to_nat size - length s)%nat eqn:E; [lia|]. by eexists.
Qed.

Lemma prepend_spec b cap s :
  buffer_ok b → bytes_ok s → zlen s < 512 →
  ∃ b', prepend b cap (snprintf 512 s) = Ret b' ∧ content b' = s ++ content b ∧ buffer_ok b' ∧
        idx b' = idx b ∧ capacity b ≤ capacity b' ∧ len b' = zlen s + len b.
Proof.
  intros Hb Hs Hl. destruct (snprintf_fits 512 s Hl) as (t & Ht).
  unfold prepend. rewrite (surjective_pairing (snprintf 512 s)), Ht, snprintf_len.
  destruct (grow_split b (zlen s + len b) cap Hb) as (tl & Ed & Htl & Hz).
  pose proof (grow_capacity b (zlen s + len b) cap) as Hc.
  pose proof (content_length b Hb) as Hcl. rewrite <- Hcl in *. rewrite Ed.
  rewrite memmove_shift by lia. rewrite bind_Ret, mread_prefix, bind_Ret.
  set (m := take _ _). assert (length m = length s) as Hm.
  { unfold m. rewrite length_take, length_app. lia. }
  pose proof (mwrite_app [] m (content b ++ drop (Z.to_nat (zlen s)) tl) s ltac:(done)) as E.
  change (zlen []) with 0 in E. cbn [app] in E. rewrite E, bind_Ret. eexists. split; [done|].
  destruct (buffer_intro (set_len (set_data (grow b (zlen s + zlen (content b)) cap)
      (s ++ content b ++ drop (Z.to_nat (zlen s)) tl)) (zlen s + zlen (content b)))
      (s ++ content b) (drop (Z.to_nat (zlen s)) tl)) as [H1 H2]; simpl;
    rewrite ?length_app, ?length_drop, ?grow_idx; try lia; [by rewrite app_assoc|by destruct Hb| | |].
  - apply bytes_ok_app. auto with obfs.
  - by apply Forall_drop.
  - split_and!; [done|done|done|lia|done].
Qed.

Lemma prepend_fault b cap s :
  buffer_ok b → 512 < zlen s → prepend b cap (snprintf 512 s) = Fault.
Proof.
  intros Hb Hl. unfold prepend. rewrite (surjective_pairing (snprintf 512 s)), snprintf_len.
  destruct (memmove _ _ _ _) as [d| |] eqn:E; simpl; [|done|].
  - unfold mread. pose proof (length_snprintf 512 s ltac:(lia)) as Hz. unfold snprintf in Hz.
    cbn [snd] in Hz. rewrite Hz. by if_false.
  - exfalso. unfold memmove, mread, mwrite in E. repeat case_match; simpl in E; try done; by case_match.
Qed.

(** A key takes 24 plain characters. *)
Lemma random_key_spec w :
  ∃ k w', random_key w = (k, w') ∧ Forall plain k ∧ zlen k = 24.
Proof.
  unfold random_key. pose proof (rand_bytes_ok 16 w) as Hk.
  pose proof (length_rand_bytes 16 w ltac:(lia) eq_refl) as Hz.
  destruct (rand_bytes 16 w) as [key w']. cbn [fst] in *.
  rewrite base64_encode_eq by done. change (64 <? BASE64_SIZE 16) with false. cbn [from_option id].
  pose proof (spec_encode_chars key Hk) as Hc. rewrite c_str_app.
  - do 2 eexists. split; [done|]. split; [|by rewrite spec_encode_length, Hz].
    eapply Forall_impl; [|exact Hc]. unfold plain, CR, LF. simpl. lia.
  - eapply Forall_impl; [|exact Hc]. simpl. lia.
Qed.

(** The lines of the two headers. *)
Definition request_lines (host_port : list Z) (major minor : Z) (b64 : list Z) (n : Z) : list (list Z) :=
  [bytes "Host: " ++ host_port;
   bytes "User-Agent: curl/7." ++ print_d major ++ bytes "." ++ print_d minor;
   bytes "Upgrade: websocket";
   bytes "Connection: Upgrade";
   bytes "Sec-WebSocket-Key: " ++ b64;
   bytes "Content-Length: " ++ print_u n].
Definition request_line0 (uri : list Z) : list Z := bytes "GET " ++ uri ++ bytes " HTTP/1.1".

Lemma request_template_lines uri hp major minor b64 n :
  http_request_template uri hp major minor b64 n
  = header_of (request_line0 uri) (request_lines hp major minor b64 n).
Proof.
  unfold http_request_template, header_of, request_line0, request_lines.
  cbn [map concat]. by rewrite <- ?app_assoc.
Qed.

Definition response_lines (major minor : Z) (datetime b64 : list Z) : list (list Z) :=
  [bytes "Server: nginx/1." ++ print_d major ++ bytes "." ++ print_d minor;
   bytes "Date: " ++ datetime;
   bytes "Upgrade: websocket";
   bytes "Connection: Upgrade";
   bytes "Sec-WebSocket-Accept: " ++ b64].

Lemma response_template_lines major minor datetime b64 :
  http_response_template major minor datetime b64
  = header_of (bytes "HTTP/1.1 101 Switching Protocols") (response_lines major minor datetime b64).
Proof.
  unfold http_response_template, header_of, response_lines.
  cbn [map concat]. by rewrite <- ?app_assoc.
Qed.

(** Literal text is checked by evaluation. *)
Definition plainb (c : Z) : bool :=
  (0 <? c) && (c <? 256) && negb (c =? CR) && negb (c =? LF).
Lemma plainb_ok l : forallb plainb l = true → Forall plain l.
Proof.
  intros H. apply List.Forall_forall. intros c Hc. rewrite forallb_forall in H.
  specialize (H c Hc). unfold plainb, plain in *. lia.
Qed.

Lemma print_u_plain n : 0 ≤ n → Forall plain (print_u n).
Proof.
  intros H. eapply Forall_impl; [|by apply print_u_digits]. unfold plain, CR, LF. simpl. lia.
Qed.
Lemma print_d_plain n : 0 ≤ n → Forall plain (print_d n).
Proof. intros H. unfold print_d. if_false. by apply print_u_plain. Qed.

#[local] Ltac plain_line := split; [done|];
  repeat match goal with |- Forall _ (_ ++ _) => apply Forall_app; split end;
  first [by apply plainb_ok|by apply print_d_plain|by apply print_u_plain|done].

Lemma request_lines_ok hp major minor b64 n :
  Forall plain hp → 0 ≤ major → 0 ≤ minor → Forall plain b64 → 0 ≤ n →
  Forall line_ok (request_lines hp major minor b64 n).
Proof. intros. repeat (constructor; [plain_line|]). constructor. Qed.

Lemma response_lines_ok major minor datetime b64 :
  0 ≤ major → 0 ≤ minor → Forall plain datetime → Forall plain b64 →
  Forall line_ok (response_lines major minor datetime b64).
Proof. intros. repeat (constructor; [plain_line|]). constructor. Qed.

Lemma plain_bytes l : Forall plain l → bytes_ok l.
Proof. intros H. eapply Forall_impl; [|exact H]. unfold plain, is_byte. intros c ((? & ?) & _). lia. Qed.

Lemma header_bytes l0 ls : Forall plain l0 → Forall line_ok ls → bytes_ok (header_of l0 ls).
Proof.
  intros H0 Hls. unfold header_of. rewrite !bytes_ok_app. split; [by apply plain_bytes|].
  split; [|by split; apply bytes_okb_ok].
  induction Hls as [|l ls [_ Hl] _ IH]; cbn [map concat]; [constructor|].
  rewrite !bytes_ok_app. split; [|done]. split; [by apply bytes_okb_ok|by apply plain_bytes].
Qed.

(** Version numbers stay small and non-negative. *)
Record versions_ok (st : http_statics) : Prop := {
  v1 : 0 ≤ req_major st < 100; v2 : 0 ≤ req_minor st < 100;
  v3 : 0 ≤ resp_major st < 100; v4 : 0 ≤ resp_minor st < 100 }.

Lemma pick_spec v n w : 0 ≤ v < 100 → 0 < n ≤ 100 → ∃ r w', pick v n w = (r, w') ∧ 0 ≤ r < 100 ∧ date w' = date w.
Proof.
  intros Hv Hn. unfold pick. case_match.
  - unfold rand. do 2 eexists. split; [done|]. split; [|done].
    pose proof (Z.mod_pos_bound (rand_at w (rand_pos w) mod (RAND_MAX + 1)) n). lia.
  - by do 2 eexists.
Qed.

Lemma print_u_length n : (length (print_u n) ≤ 20)%nat.
Proof. unfold print_u. generalize 20%nat as f. intros f. revert n.
  induction f as [|f IH]; intros n; simpl; [lia|]. rewrite length_app. simpl.
  case_match; simpl; [lia|]. specialize (IH (n / 10)). lia.
Qed.

Lemma print_d_length2 n : 0 ≤ n < 100 → (length (print_d n) ≤ 2)%nat.
Proof. intros H. unfold print_d. if_false. apply (digits_length 1). simpl. lia. Qed.

(** Configurations whose request header fits its 512-byte array. *)
Record conf_ok (c : obfs_conf) (hst : list Z) : Prop := {
  conf_host : host c = Some hst;
  conf_host_plain : Forall plain hst;
  conf_uri_plain : Forall plain (uri c);
  conf_port : 0 ≤ port c < 65536;
  conf_fits : zlen (uri c) + zlen (host_port_text c hst) ≤ 336 }.

Lemma c_str_sub m : ∃ t, m = c_str m ++ t.
Proof.
  induction m as [|x m (t & IH)]; simpl; [by exists []|]. case_match; [by eexists|].
  exists t. simpl. by f_equal.
Qed.

Lemma c_str_plain m : Forall (λ c, c = 0 ∨ plain c) m → Forall plain (c_str m).
Proof.
  induction 1 as [|c m Hc _ IH]; simpl; [constructor|]. case_match; [constructor|].
  bool_hyps. constructor; [tauto|done].
Qed.

Lemma host_port_plain c hst : Forall plain hst → 0 ≤ port c → Forall plain (host_port_text c hst).
Proof.
  intros Hh Hp. unfold host_port_text. apply c_str_plain. unfold snprintf. cbn [snd].
  apply Forall_take, Forall_app. split.
  - apply Forall_take. assert (∀ l, Forall plain l → Forall (λ c, c = 0 ∨ plain c) l) as W.
    { intros l Hl. eapply Forall_impl; [|exact Hl]. auto. }
    apply W. case_match; [|done].
    repeat (apply Forall_app; split); [done|by apply plainb_ok|by apply print_d_plain].
  - constructor; [by left|]. apply Forall_replicate. by left.
Qed.

Lemma request_line0_plain u : Forall plain u → Forall plain (request_line0 u).
Proof. intros. repeat (apply Forall_app; split); first [done|by apply plainb_ok]. Qed.

Lemma request_template_length u hp major minor b64 n :
  0 ≤ major < 100 → 0 ≤ minor < 100 → zlen b64 = 24 → zlen u + zlen hp ≤ 336 →
  zlen (http_request_template u hp major minor b64 n) < 512.
Proof.
  intros. pose proof (print_d_length2 major). pose proof (print_d_length2 minor).
  pose proof (print_u_length n). unfold http_request_template. rewrite !length_app.
  cbn [length bytes CRLF]. lia.
Qed.

(** One request: the header in front of the payload. *)
Lemma obfs_http_request_spec c hst b cap o st w :
  conf_ok c hst → obfs_stage o = 0 → buffer_ok b → versions_ok st →
  ∃ b' st' w' major minor key,
    obfs_http_request c b cap (Some o) st w = Ret (s32 (len b'), b', Some (set_obfs_stage o 1), st', w') ∧
    content b' = header_of (request_line0 (uri c))
                   (request_lines (host_port_text c hst) major minor key (len b)) ++ content b ∧
    buffer_ok b' ∧ len b' < 512 + len b ∧ capacity b ≤ capacity b' ∧ versions_ok st' ∧
    Forall line_ok (request_lines (host_port_text c hst) major minor key (len b)).
Proof.
  intros [Hh Hhp Hu Hp Hf] Ho Hb [V1 V2 V3 V4]. unfold obfs_http_request. rewrite Ho, Hh. if_false.
  destruct (pick_spec (req_major st) 51 w) as (major & w1 & -> & Hma & _); [lia..|].
  destruct (pick_spec (req_minor st) 2 w1) as (minor & w2 & -> & Hmi & _); [lia..|].
  destruct (random_key_spec w2) as (key & w3 & -> & Hk & Hkz).
  assert (Hlen : 0 ≤ len b) by by destruct Hb as [_ [? _] _ _].
  assert (Hls : Forall line_ok (request_lines (host_port_text c hst) major minor key (len b))).
  { apply request_lines_ok; try lia; [apply host_port_plain; [done|lia]|done]. }
  destruct (prepend_spec b cap (http_request_template (uri c) (host_port_text c hst) major minor key (len b)))
    as (b' & -> & Hc & Hb' & Hi & Hcap & Hl').
  { done. }
  { rewrite request_template_lines. apply header_bytes; [by apply request_line0_plain|done]. }
  { by apply request_template_length. }
  pose proof (request_template_length (uri c) (host_port_text c hst) major minor key (len b) Hma Hmi Hkz Hf).
  rewrite bind_Ret. exists b', (mkhttp major minor (resp_major st) (resp_minor st)), w3, major, minor, key.
  rewrite <- request_template_lines. split_and!; try done. lia.
Qed.

(** [strftime] into [char[64]]. *)
Definition date_ok (w : world) : Prop := Forall plain (date w) ∧ zlen (date w) < 64.

Lemma obfs_http_response_spec b cap o st w :
  date_ok w → obfs_stage o = 0 → buffer_ok b → versions_ok st →
  ∃ b' st' w' l0 ls,
    obfs_http_response b cap (Some o) st w = Ret (s32 (len b'), b', Some (set_obfs_stage o 1), st', w') ∧
    content b' = header_of l0 ls ++ content b ∧ Forall plain l0 ∧ Forall line_ok ls ∧ buffer_ok b'.
Proof.
  intros [Hd Hdz] Ho Hb [V1 V2 V3 V4]. unfold obfs_http_response. rewrite Ho. if_false.
  destruct (pick_spec (resp_major st) 11 w) as (major & w1 & -> & Hma & _); [lia..|].
  destruct (pick_spec (resp_minor st) 12 w1) as (minor & w2 & -> & Hmi & _); [lia..|].
  destruct (random_key_spec w2) as (key & w3 & -> & Hk & Hkz).
  assert (Hls : Forall line_ok (response_lines major minor (date w) key)) by (apply response_lines_ok; lia || done).
  assert (H0 : Forall plain (bytes "HTTP/1.1 101 Switching Protocols")) by by apply plainb_ok.
  destruct (prepend_spec b cap (http_response_template major minor (date w) key))
    as (b' & -> & Hc & Hb' & _).
  { done. }
  { rewrite response_template_lines. by apply header_bytes. }
  { pose proof (print_d_length2 major). pose proof (print_d_length2 minor).
    unfold http_response_template. rewrite !length_app. cbn [length bytes CRLF]. lia. }
  rewrite bind_Ret. do 5 eexists. split; [done|]. rewrite response_template_lines in Hc. by split_and!.
Qed.

(** Dropping [k] leading bytes of the content in place. *)
Lemma drop_front b k :
  buffer_ok b → 0 ≤ k ≤ len b →
  ∃ d, memmove (data b) 0 k (len b - k) = Ret d ∧
    let b' := set_len (set_data b d) (len b - k) in
    content b' = drop (Z.to_nat k) (content b) ∧ buffer_ok b'.
Proof.
  intros Hb Hk. pose proof (content_length b Hb) as Hc. pose proof (data_split b) as Ed.
  set (T := drop (Z.to_nat (len b)) (data b)) in *. rewrite <- (take_drop (Z.to_nat k) (content b)) in Ed.
  set (y := take (Z.to_nat k) (content b)) in *. set (z := drop (Z.to_nat k) (content b)) in *.
  assert (zlen y = k) as Hy by (unfold y; rewrite length_take; lia).
  assert (zlen z = len b - k) as Hz by (unfold z; rewrite length_drop; lia).
  rewrite <- app_assoc in Ed. assert (M := memmove_down y z T). rewrite <- Ed, Hy, Hz in M.
  eexists. split; [exact M|]. cbn zeta. split.
  - apply (content_of _ z (drop (length z) (data b))); simpl; [done|lia].
  - apply same_object_buffer; [done|by eapply memmove_same|]. destruct Hb; lia.
Qed.

(** Content and its object hold the same bytes below [len]. *)
Lemma blank_at_content b k :
  buffer_ok b → blank_at (data b) (len b) k ↔ blank_at (content b) (len b) k.
Proof.
  intros Hb. pose proof (content_length b Hb). unfold blank_at.
  assert (0 ≤ k → k + 4 ≤ len b → take 4 (drop (Z.to_nat k) (data b)) = take 4 (drop (Z.to_nat k) (content b))) as E.
  { intros. rewrite (data_split b), drop_app_le, take_app_le; rewrite ?length_drop; try done; lia. }
  split; intros (? & ? & ?); (split_and!; [done|done|]); [by rewrite <- E|by rewrite E].
Qed.

Lemma deobfs_http_header_cases b o :
  buffer_ok b → len b < 2 ^ 31 → deobfs_stage o = 0 →
  (∃ k b', blank_at (content b) (len b) k ∧ (∀ j, blank_at (content b) (len b) j → k ≤ j) ∧
     deobfs_http_header b (Some o) = Ret (0, b', Some (set_deobfs_stage o 1)) ∧
     content b' = drop (Z.to_nat (k + 4)) (content b) ∧ buffer_ok b') ∨
  ((∀ k, ¬ blank_at (content b) (len b) k) ∧ deobfs_http_header b (Some o) = Ret (-1, b, Some o)).
Proof.
  intros Hb Hl Ho. unfold deobfs_http_header. rewrite Ho. if_false.
  assert (0 ≤ len b ≤ zlen (data b)) by (destruct Hb; lia). rewrite s32_small by lia.
  pose proof (find_blank_line_spec (data b) (len b) 0 ltac:(lia)) as F.
  destruct (find_blank_line _ _ _) as [[q r]|]; [left|right].
  - destruct F as (k & -> & -> & Hk & Hmin). assert (0 ≤ k ∧ k + 4 ≤ len b) as [] by by destruct Hk as (? & ? & _).
    destruct (drop_front b (k + 4) Hb ltac:(lia)) as (d & E & Hc & Hb').
    exists k. eexists. split_and!; [by apply blank_at_content| | |exact Hc|exact Hb'].
    + intros j Hj. apply Hmin. by apply blank_at_content.
    + replace (0 + k + 4) with (k + 4) by lia. replace (len b - k - 4) with (len b - (k + 4)) by lia.
      by rewrite E, bind_Ret.
  - split; [|done]. intros k Hk. apply (F k). by apply blank_at_content.
Qed.

(** [deobfs_http_header] on a connection that has not seen its header yet.
    It looks for the first empty line of the received bytes. When there is one, it
    returns 0, the buffer keeps exactly what follows that line, and the stage moves
    on; when there is none it returns -1 and nothing has changed. It never reads
    outside the buffer. *)
Theorem deobfs_http_header_spec b o :
  buffer_ok b → len b < 2 ^ 31 → deobfs_stage o = 0 →
  (∃ k b', blank_at (content b) (len b) k ∧ (∀ j, blank_at (content b) (len b) j → k ≤ j) ∧
     deobfs_http_header b (Some o) = Ret (0, b', Some (set_deobfs_stage o 1)) ∧
     content b' = drop (Z.to_nat (k + 4)) (content b) ∧ buffer_ok b') ∨
  ((∀ k, ¬ blank_at (content b) (len b) k) ∧ deobfs_http_header b (Some o) = Ret (-1, b, Some o)).
Proof. apply deobfs_http_header_cases. Qed.

Lemma deobfs_http_header_spec_witness :
  (∃ k b', blank_at (content (buffer_of (bytes "HTTP/1.1 101" ++ CRLF ++ CRLF ++ bytes "x"))) 17 k ∧
     deobfs_http_header (buffer_of (bytes "HTTP/1.1 101" ++ CRLF ++ CRLF ++ bytes "x")) (Some obfs_zero)
       = Ret (0, b', Some (set_deobfs_stage obfs_zero 1)) ∧ content b' = bytes "x") ∨ False.
Proof.
  destruct (deobfs_http_header_spec (buffer_of (bytes "HTTP/1.1 101" ++ CRLF ++ CRLF ++ bytes "x")) obfs_zero)
    as [(k & b' & Hk & _ & E & Hc & _)|[_ E]]; [by apply buffer_okb_ok|reflexivity|reflexivity| |].
  - left. exists k, b'. split_and!; [exact Hk|exact E|]. vm_compute in E. injection E as <-. reflexivity.
  - vm_compute in E. discriminate.
Defined.

(** A received buffer that starts with a whole header. *)
Lemma deobfs_http_header_whole b o l0 ls rest :
  buffer_ok b → len b < 2 ^ 31 → deobfs_stage o = 0 → Forall plain l0 → Forall line_ok ls →
  content b = header_of l0 ls ++ rest →
  ∃ b', deobfs_http_header b (Some o) = Ret (0, b', Some (set_deobfs_stage o 1)) ∧
        content b' = rest ∧ buffer_ok b'.
Proof.
  intros Hb Hl Ho H0 Hls Hc. unfold deobfs_http_header. rewrite Ho. if_false.
  pose proof (content_length b Hb) as Hz. rewrite Hc, length_app in Hz.
  assert (0 ≤ len b ≤ zlen (data b)) by (destruct Hb; lia). rewrite s32_small by lia.
  destruct (drop_front b (zlen (header_of l0 ls)) Hb ltac:(lia)) as (d & E & Hd & Hb').
  assert (F := find_header l0 ls (rest ++ drop (Z.to_nat (len b)) (data b)) (len b) 0 H0 Hls ltac:(lia)).
  rewrite app_assoc, <- Hc, <- data_split in F. rewrite F, !Z.add_0_l, E, bind_Ret. eexists. split; [done|]. split; [|done].
  rewrite Hd, Hc, Nat2Z.id, drop_app_length. done.
Qed.

Lemma lift_header_stage1 b cap o st w :
  deobfs_stage o ≠ 0 → lift_header b cap (Some o) st w = Ret (0, b, Some o, st, w).
Proof. intros H. unfold lift_header, deobfs_http_header. by if_true. Qed.

Lemma receive_stage1 cap o st w bs :
  deobfs_stage o ≠ 0 → receive lift_header cap (Some o) st w bs = Ret (Some (concat (map content bs))).
Proof.
  intros Ho. induction bs as [|b bs IH]; [done|]. cbn [receive].
  rewrite lift_header_stage1, bind_Ret by done. if_false. by rewrite IH.
Qed.

Lemma obfs_http_response_stage1 b cap o st w :
  obfs_stage o ≠ 0 → obfs_http_response b cap (Some o) st w = Ret (0, b, Some o, st, w).
Proof. intros H. unfold obfs_http_response. by if_true. Qed.

Lemma transmit_stage1 cap o st w bs :
  obfs_stage o ≠ 0 → transmit obfs_http_response cap (Some o) st w bs = Ret (concat (map content bs)).
Proof.
  intros Ho. induction bs as [|b bs IH]; [done|]. cbn [transmit].
  rewrite obfs_http_response_stage1, bind_Ret, IH by done. done.
Qed.

(** The empty line that ends a header is the first one. *)
Lemma header_first l0 ls rest k :
  Forall plain l0 → Forall line_ok ls →
  blank_at (header_of l0 ls ++ rest) (zlen (header_of l0 ls ++ rest)) k → zlen (header_of l0 ls) ≤ k + 4.
Proof.
  intros H0 Hls Hk.
  pose proof (find_blank_line_spec (header_of l0 ls ++ rest) (zlen (header_of l0 ls ++ rest)) 0 ltac:(lia)) as F.
  rewrite find_header in F by (rewrite ?length_app; done || lia).
  destruct F as (k' & Hq & _ & _ & Hmin). specialize (Hmin k Hk). lia.
Qed.

Lemma blank_at_app a b k : blank_at a (zlen a) k → blank_at (a ++ b) (zlen (a ++ b)) k.
Proof.
  unfold blank_at. intros (H1 & H2 & H3). rewrite length_app. split_and!; [done|lia|].
  rewrite drop_app_le, take_app_le; rewrite ?length_drop; try done; lia.
Qed.

(** If the first buffer holds an empty line, it holds the whole header. *)
Lemma whole_header x y l0 ls rest :
  Forall plain l0 → Forall line_ok ls → x ++ y = header_of l0 ls ++ rest → (∃ k, blank_at x (zlen x) k) →
  ∃ r, x = header_of l0 ls ++ r ∧ rest = r ++ y.
Proof.
  intros H0 Hls E (k & Hk). apply app_eq_inv in E as [(r & -> & ->)|(r & Hr & ->)]; [by exists r|].
  assert (zlen (header_of l0 ls) ≤ k + 4) as Hle.
  { apply (header_first l0 ls [] k H0 Hls). rewrite Hr, app_nil_r. by apply blank_at_app. }
  destruct Hk as (_ & Hk & _). rewrite Hr, length_app in Hle.
  destruct r; [|simpl in Hle; lia]. exists []. rewrite !app_nil_r in *. by subst.
Qed.

(** Responses through the HTTP disguise. When buffers are sent with
    [obfs_http_response] and the wire bytes arrive cut into buffers in any way that
    leaves the whole header in the first one, the receiver with [deobfs_http_header]
    delivers exactly the concatenated payloads, without error. *)
Theorem http_response_stream_roundtrip cap o st w b bs wire rb rbs co st' w' :
  date_ok w → obfs_stage o = 0 → versions_ok st → buffer_ok b →
  transmit obfs_http_response cap (Some o) st w (b :: bs) = Ret wire →
  deobfs_stage co = 0 → buffer_ok rb → len rb < 2 ^ 31 →
  concat (map content (rb :: rbs)) = wire → (∃ k, blank_at (content rb) (len rb) k) →
  receive lift_header cap (Some co) st' w' (rb :: rbs) = Ret (Some (concat (map content (b :: bs)))).
Proof.
  intros Hd Ho Hv Hb Ht Hco Hrb Hrl Hw (k & Hk). cbn [transmit] in Ht.
  destruct (obfs_http_response_spec b cap o st w Hd Ho Hb Hv) as (b' & st1 & w1 & l0 & ls & E & Hc & H0 & Hls & Hb').
  rewrite E, bind_Ret, transmit_stage1, bind_Ret in Ht by done. apply Ret_inj in Ht. subst wire.
  cbn [map concat] in Hw. rewrite Hc, <- app_assoc in Hw.
  rewrite <- (content_length rb Hrb) in Hk.
  destruct (whole_header _ _ _ _ _ H0 Hls Hw (ex_intro _ k Hk)) as (r & Hr & Hrest).
  destruct (deobfs_http_header_whole rb co l0 ls r Hrb Hrl Hco H0 Hls Hr) as (rb' & E' & Hc' & _).
  assert (lift_header rb cap (Some co) st' w' = Ret (0, rb', Some (set_deobfs_stage co 1), st', w')) as L.
  { unfold lift_header. by rewrite E'. }
  cbn [receive]. rewrite L, bind_Ret. if_false. rewrite receive_stage1, bind_Ret by done. cbn [option_map map concat]. by rewrite Hc', Hrest.
Qed.

Definition http_demo_world : world := mkworld (λ n, Z.of_nat n * 7919) 0 0 (bytes "Thu, 01 Jan 1970 00:00:00 GMT").
Definition http_demo_wire : list Z :=
  match transmit obfs_http_response 2048 (Some obfs_zero) http_statics_init http_demo_world
          [buffer_of (bytes "ab"); buffer_of (bytes "cd")] with Ret l => l | _ => [] end.

Lemma http_response_stream_roundtrip_witness :
  receive lift_header 2048 (Some obfs_zero) http_statics_init http_demo_world
    [buffer_of (take 186 http_demo_wire); buffer_of (drop 186 http_demo_wire)] = Ret (Some (bytes "abcd")).
Proof.
  apply (http_response_stream_roundtrip 2048 obfs_zero http_statics_init http_demo_world
    (buffer_of (bytes "ab")) [buffer_of (bytes "cd")] http_demo_wire).
  - split; [by apply plainb_ok|reflexivity].
  - reflexivity.
  - by split.
  - by apply buffer_okb_ok.
  - vm_compute. reflexivity.
  - reflexivity.
  - by apply buffer_okb_ok.
  - vm_compute. reflexivity.
  - vm_compute. reflexivity.
  - exists 180. split_and!; [lia|vm_compute; discriminate|vm_compute; reflexivity].
Defined.

(** ** The header checker *)
(** [next_header] moves from line to line. *)
Lemma skip_line_plain s m n :
  Forall plain s → zlen s + 3 ≤ n → skip_line (s ++ CR :: LF :: m) n = Ret (CR :: LF :: m, n - zlen s).
Proof.
  intros Hs. revert n. induction Hs as [|x s (_ & Hx & _) Hs IH]; intros n Hn; simpl length in *.
  - simpl. if_true. do 2 f_equal. lia.
  - cbn [app skip_line]. if_true. if_false.
    destruct (s ++ CR :: LF :: m) as [|y t] eqn:E; [by destruct s|].
    assert (y ≠ LF). { destruct Hs as [|z s' (_ & _ & Hz) _]; simpl in E; by injection E as <- _. }
    if_false. rewrite IH by lia. do 2 f_equal. lia.
Qed.

Lemma header_scan_plain s m n h :
  Forall plain s → h + zlen s + 2 ≤ n → header_scan (s ++ CR :: LF :: m) n h = Ret (h + zlen s).
Proof.
  intros Hs. revert h. induction Hs as [|x s (_ & Hx & _) Hs IH]; intros h Hn; simpl length in *.
  - simpl. if_true. f_equal. lia.
  - cbn [app header_scan]. if_true. if_false.
    destruct (s ++ CR :: LF :: m) as [|y t] eqn:E; [by destruct s|].
    assert (y ≠ LF). { destruct Hs as [|z s' (_ & _ & Hz) _]; simpl in E; by injection E as <- _. }
    if_false. rewrite IH by lia. f_equal. lia.
Qed.

Lemma next_header_line s l m n :
  Forall plain s → Forall plain l → zlen s + zlen l + 4 ≤ n →
  next_header (s ++ CRLF ++ l ++ CRLF ++ m) n = Ret (zlen l, l ++ CRLF ++ m, n - zlen s - 2).
Proof.
  intros Hs Hl Hn. unfold next_header. cbn [CRLF app].
  rewrite skip_line_plain by (done || lia). rewrite bind_Ret. cbv zeta. change (drop 2 (CR :: LF :: ?k)) with k.
  rewrite header_scan_plain by (done || lia). by rewrite bind_Ret.
Qed.

(** One round of [get_header]. *)
Lemma get_header_step fuel h s l m n :
  Forall plain s → line_ok l → zlen s + zlen l + 4 ≤ n →
  get_header_loop (S fuel) h (s ++ CRLF ++ l ++ CRLF ++ m) n =
  if (zlen h <? zlen l) && strncasecmp_eq h (take (length h) l) (zlen h)
  then let k := skip_blanks (drop (length h) (l ++ CRLF ++ m)) (zlen h) (zlen l) in
       Ret (zlen l - k, c_str (take (Z.to_nat (zlen l - k)) (drop (Z.to_nat k) (l ++ CRLF ++ m))))
  else get_header_loop fuel h (l ++ CRLF ++ m) (n - zlen s - 2).
Proof.
  intros Hs [Hl0 Hl] Hn. cbn [get_header_loop]. rewrite next_header_line, bind_Ret by done.
  assert (0 < zlen l) by (destruct l; [done|simpl; lia]). if_false.
  destruct (zlen h <? zlen l) eqn:E; [|done]. bool_hyps. rewrite take_app_le by lia. done.
Qed.

(** A header line found: name, one blank, value. *)
Lemma get_header_found fuel h s v m n :
  Forall plain s → Forall plain h → Forall plain v →
  match v with [] => False | c :: _ => isblank c = false end →
  zlen s + zlen h + zlen v + 5 ≤ n →
  get_header_loop (S fuel) h (s ++ CRLF ++ (h ++ 32 :: v) ++ CRLF ++ m) n = Ret (zlen v, v).
Proof.
  intros Hs Hh Hv Hb Hn. rewrite get_header_step; [|done| |rewrite length_app; simpl length; lia].
  2: { split; [by destruct h|]. apply Forall_app. split; [done|].
       constructor; [by repeat split|done]. }
  rewrite length_app, take_app_length, <- app_assoc, drop_app_length. simpl length.
  rewrite (proj2 (Z.ltb_lt _ _)) by lia. unfold strncasecmp_eq. rewrite strn_eq_refl. cbn [andb].
  destruct v as [|c v]; [done|]. cbn [app skip_blanks]. simpl length. if_true. cbn [isblank Z.eqb Pos.eqb orb].
  if_true. rewrite Hb. replace (_ - (zlen h + 1)) with (zlen (c :: v)) by (simpl length; lia).
  replace (Z.to_nat (zlen h + 1)) with (length h + 1)%nat by lia. rewrite drop_app_add.
  change (drop 1 (32 :: ?k)) with k. change (c :: v ++ ?k) with ((c :: v) ++ k).
  rewrite Nat2Z.id, take_app_length. do 2 f_equal.
  assert (∀ l, Forall plain l → c_str l = l) as Hid.
  { induction 1 as [|x l Hx _ IH]; [done|]. simpl. unfold plain in Hx. if_false. by rewrite IH. }
  by apply Hid.
Qed.

(** Host names as a user writes them: visible characters, no colon. *)
Definition host_char (c : Z) : Prop := 33 ≤ c ≤ 126 ∧ c ≠ 58.
Record host_ok (hst : list Z) : Prop := {
  host_nonempty : hst ≠ []; host_chars : Forall host_char hst; host_short : zlen hst ≤ 249 }.

Lemma host_chars_plain hst : Forall host_char hst → Forall plain hst.
Proof. intros H. eapply Forall_impl; [|exact H]. unfold host_char, plain, CR, LF. intros. lia. Qed.

Lemma plain_c_str l t : Forall plain l → c_str (l ++ 0 :: t) = l.
Proof. intros H. apply c_str_app. eapply Forall_impl; [|exact H]. unfold plain. intros. lia. Qed.

(** The host field: the name, and the port when it is not 80. *)
Lemma host_port_text_eq c hst :
  host_ok hst → 0 ≤ port c < 65536 →
  ∃ p, host_port_text c hst = hst ++ p ∧ (p = [] ∨ ∃ q, p = 58 :: q ∧ Forall (λ c, 48 ≤ c ≤ 57) q).
Proof.
  intros [Hne Hh Hs] Hp. unfold host_port_text. set (t := if negb (port c =? 80) then hst ++ bytes ":" ++ print_d (port c) else hst).
  assert (∃ p, t = hst ++ p ∧ zlen p ≤ 6 ∧ Forall plain p ∧
    (p = [] ∨ ∃ q, p = 58 :: q ∧ Forall (λ c, 48 ≤ c ≤ 57) q)) as (p & -> & Hz & Hpl & Hq).
  { unfold t. destruct (negb (port c =? 80)); [|exists []; rewrite app_nil_r; split_and!; [done|simpl; lia|constructor|by left]].
    exists (58 :: print_d (port c)). unfold print_d. if_false. split_and!; [done| | |].
    - simpl length. pose proof (digits_length 4 20 (port c) ltac:(simpl; lia)). unfold print_u. lia.
    - constructor; [by repeat split|]. apply print_u_plain. lia.
    - right. eexists. split; [done|]. apply print_u_digits. lia. }
  exists p. split; [|done].
  destruct (snprintf_fits 256 (hst ++ p)) as (r & ->); [rewrite length_app; lia|].
  apply plain_c_str, Forall_app. split; [by apply host_chars_plain|done].
Qed.

Lemma trim_port_skip a b : Forall (λ c, c ≠ 58) a → trim_port (a ++ b) = trim_port b.
Proof. induction 1 as [|c a Hc _ IH]; [done|]. simpl. by if_false. Qed.

(** The port is cut off again. *)
Lemma trim_host_port hst p :
  Forall host_char hst → (p = [] ∨ ∃ q, p = 58 :: q ∧ Forall (λ c, 48 ≤ c ≤ 57) q) →
  match trim_port (rev (hst ++ p)) with Some r => rev r | None => hst ++ p end = hst.
Proof.
  intros Hh [-> |(q & -> & Hq)].
  - rewrite app_nil_r, <- (app_nil_r (rev hst)), trim_port_skip; [done|].
    apply Forall_rev. eapply Forall_impl; [|exact Hh]. by intros c [_ ?].
  - rewrite rev_app_distr. simpl rev. rewrite <- app_assoc, trim_port_skip.
    + simpl. apply rev_involutive.
    + apply Forall_rev. eapply Forall_impl; [|exact Hq]. simpl. lia.
Qed.

(** The request header as the checker reads it, up to its third line. *)
Section Checked.
Context (l0 hp l2 m : list Z) (n : Z).
Context (Hl0 : Forall plain l0) (Hhp : Forall plain hp) (Hl2 : Forall plain l2).
Let X : list Z :=
  l0 ++ CRLF ++ (bytes "Host: " ++ hp) ++ CRLF ++ l2 ++ CRLF ++ bytes "Upgrade: websocket" ++ CRLF ++ m.
Context (Hn : zlen l0 + zlen hp + zlen l2 + 32 ≤ n).

Lemma checked_host :
  match hp with [] => False | c :: _ => isblank c = false end →
  get_header (bytes "Host:") X n = Ret (zlen hp, hp).
Proof using Hl0 Hhp Hn.
  intros Hb. unfold get_header, X. change (bytes "Host: " ++ hp) with (bytes "Host:" ++ 32 :: hp).
  apply get_header_found; [done|by apply plainb_ok|done|done|simpl length; lia].
Qed.

Lemma checked_upgrade k :
  l2 = bytes "User-Agent" ++ k →
  get_header (bytes "Upgrade:") X n = Ret (9, bytes "websocket").
Proof using Hl0 Hhp Hl2 Hn.
  intros Hk. unfold get_header, X. destruct (Z.to_nat n) as [|[|f]] eqn:E; [lia..|].
  assert (line_ok (bytes "Host: " ++ hp)).
  { split; [done|]. apply Forall_app. split; [by apply plainb_ok|done]. }
  rewrite get_header_step by (done || rewrite ?length_app; simpl length; lia).
  replace (strncasecmp_eq _ _ _) with false by done. rewrite andb_false_r.
  rewrite get_header_step; [|by destruct H|by split; [by rewrite Hk|]|].
  2: { rewrite length_app. simpl length. lia. }
  replace (strncasecmp_eq _ _ _) with false by by rewrite Hk. rewrite andb_false_r.
  change (bytes "Upgrade: websocket") with (bytes "Upgrade:" ++ 32 :: bytes "websocket").
  apply get_header_found; [done|by apply plainb_ok|by apply plainb_ok|done|simpl length; lia].
Qed.
End Checked.

Lemma check_header_lines c b hst p major minor key n rest :
  host c = Some hst → host_ok hst → Forall plain (uri c) → Forall plain (hst ++ p) →
  (p = [] ∨ ∃ q, p = 58 :: q ∧ Forall (λ c, 48 ≤ c ≤ 57) q) →
  Forall line_ok (request_lines (hst ++ p) major minor key n) →
  content b = header_of (request_line0 (uri c)) (request_lines (hst ++ p) major minor key n) ++ rest →
  buffer_ok b → len b < 2 ^ 31 →
  check_http_header c b = Ret OBFS_OK.
Proof.
  intros Hc [Hne Hh Hhs] Hu Hp Hpp Hls Hcont Hb Hl.
  pose proof (content_length b Hb) as Hz. pose proof (data_split b) as Ed.
  set (T := drop (Z.to_nat (len b)) (data b)) in *. clearbody T.
  unfold check_http_header. rewrite s32_small by (destruct Hb; lia).
  rewrite Hcont in Ed, Hz. unfold header_of in Ed, Hz. cbn [map concat request_lines] in Ed, Hz.
  set (l2 := bytes "User-Agent: curl/7." ++ _) in *.
  apply Forall_inv_tail, Forall_inv in Hls as [_ Hl2]. change (Forall plain l2) in Hl2.
  rewrite <- ?app_assoc in Ed. rewrite !length_app in Hz. change (length CRLF) with 2%nat in Hz.
  assert (Hl0 := request_line0_plain _ Hu). rewrite Hc.
  change (length (bytes "Upgrade: websocket")) with 18%nat in Hz.
  change (length (bytes "Host: ")) with 6%nat in Hz. if_false.
  assert (strncasecmp_eq (c_str (take 3 (data b))) (bytes "GET") 3 = true) as -> by by rewrite Ed.
  cbn [negb].
  assert (∃ m, data b = request_line0 (uri c) ++ CRLF ++ (bytes "Host: " ++ hst ++ p) ++ CRLF ++ l2 ++ CRLF
    ++ bytes "Upgrade: websocket" ++ CRLF ++ m) as (m & Em).
  { eexists. rewrite Ed. unfold l2. rewrite <- ?app_assoc. reflexivity. }
  rewrite Em. rewrite (checked_upgrade _ _ _ _ _ Hl0 Hp Hl2) with (k := drop 10 l2);
    [|rewrite length_app; lia|done].
  rewrite bind_Ret. cbv match. if_false. simpl (negb _). cbv match.
  rewrite (checked_host _ _ _ _ _ Hl0 Hp); [|rewrite length_app; lia|].
  2: { destruct Hh as [|x h [Hx _] _]; [done|]. simpl. unfold isblank. solve_bool. }
  rewrite bind_Ret. if_false. rewrite trim_host_port by done.
  unfold strncasecmp_eq. by rewrite strn_eq_refl.
Qed.

(** A request built by [obfs_http_request] is recognised and undone. For any
    configuration with a plain host name and a header that fits, the request
    does not fault, and a server that receives it (with any bytes after it) in one
    buffer finds it valid with [check_http_header] and gets the original payload and
    what followed from [deobfs_http_header]. *)
Theorem http_request_roundtrip c hst b cap o st w :
  conf_ok c hst → host_ok hst → obfs_stage o = 0 → buffer_ok b → versions_ok st →
  ∃ b' st' w',
    obfs_http_request c b cap (Some o) st w = Ret (s32 (len b'), b', Some (set_obfs_stage o 1), st', w') ∧
    ∀ rb rest so, buffer_ok rb → len rb < 2 ^ 31 → content rb = content b' ++ rest → deobfs_stage so = 0 →
      check_http_header c rb = Ret OBFS_OK ∧
      ∃ rb', deobfs_http_header rb (Some so) = Ret (0, rb', Some (set_deobfs_stage so 1)) ∧
             content rb' = content b ++ rest.
Proof.
  intros Hc Hh Ho Hb Hv.
  destruct (obfs_http_request_spec c hst b cap o st w Hc Ho Hb Hv)
    as (b' & st' & w' & major & minor & key & E & Hcont & _ & _ & _ & _ & Hls).
  exists b', st', w'. split; [exact E|]. intros rb rest so Hrb Hrl Hr Hso.
  rewrite Hcont, <- app_assoc in Hr. destruct Hc as [Hch Hcp Hu Hp Hf]. split.
  - destruct (host_port_text_eq c hst Hh Hp) as (p & Ep & Hpp).
    pose proof (host_port_plain c hst Hcp ltac:(lia)) as Hpl. rewrite Ep in *.
    by eapply check_header_lines.
  - destruct (deobfs_http_header_whole rb so _ _ _ Hrb Hrl Hso (request_line0_plain _ Hu) Hls Hr)
      as (rb' & E' & Hc' & _). by exists rb'.
Qed.

Definition http_demo_conf : obfs_conf := mkconf (Some (bytes "example.com")) (bytes "/") 8080.
Definition http_demo_request : buffer :=
  match obfs_http_request http_demo_conf (buffer_of (bytes "ab")) 2048 (Some obfs_zero) http_statics_init http_demo_world
  with Ret (_, b, _, _, _) => b | _ => balloc 0 end.

Lemma http_request_roundtrip_witness :
  check_http_header http_demo_conf http_demo_request = Ret OBFS_OK ∧
  ∃ rb', deobfs_http_header http_demo_request (Some obfs_zero)
           = Ret (0, rb', Some (set_deobfs_stage obfs_zero 1)) ∧ content rb' = bytes "ab".
Proof.
  destruct (http_request_roundtrip http_demo_conf (bytes "example.com") (buffer_of (bytes "ab")) 2048
    obfs_zero http_statics_init http_demo_world) as (b' & st' & w' & E & H).
  - split; [reflexivity|by apply plainb_ok|by apply plainb_ok|by vm_compute|by vm_compute].
  - split; [done| |vm_compute; discriminate].
    repeat (constructor; [vm_compute; intuition discriminate|]). constructor.
  - reflexivity.
  - by apply buffer_okb_ok.
  - by split.
  - assert (http_demo_request = b') as Eb by (unfold http_demo_request; by rewrite E).
    rewrite <- Eb in H. apply (H http_demo_request [] obfs_zero).
    + apply buffer_okb_ok. vm_compute. reflexivity.
    + vm_compute. reflexivity.
    + by rewrite app_nil_r.
    + reflexivity.
Defined.

(** The request header is built in a 512-byte array, but the length copied is
    the untruncated one returned by [snprintf]. A URI longer than 512 bytes therefore
    makes [obfs_http_request] read past the array, whatever the buffer. *)
Theorem http_request_overflow c hst b cap o st w :
  host c = Some hst → 512 < zlen (uri c) → obfs_stage o = 0 → buffer_ok b →
  obfs_http_request c b cap (Some o) st w = Fault.
Proof.
  intros Hh Hu Ho Hb. unfold obfs_http_request. rewrite Ho, Hh. if_false.
  destruct (pick _ _ _) as [major w1]. destruct (pick _ _ _) as [minor w2].
  destruct (random_key w2) as [key w3].
  rewrite prepend_fault; [done|done|].
  unfold http_request_template. rewrite !length_app. lia.
Qed.

Lemma http_request_overflow_witness :
  obfs_http_request (mkconf (Some (bytes "h")) (replicate 513 97) 80) (balloc 2048) 2048
    (Some obfs_zero) http_statics_init http_demo_world = Fault.
Proof.
  apply (http_request_overflow _ (bytes "h")); [reflexivity|reflexivity|reflexivity|by apply buffer_okb_ok].
Defined.
