(* ===== verification/Local.v ===== *)
(** * local.c: the relay of obfs-local

    One accepted client connection: a [server] (the client side), its [remote]
    (the connection to the obfuscation server) once created, and the callbacks
    libev runs on them. [srv]/[rem] become [None] when [close_and_free_server] /
    [close_and_free_remote] free the objects; a callback on a freed server is a
    [Fault]. The results of system calls are arguments of the callbacks, and the
    four byte logs record what the kernel delivered ([got_*]) and accepted
    ([sent_*]); they are not program state. Watchers are the flags [*_io] and
    [*_timer]: libev calls a callback only while its watcher is active. *)
From S2P Require Import Prelude Encrypt Obfs.

Definition BUF_SIZE : Z := 2048.
Definition STAGE_INIT : Z := 0.
Definition STAGE_STREAM : Z := 5.
Definition MAX_CONNECT_TIMEOUT : Z := 10.

(** A socket address: its family and, for [AF_INET], the four address bytes. *)
Record addr := mkaddr { af_inet : bool; sin_addr : list Z }.

Record remote := mkremote {
  rbuf : buffer;
  direct : bool;
  send_connected : bool; recv_connected : bool;      (* send_ctx / recv_ctx ->connected *)
  rrecv_io : bool; rsend_io : bool;
  rsend_timer : bool; rrecv_timer : bool;
  send_after : Z; recv_after : Z;                    (* ev_timer_init durations *)
  raddr : addr }.

Record server := mkserver {
  sbuf : buffer;
  stage : Z;
  sobfs : option obfs_t;
  srecv_io : bool; ssend_io : bool }.

Record conn := mkconn {
  srv : option server;
  rem : option remote;
  got_client : list Z; sent_remote : list Z;
  got_remote : list Z; sent_client : list Z }.

(** Results of the system calls. *)
Inductive recv_res := RecvData (l : list Z) | RecvEof | RecvAgain | RecvError.
Inductive send_res := SendN (n : Z) | SendAgain | SendError.
Inductive connect_res := ConnOk | ConnInProgress | ConnError.
Inductive fastopen_res := FastN (n : Z) | FastInProgress | FastNotConn | FastError.

(** ** Field updates *)
Definition set_rbuf (r : remote) (b : buffer) : remote :=
  mkremote b (direct r) (send_connected r) (recv_connected r) (rrecv_io r) (rsend_io r)
    (rsend_timer r) (rrecv_timer r) (send_after r) (recv_after r) (raddr r).
Definition set_rrecv_io (r : remote) (x : bool) : remote :=
  mkremote (rbuf r) (direct r) (send_connected r) (recv_connected r) x (rsend_io r)
    (rsend_timer r) (rrecv_timer r) (send_after r) (recv_after r) (raddr r).
Definition set_rsend_io (r : remote) (x : bool) : remote :=
  mkremote (rbuf r) (direct r) (send_connected r) (recv_connected r) (rrecv_io r) x
    (rsend_timer r) (rrecv_timer r) (send_after r) (recv_after r) (raddr r).
Definition set_rsend_timer (r : remote) (x : bool) : remote :=
  mkremote (rbuf r) (direct r) (send_connected r) (recv_connected r) (rrecv_io r) (rsend_io r)
    x (rrecv_timer r) (send_after r) (recv_after r) (raddr r).
Definition set_rrecv_timer (r : remote) (x : bool) : remote :=
  mkremote (rbuf r) (direct r) (send_connected r) (recv_connected r) (rrecv_io r) (rsend_io r)
    (rsend_timer r) x (send_after r) (recv_after r) (raddr r).
Definition set_send_connected (r : remote) (x : bool) : remote :=
  mkremote (rbuf r) (direct r) x (recv_connected r) (rrecv_io r) (rsend_io r)
    (rsend_timer r) (rrecv_timer r) (send_after r) (recv_after r) (raddr r).
Definition set_recv_connected (r : remote) (x : bool) : remote :=
  mkremote (rbuf r) (direct r) (send_connected r) x (rrecv_io r) (rsend_io r)
    (rsend_timer r) (rrecv_timer r) (send_after r) (recv_after r) (raddr r).
Definition set_sbuf (s : server) (b : buffer) : server :=
  mkserver b (stage s) (sobfs s) (srecv_io s) (ssend_io s).
Definition set_stage (s : server) (n : Z) : server :=
  mkserver (sbuf s) n (sobfs s) (srecv_io s) (ssend_io s).
Definition set_sobfs (s : server) (o : option obfs_t) : server :=
  mkserver (sbuf s) (stage s) o (srecv_io s) (ssend_io s).
Definition set_srecv_io (s : server) (x : bool) : server :=
  mkserver (sbuf s) (stage s) (sobfs s) x (ssend_io s).
Definition set_ssend_io (s : server) (x : bool) : server :=
  mkserver (sbuf s) (stage s) (sobfs s) (srecv_io s) x.

Definition upd (c : conn) (s : server) (r : remote) : conn :=
  mkconn (Some s) (Some r) (got_client c) (sent_remote c) (got_remote c) (sent_client c).
Definition log_got_client (c : conn) (l : list Z) : conn :=
  mkconn (srv c) (rem c) (got_client c ++ l) (sent_remote c) (got_remote c) (sent_client c).
Definition log_sent_remote (c : conn) (l : list Z) : conn :=
  mkconn (srv c) (rem c) (got_client c) (sent_remote c ++ l) (got_remote c) (sent_client c).
Definition log_got_remote (c : conn) (l : list Z) : conn :=
  mkconn (srv c) (rem c) (got_client c) (sent_remote c) (got_remote c ++ l) (sent_client c).
Definition log_sent_client (c : conn) (l : list Z) : conn :=
  mkconn (srv c) (rem c) (got_client c) (sent_remote c) (got_remote c) (sent_client c ++ l).

(** ** Allocation and release *)
Definition new_remote (timeout : Z) (a : addr) : remote :=
  mkremote (balloc BUF_SIZE) false false false false false false false
    (Z.min MAX_CONNECT_TIMEOUT timeout) timeout a.

(** [close_and_free_remote] stops its watchers with the object; [free_remote]
    clears [server->remote]. Both do nothing on [NULL]. *)
Definition close_and_free_remote (c : conn) : conn :=
  mkconn (srv c) None (got_client c) (sent_remote c) (got_remote c) (sent_client c).
Definition close_and_free_server (c : conn) : conn :=
  mkconn None (rem c) (got_client c) (sent_remote c) (got_remote c) (sent_client c).
Definition close_both (c : conn) : conn := close_and_free_server (close_and_free_remote c).

Definition free_connections (connections : list conn) : list conn :=
  map (λ c, close_and_free_remote (close_and_free_server c)) connections.

Section Relay.
Context {S : Type} (para : option (obfs_para S)) (vpn : bool).

Record listen_ctx := mklisten { remote_addr : list addr; timeout : Z }.
Context (listener : listen_ctx).

(** Global variables. *)
Record glob := mkglob { statics : S; gworld : world; tx : Z; rx : Z; fast_open : bool }.
Definition set_obfs_glob (g : glob) (st : S) (w : world) : glob := mkglob st w (tx g) (rx g) (fast_open g).
Definition add_tx (g : glob) (n : Z) : glob := mkglob (statics g) (gworld g) (u64 (tx g + n)) (rx g) (fast_open g).
Definition add_rx (g : glob) (n : Z) : glob := mkglob (statics g) (gworld g) (tx g) (u64 (rx g + n)) (fast_open g).
Definition set_fast_open (g : glob) (x : bool) : glob := mkglob (statics g) (gworld g) (tx g) (rx g) x.

Definition new_obfs : option obfs_t := match para with None => None | Some _ => Some obfs_zero end.
Definition new_server : server := mkserver (balloc BUF_SIZE) STAGE_INIT new_obfs false false.

(** [accept] succeeded: a new connection waiting for the client. *)
Definition accept_cb (accepted : bool) (connections : list conn) : list conn :=
  if accepted then connections ++ [mkconn (Some (set_srecv_io new_server true)) None [] [] [] []]
  else connections.

Definition create_remote (socket_ok : bool) (g : glob) : outcome (option remote * glob) :=
  let '(v, w) := rand (gworld g) in
  let g := set_obfs_glob g (statics g) w in
  let remote_num := zlen (remote_addr listener) in
  if remote_num =? 0 then Fault                        (* rand() % 0 *)
  else match remote_addr listener !! Z.to_nat (v mod remote_num) with
       | None => Fault
       | Some a => Ret (if socket_ok then Some (new_remote (timeout listener) a) else None, g)
       end.

(** [if (obfs_para) obfs_para->obfs_request(remote->buf, BUF_SIZE, server->obfs)] *)
Definition obfuscate (b : buffer) (o : option obfs_t) (st : S) (w : world)
  : outcome (buffer * option obfs_t * S * world) :=
  match para with
  | None => Ret (b, o, st, w)
  | Some P => '(_, b, o, st, w) ← obfs_request P b BUF_SIZE o st w; Ret (b, o, st, w)
  end.

(** [if (obfs_para) if (obfs_para->deobfs_response(..)) ..] *)
Definition deobfuscate (b : buffer) (o : option obfs_t) (st : S) (w : world)
  : outcome (Z * buffer * option obfs_t * S * world) :=
  match para with
  | None => Ret (0, b, o, st, w)
  | Some P => deobfs_response P b BUF_SIZE o st w
  end.

(** What one run of [server_recv_cb] gets from the system. *)
Record recv_env := mkrecv {
  e_recv : recv_res; e_socket : bool; e_protect : bool;
  e_connect : connect_res; e_fastopen : fastopen_res; e_send : send_res }.

Definition not_protect (a : addr) : bool := af_inet a && bool_decide (sin_addr a = [127; 0; 0; 1]).

(** Wait for the remote to become writable. *)
Definition wait_remote (c : conn) (s : server) (r : remote) : conn :=
  upd c (set_srecv_io s false) (set_rsend_io r true).

(** The STAGE_STREAM branch, with [s] and [r] not freed. *)
Definition stream_connect (e : recv_env) (c : conn) (g : glob) (s : server) (r : remote)
  : outcome (conn * glob) :=
  if vpn && negb (not_protect (raddr r)) && negb (e_protect e) then Ret (close_both c, g)
  else
    let r := set_rbuf r (set_idx (rbuf r) 0) in
    if negb (fast_open g) then
      match e_connect e with
      | ConnError => Ret (close_both c, g)
      | _ => Ret (wait_remote c s (set_rsend_timer r true), g)
      end
    else
      out ← mread (data (rbuf r)) 0 (len (rbuf r));
      match e_fastopen e with
      | FastInProgress => Ret (wait_remote c s (set_rbuf r (set_idx (rbuf r) 0)), g)
      | FastNotConn => Ret (close_both c, set_fast_open g false)
      | FastError => Ret (close_both c, g)
      | FastN n =>
          let c := log_sent_remote c (take (Z.to_nat n) out) in
          if n <? s32 (len (rbuf r)) then
            let r := set_rbuf r (set_idx (set_len (rbuf r) (len (rbuf r) - n)) n) in
            Ret (wait_remote c s (set_rsend_timer r true), g)
          else
            let r := set_rbuf r (set_len (set_idx (rbuf r) 0) 0) in
            let r := set_rsend_timer (set_send_connected r true) false in
            Ret (upd c s (set_rrecv_io (set_rrecv_timer r true) true), g)
      end.

Definition stream_send (e : recv_env) (c : conn) (g : glob) (s : server) (r : remote)
  : outcome (conn * glob) :=
  out ← mread (data (rbuf r)) 0 (len (rbuf r));
  match e_send e with
  | SendAgain => Ret (wait_remote c s (set_rbuf r (set_idx (rbuf r) 0)), g)
  | SendError => Ret (close_both c, g)
  | SendN n =>
      let c := log_sent_remote c (take (Z.to_nat n) out) in
      if n <? s32 (len (rbuf r)) then
        Ret (wait_remote c s (set_rbuf r (set_idx (set_len (rbuf r) (len (rbuf r) - n)) n)), g)
      else Ret (upd c s (set_rbuf r (set_len (set_idx (rbuf r) 0) 0)), g)
  end.

Definition stream_branch (e : recv_env) (c : conn) (g : glob) (s : server) (r : remote)
  : outcome (conn * glob) :=
  let g := add_tx g (len (rbuf r)) in
  '(b, o, st, w) ← obfuscate (rbuf r) (sobfs s) (statics g) (gworld g);
  let g := set_obfs_glob g st w in
  let s := set_sobfs s o in
  let r := set_rbuf r b in
  let c := upd c s r in
  if negb (send_connected r) then stream_connect e c g s r else stream_send e c g s r.

(** The STAGE_INIT branch, [buf] being the buffer just filled: the loop then runs
    the STAGE_STREAM branch once. *)
Definition init_branch (e : recv_env) (c : conn) (g : glob) (s : server) (buf : buffer)
  : outcome (conn * glob) :=
  let s := set_stage s STAGE_STREAM in
  '(r, g) ← create_remote (e_socket e) g;
  match r with
  | None => Ret (close_and_free_server c, g)
  | Some r =>
      b ← (if 0 <? len buf then
             p ← mread (data buf) 0 (len buf);
             d ← mwrite (data (rbuf r)) 0 p;
             Ret (set_len (set_data (rbuf r) d) (len buf))
           else Ret (rbuf r));
      let r := set_rbuf r b in
      stream_branch e (upd c s r) g s r
  end.

(** [recv] into [buf]: at most [BUF_SIZE - buf->len] bytes at its end. *)
Definition recv_size (b : buffer) : Z := u64 (BUF_SIZE - len b).
Definition recv_into (b : buffer) (l : list Z) : outcome buffer :=
  d ← mwrite (data b) (len b) l; Ret (set_len (set_data b d) (len b + zlen l)).

Definition server_recv_cb (e : recv_env) (c : conn) (g : glob) : outcome (conn * glob) :=
  match srv c with
  | None => Fault
  | Some s =>
      match e_recv e with
      | RecvEof | RecvError => Ret (close_both c, g)
      | RecvAgain => Ret (c, g)
      | RecvData l =>
          match rem c with
          | None =>
              b ← recv_into (sbuf s) l;
              let s := set_sbuf s b in
              let c := log_got_client (mkconn (Some s) None (got_client c) (sent_remote c) (got_remote c) (sent_client c)) l in
              if stage s =? STAGE_STREAM then Ret (close_and_free_server c, g)   (* invalid remote *)
              else if stage s =? STAGE_INIT then init_branch e c g s b
              else Fault                                                         (* while (1) never ends *)
          | Some r =>
              b ← recv_into (rbuf r) l;
              let r := set_rbuf r b in
              let c := log_got_client (upd c s r) l in
              if stage s =? STAGE_STREAM then stream_branch e c g s r
              else if stage s =? STAGE_INIT then init_branch e c g s b
              else Fault
          end
      end
  end.

Definition server_send_cb (sr : send_res) (c : conn) (g : glob) : outcome (conn * glob) :=
  match srv c with
  | None => Fault
  | Some s =>
      if len (sbuf s) =? 0 then Ret (close_both c, g)
      else
        out ← mread (data (sbuf s)) (idx (sbuf s)) (len (sbuf s));
        match sr with
        | SendAgain => Ret (c, g)
        | SendError => Ret (close_both c, g)
        | SendN n =>
            let c := log_sent_client c (take (Z.to_nat n) out) in
            if n <? len (sbuf s) then
              let s := set_sbuf s (set_idx (set_len (sbuf s) (len (sbuf s) - n)) (idx (sbuf s) + n)) in
              Ret (mkconn (Some s) (rem c) (got_client c) (sent_remote c) (got_remote c) (sent_client c), g)
            else
              match rem c with
              | None => Fault                            (* remote->recv_ctx of NULL *)
              | Some r =>
                  let s := set_sbuf s (set_idx (set_len (sbuf s) 0) 0) in
                  Ret (upd c (set_ssend_io s false) (set_rrecv_io r true), g)
              end
        end
  end.

Definition remote_timeout_cb (c : conn) (g : glob) : outcome (conn * glob) :=
  match rem c with None => Fault | Some _ => Ret (close_both c, g) end.

(** The tail of [remote_recv_cb]: TCP_NODELAY is reset after the first response. *)
Definition first_response (c : conn) (s : server) (r : remote) : conn :=
  upd c s (if negb (recv_connected r) then set_recv_connected r true else r).

Definition remote_recv_cb (rr : recv_res) (sr : send_res) (c : conn) (g : glob) : outcome (conn * glob) :=
  match rem c, srv c with
  | Some r, Some s =>
      let r := set_rrecv_timer r true in                 (* ev_timer_again *)
      let c := upd c s r in
      match rr with
      | RecvEof | RecvError => Ret (close_both c, g)
      | RecvAgain => Ret (c, g)
      | RecvData l =>
          d ← mwrite (data (sbuf s)) 0 l;
          let s := set_sbuf s (set_len (set_data (sbuf s) d) (zlen l)) in
          let c := log_got_remote (upd c s r) l in
          '(err, b, o, g) ←
            (if negb (direct r) then
               let g := add_rx g (len (sbuf s)) in
               '(err, b, o, st, w) ← deobfuscate (sbuf s) (sobfs s) (statics g) (gworld g);
               Ret (err, b, o, set_obfs_glob g st w)
             else Ret (0, sbuf s, sobfs s, g));
          let s := set_sobfs (set_sbuf s b) o in
          if negb (err =? 0) then Ret (close_both c, g)
          else
            out ← mread (data (sbuf s)) 0 (len (sbuf s));
            match sr with
            | SendAgain =>
                let s := set_ssend_io (set_sbuf s (set_idx (sbuf s) 0)) true in
                Ret (first_response c s (set_rrecv_io r false), g)
            | SendError => Ret (close_both c, g)
            | SendN n =>
                let c := log_sent_client c (take (Z.to_nat n) out) in
                if n <? s32 (len (sbuf s)) then
                  let s := set_sbuf s (set_idx (set_len (sbuf s) (len (sbuf s) - n)) n) in
                  Ret (first_response c (set_ssend_io s true) (set_rrecv_io r false), g)
                else Ret (first_response c s r, g)
            end
      end
  | _, _ => Fault
  end.

(** The sending half of [remote_send_cb], once connected. *)
Definition remote_flush (sr : send_res) (c : conn) (g : glob) (s : server) (r : remote)
  : outcome (conn * glob) :=
  if len (rbuf r) =? 0 then Ret (close_both c, g)
  else
    out ← mread (data (rbuf r)) (idx (rbuf r)) (len (rbuf r));
    match sr with
    | SendAgain => Ret (upd c s r, g)
    | SendError => Ret (close_both c, g)
    | SendN n =>
        let c := log_sent_remote c (take (Z.to_nat n) out) in
        if n <? len (rbuf r) then
          Ret (upd c s (set_rbuf r (set_idx (set_len (rbuf r) (len (rbuf r) - n)) (idx (rbuf r) + n))), g)
        else
          let r := set_rbuf r (set_idx (set_len (rbuf r) 0) 0) in
          Ret (upd c (set_srecv_io s true) (set_rsend_io r false), g)
    end.

(** [peer]: [getpeername] returned 0. *)
Definition remote_send_cb (peer : bool) (sr : send_res) (c : conn) (g : glob) : outcome (conn * glob) :=
  match rem c, srv c with
  | Some r, Some s =>
      if negb (send_connected r) then
        if peer then
          let r := set_rsend_timer (set_send_connected r true) false in
          let r := set_rrecv_io (set_rrecv_timer r true) true in
          if len (rbuf r) =? 0 then Ret (upd c (set_srecv_io s true) (set_rsend_io r false), g)
          else remote_flush sr c g s r
        else Ret (close_both c, g)
      else remote_flush sr c g s r
  | _, _ => Fault
  end.

(** ** The event loop over all connections *)
Definition recv_fits (size : Z) (rr : recv_res) : Prop :=
  match rr with RecvData l => 0 < zlen l ≤ size ∧ bytes_ok l | _ => True end.
Definition send_fits (sr : send_res) : Prop := match sr with SendN n => 0 ≤ n | _ => True end.
Definition env_fits (b : buffer) (e : recv_env) : Prop :=
  recv_fits (recv_size b) (e_recv e) ∧ send_fits (e_send e) ∧
  match e_fastopen e with FastN n => 0 ≤ n | _ => True end.

(** The bytes of a [recv]. *)
Definition recv_bytes (rr : recv_res) : list Z := match rr with RecvData l => l | _ => [] end.

(** One callback of connection [c], run because its watcher is active. *)
Inductive cb_step (c : conn) (g : glob) : conn → glob → Prop :=
| step_server_recv s e c' g' :
    srv c = Some s → srecv_io s = true →
    env_fits (match rem c with None => sbuf s | Some r => rbuf r end) e →
    server_recv_cb e c g = Ret (c', g') → cb_step c g c' g'
| step_server_send s sr c' g' :
    srv c = Some s → ssend_io s = true → send_fits sr →
    server_send_cb sr c g = Ret (c', g') → cb_step c g c' g'
| step_remote_recv r rr sr c' g' :
    rem c = Some r → rrecv_io r = true → recv_fits BUF_SIZE rr → send_fits sr →
    remote_recv_cb rr sr c g = Ret (c', g') → cb_step c g c' g'
| step_remote_send r peer sr c' g' :
    rem c = Some r → rsend_io r = true → send_fits sr →
    remote_send_cb peer sr c g = Ret (c', g') → cb_step c g c' g'
| step_timeout r c' g' :
    rem c = Some r → rsend_timer r || rrecv_timer r = true →
    remote_timeout_cb c g = Ret (c', g') → cb_step c g c' g'.

Inductive loop_step : list conn * glob → list conn * glob → Prop :=
| step_accept ok cs g : loop_step (cs, g) (accept_cb ok cs, g)
| step_conn cs g i c c' g' :
    cs !! i = Some c → cb_step c g c' g' → loop_step (cs, g) (<[i := c']> cs, g').

(** ** What the relay needs of a protocol *)
(** The client-to-server direction: [enc_rel o p wire] holds when a connection in
    state [o] has turned the payload [p] into [wire]. *)
Class Encoder := {
  enc_rel : option obfs_t → list Z → list Z → Prop;
  enc_stat : S → Prop;
  enc_init : enc_rel new_obfs [] [];
  enc_request o p wire b st w :
    enc_rel o p wire → enc_stat st → buffer_ok b → len b ≤ BUF_SIZE →
    ∃ b' o' st' w', obfuscate b o st w = Ret (b', o', st', w') ∧
      buffer_ok b' ∧ capacity b ≤ capacity b' ∧ len b' < 2 ^ 31 ∧ enc_stat st' ∧
      enc_rel o' (p ++ content b) (wire ++ content b');
  enc_stable o p wire b st w r b' o' st' w' :
    enc_rel o p wire → enc_stat st → deobfuscate b o st w = Ret (r, b', o', st', w') →
    enc_rel o' p wire ∧ enc_stat st' }.

(** The server-to-client direction: [dec_rel o wire p] holds when a connection in
    state [o] has turned the received bytes [wire] into the payload [p];
    [dec_safe wire] holds of the received bytes the decoder can be run on, which
    is a condition on what the remote sends, for every prefix of it. *)
Class Decoder := {
  dec_rel : option obfs_t → list Z → list Z → Prop;
  dec_safe : list Z → Prop;
  dec_init : dec_rel new_obfs [] [];
  dec_safe_nil : dec_safe [];
  dec_safe_prefix x y : dec_safe (x ++ y) → dec_safe x;
  dec_response o wire p b st w :
    dec_rel o wire p → dec_safe (wire ++ content b) → buffer_ok b → len b ≤ BUF_SIZE →
    ∃ r b' o' st' w', deobfuscate b o st w = Ret (r, b', o', st', w') ∧
      (r = 0 → buffer_ok b' ∧ capacity b ≤ capacity b' ∧ len b' < 2 ^ 31 ∧
         dec_rel o' (wire ++ content b) (p ++ content b'));
  dec_stable o wire p b st w b' o' st' w' :
    dec_rel o wire p → obfuscate b o st w = Ret (b', o', st', w') → dec_rel o' wire p }.

(** ** Buffers being sent *)
Definition slice (b : buffer) : list Z := take (Z.to_nat (len b)) (drop (Z.to_nat (idx b)) (data b)).

Record sending (b : buffer) : Prop := {
  snd_ok : buffer_ok b; snd_cap : BUF_SIZE ≤ capacity b; snd_fits : idx b + len b ≤ capacity b }.

Lemma mread_slice b : sending b → mread (data b) (idx b) (len b) = Ret (slice b).
Proof. intros [[Hd Hl Hi _] _ Hf]. unfold mread. by if_true. Qed.

Lemma mread_content b : buffer_ok b → mread (data b) 0 (len b) = Ret (content b).
Proof. intros [Hd Hl Hi _]. unfold mread. by if_true. Qed.

Lemma slice_idx0 b : idx b = 0 → slice b = content b.
Proof. unfold slice, content. intros ->. by rewrite drop_0. Qed.

Lemma slice_length b : sending b → zlen (slice b) = len b.
Proof. intros [[Hd Hl Hi _] _ Hf]. unfold slice. rewrite length_take, length_drop. lia. Qed.

(** [n] more bytes sent. *)
Definition advance (b : buffer) (n : Z) : buffer := set_idx (set_len b (len b - n)) (idx b + n).

Lemma advance_slice b n :
  sending b → 0 ≤ n < len b → take (Z.to_nat n) (slice b) ++ slice (advance b n) = slice b ∧ sending (advance b n).
Proof.
  intros [[Hd Hl Hi Hb] Hc Hf] Hn. split.
  - unfold slice, advance. simpl. rewrite take_take, Z2Nat.inj_add, <- drop_drop by lia.
    rewrite Nat.min_l by lia. set (m := drop (Z.to_nat (idx b)) (data b)).
    replace (Z.to_nat (len b)) with (Z.to_nat n + Z.to_nat (len b - n))%nat by lia.
    rewrite <- (take_drop (Z.to_nat n) m) at 3. rewrite take_app_add'; [done|].
    unfold m. rewrite length_take, length_drop. lia.
  - split; simpl; [split; simpl; done || lia|done|lia].
Qed.

Lemma content_bytes_idx b n : content (set_idx b n) = content b.
Proof. done. Qed.
Lemma buffer_ok_idx b n : 0 ≤ n → buffer_ok b → buffer_ok (set_idx b n).
Proof. intros Hn [Hd Hl Hi Hb]. by split. Qed.
Lemma buffer_ok_empty b n : 0 ≤ n → buffer_ok b → buffer_ok (set_idx (set_len b 0) n).
Proof. intros Hn [Hd Hl Hi Hb]. split; simpl; done || lia. Qed.
Lemma sending_idx0 b : buffer_ok b → BUF_SIZE ≤ capacity b → sending (set_idx b 0).
Proof. intros Hb Hc. split; [by apply buffer_ok_idx|done|]. destruct Hb. simpl. lia. Qed.
End Relay.

Arguments enc_rel {S} para {Encoder} : rename.
Arguments enc_stat {S} para {Encoder} : rename.
Arguments enc_request {S para Encoder} : rename.
Arguments enc_stable {S para Encoder} : rename.
Arguments enc_init {S} para {Encoder} : rename.
Arguments dec_rel {S} para {Decoder} : rename.
Arguments dec_safe {S} para {Decoder} : rename.
Arguments dec_safe_nil {S} para {Decoder} : rename.
Arguments dec_safe_prefix {S para Decoder} : rename.
Arguments dec_response {S para Decoder} : rename.
Arguments dec_stable {S para Decoder} : rename.
Arguments dec_init {S} para {Decoder} : rename.
