(* ===== verification/LocalStream.v ===== *)
(** * The relay keeps both byte streams

    Invariants of the callbacks of Local, proved against the protocol interfaces
    [Encoder] and [Decoder], for every interleaving of callbacks over any number of
    connections and every result of the system calls. *)
From stdpp Require Import relations.
From S2P Require Import Prelude Encrypt Obfs Local.

(** Receiving at the end of a buffer. *)
Lemma recv_into_spec b l :
  buffer_ok b → len b + zlen l ≤ capacity b → bytes_ok l →
  ∃ b', recv_into b l = Ret b' ∧ content b' = content b ++ l ∧ buffer_ok b' ∧
        capacity b' = capacity b ∧ len b' = len b + zlen l ∧ idx b' = idx b.
Proof.
  intros Hb Hf Hl. unfold recv_into. pose proof (content_length b Hb) as Hc.
  pose proof (data_split b) as Ed. set (T := drop _ (data b)) in Ed.
  assert (zlen T = capacity b - len b) as HT by (unfold T; rewrite length_drop; destruct Hb; lia).
  pose proof (mwrite_extend (content b) T (len b) l ltac:(lia) ltac:(lia)) as E. rewrite <- Ed in E.
  rewrite E, bind_Ret. eexists. split; [done|].
  destruct (buffer_intro (set_len (set_data b ((content b ++ l) ++ drop (length l) T)) (len b + zlen l))
    (content b ++ l) (drop (length l) T)) as [H1 H2]; simpl; rewrite ?length_app, ?length_drop; try done; try lia.
  - by destruct Hb.
  - apply bytes_ok_app. auto with obfs.
  - unfold T. destruct Hb. by apply Forall_drop, Forall_drop.
Qed.

(** A copy of a whole buffer into a fresh one. *)
Lemma copy_spec b p :
  buffer_ok b → p = content b → len b ≤ BUF_SIZE →
  ∃ d, mwrite (data (balloc BUF_SIZE)) 0 p = Ret d ∧
    let b' := set_len (set_data (balloc BUF_SIZE) d) (len b) in content b' = p ∧ buffer_ok b'.
Proof.
  intros Hb -> Hl. pose proof (content_length b Hb) as Hc.
  assert (zlen (data (balloc BUF_SIZE)) = BUF_SIZE) as Hz by (by apply length_fresh_mem).
  rewrite (mwrite_extend [] (data (balloc BUF_SIZE))) by (done || lia).
  eexists. split; [done|]. cbn zeta. rewrite <- Hc. apply (overwrite_ok (balloc BUF_SIZE)).
  - by apply balloc_ok.
  - by apply content_ok.
  - simpl. lia.
Qed.

Section Up.
Context {S : Type} (para : option (obfs_para S)) (vpn : bool) (listener : listen_ctx).
Context {E : Encoder para}.

(** Bytes obfuscated and not yet taken by the kernel. *)
Definition pending_up (c : conn) : list Z :=
  match rem c with Some r => if rsend_io r then slice (rbuf r) else [] | None => [] end.

(** The client-to-server invariant of one connection. *)
Inductive up_inv (c : conn) : Prop :=
| up_init s :
    srv c = Some s → rem c = None → stage s = STAGE_INIT → srecv_io s = true → ssend_io s = false →
    buffer_ok (sbuf s) → BUF_SIZE ≤ capacity (sbuf s) → len (sbuf s) = 0 →
    enc_rel para (sobfs s) [] [] → got_client c = [] → sent_remote c = [] → up_inv c
| up_stream s r wire :
    srv c = Some s → rem c = Some r → stage s = STAGE_STREAM → srecv_io s = negb (rsend_io r) →
    sending (rbuf r) → len (rbuf r) < 2 ^ 31 → (rsend_io r = false → len (rbuf r) = 0) →
    enc_rel para (sobfs s) (got_client c) wire → wire = sent_remote c ++ pending_up c → up_inv c
| up_closed p o wire :
    srv c = None → rem c = None → p `prefix_of` got_client c → enc_rel para o p wire →
    sent_remote c `prefix_of` wire → up_inv c.

Lemma up_close c o p wire :
  p `prefix_of` got_client c → enc_rel para o p wire → sent_remote c `prefix_of` wire → up_inv (close_both c).
Proof. intros. by eapply up_closed. Qed.

(** Bytes sent before, bytes sent now, bytes left: everything is accounted for. *)
Lemma up_wait c s r o wire :
  stage s = STAGE_STREAM → sobfs s = o → srecv_io s = false → rsend_io r = true →
  sending (rbuf r) → len (rbuf r) < 2 ^ 31 →
  enc_rel para o (got_client c) wire → wire = sent_remote c ++ slice (rbuf r) →
  up_inv (upd c s r).
Proof.
  intros H1 H2 H3 H4 H5 H6 H7 H8. subst o. eapply (up_stream _ s r); try done; simpl.
  - by rewrite H3, H4.
  - by rewrite H4.
  - by unfold pending_up; simpl; rewrite H4.
Qed.

Lemma up_done c s r o wire :
  stage s = STAGE_STREAM → sobfs s = o → srecv_io s = true → rsend_io r = false →
  sending (rbuf r) → len (rbuf r) = 0 →
  enc_rel para o (got_client c) wire → wire = sent_remote c → up_inv (upd c s r).
Proof.
  intros H1 H2 H3 H4 H5 H6 H7 H8. subst o. eapply (up_stream _ s r); try done; simpl.
  - by rewrite H3, H4.
  - lia.
  - unfold pending_up; simpl. by rewrite H4, app_nil_r.
Qed.

(** A send of the whole content: part of it, or all. *)
Lemma sent_part b n :
  buffer_ok b → BUF_SIZE ≤ capacity b → 0 ≤ n < len b →
  take (Z.to_nat n) (content b) ++ slice (set_idx (set_len b (len b - n)) n) = content b ∧
  sending (set_idx (set_len b (len b - n)) n).
Proof.
  intros Hb Hc Hn. pose proof (sending_idx0 b Hb Hc) as Hs.
  destruct (advance_slice (set_idx b 0) n Hs Hn) as [H1 H2]. unfold advance in *. simpl in *.
  rewrite slice_idx0 in H1 by done. by split.
Qed.

Lemma sent_all b n : buffer_ok b → len b ≤ n → take (Z.to_nat n) (content b) = content b.
Proof. intros Hb Hn. apply take_ge. pose proof (content_length b Hb). lia. Qed.

Lemma sending_empty b n : 0 ≤ n ≤ BUF_SIZE → buffer_ok b → BUF_SIZE ≤ capacity b → sending (set_idx (set_len b 0) n).
Proof. intros Hn Hb Hc. split; [apply buffer_ok_empty; [lia|done]|done|simpl; lia]. Qed.

Section Branch.
Context (c : conn) (s : server) (r : remote) (wire : list Z).
Context (Hio : srecv_io s = true) (Hst : stage s = STAGE_STREAM) (Hrs : rsend_io r = false).
Context (Hb : buffer_ok (rbuf r)) (Hc : BUF_SIZE ≤ capacity (rbuf r)) (Hl : len (rbuf r) < 2 ^ 31).
Context (Hr : enc_rel para (sobfs s) (got_client c) wire) (Hw : wire = sent_remote c ++ content (rbuf r)).

Lemma branch_closed : up_inv (close_both c).
Proof using Hr Hw. eapply up_close; [done|exact Hr|]. rewrite Hw. by eexists. Qed.

Lemma branch_wait r' :
  rsend_io r' = true → rbuf r' = set_idx (rbuf r) 0 → up_inv (upd c (set_srecv_io s false) r').
Proof using Hst Hb Hc Hl Hr Hw.
  intros H1 H2. eapply up_wait; [done..| | |exact Hr|]; rewrite H2; [by apply sending_idx0|done|].
  by rewrite slice_idx0.
Qed.

Lemma branch_part n r' :
  0 ≤ n < len (rbuf r) → rsend_io r' = true → rbuf r' = set_idx (set_len (rbuf r) (len (rbuf r) - n)) n →
  up_inv (upd (log_sent_remote c (take (Z.to_nat n) (content (rbuf r)))) (set_srecv_io s false) r').
Proof using Hst Hb Hc Hl Hr Hw.
  intros Hn H1 H2. destruct (sent_part (rbuf r) n Hb Hc Hn) as [H3 H4].
  eapply up_wait; [done..| | |exact Hr|]; rewrite H2; [done|simpl; lia|].
  simpl. by rewrite <- app_assoc, H3.
Qed.

Lemma branch_all n r' :
  len (rbuf r) ≤ n → rsend_io r' = false → rbuf r' = set_idx (set_len (rbuf r) 0) 0 →
  up_inv (upd (log_sent_remote c (take (Z.to_nat n) (content (rbuf r)))) s r').
Proof using Hst Hio Hb Hc Hr Hw.
  intros Hn H1 H2. eapply up_done; [done..| | |exact Hr|]; rewrite ?H2; [by apply sending_empty|done|].
  simpl. by rewrite sent_all.
Qed.

Lemma stream_connect_up e g c' g' :
  match e_fastopen e with FastN n => 0 ≤ n | _ => True end →
  stream_connect (S:=S) vpn e c g s r = Ret (c', g') → up_inv c' ∧ statics g' = statics g.
Proof using All.
  intros Hf H. unfold stream_connect in H.
  destruct (vpn && _ && _) in H; [injection H as <- <-; split; [apply branch_closed|done]|].
  destruct (negb (fast_open g)) in H.
  - destruct (e_connect e) in H; injection H as <- <-; (split; [|done]);
      [by apply branch_wait..|apply branch_closed].
  - cbn [rbuf set_rbuf data set_idx len] in H. rewrite mread_content, bind_Ret in H by done.
    destruct (e_fastopen e) as [n| | |] eqn:Ef in H, Hf.
    + rewrite s32_small in H by (destruct Hb; lia). destruct (n <? len (rbuf r)) eqn:En in H; bool_hyps;
        injection H as <- <-; (split; [|done]); [by eapply branch_part|by apply branch_all].
    + injection H as <- <-. split; [by apply branch_wait|done].
    + injection H as <- <-. split; [apply branch_closed|done].
    + injection H as <- <-. split; [apply branch_closed|done].
Qed.

Lemma stream_send_up e g c' g' :
  send_fits (e_send e) → stream_send (S:=S) e c g s r = Ret (c', g') → up_inv c' ∧ statics g' = statics g.
Proof using All.
  intros Hf H. unfold stream_send in H. rewrite mread_content, bind_Ret in H by done.
  destruct (e_send e) as [n| |] in H, Hf.
  - rewrite s32_small in H by (destruct Hb; lia). destruct (n <? len (rbuf r)) eqn:En in H; bool_hyps;
      injection H as <- <-; (split; [|done]); [by eapply branch_part|by apply branch_all].
  - injection H as <- <-. split; [by apply branch_wait|done].
  - injection H as <- <-. split; [apply branch_closed|done].
Qed.
End Branch.

(** The part of [server_recv_cb] after the receive. *)
Lemma stream_branch_up e c g s r c' g' p :
  srecv_io s = true → stage s = STAGE_STREAM → rsend_io r = false →
  buffer_ok (rbuf r) → BUF_SIZE ≤ capacity (rbuf r) → len (rbuf r) ≤ BUF_SIZE →
  enc_rel para (sobfs s) p (sent_remote c) → got_client c = p ++ content (rbuf r) →
  enc_stat para (statics g) → send_fits (e_send e) →
  match e_fastopen e with FastN n => 0 ≤ n | _ => True end →
  stream_branch para vpn e c g s r = Ret (c', g') → up_inv c' ∧ enc_stat para (statics g').
Proof.
  intros Hio Hst Hrs Hb Hc Hl Hr Hg Hs Hf1 Hf2 H. unfold stream_branch in H.
  destruct (enc_request _ _ _ (rbuf r) (statics g) (gworld g) Hr Hs Hb Hl)
    as (b & o & st & w & E1 & Hb' & Hc' & Hl' & Hs' & Hr').
  cbn [statics gworld add_tx] in H. rewrite E1, bind_Ret in H. rewrite <- Hg in Hr'.
  assert (up_inv c' ∧ statics g' = st) as [? ->]; [|done].
  destruct (negb _) in H; [eapply stream_connect_up in H|eapply stream_send_up in H];
    try exact H; try exact Hr'; simpl; done || lia.
Qed.

Lemma recv_size_spec b : 0 ≤ len b ≤ BUF_SIZE → recv_size b = BUF_SIZE - len b.
Proof. unfold recv_size, BUF_SIZE. intros. apply u64_small. lia. Qed.

Lemma content_nil b : len b = 0 → content b = [].
Proof. unfold content. by intros ->. Qed.

Lemma init_branch_up e c g s b c' g' :
  srecv_io s = true → rem c = None → buffer_ok b → 0 < len b ≤ BUF_SIZE →
  enc_rel para (sobfs s) [] [] → sent_remote c = [] → got_client c = content b →
  enc_stat para (statics g) → send_fits (e_send e) →
  match e_fastopen e with FastN n => 0 ≤ n | _ => True end →
  init_branch para vpn listener e c g s b = Ret (c', g') → up_inv c' ∧ enc_stat para (statics g').
Proof.
  intros Hio Hrem Hb Hl Hr Hsent Hgot Hs Hf1 Hf2 H. unfold init_branch in H.
  apply bind_Ret_inv in H as ([r g1] & Hcr & H). unfold create_remote in Hcr.
  destruct (rand _) as [v w] in Hcr. destruct (_ =? 0) in Hcr; [done|].
  destruct (_ !! _) as [a|] in Hcr; [|done]. injection Hcr as <- <-.
  destruct (e_socket e) in H.
  - destruct (0 <? len b) eqn:E0 in H; bool_hyps; [|lia]. rewrite mread_content, bind_Ret in H by done.
    destruct (copy_spec b (content b) Hb eq_refl ltac:(lia)) as (d & Ed & Hc1 & Hok).
    cbn [rbuf new_remote set_rbuf] in H. rewrite Ed, !bind_Ret in H.
    eapply (stream_branch_up _ _ _ _ _ _ _ []) in H; try exact H; simpl; try done; try lia.
    + by rewrite Hsent.
    + by rewrite Hc1.
  - injection H as <- <-. split; [|done].
    eapply (up_closed _ []); [done|done|apply prefix_nil|exact Hr|]. simpl. by rewrite Hsent.
Qed.

Lemma server_recv_up e c g s c' g' :
  up_inv c → enc_stat para (statics g) → srv c = Some s → srecv_io s = true →
  env_fits (match rem c with None => sbuf s | Some r => rbuf r end) e →
  server_recv_cb para vpn listener e c g = Ret (c', g') → up_inv c' ∧ enc_stat para (statics g').
Proof.
  intros Hinv Hs Hsrv Hio (Hf & Hf1 & Hf2) H. unfold server_recv_cb in H. rewrite Hsrv in H.
  assert (Hcl : up_inv (close_both c)).
  { destruct Hinv as [s0 ? ? ? ? ? ? ? ? Hr Hg Hse|s0 r wire ? ? ? ? ? ? ? Hr Hw|]; [| |congruence].
    - eapply up_close; [apply prefix_nil|exact Hr|]. by rewrite Hse.
    - eapply up_close; [done|exact Hr|]. rewrite Hw. by eexists. }
  destruct (e_recv e) as [l| | |] in H, Hf; [|by injection H as <- <-..].
  destruct Hinv as [s0 E1 E2 Hst _ _ Hb Hc Hl0 Hr Hg Hse|s0 r wire E1 E2 Hst Hsr Hsd Hlen Hl0 Hr Hw|]; [| |congruence];
    rewrite Hsrv in E1; injection E1 as <-; rewrite E2 in H, Hf; destruct Hf as [Hz Hbl].
  - rewrite recv_size_spec in Hz by (unfold BUF_SIZE; lia).
    destruct (recv_into_spec (sbuf s) l Hb ltac:(lia) Hbl) as (b & Eb & Hcont & Hok & Hcap & Hlb & _).
    rewrite Eb, bind_Ret in H. cbn [stage set_sbuf] in H. rewrite Hst in H. cbn [Z.eqb STAGE_INIT STAGE_STREAM] in H.
    rewrite (content_nil (sbuf s)) in Hcont by done.
    eapply init_branch_up in H; try exact H; simpl; try done; try lia. by rewrite Hg, Hcont.
  - rewrite Hio in Hsr. destruct (rsend_io r) eqn:Ers; [done|]. specialize (Hl0 eq_refl).
    destruct Hsd as [Hb Hc Hf]. rewrite recv_size_spec in Hz by (unfold BUF_SIZE; lia).
    destruct (recv_into_spec (rbuf r) l Hb ltac:(lia) Hbl) as (b & Eb & Hcont & Hok & Hcap & Hlb & _).
    rewrite Eb, bind_Ret in H. rewrite Hst in H. cbn [Z.eqb STAGE_INIT STAGE_STREAM Pos.eqb] in H.
    rewrite (content_nil (rbuf r)) in Hcont by done. unfold pending_up in Hw. rewrite E2, Ers, app_nil_r in Hw. subst wire.
    eapply stream_branch_up in H; try exact H; simpl; try done; try lia; try exact Hr. by rewrite Hcont.
Qed.

(** Closing loses at most a suffix. *)
Lemma close_up c : up_inv c → up_inv (close_both c).
Proof.
  intros [s0 ? ? ? ? ? ? ? ? Hr Hg Hse|s0 r wire ? ? ? ? ? ? ? Hr Hw|p o wire ? ? Hp Hr Hse].
  - eapply up_close; [apply prefix_nil|exact Hr|]. by rewrite Hse.
  - eapply up_close; [done|exact Hr|]. rewrite Hw. by eexists.
  - eapply up_close; [exact Hp|exact Hr|exact Hse].
Qed.

Lemma remote_flush_up sr c g s r wire c' g' :
  stage s = STAGE_STREAM → srecv_io s = false → rsend_io r = true → sending (rbuf r) → len (rbuf r) < 2 ^ 31 →
  enc_rel para (sobfs s) (got_client c) wire → wire = sent_remote c ++ slice (rbuf r) → send_fits sr →
  remote_flush (S:=S) sr c g s r = Ret (c', g') → up_inv c' ∧ g' = g.
Proof.
  intros Hst Hio Hrs Hsd Hl Hr Hw Hf H. unfold remote_flush in H.
  assert (Hcl : up_inv (close_both c)) by (eapply up_close; [done|exact Hr|rewrite Hw; by eexists]).
  destruct (_ =? 0) in H; [by injection H as <- <-|]. rewrite mread_slice, bind_Ret in H by done.
  destruct sr as [n| |]; [|injection H as <- <-; split; [by eapply up_wait|done]|by injection H as <- <-].
  destruct (n <? len (rbuf r)) eqn:En in H; bool_hyps; injection H as <- <-; (split; [|done]).
  - destruct (advance_slice (rbuf r) n Hsd ltac:(simpl in Hf; lia)) as [H1 H2].
    eapply up_wait; [done..|exact H2|simpl in *; lia|exact Hr|].
    cbn [sent_remote log_sent_remote rbuf set_rbuf]. rewrite <- app_assoc.
    change (set_idx _ _) with (advance (rbuf r) n). by rewrite H1, Hw.
  - pose proof (slice_length _ Hsd). destruct Hsd. eapply up_done; [done..|by apply sending_empty|done|exact Hr|].
    simpl. rewrite take_ge; [done|lia].
Qed.

Lemma remote_send_up peer sr c g r c' g' :
  up_inv c → rem c = Some r → rsend_io r = true → send_fits sr →
  remote_send_cb (S:=S) peer sr c g = Ret (c', g') → up_inv c' ∧ g' = g.
Proof.
  intros Hinv Hrem Hio Hf H. pose proof (close_up c Hinv) as Hcl.
  destruct Hinv as [s0 E1 E2|s r0 wire E1 E2 Hst Hsr Hsd Hlen Hl0 Hr Hw|? ? ? E1 E2]; [congruence| |congruence].
  unfold remote_send_cb in H. rewrite Hrem in E2. injection E2 as <-. unfold pending_up in Hw.
  rewrite Hrem, Hio in *. rewrite E1 in H. cbn [negb] in Hsr.
  destruct (negb (send_connected r)) in H; [destruct peer|].
  - destruct (_ =? 0) eqn:E0 in H; bool_hyps.
    + injection H as <- <-. split; [|done]. simpl in E0.
      eapply up_done; [done..|exact Hr|]. rewrite Hw. unfold slice. by rewrite E0, app_nil_r.
    + eapply remote_flush_up in H; try exact H; try exact Hr; done.
  - by injection H as <- <-.
  - eapply remote_flush_up in H; try exact H; try exact Hr; done.
Qed.

(** The other direction touches neither the stream's buffer nor its logs. *)
Lemma up_frame c c' s' r r' :
  up_inv c → rem c = Some r → srv c' = Some s' → rem c' = Some r' →
  (∀ s, srv c = Some s → stage s' = stage s ∧ srecv_io s' = srecv_io s ∧
     ∀ wire, enc_rel para (sobfs s) (got_client c) wire → enc_rel para (sobfs s') (got_client c) wire) →
  rbuf r' = rbuf r → rsend_io r' = rsend_io r → got_client c' = got_client c → sent_remote c' = sent_remote c →
  up_inv c'.
Proof.
  intros Hinv Hrem Hs' Hr' Hs Hb Hio Hg Hse.
  destruct Hinv as [s0 E1 E2|s r0 wire E1 E2 Hst Hsr Hsd Hlen Hl0 Hr Hw|? ? ? E1 E2]; [congruence| |congruence].
  rewrite Hrem in E2. injection E2 as <-. destruct (Hs s E1) as (H1 & H2 & H3).
  eapply (up_stream _ s' r' wire); rewrite ?Hb, ?Hio, ?Hg, ?Hse, ?H1, ?H2; auto.
  rewrite Hw. unfold pending_up. by rewrite Hrem, Hr', Hio, Hb.
Qed.

Lemma server_send_up sr c g s c' g' :
  up_inv c → srv c = Some s → ssend_io s = true → server_send_cb (S:=S) sr c g = Ret (c', g') → up_inv c' ∧ g' = g.
Proof.
  intros Hinv Hsrv Hss H. pose proof (close_up c Hinv) as Hcl. unfold server_send_cb in H. rewrite Hsrv in H.
  destruct (_ =? 0) in H; [by injection H as <- <-|]. apply bind_Ret_inv in H as (out & Ho & H).
  destruct sr as [n| |]; [|by injection H as <- <-..].
  destruct (n <? _) in H.
  - injection H as <- <-. split; [|done]. destruct (rem c) as [r|] eqn:Er.
    + eapply (up_frame c); [done|exact Er|done|done| |done..].
      intros s1 Hs1. rewrite Hsrv in Hs1. injection Hs1 as <-. done.
    + destruct Hinv as [s0 E1 E2 ? ? Hno|? ? ? ? E2|? ? ? E1]; congruence.
  - cbn [rem log_sent_client] in H. destruct (rem c) as [r|] eqn:Er in H; [|done]. injection H as <- <-.
    split; [|done]. eapply (up_frame c); [done|exact Er|done|done| |done..].
    intros s1 Hs1. rewrite Hsrv in Hs1. injection Hs1 as <-. done.
Qed.

Lemma remote_recv_up rr sr c g r c' g' :
  up_inv c → enc_stat para (statics g) → rem c = Some r →
  remote_recv_cb para rr sr c g = Ret (c', g') → up_inv c' ∧ enc_stat para (statics g').
Proof.
  intros Hinv Hs Hrem H. 
  assert (Hcl : ∀ c1, got_client c1 = got_client c → sent_remote c1 = sent_remote c → up_inv (close_both c1)).
  { intros c1 H1 H2. pose proof (close_up c Hinv) as Hc. inversion Hc; try done. simpl in *. by eapply up_close; rewrite ?H1, ?H2. }
  unfold remote_recv_cb in H. rewrite Hrem in H.
  destruct (srv c) as [s|] eqn:Hsrv; [|done].
  assert (Hfr : ∀ c1 s1 r1, srv c1 = Some s1 → rem c1 = Some r1 → stage s1 = stage s → srecv_io s1 = srecv_io s →
    (∀ wire, enc_rel para (sobfs s) (got_client c) wire → enc_rel para (sobfs s1) (got_client c) wire) →
    rbuf r1 = rbuf r → rsend_io r1 = rsend_io r → got_client c1 = got_client c → sent_remote c1 = sent_remote c →
    up_inv c1).
  { intros c1 s1 r1 H1 H2 H3 H4 H5 H6 H7 H8 H9. eapply (up_frame c); try done.
    intros s2 Hs2. rewrite Hsrv in Hs2. by injection Hs2 as <-. }
  destruct rr as [l| | |]; [|by injection H as <- <-; split; [apply Hcl|]|injection H as <- <-|by injection H as <- <-; split; [apply Hcl|]].
  2: { split; [|done]. by eapply Hfr. }
  apply bind_Ret_inv in H as (d & Hd & H). apply bind_Ret_inv in H as ([[[err b] o] g1] & Hde & H).
  assert (enc_stat para (statics g1) ∧
    ∀ wire, enc_rel para (sobfs s) (got_client c) wire → enc_rel para o (got_client c) wire) as [Hs1 Hr1].
  { destruct (negb (direct _)) in Hde.
    - apply bind_Ret_inv in Hde as ([[[[err1 b1] o1] st1] w1] & Hde & H1). injection H1 as <- <- <- <-.
      assert (∃ wire, enc_rel para (sobfs s) (got_client c) wire) as (wire0 & Hw0).
      { destruct Hinv; [congruence| |congruence]. replace s0 with s in * by congruence. by eexists. }
      split; [|intros wire Hw].
      + apply (enc_stable _ _ _ _ _ _ _ _ _ _ _ Hw0 Hs Hde).
      + apply (enc_stable _ _ _ _ _ _ _ _ _ _ _ Hw Hs Hde).
    - by injection Hde as <- <- <- <-. }
  destruct (negb (err =? 0)) in H; [injection H as <- <-; split; [by apply Hcl|done]|]. apply bind_Ret_inv in H as (out & _ & H).
  assert (Hres : ∀ c1 s1 r1, got_client c1 = got_client c → sent_remote c1 = sent_remote c →
    stage s1 = stage s → srecv_io s1 = srecv_io s → sobfs s1 = o → rbuf r1 = rbuf r → rsend_io r1 = rsend_io r →
    up_inv (first_response c1 s1 r1)).
  { intros c1 s1 r1 ? ? ? ? Ho ? ?. eapply Hfr; try done; [by rewrite Ho|by destruct (recv_connected r1) ..]. }
  destruct sr as [n| |]; [destruct (n <? _) in H|..]; injection H as <- <-; (split; [|done]);
    first [by apply Hres|by apply Hcl].
Qed.

Lemma cb_step_up c g c' g' :
  up_inv c → enc_stat para (statics g) → cb_step para vpn listener c g c' g' →
  up_inv c' ∧ enc_stat para (statics g').
Proof.
  intros Hc Hg [s e ? ? H1 H2 H3 H4|s sr ? ? H1 H2 H3 H4|r rr sr ? ? H1 H2 H3 H4 H5|r peer sr ? ? H1 H2 H3 H4|r ? ? H1 H2 H3].
  - by eapply server_recv_up.
  - apply (server_send_up _ _ _ s) in H4 as [? ->]; auto.
  - by eapply remote_recv_up.
  - apply (remote_send_up _ _ _ _ r) in H4 as [? ->]; auto.
  - unfold remote_timeout_cb in H3. rewrite H1 in H3. injection H3 as <- <-. split; [by apply close_up|done].
Qed.

Lemma loop_up cs g cs' g' :
  rtc (loop_step para vpn listener) (cs, g) (cs', g') →
  Forall up_inv cs → enc_stat para (statics g) → Forall up_inv cs' ∧ enc_stat para (statics g').
Proof.
  intros H. remember (cs, g) as x eqn:Ex. remember (cs', g') as y eqn:Ey.
  revert cs g Ex. induction H as [x|x y z Hxy _ IH]; intros cs g Ex Hcs Hg; subst; [by injection Ex as <- <-|].
  inversion Hxy as [ok cs1 g1|cs1 g1 i c c' g2 Hi Hcb]; subst; eapply IH; try done.
  - unfold accept_cb. destruct ok; [|done]. apply Forall_app. split; [done|]. constructor; [|constructor].
    eapply up_init; try done; [by apply balloc_ok|apply enc_init].
  - destruct (cb_step_up c g c' g2) as [Hc' _]; [by eapply Forall_lookup in Hi|done|done|].
    by apply Forall_insert.
  - by destruct (cb_step_up c g c' g2) as [_ ?]; [eapply Forall_lookup in Hi| | |].
Qed.

(** C1: the client-to-server stream. However the callbacks of any number of
    connections interleave, and whatever the kernel answers, on every connection the
    bytes handed to the remote socket followed by those still pending in
    [remote->buf] are exactly what the protocol makes of the bytes read from the
    client, in order; after a close, what was sent is a prefix of it. *)
Theorem relay_up_stream g cs g' c :
  enc_stat para (statics g) → rtc (loop_step para vpn listener) ([], g) (cs, g') → c ∈ cs →
  (∀ s, srv c = Some s → enc_rel para (sobfs s) (got_client c) (sent_remote c ++ pending_up c)) ∧
  ∃ p o wire, p `prefix_of` got_client c ∧ enc_rel para o p wire ∧ sent_remote c `prefix_of` wire.
Proof.
  intros Hg Hr Hc. destruct (loop_up _ _ _ _ Hr) as [Hinv _]; [constructor|done|].
  apply list_elem_of_In in Hc. rewrite Forall_forall in Hinv. specialize (Hinv c Hc). split.
  - intros s Hs. destruct Hinv as [s0 E1 E2 ? ? ? ? ? ? Hr0 Hg0 Hs0|s0 r wire E1 E2 ? ? ? ? ? Hr0 Hw|]; [| |congruence];
      replace s0 with s in * by congruence.
    + unfold pending_up. by rewrite E2, Hg0, Hs0.
    + by subst wire.
  - apply close_up in Hinv. inversion Hinv; try done. simpl in *. eauto 10.
Qed.
End Up.

Section Down.
Context {S : Type} (para : option (obfs_para S)) (vpn : bool) (listener : listen_ctx).
Context {D : Decoder para}.

(** Bytes deobfuscated and not yet taken by the kernel. *)
Definition pending_down (c : conn) : list Z :=
  match srv c with Some s => if ssend_io s then slice (sbuf s) else [] | None => [] end.

(** Which of the two sockets is being waited for. *)
Record down_flags (s : server) (r : remote) : Prop := {
  df_turn : ssend_io s = true → rrecv_io r = false;
  df_conn : rrecv_io r = true ∨ ssend_io s = true → send_connected r = true;
  df_direct : direct r = false;
  df_buf : buffer_ok (sbuf s) ∧ BUF_SIZE ≤ capacity (sbuf s);
  df_send : ssend_io s = true → sending (sbuf s) }.

(** The server-to-client invariant of one connection. *)
Inductive down_inv (c : conn) : Prop :=
| down_init s :
    srv c = Some s → rem c = None → ssend_io s = false → buffer_ok (sbuf s) → BUF_SIZE ≤ capacity (sbuf s) →
    stage s = STAGE_INIT → len (sbuf s) = 0 →
    dec_rel para (sobfs s) [] [] → got_remote c = [] → sent_client c = [] → down_inv c
| down_stream s r out :
    srv c = Some s → rem c = Some r → stage s = STAGE_STREAM → down_flags s r →
    dec_rel para (sobfs s) (got_remote c) out → out = sent_client c ++ pending_down c → down_inv c
| down_closed wire o p :
    srv c = None → rem c = None → wire `prefix_of` got_remote c → dec_rel para o wire p →
    sent_client c `prefix_of` p → down_inv c.

Lemma down_close c wire o p :
  wire `prefix_of` got_remote c → dec_rel para o wire p → sent_client c `prefix_of` p → down_inv (close_both c).
Proof. intros. by eapply down_closed. Qed.

(** Closing keeps what was delivered; more may have been received. *)
Lemma close_down c c1 :
  down_inv c → got_remote c `prefix_of` got_remote c1 → sent_client c1 = sent_client c → down_inv (close_both c1).
Proof.
  intros [s0 ? ? ? ? ? ? ? Hr Hg Hse|s0 r out ? ? ? ? Hr Hw|wire o p ? ? Hp Hr Hse] Hgot Hsent.
  - eapply down_close; [apply prefix_nil|exact Hr|]. by rewrite Hsent, Hse.
  - eapply down_close; [exact Hgot|exact Hr|]. rewrite Hsent, Hw. by eexists.
  - eapply (down_close _ wire); [by etrans|exact Hr|by rewrite Hsent].
Qed.

(** The callbacks of the other direction keep the client's buffer and the logs. *)
Lemma down_frame c c1 s s1 r1 :
  down_inv c → srv c = Some s → srv c1 = Some s1 → rem c1 = Some r1 → stage s1 = STAGE_STREAM →
  (∀ r, rem c = Some r → sbuf s1 = sbuf s) →
  buffer_ok (sbuf s1) → BUF_SIZE ≤ capacity (sbuf s1) → ssend_io s1 = ssend_io s →
  (∀ wire p, dec_rel para (sobfs s) wire p → dec_rel para (sobfs s1) wire p) →
  direct r1 = false →
  (rrecv_io r1 = true → send_connected r1 = true) →
  (∀ r, rem c = Some r → (rrecv_io r1 = rrecv_io r ∨ send_connected r = false) ∧
        (send_connected r = true → send_connected r1 = true)) →
  got_remote c1 = got_remote c → sent_client c1 = sent_client c →
  down_inv c1.
Proof.
  intros Hinv Hs Hs1 Hr1 Hst Hb Hok Hcap Hio Hdec Hdir Hconn Hrem Hg Hse.
  destruct Hinv as [s0 E1 E2 Hno ? ? ? ? Hr Hg0 Hse0|s0 r out E1 E2 Hst0 [F1 F2 F3 F4 F5] Hr Hw|]; [| |congruence];
    replace s0 with s in * by congruence; [apply (down_stream _ s1 r1 [])|apply (down_stream _ s1 r1 out)]; try done.
  - split; rewrite ?Hio, ?Hno; try done. intros [Hx|Hx]; [by apply Hconn|done].
  - rewrite Hg, Hg0. apply Hdec, Hr.
  - rewrite Hse, Hse0. unfold pending_down. by rewrite Hs1, Hio, Hno.
  - destruct (Hrem r E2) as [Hrr Hsc]. split; rewrite ?Hio, ?(Hb r E2); try done.
    + intros Hss. destruct Hrr as [-> |Hn]; [auto|]. specialize (F2 (or_intror Hss)). congruence.
    + intros [Hx|Hss]; [by apply Hconn|]. apply Hsc, F2. by right.
  - rewrite Hg. apply Hdec, Hr.
  - rewrite Hse, Hw. unfold pending_down. by rewrite E1, Hs1, Hio, (Hb r E2).
Qed.

(** What a run of the up direction leaves to the down direction. *)
Record up_effect (c : conn) (s : server) (r : remote) (c1 : conn) (s1 : server) (r1 : remote) : Prop := {
  ue_srv : srv c1 = Some s1; ue_rem : rem c1 = Some r1;
  ue_stage : stage s1 = stage s; ue_sbuf : sbuf s1 = sbuf s; ue_io : ssend_io s1 = ssend_io s;
  ue_direct : direct r1 = direct r;
  ue_conn : (rrecv_io r1 = rrecv_io r ∧ send_connected r1 = send_connected r) ∨
            (send_connected r = false ∧ send_connected r1 = true);
  ue_dec : ∀ wire p, dec_rel para (sobfs s) wire p → dec_rel para (sobfs s1) wire p;
  ue_got : got_remote c1 = got_remote c; ue_sent : sent_client c1 = sent_client c }.

Definition up_result (c : conn) (s : server) (r : remote) (c1 : conn) : Prop :=
  (∃ c2, c1 = close_both c2 ∧ got_remote c2 = got_remote c ∧ sent_client c2 = sent_client c) ∨
  ∃ s1 r1, up_effect c s r c1 s1 r1.

#[local] Ltac up_res := first
  [ by left; eexists; split_and!
  | right; eexists _, _; split; simpl; solve [done | auto | by left | by right | by intros; eauto] ].

Lemma stream_branch_effect e c g s r c' g' :
  stream_branch para vpn e c g s r = Ret (c', g') → up_result c s r c'.
Proof.
  unfold stream_branch. intros H. apply bind_Ret_inv in H as ([[[b o] st] w] & Ho & H).
  assert (Hd : ∀ wire p, dec_rel para (sobfs s) wire p → dec_rel para o wire p)
    by (intros ? ? ?; by eapply dec_stable).
  destruct (negb _) eqn:Ec in H; [unfold stream_connect in H|unfold stream_send in H].
  - cbn [send_connected set_rbuf] in Ec. apply negb_true_iff in Ec.
    destruct (vpn && _ && _) in H; [injection H as <- <-; up_res|].
    destruct (negb (fast_open _)) in H.
    + destruct (e_connect e) in H; injection H as <- <-; up_res.
    + apply bind_Ret_inv in H as (out & _ & H).
      destruct (e_fastopen e) as [n| | |] in H; [destruct (n <? _) in H|..]; injection H as <- <-; up_res.
  - apply bind_Ret_inv in H as (out & _ & H).
    destruct (e_send e) as [n| |] in H; [destruct (n <? _) in H|..]; injection H as <- <-; up_res.
Qed.

Lemma init_branch_effect e c g s b c' g' :
  rem c = None →
  init_branch para vpn listener e c g s b = Ret (c', g') →
  ∃ a, up_result c (set_stage s STAGE_STREAM) (new_remote (timeout listener) a) c'.
Proof.
  unfold init_branch. intros Hrem H. apply bind_Ret_inv in H as ([r g1] & Hcr & H). unfold create_remote in Hcr.
  destruct (rand _) as [v w] in Hcr. destruct (_ =? 0) in Hcr; [done|].
  destruct (_ !! _) as [a|] in Hcr; [|done]. injection Hcr as <- <-. exists a.
  destruct (e_socket e) in H.
  - apply bind_Ret_inv in H as (b1 & _ & H). apply stream_branch_effect in H as [(c2 & -> & ? & ?)|(s1 & r1 & [])].
    + left. by exists c2.
    + right. exists s1, r1. by split.
  - injection H as <- <-. left. exists c. split_and!; [|done..]. destruct c. simpl in *. by subst.
Qed.

Lemma down_after c s r s1 r1 c1 c0 :
  down_inv c0 → srv c0 = Some s1 → rem c0 = Some r1 → got_remote c = got_remote c0 → sent_client c = sent_client c0 →
  stage s = STAGE_STREAM → sbuf s = sbuf s1 → ssend_io s = ssend_io s1 → sobfs s = sobfs s1 →
  direct r = direct r1 → rrecv_io r = rrecv_io r1 → send_connected r = send_connected r1 →
  up_result c s r c1 → down_inv c1.
Proof.
  intros Hinv Hs1 Hr1 Hg Hse Hst Hb Hio Hob Hdir Hrr Hsc [(c2 & -> & H1 & H2)|(s2 & r2 & [])].
  - eapply close_down; [exact Hinv|by rewrite H1, Hg|congruence].
  - destruct Hinv as [s0 E1 E2|s0 r0 out E1 E2 Hst0 [F1 F2 F3 F4 F5] Hr Hw|? ? ? E1]; [congruence| |congruence].
    replace s0 with s1 in * by congruence. replace r0 with r1 in * by congruence.
    eapply (down_frame c0); [by eapply (down_stream _ s1 r1)|exact Hs1|done|done|congruence|..];
      try congruence.
    + rewrite ue_sbuf0, Hb. apply F4.
    + rewrite ue_sbuf0, Hb. apply F4.
    + by rewrite <- Hob.
    + destruct ue_conn0 as [[H1 H2]|[? ->]]; [|done]. rewrite H1, H2, Hrr, Hsc. auto.
    + intros r3 Hr3. replace r3 with r1 by congruence. destruct ue_conn0 as [[H1 H2]|[H1 H2]]; rewrite H2.
      * rewrite H1, Hrr, Hsc. auto.
      * rewrite <- Hsc. auto.
Qed.

Lemma server_recv_down e c g s c' g' :
  down_inv c → srv c = Some s → env_fits (match rem c with None => sbuf s | Some r => rbuf r end) e →
  server_recv_cb para vpn listener e c g = Ret (c', g') → down_inv c'.
Proof.
  intros Hinv Hsrv (Hf & _) H. unfold server_recv_cb in H. rewrite Hsrv in H.
  destruct (e_recv e) as [l| | |] in H, Hf; [|injection H as <- <-; by eapply close_down| |injection H as <- <-; by eapply close_down].
  2: { by injection H as <- <-. }
  destruct (rem c) as [r|] eqn:Er.
  - apply bind_Ret_inv in H as (b & _ & H).
    destruct Hinv as [s0 ? E2|s0 r0 out E1 E2 Hst|? ? ? E1] eqn:EI; [congruence| |congruence]. clear EI.
    replace s0 with s in * by congruence. rewrite Hst in H. cbn [Z.eqb STAGE_STREAM Pos.eqb] in H.
    apply stream_branch_effect in H. eapply (down_after _ _ _ s r); try exact H; done.
  - destruct Hinv as [s0 E1 E2 Hno Hb Hc Hst Hl Hr Hg Hse|? ? ? ? E2|? ? ? E1] eqn:EI; [|congruence..]. clear EI.
    replace s0 with s in * by congruence. destruct Hf as [Hz Hbl].
    rewrite recv_size_spec in Hz by (unfold BUF_SIZE; lia).
    destruct (recv_into_spec (sbuf s) l Hb ltac:(lia) Hbl) as (b & Eb & _ & Hok & Hcap & _).
    rewrite Eb, bind_Ret in H. cbn [stage set_sbuf] in H. rewrite Hst in H. cbn [Z.eqb STAGE_INIT STAGE_STREAM] in H.
    apply init_branch_effect in H as (a & [(c2 & -> & H1 & H2)|(s2 & r2 & [])]); [| |done].
    + eapply close_down; [exact Hinv|by rewrite H1|by rewrite H2].
    + eapply (down_frame c); [exact Hinv|exact Hsrv|done|done|done|congruence|..]; try done.
      * by rewrite ue_sbuf0.
      * rewrite ue_sbuf0. simpl. lia.
      * destruct ue_conn0 as [[-> ->]|[? ->]]; done.
      * congruence.
Qed.

Lemma remote_send_down peer sr c g r c' g' :
  down_inv c → rem c = Some r → remote_send_cb (S:=S) peer sr c g = Ret (c', g') → down_inv c'.
Proof.
  intros Hinv Hrem H. unfold remote_send_cb in H. rewrite Hrem in H.
  destruct (srv c) as [s|] eqn:Hsrv; [|done].
  assert (Hst : stage s = STAGE_STREAM) by (destruct Hinv; congruence).
  assert (Hfl : ∀ r1, direct r1 = direct r →
     (rrecv_io r1 = rrecv_io r ∧ send_connected r1 = send_connected r) ∨ (send_connected r = false ∧ send_connected r1 = true) →
     remote_flush sr c g s r1 = Ret (c', g') → up_result c s r c').
  { intros r1 H1 H2 Hf. unfold remote_flush in Hf. destruct (_ =? 0) in Hf; [injection Hf as <- <-; up_res|].
    apply bind_Ret_inv in Hf as (out & _ & Hf).
    destruct sr as [n| |]; [destruct (n <? _) in Hf|..]; injection Hf as <- <-; up_res. }
  assert (up_result c s r c') as Hup.
  { destruct (negb (send_connected r)) eqn:Ec in H; [destruct peer|]; bool_hyps.
    - destruct (_ =? 0) in H; [injection H as <- <-; up_res|]. apply Hfl in H; try done. by right.
    - injection H as <- <-; up_res.
    - apply Hfl in H; try done. by left. }
  by eapply (down_after c s r s r).
Qed.

Lemma server_send_down sr c g s c' g' :
  down_inv c → srv c = Some s → ssend_io s = true → send_fits sr →
  server_send_cb (S:=S) sr c g = Ret (c', g') → down_inv c'.
Proof.
  intros Hinv Hsrv Hio Hf H. unfold server_send_cb in H. rewrite Hsrv in H.
  assert (Hcl : down_inv (close_both c)) by by eapply close_down.
  destruct Hinv as [s0 E1 E2 Hno|s0 r out E1 E2 Hst [F1 F2 F3 F4 F5] Hr Hw|? ? ? E1]; [congruence| |congruence].
  replace s0 with s in * by congruence. clear E1 s0. unfold pending_down in Hw. rewrite Hsrv, Hio in Hw.
  destruct (_ =? 0) in H; [by injection H as <- <-|]. rewrite mread_slice, bind_Ret in H by auto.
  destruct sr as [n| |]; [|injection H as <- <-|by injection H as <- <-].
  2: { eapply (down_stream _ s r); try done. unfold pending_down. by rewrite Hsrv, Hio. }
  destruct (n <? len (sbuf s)) eqn:En in H; bool_hyps.
  - injection H as <- <-. destruct (advance_slice (sbuf s) n (F5 Hio) ltac:(simpl in Hf; lia)) as [H1 H2].
    eapply (down_stream _ _ r); simpl; try done.
    + split; simpl; try done. split; apply H2.
    + unfold pending_down. cbn [srv ssend_io set_sbuf sbuf]. rewrite Hio, Hw, <- app_assoc.
      change (set_idx _ _) with (advance (sbuf s) n). by rewrite H1.
  - cbn [rem log_sent_client] in H. rewrite E2 in H. injection H as <- <-.
    pose proof (slice_length _ (F5 Hio)) as Hsl.
    eapply (down_stream _ _ _ out); simpl; try done.
    + split; simpl; try done.
      * intros _. apply F2. by right.
      * destruct F4 as [Hb Hc]. split; [by apply buffer_ok_empty|done].
    + unfold pending_down. simpl. rewrite app_nil_r, Hw, take_ge; [done|lia].
Qed.

(** What the client gets after a successful deobfuscation into [b]. *)
Section Deliver.
Context (c : conn) (s : server) (r : remote) (out : list Z).
Context (Hst : stage s = STAGE_STREAM) (Hio : ssend_io s = false) (Hconn : send_connected r = true).
Context (Hdir : direct r = false) (Hb : buffer_ok (sbuf s)) (Hc : BUF_SIZE ≤ capacity (sbuf s)).
Context (Hr : dec_rel para (sobfs s) (got_remote c) out) (Hw : out = sent_client c ++ content (sbuf s)).

Lemma deliver_wait c2 r' b :
  rrecv_io r' = false → send_connected r' = true → direct r' = false → sending b →
  got_remote c2 = got_remote c → sent_client c2 ++ slice b = out →
  down_inv (upd c2 (set_ssend_io (set_sbuf s b) true) r').
Proof using Hst Hr.
  intros H1 H2 H3 H4 H5 H6. eapply (down_stream _ _ r'); simpl; try done.
  - split; simpl; try done. split; apply H4.
  - by rewrite H5.
Qed.

Lemma deliver_all r' n :
  len (sbuf s) ≤ n → send_connected r' = true → direct r' = false →
  down_inv (upd (log_sent_client c (take (Z.to_nat n) (content (sbuf s)))) s r').
Proof using Hst Hio Hb Hc Hr Hw.
  intros H1 H2 H3. eapply (down_stream _ _ r' out); simpl; try done.
  - split; rewrite ?Hio; done.
  - unfold pending_down. simpl. by rewrite Hio, app_nil_r, sent_all, Hw.
Qed.
End Deliver.

Lemma remote_recv_down rr sr c g r c' g' :
  down_inv c → dec_safe para (got_remote c ++ recv_bytes rr) → rem c = Some r → rrecv_io r = true → recv_fits BUF_SIZE rr → send_fits sr →
  remote_recv_cb para rr sr c g = Ret (c', g') → down_inv c'.
Proof.
  intros Hinv Hsafe Hrem Hrr Hf Hfs H. unfold remote_recv_cb in H. rewrite Hrem in H.
  destruct (srv c) as [s|] eqn:Hsrv; [|done].
  assert (Hcl : ∀ c1, got_remote c `prefix_of` got_remote c1 → sent_client c1 = sent_client c → down_inv (close_both c1))
    by (intros; by eapply close_down).
  destruct Hinv as [s0 E1 E2 Hno|s0 r0 out E1 E2 Hst [F1 F2 F3 F4 F5] Hr Hw|? ? ? E1]; [congruence| |congruence].
  replace s0 with s in * by congruence. replace r0 with r in * by congruence. clear E1 E2 s0 r0.
  destruct (ssend_io s) eqn:Hss; [by specialize (F1 eq_refl); congruence|].
  unfold pending_down in Hw. rewrite Hsrv, Hss, app_nil_r in Hw. subst out.
  destruct rr as [l| | |]; [|by injection H as <- <-; apply Hcl|injection H as <- <-|by injection H as <- <-; apply Hcl].
  2: { eapply (down_stream _ s); simpl; try done.
       - split; simpl; try done; rewrite ?Hss; done.
       - unfold pending_down. simpl. by rewrite Hss, app_nil_r. }
  destruct Hf as [Hz Hbl]. destruct F4 as [Hb Hc].
  rewrite (mwrite_extend [] (data (sbuf s))), bind_Ret in H by (done || destruct Hb; lia).
  destruct (overwrite_ok (sbuf s) l Hb Hbl ltac:(lia)) as [Hcont Hok]. cbn [app] in H.
  set (b0 := set_len _ _) in *. cbn [direct set_rrecv_timer] in H. rewrite F3 in H. cbn [negb] in H. cbv match in H.
  cbn [sbuf set_sbuf sobfs] in H.
  cbn [recv_bytes] in Hsafe. rewrite <- Hcont in Hsafe.
  destruct (dec_response _ _ _ b0 (statics g) (gworld g) Hr Hsafe Hok ltac:(simpl; lia))
    as (err & b1 & o1 & st1 & w1 & Ed & Hd1).
  cbn [statics gworld add_rx] in H. rewrite Ed, !bind_Ret in H.
  destruct (err =? 0) eqn:Ee in H; cbn [negb] in H; bool_hyps; cbv match in H.
  2: { injection H as <- <-. apply Hcl; [by eexists|done]. }
  destruct (Hd1 Ee) as (Hok1 & Hcap1 & Hlen1 & Hd2). clear Hd1. rename Hd2 into Hd1. rewrite Hcont in Hd1. cbn [sbuf set_sobfs set_sbuf len] in H.
  rewrite mread_content, bind_Ret in H by done. rewrite s32_small in H by (destruct Hok1; lia).
  assert (BUF_SIZE ≤ capacity b1) as Hcap by (simpl in Hcap1; lia).
  set (c1 := log_got_remote _ _) in *. set (s1 := set_sobfs _ _) in *.
  assert (Hconn : send_connected r = true) by (apply F2; by left).
  assert (Hfc : ∀ x r1, send_connected (if negb x then set_recv_connected r1 true else r1) = send_connected r1
     ∧ direct (if negb x then set_recv_connected r1 true else r1) = direct r1
     ∧ rrecv_io (if negb x then set_recv_connected r1 true else r1) = rrecv_io r1) by by intros [].
  destruct sr as [n| |].
  - destruct (n <? len b1) eqn:En in H; bool_hyps; injection H as <- <-.
    + destruct (sent_part b1 n Hok1 Hcap ltac:(simpl in Hfs; lia)) as [H1 H2].
      apply (deliver_wait c1 s1 (sent_client c1 ++ content b1)); try done; [by edestruct Hfc as (? & ? & ?); etrans..|].
      simpl. by rewrite <- app_assoc, H1.
    + apply (deliver_all c1 s1 (sent_client c1 ++ content b1)); try done; by edestruct Hfc as (? & ? & ?); etrans.
  - injection H as <- <-.
    apply (deliver_wait c1 s1 (sent_client c1 ++ content b1)); try done; [by edestruct Hfc as (? & ? & ?); etrans..|].
    by apply sending_idx0.
  - injection H as <- <-. apply Hcl; [by eexists|done].
Qed.

(** What each callback adds to the bytes read from the remote. *)
Lemma remote_recv_got rr sr c g c' g' :
  remote_recv_cb para rr sr c g = Ret (c', g') → got_remote c' = got_remote c ++ recv_bytes rr.
Proof.
  unfold remote_recv_cb. intros H. destruct (rem c) as [r|]; [|done]. destruct (srv c) as [s|]; [|done].
  destruct rr as [l| | |]; [|by injection H as <- <-; rewrite app_nil_r..].
  apply bind_Ret_inv in H as (d & _ & H). apply bind_Ret_inv in H as ([[[err b] o] g1] & _ & H).
  destruct (negb _) in H; [by injection H as <- <-|]. apply bind_Ret_inv in H as (out & _ & H).
  destruct sr; [destruct (_ <? _) in H|..]; by injection H as <- <-.
Qed.

Lemma stream_branch_got e c g s r c' g' :
  stream_branch para vpn e c g s r = Ret (c', g') → got_remote c' = got_remote c.
Proof.
  unfold stream_branch, stream_connect, stream_send. intros H.
  apply bind_Ret_inv in H as ([[[b o] st] w] & _ & H).
  repeat (case_match; inv_binds; simplify_eq; try done).
Qed.

Lemma server_recv_got e c g c' g' :
  server_recv_cb para vpn listener e c g = Ret (c', g') → got_remote c' = got_remote c.
Proof.
  unfold server_recv_cb, init_branch. intros H.
  repeat (case_match; inv_binds; simplify_eq; try done);
    try (match goal with H : stream_branch _ _ _ _ _ _ _ = _ |- _ => by apply stream_branch_got in H end).
Qed.

Lemma cb_step_got c g c' g' : cb_step para vpn listener c g c' g' → got_remote c `prefix_of` got_remote c'.
Proof.
  intros [s e ? ? H1 H2 H3 H4|s sr ? ? H1 H2 H3 H4|r rr sr ? ? H1 H2 H3 H4 H5|r peer sr ? ? H1 H2 H3 H4|r ? ? H1 H2 H3].
  - by apply server_recv_got in H4 as ->.
  - unfold server_send_cb in H4. repeat (case_match; inv_binds; simplify_eq; try done).
  - apply remote_recv_got in H5 as ->. by apply prefix_app_r.
  - unfold remote_send_cb, remote_flush in H4. repeat (case_match; inv_binds; simplify_eq; try done).
  - unfold remote_timeout_cb in H3. rewrite H1 in H3. by injection H3 as <- <-.
Qed.

(** The invariant, as long as the remote sent what the decoder can be run on. *)
Definition safe_down_inv (c : conn) : Prop := dec_safe para (got_remote c) → down_inv c.

Lemma cb_step_down c g c' g' : safe_down_inv c → cb_step para vpn listener c g c' g' → safe_down_inv c'.
Proof.
  intros Hc Hstep Hsafe. pose proof (cb_step_got _ _ _ _ Hstep) as [k Hk].
  assert (Hd : down_inv c) by (apply Hc; rewrite Hk in Hsafe; by apply dec_safe_prefix in Hsafe). clear Hc k Hk.
  destruct Hstep as [s e ? ? H1 H2 H3 H4|s sr ? ? H1 H2 H3 H4|r rr sr ? ? H1 H2 H3 H4 H5|r peer sr ? ? H1 H2 H3 H4|r ? ? H1 H2 H3].
  - by eapply server_recv_down.
  - by eapply server_send_down.
  - eapply remote_recv_down; try done. by erewrite <- remote_recv_got.
  - by eapply remote_send_down.
  - unfold remote_timeout_cb in H3. rewrite H1 in H3. injection H3 as <- <-. by eapply close_down.
Qed.

Lemma loop_down cs g cs' g' :
  rtc (loop_step para vpn listener) (cs, g) (cs', g') → Forall safe_down_inv cs → Forall safe_down_inv cs'.
Proof.
  intros H. remember (cs, g) as x eqn:Ex. remember (cs', g') as y eqn:Ey.
  revert cs g Ex. induction H as [x|x y z Hxy _ IH]; intros cs g Ex Hcs; subst; [by injection Ex as <- <-|].
  inversion Hxy as [ok cs1 g1|cs1 g1 i c c' g2 Hi Hcb]; subst; eapply IH; try done.
  - unfold accept_cb. destruct ok; [|done]. apply Forall_app. split; [done|]. constructor; [|constructor]. intros _.
    eapply down_init; try done; [by apply balloc_ok|apply dec_init].
  - apply Forall_insert; [done|]. eapply cb_step_down; [|done]. by eapply Forall_lookup in Hi.
Qed.

(** C2: the server-to-client stream, for every protocol with a [Decoder] (no
    protocol, HTTP and TLS have one).  However the callbacks interleave and
    whatever the kernel answers, as long as the bytes read from the remote of a
    connection are such that the protocol's decoder can be run on them (any bytes
    without a protocol and with HTTP; with TLS, no handshake message announced
    longer than 32768 bytes and no record of 0x8000 bytes or more), the bytes
    handed to the client followed by those pending in [server->buf] are exactly
    what the protocol makes of the bytes read from the remote, in order; after a
    close, what was delivered is a prefix of it. *)
Theorem relay_down_stream g cs g' c :
  rtc (loop_step para vpn listener) ([], g) (cs, g') → c ∈ cs → dec_safe para (got_remote c) →
  (∀ s, srv c = Some s → dec_rel para (sobfs s) (got_remote c) (sent_client c ++ pending_down c)) ∧
  ∃ wire o p, wire `prefix_of` got_remote c ∧ dec_rel para o wire p ∧ sent_client c `prefix_of` p.
Proof.
  intros Hr Hc Hsafe. pose proof (loop_down _ _ _ _ Hr ltac:(constructor)) as Hinv.
  apply list_elem_of_In in Hc. rewrite Forall_forall in Hinv. specialize (Hinv c Hc Hsafe). split.
  - intros s Hs. destruct Hinv as [s0 E1 E2 Hno ? ? ? ? Hr0 Hg0 Hs0|s0 r out E1 E2 ? ? Hr0 Hw|]; [| |congruence];
      replace s0 with s in * by congruence.
    + unfold pending_down. by rewrite Hs, Hno, Hg0, Hs0.
    + by subst out.
  - apply (close_down c c) in Hinv; [|done..]. inversion Hinv; try done. simpl in *. eauto 10.
Qed.
End Down.

(** ** No callback faults *)
Section Safe.
Context {S : Type} (para : option (obfs_para S)) (vpn : bool) (listener : listen_ctx).
Context {E : Encoder para} {D : Decoder para}.
Context (Haddr : remote_addr listener ≠ []).

Definition returns {A} (m : outcome A) : Prop := ∃ a, m = Ret a.

Lemma returns_bind {A B} (m : outcome A) (f : A → outcome B) :
  returns m → (∀ a, m = Ret a → returns (f a)) → returns (m ≫= f).
Proof. intros (a & ->) H. simpl. by apply H. Qed.

Lemma stream_branch_returns e c g s r wire p :
  enc_rel para (sobfs s) p wire → enc_stat para (statics g) → buffer_ok (rbuf r) → len (rbuf r) ≤ BUF_SIZE →
  returns (stream_branch para vpn e c g s r).
Proof.
  intros Hr Hs Hb Hl. unfold stream_branch.
  destruct (enc_request _ _ _ (rbuf r) (statics g) (gworld g) Hr Hs Hb Hl) as (b & o & st & w & E1 & Hb' & _).
  cbn [statics gworld add_tx]. rewrite E1, bind_Ret. unfold stream_connect, stream_send.
  cbn [rbuf set_rbuf data set_idx len]. rewrite mread_content, !bind_Ret by done.
  repeat case_match; by eexists.
Qed.

Lemma create_remote_returns b (g : glob (S:=S)) :
  ∃ r w', create_remote listener b g = Ret (r, set_obfs_glob g (statics g) w') ∧
    (∀ r', r = Some r' → ∃ a, r' = new_remote (timeout listener) a).
Proof using All.
  unfold create_remote. destruct (rand (gworld g)) as [v w]. destruct (remote_addr listener) as [|a l] eqn:El; [done|].
  rewrite <- El. assert (0 < zlen (remote_addr listener)) by (rewrite El; simpl; lia). if_false.
  destruct (lookup_lt_is_Some_2 (remote_addr listener) (Z.to_nat (v mod zlen (remote_addr listener)))) as (x & ->).
  { pose proof (Z.mod_pos_bound v (zlen (remote_addr listener))). lia. }
  eexists _, w. split; [done|]. destruct b; [|done]. intros r' [= <-]. by eexists.
Qed.

Lemma server_recv_returns e c g s :
  up_inv para c → enc_stat para (statics g) → srv c = Some s → srecv_io s = true →
  env_fits (match rem c with None => sbuf s | Some r => rbuf r end) e →
  returns (server_recv_cb para vpn listener e c g).
Proof using All.
  intros Hinv Hs Hsrv Hio (Hf & _). unfold server_recv_cb. rewrite Hsrv.
  destruct (e_recv e) as [l| | |]; [|by eexists..].
  destruct Hinv as [s0 E1 E2 Hst _ _ Hb Hc Hl0 Hr Hg Hse|s0 r wire E1 E2 Hst Hsr Hsd Hlen Hl0 Hr Hw|]; [| |congruence];
    replace s0 with s in * by congruence; rewrite E2 in *; destruct Hf as [Hz Hbl].
  - rewrite recv_size_spec in Hz by (unfold BUF_SIZE; lia).
    destruct (recv_into_spec (sbuf s) l Hb ltac:(lia) Hbl) as (b & -> & Hcont & Hok & Hcap & Hlb & _).
    rewrite bind_Ret. cbn [stage set_sbuf]. rewrite Hst. cbn [Z.eqb STAGE_INIT STAGE_STREAM]. unfold init_branch.
    destruct (create_remote_returns (e_socket e) g) as ([r'|] & w' & -> & Ha); rewrite bind_Ret; [|by eexists].
    destruct (Ha r' eq_refl) as (a & ->). if_true. rewrite mread_content, bind_Ret by done.
    destruct (copy_spec b (content b) Hok eq_refl ltac:(lia)) as (d & Ed & Hc1 & Hok').
    cbn [rbuf new_remote]. rewrite Ed, !bind_Ret. eapply stream_branch_returns; simpl; try done. lia.
  - rewrite Hio in Hsr. destruct (rsend_io r) eqn:Ers; [done|]. specialize (Hl0 eq_refl).
    destruct Hsd as [Hb Hc Hf]. rewrite recv_size_spec in Hz by (unfold BUF_SIZE; lia).
    destruct (recv_into_spec (rbuf r) l Hb ltac:(lia) Hbl) as (b & -> & Hcont & Hok & Hcap & Hlb & _).
    rewrite bind_Ret, Hst. cbn [Z.eqb STAGE_STREAM Pos.eqb].
    eapply stream_branch_returns; simpl; try done. lia.
Qed.

Lemma server_send_returns sr c (g : glob (S:=S)) s :
  down_inv para c → srv c = Some s → ssend_io s = true → returns (server_send_cb sr c g).
Proof.
  intros Hinv Hsrv Hio. unfold server_send_cb. rewrite Hsrv.
  destruct Hinv as [s0 E1 E2 Hno|s0 r out E1 E2 Hst [F1 F2 F3 F4 F5] Hr Hw|? ? ? E1]; [congruence| |congruence].
  replace s0 with s in * by congruence. rewrite mread_slice, bind_Ret by auto. cbn [rem log_sent_client]. rewrite E2.
  repeat case_match; by eexists.
Qed.

Lemma remote_recv_returns rr sr c g r :
  down_inv para c → dec_safe para (got_remote c ++ recv_bytes rr) → rem c = Some r → recv_fits BUF_SIZE rr →
  returns (remote_recv_cb para rr sr c g).
Proof.
  intros Hinv Hsafe Hrem Hf. unfold remote_recv_cb. rewrite Hrem.
  destruct Hinv as [s0 E1 E2 Hno|s r0 out E1 E2 Hst [F1 F2 F3 F4 F5] Hr Hw|? ? ? E1 E2]; [congruence| |congruence].
  replace r0 with r in * by congruence. rewrite E1. destruct rr as [l| | |]; [|by eexists..].
  destruct Hf as [Hz Hbl]. destruct F4 as [Hb Hc].
  rewrite (mwrite_extend [] (data (sbuf s))), bind_Ret by (done || destruct Hb; lia).
  destruct (overwrite_ok (sbuf s) l Hb Hbl ltac:(lia)) as [Hcont Hok]. cbn [app].
  set (b0 := set_len _ _) in *. cbn [direct set_rrecv_timer]. rewrite F3. cbn [negb sbuf set_sbuf sobfs].
  cbn [recv_bytes] in Hsafe. rewrite <- Hcont in Hsafe.
  destruct (dec_response _ _ _ b0 (statics g) (gworld g) Hr Hsafe Hok ltac:(simpl; lia))
    as (err & b1 & o1 & st1 & w1 & Ed & Hd1).
  cbn [statics gworld add_rx]. rewrite Ed, !bind_Ret. cbn [sbuf set_sobfs set_sbuf len].
  destruct (err =? 0) eqn:Ee; cbn [negb]; [|by eexists]. bool_hyps. destruct (Hd1 Ee) as (Hok1 & _).
  rewrite mread_content, bind_Ret by done. repeat case_match; by eexists.
Qed.

Lemma remote_send_returns peer sr c (g : glob (S:=S)) r :
  up_inv para c → rem c = Some r → rsend_io r = true → returns (remote_send_cb peer sr c g).
Proof.
  intros Hinv Hrem Hio. unfold remote_send_cb. rewrite Hrem.
  destruct Hinv as [s0 E1 E2|s r0 wire E1 E2 Hst Hsr Hsd Hlen Hl0 Hr Hw|? ? ? E1 E2]; [congruence| |congruence].
  replace r0 with r in * by congruence. rewrite E1. unfold remote_flush.
  cbn [rbuf set_rrecv_io set_rrecv_timer set_rsend_timer set_send_connected].
  rewrite mread_slice, !bind_Ret by done. repeat case_match; by eexists.
Qed.

End Safe.
