(* ===== verification/LocalProtocols.v ===== *)
(** * The protocols of obfs-local as instances of the relay's interfaces

    Without obfuscation both directions are the identity.  HTTP and TLS encode the
    client-to-server direction and decode the other one: HTTP whatever the remote
    sends, TLS the streams [tls_safe] describes; on the others the decoder of the
    source leaves its buffer (see [deobfs_app_data_oversized]). *)
From stdpp Require Import relations.
From S2P Require Import Prelude Encrypt Obfs TlsFrame ObfsTls Base64 ObfsHttp Local LocalStream.

(** ** No protocol *)
#[export] Program Instance plain_encoder (S : Type) : Encoder (None : option (obfs_para S)) := {
  enc_rel _ p wire := p = wire;
  enc_stat _ := True }.
Next Obligation. done. Qed.
Next Obligation.
  intros S o p wire b st w -> _ Hb Hl. eexists _, _, _, _. split; [done|]. split_and!; try done.
  unfold BUF_SIZE in Hl. lia.
Qed.
Next Obligation. intros S o p wire b st w r b' o' st' w' -> _ [= <- <- <- <- <-]. done. Qed.

#[export] Program Instance plain_decoder (S : Type) : Decoder (None : option (obfs_para S)) := {
  dec_rel _ wire p := wire = p;
  dec_safe _ := True }.
Next Obligation. done. Qed.
Next Obligation. by intros. Qed.
Next Obligation. by intros. Qed.
Next Obligation.
  intros S o p wire b st w -> _ Hb Hl. eexists _, _, _, _, _. split; [done|]. intros _. split_and!; try done.
  unfold BUF_SIZE in Hl. lia.
Qed.
Next Obligation. intros S o p wire b st w b' o' st' w' -> [= <- <- <- <-]. done. Qed.

(** ** HTTP *)
Section Http.
Context (c : obfs_conf) (hst : list Z) (Hc : conf_ok c hst).

(** The header, then the payload. *)
Definition http_enc (o : option obfs_t) (p wire : list Z) : Prop :=
  match o with
  | None => False
  | Some o =>
      (obfs_stage o = 0 ∧ p = [] ∧ wire = []) ∨
      (obfs_stage o = 1 ∧ ∃ l0 ls, Forall plain l0 ∧ Forall line_ok ls ∧ wire = header_of l0 ls ++ p)
  end.

Lemma http_enc_request o p wire b st w :
  http_enc o p wire → versions_ok st → buffer_ok b → len b ≤ BUF_SIZE →
  ∃ b' o' st' w', obfuscate (Some (obfs_http c)) b o st w = Ret (b', o', st', w') ∧
    buffer_ok b' ∧ capacity b ≤ capacity b' ∧ len b' < 2 ^ 31 ∧ versions_ok st' ∧
    http_enc o' (p ++ content b) (wire ++ content b').
Proof using Hc.
  intros Ho Hv Hb Hl. destruct o as [o|]; [|done]. unfold BUF_SIZE in Hl. unfold obfuscate.
  destruct Ho as [(Hs & -> & ->)|(Hs & l0 & ls & H0 & Hls & ->)].
  - destruct (obfs_http_request_spec c hst b BUF_SIZE o st w Hc Hs Hb Hv)
      as (b' & st' & w' & major & minor & key & E & Hcont & Hb' & Hlen & Hcap & Hv' & Hls).
    cbn [obfs_request obfs_http]. rewrite E, bind_Ret. eexists _, _, _, _. split; [done|].
    split_and!; try done; [lia|]. right. split; [done|]. eexists _, _. split_and!; [|exact Hls|exact Hcont].
    apply request_line0_plain. by destruct Hc.
  - cbn [obfs_request obfs_http]. unfold obfs_http_request. rewrite Hs. cbn [Z.eqb negb].
    rewrite bind_Ret. eexists _, _, _, _. split; [done|]. split_and!; try done; [lia|].
    right. split; [done|]. exists l0, ls. by rewrite <- app_assoc.
Qed.

Lemma http_deobfs_stage b o st w r b' o' st' w' :
  deobfuscate (Some (obfs_http c)) b (Some o) st w = Ret (r, b', o', st', w') →
  ∃ o1, o' = Some o1 ∧ obfs_stage o1 = obfs_stage o ∧ st' = st.
Proof.
  unfold deobfuscate. cbn [deobfs_response obfs_http]. unfold lift_header, deobfs_http_header. intros H.
  apply bind_Ret_inv in H as ([[r1 b1] o1] & H1 & H). injection H as <- <- <- <- <-.
  destruct (negb _) in H1; [by injection H1 as <- <- <-; eauto|].
  destruct (find_blank_line _ _ _) as [[q n]|] in H1; [|by injection H1 as <- <- <-; eauto].
  apply bind_Ret_inv in H1 as (d & _ & H1). injection H1 as <- <- <-. by eauto.
Qed.

#[export] Instance http_encoder : Encoder (Some (obfs_http c)).
Proof using Hc.
  refine {| enc_rel := http_enc; enc_stat := versions_ok |}.
  - left. done.
  - apply http_enc_request.
  - intros o p wire b st w r b' o' st' w' Ho Hv H. destruct o as [o|]; [|done].
    apply http_deobfs_stage in H as (o1 & -> & Hs & ->). split; [|done]. unfold http_enc in *. by rewrite Hs.
Defined.

(** Everything up to the first empty line, then the payload. *)
Definition http_dec (o : option obfs_t) (wire p : list Z) : Prop :=
  match o with
  | None => False
  | Some o =>
      (deobfs_stage o = 0 ∧ wire = [] ∧ p = []) ∨
      (deobfs_stage o = 1 ∧ ∃ h, wire = h ++ CRLF ++ CRLF ++ p ∧
         ∀ j, blank_at wire (zlen wire) j → zlen h ≤ j)
  end.

(** More received bytes do not bring an earlier empty line. *)
Lemma http_dec_more o wire p x : http_dec o wire p → (∀ o', o = Some o' → deobfs_stage o' ≠ 0) → http_dec o (wire ++ x) (p ++ x).
Proof.
  destruct o as [o|]; [|done]. intros [(Hs & _)|(Hs & h & -> & Hmin)] Hne; [by destruct (Hne o eq_refl)|].
  right. split; [done|]. exists h. split; [by rewrite <- !app_assoc|].
  intros j Hj. destruct (Z.le_gt_cases (zlen h) j) as [|Hlt]; [done|]. apply Hmin.
  destruct Hj as (H1 & H2 & H3). split_and!; [done| |].
  - rewrite !length_app. change (length CRLF) with 2%nat. lia.
  - rewrite <- H3. assert (j + 4 ≤ zlen (h ++ CRLF ++ CRLF ++ p))
      by (rewrite !length_app; change (length CRLF) with 2%nat; lia).
    generalize dependent (h ++ CRLF ++ CRLF ++ p). intros m _ _ _ Hm.
    rewrite drop_app_le, take_app_le; [done|..]; rewrite ?length_drop; lia.
Qed.

Lemma deobfs_keeps_capacity b o r b' o' :
  deobfs_http_header b o = Ret (r, b', o') → capacity b' = capacity b.
Proof.
  unfold deobfs_http_header. intros H. destruct o as [o|]; [|by injection H as <- <- <-].
  destruct (negb _) in H; [by injection H as <- <- <-|].
  destruct (find_blank_line _ _ _) as [[q n]|] in H; [|by injection H as <- <- <-].
  apply bind_Ret_inv in H as (d & _ & H). by injection H as <- <- <-.
Qed.

#[export] Instance http_decoder : Decoder (Some (obfs_http c)).
Proof.
  refine {| dec_rel := http_dec; dec_safe _ := True |}.
  - left. done.
  - done.
  - done.
  - intros o wire p b st w Ho _ Hb Hl. destruct o as [o|]; [|done]. unfold BUF_SIZE in Hl.
    assert (H31 : len b < 2 ^ 31) by lia. unfold deobfuscate. cbn [deobfs_response obfs_http].
    destruct (decide (deobfs_stage o = 0)) as [Hs|Hs].
    + destruct Ho as [(_ & -> & ->)|(Hs1 & _)]; [|congruence].
      destruct (deobfs_http_header_cases b o Hb H31 Hs) as [(k & b' & Hk & Hmin & E & Hcont & Hb')|[_ E]];
        unfold lift_header; rewrite E, bind_Ret; eexists _, _, _, _, _; (split; [done|]).
      * pose proof (content_length b Hb) as Hz. pose proof (content_length b' Hb') as Hz'.
        assert (len b' ≤ len b) by (rewrite <- Hz', Hcont, length_drop; lia).
        pose proof (deobfs_keeps_capacity _ _ _ _ _ E) as Hcap.
        intros _. split_and!; [done|lia|lia|]. right. split; [done|].
        destruct Hk as (Hk0 & Hk1 & Hk2). exists (take (Z.to_nat k) (content b)). rewrite !app_nil_l.
        split; [|rewrite Hz, length_take; intros j Hj; apply Hmin in Hj; lia].
        rewrite Hcont. replace (Z.to_nat (k + 4)) with (Z.to_nat k + 4)%nat by lia.
        rewrite <- drop_drop, (app_assoc CRLF), <- Hk2, take_drop, take_drop. done.
      * done.
    + rewrite lift_header_stage1 by done. eexists _, _, _, _, _. split; [done|]. intros _. split_and!; try done.
      apply http_dec_more; [done|]. by intros ? [= <-].
  - intros o wire p b st w b' o' st' w' Ho H. destruct o as [o|]; [|done].
    unfold obfuscate in H. cbn [obfs_request obfs_http] in H.
    apply bind_Ret_inv in H as ([[[[r1 b1] o1] st1] w1] & H & H2). injection H2 as <- <- <- <-.
    assert (∃ n, o1 = Some (set_obfs_stage o n)) as (n & ->); [|done].
    unfold obfs_http_request in H.
    destruct (negb _) in H; [injection H as <- <- <- <- <-; exists (obfs_stage o); by destruct o|].
    destruct (pick _ _ _) as [? ?] in H. destruct (pick _ _ _) as [? ?] in H. destruct (host c) in H; [|done].
    destruct (random_key _) as [? ?] in H. apply bind_Ret_inv in H as (b2 & _ & H). injection H as <- <- <- <- <-. by eexists.
Defined.
End Http.

(** ** TLS *)
Section Tls.
Context (c : obfs_conf) (hst : list Z).
Context (Hhost : host c = Some hst) (Hbytes : bytes_ok hst) (Hshort : zlen hst < 65536).

(** The hello with the first payload in its ticket, then one record per payload. *)
Definition tls_enc (o : option obfs_t) (p wire : list Z) : Prop :=
  match o with
  | None => False
  | Some o =>
      (obfs_stage o = 0 ∧ p = [] ∧ wire = []) ∨
      (obfs_stage o = 1 ∧ ∃ rnd sid t p0 ps, zlen rnd = 28 ∧ zlen sid = 32 ∧
         p = p0 ++ concat ps ∧ wire = request_bytes hst rnd sid p0 t ++ concat (map record ps))
  end.

Lemma tls_enc_request o p wire b st w :
  tls_enc o p wire → statics_ok st → buffer_ok b → len b ≤ BUF_SIZE →
  ∃ b' o' st' w', obfuscate (Some (obfs_tls c)) b o st w = Ret (b', o', st', w') ∧
    buffer_ok b' ∧ capacity b ≤ capacity b' ∧ len b' < 2 ^ 31 ∧ statics_ok st' ∧
    tls_enc o' (p ++ content b) (wire ++ content b').
Proof using All.
  intros Ho Hv Hb Hl. destruct o as [o|]; [|done]. unfold BUF_SIZE in Hl. unfold obfuscate.
  pose proof (content_length b Hb) as Hz.
  destruct Ho as [(Hs & -> & ->)|(Hs & rnd & sid & t & p0 & ps & Hr & Hsid & -> & ->)].
  - destruct (obfs_tls_request_hello c hst b BUF_SIZE o st w Hb Hv Hhost Hbytes Hs)
      as (b' & st' & w' & E & Hcont & Hb' & Hv' & Hcap).
    pose proof (length_rand_bytes 28 w ltac:(lia) eq_refl) as Lr.
    pose proof (length_rand_bytes 32 (rand_bytes 28 w).2 ltac:(lia) eq_refl) as Ls.
    pose proof (content_length b' Hb') as Hz'. rewrite Hcont, request_bytes_length in Hz' by done.
    cbn [obfs_request obfs_tls]. rewrite E, bind_Ret. eexists _, _, _, _. split; [done|].
    split_and!; try done; [lia|]. right. split; [done|]. eexists _, _, _, (content b), [].
    split_and!; [exact Lr|exact Ls|by rewrite app_nil_r|]. rewrite app_nil_r. exact Hcont.
  - destruct (obfs_app_data_spec b BUF_SIZE Hb) as (b' & E & Hcont & Hb' & Hcap & _).
    pose proof (content_length b' Hb') as Hz'. rewrite Hcont in Hz'. unfold record in Hz'.
    rewrite !length_app in Hz'. simpl length in Hz'.
    cbn [obfs_request obfs_tls]. unfold obfs_tls_request. rewrite Hs. cbn [Z.eqb Z.ltb Z.compare Pos.eqb].
    rewrite E, !bind_Ret. eexists _, _, _, _. split; [done|]. split_and!; [done|lia|lia|done|].
    right. split; [done|]. exists rnd, sid, t, p0, (ps ++ [content b]).
    rewrite map_app, !concat_app, <- !app_assoc. simpl. rewrite !app_nil_r, Hcont. by split_and!.
Qed.

Lemma tls_deobfs_stage b o r b' o' :
  deobfs_tls_response b (Some o) = Ret (r, b', o') → ∃ o1, o' = Some o1 ∧ obfs_stage o1 = obfs_stage o.
Proof.
  unfold deobfs_tls_response. intros H.
  assert (Ha : obfs_stage (alloc_extra o) = obfs_stage o) by (unfold alloc_extra; by destruct (extra o)).
  assert (Hd : ∀ b0 i o0 r b' o', deobfs_app_data_obfs b0 i o0 = Ret (r, b', o') → ∃ o1, o' = Some o1 ∧ obfs_stage o1 = obfs_stage o0).
  { intros b0 i o0 r0 b0' o0' Hx. unfold deobfs_app_data_obfs in Hx. destruct (extra o0); [|done].
    apply bind_Ret_inv in Hx as ([[? ?] ?] & _ & Hx). injection Hx as <- <- <-. by eexists. }
  destruct (_ <? 0) in H; [by injection H as <- <- <-; eauto|].
  destruct (_ =? 0) in H.
  - destruct (_ <=? 0) in H; [by injection H as <- <- <-; eauto|]. apply bind_Ret_inv in H as (ct & _ & H).
    destruct (negb _) in H; [by injection H as <- <- <-; eauto|].
    destruct (_ <=? 0) in H; [by injection H as <- <- <-; eauto|].
    apply bind_Ret_inv in H as (ml & _ & H). apply bind_Ret_inv in H as (d & _ & H).
    destruct (_ <? _) in H; [apply Hd in H as (o1 & -> & H1); eexists; by rewrite H1|].
    injection H as <- <- <-. by eexists.
  - destruct (_ =? 1) in H; [apply Hd in H as (o1 & -> & H1); eexists; by rewrite H1|by injection H as <- <- <-; eauto].
Qed.

#[export] Instance tls_encoder : Encoder (Some (obfs_tls c)).
Proof using All.
  refine {| enc_rel := tls_enc; enc_stat := statics_ok |}.
  - left. done.
  - apply tls_enc_request.
  - intros o p wire b st w r b' o' st' w' Ho Hv H. destruct o as [o|]; [|done].
    unfold deobfuscate in H. cbn [deobfs_response obfs_tls] in H. unfold lift_deobfs in H.
    apply bind_Ret_inv in H as ([[r1 b1] o1] & H1 & H). injection H as <- <- <- <- <-.
    apply tls_deobfs_stage in H1 as (o1' & -> & Hs). split; [|done]. unfold tls_enc in *. by rewrite Hs.
Defined.
End Tls.

(** ** Decoding TLS *)
Section TlsDecode.
Context (c : obfs_conf).

(** The length that the third record of the handshake announces: the bytes of
    that record come first in the payload. *)
Definition tls_message_len (wire : list Z) : Z := of_be16 (nth 105 wire 0) (nth 106 wire 0).

(** The reference decoder on everything after the 107 bytes of the handshake. *)
Definition tls_decode (wire : list Z) : outcome (option (list Z * frame)) :=
  dec_stream (mkframe (- tls_message_len wire) 0 [0; 0]) (drop 107 wire).

(** The bytes [deobfs_tls_response] can be run on: the message announced in the
    handshake is at most 32768 bytes long, and the reference decoder meets no
    record of 0x8000 bytes or more, which a [short] holds as a negative length. *)
Definition tls_safe (wire : list Z) : Prop :=
  107 < zlen wire → tls_message_len wire ≤ 32768 ∧ tls_decode wire ≠ Fault.

(** A handshake record, then what the reference decoder makes of the rest. *)
Definition tls_dec (o : option obfs_t) (wire p : list Z) : Prop :=
  match o with
  | None => False
  | Some o =>
      (fresh_decoder o ∧ wire = [] ∧ p = []) ∨
      (107 < zlen wire ∧ head wire = Some 0x16 ∧ ∃ f, streaming o f ∧ tls_decode wire = Ret (Some (p, f)))
  end.

Lemma tls_message_len_app wire x : 107 < zlen wire → tls_message_len (wire ++ x) = tls_message_len wire.
Proof. intros H. unfold tls_message_len. by rewrite !app_nth1 by lia. Qed.

Lemma tls_decode_app wire x : 107 < zlen wire → tls_decode (wire ++ x) = (tls_decode wire ≫= then_dec x).
Proof.
  intros H. unfold tls_decode. rewrite tls_message_len_app, drop_app_le by lia. apply dec_stream_app.
Qed.

Lemma tls_safe_prefix x y : tls_safe (x ++ y) → tls_safe x.
Proof.
  intros H Hx. rewrite <- (tls_message_len_app x y) by done.
  destruct (H ltac:(rewrite length_app; lia)) as [H1 H2]. split; [done|]. intros E. apply H2.
  by rewrite tls_decode_app, E.
Qed.

(** The parts of a buffer that holds the whole handshake. *)
Lemma handshake_parts (l : list Z) : 107 < zlen l → ∃ t x mh ml body,
  l = t :: x ++ mh :: ml :: body ∧ zlen x = 104 ∧ body ≠ [] ∧
  tls_message_len l = of_be16 mh ml ∧ drop 107 l = body.
Proof.
  intros H. destruct l as [|t l]; [done|]. exists t, (take 104 l).
  assert (Hx : length (take 104 l) = 104%nat) by (rewrite length_take; cbn [length] in H; lia).
  destruct (drop 104 l) as [|mh [|ml body]] eqn:Ed.
  1,2: apply (f_equal length) in Ed; rewrite length_drop in Ed; cbn [length] in *; lia.
  exists mh, ml, body. assert (El : l = take 104 l ++ mh :: ml :: body) by (by rewrite <- Ed, take_drop).
  assert (Hb : body ≠ []).
  { intros ->. rewrite El in H. cbn [length] in H. rewrite length_app, Hx in H. cbn [length] in H. lia. }
  rewrite El at 1. split_and!; [done|lia|done| |].
  - unfold tls_message_len. change (nth 105 (t :: l) 0) with (nth 104 l 0). change (nth 106 (t :: l) 0) with (nth 105 l 0).
    rewrite El, !app_nth2 by lia. by rewrite Hx.
  - change (drop 107 (t :: l)) with (drop 106 l). rewrite El, drop_app_ge, Hx by lia. done.
Qed.

Lemma deobfs_tls_capacity b o r b' o' : deobfs_tls_response b o = Ret (r, b', o') → capacity b' = capacity b.
Proof.
  assert (Hd : ∀ b0 i o0 r b' o', deobfs_app_data_obfs b0 i o0 = Ret (r, b', o') → capacity b' = capacity b0).
  { intros b0 i o0 r0 b1 o1 E. unfold deobfs_app_data_obfs, deobfs_app_data in E.
    repeat (case_match; inv_binds; simplify_eq; try done). }
  unfold deobfs_tls_response. intros E.
  repeat (case_match; inv_binds; simplify_eq; try done); by apply Hd in E.
Qed.

Lemma dec_byte_len f ch o f' : dec_byte f ch = Ret (Some (o, f')) → (length o ≤ 1)%nat.
Proof. unfold dec_byte. intros E. repeat (case_match; simplify_eq; cbn; try lia). Qed.

Lemma dec_stream_len cs f o f' : dec_stream f cs = Ret (Some (o, f')) → (length o ≤ length cs)%nat.
Proof.
  revert f o. induction cs as [|ch cs IH]; intros f o E; cbn in E; [by injection E as <- <-|].
  apply bind_Ret_inv in E as ([[o1 f1]|] & E1 & E); [|done]. apply bind_Ret_inv in E as ([[o2 f2]|] & E2 & E); [|done].
  injection E as <- <-. apply dec_byte_len in E1. apply IH in E2. rewrite length_app. cbn. lia.
Qed.

(** Before the handshake is complete, or when it is none, the decoder refuses. *)
Lemma deobfs_tls_refuses b o :
  buffer_ok b → len b < 2 ^ 31 → fresh_decoder o → zlen (content b) ≤ 107 ∨ head (content b) ≠ Some 0x16 →
  ∃ r b' o', deobfs_tls_response b (Some o) = Ret (r, b', o') ∧ r ≠ 0.
Proof.
  intros Hb Hl Hf Hbad. destruct (alloc_extra_fresh o Hf) as [He Hs]. destruct Hf as [Hst _].
  pose proof (content_length b Hb) as Hz. pose proof (ok_len b Hb) as Hle.
  unfold deobfs_tls_response, sizeof_server_hello, sizeof_change_cipher_spec, sizeof_encrypted_handshake.
  rewrite Hst, Hs, s32_small by lia. ifs.
  destruct (len b - 96 <=? 0) eqn:E1; bool_hyps; [by eexists _, _, _|].
  destruct (content b) as [|t l] eqn:Ec; [cbn in Hz; lia|].
  assert (G0 : mget (data b) 0 = Ret t) by (by rewrite (data_split b), Ec).
  rewrite G0, bind_Ret. destruct (t =? sh_content_type tls_server_hello_template) eqn:Et; cbn [negb]; [|by eexists _, _, _].
  apply Z.eqb_eq in Et. destruct Hbad as [Hbad|Hbad]; [|by destruct Hbad; rewrite Et].
  cbn [head] in Hbad. if_true. by eexists _, _, _.
Qed.

Lemma tls_dec_response o wire p b :
  tls_dec (Some o) wire p → tls_safe (wire ++ content b) → buffer_ok b → len b ≤ BUF_SIZE →
  ∃ r b' o', deobfs_tls_response b (Some o) = Ret (r, b', o') ∧
    (r = 0 → buffer_ok b' ∧ capacity b ≤ capacity b' ∧ len b' < 2 ^ 31 ∧
       tls_dec o' (wire ++ content b) (p ++ content b')).
Proof.
  intros Ho Hsafe Hb Hl. unfold BUF_SIZE in Hl. pose proof (content_length b Hb) as Hz.
  assert (Hcap : ∀ r b' o' out, deobfs_tls_response b (Some o) = Ret (r, b', o') → buffer_ok b' → content b' = out →
    (length out ≤ length (content b))%nat → capacity b ≤ capacity b' ∧ len b' < 2 ^ 31).
  { intros r b' o' out E Hb' Hc Hlen. apply deobfs_tls_capacity in E as ->.
    pose proof (content_length b' Hb') as Hz'. rewrite Hc in Hz'. lia. }
  destruct Ho as [(Hf & -> & ->)|(Hw & Hh & f & (Hst & He & Hok) & Hdec)].
  - rewrite !app_nil_l in *.
    destruct (decide (107 < zlen (content b))) as [H107|H107]; [destruct (decide (head (content b) = Some 0x16)) as [H16|H16]|].
    2,3: destruct (deobfs_tls_refuses b o Hb ltac:(lia) Hf) as (r & b' & o' & -> & Hr); [lia || by right|by eexists _, _, _].
    destruct (handshake_parts _ H107) as (t & x & mh & ml & body & Hc & Hx & Hne & Hm & Hdrop).
    assert (t = 0x16) as -> by (rewrite Hc in H16; by injection H16).
    destruct (Hsafe H107) as [Hml Hnf]. unfold tls_decode in Hnf. rewrite Hm, Hdrop in Hnf.
    assert (0 ≤ of_be16 mh ml).
    { pose proof (content_ok b Hb) as Hby. rewrite Hc in Hby. change (_ :: x ++ _) with ([0x16] ++ x ++ [mh; ml] ++ body) in Hby.
      rewrite !bytes_ok_app in Hby. destruct Hby as (_ & _ & Hby & _). inversion Hby as [|?? Hmh Hby']; subst.
      inversion Hby' as [|?? Hml' _]; subst. unfold is_byte in *. unfold of_be16. lia. }
    pose proof (deobfs_tls_response_hello b o x mh ml body Hb Hf ltac:(lia) Hc Hx Hne ltac:(lia)) as H1.
    destruct (dec_stream _ body) as [[[out f']|]| |] eqn:Ed; [| |done..].
    + destruct H1 as (b' & o' & E & Hc' & Hb' & Hs). eexists _, _, _. split; [exact E|]. intros _.
      destruct (Hcap _ _ _ _ E Hb' Hc') as [H2 H3].
      { apply dec_stream_len in Ed. rewrite Hc. cbn [length]. rewrite length_app. cbn [length]. lia. }
      split_and!; [done..|]. right. split_and!; [done..|]. exists f'. split; [done|]. rewrite app_nil_l, Hc'.
      unfold tls_decode. by rewrite Hm, Hdrop.
    + destruct H1 as (b' & o' & E). by eexists _, _, _.
  - destruct (Hsafe ltac:(rewrite length_app; lia)) as [_ Hnf]. rewrite tls_decode_app, Hdec in Hnf by done. cbn in Hnf.
    assert (Hd : deobfs_tls_response b (Some o) = deobfs_app_data_obfs b 0 o).
    { unfold deobfs_tls_response, alloc_extra. by rewrite He, Hst. }
    pose proof (deobfs_app_data_obfs_dec b 0 o f Hb Hok He ltac:(destruct Hb; lia)) as H1.
    rewrite drop_0, take_0 in H1. destruct (dec_stream f (content b)) as [[[x f']|]| |] eqn:Ed; [| |done..].
    + destruct H1 as (b' & E & Hc' & Hb' & Hok'). rewrite <- Hd in E. eexists _, _, _. split; [exact E|]. intros _.
      destruct (Hcap _ _ _ _ E Hb' Hc') as [H2 H3]; [by apply dec_stream_len in Ed|].
      split_and!; [done..|]. right. split_and!; [rewrite length_app; lia|by destruct wire|].
      exists f'. split; [by split_and!|]. rewrite tls_decode_app, Hdec by done. cbn. by rewrite Ed, Hc'.
    + destruct H1 as (b' & o' & E). rewrite <- Hd in E. by eexists _, _, _.
Qed.

(** Encoding touches neither the stage nor the frame of the decoder. *)
Lemma tls_request_keeps b cap o st w r b' o' st' w' :
  obfs_tls_request c b cap (Some o) st w = Ret (r, b', o', st', w') → ∃ n, o' = Some (set_obfs_stage o n).
Proof.
  assert (Ho : Some o = Some (set_obfs_stage o (obfs_stage o))) by by destruct o.
  unfold obfs_tls_request. intros E. destruct (_ <? 0) in E; [injection E as <- <- <- <- <-; eauto|].
  destruct (_ =? 0) in E.
  - destruct (host c) as [h|] in E; [|done].
    apply bind_Ret_inv in E as (? & _ & E). apply bind_Ret_inv in E as (? & _ & E).
    destruct (rand_bytes 28 w) as [rnd w1]. destruct (rand_bytes 32 w1) as [sid w2].
    repeat (apply bind_Ret_inv in E as (? & _ & E)). injection E as <- <- <- <- <-. eauto.
  - destruct (_ =? 1) in E; [apply bind_Ret_inv in E as ([] & _ & E)|]; injection E as <- <- <- <- <-; eauto.
Qed.

#[export] Instance tls_decoder : Decoder (Some (obfs_tls c)).
Proof.
  refine {| dec_rel := tls_dec; dec_safe := tls_safe |}.
  - left. split; [|done]. split; [done|by left].
  - intros H. by cbn in H.
  - apply tls_safe_prefix.
  - intros o wire p b st w Ho Hsafe Hb Hl. destruct o as [o|]; [|done].
    destruct (tls_dec_response o wire p b Ho Hsafe Hb Hl) as (r & b' & o' & E & H).
    exists r, b', o', st, w. split; [|done]. unfold deobfuscate. cbn [deobfs_response obfs_tls]. unfold lift_deobfs.
    by rewrite E.
  - intros o wire p b st w b' o' st' w' Ho H. destruct o as [o|]; [|done].
    unfold obfuscate in H. cbn [obfs_request obfs_tls] in H.
    apply bind_Ret_inv in H as ([[[[r1 b1] o1] st1] w1] & H & H2). injection H2 as <- <- <- <-.
    by apply tls_request_keeps in H as (n & ->).
Defined.
End TlsDecode.

(** ** A concrete run: an HTTP connection, partly sent, with a first response *)
Lemma demo_conf_ok : conf_ok http_demo_conf (bytes "example.com").
Proof. split; [reflexivity|by apply plainb_ok|by apply plainb_ok|by vm_compute|by vm_compute]. Qed.

Definition demo_para : option (obfs_para http_statics) := Some (obfs_http http_demo_conf).
Definition demo_listener : listen_ctx := mklisten [mkaddr true [10; 0; 0; 1]] 60.
Definition demo_glob : glob := mkglob http_statics_init http_demo_world 0 0 false.
Definition demo_conn0 : conn := mkconn (Some (set_srecv_io (new_server demo_para) true)) None [] [] [] [].
Definition ret_or {A} (d : A) (m : outcome A) : A := match m with Ret a => a | _ => d end.
Definition demo_env : recv_env := mkrecv (RecvData (bytes "ab")) true true ConnInProgress FastError SendAgain.
Definition demo1 : conn * glob :=
  ret_or (demo_conn0, demo_glob) (server_recv_cb demo_para false demo_listener demo_env demo_conn0 demo_glob).
Definition demo2 : conn * glob := ret_or demo1 (remote_send_cb true (SendN 100) demo1.1 demo1.2).
Definition demo_answer : list Z := bytes "HTTP/1.1 101 Switching Protocols" ++ CRLF ++ CRLF ++ bytes "xyz".
Definition demo3 : conn * glob :=
  ret_or demo2 (remote_recv_cb demo_para (RecvData demo_answer) (SendN 1) demo2.1 demo2.2).

Definition rem_of (c : conn) : remote := default (new_remote 0 (mkaddr true [])) (rem c).

Lemma demo_run : rtc (loop_step demo_para false demo_listener) ([], demo_glob) ([demo3.1], demo3.2).
Proof.
  eapply rtc_l; [apply (step_accept _ _ _ true)|].
  eapply rtc_l; [eapply (step_conn _ _ _ _ _ 0%nat demo_conn0 demo1.1 demo1.2); [reflexivity|]|].
  { eapply (step_server_recv _ _ _ _ _ (set_srecv_io (new_server demo_para) true) demo_env); [reflexivity..| |].
    - split; [|done]. split; [by vm_compute|by apply bytes_okb_ok].
    - vm_compute. reflexivity. }
  eapply rtc_l; [eapply (step_conn _ _ _ _ _ 0%nat demo1.1 demo2.1 demo2.2); [reflexivity|]|].
  { eapply (step_remote_send _ _ _ _ _ (rem_of demo1.1) true (SendN 100));
      [vm_compute; reflexivity|vm_compute; reflexivity|by simpl|vm_compute; reflexivity]. }
  eapply rtc_l; [eapply (step_conn _ _ _ _ _ 0%nat demo2.1 demo3.1 demo3.2); [reflexivity|]|reflexivity].
  eapply (step_remote_recv _ _ _ _ _ (rem_of demo2.1) (RecvData demo_answer) (SendN 1));
    [vm_compute; reflexivity|vm_compute; reflexivity| |by simpl|vm_compute; reflexivity].
  - split; [by vm_compute|by apply bytes_okb_ok].
Qed.

Lemma demo_versions : versions_ok http_statics_init.
Proof. by split. Qed.

Lemma relay_up_stream_witness :
  (∀ s, srv demo3.1 = Some s → http_enc (sobfs s) (bytes "ab") (sent_remote demo3.1 ++ pending_up demo3.1)) ∧
  zlen (sent_remote demo3.1) = 100.
Proof.
  split; [|vm_compute; reflexivity]. intros s Hs.
  assert (got_client demo3.1 = bytes "ab") as <- by (vm_compute; reflexivity).
  refine (proj1 (relay_up_stream (E := http_encoder http_demo_conf (bytes "example.com") demo_conf_ok)
    demo_para false demo_listener demo_glob [demo3.1] demo3.2 demo3.1 _ demo_run _) s Hs).
  - exact demo_versions.
  - apply list_elem_of_singleton. reflexivity.
Defined.

(** The same run over TLS, with the answer of a server that sends two payloads. *)
Definition tls_para : option (obfs_para tls_statics) := Some (obfs_tls demo_conf).
Definition tls_glob : glob := mkglob tls_statics_init demo_world 0 0 false.
Definition tls_conn0 : conn := mkconn (Some (set_srecv_io (new_server tls_para) true)) None [] [] [] [].
Definition tls1 : conn * glob :=
  ret_or (tls_conn0, tls_glob) (server_recv_cb tls_para false demo_listener demo_env tls_conn0 tls_glob).
Definition tls2 : conn * glob := ret_or tls1 (remote_send_cb true (SendN 100) tls1.1 tls1.2).
Definition tls3 : conn * glob :=
  ret_or tls2 (remote_recv_cb tls_para (RecvData demo_wire) (SendN 1) tls2.1 tls2.2).

Lemma tls_run : rtc (loop_step tls_para false demo_listener) ([], tls_glob) ([tls3.1], tls3.2).
Proof.
  eapply rtc_l; [apply (step_accept _ _ _ true)|].
  eapply rtc_l; [eapply (step_conn _ _ _ _ _ 0%nat tls_conn0 tls1.1 tls1.2); [reflexivity|]|].
  { eapply (step_server_recv _ _ _ _ _ (set_srecv_io (new_server tls_para) true) demo_env); [reflexivity..| |].
    - split; [|done]. split; [by vm_compute|by apply bytes_okb_ok].
    - vm_compute. reflexivity. }
  eapply rtc_l; [eapply (step_conn _ _ _ _ _ 0%nat tls1.1 tls2.1 tls2.2); [reflexivity|]|].
  { eapply (step_remote_send _ _ _ _ _ (rem_of tls1.1) true (SendN 100));
      [vm_compute; reflexivity|vm_compute; reflexivity|by simpl|vm_compute; reflexivity]. }
  eapply rtc_l; [eapply (step_conn _ _ _ _ _ 0%nat tls2.1 tls3.1 tls3.2); [reflexivity|]|reflexivity].
  eapply (step_remote_recv _ _ _ _ _ (rem_of tls2.1) (RecvData demo_wire) (SendN 1));
    [vm_compute; reflexivity|vm_compute; reflexivity| |by simpl|vm_compute; reflexivity].
  - split; [by vm_compute|apply bytes_okb_ok; by vm_compute].
Qed.

Lemma demo_wire_safe : tls_safe demo_wire.
Proof. intros _. split; vm_compute; discriminate. Qed.

Lemma relay_down_stream_witness :
  (∀ s, srv tls3.1 = Some s → tls_dec (sobfs s) demo_wire (sent_client tls3.1 ++ pending_down tls3.1)) ∧
  sent_client tls3.1 = [1] ∧ pending_down tls3.1 = [2; 3; 4; 5].
Proof.
  split; [|split; vm_compute; reflexivity]. intros s Hs.
  assert (got_remote tls3.1 = demo_wire) as Hg by (vm_compute; reflexivity). rewrite <- Hg.
  refine (proj1 (relay_down_stream (D := tls_decoder demo_conf)
    tls_para false demo_listener tls_glob [tls3.1] tls3.2 tls3.1 tls_run _ _) s Hs).
  - apply list_elem_of_singleton. reflexivity.
  - rewrite Hg. exact demo_wire_safe.
Defined.

Lemma demo_host : host demo_conf = Some (bytes "example.com") ∧ bytes_ok (bytes "example.com") ∧ zlen (bytes "example.com") < 65536.
Proof. split_and!; [done|by apply bytes_okb_ok|by vm_compute]. Qed.


(** A response header must arrive in one piece. When the first bytes from the
    remote hold no empty line yet (a header cut by the network), [deobfs_http_header]
    answers -1, the value of [OBFS_NEED_MORE], and [remote_recv_cb] treats it like any
    error: the connection is closed instead of waiting for the rest. *)
Theorem incomplete_response_closes cf c s r o l sr g :
  srv c = Some s → rem c = Some r → direct r = false → buffer_ok (sbuf s) → BUF_SIZE ≤ capacity (sbuf s) →
  sobfs s = Some o → deobfs_stage o = 0 →
  0 < zlen l ≤ BUF_SIZE → bytes_ok l → (∀ k, ¬ blank_at l (zlen l) k) →
  ∃ c' g', remote_recv_cb (Some (obfs_http cf)) (RecvData l) sr c g = Ret (c', g') ∧
           srv c' = None ∧ rem c' = None.
Proof.
  intros Hs Hr Hd Hb Hc Ho Hst Hz Hbl Hno. unfold remote_recv_cb. rewrite Hs, Hr.
  rewrite (mwrite_extend [] (data (sbuf s))), bind_Ret by (done || destruct Hb; lia).
  destruct (overwrite_ok (sbuf s) l Hb Hbl ltac:(lia)) as [Hcont Hok]. cbn [app].
  set (b0 := set_len _ _) in *. cbn [direct set_rrecv_timer]. rewrite Hd. cbn [negb sbuf set_sbuf sobfs].
  rewrite Ho. unfold deobfuscate. cbn [deobfs_response obfs_http]. unfold lift_header.
  destruct (deobfs_http_header_cases b0 o Hok ltac:(unfold BUF_SIZE in Hz; simpl; lia) Hst)
    as [(k & b' & Hk & _)|[_ E]].
  - rewrite Hcont in Hk. by apply Hno in Hk.
  - rewrite E, !bind_Ret. cbn [Z.eqb negb]. by eexists _, _.
Qed.

Lemma incomplete_response_closes_witness :
  ∃ c' g', remote_recv_cb demo_para (RecvData (take 20 demo_answer)) (SendN 0) demo2.1 demo2.2 = Ret (c', g') ∧
           srv c' = None ∧ rem c' = None.
Proof.
  apply (incomplete_response_closes http_demo_conf demo2.1 (default (new_server demo_para) (srv demo2.1))
    (rem_of demo2.1) (set_obfs_stage obfs_zero 1)); [vm_compute; reflexivity..| | | | | | |].
  - apply buffer_okb_ok. vm_compute. reflexivity.
  - vm_compute. discriminate.
  - vm_compute. reflexivity.
  - reflexivity.
  - vm_compute. split; [reflexivity|discriminate].
  - by apply bytes_okb_ok.
  - intros k Hk. pose proof (find_blank_line_spec (take 20 demo_answer) (zlen (take 20 demo_answer)) 0 ltac:(lia)) as F.
    vm_compute (find_blank_line _ _ _) in F. exact (F k Hk).
Defined.
