(* ===== verification/ChunkBuffer.v ===== *)
(** * badvpn structure/ChunkBuffer2.h and flow/PacketBuffer.c

    A circular buffer of packets in an array of 4-byte blocks: each packet is one
    block with its length (an [int]) and then its bytes, never split at the end of
    the array. [mem] is the array as bytes; [input_dest]/[output_dest] are byte
    offsets into it ([None] for NULL). The build defines NDEBUG, so the assertions
    are not executed; here they are the functions [assert_buffer] and [assert_io],
    proved to hold after every operation. *)
From S2P Require Import Prelude Encrypt.

Definition INT_MAX : Z := 2 ^ 31 - 1.
Definition sizeof_block : Z := 4.

Definition bdivide_up (a b : Z) : Z := let r := a mod b in if 0 <? r then a / b + 1 else a / b.

Record ChunkBuffer2 := mkcb {
  mem : list Z;
  size : Z; wrap : Z; start : Z; used : Z; mtu : Z;
  input_dest : option Z; input_avail : Z;
  output_dest : option Z; output_avail : Z }.

Definition set_pos (b : ChunkBuffer2) (wr st us : Z) : ChunkBuffer2 :=
  mkcb (mem b) (size b) wr st us (mtu b) (input_dest b) (input_avail b) (output_dest b) (output_avail b).
Definition set_mem (b : ChunkBuffer2) (m : list Z) : ChunkBuffer2 :=
  mkcb m (size b) (wrap b) (start b) (used b) (mtu b) (input_dest b) (input_avail b) (output_dest b) (output_avail b).
Definition set_input (b : ChunkBuffer2) (d : option Z) (n : Z) : ChunkBuffer2 :=
  mkcb (mem b) (size b) (wrap b) (start b) (used b) (mtu b) d n (output_dest b) (output_avail b).
Definition set_output (b : ChunkBuffer2) (d : option Z) (n : Z) : ChunkBuffer2 :=
  mkcb (mem b) (size b) (wrap b) (start b) (used b) (mtu b) (input_dest b) (input_avail b) d n.

(** Reading and writing [buffer[i].len]. *)
Definition of_le32 (l : list Z) : Z :=
  match l with [b0; b1; b2; b3] => s32 (b0 + 256 * (b1 + 256 * (b2 + 256 * b3))) | _ => 0 end.
Definition get_len (m : list Z) (i : Z) : outcome Z := l ← mread m (i * sizeof_block) 4; Ret (of_le32 l).
Definition put_len (m : list Z) (i len : Z) : outcome (list Z) := mwrite m (i * sizeof_block) (le32 len).

Definition ChunkBuffer2_end (b : ChunkBuffer2) : Z :=
  if wrap b - start b <=? used b then used b - (wrap b - start b) else start b + used b.

(** The pair the input fields are set to. *)
Definition input_of (b : ChunkBuffer2) : option Z * Z :=
  let e := ChunkBuffer2_end b in
  if size b - e - 1 <? mtu b then (None, -1)
  else
    let free := if wrap b - start b <=? used b then start b - e else size b - e in
    if 0 <? free then (Some ((e + 1) * sizeof_block), s32 ((free - 1) * sizeof_block)) else (None, -1).
Definition ChunkBuffer2_update_input (b : ChunkBuffer2) : ChunkBuffer2 :=
  set_input b (input_of b).1 (input_of b).2.

Definition ChunkBuffer2_update_output (b : ChunkBuffer2) : outcome ChunkBuffer2 :=
  if 0 <? used b then
    datalen ← get_len (mem b) (start b);
    Ret (set_output b (Some ((start b + 1) * sizeof_block)) datalen)
  else Ret (set_output b None (-1)).

Definition ChunkBuffer2_calc_blocks (chunk_len num : Z) : Z :=
  let chunk_data_blocks := s32 (bdivide_up chunk_len sizeof_block) in
  if INT_MAX - 1 <? chunk_data_blocks then -1
  else
    let chunk_blocks := 1 + chunk_data_blocks in
    if INT_MAX - 1 <? num then -1
    else
      let num_chunks := num + 1 in
      if INT_MAX / num_chunks <? chunk_blocks then -1 else chunk_blocks * num_chunks.

Definition ChunkBuffer2_Init (m : list Z) (blocks mtu : Z) : outcome ChunkBuffer2 :=
  let b := mkcb m blocks blocks 0 0 (s32 (bdivide_up mtu sizeof_block)) None 0 None 0 in
  ChunkBuffer2_update_output (ChunkBuffer2_update_input b).

Definition ChunkBuffer2_SubmitPacket (b : ChunkBuffer2) (len : Z) : outcome ChunkBuffer2 :=
  let e := ChunkBuffer2_end b in
  let blocklen := bdivide_up len sizeof_block in
  m ← put_len (mem b) e len;
  let b := set_mem b m in
  let used' := used b + (1 + blocklen) in
  let wrap' := if (used' <=? wrap b - start b) && (size b - (e + 1 + blocklen) - 1 <? mtu b)
               then e + 1 + blocklen else wrap b in
  let b := ChunkBuffer2_update_input (set_pos b wrap' (start b) used') in
  if used b =? 1 + blocklen then ChunkBuffer2_update_output b else Ret b.

Definition ChunkBuffer2_ConsumePacket (b : ChunkBuffer2) : outcome ChunkBuffer2 :=
  len ← get_len (mem b) (start b);
  let blocklen := bdivide_up len sizeof_block in
  let data_wrapped := wrap b - start b <=? used b in
  let start' := start b + (1 + blocklen) in
  let used' := used b - (1 + blocklen) in
  let b := if start' =? wrap b then set_pos b (size b) 0 used' else set_pos b (wrap b) start' used' in
  let b := if data_wrapped then ChunkBuffer2_update_input b else b in
  ChunkBuffer2_update_output b.

(** ** The assertions of the debug build *)
Definition assert_buffer (b : ChunkBuffer2) : bool :=
  (0 <? size b) && (0 <? wrap b) && (wrap b <=? size b) && (0 <=? start b) && (start b <? wrap b) &&
  (0 <=? used b) && (used b <=? wrap b) && ((wrap b =? size b) || (wrap b - start b <=? used b)) && (0 <=? mtu b).

Definition opt_eqb (a b : option Z) : bool :=
  match a, b with Some x, Some y => x =? y | None, None => true | _, _ => false end.
Definition assert_io (b : ChunkBuffer2) : bool :=
  opt_eqb (input_dest b) (input_of b).1 && (input_avail b =? (input_of b).2) &&
  (if 0 <? used b then
     match get_len (mem b) (start b) with
     | Ret datalen =>
         let blocklen := bdivide_up datalen sizeof_block in
         (0 <=? datalen) && (blocklen <=? used b - 1) && (blocklen <=? wrap b - start b - 1) &&
         opt_eqb (output_dest b) (Some ((start b + 1) * sizeof_block)) && (output_avail b =? datalen)
     | _ => false
     end
   else opt_eqb (output_dest b) None && (output_avail b =? -1)).

(** ** PacketBuffer.c
    [receiving]/[sending]: a receive into [input_dest], or a send of the packet at
    [output_dest], is outstanding on the peer interface. *)
Record PacketBuffer := mkpb {
  buf : ChunkBuffer2; input_mtu : Z; receiving : bool; sending : bool }.

Definition input_handler_done (p : PacketBuffer) (in_len : Z) : outcome PacketBuffer :=
  let was_empty := output_avail (buf p) <? 0 in
  b ← ChunkBuffer2_SubmitPacket (buf p) in_len;
  let recv := input_mtu p <=? input_avail b in
  Ret (mkpb b (input_mtu p) recv (if was_empty then true else sending p)).

Definition output_handler_done (p : PacketBuffer) : outcome PacketBuffer :=
  let was_full := input_avail (buf p) <? input_mtu p in
  b ← ChunkBuffer2_ConsumePacket (buf p);
  let recv := if was_full && (input_mtu p <=? input_avail b) then true else receiving p in
  Ret (mkpb b (input_mtu p) recv (0 <=? output_avail b)).

(** [alloc n] is what [BAllocArray] returns for [n] blocks. *)
Definition PacketBuffer_Init (alloc : Z → option (list Z)) (in_mtu num_packets : Z) : outcome (option PacketBuffer) :=
  let num_blocks := ChunkBuffer2_calc_blocks in_mtu num_packets in
  if num_blocks <? 0 then Ret None
  else match alloc num_blocks with
       | None => Ret None
       | Some m =>
           b ← ChunkBuffer2_Init m num_blocks in_mtu;
           Ret (Some (mkpb b in_mtu true false))
       end.

(** ** Lemmas on the block array *)
Lemma bdivide_up_spec a : 0 ≤ a → 0 ≤ bdivide_up a 4 ∧ a ≤ 4 * bdivide_up a 4 < a + 4.
Proof. intros. unfold bdivide_up. case_match; bool_hyps; zdiv. Qed.

Lemma of_le32_le32 n : 0 ≤ n ≤ INT_MAX → of_le32 (le32 n) = n.
Proof.
  unfold INT_MAX. intros H. unfold le32, be32, of_le32. cbn [rev app]. unfold u8.
  rewrite !Z.shiftr_div_pow2 by lia. rewrite s32_small; zdiv.
Qed.

Lemma get_len_put m i n m' : put_len m i n = Ret m' → 0 ≤ n ≤ INT_MAX → get_len m' i = Ret n.
Proof.
  intros H Hn. unfold get_len. unfold put_len in H. apply mread_mwrite_same in H.
  change (zlen (le32 n)) with 4 in H. by rewrite H, bind_Ret, of_le32_le32.
Qed.

Definition blocks_of (p : list Z) : Z := 1 + bdivide_up (zlen p) sizeof_block.

Lemma blocks_of_pos p : 1 ≤ blocks_of p ∧ zlen p ≤ 4 * (blocks_of p - 1).
Proof. unfold blocks_of, sizeof_block. pose proof (bdivide_up_spec (zlen p)). lia. Qed.

(** The packets [q] lie one after the other in blocks [pos .. fin), each with its
    header at block [lim] at most. *)
Fixpoint stored (m : list Z) (lim pos : Z) (q : list (list Z)) (fin : Z) : Prop :=
  match q with
  | [] => pos = fin
  | p :: q' =>
      get_len m pos = Ret (zlen p) ∧ mread m ((pos + 1) * sizeof_block) (zlen p) = Ret p ∧
      pos ≤ lim ∧ stored m lim (pos + blocks_of p) q' fin
  end.

Lemma stored_le m lim pos q fin : stored m lim pos q fin → pos ≤ fin ∧ (q ≠ [] → pos < fin).
Proof.
  revert pos. induction q as [|p q IH]; intros pos; simpl; [by intros ->; split; [lia|]|].
  intros (_ & _ & _ & H). apply IH in H as [H _]. pose proof (blocks_of_pos p). split; [lia|]. lia.
Qed.

Lemma stored_app m lim pos q p fin :
  stored m lim pos q fin → get_len m fin = Ret (zlen p) → mread m ((fin + 1) * sizeof_block) (zlen p) = Ret p →
  fin ≤ lim → stored m lim pos (q ++ [p]) (fin + blocks_of p).
Proof.
  revert pos. induction q as [|x q IH]; intros pos; simpl.
  - intros -> H5 H6 H7. by split_and!.
  - intros (H1 & H2 & H3 & H4) H5 H6 H7. split_and!; [done|done|done|by apply IH].
Qed.

(** Writing outside the packets keeps them. *)
Lemma stored_frame m m' off bs lim pos q fin :
  mwrite m off bs = Ret m' → off + zlen bs ≤ pos * 4 ∨ fin * 4 ≤ off →
  stored m lim pos q fin → stored m' lim pos q fin.
Proof.
  intros Hw. revert pos. induction q as [|p q IH]; intros pos Hd; simpl; [done|].
  intros (H1 & H2 & H3 & H4). pose proof (stored_le _ _ _ _ _ H4) as [Hle _]. pose proof (blocks_of_pos p).
  split_and!; [| |done|].
  - unfold get_len in *. apply bind_Ret_inv in H1 as (l & Hl & H1).
    erewrite mread_mwrite_disjoint; [|done|done|unfold sizeof_block; lia]. done.
  - eapply mread_mwrite_disjoint; [done|done|unfold sizeof_block; lia].
  - apply IH; [lia|done].
Qed.

(** ** The invariant: the buffer holds the queue [q] *)
Definition wrapped (b : ChunkBuffer2) : bool := wrap b - start b <=? used b.

Record laid (b : ChunkBuffer2) (q : list (list Z)) : Prop := {
  h_mem : zlen (mem b) = 4 * size b;
  h_size : 4 * size b ≤ INT_MAX;
  h_wrap : 0 < wrap b ≤ size b;
  h_start : 0 ≤ start b < wrap b;
  h_used : 0 ≤ used b;
  h_mtu : 0 ≤ mtu b ∧ mtu b + 1 ≤ size b;
  h_layout :
    if wrapped b then
      ∃ q1 q2, q = q1 ++ q2 ∧ q1 ≠ [] ∧ stored (mem b) (size b - 1 - mtu b) (start b) q1 (wrap b) ∧
        stored (mem b) (size b - 1 - mtu b) 0 q2 (ChunkBuffer2_end b) ∧ ChunkBuffer2_end b ≤ start b
    else wrap b = size b ∧ stored (mem b) (size b - 1 - mtu b) (start b) q (ChunkBuffer2_end b) ∧
         ChunkBuffer2_end b ≤ size b - 1 - mtu b }.

(** ... and its input and output fields are up to date. *)
Record holds (b : ChunkBuffer2) (q : list (list Z)) : Prop := {
  h_laid : laid b q;
  h_input : (input_dest b, input_avail b) = input_of b;
  h_output : match q with
             | [] => output_dest b = None ∧ output_avail b = -1
             | p :: _ => output_dest b = Some ((start b + 1) * sizeof_block) ∧ output_avail b = zlen p
             end }.

(** Where the next packet goes, in terms of the layout. *)
Lemma input_of_spec b q :
  laid b q →
  let e := ChunkBuffer2_end b in
  let free := if wrapped b then start b - e else size b - e in
  0 ≤ e ∧ free ≤ size b - e ∧ e + free ≤ size b ∧
  input_of b = if (e <=? size b - 1 - mtu b) && (0 <? free)
               then (Some ((e + 1) * sizeof_block), (free - 1) * sizeof_block) else (None, -1).
Proof.
  intros [Hm Hs Hw Hst Hu Hmtu Hl]. cbn zeta. unfold input_of, wrapped, sizeof_block in *.
  assert (0 ≤ ChunkBuffer2_end b).
  { unfold ChunkBuffer2_end. destruct (_ <=? _) eqn:E in |- *; bool_hyps; lia. }
  destruct (wrap b - start b <=? used b) eqn:E.
  - destruct Hl as (q1 & q2 & _ & _ & _ & _ & He). split_and!; [lia..|].
    destruct (ChunkBuffer2_end b <=? _) eqn:E1; bool_hyps.
    + if_false. simpl andb. destruct (0 <? _) eqn:E2; bool_hyps; [|done]. unfold INT_MAX in Hs.
      rewrite s32_small by lia. done.
    + by if_true.
  - destruct Hl as (_ & _ & He). split_and!; [lia..|]. if_false. if_true. unfold INT_MAX in Hs.
    rewrite s32_small by lia. by if_true.
Qed.

(** A buffer in which every packet fits: the room a submit relies on. *)
Lemma input_room b q n :
  holds b q → input_dest b ≠ None → 0 ≤ n ≤ input_avail b →
  let e := ChunkBuffer2_end b in
  input_dest b = Some ((e + 1) * sizeof_block) ∧ 0 ≤ e ≤ size b - 1 - mtu b ∧
  e + 1 + bdivide_up n 4 ≤ (if wrapped b then start b else size b).
Proof.
  intros Hh Hd Hn. cbn zeta. destruct (input_of_spec b q (h_laid b q Hh)) as (He & _ & _ & Hi).
  pose proof (h_input b q Hh) as Hi'. rewrite Hi in Hi'. unfold sizeof_block in *.
  destruct (_ && _) eqn:E; injection Hi' as H1 H2; [|done]. bool_hyps.
  pose proof (bdivide_up_spec n ltac:(lia)). split_and!; [done|lia|lia|]. destruct (wrapped b); lia.
Qed.

Lemma put_len_ok b q i n : laid b q → 0 ≤ i < size b → ∃ m, put_len (mem b) i n = Ret m.
Proof.
  intros [Hm _ _ _ _ _ _] Hi. unfold put_len, mwrite, sizeof_block.
  change (zlen (le32 n)) with 4. if_true. by eexists.
Qed.

(** Reading the head packet's length. *)
Lemma head_len b p q : laid b (p :: q) → get_len (mem b) (start b) = Ret (zlen p) ∧
  mread (mem b) ((start b + 1) * sizeof_block) (zlen p) = Ret p ∧ blocks_of p ≤ used b ∧ start b + blocks_of p ≤ wrap b.
Proof.
  intros [Hm Hs Hw Hst Hu Hmtu Hl]. unfold wrapped in Hl. destruct (_ <=? _) eqn:E; bool_hyps.
  - destruct Hl as (q1 & q2 & Eq & Hne & H1 & _). destruct q1 as [|p1 q1]; [done|]. injection Eq as <- _.
    destruct H1 as (H1 & H2 & _ & H3). apply stored_le in H3 as [H3 _]. split_and!; [done|done|lia|lia].
  - destruct Hl as (Hws & (H1 & H2 & _ & H3) & _). apply stored_le in H3 as [H3 _].
    unfold ChunkBuffer2_end in H3. rewrite (proj2 (Z.leb_gt _ _)) in H3 by lia. split_and!; [done|done|lia|lia].
Qed.

Lemma laid_empty b q : laid b q → used b = 0 ↔ q = [].
Proof.
  intros Hh. split; [|intros ->].
  - intros Hu. destruct q as [|p q]; [done|]. apply head_len in Hh as (_ & _ & H & _).
    pose proof (blocks_of_pos p). lia.
  - destruct Hh as [Hm Hs Hw Hst Hu Hmtu Hl]. unfold wrapped, ChunkBuffer2_end in Hl.
    destruct (_ <=? _) eqn:E; bool_hyps.
    + destruct Hl as (q1 & q2 & Eq & Hne & _). by destruct q1.
    + destruct Hl as (_ & H & _). simpl in H. lia.
Qed.

Lemma update_output_spec b (q : list (list Z)) :
  (0 < used b ↔ q ≠ []) →
  (∀ p q', q = p :: q' → get_len (mem b) (start b) = Ret (zlen p)) →
  ∃ b', ChunkBuffer2_update_output b = Ret b' ∧ b' = set_output b (output_dest b') (output_avail b') ∧
    match q with
    | [] => output_dest b' = None ∧ output_avail b' = -1
    | p :: _ => output_dest b' = Some ((start b' + 1) * sizeof_block) ∧ output_avail b' = zlen p
    end.
Proof.
  intros Hu Hp. unfold ChunkBuffer2_update_output. destruct q as [|p q].
  - assert (used b ≤ 0) by (destruct (Z.lt_ge_cases 0 (used b)) as [H|H]; [by apply Hu in H|lia]).
    if_false. eexists. by split_and!.
  - assert (0 < used b) by by apply Hu. if_true. rewrite (Hp p q eq_refl), bind_Ret. eexists. by split_and!.
Qed.

(** Submitting the packet [p] whose bytes were written at [input_dest]. *)
Lemma submit_holds b q p :
  holds b q → input_dest b ≠ None → zlen p ≤ input_avail b →
  mread (mem b) ((ChunkBuffer2_end b + 1) * sizeof_block) (zlen p) = Ret p →
  ∃ b', ChunkBuffer2_SubmitPacket b (zlen p) = Ret b' ∧ holds b' (q ++ [p]) ∧ size b' = size b ∧ mtu b' = mtu b.
Proof.
  intros Hh Hd Hn Hp. destruct (input_room b q (zlen p) Hh Hd ltac:(lia)) as (Hdest & He & Hroom).
  fold sizeof_block in Hroom. rewrite <- Z.add_assoc in Hroom. change (1 + bdivide_up (zlen p) sizeof_block) with (blocks_of p) in Hroom.
  pose proof (blocks_of_pos p) as Hbp. pose proof Hh as [Hlaid Hin Hout]. pose proof Hlaid as [Hm Hs Hw Hst Hu Hmtu Hl].
  set (e := ChunkBuffer2_end b) in *.
  destruct (put_len_ok b q e (zlen p) Hlaid ltac:(lia)) as (m & Em).
  pose proof (mread_Ret _ _ _ _ Hp) as (_ & _ & Hfit & _). unfold sizeof_block in Hfit.
  assert (Hlen : zlen p ≤ INT_MAX) by lia.
  pose proof (get_len_put _ _ _ _ Em ltac:(lia)) as Hg.
  assert (Hp' : mread m ((e + 1) * sizeof_block) (zlen p) = Ret p).
  { eapply mread_mwrite_disjoint; [exact Em|done|]. change (zlen (le32 (zlen p))) with 4. unfold sizeof_block. lia. }
  assert (Hfr : ∀ lim pos q fin, stored (mem b) lim pos q fin → e < pos ∨ fin ≤ e → stored m lim pos q fin).
  { intros lim pos q0 fin H1 H2. eapply stored_frame; [exact Em| |done]. change (zlen (le32 (zlen p))) with 4. unfold sizeof_block. lia. }
  unfold ChunkBuffer2_SubmitPacket. fold e. rewrite Em, bind_Ret.
  fold (blocks_of p). cbn [used wrap start size mtu set_mem].
  replace (e + 1 + bdivide_up (zlen p) sizeof_block) with (e + blocks_of p) by (unfold blocks_of; lia).
  set (wrap' := if (used b + blocks_of p <=? wrap b - start b) && (size b - (e + blocks_of p) - 1 <? mtu b)
                then e + blocks_of p else wrap b).
  set (b1 := ChunkBuffer2_update_input _).
  assert (Hlay : 0 < wrap' ≤ size b ∧ start b < wrap' ∧
    if wrapped b1 then
      ∃ q1 q2, q ++ [p] = q1 ++ q2 ∧ q1 ≠ [] ∧ stored m (size b - 1 - mtu b) (start b) q1 wrap' ∧
        stored m (size b - 1 - mtu b) 0 q2 (ChunkBuffer2_end b1) ∧ ChunkBuffer2_end b1 ≤ start b
    else wrap' = size b ∧ stored m (size b - 1 - mtu b) (start b) (q ++ [p]) (ChunkBuffer2_end b1) ∧
         ChunkBuffer2_end b1 ≤ size b - 1 - mtu b).
  { subst b1 wrap'. unfold wrapped, ChunkBuffer2_end in Hl |- *. cbn. fold (blocks_of p).
    subst e. unfold ChunkBuffer2_end in *. destruct (wrap b - start b <=? used b) eqn:Ew; bool_hyps.
    - destruct Hl as (q1 & q2 & -> & Hne & H1 & H2 & H3). unfold wrapped in Hroom.
      rewrite (proj2 (Z.leb_le _ _)) in Hroom by lia. rewrite (proj2 (Z.leb_gt _ _)) by lia. cbn [andb].
      split_and!; [lia..|]. if_true. exists q1, (q2 ++ [p]). split_and!; [by rewrite app_assoc|done| | |lia].
      + apply Hfr; [done|lia].
      + replace (used b + blocks_of p - (wrap b - start b)) with (used b - (wrap b - start b) + blocks_of p) by lia.
        apply stored_app; [apply Hfr; [done|lia]|done|done|lia].
    - destruct Hl as (Hws & H1 & H2). unfold wrapped in Hroom.
      rewrite (proj2 (Z.leb_gt _ _)) in Hroom by lia. rewrite (proj2 (Z.leb_le _ _)) by lia. cbn [andb].
      assert (H3 : stored m (size b - 1 - mtu b) (start b) (q ++ [p]) (start b + used b + blocks_of p))
        by (apply stored_app; [apply Hfr; [done|lia]|done|done|lia]).
      destruct (_ <? mtu b) eqn:Em'; bool_hyps; split_and!; try lia.
      + if_true. exists (q ++ [p]), []. rewrite app_nil_r. split_and!; [done|by destruct q|done|simpl; lia|lia].
      + if_false. split_and!; [done|by rewrite Z.add_assoc|lia]. }
  assert (Hin1 : (input_dest b1, input_avail b1) = input_of b1) by (symmetry; apply surjective_pairing).
  change (used b1) with (used b + blocks_of p). destruct (_ =? blocks_of p) eqn:Eu; bool_hyps.
  - assert (q = []) as -> by (apply (laid_empty b q Hlaid); lia).
    assert (e = start b) as Hes.
    { subst e. unfold ChunkBuffer2_end. rewrite (proj2 (Z.leb_gt _ _)) by lia. lia. }
    destruct (update_output_spec b1 [p]) as (b2 & E2 & Eb2 & Ho2).
    { split; [done|]. intros _. change (used b1) with (used b + blocks_of p). lia. }
    { intros ? ? [= <- <-]. change (start b1) with (start b). change (mem b1) with m. by rewrite <- Hes. }
    exists b2. split; [exact E2|]. rewrite Eb2. split; [|done].
    destruct Hlay as (L1 & L2 & L3). rewrite Eb2 in Ho2.
    split; [|done|done].
    split; try done; try lia; cbn; rewrite ?(mwrite_length _ _ _ _ Em); lia.
  - assert (q ≠ []) as Hq by (intros ->; apply Eu; enough (used b = 0) by lia; by apply (laid_empty b [] Hlaid)).
    eexists. split; [done|]. split; [|done]. destruct Hlay as (L1 & L2 & L3).
    split; [|done|by destruct q].
    split; try done; try lia; cbn; rewrite ?(mwrite_length _ _ _ _ Em); lia.
Qed.

(** Dropping the head packet. *)
Lemma consume_holds b p q :
  holds b (p :: q) →
  ∃ b', ChunkBuffer2_ConsumePacket b = Ret b' ∧ holds b' q ∧ size b' = size b ∧ mtu b' = mtu b ∧
    (wrapped b' = true → wrapped b = true ∧ ChunkBuffer2_end b' = ChunkBuffer2_end b ∧ start b ≤ start b') ∧
    ChunkBuffer2_end b' = ChunkBuffer2_end b.
Proof.
  intros Hh. destruct (head_len b p q (h_laid _ _ Hh)) as (Hg & _ & Hbu & Hbw). pose proof (blocks_of_pos p) as Hbp.
  pose proof Hh as [Hlaid Hin Hout]. pose proof Hlaid as [Hm Hs Hw Hst Hu Hmtu Hl].
  unfold ChunkBuffer2_ConsumePacket. rewrite Hg, bind_Ret. fold (blocks_of p).
  set (b1 := if start b + blocks_of p =? wrap b then set_pos b (size b) 0 (used b - blocks_of p)
             else set_pos b (wrap b) (start b + blocks_of p) (used b - blocks_of p)).
  set (b2 := if wrap b - start b <=? used b then ChunkBuffer2_update_input b1 else b1).
  assert (Hmem : mem b1 = mem b ∧ size b1 = size b ∧ mtu b1 = mtu b ∧ used b1 = used b - blocks_of p)
    by (subst b1; by destruct (_ =? _)).
  destruct Hmem as (M1 & M2 & M3 & M4).
  assert (Hlay : 0 < wrap b1 ≤ size b ∧ 0 ≤ start b1 < wrap b1 ∧
    (if wrapped b1 then
      ∃ q1 q2, q = q1 ++ q2 ∧ q1 ≠ [] ∧ stored (mem b) (size b - 1 - mtu b) (start b1) q1 (wrap b1) ∧
        stored (mem b) (size b - 1 - mtu b) 0 q2 (ChunkBuffer2_end b1) ∧ ChunkBuffer2_end b1 ≤ start b1
    else wrap b1 = size b ∧ stored (mem b) (size b - 1 - mtu b) (start b1) q (ChunkBuffer2_end b1) ∧
         ChunkBuffer2_end b1 ≤ size b - 1 - mtu b) ∧
    (wrapped b = false → ChunkBuffer2_end b1 = ChunkBuffer2_end b ∧ wrapped b1 = false) ∧
    (wrapped b1 = true → wrapped b = true ∧ ChunkBuffer2_end b1 = ChunkBuffer2_end b ∧ start b ≤ start b1) ∧
    ChunkBuffer2_end b1 = ChunkBuffer2_end b).
  { subst b1. unfold wrapped, ChunkBuffer2_end in Hl |- *.
    destruct (wrap b - start b <=? used b) eqn:Ew; bool_hyps.
    - destruct Hl as (q1 & q2 & Eq & Hne & H1 & H2 & H3). destruct q1 as [|p1 q1]; [done|].
      injection Eq as <- ->. destruct H1 as (_ & _ & H1 & H4).
      destruct (start b + blocks_of p =? wrap b) eqn:Es; bool_hyps; cbn.
      + assert (q1 = []) as ->.
        { destruct q1 as [|x q1]; [done|]. apply stored_le in H4 as [_ H4]. specialize (H4 ltac:(done)). lia. }
        if_false. simpl app. split_and!; try lia; try done.
        by replace (0 + (used b - blocks_of p)) with (used b - (wrap b - start b)) by lia.
      + assert (q1 ≠ []) by (intros ->; simpl in H4; lia). if_true. split_and!; try lia; try done.
        exists q1, q2. split_and!; [done|done|done| |lia].
        by replace (used b - blocks_of p - (wrap b - (start b + blocks_of p))) with (used b - (wrap b - start b)) by lia.
    - destruct Hl as (Hws & (_ & _ & _ & H1) & H2). rewrite (proj2 (Z.eqb_neq _ _)) by lia. cbn. if_false.
      replace (start b + blocks_of p + (used b - blocks_of p)) with (start b + used b) by lia.
      split_and!; try lia; try done. }
  destruct Hlay as (L1 & L2 & L3 & L4 & L5 & L8).
  assert (Hb2 : mem b2 = mem b ∧ size b2 = size b ∧ mtu b2 = mtu b ∧ used b2 = used b1 ∧ start b2 = start b1 ∧
    wrap b2 = wrap b1 ∧ (input_dest b2, input_avail b2) = input_of b2).
  { subst b2. unfold wrapped in L4. destruct (wrap b - start b <=? used b) eqn:EW; simpl.
    - rewrite M1, M2, M3. split_and!; try done. symmetry. apply surjective_pairing.
    - split_and!; try done. destruct (L4 eq_refl) as [L7 L6].
      replace (input_dest b1, input_avail b1) with (input_dest b, input_avail b) by (subst b1; by destruct (_ =? _)).
      rewrite Hin. unfold input_of, wrapped in *. by rewrite L7, L6, M2, M3, EW. }
  destruct Hb2 as (B1 & B2 & B3 & B4 & B5 & B6 & B7).
  assert (Hw2 : wrapped b2 = wrapped b1) by (unfold wrapped; by rewrite B4, B5, B6).
  assert (He2 : ChunkBuffer2_end b2 = ChunkBuffer2_end b1) by (unfold ChunkBuffer2_end; by rewrite B4, B5, B6).
  assert (Hl2 : laid b2 q) by (split; rewrite ?Hw2, ?He2, ?B1, ?B2, ?B3, ?B4, ?B5, ?B6; try done; try lia).
  destruct (update_output_spec b2 q) as (b3 & E3 & Eb3 & Ho3).
  { rewrite <- (laid_empty _ _ Hl2), B4. lia. }
  { intros p0 q' ->. apply (head_len _ _ _ Hl2). }
  exists b3. split; [exact E3|]. rewrite Eb3. split; [|split_and!; [done|done| |]].
  2: { change (wrapped (set_output b2 _ _)) with (wrapped b2). change (ChunkBuffer2_end (set_output b2 _ _)) with (ChunkBuffer2_end b2).
       cbn. by rewrite Hw2, He2, B5. }
  2: { by change (ChunkBuffer2_end (set_output b2 _ _)) with (ChunkBuffer2_end b2); rewrite He2. }
  rewrite Eb3 in Ho3. split; [|done|done]. destruct Hl2. by split.
Qed.

(** The client writes the packet at [input_dest], then submits it. *)
Definition write_packet (b : ChunkBuffer2) (p : list Z) : outcome ChunkBuffer2 :=
  match input_dest b with
  | None => Fault
  | Some d => m ← mwrite (mem b) d p; Ret (set_mem b m)
  end.

Lemma write_packet_holds b q p :
  holds b q → input_dest b ≠ None → zlen p ≤ input_avail b →
  ∃ b', write_packet b p = Ret b' ∧ holds b' q ∧ input_dest b' = input_dest b ∧ input_avail b' = input_avail b ∧
        size b' = size b ∧ mtu b' = mtu b ∧
        mread (mem b') ((ChunkBuffer2_end b' + 1) * sizeof_block) (zlen p) = Ret p.
Proof.
  intros Hh Hd Hn. destruct (input_room b q (zlen p) Hh Hd ltac:(lia)) as (Hdest & He & Hroom).
  pose proof Hh as [Hlaid Hin Hout]. pose proof Hlaid as [Hm Hs Hw Hst Hu Hmtu Hl].
  pose proof (bdivide_up_spec (zlen p) ltac:(lia)) as Hb. unfold write_packet. rewrite Hdest.
  assert (∃ m, mwrite (mem b) ((ChunkBuffer2_end b + 1) * sizeof_block) p = Ret m) as (m & Em).
  { unfold mwrite, sizeof_block. destruct (wrapped b); if_true; by eexists. }
  rewrite Em, bind_Ret. eexists. split; [done|].
  change (ChunkBuffer2_end (set_mem b m)) with (ChunkBuffer2_end b).
  split_and!; try done; [|by apply mread_mwrite_same in Em].
  assert (Hfr : ∀ lim pos q fin, stored (mem b) lim pos q fin →
    (if wrapped b then start b else size b) ≤ pos ∨ fin ≤ ChunkBuffer2_end b → stored m lim pos q fin).
  { intros lim pos q0 fin H1 H2. eapply stored_frame; [exact Em| |done]. unfold sizeof_block. lia. }
  split; [|exact Hin|exact Hout]. split; try done.
  - cbn. by rewrite (mwrite_length _ _ _ _ Em).
  - change (wrapped (set_mem b m)) with (wrapped b). change (ChunkBuffer2_end (set_mem b m)) with (ChunkBuffer2_end b).
    cbn. destruct (wrapped b).
    + destruct Hl as (q1 & q2 & -> & Hne & H1 & H2 & H3). exists q1, q2.
      split_and!; [done|done|apply Hfr; [done|lia]|apply Hfr; [done|lia]|done].
    + destruct Hl as (H1 & H2 & H3). split_and!; [done|apply Hfr; [done|lia]|done].
Qed.

Lemma init_holds m blocks mt :
  zlen m = 4 * blocks → 4 * blocks ≤ INT_MAX → 0 ≤ mt → bdivide_up mt 4 + 1 ≤ blocks →
  ∃ b, ChunkBuffer2_Init m blocks mt = Ret b ∧ holds b [] ∧ size b = blocks ∧ mtu b = bdivide_up mt 4.
Proof.
  intros Hm Hs Ht Hb. pose proof (bdivide_up_spec mt Ht). unfold INT_MAX in Hs. unfold ChunkBuffer2_Init.
  unfold sizeof_block. rewrite s32_small by lia. eexists. split; [done|]. split; [|done].
  split; [|cbn; symmetry; apply surjective_pairing|done].
  split; cbn; try done; try lia. unfold wrapped. cbn. if_false. unfold ChunkBuffer2_end. cbn. if_false. lia.
Qed.

Lemma holds_asserts b q : holds b q → assert_buffer b = true ∧ assert_io b = true.
Proof.
  intros Hh. pose proof Hh as [Hlaid Hin Hout]. pose proof Hlaid as [Hm Hs Hw Hst Hu Hmtu Hl]. split.
  - unfold assert_buffer. unfold wrapped, ChunkBuffer2_end in Hl. destruct (wrap b - start b <=? used b) eqn:E; bool_hyps.
    + destruct Hl as (_ & _ & _ & _ & _ & _ & He). lia.
    + destruct Hl as (Hws & _). lia.
  - unfold assert_io. rewrite <- Hin. cbn [fst snd]. rewrite Z.eqb_refl.
    assert (∀ o, opt_eqb o o = true) as Ho by (intros []; simpl; [apply Z.eqb_refl|done]). rewrite Ho. cbn [andb].
    destruct q as [|p q].
    + assert (used b = 0) by by apply (laid_empty b []). if_false. destruct Hout as [-> ->]. done.
    + destruct (head_len b p q Hlaid) as (-> & _ & H1 & H2). pose proof (blocks_of_pos p). if_true.
      destruct Hout as [-> ->]. rewrite Ho, Z.eqb_refl. cbn [andb].
      unfold blocks_of, sizeof_block in *. pose proof (bdivide_up_spec (zlen p) ltac:(lia)).
      solve_bool.
Qed.

(** ** Runs *)
Inductive event := Put (p : list Z) | Take.

(** Packets accepted, packets taken out, and the final buffer. A [Put] of a packet
    that does not fit and a [Take] from an empty buffer are not attempted. *)
Fixpoint run (b : ChunkBuffer2) (evs : list event) : outcome (list (list Z) * list (list Z) * ChunkBuffer2) :=
  match evs with
  | [] => Ret ([], [], b)
  | Put p :: evs' =>
      match input_dest b with
      | Some _ =>
          if zlen p <=? input_avail b then
            b ← write_packet b p;
            b ← ChunkBuffer2_SubmitPacket b (zlen p);
            '(acc, out, b) ← run b evs'; Ret (p :: acc, out, b)
          else run b evs'
      | None => run b evs'
      end
  | Take :: evs' =>
      match output_dest b with
      | Some d =>
          p ← mread (mem b) d (output_avail b);
          b ← ChunkBuffer2_ConsumePacket b;
          '(acc, out, b) ← run b evs'; Ret (acc, p :: out, b)
      | None => run b evs'
      end
  end.

Lemma run_holds b q evs :
  holds b q → ∃ acc out b' q', run b evs = Ret (acc, out, b') ∧ q ++ acc = out ++ q' ∧ holds b' q'.
Proof.
  revert b q. induction evs as [|[p|] evs IH]; intros b q Hh; simpl run.
  - exists [], [], b, q. by rewrite app_nil_r.
  - destruct (input_dest b) eqn:Ed; [|by apply IH]. destruct (zlen p <=? input_avail b) eqn:En; bool_hyps; [|by apply IH].
    destruct (write_packet_holds b q p Hh) as (b1 & -> & H1 & D1 & A1 & _ & _ & R1); [by rewrite Ed|done|].
    destruct (submit_holds b1 q p H1) as (b2 & E2 & H2 & _); [by rewrite D1, Ed|lia|done|].
    rewrite bind_Ret, E2, bind_Ret. destruct (IH b2 _ H2) as (acc & out & b' & q' & -> & Eq & H').
    exists (p :: acc), out, b', q'. split_and!; [done| |done]. by rewrite <- Eq, <- app_assoc.
  - destruct q as [|p q].
    + destruct (h_output b [] Hh) as [-> _]. by apply IH.
    + destruct (h_output b _ Hh) as [-> ->]. destruct (head_len b p q (h_laid _ _ Hh)) as (_ & -> & _).
      rewrite bind_Ret. destruct (consume_holds b p q Hh) as (b1 & -> & H1 & _). rewrite bind_Ret.
      destruct (IH b1 q H1) as (acc & out & b' & q' & -> & Eq & H').
      exists acc, (p :: out), b', q'. split_and!; [done| |done]. simpl. by rewrite Eq.
Qed.

(** C30: the circular packet buffer is a FIFO queue. For every sequence of submits and
    consumes from an initialised buffer, no access leaves the array, the packets taken
    out are the accepted packets in order, byte for byte, those left are exactly the
    rest, and every assertion of the debug build holds. *)
Theorem ChunkBuffer2_fifo m blocks mt evs :
  zlen m = 4 * blocks → 4 * blocks ≤ INT_MAX → 0 ≤ mt → bdivide_up mt 4 + 1 ≤ blocks →
  ∃ b0 acc out b q, ChunkBuffer2_Init m blocks mt = Ret b0 ∧ run b0 evs = Ret (acc, out, b) ∧
    acc = out ++ q ∧ holds b q ∧ assert_buffer b = true ∧ assert_io b = true.
Proof.
  intros H1 H2 H3 H4. destruct (init_holds m blocks mt H1 H2 H3 H4) as (b0 & E0 & H0 & _).
  destruct (run_holds b0 [] evs H0) as (acc & out & b & q & Er & Eq & Hh). exists b0, acc, out, b, q.
  destruct (holds_asserts b q Hh). by split_and!.
Qed.

Definition demo_events : list event := [Put [1; 2; 3; 4; 5]; Put [6]; Take; Put [7; 8]; Take; Take].
Lemma ChunkBuffer2_fifo_witness :
  ∃ b0 acc out b q, ChunkBuffer2_Init (replicate 24 0) 6 8 = Ret b0 ∧ run b0 demo_events = Ret (acc, out, b) ∧
    acc = out ++ q ∧ assert_io b = true ∧ out = [[1; 2; 3; 4; 5]; [6]; [7; 8]].
Proof.
  destruct (ChunkBuffer2_fifo (replicate 24 0) 6 8 demo_events) as (b0 & acc & out & b & q & E0 & Er & Eq & _ & _ & Ha);
    [reflexivity|vm_compute; discriminate|lia|vm_compute; discriminate|].
  exists b0, acc, out, b, q. split_and!; [done|done|done|done|].
  vm_compute in E0. injection E0 as <-. vm_compute in Er. by injection Er as <- <- <-.
Defined.

(** ** Room *)
Lemma room_unwrapped b q : holds b q → wrapped b = false → input_dest b ≠ None ∧ 4 * mtu b ≤ input_avail b.
Proof.
  intros Hh Hw. destruct (input_of_spec b q (h_laid _ _ Hh)) as (He & _ & _ & Hi). rewrite Hw in Hi.
  pose proof (h_layout b q (h_laid _ _ Hh)) as Hl. rewrite Hw in Hl. destruct Hl as (_ & _ & Hl).
  pose proof (h_mtu b q (h_laid _ _ Hh)). pose proof (h_input b q Hh) as Hin. rewrite Hi in Hin.
  destruct (_ && _) eqn:E; bool_hyps; [|lia]. injection Hin as -> ->. unfold sizeof_block. split; [done|lia].
Qed.

Lemma room_empty b : holds b [] → input_dest b ≠ None ∧ 4 * mtu b ≤ input_avail b.
Proof.
  intros Hh. apply (room_unwrapped b []); [done|].
  assert (used b = 0) by by apply (laid_empty b [] (h_laid _ _ Hh)).
  pose proof (h_start _ _ (h_laid _ _ Hh)). unfold wrapped. solve_bool.
Qed.

(** Consuming never takes room away. *)
Lemma consume_room b p q b' n :
  holds b (p :: q) → ChunkBuffer2_ConsumePacket b = Ret b' → 0 ≤ n ≤ 4 * mtu b → n ≤ input_avail b → n ≤ input_avail b'.
Proof.
  intros Hh E Hn Ha. destruct (consume_holds b p q Hh) as (b1 & E1 & H1 & Hs & Hm & Hw & _).
  rewrite E in E1. injection E1 as <-. destruct (wrapped b') eqn:Ew.
  - destruct (Hw eq_refl) as (W & He & Hst).
    destruct (input_of_spec b _ (h_laid _ _ Hh)) as (_ & _ & _ & Hi). rewrite W in Hi.
    destruct (input_of_spec b' _ (h_laid _ _ H1)) as (_ & _ & _ & Hi'). rewrite Ew in Hi'.
    pose proof (h_input b _ Hh) as Hin. pose proof (h_input b' _ H1) as Hin'. rewrite Hi in Hin. rewrite Hi' in Hin'.
    rewrite He, Hs, Hm in Hin'. unfold sizeof_block in *.
    destruct ((_ <=? _) && (0 <? start b - _)) eqn:C; injection Hin as _ Hin; bool_hyps; [|lia].
    rewrite (proj2 (Z.leb_le _ _)), (proj2 (Z.ltb_lt _ _)) in Hin' by lia. injection Hin' as _ ->. lia.
  - destruct (room_unwrapped b' q H1 Ew) as [_ Hr]. lia.
Qed.

Lemma calc_blocks_spec chunk_len num :
  0 ≤ chunk_len ≤ INT_MAX → 0 ≤ num ≤ INT_MAX →
  let n := (1 + bdivide_up chunk_len 4) * (num + 1) in
  ChunkBuffer2_calc_blocks chunk_len num = if INT_MAX <? n then -1 else n.
Proof.
  unfold INT_MAX. intros Hc Hn. pose proof (bdivide_up_spec chunk_len ltac:(lia)) as Hb. cbn zeta.
  unfold ChunkBuffer2_calc_blocks, INT_MAX, sizeof_block. rewrite s32_small by lia.
  set (k := bdivide_up chunk_len 4) in *. if_false. destruct (_ <? num) eqn:En; bool_hyps.
  - rewrite (proj2 (Z.ltb_lt _ _)); [done|]. assert (num = 2147483647) as -> by lia. lia.
  - destruct (_ / _ <? 1 + k) eqn:Ed; bool_hyps.
    + rewrite (proj2 (Z.ltb_lt _ _)); [done|]. apply Z.lt_nge. intros Hle.
      assert (1 + k ≤ (2 ^ 31 - 1) / (num + 1)) by (apply Z.div_le_lower_bound; lia). lia.
    + rewrite (proj2 (Z.ltb_ge _ _)); [done|].
      pose proof (Z.mul_div_le (2 ^ 31 - 1) (num + 1) ltac:(lia)).
      assert ((num + 1) * (1 + k) ≤ (num + 1) * ((2 ^ 31 - 1) / (num + 1))) by (apply Z.mul_le_mono_nonneg_l; lia). lia.
Qed.

(** ** PacketBuffer *)
Record pb_inv (p : PacketBuffer) (q : list (list Z)) : Prop := {
  pb_holds : holds (buf p) q;
  pb_mtu : 0 ≤ input_mtu p ∧ mtu (buf p) = bdivide_up (input_mtu p) 4;
  pb_recv : receiving p = (input_mtu p <=? input_avail (buf p));
  pb_send : sending p = match q with [] => false | _ => true end }.

(** A receive that completes with packet [p], and a send that completes. *)
Fixpoint pb_run (s : PacketBuffer) (evs : list event) : outcome (list (list Z) * list (list Z) * PacketBuffer) :=
  match evs with
  | [] => Ret ([], [], s)
  | Put p :: evs' =>
      if receiving s && (zlen p <=? input_mtu s) then
        b ← write_packet (buf s) p;
        s ← input_handler_done (mkpb b (input_mtu s) (receiving s) (sending s)) (zlen p);
        '(acc, out, s) ← pb_run s evs'; Ret (p :: acc, out, s)
      else pb_run s evs'
  | Take :: evs' =>
      if sending s then
        match output_dest (buf s) with
        | None => Fault
        | Some d =>
            p ← mread (mem (buf s)) d (output_avail (buf s));
            s ← output_handler_done s;
            '(acc, out, s) ← pb_run s evs'; Ret (acc, p :: out, s)
        end
      else pb_run s evs'
  end.

Lemma input_done_inv s q p :
  pb_inv s q → receiving s = true → zlen p ≤ input_mtu s →
  ∃ b s', write_packet (buf s) p = Ret b ∧
    input_handler_done (mkpb b (input_mtu s) (receiving s) (sending s)) (zlen p) = Ret s' ∧
    pb_inv s' (q ++ [p]) ∧ input_mtu s' = input_mtu s.
Proof.
  intros [Hh [Hm0 Hm] Hr Hs] Hrec Hp. rewrite Hrec in Hr. symmetry in Hr. bool_hyps.
  assert (input_dest (buf s) ≠ None) as Hd.
  { pose proof (h_input _ _ Hh) as Hi. destruct (input_of_spec _ _ (h_laid _ _ Hh)) as (_ & _ & _ & Hi').
    rewrite Hi' in Hi. destruct (_ && _); injection Hi as -> Ha; [done|]. lia. }
  destruct (write_packet_holds (buf s) q p Hh Hd ltac:(lia)) as (b & Eb & H1 & D1 & A1 & S1 & M1 & R1).
  destruct (submit_holds b q p H1) as (b2 & E2 & H2 & S2 & M2); [by rewrite D1|lia|done|].
  eexists b, _. split; [done|]. unfold input_handler_done. cbn [buf input_mtu]. rewrite E2, bind_Ret.
  split; [done|]. split; [|done]. split; cbn; [done|split; [done|congruence]|done|].
  destruct q as [|x q]; cbn [app].
  - destruct (h_output _ _ H1) as [_ ->]. done.
  - rewrite Hs. by case_match.
Qed.

(** A receive in progress keeps its destination. *)
Lemma receiving_dest p q :
  pb_inv p q → receiving p = true → input_dest (buf p) = Some ((ChunkBuffer2_end (buf p) + 1) * sizeof_block).
Proof.
  intros [Hh [Hm0 Hm] Hr Hs] Hrec. rewrite Hrec in Hr. symmetry in Hr. bool_hyps.
  pose proof (h_input _ _ Hh) as Hi. destruct (input_of_spec _ _ (h_laid _ _ Hh)) as (He & _ & _ & Hi').
  rewrite Hi' in Hi. destruct (_ && _); injection Hi as -> Ha; [done|lia].
Qed.

Lemma output_done_inv s q p :
  pb_inv s (p :: q) →
  ∃ s', output_handler_done s = Ret s' ∧ pb_inv s' q ∧ input_mtu s' = input_mtu s ∧
    (receiving s = true → receiving s' = true ∧ input_dest (buf s') = input_dest (buf s)).
Proof.
  intros Hi. pose proof Hi as [Hh [Hm0 Hm] Hr Hs].
  destruct (consume_holds _ _ _ Hh) as (b & E & H1 & Hsz & Hmt & _ & Hend).
  unfold output_handler_done. rewrite E, bind_Ret. eexists. split; [done|].
  pose proof (bdivide_up_spec (input_mtu s) Hm0). set (s' := mkpb _ _ _ _).
  assert (Hi' : pb_inv s' q).
  { split; cbn; [done|split; [done|congruence]| |].
    - rewrite Hr. destruct (input_avail (buf s) <? input_mtu s) eqn:Ea; bool_hyps; cbn [andb].
      + rewrite (proj2 (Z.leb_gt (input_mtu s) (input_avail (buf s)))) by lia. by destruct (_ <=? input_avail b).
      + pose proof (consume_room _ _ _ _ (input_mtu s) Hh E ltac:(lia) ltac:(lia)).
        rewrite !(proj2 (Z.leb_le _ _)) by lia. done.
    - destruct q as [|x q]; destruct (h_output _ _ H1) as [_ ->]; [done|]. solve_bool. }
  split_and!; [done|done|]. intros Hrec. assert (receiving s' = true) as Hrec' by (cbn; rewrite Hrec; by case_match).
  split; [done|]. rewrite (receiving_dest _ _ Hi Hrec), (receiving_dest _ _ Hi' Hrec'). cbn. by rewrite Hend.
Qed.

Lemma pb_run_inv s q evs :
  pb_inv s q → ∃ acc out s' q', pb_run s evs = Ret (acc, out, s') ∧ q ++ acc = out ++ q' ∧
    pb_inv s' q' ∧ input_mtu s' = input_mtu s.
Proof.
  revert s q. induction evs as [|[p|] evs IH]; intros s q Hi; simpl pb_run.
  - exists [], [], s, q. by rewrite app_nil_r.
  - destruct (receiving s) eqn:Er; cbn [andb]; [|by apply IH].
    destruct (zlen p <=? input_mtu s) eqn:En; bool_hyps; [|by apply IH].
    destruct (input_done_inv s q p Hi Er En) as (b & s1 & -> & E1 & H1 & T1). rewrite Er in E1. rewrite bind_Ret, E1, bind_Ret.
    destruct (IH s1 _ H1) as (acc & out & s' & q' & -> & Eq & H' & T'). exists (p :: acc), out, s', q'.
    split_and!; [done| |done|congruence]. by rewrite <- Eq, <- app_assoc.
  - pose proof (pb_send _ _ Hi) as Hs. destruct q as [|p q]; rewrite Hs; [by apply IH|].
    destruct (h_output _ _ (pb_holds _ _ Hi)) as [-> ->].
    destruct (head_len _ _ _ (h_laid _ _ (pb_holds _ _ Hi))) as (_ & -> & _). rewrite bind_Ret.
    destruct (output_done_inv s q p Hi) as (s1 & -> & H1 & T1 & _). rewrite bind_Ret.
    destruct (IH s1 q H1) as (acc & out & s' & q' & -> & Eq & H' & T'). exists acc, (p :: out), s', q'.
    split_and!; [done| |done|congruence]. simpl. by rewrite Eq.
Qed.

Lemma PacketBuffer_Init_inv alloc mt num m :
  0 ≤ mt → 0 < num → 4 * ((1 + bdivide_up mt 4) * (num + 1)) ≤ INT_MAX →
  alloc ((1 + bdivide_up mt 4) * (num + 1)) = Some m → zlen m = 4 * ((1 + bdivide_up mt 4) * (num + 1)) →
  ∃ s, PacketBuffer_Init alloc mt num = Ret (Some s) ∧ pb_inv s [] ∧ input_mtu s = mt.
Proof.
  intros Hm Hn Hsz Ha Hz. pose proof (bdivide_up_spec mt Hm) as Hb. unfold PacketBuffer_Init.
  rewrite calc_blocks_spec by (unfold INT_MAX in *; nia).
  set (n := (1 + bdivide_up mt 4) * (num + 1)) in *. assert (bdivide_up mt 4 + 1 ≤ n) by (unfold n; nia).
  rewrite (proj2 (Z.ltb_ge INT_MAX n)) by lia. if_false. rewrite Ha.
  destruct (init_holds m n mt Hz Hsz Hm ltac:(lia)) as (b0 & -> & H0 & _ & M0). rewrite bind_Ret.
  eexists. split; [done|]. split; [|done].
  destruct (room_empty b0 H0) as [_ Hr]. split; cbn; [done|by split| |done]. symmetry. solve_bool.
Qed.

(** [PacketBuffer] moves packets in order and cannot stall. Initialised for any
    MTU and at least one packet, under every order of completions the packets sent on
    are the received ones in order, none lost or altered; a receive is outstanding
    exactly when a full packet fits, a send exactly when a packet is queued, and at
    least one of the two is always outstanding. *)
Theorem PacketBuffer_fifo alloc mt num m evs :
  0 ≤ mt → 0 < num → 4 * ((1 + bdivide_up mt 4) * (num + 1)) ≤ INT_MAX →
  alloc ((1 + bdivide_up mt 4) * (num + 1)) = Some m → zlen m = 4 * ((1 + bdivide_up mt 4) * (num + 1)) →
  ∃ s0 acc out s q, PacketBuffer_Init alloc mt num = Ret (Some s0) ∧ pb_run s0 evs = Ret (acc, out, s) ∧
    acc = out ++ q ∧ receiving s = (mt <=? input_avail (buf s)) ∧
    sending s = match q with [] => false | _ => true end ∧ receiving s || sending s = true.
Proof.
  intros Hm Hn Hsz Ha Hz. pose proof (bdivide_up_spec mt Hm) as Hb.
  destruct (PacketBuffer_Init_inv alloc mt num m Hm Hn Hsz Ha Hz) as (s0 & E0 & Hi & Hm0).
  destruct (pb_run_inv _ _ evs Hi) as (acc & out & s & q & Er & Eq & Hs & Hmt). rewrite Hm0 in Hmt.
  exists s0, acc, out, s, q.
  pose proof (pb_recv _ _ Hs) as Hr. rewrite Hmt in Hr. split_and!; try done; [by destruct Hs|].
  pose proof (pb_send _ _ Hs) as Hsd. destruct q as [|x q]; rewrite Hsd; [|by rewrite orb_true_r].
  rewrite orb_false_r, Hr. destruct (room_empty _ (pb_holds _ _ Hs)) as [_ Hroom].
  destruct (pb_mtu _ _ Hs) as [_ Hmm]. rewrite Hmt in Hmm. solve_bool.
Qed.

Lemma PacketBuffer_fifo_witness :
  ∃ s0 acc out s q, PacketBuffer_Init (λ n, Some (fresh_mem (4 * n))) 8 1 = Ret (Some s0) ∧
    pb_run s0 demo_events = Ret (acc, out, s) ∧ acc = out ++ q ∧ receiving s || sending s = true.
Proof.
  destruct (PacketBuffer_fifo (λ n, Some (fresh_mem (4 * n))) 8 1 (fresh_mem 24) demo_events)
    as (s0 & acc & out & s & q & H1 & H2 & H3 & _ & _ & H4);
    [lia|lia|vm_compute; discriminate|reflexivity|reflexivity|].
  exists s0, acc, out, s, q. by split_and!.
Defined.
