(* ===== verification/PacketProto.v ===== *)
(** * badvpn packet framing: PacketProtoEncoder, PacketProtoDecoder, PacketStreamSender,
      BufferWriter, PacketProtoFlow and PacketPassConnector

    Packets travel over a byte stream as a 16-bit little-endian length and the
    payload. The flow interfaces are asynchronous: a component asks for an operation
    and is told later that it is done. Here an outstanding operation is part of the
    component's state ([action]), a completion is a call of the handler. *)
From S2P Require Import Prelude Encrypt ChunkBuffer.

Definition PACKETPROTO_MAXPAYLOAD : Z := 65535.
Definition sizeof_header : Z := 2.
Definition PACKETPROTO_ENCLEN (n : Z) : Z := sizeof_header + n.

(** [htol16] / [ltoh16] through memory. *)
Definition le16 (n : Z) : list Z := [u8 n; u8 (Z.shiftr n 8)].
Definition of_le16 (l : list Z) : Z := match l with [b0; b1] => b0 + 256 * b1 | _ => 0 end.

(** ** PacketProtoEncoder: [m] is the object the output packet lies in *)
Record PacketProtoEncoder := mkenc { output_packet : option Z }.

(** The result is where the encoder asks its input to put the payload. *)
Definition enc_output_handler_recv (e : PacketProtoEncoder) (dst : Z) : PacketProtoEncoder * Z :=
  (mkenc (Some dst), dst + sizeof_header).

(** The result is the length reported to the output. *)
Definition enc_input_handler_done (e : PacketProtoEncoder) (m : list Z) (in_len : Z)
  : outcome (list Z * PacketProtoEncoder * Z) :=
  match output_packet e with
  | None => Fault
  | Some dst => m ← mwrite m dst (le16 (u16 in_len)); Ret (m, mkenc None, PACKETPROTO_ENCLEN in_len)
  end.

(** ** PacketProtoDecoder *)
Inductive action := ARecv (off n : Z) | ASend (off n : Z).

Record PacketProtoDecoder := mkdec {
  dbuf : list Z; buf_size : Z; buf_start : Z; buf_used : Z; output_mtu : Z; act : action }.

Definition dec_at (d : PacketProtoDecoder) (m : list Z) (st us : Z) (a : action) : PacketProtoDecoder :=
  mkdec m (buf_size d) st us (output_mtu d) a.

(** The receive request at the end of [process_data]. *)
Definition dec_recv (d : PacketProtoDecoder) (m : list Z) (st us : Z) : PacketProtoDecoder :=
  dec_at d m st us (ARecv (st + us) (buf_size d - (st + us))).

(** The wait for more data when no error happened. *)
Definition dec_more (d : PacketProtoDecoder) : outcome PacketProtoDecoder :=
  if buf_start d + buf_used d =? buf_size d then
    m ← memmove (dbuf d) 0 (buf_start d) (buf_used d);
    Ret (dec_recv d m 0 (buf_used d))
  else Ret (dec_recv d (dbuf d) (buf_start d) (buf_used d)).

(** The boolean says that [handler_error] was called. *)
Definition process_data (d : PacketProtoDecoder) : outcome (PacketProtoDecoder * bool) :=
  let data := buf_start d in
  let left := buf_used d in
  if left <? sizeof_header then d ← dec_more d; Ret (d, false)
  else
    h ← mread (dbuf d) data sizeof_header;
    let data := data + sizeof_header in
    let left := left - sizeof_header in
    let data_len := of_le16 h in
    if output_mtu d <? data_len then Ret (dec_recv d (dbuf d) 0 0, true)
    else if left <? data_len then d ← dec_more d; Ret (d, false)
    else Ret (dec_at d (dbuf d) (buf_start d + (sizeof_header + data_len)) (buf_used d - (sizeof_header + data_len))
                (ASend data data_len), false).

(** The requested receive put [l] at its place. *)
Definition dec_input_handler_done (d : PacketProtoDecoder) (l : list Z) : outcome (PacketProtoDecoder * bool) :=
  match act d with
  | ASend _ _ => Fault
  | ARecv off _ =>
      m ← mwrite (dbuf d) off l;
      process_data (dec_at d m (buf_start d) (buf_used d + zlen l) (act d))
  end.
Definition dec_output_handler_done (d : PacketProtoDecoder) : outcome (PacketProtoDecoder * bool) := process_data d.

Definition PacketProtoDecoder_Init (alloc : Z → option (list Z)) (mtu : Z) : option PacketProtoDecoder :=
  let output_mtu := Z.min mtu PACKETPROTO_MAXPAYLOAD in
  let size := PACKETPROTO_ENCLEN output_mtu in
  match alloc size with
  | None => None
  | Some m => Some (mkdec m size 0 0 output_mtu (ARecv 0 size))
  end.

Definition PacketProtoDecoder_Reset (d : PacketProtoDecoder) : PacketProtoDecoder :=
  dec_at d (dbuf d) (buf_start d + buf_used d) 0 (act d).

(** ** PacketStreamSender: [in_len = -1] when there is no packet *)
Inductive stream_action := SSend (off n : Z) | SDone.
Record PacketStreamSender := mkpss { in_packet : list Z; in_len : Z; in_used : Z }.

Definition send_data (s : PacketStreamSender) : PacketStreamSender * stream_action :=
  if in_used s <? in_len s then (s, SSend (in_used s) (in_len s - in_used s))
  else (mkpss (in_packet s) (-1) (in_used s), SDone).
Definition pss_input_handler_send (s : PacketStreamSender) (p : list Z) : PacketStreamSender * stream_action :=
  send_data (mkpss p (zlen p) 0).
Definition pss_output_handler_done (s : PacketStreamSender) (data_len : Z) : PacketStreamSender * stream_action :=
  send_data (mkpss (in_packet s) (in_len s) (in_used s + data_len)).

(** ** BufferWriter *)
Record BufferWriter := mkbw { out : option Z }.      (* [out_have] and [out] *)
Definition bw_output_handler_recv (w : BufferWriter) (dst : Z) : BufferWriter := mkbw (Some dst).
Definition BufferWriter_StartPacket (w : BufferWriter) : option Z := out w.
Definition BufferWriter_EndPacket (w : BufferWriter) (len : Z) : BufferWriter * Z := (mkbw None, len).

(** ** PacketProtoFlow: BufferWriter, then PacketProtoEncoder, then PacketBuffer *)
Record PacketProtoFlow := mkflow { ainput : BufferWriter; encoder : PacketProtoEncoder; buffer_ : PacketBuffer }.

(** A receive request of the buffer goes through the encoder to the writer. *)
Definition flow_request (w : BufferWriter) (e : PacketProtoEncoder) (p : PacketBuffer) : PacketProtoFlow :=
  match receiving p, input_dest (buf p) with
  | true, Some dst =>
      let '(e, dst) := enc_output_handler_recv e dst in mkflow (bw_output_handler_recv w dst) e p
  | _, _ => mkflow w e p
  end.

Definition PacketProtoFlow_Init (alloc : Z → option (list Z)) (mtu num_packets : Z) : outcome (option PacketProtoFlow) :=
  r ← PacketBuffer_Init alloc (PACKETPROTO_ENCLEN mtu) num_packets;
  Ret (option_map (flow_request (mkbw None) (mkenc None)) r).

(** The user writes packet [pk] where [BufferWriter_StartPacket] says and ends it;
    [None]: no packet can be started now. *)
Definition flow_write (f : PacketProtoFlow) (pk : list Z) : outcome (option PacketProtoFlow) :=
  match BufferWriter_StartPacket (ainput f) with
  | None => Ret None
  | Some dst =>
      m ← mwrite (mem (buf (buffer_ f))) dst pk;
      let '(w, len) := BufferWriter_EndPacket (ainput f) (zlen pk) in
      '(m, e, len) ← enc_input_handler_done (encoder f) m len;
      let p := buffer_ f in
      p ← input_handler_done (mkpb (set_mem (buf p) m) (input_mtu p) (receiving p) (sending p)) len;
      Ret (Some (flow_request w e p))
  end.

(** The output has taken the head packet. *)
Definition flow_sent (f : PacketProtoFlow) : outcome PacketProtoFlow :=
  let was := receiving (buffer_ f) in
  p ← output_handler_done (buffer_ f);
  Ret (if was then mkflow (ainput f) (encoder f) p else flow_request (ainput f) (encoder f) p).

(** ** PacketPassConnector *)
Record PacketPassConnector := mkconnr { c_in : list Z; c_in_len : Z; c_output : bool }.
(** The boolean says that the held packet was handed to the output. *)
Definition ppc_input_handler_send (o : PacketPassConnector) (p : list Z) : PacketPassConnector * bool :=
  (mkconnr p (zlen p) (c_output o), c_output o).
Definition ppc_output_handler_done (o : PacketPassConnector) : PacketPassConnector :=
  mkconnr (c_in o) (-1) (c_output o).
Definition PacketPassConnector_Init : PacketPassConnector := mkconnr [] (-1) false.
Definition PacketPassConnector_ConnectOutput (o : PacketPassConnector) : PacketPassConnector * bool :=
  (mkconnr (c_in o) (c_in_len o) true, 0 <=? c_in_len o).
Definition PacketPassConnector_DisconnectOutput (o : PacketPassConnector) : PacketPassConnector :=
  mkconnr (c_in o) (c_in_len o) false.

(** ** Frames *)
Definition frame (p : list Z) : list Z := le16 (zlen p) ++ p.
Definition packet_ok (mtu : Z) (p : list Z) : Prop := zlen p ≤ mtu.

Lemma of_le16_le16 n : 0 ≤ n < 65536 → of_le16 (le16 n) = n.
Proof. intros. unfold of_le16, le16, u8. rewrite Z.shiftr_div_pow2 by lia. zdiv. Qed.

Lemma frame_length p : zlen (frame p) = 2 + zlen p.
Proof. unfold frame. rewrite length_app. simpl. lia. Qed.

(** The start of a frame that has not arrived completely. *)
Definition partial (mtu : Z) (t : list Z) : Prop := ∃ p y, frame p = t ++ y ∧ y ≠ [] ∧ zlen p ≤ mtu.

(** Any prefix of a stream of frames: whole frames, then part of one. *)
Lemma prefix_split mtu ps x y :
  0 ≤ mtu → Forall (packet_ok mtu) ps → x ++ y = concat (map frame ps) →
  ∃ ps1 ps2 t, ps = ps1 ++ ps2 ∧ x = concat (map frame ps1) ++ t ∧ t ++ y = concat (map frame ps2) ∧
    partial mtu t ∧ (t = [] ∨ ps2 ≠ []).
Proof.
  intros Hm Hps. revert x. induction Hps as [|p ps Hp Hps IH]; intros x E; cbn [map concat] in E.
  - apply app_eq_nil in E as [-> ->]. exists [], [], []. split_and!; try done; [|by left].
    exists [], (frame []). split_and!; [done|done|simpl; lia].
  - apply app_eq_inv in E as [(k & -> & Hk)|(k & Hf & ->)].
    + destruct (IH k (eq_sym Hk)) as (ps1 & ps2 & t & -> & -> & Ht & Hpt & Hor).
      exists (p :: ps1), ps2, t. split_and!; [done| |done|done|done]. cbn [map concat]. by rewrite app_assoc.
    + destruct k as [|z k].
      * rewrite app_nil_r in Hf. subst x. destruct (IH [] eq_refl) as (ps1 & ps2 & t & -> & Et & Ht & Hpt & Hor).
        exists (p :: ps1), ps2, t. split_and!; [done| |done|done|done]. cbn [map concat]. rewrite <- app_assoc, <- Et. by rewrite app_nil_r.
      * exists [], (p :: ps), x. split_and!; [done|done|cbn [map concat]; by rewrite app_assoc, <- Hf| |by right].
        exists p, (z :: k). by split_and!.
Qed.

(** ** The decoder's buffer *)
Record dec_ok (d : PacketProtoDecoder) (x : list Z) : Prop := {
  do_size : zlen (dbuf d) = buf_size d ∧ buf_size d = 2 + output_mtu d;
  do_mtu : 0 ≤ output_mtu d ≤ PACKETPROTO_MAXPAYLOAD;
  do_range : 0 ≤ buf_start d ∧ 0 ≤ buf_used d ∧ buf_start d + buf_used d ≤ buf_size d;
  do_data : mread (dbuf d) (buf_start d) (buf_used d) = Ret x }.

(** Waiting for data, with [x] unparsed. *)
Record dec_waiting (d : PacketProtoDecoder) (x : list Z) : Prop := {
  dw_ok : dec_ok d x;
  dw_act : act d = ARecv (buf_start d + buf_used d) (buf_size d - (buf_start d + buf_used d));
  dw_room : buf_start d + buf_used d < buf_size d }.

Lemma mread_split m off n a b :
  mread m off n = Ret (a ++ b) → mread m off (zlen a) = Ret a ∧ mread m (off + zlen a) (zlen b) = Ret b.
Proof.
  intros H. pose proof (mread_Ret _ _ _ _ H) as (H1 & H2 & H3 & E & H4). rewrite length_app in H4.
  unfold mread in *. if_true. if_true. split; f_equal.
  - apply (f_equal (take (length a))) in E. rewrite take_app_length, take_take in E.
    rewrite E at 2. f_equal. lia.
  - apply (f_equal (drop (length a))) in E. rewrite drop_app_length, skipn_firstn_comm, drop_drop in E.
    rewrite E at 2. f_equal; [lia|f_equal; lia].
Qed.

Lemma mread_join m o a b x y :
  mread m o a = Ret x → mread m (o + a) b = Ret y → mread m o (a + b) = Ret (x ++ y).
Proof.
  intros (H1 & H2 & H3 & -> & _)%mread_Ret (H4 & H5 & H6 & -> & _)%mread_Ret. unfold mread. if_true. f_equal.
  rewrite !Z2Nat.inj_add, <- drop_drop by lia. set (k := drop (Z.to_nat o) m).
  rewrite <- (take_drop (Z.to_nat a) k) at 1. rewrite take_app_add'; [done|].
  rewrite length_take. unfold k. rewrite length_drop. lia.
Qed.

Lemma mread_whole m off n x : mread m off n = Ret x → n = zlen x.
Proof. intros H. by apply mread_Ret in H as (_ & _ & _ & _ & <-). Qed.

Lemma dec_more_ok d x :
  dec_ok d x → zlen x < buf_size d → ∃ d', dec_more d = Ret d' ∧ dec_waiting d' x ∧ output_mtu d' = output_mtu d.
Proof.
  intros [[Hs1 Hs2] Hm (R1 & R2 & R3) Hd] Hx. pose proof (mread_whole _ _ _ _ Hd) as Hu. unfold dec_more.
  destruct (_ =? _) eqn:E; bool_hyps.
  - unfold memmove. rewrite Hd, bind_Ret.
    pose proof (mwrite_extend [] (dbuf d) 0 x eq_refl ltac:(lia)) as W. rewrite !app_nil_l in W. rewrite W, bind_Ret.
    eexists. split; [done|]. split; [|done]. pose proof (mwrite_length _ _ _ _ W) as Hl.
    split; cbn; [split; cbn; [rewrite Hl; lia|done|lia|]|done|lia].
    rewrite Hu. apply (mread_prefix x).
  - eexists. split; [done|]. split; [|done]. split; cbn; [split; cbn; done|done|lia].
Qed.

(** [process_data] on part of a frame waits; on a whole frame it sends the packet. *)
Lemma process_partial d x :
  dec_ok d x → partial (output_mtu d) x →
  ∃ d', process_data d = Ret (d', false) ∧ dec_waiting d' x ∧ output_mtu d' = output_mtu d.
Proof.
  intros Hok (p & y & Ef & Hy & Hp). pose proof Hok as [[Hs1 Hs2] Hm (R1 & R2 & R3) Hd].
  pose proof (mread_whole _ _ _ _ Hd) as Hu. pose proof (frame_length p) as Hfl. rewrite Ef, length_app in Hfl.
  assert (0 < zlen y) by (destruct y; [done|simpl; lia]).
  destruct (dec_more_ok d x Hok ltac:(lia)) as (d' & Ed & Hw & Hm'). exists d'. split; [|done].
  unfold process_data, sizeof_header. destruct (_ <? 2) eqn:E2; bool_hyps; [by rewrite Ed|].
  assert (∃ z, x = le16 (zlen p) ++ z ∧ p = z ++ y) as (z & -> & Hz).
  { unfold frame in Ef. destruct x as [|x0 [|x1 x]]; [simpl in *; lia..|]. injection Ef as <- <- Ep. by exists x. }
  apply mread_split in Hd as [Hd1 _]. change (zlen (le16 (zlen p))) with 2 in Hd1. rewrite Hd1, bind_Ret.
  unfold PACKETPROTO_MAXPAYLOAD in Hm. rewrite of_le16_le16 by lia. rewrite length_app in Hu, Hfl. simpl (length (le16 _)) in Hu, Hfl. ifs. by rewrite Ed.
Qed.

Lemma process_frame d p y :
  dec_ok d (frame p ++ y) → zlen p ≤ output_mtu d →
  ∃ d' off, process_data d = Ret (d', false) ∧ act d' = ASend off (zlen p) ∧ mread (dbuf d') off (zlen p) = Ret p ∧
    dec_ok d' y ∧ output_mtu d' = output_mtu d.
Proof.
  intros [[Hs1 Hs2] Hm (R1 & R2 & R3) Hd] Hp. pose proof (mread_whole _ _ _ _ Hd) as Hu.
  rewrite length_app, Nat2Z.inj_add, frame_length in Hu. unfold process_data, sizeof_header. if_false.
  pose proof (mread_split _ _ _ _ _ Hd) as [Hd1 Hd2]. rewrite frame_length in Hd1, Hd2.
  unfold frame in Hd1. pose proof (mread_split _ _ _ _ _ Hd1) as [Hh Hpk]. change (zlen (le16 (zlen p))) with 2 in *.
  rewrite Hh, bind_Ret. unfold PACKETPROTO_MAXPAYLOAD in Hm. rewrite of_le16_le16 by lia. if_false. if_false.
  eexists _, _. split; [done|]. cbn. split_and!; [done|done| |done].
  split; cbn; [done|done|lia|]. by replace (buf_used d - (2 + zlen p)) with (zlen y) by lia.
Qed.

(** ** The decoder driven by its two peers *)
(** Deliver packets until the decoder asks for data again. *)
Fixpoint drain (fuel : nat) (d : PacketProtoDecoder) : outcome (list (list Z) * PacketProtoDecoder * bool) :=
  match act d with
  | ARecv _ _ => Ret ([], d, false)
  | ASend off n =>
      match fuel with
      | O => Fault
      | S f =>
          p ← mread (dbuf d) off n;
          '(d, e) ← dec_output_handler_done d;
          if (e : bool) then Ret ([p], d, true)
          else '(ps, d, e) ← drain f d; Ret (p :: ps, d, e)
      end
  end.

Definition feed (d : PacketProtoDecoder) (l : list Z) : outcome (list (list Z) * PacketProtoDecoder * bool) :=
  '(d, e) ← dec_input_handler_done d l;
  if (e : bool) then Ret ([], d, true) else drain (S (length (dbuf d))) d.

(** The stream [s] arrives in pieces; [ns] are the sizes the transport offers, cut to
    at least one byte and at most what the decoder asked for. The result has the
    packets delivered, what of [s] is left, and whether an error was reported. *)
Fixpoint receive_stream (d : PacketProtoDecoder) (s : list Z) (ns : list Z)
  : outcome (list (list Z) * list Z * PacketProtoDecoder * bool) :=
  match ns with
  | [] => Ret ([], s, d, false)
  | n :: ns' =>
      match s, act d with
      | [], _ => Ret ([], [], d, false)
      | _, ASend _ _ => Fault
      | _, ARecv _ room =>
          let k := Z.to_nat (Z.min (Z.max 1 n) room) in
          '(ps, d, e) ← feed d (take k s);
          if (e : bool) then Ret (ps, drop k s, d, true)
          else '(ps', s', d, e) ← receive_stream d (drop k s) ns'; Ret (ps ++ ps', s', d, e)
      end
  end.

Lemma process_drain d ps t fuel :
  dec_ok d (concat (map frame ps) ++ t) → Forall (packet_ok (output_mtu d)) ps → partial (output_mtu d) t →
  (length ps ≤ fuel)%nat →
  ∃ d' dn, process_data d = Ret (d', false) ∧ drain fuel d' = Ret (ps, dn, false) ∧ dec_waiting dn t ∧
    output_mtu dn = output_mtu d ∧ (length (dbuf d') = length (dbuf d)).
Proof.
  revert d fuel. induction ps as [|p ps IH]; intros d fuel Hok Hps Ht Hf.
  - destruct (process_partial d t Hok Ht) as (d' & E & Hw & Hm). exists d', d'. split; [done|].
    destruct Hw as [Hw1 Hw2 Hw3]. assert (drain fuel d' = Ret ([], d', false)) as -> by (destruct fuel; simpl; by rewrite Hw2).
    split_and!; [done|by split|done|]. destruct Hw1 as [[? ?] _ _ _], Hok as [[? ?] _ _ _]. lia.
  - inversion Hps as [|?? Hp Hps']; subst. cbn [map concat] in Hok. rewrite <- app_assoc in Hok.
    destruct (process_frame d p _ Hok Hp) as (d' & off & E & Ha & Hr & Hok' & Hm).
    destruct fuel as [|fuel]; [simpl in Hf; lia|].
    destruct (IH d' fuel Hok') as (d2 & dn & E2 & E3 & Hw & Hmn & _); [by rewrite Hm|by rewrite Hm|simpl in Hf; lia|].
    exists d', dn. split; [done|]. cbn [drain]. rewrite Ha, Hr, bind_Ret. unfold dec_output_handler_done.
    rewrite E2, bind_Ret, E3, bind_Ret. split_and!; [done|done|congruence|].
    destruct Hok' as [[? ?] _ _ _], Hok as [[? ?] _ _ _]. lia.
Qed.

Lemma concat_frames_length ps : (length ps ≤ length (concat (map frame ps)))%nat.
Proof. induction ps as [|p ps IH]; cbn [map concat]; [done|]. rewrite length_app. simpl. lia. Qed.

Lemma feed_ok d x l ps t :
  dec_waiting d x → x ++ l = concat (map frame ps) ++ t → 0 < zlen l ≤ buf_size d - (buf_start d + buf_used d) →
  Forall (packet_ok (output_mtu d)) ps → partial (output_mtu d) t →
  ∃ dn, feed d l = Ret (ps, dn, false) ∧ dec_waiting dn t ∧ output_mtu dn = output_mtu d.
Proof.
  intros [[[Hs1 Hs2] Hm (R1 & R2 & R3) Hd] Ha Hr] Ex Hl Hps Ht. unfold feed, dec_input_handler_done. rewrite Ha.
  pose proof (mread_whole _ _ _ _ Hd) as Hu.
  assert (∃ m, mwrite (dbuf d) (buf_start d + buf_used d) l = Ret m) as (m & Em) by (unfold mwrite; if_true; by eexists).
  rewrite Em, bind_Ret. set (d1 := dec_at _ _ _ _ _).
  assert (Hok : dec_ok d1 (concat (map frame ps) ++ t)).
  { rewrite <- Ex. split; cbn; [rewrite (mwrite_length _ _ _ _ Em); lia|done|lia|].
    assert (H1 : mread m (buf_start d) (buf_used d) = Ret x) by (eapply mread_mwrite_disjoint; [exact Em|exact Hd|lia]).
    by apply (mread_join _ _ _ _ _ _ H1), (mread_mwrite_same _ _ _ _ Em). }
  destruct (process_drain d1 ps t (S (length (dbuf d1))) Hok Hps Ht) as (d' & dn & E1 & E2 & Hw & Hmn & Hlen).
  { pose proof (concat_frames_length ps). destruct Hok as [[H1 H2] _ (_ & _ & H3) H4].
    apply mread_Ret in H4 as (H5 & _ & H6 & _ & H7). rewrite length_app in H7. lia. }
  rewrite E1, bind_Ret. cbv match. rewrite Hlen. exists dn. by split_and!.
Qed.

(** A stream of frames through the decoder, from any waiting state. *)
Lemma receive_stream_ok d x s ns ps :
  dec_waiting d x → partial (output_mtu d) x → x ++ s = concat (map frame ps) → Forall (packet_ok (output_mtu d)) ps →
  ∃ out s' dn qs x', receive_stream d s ns = Ret (out, s', dn, false) ∧ ps = out ++ qs ∧
    dec_waiting dn x' ∧ partial (output_mtu d) x' ∧ x' ++ s' = concat (map frame qs) ∧
    ((length s ≤ length ns)%nat → s' = []).
Proof.
  revert d x s ps. induction ns as [|n ns IH]; intros d x s ps Hw Hx E Hps.
  - exists [], s, d, ps, x. split_and!; try done. by destruct s; simpl; [|lia].
  - destruct s as [|z s]; [exists [], [], d, ps, x; by split_and!|].
    cbn [receive_stream]. pose proof Hw as [[[Hs1 Hs2] Hm (R1 & R2 & R3) Hd] Ha Hr]. rewrite Ha.
    set (room := buf_size d - _) in *. set (k := Z.to_nat (Z.min (Z.max 1 n) room)).
    assert (0 < zlen (take k (z :: s)) ≤ room) as Hk by (rewrite length_take; unfold k, room; simpl length; lia).
    assert (E' : (x ++ take k (z :: s)) ++ drop k (z :: s) = concat (map frame ps)) by (by rewrite <- app_assoc, take_drop).
    destruct (prefix_split (output_mtu d) ps _ _ ltac:(lia) Hps E') as (ps1 & ps2 & t & -> & E1 & E2 & Ht & _).
    apply Forall_app in Hps as [Hps1 Hps2].
    destruct (feed_ok d x _ ps1 t Hw E1 Hk Hps1 Ht) as (d1 & -> & Hw1 & Hm1). rewrite bind_Ret. cbv match.
    destruct (IH d1 t _ ps2 Hw1 ltac:(by rewrite Hm1) E2 ltac:(by rewrite Hm1))
      as (out & s' & dn & qs & x' & -> & -> & Hwn & Hx' & En & Hlen). rewrite bind_Ret.
    exists (ps1 ++ out), s', dn, qs, x'. split_and!; [done|by rewrite app_assoc|done|by rewrite <- Hm1|done|].
    intros Hle. apply Hlen. rewrite length_drop. unfold k. simpl length in *. lia.
Qed.

(** A part of a frame is not a stream of whole frames. *)
Lemma partial_stream mtu x qs : partial mtu x → Forall (packet_ok mtu) qs → 0 ≤ mtu ≤ PACKETPROTO_MAXPAYLOAD →
  x = concat (map frame qs) → qs = [].
Proof.
  intros (p & y & Ef & Hy & Hp) Hq Hm E. unfold PACKETPROTO_MAXPAYLOAD in Hm. destruct qs as [|q qs]; [done|]. exfalso.
  inversion Hq as [|?? Hq1 _]; subst. unfold packet_ok in Hq1. cbn [map concat] in Ef. rewrite <- app_assoc in Ef.
  assert (zlen p = zlen q) as Hl.
  { unfold frame in Ef. cbn [le16 app] in Ef. injection Ef as E0 E1 _. unfold u8 in *. rewrite !Z.shiftr_div_pow2 in * by lia. zdiv. }
  apply (f_equal length) in Ef. rewrite !length_app in Ef. pose proof (frame_length p). pose proof (frame_length q).
  destruct y; [done|simpl in Ef; lia].
Qed.

(** A new decoder. *)
Lemma decoder_init_waiting alloc mtu d :
  0 ≤ mtu → (∀ n m, alloc n = Some m → zlen m = n) → PacketProtoDecoder_Init alloc mtu = Some d →
  dec_waiting d [] ∧ output_mtu d = Z.min mtu PACKETPROTO_MAXPAYLOAD ∧ partial (output_mtu d) [].
Proof.
  intros Hm Ha Hd. unfold PacketProtoDecoder_Init in Hd. destruct (alloc _) as [m|] eqn:E; [|done].
  injection Hd as <-. apply Ha in E. unfold PACKETPROTO_ENCLEN, sizeof_header, PACKETPROTO_MAXPAYLOAD in *.
  set (M := Z.min mtu 65535) in *. split_and!; [|done|].
  - split; cbn; [split; cbn; [lia|unfold PACKETPROTO_MAXPAYLOAD; lia|lia|]|f_equal; lia|lia].
    unfold mread. if_true. reflexivity.
  - exists [], (frame []); split_and!; [done|done|simpl; lia].
Qed.

Lemma decoder_stream alloc mtu d ps ns :
  0 ≤ mtu → (∀ n m, alloc n = Some m → zlen m = n) → PacketProtoDecoder_Init alloc mtu = Some d →
  Forall (packet_ok (Z.min mtu PACKETPROTO_MAXPAYLOAD)) ps →
  ∃ out s' dn, receive_stream d (concat (map frame ps)) ns = Ret (out, s', dn, false) ∧
    out `prefix_of` ps ∧ ((length (concat (map frame ps)) ≤ length ns)%nat → out = ps ∧ s' = []).
Proof.
  intros Hm Ha Hd Hps. destruct (decoder_init_waiting alloc mtu d Hm Ha Hd) as (Hw & HM & Hp0). rewrite <- HM in Hps.
  destruct (receive_stream_ok d [] (concat (map frame ps)) ns ps Hw Hp0 eq_refl Hps)
    as (out & s' & dn & qs & x' & Er & -> & _ & Hx & Eq & Hl).
  exists out, s', dn. split_and!; [done|by eexists|]. intros Hle. specialize (Hl Hle). rewrite Hl, app_nil_r in Eq.
  apply Forall_app in Hps as [_ Hqs]. pose proof (do_mtu _ _ (dw_ok _ _ Hw)) as Hmm.
  rewrite (partial_stream _ x' qs Hx Hqs Hmm Eq), app_nil_r. by split.
Qed.

(** Framing round trip. A stream of frames of packets no longer than the
    decoder's MTU, received in pieces of any sizes, is turned back into the same
    packets in the same order without error; once every byte has arrived, all of
    them have been delivered. *)
Theorem decoder_stream_roundtrip alloc mtu d ps ns :
  0 ≤ mtu → (∀ n m, alloc n = Some m → zlen m = n) → PacketProtoDecoder_Init alloc mtu = Some d →
  Forall (packet_ok (Z.min mtu PACKETPROTO_MAXPAYLOAD)) ps →
  ∃ out s' dn, receive_stream d (concat (map frame ps)) ns = Ret (out, s', dn, false) ∧
    out `prefix_of` ps ∧ ((length (concat (map frame ps)) ≤ length ns)%nat → out = ps).
Proof.
  intros Hm Ha Hd Hps. destruct (decoder_stream alloc mtu d ps ns Hm Ha Hd Hps) as (out & s' & dn & E & Hp & Hl).
  exists out, s', dn. split_and!; [done|done|]. intros H. by apply Hl.
Qed.

(** [malloc] as a function: fails on a negative size. *)
Definition demo_alloc (n : Z) : option (list Z) := if 0 <=? n then Some (fresh_mem n) else None.

Lemma decoder_stream_roundtrip_witness :
  ∃ d out s' dn, PacketProtoDecoder_Init demo_alloc 4 = Some d ∧
    receive_stream d (concat (map frame [[1; 2]; []; [3; 4; 5; 6]])) (replicate 12 3) = Ret (out, s', dn, false) ∧
    out = [[1; 2]; []; [3; 4; 5; 6]].
Proof.
  destruct (decoder_stream_roundtrip demo_alloc 4 (mkdec (fresh_mem 6) 6 0 0 4 (ARecv 0 6))
    [[1; 2]; []; [3; 4; 5; 6]] (replicate 12 3)) as (out & s' & dn & E & _ & H).
  - lia.
  - intros n m. unfold demo_alloc. case_match; [|done]. intros [= <-]. bool_hyps. by apply length_fresh_mem.
  - reflexivity.
  - repeat (constructor; [vm_compute; discriminate|]). constructor.
  - eexists _, out, s', dn. split; [reflexivity|]. split; [exact E|]. apply H. simpl. lia.
Defined.

(** A length above the decoder's MTU is an error: [process_data] reports it,
    drops everything buffered and asks for data for the whole buffer again; the
    packet is never handed on. *)
Theorem decoder_oversized d n x :
  dec_ok d (le16 n ++ x) → output_mtu d < n < 65536 →
  process_data d = Ret (mkdec (dbuf d) (buf_size d) 0 0 (output_mtu d) (ARecv 0 (buf_size d)), true).
Proof.
  intros [[Hs1 Hs2] Hm (R1 & R2 & R3) Hd] Hn. pose proof (mread_whole _ _ _ _ Hd) as Hu.
  rewrite length_app in Hu. simpl (length (le16 _)) in Hu. unfold process_data, sizeof_header. if_false.
  pose proof (mread_split _ _ _ _ _ Hd) as [Hh _]. change (zlen (le16 n)) with 2 in Hh.
  rewrite Hh, bind_Ret, of_le16_le16 by lia. if_true. unfold dec_recv, dec_at. by rewrite Z.sub_0_r.
Qed.

Lemma decoder_oversized_witness :
  process_data (mkdec [5; 0; 9; 9] 4 0 3 2 (ARecv 3 1)) = Ret (mkdec [5; 0; 9; 9] 4 0 0 2 (ARecv 0 4), true).
Proof.
  apply (decoder_oversized (mkdec [5; 0; 9; 9] 4 0 3 2 (ARecv 3 1)) 5 [9]); [|simpl; lia].
  split; cbn; [done|done|lia|reflexivity].
Defined.

(** ** Sending a packet into a stream *)
(** [ns]: how many bytes the stream takes each time, cut to the bytes offered. *)
Fixpoint pss_run (r : PacketStreamSender * stream_action) (ns : list Z) : outcome (list Z * bool) :=
  match r with
  | (s, SDone) => Ret ([], true)
  | (s, SSend off n) =>
      match ns with
      | [] => Ret ([], false)
      | k :: ns' =>
          let j := Z.min (Z.max 1 k) n in
          bs ← mread (in_packet s) off j;
          '(rest, fin) ← pss_run (pss_output_handler_done s j) ns';
          Ret (bs ++ rest, fin)
      end
  end.

Lemma pss_run_from p u ns :
  0 ≤ u ≤ zlen p → (zlen p - u ≤ zlen ns) →
  pss_run (send_data (mkpss p (zlen p) u)) ns = Ret (drop (Z.to_nat u) p, true).
Proof.
  revert u. induction ns as [|k ns IH]; intros u Hu Hn; unfold send_data; cbn [in_used in_len in_packet].
  - simpl in Hn. if_false. rewrite drop_ge by lia. done.
  - destruct (u <? zlen p) eqn:E; bool_hyps; [|rewrite drop_ge by lia; done].
    cbn [pss_run in_packet]. set (j := Z.min _ _). unfold mread at 1. if_true. rewrite bind_Ret.
    unfold pss_output_handler_done. cbn [in_packet in_len in_used].
    rewrite (IH (u + j)), bind_Ret by (simpl length in Hn; lia).
    rewrite Z2Nat.inj_add, <- drop_drop, take_drop by lia. done.
Qed.

(** [PacketStreamSender] hands a packet to the stream completely, in order and
    once, however few bytes the stream takes at a time, and then reports it done. *)
Theorem stream_sender_complete s p ns :
  zlen p ≤ zlen ns → pss_run (pss_input_handler_send s p) ns = Ret (p, true).
Proof. intros H. unfold pss_input_handler_send. rewrite pss_run_from by lia. done. Qed.

Lemma stream_sender_complete_witness :
  pss_run (pss_input_handler_send (mkpss [] (-1) 0) [1; 2; 3; 4; 5]) [2; 1; 7; 0; 0] = Ret ([1; 2; 3; 4; 5], true).
Proof. apply stream_sender_complete. simpl. lia. Defined.

(** ** PacketProtoFlow *)
Lemma mwrite_two m d a b m1 m2 :
  0 ≤ d → mwrite m (d + zlen a) b = Ret m1 → mwrite m1 d a = Ret m2 → mwrite m d (a ++ b) = Ret m2.
Proof.
  intros Hd H1 H2. assert (d + zlen a + zlen b ≤ zlen m) as Hf.
  { unfold mwrite in H1. case_match eqn:E; [|done]. bool_hyps. lia. }
  set (p := take (Z.to_nat d) m). set (x := take (length a) (drop (Z.to_nat d) m)).
  set (y := take (length b) (drop (Z.to_nat d + length a) m)). set (s := drop (Z.to_nat d + length a + length b) m).
  assert (Em : m = p ++ x ++ y ++ s).
  { unfold p, x, y, s. rewrite <- (take_drop (Z.to_nat d) m) at 1. f_equal.
    rewrite <- (take_drop (length a) (drop (Z.to_nat d) m)) at 1. f_equal. rewrite drop_drop.
    rewrite <- (take_drop (length b) (drop (Z.to_nat d + length a) m)) at 1. f_equal. by rewrite drop_drop. }
  assert (Lp : zlen p = d) by (unfold p; rewrite length_take; lia).
  assert (Lx : length x = length a) by (unfold x; rewrite length_take, length_drop; lia).
  assert (Ly : length y = length b) by (unfold y; rewrite length_take, length_drop; lia).
  clearbody p x y s. subst m. rewrite (app_assoc p x) in H1.
  replace (d + zlen a) with (zlen (p ++ x)) in H1 by (rewrite length_app; lia).
  rewrite mwrite_app in H1 by done. injection H1 as <-. rewrite <- app_assoc, <- Lp, mwrite_app in H2 by done.
  injection H2 as <-. rewrite <- Lp, (app_assoc x y), mwrite_app by (rewrite !length_app; lia). by rewrite <- app_assoc.
Qed.

(** The flow holds the frames [q]; a write can be started exactly when the buffer is
    receiving, and then goes just behind the header. *)
Record flow_inv (f : PacketProtoFlow) (mtu : Z) (q : list (list Z)) : Prop := {
  fi_buf : pb_inv (buffer_ f) q;
  fi_mtu : 0 ≤ mtu ≤ PACKETPROTO_MAXPAYLOAD ∧ input_mtu (buffer_ f) = PACKETPROTO_ENCLEN mtu;
  fi_req : if receiving (buffer_ f)
           then ∃ dst, input_dest (buf (buffer_ f)) = Some dst ∧ 0 ≤ dst ∧ out (ainput f) = Some (dst + sizeof_header) ∧
                       output_packet (encoder f) = Some dst
           else out (ainput f) = None }.

Lemma flow_request_inv w e p mtu q :
  pb_inv p q → 0 ≤ mtu ≤ PACKETPROTO_MAXPAYLOAD → input_mtu p = PACKETPROTO_ENCLEN mtu → out w = None →
  flow_inv (flow_request w e p) mtu q ∧ buffer_ (flow_request w e p) = p.
Proof.
  intros Hp Hm Hi Hw. unfold flow_request. destruct (receiving p) eqn:Er.
  - pose proof (receiving_dest p q Hp Er) as Ed. rewrite Ed. cbn. split; [|done].
    split; cbn; [done|done|]. rewrite Er. eexists. split_and!; [exact Ed| |done|done].
    destruct (input_of_spec _ _ (h_laid _ _ (pb_holds _ _ Hp))) as (He & _). unfold sizeof_block. lia.
  - split; [|done]. split; cbn; [done|done|]. by rewrite Er.
Qed.

Lemma flow_write_inv f mtu q pk :
  flow_inv f mtu q → zlen pk ≤ mtu →
  flow_write f pk = Ret None ∧ receiving (buffer_ f) = false ∨
  ∃ f', flow_write f pk = Ret (Some f') ∧ flow_inv f' mtu (q ++ [frame pk]).
Proof.
  intros [Hb [Hm Hi] Hr] Hp. unfold flow_write, BufferWriter_StartPacket.
  destruct (receiving (buffer_ f)) eqn:Er; [right|left; by rewrite Hr].
  destruct Hr as (dst & Ed & Hd & Eo & Ep). rewrite Eo. unfold PACKETPROTO_ENCLEN, sizeof_header, PACKETPROTO_MAXPAYLOAD in *.
  destruct (input_done_inv (buffer_ f) q (frame pk) Hb Er) as (b & p' & Ew & Eh & Hb' & Hmt').
  { rewrite frame_length. lia. }
  unfold write_packet in Ew. rewrite Ed in Ew. apply bind_Ret_inv in Ew as (m & Em & Ew). injection Ew as <-.
  assert (∃ m1, mwrite (mem (buf (buffer_ f))) (dst + 2) pk = Ret m1) as (m1 & E1).
  { unfold mwrite in Em |- *. destruct (_ && _) eqn:E in Em; [|done]. rewrite frame_length in E. bool_hyps. if_true. by eexists. }
  assert (mwrite m1 dst (le16 (zlen pk)) = Ret m) as E2.
  { pose proof (mwrite_length _ _ _ _ E1) as Hl.
    assert (∃ m2, mwrite m1 dst (le16 (zlen pk)) = Ret m2) as (m2 & E2).
    { unfold mwrite in Em |- *. destruct (_ && _) eqn:E in Em; [|done]. rewrite frame_length in E. bool_hyps.
      rewrite Hl. simpl (length (le16 _)). if_true. by eexists. }
    pose proof (mwrite_two _ _ (le16 (zlen pk)) pk _ _ Hd E1 E2) as E3. fold (frame pk) in E3. congruence. }
  rewrite E1, bind_Ret. cbn [BufferWriter_EndPacket]. unfold enc_input_handler_done. rewrite Ep.
  rewrite (u16_small (zlen pk)) by lia. rewrite E2, !bind_Ret. unfold PACKETPROTO_ENCLEN, sizeof_header.
  rewrite frame_length in Eh. rewrite Er in *. rewrite Eh, bind_Ret. eexists. split; [done|].
  apply flow_request_inv; [done|done| |done]. by rewrite Hmt'.
Qed.

Lemma flow_sent_inv f mtu p q :
  flow_inv f mtu (p :: q) → ∃ f', flow_sent f = Ret f' ∧ flow_inv f' mtu q.
Proof.
  intros [Hb [Hm Hi] Hr]. unfold flow_sent. destruct (output_done_inv _ _ _ Hb) as (p' & E & Hb' & Hmt & Hrec).
  rewrite E, bind_Ret. eexists. split; [done|]. destruct (receiving (buffer_ f)) eqn:Er.
  - destruct (Hrec eq_refl) as [Hr' Hd']. split; cbn; [done|split; [done|congruence]|].
    rewrite Hr', Hd'. exact Hr.
  - apply flow_request_inv; [done|done|congruence|done].
Qed.

(** Writes and completed sends; a [Put] is attempted only with a packet of at most
    [mtu] bytes, and a [Take] only when a packet is being sent. *)
Fixpoint flow_run (f : PacketProtoFlow) (mtu : Z) (evs : list event)
  : outcome (list (list Z) * list (list Z) * PacketProtoFlow) :=
  match evs with
  | [] => Ret ([], [], f)
  | Put pk :: evs' =>
      if zlen pk <=? mtu then
        r ← flow_write f pk;
        match r with
        | None => flow_run f mtu evs'
        | Some f => '(acc, sent, f) ← flow_run f mtu evs'; Ret (pk :: acc, sent, f)
        end
      else flow_run f mtu evs'
  | Take :: evs' =>
      if sending (buffer_ f) then
        match output_dest (buf (buffer_ f)) with
        | None => Fault
        | Some d =>
            p ← mread (mem (buf (buffer_ f))) d (output_avail (buf (buffer_ f)));
            f ← flow_sent f;
            '(acc, sent, f) ← flow_run f mtu evs'; Ret (acc, p :: sent, f)
        end
      else flow_run f mtu evs'
  end.

Lemma flow_run_inv f mtu q evs :
  flow_inv f mtu q →
  ∃ acc sent f' q', flow_run f mtu evs = Ret (acc, sent, f') ∧ q ++ map frame acc = sent ++ q' ∧ flow_inv f' mtu q' ∧
    Forall (packet_ok mtu) acc.
Proof.
  revert f q. induction evs as [|[pk|] evs IH]; intros f q Hi; cbn [flow_run].
  - exists [], [], f, q. simpl. rewrite app_nil_r. by split_and!.
  - destruct (zlen pk <=? mtu) eqn:En; bool_hyps; [|by apply IH].
    destruct (flow_write_inv f mtu q pk Hi En) as [[-> _]|(f1 & -> & H1)]; rewrite bind_Ret; [by apply IH|].
    destruct (IH f1 _ H1) as (acc & sent & f' & q' & -> & Eq & H' & Ha). exists (pk :: acc), sent, f', q'.
    split_and!; [done| |done|by constructor]. cbn [map]. by rewrite <- Eq, <- app_assoc.
  - pose proof (pb_send _ _ (fi_buf _ _ _ Hi)) as Hs. destruct q as [|p q]; rewrite Hs; [by apply IH|].
    destruct (h_output _ _ (pb_holds _ _ (fi_buf _ _ _ Hi))) as [-> ->].
    destruct (head_len _ _ _ (h_laid _ _ (pb_holds _ _ (fi_buf _ _ _ Hi)))) as (_ & -> & _). rewrite bind_Ret.
    destruct (flow_sent_inv f mtu p q Hi) as (f1 & -> & H1). rewrite bind_Ret.
    destruct (IH f1 q H1) as (acc & sent & f' & q' & -> & Eq & H' & Ha). exists acc, (p :: sent), f', q'.
    split_and!; [done| |done|done]. simpl. by rewrite Eq.
Qed.

Lemma flow_init_inv alloc mtu num m :
  0 ≤ mtu ≤ PACKETPROTO_MAXPAYLOAD → 0 < num →
  let n := (1 + bdivide_up (PACKETPROTO_ENCLEN mtu) 4) * (num + 1) in
  4 * n ≤ INT_MAX → alloc n = Some m → zlen m = 4 * n →
  ∃ f, PacketProtoFlow_Init alloc mtu num = Ret (Some f) ∧ flow_inv f mtu [].
Proof.
  intros Hm Hn n Hsz Ha Hz. unfold PacketProtoFlow_Init.
  destruct (PacketBuffer_Init_inv alloc (PACKETPROTO_ENCLEN mtu) num m) as (p & -> & Hp & Hpm); try done.
  { unfold PACKETPROTO_ENCLEN, sizeof_header. lia. }
  rewrite bind_Ret. cbn [option_map]. eexists. split; [done|]. by apply flow_request_inv.
Qed.

(** C4: packets through the whole framed connection. Packets written to a
    [PacketProtoFlow] (writer, encoder and buffer) come out of it as frames in the
    order written; when those that were sent are carried as a byte stream to a
    [PacketProtoDecoder] with at least the same MTU, in pieces of any size, the
    decoder delivers exactly the first packets written, unchanged and without error. *)
Theorem flow_end_to_end alloc mtu num m evs f acc sent f' dec_alloc dec_mtu d ns :
  0 ≤ mtu ≤ PACKETPROTO_MAXPAYLOAD → 0 < num →
  4 * ((1 + bdivide_up (PACKETPROTO_ENCLEN mtu) 4) * (num + 1)) ≤ INT_MAX →
  alloc ((1 + bdivide_up (PACKETPROTO_ENCLEN mtu) 4) * (num + 1)) = Some m →
  zlen m = 4 * ((1 + bdivide_up (PACKETPROTO_ENCLEN mtu) 4) * (num + 1)) →
  PacketProtoFlow_Init alloc mtu num = Ret (Some f) → flow_run f mtu evs = Ret (acc, sent, f') →
  mtu ≤ dec_mtu → (∀ n m, dec_alloc n = Some m → zlen m = n) → PacketProtoDecoder_Init dec_alloc dec_mtu = Some d →
  (length (concat sent) ≤ length ns)%nat →
  ∃ dn, receive_stream d (concat sent) ns = Ret (take (length sent) acc, [], dn, false).
Proof.
  intros Hm Hn Hsz Ha Hz Hf Hr Hdm Hda Hd Hns.
  destruct (flow_init_inv alloc mtu num m Hm Hn Hsz Ha Hz) as (f0 & E0 & Hi). rewrite Hf in E0. injection E0 as <-.
  destruct (flow_run_inv f mtu [] evs Hi) as (acc' & sent' & f'' & q' & E & Eq & _ & Hacc).
  rewrite Hr in E. injection E as <- <- <-. cbn [app] in Eq.
  assert (Es : sent = map frame (take (length sent) acc)).
  { rewrite <- firstn_map, Eq, take_app_length. done. }
  set (ps := take (length sent) acc) in *. rewrite Es in Hns |- *.
  assert (Hps : Forall (packet_ok (Z.min dec_mtu PACKETPROTO_MAXPAYLOAD)) ps).
  { apply Forall_take. eapply Forall_impl; [|exact Hacc]. unfold packet_ok. intros. lia. }
  destruct (decoder_stream dec_alloc dec_mtu d ps ns ltac:(lia) Hda Hd Hps) as (out & s' & dn & E' & _ & Hl).
  destruct (Hl Hns) as [-> ->]. by exists dn.
Qed.

Definition flow_demo : list event := [Put [1; 2]; Put [3]; Take; Put [4; 5; 6]; Take].
Definition flow_demo_init : PacketProtoFlow :=
  match PacketProtoFlow_Init (λ n, Some (fresh_mem (4 * n))) 4 2 with Ret (Some f) => f | _ => mkflow (mkbw None) (mkenc None)
    (mkpb (mkcb [] 0 0 0 0 0 None 0 None 0) 0 false false) end.
Definition flow_demo_result : list (list Z) * list (list Z) * PacketProtoFlow :=
  match flow_run flow_demo_init 4 flow_demo with Ret r => r | _ => ([], [], flow_demo_init) end.

Lemma flow_end_to_end_witness :
  ∃ dn, receive_stream (mkdec (fresh_mem 6) 6 0 0 4 (ARecv 0 6)) (concat [frame [1; 2]; frame [3]]) (replicate 7 2)
    = Ret ([[1; 2]; [3]], [], dn, false).
Proof.
  apply (flow_end_to_end (λ n, Some (fresh_mem (4 * n))) 4 2 (fresh_mem 36) flow_demo flow_demo_init
    [[1; 2]; [3]; [4; 5; 6]] [frame [1; 2]; frame [3]] flow_demo_result.2 demo_alloc 4).
  - vm_compute; split; discriminate.
  - lia.
  - vm_compute. discriminate.
  - reflexivity.
  - reflexivity.
  - vm_compute. reflexivity.
  - vm_compute. reflexivity.
  - lia.
  - intros n m. unfold demo_alloc. case_match; [|done]. intros [= <-]. bool_hyps. by apply length_fresh_mem.
  - reflexivity.
  - simpl. lia.
Defined.

(** ** PacketPassConnector *)
Inductive conn_op := CSend (p : list Z) | CDone | CConnect | CDisconnect.

(** One use of the connector as its interfaces allow it: packets accepted from the
    input, packets completed by an output, packets handed to an output. *)
Record conn_log := mklog { accepted : list (list Z); completed : list (list Z); handed : list (list Z) }.

Definition conn_step (s : PacketPassConnector * conn_log) (op : conn_op) : PacketPassConnector * conn_log :=
  let '(o, l) := s in
  let hand (r : PacketPassConnector * bool) (l : conn_log) :=
    (r.1, if r.2 then mklog (accepted l) (completed l) (handed l ++ [c_in r.1]) else l) in
  match op with
  | CSend p => if c_in_len o =? -1
               then hand (ppc_input_handler_send o p) (mklog (accepted l ++ [p]) (completed l) (handed l)) else s
  | CDone => if (0 <=? c_in_len o) && c_output o
             then (ppc_output_handler_done o, mklog (accepted l) (completed l ++ [c_in o]) (handed l)) else s
  | CConnect => if c_output o then s else hand (PacketPassConnector_ConnectOutput o) l
  | CDisconnect => if c_output o then (PacketPassConnector_DisconnectOutput o, l) else s
  end.

Definition conn_inv (s : PacketPassConnector * conn_log) : Prop :=
  let '(o, l) := s in
  (c_in_len o = -1 ∧ accepted l = completed l) ∨
  (c_in_len o = zlen (c_in o) ∧ accepted l = completed l ++ [c_in o] ∧
   (c_output o = true → ∃ h, handed l = h ++ [c_in o])).

Lemma conn_step_inv s op : conn_inv s → conn_inv (conn_step s op).
Proof.
  destruct s as [o l]. intros Hi. destruct op as [p| | |]; cbn [conn_step].
  - destruct (_ =? -1) eqn:E; [|done]. bool_hyps. destruct Hi as [[_ Ha]|[Hl _]]; [|lia].
    right. cbn. destruct (c_output o) eqn:Eo; cbn; rewrite Ha; split_and!; try done. intros _. by eexists.
  - destruct (_ && _) eqn:E; [|done]. bool_hyps. destruct Hi as [[Hl _]|(_ & Ha & _)]; [lia|].
    left. cbn. by rewrite Ha.
  - destruct (c_output o) eqn:Eo; [done|]. destruct Hi as [[Hl Ha]|(Hl & Ha & _)]; cbn.
    + left. rewrite Hl. done.
    + right. rewrite (proj2 (Z.leb_le 0 (c_in_len o))) by lia. cbn. split_and!; [done|done|]. intros _. by eexists.
  - destruct (c_output o) eqn:Eo; [|done]. destruct Hi as [[Hl Ha]|(Hl & Ha & _)]; [by left|right]. cbn. by split_and!.
Qed.

(** [PacketPassConnector] loses no packet when its output goes away. After any
    sequence of sends, completions, connects and disconnects, the accepted packets
    are the completed ones in order plus at most one that is held; and while an
    output is connected, a held packet is the last one handed to it (again after a
    reconnect). *)
Theorem connector_keeps_packets ops :
  let '(o, l) := fold_left conn_step ops (PacketPassConnector_Init, mklog [] [] []) in
  (c_in_len o = -1 ∧ accepted l = completed l) ∨
  (c_in_len o = zlen (c_in o) ∧ accepted l = completed l ++ [c_in o] ∧
   (c_output o = true → ∃ h, handed l = h ++ [c_in o])).
Proof.
  assert (H : ∀ s, conn_inv s → conn_inv (fold_left conn_step ops s)).
  { induction ops as [|op ops IH]; intros s Hs; [done|]. simpl. by apply IH, conn_step_inv. }
  apply (H (PacketPassConnector_Init, mklog [] [] [])). by left.
Qed.
