(* ===== verification/BPending.v ===== *)
(** * badvpn base/BPending.c: the job queue of the reactor

    A group keeps a list of pending jobs; setting a job puts it in front, so the most
    recently set job runs first. Jobs are identified by number (their address);
    [removed] is the mark [BPending__ListIsRemoved] reads. The linked list is the
    list of its entries. *)
From stdpp Require Import gmap.
From S2P Require Import Prelude.
#[local] Set Warnings "-clear-no-such-hyp".

Record BSmallPending := mkjob { handler : Z; user : Z; removed : bool }.
Record BPendingGroup := mkgroup { jobs : list nat; objs : gmap nat BSmallPending }.

(** [BPending__List_Remove]: unlink one entry. *)
Fixpoint list_remove (o : nat) (l : list nat) : list nat :=
  match l with
  | [] => []
  | x :: l' => if decide (x = o) then l' else x :: list_remove o l'
  end.

Definition mark (o : nat) (b : bool) (g : BPendingGroup) : BPendingGroup :=
  mkgroup (jobs g) (alter (λ p, mkjob (handler p) (user p) b) o (objs g)).
Definition is_removed (o : nat) (g : BPendingGroup) : bool :=
  match objs g !! o with Some p => removed p | None => true end.

Definition BPendingGroup_Init : BPendingGroup := mkgroup [] ∅.
Definition BPendingGroup_HasJobs (g : BPendingGroup) : bool := match jobs g with [] => false | _ => true end.
Definition BPendingGroup_PeekJob (g : BPendingGroup) : option nat := head (jobs g).

(** The handler call is the result; [Fault] without a job. *)
Definition BPendingGroup_ExecuteJob (g : BPendingGroup) : outcome (nat * (Z * Z) * BPendingGroup) :=
  match jobs g with
  | [] => Fault
  | o :: l =>
      match objs g !! o with
      | None => Fault
      | Some p => Ret (o, (handler p, user p), mark o true (mkgroup l (objs g)))
      end
  end.

Definition BSmallPending_Init (o : nat) (h u : Z) (g : BPendingGroup) : BPendingGroup :=
  mkgroup (jobs g) (<[o := mkjob h u true]> (objs g)).
Definition BSmallPending_Free (o : nat) (g : BPendingGroup) : BPendingGroup :=
  mkgroup (if is_removed o g then jobs g else list_remove o (jobs g)) (delete o (objs g)).
Definition BSmallPending_SetHandler (o : nat) (h u : Z) (g : BPendingGroup) : BPendingGroup :=
  mkgroup (jobs g) (alter (λ p, mkjob h u (removed p)) o (objs g)).
Definition BSmallPending_Set (o : nat) (g : BPendingGroup) : BPendingGroup :=
  let l := if is_removed o g then jobs g else list_remove o (jobs g) in
  mark o false (mkgroup (o :: l) (objs g)).
Definition BSmallPending_Unset (o : nat) (g : BPendingGroup) : BPendingGroup :=
  if is_removed o g then g else mark o true (mkgroup (list_remove o (jobs g)) (objs g)).
Definition BSmallPending_IsSet (o : nat) (g : BPendingGroup) : bool := negb (is_removed o g).

(** ** The calls a program makes on existing objects *)
Inductive pending_op :=
| OInit (o : nat) (h u : Z) | OFree (o : nat) | OSetHandler (o : nat) (h u : Z)
| OSet (o : nat) | OUnset (o : nat) | OExecute.

Definition allowed (op : pending_op) (g : BPendingGroup) : Prop :=
  match op with
  | OInit o _ _ => objs g !! o = None
  | OFree o | OSetHandler o _ _ | OSet o | OUnset o => is_Some (objs g !! o)
  | OExecute => BPendingGroup_HasJobs g = true
  end.

Definition apply_op (op : pending_op) (g : BPendingGroup) : outcome BPendingGroup :=
  match op with
  | OInit o h u => Ret (BSmallPending_Init o h u g)
  | OFree o => Ret (BSmallPending_Free o g)
  | OSetHandler o h u => Ret (BSmallPending_SetHandler o h u g)
  | OSet o => Ret (BSmallPending_Set o g)
  | OUnset o => Ret (BSmallPending_Unset o g)
  | OExecute => '(_, _, g) ← BPendingGroup_ExecuteJob g; Ret g
  end.

Inductive reachable : BPendingGroup → Prop :=
| reach_init : reachable BPendingGroup_Init
| reach_op g op g' : reachable g → allowed op g → apply_op op g = Ret g' → reachable g'.

(** The mark says whether a job is in the list, and no job is there twice. *)
Record group_ok (g : BPendingGroup) : Prop := {
  go_nodup : NoDup (jobs g);
  go_mark : ∀ o, o ∈ jobs g ↔ ∃ p, objs g !! o = Some p ∧ removed p = false }.

Lemma list_remove_spec o l x : NoDup l → x ∈ list_remove o l ↔ x ∈ l ∧ x ≠ o.
Proof.
  induction 1 as [|y l Hy Hl IH]; simpl; [rewrite elem_of_nil; tauto|].
  destruct (decide (y = o)) as [-> |]; rewrite !elem_of_cons, ?IH; [|naive_solver].
  split; [|naive_solver]. intros Hx. split; [by right|]. by intros ->.
Qed.
Lemma list_remove_nodup o l : NoDup l → NoDup (list_remove o l).
Proof.
  induction 1 as [|y l Hy Hl IH]; simpl; [constructor|]. destruct (decide (y = o)); [done|].
  constructor; [|done]. rewrite list_remove_spec by done. tauto.
Qed.
Lemma list_remove_absent o l : o ∉ l → list_remove o l = l.
Proof. induction l as [|y l IH]; simpl; [done|]. intros H. rewrite decide_False by set_solver. f_equal. set_solver. Qed.

Lemma is_removed_spec g o : group_ok g → is_removed o g = false ↔ o ∈ jobs g.
Proof.
  intros [_ Hm]. rewrite Hm. unfold is_removed. destruct (objs g !! o) as [p|]; split; try done.
  - intros H. by exists p.
  - by intros (p' & [= <-] & ?).
  - by intros (p' & ? & ?).
Qed.

(** What stays of the list when [o] is taken out if it is there. *)
Lemma unlink_spec g o x :
  group_ok g → let l := if is_removed o g then jobs g else list_remove o (jobs g) in
  NoDup l ∧ (x ∈ l ↔ x ∈ jobs g ∧ x ≠ o) ∧ l = list_remove o (jobs g).
Proof.
  intros Hg. pose proof (is_removed_spec g o Hg) as Hr. pose proof (go_nodup g Hg) as Hn. cbn zeta.
  destruct (is_removed o g).
  - assert (o ∉ jobs g) by (intros H; by apply Hr in H). split_and!; [done| |by rewrite list_remove_absent].
    split; [|tauto]. intros H1. split; [done|]. by intros ->.
  - split_and!; [by apply list_remove_nodup|by apply list_remove_spec|done].
Qed.

Lemma execute_ok g o l :
  group_ok g → jobs g = o :: l → ∃ p, objs g !! o = Some p ∧
  BPendingGroup_ExecuteJob g = Ret (o, (handler p, user p), mark o true (mkgroup l (objs g))).
Proof.
  intros [Hn Hm] Hj. destruct (proj1 (Hm o)) as (p & Hp & _); [rewrite Hj; by left|].
  exists p. split; [done|]. unfold BPendingGroup_ExecuteJob. by rewrite Hj, Hp.
Qed.

Lemma mark_lookup o b g x : objs (mark o b g) !! x =
  if decide (x = o) then (λ p, mkjob (handler p) (user p) b) <$> objs g !! o else objs g !! x.
Proof.
  unfold mark. simpl. destruct (decide (x = o)) as [-> |]; [by rewrite lookup_alter_eq|by rewrite lookup_alter_ne].
Qed.

Lemma apply_op_ok op g : group_ok g → allowed op g → ∃ g', apply_op op g = Ret g' ∧ group_ok g'.
Proof.
  intros Hg Ha. pose proof Hg as [Hn Hm]. destruct op as [o h u|o|o h u|o|o|]; cbn [apply_op allowed] in *;
    try (eexists; split; [done|]).
  - split; cbn; [done|]. intros x. rewrite Hm. destruct (decide (x = o)) as [-> |].
    + rewrite lookup_insert_eq, Ha. split; intros (p & ? & ?); naive_solver.
    + by rewrite lookup_insert_ne.
  - destruct (unlink_spec g o 0%nat Hg) as (H1 & _ & _). split; cbn; [done|]. intros x.
    rewrite (proj1 (proj2 (unlink_spec g o x Hg))), Hm. destruct (decide (x = o)) as [-> |].
    + rewrite lookup_delete_eq. naive_solver.
    + rewrite lookup_delete_ne by done. naive_solver.
  - split; cbn; [done|]. intros x. rewrite Hm. destruct (decide (x = o)) as [-> |].
    + rewrite lookup_alter_eq. destruct (objs g !! o); naive_solver.
    + by rewrite lookup_alter_ne.
  - split.
    + cbn. destruct (unlink_spec g o o Hg) as (H1 & H2 & _). constructor; [|done]. rewrite H2. tauto.
    + intros x. unfold BSmallPending_Set. rewrite mark_lookup. cbn. rewrite elem_of_cons, (proj1 (proj2 (unlink_spec g o x Hg))), Hm.
      destruct Ha as (p0 & Hp0). destruct (decide (x = o)) as [-> |].
      * rewrite Hp0. simpl. split; [|by left]. intros _. by eexists.
      * naive_solver.
  - unfold BSmallPending_Unset. pose proof (is_removed_spec g o Hg) as Hr. destruct (is_removed o g) eqn:E; [done|].
    split; cbn; [by apply list_remove_nodup|]. intros x. change (alter _ o (objs g)) with (objs (mark o true g)).
    rewrite mark_lookup, list_remove_spec, Hm by done. destruct (decide (x = o)) as [-> |]; [|naive_solver].
    destruct (objs g !! o); naive_solver.
  - destruct (jobs g) as [|o l] eqn:Ej; [unfold BPendingGroup_HasJobs in Ha; by rewrite Ej in Ha|].
    destruct (execute_ok g o l Hg Ej) as (p & Hp & ->). rewrite bind_Ret. eexists. split; [done|].
    inversion Hn as [|?? Ho Hl]; subst. split; [done|]. intros x. rewrite mark_lookup. cbn.
    specialize (Hm x). rewrite elem_of_cons in Hm. destruct (decide (x = o)) as [-> |]; [|naive_solver].
    rewrite Hp. simpl. split; [done|]. by intros (p' & [= <-] & ?).
Qed.

Lemma reachable_ok g : reachable g → group_ok g.
Proof.
  induction 1 as [|g op g' Hr IH Ha E]; [split; [constructor|]; intros o; cbn; set_solver|].
  destruct (apply_op_ok op g IH Ha) as (g1 & E1 & H1). by replace g' with g1 by congruence.
Qed.

(** C40: the pending-job list is always consistent. In every state reachable by calls
    on existing jobs, no job is listed twice, a job is reported as set exactly when it
    is in the list, and every allowed call (running a job included) succeeds. *)
Theorem pending_consistent g :
  reachable g →
  NoDup (jobs g) ∧ (∀ o, BSmallPending_IsSet o g = true ↔ o ∈ jobs g) ∧
  ∀ op, allowed op g → ∃ g', apply_op op g = Ret g'.
Proof.
  intros Hr. pose proof (reachable_ok g Hr) as Hg.
  split_and!; [by destruct Hg| |].
  - intros o. rewrite <- (is_removed_spec g o Hg). unfold BSmallPending_IsSet. by destruct (is_removed o g).
  - intros op Ha. destruct (apply_op_ok op g Hg Ha) as (g' & E & _). by exists g'.
Qed.

Definition demo_group : BPendingGroup :=
  BSmallPending_Set 1 (BSmallPending_Init 2 20 0 (BSmallPending_Init 1 10 0 BPendingGroup_Init)).
Lemma demo_group_reachable : reachable demo_group.
Proof.
  apply (reach_op (BSmallPending_Init 2 20 0 (BSmallPending_Init 1 10 0 BPendingGroup_Init)) (OSet 1));
    [|by eexists|reflexivity].
  apply (reach_op (BSmallPending_Init 1 10 0 BPendingGroup_Init) (OInit 2 20 0)); [|reflexivity|reflexivity].
  apply (reach_op BPendingGroup_Init (OInit 1 10 0)); [constructor|reflexivity|reflexivity].
Qed.
Lemma pending_consistent_witness :
  NoDup (jobs demo_group) ∧ BSmallPending_IsSet 1 demo_group = true ∧ BSmallPending_IsSet 2 demo_group = false.
Proof.
  split; [|split; reflexivity]. exact (proj1 (pending_consistent demo_group demo_group_reachable)).
Defined.

(** ** Order of execution *)
(** Run the first [n] jobs; the handlers called. *)
Fixpoint run_jobs (n : nat) (g : BPendingGroup) : outcome (list nat * BPendingGroup) :=
  match n with
  | O => Ret ([], g)
  | S n' =>
      '(o, _, g) ← BPendingGroup_ExecuteJob g;
      '(os, g) ← run_jobs n' g; Ret (o :: os, g)
  end.

Lemma set_ok o g : group_ok g → is_Some (objs g !! o) → group_ok (BSmallPending_Set o g).
Proof. intros Hg Ho. destruct (apply_op_ok (OSet o) g Hg Ho) as (g' & [= <-] & H). done. Qed.

Lemma set_jobs o g : group_ok g → jobs (BSmallPending_Set o g) = o :: list_remove o (jobs g).
Proof. intros Hg. cbn. f_equal. by destruct (unlink_spec g o o Hg) as (_ & _ & ->). Qed.

Lemma set_objs o g x : is_Some (objs g !! x) → is_Some (objs (BSmallPending_Set o g) !! x).
Proof.
  intros H. unfold BSmallPending_Set. rewrite mark_lookup. cbn. destruct (decide (x = o)) as [-> |]; [|done].
  destruct H as (p & ->). by eexists.
Qed.

Lemma filter_absent o os (l : list nat) : o ∉ l → filter (λ x, x ∉ os) l = filter (λ x, x ∉ o :: os) l.
Proof.
  induction l as [|y l IH]; [done|]. intros Ho. apply not_elem_of_cons in Ho as [Hy Ho]. rewrite !filter_cons.
  destruct (decide (y ∉ os)).
  - rewrite decide_True by (rewrite not_elem_of_cons; auto). by rewrite IH.
  - rewrite decide_False by (rewrite not_elem_of_cons; tauto). by rewrite IH.
Qed.

Lemma filter_list_remove o os l :
  NoDup l → filter (λ x, x ∉ os) (list_remove o l) = filter (λ x, x ∉ o :: os) l.
Proof.
  induction 1 as [|y l Hy Hl IH]; [done|]. simpl list_remove. destruct (decide (y = o)) as [-> |Hne].
  - rewrite (filter_cons_False _ o) by (rewrite not_elem_of_cons; tauto). by apply filter_absent.
  - rewrite !filter_cons. destruct (decide (y ∉ os)).
    + rewrite decide_True by (rewrite not_elem_of_cons; auto). by rewrite IH.
    + rewrite decide_False by (rewrite not_elem_of_cons; tauto). by rewrite IH.
Qed.

Lemma filter_nothing (l : list nat) : filter (λ x, x ∉ []) l = l.
Proof. induction l as [|y l IH]; [done|]. rewrite filter_cons_True by apply not_elem_of_nil. by rewrite IH. Qed.

Lemma set_all_jobs os g :
  group_ok g → NoDup os → Forall (λ o, is_Some (objs g !! o)) os →
  let g' := fold_left (λ g o, BSmallPending_Set o g) os g in
  group_ok g' ∧ jobs g' = rev os ++ filter (λ x, x ∉ os) (jobs g).
Proof.
  revert g. induction os as [|o os IH]; intros g Hg Hn Ho; cbn [fold_left].
  - split; [done|]. simpl. by rewrite filter_nothing.
  - inversion Hn as [|?? Hn1 Hn2]; subst. inversion Ho as [|?? Ho1 Ho2]; subst.
    destruct (IH (BSmallPending_Set o g)) as [H1 H2]; [by apply set_ok|done| |].
    { eapply Forall_impl; [|exact Ho2]. intros x. by apply set_objs. }
    split; [exact H1|]. rewrite H2, set_jobs by done. simpl rev. rewrite <- app_assoc. f_equal.
    rewrite filter_cons_True by done. simpl. f_equal. by apply filter_list_remove, go_nodup.
Qed.

Lemma run_jobs_prefix os l g :
  group_ok g → jobs g = os ++ l → ∃ g', run_jobs (length os) g = Ret (os, g') ∧ jobs g' = l.
Proof.
  revert g. induction os as [|o os IH]; intros g Hg Hj; cbn [run_jobs length]; [by exists g|].
  destruct (execute_ok g o (os ++ l) Hg Hj) as (p & Hp & E). rewrite E, bind_Ret.
  assert (allowed OExecute g) as Ha by (cbn; unfold BPendingGroup_HasJobs; by rewrite Hj).
  destruct (apply_op_ok OExecute g Hg Ha) as (g1 & E1 & H1). cbn [apply_op] in E1. rewrite E, bind_Ret in E1.
  apply Ret_inj in E1. subst g1. destruct (IH _ H1 eq_refl) as (g' & -> & Hj'). rewrite bind_Ret. by exists g'.
Qed.

(** The most recently set job runs first. From any reachable state, setting
    distinct jobs [os] one after the other and then running that many jobs calls their
    handlers in the reverse order, each once (also a job that was already pending),
    and leaves the jobs pending before, in their old order, without those. *)
Theorem jobs_run_lifo g os :
  reachable g → NoDup os → Forall (λ o, is_Some (objs g !! o)) os →
  ∃ g', run_jobs (length os) (fold_left (λ g o, BSmallPending_Set o g) os g) = Ret (rev os, g') ∧
        jobs g' = filter (λ x, x ∉ os) (jobs g).
Proof.
  intros Hr Hn Ho. destruct (set_all_jobs os g (reachable_ok g Hr) Hn Ho) as [H1 H2].
  rewrite <- (length_rev os). by apply run_jobs_prefix.
Qed.

Lemma jobs_run_lifo_witness :
  ∃ g', run_jobs 2 (BSmallPending_Set 1 (BSmallPending_Set 2 demo_group)) = Ret ([1; 2]%nat, g') ∧ jobs g' = [].
Proof.
  destruct (jobs_run_lifo demo_group [2; 1]%nat demo_group_reachable) as (g' & E & Hj).
  - repeat constructor; set_solver.
  - repeat constructor; by eexists.
  - exists g'. split; [exact E|exact Hj].
Defined.
