(* ===== verification/PacketPassInterface.v ===== *)
(** * The packet passing interface of badvpn

    Models flow/PacketPassInterface.h and flow/PacketPassInterface.c: the
    interface between a sender of packets and their receiver.  A job of the
    interface is a flag, set when it is pending; running a pending job is a
    function that returns what the handler is called with.  A failed [ASSERT]
    is a [Fault].  A packet is the list of the bytes at [data]. *)
From S2P Require Import Prelude.
#[local] Open Scope Z_scope.
#[local] Set Warnings "-clear-no-such-hyp".

Inductive PPI_STATE := PPI_STATE_NONE | PPI_STATE_OPERATION_PENDING | PPI_STATE_BUSY | PPI_STATE_DONE_PENDING.
#[export] Instance PPI_STATE_eq : EqDecision PPI_STATE.
Proof. solve_decision. Defined.

Record PacketPassInterface := mkppi {
  mtu : Z;
  handler_requestcancel : bool;                    (* the handler is set *)
  handler_done : bool;                             (* the handler is set *)
  job_operation : bool; job_operation_data : list Z;
  job_requestcancel : bool;
  job_done : bool;
  state : PPI_STATE;
  cancel_requested : bool }.

Definition is_state (i : PacketPassInterface) (s : PPI_STATE) : bool :=
  match state i, s with
  | PPI_STATE_NONE, PPI_STATE_NONE | PPI_STATE_OPERATION_PENDING, PPI_STATE_OPERATION_PENDING
  | PPI_STATE_BUSY, PPI_STATE_BUSY | PPI_STATE_DONE_PENDING, PPI_STATE_DONE_PENDING => true
  | _, _ => false
  end.

Definition PacketPassInterface_Init (mtu : Z) : outcome PacketPassInterface :=
  _ ← assert (0 <=? mtu);
  Ret (mkppi mtu false false false [] false false PPI_STATE_NONE false).

(** Freeing the interface frees its jobs, which takes them off the queue. *)
Definition PacketPassInterface_Free (i : PacketPassInterface) : PacketPassInterface :=
  mkppi (mtu i) (handler_requestcancel i) (handler_done i) false (job_operation_data i) false false (state i) (cancel_requested i).

Definition PacketPassInterface_EnableCancel (i : PacketPassInterface) : outcome PacketPassInterface :=
  _ ← assert (negb (handler_requestcancel i)); _ ← assert (negb (handler_done i));
  Ret (mkppi (mtu i) true (handler_done i) (job_operation i) (job_operation_data i) (job_requestcancel i) (job_done i) (state i) (cancel_requested i)).

Definition PacketPassInterface_Done (i : PacketPassInterface) : outcome PacketPassInterface :=
  _ ← assert (is_state i PPI_STATE_BUSY);
  Ret (mkppi (mtu i) (handler_requestcancel i) (handler_done i) (job_operation i) (job_operation_data i)
         false true PPI_STATE_DONE_PENDING (cancel_requested i)).

Definition PacketPassInterface_GetMTU (i : PacketPassInterface) : Z := mtu i.

Definition PacketPassInterface_Sender_Init (i : PacketPassInterface) : outcome PacketPassInterface :=
  _ ← assert (negb (handler_done i));
  Ret (mkppi (mtu i) (handler_requestcancel i) true (job_operation i) (job_operation_data i) (job_requestcancel i) (job_done i) (state i) (cancel_requested i)).

Definition PacketPassInterface_Sender_Send (i : PacketPassInterface) (data : list Z) : outcome PacketPassInterface :=
  _ ← assert (zlen data <=? mtu i); _ ← assert (is_state i PPI_STATE_NONE); _ ← assert (handler_done i);
  Ret (mkppi (mtu i) (handler_requestcancel i) (handler_done i) true data (job_requestcancel i) (job_done i)
         PPI_STATE_OPERATION_PENDING false).

Definition PacketPassInterface_Sender_RequestCancel (i : PacketPassInterface) : outcome PacketPassInterface :=
  _ ← assert (is_state i PPI_STATE_OPERATION_PENDING || is_state i PPI_STATE_BUSY || is_state i PPI_STATE_DONE_PENDING);
  _ ← assert (handler_requestcancel i);
  if cancel_requested i then Ret i
  else
    Ret match state i with
        | PPI_STATE_OPERATION_PENDING =>
            mkppi (mtu i) (handler_requestcancel i) (handler_done i) false (job_operation_data i) (job_requestcancel i) true
              PPI_STATE_DONE_PENDING true
        | PPI_STATE_BUSY =>
            mkppi (mtu i) (handler_requestcancel i) (handler_done i) (job_operation i) (job_operation_data i) true (job_done i)
              PPI_STATE_BUSY true
        | s =>
            mkppi (mtu i) (handler_requestcancel i) (handler_done i) (job_operation i) (job_operation_data i) (job_requestcancel i)
              (job_done i) s true
        end.

Definition PacketPassInterface_HasCancel (i : PacketPassInterface) : bool := handler_requestcancel i.

(** The jobs: the pending group clears the flag of a job before it calls its
    handler.  [_PacketPassInterface_job_operation] also returns the packet that
    [handler_operation] is called with. *)
Definition _PacketPassInterface_job_operation (i : PacketPassInterface) : outcome (PacketPassInterface * list Z) :=
  let i := mkppi (mtu i) (handler_requestcancel i) (handler_done i) false (job_operation_data i) (job_requestcancel i) (job_done i)
             (state i) (cancel_requested i) in
  _ ← assert (is_state i PPI_STATE_OPERATION_PENDING);
  Ret (mkppi (mtu i) (handler_requestcancel i) (handler_done i) (job_operation i) (job_operation_data i) (job_requestcancel i) (job_done i)
         PPI_STATE_BUSY (cancel_requested i), job_operation_data i).

Definition _PacketPassInterface_job_requestcancel (i : PacketPassInterface) : outcome PacketPassInterface :=
  let i := mkppi (mtu i) (handler_requestcancel i) (handler_done i) (job_operation i) (job_operation_data i) false (job_done i)
             (state i) (cancel_requested i) in
  _ ← assert (is_state i PPI_STATE_BUSY); _ ← assert (cancel_requested i); _ ← assert (handler_requestcancel i);
  Ret i.

Definition _PacketPassInterface_job_done (i : PacketPassInterface) : outcome PacketPassInterface :=
  let i := mkppi (mtu i) (handler_requestcancel i) (handler_done i) (job_operation i) (job_operation_data i) (job_requestcancel i) false
             (state i) (cancel_requested i) in
  _ ← assert (is_state i PPI_STATE_DONE_PENDING);
  Ret (mkppi (mtu i) (handler_requestcancel i) (handler_done i) (job_operation i) (job_operation_data i) (job_requestcancel i) (job_done i)
         PPI_STATE_NONE (cancel_requested i)).

(** ** The protocol

    The sender sends when nothing is in progress and may cancel when something
    is; the receiver finishes when it is busy; a job runs when it is pending. *)
Inductive ppi_op := PSend (data : list Z) | PCancel | PDone | PRunOperation | PRunRequestCancel | PRunDone.

Definition ppi_allowed (op : ppi_op) (i : PacketPassInterface) : Prop :=
  match op with
  | PSend data => state i = PPI_STATE_NONE ∧ handler_done i = true ∧ zlen data ≤ mtu i
  | PCancel => state i ≠ PPI_STATE_NONE ∧ handler_requestcancel i = true
  | PDone => state i = PPI_STATE_BUSY
  | PRunOperation => job_operation i = true
  | PRunRequestCancel => job_requestcancel i = true
  | PRunDone => job_done i = true
  end.

(** What the two sides saw, kept from their calls alone: the packets sent, in
    order, each with whether its sender asked to cancel it before the receiver
    was called with it; whether the last one is still on its way; the packets the
    receiver was called with; the number of packets reported done. *)
Record ppi_log := mkplog { p_sent : list (list Z * bool); p_waiting : bool; p_got : list (list Z); p_done : nat }.

Fixpoint mark_last (l : list (list Z * bool)) : list (list Z * bool) :=
  match l with
  | [] => []
  | [(d, _)] => [(d, true)]
  | p :: l => p :: mark_last l
  end.

Definition log_send (g : ppi_log) (data : list Z) : ppi_log := mkplog (p_sent g ++ [(data, false)]) true (p_got g) (p_done g).

Definition log_cancel (g : ppi_log) : ppi_log :=
  if p_waiting g then mkplog (mark_last (p_sent g)) false (p_got g) (p_done g) else g.

Definition log_got (g : ppi_log) (data : list Z) : ppi_log := mkplog (p_sent g) false (p_got g ++ [data]) (p_done g).

(** The packets that were not cancelled on their way. *)
Definition kept (l : list (list Z * bool)) : list (list Z) := omap (λ p, if p.2 : bool then None else Some p.1) l.

Definition ppi_step (op : ppi_op) (x : PacketPassInterface * ppi_log) : outcome (PacketPassInterface * ppi_log) :=
  let '(i, g) := x in
  match op with
  | PSend data => i ← PacketPassInterface_Sender_Send i data; Ret (i, log_send g data)
  | PCancel => i ← PacketPassInterface_Sender_RequestCancel i; Ret (i, log_cancel g)
  | PDone => i ← PacketPassInterface_Done i; Ret (i, g)
  | PRunOperation => '(i, data) ← _PacketPassInterface_job_operation i; Ret (i, log_got g data)
  | PRunRequestCancel => i ← _PacketPassInterface_job_requestcancel i; Ret (i, g)
  | PRunDone => i ← _PacketPassInterface_job_done i; Ret (i, mkplog (p_sent g) (p_waiting g) (p_got g) (S (p_done g)))
  end.

(** Every sequence of allowed operations; [Fault] when an assertion fails. *)
Inductive ppi_run : PacketPassInterface * ppi_log → list ppi_op → outcome (PacketPassInterface * ppi_log) → Prop :=
| ppi_stop x : ppi_run x [] (Ret x)
| ppi_next x op ops y r : ppi_allowed op x.1 → ppi_step op x = Ret y → ppi_run y ops r → ppi_run x (op :: ops) r
| ppi_fail x op ops : ppi_allowed op x.1 → (∀ y, ppi_step op x ≠ Ret y) → ppi_run x (op :: ops) Fault.

(** The pending jobs are those of the state. *)
Record ppi_ok (i : PacketPassInterface) : Prop := {
  ppi_operation : job_operation i = is_state i PPI_STATE_OPERATION_PENDING;
  ppi_done : job_done i = is_state i PPI_STATE_DONE_PENDING;
  ppi_cancel : job_requestcancel i = true → state i = PPI_STATE_BUSY ∧ cancel_requested i = true ∧ handler_requestcancel i = true;
  ppi_len : zlen (job_operation_data i) ≤ mtu i }.

Lemma ppi_init_ok m i : PacketPassInterface_Init m = Ret i → ppi_ok i ∧ mtu i = m ∧ state i = PPI_STATE_NONE.
Proof.
  unfold PacketPassInterface_Init, assert. destruct (Z.leb_spec 0 m); intros Hi; inv_binds; [|done]. subst i. split; [|done]. by split.
Qed.

Lemma mark_last_app l d b : mark_last (l ++ [(d, b)]) = l ++ [(d, true)].
Proof. induction l as [|p l IH]; [done|]. cbn. rewrite IH. destruct p. by destruct l. Qed.

Lemma kept_app l k : kept (l ++ k) = kept l ++ kept k.
Proof. apply omap_app. Qed.

(** The log agrees with the interface: a packet on its way is the last one sent,
    and the receiver got all the others that were not cancelled. *)
Definition plog_ok (x : PacketPassInterface * ppi_log) : Prop :=
  (job_operation x.1 = true → cancel_requested x.1 = false) ∧
  p_waiting x.2 = job_operation x.1 ∧
  (if job_operation x.1
   then ∃ l, p_sent x.2 = l ++ [(job_operation_data x.1, false)] ∧ p_got x.2 = kept l
   else p_got x.2 = kept (p_sent x.2)) ∧
  (handler_requestcancel x.1 = false → Forall (λ p, p.2 = false) (p_sent x.2)) ∧
  length (p_sent x.2) = (p_done x.2 + if is_state x.1 PPI_STATE_NONE then 0 else 1)%nat.

Definition pinv (x : PacketPassInterface * ppi_log) : Prop := ppi_ok x.1 ∧ plog_ok x.

Lemma pinv_intro m rc hd jo d jr jd s c sent w got dn :
  jo = is_state (mkppi m rc hd jo d jr jd s c) PPI_STATE_OPERATION_PENDING →
  jd = is_state (mkppi m rc hd jo d jr jd s c) PPI_STATE_DONE_PENDING →
  (jr = true → s = PPI_STATE_BUSY ∧ c = true ∧ rc = true) → (jo = true → c = false) → zlen d ≤ m → w = jo →
  (if jo then ∃ l, sent = l ++ [(d, false)] ∧ got = kept l else got = kept sent) →
  (rc = false → Forall (λ p, p.2 = false) sent) →
  length sent = (dn + match s with PPI_STATE_NONE => 0 | _ => 1 end)%nat →
  pinv (mkppi m rc hd jo d jr jd s c, mkplog sent w got dn).
Proof. intros. split; [by split|]. split_and!; try done. by destruct s. Qed.

Ltac ppi_cases := cbn in *; repeat match goal with
  | H : false = true |- _ => discriminate H
  | H : true = false |- _ => discriminate H
  | H : _ ∧ _ |- _ => destruct H
  | H : ?x ≠ ?x |- _ => by destruct H
  | H : ?x = ?y |- _ => subst x || subst y || discriminate H
  end.

Lemma Sender_Send_ok i data :
  state i = PPI_STATE_NONE → handler_done i = true → zlen data ≤ mtu i →
  PacketPassInterface_Sender_Send i data =
    Ret (mkppi (mtu i) (handler_requestcancel i) true true data (job_requestcancel i) (job_done i) PPI_STATE_OPERATION_PENDING false).
Proof.
  intros Hs Hd Hm. unfold PacketPassInterface_Sender_Send, is_state. rewrite Hs, Hd.
  by rewrite (assert_true (_ <=? _)) by lia.
Qed.

Lemma ppi_step_ok op x : pinv x → ppi_allowed op x.1 → ∃ y, ppi_step op x = Ret y ∧ pinv y ∧
  handler_requestcancel y.1 = handler_requestcancel x.1.
Proof.
  destruct x as [[m rc hd jo d jr jd s c] [sent w got dn]].
  intros [[Hop Hd Hc Hl] (Hf & Hw & Hgot & Hflag & Hn)] Ha.
  assert (Hjr : jr = false ∨ jr = true ∧ s = PPI_STATE_BUSY ∧ c = true ∧ rc = true) by (destruct jr; cbn in Hc; intuition).
  clear Hc. destruct op as [data| | | | |].
  { destruct Ha as (Hs & Hh & Hm). cbn in Hs, Hh, Hm. subst s hd. unfold ppi_step. rewrite Sender_Send_ok by done. cbn in *.
    eexists. split; [reflexivity|]. destruct Hjr as [->|?]; ppi_cases. split; [|done].
    apply pinv_intro; try done; [by exists sent|intros Hrc; apply Forall_app_2; [auto|by constructor]|rewrite length_app; cbn; lia]. }
  all: destruct s; cbn in *; ppi_cases; try (specialize (Hf eq_refl); subst c);
    destruct Hjr as [Hj|(Hj & ? & ? & ?)]; ppi_cases; try destruct c;
    try (destruct Hgot as (l & -> & ->)); eexists; (split; [reflexivity|]); (split; [|done]); cbn;
    try (unfold log_cancel, log_got; cbn; rewrite ?mark_last_app); apply pinv_intro; cbn; rewrite ?kept_app, ?app_nil_r; try done; try lia.
  all: rewrite ?length_app in *; cbn in *; try lia; eauto.
Qed.

Lemma ppi_run_ok x ops r : ppi_run x ops r → pinv x → ∃ y, r = Ret y ∧ pinv y ∧ handler_requestcancel y.1 = handler_requestcancel x.1.
Proof.
  induction 1 as [x|x op ops y r Ha E Hr IH|x op ops Ha E]; intros Hx.
  - by exists x.
  - destruct (ppi_step_ok op x Hx Ha) as (y' & E' & Hy & Hc). rewrite E in E'. injection E' as <-.
    destruct (IH Hy) as (z & -> & Hz & Hzc). exists z. split_and!; [done..|congruence].
  - destruct (ppi_step_ok op x Hx Ha) as (y & E' & _). by destruct (E y).
Qed.

(** An interface whose provider enables cancellation or not, with its user. *)
Definition ppi_start (m : Z) (cancel : bool) : outcome PacketPassInterface :=
  i ← PacketPassInterface_Init m;
  i ← (if cancel then PacketPassInterface_EnableCancel i else Ret i);
  PacketPassInterface_Sender_Init i.

Lemma ppi_start_ok m cancel : 0 ≤ m → ppi_start m cancel =
  Ret (mkppi m cancel true false [] false false PPI_STATE_NONE false).
Proof. intros Hm. unfold ppi_start, PacketPassInterface_Init. rewrite assert_true by lia. by destruct cancel. Qed.

(** C25: however the calls of the two users and the pending jobs are interleaved,
    with cancellation enabled or not, no assertion of the interface fails: a job
    always finds the state it expects.  The receiver is called with exactly the
    packets that were sent and not cancelled before it was called, in order and
    once each, but for at most one packet that is still on its way, whose job is
    pending; without cancellation no packet is ever marked cancelled.  Every
    packet sent is reported done exactly once, with at most one in progress. *)
Theorem ppi_protocol m cancel i ops r :
  ppi_start m cancel = Ret i → ppi_run (i, mkplog [] false [] 0) ops r →
  ∃ j g, r = Ret (j, g) ∧
    kept (p_sent g) = p_got g ++ (if job_operation j then [job_operation_data j] else []) ∧
    (cancel = false → Forall (λ p, p.2 = false) (p_sent g)) ∧
    length (p_sent g) = (p_done g + if is_state j PPI_STATE_NONE then 0 else 1)%nat ∧
    (job_operation j = true ↔ state j = PPI_STATE_OPERATION_PENDING) ∧
    (job_done j = true ↔ state j = PPI_STATE_DONE_PENDING).
Proof.
  intros Hi Hr. assert (Hx : pinv (i, mkplog [] false [] 0) ∧ handler_requestcancel i = cancel).
  { assert (0 ≤ m). { destruct (Z.leb_spec 0 m); [done|]. revert Hi. unfold ppi_start, PacketPassInterface_Init. by rewrite (proj2 (Z.leb_gt 0 m)). }
    rewrite ppi_start_ok in Hi by done. injection Hi as <-. split; [|done]. by apply pinv_intro. }
  destruct Hx as [Hx Hc]. destruct (ppi_run_ok _ _ _ Hr Hx) as ([j g] & -> & [[H1 H2 _ _] (_ & _ & Hg & Hf & Hn)] & Hcj).
  exists j, g. cbn in *. rewrite Hc in Hcj. split; [done|]. split_and!; [..|done| |].
  - destruct (job_operation j); [|by rewrite app_nil_r]. destruct Hg as (l & -> & ->). by rewrite kept_app.
  - intros ->. auto.
  - rewrite H1. unfold is_state. by destruct (state j).
  - rewrite H2. unfold is_state. by destruct (state j).
Qed.

(** Three packets on an interface with cancellation: the first is cancelled after
    the receiver has it and still counts, the second on its way and is lost, the
    third is delivered. *)
Definition ppi_demo : list ppi_op :=
  [PSend [1; 2]; PRunOperation; PCancel; PRunRequestCancel; PDone; PRunDone; PSend [3]; PCancel; PRunDone; PSend [4]; PRunOperation].

Lemma ppi_protocol_witness : ∃ i j g, ppi_start 5 true = Ret i ∧ ppi_run (i, mkplog [] false [] 0) ppi_demo (Ret (j, g)) ∧
  p_sent g = [([1; 2], false); ([3], true); ([4], false)] ∧ p_done g = 2%nat ∧
  kept (p_sent g) = p_got g ++ (if job_operation j then [job_operation_data j] else []).
Proof.
  exists (mkppi 5 true true false [] false false PPI_STATE_NONE false).
  pose (j := mkppi 5 true true false [4] false false PPI_STATE_BUSY false).
  pose (g := mkplog [([1; 2], false); ([3], true); ([4], false)] false [[1; 2]; [4]] 2).
  exists j, g.
  assert (Hr : ppi_run (mkppi 5 true true false [] false false PPI_STATE_NONE false, mkplog [] false [] 0) ppi_demo (Ret (j, g))).
  { unfold ppi_demo. do 11 (eapply ppi_next; [vm_compute; intuition congruence|vm_compute; reflexivity|]). apply ppi_stop. }
  split; [done|]. split; [exact Hr|]. do 2 (split; [done|]).
  destruct (ppi_protocol 5 true _ _ _ eq_refl Hr) as (j' & g' & [= <- <-] & H & _). exact H.
Defined.
