(* ===== verification/BadvpnMisc.v ===== *)
(** * badvpn: sizes, comparison, addresses

    Models misc/bsize.h, misc/compare.h, the constants of misc/socks_proto.h and
    the addresses of system/BAddr.h, which the SOCKS client, the fair queue and
    the UDP relay share. *)
From S2P Require Import Prelude.

(** ** The SOCKS protocol *)
Definition SOCKS_VERSION : Z := 5.
Definition SOCKS_METHOD_NO_AUTHENTICATION_REQUIRED : Z := 0.
Definition SOCKS_METHOD_USERNAME_PASSWORD : Z := 2.
Definition SOCKS_CMD_CONNECT : Z := 1.
Definition SOCKS_ATYP_IPV4 : Z := 1.
Definition SOCKS_ATYP_IPV6 : Z := 4.
Definition SOCKS_REP_SUCCEEDED : Z := 0.

Definition sizeof_client_hello_header : Z := 2.
Definition sizeof_client_hello_method : Z := 1.
Definition sizeof_server_hello : Z := 2.
Definition sizeof_request_header : Z := 4.
Definition sizeof_reply_header : Z := 4.
Definition sizeof_socks_addr_ipv4 : Z := 6.
Definition sizeof_socks_addr_ipv6 : Z := 18.

(** ** Sizes with overflow detection: [None] is overflow *)
Definition SIZE_MAX : Z := 2 ^ 64 - 1.
Definition bsize_t : Type := option Z.
Definition bsize_fromsize (v : Z) : bsize_t := Some v.
Definition bsize_fromint (v : Z) : bsize_t := if (v <? 0) || (SIZE_MAX <? v) then None else Some v.
Definition bsize_toint (s : bsize_t) : option Z :=
  match s with Some v => if 2 ^ 31 - 1 <? v then None else Some v | None => None end.
Definition bsize_add (s1 s2 : bsize_t) : bsize_t :=
  match s1, s2 with
  | Some a, Some b => if b >? SIZE_MAX - a then None else Some (a + b)
  | _, _ => None
  end.
Definition bsize_max (s1 s2 : bsize_t) : bsize_t :=
  match s1, s2 with
  | Some a, Some b => Some ((if a >? b then a else 0) + (if a <=? b then b else 0))
  | _, _ => None
  end.
Definition bsize_mul (s1 s2 : bsize_t) : bsize_t :=
  match s1, s2 with
  | Some a, Some b => if negb (a =? 0) && (b >? SIZE_MAX / a) then None else Some (a * b)
  | _, _ => None
  end.

(** ** Comparison *)
Definition B_COMPARE (a b : Z) : Z := (if b <? a then 1 else 0) - (if a <? b then 1 else 0).

Lemma B_COMPARE_spec a b : (a < b ∧ B_COMPARE a b = -1) ∨ (a = b ∧ B_COMPARE a b = 0) ∨ (b < a ∧ B_COMPARE a b = 1).
Proof. unfold B_COMPARE. destruct (Z.ltb_spec b a), (Z.ltb_spec a b); lia. Qed.

(** [memcmp] of two objects of the same size; only its sign matters. *)
Fixpoint memcmp (a b : list Z) : Z :=
  match a, b with
  | x :: a, y :: b => if x =? y then memcmp a b else B_COMPARE x y
  | _, _ => 0
  end.

(** ** Addresses *)

(** Addresses and ports are their bytes in memory, in network order. *)
Inductive BAddr :=
| BAddrNone
| BAddrIPv4 (ip port : list Z)
| BAddrIPv6 (ip port : list Z).

Definition BAddr_type (a : BAddr) : Z :=
  match a with BAddrNone => 0 | BAddrIPv4 _ _ => 1 | BAddrIPv6 _ _ => 2 end.
Definition BAddr_IsInvalid (a : BAddr) : bool := match a with BAddrNone => true | _ => false end.

(** The sizes of the fields. *)
Definition baddr_ok (a : BAddr) : Prop :=
  match a with
  | BAddrNone => True
  | BAddrIPv4 ip port => length ip = 4%nat ∧ length port = 2%nat
  | BAddrIPv6 ip port => length ip = 16%nat ∧ length port = 2%nat
  end.

(** A number in network order. *)
Definition ntoh (l : list Z) : Z := fold_left (λ n b, n * 256 + b) l 0.

Definition BAddr_CompareOrder (addr1 addr2 : BAddr) : Z :=
  let cmp := B_COMPARE (BAddr_type addr1) (BAddr_type addr2) in
  if negb (cmp =? 0) then cmp
  else
    match addr1, addr2 with
    | BAddrIPv4 ip1 port1, BAddrIPv4 ip2 port2 =>
        let cmp := B_COMPARE (ntoh ip1) (ntoh ip2) in
        if negb (cmp =? 0) then cmp else B_COMPARE (ntoh port1) (ntoh port2)
    | BAddrIPv6 ip1 port1, BAddrIPv6 ip2 port2 =>
        let cmp := memcmp ip1 ip2 in
        if negb (cmp =? 0) then B_COMPARE cmp 0 else B_COMPARE (ntoh port1) (ntoh port2)
    | _, _ => 0
    end.
