(* ===== verification/PacketRecvInterface.v ===== *)
(** * The packet receiving interface of badvpn, and BufferWriter over it

    Models flow/PacketRecvInterface.h, flow/PacketRecvInterface.c and
    flow/BufferWriter.c with the assertions of both.  A pointer is an offset into
    the memory of the receiver, [None] if it is null.  The interface has at most
    one job pending, told by its state; the queue of jobs is kept by the user of
    this file, who adds the job that an operation sets. *)
From S2P Require Import Prelude.
#[local] Open Scope Z_scope.

Inductive PRI_STATE := PRI_STATE_NONE | PRI_STATE_OPERATION_PENDING | PRI_STATE_BUSY | PRI_STATE_DONE_PENDING.
Definition pri_is (s t : PRI_STATE) : bool :=
  match s, t with
  | PRI_STATE_NONE, PRI_STATE_NONE | PRI_STATE_OPERATION_PENDING, PRI_STATE_OPERATION_PENDING
  | PRI_STATE_BUSY, PRI_STATE_BUSY | PRI_STATE_DONE_PENDING, PRI_STATE_DONE_PENDING => true
  | _, _ => false
  end.

Record PacketRecvInterface := mkpri {
  pri_mtu : Z; pri_handler_done : bool;            (* the handler is set *)
  pri_operation_data : option Z; pri_done_len : Z; pri_state : PRI_STATE }.

Definition PacketRecvInterface_Init (mtu : Z) : outcome PacketRecvInterface :=
  _ ← assert (0 <=? mtu); Ret (mkpri mtu false None 0 PRI_STATE_NONE).

(** Sets the job of [_PacketRecvInterface_job_done]. *)
Definition PacketRecvInterface_Done (i : PacketRecvInterface) (data_len : Z) : outcome PacketRecvInterface :=
  _ ← assert (0 <=? data_len); _ ← assert (data_len <=? pri_mtu i); _ ← assert (pri_is (pri_state i) PRI_STATE_BUSY);
  Ret (mkpri (pri_mtu i) (pri_handler_done i) (pri_operation_data i) data_len PRI_STATE_DONE_PENDING).

Definition PacketRecvInterface_GetMTU (i : PacketRecvInterface) : Z := pri_mtu i.

Definition PacketRecvInterface_Receiver_Init (i : PacketRecvInterface) : outcome PacketRecvInterface :=
  _ ← assert (negb (pri_handler_done i));
  Ret (mkpri (pri_mtu i) true (pri_operation_data i) (pri_done_len i) (pri_state i)).

(** Sets the job of [_PacketRecvInterface_job_operation]. *)
Definition PacketRecvInterface_Receiver_Recv (i : PacketRecvInterface) (data : option Z) : outcome PacketRecvInterface :=
  _ ← assert (negb (0 <? pri_mtu i) || match data with Some _ => true | None => false end);
  _ ← assert (pri_is (pri_state i) PRI_STATE_NONE); _ ← assert (pri_handler_done i);
  Ret (mkpri (pri_mtu i) (pri_handler_done i) data (pri_done_len i) PRI_STATE_OPERATION_PENDING).

(** The jobs return what the handlers are called with. *)
Definition _PacketRecvInterface_job_operation (i : PacketRecvInterface) : outcome (PacketRecvInterface * option Z) :=
  _ ← assert (pri_is (pri_state i) PRI_STATE_OPERATION_PENDING);
  Ret (mkpri (pri_mtu i) (pri_handler_done i) (pri_operation_data i) (pri_done_len i) PRI_STATE_BUSY, pri_operation_data i).
Definition _PacketRecvInterface_job_done (i : PacketRecvInterface) : outcome (PacketRecvInterface * Z) :=
  _ ← assert (pri_is (pri_state i) PRI_STATE_DONE_PENDING);
  Ret (mkpri (pri_mtu i) (pri_handler_done i) (pri_operation_data i) (pri_done_len i) PRI_STATE_NONE, pri_done_len i).

(** ** BufferWriter

    [w_out] is [out] if [out_have] is set; [d_writing] is set between the start
    and the end of a packet. *)
Record Writer := mkw { recv_interface : PacketRecvInterface; w_out : option (option Z); d_writing : bool }.

Definition Writer_Init (mtu : Z) : outcome Writer :=
  i ← PacketRecvInterface_Init mtu; Ret (mkw i None false).

(** The job of the interface, which calls [output_handler_recv]. *)
Definition Writer_output_handler_recv (w : Writer) : outcome Writer :=
  '(i, data) ← _PacketRecvInterface_job_operation (recv_interface w);
  _ ← assert (match w_out w with None => true | Some _ => false end);
  Ret (mkw i (Some data) (d_writing w)).

(** Where to write, or [None] for the result 0. *)
Definition Writer_StartPacket (w : Writer) : outcome (Writer * option (option Z)) :=
  _ ← assert (negb (d_writing w));
  match w_out w with
  | None => Ret (w, None)
  | Some data => Ret (mkw (recv_interface w) (w_out w) true, Some data)
  end.

Definition Writer_EndPacket (w : Writer) (len : Z) : outcome Writer :=
  _ ← assert (0 <=? len); _ ← assert (len <=? pri_mtu (recv_interface w));
  _ ← assert (match w_out w with Some _ => true | None => false end); _ ← assert (d_writing w);
  i ← PacketRecvInterface_Done (recv_interface w) len;
  Ret (mkw i None false).
