(* ===== verification/UdpChannel.v ===== *)
(** * The send path of a UDP connection

    A BufferWriter feeding a PacketBuffer that feeds the socket, as
    [connection_init] of tun2socks/SocksUdpGwClient.c wires them, at the
    granularity of their jobs: between the end of a packet and its arrival in the
    buffer, and between the request for the next packet and the offer of a
    place for it, other events happen.  Sending is an operation in progress that
    completes at some time ([ch_sent]). *)
From S2P Require Import Prelude ChunkBuffer PacketRecvInterface.
#[local] Open Scope Z_scope.

Record Channel := mkch { writer : Writer; pbuf : PacketBuffer }.

(** [BufferWriter_Init] and [PacketBuffer_Init], which ends by requesting a packet:
    the job of the interface is set. *)
Definition ch_init (alloc : Z → option (list Z)) (mtu num_packets : Z) : outcome (option Channel) :=
  w ← Writer_Init mtu;
  _ ← assert (0 <? num_packets);
  i ← PacketRecvInterface_Receiver_Init (recv_interface w);
  r ← PacketBuffer_Init alloc (PacketRecvInterface_GetMTU i) num_packets;
  match r with
  | None => Ret None
  | Some p =>
      i ← PacketRecvInterface_Receiver_Recv i (input_dest (buf p));
      Ret (Some (mkch (mkw i (w_out w) (d_writing w)) p))
  end.

(** The writer is offered a place. *)
Definition ch_offer (c : Channel) : outcome Channel :=
  w ← Writer_output_handler_recv (writer c); Ret (mkch w (pbuf c)).

(** Stores to the place. *)
Definition ch_store (c : Channel) (dst : option Z) (pos : Z) (bs : list Z) : outcome Channel :=
  match dst with
  | None => Fault
  | Some d =>
      m ← mwrite (mem (buf (pbuf c))) (d + pos) bs;
      Ret (mkch (writer c) (mkpb (set_mem (buf (pbuf c)) m) (input_mtu (pbuf c)) (receiving (pbuf c)) (sending (pbuf c))))
  end.

(** The packet that was ended arrives in the buffer ([input_handler_done] of
    PacketBuffer); [true] if the next packet was requested: the job of the
    interface is set again. *)
Definition ch_arrive (c : Channel) : outcome (Channel * bool) :=
  '(i, len) ← _PacketRecvInterface_job_done (recv_interface (writer c));
  _ ← assert (0 <=? len); _ ← assert (len <=? input_mtu (pbuf c));
  p ← input_handler_done (pbuf c) len;
  i ← (if receiving p then PacketRecvInterface_Receiver_Recv i (input_dest (buf p)) else Ret i);
  Ret (mkch (mkw i (w_out (writer c)) (d_writing (writer c))) p, receiving p).

(** The packet that is being sent is gone ([output_handler_done] of PacketBuffer);
    returns it, and whether the next packet was requested. *)
Definition ch_sent (c : Channel) : outcome (Channel * list Z * bool) :=
  _ ← assert (sending (pbuf c));
  match output_dest (buf (pbuf c)) with
  | None => Fault
  | Some d =>
      packet ← mread (mem (buf (pbuf c))) d (output_avail (buf (pbuf c)));
      let was_full := input_avail (buf (pbuf c)) <? input_mtu (pbuf c) in
      p ← output_handler_done (pbuf c);
      let request := was_full && (input_mtu p <=? input_avail (buf p)) in
      i ← (if request then PacketRecvInterface_Receiver_Recv (recv_interface (writer c)) (input_dest (buf p)) else Ret (recv_interface (writer c)));
      Ret (mkch (mkw i (w_out (writer c)) (d_writing (writer c))) p, packet, request)
  end.

(** ** The invariant

    What the interface is doing: nothing (the buffer is full), a request is
    pending, a place is offered, a packet written there is on its way. *)
Inductive ch_phase := CFull | CRequest | COffer | CArriving (packet : list Z).

(** [q]: the packets in the buffer. *)
Record ch_ok (c : Channel) (mtu : Z) (q : list (list Z)) (ph : ch_phase) : Prop := {
  ch_pb : pb_inv (pbuf c) q;
  ch_mtu : input_mtu (pbuf c) = mtu ∧ pri_mtu (recv_interface (writer c)) = mtu;
  ch_user : pri_handler_done (recv_interface (writer c)) = true;
  ch_idle : d_writing (writer c) = false;
  ch_recv : receiving (pbuf c) = match ph with CFull => false | _ => true end;
  ch_state : match ph with
             | CFull => pri_state (recv_interface (writer c)) = PRI_STATE_NONE ∧ w_out (writer c) = None
             | CRequest => pri_state (recv_interface (writer c)) = PRI_STATE_OPERATION_PENDING ∧ w_out (writer c) = None ∧
                           pri_operation_data (recv_interface (writer c)) = input_dest (buf (pbuf c))
             | COffer => pri_state (recv_interface (writer c)) = PRI_STATE_BUSY ∧ w_out (writer c) = Some (input_dest (buf (pbuf c)))
             | CArriving pk => pri_state (recv_interface (writer c)) = PRI_STATE_DONE_PENDING ∧ w_out (writer c) = None ∧
                               pri_done_len (recv_interface (writer c)) = zlen pk ∧ zlen pk ≤ mtu ∧
                               mread (mem (buf (pbuf c))) ((ChunkBuffer2_end (buf (pbuf c)) + 1) * sizeof_block) (zlen pk) = Ret pk
             end }.

(** What was given to the channel and not sent yet. *)
Definition ch_held (q : list (list Z)) (ph : ch_phase) : list (list Z) := q ++ match ph with CArriving pk => [pk] | _ => [] end.

(** The memory that [PacketBuffer_Init] allocates. *)
Definition alloc_ok (alloc : Z → option (list Z)) : Prop := ∀ n m, alloc n = Some m → zlen m = 4 * n.

Lemma receiver_recv_ok i data mtu :
  pri_mtu i = mtu → pri_handler_done i = true → pri_state i = PRI_STATE_NONE → data ≠ None →
  PacketRecvInterface_Receiver_Recv i data = Ret (mkpri mtu true data (pri_done_len i) PRI_STATE_OPERATION_PENDING).
Proof.
  intros <- Hu Hs Hd. unfold PacketRecvInterface_Receiver_Recv. rewrite Hs, Hu. destruct data; [|done]. by rewrite orb_true_r.
Qed.

Lemma ch_init_ok alloc mtu num : 0 ≤ mtu → 0 < num → alloc_ok alloc →
  4 * ((1 + bdivide_up mtu 4) * (num + 1)) ≤ INT_MAX →
  ch_init alloc mtu num = Ret None ∨ ∃ c, ch_init alloc mtu num = Ret (Some c) ∧ ch_ok c mtu [] CRequest.
Proof.
  intros Hm Hn Ha Hs. unfold ch_init, Writer_Init, PacketRecvInterface_Init. rewrite (assert_true (0 <=? mtu)), !bind_Ret by lia.
  rewrite (assert_true (0 <? num)), bind_Ret by lia.
  cbn [recv_interface PacketRecvInterface_Receiver_Init pri_handler_done negb pri_mtu pri_operation_data pri_done_len pri_state].
  unfold PacketRecvInterface_Receiver_Init. cbn [pri_handler_done negb pri_mtu pri_operation_data pri_done_len pri_state assert]. rewrite !bind_Ret.
  unfold PacketRecvInterface_GetMTU. cbn [pri_mtu].
  destruct (alloc ((1 + bdivide_up mtu 4) * (num + 1))) as [m|] eqn:E.
  - right. destruct (PacketBuffer_Init_inv alloc mtu num m Hm Hn Hs E (Ha _ _ E)) as (p & -> & Hp & Hi). rewrite bind_Ret.
    assert (Hr : receiving p = true).
    { pose proof (pb_recv _ _ Hp) as ->. apply Z.leb_le. destruct (room_empty _ (pb_holds _ _ Hp)) as [_ Hr]. rewrite (proj2 (pb_mtu _ _ Hp)), Hi in Hr.
      pose proof (bdivide_up_spec mtu Hm). lia. }
    rewrite (receiver_recv_ok _ _ mtu) by (try done; by rewrite (receiving_dest p [] Hp Hr)). rewrite bind_Ret. eexists. split; [done|]. split; cbn; try done.
  - left. unfold PacketBuffer_Init. rewrite calc_blocks_spec by (pose proof (bdivide_up_spec mtu Hm); unfold INT_MAX in *; nia).
    set (n := (1 + bdivide_up mtu 4) * (num + 1)) in *. pose proof (bdivide_up_spec mtu Hm). assert (0 ≤ n) by (unfold n; nia).
    rewrite (proj2 (Z.ltb_ge INT_MAX n)) by lia. if_false. by rewrite E, bind_Ret.
Qed.

Lemma ch_offer_ok c mtu q : ch_ok c mtu q CRequest → ∃ c', ch_offer c = Ret c' ∧ ch_ok c' mtu q COffer.
Proof.
  intros [Hp [Hm1 Hm2] Hu Hd Hr (Hs & Ho & Hop)]. unfold ch_offer, Writer_output_handler_recv, _PacketRecvInterface_job_operation.
  rewrite Hs, Ho. eexists. split; [done|]. split; cbn; try done. by rewrite Hop.
Qed.

(** Two stores next to each other are one. *)
Lemma mwrite_cases m d a :
  (0 ≤ d ∧ d + zlen a ≤ zlen m ∧ mwrite m d a = Ret (take (Z.to_nat d) m ++ a ++ drop (Z.to_nat d + length a) m)) ∨
  ((d < 0 ∨ zlen m < d + zlen a) ∧ mwrite m d a = Fault).
Proof.
  unfold mwrite. destruct (Z.leb_spec 0 d); [|right; split; [lia|done]]. destruct (Z.leb_spec (d + zlen a) (zlen m)); [by left|right; split; [lia|done]].
Qed.
Lemma mwrite_next m d a b : (m1 ← mwrite m d a; mwrite m1 (d + zlen a) b) = mwrite m d (a ++ b).
Proof.
  destruct (mwrite_cases m d a) as [(Hd & Ha & ->)|[Hn ->]].
  - rewrite bind_Ret. destruct (mwrite_cases m d (a ++ b)) as [(_ & Hb & ->)|[Hn ->]]; rewrite length_app in *.
    + rewrite app_assoc. rewrite (mwrite_extend _ _ (d + zlen a) b) by (rewrite ?length_app, ?length_take, ?length_drop; lia).
      rewrite drop_drop, <- !app_assoc. by rewrite Nat.add_assoc.
    + unfold mwrite. rewrite !length_app, length_take, length_drop. by if_false.
  - destruct (mwrite_cases m d (a ++ b)) as [(Hd & Hb & _)|[_ ->]]; [rewrite length_app in Hb; lia|done].
Qed.

Lemma ch_store_next c d pos a b :
  (c ← ch_store c (Some d) pos a; ch_store c (Some d) (pos + zlen a) b) = ch_store c (Some d) pos (a ++ b).
Proof.
  unfold ch_store. rewrite <- mwrite_next. destruct (mwrite (mem (buf (pbuf c))) (d + pos) a) as [m| |]; [|done|done]. rewrite !bind_Ret.
  cbn [pbuf buf set_mem ChunkBuffer.mem]. rewrite Z.add_assoc. by destruct (mwrite m _ b).
Qed.

Lemma ch_start_none c mtu q ph : ch_ok c mtu q ph → ph ≠ COffer → Writer_StartPacket (writer c) = Ret (writer c, None).
Proof.
  intros [_ _ _ Hd _ Hs] Hp. unfold Writer_StartPacket. rewrite Hd. assert (w_out (writer c) = None) as -> by (destruct ph; [apply Hs|apply Hs|done|apply Hs]). done.
Qed.

Lemma ch_put_ok c mtu q pk : ch_ok c mtu q COffer → zlen pk ≤ mtu →
  ∃ w d c1 w2, Writer_StartPacket (writer c) = Ret (w, Some (Some d)) ∧ ch_store (mkch w (pbuf c)) (Some d) 0 pk = Ret c1 ∧
    Writer_EndPacket (writer c1) (zlen pk) = Ret w2 ∧ ch_ok (mkch w2 (pbuf c1)) mtu q (CArriving pk).
Proof.
  intros [Hp [Hm1 Hm2] Hu Hd Hr (Hs & Ho)] Hl. unfold Writer_StartPacket. rewrite Hd, Ho. cbn [negb assert]. rewrite bind_Ret.
  pose proof (receiving_dest _ _ Hp Hr) as Hdest. destruct Hp as [Hh Hpm Hpr Hps]. pose proof Hpr as Hav. rewrite Hr in Hav. symmetry in Hav. apply Z.leb_le in Hav.
  destruct (write_packet_holds (buf (pbuf c)) q pk Hh) as (b & Eb & H1 & D1 & A1 & S1 & M1 & R1); [by rewrite Hdest|lia|].
  unfold write_packet in Eb. rewrite Hdest in Eb. apply bind_Ret_inv in Eb as (m & Em & Eb). injection Eb as <-.
  eexists _, _, _, _. split; [by rewrite Hdest|]. unfold ch_store. cbn [pbuf writer]. rewrite Z.add_0_r, Em, bind_Ret. split; [done|].
  unfold Writer_EndPacket, PacketRecvInterface_Done. cbn [writer recv_interface w_out d_writing assert]. rewrite Hs.
  rewrite (assert_true (0 <=? zlen pk)), !bind_Ret by lia. rewrite (assert_true (zlen pk <=? _)), !bind_Ret by lia. cbn [pri_is assert]. rewrite !bind_Ret.
  split; [done|]. split; cbn; try done; split; done || congruence.
Qed.

Lemma ch_arrive_ok c mtu q pk : ch_ok c mtu q (CArriving pk) →
  ∃ c' b, ch_arrive c = Ret (c', b) ∧ ch_ok c' mtu (q ++ [pk]) (if b then CRequest else CFull).
Proof.
  intros [Hp [Hm1 Hm2] Hu Hd Hr (Hs & Ho & Hn & Hl & Hpk)]. pose proof (receiving_dest _ _ Hp Hr) as Hdest. destruct Hp as [Hh Hpm Hpr Hps].
  pose proof Hpr as Hav. rewrite Hr in Hav. symmetry in Hav. apply Z.leb_le in Hav.
  destruct (submit_holds (buf (pbuf c)) q pk Hh) as (b & Eb & Hb & Sb & Mb); [by rewrite Hdest|lia|done|].
  unfold ch_arrive, _PacketRecvInterface_job_done. rewrite Hs. cbn [pri_is assert]. rewrite !bind_Ret, Hn.
  rewrite (assert_true (0 <=? zlen pk)), !bind_Ret by lia. rewrite (assert_true (zlen pk <=? _)), !bind_Ret by lia.
  unfold input_handler_done. rewrite Eb, !bind_Ret. set (p := mkpb _ _ _ _). assert (Hp : pb_inv p (q ++ [pk])).
  { split; cbn; [done|split; [apply Hpm|destruct Hpm; congruence]|done|]. destruct q as [|x q]; cbn [app].
    - by rewrite (proj2 (h_output _ _ Hh)).
    - rewrite (proj2 (h_output _ _ Hh)). if_false. done. }
  destruct (receiving p) eqn:Er.
  - rewrite (receiver_recv_ok _ _ mtu) by (try done; by rewrite (receiving_dest _ _ Hp Er)). rewrite bind_Ret. eexists _, _. split; [done|].
    split; cbn [pbuf writer recv_interface w_out d_writing pri_mtu pri_handler_done pri_state pri_operation_data]; done.
  - rewrite bind_Ret. eexists _, _. split; [done|]. split; cbn [pbuf writer recv_interface w_out d_writing pri_mtu pri_handler_done pri_state]; done.
Qed.

Lemma output_done_mem p p' : output_handler_done p = Ret p' → mem (buf p') = mem (buf p).
Proof.
  unfold output_handler_done, ChunkBuffer2_ConsumePacket. intros E. inv_binds. subst p'. cbn.
  match goal with H : ChunkBuffer2_update_output ?b0 = Ret _ |- _ => revert H; set (b1 := b0) end.
  assert (Hm : mem b1 = mem (buf p)) by (unfold b1; repeat case_match; done).
  unfold ChunkBuffer2_update_output. case_match; intros; inv_binds; subst; done.
Qed.

Lemma ch_sent_ok c mtu p q ph : ch_ok c mtu (p :: q) ph →
  ∃ c' b, ch_sent c = Ret (c', p, b) ∧ ch_ok c' mtu q (if b then CRequest else ph) ∧ (b = true → ph = CFull).
Proof.
  intros [Hp [Hm1 Hm2] Hu Hd Hr Hs]. unfold ch_sent. pose proof (pb_send _ _ Hp) as ->. cbn [assert]. rewrite bind_Ret.
  pose proof (pb_holds _ _ Hp) as Hh. destruct (h_output _ _ Hh) as [-> ->].
  destruct (head_len (buf (pbuf c)) p q (h_laid _ _ Hh)) as (_ & -> & _). rewrite bind_Ret.
  destruct (output_done_inv _ _ _ Hp) as (p' & E & Hp' & Hmt & Hrec). rewrite E, bind_Ret. pose proof (output_done_mem _ _ E) as Hmem.
  rewrite Hmt, Hm1. pose proof (pb_recv _ _ Hp) as Hr0. rewrite Hm1, Hr in Hr0. pose proof (pb_recv _ _ Hp') as Hr1. rewrite Hmt, Hm1 in Hr1.
  destruct (Z.ltb_spec (input_avail (buf (pbuf c))) mtu) as [Hf|Hf]; cbn [andb].
  - rewrite (proj2 (Z.leb_gt mtu _)) in Hr0 by lia. assert (ph = CFull) as -> by (by destruct ph). destruct Hs as [Hs Ho].
    rewrite <- Hr1. destruct (receiving p') eqn:Er.
    + rewrite (receiver_recv_ok _ _ mtu) by (try done; by rewrite (receiving_dest _ _ Hp' Er)). rewrite bind_Ret. eexists _, _. split; [done|]. split; [|done].
      split; cbn [pbuf writer recv_interface w_out d_writing pri_mtu pri_handler_done pri_state pri_operation_data]; done || by split; congruence.
    + rewrite bind_Ret. eexists _, _. split; [done|]. split; [|done].
      split; cbn [pbuf writer recv_interface w_out d_writing pri_mtu pri_handler_done pri_state]; done || by split; congruence.
  - rewrite (proj2 (Z.leb_le mtu _)) in Hr0 by lia. assert (Hrt : receiving (pbuf c) = true) by congruence. destruct (Hrec Hrt) as [Hrt' Hd'].
    rewrite bind_Ret. eexists _, _. split; [done|]. split; [|done]. split; cbn [pbuf writer recv_interface w_out d_writing]; try done.
    + split; congruence.
    + congruence.
    + destruct ph as [| | |pk]; [done|by rewrite Hd'|by rewrite Hd'|]. destruct Hs as (? & ? & ? & ? & Hpk). split_and!; try done.
      pose proof (receiving_dest _ _ Hp' Hrt') as E1. rewrite Hd', (receiving_dest _ _ Hp Hrt) in E1. injection E1 as E1. rewrite <- E1, Hmem. exact Hpk.
Qed.
