(* ===== verification/DeviceUdp.v ===== *)
(** * tun2socks: UDP packets of the TUN device

    Models misc/ipv4_proto.h, misc/ipv6_proto.h and misc/udp_proto.h, and the two
    functions of tun2socks/tun2socks.c that use them: the parsing part of
    [process_device_udp_packet] and [udpgw_client_handler_received], which builds
    the packet for an answer.  A header is a record; its 16-bit fields are
    numbers, its addresses and ports the bytes in memory.  A packet is the list
    of its [data_len] bytes, and a pointer into it is an offset, so that reading
    past the packet is a [Fault]. *)
From S2P Require Import Prelude Encrypt BadvpnMisc.
#[local] Open Scope Z_scope.

Definition IPV4_PROTOCOL_UDP : Z := 17.
Definition IPV6_NEXT_UDP : Z := 17.
Definition UINT16_MAX : Z := 2 ^ 16 - 1.

(** ** Headers *)
Record ipv4_header := mkip4 {
  version4_ihl4 : Z; ds : Z; total_length : Z; identification : Z; flags3_fragmentoffset13 : Z;
  ttl : Z; protocol : Z; checksum : Z; source_address : list Z; destination_address : list Z }.
Definition sizeof_ipv4_header : Z := 20.
Definition offsetof_protocol : Z := 9.

Definition enc_ipv4_header (h : ipv4_header) : list Z :=
  [version4_ihl4 h; ds h] ++ be16 (total_length h) ++ be16 (identification h) ++ be16 (flags3_fragmentoffset13 h) ++
  [ttl h; protocol h] ++ be16 (checksum h) ++ source_address h ++ destination_address h.
Definition dec_ipv4_header (l : list Z) : outcome ipv4_header :=
  match l with
  | [a; b; c0; c1; d0; d1; e0; e1; f; g; k0; k1; s0; s1; s2; s3; t0; t1; t2; t3] =>
      Ret (mkip4 a b (of_be16 c0 c1) (of_be16 d0 d1) (of_be16 e0 e1) f g (of_be16 k0 k1) [s0; s1; s2; s3] [t0; t1; t2; t3])
  | _ => Fault
  end.
Definition set_checksum (c : Z) (h : ipv4_header) : ipv4_header :=
  mkip4 (version4_ihl4 h) (ds h) (total_length h) (identification h) (flags3_fragmentoffset13 h) (ttl h) (protocol h) c
    (source_address h) (destination_address h).

Definition IPV4_GET_VERSION (h : ipv4_header) : Z := Z.shiftr (Z.land (version4_ihl4 h) 0xF0) 4.
Definition IPV4_GET_IHL (h : ipv4_header) : Z := Z.shiftr (Z.land (version4_ihl4 h) 0x0F) 0.
Definition IPV4_MAKE_VERSION_IHL (size : Z) : Z := u8 (size / 4 + Z.shiftl 4 4).

Record ipv6_header := mkip6 {
  version4_tc4 : Z; tc4_fl4 : Z; fl : Z; payload_length : Z; next_header : Z; hop_limit : Z;
  source6 : list Z; destination6 : list Z }.
Definition sizeof_ipv6_header : Z := 40.
Definition offsetof_next_header : Z := 6.

Definition enc_ipv6_header (h : ipv6_header) : list Z :=
  [version4_tc4 h; tc4_fl4 h] ++ be16 (fl h) ++ be16 (payload_length h) ++ [next_header h; hop_limit h] ++ source6 h ++ destination6 h.
Definition dec_ipv6_header (l : list Z) : outcome ipv6_header :=
  match l with
  | a :: b :: c0 :: c1 :: d0 :: d1 :: e :: f :: addrs =>
      if zlen addrs =? 32 then Ret (mkip6 a b (of_be16 c0 c1) (of_be16 d0 d1) e f (take 16 addrs) (drop 16 addrs)) else Fault
  | _ => Fault
  end.

Record udp_header := mkudp { source_port : list Z; dest_port : list Z; udp_length : Z; udp_check_sum : Z }.
Definition sizeof_udp_header : Z := 8.
Definition enc_udp_header (h : udp_header) : list Z :=
  source_port h ++ dest_port h ++ be16 (udp_length h) ++ be16 (udp_check_sum h).
Definition dec_udp_header (l : list Z) : outcome udp_header :=
  match l with
  | [a0; a1; b0; b1; c0; c1; d0; d1] => Ret (mkudp [a0; a1] [b0; b1] (of_be16 c0 c1) (of_be16 d0 d1))
  | _ => Fault
  end.

(** ** Checksums *)

(** The sum of the big-endian 16-bit words of an object, in 32 bits. *)
Fixpoint sum_words (t : Z) (l : list Z) : Z :=
  match l with
  | h :: l :: r => sum_words (u32 (t + of_be16 h l)) r
  | _ => t
  end.
Definition udp_checksum_summer (l : list Z) : Z := sum_words 0 l.

(** [while (t >> 16) t = (t & 0xFFFF) + (t >> 16)] *)
Fixpoint fold_carries (fuel : nat) (t : Z) : outcome Z :=
  if Z.shiftr t 16 =? 0 then Ret t
  else match fuel with
       | O => Fault
       | S fuel => fold_carries fuel (u32 (Z.land t 0xFFFF + Z.shiftr t 16))
       end.
Definition carry_rounds : nat := 3.

Definition ipv4_checksum (h : ipv4_header) (extra : list Z) : outcome Z :=
  _ ← assert (zlen extra mod 2 =? 0);
  t ← fold_carries carry_rounds (sum_words (sum_words 0 (enc_ipv4_header h)) extra);
  Ret (u16 (u32 (Z.lnot t))).

(** The sum of the payload, the last byte of an odd one padded, and the end of
    both UDP checksums. *)
Definition udp_checksum_payload (payload : list Z) : outcome Z :=
  let payload_len := zlen payload in
  if payload_len mod 2 =? 0 then Ret (udp_checksum_summer payload)
  else
    front ← mread payload 0 (payload_len - 1); last ← mget payload (payload_len - 1);
    Ret (u32 (udp_checksum_summer front + udp_checksum_summer (be16 (u16 (Z.shiftl last 8))))).
Definition udp_checksum_finish (t : Z) : outcome Z :=
  t ← fold_carries carry_rounds t;
  let t := u32 (Z.lnot t) in
  let t := if t =? 0 then UINT16_MAX else t in
  Ret (u16 t).

Definition udp_checksum (h : udp_header) (payload source_addr dest_addr : list Z) : outcome Z :=
  let t := u32 (0 + udp_checksum_summer source_addr) in
  let t := u32 (t + udp_checksum_summer dest_addr) in
  let t := u32 (t + udp_checksum_summer (be16 IPV4_PROTOCOL_UDP)) in
  let t := u32 (t + udp_checksum_summer (be16 (u16 (sizeof_udp_header + zlen payload)))) in
  let t := u32 (t + udp_checksum_summer (enc_udp_header h)) in
  p ← udp_checksum_payload payload;
  udp_checksum_finish (u32 (t + p)).

Definition udp_ip6_checksum (h : udp_header) (payload source_addr dest_addr : list Z) : outcome Z :=
  let t := u32 (0 + udp_checksum_summer source_addr) in
  let t := u32 (t + udp_checksum_summer dest_addr) in
  let t := u32 (t + udp_checksum_summer (be32 (u32 (sizeof_udp_header + zlen payload)))) in
  let t := u32 (t + udp_checksum_summer (be32 IPV6_NEXT_UDP)) in
  let t := u32 (t + udp_checksum_summer (enc_udp_header h)) in
  p ← udp_checksum_payload payload;
  udp_checksum_finish (u32 (t + p)).

(** ** Checking packets

    [data] is the offset of the object to check in the packet [m], [data_len] its
    length; the results are the header, and the offset and length of the
    payload. *)
Definition ipv4_check (m : list Z) (data data_len : Z) : outcome (option (ipv4_header * Z * Z)) :=
  if data_len <? sizeof_ipv4_header then Ret None
  else
    bytes ← mread m data sizeof_ipv4_header; h ← dec_ipv4_header bytes;
    if negb (IPV4_GET_VERSION h =? 4) then Ret None
    else
      let header_len := u16 (IPV4_GET_IHL h * 4) in
      if header_len <? sizeof_ipv4_header then Ret None
      else if data_len <? header_len then Ret None
      else if total_length h <? header_len then Ret None
      else if data_len <? total_length h then Ret None
      else
        extra ← mread m (data + sizeof_ipv4_header) (header_len - sizeof_ipv4_header);
        computed ← ipv4_checksum (set_checksum 0 h) extra;
        if negb (checksum h =? computed) then Ret None
        else Ret (Some (h, data + header_len, total_length h - header_len)).

Definition ipv6_check (m : list Z) (data data_len : Z) : outcome (option (ipv6_header * Z * Z)) :=
  if data_len <? sizeof_ipv6_header then Ret None
  else
    bytes ← mread m data sizeof_ipv6_header; h ← dec_ipv6_header bytes;
    if negb (Z.shiftr (version4_tc4 h) 4 =? 6) then Ret None
    else if data_len - sizeof_ipv6_header <? payload_length h then Ret None
    else Ret (Some (h, data + sizeof_ipv6_header, payload_length h)).

Definition udp_check (m : list Z) (data data_len : Z) : outcome (option (udp_header * Z * Z)) :=
  if data_len <? sizeof_udp_header then Ret None
  else
    bytes ← mread m data sizeof_udp_header; h ← dec_udp_header bytes;
    let data := data + sizeof_udp_header in
    let data_len := data_len - sizeof_udp_header in
    if udp_length h <? sizeof_udp_header then Ret None
    else if sizeof_udp_header + data_len <? udp_length h then Ret None
    else Ret (Some (h, data, udp_length h - sizeof_udp_header)).

(** ** tun2socks.c *)

(** The options that matter: a udpgw server, a DNS gateway and an IPv6 address of
    the interface are given. *)
Record udp_options := mkopts { opt_udpgw : bool; opt_dnsgw : bool; opt_ip6 : bool }.

Definition sizeof_DnsHeader : Z := 12.

(** A DNS query has [qr] and [rcode] zero, no answers and no authority entries:
    bit 7 of byte 2, bits 0 to 3 of byte 3, bytes 6 to 9. *)
Definition is_dns_query (m : list Z) (data data_len : Z) : outcome bool :=
  if data_len <? sizeof_DnsHeader then Ret false
  else
    b2 ← mget m (data + 2); b3 ← mget m (data + 3); counts ← mread m (data + 6) 4;
    Ret ((Z.shiftr b2 7 =? 0) && (Z.land b3 0xF =? 0) && forallb (Z.eqb 0) counts).

(** What is submitted: local and remote address, [is_dns], offset and length of
    the payload. *)
Record udp_submission := mksub { sub_local : BAddr; sub_remote : BAddr; sub_dns : bool; sub_data : Z; sub_len : Z }.

Definition parse_udp4 (o : udp_options) (m : list Z) (data_len : Z) : outcome (option udp_submission) :=
  if data_len <? sizeof_ipv4_header then Ret None
  else
    proto ← mget m offsetof_protocol;
    if negb (proto =? IPV4_PROTOCOL_UDP) then Ret None
    else
      r ← ipv4_check m 0 data_len;
      match r with
      | None => Ret None
      | Some (ip, data, data_len) =>
          r ← udp_check m data data_len;
          match r with
          | None => Ret None
          | Some (udp, data, data_len) =>
              payload ← mread m data data_len;
              computed ← udp_checksum (mkudp (source_port udp) (dest_port udp) (udp_length udp) 0) payload
                           (source_address ip) (destination_address ip);
              if negb (udp_check_sum udp =? computed) then Ret None
              else
                is_dns ← (if opt_dnsgw o && bool_decide (dest_port udp = be16 53) then is_dns_query m data data_len else Ret false);
                Ret (Some (mksub (BAddrIPv4 (source_address ip) (source_port udp)) (BAddrIPv4 (destination_address ip) (dest_port udp))
                             is_dns data data_len))
          end
      end.

Definition parse_udp6 (o : udp_options) (m : list Z) (data_len : Z) : outcome (option udp_submission) :=
  if negb (opt_ip6 o) then Ret None
  else if data_len <? sizeof_ipv6_header then Ret None
  else
    proto ← mget m offsetof_next_header;
    if negb (proto =? IPV6_NEXT_UDP) then Ret None
    else
      r ← ipv6_check m 0 data_len;
      match r with
      | None => Ret None
      | Some (ip, data, data_len) =>
          r ← udp_check m data data_len;
          match r with
          | None => Ret None
          | Some (udp, data, data_len) =>
              payload ← mread m data data_len;
              computed ← udp_ip6_checksum (mkudp (source_port udp) (dest_port udp) (udp_length udp) 0) payload
                           (source6 ip) (destination6 ip);
              if negb (udp_check_sum udp =? computed) then Ret None
              else Ret (Some (mksub (BAddrIPv6 (source6 ip) (source_port udp)) (BAddrIPv6 (destination6 ip) (dest_port udp))
                                false data data_len))
          end
      end.

(** [process_device_udp_packet] up to the submission; [None] is the result 0. *)
Definition process_device_udp_packet (o : udp_options) (udp_mtu : Z) (m : list Z) : outcome (option udp_submission) :=
  if negb (opt_udpgw o) then Ret None
  else
    let data_len := zlen m in
    ip_version ← (if 0 <? data_len then b ← mget m 0; Ret (Z.shiftr b 4) else Ret 0);
    r ← (if ip_version =? 4 then parse_udp4 o m data_len
         else if ip_version =? 6 then parse_udp6 o m data_len
         else Ret None);
    match r with
    | None => Ret None
    | Some s => if udp_mtu <? sub_len s then Ret None else Ret (Some s)
    end.

(** Writes the packet into [device_write_buf] and returns what is sent to the
    device: the buffer and the packet. *)
Definition write_and_send (iph udph data buf : list Z) : outcome (list Z * list Z) :=
  buf ← mwrite buf 0 iph; buf ← mwrite buf (zlen iph) udph; buf ← mwrite buf (zlen iph + zlen udph) data;
  packet ← mread buf 0 (zlen iph + zlen udph + zlen data);
  Ret (buf, packet).

Definition answer4 (tap_mtu : Z) (lip lport rip rport data buf : list Z) : outcome (list Z * option (list Z)) :=
  if (UINT16_MAX - (sizeof_ipv4_header + sizeof_udp_header) <? zlen data) ||
     (tap_mtu - (sizeof_ipv4_header + sizeof_udp_header) <? zlen data) then Ret (buf, None)
  else
    let iph := mkip4 (IPV4_MAKE_VERSION_IHL sizeof_ipv4_header) 0 (u16 (sizeof_ipv4_header + sizeof_udp_header + zlen data)) 0 0
                 64 IPV4_PROTOCOL_UDP 0 rip lip in
    ck ← ipv4_checksum iph [];
    let iph := set_checksum ck iph in
    let len := u16 (sizeof_udp_header + zlen data) in
    ck ← udp_checksum (mkudp rport lport len 0) data (source_address iph) (destination_address iph);
    '(buf, packet) ← write_and_send (enc_ipv4_header iph) (enc_udp_header (mkudp rport lport len ck)) data buf;
    Ret (buf, Some packet).

Definition answer6 (o : udp_options) (tap_mtu : Z) (lip lport rip rport data buf : list Z) : outcome (list Z * option (list Z)) :=
  if negb (opt_ip6 o) then Ret (buf, None)
  else if (UINT16_MAX - sizeof_udp_header <? zlen data) ||
          (tap_mtu - (sizeof_ipv6_header + sizeof_udp_header) <? zlen data) then Ret (buf, None)
  else
    let iph := mkip6 (u8 (Z.shiftl 6 4)) 0 0 (u16 (sizeof_udp_header + zlen data)) IPV6_NEXT_UDP 64 rip lip in
    let len := u16 (sizeof_udp_header + zlen data) in
    ck ← udp_ip6_checksum (mkudp rport lport len 0) data (source6 iph) (destination6 iph);
    '(buf, packet) ← write_and_send (enc_ipv6_header iph) (enc_udp_header (mkudp rport lport len ck)) data buf;
    Ret (buf, Some packet).

(** [buf] is [device_write_buf]; the result has its new contents and the packet
    given to [BTap_Send], if any. *)
Definition udpgw_client_handler_received (o : udp_options) (tap_mtu : Z) (local_addr remote_addr : BAddr) (data buf : list Z) :
    outcome (list Z * option (list Z)) :=
  _ ← assert (opt_udpgw o);
  match local_addr, remote_addr with
  | BAddrIPv4 lip lport, BAddrIPv4 rip rport => answer4 tap_mtu lip lport rip rport data buf
  | BAddrIPv6 lip lport, BAddrIPv6 rip rport => answer6 o tap_mtu lip lport rip rport data buf
  | _, _ => Fault                 (* the assertions on the types *)
  end.

(** ** The Internet checksum *)

(** The sum of the 16-bit words, an odd last byte padded with zero. *)
Fixpoint inet_sum (l : list Z) : Z :=
  match l with
  | h :: l :: r => of_be16 h l + inet_sum r
  | [h] => of_be16 h 0
  | [] => 0
  end.

(** The one's complement sum of RFC 1071; a block with its checksum in place is
    valid if the sum is all ones. *)
Definition oc_add (a b : Z) : Z := if 2 ^ 16 <=? a + b then a + b - UINT16_MAX else a + b.
Fixpoint ones_sum (l : list Z) : Z :=
  match l with
  | h :: l :: r => oc_add (of_be16 h l) (ones_sum r)
  | [h] => of_be16 h 0
  | [] => 0
  end.
Definition rfc1071_valid (l : list Z) : Prop := ones_sum l = UINT16_MAX.

Definition pseudo4 (src dst : list Z) (len : Z) : list Z := src ++ dst ++ be16 IPV4_PROTOCOL_UDP ++ be16 len.
Definition pseudo6 (src dst : list Z) (len : Z) : list Z := src ++ dst ++ be32 len ++ be32 IPV6_NEXT_UDP.

(** Induction two bytes at a time. *)
Lemma pairs_ind (P : list Z → Prop) :
  P [] → (∀ h, P [h]) → (∀ h l r, P r → P (h :: l :: r)) → ∀ l, P l.
Proof.
  intros H0 H1 H2. assert (H : ∀ n l, (length l ≤ n)%nat → P l).
  { induction n as [|n IH]; intros [|h [|x r]] Hl; cbn in Hl; auto; try lia. apply H2, IH. lia. }
  intros l. by apply (H (length l)).
Qed.

Lemma of_be16_range h l : is_byte h → is_byte l → 0 ≤ of_be16 h l ≤ UINT16_MAX.
Proof. unfold is_byte, of_be16, UINT16_MAX. lia. Qed.

Lemma inet_sum_range l : bytes_ok l → 0 ≤ inet_sum l ∧ 2 * inet_sum l ≤ UINT16_MAX * (zlen l + 1).
Proof.
  induction l as [|h|h x r IH] using pairs_ind; intros Hl; cbn [inet_sum length].
  - unfold UINT16_MAX. lia.
  - apply Forall_cons_1 in Hl as [Hh _]. pose proof (of_be16_range h 0 Hh ltac:(unfold is_byte; lia)). unfold is_byte, UINT16_MAX in *. lia.
  - apply Forall_cons_1 in Hl as [Hh [Hx Hr]%Forall_cons_1]. pose proof (of_be16_range h x Hh Hx). specialize (IH Hr). unfold UINT16_MAX in *. lia.
Qed.

Lemma inet_sum_app a b : zlen a mod 2 = 0 → inet_sum (a ++ b) = inet_sum a + inet_sum b.
Proof.
  induction a as [|h|h x r IH] using pairs_ind; intros Ha; cbn [length] in Ha; [done|done|]. cbn [app inet_sum].
  rewrite IH by (rewrite !Nat2Z.inj_succ in Ha; replace (Z.succ (Z.succ (zlen r))) with (zlen r + 1 * 2) in Ha by lia; by rewrite Z.mod_add in Ha). lia.
Qed.

Lemma ones_sum_spec l : bytes_ok l →
  0 ≤ ones_sum l ≤ UINT16_MAX ∧ ones_sum l mod UINT16_MAX = inet_sum l mod UINT16_MAX ∧ (ones_sum l = 0 ↔ inet_sum l = 0).
Proof.
  induction l as [|h|h x r IH] using pairs_ind; intros Hl; cbn [ones_sum inet_sum].
  - unfold UINT16_MAX. lia.
  - apply Forall_cons_1 in Hl as [Hh _]. pose proof (of_be16_range h 0 Hh ltac:(unfold is_byte; lia)). split_and!; done || lia.
  - apply Forall_cons_1 in Hl as [Hh [Hx Hr]%Forall_cons_1]. pose proof (of_be16_range h x Hh Hx). pose proof (inet_sum_range r Hr) as [Hn _].
    destruct (IH Hr) as (Hb & Hm & Hz). unfold oc_add. destruct (Z.leb_spec (2 ^ 16) (of_be16 h x + ones_sum r)).
    + split_and!; [unfold UINT16_MAX in *; lia|unfold UINT16_MAX in *; lia| |unfold UINT16_MAX in *; lia].
      replace (of_be16 h x + ones_sum r - UINT16_MAX) with (of_be16 h x + ones_sum r + (-1) * UINT16_MAX) by lia.
      by rewrite Z.mod_add, Zplus_mod, Hm, <- Zplus_mod by done.
    + split_and!; [lia|unfold UINT16_MAX in *; lia| |lia]. by rewrite Zplus_mod, Hm, <- Zplus_mod.
Qed.

(** A block that is not all zero is valid if its sum is a multiple of 0xFFFF. *)
Lemma rfc1071_valid_iff l : bytes_ok l → 0 < inet_sum l → rfc1071_valid l ↔ inet_sum l mod UINT16_MAX = 0.
Proof.
  intros Hl Hp. destruct (ones_sum_spec l Hl) as (Hb & Hm & Hz). unfold rfc1071_valid. rewrite <- Hm. split.
  - intros ->. done.
  - intros H0. destruct (Z.eq_dec (ones_sum l) UINT16_MAX) as [|Hn]; [done|]. rewrite Z.mod_small in H0 by lia. lia.
Qed.

(** ** The code computes it *)
Lemma even_cons2 {A} (h x : A) r : zlen (h :: x :: r) mod 2 = 0 → zlen r mod 2 = 0.
Proof. cbn [length]. intros H. replace (Z.of_nat (S (S (length r)))) with (zlen r + 1 * 2) in H by lia. by rewrite Z.mod_add in H. Qed.

Lemma sum_words_ok l t : zlen l mod 2 = 0 → bytes_ok l → 0 ≤ t → t + inet_sum l < 2 ^ 32 → sum_words t l = t + inet_sum l.
Proof.
  revert t. induction l as [|h|h x r IH] using pairs_ind; intros t He Hl Ht Hb; cbn [sum_words inet_sum] in *; [lia|done|].
  apply even_cons2 in He. apply Forall_cons_1 in Hl as [Hh [Hx Hr]%Forall_cons_1]. pose proof (of_be16_range h x Hh Hx).
  pose proof (inet_sum_range r Hr) as [Hn _]. rewrite u32_small by lia. rewrite IH by (done || lia). lia.
Qed.

Lemma fold_step t : 0 ≤ t → Z.land t 0xFFFF + Z.shiftr t 16 = t mod 2 ^ 16 + t / 2 ^ 16.
Proof. intros Ht. change 0xFFFF with (Z.ones 16). by rewrite Z.land_ones, Z.shiftr_div_pow2 by lia. Qed.

Lemma fold_round fuel t : 0 ≤ t < 2 ^ 32 → fold_carries (S fuel) t =
  if t <? 2 ^ 16 then Ret t else fold_carries fuel (t mod 2 ^ 16 + t / 2 ^ 16).
Proof.
  intros Ht. cbn [fold_carries]. rewrite fold_step by lia. rewrite Z.shiftr_div_pow2 by lia.
  pose proof (Z.mod_pos_bound t (2 ^ 16) ltac:(lia)).
  assert (t / 2 ^ 16 < 2 ^ 16) by (apply Z.div_lt_upper_bound; lia). assert (0 ≤ t / 2 ^ 16) by (apply Z.div_pos; lia).
  destruct (Z.ltb_spec t (2 ^ 16)).
  - by rewrite Z.div_small by lia.
  - assert (1 ≤ t / 2 ^ 16) by (apply Z.div_le_lower_bound; lia). rewrite (proj2 (Z.eqb_neq (t / 2 ^ 16) 0)) by lia. by rewrite u32_small by lia.
Qed.

Lemma fold_carries_ok t : 0 < t < 2 ^ 32 →
  ∃ r, fold_carries carry_rounds t = Ret r ∧ 0 < r ≤ UINT16_MAX ∧ r mod UINT16_MAX = t mod UINT16_MAX.
Proof.
  assert (Hs : ∀ t, 0 < t < 2 ^ 32 → 2 ^ 16 ≤ t → let t' := t mod 2 ^ 16 + t / 2 ^ 16 in
    0 < t' ≤ 2 * UINT16_MAX ∧ t' < t ∧ t' mod UINT16_MAX = t mod UINT16_MAX).
  { clear t. intros t Ht Hb t'. pose proof (Z.mod_pos_bound t (2 ^ 16) ltac:(lia)). pose proof (Z.div_mod t (2 ^ 16) ltac:(lia)) as Hd.
    assert (t / 2 ^ 16 < 2 ^ 16) by (apply Z.div_lt_upper_bound; lia). assert (1 ≤ t / 2 ^ 16) by (apply Z.div_le_lower_bound; lia).
    unfold UINT16_MAX, t'. split_and!; [lia|lia|lia|].
    replace (t mod 2 ^ 16 + t / 2 ^ 16) with (t + (- (t / 2 ^ 16)) * (2 ^ 16 - 1)) by lia. by rewrite Z.mod_add. }
  intros Ht. unfold carry_rounds. rewrite fold_round by lia. destruct (Z.ltb_spec t (2 ^ 16)); [exists t; unfold UINT16_MAX; split_and!; done || lia|].
  destruct (Hs t Ht) as (Hr1 & _ & <-); [lia|]. set (t1 := t mod 2 ^ 16 + t / 2 ^ 16) in *. clearbody t1. unfold UINT16_MAX in Hr1.
  rewrite fold_round by lia. destruct (Z.ltb_spec t1 (2 ^ 16)); [exists t1; unfold UINT16_MAX; split_and!; done || lia|].
  destruct (Hs t1 ltac:(lia)) as (Hr2 & Hl2 & <-); [lia|].
  assert (Ht2 : t1 mod 2 ^ 16 + t1 / 2 ^ 16 < 2 ^ 16).
  { pose proof (Z.div_mod t1 (2 ^ 16) ltac:(lia)). assert (t1 / 2 ^ 16 = 1); [|lia].
    assert (t1 / 2 ^ 16 < 2) by (apply Z.div_lt_upper_bound; lia). assert (1 ≤ t1 / 2 ^ 16) by (apply Z.div_le_lower_bound; lia). lia. }
  set (t2 := t1 mod 2 ^ 16 + t1 / 2 ^ 16) in *. clearbody t2. rewrite fold_round by lia. rewrite (proj2 (Z.ltb_lt t2 (2 ^ 16))) by lia.
  exists t2. unfold UINT16_MAX. split_and!; done || lia.
Qed.

Definition is_u16 (n : Z) : Prop := 0 ≤ n ≤ UINT16_MAX.
Definition addr_bytes (n : nat) (l : list Z) : Prop := length l = n ∧ bytes_ok l.

Lemma inet_sum_be16 n : is_u16 n → inet_sum (be16 n) = n.
Proof. intros Hn. cbn [inet_sum be16]. rewrite (of_be16_be16 n) by done. rewrite u16_small by (unfold is_u16, UINT16_MAX in Hn; lia). lia. Qed.

Lemma be16_length n : zlen (be16 n) = 2.
Proof. done. Qed.

Lemma finish_ok t : 0 < t < 2 ^ 32 →
  ∃ r, udp_checksum_finish t = Ret (UINT16_MAX - r) ∧ 0 < r ≤ UINT16_MAX ∧ r mod UINT16_MAX = t mod UINT16_MAX.
Proof.
  intros Ht. destruct (fold_carries_ok t Ht) as (r & E & Hr & Hm). exists r. split_and!; try done; try lia.
  unfold udp_checksum_finish. rewrite E, bind_Ret. unfold UINT16_MAX in *.
  assert (Hn : u32 (Z.lnot r) = 2 ^ 32 - 1 - r).
  { unfold u32, Z.lnot. rewrite <- (Z.mod_add (Z.pred (- r)) 1) by lia. rewrite Z.mod_small; lia. }
  rewrite Hn. rewrite (proj2 (Z.eqb_neq _ _)) by lia. f_equal. unfold u16.
  replace (2 ^ 32 - 1 - r) with ((2 ^ 16 - 1 - r) + (2 ^ 16 - 1) * 2 ^ 16) by lia. rewrite Z.mod_add by lia. rewrite Z.mod_small; lia.
Qed.

(** A field equals the computed checksum exactly if the sum with it is a multiple
    of 0xFFFF, unless it is 0xFFFF itself: that is never computed. *)
Lemma field_iff t r field : 0 < r ≤ UINT16_MAX → r mod UINT16_MAX = t mod UINT16_MAX → is_u16 field →
  field = UINT16_MAX - r ↔ (t + field) mod UINT16_MAX = 0 ∧ field ≠ UINT16_MAX.
Proof.
  intros Hr Hm Hf. rewrite Zplus_mod, <- Hm, <- Zplus_mod. unfold is_u16 in Hf. split.
  - intros ->. split; [|lia]. by replace (r + (UINT16_MAX - r)) with UINT16_MAX by lia.
  - intros [H0 Hn]. apply Z.mod_divide in H0 as [k Hk]; [|done]. assert (k = 1); unfold UINT16_MAX in *; lia.
Qed.

Lemma checksum_payload_ok p : bytes_ok p → zlen p ≤ UINT16_MAX → udp_checksum_payload p = Ret (inet_sum p).
Proof.
  intros Hp Hl. pose proof (inet_sum_range p Hp) as [Hn Hb]. unfold udp_checksum_payload, udp_checksum_summer.
  assert (Hs : inet_sum p < 2 ^ 32) by (unfold UINT16_MAX in *; lia).
  destruct (Z.eqb_spec (zlen p mod 2) 0) as [He|He]; [by rewrite sum_words_ok|].
  destruct (exists_last (l := p)) as (f & x & ->); [by intros ->|]. apply bytes_ok_app in Hp as [Hf Hx]. apply Forall_cons_1 in Hx as [Hx _].
  rewrite length_app in *. cbn [length] in *. assert (Hfe : zlen f mod 2 = 0).
  { pose proof (Z.mod_pos_bound (zlen f + 1) 2 ltac:(lia)). pose proof (Z.div_mod (zlen f + 1) 2 ltac:(lia)).
    replace (zlen f) with (((zlen f + 1) / 2) * 2); [apply Z.mod_mul; lia|]. rewrite Nat2Z.inj_add in He. cbn in He. lia. }
  replace (Z.of_nat (length f + 1) - 1) with (zlen f) by lia. rewrite inet_sum_app by done.
  rewrite inet_sum_app in Hs, Hn by done. cbn [inet_sum] in *. pose proof (of_be16_range x 0 Hx ltac:(unfold is_byte; lia)) as Hr.
  rewrite mread_prefix, bind_Ret, mget_app, bind_Ret.
  assert (Eb : u16 (Z.shiftl x 8) = of_be16 x 0).
  { rewrite Z.shiftl_mul_pow2 by lia. unfold of_be16, is_byte in *. rewrite u16_small; lia. }
  pose proof (inet_sum_range f Hf) as [Hn0 _].
  pose proof (inet_sum_be16 (of_be16 x 0) Hr) as Ei. rewrite Eb, !sum_words_ok, Ei; try done; try apply be16_ok; try (rewrite Ei; unfold UINT16_MAX in *; lia); try lia.
  by rewrite !Z.add_0_l, u32_small by lia.
Qed.

Lemma sum_step t l : zlen l mod 2 = 0 → bytes_ok l → 0 ≤ t → t + inet_sum l < 2 ^ 32 → u32 (t + udp_checksum_summer l) = t + inet_sum l.
Proof.
  intros He Hl Ht Hb. pose proof (inet_sum_range l Hl) as [Hn _]. unfold udp_checksum_summer. rewrite sum_words_ok by (done || lia).
  rewrite u32_small; lia.
Qed.

Lemma addr_even n l : addr_bytes n l → Z.of_nat n mod 2 = 0 → zlen l mod 2 = 0.
Proof. intros [-> _]. done. Qed.
Lemma addr_sum n l : addr_bytes n l → (n ≤ 16)%nat → 0 ≤ inet_sum l ≤ 2 ^ 20.
Proof. intros [Hn Hl] Hb. pose proof (inet_sum_range l Hl). unfold UINT16_MAX in *. lia. Qed.

Lemma udp_header_sum sp dp len c : addr_bytes 2 sp → addr_bytes 2 dp → is_u16 len → is_u16 c →
  inet_sum (enc_udp_header (mkudp sp dp len c)) = inet_sum sp + inet_sum dp + len + c.
Proof.
  intros Hs Hd Hl Hc. unfold enc_udp_header. cbn [source_port dest_port udp_length udp_check_sum].
  rewrite !inet_sum_app, !inet_sum_be16 by (done || by eapply addr_even). lia.
Qed.
Lemma udp_header_bytes sp dp len c : addr_bytes 2 sp → addr_bytes 2 dp →
  bytes_ok (enc_udp_header (mkudp sp dp len c)) ∧ zlen (enc_udp_header (mkudp sp dp len c)) = 8.
Proof.
  intros [Hs1 Hs2] [Hd1 Hd2]. unfold enc_udp_header. cbn [source_port dest_port udp_length udp_check_sum]. split.
  - repeat apply Forall_app_2; (done || apply be16_ok).
  - rewrite !length_app, Hs1, Hd1. done.
Qed.

(** The end of both UDP checksums, for a pseudo header [pre]. *)
Lemma checksum_core pre sp dp len payload :
  zlen pre mod 2 = 0 → bytes_ok pre → 0 < inet_sum pre ≤ 2 ^ 24 → addr_bytes 2 sp → addr_bytes 2 dp → is_u16 len →
  bytes_ok payload → zlen payload ≤ UINT16_MAX →
  ∃ c, udp_checksum_finish (u32 (inet_sum pre + inet_sum (enc_udp_header (mkudp sp dp len 0)) + inet_sum payload)) = Ret c ∧ is_u16 c ∧
    ∀ field, is_u16 field →
      field = c ↔ rfc1071_valid (pre ++ enc_udp_header (mkudp sp dp len field) ++ payload) ∧ field ≠ UINT16_MAX.
Proof.
  intros He Hpre Hr Hs Hd Hl Hp Hz. pose proof (addr_sum 2 sp Hs ltac:(lia)). pose proof (addr_sum 2 dp Hd ltac:(lia)).
  pose proof (inet_sum_range payload Hp) as [Hp0 Hp1]. assert (Hzero : is_u16 0) by (unfold is_u16, UINT16_MAX; lia).
  rewrite udp_header_sum by done. set (t := inet_sum pre + _ + _). assert (Ht : 0 < t < 2 ^ 32) by (unfold is_u16, UINT16_MAX, t in *; lia).
  rewrite u32_small by lia. destruct (finish_ok t Ht) as (r & -> & Hr' & Hm). eexists. split; [done|]. split; [unfold is_u16; lia|].
  intros field Hf. rewrite (field_iff t r field Hr' Hm Hf). destruct (udp_header_bytes sp dp len field Hs Hd) as [Hb Hlen].
  rewrite rfc1071_valid_iff.
  - rewrite !inet_sum_app, udp_header_sum by (done || by rewrite Hlen). unfold t.
    by replace (inet_sum pre + (inet_sum sp + inet_sum dp + len + field + inet_sum payload))
      with (inet_sum pre + (inet_sum sp + inet_sum dp + len + 0) + inet_sum payload + field) by lia.
  - apply Forall_app_2; [done|]. by apply Forall_app_2.
  - rewrite !inet_sum_app, udp_header_sum by (done || by rewrite Hlen). unfold is_u16 in *. lia.
Qed.

Lemma udp_checksum_ok sp dp len payload src dst :
  addr_bytes 2 sp → addr_bytes 2 dp → is_u16 len → bytes_ok payload → zlen payload + 8 ≤ UINT16_MAX → addr_bytes 4 src → addr_bytes 4 dst →
  ∃ c, udp_checksum (mkudp sp dp len 0) payload src dst = Ret c ∧ is_u16 c ∧ ∀ field, is_u16 field →
    field = c ↔ rfc1071_valid (pseudo4 src dst (8 + zlen payload) ++ enc_udp_header (mkudp sp dp len field) ++ payload) ∧ field ≠ UINT16_MAX.
Proof.
  intros Hs Hd Hl Hp Hz Hsrc Hdst. assert (Hlen : is_u16 (8 + zlen payload)) by (unfold is_u16; lia).
  pose proof (addr_sum 4 src Hsrc ltac:(lia)). pose proof (addr_sum 4 dst Hdst ltac:(lia)).
  assert (Hpre : inet_sum (pseudo4 src dst (8 + zlen payload)) = inet_sum src + inet_sum dst + 17 + (8 + zlen payload)).
  { unfold pseudo4. rewrite !inet_sum_app, !inet_sum_be16 by (done || by eapply addr_even). unfold IPV4_PROTOCOL_UDP. lia. }
  destruct (checksum_core (pseudo4 src dst (8 + zlen payload)) sp dp len payload) as (c & E & Hc & Hiff); try done.
  - unfold pseudo4. rewrite !length_app. destruct Hsrc as [-> _], Hdst as [-> _]. done.
  - unfold pseudo4. destruct Hsrc, Hdst. repeat apply Forall_app_2; (done || apply be16_ok).
  - rewrite Hpre. unfold is_u16, UINT16_MAX in *. lia.
  - lia.
  - exists c. split; [|done]. rewrite <- E, Hpre. unfold udp_checksum, sizeof_udp_header.
    destruct (udp_header_bytes sp dp len 0 Hs Hd) as [Hb Hbl]. pose proof (inet_sum_range _ Hb) as [Hb0 Hb1]. rewrite Hbl in Hb1.
    rewrite (sum_step 0 src), (sum_step _ dst), (sum_step _ (be16 IPV4_PROTOCOL_UDP)), inet_sum_be16, u16_small, (sum_step _ (be16 (8 + zlen payload))), inet_sum_be16,
      (sum_step _ (enc_udp_header _)), checksum_payload_ok, bind_Ret; try done; try apply be16_ok; try (by destruct Hsrc); try (by destruct Hdst);
      rewrite ?inet_sum_be16 by done; unfold is_u16, IPV4_PROTOCOL_UDP, UINT16_MAX in *; try lia; try (by eapply addr_even); by rewrite Hbl.
Qed.

Lemma inet_sum_be32 n : is_u16 n → inet_sum (be32 n) = n.
Proof.
  intros Hn. unfold is_u16, UINT16_MAX in Hn. assert (Hh : Z.shiftr n 24 = 0 ∧ Z.shiftr n 16 = 0).
  { rewrite !Z.shiftr_div_pow2 by lia. split; apply Z.div_small; lia. }
  destruct Hh as [H1 H2]. unfold be32. rewrite H1, H2. change (u8 0) with 0. cbn [inet_sum].
  rewrite (of_be16_be16 n (u8 (Z.shiftr n 8)) (u8 n)) by done. rewrite u16_small by lia. unfold of_be16. lia.
Qed.

Lemma udp_ip6_checksum_ok sp dp len payload src dst :
  addr_bytes 2 sp → addr_bytes 2 dp → is_u16 len → bytes_ok payload → zlen payload + 8 ≤ UINT16_MAX → addr_bytes 16 src → addr_bytes 16 dst →
  ∃ c, udp_ip6_checksum (mkudp sp dp len 0) payload src dst = Ret c ∧ is_u16 c ∧ ∀ field, is_u16 field →
    field = c ↔ rfc1071_valid (pseudo6 src dst (8 + zlen payload) ++ enc_udp_header (mkudp sp dp len field) ++ payload) ∧ field ≠ UINT16_MAX.
Proof.
  intros Hs Hd Hl Hp Hz Hsrc Hdst. assert (Hlen : is_u16 (8 + zlen payload)) by (unfold is_u16; lia).
  pose proof (addr_sum 16 src Hsrc ltac:(lia)). pose proof (addr_sum 16 dst Hdst ltac:(lia)).
  assert (Hpre : inet_sum (pseudo6 src dst (8 + zlen payload)) = inet_sum src + inet_sum dst + (8 + zlen payload) + 17).
  { unfold pseudo6. rewrite !inet_sum_app, !inet_sum_be32 by (done || by eapply addr_even). unfold IPV6_NEXT_UDP. lia. }
  destruct (checksum_core (pseudo6 src dst (8 + zlen payload)) sp dp len payload) as (c & E & Hc & Hiff); try done.
  - unfold pseudo6. rewrite !length_app. destruct Hsrc as [-> _], Hdst as [-> _]. done.
  - unfold pseudo6. destruct Hsrc, Hdst. repeat apply Forall_app_2; (done || apply be32_ok).
  - rewrite Hpre. unfold is_u16, UINT16_MAX in *. lia.
  - lia.
  - exists c. split; [|done]. rewrite <- E, Hpre. unfold udp_ip6_checksum, sizeof_udp_header.
    destruct (udp_header_bytes sp dp len 0 Hs Hd) as [Hb Hbl]. pose proof (inet_sum_range _ Hb) as [Hb0 Hb1]. rewrite Hbl in Hb1.
    rewrite (u32_small (8 + zlen payload)) by (unfold is_u16, UINT16_MAX in *; lia).
    rewrite (sum_step 0 src), (sum_step _ dst), (sum_step _ (be32 (8 + zlen payload))), inet_sum_be32, (sum_step _ (be32 IPV6_NEXT_UDP)), inet_sum_be32,
      (sum_step _ (enc_udp_header _)), checksum_payload_ok, bind_Ret; try done; try apply be32_ok; try (by destruct Hsrc); try (by destruct Hdst);
      rewrite ?inet_sum_be32 by done; unfold is_u16, IPV6_NEXT_UDP, UINT16_MAX in *; try lia; try (by eapply addr_even); by rewrite Hbl.
Qed.

(** ** Headers in memory *)
Record ip4_ok (h : ipv4_header) : Prop := {
  ip4_bytes : is_byte (version4_ihl4 h) ∧ is_byte (ds h) ∧ is_byte (ttl h) ∧ is_byte (protocol h);
  ip4_words : is_u16 (total_length h) ∧ is_u16 (identification h) ∧ is_u16 (flags3_fragmentoffset13 h) ∧ is_u16 (checksum h);
  ip4_src : addr_bytes 4 (source_address h);
  ip4_dst : addr_bytes 4 (destination_address h) }.
Record ip6_ok (h : ipv6_header) : Prop := {
  ip6_bytes : is_byte (version4_tc4 h) ∧ is_byte (tc4_fl4 h) ∧ is_byte (next_header h) ∧ is_byte (hop_limit h);
  ip6_words : is_u16 (fl h) ∧ is_u16 (payload_length h);
  ip6_src : addr_bytes 16 (source6 h);
  ip6_dst : addr_bytes 16 (destination6 h) }.
Record udp_ok (h : udp_header) : Prop := {
  udp_src : addr_bytes 2 (source_port h);
  udp_dst : addr_bytes 2 (dest_port h);
  udp_words : is_u16 (udp_length h) ∧ is_u16 (udp_check_sum h) }.

Lemma of_be16_u16 n : is_u16 n → of_be16 (u8 (Z.shiftr n 8)) (u8 n) = n.
Proof. intros Hn. rewrite (of_be16_be16 n) by done. apply u16_small. unfold is_u16, UINT16_MAX in Hn. lia. Qed.

Ltac list_of n l H := let a := fresh "a" in
  lazymatch n with
  | O => destruct l as [|]; [|discriminate H]
  | S ?k => destruct l as [|a l]; [discriminate H|]; cbn [length] in H; apply (f_equal Nat.pred) in H; cbn [Nat.pred] in H; list_of k l H
  end.

(** Split the conjunctions that are in sight. *)
Ltac parts := repeat match goal with |- _ ∧ _ => split end.

Lemma dec_enc_ipv4 h : ip4_ok h → dec_ipv4_header (enc_ipv4_header h) = Ret h.
Proof.
  intros [_ (H1 & H2 & H3 & H4) [Hs _] [Hd _]]. destruct h as [v d tl id fo tt pr ck s t]. cbn in *.
  list_of 4%nat s Hs. list_of 4%nat t Hd. cbn. by rewrite !of_be16_u16.
Qed.
Lemma dec_ipv4_ok l : bytes_ok l → zlen l = 20 → ∃ h, dec_ipv4_header l = Ret h ∧ ip4_ok h ∧ enc_ipv4_header h = l.
Proof.
  intros Hb Hl. assert (Hn : length l = 20%nat) by lia. list_of 20%nat l Hn. repeat (apply Forall_cons_1 in Hb as [? Hb]).
  eexists. split; [done|]. split; [split; cbn; unfold addr_bytes; parts; first [done|by apply of_be16_range|by repeat first [apply Forall_cons_2|apply Forall_nil_2|assumption]]|].
  unfold enc_ipv4_header. cbn [version4_ihl4 ds total_length identification flags3_fragmentoffset13 ttl protocol checksum source_address destination_address].
  by rewrite !be16_of_be16.
Qed.

Lemma dec_enc_ipv6 h : ip6_ok h → dec_ipv6_header (enc_ipv6_header h) = Ret h.
Proof.
  intros [_ (H1 & H2) [Hs _] [Hd _]]. destruct h as [v d f pl nh hl s t]. cbn in *.
  rewrite length_app, Hs, Hd. cbn. rewrite take_app_length', drop_app_length' by done. by rewrite !of_be16_u16.
Qed.
Lemma dec_ipv6_ok l : bytes_ok l → zlen l = 40 → ∃ h, dec_ipv6_header l = Ret h ∧ ip6_ok h ∧ enc_ipv6_header h = l.
Proof.
  intros Hb Hl. assert (Hn : length l = 40%nat) by lia. do 8 (destruct l as [|? l]; [discriminate Hn|]). cbn [length] in Hn.
  do 8 apply Forall_cons_1 in Hb as [? Hb]. cbn [dec_ipv6_header].
  rewrite (proj2 (Z.eqb_eq (zlen l) 32)) by lia. eexists. split; [done|]. split.
  - split; cbn; unfold addr_bytes; parts; try done; try (by apply of_be16_range); try (by apply Forall_take); try (by apply Forall_drop); rewrite ?length_take, ?length_drop; lia.
  - unfold enc_ipv6_header. cbn [version4_tc4 tc4_fl4 fl payload_length next_header hop_limit source6 destination6].
    rewrite take_drop, !be16_of_be16 by done. done.
Qed.

Lemma dec_enc_udp h : udp_ok h → dec_udp_header (enc_udp_header h) = Ret h.
Proof.
  intros [[Hs _] [Hd _] (H1 & H2)]. destruct h as [s t l c]. cbn in *. list_of 2%nat s Hs. list_of 2%nat t Hd. cbn. by rewrite !of_be16_u16.
Qed.
Lemma dec_udp_ok l : bytes_ok l → zlen l = 8 → ∃ h, dec_udp_header l = Ret h ∧ udp_ok h ∧ enc_udp_header h = l.
Proof.
  intros Hb Hl. assert (Hn : length l = 8%nat) by lia. list_of 8%nat l Hn. repeat (apply Forall_cons_1 in Hb as [? Hb]).
  eexists. split; [done|]. split; [split; cbn; unfold addr_bytes; parts; first [done|by apply of_be16_range|by repeat first [apply Forall_cons_2|apply Forall_nil_2|assumption]]|].
  unfold enc_udp_header. cbn [source_port dest_port udp_length udp_check_sum]. by rewrite !be16_of_be16.
Qed.

Lemma enc_ipv4_bytes h : ip4_ok h → bytes_ok (enc_ipv4_header h) ∧ zlen (enc_ipv4_header h) = 20.
Proof.
  intros [(H1 & H2 & H3 & H4) _ [Hs Hs'] [Hd Hd']]. unfold enc_ipv4_header. split.
  - repeat first [apply Forall_app_2|apply be16_ok|assumption|apply Forall_cons_2|apply Forall_nil_2].
  - rewrite !length_app, Hs, Hd. done.
Qed.
Lemma enc_ipv6_bytes h : ip6_ok h → bytes_ok (enc_ipv6_header h) ∧ zlen (enc_ipv6_header h) = 40.
Proof.
  intros [(H1 & H2 & H3 & H4) _ [Hs Hs'] [Hd Hd']]. unfold enc_ipv6_header. split.
  - repeat first [apply Forall_app_2|apply be16_ok|assumption|apply Forall_cons_2|apply Forall_nil_2].
  - rewrite !length_app, Hs, Hd. done.
Qed.

Lemma ipv4_header_sum h : ip4_ok h → inet_sum (enc_ipv4_header h) = inet_sum (enc_ipv4_header (set_checksum 0 h)) + checksum h.
Proof.
  intros [_ (H1 & H2 & H3 & H4) Hs Hd]. unfold enc_ipv4_header, set_checksum.
  cbn [version4_ihl4 ds total_length identification flags3_fragmentoffset13 ttl protocol checksum source_address destination_address].
  rewrite !inet_sum_app, !(inet_sum_be16 (checksum h)), (inet_sum_be16 0) by (done || (by eapply addr_even) || (unfold is_u16, UINT16_MAX; lia)). lia.
Qed.

Lemma ipv4_checksum_ok h extra : ip4_ok h → bytes_ok extra → zlen extra mod 2 = 0 → zlen extra ≤ 40 → 0 < version4_ihl4 h →
  ∃ c, ipv4_checksum (set_checksum 0 h) extra = Ret c ∧ is_u16 c ∧
    (checksum h = c ↔ rfc1071_valid (enc_ipv4_header h ++ extra) ∧ checksum h ≠ UINT16_MAX).
Proof.
  intros Hh He Hev Hl Hv. assert (Hh0 : ip4_ok (set_checksum 0 h)).
  { destruct Hh as [(? & ? & ? & ?) (? & ? & ? & ?) ? ?]. split; cbn; parts; done. }
  destruct (enc_ipv4_bytes _ Hh0) as [Hb0 Hl0]. destruct (enc_ipv4_bytes _ Hh) as [Hb Hlh].
  pose proof (inet_sum_range _ Hb0) as [_ Hs1]. rewrite Hl0 in Hs1. pose proof (inet_sum_range _ He) as [He0 He1].
  assert (Hs0 : 0 < inet_sum (enc_ipv4_header (set_checksum 0 h))).
  { unfold enc_ipv4_header, set_checksum. cbn [version4_ihl4 ds app inet_sum].
    match goal with |- 0 < of_be16 ?a ?b + inet_sum ?r => assert (Hr : 0 ≤ inet_sum r) end.
    { apply inet_sum_range. apply Forall_cons_1 in Hb0 as [_ [_ Hb0]%Forall_cons_1]. exact Hb0. }
    destruct Hh as [(H1 & H2 & _) _ _ _]. unfold is_byte, of_be16 in *. lia. }
  destruct Hh as [Hbs (? & ? & ? & Hck) Hsa Hda].
  set (t := inet_sum (enc_ipv4_header (set_checksum 0 h)) + inet_sum extra). assert (Ht : 0 < t < 2 ^ 32) by (unfold t, UINT16_MAX in *; lia).
  destruct (fold_carries_ok t Ht) as (r & E & Hr & Hm). exists (UINT16_MAX - r). split; [|split; [unfold is_u16; lia|]].
  - unfold ipv4_checksum. rewrite assert_true, bind_Ret by (by apply Z.eqb_eq). rewrite (sum_words_ok (enc_ipv4_header _) 0), Z.add_0_l, (sum_words_ok extra); fold t;
      try done; try (unfold t, UINT16_MAX in *; lia); try (by rewrite Hl0).
    rewrite E, bind_Ret. f_equal. unfold UINT16_MAX in *. assert (Hn : u32 (Z.lnot r) = (2 ^ 16 - 1 - r) + (2 ^ 16 - 1) * 2 ^ 16).
    { unfold u32, Z.lnot. rewrite <- (Z.mod_add (Z.pred (- r)) 1) by lia. rewrite Z.mod_small; lia. }
    rewrite Hn. unfold u16. rewrite Z.mod_add by lia. rewrite Z.mod_small; lia.
  - rewrite (field_iff t r) by done. rewrite rfc1071_valid_iff.
    + rewrite inet_sum_app, ipv4_header_sum by (done || by rewrite Hlh). unfold t.
      by replace (inet_sum (enc_ipv4_header (set_checksum 0 h)) + checksum h + inet_sum extra)
        with (inet_sum (enc_ipv4_header (set_checksum 0 h)) + inet_sum extra + checksum h) by lia.
    + by apply Forall_app_2.
    + rewrite inet_sum_app, ipv4_header_sum by (done || by rewrite Hlh). unfold is_u16 in Hck. lia.
Qed.
