(* ===== verification/DeviceUdpSpec.v ===== *)
(** * tun2socks: which packets of the device are taken as UDP

    The packets that [process_device_udp_packet] accepts, described on the wire,
    and the packets that [udpgw_client_handler_received] builds. *)
From S2P Require Import Prelude Encrypt BadvpnMisc DeviceUdp.
#[local] Open Scope Z_scope.

(** A DNS query: the message is not a response, its response code is 0 and it
    has no answer and no authority records. *)
Definition dns_query (p : list Z) : bool :=
  (12 <=? zlen p) && (nth 2 p 0 <? 128) && (nth 3 p 0 mod 16 =? 0) && bool_decide (take 4 (drop 6 p) = [0; 0; 0; 0]).

(** An IPv4 packet with header [ip] and options, a UDP datagram with header [udp]
    and [payload], both checksums right, possibly followed by bytes that no
    length covers. *)
Record udp4_packet (m : list Z) (ip : ipv4_header) (opts : list Z) (udp : udp_header) (payload stray : list Z) : Prop := {
  u4_packet : m = enc_ipv4_header ip ++ opts ++ enc_udp_header udp ++ payload ++ stray;
  u4_ip : ip4_ok ip;
  u4_udp : udp_ok udp;
  u4_version : 4 * (version4_ihl4 ip - 64) = 20 + zlen opts ∧ version4_ihl4 ip < 80;
  u4_protocol : protocol ip = 17;
  u4_total : 20 + zlen opts + 8 + zlen payload ≤ total_length ip ≤ zlen m;
  u4_length : udp_length udp = 8 + zlen payload;
  u4_ipsum : rfc1071_valid (enc_ipv4_header ip ++ opts);
  u4_udpsum : rfc1071_valid (pseudo4 (source_address ip) (destination_address ip) (8 + zlen payload) ++ enc_udp_header udp ++ payload) }.

Record udp6_packet (m : list Z) (ip : ipv6_header) (udp : udp_header) (payload stray : list Z) : Prop := {
  u6_packet : m = enc_ipv6_header ip ++ enc_udp_header udp ++ payload ++ stray;
  u6_ip : ip6_ok ip;
  u6_udp : udp_ok udp;
  u6_version : 96 ≤ version4_tc4 ip < 112;
  u6_next : next_header ip = 17;
  u6_total : 8 + zlen payload ≤ payload_length ip ≤ zlen m - 40;
  u6_length : udp_length udp = 8 + zlen payload;
  u6_udpsum : rfc1071_valid (pseudo6 (source6 ip) (destination6 ip) (8 + zlen payload) ++ enc_udp_header udp ++ payload) }.

(** ** Reading at the front of what is left *)
Lemma mread_at a b c off n : off = zlen a → n = zlen b → mread (a ++ b ++ c) off n = Ret b.
Proof. intros -> ->. apply mread_app. Qed.

Lemma mread_front b c n : n = zlen b → mread (b ++ c) 0 n = Ret b.
Proof. intros ->. apply mread_prefix. Qed.

Lemma split_front (l : list Z) n : 0 ≤ n ≤ zlen l → ∃ a b, l = a ++ b ∧ zlen a = n.
Proof.
  intros Hn. exists (take (Z.to_nat n) l), (drop (Z.to_nat n) l). rewrite take_drop, length_take. split; [done|lia].
Qed.

Lemma app_same (a a' b b' : list Z) : a ++ b = a' ++ b' → zlen a = zlen a' → a = a' ∧ b = b'.
Proof. intros E Hl. by apply app_inj_1; [lia|]. Qed.

Lemma enc_ipv4_inj h h' : ip4_ok h → ip4_ok h' → enc_ipv4_header h = enc_ipv4_header h' → h = h'.
Proof. intros H H' E. apply dec_enc_ipv4 in H, H'. rewrite E in H. congruence. Qed.
Lemma enc_ipv6_inj h h' : ip6_ok h → ip6_ok h' → enc_ipv6_header h = enc_ipv6_header h' → h = h'.
Proof. intros H H' E. apply dec_enc_ipv6 in H, H'. rewrite E in H. congruence. Qed.
Lemma enc_udp_inj h h' : udp_ok h → udp_ok h' → enc_udp_header h = enc_udp_header h' → h = h'.
Proof. intros H H' E. apply dec_enc_udp in H, H'. rewrite E in H. congruence. Qed.

Lemma enc_udp_bytes h : udp_ok h → bytes_ok (enc_udp_header h) ∧ zlen (enc_udp_header h) = 8.
Proof. intros [Hs Hd _]. destruct h. by apply udp_header_bytes. Qed.

(** ** The UDP header *)

(** Parsing the UDP part at the end of [a]: the datagram is there, or the packet
    holds no datagram at this place. *)
Lemma udp_check_cases a r data_len : bytes_ok r → data_len ≤ zlen r →
  (udp_check (a ++ r) (zlen a) data_len = Ret None ∧
   ∀ udp payload stray, r = enc_udp_header udp ++ payload ++ stray → udp_ok udp → udp_length udp = 8 + zlen payload → data_len < 8 + zlen payload) ∨
  ∃ udp payload stray, r = enc_udp_header udp ++ payload ++ stray ∧ udp_ok udp ∧ udp_length udp = 8 + zlen payload ∧ 8 + zlen payload ≤ data_len ∧
    udp_check (a ++ r) (zlen a) data_len = Ret (Some (udp, zlen a + 8, zlen payload)).
Proof.
  intros Hr Hd. unfold udp_check, sizeof_udp_header. destruct (Z.ltb_spec data_len 8).
  { left. split; [done|]. intros. lia. }
  destruct (split_front r 8) as (b & r1 & -> & Hb); [lia|]. apply bytes_ok_app in Hr as [Hb0 Hr1].
  rewrite mread_at by done. rewrite bind_Ret. destruct (dec_udp_ok b Hb0 Hb) as (h & -> & Hh & <-). rewrite bind_Ret.
  assert (Hu : ∀ udp payload stray, enc_udp_header h ++ r1 = enc_udp_header udp ++ payload ++ stray → udp_ok udp → h = udp ∧ r1 = payload ++ stray).
  { intros udp p st E Hok. apply app_same in E as [E ->]; [|by rewrite Hb, (proj2 (enc_udp_bytes _ Hok))]. by apply enc_udp_inj in E. }
  destruct (Z.ltb_spec (udp_length h) 8).
  { left. split; [done|]. intros udp p st E Hok Hl. apply Hu in E as [-> _]; [|done]. lia. }
  destruct (Z.ltb_spec (8 + (data_len - 8)) (udp_length h)).
  { left. split; [done|]. intros udp p st E Hok Hl. apply Hu in E as [-> _]; [|done]. lia. }
  right. rewrite length_app in Hd. destruct (split_front r1 (udp_length h - 8)) as (p & st & -> & Hp); [lia|].
  exists h, p, st. split_and!; try done; try lia. by rewrite <- Hp.
Qed.

(** ** The IP headers *)
Lemma version_ihl h : is_byte (version4_ihl4 h) →
  IPV4_GET_VERSION h = version4_ihl4 h / 16 ∧ IPV4_GET_IHL h = version4_ihl4 h mod 16.
Proof.
  unfold is_byte, IPV4_GET_VERSION, IPV4_GET_IHL. generalize (version4_ihl4 h) as v. intros v Hv. split.
  - apply Z.bits_inj'. intros n Hn. change 16 with (2 ^ 4). rewrite <- Z.shiftr_div_pow2 by lia.
    rewrite !Z.shiftr_spec, Z.land_spec by lia. destruct (Z.ltb_spec n 4).
    + replace (Z.testbit 0xF0 (n + 4)) with true; [by rewrite andb_true_r|].
      assert (Hc : n = 0 ∨ n = 1 ∨ n = 2 ∨ n = 3) by lia. by destruct Hc as [->|[->|[->| ->]]].
    + rewrite (Z.bits_above_log2 v (n + 4)); [done|lia|]. destruct (Z.eq_dec v 0) as [->|]; [cbn; lia|]. apply Z.log2_lt_pow2; [lia|].
      assert (2 ^ 8 ≤ 2 ^ (n + 4)) by (apply Z.pow_le_mono_r; lia). lia.
  - rewrite Z.shiftr_0_r. change 0x0F with (Z.ones 4). by rewrite Z.land_ones by lia.
Qed.

Definition ip4_shape (ip : ipv4_header) (opts : list Z) (size : Z) : Prop :=
  ip4_ok ip ∧ 4 * (version4_ihl4 ip - 64) = 20 + zlen opts ∧ version4_ihl4 ip < 80 ∧ 20 + zlen opts ≤ total_length ip ≤ size ∧
  rfc1071_valid (enc_ipv4_header ip ++ opts) ∧ checksum ip ≠ UINT16_MAX.

Lemma ipv4_check_cases m : bytes_ok m →
  (ipv4_check m 0 (zlen m) = Ret None ∧ ∀ ip opts r, m = enc_ipv4_header ip ++ opts ++ r → ¬ ip4_shape ip opts (zlen m)) ∨
  ∃ ip opts r, m = enc_ipv4_header ip ++ opts ++ r ∧ ip4_shape ip opts (zlen m) ∧
    ipv4_check m 0 (zlen m) = Ret (Some (ip, 20 + zlen opts, total_length ip - (20 + zlen opts))).
Proof.
  intros Hm. unfold ipv4_check, sizeof_ipv4_header. destruct (Z.ltb_spec (zlen m) 20).
  { left. split; [done|]. intros ip opts r _ (_ & _ & _ & Ht & _). lia. }
  destruct (split_front m 20) as (b & r0 & -> & Hb); [lia|]. apply bytes_ok_app in Hm as [Hb0 Hr0].
  rewrite mread_front by done. rewrite bind_Ret. destruct (dec_ipv4_ok b Hb0 Hb) as (h & -> & Hh & <-). rewrite bind_Ret.
  assert (Hu : ∀ ip opts r, enc_ipv4_header h ++ r0 = enc_ipv4_header ip ++ opts ++ r → ip4_ok ip → h = ip ∧ r0 = opts ++ r).
  { intros ip opts r E Hok. apply app_same in E as [E ->]; [|by rewrite Hb, (proj2 (enc_ipv4_bytes _ Hok))]. by apply enc_ipv4_inj in E. }
  set (size := zlen (enc_ipv4_header h ++ r0)) in *. assert (Hsize : size = 20 + zlen r0) by (unfold size; rewrite length_app, Nat2Z.inj_add, Hb; done).
  pose proof (proj1 (ip4_bytes _ Hh)) as Hv. destruct (version_ihl h Hv) as [-> ->]. unfold is_byte in Hv.
  pose proof (Z.div_mod (version4_ihl4 h) 16 ltac:(lia)) as Hdm. pose proof (Z.mod_pos_bound (version4_ihl4 h) 16 ltac:(lia)) as Hmb.
  rewrite (u16_small (version4_ihl4 h mod 16 * 4)) by lia.
  destruct (Z.eqb_spec (version4_ihl4 h / 16) 4) as [Hd|Hd]; cbn [negb].
  2: { left. split; [done|]. intros ip opts r E (Hok & Hw & Hlt & _). apply Hu in E as [<- _]; [|done].
       destruct Hd. symmetry. apply Z.div_unique with (version4_ihl4 h - 64); lia. }
  destruct (Z.ltb_spec (version4_ihl4 h mod 16 * 4) 20).
  { left. split; [done|]. intros ip opts r E (Hok & Hw & Hlt & _). apply Hu in E as [<- _]; [|done]. lia. }
  destruct (Z.ltb_spec size (version4_ihl4 h mod 16 * 4)).
  { left. split; [done|]. intros ip opts r E (Hok & Hw & Hlt & Ht & _). apply Hu in E as [<- _]; [|done]. lia. }
  destruct (Z.ltb_spec (total_length h) (version4_ihl4 h mod 16 * 4)).
  { left. split; [done|]. intros ip opts r E (Hok & Hw & Hlt & Ht & _). apply Hu in E as [<- _]; [|done]. lia. }
  destruct (Z.ltb_spec size (total_length h)).
  { left. split; [done|]. intros ip opts r E (Hok & Hw & Hlt & Ht & _). apply Hu in E as [<- _]; [|done]. lia. }
  destruct (split_front r0 (version4_ihl4 h mod 16 * 4 - 20)) as (opts & r & -> & Ho); [lia|]. apply bytes_ok_app in Hr0 as [Hop Hr].
  rewrite (mread_at (enc_ipv4_header h) opts r) by lia. rewrite bind_Ret.
  destruct (ipv4_checksum_ok h opts Hh Hop) as (c & -> & _ & Hiff); [|lia|lia|].
  { rewrite Ho. replace (version4_ihl4 h mod 16 * 4 - 20) with ((version4_ihl4 h mod 16 * 2 - 10) * 2) by lia. by apply Z.mod_mul. }
  rewrite bind_Ret. destruct (Z.eqb_spec (checksum h) c) as [Hc|Hc]; cbn [negb].
  - right. exists h, opts, r. destruct (proj1 Hiff Hc) as [Hrfc Hne]. split; [done|]. split; [unfold ip4_shape; parts; done || lia|].
    replace (version4_ihl4 h mod 16 * 4) with (20 + zlen opts) by lia. done.
  - left. split; [done|]. intros ip opts' r' E (Hok & Hw & Hlt & Ht & Hrfc & Hne). apply Hu in E as [<- E]; [|done].
    apply app_same in E as [-> _]; [|lia]. by apply Hc, Hiff.
Qed.

Definition ip6_shape (ip : ipv6_header) (size : Z) : Prop :=
  ip6_ok ip ∧ 96 ≤ version4_tc4 ip < 112 ∧ payload_length ip ≤ size - 40.

Lemma ipv6_check_cases m : bytes_ok m →
  (ipv6_check m 0 (zlen m) = Ret None ∧ ∀ ip r, m = enc_ipv6_header ip ++ r → ¬ ip6_shape ip (zlen m)) ∨
  ∃ ip r, m = enc_ipv6_header ip ++ r ∧ ip6_shape ip (zlen m) ∧ ipv6_check m 0 (zlen m) = Ret (Some (ip, 40, payload_length ip)).
Proof.
  intros Hm. unfold ipv6_check, sizeof_ipv6_header. destruct (Z.ltb_spec (zlen m) 40).
  { left. split; [done|]. intros ip r -> ([] & _ & Ht). destruct ip6_words as [_ Hp]. unfold is_u16 in Hp. lia. }
  destruct (split_front m 40) as (b & r0 & -> & Hb); [lia|]. apply bytes_ok_app in Hm as [Hb0 Hr0].
  rewrite mread_front by done. rewrite bind_Ret. destruct (dec_ipv6_ok b Hb0 Hb) as (h & -> & Hh & <-). rewrite bind_Ret.
  assert (Hu : ∀ ip r, enc_ipv6_header h ++ r0 = enc_ipv6_header ip ++ r → ip6_ok ip → h = ip).
  { intros ip r E Hok. apply app_same in E as [E ->]; [|by rewrite Hb, (proj2 (enc_ipv6_bytes _ Hok))]. by apply enc_ipv6_inj in E. }
  pose proof (proj1 (ip6_bytes _ Hh)) as Hv. unfold is_byte in Hv. rewrite Z.shiftr_div_pow2 by lia. change (2 ^ 4) with 16.
  pose proof (Z.div_mod (version4_tc4 h) 16 ltac:(lia)) as Hdm. pose proof (Z.mod_pos_bound (version4_tc4 h) 16 ltac:(lia)) as Hmb.
  destruct (Z.eqb_spec (version4_tc4 h / 16) 6) as [Hd|Hd]; cbn [negb].
  2: { left. split; [done|]. intros ip r E (Hok & Hw & _). apply Hu in E as <-; [|done].
       destruct Hd. symmetry. apply Z.div_unique with (version4_tc4 h - 96); lia. }
  destruct (Z.ltb_spec (zlen (enc_ipv6_header h ++ r0) - 40) (payload_length h)).
  { left. split; [done|]. intros ip r E (Hok & _ & Ht). apply Hu in E as <-; [|done]. lia. }
  right. exists h, r0. split; [done|]. split; [|done]. unfold ip6_shape. parts; done || lia.
Qed.

(** ** DNS queries *)
Lemma mget_nth a p st k : 0 ≤ k < zlen p → mget (a ++ p ++ st) (zlen a + k) = Ret (nth (Z.to_nat k) p 0).
Proof.
  intros Hk. unfold mget. if_true. rewrite lookup_app_r by lia. replace (Z.to_nat (zlen a + k) - length a)%nat with (Z.to_nat k) by lia.
  rewrite lookup_app_l by lia. destruct (p !! Z.to_nat k) as [x|] eqn:E; [|apply lookup_ge_None in E; lia].
  by rewrite (nth_lookup_Some _ _ _ _ E).
Qed.

Lemma is_dns_ok a p st : bytes_ok p → is_dns_query (a ++ p ++ st) (zlen a) (zlen p) = Ret (dns_query p).
Proof.
  intros Hp. unfold is_dns_query, dns_query, sizeof_DnsHeader. destruct (Z.ltb_spec (zlen p) 12).
  { by rewrite (proj2 (Z.leb_gt 12 (zlen p))). }
  rewrite (proj2 (Z.leb_le 12 (zlen p))) by lia. cbn [andb]. rewrite !mget_nth, !bind_Ret by lia.
  destruct (split_front p 6) as (p1 & p2 & -> & H1); [lia|]. rewrite length_app in *. destruct (split_front p2 4) as (p3 & p4 & -> & H3); [lia|].
  replace (a ++ (p1 ++ p3 ++ p4) ++ st) with ((a ++ p1) ++ p3 ++ p4 ++ st) by (by rewrite !app_assoc).
  rewrite mread_at by (rewrite ?length_app; lia). rewrite bind_Ret. f_equal. change (Z.to_nat 2) with 2%nat. change (Z.to_nat 3) with 3%nat.
  rewrite (drop_app_length' p1 (p3 ++ p4) 6) by lia. rewrite (take_app_length' p3 p4 4) by lia.
  assert (Hn : ∀ k, (k < 6)%nat → is_byte (nth k (p1 ++ p3 ++ p4) 0)).
  { intros k Hk. apply (List.Forall_forall is_byte (p1 ++ p3 ++ p4)); [exact Hp|]. apply nth_In. rewrite length_app. lia. }
  f_equal; [f_equal|].
  - specialize (Hn 2%nat ltac:(lia)). unfold is_byte in Hn. rewrite Z.shiftr_div_pow2 by lia. generalize dependent (nth 2 (p1 ++ p3 ++ p4) 0). intros z Hz.
    destruct (Z.ltb_spec z 128); [apply Z.eqb_eq, Z.div_small; lia|]. apply Z.eqb_neq. assert (1 ≤ z / 2 ^ 7) by (apply Z.div_le_lower_bound; lia). lia.
  - change 0xF with (Z.ones 4). by rewrite Z.land_ones by lia.
  - assert (Hn3 : length p3 = 4%nat) by lia. list_of 4%nat p3 Hn3. cbn [forallb]. rewrite !andb_true_r.
    destruct (bool_decide_reflect ([a0; a1; a2; a3] = [0; 0; 0; 0])) as [E|E]; [by injection E as -> -> -> ->|].
    apply not_true_iff_false. intros Ht. rewrite !andb_true_iff, !Z.eqb_eq in Ht. destruct E. destruct_and! Ht. by subst.
Qed.

(** ** Whole packets *)
Definition sub4 (o : udp_options) (ip : ipv4_header) (opts : list Z) (udp : udp_header) (payload : list Z) : udp_submission :=
  mksub (BAddrIPv4 (source_address ip) (source_port udp)) (BAddrIPv4 (destination_address ip) (dest_port udp))
    (opt_dnsgw o && bool_decide (dest_port udp = be16 53) && dns_query payload) (20 + zlen opts + 8) (zlen payload).
Definition sub6 (ip : ipv6_header) (udp : udp_header) (payload : list Z) : udp_submission :=
  mksub (BAddrIPv6 (source6 ip) (source_port udp)) (BAddrIPv6 (destination6 ip) (dest_port udp)) false 48 (zlen payload).

Lemma mget_protocol h r : length (source_address h) = 4%nat → mget (enc_ipv4_header h ++ r) 9 = Ret (protocol h).
Proof. done. Qed.
Lemma mget_next h r : mget (enc_ipv6_header h ++ r) 6 = Ret (next_header h).
Proof. done. Qed.

(** A packet can be read in one way only. *)
Lemma ip4_unique ip opts r ip' opts' r' : enc_ipv4_header ip ++ opts ++ r = enc_ipv4_header ip' ++ opts' ++ r' → ip4_ok ip → ip4_ok ip' →
  4 * (version4_ihl4 ip - 64) = 20 + zlen opts → 4 * (version4_ihl4 ip' - 64) = 20 + zlen opts' → ip = ip' ∧ opts = opts' ∧ r = r'.
Proof.
  intros E H H' Hv Hv'. apply app_same in E as [E1 E2]; [|by rewrite (proj2 (enc_ipv4_bytes _ H)), (proj2 (enc_ipv4_bytes _ H'))].
  apply enc_ipv4_inj in E1 as ->; [|done|done]. apply app_same in E2 as [-> ->]; [done|lia].
Qed.
Lemma ip6_unique ip r ip' r' : enc_ipv6_header ip ++ r = enc_ipv6_header ip' ++ r' → ip6_ok ip → ip6_ok ip' → ip = ip' ∧ r = r'.
Proof.
  intros E H H'. apply app_same in E as [E1 ->]; [|by rewrite (proj2 (enc_ipv6_bytes _ H)), (proj2 (enc_ipv6_bytes _ H'))].
  by apply enc_ipv6_inj in E1 as ->.
Qed.
Lemma udp_unique udp p st udp' p' st' : enc_udp_header udp ++ p ++ st = enc_udp_header udp' ++ p' ++ st' → udp_ok udp → udp_ok udp' →
  udp_length udp = 8 + zlen p → udp_length udp' = 8 + zlen p' → udp = udp' ∧ p = p' ∧ st = st'.
Proof.
  intros E H H' Hl Hl'. apply app_same in E as [E1 E2]; [|by rewrite (proj2 (enc_udp_bytes _ H)), (proj2 (enc_udp_bytes _ H'))].
  apply enc_udp_inj in E1 as ->; [|done|done]. apply app_same in E2 as [-> ->]; [done|lia].
Qed.

Lemma packet_shape m ip opts udp payload stray : udp4_packet m ip opts udp payload stray → checksum ip ≠ UINT16_MAX → ip4_shape ip opts (zlen m).
Proof. intros [] Hc. unfold ip4_shape. parts; done || lia. Qed.

(** The payload of a datagram that follows [a]. *)
Lemma payload_at m a udp p st : m = a ++ enc_udp_header udp ++ p ++ st → udp_ok udp → bytes_ok m →
  mread m (zlen a + 8) (zlen p) = Ret p ∧ bytes_ok p ∧ is_dns_query m (zlen a + 8) (zlen p) = Ret (dns_query p).
Proof.
  intros -> Hu Hm. assert (Hp : bytes_ok p).
  { apply bytes_ok_app in Hm as [_ Hm]. apply bytes_ok_app in Hm as [_ Hm]. by apply bytes_ok_app in Hm as []. }
  assert (Hl : zlen (a ++ enc_udp_header udp) = zlen a + 8) by (rewrite length_app; pose proof (proj2 (enc_udp_bytes _ Hu)); lia).
  replace (a ++ enc_udp_header udp ++ p ++ st) with ((a ++ enc_udp_header udp) ++ p ++ st) by (by rewrite <- app_assoc).
  rewrite <- Hl. split; [by apply mread_at|]. split; [done|]. by apply is_dns_ok.
Qed.
Lemma udp_refill udp : mkudp (source_port udp) (dest_port udp) (udp_length udp) (udp_check_sum udp) = udp.
Proof. by destruct udp. Qed.

Lemma parse_udp4_cases o m : bytes_ok m →
  (parse_udp4 o m (zlen m) = Ret None ∧ ∀ ip opts udp payload stray, udp4_packet m ip opts udp payload stray →
     checksum ip = UINT16_MAX ∨ udp_check_sum udp = UINT16_MAX) ∨
  ∃ ip opts udp payload stray, udp4_packet m ip opts udp payload stray ∧ checksum ip ≠ UINT16_MAX ∧ udp_check_sum udp ≠ UINT16_MAX ∧
    parse_udp4 o m (zlen m) = Ret (Some (sub4 o ip opts udp payload)).
Proof.
  intros Hm. unfold parse_udp4, sizeof_ipv4_header. destruct (Z.ltb_spec (zlen m) 20).
  { left. split; [done|]. intros ip opts udp p st []. lia. }
  destruct (split_front m 20) as (b & r0 & E0 & Hb); [lia|]. destruct (dec_ipv4_ok b) as (h & _ & Hh & <-); [by rewrite E0 in Hm; apply bytes_ok_app in Hm as []|done|].
  change offsetof_protocol with 9.
  assert (Eg : mget m 9 = Ret (protocol h)) by (rewrite E0; apply mget_protocol, Hh). rewrite Eg, bind_Ret. clear Eg.
  assert (Hu : ∀ ip r, m = enc_ipv4_header ip ++ r → ip4_ok ip → h = ip).
  { intros ip r E Hok. rewrite E0 in E. apply app_same in E as [E _]; [|by rewrite Hb, (proj2 (enc_ipv4_bytes _ Hok))]. by apply enc_ipv4_inj in E. }
  unfold IPV4_PROTOCOL_UDP. destruct (Z.eqb_spec (protocol h) 17) as [Hp|Hp]; cbn [negb].
  2: { left. split; [done|]. intros ip opts udp p st [E]. apply Hu in E as <-; done. }
  destruct (ipv4_check_cases _ Hm) as [[-> Hno]|(ip & opts & r & E & Hshape & ->)]; rewrite bind_Ret.
  { left. split; [done|]. intros ip opts udp p st Hpk. destruct (Z.eq_dec (checksum ip) UINT16_MAX); [by left|].
    destruct (Hno ip opts (enc_udp_header udp ++ p ++ st)); [apply Hpk|by eapply packet_shape]. }
  assert (h = ip) as -> by (eapply Hu; [exact E|apply Hshape]). clear Hu E0.
  pose proof Hshape as (Hok & Hw & Hlt & Ht & Hrfc & Hne). set (a := enc_ipv4_header ip ++ opts) in *.
  assert (Ea : m = a ++ r) by (unfold a; by rewrite <- app_assoc). assert (Ha : zlen a = 20 + zlen opts) by (unfold a; rewrite length_app; lia).
  assert (Hr : bytes_ok r) by (rewrite Ea in Hm; by apply bytes_ok_app in Hm as []). assert (Hsize : zlen m = zlen a + zlen r) by (rewrite Ea, length_app; lia).
  rewrite <- Ha. pose proof (udp_check_cases a r (total_length ip - zlen a) Hr ltac:(lia)) as Hc. rewrite <- Ea in Hc.
  destruct Hc as [[-> Hno]|(udp & p & st & Er & Hudp & Hul & Hle & ->)]; rewrite bind_Ret.
  { left. split; [done|]. intros ip' opts' udp p st [Em Hip Hudp Hv _ Htot Hl _ _]. destruct (ip4_unique ip opts r ip' opts' (enc_udp_header udp ++ p ++ st)) as (-> & -> & ->);
      [congruence|done|done|lia|lia|]. specialize (Hno udp p st eq_refl Hudp Hl). lia. }
  subst r. destruct (payload_at m a udp p st Ea Hudp Hm) as (-> & Hpb & Edns). rewrite bind_Ret.
  destruct (ip4_words _ Hok) as ([_ Htl] & _). destruct (udp_checksum_ok (source_port udp) (dest_port udp) (udp_length udp) p (source_address ip) (destination_address ip)) as
    (c & -> & _ & Hiff); try apply Hudp; try apply Hok; [done|lia|]. rewrite bind_Ret. specialize (Hiff (udp_check_sum udp) ltac:(apply Hudp)).
  rewrite udp_refill in Hiff.
  destruct (Z.eqb_spec (udp_check_sum udp) c) as [Hck|Hck]; cbn [negb].
  - right. destruct (proj1 Hiff Hck) as [Hv Hf]. exists ip, opts, udp, p, st. split; [|split; [done|split; [done|]]].
    + split; try done; lia.
    + unfold sub4. rewrite <- Ha. destruct (opt_dnsgw o && _); cbn [andb]; [|by rewrite bind_Ret]. by rewrite Edns, bind_Ret.
  - left. split; [done|]. intros ip' opts' udp' p' st' [Em Hip Hudp' Hv _ Htot Hl _ Hus].
    destruct (ip4_unique ip opts (enc_udp_header udp ++ p ++ st) ip' opts' (enc_udp_header udp' ++ p' ++ st')) as (-> & -> & Er'); [congruence|done|done|lia|lia|].
    destruct (udp_unique _ _ _ _ _ _ Er' Hudp Hudp' Hul Hl) as (-> & -> & ->).
    right. destruct (Z.eq_dec (udp_check_sum udp') UINT16_MAX); [done|]. destruct Hck. by apply Hiff.
Qed.

Lemma parse_udp6_cases o m : bytes_ok m → opt_ip6 o = true →
  (parse_udp6 o m (zlen m) = Ret None ∧ ∀ ip udp payload stray, udp6_packet m ip udp payload stray → udp_check_sum udp = UINT16_MAX) ∨
  ∃ ip udp payload stray, udp6_packet m ip udp payload stray ∧ udp_check_sum udp ≠ UINT16_MAX ∧
    parse_udp6 o m (zlen m) = Ret (Some (sub6 ip udp payload)).
Proof.
  intros Hm Ho. unfold parse_udp6, sizeof_ipv6_header. rewrite Ho. cbn [negb]. destruct (Z.ltb_spec (zlen m) 40).
  { left. split; [done|]. intros ip udp p st []. lia. }
  destruct (split_front m 40) as (b & r0 & E0 & Hb); [lia|]. destruct (dec_ipv6_ok b) as (h & _ & Hh & <-); [by rewrite E0 in Hm; apply bytes_ok_app in Hm as []|done|].
  change offsetof_next_header with 6.
  assert (Eg : mget m 6 = Ret (next_header h)) by (rewrite E0; apply mget_next). rewrite Eg, bind_Ret. clear Eg.
  assert (Hu : ∀ ip r, m = enc_ipv6_header ip ++ r → ip6_ok ip → h = ip).
  { intros ip r E Hok. rewrite E0 in E. by apply (ip6_unique h r0 ip r) in E as []. }
  unfold IPV6_NEXT_UDP. destruct (Z.eqb_spec (next_header h) 17) as [Hp|Hp]; cbn [negb].
  2: { left. split; [done|]. intros ip udp p st [E]. apply Hu in E as <-; done. }
  destruct (ipv6_check_cases _ Hm) as [[-> Hno]|(ip & r & E & Hshape & ->)]; rewrite bind_Ret.
  { left. split; [done|]. intros ip udp p st []. destruct (Hno ip (enc_udp_header udp ++ p ++ st)); [done|]. unfold ip6_shape. parts; done || lia. }
  assert (h = ip) as -> by (eapply Hu; [exact E|apply Hshape]). clear Hu E0. pose proof Hshape as (Hok & Hv & Ht).
  pose proof (proj2 (enc_ipv6_bytes _ Hok)) as Ha. set (a := enc_ipv6_header ip) in *.
  assert (Hr : bytes_ok r) by (rewrite E in Hm; by apply bytes_ok_app in Hm as []). assert (Hsize : zlen m = zlen a + zlen r) by (rewrite E, length_app; lia).
  rewrite <- Ha. pose proof (udp_check_cases a r (payload_length ip) Hr ltac:(lia)) as Hc. rewrite <- E in Hc.
  destruct Hc as [[-> Hno]|(udp & p & st & -> & Hudp & Hul & Hle & ->)]; rewrite bind_Ret.
  { left. split; [done|]. intros ip' udp p st [Em Hip Hudp Hv' _ Htot Hl _]. destruct (ip6_unique ip r ip' (enc_udp_header udp ++ p ++ st)) as (-> & ->);
      [unfold a in E; congruence|done|done|]. specialize (Hno udp p st eq_refl Hudp Hl). lia. }
  destruct (payload_at m a udp p st E Hudp Hm) as (-> & Hpb & _). rewrite bind_Ret.
  destruct (ip6_words _ Hok) as (_ & [_ Htl]). destruct (udp_ip6_checksum_ok (source_port udp) (dest_port udp) (udp_length udp) p (source6 ip) (destination6 ip)) as
    (c & -> & _ & Hiff); try apply Hudp; try apply Hok; [done|lia|]. rewrite bind_Ret. specialize (Hiff (udp_check_sum udp) ltac:(apply Hudp)).
  rewrite udp_refill in Hiff. destruct (Z.eqb_spec (udp_check_sum udp) c) as [Hck|Hck]; cbn [negb].
  - right. destruct (proj1 Hiff Hck) as [Hs Hf]. exists ip, udp, p, st. split; [split; try done; lia|]. split; [done|]. unfold sub6. by rewrite Ha.
  - left. split; [done|]. intros ip' udp' p' st' [Em Hip Hudp' Hv' _ Htot Hl Hus].
    destruct (ip6_unique ip (enc_udp_header udp ++ p ++ st) ip' (enc_udp_header udp' ++ p' ++ st')) as (-> & Er'); [unfold a in E; congruence|done|done|].
    destruct (udp_unique _ _ _ _ _ _ Er' Hudp Hudp' Hul Hl) as (-> & -> & ->).
    destruct (Z.eq_dec (udp_check_sum udp') UINT16_MAX); [done|]. destruct Hck. by apply Hiff.
Qed.

Lemma udp4_same m ip opts udp p st ip' opts' udp' p' st' :
  udp4_packet m ip opts udp p st → udp4_packet m ip' opts' udp' p' st' → ip = ip' ∧ opts = opts' ∧ udp = udp' ∧ p = p'.
Proof.
  intros [E ? ? [? ?] ? ? ? ? ?] [E' ? ? [? ?] ? ? ? ? ?]. rewrite E in E'. apply ip4_unique in E' as (-> & -> & E'); try done.
  by apply udp_unique in E' as (-> & -> & _).
Qed.
Lemma udp6_same m ip udp p st ip' udp' p' st' : udp6_packet m ip udp p st → udp6_packet m ip' udp' p' st' → ip = ip' ∧ udp = udp' ∧ p = p'.
Proof.
  intros [E ? ? ? ? ? ? ?] [E' ? ? ? ? ? ? ?]. rewrite E in E'. apply ip6_unique in E' as (-> & E'); try done.
  by apply udp_unique in E' as (-> & -> & _).
Qed.

(** The first byte tells the versions apart. *)
Lemma first_byte m : bytes_ok m → 0 < zlen m → ∃ b, mget m 0 = Ret b ∧ 0 ≤ b < 256 ∧
  (∀ ip opts udp p st, udp4_packet m ip opts udp p st → 64 ≤ b < 80) ∧ (∀ ip udp p st, udp6_packet m ip udp p st → 96 ≤ b < 112).
Proof.
  intros Hm Hl. destruct m as [|b m]; [done|]. exists b. apply Forall_cons_1 in Hm as [Hb _]. split; [done|]. split; [done|]. split.
  - intros ip opts udp p st [E _ _ [Hv Hv'] _ _ _ _ _]. injection E as -> _. lia.
  - intros ip udp p st [E _ _ Hv _ _ _ _]. injection E as -> _. lia.
Qed.

(** What is submitted for an IPv4 and for an IPv6 packet. *)
Definition taken4 (o : udp_options) (udp_mtu : Z) (m : list Z) (s : udp_submission) : Prop :=
  ∃ ip opts udp payload stray, udp4_packet m ip opts udp payload stray ∧ checksum ip ≠ 0xFFFF ∧ udp_check_sum udp ≠ 0xFFFF ∧
    zlen payload ≤ udp_mtu ∧ s = sub4 o ip opts udp payload.
Definition taken6 (o : udp_options) (udp_mtu : Z) (m : list Z) (s : udp_submission) : Prop :=
  opt_ip6 o = true ∧ ∃ ip udp payload stray, udp6_packet m ip udp payload stray ∧ udp_check_sum udp ≠ 0xFFFF ∧
    zlen payload ≤ udp_mtu ∧ s = sub6 ip udp payload.

Definition fits (udp_mtu : Z) (r : option udp_submission) : outcome (option udp_submission) :=
  match r with None => Ret None | Some s => if udp_mtu <? sub_len s then Ret None else Ret (Some s) end.

Lemma fits_taken4 o udp_mtu m : bytes_ok m →
  ∃ r, (r ← parse_udp4 o m (zlen m); fits udp_mtu r) = Ret r ∧ ∀ s, r = Some s ↔ taken4 o udp_mtu m s.
Proof.
  intros Hm. destruct (parse_udp4_cases o m Hm) as [[-> Hno]|(ip & opts & udp & p & st & Hpk & Hc & Hu & ->)]; rewrite bind_Ret; cbn [fits].
  - exists None. split; [done|]. intros s. split; [done|]. intros (ip & opts & udp & p & st & Hpk & Hc & Hu & _). by destruct (Hno _ _ _ _ _ Hpk).
  - assert (Hsame : ∀ s, taken4 o udp_mtu m s → zlen p ≤ udp_mtu ∧ s = sub4 o ip opts udp p).
    { intros s (ip' & opts' & udp' & p' & st' & Hpk' & _ & _ & Hp & ->). by destruct (udp4_same _ _ _ _ _ _ _ _ _ _ _ Hpk Hpk') as (-> & -> & -> & ->). }
    cbn [sub_len sub4]. destruct (Z.ltb_spec udp_mtu (zlen p)); eexists; (split; [done|]); intros s; split.
    + done.
    + intros Hs. apply Hsame in Hs as [Hs _]. lia.
    + intros [= <-]. exists ip, opts, udp, p, st. by split_and!.
    + intros Hs. by apply Hsame in Hs as [_ ->].
Qed.

Lemma fits_taken6 o udp_mtu m : bytes_ok m →
  ∃ r, (r ← parse_udp6 o m (zlen m); fits udp_mtu r) = Ret r ∧ ∀ s, r = Some s ↔ taken6 o udp_mtu m s.
Proof.
  intros Hm. destruct (opt_ip6 o) eqn:Ho.
  2: { unfold parse_udp6. rewrite Ho. exists None. split; [done|]. intros s. split; [done|]. intros [Ho' _]. congruence. }
  destruct (parse_udp6_cases o m Hm Ho) as [[-> Hno]|(ip & udp & p & st & Hpk & Hu & ->)]; rewrite bind_Ret; cbn [fits].
  - exists None. split; [done|]. intros s. split; [done|]. intros (_ & ip & udp & p & st & Hpk & Hu & _). destruct Hu. by eapply Hno.
  - assert (Hsame : ∀ s, taken6 o udp_mtu m s → zlen p ≤ udp_mtu ∧ s = sub6 ip udp p).
    { intros s (_ & ip' & udp' & p' & st' & Hpk' & _ & Hp & ->). by destruct (udp6_same _ _ _ _ _ _ _ _ _ Hpk Hpk') as (-> & -> & ->). }
    cbn [sub_len sub6]. destruct (Z.ltb_spec udp_mtu (zlen p)); eexists; (split; [done|]); intros s; split.
    + done.
    + intros Hs. apply Hsame in Hs as [Hs _]. lia.
    + intros [= <-]. split; [done|]. exists ip, udp, p, st. by split_and!.
    + intros Hs. by apply Hsame in Hs as [_ ->].
Qed.

Lemma process_taken4 o udp_mtu m s : bytes_ok m → opt_udpgw o = true → taken4 o udp_mtu m s → process_device_udp_packet o udp_mtu m = Ret (Some s).
Proof.
  intros Hm Ho Hs. destruct (fits_taken4 o udp_mtu m Hm) as (r & E & Hr). assert (r = Some s) as -> by (by apply Hr).
  destruct Hs as (ip & opts & udp & p & st & Hpk & _). assert (Hl : 0 < zlen m) by (destruct Hpk; lia).
  destruct (first_byte m Hm Hl) as (b & Eb & Hb & H4 & _). specialize (H4 _ _ _ _ _ Hpk).
  unfold process_device_udp_packet. rewrite Ho, (proj2 (Z.ltb_lt 0 (zlen m)) Hl). cbn [negb]. rewrite Eb, !bind_Ret. rewrite Z.shiftr_div_pow2 by lia.
  replace (b / 2 ^ 4) with 4 by (apply Z.div_unique with (b - 64); lia). exact E.
Qed.
Lemma process_taken6 o udp_mtu m s : bytes_ok m → opt_udpgw o = true → taken6 o udp_mtu m s → process_device_udp_packet o udp_mtu m = Ret (Some s).
Proof.
  intros Hm Ho Hs. destruct (fits_taken6 o udp_mtu m Hm) as (r & E & Hr). assert (r = Some s) as -> by (by apply Hr).
  destruct Hs as (_ & ip & udp & p & st & Hpk & _). assert (Hl : 0 < zlen m) by (destruct Hpk as [_ _ _ _ _ Ht _ _]; lia).
  destruct (first_byte m Hm Hl) as (b & Eb & Hb & _ & H6). specialize (H6 _ _ _ _ Hpk).
  unfold process_device_udp_packet. rewrite Ho, (proj2 (Z.ltb_lt 0 (zlen m)) Hl). cbn [negb]. rewrite Eb, !bind_Ret. rewrite Z.shiftr_div_pow2 by lia.
  replace (b / 2 ^ 4) with 6 by (apply Z.div_unique with (b - 96); lia). exact E.
Qed.

(** Any bytes are read without a fault, and what is submitted was there. *)
Lemma process_sound o udp_mtu m : bytes_ok m →
  ∃ r, process_device_udp_packet o udp_mtu m = Ret r ∧ ∀ s, r = Some s → taken4 o udp_mtu m s ∨ taken6 o udp_mtu m s.
Proof.
  intros Hm. unfold process_device_udp_packet. destruct (opt_udpgw o); cbn [negb]; [|by exists None]. destruct (Z.ltb_spec 0 (zlen m)) as [Hl|Hl].
  2: { rewrite bind_Ret. by exists None. }
  destruct (first_byte m Hm Hl) as (b & -> & Hb & H4 & H6). rewrite !bind_Ret. rewrite Z.shiftr_div_pow2 by lia. change (2 ^ 4) with 16.
  destruct (Z.eqb_spec (b / 16) 4) as [Hd|Hd].
  { destruct (fits_taken4 o udp_mtu m Hm) as (r & E & Hr). exists r. split; [exact E|]. intros s Es. left. by apply Hr. }
  destruct (Z.eqb_spec (b / 16) 6) as [Hd6|Hd6].
  { destruct (fits_taken6 o udp_mtu m Hm) as (r & E & Hr). exists r. split; [exact E|]. intros s Es. right. by apply Hr. }
  rewrite bind_Ret. by exists None.
Qed.

(** C20: [process_device_udp_packet] takes any bytes without reading outside them,
    and submits exactly the well-formed UDP packets that fit: an IPv4 header of
    the announced size, or an IPv6 header if IPv6 is enabled, then a UDP datagram
    within the length of the packet, with checksums that are valid in the sense
    of RFC 1071.  What it submits are the addresses, ports and payload on the
    wire, marked as DNS if the packet is a query to port 53 and a DNS gateway is
    set.  There is one exception: a checksum field of 0xFFFF is refused, also in
    a UDP header, where it is the right value if the sum is 0xFFFF. *)
Theorem device_udp_accepts o udp_mtu m :
  bytes_ok m → opt_udpgw o = true →
  ∃ r, process_device_udp_packet o udp_mtu m = Ret r ∧ ∀ s, r = Some s ↔ taken4 o udp_mtu m s ∨ taken6 o udp_mtu m s.
Proof.
  intros Hm Ho. destruct (process_sound o udp_mtu m Hm) as (r & E & Hr). exists r. split; [done|]. intros s. split; [apply Hr|].
  intros Hs. apply Ret_inj. rewrite <- E. destruct Hs; [by apply process_taken4|by apply process_taken6].
Qed.

(** ** Answers *)
Lemma write_and_send_ok iph udph data buf : zlen iph + zlen udph + zlen data ≤ zlen buf →
  ∃ buf', write_and_send iph udph data buf = Ret (buf', iph ++ udph ++ data) ∧ zlen buf' = zlen buf.
Proof.
  intros Hl. unfold write_and_send. pose proof (mwrite_extend [] buf 0 iph eq_refl ltac:(lia)) as E. cbn [app] in E. rewrite E, bind_Ret.
  rewrite mwrite_extend by (rewrite ?length_drop; lia). rewrite bind_Ret.
  rewrite mwrite_extend by (rewrite ?length_app, ?length_drop; lia). rewrite bind_Ret.
  rewrite mread_front by (rewrite !length_app; lia). rewrite bind_Ret. eexists. rewrite app_assoc. split; [done|].
  rewrite !length_app, !length_drop. lia.
Qed.

Definition addr_ok (a : BAddr) : Prop :=
  match a with
  | BAddrNone => False
  | BAddrIPv4 ip port => addr_bytes 4 ip ∧ addr_bytes 2 port
  | BAddrIPv6 ip port => addr_bytes 16 ip ∧ addr_bytes 2 port
  end.

(** What is submitted: addresses of hosts, and a payload in the packet. *)
Lemma taken_ok o udp_mtu m s : bytes_ok m → taken4 o udp_mtu m s ∨ taken6 o udp_mtu m s →
  addr_ok (sub_local s) ∧ addr_ok (sub_remote s) ∧ ∃ p, mread m (sub_data s) (sub_len s) = Ret p ∧ zlen p ≤ udp_mtu.
Proof.
  intros Hm [(ip & opts & udp & p & st & [E Hi Hu _ _ _ _ _ _] & _ & _ & Hp & ->)|(_ & ip & udp & p & st & [E Hi Hu _ _ _ _ _] & _ & Hp & ->)]; cbn.
  - destruct (payload_at m (enc_ipv4_header ip ++ opts) udp p st) as [H _]; [by rewrite <- app_assoc|done|done|].
    rewrite length_app, Nat2Z.inj_add, (proj2 (enc_ipv4_bytes _ Hi)) in H. destruct Hi, Hu. split; [done|]. split; [done|]. by exists p.
  - destruct (payload_at m (enc_ipv6_header ip) udp p st) as [H _]; [done|done|done|]. rewrite (proj2 (enc_ipv6_bytes _ Hi)) in H.
    destruct Hi, Hu. split; [done|]. split; [done|]. by exists p.
Qed.

(** [pkt] is a packet from [remote] to [local] with payload [data], whose lengths
    and sums are right and whose UDP checksum field is [sum]. *)
Definition carries (local remote : BAddr) (data : list Z) (sum : Z) (pkt : list Z) : Prop :=
  match local, remote with
  | BAddrIPv4 lip lport, BAddrIPv4 rip rport =>
      ∃ ip udp, udp4_packet pkt ip [] udp data [] ∧ source_address ip = rip ∧ destination_address ip = lip ∧
        source_port udp = rport ∧ dest_port udp = lport ∧ checksum ip ≠ 0xFFFF ∧ udp_check_sum udp = sum
  | BAddrIPv6 lip lport, BAddrIPv6 rip rport =>
      ∃ ip udp, udp6_packet pkt ip udp data [] ∧ source6 ip = rip ∧ destination6 ip = lip ∧
        source_port udp = rport ∧ dest_port udp = lport ∧ udp_check_sum udp = sum
  | _, _ => False
  end.

(** The answer [pkt] is a valid packet that carries a checksum: RFC 768 reserves
    the field zero for packets without one, which RFC 8200 does not allow. *)
Definition answers (local remote : BAddr) (data pkt : list Z) : Prop := ∃ sum, sum ≠ 0 ∧ carries local remote data sum pkt.

(** The checksum of the answer comes out as zero: its words sum up to 0xFFFF
    already when the field is zero.  RFC 768 has 0xFFFF sent in that case. *)
Definition zero_sum (local remote : BAddr) (data : list Z) : Prop :=
  match local, remote with
  | BAddrIPv4 lip lport, BAddrIPv4 rip rport =>
      rfc1071_valid (pseudo4 rip lip (8 + zlen data) ++ enc_udp_header (mkudp rport lport (8 + zlen data) 0) ++ data)
  | BAddrIPv6 lip lport, BAddrIPv6 rip rport =>
      rfc1071_valid (pseudo6 rip lip (8 + zlen data) ++ enc_udp_header (mkudp rport lport (8 + zlen data) 0) ++ data)
  | _, _ => False
  end.

(** What the code builds. *)
Definition built (local remote : BAddr) (data pkt : list Z) : Prop :=
  ∃ sum, carries local remote data sum pkt ∧ sum ≠ 0xFFFF ∧ (sum = 0 ↔ zero_sum local remote data).

Definition header_size (a : BAddr) : Z := match a with BAddrIPv4 _ _ => 28 | _ => 48 end.

(** The field is zero exactly if zero is a valid field. *)
Lemma zero_field u (P : Z → Prop) : is_u16 u → (∀ v, is_u16 v → v = u ↔ P v ∧ v ≠ UINT16_MAX) → u = 0 ↔ P 0.
Proof.
  intros Hu H. assert (Heq : u = 0 ↔ 0 = u) by done. rewrite Heq, (H 0) by (unfold is_u16, UINT16_MAX; lia).
  unfold UINT16_MAX. split; [by intros [? _]|]. intros H0. split; [done|lia].
Qed.

Lemma answer4_ok tap_mtu lip lport rip rport data buf :
  addr_ok (BAddrIPv4 lip lport) → addr_ok (BAddrIPv4 rip rport) → bytes_ok data → tap_mtu = zlen buf → 28 + zlen data ≤ Z.min tap_mtu UINT16_MAX →
  ∃ buf' pkt, answer4 tap_mtu lip lport rip rport data buf = Ret (buf', Some pkt) ∧ zlen buf' = zlen buf ∧
    built (BAddrIPv4 lip lport) (BAddrIPv4 rip rport) data pkt.
Proof.
  intros [Hlip Hlport] [Hrip Hrport] Hd Htap Hl. unfold answer4, sizeof_ipv4_header, sizeof_udp_header. unfold UINT16_MAX in Hl |- * at 1. if_false.
  rewrite !u16_small by lia. set (ip0 := mkip4 _ 0 _ 0 0 64 _ 0 rip lip).
  assert (Hok : ∀ c, is_u16 c → ip4_ok (set_checksum c ip0)).
  { intros c Hc. split; cbn; parts; try done; try (unfold is_byte, IPV4_PROTOCOL_UDP; lia). unfold is_u16, UINT16_MAX. lia. }
  destruct (ipv4_checksum_ok (set_checksum 0 ip0) []) as (c & E & Hc & _); [by apply Hok|apply Forall_nil_2|done|cbn; lia|done|].
  change (set_checksum 0 (set_checksum 0 ip0)) with ip0 in E. rewrite E, bind_Ret.
  destruct (ipv4_checksum_ok (set_checksum c ip0) [] (Hok c Hc)) as (c' & E' & _ & Hiff); [apply Forall_nil_2|done|cbn; lia|done|].
  change (set_checksum 0 (set_checksum c ip0)) with ip0 in E'. rewrite E in E'. injection E' as <-. destruct (proj1 Hiff eq_refl) as [Hs Hne].
  change (source_address (set_checksum c ip0)) with rip. change (destination_address (set_checksum c ip0)) with lip.
  assert (Hlen : is_u16 (8 + zlen data)) by (unfold is_u16, UINT16_MAX; lia).
  destruct (udp_checksum_ok rport lport (8 + zlen data) data rip lip) as (u & -> & Hu & Hui); try done; [unfold UINT16_MAX; lia|]. rewrite bind_Ret.
  destruct (proj1 (Hui u Hu) eq_refl) as [Hus Hune]. assert (Hudp : udp_ok (mkudp rport lport (8 + zlen data) u)) by done.
  destruct (enc_ipv4_bytes _ (Hok c Hc)) as [_ H20]. destruct (enc_udp_bytes _ Hudp) as [_ H8].
  destruct (write_and_send_ok (enc_ipv4_header (set_checksum c ip0)) (enc_udp_header (mkudp rport lport (8 + zlen data) u)) data buf) as (buf' & -> & Hb); [lia|].
  rewrite bind_Ret. eexists buf', _. split; [done|]. split; [done|]. exists u. split; [|split; [exact Hune|exact (zero_field u (λ v, rfc1071_valid (pseudo4 rip lip (8 + zlen data) ++ enc_udp_header (mkudp rport lport (8 + zlen data) v) ++ data)) Hu Hui)]].
  exists (set_checksum c ip0), (mkudp rport lport (8 + zlen data) u). split; [|done].
  split; try done.
  - by rewrite app_nil_r.
  - by apply Hok.
  - rewrite !length_app, !Nat2Z.inj_add, H20, H8. cbn. lia.
Qed.

Lemma answer6_ok o tap_mtu lip lport rip rport data buf :
  opt_ip6 o = true → addr_ok (BAddrIPv6 lip lport) → addr_ok (BAddrIPv6 rip rport) → bytes_ok data → tap_mtu = zlen buf →
  48 + zlen data ≤ tap_mtu → 8 + zlen data ≤ UINT16_MAX →
  ∃ buf' pkt, answer6 o tap_mtu lip lport rip rport data buf = Ret (buf', Some pkt) ∧ zlen buf' = zlen buf ∧
    built (BAddrIPv6 lip lport) (BAddrIPv6 rip rport) data pkt.
Proof.
  intros Ho [Hlip Hlport] [Hrip Hrport] Hd Htap Hl Hl8. unfold answer6, sizeof_ipv6_header, sizeof_udp_header. rewrite Ho. cbn [negb].
  unfold UINT16_MAX in Hl8 |- * at 1. if_false. rewrite !u16_small by lia. set (ip := mkip6 _ 0 0 _ _ 64 rip lip).
  assert (Hlen : is_u16 (8 + zlen data)) by (unfold is_u16, UINT16_MAX; lia).
  assert (Hok : ip6_ok ip) by (split; cbn; parts; try done; unfold is_byte, IPV6_NEXT_UDP; lia).
  change (source6 ip) with rip. change (destination6 ip) with lip.
  destruct (udp_ip6_checksum_ok rport lport (8 + zlen data) data rip lip) as (u & -> & Hu & Hui); try done; [unfold UINT16_MAX; lia|]. rewrite bind_Ret.
  destruct (proj1 (Hui u Hu) eq_refl) as [Hus Hune]. assert (Hudp : udp_ok (mkudp rport lport (8 + zlen data) u)) by done.
  destruct (enc_ipv6_bytes _ Hok) as [_ H40]. destruct (enc_udp_bytes _ Hudp) as [_ H8].
  destruct (write_and_send_ok (enc_ipv6_header ip) (enc_udp_header (mkudp rport lport (8 + zlen data) u)) data buf) as (buf' & -> & Hb); [lia|].
  rewrite bind_Ret. eexists buf', _. split; [done|]. split; [done|]. exists u. split; [|split; [exact Hune|exact (zero_field u (λ v, rfc1071_valid (pseudo6 rip lip (8 + zlen data) ++ enc_udp_header (mkudp rport lport (8 + zlen data) v) ++ data)) Hu Hui)]].
  exists ip, (mkudp rport lport (8 + zlen data) u). split; [|done].
  split; try done.
  - by rewrite app_nil_r.
  - rewrite !length_app, !Nat2Z.inj_add, H40, H8. cbn. lia.
Qed.

(** A packet as the answer describes it comes back as a submission. *)
Lemma answers_taken o udp_mtu local remote data pkt :
  opt_udpgw o = true → (BAddr_type local = 2 → opt_ip6 o = true) → bytes_ok data → zlen data ≤ udp_mtu → built local remote data pkt →
  zlen pkt = header_size local + zlen data ∧
  ∃ s, process_device_udp_packet o udp_mtu pkt = Ret (Some s) ∧ sub_local s = remote ∧ sub_remote s = local ∧
    mread pkt (sub_data s) (sub_len s) = Ret data.
Proof.
  intros Ho H6 Hd Hl (sum & Ha & Hne & _). destruct local as [|lip lport|lip lport], remote as [|rip rport|rip rport]; try done; cbn [carries header_size] in *.
  - destruct Ha as (ip & udp & Hpk & <- & <- & <- & <- & Hc & <-). destruct (enc_ipv4_bytes _ (u4_ip _ _ _ _ _ _ Hpk)) as [Hb1 Hl1].
    destruct (enc_udp_bytes _ (u4_udp _ _ _ _ _ _ Hpk)) as [Hb2 Hl2]. pose proof (u4_packet _ _ _ _ _ _ Hpk) as E. rewrite app_nil_r in E. cbn [app] in E.
    assert (Hm : bytes_ok pkt) by (rewrite E; apply Forall_app_2; [done|by apply Forall_app_2]). split; [rewrite E, !length_app; lia|].
    exists (sub4 o ip [] udp data). split; [|split; [done|split; [done|]]].
    + apply process_taken4; [done|done|]. exists ip, [], udp, data, []. done.
    + destruct (payload_at pkt (enc_ipv4_header ip) udp data []) as (Er & _); [by rewrite app_nil_r|apply Hpk|done|]. rewrite Hl1 in Er. exact Er.
  - destruct Ha as (ip & udp & Hpk & <- & <- & <- & <- & <-). destruct (enc_ipv6_bytes _ (u6_ip _ _ _ _ _ Hpk)) as [Hb1 Hl1].
    destruct (enc_udp_bytes _ (u6_udp _ _ _ _ _ Hpk)) as [Hb2 Hl2]. pose proof (u6_packet _ _ _ _ _ Hpk) as E. rewrite app_nil_r in E.
    assert (Hm : bytes_ok pkt) by (rewrite E; apply Forall_app_2; [done|by apply Forall_app_2]). split; [rewrite E, !length_app; lia|].
    exists (sub6 ip udp data). split; [|split; [done|split; [done|]]].
    + apply process_taken6; [done|done|]. split; [by apply H6|]. exists ip, udp, data, []. done.
    + destruct (payload_at pkt (enc_ipv6_header ip) udp data []) as (Er & _); [by rewrite app_nil_r|apply Hpk|done|]. rewrite Hl1 in Er. exact Er.
Qed.

Lemma built_answers local remote data pkt : built local remote data pkt →
  (¬ zero_sum local remote data → answers local remote data pkt) ∧ (zero_sum local remote data → carries local remote data 0 pkt).
Proof. intros (sum & Hc & _ & Hz). split; [intros Hn; exists sum; by rewrite Hz|intros Hs; apply Hz in Hs; by subst sum]. Qed.

(** C21: an answer written to the device reads back as it was sent.  For two
    addresses of the same family, the packet that [udpgw_client_handler_received]
    builds for a datagram from [remote] to [local] stays within the MTU and the
    write buffer of the device, has the right addresses, ports and lengths and
    sums that are valid in the sense of RFC 1071, and
    [process_device_udp_packet] recovers from it exactly the two addresses and the
    data.  Unless its UDP checksum comes out as zero it carries a checksum as
    RFC 768 and RFC 8200 have it; if it comes out as zero, zero is sent where
    0xFFFF should be, which says that the packet has no checksum and is not
    allowed in IPv6.  Nothing is sent only if the packet would exceed the MTU of
    the device or a length field, or if it is an IPv6 packet and IPv6 is
    disabled. *)
Theorem udp_answer_roundtrip o tap_mtu local remote data buf :
  opt_udpgw o = true → addr_ok local → addr_ok remote → BAddr_type local = BAddr_type remote → bytes_ok data → zlen buf = tap_mtu →
  ∃ buf' r, udpgw_client_handler_received o tap_mtu local remote data buf = Ret (buf', r) ∧ zlen buf' = tap_mtu ∧
    match r with
    | Some pkt =>
        (¬ zero_sum local remote data → answers local remote data pkt) ∧ (zero_sum local remote data → carries local remote data 0 pkt) ∧
        zlen pkt = header_size local + zlen data ∧ zlen pkt ≤ tap_mtu ∧
        ∀ udp_mtu, zlen data ≤ udp_mtu → ∃ s, process_device_udp_packet o udp_mtu pkt = Ret (Some s) ∧
          sub_local s = remote ∧ sub_remote s = local ∧ mread pkt (sub_data s) (sub_len s) = Ret data
    | None =>
        tap_mtu < header_size local + zlen data ∨ 0xFFFF < (if BAddr_type local =? 1 then 28 else 8) + zlen data ∨
        (BAddr_type local = 2 ∧ opt_ip6 o = false)
    end.
Proof.
  intros Ho Hl Hr Ht Hd Hb. unfold udpgw_client_handler_received. rewrite assert_true, bind_Ret by done.
  destruct local as [|lip lport|lip lport], remote as [|rip rport|rip rport]; try done; cbn [header_size BAddr_type Z.eqb Pos.eqb].
  - destruct (Z.le_gt_cases (28 + zlen data) (Z.min tap_mtu UINT16_MAX)) as [Hs|Hs].
    + destruct (answer4_ok tap_mtu lip lport rip rport data buf) as (buf' & pkt & -> & Hb' & Ha); try done. exists buf', (Some pkt).
      split; [done|]. split; [congruence|]. destruct (built_answers _ _ _ _ Ha) as [Hv Hz]. split; [done|]. split; [done|].
      assert (Hback : ∀ um, zlen data ≤ um → _) by (intros um Hum; by eapply (answers_taken o um (BAddrIPv4 lip lport) (BAddrIPv4 rip rport) data pkt)).
      assert (Hpk : zlen pkt = 28 + zlen data) by (by apply (Hback (zlen data))). split; [done|]. split; [lia|]. intros um Hum. by apply Hback.
    + exists buf, None. unfold answer4, sizeof_ipv4_header, sizeof_udp_header. split; [|split; [done|unfold UINT16_MAX in Hs; lia]].
      replace (_ || _) with true; [done|]. symmetry. rewrite orb_true_iff, !Z.ltb_lt. lia.
  - destruct (opt_ip6 o) eqn:Ho6.
    2: { exists buf, None. unfold answer6. rewrite Ho6. split; [done|]. split; [done|]. by right; right. }
    destruct (Z.le_gt_cases (48 + zlen data) tap_mtu) as [Hs|Hs]; [destruct (Z.le_gt_cases (8 + zlen data) UINT16_MAX) as [Hs'|Hs']|].
    + destruct (answer6_ok o tap_mtu lip lport rip rport data buf) as (buf' & pkt & -> & Hb' & Ha); try done. exists buf', (Some pkt).
      split; [done|]. split; [congruence|]. destruct (built_answers _ _ _ _ Ha) as [Hv Hz]. split; [done|]. split; [done|].
      assert (Hback : ∀ um, zlen data ≤ um → _) by (intros um Hum; by eapply (answers_taken o um (BAddrIPv6 lip lport) (BAddrIPv6 rip rport) data pkt)).
      assert (Hpk : zlen pkt = 48 + zlen data) by (by apply (Hback (zlen data))). split; [done|]. split; [lia|]. intros um Hum. by apply Hback.
    + exists buf, None. unfold answer6, sizeof_ipv6_header, sizeof_udp_header. rewrite Ho6. split; [|split; [done|unfold UINT16_MAX in Hs'; lia]].
      cbn [negb]. replace (_ || _) with true; [done|]. symmetry. rewrite orb_true_iff, !Z.ltb_lt. lia.
    + exists buf, None. unfold answer6, sizeof_ipv6_header, sizeof_udp_header. rewrite Ho6. split; [|split; [done|lia]].
      cbn [negb]. replace (_ || _) with true; [done|]. symmetry. rewrite orb_true_iff, !Z.ltb_lt. lia.
Qed.

(** ** Examples *)
Definition demo_options : udp_options := mkopts true true false.
Definition demo_local : BAddr := BAddrIPv4 [10; 0; 0; 2] [3; 232].
Definition demo_remote : BAddr := BAddrIPv4 [8; 8; 8; 8] [0; 53].
Definition demo_query : list Z :=
  [69; 0; 0; 41; 0; 0; 0; 0; 64; 17; 96; 179; 10; 0; 0; 2; 8; 8; 8; 8; 3; 232; 0; 53; 0; 21; 219; 147; 0; 1; 1; 0; 0; 1; 0; 0; 0; 0; 0; 0; 5].
(** Its UDP checksum is 0xFFFF, as the rest sums up to 0xFFFF. *)
Definition demo_ffff : list Z :=
  [69; 0; 0; 30; 0; 0; 0; 0; 64; 17; 96; 190; 10; 0; 0; 2; 8; 8; 8; 8; 3; 232; 0; 53; 0; 10; 255; 255; 225; 171].

Lemma demo_ok a : In a [demo_local; demo_remote] → addr_ok a.
Proof. intros [<-|[<-|[]]]; split; (split; [done|by apply bytes_okb_ok]). Qed.

Lemma device_udp_accepts_witness :
  ∃ s, process_device_udp_packet demo_options 100 demo_query = Ret (Some s) ∧ (taken4 demo_options 100 demo_query s ∨ taken6 demo_options 100 demo_query s) ∧
    s = mksub demo_local demo_remote true 28 13.
Proof.
  destruct (device_udp_accepts demo_options 100 demo_query) as (r & E & Hr); [by apply bytes_okb_ok|done|].
  exists (mksub demo_local demo_remote true 28 13). split; [vm_compute; reflexivity|]. split; [|done]. apply Hr. apply Ret_inj. rewrite <- E. vm_compute. reflexivity.
Defined.

(** A valid packet that is refused. *)
Lemma ffff_refused :
  rfc1071_valid (pseudo4 [10; 0; 0; 2] [8; 8; 8; 8] 10 ++ drop 20 demo_ffff) ∧ process_device_udp_packet demo_options 100 demo_ffff = Ret None ∧
  udp_checksum (mkudp [3; 232] [0; 53] 10 0) [225; 171] [10; 0; 0; 2] [8; 8; 8; 8] = Ret 0.
Proof. vm_compute. done. Qed.

Lemma udp_answer_roundtrip_witness :
  ∃ buf pkt s, udpgw_client_handler_received demo_options 60 demo_local demo_remote [1; 2; 3] (replicate 60 0) = Ret (buf, Some pkt) ∧
    process_device_udp_packet demo_options 32 pkt = Ret (Some s) ∧ sub_local s = demo_remote ∧ sub_remote s = demo_local.
Proof.
  destruct (udp_answer_roundtrip demo_options 60 demo_local demo_remote [1; 2; 3] (replicate 60 0)) as (buf & r & E & _ & Hr);
    [done|by apply demo_ok; left|by apply demo_ok; right; left|done|by apply bytes_okb_ok|done|].
  destruct r as [pkt|].
  - destruct Hr as (_ & _ & _ & _ & Hr). destruct (Hr 32) as (s & E' & Hl & Hm & _); [done|]. by exists buf, pkt, s.
  - exfalso. cbn in Hr. destruct Hr as [Hr|[Hr|[Hr _]]]; [lia|lia|done].
Defined.
