(* ===== verification/Md5.v ===== *)
(** * redsocks: MD5

    Models md5.c, the digest used by the HTTP digest authentication: the
    compression function, the incremental [md5_append] over a 64-byte buffer,
    and [md5_finish].  The reference definition absorbs the padded message one
    byte at a time. *)
From S2P Require Import Prelude.

(** ** The compression function *)
Definition word := Z.
Definition abcd_t : Type := word * word * word * word.

Definition lnot32 (x : Z) : Z := Z.lxor x 4294967295.
Definition ROTATE_LEFT (x n : Z) : Z := Z.lor (u32 (Z.shiftl x n)) (Z.shiftr x (32 - n)).
Definition F (x y z : Z) : Z := Z.lor (Z.land x y) (Z.land (lnot32 x) z).
Definition G (x y z : Z) : Z := Z.lor (Z.land x z) (Z.land y (lnot32 z)).
Definition H (x y z : Z) : Z := Z.lxor (Z.lxor x y) z.
Definition I (x y z : Z) : Z := Z.lxor y (Z.lor x (lnot32 z)).

(** [SET(a, b, c, d, k, s, Ti)]; the registers change roles from one operation
    to the next as in the listing: [abcd], [dabc], [cdab], [bcda]. *)
Definition SET (f : Z → Z → Z → Z) (X : list Z) (r : abcd_t) (op : Z * Z * Z) : abcd_t :=
  let '(a, b, c, d) := r in
  let '(k, s, Ti) := op in
  let t := u32 (a + f b c d + nth (Z.to_nat k) X 0 + Ti) in
  (d, u32 (ROTATE_LEFT t s + b), b, c).

Definition T_MASK : Z := 4294967295.

(** The constants T1 to T64. *)
Definition T_table : list Z :=
  [
   Z.lxor T_MASK 0x28955b87; Z.lxor T_MASK 0x173848a9; 0x242070db; Z.lxor T_MASK 0x3e423111;
   Z.lxor T_MASK 0x0a83f050; 0x4787c62a; Z.lxor T_MASK 0x57cfb9ec; Z.lxor T_MASK 0x02b96afe; 0x698098d8;
   Z.lxor T_MASK 0x74bb0850; Z.lxor T_MASK 0x0000a44e; Z.lxor T_MASK 0x76a32841; 0x6b901122;
   Z.lxor T_MASK 0x02678e6c; Z.lxor T_MASK 0x5986bc71; 0x49b40821; Z.lxor T_MASK 0x09e1da9d;
   Z.lxor T_MASK 0x3fbf4cbf; 0x265e5a51; Z.lxor T_MASK 0x16493855; Z.lxor T_MASK 0x29d0efa2; 0x02441453;
   Z.lxor T_MASK 0x275e197e; Z.lxor T_MASK 0x182c0437; 0x21e1cde6; Z.lxor T_MASK 0x3cc8f829;
   Z.lxor T_MASK 0x0b2af278; 0x455a14ed; Z.lxor T_MASK 0x561c16fa; Z.lxor T_MASK 0x03105c07; 0x676f02d9;
   Z.lxor T_MASK 0x72d5b375; Z.lxor T_MASK 0x0005c6bd; Z.lxor T_MASK 0x788e097e; 0x6d9d6122;
   Z.lxor T_MASK 0x021ac7f3; Z.lxor T_MASK 0x5b4115bb; 0x4bdecfa9; Z.lxor T_MASK 0x0944b49f;
   Z.lxor T_MASK 0x4140438f; 0x289b7ec6; Z.lxor T_MASK 0x155ed805; Z.lxor T_MASK 0x2b10cf7a; 0x04881d05;
   Z.lxor T_MASK 0x262b2fc6; Z.lxor T_MASK 0x1924661a; 0x1fa27cf8; Z.lxor T_MASK 0x3b53a99a;
   Z.lxor T_MASK 0x0bd6ddbb; 0x432aff97; Z.lxor T_MASK 0x546bdc58; Z.lxor T_MASK 0x036c5fc6; 0x655b59c3;
   Z.lxor T_MASK 0x70f3336d; Z.lxor T_MASK 0x00100b82; Z.lxor T_MASK 0x7a7ba22e; 0x6fa87e4f;
   Z.lxor T_MASK 0x01d3191f; Z.lxor T_MASK 0x5cfebceb; 0x4e0811a1; Z.lxor T_MASK 0x08ac817d;
   Z.lxor T_MASK 0x42c50dca; 0x2ad7d2bb; Z.lxor T_MASK 0x14792c6e].

(** The word index and the shift of the sixteen operations of each round, and
    the operations with their constants. *)
Definition round1 : list (Z * Z) :=
  [
   (0, 7); (1, 12); (2, 17); (3, 22); (4, 7); (5, 12); (6, 17); (7, 22); (8, 7); (9, 12); (10, 17);
   (11, 22); (12, 7); (13, 12); (14, 17); (15, 22)].
Definition round2 : list (Z * Z) :=
  [
   (1, 5); (6, 9); (11, 14); (0, 20); (5, 5); (10, 9); (15, 14); (4, 20); (9, 5); (14, 9); (3, 14);
   (8, 20); (13, 5); (2, 9); (7, 14); (12, 20)].
Definition round3 : list (Z * Z) :=
  [
   (5, 4); (8, 11); (11, 16); (14, 23); (1, 4); (4, 11); (7, 16); (10, 23); (13, 4); (0, 11); (3, 16);
   (6, 23); (9, 4); (12, 11); (15, 16); (2, 23)].
Definition round4 : list (Z * Z) :=
  [
   (0, 6); (7, 10); (14, 15); (5, 21); (12, 6); (3, 10); (10, 15); (1, 21); (8, 6); (15, 10); (6, 15);
   (13, 21); (4, 6); (11, 10); (2, 15); (9, 21)].
Definition ops (ks : list (Z * Z)) (i : nat) : list (Z * Z * Z) := zip ks (take 16 (drop i T_table)).

(** The block as sixteen little-endian words. *)
Definition word_at (data : list Z) (i : nat) : Z :=
  nth (4 * i) data 0 + Z.shiftl (nth (4 * i + 1) data 0) 8
  + Z.shiftl (nth (4 * i + 2) data 0) 16 + Z.shiftl (nth (4 * i + 3) data 0) 24.

Definition md5_process (st : abcd_t) (data : list Z) : abcd_t :=
  let X := map (word_at data) (seq 0 16) in
  let r := foldl (SET F X) st (ops round1 0) in
  let r := foldl (SET G X) r (ops round2 16) in
  let r := foldl (SET H X) r (ops round3 32) in
  let '(a, b, c, d) := foldl (SET I X) r (ops round4 48) in
  let '(a0, b0, c0, d0) := st in
  (u32 (a0 + a), u32 (b0 + b), u32 (c0 + c), u32 (d0 + d)).

(** ** The incremental interface *)
Record md5_state := Md5 { count0 : Z; count1 : Z; abcd : abcd_t; mbuf : list Z }.

Definition md5_init : md5_state :=
  Md5 0 0 (0x67452301, Z.lxor T_MASK 0x10325476, Z.lxor T_MASK 0x67452301, 0x10325476) (repeat 0 64).

(** [for (; left >= 64; p += 64, left -= 64) md5_process(pms, p)]; [p] is an
    offset of [data].  The fuel bounds the number of full blocks. *)
Fixpoint full_blocks (fuel : nat) (st : abcd_t) (data : list Z) (p left : Z) : outcome (abcd_t * Z * Z) :=
  match fuel with
  | O => Ret (st, p, left)
  | S fuel' =>
      if left >=? 64 then
        blk ← mread data p 64;
        full_blocks fuel' (md5_process st blk) data (p + 64) (left - 64)
      else Ret (st, p, left)
  end.

(** Full blocks, then the final partial block. *)
Definition md5_tail (st : md5_state) (data : list Z) (p left : Z) : outcome md5_state :=
  '(r, p, left) ← full_blocks (Z.to_nat left) (abcd st) data p left;
  if negb (left =? 0) then
    bs ← mread data p left;
    b ← mwrite (mbuf st) 0 bs;
    Ret (Md5 (count0 st) (count1 st) r b)
  else Ret (Md5 (count0 st) (count1 st) r (mbuf st)).

Definition md5_append (st : md5_state) (data : list Z) (nbytes : Z) : outcome md5_state :=
  let offset := Z.land (Z.shiftr (count0 st) 3) 63 in
  let nbits := u32 (Z.shiftl nbytes 3) in
  if nbytes <=? 0 then Ret st
  else
    let c1 := u32 (count1 st + Z.shiftr nbytes 29) in
    let c0 := u32 (count0 st + nbits) in
    let c1 := if c0 <? nbits then u32 (c1 + 1) else c1 in
    let st := Md5 c0 c1 (abcd st) (mbuf st) in
    if negb (offset =? 0) then
      let copy := if offset + nbytes >? 64 then 64 - offset else nbytes in
      bs ← mread data 0 copy;
      b ← mwrite (mbuf st) offset bs;
      if offset + copy <? 64 then Ret (Md5 c0 c1 (abcd st) b)
      else md5_tail (Md5 c0 c1 (md5_process (abcd st) b) b) data copy (nbytes - copy)
    else md5_tail st data 0 nbytes.

(** Bytes of the words [ws], least significant first. *)
Definition le_bytes (ws : list Z) : list Z :=
  flat_map (λ w, map (λ j, u8 (Z.shiftr w (Z.shiftl (Z.of_nat j) 3))) (seq 0 4)) ws.

Definition pad : list Z := 0x80 :: repeat 0 63.

Definition md5_finish (st : md5_state) : outcome (list Z) :=
  let data := le_bytes [count0 st; count1 st] in
  st ← md5_append st pad (Z.land (u32 (55 - Z.shiftr (count0 st) 3)) 63 + 1);
  st ← md5_append st data 8;
  let '(a, b, c, d) := abcd st in
  Ret (le_bytes [a; b; c; d]).

(** ** Reference: the message absorbed byte by byte (RFC 1321) *)
Definition push (s : abcd_t * list Z) (x : Z) : abcd_t * list Z :=
  let blk := snd s ++ [x] in
  if Nat.eqb (length blk) 64 then (md5_process (fst s) blk, []) else (fst s, blk).

Definition padding (n : Z) : list Z :=
  0x80 :: repeat 0 (Z.to_nat ((55 - n) mod 64)) ++
  le_bytes [(8 * n) mod 2 ^ 32; (8 * n / 2 ^ 32) mod 2 ^ 32].

Definition md5_spec (m : list Z) : list Z :=
  let '(a, b, c, d) := fst (foldl push (abcd md5_init, []) (m ++ padding (zlen m))) in
  le_bytes [a; b; c; d].

Example md5_abc : md5_spec (bytes "abc") =
  [0x90; 0x01; 0x50; 0x98; 0x3c; 0xd2; 0x4f; 0xb0; 0xd6; 0x96; 0x3f; 0x7d; 0x28; 0xe1; 0x7f; 0x72].
Proof. vm_compute. reflexivity. Qed.

(** ** Absorbing bytes *)
Opaque md5_process.

Lemma push_short d : ∀ a pend, (length pend + length d < 64)%nat → foldl push (a, pend) d = (a, pend ++ d).
Proof.
  induction d as [|x d IH]; intros a pend Hl; cbn [foldl]; [by rewrite app_nil_r|]. simpl in Hl.
  unfold push at 2. cbn [fst snd]. rewrite length_app. simpl.
  rewrite (proj2 (Nat.eqb_neq _ _)) by lia. rewrite IH by (rewrite length_app; simpl; lia).
  by rewrite <- app_assoc.
Qed.

Lemma push_block d a pend :
  (length pend < 64)%nat → (length pend + length d = 64)%nat →
  foldl push (a, pend) d = (md5_process a (pend ++ d), []).
Proof.
  intros Hp Hl. destruct d as [|x d _] using rev_ind; [simpl in Hl; lia|].
  rewrite length_app in Hl. simpl in Hl. rewrite foldl_app, push_short by lia. simpl.
  unfold push. cbn [fst snd]. rewrite !length_app. simpl.
  rewrite (proj2 (Nat.eqb_eq _ _)) by lia. by rewrite <- app_assoc.
Qed.

Lemma mread_drop (data : list Z) p n :
  0 ≤ p → 0 ≤ n → p + n ≤ zlen data → mread data p n = Ret (take (Z.to_nat n) (drop (Z.to_nat p) data)).
Proof. intros. unfold mread. by if_true. Qed.

Lemma full_blocks_spec data fuel st p left :
  0 ≤ p → 0 ≤ left ≤ Z.of_nat fuel → p + left = zlen data →
  ∃ r p' left', full_blocks fuel st data p left = Ret (r, p', left') ∧
    0 ≤ left' < 64 ∧ 0 ≤ p' ∧ p' + left' = zlen data ∧
    foldl push (st, []) (drop (Z.to_nat p) data) = (r, drop (Z.to_nat p') data).
Proof.
  revert st p left. induction fuel as [|fuel IH]; intros st p left Hp Hl Hs; cbn [full_blocks].
  { exists st, p, left. split_and!; try lia; [done|]. rewrite skipn_all2 by lia. done. }
  rewrite Z.geb_leb. case_match eqn:E; bool_hyps.
  - rewrite mread_drop, bind_Ret by lia.
    destruct (IH (md5_process st (take (Z.to_nat 64) (drop (Z.to_nat p) data))) (p + 64) (left - 64))
      as (r & p' & l' & Hr & H1 & H2 & H3 & H4); [lia..|].
    exists r, p', l'. split_and!; [done|lia..|].
    rewrite <- (take_drop (Z.to_nat 64) (drop (Z.to_nat p) data)), foldl_app.
    rewrite push_block; [|cbn [length]; lia|rewrite length_take, length_drop; cbn [length]; lia].
    rewrite app_nil_l, drop_drop, <- H4. do 3 f_equal. lia.
  - exists st, p, left. split_and!; try lia; [done|].
    rewrite push_short; [done|]. rewrite length_drop. cbn [length]. lia.
Qed.

(** ** The state stands for the bytes appended so far *)
Definition md5_inv (m : list Z) (st : md5_state) : Prop :=
  count0 st = (8 * zlen m) mod 2 ^ 32 ∧ count1 st = (8 * zlen m / 2 ^ 32) mod 2 ^ 32 ∧
  length (mbuf st) = 64%nat ∧
  ∃ pend, foldl push (abcd md5_init, []) m = (abcd st, pend) ∧
          (∃ rest, mbuf st = pend ++ rest) ∧ zlen pend = zlen m mod 64.

Lemma md5_init_inv : md5_inv [] md5_init.
Proof. split_and!; try done. exists []. split_and!; try done. by eexists. Qed.

Lemma offset_spec n : Z.land (Z.shiftr ((8 * n) mod 2 ^ 32) 3) 63 = n mod 64.
Proof.
  rewrite Z.shiftr_div_pow2 by lia. change 63 with (Z.ones 6). rewrite Z.land_ones by lia.
  change (2 ^ 3) with 8. change (2 ^ 32) with (8 * 2 ^ 29).
  rewrite Z.mul_mod_distr_l by lia. rewrite Z.mul_comm, Z.div_mul by lia.
  rewrite Z.mod_mod_divide; [done|]. exists (2 ^ 23). lia.
Qed.

(** The 64-bit bit count, kept in two words with an explicit carry. *)
Lemma count_spec n k :
  0 ≤ n → 0 ≤ k < 2 ^ 28 →
  let nbits := u32 (Z.shiftl k 3) in
  let c0 := u32 ((8 * n) mod 2 ^ 32 + nbits) in
  let c1 := u32 ((8 * n / 2 ^ 32) mod 2 ^ 32 + Z.shiftr k 29) in
  c0 = (8 * (n + k)) mod 2 ^ 32 ∧
  (if c0 <? nbits then u32 (c1 + 1) else c1) = (8 * (n + k) / 2 ^ 32) mod 2 ^ 32.
Proof.
  intros Hn Hk. cbv zeta. rewrite Z.shiftl_mul_pow2, Z.shiftr_div_pow2 by lia.
  rewrite (Z.div_small k (2 ^ 29)), Z.add_0_r by lia. rewrite (u32_small (k * 2 ^ 3)) by lia.
  change (2 ^ 3) with 8. unfold u32. rewrite Z.mod_mod by lia.
  set (N := 8 * n). replace (8 * (n + k)) with (N + k * 8) by lia.
  assert (HN : 0 ≤ N) by lia. set (q := N / 2 ^ 32). set (r := N mod 2 ^ 32).
  assert (Hd : N = 2 ^ 32 * q + r) by (apply Z.div_mod; lia).
  assert (Hr : 0 ≤ r < 2 ^ 32) by (apply Z.mod_pos_bound; lia).
  split; [rewrite Hd; replace (2 ^ 32 * q + r + k * 8) with (r + k * 8 + q * 2 ^ 32) by lia; by rewrite Z_mod_plus_full|].
  case_match eqn:E; bool_hyps.
  - assert (r + k * 8 >= 2 ^ 32). { destruct (Z_lt_ge_dec (r + k * 8) (2 ^ 32)); [|lia].
      rewrite Z.mod_small in E by lia. lia. }
    rewrite Zplus_mod_idemp_l. f_equal. rewrite Hd. apply (Z.div_unique _ _ _ (r + k * 8 - 2 ^ 32)); lia.
  - assert (r + k * 8 < 2 ^ 32). { destruct (Z_lt_ge_dec (r + k * 8) (2 ^ 32)); [lia|].
      replace (r + k * 8) with (r + k * 8 - 2 ^ 32 + 1 * 2 ^ 32) in E by lia.
      rewrite Z_mod_plus_full, Z.mod_small in E by lia. lia. }
    f_equal. rewrite Hd. apply (Z.div_unique _ _ _ (r + k * 8)); lia.
Qed.

(** The end of [md5_append], from offset [p] of the data on. *)
Lemma md5_tail_spec data st p m :
  0 ≤ p ≤ zlen data → length (mbuf st) = 64%nat →
  foldl push (abcd md5_init, []) m = (abcd st, []) →
  ∃ st', md5_tail st data p (zlen data - p) = Ret st' ∧
    count0 st' = count0 st ∧ count1 st' = count1 st ∧ length (mbuf st') = 64%nat ∧
    ∃ pend, foldl push (abcd md5_init, []) (m ++ drop (Z.to_nat p) data) = (abcd st', pend) ∧
            ∃ rest, mbuf st' = pend ++ rest.
Proof.
  intros Hp Hb Hm. unfold md5_tail.
  destruct (full_blocks_spec data (Z.to_nat (zlen data - p)) (abcd st) p (zlen data - p))
    as (r & p' & l' & -> & H1 & H2 & H3 & H4); [lia..|].
  rewrite bind_Ret. cbv beta iota. rewrite foldl_app, Hm, H4.
  destruct (l' =? 0) eqn:E; bool_hyps; cbn [negb].
  - eexists. split; [done|]. cbn. split_and!; try done. eexists. split; [done|].
    rewrite skipn_all2 by lia. by eexists.
  - rewrite mread_drop, bind_Ret by lia.
    assert (Hd : take (Z.to_nat l') (drop (Z.to_nat p') data) = drop (Z.to_nat p') data)
      by (apply firstn_all2; rewrite length_drop; lia).
    rewrite Hd. destruct (mwrite (mbuf st) 0 (drop (Z.to_nat p') data)) as [b| |] eqn:Ew.
    + rewrite bind_Ret. eexists. split; [done|]. cbn. split_and!; [done..| |].
      * apply mwrite_length in Ew. congruence.
      * eexists. split; [done|]. unfold mwrite in Ew. case_match; [|done]. injection Ew as <-.
        cbn [Z.to_nat take app]. by eexists.
    + exfalso. unfold mwrite in Ew. case_match eqn:E2; [done|]. bool_hyps. rewrite length_drop in E2. lia.
    + exfalso. unfold mwrite in Ew. by case_match.
Qed.

Lemma push_length d : ∀ a pend, (length pend < 64)%nat →
  (length (snd (foldl push (a, pend) d)) < 64)%nat ∧
  zlen (snd (foldl push (a, pend) d)) = (zlen pend + zlen d) mod 64.
Proof.
  induction d as [|x d IH]; intros a pend Hl; cbn [foldl].
  { cbn [snd length]. split; [done|]. rewrite Z.add_0_r, Z.mod_small; lia. }
  unfold push at 2 4. cbn [fst snd]. rewrite length_app. cbn [length].
  destruct (Nat.eqb_spec (length pend + 1) 64) as [E|E].
  - destruct (IH (md5_process a (pend ++ [x])) []) as [H1 H2]; [simpl; lia|]. split; [done|].
    rewrite H2. cbn [length]. replace (zlen pend + Z.of_nat (S (length d))) with (0 + zlen d + 1 * 64) by lia.
    by rewrite Z_mod_plus_full.
  - destruct (IH a (pend ++ [x])) as [H1 H2]; [rewrite length_app; simpl; lia|]. split; [done|].
    rewrite H2, length_app. cbn [length]. f_equal. lia.
Qed.

Lemma md5_inv_intro m st pend :
  count0 st = (8 * zlen m) mod 2 ^ 32 → count1 st = (8 * zlen m / 2 ^ 32) mod 2 ^ 32 →
  length (mbuf st) = 64%nat → foldl push (abcd md5_init, []) m = (abcd st, pend) →
  (∃ rest, mbuf st = pend ++ rest) → md5_inv m st.
Proof.
  intros C0 C1 Hb Hf Hr. split_and!; try done. exists pend. split_and!; try done.
  destruct (push_length m (abcd md5_init) []) as [_ Hl]; [simpl; lia|]. by rewrite Hf in Hl.
Qed.

Lemma md5_append_inv m st data :
  md5_inv m st → zlen data < 2 ^ 28 →
  ∃ st', md5_append st data (zlen data) = Ret st' ∧ md5_inv (m ++ data) st'.
Proof.
  intros (C0 & C1 & Hb & pend & Hf & [rest Hr] & Hp) Hl. unfold md5_append.
  case_match eqn:E0; bool_hyps.
  { assert (data = []) as -> by (destruct data; [done|simpl in E0; lia]). exists st.
    rewrite app_nil_r. split; [done|]. split_and!; try done. exists pend. split_and!; try done. by exists rest. }
  rewrite C0, C1, offset_spec, <- Hp.
  destruct (count_spec (zlen m) (zlen data)) as [K0 K1]; [lia..|]. cbv zeta in K0, K1 |- *.
  rewrite K0 in K1. rewrite K0, K1. clear K0 K1.
  assert (Hmb := Z.mod_pos_bound (zlen m) 64 ltac:(lia)).
  replace (zlen m + zlen data) with (zlen (m ++ data)) by (rewrite length_app; lia).
  destruct (zlen pend =? 0) eqn:Ep; bool_hyps; cbn [negb mbuf abcd].
  { assert (pend = []) as -> by (destruct pend; [done|simpl in Ep; lia]).
    destruct (md5_tail_spec data (Md5 ((8 * zlen (m ++ data)) mod 2 ^ 32)
      ((8 * zlen (m ++ data) / 2 ^ 32) mod 2 ^ 32) (abcd st) (mbuf st)) 0 m)
      as (st' & Ht & T0 & T1 & T2 & pend' & T3 & rest' & T4); [lia|done..|].
    rewrite Z.sub_0_r in Ht. exists st'. split; [done|].
    apply (md5_inv_intro _ _ pend'); [exact T0|exact T1|exact T2|exact T3|by exists rest']. }
  set (copy := if 64 <? zlen pend + zlen data then 64 - zlen pend else zlen data).
  assert (Hcopy : 0 ≤ copy ≤ zlen data ∧ zlen pend + copy ≤ 64 ∧ (zlen pend + copy < 64 → copy = zlen data)).
  { unfold copy. case_match eqn:E; bool_hyps; lia. }
  assert (Hrest : zlen pend + zlen rest = 64) by (rewrite Hr, length_app in Hb; lia).
  rewrite mread_drop, bind_Ret, Hr by lia. change (drop (Z.to_nat 0) data) with data.
  assert (Hbs : zlen (take (Z.to_nat copy) data) = copy) by (rewrite length_take; lia).
  rewrite mwrite_extend, bind_Ret by lia.
  destruct (zlen pend + copy <? 64) eqn:Ec; bool_hyps.
  - rewrite firstn_all2 by lia. eexists. split; [done|].
    eapply (md5_inv_intro _ _ (pend ++ data)); try done.
    + cbn. rewrite !length_app, length_drop. lia.
    + rewrite foldl_app, Hf. apply push_short. lia.
    + by eexists.
  - rewrite skipn_all2, app_nil_r by lia.
    destruct (md5_tail_spec data (Md5 ((8 * zlen (m ++ data)) mod 2 ^ 32)
      ((8 * zlen (m ++ data) / 2 ^ 32) mod 2 ^ 32) (md5_process (abcd st) (pend ++ take (Z.to_nat copy) data))
      (pend ++ take (Z.to_nat copy) data)) copy (m ++ take (Z.to_nat copy) data))
      as (st' & Ht & T0 & T1 & T2 & pend' & T3 & rest' & T4); [lia| | |].
    + cbn. rewrite length_app. lia.
    + rewrite foldl_app, Hf. apply push_block; lia.
    + exists st'. split; [done|]. rewrite <- app_assoc, take_drop in T3.
      apply (md5_inv_intro _ _ pend'); [exact T0|exact T1|exact T2|exact T3|by exists rest'].
Qed.

(** Appending in pieces. *)
Fixpoint md5_appends (st : md5_state) (pieces : list (list Z)) : outcome md5_state :=
  match pieces with
  | [] => Ret st
  | d :: ds => st ← md5_append st d (zlen d); md5_appends st ds
  end.

Lemma md5_appends_inv ds m st :
  md5_inv m st → Forall (λ d, zlen d < 2 ^ 28) ds →
  ∃ st', md5_appends st ds = Ret st' ∧ md5_inv (m ++ concat ds) st'.
Proof.
  intros Hi Hd. revert m st Hi. induction Hd as [|d ds Hd _ IH]; intros m st Hi; cbn.
  { exists st. by rewrite app_nil_r. }
  destruct (md5_append_inv m st d Hi Hd) as (st1 & -> & Hi1). rewrite bind_Ret, app_assoc. by apply IH.
Qed.

Lemma finish_pad n :
  0 ≤ n → Z.land (u32 (55 - Z.shiftr ((8 * n) mod 2 ^ 32) 3)) 63 = (55 - n) mod 64.
Proof.
  intros Hn. change 63 with (Z.ones 6). rewrite Z.land_ones by lia. unfold u32.
  rewrite Z.mod_mod_divide by (exists (2 ^ 26); lia).
  rewrite <- Zminus_mod_idemp_r, <- (Zminus_mod_idemp_r 55 n). f_equal. f_equal.
  rewrite <- (offset_spec n). change 63 with (Z.ones 6). by rewrite Z.land_ones by lia.
Qed.

(** Only the first [nbytes] bytes of the data are read. *)
Lemma mread_app_prefix (d1 d2 : list Z) p n :
  0 ≤ p → 0 ≤ n → p + n ≤ zlen d1 → mread (d1 ++ d2) p n = mread d1 p n.
Proof.
  intros Hp Hn Hl. rewrite !mread_drop by (rewrite ?length_app; lia). f_equal.
  rewrite drop_app_le, take_app_le by (rewrite ?length_drop; lia). done.
Qed.

Lemma full_blocks_prefix d1 d2 fuel st p left :
  0 ≤ p → p + left ≤ zlen d1 → full_blocks fuel st (d1 ++ d2) p left = full_blocks fuel st d1 p left.
Proof.
  revert st p left. induction fuel as [|fuel IH]; intros st p left Hp Hl; [done|]. cbn [full_blocks].
  rewrite Z.geb_leb. case_match eqn:E; [|done]. bool_hyps. rewrite mread_app_prefix by lia.
  destruct (mread d1 p 64); [|done..]. rewrite !bind_Ret. apply IH; lia.
Qed.

Lemma md5_tail_prefix d1 d2 st p :
  0 ≤ p ≤ zlen d1 → md5_tail st (d1 ++ d2) p (zlen d1 - p) = md5_tail st d1 p (zlen d1 - p).
Proof.
  intros Hp. unfold md5_tail. rewrite full_blocks_prefix by lia.
  destruct (full_blocks_spec d1 (Z.to_nat (zlen d1 - p)) (abcd st) p (zlen d1 - p))
    as (r & p' & l' & -> & H1 & H2 & H3 & _); [lia..|].
  rewrite !bind_Ret. cbv beta iota. destruct (negb (l' =? 0)); [|done]. by rewrite mread_app_prefix by lia.
Qed.

Lemma md5_append_prefix d1 d2 st :
  0 ≤ Z.land (Z.shiftr (count0 st) 3) 63 < 64 →
  md5_append st (d1 ++ d2) (zlen d1) = md5_append st d1 (zlen d1).
Proof.
  intros Ho. unfold md5_append. cbv zeta. destruct (zlen d1 <=? 0) eqn:E; bool_hyps; [done|].
  set (o := Z.land (Z.shiftr (count0 st) 3) 63) in *.
  set (copy := if 64 <? o + zlen d1 then 64 - o else zlen d1).
  assert (Hc : 0 ≤ copy ≤ zlen d1) by (unfold copy; case_match eqn:Ecp; bool_hyps; lia).
  destruct (negb (o =? 0)).
  - rewrite mread_app_prefix by lia. destruct (mread d1 0 copy); [|done..]. rewrite !bind_Ret.
    destruct (mwrite _ o a); [|done..]. rewrite !bind_Ret. case_match; [done|]. by apply md5_tail_prefix.
  - rewrite <- (Z.sub_0_r (zlen d1)). apply md5_tail_prefix. lia.
Qed.

Lemma md5_finish_spec m st : md5_inv m st → md5_finish st = Ret (md5_spec m).
Proof.
  intros Hi. pose proof Hi as (C0 & C1 & _). unfold md5_finish.
  rewrite C0, finish_pad by lia. set (k := (55 - zlen m) mod 64).
  assert (Hk : 0 ≤ k < 64) by (apply Z.mod_pos_bound; lia).
  set (p1 := 0x80 :: repeat 0 (Z.to_nat k)).
  assert (Hp : pad = p1 ++ repeat 0 (Z.to_nat (63 - k))).
  { unfold pad, p1. cbn [app]. rewrite <- repeat_app. do 2 f_equal. lia. }
  assert (Hl : k + 1 = zlen p1) by (unfold p1; cbn [length]; rewrite repeat_length; lia).
  rewrite Hp, Hl, md5_append_prefix.
  2:{ rewrite C0, offset_spec. apply Z.mod_pos_bound. lia. }
  destruct (md5_append_inv m st p1 Hi) as (st1 & -> & Hi1); [lia|]. rewrite bind_Ret, C1.
  set (lb := le_bytes _).
  destruct (md5_append_inv _ st1 lb Hi1) as (st2 & Ha & Hi2); [done|].
  change (zlen lb) with 8 in Ha. rewrite Ha, bind_Ret. unfold md5_spec.
  destruct Hi2 as (_ & _ & _ & pend & Hf & _). rewrite <- app_assoc in Hf.
  change (padding (zlen m)) with (p1 ++ lb). rewrite Hf. cbn [fst]. by destruct (abcd st2) as [[[a b] c] d].
Qed.

(** The digest does not depend on how the message was cut into appended
    pieces (each below 256 MB): it is the MD5 digest of the whole message,
    padded with its 64-bit bit length, and no buffer is overrun. *)
Theorem md5_incremental ds :
  Forall (λ d, zlen d < 2 ^ 28) ds →
  (st ← md5_appends md5_init ds; md5_finish st) = Ret (md5_spec (concat ds)).
Proof.
  intros Hd. destruct (md5_appends_inv ds [] md5_init md5_init_inv Hd) as (st & -> & Hi).
  rewrite bind_Ret. by apply md5_finish_spec.
Qed.

Lemma md5_incremental_witness :
  (st ← md5_appends md5_init [bytes "a"; bytes "bc"]; md5_finish st)
  = Ret [0x90; 0x01; 0x50; 0x98; 0x3c; 0xd2; 0x4f; 0xb0; 0xd6; 0x96; 0x3f; 0x7d; 0x28; 0xe1; 0x7f; 0x72].
Proof.
  rewrite (md5_incremental [bytes "a"; bytes "bc"]);
    [vm_compute; reflexivity|repeat constructor; vm_compute; reflexivity].
Defined.
