(* ===== verification/HttpAuth.v ===== *)
(** * redsocks: HTTP proxy authentication

    Models http-auth.c: the Basic and Digest schemes of RFC 2617.  A C string is
    the list of its bytes before the NUL, and a pointer into it the rest of the
    list, where [*p] of an empty rest is the NUL.  A [param_token] is the bytes
    between its two pointers. *)
From S2P Require Import Prelude Encrypt Base64 Md5.
#[local] Open Scope Z_scope.

(** ** Characters and strings *)
Definition isspace (c : Z) : bool := (c =? 32) || ((9 <=? c) && (c <=? 13)).

(** [strncasecmp(a, b, n) == 0] *)
Fixpoint strncaseeq (a b : list Z) (n : nat) : bool :=
  match n with
  | O => true
  | S n =>
      match a, b with
      | [], [] => true
      | x :: a, y :: b => (tolower x =? tolower y) && strncaseeq a b n
      | _, _ => false
      end
  end.

(** Advance while [f] holds of the byte at the pointer, which it does not of the
    NUL: the bytes passed and the rest. *)
Fixpoint span (f : Z → bool) (p : list Z) : list Z * list Z :=
  match p with
  | c :: q => if f c then let '(a, b) := span f q in (c :: a, b) else ([], p)
  | [] => ([], [])
  end.
Definition skip_space (p : list Z) : list Z := (span isspace p).2.

(** The value without the spaces at its end. *)
Fixpoint trim_end (l : list Z) : list Z :=
  match l with
  | [] => []
  | c :: l => match trim_end l with [] => if isspace c then [] else [c] | t => c :: t end
  end.

(** ** Parameters *)
Definition QUOTE : Z := 34.
Definition EQUALS : Z := 61.

(** The end of a value: [*p] is the separator or the NUL. *)
Definition after_separator (p : list Z) : list Z := match p with [] => [] | _ :: q => q end.

(** The name, the value and the rest; [None] for the result 0. *)
Definition extract_param (source : list Z) (separator : Z) : option (list Z * list Z * list Z) :=
  let p := skip_space source in
  match p with
  | [] => None
  | _ =>
      let '(name, p) := span (λ c, negb (isspace c) && negb (c =? EQUALS) && negb (c =? separator)) p in
      match name with
      | [] => None
      | _ =>
          match skip_space p with
          | [] => Some (name, [], [])
          | c :: p =>
              if c =? separator then Some (name, [], p)
              else if negb (c =? EQUALS) then None
              else
                match skip_space p with
                | q :: p' =>
                    if q =? QUOTE then
                      let '(value, p) := span (λ c, negb (c =? QUOTE)) p' in
                      match p with
                      | [] => None
                      | _ :: p =>
                          let p := (span (λ c, negb (c =? separator)) (skip_space p)).2 in
                          Some (name, value, after_separator p)
                      end
                    else
                      let '(value, p) := span (λ c, negb (c =? separator)) (q :: p') in
                      Some (name, trim_end value, after_separator p)
                | [] => Some (name, [], [])
                end
          end
      end
  end.

(** ** Digests *)
Definition MD5_HASHLEN : Z := 16.

Definition hex_digit (n : Z) : Z := if n <? 10 then 48 + n else 87 + n.
Definition hex2 (n : Z) : list Z := [hex_digit (n / 16 mod 16); hex_digit (n mod 16)].
(** Each byte in two hexadecimal digits. *)
Definition dump_hash (hash : list Z) : list Z := flat_map hex2 hash.
(** An unsigned number in eight hexadecimal digits. *)
Definition hex8 (n : Z) : list Z :=
  map (λ i, hex_digit (Z.shiftr (u32 n) (4 * i) mod 16)) [7; 6; 5; 4; 3; 2; 1; 0].

(** [md5_init], [md5_append] of each piece, [md5_finish], [dump_hash]. *)
Definition hash_of (pieces : list (list Z)) : outcome (list Z) :=
  st ← md5_appends md5_init pieces; hash ← md5_finish st; Ret (dump_hash hash).

Definition COLON : list Z := bytes ":".

(** The four strings that [digest_authentication_encode] collects. *)
Record challenge := mkchal { realm : option (list Z); opaque : option (list Z); nonce : option (list Z); qop : option (list Z) }.
Definition no_challenge : challenge := mkchal None None None None.

Definition take_param (name value : list Z) (c : challenge) : challenge :=
  let namelen := length name in
  if strncaseeq name (bytes "realm") namelen then mkchal (Some value) (opaque c) (nonce c) (qop c)
  else if strncaseeq name (bytes "opaque") namelen then mkchal (realm c) (Some value) (nonce c) (qop c)
  else if strncaseeq name (bytes "nonce") namelen then mkchal (realm c) (opaque c) (Some value) (qop c)
  else if strncaseeq name (bytes "qop") namelen then mkchal (realm c) (opaque c) (nonce c) (Some value)
  else c.

(** The loop over the parameters; each takes at least one byte. *)
Fixpoint take_params (fuel : nat) (ptr : list Z) (c : challenge) : outcome challenge :=
  match fuel with
  | O => Fault
  | S fuel =>
      match extract_param ptr 44 with
      | Some (name, value, ptr) => take_params fuel ptr (take_param name value c)
      | None => Ret c
      end
  end.

(** A key and its value in quotes. *)
Definition quoted (key value : list Z) : list Z := key ++ bytes "=" ++ [QUOTE] ++ value ++ [QUOTE].

(** [sprintf] or [strcat] of [s] at [pos] of the result buffer, with the NUL. *)
Definition put_string (m : list Z) (pos : Z) (s : list Z) : outcome (list Z) := mwrite m pos (s ++ [0]).

Definition digest_authentication_encode (line : list Z) (user passwd : option (list Z)) (method path : list Z) (count : Z) (cnonce : list Z) :
    outcome (option (list Z)) :=
  let nc := hex8 count in
  c ← take_params (S (length line)) line no_challenge;
  match realm c, nonce c, user, passwd with
  | Some realm, Some nonce, Some user, Some passwd =>
      if match qop c with Some q => negb (strncaseeq q (bytes "auth") 5) | None => false end then Ret None
      else
        a1buf ← hash_of [user; COLON; realm; COLON; passwd];
        a2buf ← hash_of [method; COLON; path];
        response ← hash_of ([a1buf; COLON; nonce; COLON] ++
                            match qop c with Some q => [nc; COLON; cnonce; COLON; q; COLON] | None => [] end ++ [a2buf]);
        let len := 256 + zlen user + zlen realm + zlen nonce + zlen path + zlen response +
                   match qop c with Some q => zlen q + zlen nc + zlen cnonce | None => 0 end +
                   match opaque c with Some o => zlen o | None => 0 end in
        let s := quoted (bytes "username") user ++ bytes ", " ++ quoted (bytes "realm") realm ++ bytes ", " ++ quoted (bytes "nonce") nonce ++
                 bytes ", " ++ quoted (bytes "uri") path ++ bytes ", " ++ quoted (bytes "response") response ++
                 match qop c with
                 | Some q => bytes ", qop=" ++ q ++ bytes ", nc=" ++ nc ++ bytes ", " ++ quoted (bytes "cnonce") cnonce
                 | None => []
                 end in
        res ← put_string (replicate (Z.to_nat len) 0) 0 s;
        match opaque c with
        | None => s ← mread res 0 (zlen s); Ret (Some s)
        | Some o =>
            let p := zlen s in
            res ← put_string res p (bytes ", opaque=" ++ [QUOTE]);
            res ← put_string res (p + 10) o;
            res ← put_string res (p + 10 + zlen o) [QUOTE];
            s ← mread res 0 (p + 10 + zlen o + 1); Ret (Some s)
        end
  | _, _, _, _ => Ret None
  end.

Definition basic_authentication_encode (user passwd : list Z) : outcome (option (list Z)) :=
  let pair_len := zlen user + 1 + zlen passwd in
  pair ← put_string (replicate (Z.to_nat (pair_len + 1)) 0) 0 (user ++ bytes ":" ++ passwd);
  let basic_len := BASE64_SIZE pair_len in
  Ret (redsocks_base64_encode basic_len pair pair_len).

(** ** Scanning *)
Lemma span_spec f p : p = (span f p).1 ++ (span f p).2 ∧ Forall (λ c, f c = true) (span f p).1 ∧ (∀ c q, (span f p).2 = c :: q → f c = false).
Proof.
  induction p as [|c p (IH1 & IH2 & IH3)]; cbn [span]; [by split_and!; [|constructor|]|]. destruct (f c) eqn:E.
  - destruct (span f p) as [a b]. cbn [fst snd] in *. split_and!; [by rewrite IH1 at 1|by constructor|done].
  - cbn [fst snd]. split_and!; [done|constructor|]. by intros ? ? [= <- _].
Qed.

Lemma span_app f a b : Forall (λ c, f c = true) a → (∀ c q, b = c :: q → f c = false) → span f (a ++ b) = (a, b).
Proof.
  intros Ha Hb. induction Ha as [|c a Hc Ha IH]; cbn [app span].
  - destruct b as [|c b]; [done|]. cbn [span]. by rewrite (Hb c b eq_refl).
  - by rewrite Hc, IH.
Qed.
Lemma span_all f a : Forall (λ c, f c = true) a → span f a = (a, []).
Proof. intros Ha. rewrite <- (app_nil_r a) at 1. by apply span_app. Qed.

Lemma span_length f p : (length (span f p).1 + length (span f p).2 = length p)%nat.
Proof. destruct (span_spec f p) as (E & _). rewrite E at 3. by rewrite length_app. Qed.

Lemma skip_space_le p : (length (skip_space p) ≤ length p)%nat.
Proof. unfold skip_space. pose proof (span_length isspace p). lia. Qed.
Lemma trim_end_le l : (length (trim_end l) ≤ length l)%nat.
Proof. induction l as [|c l IH]; cbn [trim_end length]; [lia|]. destruct (trim_end l); [destruct (isspace c)|]; cbn [length] in *; lia. Qed.
Lemma after_le p : (length (after_separator p) ≤ length p)%nat.
Proof. destruct p; cbn; lia. Qed.

(** Each parameter takes bytes, and its value is no longer than what it takes. *)
Lemma extract_shorter p sep name value r : extract_param p sep = Some (name, value, r) → (length name + length value + length r ≤ length p ∧ 0 < length name)%nat.
Proof.
  unfold extract_param. intros E. pose proof (skip_space_le p). destruct (skip_space p) as [|c0 p0] eqn:E0; [done|].
  match goal with H : context [span ?f (c0 :: p0)] |- _ => pose proof (span_length f (c0 :: p0)); destruct (span f (c0 :: p0)) as [n p1] end. cbn [fst snd] in *.
  destruct n as [|n0 n]; [done|]. pose proof (skip_space_le p1). destruct (skip_space p1) as [|c p2]; [injection E as <- <- <-; cbn [length] in *; lia|].
  destruct (c =? sep); [injection E as <- <- <-; cbn [length] in *; lia|]. destruct (negb (c =? EQUALS)); [done|].
  pose proof (skip_space_le p2). destruct (skip_space p2) as [|q p3]; [injection E as <- <- <-; cbn [length] in *; lia|]. destruct (q =? QUOTE).
  - match goal with H : context [span ?f p3] |- _ => pose proof (span_length f p3); destruct (span f p3) as [v p4] end. cbn [fst snd] in *.
    destruct p4 as [|c4 p4]; [done|]. injection E as <- <- <-. pose proof (skip_space_le p4).
    pose proof (span_length (λ c, negb (c =? sep)) (skip_space p4)). pose proof (after_le (span (λ c, negb (c =? sep)) (skip_space p4)).2). cbn [length] in *. lia.
  - match goal with H : context [span ?f (q :: p3)] |- _ => pose proof (span_length f (q :: p3)); destruct (span f (q :: p3)) as [v p4] end. cbn [fst snd] in *.
    injection E as <- <- <-. pose proof (trim_end_le v). pose proof (after_le p4). cbn [length] in *. lia.
Qed.

(** All the parameters. *)
Fixpoint extract_all (fuel : nat) (p : list Z) : list (list Z * list Z) :=
  match fuel with
  | O => []
  | S fuel => match extract_param p 44 with Some (name, value, r) => (name, value) :: extract_all fuel r | None => [] end
  end.
Definition collect (ps : list (list Z * list Z)) (c : challenge) : challenge := fold_left (λ c p, take_param p.1 p.2 c) ps c.

Lemma take_params_all fuel p c : (length p < fuel)%nat → take_params fuel p c = Ret (collect (extract_all fuel p) c).
Proof.
  revert p c. induction fuel as [|fuel IH]; intros p c Hf; [lia|]. cbn [take_params extract_all]. destruct (extract_param p 44) as [[[n v] r]|] eqn:E; [|done].
  apply extract_shorter in E. rewrite IH by lia. done.
Qed.

(** The strings collected come from the line. *)
Definition short (n : Z) (o : option (list Z)) : Prop := match o with Some s => zlen s ≤ n | None => True end.
Definition chal_short (n : Z) (c : challenge) : Prop := short n (realm c) ∧ short n (opaque c) ∧ short n (nonce c) ∧ short n (qop c).

Lemma take_param_short n name value c : zlen value ≤ n → chal_short n c → chal_short n (take_param name value c).
Proof. intros Hv (H1 & H2 & H3 & H4). unfold take_param, chal_short. repeat case_match; cbn [realm opaque nonce qop]; split_and!; done. Qed.
Lemma collect_short n fuel p c : zlen p ≤ n → chal_short n c → chal_short n (collect (extract_all fuel p) c).
Proof.
  revert p c. induction fuel as [|fuel IH]; intros p c Hp Hc; [done|]. cbn [extract_all]. destruct (extract_param p 44) as [[[name v] r]|] eqn:E; [|done].
  apply extract_shorter in E. apply IH; [lia|]. apply take_param_short; [cbn [snd]; lia|done].
Qed.

(** ** The Digest scheme of RFC 2617 *)
Definition Hash (m : list Z) : list Z := dump_hash (md5_spec m).
Definition KD (secret data : list Z) : list Z := Hash (secret ++ COLON ++ data).

Definition rfc_response (user passwd realm nonce method uri : list Z) (q : option (list Z * list Z * list Z)) : list Z :=
  KD (Hash (user ++ COLON ++ realm ++ COLON ++ passwd))
    (nonce ++ COLON ++ match q with Some (nc, cnonce, qop) => nc ++ COLON ++ cnonce ++ COLON ++ qop ++ COLON | None => [] end ++
     Hash (method ++ COLON ++ uri)).

(** The credentials: a list of directives. *)
Definition rfc_credentials (user passwd realm nonce method uri : list Z) (q : option (list Z * list Z * list Z)) (opaque : option (list Z)) : list Z :=
  quoted (bytes "username") user ++ bytes ", " ++ quoted (bytes "realm") realm ++ bytes ", " ++ quoted (bytes "nonce") nonce ++ bytes ", " ++
  quoted (bytes "uri") uri ++ bytes ", " ++ quoted (bytes "response") (rfc_response user passwd realm nonce method uri q) ++
  match q with Some (nc, cnonce, qop) => bytes ", qop=" ++ qop ++ bytes ", nc=" ++ nc ++ bytes ", " ++ quoted (bytes "cnonce") cnonce | None => [] end ++
  match opaque with Some o => bytes ", " ++ quoted (bytes "opaque") o | None => [] end.

Definition is_auth (q : list Z) : bool := strncaseeq q (bytes "auth") 5.

(** The values of a qop directive: RFC 2617 allows a list of them, with commas
    between, of which the client chooses one. *)
Fixpoint split_at (sep : Z) (q : list Z) : list (list Z) :=
  match q with
  | [] => [[]]
  | c :: q => if c =? sep then [] :: split_at sep q else match split_at sep q with [] => [[c]] | w :: ws => (c :: w) :: ws end
  end.
Definition qop_values (q : list Z) : list (list Z) := map (λ w, trim_end (skip_space w)) (split_at 44 q).
Definition rfc_qop (q : list Z) : option (list Z) := find is_auth (qop_values q).

(** The answer of RFC 2617 to the challenge [c], for a client that knows no
    protection but auth: none without a realm, a nonce or a qop it knows. *)
Definition rfc_answer (c : challenge) (user passwd method uri : list Z) (count : Z) (cnonce : list Z) : option (list Z) :=
  match realm c, nonce c with
  | Some realm, Some nonce =>
      match qop c with
      | Some q =>
          match rfc_qop q with
          | Some t => Some (rfc_credentials user passwd realm nonce method uri (Some (hex8 count, cnonce, t)) (opaque c))
          | None => None
          end
      | None => Some (rfc_credentials user passwd realm nonce method uri None (opaque c))
      end
  | _, _ => None
  end.

(** The qop offers auth among other values: the source compares the whole
    directive with the word. *)
Definition qop_list (c : challenge) : bool :=
  match qop c with Some q => negb (is_auth q) && existsb is_auth (qop_values q) | None => false end.

(** What the source answers: what RFC 2617 says, except to such a list, which it
    does not answer. *)
Definition digest_answer (c : challenge) (user passwd method uri : list Z) (count : Z) (cnonce : list Z) : option (list Z) :=
  if qop_list c then None else rfc_answer c user passwd method uri count cnonce.

Lemma tolower_inv x y : 97 ≤ y ≤ 122 → tolower x = y → x = y ∨ x = y - 32.
Proof. unfold tolower. intros Hy H. destruct ((65 <=? x) && (x <=? 90)); [right|left]; lia. Qed.

(** The word auth is a list of one value. *)
Lemma is_auth_one q : is_auth q = true → qop_values q = [q].
Proof.
  unfold is_auth. destruct q as [|a [|b [|c [|d [|x q]]]]]; cbn; rewrite ?andb_false_r; try done. rewrite !andb_true_iff, !Z.eqb_eq.
  intros (Ha & Hb & Hc & Hd & _). apply (tolower_inv _ 97) in Ha; [|lia]. apply (tolower_inv _ 117) in Hb; [|lia].
  apply (tolower_inv _ 116) in Hc; [|lia]. apply (tolower_inv _ 104) in Hd; [|lia].
  destruct Ha as [-> | ->], Hb as [-> | ->], Hc as [-> | ->], Hd as [-> | ->]; vm_compute; reflexivity.
Qed.

Lemma digest_answer_code c user passwd method uri count cnonce :
  digest_answer c user passwd method uri count cnonce =
  match realm c, nonce c with
  | Some realm, Some nonce =>
      match qop c with
      | Some q => if is_auth q then Some (rfc_credentials user passwd realm nonce method uri (Some (hex8 count, cnonce, q)) (opaque c)) else None
      | None => Some (rfc_credentials user passwd realm nonce method uri None (opaque c))
      end
  | _, _ => None
  end.
Proof.
  unfold digest_answer, qop_list, rfc_answer. destruct (qop c) as [q|]; [|done]. destruct (is_auth q) eqn:E; cbn [negb andb].
  - unfold rfc_qop. rewrite is_auth_one by done. cbn [find]. by rewrite E.
  - destruct (existsb is_auth (qop_values q)) eqn:Ex; [by destruct (realm c), (nonce c)|].
    assert (rfc_qop q = None) as ->; [|by destruct (realm c), (nonce c)].
    unfold rfc_qop. induction (qop_values q) as [|w ws IH]; [done|]. cbn in *. apply orb_false_iff in Ex as [-> Ex]. by apply IH.
Qed.

Definition MD5_PIECE : Z := 2 ^ 28.

Lemma hash_of_spec ds : Forall (λ d, zlen d < MD5_PIECE) ds → hash_of ds = Ret (Hash (concat ds)).
Proof.
  intros Hd. unfold hash_of. destruct (md5_appends_inv ds [] md5_init md5_init_inv Hd) as (st & -> & Hi). rewrite bind_Ret.
  by rewrite (md5_finish_spec _ _ Hi), bind_Ret.
Qed.

Lemma Hash_length m : length (Hash m) = 32%nat.
Proof. unfold Hash, md5_spec. destruct (foldl push _ _).1 as [[[a b] c] d]. reflexivity. Qed.
Lemma hex8_length n : length (hex8 n) = 8%nat.
Proof. done. Qed.

(** A string written into a buffer with room for it, and then read back. *)
Lemma put_string_at pre rest s : zlen s + 1 ≤ zlen rest → put_string (pre ++ rest) (zlen pre) s = Ret ((pre ++ s) ++ 0 :: drop (S (length s)) rest).
Proof.
  intros Hl. unfold put_string. rewrite mwrite_extend by (rewrite ?length_app; cbn [length]; lia). f_equal. rewrite !length_app. cbn [length].
  rewrite <- !app_assoc. cbn [app]. by rewrite Nat.add_1_r.
Qed.
Lemma put_string_over pre rest s c : zlen s ≤ zlen rest → put_string (pre ++ c :: rest) (zlen pre) s = Ret ((pre ++ s) ++ 0 :: drop (length s) rest).
Proof. intros Hl. rewrite put_string_at by (cbn [length]; lia). done. Qed.

(** The end of [digest_authentication_encode], in a buffer of [len] bytes. *)
Lemma build_ok len s (o : option (list Z)) : zlen s + 12 + (match o with Some o => zlen o | None => 0 end) ≤ len →
  (res ← put_string (replicate (Z.to_nat len) 0) 0 s;
   match o with
   | None => s ← mread res 0 (zlen s); Ret (Some s)
   | Some o =>
       let p := zlen s in
       res ← put_string res p (bytes ", opaque=" ++ [QUOTE]);
       res ← put_string res (p + 10) o;
       res ← put_string res (p + 10 + zlen o) [QUOTE];
       s ← mread res 0 (p + 10 + zlen o + 1); Ret (Some s)
   end) = Ret (Some (s ++ match o with Some o => bytes ", " ++ quoted (bytes "opaque") o | None => [] end)).
Proof.
  intros Hl. pose proof (put_string_at [] (replicate (Z.to_nat len) 0) s) as E. cbn [app length] in E. change (Z.of_nat 0) with 0 in E. rewrite E, bind_Ret by (rewrite length_replicate; destruct o; lia).
  set (rest := drop (S (length s)) (replicate (Z.to_nat len) 0)). assert (Hr : zlen rest = len - zlen s - 1) by (unfold rest; rewrite length_drop, length_replicate; destruct o; lia).
  destruct o as [o|]; cbn zeta.
  - set (k := bytes ", opaque=" ++ [QUOTE]). assert (Hk : zlen k = 10) by done. rewrite put_string_over, bind_Ret by lia.
    replace (zlen s + 10) with (zlen (s ++ k)) by (rewrite length_app; lia). rewrite put_string_over, bind_Ret by (rewrite length_drop; lia).
    replace (zlen (s ++ k) + zlen o) with (zlen ((s ++ k) ++ o)) by (rewrite !length_app; lia). rewrite put_string_over, bind_Ret by (rewrite !length_drop; cbn [length]; lia).
    assert (Hm : ∀ a b n, n = zlen a → mread (a ++ b) 0 n = Ret a) by (intros a b ? ->; apply mread_prefix).
    rewrite Hm by (rewrite !length_app; cbn [length]; lia). rewrite bind_Ret. unfold quoted. by list_simplifier.
  - rewrite mread_prefix, bind_Ret. by rewrite app_nil_r.
Qed.

Lemma quoted_length k v : length (quoted k v) = (length k + length v + 3)%nat.
Proof. unfold quoted. rewrite !length_app. cbn. lia. Qed.

Lemma encode_answer line user passwd method uri count cnonce :
  Forall (λ d, zlen d < MD5_PIECE) [line; user; passwd; method; uri; cnonce] →
  digest_authentication_encode line (Some user) (Some passwd) method uri count cnonce =
  Ret (digest_answer (collect (extract_all (S (length line)) line) no_challenge) user passwd method uri count cnonce).
Proof.
  intros Hs. unfold digest_authentication_encode. rewrite take_params_all by lia. rewrite bind_Ret.
  assert (Hc : chal_short (zlen line) (collect (extract_all (S (length line)) line) no_challenge)) by (by apply collect_short).
  set (c := collect _ _) in *. destruct Hc as (Hre & Hop & Hno & Hqo). rewrite digest_answer_code.
  destruct (realm c) as [r|]; [|done]. destruct (nonce c) as [n|]; [|by destruct (qop c)]. cbn [short] in *.
  repeat match goal with H : Forall _ (_ :: _) |- _ => apply Forall_cons_1 in H as [? H] end. clear Hs.
  assert (Hp : ∀ l, length l = 32%nat ∨ l = COLON ∨ length l = 8%nat → zlen l < MD5_PIECE) by (intros l [Hl|[->|Hl]]; unfold MD5_PIECE; try rewrite Hl; cbn; lia).
  set (q := qop c) in *. destruct (match q with Some q => negb (strncaseeq q (bytes "auth") 5) | None => false end) eqn:Eq.
  { destruct q as [q|]; [|done]. unfold is_auth. by destruct (strncaseeq q (bytes "auth") 5). }
  rewrite !hash_of_spec by (repeat (apply Forall_cons_2; [first [lia|apply Hp; auto]|]); apply Forall_nil_2). rewrite !bind_Ret.
  assert (Hresp : ∀ qs x, (x = [] ∧ qs = None ∨ ∃ q0, qs = Some (hex8 count, cnonce, q0) ∧ zlen q0 < MD5_PIECE ∧ x = [hex8 count; COLON; cnonce; COLON; q0; COLON]) →
    hash_of ([Hash (concat [user; COLON; r; COLON; passwd]); COLON; n; COLON] ++ x ++ [Hash (concat [method; COLON; uri])]) =
    Ret (rfc_response user passwd r n method uri qs)).
  { intros qs x Hx. rewrite hash_of_spec.
    - unfold rfc_response, KD. f_equal. f_equal. destruct Hx as [[-> ->]|(q0 & -> & _ & ->)]; cbn [concat app]; rewrite ?app_nil_r; by list_simplifier.
    - destruct Hx as [[-> ->]|(q0 & -> & Hq0 & ->)]; cbn [app]; repeat (apply Forall_cons_2; [first [lia|apply Hp; auto using Hash_length, hex8_length]|]); apply Forall_nil_2. }
  destruct q as [q|]; cbn [short] in Hqo.
  - rewrite (Hresp (Some (hex8 count, cnonce, q))) by (right; exists q; split_and!; [done|lia|done]). rewrite bind_Ret. unfold is_auth. apply negb_false_iff in Eq. rewrite Eq.
    set (resp := rfc_response _ _ _ _ _ _ _). rewrite build_ok.
    + unfold rfc_credentials. fold resp. by rewrite <- !app_assoc.
    + rewrite !length_app, !quoted_length. cbn [bytes length]. destruct (opaque c); cbn; lia.
  - rewrite (Hresp None) by (by left). rewrite bind_Ret. set (resp := rfc_response _ _ _ _ _ _ _). rewrite build_ok.
    + unfold rfc_credentials. fold resp. by rewrite <- !app_assoc.
    + rewrite !length_app, !quoted_length. destruct (opaque c); cbn; lia.
Qed.

(** ** Challenges in writing

    A list of parameters, their values in quotes or not. *)
Record param := mkparam { p_name : list Z; p_value : list Z; p_quoted : bool }.
Definition print_param (p : param) : list Z :=
  p_name p ++ [EQUALS] ++ if p_quoted p then [QUOTE] ++ p_value p ++ [QUOTE] else p_value p.
Fixpoint print_params (ps : list param) : list Z :=
  match ps with
  | [] => []
  | [p] => print_param p
  | p :: ps => print_param p ++ bytes ", " ++ print_params ps
  end.

Definition name_char (c : Z) : bool := negb (isspace c) && negb (c =? EQUALS) && negb (c =? 44).
Definition param_ok (p : param) : bool :=
  match p_name p with [] => false | _ => forallb name_char (p_name p) end &&
  if p_quoted p then forallb (λ c, negb (c =? QUOTE)) (p_value p)
  else forallb (λ c, negb (c =? 44)) (p_value p) && bool_decide (skip_space (p_value p) = p_value p) && bool_decide (trim_end (p_value p) = p_value p) &&
       match p_value p with c :: _ => negb (c =? QUOTE) | [] => true end.

Lemma forallb_Forall (f : Z → bool) l : forallb f l = true → Forall (λ c, f c = true) l.
Proof. induction l as [|c l IH]; cbn; [constructor|]. rewrite andb_true_iff. intros [? ?]. constructor; auto. Qed.

Lemma skip_nonspace c p : isspace c = false → skip_space (c :: p) = c :: p.
Proof. intros H. unfold skip_space. cbn. by rewrite H. Qed.

Definition ends_param (rest : list Z) : Prop := rest = [] ∨ ∃ r, rest = 44 :: r.

Lemma extract_name p rest : param_ok p = true → ∀ v,
  (v = [] ∨ ∃ r, v = EQUALS :: r) →
  skip_space (p_name p ++ v ++ rest) = p_name p ++ v ++ rest ∧
  (v ≠ [] → span (λ c, negb (isspace c) && negb (c =? EQUALS) && negb (c =? 44)) (p_name p ++ v ++ rest) = (p_name p, v ++ rest)).
Proof.
  intros Hp v Hv. unfold param_ok in Hp. apply andb_true_iff in Hp as [Hn _]. destruct (p_name p) as [|c n] eqn:En; [done|]. apply forallb_Forall in Hn as Hn'. split.
  - apply Forall_cons_1 in Hn' as [Hc _]. apply skip_nonspace. unfold name_char in Hc. by destruct (isspace c).
  - intros Hne. apply span_app; [done|]. intros c' q E. destruct Hv as [->|(r & ->)]; [done|]. injection E as <- _. done.
Qed.

Lemma extract_print p rest : param_ok p = true → ends_param rest →
  extract_param (print_param p ++ rest) 44 = Some (p_name p, p_value p, after_separator rest).
Proof.
  intros Hp Hrest. unfold print_param. rewrite <- app_assoc. set (v := [EQUALS] ++ _).
  destruct (extract_name p rest Hp v) as [Hsk Hsp]; [right; by eexists|]. specialize (Hsp ltac:(done)).
  unfold extract_param. rewrite Hsk, Hsp. unfold param_ok in Hp. apply andb_true_iff in Hp as [Hn Hv]. destruct (p_name p) as [|c n]; [done|]. cbn [app] in Hsk |- *.
  unfold v. cbn [app]. rewrite (skip_nonspace EQUALS) by done. cbn [Z.eqb Pos.eqb EQUALS negb].
  destruct (p_quoted p).
  - cbn [app]. rewrite <- app_assoc. rewrite (skip_nonspace QUOTE) by done. cbn [Z.eqb Pos.eqb QUOTE]. apply forallb_Forall in Hv.
    rewrite (span_app _ (p_value p) ([QUOTE] ++ rest)) by (try done; intros ? ? [= <- _]; done). cbn [app].
    do 2 f_equal. destruct Hrest as [->|(r & ->)]; [done|]. rewrite skip_nonspace by done. done.
  - rewrite !andb_true_iff, !bool_decide_eq_true in Hv. destruct Hv as (((Hc & Hs) & Ht) & Hq). apply forallb_Forall in Hc.
    assert (Hsp' : span (λ c, negb (c =? 44)) (p_value p ++ rest) = (p_value p, rest)).
    { apply span_app; [done|]. intros c' q E. destruct Hrest as [->|(r & ->)]; [done|]. by injection E as <- _. }
    destruct (p_value p) as [|d val] eqn:Ev; cbn [app].
    + destruct Hrest as [->|(r & ->)]; [done|]. cbn [app] in *. rewrite skip_nonspace by done. cbn [Z.eqb Pos.eqb QUOTE]. by rewrite Hsp'.
    + assert (Hd : isspace d = false). { destruct (isspace d) eqn:E; [|done]. unfold skip_space in Hs. cbn [span] in Hs. rewrite E in Hs. destruct (span isspace val) as [a b] eqn:Es.
        pose proof (span_length isspace val) as Hl. rewrite Es in Hl. cbn [fst snd] in *. subst b. cbn [length] in Hl. lia. }
      rewrite skip_nonspace by done. apply negb_true_iff in Hq. rewrite Hq. cbn [app] in Hsp'. rewrite Hsp'. by rewrite Ht.
Qed.

Lemma extract_space p : extract_param (32 :: p) 44 = extract_param p 44.
Proof. unfold extract_param. replace (skip_space (32 :: p)) with (skip_space p); [done|]. unfold skip_space. cbn. by destruct (span isspace p). Qed.
Lemma extract_all_space fuel p : extract_all fuel (32 :: p) = extract_all fuel p.
Proof. destruct fuel; [done|]. cbn [extract_all]. by rewrite extract_space. Qed.

Lemma extract_all_print fuel ps : forallb param_ok ps = true → (length (print_params ps) < fuel)%nat →
  extract_all fuel (print_params ps) = map (λ p, (p_name p, p_value p)) ps.
Proof.
  revert fuel. induction ps as [|p ps IH]; intros fuel Hps Hf; (destruct fuel as [|fuel]; [lia|]); [done|]. cbn [forallb] in Hps. apply andb_true_iff in Hps as [Hp Hps].
  destruct ps as [|p2 ps].
  - cbn [print_params extract_all map]. rewrite <- (app_nil_r (print_param p)), extract_print by (try done; by left). by destruct fuel.
  - change (print_params (p :: p2 :: ps)) with (print_param p ++ bytes ", " ++ print_params (p2 :: ps)) in *. cbn [extract_all map].
    rewrite extract_print by (try done; right; by eexists). cbn [after_separator app bytes]. f_equal.
    change (bytes ", " ++ print_params (p2 :: ps)) with (44 :: 32 :: print_params (p2 :: ps)) in *. cbn [after_separator]. rewrite extract_all_space.
    apply IH; [done|]. rewrite length_app in Hf. cbn [length] in Hf. lia.
Qed.

(** ** Names *)
Definition lower (s : list Z) : list Z := map tolower s.
Definition keys : list (list Z) := [bytes "realm"; bytes "opaque"; bytes "nonce"; bytes "qop"].
Definition same_name (a b : list Z) : bool := bool_decide (lower a = lower b).

(** The value of the last parameter of this name. *)
Definition find_param (key : list Z) (ps : list param) (o : option (list Z)) : option (list Z) :=
  fold_left (λ o p, if same_name (p_name p) key then Some (p_value p) else o) ps o.
Definition challenge_of (ps : list param) : challenge :=
  mkchal (find_param (bytes "realm") ps None) (find_param (bytes "opaque") ps None) (find_param (bytes "nonce") ps None) (find_param (bytes "qop") ps None).

(** A name that is short for one of the keys is that key. *)
Definition clear_name (n : list Z) : bool := forallb (λ k, negb (strncaseeq n k (length n)) || same_name n k) keys.

Lemma strncaseeq_same n k : same_name n k = true → strncaseeq n k (length n) = true.
Proof.
  intros E%bool_decide_eq_true. revert k E. induction n as [|c n IH]; intros [|d k] E; try done. unfold lower in E. cbn in E. injection E as Ec E. cbn.
  rewrite Ec, Z.eqb_refl. by apply IH.
Qed.
Lemma clear_exact n k : clear_name n = true → k ∈ keys → strncaseeq n k (length n) = same_name n k.
Proof.
  intros Hc Hk. unfold clear_name in Hc. rewrite forallb_forall in Hc. specialize (Hc k ltac:(by apply list_elem_of_In)).
  destruct (same_name n k) eqn:E; [by apply strncaseeq_same|]. destruct (strncaseeq n k (length n)); done.
Qed.
Lemma same_name_other n k k' : same_name n k = true → lower k ≠ lower k' → same_name n k' = false.
Proof. intros E%bool_decide_eq_true Hne. apply bool_decide_eq_false. congruence. Qed.

Lemma collect_params ps c : forallb (λ p, clear_name (p_name p)) ps = true →
  collect (map (λ p, (p_name p, p_value p)) ps) c =
  mkchal (find_param (bytes "realm") ps (realm c)) (find_param (bytes "opaque") ps (opaque c)) (find_param (bytes "nonce") ps (nonce c)) (find_param (bytes "qop") ps (qop c)).
Proof.
  revert c. induction ps as [|p ps IH]; intros c Hps; [by destruct c|]. cbn [forallb] in Hps. apply andb_true_iff in Hps as [Hp Hps].
  unfold collect, find_param in *. cbn [map fold_left fst snd]. rewrite IH by done. unfold take_param. cbn zeta.
  rewrite !(clear_exact (p_name p)) by (try done; unfold keys; rewrite !elem_of_cons; tauto).
  destruct (same_name (p_name p) (bytes "realm")) eqn:E1.
  { rewrite !(same_name_other _ _ _ E1) by done. done. }
  destruct (same_name (p_name p) (bytes "opaque")) eqn:E2.
  { rewrite !(same_name_other _ _ _ E2) by done. done. }
  destruct (same_name (p_name p) (bytes "nonce")) eqn:E3.
  { rewrite !(same_name_other _ _ _ E3) by done. done. }
  destruct (same_name (p_name p) (bytes "qop")); done.
Qed.

(** [digest_authentication_encode] answers a Digest challenge as RFC 2617
    says.  For every challenge line it returns: no access is out of bounds, and
    the buffer it allocates has room for the answer.  For a challenge written as a
    list of parameters, in quotes or not, names in upper or lower case, it answers
    with the credentials computed from the realm, nonce, qop and opaque of the
    challenge, the response being the MD5 digest of RFC 2617, with or without qop;
    and it gives no answer exactly when realm or nonce is missing or the qop is
    not the single word auth, also when it is a list that offers auth, which
    RFC 2617 would have it answer. *)
Theorem digest_answers_challenge user passwd method uri count cnonce :
  Forall (λ d, zlen d < MD5_PIECE) [user; passwd; method; uri; cnonce] →
  (∀ line, zlen line < MD5_PIECE → ∃ r, digest_authentication_encode line (Some user) (Some passwd) method uri count cnonce = Ret r) ∧
  ∀ ps, forallb param_ok ps = true → forallb (λ p, clear_name (p_name p)) ps = true → zlen (print_params ps) < MD5_PIECE →
    digest_authentication_encode (print_params ps) (Some user) (Some passwd) method uri count cnonce =
    Ret (digest_answer (challenge_of ps) user passwd method uri count cnonce).
Proof.
  intros Hs. assert (H : ∀ line, zlen line < MD5_PIECE → Forall (λ d, zlen d < MD5_PIECE) [line; user; passwd; method; uri; cnonce]) by (intros; by constructor).
  split; [intros line Hl; rewrite encode_answer by auto; by eexists|]. intros ps Hok Hcl Hl. rewrite encode_answer by auto.
  rewrite extract_all_print by (try done; lia). by rewrite collect_params.
Qed.

(** The example of RFC 2617, section 3.5, with the qop of the challenge. *)
Definition rfc_challenge_qop (q : list Z) : list param :=
  [mkparam (bytes "realm") (bytes "testrealm@host.com") true; mkparam (bytes "qop") q true;
   mkparam (bytes "nonce") (bytes "dcd98b7102dd2f0e8b11d0f600bfb0c093") true; mkparam (bytes "opaque") (bytes "5ccc069c403ebaf9f0171e9517f40e41") true;
   mkparam (bytes "algorithm") (bytes "MD5") false].
Definition rfc_challenge : list param := rfc_challenge_qop (bytes "auth").

(** The challenge as RFC 2617 prints it offers auth and auth-int.  The RFC answers
    it as it answers the challenge that offers auth alone; the source does not. *)
Example rfc_list_refused :
  let answer c := rfc_answer (challenge_of c) (bytes "Mufasa") (bytes "Circle Of Life") (bytes "GET") (bytes "/dir/index.html") 1 (bytes "0a4f113b") in
  let c := rfc_challenge_qop (bytes "auth,auth-int") in
  answer c = answer rfc_challenge ∧ qop_list (challenge_of c) = true ∧
  digest_authentication_encode (print_params c) (Some (bytes "Mufasa")) (Some (bytes "Circle Of Life")) (bytes "GET") (bytes "/dir/index.html") 1 (bytes "0a4f113b") = Ret None.
Proof. vm_compute. done. Qed.

Lemma digest_answers_challenge_witness : ∃ a b,
  digest_authentication_encode (print_params rfc_challenge) (Some (bytes "Mufasa")) (Some (bytes "Circle Of Life")) (bytes "GET") (bytes "/dir/index.html") 1 (bytes "0a4f113b") =
  Ret (Some (a ++ bytes "6629fae49393a05397450978507c4ef1" ++ b)).
Proof.
  destruct (digest_answers_challenge (bytes "Mufasa") (bytes "Circle Of Life") (bytes "GET") (bytes "/dir/index.html") 1 (bytes "0a4f113b")) as [_ H].
  { repeat (apply Forall_cons_2; [vm_compute; reflexivity|]). apply Forall_nil_2. }
  rewrite (H rfc_challenge) by (vm_compute; reflexivity).
  set (h := digest_answer _ _ _ _ _ _ _). assert (Eh : h = Some (match h with Some s => s | None => [] end)) by (vm_compute; reflexivity).
  exists (take 124 (match h with Some s => s | None => [] end)), (drop 156 (match h with Some s => s | None => [] end)). rewrite Eh at 1. apply f_equal, f_equal. vm_compute. reflexivity.
Defined.

(** A name is compared up to its own length: [n] is taken for [nonce]. *)
Example short_name_taken :
  digest_authentication_encode (bytes "realm=a, nonce=b, n=c") (Some (bytes "u")) (Some (bytes "p")) (bytes "GET") (bytes "/") 1 (bytes "x") =
  digest_authentication_encode (bytes "realm=a, nonce=c") (Some (bytes "u")) (Some (bytes "p")) (bytes "GET") (bytes "/") 1 (bytes "x").
Proof. vm_compute. reflexivity. Qed.

(** ** The Basic scheme *)
Lemma basic_ok user passwd : bytes_ok user → bytes_ok passwd → zlen user + 1 + zlen passwd < UINT_MAX / 4 →
  basic_authentication_encode user passwd = Ret (Some (spec_encode (user ++ bytes ":" ++ passwd) ++ [0])).
Proof.
  intros Hu Hp Hl. unfold basic_authentication_encode. set (pair := user ++ bytes ":" ++ passwd). assert (Hpl : zlen pair = zlen user + 1 + zlen passwd) by (unfold pair; rewrite !length_app; cbn; lia).
  rewrite <- Hpl. pose proof (put_string_at [] (replicate (Z.to_nat (zlen pair + 1)) 0) pair) as E. cbn [app length] in E. change (Z.of_nat 0) with 0 in E.
  rewrite E, bind_Ret by (rewrite length_replicate; lia). f_equal. unfold redsocks_base64_encode, base64_encode. rewrite take_app_length' by lia.
  pose proof (base64_encode_eq pair (BASE64_SIZE (zlen pair)) (zlen pair)) as Hb. unfold base64_encode in Hb. rewrite take_ge in Hb by lia.
  rewrite Z.ltb_irrefl in Hb. rewrite <- Hb; [by rewrite Z.ltb_irrefl| |done|lia]. apply Forall_app_2; [done|]. apply Forall_app_2; [by apply bytes_okb_ok|done].
Qed.
