(* ===== verification/Proto.v ===== *)
(** * Handshakes as abstract processes

    A proxy handshake is specified as a process [proto] that reads a number of
    bytes, sends a message and goes on, accepts or rejects.  [proto_run] gives
    the meaning of a process on the peer's whole answer.  The handshakes of
    redsocks and of the SOCKS client of badvpn are proved against processes. *)
From S2P Require Import Prelude.

Inductive proto :=
| PAccept
| PReject
| PSend (m : list Z) (p : proto)
| PRead (n : nat) (k : list Z → proto).

(** [Accepted rest msgs]: [rest] follows the answer, [msgs] were sent. *)
Inductive verdict :=
| Accepted (rest msgs : list Z)
| Rejected
| Waiting (msgs : list Z).

Fixpoint proto_run (p : proto) (s msgs : list Z) : verdict :=
  match p with
  | PAccept => Accepted s msgs
  | PReject => Rejected
  | PSend m p' => proto_run p' s (msgs ++ m)
  | PRead n k =>
      if Nat.leb n (length s) then proto_run (k (take n s)) (drop n s) msgs else Waiting msgs
  end.

(** The messages a process sends before anything else, and the process after. *)
Fixpoint flush (p : proto) : list Z * proto :=
  match p with
  | PSend m p' => let '(m', q) := flush p' in (m ++ m', q)
  | _ => ([], p)
  end.

Lemma proto_run_flush p s msgs :
  proto_run p s msgs = proto_run (snd (flush p)) s (msgs ++ fst (flush p)).
Proof.
  revert msgs. induction p as [| |m p IH|n k _]; intros msgs; simpl; rewrite ?app_nil_r; [done..| |done].
  rewrite IH. destruct (flush p). simpl. by rewrite app_assoc.
Qed.

Lemma flush_not_send p m q : snd (flush p) ≠ PSend m q.
Proof. induction p; simpl; [done..| |done]. by destruct (flush p). Qed.
