(* ===== verification/Redsocks.v ===== *)
(** * redsocks: the client object, the handshake helpers and the two pumps

    Models redsocks.c (and the parts of libevent's bufferevents it drives).  A
    [client] holds its two bufferevents, the shutdown flags, the splice pump
    and the protocol's payload.  A handler returns [Alive] with the updated
    client or [Dropped] with the descriptors closed so far, in order: after
    [redsocks_drop_client] the client is freed, and code that would touch it
    again is a [Fault].  The bytes exchanged with the two sockets are recorded
    in [io].

    Results of system calls are arguments of the handlers.  [read_suspended] of
    libevent is derived: its callback on the input buffer keeps it equal to
    "the high watermark is set and reached". *)
From S2P Require Import Prelude.

Definition EV_READ : Z := 2.
Definition EV_WRITE : Z := 4.
Definition REDSOCKS_RELAY_HALFBUFF : Z := 4096.
Definition pump_active : Z := -1.

(** ** Bufferevents *)
Record bufferevent := Bev {
  bev_fd : Z;
  bev_input : list Z;
  bev_output : list Z;
  wm_read_low : Z; wm_read_high : Z;
  wm_write_low : Z; wm_write_high : Z;
  bev_enabled : Z }.

(** A fresh bufferevent is enabled for writing only. *)
Definition bufferevent_new (fd : Z) : bufferevent := Bev fd [] [] 0 0 0 0 EV_WRITE.

Definition set_input (i : list Z) (b : bufferevent) : bufferevent :=
  Bev (bev_fd b) i (bev_output b) (wm_read_low b) (wm_read_high b)
    (wm_write_low b) (wm_write_high b) (bev_enabled b).
Definition set_output (o : list Z) (b : bufferevent) : bufferevent :=
  Bev (bev_fd b) (bev_input b) o (wm_read_low b) (wm_read_high b)
    (wm_write_low b) (wm_write_high b) (bev_enabled b).
Definition set_fd (fd : Z) (b : bufferevent) : bufferevent :=
  Bev fd (bev_input b) (bev_output b) (wm_read_low b) (wm_read_high b)
    (wm_write_low b) (wm_write_high b) (bev_enabled b).

Definition bufferevent_enable (ev : Z) (b : bufferevent) : bufferevent :=
  Bev (bev_fd b) (bev_input b) (bev_output b) (wm_read_low b) (wm_read_high b)
    (wm_write_low b) (wm_write_high b) (Z.lor (bev_enabled b) ev).
Definition bufferevent_disable (ev : Z) (b : bufferevent) : bufferevent :=
  Bev (bev_fd b) (bev_input b) (bev_output b) (wm_read_low b) (wm_read_high b)
    (wm_write_low b) (wm_write_high b) (Z.land (bev_enabled b) (Z.lnot ev)).
Definition bufferevent_setwatermark (events low high : Z) (b : bufferevent) : bufferevent :=
  let w := negb (Z.land events EV_WRITE =? 0) in
  let r := negb (Z.land events EV_READ =? 0) in
  Bev (bev_fd b) (bev_input b) (bev_output b)
    (if r then low else wm_read_low b) (if r then high else wm_read_high b)
    (if w then low else wm_write_low b) (if w then high else wm_write_high b)
    (bev_enabled b).

Definition read_suspended (b : bufferevent) : bool :=
  negb (wm_read_high b =? 0) && (wm_read_high b <=? zlen (bev_input b)).

(** Data arrived on the socket: how much of the [k] bytes it offers is read,
    and the input afterwards. *)
Definition howmuch (b : bufferevent) (k : Z) : Z :=
  if wm_read_high b =? 0 then k else Z.min k (wm_read_high b - zlen (bev_input b)).

(** ** The splice pump *)
Record splice_pipe := Pipe { pi_read : Z; pi_write : Z; pi_size : Z; pi_data : list Z }.
Record event := Event { ev_fd : Z; ev_added : bool; ev_active : bool }.
Record redsocks_pump := Pump {
  request : splice_pipe; reply : splice_pipe;
  client_read : event; client_write : event; relay_read : event; relay_write : event }.

Definition no_event : event := Event (-1) false false.
Definition no_pipe : splice_pipe := Pipe (-1) (-1) 0 [].
Definition no_pump : redsocks_pump := Pump no_pipe no_pipe no_event no_event no_event no_event.

Definition event_add (e : event) : event := Event (ev_fd e) true (ev_active e).
Definition event_del (e : event) : event := Event (ev_fd e) false false.
Definition event_activate (e : event) : event := Event (ev_fd e) (ev_added e) true.

(** ** Clients *)
Record config := Config {
  login : option (list Z); password : option (list Z); use_splice : bool }.

Inductive relay_cbs := CbConnecting | CbSubsys | CbPump.

(** The two connections of a client. *)
Inductive side := SClient | SRelay.
Definition anti (s : side) : side := match s with SClient => SRelay | SRelay => SClient end.

(** What went over the two sockets, and the descriptors closed. *)
Record io_log := Io {
  to_relay : list Z; to_client : list Z; from_relay : list Z; from_client : list Z;
  wr_shut : list side; closed : list Z }.
Definition no_io : io_log := Io [] [] [] [] [] [].

Record redsocks_client (P : Type) := Client {
  instance : config;
  client : option bufferevent;
  relay : option bufferevent;
  destaddr : list Z * list Z;
  state : Z;
  client_evshut : Z;
  relay_evshut : Z;
  last_event : Z;
  cbs : relay_cbs;
  pump : redsocks_pump;
  payload : P;
  io : io_log }.
Arguments Client {P}.
Arguments instance {P}.
Arguments client {P}.
Arguments relay {P}.
Arguments destaddr {P}.
Arguments state {P}.
Arguments client_evshut {P}.
Arguments relay_evshut {P}.
Arguments last_event {P}.
Arguments cbs {P}.
Arguments pump {P}.
Arguments payload {P}.
Arguments io {P}.

Inductive hres (P : Type) :=
| Alive (c : redsocks_client P)
| Dropped (log : io_log).
Arguments Alive {P}.
Arguments Dropped {P}.

(** Calls outside the process that a handler makes: the time, whether a
    connect succeeded, and the descriptors of two [pipe2] calls. *)
Record env := Env { now : Z; connected_ok : bool; pipe_a : option (Z * Z); pipe_b : option (Z * Z) }.

Section Client.
Context {P : Type}.
Implicit Types c : redsocks_client P.

Definition set_client (b : option bufferevent) c : redsocks_client P :=
  Client (instance c) b (relay c) (destaddr c) (state c) (client_evshut c) (relay_evshut c)
    (last_event c) (cbs c) (pump c) (payload c) (io c).
Definition set_relay (b : option bufferevent) c : redsocks_client P :=
  Client (instance c) (client c) b (destaddr c) (state c) (client_evshut c) (relay_evshut c)
    (last_event c) (cbs c) (pump c) (payload c) (io c).
Definition set_state (s : Z) c : redsocks_client P :=
  Client (instance c) (client c) (relay c) (destaddr c) s (client_evshut c) (relay_evshut c)
    (last_event c) (cbs c) (pump c) (payload c) (io c).
Definition set_evshut (ce re : Z) c : redsocks_client P :=
  Client (instance c) (client c) (relay c) (destaddr c) (state c) ce re
    (last_event c) (cbs c) (pump c) (payload c) (io c).
Definition set_last_event (t : Z) c : redsocks_client P :=
  Client (instance c) (client c) (relay c) (destaddr c) (state c) (client_evshut c) (relay_evshut c)
    t (cbs c) (pump c) (payload c) (io c).
Definition set_cbs (k : relay_cbs) c : redsocks_client P :=
  Client (instance c) (client c) (relay c) (destaddr c) (state c) (client_evshut c) (relay_evshut c)
    (last_event c) k (pump c) (payload c) (io c).
Definition set_pump (p : redsocks_pump) c : redsocks_client P :=
  Client (instance c) (client c) (relay c) (destaddr c) (state c) (client_evshut c) (relay_evshut c)
    (last_event c) (cbs c) p (payload c) (io c).
Definition set_payload (p : P) c : redsocks_client P :=
  Client (instance c) (client c) (relay c) (destaddr c) (state c) (client_evshut c) (relay_evshut c)
    (last_event c) (cbs c) (pump c) p (io c).
Definition set_io (l : io_log) c : redsocks_client P :=
  Client (instance c) (client c) (relay c) (destaddr c) (state c) (client_evshut c) (relay_evshut c)
    (last_event c) (cbs c) (pump c) (payload c) l.

Definition bev (s : side) c : option bufferevent :=
  match s with SClient => client c | SRelay => relay c end.
Definition set_bev (s : side) (b : option bufferevent) c : redsocks_client P :=
  match s with SClient => set_client b c | SRelay => set_relay b c end.
Definition evshut (s : side) c : Z :=
  match s with SClient => client_evshut c | SRelay => relay_evshut c end.
(** Dereference of [client->client] or [client->relay]. *)
Definition get_bev (s : side) c : outcome bufferevent :=
  match bev s c with Some b => Ret b | None => Fault end.

Definition redsocks_touch_client (e : env) c : redsocks_client P := set_last_event (now e) c.

Definition shut_both c : bool :=
  (relay_evshut c =? Z.lor EV_READ EV_WRITE) && (client_evshut c =? Z.lor EV_READ EV_WRITE).

(** The descriptors closed when the client is dropped, in order. *)
Definition open_fds c : list Z :=
  let fd z := if z =? -1 then [] else [z] in
  (match client c with Some b => fd (bev_fd b) | None => [] end) ++
  (match relay c with Some b => fd (bev_fd b) | None => [] end) ++
  (if use_splice (instance c) then
     fd (pi_read (request (pump c))) ++ fd (pi_write (request (pump c))) ++
     fd (pi_read (reply (pump c))) ++ fd (pi_write (reply (pump c))) ++
     fd (ev_fd (client_read (pump c))) ++ fd (ev_fd (relay_read (pump c)))
   else []).

Definition add_closed (fds : list Z) (l : io_log) : io_log :=
  Io (to_relay l) (to_client l) (from_relay l) (from_client l) (wr_shut l) (closed l ++ fds).
Definition add_wr_shut (s : side) (l : io_log) : io_log :=
  Io (to_relay l) (to_client l) (from_relay l) (from_client l) (wr_shut l ++ [s]) (closed l).
Definition add_sent (s : side) (bs : list Z) (l : io_log) : io_log :=
  match s with
  | SRelay => Io (to_relay l ++ bs) (to_client l) (from_relay l) (from_client l) (wr_shut l) (closed l)
  | SClient => Io (to_relay l) (to_client l ++ bs) (from_relay l) (from_client l) (wr_shut l) (closed l)
  end.
Definition add_got (s : side) (bs : list Z) (l : io_log) : io_log :=
  match s with
  | SRelay => Io (to_relay l) (to_client l) (from_relay l ++ bs) (from_client l) (wr_shut l) (closed l)
  | SClient => Io (to_relay l) (to_client l) (from_relay l) (from_client l ++ bs) (wr_shut l) (closed l)
  end.

Definition redsocks_drop_client c : hres P := Dropped (add_closed (open_fds c) (io c)).

Definition SHUT_RD : Z := 0.
Definition SHUT_WR : Z := 1.
Definition SHUT_RDWR : Z := 2.

Definition redsocks_shutdown c (s : side) (how : Z) : outcome (hres P) :=
  let evhow :=
    if how =? SHUT_RD then EV_READ
    else if how =? SHUT_WR then EV_WRITE
    else Z.lor EV_READ EV_WRITE in
  b ← get_bev s c;
  let do_shutdown := negb ((how =? SHUT_RD) && negb (Z.land (evshut s c) EV_WRITE =? 0)) in
  let c := if do_shutdown && negb (how =? SHUT_RD) then set_io (add_wr_shut s (io c)) c else c in
  let c := set_bev s (Some (bufferevent_disable evhow b)) c in
  let c := match s with
           | SClient => set_evshut (Z.lor (client_evshut c) evhow) (relay_evshut c) c
           | SRelay => set_evshut (client_evshut c) (Z.lor (relay_evshut c) evhow) c
           end in
  if shut_both c then Ret (redsocks_drop_client c) else Ret (Alive c).

(** [what] is the event of libevent's error callback: end of file while
    reading, or anything else. *)
Inductive bev_event := ReadEof | OtherError.

Definition redsocks_event_error (e : env) c (s : side) (what : bev_event) : outcome (hres P) :=
  let c := redsocks_touch_client e c in
  match what with
  | ReadEof =>
      r ← redsocks_shutdown c s SHUT_RD;
      match r with
      | Dropped _ => Fault  (* [client->state] is read after [redsocks_shutdown] *)
      | Alive c =>
          match bev (anti s) c with
          | Some antiev =>
              if (state c =? pump_active) && (zlen (bev_output antiev) =? 0)
              then redsocks_shutdown c (anti s) SHUT_WR
              else Ret (Alive c)
          | None => Ret (Alive c)
          end
      end
  | OtherError => Ret (redsocks_drop_client c)
  end.

(** ** Handshake helpers *)
Definition sizes_equal (a b : Z) : bool := a =? b.
Definition sizes_greater_equal (a b : Z) : bool := b <=? a.

(** Read [expected] bytes of the relay's input: the data and the client
    without them, or the client is dropped. *)
Definition redsocks_read_expected c (comparator : Z → Z → bool) (expected : Z)
    : outcome (list Z * redsocks_client P + hres P) :=
  b ← get_bev SRelay c;
  if comparator (zlen (bev_input b)) expected then
    Ret (inl (take (Z.to_nat expected) (bev_input b),
              set_relay (Some (set_input (drop (Z.to_nat expected) (bev_input b)) b)) c))
  else Ret (inr (redsocks_drop_client c)).

(** [mkmessage] is [None] for NULL; it returns [None] when it has no memory. *)
Definition message_maker : Type := redsocks_client P → outcome (option (list Z)).

(** The message appended to the output, when there is one. *)
Definition write_message c (mkmessage : option message_maker) (b : bufferevent)
    : outcome (option bufferevent) :=
  match mkmessage with
  | None => Ret (Some b)
  | Some mk =>
      buff ← mk c;
      match buff with
      | Some m => Ret (Some (set_output (bev_output b ++ m) b))
      | None => Ret None
      end
  end.

Definition redsocks_write_helper_ex c (mkmessage : option message_maker)
    (st wm_low wm_high : Z) : outcome (hres P) :=
  b ← get_bev SRelay c;
  written ← write_message c mkmessage b;
  match written with
  | Some b =>
      let c := set_state st c in
      Ret (Alive (set_relay (Some (bufferevent_enable EV_READ
                                    (bufferevent_setwatermark EV_READ wm_low wm_high b))) c))
  | None => Ret (redsocks_drop_client c)
  end.

Definition redsocks_write_helper c mkmessage (st wm_only : Z) : outcome (hres P) :=
  redsocks_write_helper_ex c mkmessage st wm_only wm_only.

(** ** The buffer pump *)
Definition redsocks_relay_readcb c (from to : side) : outcome (hres P) :=
  f ← get_bev from c;
  t ← get_bev to c;
  if zlen (bev_output t) <? wm_write_high t then
    Ret (Alive (set_bev to (Some (set_output (bev_output t ++ bev_input f) t))
                 (set_bev from (Some (set_input [] f)) c)))
  else if negb (Z.land (bev_enabled f) EV_READ =? 0) then
    Ret (Alive (set_bev from (Some (bufferevent_disable EV_READ f)) c))
  else Ret (Alive c).

Definition redsocks_relay_writecb c (from to : side) : outcome (hres P) :=
  f ← get_bev from c;
  t ← get_bev to c;
  let from_eof := negb (Z.land (evshut from c) EV_READ =? 0) in
  if (zlen (bev_input f) =? 0) && from_eof then redsocks_shutdown c to SHUT_WR
  else if zlen (bev_output t) <? wm_write_high t then
    let t := set_output (bev_output t ++ bev_input f) t in
    let f := set_input [] f in
    let f := if negb from_eof && (Z.land (bev_enabled f) EV_READ =? 0)
             then bufferevent_enable EV_READ f else f in
    Ret (Alive (set_bev to (Some t) (set_bev from (Some f) c)))
  else Ret (Alive c).

Definition redsocks_start_bufferpump c : outcome (redsocks_client P) :=
  cl ← get_bev SClient c;
  rl ← get_bev SRelay c;
  let both := Z.lor EV_READ EV_WRITE in
  let cl := bufferevent_setwatermark both 0 REDSOCKS_RELAY_HALFBUFF cl in
  let rl := bufferevent_setwatermark both 0 REDSOCKS_RELAY_HALFBUFF rl in
  let cl := bufferevent_enable (Z.land both (Z.lnot (client_evshut c))) cl in
  let rl := bufferevent_enable (Z.land both (Z.lnot (relay_evshut c))) rl in
  Ret (set_cbs CbPump (set_relay (Some rl) (set_client (Some cl) c))).

(** ** The splice pump *)

(** [pipe2] fills the two descriptors of a pipe, or fails. *)
Definition pipe2 (r : option (Z * Z)) (p : splice_pipe) : splice_pipe :=
  match r with Some (rd, wr) => Pipe rd wr (pi_size p) (pi_data p) | None => p end.

Definition redsocks_start_splicepump (e : env) c : outcome (redsocks_client P * bool) :=
  let both := Z.lor EV_READ EV_WRITE in
  cl ← get_bev SClient c;
  rl ← get_bev SRelay c;
  let cl := bufferevent_disable both cl in
  let rl := bufferevent_disable both rl in
  let p := pump c in
  let p := Pump (pipe2 (pipe_a e) (request p)) (reply p)
             (client_read p) (client_write p) (relay_read p) (relay_write p) in
  let c := set_pump p (set_relay (Some rl) (set_client (Some cl) c)) in
  if decide (pipe_a e = None) then Ret (c, false) else
  let p := Pump (request p) (pipe2 (pipe_b e) (reply p))
             (client_read p) (client_write p) (relay_read p) (relay_write p) in
  let c := set_pump p c in
  if decide (pipe_b e = None) then Ret (c, false) else
  let p := Pump (request p) (reply p)
             (event_add (Event (bev_fd cl) false false))
             (event_activate (Event (bev_fd cl) false false))
             (event_add (Event (bev_fd rl) false false))
             (event_activate (Event (bev_fd rl) false false)) in
  Ret (set_pump p (set_client (Some (set_fd (-1) cl)) (set_relay (Some (set_fd (-1) rl)) c)), true).

Definition redsocks_start_relay (e : env) c : outcome (hres P) :=
  let c := set_state pump_active c in
  if use_splice (instance c) then
    '(c, ok) ← redsocks_start_splicepump e c;
    if (ok : bool) then Ret (Alive c) else Ret (redsocks_drop_client c)
  else c ← redsocks_start_bufferpump c; Ret (Alive c).

Definition bufferevent_free_unused (b : option bufferevent) : option bufferevent :=
  match b with
  | Some v => if (zlen (bev_input v) =? 0) && (zlen (bev_output v) =? 0) then None else Some v
  | None => None
  end.

Definition redsocks_touch_pump (e : env) c : redsocks_client P :=
  let c := redsocks_touch_client e c in
  let c := set_client (bufferevent_free_unused (client c)) c in
  set_relay (bufferevent_free_unused (relay c)) c.

(** Result of a write or of a splice: would block, error, or [n] bytes moved. *)
Inductive io_res := IoBlock | IoErr | IoDone (n : Z).

(** The pointers of [redsplice_write_ctx], as the values they point to, with
    the bytes written to the output socket. *)
Record redsplice_write_ctx := WCtx {
  ebsrc0 : option (list Z); ebsrc1 : option (list Z);
  pisrc : splice_pipe;
  wevsrc : event; wevdst : event;
  wshut_src : Z; wshut_dst : Z;
  wr_out : list Z; wr_closed : list Z; wr_eof : bool }.


(** Where the draining of the sources stops: the error path, or the label
    [decide] with the values of [has_data] and [can_write]. *)
Inductive drain := DrainErr | Decide (has_data can_write : bool) | DrainNext (has_data : bool).

(** One source of [avail] bytes: what is left of it, what was written. *)
Definition drain_source (src : list Z) (r : io_res)
    : list Z * list Z * drain :=
  if zlen src =? 0 then (src, [], DrainNext false)
  else match r with
       | IoBlock => (src, [], Decide true false)
       | IoErr => (src, [], DrainErr)
       | IoDone n =>
           let n := Z.max 0 (Z.min n (zlen src)) in
           (drop (Z.to_nat n) src, take (Z.to_nat n) src,
            if zlen src =? n then DrainNext false else Decide true false)
       end.

Definition drain_evbuffer (eb : option (list Z)) (has_data : bool) (r : io_res)
    : option (list Z) * list Z * drain :=
  match eb with
  | None => (None, [], DrainNext has_data)
  | Some src => let '(l, o, d) := drain_source src r in (Some l, o, d)
  end.

Definition drain_pipe (p : splice_pipe) (r : io_res) : splice_pipe * list Z * drain :=
  if pi_size p =? 0 then (p, [], DrainNext false)
  else match r with
       | IoBlock => (p, [], Decide true false)
       | IoErr => (p, [], DrainErr)
       | IoDone n =>
           let n := Z.max 0 (Z.min n (pi_size p)) in
           (Pipe (pi_read p) (pi_write p) (pi_size p - n) (drop (Z.to_nat n) (pi_data p)),
            take (Z.to_nat n) (pi_data p),
            if pi_size p =? n then DrainNext false else Decide true false)
       end.

(** The two loops of [redsplice_write_cb]: the buffered data first, then the
    pipe; a short write jumps to [decide]. *)
Definition redsplice_drain (c : redsplice_write_ctx) (r0 r1 r2 : io_res)
    : redsplice_write_ctx * drain :=
  let '(e0, o0, d0) := drain_evbuffer (ebsrc0 c) false r0 in
  let c := WCtx e0 (ebsrc1 c) (pisrc c) (wevsrc c) (wevdst c) (wshut_src c) (wshut_dst c)
             (wr_out c ++ o0) (wr_closed c) (wr_eof c) in
  match d0 with
  | DrainNext h0 =>
      let '(e1, o1, d1) := drain_evbuffer (ebsrc1 c) h0 r1 in
      let c := WCtx (ebsrc0 c) e1 (pisrc c) (wevsrc c) (wevdst c) (wshut_src c) (wshut_dst c)
                 (wr_out c ++ o1) (wr_closed c) (wr_eof c) in
      match d1 with
      | DrainNext _ =>
          let '(p, o2, d2) := drain_pipe (pisrc c) r2 in
          (WCtx (ebsrc0 c) (ebsrc1 c) p (wevsrc c) (wevdst c) (wshut_src c) (wshut_dst c)
             (wr_out c ++ o2) (wr_closed c) (wr_eof c), d2)
      | d => (c, d)
      end
  | d => (c, d)
  end.

(** The code from the label [decide] on; [true]: the client is dropped. *)
Definition redsplice_decide (c : redsplice_write_ctx) (has_data can_write : bool)
    : redsplice_write_ctx * bool :=
  let eof := negb has_data && negb (Z.land (wshut_src c) EV_READ =? 0)
             && (Z.land (wshut_dst c) EV_WRITE =? 0) in
  let can_write := can_write && negb eof in
  let c := if eof then
             WCtx (ebsrc0 c) (ebsrc1 c) (Pipe (-1) (-1) (pi_size (pisrc c)) (pi_data (pisrc c)))
               (wevsrc c) (wevdst c) (wshut_src c) (Z.lor (wshut_dst c) EV_WRITE)
               (wr_out c) (wr_closed c ++ [pi_read (pisrc c); pi_write (pisrc c)]) true
           else c in
  if eof && (wshut_dst c =? Z.lor EV_READ EV_WRITE) && (wshut_src c =? Z.lor EV_READ EV_WRITE)
  then (c, true)
  else
    let '(es, ed) :=
      if negb can_write && has_data then (event_del (wevsrc c), event_add (wevdst c))
      else if can_write && negb has_data then (event_add (wevsrc c), event_del (wevdst c))
      else if negb can_write && negb has_data then (event_del (wevsrc c), event_del (wevdst c))
      else (wevsrc c, wevdst c) in
    (WCtx (ebsrc0 c) (ebsrc1 c) (pisrc c) es ed (wshut_src c) (wshut_dst c)
       (wr_out c) (wr_closed c) (wr_eof c), false).

Definition redsplice_write_cb (c : redsplice_write_ctx) (r0 r1 r2 : io_res)
    : redsplice_write_ctx * bool :=
  let '(c, d) := redsplice_drain c r0 r1 r2 in
  match d with
  | DrainErr => (c, true)
  | Decide h w => redsplice_decide c h w
  | DrainNext h => redsplice_decide c h true
  end.

(** The pointers of [redsplice_read_ctx]. *)
Record redsplice_read_ctx := RCtx {
  rdst : splice_pipe; revsrc : event; revdst : event; rshut_src : Z; rd_in : list Z }.

(** Result of the splice from a socket: would block, error, or bytes (none at
    end of file). *)
Inductive read_res := RdBlock | RdErr | RdData (bs : list Z).

Definition redsplice_read_cb (c : redsplice_read_ctx) (r : read_res) : redsplice_read_ctx * bool :=
  match r with
  | RdBlock => (RCtx (rdst c) (event_del (revsrc c)) (revdst c) (rshut_src c) (rd_in c), false)
  | RdErr => (c, true)
  | RdData bs =>
      let c :=
        if zlen bs =? 0 then
          RCtx (rdst c) (event_del (revsrc c)) (revdst c) (Z.lor (rshut_src c) EV_READ) (rd_in c)
        else
          RCtx (Pipe (pi_read (rdst c)) (pi_write (rdst c)) (pi_size (rdst c) + zlen bs)
                  (pi_data (rdst c) ++ bs))
            (revsrc c) (revdst c) (rshut_src c) (rd_in c ++ bs) in
      (RCtx (rdst c) (revsrc c) (event_activate (revdst c)) (rshut_src c) (rd_in c), false)
  end.

Definition redsplice_client_read (e : env) c (r : read_res) : hres P :=
  let c := redsocks_touch_pump e c in
  let p := pump c in
  let '(x, dropped) :=
    redsplice_read_cb (RCtx (request p) (client_read p) (relay_write p) (client_evshut c) []) r in
  let c := set_pump (Pump (rdst x) (reply p) (revsrc x) (client_write p) (relay_read p) (revdst x)) c in
  let c := set_evshut (rshut_src x) (relay_evshut c) c in
  let c := set_io (add_got SClient (rd_in x) (io c)) c in
  if (dropped : bool) then redsocks_drop_client c else Alive c.

Definition redsplice_relay_read (e : env) c (r : read_res) : hres P :=
  let c := redsocks_touch_pump e c in
  let p := pump c in
  let '(x, dropped) :=
    redsplice_read_cb (RCtx (reply p) (relay_read p) (client_write p) (relay_evshut c) []) r in
  let c := set_pump (Pump (request p) (rdst x) (client_read p) (revdst x) (revsrc x) (relay_write p)) c in
  let c := set_evshut (client_evshut c) (rshut_src x) c in
  let c := set_io (add_got SRelay (rd_in x) (io c)) c in
  if (dropped : bool) then redsocks_drop_client c else Alive c.

(** Buffers of a bufferevent that may have been freed. *)
Definition bev_output_of (b : option bufferevent) : option (list Z) := bev_output <$> b.
Definition bev_input_of (b : option bufferevent) : option (list Z) := bev_input <$> b.
Definition put_output (o : option (list Z)) (b : option bufferevent) : option bufferevent :=
  match b, o with Some v, Some l => Some (set_output l v) | _, _ => b end.
Definition put_input (i : option (list Z)) (b : option bufferevent) : option bufferevent :=
  match b, i with Some v, Some l => Some (set_input l v) | _, _ => b end.

Definition redsplice_relay_write (e : env) c (r0 r1 r2 : io_res) : hres P :=
  let c := redsocks_touch_pump e c in
  let p := pump c in
  let '(x, dropped) :=
    redsplice_write_cb (WCtx (bev_output_of (relay c)) (bev_input_of (client c)) (request p)
      (client_read p) (relay_write p) (client_evshut c) (relay_evshut c) [] [] false) r0 r1 r2 in
  let c := set_relay (put_output (ebsrc0 x) (relay c)) c in
  let c := set_client (put_input (ebsrc1 x) (client c)) c in
  let c := set_pump (Pump (pisrc x) (reply p) (wevsrc x) (client_write p) (relay_read p) (wevdst x)) c in
  let c := set_evshut (wshut_src x) (wshut_dst x) c in
  let l := add_closed (wr_closed x) (add_sent SRelay (wr_out x) (io c)) in
  let c := set_io (if wr_eof x then add_wr_shut SRelay l else l) c in
  if (dropped : bool) then redsocks_drop_client c else Alive c.

Definition redsplice_client_write (e : env) c (r0 r1 r2 : io_res) : hres P :=
  let c := redsocks_touch_pump e c in
  let p := pump c in
  let '(x, dropped) :=
    redsplice_write_cb (WCtx (bev_output_of (client c)) (bev_input_of (relay c)) (reply p)
      (relay_read p) (client_write p) (relay_evshut c) (client_evshut c) [] [] false) r0 r1 r2 in
  let c := set_client (put_output (ebsrc0 x) (client c)) c in
  let c := set_relay (put_input (ebsrc1 x) (relay c)) c in
  let c := set_pump (Pump (request p) (pisrc x) (client_read p) (wevdst x) (wevsrc x) (relay_write p)) c in
  let c := set_evshut (wshut_dst x) (wshut_src x) c in
  let l := add_closed (wr_closed x) (add_sent SClient (wr_out x) (io c)) in
  let c := set_io (if wr_eof x then add_wr_shut SClient l else l) c in
  if (dropped : bool) then redsocks_drop_client c else Alive c.

(** ** Protocol subsystems and the connection's life *)
Record relay_subsys := Subsys {
  ss_init : redsocks_client P → redsocks_client P;
  ss_readcb : env → redsocks_client P → outcome (hres P);
  ss_writecb : env → redsocks_client P → outcome (hres P) }.

Definition redsocks_relay_connected (ss : relay_subsys) (e : env) c : outcome (hres P) :=
  let c := redsocks_touch_client e c in
  if connected_ok e then ss_writecb ss e (set_cbs CbSubsys c)
  else Ret (redsocks_drop_client c).

(** [fd]: the connected socket and its bufferevent, or a failure. *)
Definition redsocks_connect_relay c (fd : option Z) : hres P :=
  match fd with
  | Some fd => Alive (set_relay (Some (bufferevent_enable EV_WRITE (bufferevent_new fd))) c)
  | None => redsocks_drop_client c
  end.

(** The end of [redsocks_accept_client]: the client object is built, its
    subsystem initialised, reading enabled and the relay connected. *)
Definition redsocks_accept_client (ss : relay_subsys) (e : env) (cfg : config) (p0 : P)
    (client_fd : Z) (dest : list Z * list Z) (relay_fd : option Z) : hres P :=
  let c := Client cfg None None dest 0 0 0 0 CbConnecting no_pump p0 no_io in
  let c := ss_init ss c in
  let c := redsocks_touch_client e c in
  let c := set_client (Some (bufferevent_enable EV_READ (bufferevent_new client_fd))) c in
  redsocks_connect_relay c relay_fd.

(** The user callbacks of the two bufferevents. *)
Definition run_readcb (ss : relay_subsys) (e : env) c (s : side) : outcome (hres P) :=
  match s, cbs c with
  | SRelay, CbConnecting => Ret (Alive c)
  | SRelay, CbSubsys => ss_readcb ss e c
  | SRelay, CbPump => redsocks_relay_readcb (redsocks_touch_client e c) SRelay SClient
  | SClient, CbPump => redsocks_relay_readcb (redsocks_touch_client e c) SClient SRelay
  | SClient, _ => Ret (Alive c)
  end.
Definition run_writecb (ss : relay_subsys) (e : env) c (s : side) : outcome (hres P) :=
  match s, cbs c with
  | SRelay, CbConnecting => redsocks_relay_connected ss e c
  | SRelay, CbSubsys => ss_writecb ss e c
  | SRelay, CbPump => redsocks_relay_writecb (redsocks_touch_client e c) SClient SRelay
  | SClient, CbPump => redsocks_relay_writecb (redsocks_touch_client e c) SRelay SClient
  | SClient, _ => Ret (Alive c)
  end.

(** libevent's read event on a socket that delivers [bs]: the input grows and
    the callback runs once the low watermark is reached. *)
Definition bufferevent_readcb (ss : relay_subsys) (e : env) c (s : side) (bs : list Z)
    : outcome (hres P) :=
  b ← get_bev s c;
  let b := set_input (bev_input b ++ bs) b in
  let c := set_io (add_got s bs (io c)) (set_bev s (Some b) c) in
  if wm_read_low b <=? zlen (bev_input b) then run_readcb ss e c s else Ret (Alive c).

(** libevent's write event on a socket that takes [n] bytes. *)
Definition bufferevent_writecb (ss : relay_subsys) (e : env) c (s : side) (n : Z)
    : outcome (hres P) :=
  b ← get_bev s c;
  let n := Z.to_nat n in
  let c := set_io (add_sent s (take n (bev_output b)) (io c))
             (set_bev s (Some (set_output (drop n (bev_output b)) b)) c) in
  if zlen (drop n (bev_output b)) <=? wm_write_low b then run_writecb ss e c s else Ret (Alive c).

(** libevent's end of file: reading is disabled, then the error callback runs. *)
Definition bufferevent_eof (e : env) c (s : side) : outcome (hres P) :=
  b ← get_bev s c;
  redsocks_event_error e (set_bev s (Some (bufferevent_disable EV_READ b)) c) s ReadEof.

(** ** Runs of the handshake

    Events of the loop while the handshake runs, in any order: the relay's
    socket offers up to [k] bytes, it takes [n] bytes, the client's socket
    delivers [bs].  [net] is what the proxy has sent and is not yet read. *)
Inductive hs_event := HRead (k : Z) | HWrite (n : Z) | HClient (bs : list Z).

Definition hs_step (ss : relay_subsys) (e : env) (ev : hs_event) c (net : list Z)
    : outcome (hres P * list Z) :=
  match ev with
  | HRead k =>
      b ← get_bev SRelay c;
      let n := Z.to_nat (howmuch b k) in
      if (Z.land (bev_enabled b) EV_READ =? 0) || read_suspended b || (zlen (take n net) =? 0)
      then Ret (Alive c, net)
      else r ← bufferevent_readcb ss e c SRelay (take n net); Ret (r, drop n net)
  | HWrite n =>
      b ← get_bev SRelay c;
      if Z.land (bev_enabled b) EV_WRITE =? 0 then Ret (Alive c, net)
      else r ← bufferevent_writecb ss e c SRelay n; Ret (r, net)
  | HClient bs =>
      b ← get_bev SClient c;
      if Z.land (bev_enabled b) EV_READ =? 0 then Ret (Alive c, net)
      else r ← bufferevent_readcb ss e c SClient bs; Ret (r, net)
  end.

(** Run events until the pump starts or the client is dropped. *)
Fixpoint hs_run (ss : relay_subsys) (evs : list (env * hs_event)) c (net : list Z)
    : outcome (hres P * list Z) :=
  match evs with
  | [] => Ret (Alive c, net)
  | (e, ev) :: evs' =>
      if state c =? pump_active then Ret (Alive c, net)
      else '(r, net') ← hs_step ss e ev c net;
           match r with
           | Dropped l => Ret (Dropped l, net')
           | Alive c' => hs_run ss evs' c' net'
           end
  end.

(** The connection from the accepted client to the connected relay. *)
Definition hs_start (ss : relay_subsys) (e : env) (cfg : config) (p0 : P) (client_fd relay_fd : Z)
    (dest : list Z * list Z) : outcome (hres P) :=
  match redsocks_accept_client ss e cfg p0 client_fd dest (Some relay_fd) with
  | Alive c => bufferevent_writecb ss e c SRelay 0
  | Dropped l => Ret (Dropped l)
  end.
End Client.
Arguments relay_subsys : clear implicits.
