(* ===== verification/Handshake.v ===== *)
(** * redsocks: the event loop of a handshake

    A proxy handshake is specified as a process of Proto.  The class
    [HandshakeSim] states what a protocol subsystem (its read and write
    callbacks) promises to the event loop; [hs_run_refines] shows that the
    loop, with the answer cut into arbitrary pieces and interleaved with writes
    and with data from the client, computes what [proto_run] says. *)
From S2P Require Import Prelude Proto Redsocks.

(** ** The helpers of redsocks.c on the awaited bytes *)
Section Helpers.
Context {P : Type}.
Implicit Types c : redsocks_client P.

Lemma read_expected_exact c b cmp n :
  relay c = Some b → zlen (bev_input b) = n → cmp n n = true →
  redsocks_read_expected c cmp n
  = Ret (inl (bev_input b, set_relay (Some (set_input [] b)) c)).
Proof.
  intros Hr Hn Hc. unfold redsocks_read_expected, get_bev. cbn [bev]. rewrite Hr, bind_Ret, Hn, Hc.
  by rewrite firstn_all2, skipn_all2 by lia.
Qed.

Lemma write_helper_msg c b mk m st n :
  relay c = Some b → mk c = Ret (Some m) →
  redsocks_write_helper c (Some mk) st n
  = Ret (Alive (set_relay (Some (bufferevent_enable EV_READ (bufferevent_setwatermark EV_READ n n
                                   (set_output (bev_output b ++ m) b)))) (set_state st c))).
Proof.
  intros Hr Hm. unfold redsocks_write_helper, redsocks_write_helper_ex, get_bev, write_message.
  cbn [bev]. by rewrite Hr, bind_Ret, Hm.
Qed.

Lemma write_helper_none c b st n :
  relay c = Some b →
  redsocks_write_helper c None st n
  = Ret (Alive (set_relay (Some (bufferevent_enable EV_READ (bufferevent_setwatermark EV_READ n n b)))
                  (set_state st c))).
Proof.
  intros Hr. unfold redsocks_write_helper, redsocks_write_helper_ex, get_bev, write_message.
  cbn [bev]. by rewrite Hr, bind_Ret.
Qed.

(** The client and its relay once the relay is connected. *)
Definition fresh_client (e : env) (cfg : config) (st : Z) (p : P) (cfd rfd : Z)
    (dest : list Z * list Z) : redsocks_client P :=
  Client cfg (Some (bufferevent_enable EV_READ (bufferevent_new cfd)))
    (Some (bufferevent_enable EV_WRITE (bufferevent_new rfd))) dest st 0 0 (now e) CbSubsys no_pump p no_io.

Lemma hs_start_eq (ss : relay_subsys P) e cfg p0 cfd rfd dest st p :
  connected_ok e = true →
  (∀ c, instance c = cfg → payload c = p0 → ss_init ss c = set_payload p (set_state st c)) →
  hs_start ss e cfg p0 cfd rfd dest = ss_writecb ss e (fresh_client e cfg st p cfd rfd dest).
Proof.
  intros He Hi. destruct e as [t ok pa pb]. cbn [connected_ok] in He. subst ok.
  unfold hs_start, redsocks_accept_client. rewrite Hi by done. reflexivity.
Qed.

Lemma enable_read_on z : Z.land (Z.lor z EV_READ) EV_READ ≠ 0.
Proof.
  rewrite Z.land_lor_distr_l, Z.land_diag. intros H. apply Z.lor_eq_0_iff in H as [_ H]. discriminate.
Qed.
End Helpers.
#[export] Hint Resolve enable_read_on : core.

Section Handshake.
Context {P : Type} (ss : relay_subsys P).
Implicit Types c : redsocks_client P.

(** The fields a handshake depends on. *)
Definition same_core c c' : Prop :=
  instance c' = instance c ∧ destaddr c' = destaddr c ∧ state c' = state c ∧ payload c' = payload c.

Definition pipes_ok (cfg : config) (e : env) : Prop :=
  use_splice cfg = true →
  ∃ a b d f, pipe_a e = Some (a, b) ∧ pipe_b e = Some (d, f) ∧ 0 ≤ a ∧ 0 ≤ b ∧ 0 ≤ d ∧ 0 ≤ f.

(** [b'] is the relay's bufferevent after [m] was sent and [n] bytes are awaited. *)
Definition awaits (b b' : bufferevent) (m : list Z) (n : nat) : Prop :=
  bev_fd b' = bev_fd b ∧ bev_input b' = [] ∧ bev_output b' = bev_output b ++ m ∧
  wm_read_low b' = Z.of_nat n ∧ wm_read_high b' = Z.of_nat n ∧
  Z.land (bev_enabled b') EV_READ ≠ 0.

(** What the client keeps when only its relay side changed. *)
Definition same_rest c c' : Prop :=
  instance c' = instance c ∧ client c' = client c ∧ cbs c' = cbs c ∧ io c' = io c ∧
  pump c' = pump c ∧ client_evshut c' = client_evshut c ∧ relay_evshut c' = relay_evshut c.

(** The pump is running and no buffered byte was lost. *)
Definition running c c' (b : bufferevent) : Prop :=
  state c' = pump_active ∧ io c' = io c ∧
  (∃ b', relay c' = Some b' ∧ bev_input b' = [] ∧ bev_output b' = bev_output b) ∧
  (∃ bc bc', client c = Some bc ∧ client c' = Some bc' ∧ bev_input bc' = bev_input bc).

(** The callback consumed the input, queued [m] and started the pump. *)
Definition pumping (e : env) c c' (b : bufferevent) (m : list Z) : Prop :=
  ∃ c2 b2, redsocks_start_relay e c2 = Ret (Alive c') ∧ same_rest c c2 ∧ relay c2 = Some b2 ∧
           bev_fd b2 = bev_fd b ∧ bev_input b2 = [] ∧ bev_output b2 = bev_output b ++ m ∧
           running c2 c' b2.

Lemma start_relay_pumps e c b bc :
  relay c = Some b → client c = Some bc → bev_input b = [] → pipes_ok (instance c) e →
  ∃ c', redsocks_start_relay e c = Ret (Alive c') ∧ running c c' b.
Proof.
  intros Hr Hc Hi Hp. unfold redsocks_start_relay. cbn [instance set_state].
  destruct (use_splice (instance c)) eqn:Eu.
  - destruct (Hp Eu) as (p1 & p2 & p3 & p4 & Ha & Hb & _).
    unfold redsocks_start_splicepump, get_bev. cbn [bev client relay set_state].
    rewrite Hr, Hc, !bind_Ret, Ha, Hb. rewrite decide_False, decide_False by done. rewrite bind_Ret.
    eexists. split; [done|].
    split_and!; [done..| |]; [eexists; cbn; eauto|eexists _, _; cbn; eauto].
  - unfold redsocks_start_bufferpump, get_bev. cbn [bev client relay set_state].
    rewrite Hr, Hc, !bind_Ret. eexists. split; [done|].
    split_and!; [done..| |]; [eexists; cbn; eauto|eexists _, _; cbn; eauto].
Qed.

(** A read callback that returned [rd] did what the process [p] does. *)
Definition read_result (sim : redsocks_client P → proto → Prop) (e : env) (rd : outcome (hres P)) c b
    (p : proto) : Prop :=
  match flush p with
  | (_, PReject) => ∃ l, rd = Ret (Dropped l)
  | (m, PAccept) => ∃ c', rd = Ret (Alive c') ∧ pumping e c c' b m
  | (m, PRead n' k') =>
      ∃ c' b', rd = Ret (Alive c') ∧ sim c' (PRead n' k') ∧ same_rest c c' ∧
               relay c' = Some b' ∧ awaits b b' m n'
  | (_, PSend _ _) => False
  end.

(** The helper queued [m] and waits for [n] more bytes. *)
Lemma write_helper_result (sim : redsocks_client P → proto → Prop) e c c2 b
    (mk : option message_maker) m st n k :
  relay c2 = Some (set_input [] b) → same_rest c c2 →
  match mk with Some f => f c2 = Ret (Some m) | None => m = [] end →
  (∀ br, sim (set_relay br (set_state st c2)) (PRead n k)) →
  read_result sim e (redsocks_write_helper c2 mk st (Z.of_nat n)) c b (PSend m (PRead n k)).
Proof.
  intros Hr Hrest Hm Hs. unfold read_result. cbn [flush]. rewrite app_nil_r.
  destruct mk as [mk|].
  - rewrite (write_helper_msg _ (set_input [] b) mk m) by done. eexists _, _.
    split_and!; [done|apply Hs|apply Hrest..|done|]. split_and!; [done..|]. apply enable_read_on.
  - rewrite (write_helper_none _ (set_input [] b)) by done. eexists _, _. subst m.
    split_and!; [done|apply Hs|apply Hrest..|done|].
    split_and!; [done|done|by rewrite app_nil_r|done..|]. apply enable_read_on.
Qed.

Class HandshakeSim (sim : redsocks_client P → proto → Prop) : Prop := {
  sim_frame c c' p : same_core c c' → sim c p → sim c' p;
  sim_waits c n k : sim c (PRead n k) → (0 < n)%nat ∧ state c ≠ pump_active;
  sim_read e c b n k :
    sim c (PRead n k) → relay c = Some b → client c ≠ None → length (bev_input b) = n →
    Forall is_byte (bev_input b) → pipes_ok (instance c) e →
    read_result sim e (ss_readcb ss e c) c b (k (bev_input b));
  sim_write e c b p :
    sim c p → relay c = Some b →
    ∃ c' b', ss_writecb ss e c = Ret (Alive c') ∧ same_core c c' ∧ same_rest c c' ∧
             relay c' = Some b' ∧ bev_fd b' = bev_fd b ∧
             bev_input b' = bev_input b ∧ bev_output b' = bev_output b ∧
             wm_read_low b' = wm_read_low b ∧ wm_read_high b' = wm_read_high b ∧
             Z.land (bev_enabled b') EV_READ = Z.land (bev_enabled b) EV_READ }.

Context (sim : redsocks_client P → proto → Prop) `{!HandshakeSim sim}.

(** The two sockets, all the proxy sends, and what is known of the environment of
    each event. *)
Context (cfd rfd : Z) (full : list Z) (seen : env → Prop).

(** What no event of the handshake touches. *)
Definition hs_quiet c (net : list Z) : Prop :=
  pump c = no_pump ∧ client_evshut c = 0 ∧ relay_evshut c = 0 ∧ to_client (io c) = [] ∧
  wr_shut (io c) = [] ∧ closed (io c) = [] ∧ from_relay (io c) ++ net = full.

(** The client at the end of its handshake: the answer is consumed, the
    messages are sent or queued, the client's early bytes are buffered. *)
Definition handshake_done c (msgs hb : list Z) : Prop :=
  pump c = no_pump ∧ client_evshut c = 0 ∧ relay_evshut c = 0 ∧ to_client (io c) = [] ∧
  wr_shut (io c) = [] ∧ closed (io c) = [] ∧ from_relay (io c) = hb ∧
  (∃ b, relay c = Some b ∧ bev_fd b = rfd ∧ bev_input b = [] ∧ to_relay (io c) ++ bev_output b = msgs) ∧
  (∃ b, client c = Some b ∧ bev_fd b = cfd ∧ bev_output b = [] ∧ bev_input b = from_client (io c)).

(** The client waits in the process [PRead n k], its input below the mark, and
    the process decides [v] on the input and what is still to come. *)
Definition hs_inv (cfg : config) (v : verdict) c (net : list Z) : Prop :=
  ∃ n k b bc,
    sim c (PRead n k) ∧ instance c = cfg ∧ cbs c = CbSubsys ∧
    relay c = Some b ∧ wm_read_low b = Z.of_nat n ∧ wm_read_high b = Z.of_nat n ∧
    Z.land (bev_enabled b) EV_READ ≠ 0 ∧ (length (bev_input b) < n)%nat ∧
    client c = Some bc ∧ wm_read_low bc = 0 ∧ bev_input bc = from_client (io c) ∧
    Forall is_byte (bev_input b ++ net) ∧
    proto_run (PRead n k) (bev_input b ++ net) (to_relay (io c) ++ bev_output b) = v ∧
    bev_fd b = rfd ∧ bev_fd bc = cfd ∧ bev_output bc = [] ∧ hs_quiet c net.

(** The pump of [c] was started from a finished handshake. *)
Definition hs_started (cfg : config) c (msgs net : list Z) : Prop :=
  ∃ e c2 hb, seen e ∧ pipes_ok cfg e ∧ instance c2 = cfg ∧ handshake_done c2 msgs hb ∧ hb ++ net = full ∧
             redsocks_start_relay e c2 = Ret (Alive c).

(** The result of a run agrees with the verdict. *)
Definition hs_post (cfg : config) (v : verdict) (r : hres P) (net : list Z) : Prop :=
  match r with
  | Dropped _ => v = Rejected
  | Alive c =>
      (state c ≠ pump_active ∧ hs_inv cfg v c net) ∨
      (state c = pump_active ∧
       ∃ b bc, relay c = Some b ∧ bev_input b = [] ∧
               client c = Some bc ∧ bev_input bc = from_client (io c) ∧
               v = Accepted net (to_relay (io c) ++ bev_output b) ∧
               hs_started cfg c (to_relay (io c) ++ bev_output b) net)
  end.

Definition hs_ok (cfg : config) (x : env * hs_event) : Prop :=
  pipes_ok cfg (fst x) ∧ match snd x with HRead k => 0 < k | _ => True end.

Lemma hs_inv_alive cfg v c net : hs_inv cfg v c net → hs_post cfg v (Alive c) net.
Proof.
  intros H. left. split; [|done]. destruct H as (n & k & b & bc & Hs & _).
  by eapply sim_waits.
Qed.

Lemma hs_quiet_rest c c' net : same_rest c c' → hs_quiet c net → hs_quiet c' net.
Proof. intros (_ & _ & _ & R4 & R5 & R6 & R7). unfold hs_quiet. by rewrite R4, R5, R6, R7. Qed.

Lemma hs_write_step cfg v e c net n :
  hs_inv cfg v c net → ∃ c', hs_step ss e (HWrite n) c net = Ret (Alive c', net) ∧ hs_inv cfg v c' net.
Proof.
  intros (m & k & b & bc & Hs & Hc & Hcb & Hr & Hl & Hh & He & Hi & Hcl & Hcw & Hci & Hby & Hv & Hfd & Hcfd & Hco & Hqt).
  unfold hs_step, get_bev. cbn [bev]. rewrite Hr, bind_Ret. case_match eqn:Ew.
  { exists c. split; [done|]. exists m, k, b, bc. done. }
  unfold bufferevent_writecb, get_bev. cbn [bev]. rewrite Hr, bind_Ret.
  set (c1 := set_io _ _). set (b1 := set_output (drop (Z.to_nat n) (bev_output b)) b).
  assert (Hinv1 : hs_inv cfg v c1 net).
  { exists m, k, b1, bc. split_and!; try done; [by apply (sim_frame c)|]. 
    cbn. by rewrite <- app_assoc, take_drop. }
  case_match; [|by exists c1].
  cbn [run_writecb]. replace (cbs c1) with CbSubsys by done.
  destruct (sim_write e c1 b1 (PRead m k)) as (c' & b' & -> & Hcore & Hrest & Hr' & I0 & I1 & I2 & I3 & I4 & I5);
    [by apply (sim_frame c)|done|].
  exists c'. split; [done|]. exists m, k, b', bc.
  pose proof Hrest as (R1 & R2 & R3 & R4 & _).
  rewrite R1, R2, R3, R4, I0, I1, I2, I3, I4, I5. split_and!; try done.
  - apply (sim_frame c1); [done|]. by apply (sim_frame c).
  - cbn. by rewrite <- app_assoc, take_drop.
  - by apply (hs_quiet_rest c1).
Qed.

Lemma hs_client_step cfg v e c net bs :
  hs_inv cfg v c net → ∃ c', hs_step ss e (HClient bs) c net = Ret (Alive c', net) ∧ hs_inv cfg v c' net.
Proof.
  intros (m & k & b & bc & Hs & Hc & Hcb & Hr & Hl & Hh & He & Hi & Hcl & Hcw & Hci & Hby & Hv & Hfd & Hcfd & Hco & Hqt).
  unfold hs_step, get_bev. cbn [bev]. rewrite Hcl, bind_Ret. case_match eqn:Ew.
  { exists c. split; [done|]. exists m, k, b, bc. done. }
  unfold bufferevent_readcb, get_bev. cbn [bev]. rewrite Hcl, bind_Ret.
  set (c1 := set_io _ _). set (bc1 := set_input (bev_input bc ++ bs) bc).
  assert (Hinv1 : hs_inv cfg v c1 net).
  { exists m, k, b, bc1. split_and!; try done; [by apply (sim_frame c)|]. cbn. by rewrite Hci. }
  exists c1. split; [|done]. cbn [run_readcb]. replace (cbs c1) with CbSubsys by done. by case_match.
Qed.

(** The callback that starts the pump. *)
Lemma hs_pump_post cfg v e c c2 c' net m b b2 bc :
  instance c = cfg → client c = Some bc → bev_input bc = from_client (io c) → seen e → pipes_ok cfg e →
  Accepted net ((to_relay (io c) ++ bev_output b) ++ m) = v →
  bev_fd b = rfd → bev_fd bc = cfd → bev_output bc = [] → hs_quiet c net →
  redsocks_start_relay e c2 = Ret (Alive c') → same_rest c c2 → relay c2 = Some b2 →
  bev_fd b2 = bev_fd b → bev_input b2 = [] → bev_output b2 = bev_output b ++ m → running c2 c' b2 →
  hs_post cfg v (Alive c') net.
Proof.
  intros Hc Hcl Hci Hsn Hp <- Hfd Hcfd Hco Hqt Hsr Hrest Hr2 F2 I2 O2 Hrun.
  pose proof (hs_quiet_rest _ _ _ Hrest Hqt) as (Q1 & Q2 & Q3 & Q4 & Q5 & Q6 & Q7).
  destruct Hrest as (R1 & R2 & R3 & R4 & _).
  destruct Hrun as (Hst & Hio & (b' & Hb' & Hbi & Hbo) & (x & bc' & Hx & Hbc' & Hbci)).
  right. split; [done|]. exists b', bc'. rewrite Hio, R4, Hbo, O2, Hbci.
  assert (x = bc) as -> by congruence. rewrite <- app_assoc. split_and!; try done.
  exists e, c2, (from_relay (io c2)). split_and!; [done|done|congruence| |done|done].
  split_and!; try done; [exists b2|exists bc]; split_and!; congruence.
Qed.

(** The callback runs on exactly the awaited bytes. *)
Lemma hs_callback cfg v e c net n k b bc :
  sim c (PRead n k) → instance c = cfg → cbs c = CbSubsys → relay c = Some b →
  length (bev_input b) = n → client c = Some bc → wm_read_low bc = 0 →
  bev_input bc = from_client (io c) → Forall is_byte (bev_input b ++ net) → seen e → pipes_ok cfg e →
  proto_run (PRead n k) (bev_input b ++ net) (to_relay (io c) ++ bev_output b) = v →
  bev_fd b = rfd → bev_fd bc = cfd → bev_output bc = [] → hs_quiet c net →
  ∃ r, ss_readcb ss e c = Ret r ∧ hs_post cfg v r net.
Proof.
  intros Hs Hc Hcb Hr Hi Hcl Hcw Hci Hby Hsn Hp Hv Hfd Hcfd Hco Hqt. apply Forall_app in Hby as [Hb1 Hb2].
  cbn [proto_run] in Hv. rewrite length_app, Hi in Hv.
  rewrite (proj2 (Nat.leb_le _ _)), <- Hi, take_app_length, drop_app_length in Hv by lia.
  rewrite proto_run_flush in Hv.
  pose proof (sim_read e c b n k Hs Hr ltac:(by rewrite Hcl) Hi Hb1 ltac:(by rewrite Hc)) as Hstep.
  unfold read_result in Hstep. destruct (flush (k (bev_input b))) as [m q]. cbn [fst snd] in Hv.
  destruct q as [| |? ?|n' k'].
  - destruct Hstep as (c' & Hread & c2 & b2 & Hsr & Hrest & Hr2 & F2 & I2 & O2 & Hrun).
    exists (Alive c'). split; [done|]. by apply (hs_pump_post cfg v e c c2 c' net m b b2 bc).
  - destruct Hstep as (l & Hread). by exists (Dropped l).
  - done.
  - destruct Hstep as (c' & b' & Hread & Hs' & Hrest & Hr' & A0 & A1 & A2 & A3 & A4 & A5).
    exists (Alive c'). split; [done|]. apply hs_inv_alive. exists n', k', b', bc.
    pose proof Hrest as (R1 & R2 & R3 & R4 & _).
    rewrite R1, R2, R3, R4, A0, A1, A2, app_nil_l, app_assoc. split_and!; try done.
    + simpl. by eapply sim_waits.
    + by apply (hs_quiet_rest c).
Qed.

Lemma hs_read_step cfg v e c net j :
  hs_inv cfg v c net → seen e → pipes_ok cfg e → 0 < j →
  ∃ r net', hs_step ss e (HRead j) c net = Ret (r, net') ∧ hs_post cfg v r net' ∧
            (length net' ≤ pred (length net))%nat.
Proof.
  intros Hinv Hsn Hp Hj. pose proof Hinv as
    (n & k & b & bc & Hs & Hc & Hcb & Hr & Hl & Hh & He & Hi & Hcl & Hcw & Hci & Hby & Hv & Hfd & Hcfd & Hco & Hqt).
  unfold hs_step, get_bev. cbn [bev]. rewrite Hr, bind_Ret. case_match eqn:Ew.
  { exists (Alive c), net. split_and!; [done|by apply hs_inv_alive|].
    unfold read_suspended, howmuch in Ew. bool_hyps. rewrite length_take in Ew.
    rewrite Hh in Ew. destruct (Z.of_nat n =? 0) eqn:?; bool_hyps; lia. }
  bool_hyps. destruct Ew as [[_ _] Hne].
  set (i := Z.to_nat (howmuch b j)) in *.
  assert (Hlen : (length (bev_input b) + length (take i net) ≤ n)%nat).
  { rewrite length_take. unfold i, howmuch. rewrite Hh. case_match; bool_hyps; lia. }
  unfold bufferevent_readcb, get_bev. cbn [bev]. rewrite Hr, bind_Ret.
  set (c1 := set_io _ _). set (b1 := set_input (bev_input b ++ take i net) b).
  assert (Hsplit : bev_input b1 ++ drop i net = bev_input b ++ net).
  { cbn. by rewrite <- app_assoc, take_drop. }
  assert (Hs1 : sim c1 (PRead n k)) by by apply (sim_frame c).
  assert (Hq1 : hs_quiet c1 (drop i net)).
  { destruct Hqt as (Q1 & Q2 & Q3 & Q4 & Q5 & Q6 & Q7). split_and!; try done.
    cbn. by rewrite <- app_assoc, take_drop. }
  assert (Hdec : (length (drop i net) ≤ pred (length net))%nat).
  { rewrite length_drop. rewrite length_take in Hne. lia. }
  assert (Hl1 : zlen (bev_input b1) = zlen (bev_input b) + zlen (take i net)) by (cbn; rewrite length_app; lia).
  change (wm_read_low b1) with (wm_read_low b). rewrite Hl, Hl1. case_match eqn:El.
  - cbn [run_readcb]. replace (cbs c1) with CbSubsys by done. bool_hyps.
    destruct (hs_callback cfg v e c1 (drop i net) n k b1 bc) as (r & -> & Hpost); try done.
    + cbn. rewrite length_app. lia.
    + by rewrite Hsplit.
    + by rewrite Hsplit.
    + by exists r, (drop i net).
  - exists (Alive c1), (drop i net). split_and!; [done| |done]. apply hs_inv_alive.
    exists n, k, b1, bc. rewrite Hsplit. bool_hyps. split_and!; try done. cbn. rewrite length_app. lia.
Qed.

(** Number of read events of a run. *)
Fixpoint reads (evs : list (env * hs_event)) : nat :=
  match evs with
  | [] => 0
  | (_, HRead _) :: evs' => S (reads evs')
  | _ :: evs' => reads evs'
  end.

Lemma hs_run_post cfg v evs c net :
  hs_inv cfg v c net → Forall (hs_ok cfg) evs → Forall (λ x, seen x.1) evs →
  ∃ r net', hs_run ss evs c net = Ret (r, net') ∧ hs_post cfg v r net' ∧
    ((∃ l, r = Dropped l) ∨ (∃ c', r = Alive c' ∧ state c' = pump_active) ∨
     (length net' ≤ length net - reads evs)%nat).
Proof.
  intros Hinv Hok Hsn. revert c net Hinv.
  induction Hok as [|[e ev] evs [Hp Hev] _ IH]; intros c net Hinv;
    [|inversion Hsn as [|?? Hse Hsn']; subst; cbn in Hse; specialize (IH Hsn')].
  { exists (Alive c), net. split_and!; [done|by apply hs_inv_alive|]. right. right. simpl. lia. }
  assert (Hst : state c ≠ pump_active).
  { destruct Hinv as (n & k & b & bc & Hs & _). by eapply sim_waits. }
  cbn [hs_run]. apply Z.eqb_neq in Hst. rewrite Hst.
  destruct ev as [j|n|bs].
  - destruct (hs_read_step cfg v e c net j) as (r & net1 & -> & Hpost & Hle); [done..|].
    rewrite bind_Ret. cbv beta iota.
    destruct r as [c1|l]; [|by exists (Dropped l), net1; split_and!; eauto].
    destruct Hpost as [[_ Hinv1]|Hpump].
    + destruct (IH c1 net1 Hinv1) as (r & net2 & Hrun & Hpost & Hend).
      exists r, net2. split_and!; [done..|]. destruct Hend as [?|[?|?]]; [by left|by right; left|].
      right. right. simpl. lia.
    + exists (Alive c1), net1. destruct Hpump as [Hpa Hx]. split_and!.
      * destruct evs as [|[e' ev'] evs']; simpl; [done|]. by rewrite Hpa.
      * by right.
      * right. left. by exists c1.
  - destruct (hs_write_step cfg v e c net n Hinv) as (c1 & -> & Hinv1). rewrite bind_Ret.
    exact (IH c1 net Hinv1).
  - destruct (hs_client_step cfg v e c net bs Hinv) as (c1 & -> & Hinv1). rewrite bind_Ret.
    exact (IH c1 net Hinv1).
Qed.

(** The verdict of a run, with the client's data and the proxy's answer. *)
Definition hs_agrees_in (cfg : config) (v : verdict) (r : hres P) (net : list Z) : Prop :=
  match v with
  | Rejected => ∃ l, r = Dropped l
  | Accepted rest msgs =>
      net = rest ∧ ∃ c b bc, r = Alive c ∧ state c = pump_active ∧
        relay c = Some b ∧ bev_input b = [] ∧ to_relay (io c) ++ bev_output b = msgs ∧
        client c = Some bc ∧ bev_input bc = from_client (io c) ∧ hs_started cfg c msgs rest
  | Waiting msgs =>
      net = [] ∧ ∃ c b bc, r = Alive c ∧ state c ≠ pump_active ∧
        relay c = Some b ∧ to_relay (io c) ++ bev_output b = msgs ∧
        client c = Some bc ∧ bev_input bc = from_client (io c)
  end.

Lemma hs_run_refines_in cfg v evs c net :
  hs_inv cfg v c net → Forall (hs_ok cfg) evs → Forall (λ x, seen x.1) evs → (length net ≤ reads evs)%nat →
  ∃ r net', hs_run ss evs c net = Ret (r, net') ∧ hs_agrees_in cfg v r net'.
Proof.
  intros Hinv Hok Hsn Hn. destruct (hs_run_post cfg v evs c net Hinv Hok Hsn) as (r & net' & Hrun & Hpost & Hend).
  exists r, net'. split; [done|].
  destruct r as [c'|l]; [|rewrite Hpost; by exists l].
  destruct Hpost as [[Hst Hinv']|[Hst (b & bc & Hb & Hbi & Hbc & Hbci & -> & Hsta)]].
  - destruct Hend as [[l ?]|[(? & [= <-] & ?)|Hlen]]; [done..|].
    assert (net' = []) as -> by (destruct net'; [done|simpl in Hlen; lia]).
    destruct Hinv' as (n & k & b & bc & Hs & Hc & Hcb & Hr & Hl & Hh & He & Hi & Hcl & Hcw & Hci & Hby & Hv & Hfd & Hcfd & Hco & Hqt).
    rewrite app_nil_r in Hv. cbn [proto_run] in Hv. rewrite (proj2 (Nat.leb_gt _ _)) in Hv by done.
    rewrite <- Hv. split; [done|]. by exists c', b, bc.
  - split; [done|]. exists c', b, bc. by split_and!.
Qed.
End Handshake.

Definition hs_agrees {P} (cfd rfd : Z) (full : list Z) : config → verdict → hres P → list Z → Prop :=
  hs_agrees_in cfd rfd full (λ _, True).

Lemma hs_run_refines {P} (ss : relay_subsys P) sim `{!HandshakeSim ss sim} cfd rfd full cfg v evs c net :
  hs_inv sim cfd rfd full cfg v c net → Forall (hs_ok cfg) evs → (length net ≤ reads evs)%nat →
  ∃ r net', hs_run ss evs c net = Ret (r, net') ∧ hs_agrees cfd rfd full cfg v r net'.
Proof. intros Hinv Hok Hn. eapply hs_run_refines_in; try done. by apply Forall_forall. Qed.
