(* ===== verification/Socks5.v ===== *)
(** * redsocks: the SOCKS5 client handshake

    Models socks5.c and the constants and structures of socks5.h.  The
    handshake is a state machine driven by the read and write callbacks of the
    relay's bufferevent; its messages are built by the [socks5_mk*] functions.
    The specification [socks5_spec] reads the proxy's whole answer at once. *)
From S2P Require Import Prelude Proto Redsocks Handshake.

Definition socks5_new : Z := 0.
Definition socks5_method_sent : Z := 1.
Definition socks5_auth_sent : Z := 2.
Definition socks5_request_sent : Z := 3.
Definition socks5_skip_domain : Z := 4.
Definition socks5_skip_address : Z := 5.

Record socks5_client := Socks5 { do_password : Z; to_skip : Z }.

Definition socks5_ver : Z := 5.
Definition socks5_auth_none : Z := 0.
Definition socks5_auth_password : Z := 2.
Definition socks5_auth_invalid : Z := 255.
Definition socks5_password_ver : Z := 1.
Definition socks5_password_passed : Z := 0.
Definition socks5_cmd_connect : Z := 1.
Definition socks5_addrtype_ipv4 : Z := 1.
Definition socks5_addrtype_domain : Z := 3.
Definition socks5_addrtype_ipv6 : Z := 4.
Definition socks5_status_succeeded : Z := 0.

(** Sizes of the packed structures. *)
Definition sizeof_method_reply : Z := 2.
Definition sizeof_auth_reply : Z := 2.
Definition sizeof_reply : Z := 4.
Definition sizeof_addr_ipv4 : Z := 6.
Definition sizeof_addr_ipv6 : Z := 18.
Definition sizeof_port : Z := 2.

(** Credentials are C strings, without their NUL; NULL is [None]. *)
Definition socks5_is_valid_cred (login password : option (list Z)) : bool :=
  match login, password with
  | Some l, Some p =>
      if zlen l >? 255 then false else if zlen p >? 255 then false else true
  | _, _ => false
  end.

Definition socks5_instance_init (cfg : config) : config :=
  match login cfg, password cfg with
  | None, None => cfg
  | l, p =>
      let deauth := match l, p with
                    | Some _, Some _ => negb (socks5_is_valid_cred l p)
                    | _, _ => true
                    end in
      if deauth then Config None None (use_splice cfg) else cfg
  end.

Abbreviation client5 := (redsocks_client socks5_client).

Definition socks5_client_init (c : client5) : client5 :=
  let c := set_state socks5_new c in
  let dp := match login (instance c), password (instance c) with
            | Some _, Some _ => 1 | _, _ => 0 end in
  set_payload (Socks5 dp (to_skip (payload c))) c.

Definition socks5_mkmethods_plain (do_password : Z) : list Z :=
  [socks5_ver; u8 (1 + do_password); socks5_auth_none]
  ++ (if do_password =? 0 then [] else [socks5_auth_password]).
Definition socks5_mkmethods (c : client5) : outcome (option (list Z)) :=
  Ret (Some (socks5_mkmethods_plain (do_password (payload c)))).

Definition socks5_mkpassword_plain (login password : list Z) : list Z :=
  [socks5_password_ver; u8 (zlen login)] ++ login ++ [u8 (zlen password)] ++ password.
(** [strlen] of a NULL credential is a fault. *)
Definition socks5_mkpassword (c : client5) : outcome (option (list Z)) :=
  match login (instance c), password (instance c) with
  | Some l, Some p => Ret (Some (socks5_mkpassword_plain l p))
  | _, _ => Fault
  end.

(** The address and the port are already in network byte order. *)
Definition socks5_mkcommand_plain (cmd : Z) (dest : list Z * list Z) : list Z :=
  [socks5_ver; u8 cmd; 0; socks5_addrtype_ipv4] ++ fst dest ++ snd dest.
Definition socks5_mkconnect (c : client5) : outcome (option (list Z)) :=
  Ret (Some (socks5_mkcommand_plain socks5_cmd_connect (destaddr c))).

Definition socks5_write_cb (e : env) (c : client5) : outcome (hres socks5_client) :=
  let c := redsocks_touch_client e c in
  if state c =? socks5_new
  then redsocks_write_helper c (Some socks5_mkmethods) socks5_method_sent sizeof_method_reply
  else Ret (Alive c).

(** [None] stands for NULL (the method is acceptable). *)
Definition socks5_is_known_auth_method (ver method do_password : Z) : option String.string :=
  if negb (ver =? socks5_ver)
  then Some "Socks5 server reported unexpected auth methods reply version..."%string
  else if method =? socks5_auth_invalid
  then Some "Socks5 server refused all our auth methods."%string
  else if negb (method =? socks5_auth_none)
          && negb ((method =? socks5_auth_password) && negb (do_password =? 0))
  then Some "Socks5 server requested unexpected auth method..."%string
  else None.

Definition socks5_read_auth_methods (c : client5) : outcome (hres socks5_client) :=
  r ← redsocks_read_expected c sizes_equal sizeof_method_reply;
  match r with
  | inr d => Ret d
  | inl (reply, c) =>
      ver ← mget reply 0; method ← mget reply 1;
      match socks5_is_known_auth_method ver method (do_password (payload c)) with
      | Some _ => Ret (redsocks_drop_client c)
      | None =>
          if method =? socks5_auth_none
          then redsocks_write_helper c (Some socks5_mkconnect) socks5_request_sent sizeof_reply
          else if method =? socks5_auth_password
          then redsocks_write_helper c (Some socks5_mkpassword) socks5_auth_sent sizeof_auth_reply
          else Ret (Alive c)
      end
  end.

Definition socks5_read_auth_reply (c : client5) : outcome (hres socks5_client) :=
  r ← redsocks_read_expected c sizes_equal sizeof_auth_reply;
  match r with
  | inr d => Ret d
  | inl (reply, c) =>
      ver ← mget reply 0; status ← mget reply 1;
      if negb (ver =? socks5_password_ver) then Ret (redsocks_drop_client c)
      else if status =? socks5_password_passed
      then redsocks_write_helper c (Some socks5_mkconnect) socks5_request_sent sizeof_reply
      else Ret (redsocks_drop_client c)
  end.

Definition set_to_skip (n : Z) (c : client5) : client5 :=
  set_payload (Socks5 (do_password (payload c)) n) c.

Definition socks5_read_reply (c : client5) : outcome (hres socks5_client) :=
  r ← redsocks_read_expected c sizes_greater_equal sizeof_reply;
  match r with
  | inr d => Ret d
  | inl (reply, c) =>
      ver ← mget reply 0; status ← mget reply 1; addrtype ← mget reply 3;
      if negb (ver =? socks5_ver) then Ret (redsocks_drop_client c)
      else if status =? socks5_status_succeeded then
        if addrtype =? socks5_addrtype_ipv4 then
          redsocks_write_helper (set_to_skip sizeof_addr_ipv4 c) None
            socks5_skip_address sizeof_addr_ipv4
        else if addrtype =? socks5_addrtype_ipv6 then
          redsocks_write_helper (set_to_skip sizeof_addr_ipv6 c) None
            socks5_skip_address sizeof_addr_ipv6
        else if addrtype =? socks5_addrtype_domain then
          redsocks_write_helper c None socks5_skip_domain 1
        else Ret (redsocks_drop_client c)
      else Ret (redsocks_drop_client c)
  end.

Definition socks5_read_cb (e : env) (c : client5) : outcome (hres socks5_client) :=
  let c := redsocks_touch_client e c in
  if state c =? socks5_method_sent then socks5_read_auth_methods c
  else if state c =? socks5_auth_sent then socks5_read_auth_reply c
  else if state c =? socks5_request_sent then socks5_read_reply c
  else if state c =? socks5_skip_domain then
    r ← redsocks_read_expected c sizes_greater_equal 1;
    match r with
    | inr d => Ret d
    | inl (data, c) =>
        size ← mget data 0;
        let c := set_to_skip (size + sizeof_port) c in
        redsocks_write_helper c None socks5_skip_address (to_skip (payload c))
    end
  else if state c =? socks5_skip_address then
    r ← redsocks_read_expected c sizes_greater_equal (to_skip (payload c));
    match r with
    | inr d => Ret d
    | inl (_, c) => redsocks_start_relay e c
    end
  else Ret (redsocks_drop_client c).

Definition socks5_subsys : relay_subsys socks5_client :=
  Subsys socks5_client_init socks5_read_cb socks5_write_cb.

(** ** The handshake of RFC 1928 and RFC 1929 as a process *)
Section Spec.
Variable creds : option (list Z * list Z).
Variable dest : list Z * list Z.

(** The messages of RFC 1928 section 3, RFC 1929 section 2, RFC 1928 section 4. *)
Definition spec_methods : list Z := match creds with Some _ => [5; 2; 0; 2] | None => [5; 1; 0] end.
Definition spec_auth (up : list Z * list Z) : list Z :=
  1 :: zlen (fst up) :: fst up ++ zlen (snd up) :: snd up.
Definition spec_connect : list Z := 5 :: 1 :: 0 :: 1 :: fst dest ++ snd dest.

(** The bound address of the reply, whose content does not matter. *)
Definition spec_address (n : nat) : proto := PRead n (λ _, PAccept).
Definition domain_cont (d : list Z) : proto :=
  match d with [len] => spec_address (Z.to_nat len + 2) | _ => PReject end.
Definition spec_domain : proto := PRead 1 domain_cont.
Definition reply_cont (d : list Z) : proto :=
  match d with
  | [ver; status; _; atyp] =>
      if negb (ver =? 5) || negb (status =? 0) then PReject
      else if atyp =? 1 then spec_address 6
      else if atyp =? 4 then spec_address 18
      else if atyp =? 3 then spec_domain
      else PReject
  | _ => PReject
  end.
Definition spec_reply : proto := PRead 4 reply_cont.
Definition auth_cont (d : list Z) : proto :=
  match d with
  | [ver; status] =>
      if (ver =? 1) && (status =? 0) then PSend spec_connect spec_reply else PReject
  | _ => PReject
  end.
Definition spec_auth_reply : proto := PRead 2 auth_cont.
Definition method_cont (d : list Z) : proto :=
  match d with
  | [ver; method] =>
      if negb (ver =? 5) then PReject
      else if method =? 0 then PSend spec_connect spec_reply
      else match creds with
           | Some up => if method =? 2 then PSend (spec_auth up) spec_auth_reply else PReject
           | None => PReject
           end
  | _ => PReject
  end.
Definition spec_method_reply : proto := PRead 2 method_cont.
Definition socks5_proto : proto := PSend spec_methods spec_method_reply.

(** The credentials in use, and what is asked of the proxy. *)
Definition creds_ok (c : client5) : Prop :=
  match creds with
  | Some (l, w) => login (instance c) = Some l ∧ password (instance c) = Some w ∧
                   zlen l ≤ 255 ∧ zlen w ≤ 255 ∧ do_password (payload c) = 1
  | None => do_password (payload c) = 0
  end.

(** The states of the client and the processes they stand for. *)
Definition in_state (c : client5) (p : proto) : Prop :=
  (state c = socks5_method_sent ∧ p = spec_method_reply) ∨
  (state c = socks5_auth_sent ∧ p = spec_auth_reply) ∨
  (state c = socks5_request_sent ∧ p = spec_reply) ∨
  (state c = socks5_skip_domain ∧ p = spec_domain) ∨
  (state c = socks5_skip_address ∧
     ∃ n : nat, (2 ≤ n)%nat ∧ to_skip (payload c) = Z.of_nat n ∧ p = spec_address n).

Definition sim5 (c : client5) (p : proto) : Prop :=
  destaddr c = dest ∧ creds_ok c ∧ in_state c p.
End Spec.

(** ** Simulation *)
Lemma sim5_intro creds dest st p c br :
  destaddr c = dest → creds_ok creds c →
  (∀ c', state c' = st → payload c' = payload c → in_state creds dest c' p) →
  sim5 creds dest (set_relay br (set_state st c)) p.
Proof. intros Hd Hc Hs. split_and!; [done..|by apply Hs]. Qed.

Section Simulation.
Context (creds : option (list Z * list Z)) (dest : list Z * list Z).
Abbreviation sim := (sim5 creds dest).

Lemma sim5_frame c c' p : same_core c c' → sim c p → sim c' p.
Proof. intros (H1 & H2 & H3 & H4). unfold sim5, creds_ok, in_state. by rewrite H1, H2, H3, H4. Qed.

Lemma sim5_waits c n k : sim c (PRead n k) → (0 < n)%nat ∧ state c ≠ pump_active.
Proof.
  intros (_ & _ & H). destruct H as [[-> H]|[[-> H]|[[-> H]|[[-> H]|[-> (m & Hm & _ & H)]]]]];
    injection H as -> _; split; done || lia.
Qed.

Lemma sim5_write e c b p :
  sim c p → relay c = Some b → socks5_write_cb e c = Ret (Alive (redsocks_touch_client e c)).
Proof.
  intros (_ & _ & H) _. unfold socks5_write_cb. cbn [state redsocks_touch_client set_last_event].
  destruct H as [[-> _]|[[-> _]|[[-> _]|[[-> _]|[-> _]]]]]; done.
Qed.

Lemma connect_result e c b :
  destaddr c = dest → creds_ok creds c → relay c = Some b →
  read_result sim e
    (redsocks_write_helper (set_relay (Some (set_input [] b)) (redsocks_touch_client e c))
       (Some socks5_mkconnect) socks5_request_sent sizeof_reply)
    c b (PSend (spec_connect dest) spec_reply).
Proof.
  intros Hd Hc Hr. apply (write_helper_result _ e _ _ _ _ _ _ 4%nat); [done..| |].
  - unfold socks5_mkconnect. cbn [destaddr set_relay redsocks_touch_client set_last_event]. by rewrite Hd.
  - intros br. apply sim5_intro; [done..|]. intros c' Hst _. right; right; left. done.
Qed.

Lemma sim5_method e c b :
  destaddr c = dest → creds_ok creds c → state c = socks5_method_sent → relay c = Some b →
  length (bev_input b) = 2%nat →
  read_result sim e (socks5_read_cb e c) c b (method_cont creds dest (bev_input b)).
Proof.
  intros Hd Hcr Hst Hr Hn. unfold socks5_read_cb.
  cbn [state redsocks_touch_client set_last_event]. rewrite Hst. cbn [Z.eqb socks5_method_sent Pos.eqb].
  unfold socks5_read_auth_methods.
  rewrite (read_expected_exact _ b); [|done|by rewrite Hn|done]. rewrite bind_Ret.
  destruct (bev_input b) as [|ver [|method [|]]]; try done.
  change (mget [ver; method] 0) with (Ret ver). change (mget [ver; method] 1) with (Ret method).
  rewrite !bind_Ret. unfold socks5_is_known_auth_method, method_cont.
  cbn [payload set_relay redsocks_touch_client set_last_event].
  unfold socks5_ver, socks5_auth_invalid, socks5_auth_none, socks5_auth_password.
  destruct (ver =? 5) eqn:Ev; cbn [negb]; [|by eexists].
  destruct (method =? 0) eqn:E0; cbn [negb andb].
  { replace (method =? 255) with false by (symmetry; bool_hyps; lia). by apply connect_result. }
  destruct (method =? 255) eqn:E255; bool_hyps.
  { subst. by destruct creds as [[l w]|]; eexists. }
  destruct creds as [[l w]|]; [destruct Hcr as (Hl & Hw & Hl255 & Hw255 & Hdp)|].
  - rewrite Hdp. cbn [negb Z.eqb]. destruct (method =? 2) eqn:E2; cbn [negb andb]; [|by eexists].
    apply (write_helper_result _ e _ _ _ _ _ _ 2%nat); [done..| |].
    + unfold socks5_mkpassword, socks5_mkpassword_plain, spec_auth.
      cbn [instance set_relay redsocks_touch_client set_last_event fst snd]. rewrite Hl, Hw.
      rewrite !u8_small by (unfold is_byte; lia). done.
    + intros br. apply sim5_intro; [done..|]. intros c' Hst' _. right; left. done.
  - rewrite Hcr. cbn [negb Z.eqb]. rewrite andb_false_r. by eexists.
Qed.

Lemma sim5_auth e c b :
  destaddr c = dest → creds_ok creds c → state c = socks5_auth_sent → relay c = Some b →
  length (bev_input b) = 2%nat →
  read_result sim e (socks5_read_cb e c) c b (auth_cont dest (bev_input b)).
Proof.
  intros Hd Hcr Hst Hr Hn. unfold socks5_read_cb.
  cbn [state redsocks_touch_client set_last_event]. rewrite Hst.
  cbn [Z.eqb socks5_method_sent socks5_auth_sent Pos.eqb].
  unfold socks5_read_auth_reply.
  rewrite (read_expected_exact _ b); [|done|by rewrite Hn|done]. rewrite bind_Ret.
  destruct (bev_input b) as [|ver [|status [|]]]; try done.
  change (mget [ver; status] 0) with (Ret ver). change (mget [ver; status] 1) with (Ret status).
  rewrite !bind_Ret. unfold auth_cont, socks5_password_ver, socks5_password_passed.
  destruct (ver =? 1); cbn [negb andb]; [|by eexists].
  destruct (status =? 0); [by apply connect_result|by eexists].
Qed.

Lemma address_result e c c2 b t n :
  destaddr c = dest → creds_ok creds c → relay c = Some b →
  c2 = set_relay (Some (set_input [] b)) (redsocks_touch_client e c) →
  t = Z.of_nat n → (2 ≤ n)%nat →
  read_result sim e (redsocks_write_helper (set_to_skip t c2) None socks5_skip_address t)
    c b (spec_address n).
Proof.
  intros Hd Hcr Hr -> -> Hn. apply (write_helper_result _ e _ _ _ None [] _ n); [done..|].
  intros br. apply sim5_intro; [done..|]. intros c' Hst Hp. do 4 right. split; [done|].
  exists n. by rewrite Hp.
Qed.

Lemma sim5_reply e c b :
  destaddr c = dest → creds_ok creds c → state c = socks5_request_sent → relay c = Some b →
  length (bev_input b) = 4%nat →
  read_result sim e (socks5_read_cb e c) c b (reply_cont (bev_input b)).
Proof.
  intros Hd Hcr Hst Hr Hn. unfold socks5_read_cb.
  cbn [state redsocks_touch_client set_last_event]. rewrite Hst.
  cbn [Z.eqb socks5_method_sent socks5_auth_sent socks5_request_sent Pos.eqb].
  unfold socks5_read_reply.
  rewrite (read_expected_exact _ b); [|done|by rewrite Hn|done]. rewrite bind_Ret.
  destruct (bev_input b) as [|ver [|status [|rsv [|atyp [|]]]]]; try done.
  change (mget _ 0) with (Ret ver). change (mget _ 1) with (Ret status). change (mget _ 3) with (Ret atyp).
  rewrite !bind_Ret. unfold reply_cont, socks5_ver, socks5_status_succeeded.
  destruct (ver =? 5); cbn [negb orb]; [|by eexists].
  destruct (status =? 0); cbn [negb]; [|by eexists].
  unfold socks5_addrtype_ipv4, socks5_addrtype_ipv6, socks5_addrtype_domain.
  destruct (atyp =? 1); [by eapply address_result; try done; lia|].
  destruct (atyp =? 4); [by eapply address_result; try done; lia|].
  destruct (atyp =? 3); [|by eexists].
  apply (write_helper_result _ e _ _ _ None [] _ 1%nat); [done..|].
  intros br. apply sim5_intro; [done..|]. intros c' Hst' _. by do 3 right; left.
Qed.

Lemma sim5_domain e c b :
  destaddr c = dest → creds_ok creds c → state c = socks5_skip_domain → relay c = Some b →
  length (bev_input b) = 1%nat → Forall is_byte (bev_input b) →
  read_result sim e (socks5_read_cb e c) c b (domain_cont (bev_input b)).
Proof.
  intros Hd Hcr Hst Hr Hn Hby. unfold socks5_read_cb.
  cbn [state redsocks_touch_client set_last_event]. rewrite Hst.
  cbn [Z.eqb socks5_method_sent socks5_auth_sent socks5_request_sent socks5_skip_domain Pos.eqb].
  rewrite (read_expected_exact _ b); [|done|by rewrite Hn|done]. rewrite bind_Ret.
  destruct (bev_input b) as [|len [|]]; try done. inversion_clear Hby as [|? ? Hlen _].
  change (mget _ 0) with (Ret len). rewrite !bind_Ret.
  eapply address_result; try done; cbn; unfold is_byte, sizeof_port in *; lia.
Qed.

Lemma sim5_address e c b bc n :
  destaddr c = dest → creds_ok creds c → state c = socks5_skip_address → relay c = Some b →
  client c = Some bc → to_skip (payload c) = Z.of_nat n →
  length (bev_input b) = n → pipes_ok (instance c) e →
  read_result sim e (socks5_read_cb e c) c b PAccept.
Proof.
  intros Hd Hcr Hst Hr Hc Hskip Hn Hp. unfold socks5_read_cb.
  cbn [state redsocks_touch_client set_last_event payload]. rewrite Hst, Hskip.
  cbn [Z.eqb socks5_method_sent socks5_auth_sent socks5_request_sent socks5_skip_domain socks5_skip_address Pos.eqb].
  rewrite (read_expected_exact _ b);
    [|done|by rewrite Hn|unfold sizes_greater_equal; apply Z.leb_refl].
  rewrite bind_Ret.
  destruct (start_relay_pumps e (set_relay (Some (set_input [] b)) (redsocks_touch_client e c))
              (set_input [] b) bc) as (c' & Hrun & Hpump); [done..|].
  exists c'. split; [done|]. eexists _, _. split_and!; [exact Hrun|done..|by rewrite app_nil_r|exact Hpump].
Qed.

#[export] Instance socks5_handshake : HandshakeSim socks5_subsys sim.
Proof.
  split; [apply sim5_frame|apply sim5_waits| |].
  - intros e c b n k (Hd & Hcr & Hst) Hr Hc Hn Hby Hp. cbn [ss_readcb socks5_subsys].
    destruct (client c) as [bc|] eqn:Ec; [|done].
    destruct Hst as [[Hst H]|[[Hst H]|[[Hst H]|[[Hst H]|[Hst (m & Hm & Hskip & H)]]]]];
      injection H as -> ->.
    + by apply sim5_method.
    + by apply sim5_auth.
    + by apply sim5_reply.
    + by apply sim5_domain.
    + by eapply sim5_address.
  - intros e c b p Hs Hr. exists (redsocks_touch_client e c), b.
    split_and!; try done. by eapply sim5_write.
Qed.
End Simulation.

(** ** The handshake from the accepted connection on *)

(** The credentials a configuration gives: both or none, at most 255 bytes. *)
Definition spec_creds (cfg : config) : option (list Z * list Z) :=
  match login cfg, password cfg with
  | Some l, Some w => if (zlen l <=? 255) && (zlen w <=? 255) then Some (l, w) else None
  | _, _ => None
  end.

Lemma spec_creds_bound cfg l w : spec_creds cfg = Some (l, w) → zlen l ≤ 255 ∧ zlen w ≤ 255.
Proof.
  unfold spec_creds. destruct (login cfg) as [a|], (password cfg) as [b|]; try done.
  destruct (_ && _) eqn:E; [|done]. bool_hyps. intros [= -> ->]. done.
Qed.

Lemma instance_init_creds cfg :
  (login (socks5_instance_init cfg), password (socks5_instance_init cfg))
  = match spec_creds cfg with Some (l, w) => (Some l, Some w) | None => (None, None) end
  ∧ use_splice (socks5_instance_init cfg) = use_splice cfg.
Proof.
  destruct cfg as [[l|] [w|] sp]; [|done..].
  unfold socks5_instance_init, spec_creds, socks5_is_valid_cred. cbn [login password].
  rewrite !Z.gtb_ltb, !Z.ltb_antisym.
  by destruct (zlen l <=? 255), (zlen w <=? 255).
Qed.

Lemma mkmethods_spec cfg :
  socks5_mkmethods_plain
    (match login (socks5_instance_init cfg), password (socks5_instance_init cfg) with
     | Some _, Some _ => 1 | _, _ => 0 end) = spec_methods (spec_creds cfg).
Proof.
  destruct (instance_init_creds cfg) as [Hcr _].
  destruct (spec_creds cfg) as [[l w]|]; injection Hcr as Hl Hw; rewrite Hl, ?Hw; reflexivity.
Qed.

Lemma socks5_start cfg e cfd rfd dest net :
  connected_ok e = true → Forall is_byte net →
  ∃ c, hs_start socks5_subsys e (socks5_instance_init cfg) (Socks5 0 0) cfd rfd dest = Ret (Alive c) ∧
       hs_inv (sim5 (spec_creds cfg) dest) cfd rfd net (socks5_instance_init cfg)
         (proto_run (socks5_proto (spec_creds cfg) dest) net []) c net.
Proof.
  intros He Hby. destruct (instance_init_creds cfg) as [Hcr _].
  set (cfg' := socks5_instance_init cfg) in *.
  rewrite (hs_start_eq _ _ _ _ _ _ _ socks5_new
    (Socks5 (match login cfg', password cfg' with Some _, Some _ => 1 | _, _ => 0 end) 0) He).
  2:{ intros c Hi Hp. cbn [ss_init socks5_subsys]. unfold socks5_client_init.
      cbn [instance payload set_state]. by rewrite Hi, Hp. }
  cbn [ss_writecb socks5_subsys]. unfold socks5_write_cb.
  cbn [state redsocks_touch_client set_last_event fresh_client]. cbn [Z.eqb socks5_new].
  eexists. split; [by apply write_helper_msg|].
  eexists 2%nat, _, _, _. split_and!; try done; [|cbn; lia|].
  - split_and!; [done| |by left].
    unfold creds_ok. destruct (spec_creds cfg) as [[l w]|] eqn:Es; injection Hcr as Hl Hw; cbn;
      rewrite ?Hl, ?Hw; [|done].
    apply spec_creds_bound in Es as [??]. done.
  - change (proto_run (socks5_proto (spec_creds cfg) dest) net [])
      with (proto_run (spec_method_reply (spec_creds cfg) dest) net (spec_methods (spec_creds cfg))).
    f_equal. rewrite <- (mkmethods_spec cfg). reflexivity.
Qed.

(** C8: the SOCKS5 handshake refines RFC 1928 and 1929 for every cutting of the
    proxy's answer into reads, interleaved with writes and with early data of
    the client: the pump starts exactly when the answer is an acceptance and
    leaves the bytes that follow it unread, the client is dropped exactly on a
    refusal or a malformed answer, and otherwise the client waits; the messages
    sent or queued are the RFC's, and the client's early data is kept. *)
Theorem socks5_handshake_refines cfg e cfd rfd dest net evs :
  connected_ok e = true → Forall is_byte net → Forall (hs_ok cfg) evs →
  (length net ≤ reads evs)%nat →
  ∃ c r rest,
    hs_start socks5_subsys e (socks5_instance_init cfg) (Socks5 0 0) cfd rfd dest = Ret (Alive c) ∧
    hs_run socks5_subsys evs c net = Ret (r, rest) ∧
    hs_agrees cfd rfd net (socks5_instance_init cfg) (proto_run (socks5_proto (spec_creds cfg) dest) net []) r rest.
Proof.
  intros He Hby Hok Hn. destruct (socks5_start cfg e cfd rfd dest net He Hby) as (c & Hc & Hinv).
  destruct (hs_run_refines socks5_subsys (sim5 (spec_creds cfg) dest) cfd rfd net _ _ evs c net Hinv)
    as (r & rest & Hrun & Hag); [|done|by exists c, r, rest].
  eapply Forall_impl; [|exact Hok]. intros x [H1 H2]. split; [|done].
  intros H. apply H1. by rewrite <- (proj2 (instance_init_creds cfg)).
Qed.

Definition witness_env : env := Env 0 true (Some (10, 11)) (Some (12, 13)).
Definition witness_events : list (env * hs_event) :=
  (witness_env, HClient [71; 69]) :: (witness_env, HWrite 2) ::
  repeat (witness_env, HRead 3) 15.

Lemma witness_env_ok cfg : pipes_ok cfg witness_env.
Proof. intros _. by exists 10, 11, 12, 13. Qed.

Lemma socks5_handshake_refines_witness :
  ∃ c r rest,
    hs_start socks5_subsys witness_env (socks5_instance_init (Config (Some [117]) (Some [112; 119]) true))
      (Socks5 0 0) 3 4 ([10; 0; 0; 1], [0; 80]) = Ret (Alive c) ∧
    hs_run socks5_subsys witness_events c [5; 2; 1; 0; 5; 0; 0; 3; 2; 104; 105; 0; 0; 9; 9] = Ret (r, rest) ∧
    hs_agrees 3 4 [5; 2; 1; 0; 5; 0; 0; 3; 2; 104; 105; 0; 0; 9; 9]
      (Config (Some [117]) (Some [112; 119]) true)
      (Accepted [9; 9] [5; 2; 0; 2; 1; 1; 117; 2; 112; 119; 5; 1; 0; 1; 10; 0; 0; 1; 0; 80]) r rest.
Proof.
  apply (socks5_handshake_refines (Config (Some [117]) (Some [112; 119]) true) witness_env 3 4
    ([10; 0; 0; 1], [0; 80]) [5; 2; 1; 0; 5; 0; 0; 3; 2; 104; 105; 0; 0; 9; 9] witness_events).
  - reflexivity.
  - by repeat (constructor; [unfold is_byte; lia|]).
  - by repeat (constructor; [split; [apply witness_env_ok|done]|]).
  - simpl. lia.
Defined.
