(* ===== verification/Socks4.v ===== *)
(** * redsocks: the SOCKS4 client handshake

    Models socks4.c: one request with the user name as a C string, one reply of
    eight bytes.  The handshake is the process [socks4_proto]. *)
From S2P Require Import Prelude Proto Redsocks Handshake.

Definition socks4_new : Z := 0.
Definition socks4_request_sent : Z := 1.
Definition socks4_reply_came : Z := 2.

Definition socks4_ver : Z := 4.
Definition socks4_cmd_connect : Z := 1.
Definition socks4_status_ok : Z := 90.
Definition sizeof_reply4 : Z := 8.

(** The subsystem has no payload. *)
Abbreviation client4 := (redsocks_client unit).

Definition socks4_client_init (c : client4) : client4 := set_state socks4_new c.

Definition socks4_read_cb (e : env) (c : client4) : outcome (hres unit) :=
  let c := redsocks_touch_client e c in
  if state c =? socks4_request_sent then
    r ← redsocks_read_expected c sizes_greater_equal sizeof_reply4;
    match r with
    | inr d => Ret d
    | inl (reply, c) =>
        ver ← mget reply 0; status ← mget reply 1;
        let c := set_state socks4_reply_came c in
        if negb (ver =? 0) then Ret (redsocks_drop_client c)
        else if status =? socks4_status_ok then redsocks_start_relay e c
        else Ret (redsocks_drop_client c)
    end
  else Ret (Alive c).

(** The object of [calloc] is the request with room for the name and its NUL. *)
Definition socks4_mkconnect (c : client4) : outcome (option (list Z)) :=
  let username := default [] (login (instance c)) in
  let len := 9 + zlen username in
  let req := repeat 0 (Z.to_nat len) in
  req ← mwrite req 0 [socks4_ver; socks4_cmd_connect];
  req ← mwrite req 2 (snd (destaddr c));
  req ← mwrite req 4 (fst (destaddr c));
  req ← mwrite req 8 (username ++ [0]);
  Ret (Some req).

Definition socks4_write_cb (e : env) (c : client4) : outcome (hres unit) :=
  let c := redsocks_touch_client e c in
  if state c =? socks4_new
  then redsocks_write_helper c (Some socks4_mkconnect) socks4_request_sent sizeof_reply4
  else if socks4_request_sent <=? state c then
    b ← get_bev SRelay c;
    Ret (Alive (set_relay (Some (bufferevent_disable EV_WRITE b)) c))
  else Ret (Alive c).

Definition socks4_subsys : relay_subsys unit :=
  Subsys socks4_client_init socks4_read_cb socks4_write_cb.

(** ** The handshake as a process *)
Definition spec_request4 (user : list Z) (dest : list Z * list Z) : list Z :=
  4 :: 1 :: snd dest ++ fst dest ++ user ++ [0].
Definition reply4_cont (d : list Z) : proto :=
  match d with
  | ver :: status :: _ => if (ver =? 0) && (status =? 90) then PAccept else PReject
  | _ => PReject
  end.
Definition socks4_proto (user : list Z) (dest : list Z * list Z) : proto :=
  PSend (spec_request4 user dest) (PRead 8 reply4_cont).

Definition sim4 (c : client4) (p : proto) : Prop :=
  state c = socks4_request_sent ∧ p = PRead 8 reply4_cont.

Lemma socks4_mkconnect_eq c :
  length (fst (destaddr c)) = 4%nat → length (snd (destaddr c)) = 2%nat →
  socks4_mkconnect c = Ret (Some (spec_request4 (default [] (login (instance c))) (destaddr c))).
Proof.
  destruct (destaddr c) as [addr port] eqn:Ed. cbn [fst snd]. intros Ha Hp.
  unfold socks4_mkconnect, spec_request4. rewrite Ed. cbn [fst snd].
  set (user := default [] (login (instance c))).
  rewrite <- (app_nil_l (repeat 0 _)).
  rewrite mwrite_extend, bind_Ret by (rewrite ?repeat_length; simpl; lia).
  rewrite mwrite_extend, bind_Ret by (rewrite ?length_drop, ?repeat_length; simpl; lia).
  rewrite mwrite_extend, bind_Ret
    by (rewrite ?length_app, ?length_drop, ?repeat_length; simpl; lia).
  rewrite mwrite_extend, bind_Ret
    by (rewrite ?length_app, ?length_drop, ?repeat_length; simpl; lia).
  rewrite skipn_all2.
  2:{ rewrite !length_drop, repeat_length, length_app. simpl. lia. }
  rewrite app_nil_r, <- !app_assoc. done.
Qed.

Lemma sim4_read e c b :
  state c = socks4_request_sent → relay c = Some b → client c ≠ None →
  length (bev_input b) = 8%nat → pipes_ok (instance c) e →
  read_result sim4 e (socks4_read_cb e c) c b (reply4_cont (bev_input b)).
Proof.
  intros Hst Hr Hc Hn Hp. destruct (client c) as [bc|] eqn:Ec; [|done].
  unfold socks4_read_cb. cbn [state redsocks_touch_client set_last_event]. rewrite Hst.
  cbn [Z.eqb socks4_request_sent Pos.eqb].
  rewrite (read_expected_exact _ b); [|done|by rewrite Hn|done]. rewrite bind_Ret.
  destruct (bev_input b) as [|ver [|status d]]; try done.
  change (mget (ver :: status :: d) 0) with (Ret ver). change (mget (ver :: status :: d) 1) with (Ret status).
  rewrite !bind_Ret. unfold reply4_cont, socks4_status_ok.
  destruct (ver =? 0); cbn [negb andb]; [|by eexists].
  destruct (status =? 90); [|by eexists].
  destruct (start_relay_pumps e (set_state socks4_reply_came
      (set_relay (Some (set_input [] b)) (redsocks_touch_client e c))) (set_input [] b) bc)
    as (c' & Hrun & Hpump); [done..|].
  exists c'. split; [done|]. eexists _, _. split_and!; [exact Hrun|done..|by rewrite app_nil_r|exact Hpump].
Qed.

Lemma disable_write_read z : Z.land (Z.land z (Z.lnot EV_WRITE)) EV_READ = Z.land z EV_READ.
Proof. by rewrite <- Z.land_assoc. Qed.

#[export] Instance socks4_handshake : HandshakeSim socks4_subsys sim4.
Proof.
  split.
  - intros c c' p (_ & _ & H & _). unfold sim4. by rewrite H.
  - intros c n k [Hst [= -> _]]. rewrite Hst. split; [lia|done].
  - intros e c b n k [Hst [= -> ->]] Hr Hc Hn _ Hp. by apply sim4_read.
  - intros e c b p [Hst _] Hr. exists (set_relay (Some (bufferevent_disable EV_WRITE b))
      (redsocks_touch_client e c)), (bufferevent_disable EV_WRITE b).
    split_and!; try done; [|apply disable_write_read].
    cbn [ss_writecb socks4_subsys]. unfold socks4_write_cb, get_bev.
    cbn [state redsocks_touch_client set_last_event bev relay]. by rewrite Hst, Hr.
Qed.

Lemma socks4_start cfg e cfd rfd dest net :
  connected_ok e = true → Forall is_byte net →
  length (fst dest) = 4%nat → length (snd dest) = 2%nat →
  ∃ c, hs_start socks4_subsys e cfg tt cfd rfd dest = Ret (Alive c) ∧
       hs_inv sim4 cfd rfd net cfg (proto_run (socks4_proto (default [] (login cfg)) dest) net []) c net.
Proof.
  intros He Hby Ha Hp.
  rewrite (hs_start_eq _ _ _ _ _ _ _ socks4_new tt He).
  2:{ intros c _ Hp'. cbn [ss_init socks4_subsys]. unfold socks4_client_init.
      destruct c; cbn in *. by rewrite Hp'. }
  cbn [ss_writecb socks4_subsys]. unfold socks4_write_cb.
  cbn [state redsocks_touch_client set_last_event fresh_client]. cbn [Z.eqb socks4_new].
  eexists. split; [apply write_helper_msg; [done|]; by apply socks4_mkconnect_eq|].
  eexists 8%nat, reply4_cont, _, _. split_and!; try done. cbn. lia.
Qed.

(** The SOCKS4 handshake sends version, command, port, address and the user
    name with its NUL, and, for every cutting of the answer into reads
    interleaved with writes and early client data, starts the pump exactly when
    the first two bytes of the eight are 0 and 90 (the rest of the stream is
    left unread), drops the client on any other eight bytes, and waits for
    fewer. *)
Theorem socks4_handshake_refines cfg e cfd rfd dest net evs :
  connected_ok e = true → Forall is_byte net → Forall (hs_ok cfg) evs →
  (length net ≤ reads evs)%nat → length (fst dest) = 4%nat → length (snd dest) = 2%nat →
  ∃ c r rest,
    hs_start socks4_subsys e cfg tt cfd rfd dest = Ret (Alive c) ∧
    hs_run socks4_subsys evs c net = Ret (r, rest) ∧
    hs_agrees cfd rfd net cfg (proto_run (socks4_proto (default [] (login cfg)) dest) net []) r rest.
Proof.
  intros He Hby Hok Hn Ha Hp.
  destruct (socks4_start cfg e cfd rfd dest net He Hby Ha Hp) as (c & Hc & Hinv).
  destruct (hs_run_refines socks4_subsys sim4 cfd rfd net _ _ evs c net Hinv Hok Hn) as (r & rest & Hrun & Hag).
  by exists c, r, rest.
Qed.

Lemma socks4_handshake_refines_witness :
  ∃ c r rest,
    hs_start socks4_subsys (Env 0 true None None) (Config (Some [117]) None false) tt 3 4
      ([10; 0; 0; 1], [0; 80]) = Ret (Alive c) ∧
    hs_run socks4_subsys (repeat (Env 0 true None None, HRead 5) 9) c [0; 91; 0; 0; 0; 0; 0; 0; 1]
      = Ret (r, rest) ∧
    hs_agrees 3 4 [0; 91; 0; 0; 0; 0; 0; 0; 1] (Config (Some [117]) None false) Rejected r rest.
Proof.
  apply (socks4_handshake_refines (Config (Some [117]) None false) (Env 0 true None None) 3 4
    ([10; 0; 0; 1], [0; 80]) [0; 91; 0; 0; 0; 0; 0; 0; 1] (repeat (Env 0 true None None, HRead 5) 9)).
  - reflexivity.
  - by repeat (constructor; [unfold is_byte; lia|]).
  - by repeat (constructor; [split; done|]).
  - simpl. lia.
  - reflexivity.
  - reflexivity.
Defined.
