(* ===== verification/HttpConnect.v ===== *)
(** * redsocks: HTTP CONNECT

    Models http-connect.c, the subsystem that opens a tunnel through an HTTP
    proxy, and [http_auth_request_header] of http-auth.c.  The authentication
    state that the clients of an instance share is the payload of the client whose
    callbacks run; [HttpConnectSpec] lets the other clients of the instance change
    it between any two callbacks. *)
From S2P Require Import Prelude Encrypt Base64 Md5 HttpAuth Redsocks.
#[local] Open Scope Z_scope.

(** ** Lines

    [evbuffer_readln] with [EVBUFFER_EOL_CRLF]: the bytes before the first LF,
    without a CR before it, and what follows; as a C string the line ends at a
    NUL. *)
Fixpoint find_nl (s : list Z) : option (list Z * list Z) :=
  match s with
  | [] => None
  | c :: s => if c =? 10 then Some ([], s) else match find_nl s with Some (l, r) => Some (c :: l, r) | None => None end
  end.
Fixpoint strip_cr (l : list Z) : list Z :=
  match l with
  | [] => []
  | [c] => if c =? 13 then [] else [c]
  | c :: l => c :: strip_cr l
  end.
Definition redsocks_evbuffer_readline (s : list Z) : option (list Z * list Z) :=
  match find_nl s with Some (l, r) => Some (c_str (strip_cr l), r) | None => None end.

(** ** The status line *)
Definition isdigit (c : Z) : bool := (48 <=? c) && (c <=? 57).
Definition ULONG_MAX : Z := 2 ^ 64 - 1.
(** The conversion [%u] as by [strtoul], stored in an [unsigned int]. *)
Definition scan_u (p : list Z) : option (Z * list Z) :=
  let p := skip_space p in
  let '(neg, p) := match p with c :: q => if c =? 45 then (true, q) else if c =? 43 then (false, q) else (false, p) | [] => (false, p) end in
  let '(ds, p) := span isdigit p in
  match ds with
  | [] => None
  | _ =>
      let v := fold_left (λ v d, 10 * v + (d - 48)) ds 0 in
      let v := if ULONG_MAX <? v then ULONG_MAX else if (neg : bool) then - v else v in
      Some (u32 v, p)
  end.
(** A literal of the format. *)
Fixpoint scan_lit (l p : list Z) : option (list Z) :=
  match l, p with
  | [], _ => Some p
  | c :: l, d :: p => if c =? d then scan_lit l p else None
  | _, [] => None
  end.
(** [sscanf] of the status line: the code, if it was assigned. *)
Definition scan_status (line : list Z) : option Z :=
  match scan_lit (bytes "HTTP/") line with
  | None => None
  | Some p =>
      match scan_u p with
      | None => None
      | Some (_, p) =>
          match scan_lit (bytes ".") p with
          | None => None
          | Some p => match scan_u p with None => None | Some (_, p) => match scan_u (skip_space p) with Some (code, _) => Some code | None => None end end
          end
      end
  end.

(** ** State *)
Definition httpc_new : Z := 0.
Definition httpc_request_sent : Z := 1.
Definition httpc_reply_came : Z := 2.
Definition httpc_headers_skipped : Z := 3.
Definition httpc_no_way : Z := 4.
Definition HTTP_HEAD_WM_HIGH : Z := 4096.

Record http_auth := mkauth { last_auth_query : option (list Z); last_auth_count : Z }.
Inductive disclose_src_e := DISCLOSE_NONE | DISCLOSE_X_FORWARDED_FOR | DISCLOSE_FORWARDED_IP | DISCLOSE_FORWARDED_IPPORT.

Abbreviation clienth := (redsocks_client http_auth).

Definition auth_request_header : list Z := bytes "Proxy-Authenticate:".
Definition auth_response_header : list Z := bytes "Proxy-Authorization:".

Definition httpc_client_init (c : clienth) : clienth := set_state httpc_new c.
Definition httpc_instance_fini (a : http_auth) : http_auth := mkauth None (last_auth_count a).

(** Reads lines up to the wanted header: the header, what is left, and the lines
    copied to [tee].  The loop takes a line each time. *)
Fixpoint http_auth_request_header (fuel : nat) (src : list Z) (tee : option (list Z)) : outcome (option (list Z) * list Z * option (list Z)) :=
  match fuel with
  | O => Fault
  | S fuel =>
      match redsocks_evbuffer_readline src with
      | None => Ret (None, src, tee)
      | Some (line, src) =>
          let tee := match tee with Some t => Some (t ++ line ++ CRLF) | None => None end in
          if match line with [] => true | _ => negb (existsb (Z.eqb 58) line) end then Ret (None, src, tee)
          else if strncaseeq line auth_request_header (length auth_request_header) then Ret (Some line, src, tee)
          else http_auth_request_header fuel src tee
      end
  end.

(** What a callback takes from outside: whether proxy errors are forwarded
    ([on_proxy_fail]), what is disclosed of the client, its address, two random
    numbers, and the socket of a new connection to the proxy. *)
Record httpc_sys := mksys {
  forward_err : bool; disclose : disclose_src_e; client_ip : list Z; client_port : Z; rand1 : Z; rand2 : Z; new_fd : option Z }.

(** [inet_ntoa] and the port. *)
Definition dotted (ip : list Z) : list Z :=
  match ip with [a; b; c; d] => print_u a ++ bytes "." ++ print_u b ++ bytes "." ++ print_u c ++ bytes "." ++ print_u d | _ => [] end.
Definition port_of (p : list Z) : Z := match p with [a; b] => 256 * a + b | _ => 0 end.
Definition dest_text (d : list Z * list Z) : list Z := dotted (fst d) ++ bytes ":" ++ print_u (port_of (snd d)).

Definition url_len : Z := 128.
(** [last_auth_query + 7]; the string has a NUL at its end and no byte after it. *)
Definition skip_scheme (q : list Z) : outcome (list Z) := if zlen q <? 7 then Fault else Ret (drop 7 q).

(** The scheme and the credentials for the last challenge, if it can be met. *)
Definition auth_string (h : httpc_sys) (c : clienth) (count : Z) : outcome (option (list Z * list Z)) :=
  match last_auth_query (payload c) with
  | None => Ret None
  | Some q =>
      if strncaseeq q (bytes "Basic") 5 then
        match login (instance c), password (instance c) with
        | Some l, Some p => r ← basic_authentication_encode l p; Ret (match r with Some s => Some (bytes "Basic", c_str s) | None => None end)
        | _, _ => Fault
        end
      else if strncaseeq q (bytes "Digest") 6 then
        let uri := take (Z.to_nat (url_len - 1)) (dest_text (destaddr c)) in
        let cnounce := hex8 (rand1 h) ++ hex8 (rand2 h) in
        line ← skip_scheme q;
        r ← digest_authentication_encode line (login (instance c)) (password (instance c)) (bytes "CONNECT") uri count cnounce;
        Ret (match r with Some s => Some (bytes "Digest", s) | None => None end)
      else Ret None
  end.

Definition disclosed (h : httpc_sys) : list Z :=
  match disclose h with
  | DISCLOSE_NONE => []
  | DISCLOSE_X_FORWARDED_FOR => bytes "X-Forwarded-For: " ++ client_ip h ++ CRLF
  | DISCLOSE_FORWARDED_IP => bytes "Forwarded: for=" ++ client_ip h ++ CRLF
  | DISCLOSE_FORWARDED_IPPORT => bytes "Forwarded: for=" ++ [QUOTE] ++ client_ip h ++ bytes ":" ++ print_u (client_port h) ++ [QUOTE] ++ CRLF
  end.

Definition httpc_mkconnect (h : httpc_sys) (c : clienth) : outcome (option (list Z)) :=
  a ← auth_string h c (last_auth_count (payload c));
  Ret (Some (bytes "CONNECT " ++ dest_text (destaddr c) ++ bytes " HTTP/1.0" ++ CRLF ++
             match a with Some (scheme, s) => auth_response_header ++ bytes " " ++ scheme ++ bytes " " ++ s ++ CRLF | None => [] end ++
             disclosed h ++ CRLF)).

(** The counter is incremented when the request is made. *)
Definition count_request (c : clienth) : clienth :=
  set_payload (mkauth (last_auth_query (payload c)) (s32 (last_auth_count (payload c) + 1))) c.

Definition httpc_write_cb (h : httpc_sys) (e : env) (c : clienth) : outcome (hres http_auth) :=
  let c := redsocks_touch_client e c in
  if state c =? httpc_new then redsocks_write_helper_ex (count_request c) (Some (httpc_mkconnect h)) httpc_request_sent 1 HTTP_HEAD_WM_HIGH
  else if httpc_request_sent <=? state c then
    b ← get_bev SRelay c; Ret (Alive (set_relay (Some (bufferevent_disable EV_WRITE b)) c))
  else Ret (Alive c).

(** ** Reading the reply *)
Definition set_relay_input (i : list Z) (c : clienth) : outcome clienth :=
  b ← get_bev SRelay c; Ret (set_relay (Some (set_input i b)) c).
Definition write_client (bs : list Z) (c : clienth) : outcome clienth :=
  b ← get_bev SClient c; Ret (set_client (Some (set_output (bev_output b ++ bs) b)) c).

(** The new challenge is stored, the connection to the proxy is closed and opened
    again, and the request starts over. *)
Definition httpc_retry (h : httpc_sys) (auth_request : list Z) (c : clienth) : outcome (hres http_auth) :=
  let query := skip_space (drop (length auth_request_header) auth_request) in
  let c := set_payload (mkauth (Some query) 0) c in
  b ← get_bev SRelay c;
  let c := set_io (add_closed (if bev_fd b =? -1 then [] else [bev_fd b]) (io c)) (set_relay None c) in
  let c := set_cbs CbConnecting (set_state httpc_new c) in
  Ret (redsocks_connect_relay c (new_fd h)).

(** The first line: the callback returns, or goes on with the client and the
    headers copied for it. *)
Inductive first_line := FReturn (r : hres http_auth) | FGoOn (c : clienth) (tee : option (list Z)).

Definition httpc_status (h : httpc_sys) (line : list Z) (c : clienth) : outcome first_line :=
  let no_way tee c := c ← (if forward_err h then write_client (line ++ CRLF) c else Ret c); Ret (FGoOn (set_state httpc_no_way c) tee) in
  match scan_status line with
  | None => no_way None c
  | Some code =>
      if code =? 407 then
        if match last_auth_query (payload c) with Some _ => last_auth_count (payload c) =? 1 | None => false end then no_way None c
        else match login (instance c), password (instance c) with
             | Some _, Some _ =>
                 b ← get_bev SRelay c;
                 '(auth_request, input, tee) ← http_auth_request_header (S (length (bev_input b))) (bev_input b) (if forward_err h then Some [] else None);
                 c ← set_relay_input input c;
                 match auth_request with
                 | None => no_way tee c
                 | Some a => r ← httpc_retry h a c; Ret (FReturn r)
                 end
             | _, _ => no_way None c
             end
      else if (200 <=? code) && (code <=? 299) then Ret (FGoOn (set_state httpc_reply_came c) None)
      else no_way None c
  end.

Definition httpc_first_line (h : httpc_sys) (c : clienth) : outcome first_line :=
  b ← get_bev SRelay c;
  match redsocks_evbuffer_readline (bev_input b) with
  | Some (line, rest) => c ← set_relay_input rest c; httpc_status h line c
  | None => if HTTP_HEAD_WM_HIGH <=? zlen (bev_input b) then Ret (FGoOn (set_state httpc_no_way c) None) else Ret (FGoOn c None)
  end.

(** The error page is forwarded: what the client sends no longer matters. *)
Definition httpc_forward (tee : option (list Z)) (c : clienth) : outcome clienth :=
  c ← (match tee with Some t => write_client t c | None => Ret c end);
  r ← redsocks_shutdown c SClient SHUT_RD;
  match r with
  | Dropped _ => Fault                       (* the client is used after it was freed *)
  | Alive c =>
      b ← get_bev SClient c;
      let c := set_client (Some (set_input [] b)) c in
      r ← redsocks_shutdown c SRelay SHUT_WR;
      match r with Dropped _ => Fault | Alive c => Ret (set_state httpc_headers_skipped c) end
  end.

(** The loop over the header lines; each takes a line of the input. *)
Fixpoint httpc_skip_headers (fuel : nat) (c : clienth) : outcome clienth :=
  if negb (state c =? httpc_reply_came) then Ret c
  else
    match fuel with
    | O => Fault
    | S fuel =>
        b ← get_bev SRelay c;
        match redsocks_evbuffer_readline (bev_input b) with
        | Some (line, rest) =>
            c ← set_relay_input rest c;
            httpc_skip_headers fuel (match line with [] => set_state httpc_headers_skipped c | _ => c end)
        | None => Ret c
        end
    end.

Definition httpc_read_cb (h : httpc_sys) (e : env) (c : clienth) : outcome (hres http_auth) :=
  _ ← assert ((state c =? httpc_request_sent) || (state c =? httpc_reply_came));
  let c := redsocks_touch_client e c in
  first ← (if state c =? httpc_request_sent then httpc_first_line h c else Ret (FGoOn c None));
  match first with
  | FReturn r => Ret r
  | FGoOn c tee =>
      c ← (if forward_err h && (state c =? httpc_no_way) then httpc_forward tee c else Ret c);
      if state c =? httpc_no_way then Ret (redsocks_drop_client c)
      else
        b ← get_bev SRelay c;
        c ← httpc_skip_headers (S (length (bev_input b))) c;
        if state c =? httpc_headers_skipped then redsocks_start_relay e c else Ret (Alive c)
  end.

Definition http_connect_subsys (h : httpc_sys) : relay_subsys http_auth := Subsys httpc_client_init (httpc_read_cb h) (httpc_write_cb h).
