(* ===== verification/HttpConnectSpec.v ===== *)
(** * redsocks: the reply of an HTTP proxy

    The reply is specified on the whole stream: a status line, header lines up to
    an empty one, and the tunnel.  The callback sees it in pieces, in a buffer of
    4096 bytes. *)
From S2P Require Import Prelude Encrypt Base64 Md5 HttpAuth Redsocks Handshake HttpConnect.
#[local] Open Scope Z_scope.

Inductive next := Line (l r : list Z) | TooLong | Partial.
Definition next_line (s : list Z) : next :=
  match find_nl s with
  | Some (l, r) => if zlen l <? HTTP_HEAD_WM_HIGH then Line l r else TooLong
  | None => if HTTP_HEAD_WM_HIGH <=? zlen s then TooLong else Partial
  end.
Definition text (l : list Z) : list Z := c_str (strip_cr l).

(** The tunnel is open and [rest] comes through it; the reply is refused; more of it
    is needed; or it does not fit the buffer and the code waits for ever. *)
Inductive hverdict := HAccept (rest : list Z) | HReject | HWait | HStuck.

Fixpoint headers_fuel (fuel : nat) (s : list Z) : hverdict :=
  match fuel with
  | O => HStuck
  | S fuel =>
      match next_line s with
      | Line l r => match text l with [] => HAccept r | _ => headers_fuel fuel r end
      | TooLong => HStuck
      | Partial => HWait
      end
  end.
Definition headers_spec (s : list Z) : hverdict := headers_fuel (S (length s)) s.
Definition reply_spec (s : list Z) : hverdict :=
  match next_line s with
  | Line l r =>
      match scan_status (text l) with
      | Some code => if (200 <=? code) && (code <=? 299) then headers_spec r else HReject
      | None => HReject
      end
  | TooLong => HReject
  | Partial => HWait
  end.

(** The reply demands credentials. *)
Definition demand_first (s : list Z) : bool :=
  match next_line s with
  | Line l _ => match scan_status (text l) with Some code => code =? 407 | None => false end
  | _ => false
  end.
(** Credentials are configured. *)
Definition has_login (cfg : config) : bool := match login cfg, password cfg with Some _, Some _ => true | _, _ => false end.

(** ** The state that the clients of an instance share

    The authentication state belongs to the instance.  Between two events of a
    client other clients of the instance may change it, to any value. *)
Definition share (a : option http_auth) (c : clienth) : clienth := match a with Some a => set_payload a c | None => c end.
Fixpoint hs_run_shared (ss : relay_subsys http_auth) (evs : list (option http_auth * (env * hs_event))) (c : clienth) (net : list Z)
    : outcome (hres http_auth * list Z) :=
  match evs with
  | [] => Ret (Alive c, net)
  | (a, (e, ev)) :: evs' =>
      let c := share a c in
      if state c =? pump_active then Ret (Alive c, net)
      else '(r, net') ← hs_step ss e ev c net;
           match r with
           | Dropped l => Ret (Dropped l, net')
           | Alive c' => hs_run_shared ss evs' c' net'
           end
  end.

(** ** Lines *)
Lemma find_nl_length s l r : find_nl s = Some (l, r) → (length s = S (length l + length r))%nat.
Proof.
  revert l. induction s as [|c s IH]; intros l; [done|]. cbn [find_nl]. destruct (c =? 10); [by intros [= <- <-]|].
  destruct (find_nl s) as [[l0 r0]|]; [|done]. intros [= <- <-]. cbn [length]. by rewrite (IH l0 eq_refl).
Qed.
Lemma find_nl_app s t l r : find_nl s = Some (l, r) → find_nl (s ++ t) = Some (l, r ++ t).
Proof.
  revert l. induction s as [|c s IH]; intros l; [done|]. cbn [find_nl app]. destruct (c =? 10); [by intros [= <- <-]|].
  destruct (find_nl s) as [[l0 r0]|]; [|done]. intros [= <- <-]. by rewrite (IH l0 eq_refl).
Qed.
Lemma find_nl_none s t : find_nl s = None → find_nl (s ++ t) = match find_nl t with Some (l, r) => Some (s ++ l, r) | None => None end.
Proof.
  induction s as [|c s IH]; cbn [find_nl app]; [by destruct (find_nl t) as [[]|]|]. destruct (c =? 10); [done|]. destruct (find_nl s) as [[]|]; [done|].
  intros _. rewrite IH by done. by destruct (find_nl t) as [[]|].
Qed.

(** A line in the buffer is the next line of the stream. *)
Lemma next_line_buffer a t l r : find_nl a = Some (l, r) → zlen a ≤ HTTP_HEAD_WM_HIGH → next_line (a ++ t) = Line l (r ++ t).
Proof.
  intros E Hl. unfold next_line. rewrite (find_nl_app _ _ _ _ E). apply find_nl_length in E. by rewrite (proj2 (Z.ltb_lt _ _)) by lia.
Qed.
(** A full buffer without a line. *)
Lemma next_line_full a t : find_nl a = None → HTTP_HEAD_WM_HIGH ≤ zlen a → next_line (a ++ t) = TooLong.
Proof.
  intros E Hl. unfold next_line. rewrite find_nl_none by done. destruct (find_nl t) as [[l r]|].
  - by rewrite (proj2 (Z.ltb_ge _ _)) by (rewrite length_app; lia).
  - by rewrite (proj2 (Z.leb_le _ _)) by (rewrite length_app; lia).
Qed.
Lemma next_line_partial a : find_nl a = None → zlen a < HTTP_HEAD_WM_HIGH → next_line a = Partial.
Proof. intros E Hl. unfold next_line. rewrite E. by rewrite (proj2 (Z.leb_gt _ _)) by lia. Qed.

Lemma headers_fuel_enough f g s : (length s < f)%nat → (length s < g)%nat → headers_fuel f s = headers_fuel g s.
Proof.
  revert g s. induction f as [|f IH]; intros g s Hf Hg; [lia|]. destruct g as [|g]; [lia|]. cbn [headers_fuel]. unfold next_line.
  destruct (find_nl s) as [[l r]|] eqn:E; [|by destruct (_ <=? _)]. apply find_nl_length in E. destruct (zlen l <? HTTP_HEAD_WM_HIGH); [|done].
  destruct (text l); [done|]. apply IH; lia.
Qed.
Lemma headers_step s : headers_spec s =
  match next_line s with Line l r => match text l with [] => HAccept r | _ => headers_spec r end | TooLong => HStuck | Partial => HWait end.
Proof.
  unfold headers_spec at 1. cbn [headers_fuel]. unfold next_line. destruct (find_nl s) as [[l r]|] eqn:E; [|by destruct (_ <=? _)]. apply find_nl_length in E.
  destruct (zlen l <? HTTP_HEAD_WM_HIGH); [|done]. destruct (text l); [done|]. apply headers_fuel_enough; lia.
Qed.

(** ** The callback *)
Section Reply.
Context (h : httpc_sys) (Hfwd : forward_err h = false).
Context (cfg : config) (cfd rfd : Z) (full request : list Z).

(** The reply demands no credentials, or there are none to send. *)
Definition settled (s : list Z) : Prop := has_login cfg && demand_first s = false.

(** The client while it reads the reply; [input] is in the buffer of the relay. *)
Record reading (c : clienth) (input net : list Z) : Prop := {
  rd_relay : ∃ b, relay c = Some b ∧ bev_input b = input ∧ bev_fd b = rfd ∧ wm_read_low b = 1 ∧ wm_read_high b = HTTP_HEAD_WM_HIGH ∧
               Z.land (bev_enabled b) EV_READ ≠ 0 ∧ to_relay (io c) ++ bev_output b = request;
  rd_client : ∃ bc, client c = Some bc ∧ bev_input bc = from_client (io c) ∧ bev_fd bc = cfd ∧ wm_read_low bc = 0;
  rd_inst : instance c = cfg;
  rd_cbs : cbs c = CbSubsys;
  rd_net : from_relay (io c) ++ net = full }.

(** Between two callbacks: no line in the buffer. *)
Definition waits (v : hverdict) (c : clienth) (net : list Z) : Prop :=
  ∃ input, reading c input net ∧ find_nl input = None ∧ zlen input ≤ HTTP_HEAD_WM_HIGH ∧
    ((state c = httpc_request_sent ∧ zlen input < HTTP_HEAD_WM_HIGH ∧ settled (input ++ net) ∧ reply_spec (input ++ net) = v) ∨
     (state c = httpc_reply_came ∧ headers_spec (input ++ net) = v)).

(** The tunnel is open; [rest] is what was not read by the handshake. *)
Definition opened (c : clienth) (net rest : list Z) : Prop :=
  state c = pump_active ∧ (∃ b, relay c = Some b ∧ bev_input b ++ net = rest ∧ to_relay (io c) ++ bev_output b = request) ∧
  (∃ bc, client c = Some bc ∧ bev_input bc = from_client (io c)) ∧ from_relay (io c) ++ net = full.

Definition post (v : hverdict) (r : hres http_auth) (net : list Z) : Prop :=
  match r with
  | Dropped _ => v = HReject
  | Alive c => waits v c net ∨ ∃ rest, v = HAccept rest ∧ opened c net rest
  end.

Lemma set_input_reading c input net r b : reading c input net → relay c = Some b → reading (set_relay (Some (set_input r b)) c) r net.
Proof.
  intros [(b0 & Hb & H1 & H2 & H3 & H4 & H5 & H6) H7 H8 H9 H10] Hr. rewrite Hr in Hb. injection Hb as <-. split; try done. eexists. split; [done|]. by split_and!.
Qed.
Lemma set_state_reading c input net st : reading c input net → reading (set_state st c) input net.
Proof. intros [H1 H2 H3 H4 H5]. by split. Qed.

(** The pump starts with what is left in the buffer. *)
Lemma start_opened e c input net : reading c input net → pipes_ok (instance c) e →
  ∃ c', redsocks_start_relay e c = Ret (Alive c') ∧ opened c' net (input ++ net).
Proof.
  intros [(b & Hr & Hi & Hf & _ & _ & _ & Ho) (bc & Hc & Hci & _) _ _ Hn] Hp. unfold redsocks_start_relay. cbn [instance set_state].
  destruct (use_splice (instance c)) eqn:Eu.
  - destruct (Hp Eu) as (p1 & p2 & p3 & p4 & Ha & Hb & _). unfold redsocks_start_splicepump, get_bev. cbn [bev client relay set_state].
    rewrite Hr, Hc, !bind_Ret, Ha, Hb. rewrite decide_False, decide_False by done. rewrite bind_Ret. eexists. split; [done|].
    split; [done|]. split; [eexists; split; [done|]; cbn; by rewrite Hi|]. split; [eexists; split; [done|]; done|done].
  - unfold redsocks_start_bufferpump, get_bev. cbn [bev client relay set_state]. rewrite Hr, Hc, !bind_Ret. eexists. split; [done|].
    split; [done|]. split; [eexists; split; [done|]; cbn; by rewrite Hi|]. split; [eexists; split; [done|]; done|done].
Qed.

(** The loop over the headers takes every line in the buffer. *)
Lemma skip_headers_ok fuel c input net : reading c input net → state c = httpc_reply_came → (length input < fuel)%nat → zlen input ≤ HTTP_HEAD_WM_HIGH →
  ∃ c' input', httpc_skip_headers fuel c = Ret c' ∧ reading c' input' net ∧ zlen input' ≤ HTTP_HEAD_WM_HIGH ∧ instance c' = instance c ∧
    ((state c' = httpc_headers_skipped ∧ headers_spec (input ++ net) = HAccept (input' ++ net)) ∨
     (state c' = httpc_reply_came ∧ find_nl input' = None ∧ headers_spec (input ++ net) = headers_spec (input' ++ net))).
Proof.
  revert c input. induction fuel as [|fuel IH]; intros c input Hrd Hst Hf Hl; [lia|]. cbn [httpc_skip_headers]. rewrite Hst. cbn [Z.eqb Pos.eqb httpc_reply_came negb].
  pose proof (rd_relay _ _ _ Hrd) as (b & Hr & Hi & _). unfold set_relay_input, get_bev. cbn [bev]. rewrite Hr, bind_Ret, Hi. unfold redsocks_evbuffer_readline.
  destruct (find_nl input) as [[l r]|] eqn:E.
  2: { exists c, input. split; [done|]. split; [done|]. split; [done|]. split; [done|]. by right. }
  rewrite !bind_Ret. pose proof (find_nl_length _ _ _ E) as Hlen. set (c1 := set_relay (Some (set_input r b)) c).
  assert (Hrd1 : reading c1 r net) by (by eapply set_input_reading). rewrite headers_step, (next_line_buffer _ net _ _ E Hl). fold (text l). destruct (text l) as [|x t].
  - exists (set_state httpc_headers_skipped c1), r. split; [by destruct fuel|]. split; [by apply set_state_reading|]. split; [lia|]. split; [done|]. by left.
  - change (instance c) with (instance c1). apply IH; try done; lia.
Qed.

Lemma touch_reading e c input net : reading c input net → reading (redsocks_touch_client e c) input net.
Proof. intros [H1 H2 H3 H4 H5]. by split. Qed.

(** The status line when there are no credentials to offer or none are asked for:
    the headers follow, or the proxy refused. *)
Lemma status_ok line c : has_login (instance c) = false ∨ scan_status line ≠ Some 407 →
  httpc_status h line c = Ret (FGoOn (set_state
    (match scan_status line with Some code => if (200 <=? code) && (code <=? 299) then httpc_reply_came else httpc_no_way | None => httpc_no_way end) c) None).
Proof.
  intros Hlog. unfold httpc_status. rewrite Hfwd. destruct (scan_status line) as [code|]; [|done]. destruct (Z.eqb_spec code 407) as [->|Hne].
  - destruct Hlog as [Hlog|Hlog]; [|done]. unfold has_login in Hlog. destruct (match last_auth_query (payload c) with Some _ => _ | None => _ end); [done|].
    by destruct (login (instance c)), (password (instance c)).
  - by destruct ((200 <=? code) && (code <=? 299)).
Qed.

(** The end of the callback, from the headers on. *)
Lemma headers_part e c input net : reading c input net → state c = httpc_reply_came → zlen input ≤ HTTP_HEAD_WM_HIGH → pipes_ok (instance c) e →
  ∃ r, (b ← get_bev SRelay c; c ← httpc_skip_headers (S (length (bev_input b))) c;
        if state c =? httpc_headers_skipped then redsocks_start_relay e c else Ret (Alive c)) = Ret r ∧ post (headers_spec (input ++ net)) r net.
Proof.
  intros Hrd Hst Hl Hp. pose proof (rd_relay _ _ _ Hrd) as (b & Hr & Hi & _). unfold get_bev. cbn [bev]. rewrite Hr, bind_Ret, Hi.
  destruct (skip_headers_ok (S (length input)) c input net Hrd Hst) as (c' & i' & -> & Hrd' & Hl' & Hin & Hc); [lia|done|]. rewrite bind_Ret.
  destruct Hc as [[Hs' Hv]|(Hs' & Hnl & Hv)]; rewrite Hs'.
  - cbn [Z.eqb Pos.eqb httpc_headers_skipped]. rewrite <- Hin in Hp. destruct (start_opened e c' i' net Hrd' Hp) as (c2 & -> & Ho). eexists. split; [done|]. right. by eexists.
  - cbn [Z.eqb Pos.eqb httpc_headers_skipped httpc_reply_came]. eexists. split; [done|]. left. exists i'. rewrite Hv. split; [done|]. split; [done|]. split; [done|]. by right.
Qed.

Lemma settled_line a t l r : find_nl a = Some (l, r) → zlen a ≤ HTTP_HEAD_WM_HIGH → settled (a ++ t) →
  has_login cfg = false ∨ scan_status (text l) ≠ Some 407.
Proof.
  intros E Hl. unfold settled, demand_first. rewrite (next_line_buffer a t l r E Hl). destruct (has_login cfg); [|by left].
  intros H. right. intros E'. by rewrite E' in H.
Qed.

Lemma read_cb_ok e c input net : reading c input net → zlen input ≤ HTTP_HEAD_WM_HIGH → pipes_ok (instance c) e →
  (state c = httpc_request_sent ∧ settled (input ++ net)) ∨ state c = httpc_reply_came →
  ∃ r, httpc_read_cb h e c = Ret r ∧ post (if state c =? httpc_request_sent then reply_spec (input ++ net) else headers_spec (input ++ net)) r net.
Proof.
  intros Hrd Hl Hp Hst. unfold httpc_read_cb. rewrite (assert_true ((state c =? _) || _)), bind_Ret by (destruct Hst as [[-> _] | ->]; done).
  apply (touch_reading e) in Hrd. change (state (redsocks_touch_client e c)) with (state c). change (instance c) with (instance (redsocks_touch_client e c)) in Hp.
  set (c0 := redsocks_touch_client e c) in *. change (state c) with (state c0) in Hst |- *. clearbody c0. clear c. rename c0 into c.
  destruct Hst as [[Hst Hset]|Hst]; rewrite Hst; cbn [Z.eqb Pos.eqb httpc_request_sent httpc_reply_came].
  2: { rewrite bind_Ret, Hfwd. cbn [andb]. rewrite bind_Ret, Hst. cbn [Z.eqb Pos.eqb httpc_no_way httpc_reply_came]. by apply headers_part. }
  pose proof (rd_relay _ _ _ Hrd) as (b & Hr & Hi & _). unfold httpc_first_line, set_relay_input.
  assert (Hg : get_bev SRelay c = Ret b) by (unfold get_bev; cbn [bev]; by rewrite Hr). rewrite Hg, bind_Ret, Hi.
  unfold redsocks_evbuffer_readline. destruct (find_nl input) as [[l r]|] eqn:E.
  - pose proof (find_nl_length _ _ _ E). rewrite !bind_Ret. set (c1 := set_relay (Some (set_input r b)) c).
    assert (Hrd1 : reading c1 r net) by (by eapply set_input_reading). rewrite status_ok by (rewrite (rd_inst _ _ _ Hrd1); by eapply settled_line). rewrite bind_Ret, Hfwd. cbn [andb]. rewrite bind_Ret. fold (text l).
    unfold reply_spec. rewrite (next_line_buffer _ net _ _ E Hl). cbn [state set_state]. destruct (scan_status (text l)) as [code|]; [|by eexists].
    destruct ((200 <=? code) && (code <=? 299)); [|by eexists]. cbn [Z.eqb Pos.eqb httpc_no_way httpc_reply_came]. apply headers_part; [by apply set_state_reading|done|lia|done].
  - unfold reply_spec. destruct (Z.leb_spec HTTP_HEAD_WM_HIGH (zlen input)).
    + rewrite bind_Ret, Hfwd. cbn [andb]. rewrite bind_Ret. cbn [state set_state Z.eqb Pos.eqb httpc_no_way]. eexists. split; [done|]. cbn [post]. by rewrite next_line_full.
    + rewrite bind_Ret, Hfwd. cbn [andb]. rewrite bind_Ret, Hst. cbn [Z.eqb Pos.eqb httpc_no_way httpc_request_sent]. rewrite Hg, bind_Ret.
      cbn [httpc_skip_headers]. rewrite Hst. cbn [Z.eqb Pos.eqb httpc_reply_came negb httpc_request_sent]. rewrite bind_Ret, Hst. cbn [Z.eqb Pos.eqb httpc_headers_skipped httpc_request_sent].
      eexists. split; [done|]. left. exists input. split; [done|]. split; [done|]. split; [done|]. left. by split_and!.
Qed.

(** ** The events *)
Definition full_buffer (c : clienth) : Prop := ∃ b, relay c = Some b ∧ zlen (bev_input b) = HTTP_HEAD_WM_HIGH.

Lemma write_cb_ok e c input net : reading c input net → state c = httpc_request_sent ∨ state c = httpc_reply_came →
  ∃ c', httpc_write_cb h e c = Ret (Alive c') ∧ reading c' input net ∧ state c' = state c.
Proof.
  intros [(b & Hr & H1 & H2 & H3 & H4 & H5 & H6) H7 H8 H9 H10] Hst. unfold httpc_write_cb. change (state (redsocks_touch_client e c)) with (state c).
  assert ((state c =? httpc_new) = false ∧ (httpc_request_sent <=? state c) = true) as [-> ->] by (destruct Hst as [-> | ->]; done).
  unfold get_bev. cbn [bev]. change (relay (redsocks_touch_client e c)) with (relay c). rewrite Hr, bind_Ret. eexists. split; [done|]. split; [|done]. split; try done.
  eexists. split; [done|]. split_and!; try done. cbn. by rewrite <- Z.land_assoc.
Qed.

Lemma waits_states v c net : waits v c net → state c = httpc_request_sent ∨ state c = httpc_reply_came.
Proof. intros (i & _ & _ & _ & [[? _]|[? _]]); tauto. Qed.
(** What [waits] says depends on the input and the state alone. *)
Lemma waits_frame v c c' input net : waits v c net → reading c input net → reading c' input net → state c' = state c → waits v c' net.
Proof.
  intros (i & Hrd & H) Hin Hrd' Hst. exists input. rewrite Hst. split; [done|].
  destruct (rd_relay _ _ _ Hrd) as (b & Hr & <- & _), (rd_relay _ _ _ Hin) as (b' & Hr' & <- & _). rewrite Hr in Hr'. injection Hr' as <-. done.
Qed.
Lemma full_frame c c' input net : full_buffer c → reading c input net → reading c' input net → full_buffer c'.
Proof.
  intros (b & Hr & Hl) Hin Hrd. destruct (rd_relay _ _ _ Hin) as (b1 & Hr1 & E1 & _), (rd_relay _ _ _ Hrd) as (b2 & Hr2 & E2 & _).
  exists b2. split; [done|]. rewrite E2, <- E1. rewrite Hr in Hr1. by injection Hr1 as <-.
Qed.

Abbreviation ss := (http_connect_subsys h).
(** A step that leaves the reply alone. *)
Lemma write_step e c net n v : waits v c net →
  ∃ c' input, hs_step ss e (HWrite n) c net = Ret (Alive c', net) ∧ reading c input net ∧ reading c' input net ∧ state c' = state c.
Proof.
  intros Hw. pose proof (waits_states _ _ _ Hw) as Hst. destruct Hw as (input & Hrd & _). pose proof Hrd as [(b & Hr & H1 & H2 & H3 & H4 & H5 & H6) H7 H8 H9 H10].
  unfold hs_step, get_bev. cbn [bev]. rewrite Hr, bind_Ret. case_match; [by exists c, input|].
  unfold bufferevent_writecb, get_bev. cbn [bev]. rewrite Hr, bind_Ret. set (c1 := set_io _ _).
  assert (Hrd1 : reading c1 input net).
  { split; try done. eexists. split; [done|]. split_and!; try done. cbn. by rewrite <- app_assoc, take_drop. }
  case_match; [|by exists c1, input]. cbn [run_writecb]. replace (cbs c1) with CbSubsys by done.
  destruct (write_cb_ok e c1 input net Hrd1 Hst) as (c' & E & Hrd' & Hs). cbn [ss_writecb http_connect_subsys]. rewrite E. by exists c', input.
Qed.
Lemma client_step e c net bs v : waits v c net →
  ∃ c' input, hs_step ss e (HClient bs) c net = Ret (Alive c', net) ∧ reading c input net ∧ reading c' input net ∧ state c' = state c.
Proof.
  intros (input & Hrd & _). pose proof Hrd as [H1 (bc & Hc & H2 & H3 & H4) H8 H9 H10].
  unfold hs_step, get_bev. cbn [bev]. rewrite Hc, bind_Ret. case_match; [by exists c, input|].
  unfold bufferevent_readcb, get_bev. cbn [bev]. rewrite Hc, bind_Ret. set (c1 := set_io _ _).
  assert (Hrd1 : reading c1 input net).
  { split; try done. eexists. split; [done|]. split_and!; try done. cbn. by rewrite H2. }
  exists c1, input. cbn [run_readcb]. replace (cbs c1) with CbSubsys by done. by case_match.
Qed.

(** A read: the callback runs on the longer input; or the buffer is full. *)
Lemma read_step e c net j v : waits v c net → pipes_ok cfg e → 0 < j →
  ∃ r net', hs_step ss e (HRead j) c net = Ret (r, net') ∧ post v r net' ∧
    ((r = Alive c ∧ net' = net ∧ (net = [] ∨ full_buffer c)) ∨ (length net' < length net)%nat).
Proof.
  intros Hw Hp Hj. pose proof (waits_states _ _ _ Hw) as Hst. pose proof Hw as (input & Hrd & Hnl & Hl & Hv). pose proof Hrd as [(b & Hr & H1 & H2 & H3 & H4 & H5 & H6) H7 H8 H9 H10].
  unfold hs_step, get_bev. cbn [bev]. rewrite Hr, bind_Ret. set (n := Z.to_nat (howmuch b j)). case_match eqn:Ew.
  { exists (Alive c), net. split; [done|]. split; [by left|]. left. split; [done|]. split; [done|].
    unfold read_suspended in Ew. bool_hyps. rewrite length_take in Ew. destruct (decide (net = [])) as [|Hne]; [by left|]. right. exists b. split; [done|].
    assert (length net ≠ 0)%nat by (by destruct net). rewrite H1 in *. unfold n, howmuch in Ew. rewrite H4, H1 in Ew. unfold HTTP_HEAD_WM_HIGH in *. cbn [Z.eqb] in Ew. lia. }
  bool_hyps. destruct Ew as [[_ Hsu] Hne]. rewrite length_take in Hne. unfold bufferevent_readcb, get_bev. cbn [bev]. rewrite Hr, bind_Ret. set (b1 := set_input _ b). set (c1 := set_io _ _).
  assert (Hn : (Z.of_nat n ≤ HTTP_HEAD_WM_HIGH - zlen input)) by (unfold n, howmuch; rewrite H4, H1; unfold HTTP_HEAD_WM_HIGH in *; cbn [Z.eqb]; lia).
  assert (Hrd1 : reading c1 (input ++ take n net) (drop n net)).
  { split; try done; [|cbn; by rewrite <- app_assoc, take_drop]. exists b1. split; [done|]. split_and!; try done. cbn. by rewrite H1. }
  assert (Hl1 : zlen (input ++ take n net) ≤ HTTP_HEAD_WM_HIGH) by (rewrite length_app, length_take; lia).
  replace (wm_read_low b1 <=? _) with true by (symmetry; apply Z.leb_le; cbn; rewrite H3, H1, length_app, length_take; lia).
  cbn [run_readcb]. replace (cbs c1) with CbSubsys by done. cbn [ss_readcb http_connect_subsys].
  destruct (read_cb_ok e c1 _ (drop n net) Hrd1 Hl1) as (r & -> & Hpost); [by rewrite (rd_inst _ _ _ Hrd1)|rewrite <- app_assoc, take_drop; destruct Hv as [(Hs & _ & Hset & _)|[Hs _]]; [by left|by right]|]. exists r, (drop n net). split; [done|].
  rewrite <- app_assoc, take_drop in Hpost. split; [|right; rewrite length_drop; lia].
  change (state c1) with (state c) in Hpost. destruct Hv as [(Hs & _ & _ & <-)|[Hs <-]]; by rewrite Hs in Hpost.
Qed.

(** What the run leaves, for each verdict. *)
Definition httpc_agrees (v : hverdict) (r : hres http_auth) (net : list Z) : Prop :=
  match v with
  | HReject => ∃ l, r = Dropped l
  | HAccept rest => ∃ c, r = Alive c ∧ opened c net rest
  | HWait => net = [] ∧ ∃ c, r = Alive c ∧ state c ≠ pump_active ∧ ∃ input, reading c input net
  | HStuck => ∃ c, r = Alive c ∧ state c = httpc_reply_came ∧ full_buffer c ∧ ∀ e j, hs_step ss e (HRead j) c net = Ret (Alive c, net)
  end.

Lemma full_stays c input net e j : reading c input net → full_buffer c → hs_step ss e (HRead j) c net = Ret (Alive c, net).
Proof.
  intros Hrd (b & Hr & Hl). destruct (rd_relay _ _ _ Hrd) as (b' & Hr' & _ & _ & _ & Hh & _). rewrite Hr in Hr'. injection Hr' as <-.
  unfold hs_step, get_bev, read_suspended. cbn [bev]. rewrite Hr, bind_Ret, Hh, Hl. cbn [HTTP_HEAD_WM_HIGH Z.eqb negb]. rewrite Z.leb_refl. cbn [andb]. by rewrite orb_true_r.
Qed.
(** The end of the stream, or a full buffer. *)
Lemma waits_end v c net : waits v c net → net = [] ∨ full_buffer c → httpc_agrees v (Alive c) net.
Proof.
  intros Hw Hend. pose proof (waits_states _ _ _ Hw) as Hst. destruct Hw as (input & Hrd & Hnl & Hl & Hv).
  pose proof (rd_relay _ _ _ Hrd) as (b & Hr & Hi & _). destruct (Z.eq_dec (zlen input) HTTP_HEAD_WM_HIGH) as [Hf|Hf].
  - destruct Hv as [(_ & ? & _)|[Hs <-]]; [lia|]. rewrite headers_step, (next_line_full input net Hnl) by lia. cbn [httpc_agrees].
    assert (Hfull : full_buffer c) by (exists b; by rewrite Hi). exists c. split_and!; try done. intros e j. by eapply full_stays.
  - destruct Hend as [-> |(b' & Hr' & Hl')]; [|rewrite Hr in Hr'; injection Hr' as <-; by rewrite Hi in Hl'].
    assert (v = HWait) as ->.
    { rewrite app_nil_r in Hv. destruct Hv as [(_ & _ & _ & <-)|[_ <-]]; [unfold reply_spec|rewrite headers_step]; by rewrite next_line_partial by (done || lia). }
    split; [done|]. exists c. split; [done|]. split; [by destruct Hst as [-> | ->]|by exists input].
Qed.

(** The tunnel is open: the handshake is over, whatever is shared. *)
Lemma opened_run evs c net rest : opened c net rest → ∃ c', hs_run_shared ss evs c net = Ret (Alive c', net) ∧ opened c' net rest.
Proof.
  intros Ho. destruct evs as [|[a [e ev]] evs]; [by exists c|]. cbn [hs_run_shared]. exists (share a c). split; [|by destruct a].
  replace (state (share a c)) with (state c) by by destruct a. by destruct Ho as [-> _].
Qed.
Lemma waits_share v c net a : waits v c net → waits v (share a c) net.
Proof. intros (input & [H1 H2 H3 H4 H5] & H). destruct a as [a|]; exists input; (split; [by split|exact H]). Qed.
Lemma full_share c a : full_buffer c → full_buffer (share a c).
Proof. by destruct a. Qed.

Lemma httpc_run evs c net v : waits v c net → Forall (λ x, hs_ok cfg x.2) evs → full_buffer c ∨ (length net ≤ reads (map snd evs))%nat →
  ∃ r net', hs_run_shared ss evs c net = Ret (r, net') ∧ httpc_agrees v r net'.
Proof.
  intros Hw Hok. revert c net Hw. induction Hok as [|[a [e ev]] evs [Hp Hev] _ IH]; intros c net Hw Hend.
  { exists (Alive c), net. split; [done|]. apply waits_end; [done|]. destruct Hend as [?|Hl]; [by right|]. left. by destruct net; [|simpl in Hl; lia]. }
  apply (waits_share _ _ _ a) in Hw. assert (Hend' : full_buffer (share a c) ∨ (length net ≤ reads (map snd ((a, (e, ev)) :: evs)))%nat) by (destruct Hend; [left; by apply full_share|by right]). clear Hend.
  cbn [hs_run_shared]. set (c0 := share a c) in *. clearbody c0. clear c. rename c0 into c. rename Hend' into Hend.
  rewrite (proj2 (Z.eqb_neq (state c) pump_active)) by (by destruct (waits_states _ _ _ Hw) as [-> | ->]). cbn [map snd fst] in *.
  destruct ev as [j|n|bs].
  - destruct Hend as [Hf|Hl]; [pose proof Hw as (i & Hrd & _); rewrite (full_stays c i net e j Hrd Hf), bind_Ret; apply IH; [done|by left]|].
    destruct (read_step e c net j v Hw Hp Hev) as (r & net1 & -> & Hpost & Hd). rewrite bind_Ret. destruct r as [c1|l]; [|exists (Dropped l), net1; split; [done|]; cbn [post] in Hpost; subst v; by eexists].
    destruct Hpost as [Hw1|(rest & -> & Ho)].
    + apply IH; [done|]. cbn [reads] in Hl. destruct Hd as [([= ->] & -> & [-> |Hf])|Hlt]; [right; simpl; lia|by left|right; lia].
    + destruct (opened_run evs c1 net1 rest Ho) as (c2 & -> & Ho2). exists (Alive c2), net1. split; [done|]. by exists c2.
  - destruct (write_step e c net n v Hw) as (c1 & input & -> & Hin & Hrd & Hs). rewrite bind_Ret. apply IH; [by eapply waits_frame|].
    destruct Hend as [Hf|Hl]; [left; by eapply full_frame|by right].
  - destruct (client_step e c net bs v Hw) as (c1 & input & -> & Hin & Hrd & Hs). rewrite bind_Ret. apply IH; [by eapply waits_frame|].
    destruct Hend as [Hf|Hl]; [left; by eapply full_frame|by right].
Qed.

End Reply.

(** The relay is connected: the request goes out. *)
Lemma httpc_start h e cfg cfd rfd dest count net :
  connected_ok e = true → settled cfg net → ∃ c request, hs_start (http_connect_subsys h) e cfg (mkauth None count) cfd rfd dest = Ret (Alive c) ∧
    request = bytes "CONNECT " ++ dest_text dest ++ bytes " HTTP/1.0" ++ CRLF ++ disclosed h ++ CRLF ∧
    waits cfg cfd rfd net request (reply_spec net) c net.
Proof.
  intros He Hset. rewrite (hs_start_eq _ _ _ _ _ _ _ httpc_new (mkauth None count)); [|done|]. 
  2: { intros c _ <-. by destruct c. }
  eexists _, _. split; [cbn; reflexivity|]. split; [done|]. exists []. split.
  - split; try done; eexists; (split; [done|]); by split_and!.
  - split; [done|]. split; [done|]. left. by split_and!.
Qed.

(** ** Authentication

    Lines on the wire: no NUL and no LF in them. *)
Definition text_line (l : list Z) : bool := forallb (λ c, negb (c =? 0) && negb (c =? 10)) l.
Definition wire (ls : list (list Z)) : list Z := concat (map (λ l, l ++ CRLF) ls).
(** A header other than the challenge. *)
Definition plain_header (l : list Z) : bool := text_line l && existsb (Z.eqb 58) l && negb (strncaseeq l auth_request_header (length auth_request_header)).

Lemma strip_cr_app l : strip_cr (l ++ [13]) = l.
Proof. induction l as [|c l IH]; [done|]. cbn [app strip_cr]. rewrite IH. by destruct l. Qed.
Lemma c_str_text l : text_line l = true → c_str l = l.
Proof.
  induction l as [|c l IH]; [done|]. unfold text_line. cbn [forallb c_str]. rewrite !andb_true_iff, negb_true_iff. intros [[Hc _] Hl]. by rewrite Hc, IH.
Qed.
Lemma find_nl_text l r : text_line l = true → find_nl (l ++ 10 :: r) = Some (l, r).
Proof.
  induction l as [|c l IH]; [done|]. unfold text_line. cbn [forallb app find_nl]. rewrite !andb_true_iff, negb_true_iff. intros [[_ Hc%negb_true_iff] Hl]. by rewrite Hc, IH.
Qed.
Lemma readline_wire l r : text_line l = true → redsocks_evbuffer_readline ((l ++ CRLF) ++ r) = Some (l, r).
Proof.
  intros Hl. unfold redsocks_evbuffer_readline. replace ((l ++ CRLF) ++ r) with ((l ++ [13]) ++ 10 :: r) by (by rewrite <- !app_assoc). rewrite find_nl_text, strip_cr_app.
  - by rewrite c_str_text.
  - unfold text_line in *. rewrite forallb_app. by rewrite Hl.
Qed.
(** A line cut before its LF. *)
Lemma readline_cut l r n : text_line l = true → (n < length (l ++ CRLF))%nat → redsocks_evbuffer_readline (take n ((l ++ CRLF) ++ r)) = None.
Proof.
  intros Hl Hn. unfold redsocks_evbuffer_readline. rewrite take_app_le by lia. replace (find_nl _) with (@None (list Z * list Z)); [done|].
  rewrite length_app in Hn. cbn [length CRLF] in Hn. revert n Hn. induction l as [|c l IH]; intros n Hn.
  - destruct n as [|[|n]]; [done|done|]. cbn in Hn. lia.
  - destruct n as [|n]; [done|]. unfold text_line in Hl. cbn [forallb app take find_nl length] in *. rewrite !andb_true_iff in Hl. destruct Hl as [[_ Hc%negb_true_iff] Hl]. rewrite Hc.
    by rewrite <- IH by (done || lia).
Qed.

Lemma plain_not_end l : plain_header l = true → match l with [] => true | _ => negb (existsb (Z.eqb 58) l) end = false.
Proof. unfold plain_header. rewrite !andb_true_iff. intros [[_ H] _]. destruct l; [done|]. by rewrite H. Qed.

(** The loop finds the challenge behind other headers. *)
Lemma header_found fuel ls a rest tee : Forall (λ l, plain_header l = true) ls → text_line a = true →
  strncaseeq a auth_request_header (length auth_request_header) = true → existsb (Z.eqb 58) a = true → (length ls < fuel)%nat →
  ∃ tee', http_auth_request_header fuel (wire (ls ++ [a]) ++ rest) tee = Ret (Some a, rest, tee').
Proof.
  intros Hls Ht Ha Hc. revert fuel tee. induction Hls as [|l ls Hl Hls IH]; intros fuel tee Hf; (destruct fuel as [|fuel]; [lia|]); cbn [http_auth_request_header wire map concat app].
  - rewrite app_nil_r, readline_wire by done. replace (match a with [] => true | _ => _ end) with false by (destruct a; [done|by rewrite Hc]). rewrite Ha. by eexists.
  - rewrite <- app_assoc. pose proof Hl as Hl'. unfold plain_header in Hl'. rewrite !andb_true_iff in Hl'. destruct Hl' as [[Hlt _] Hn%negb_true_iff].
    rewrite readline_wire by done. rewrite plain_not_end by done. rewrite Hn. apply IH. cbn [length] in Hf. lia.
Qed.
(** It gives up at the end of what has arrived. *)
Lemma header_cut fuel ls a n : Forall (λ l, plain_header l = true) ls → text_line a = true → (n < length (wire (ls ++ [a])))%nat → (n < fuel)%nat →
  ∃ r, http_auth_request_header fuel (take n (wire (ls ++ [a]))) None = Ret (None, r, None).
Proof.
  intros Hls Ht. revert fuel n. induction Hls as [|l ls Hl Hls IH]; intros fuel n Hn Hf; (destruct fuel as [|fuel]; [lia|]); cbn [http_auth_request_header wire map concat app] in *.
  - rewrite app_nil_r in *. rewrite <- (app_nil_r (a ++ CRLF)), readline_cut by done. by eexists.
  - pose proof Hl as Hl'. unfold plain_header in Hl'. rewrite !andb_true_iff in Hl'. destruct Hl' as [[Hlt _] Hne%negb_true_iff].
    destruct (decide (n < length (l ++ CRLF))%nat) as [Hs|Hs]; [rewrite readline_cut by done; by eexists|].
    rewrite take_app_ge by lia. rewrite readline_wire by done. rewrite plain_not_end by done. rewrite Hne. rewrite !length_app in *. cbn [length CRLF] in *. apply IH; unfold wire; lia.
Qed.

Lemma wire_length ls : (length ls ≤ length (wire ls))%nat.
Proof. unfold wire. induction ls as [|l ls IH]; cbn [map concat length]; [lia|]. rewrite !length_app. cbn [length CRLF]. lia. Qed.

Lemma get_relay (c : clienth) b : relay c = Some b → get_bev SRelay c = Ret b.
Proof. intros E. unfold get_bev. cbn [bev]. by rewrite E. Qed.

(** The request was not sent in answer to the stored challenge. *)
Definition may_retry (a : http_auth) : bool := negb (match last_auth_query a with Some _ => last_auth_count a =? 1 | None => false end).

(** The callback on the status line 407 with credentials at hand. *)
Lemma challenged h e c b user passwd status input : state c = httpc_request_sent → relay c = Some b →
  login (instance c) = Some user → password (instance c) = Some passwd → may_retry (payload c) = true →
  text_line status = true → scan_status status = Some 407 → bev_input b = (status ++ CRLF) ++ input →
  ∀ a r tee, http_auth_request_header (S (length input)) input (if forward_err h then Some [] else None) = Ret (a, r, tee) →
  match a with
  | Some a => httpc_read_cb h e c = httpc_retry h a (set_relay (Some (set_input r (set_input input b))) (set_relay (Some (set_input input b)) (redsocks_touch_client e c)))
  | None => forward_err h = false → ∃ l, httpc_read_cb h e c = Ret (Dropped l)
  end.
Proof.
  intros Hst Hr Hlo Hpa Hq Ht Hs Hi a r tee Hh. unfold may_retry in Hq. apply negb_true_iff in Hq. unfold httpc_read_cb. rewrite (assert_true ((state c =? _) || _)), bind_Ret by (by rewrite Hst).
  change (state (redsocks_touch_client e c)) with (state c). rewrite Hst. cbn [Z.eqb Pos.eqb httpc_request_sent].
  set (c0 := redsocks_touch_client e c). assert (Hr0 : relay c0 = Some b) by done. unfold httpc_first_line, set_relay_input. rewrite (get_relay c0 b Hr0), bind_Ret, Hi, readline_wire, !bind_Ret by done.
  set (c2 := set_relay _ c0). unfold httpc_status. rewrite Hs. cbn [Z.eqb Pos.eqb]. change (payload c2) with (payload c). change (instance c2) with (instance c).
  rewrite Hq, Hlo, Hpa. rewrite (get_relay c2 (set_input input b)), bind_Ret by done. cbn [bev_input set_input]. rewrite Hh, bind_Ret. unfold set_relay_input. rewrite (get_relay c2 (set_input input b)), !bind_Ret by done.
  destruct a as [a|].
  - by destruct (httpc_retry _ _ _).
  - intros Hfwd. rewrite Hfwd, !bind_Ret. cbn [andb]. rewrite bind_Ret. by eexists.
Qed.

(** The request with an answer to a Digest challenge, or without one. *)
Definition connect_request (h : httpc_sys) (dest : list Z * list Z) (answer : option (list Z)) : list Z :=
  bytes "CONNECT " ++ dest_text dest ++ bytes " HTTP/1.0" ++ CRLF ++
  match answer with Some s => auth_response_header ++ bytes " Digest " ++ s ++ CRLF | None => [] end ++ disclosed h ++ CRLF.
(** The answer to the challenge [ps], with the counter [n] and two random numbers. *)
Definition connect_answer (h : httpc_sys) (dest : list Z * list Z) (user passwd : list Z) (ps : list param) (n : Z) : option (list Z) :=
  if qop_list (challenge_of ps) then None
  else rfc_answer (challenge_of ps) user passwd (bytes "CONNECT") (take (Z.to_nat (url_len - 1)) (dest_text dest)) n (hex8 (rand1 h) ++ hex8 (rand2 h)).
(** A challenge that can be written and read back. *)
Definition challenge_ok (ps : list param) : Prop :=
  forallb param_ok ps = true ∧ forallb (λ p, clear_name (p_name p)) ps = true ∧ zlen (print_params ps) < MD5_PIECE.

Lemma encode_params ps user passwd method uri count cnonce :
  Forall (λ d, zlen d < MD5_PIECE) [print_params ps; user; passwd; method; uri; cnonce] → forallb param_ok ps = true → forallb (λ p, clear_name (p_name p)) ps = true →
  digest_authentication_encode (print_params ps) (Some user) (Some passwd) method uri count cnonce = Ret (digest_answer (challenge_of ps) user passwd method uri count cnonce).
Proof. intros Hs Hok Hcl. rewrite encode_answer by auto. rewrite extract_all_print by (try done; lia). by rewrite collect_params. Qed.

Lemma auth_digest h (c : clienth) user passwd ps count :
  login (instance c) = Some user → password (instance c) = Some passwd → last_auth_query (payload c) = Some (bytes "Digest " ++ print_params ps) →
  Forall (λ d, zlen d < MD5_PIECE) [print_params ps; user; passwd] → forallb param_ok ps = true → forallb (λ p, clear_name (p_name p)) ps = true →
  auth_string h c count = Ret (match digest_answer (challenge_of ps) user passwd (bytes "CONNECT") (take (Z.to_nat (url_len - 1)) (dest_text (destaddr c))) count (hex8 (rand1 h) ++ hex8 (rand2 h)) with
                               | Some s => Some (bytes "Digest", s) | None => None end).
Proof.
  intros Hlo Hpa Hq Hs Hok Hcl. unfold auth_string. rewrite Hq, Hlo, Hpa.
  replace (strncaseeq (bytes "Digest " ++ print_params ps) (bytes "Basic") 5) with false by reflexivity. replace (strncaseeq (bytes "Digest " ++ print_params ps) (bytes "Digest") 6) with true by reflexivity.
  unfold skip_scheme. rewrite (proj2 (Z.ltb_ge _ _)) by (rewrite length_app; cbn [bytes length]; lia). replace (drop 7 (bytes "Digest " ++ print_params ps)) with (print_params ps) by reflexivity.
  rewrite bind_Ret, encode_params, bind_Ret; [done| |done|done]. repeat match goal with H : Forall _ (_ :: _) |- _ => apply Forall_cons_1 in H as [? H] end.
  repeat (apply Forall_cons_2; [first [assumption|unfold MD5_PIECE; rewrite ?length_take, ?length_app, ?hex8_length; cbn [bytes length]; unfold url_len; lia]|]). apply Forall_nil_2.
Qed.
Lemma mkconnect_digest h (c : clienth) user passwd ps n :
  login (instance c) = Some user → password (instance c) = Some passwd → payload c = mkauth (Some (bytes "Digest " ++ print_params ps)) n →
  Forall (λ d, zlen d < MD5_PIECE) [print_params ps; user; passwd] → forallb param_ok ps = true → forallb (λ p, clear_name (p_name p)) ps = true →
  httpc_mkconnect h c = Ret (Some (connect_request h (destaddr c) (connect_answer h (destaddr c) user passwd ps n))).
Proof.
  intros Hlo Hpa Hpl Hs Hok Hcl. unfold httpc_mkconnect. rewrite (auth_digest h c user passwd ps _ Hlo Hpa); [|by rewrite Hpl|done..]. rewrite bind_Ret, Hpl. cbn [last_auth_count].
  unfold connect_request, connect_answer. fold (digest_answer (challenge_of ps) user passwd (bytes "CONNECT") (take (Z.to_nat (url_len - 1)) (dest_text (destaddr c))) n (hex8 (rand1 h) ++ hex8 (rand2 h))).
  by destruct (digest_answer _ _ _ _ _ _ _).
Qed.

(** The new connection is up: the credentials go out. *)
Lemma answered h e c b user passwd ps n : relay c = Some b → cbs c = CbConnecting → state c = httpc_new → bev_output b = [] → wm_write_low b = 0 → connected_ok e = true →
  login (instance c) = Some user → password (instance c) = Some passwd → payload c = mkauth (Some (bytes "Digest " ++ print_params ps)) n →
  Forall (λ d, zlen d < MD5_PIECE) [print_params ps; user; passwd] → forallb param_ok ps = true → forallb (λ p, clear_name (p_name p)) ps = true →
  ∃ c' b', bufferevent_writecb (http_connect_subsys h) e c SRelay 0 = Ret (Alive c') ∧ relay c' = Some b' ∧ bev_fd b' = bev_fd b ∧ state c' = httpc_request_sent ∧
    bev_output b' = connect_request h (destaddr c) (connect_answer h (destaddr c) user passwd ps (s32 (n + 1))).
Proof.
  intros Hr Hcb Hst Ho Hw He Hlo Hpa Hpl Hs Hok Hcl. unfold bufferevent_writecb. rewrite (get_relay c b Hr), bind_Ret, Ho, Hw. change (zlen (drop (Z.to_nat 0) (@nil Z)) <=? 0) with true. cbn match.
  unfold run_writecb. set (c1 := set_io _ _). replace (cbs c1) with CbConnecting by exact (eq_sym Hcb). unfold redsocks_relay_connected. rewrite He. cbn [ss_writecb http_connect_subsys].
  unfold httpc_write_cb. set (c2 := redsocks_touch_client e _). replace (state c2) with httpc_new by exact (eq_sym Hst). change (httpc_new =? httpc_new) with true. cbn match.
  set (c3 := count_request c2). assert (Hp3 : payload c3 = mkauth (Some (bytes "Digest " ++ print_params ps)) (s32 (n + 1))).
  { unfold c3, count_request. cbn [payload set_payload]. change (payload c2) with (payload c). by rewrite Hpl. }
  pose proof (mkconnect_digest h c3 user passwd ps _ Hlo Hpa Hp3 Hs Hok Hcl) as Hmk. change (destaddr c3) with (destaddr c) in Hmk. set (req := connect_request _ _ _) in *. clearbody req. unfold redsocks_write_helper_ex. 
  rewrite (get_relay c3 (set_output [] b) eq_refl), bind_Ret. unfold write_message. rewrite Hmk, !bind_Ret. eexists _, _. split; [reflexivity|]. split; [reflexivity|]. split; [reflexivity|]. by split.
Qed.

Lemma retry_ok h (c : clienth) b fd a : relay c = Some b → new_fd h = Some fd →
  httpc_retry h a c = Ret (Alive (set_relay (Some (bufferevent_enable EV_WRITE (bufferevent_new fd))) (set_cbs CbConnecting (set_state httpc_new
    (set_io (add_closed (if bev_fd b =? -1 then [] else [bev_fd b]) (io c)) (set_relay None (set_payload (mkauth (Some (skip_space (drop (length auth_request_header) a))) 0) c))))))).
Proof. intros Hr Hn. unfold httpc_retry. rewrite (get_relay _ b) by exact Hr. rewrite bind_Ret, Hn. reflexivity. Qed.

(** The line of the challenge, as the proxy writes it. *)
Definition challenge_line (ps : list param) : list Z := auth_request_header ++ bytes " Digest " ++ print_params ps.

Lemma challenge_header ps : strncaseeq (challenge_line ps) auth_request_header (length auth_request_header) = true ∧ existsb (Z.eqb 58) (challenge_line ps) = true ∧
  skip_space (drop (length auth_request_header) (challenge_line ps)) = bytes "Digest " ++ print_params ps.
Proof. by split_and!. Qed.

(** C15: What [httpc_read_cb] makes of an HTTP proxy's reply depends on the bytes
    alone, not on how they arrive.  When proxy errors are not forwarded to the
    client, no challenge is stored at the start, and the status line is not 407
    or no login is configured, then for every stream of bytes, cut into pieces in
    any way and mixed with writes to the proxy, data from the client and changes
    that other clients make to the shared authentication state: a status line with
    a code from 200 to 299 and header lines up to an empty one open the tunnel, and
    every byte behind that line goes through it; any other status line, and a first
    line of 4096 bytes or more, drops the client; a reply that has not ended leaves
    the connection waiting with everything read; and a header line of 4096 bytes or
    more fills the buffer, after which nothing is read from the proxy again.  The
    request is the CONNECT line for the destination, and no byte from the client
    is lost. *)
Theorem httpc_reply_refines h e cfg cfd rfd dest count net evs :
  forward_err h = false → has_login cfg && demand_first net = false → connected_ok e = true →
  Forall (λ x, hs_ok cfg x.2) evs → (length net ≤ reads (map snd evs))%nat →
  ∃ c r net', hs_start (http_connect_subsys h) e cfg (mkauth None count) cfd rfd dest = Ret (Alive c) ∧
    hs_run_shared (http_connect_subsys h) evs c net = Ret (r, net') ∧
    httpc_agrees h cfg cfd rfd net (bytes "CONNECT " ++ dest_text dest ++ bytes " HTTP/1.0" ++ CRLF ++ disclosed h ++ CRLF) (reply_spec net) r net'.
Proof.
  intros Hf Hl He Hok Hn. destruct (httpc_start h e cfg cfd rfd dest count net He Hl) as (c & request & Hs & -> & Hw).
  destruct (httpc_run h Hf cfg cfd rfd net _ evs c net _ Hw Hok (or_intror Hn)) as (r & net' & Hr & Ha). by exists c, r, net'.
Qed.


(** ** Examples *)
Definition http_env : env := Env 0 true (Some (10, 11)) (Some (12, 13)).
Definition http_sys : httpc_sys := mksys false DISCLOSE_NONE (bytes "10.0.0.2") 4000 1 2 (Some 5).
Definition ok_reply : list Z := wire [bytes "HTTP/1.1 200 OK"; bytes "Via: 1.1 p"; []] ++ bytes "hello".
(** Another client of the instance stores a challenge while the reply is read. *)
Definition http_events : list (option http_auth * (env * hs_event)) :=
  (None, (http_env, HClient [71; 69])) :: (Some (mkauth (Some (bytes "Basic")) 1), (http_env, HWrite 9)) :: repeat (None, (http_env, HRead 3)) 40.
Definition http_login : config := Config (Some (bytes "Mufasa")) (Some (bytes "Circle Of Life")) true.

Lemma httpc_reply_refines_witness : ∃ c r net',
  hs_start (http_connect_subsys http_sys) http_env http_login (mkauth None 0) 3 4 ([10; 0; 0; 1], [0; 80]) = Ret (Alive c) ∧
  hs_run_shared (http_connect_subsys http_sys) http_events c ok_reply = Ret (r, net') ∧
  httpc_agrees http_sys http_login 3 4 ok_reply (wire [bytes "CONNECT 10.0.0.1:80 HTTP/1.0"; []]) (HAccept (bytes "hello")) r net'.
Proof.
  apply (httpc_reply_refines http_sys http_env http_login 3 4 ([10; 0; 0; 1], [0; 80]) 0 ok_reply http_events).
  - reflexivity.
  - vm_compute. reflexivity.
  - reflexivity.
  - repeat apply Forall_cons_2; try apply Forall_nil_2; (split; [intros _; exists 10, 11, 12, 13; split_and!; (reflexivity || discriminate)|first [exact I|reflexivity]]).
  - apply Nat.leb_le. vm_compute. reflexivity.
Defined.

(** The reply of a proxy that asks for credentials, and the client that reads it. *)
Definition status_407 : list Z := bytes "HTTP/1.1 407 Proxy Authentication Required".
Definition demand : list Z := wire (status_407 :: [bytes "Server: p"] ++ [challenge_line rfc_challenge]).
Definition asking (input : list Z) : clienth :=
  Client (Config (Some (bytes "Mufasa")) (Some (bytes "Circle Of Life")) false) (Some (bufferevent_new 3)) (Some (set_input input (bufferevent_new 4)))
    ([10; 0; 0; 1], [0; 80]) httpc_request_sent 0 0 0 CbSubsys no_pump (mkauth None 1) no_io.

Lemma rfc_challenge_ok : challenge_ok rfc_challenge.
Proof. split_and!; vm_compute; reflexivity. Qed.

