(* ===== verification/HttpRelay.v ===== *)
(** * redsocks: the HTTP relay

    Models http-relay.c, which sends plain HTTP requests of a client to a proxy: the
    request line gets an absolute URI, some headers are replaced, and the head of the
    reply is forwarded.  The authentication state that the clients of an instance
    share is part of the payload of the client whose callbacks run; [HttpRelaySpec]
    lets the other clients of the instance change it between any two callbacks. *)
From S2P Require Import Prelude Encrypt Base64 Md5 HttpAuth Redsocks HttpConnect.
#[local] Open Scope Z_scope.

Definition httpr_new : Z := 0.
Definition httpr_recv_request_headers : Z := 1.
Definition httpr_request_sent : Z := 2.
Definition httpr_reply_came : Z := 3.
Definition httpr_headers_skipped : Z := 4.

(** The bytes in use and [max_len], an [int]. *)
Record httpr_buffer := HBuf { buff : list Z; max_len : Z }.
Definition INT_MAX : Z := 2 ^ 31 - 1.
Definition httpr_buffer_init : httpr_buffer := HBuf [] 4096.
(** The size is doubled until [need] bytes fit; thirty times are enough for an [int]. *)
Fixpoint double_to (fuel : nat) (need max : Z) : outcome Z :=
  if need <=? max then Ret max
  else match fuel with O => Fault | S fuel => if 2 * max <=? INT_MAX then double_to fuel need (2 * max) else Fault end.
Definition httpr_buffer_append (b : httpr_buffer) (data : list Z) : outcome httpr_buffer :=
  let need := zlen (buff b) + zlen data + 1 in
  if INT_MAX <? need then Fault
  else max ← double_to 30 need (max_len b); Ret (HBuf (buff b ++ data) max).

Record httpr_client := Httpr {
  auth : http_auth; firstline : option (list Z); host : option (list Z); has_host : bool; client_buffer : httpr_buffer; relay_buffer : option httpr_buffer }.
Abbreviation clientr := (redsocks_client httpr_client).

Definition set_auth a (p : httpr_client) : httpr_client := Httpr a (firstline p) (host p) (has_host p) (client_buffer p) (relay_buffer p).
Definition set_firstline l (p : httpr_client) : httpr_client := Httpr (auth p) (Some l) (host p) (has_host p) (client_buffer p) (relay_buffer p).
Definition set_host h (p : httpr_client) : httpr_client := Httpr (auth p) (firstline p) (Some h) true (client_buffer p) (relay_buffer p).
Definition set_client_buffer b (p : httpr_client) : httpr_client := Httpr (auth p) (firstline p) (host p) (has_host p) b (relay_buffer p).
Definition set_relay_buffer b (p : httpr_client) : httpr_client := Httpr (auth p) (firstline p) (host p) (has_host p) (client_buffer p) b.
Definition on_payload (f : httpr_client → httpr_client) (c : clientr) : clientr := set_payload (f (payload c)) c.

Definition httpr_client_init (c : clientr) : clientr :=
  on_payload (λ p, Httpr (auth p) None None false httpr_buffer_init (Some httpr_buffer_init)) (set_state httpr_new c).
Definition httpr_instance_fini (a : http_auth) : http_auth := mkauth None (last_auth_count a).

(** What a callback takes from outside: two random numbers, and the socket of a
    connection to the proxy. *)
Record httpr_sys := mkrsys { rrand1 : Z; rrand2 : Z; proxy_fd : option Z }.

(** ** The request *)
Definition httpr_append_header (c : clientr) (line : list Z) : outcome clientr :=
  b ← httpr_buffer_append (client_buffer (payload c)) line;
  b ← httpr_buffer_append b CRLF;
  Ret (on_payload (set_client_buffer b) c).

Definition fmt_http_host (d : list Z * list Z) : list Z := if port_of (snd d) =? 80 then dotted (fst d) else dest_text d.

(** [strchr]: the bytes before the first [ch], and from it on. *)
Definition strchr (ch : Z) (s : list Z) : option (list Z * list Z) :=
  let '(a, b) := span (λ x, negb (x =? ch)) s in match b with [] => None | _ => Some (a, b) end.

(** [None] is the result -1. *)
Definition httpr_toss_http_firstline (c : clientr) : outcome (option clientr) :=
  let p := payload c in
  h ← (if has_host p then match host p with Some h => Ret h | None => Fault end else Ret (fmt_http_host (destaddr c)));
  match firstline p with
  | None => Fault
  | Some l =>
      match strchr 32 l with
      | None => Ret None
      | Some (m, uri) =>
          b ← httpr_buffer_append httpr_buffer_init (m ++ [32]);
          b ← httpr_buffer_append b (bytes "http://");
          b ← httpr_buffer_append b h;
          b ← httpr_buffer_append b (drop 1 uri);
          b ← httpr_buffer_append b CRLF;
          Ret (Some (on_payload (set_firstline (c_str (buff b))) c))
      end
  end.

Definition get_client_input (c : clientr) : outcome (list Z) := b ← get_bev SClient c; Ret (bev_input b).
Definition set_client_input (i : list Z) (c : clientr) : outcome clientr :=
  b ← get_bev SClient c; Ret (set_client (Some (set_input i b)) c).
Definition write_relay (bs : list Z) (c : clientr) : outcome clientr :=
  b ← get_bev SRelay c; Ret (set_relay (Some (set_output (bev_output b ++ bs) b)) c).

Definition post_buffer_len : Z := 64 * 1024.
(** Each round takes at least a byte of the input. *)
Fixpoint httpr_client_read_content (fuel : nat) (c : clientr) : outcome clientr :=
  match fuel with
  | O => Fault
  | S fuel =>
      input ← get_client_input c;
      match input with
      | [] => Ret c
      | _ =>
          let piece := take (Z.to_nat post_buffer_len) input in
          c ← set_client_input (drop (Z.to_nat post_buffer_len) input) c;
          b ← httpr_buffer_append (client_buffer (payload c)) piece;
          let c := on_payload (set_client_buffer b) c in
          c ← (match relay c with Some _ => if httpr_request_sent <=? state c then write_relay piece c else Ret c | None => Ret c end);
          httpr_client_read_content fuel c
      end
  end.
Definition read_content (c : clientr) : outcome clientr := i ← get_client_input c; httpr_client_read_content (S (length i)) c.

(** A header line that is not empty; [raw] is the line in memory, before the NUL that
    follows it, and [line] the C string. *)
Definition httpr_header (raw : list Z) (c : clientr) : outcome clientr :=
  let line := c_str raw in
  match firstline (payload c) with
  | None => Ret (on_payload (set_firstline line) c)
  | Some _ =>
      if strncaseeq line (bytes "Host") 4 then
        h ← (if zlen raw <? 5 then Fault else Ret (skip_space (c_str (drop 5 raw))));
        httpr_append_header (on_payload (set_host h) c) line
      else if strncaseeq line (bytes "Proxy-Connection") 16 then Ret c
      else if strncaseeq line (bytes "Connection") 10 then Ret c
      else httpr_append_header c line
  end.
(** The empty line; [None]: the client is dropped. *)
Definition httpr_last_line (c : clientr) : outcome (option clientr) :=
  match firstline (payload c) with
  | None => Ret None
  | Some _ =>
      r ← httpr_toss_http_firstline c;
      match r with
      | None => Ret None
      | Some c =>
          c ← (if has_host (payload c) then Ret c
               else let h := bytes "Host: " ++ fmt_http_host (destaddr c) in
                    _ ← assert ((0 <? zlen h) && (zlen h <? 32)); httpr_append_header c h);
          c ← httpr_append_header c (bytes "Proxy-Connection: close");
          c ← httpr_append_header c (bytes "Connection: close");
          c ← httpr_append_header c [];
          Ret (Some c)
      end
  end.

(** How the loop over the lines ends. *)
Inductive head_result := HeadMore (c : clientr) | HeadDone (c : clientr) | HeadDrop (c : clientr).
Fixpoint httpr_read_head (fuel : nat) (c : clientr) : outcome head_result :=
  match fuel with
  | O => Fault
  | S fuel =>
      input ← get_client_input c;
      match find_nl input with
      | None => Ret (HeadMore c)
      | Some (l, rest) =>
          c ← set_client_input rest c;
          let raw := strip_cr l in
          match c_str raw with
          | [] => r ← httpr_last_line c; Ret (match r with Some c => HeadDone c | None => HeadDrop c end)
          | _ => c ← httpr_header raw c; httpr_read_head fuel c
          end
      end
  end.

Definition httpr_client_read_cb (h : httpr_sys) (e : env) (c : clientr) : outcome (hres httpr_client) :=
  let c := redsocks_touch_client e c in
  if httpr_recv_request_headers <=? state c then c ← read_content c; Ret (Alive c)
  else
    i ← get_client_input c;
    r ← httpr_read_head (S (length i)) c;
    match r with
    | HeadMore c => Ret (Alive c)
    | HeadDrop c => Ret (redsocks_drop_client c)
    | HeadDone c => c ← read_content (set_state httpr_recv_request_headers c); Ret (redsocks_connect_relay c (proxy_fd h))
    end.

(** ** Sending it *)

(** The method and the path of a request line with an absolute URI. *)
Definition method_uri (l : list Z) : outcome (option (list Z * list Z)) :=
  match strchr 32 l with
  | None => Fault
  | Some (m, _) =>
      Ret match strchr 47 l with
          | Some (_, _ :: c :: r) =>
              if c =? 47 then
                match strchr 47 r with
                | Some (_, u) => match strchr 32 u with Some (uri, _) => Some (m, uri) | None => None end
                | None => None
                end
              else None
          | _ => None
          end
  end.

(** The credentials for the last challenge; [inr] if the request is malformed. *)
Definition httpr_auth_string (h : httpr_sys) (c : clientr) (count : Z) : outcome (option (list Z * list Z) + unit) :=
  match last_auth_query (auth (payload c)) with
  | None => Ret (inl None)
  | Some q =>
      if strncaseeq q (bytes "Basic") 5 then
        match login (instance c), password (instance c) with
        | Some l, Some p => r ← basic_authentication_encode l p; Ret (inl (match r with Some s => Some (bytes "Basic", c_str s) | None => None end))
        | _, _ => Fault
        end
      else
        match firstline (payload c) with
        | Some l =>
            if strncaseeq q (bytes "Digest") 6 then
              mu ← method_uri l;
              match mu with
              | None => Ret (inr tt)
              | Some (m, uri) =>
                  let cnounce := hex8 (rrand1 h) ++ hex8 (rrand2 h) in
                  line ← skip_scheme q;
                  r ← digest_authentication_encode line (login (instance c)) (password (instance c)) m uri count cnounce;
                  Ret (inl (match r with Some s => Some (bytes "Digest", s) | None => None end))
              end
            else Ret (inl None)
        | None => Ret (inl None)
        end
  end.
Definition auth_line (a : option (list Z * list Z)) : list Z :=
  match a with Some (scheme, s) => auth_response_header ++ bytes " " ++ scheme ++ bytes " " ++ s ++ CRLF | None => [] end.

Definition httpr_relay_write_cb (h : httpr_sys) (e : env) (c : clientr) : outcome (hres httpr_client) :=
  _ ← assert (httpr_recv_request_headers <=? state c);
  let c := redsocks_touch_client e c in
  if state c =? httpr_recv_request_headers then
    c ← (match firstline (payload c) with Some l => write_relay l c | None => Ret c end);
    let a := auth (payload c) in
    let c := on_payload (set_auth (mkauth (last_auth_query a) (s32 (last_auth_count a + 1)))) c in
    s ← httpr_auth_string h c (last_auth_count (auth (payload c)));
    match s with
    | inr _ => Ret (redsocks_drop_client c)
    | inl s =>
        c ← write_relay (auth_line s) c;
        c ← write_relay (buff (client_buffer (payload c))) c;
        let c := set_state httpr_request_sent c in
        b ← get_bev SRelay c;
        Ret (Alive (set_relay (Some (bufferevent_enable EV_READ (bufferevent_setwatermark EV_READ 1 HTTP_HEAD_WM_HIGH b))) c))
    end
  else Ret (Alive c).

(** ** The reply *)
Definition relay_append (bs : list Z) (c : clientr) : outcome clientr :=
  match relay_buffer (payload c) with
  | None => Fault
  | Some b => b ← httpr_buffer_append b bs; Ret (on_payload (set_relay_buffer (Some b)) c)
  end.
Definition set_reply_input (i : list Z) (c : clientr) : outcome clientr := b ← get_bev SRelay c; Ret (set_relay (Some (set_input i b)) c).

Definition httpr_retry (h : httpr_sys) (auth_request : list Z) (c : clientr) : outcome (hres httpr_client) :=
  let query := skip_space (drop (length auth_request_header) auth_request) in
  let c := on_payload (λ p, set_relay_buffer None (set_auth (mkauth (Some query) 0) p)) c in
  b ← get_bev SRelay c;
  let c := set_io (add_closed (if bev_fd b =? -1 then [] else [bev_fd b]) (io c)) (set_relay None c) in
  let c := set_cbs CbConnecting (set_state httpr_recv_request_headers c) in
  Ret (redsocks_connect_relay c (proxy_fd h)).

(** The callback returns, or goes on. *)
Inductive rfirst := RReturn (r : hres httpr_client) | RGoOn (c : clientr).
Definition httpr_status (h : httpr_sys) (line : list Z) (c : clientr) : outcome rfirst :=
  c ← relay_append line c;
  c ← relay_append CRLF c;
  match scan_status line with
  | None => Ret (RReturn (redsocks_drop_client c))
  | Some code =>
      if code =? 407 then
        let a := auth (payload c) in
        if match last_auth_query a with Some _ => last_auth_count a =? 1 | None => false end then Ret (RReturn (redsocks_drop_client c))
        else match login (instance c), password (instance c) with
             | Some _, Some _ =>
                 b ← get_bev SRelay c;
                 '(auth_request, input, _) ← http_auth_request_header (S (length (bev_input b))) (bev_input b) None;
                 c ← set_reply_input input c;
                 match auth_request with
                 | None => Fault                      (* [line] is printed and freed again *)
                 | Some a => r ← httpr_retry h a c; Ret (RReturn r)
                 end
             | _, _ => Ret (RReturn (redsocks_drop_client c))
             end
      else if (100 <=? code) && (code <=? 999) then Ret (RGoOn (set_state httpr_reply_came c))
      else Ret (RReturn (redsocks_drop_client c))
  end.
Definition httpr_first_line (h : httpr_sys) (c : clientr) : outcome rfirst :=
  b ← get_bev SRelay c;
  match redsocks_evbuffer_readline (bev_input b) with
  | Some (line, rest) => c ← set_reply_input rest c; httpr_status h line c
  | None => if HTTP_HEAD_WM_HIGH <=? zlen (bev_input b) then Ret (RReturn (redsocks_drop_client c)) else Ret (RGoOn c)
  end.

Fixpoint httpr_skip_headers (fuel : nat) (c : clientr) : outcome clientr :=
  if negb (state c =? httpr_reply_came) then Ret c
  else
    match fuel with
    | O => Fault
    | S fuel =>
        b ← get_bev SRelay c;
        match redsocks_evbuffer_readline (bev_input b) with
        | Some (line, rest) =>
            c ← set_reply_input rest c;
            c ← relay_append line c;
            c ← relay_append CRLF c;
            httpr_skip_headers fuel (match line with [] => set_state httpr_headers_skipped c | _ => c end)
        | None => Ret c
        end
    end.

Definition httpr_relay_read_cb (h : httpr_sys) (e : env) (c : clientr) : outcome (hres httpr_client) :=
  _ ← assert (httpr_request_sent <=? state c);
  let c := redsocks_touch_client e c in
  let c := on_payload (set_relay_buffer (Some httpr_buffer_init)) c in
  first ← (if state c =? httpr_request_sent then httpr_first_line h c else Ret (RGoOn c));
  match first with
  | RReturn r => Ret r
  | RGoOn c =>
      b ← get_bev SRelay c;
      c ← httpr_skip_headers (S (length (bev_input b))) c;
      if state c =? httpr_headers_skipped then
        b ← get_bev SClient c;
        match relay_buffer (payload c) with
        | None => Fault
        | Some rb => redsocks_start_relay e (set_client (Some (set_output (bev_output b ++ buff rb) b)) c)
        end
      else Ret (Alive c)
  end.

(** [redsocks_accept_client] ends with [httpr_connect_relay] instead of a connection:
    the head of the request is read first. *)
Definition httpr_connect_relay (c : clientr) : outcome (hres httpr_client) :=
  b ← get_bev SClient c; Ret (Alive (set_client (Some (bufferevent_enable EV_READ b)) c)).

Definition http_relay_subsys (h : httpr_sys) : relay_subsys httpr_client := Subsys httpr_client_init (httpr_relay_read_cb h) (httpr_relay_write_cb h).
(** The end of [redsocks_accept_client] for this subsystem. *)
Definition httpr_accept_client (e : env) (cfg : config) (p0 : httpr_client) (client_fd : Z) (dest : list Z * list Z) : outcome (hres httpr_client) :=
  let c := Client cfg None None dest 0 0 0 0 CbConnecting no_pump p0 no_io in
  let c := httpr_client_init c in
  let c := redsocks_touch_client e c in
  let c := set_client (Some (bufferevent_enable EV_READ (bufferevent_new client_fd))) c in
  httpr_connect_relay c.
