(* ===== verification/HttpRelaySpec.v ===== *)
(** * redsocks: the request through the HTTP relay

    The request is specified on the whole stream of the client: the lines of its head
    and the body.  The callbacks see it in pieces, before and after the connection to
    the proxy is there, and send it again when the proxy wants credentials. *)
From S2P Require Import Prelude Encrypt Base64 Md5 HttpAuth Redsocks HttpConnect HttpConnectSpec HttpRelay.
#[local] Open Scope Z_scope.

(** ** The rewritten request *)

(** The lines of the head in memory, then the part of a line that is there, or what
    follows the empty line. *)
Fixpoint scan_fuel (fuel : nat) (s : list Z) : list (list Z) * (list Z + list Z) :=
  match fuel with
  | O => ([], inl s)
  | S fuel =>
      match find_nl s with
      | None => ([], inl s)
      | Some (l, r) => match c_str (strip_cr l) with [] => ([], inr r) | _ => let '(ls, x) := scan_fuel fuel r in (strip_cr l :: ls, x) end
      end
  end.
Definition scan_head (s : list Z) : list (list Z) * (list Z + list Z) := scan_fuel (S (length s)) s.

Definition is_host (raw : list Z) : bool := strncaseeq (c_str raw) (bytes "Host") 4.
Definition hop_header (raw : list Z) : bool := strncaseeq (c_str raw) (bytes "Proxy-Connection") 16 || strncaseeq (c_str raw) (bytes "Connection") 10.
Definition host_value (raw : list Z) : list Z := skip_space (c_str (drop 5 raw)).
(** The host of the last host header. *)
Definition host_of (ls : list (list Z)) : option (list Z) := list.last (map host_value (List.filter is_host (list.tail ls))).
(** The headers that are kept. *)
Definition kept (ls : list (list Z)) : list Z := wire (map c_str (List.filter (λ l, is_host l || negb (hop_header l)) (list.tail ls))).

(** The head is not complete; it is not a request; or the new request line, the new
    headers, and the body. *)
Inductive rewritten := RqMore | RqBad | RqSend (first headers body : list Z).
Section Dest.
Context (d : list Z * list Z).

Definition absolute (ls : list (list Z)) (m uri : list Z) : list Z :=
  m ++ [32] ++ bytes "http://" ++ default (fmt_http_host d) (host_of ls) ++ drop 1 uri ++ CRLF.
Definition new_headers (ls : list (list Z)) : list Z :=
  kept ls ++ match host_of ls with Some _ => [] | None => bytes "Host: " ++ fmt_http_host d ++ CRLF end ++
  bytes "Proxy-Connection: close" ++ CRLF ++ bytes "Connection: close" ++ CRLF ++ CRLF.
Definition rewrite_request (s : list Z) : rewritten :=
  match scan_head s with
  | (_, inl _) => RqMore
  | ([], inr _) => RqBad
  | (l :: ls, inr body) =>
      match strchr 32 (c_str l) with
      | None => RqBad
      | Some (m, uri) => RqSend (absolute (l :: ls) m uri) (new_headers (l :: ls)) body
      end
  end.
End Dest.

(** A host header has room for a value: [Host] alone makes the code read past it. *)
Definition roomy (raw : list Z) : Prop := is_host raw = true → (5 <= length raw)%nat.
Definition roomy_head (s : list Z) : Prop := Forall roomy (list.tail (scan_head s).1).

(** *** Lines *)
Lemma strip_cr_length l : (length (strip_cr l) <= length l)%nat.
Proof. induction l as [|c l IH]; [done|]. destruct l as [|d l]; [cbn; destruct (c =? 13); cbn; lia|]. cbn [strip_cr length] in *. lia. Qed.
Lemma scan_enough f g s : (length s < f)%nat → (length s < g)%nat → scan_fuel f s = scan_fuel g s.
Proof.
  revert g s. induction f as [|f IH]; intros [|g] s Hf Hg; [lia..|]. cbn [scan_fuel]. destruct (find_nl s) as [[l r]|] eqn:E; [|done]. apply find_nl_length in E. destruct (c_str _); [done|]. by rewrite (IH g) by lia.
Qed.
Lemma scan_step s : scan_head s =
  match find_nl s with
  | None => ([], inl s)
  | Some (l, r) => match c_str (strip_cr l) with [] => ([], inr r) | _ => let '(ls, x) := scan_head r in (strip_cr l :: ls, x) end
  end.
Proof.
  unfold scan_head at 1. cbn [scan_fuel]. destruct (find_nl s) as [[l r]|] eqn:E; [|done]. apply find_nl_length in E. destruct (c_str _); [done|]. by rewrite (scan_enough _ (S (length r))) by lia.
Qed.
(** Reading on: the lines so far stay, and what is left is read with the new bytes. *)
Lemma scan_app s t : scan_head (s ++ t) =
  match scan_head s with
  | (ls, inr body) => (ls, inr (body ++ t))
  | (ls, inl rest) => let '(ls', x) := scan_head (rest ++ t) in (ls ++ ls', x)
  end.
Proof.
  remember (length s) as n eqn:Hn. revert s Hn. induction n as [n IH] using lt_wf_ind. intros s ->. rewrite (scan_step s). destruct (find_nl s) as [[l r]|] eqn:E.
  - rewrite (scan_step (s ++ t)), (find_nl_app _ _ _ _ E). destruct (c_str (strip_cr l)) eqn:El; [done|]. rewrite (IH (length r)); [|apply find_nl_length in E; lia|done].
    destruct (scan_head r) as [ls [rest|body]]; [|done]. by destruct (scan_head (rest ++ t)).
  - by destruct (scan_head (s ++ t)).
Qed.
Lemma scan_left s ls rest : scan_head s = (ls, inl rest) → find_nl rest = None ∧ (length rest <= length s)%nat.
Proof.
  remember (length s) as n eqn:Hn. revert s Hn ls. induction n as [n IH] using lt_wf_ind. intros s -> ls. rewrite scan_step. destruct (find_nl s) as [[l r]|] eqn:E; [|by intros [= <- <-]].
  destruct (c_str (strip_cr l)); [done|]. apply find_nl_length in E. destruct (scan_head r) as [ls' [x|x]] eqn:Er; [|done]. intros [= <- <-]. destruct (IH (length r) ltac:(lia) r eq_refl ls' Er). split; [done|lia].
Qed.
Definition bulk (ls : list (list Z)) : nat := length (concat ls) + length ls.
Lemma scan_bulk s ls x : scan_head s = (ls, x) → (bulk ls + length (match x with inl l => l | inr l => l end) <= length s)%nat.
Proof.
  remember (length s) as n eqn:Hn. revert s Hn ls. induction n as [n IH] using lt_wf_ind. intros s -> ls. rewrite scan_step. destruct (find_nl s) as [[l r]|] eqn:E; [|by intros [= <- <-]].
  pose proof (find_nl_length _ _ _ E) as Hl. destruct (c_str (strip_cr l)); [intros [= <- <-]; cbn; lia|]. destruct (scan_head r) as [ls' y] eqn:Er. intros [= <- <-]. pose proof (IH (length r) ltac:(lia) r eq_refl ls' Er) as H. pose proof (strip_cr_length l).
  unfold bulk in *. cbn [concat length]. rewrite length_app. lia.
Qed.

(** *** Sizes *)
Definition ROOM : Z := 2 ^ 26.
Lemma c_str_length l : (length (c_str l) <= length l)%nat.
Proof. induction l as [|c l IH]; [done|]. cbn [c_str]. destruct (c =? 0); cbn [length]; lia. Qed.
Lemma filter_bulk f ls : (bulk (List.filter f ls) <= bulk ls)%nat.
Proof. unfold bulk. induction ls as [|l ls IH]; [done|]. cbn [List.filter concat length]. rewrite length_app. destruct (f l); cbn [concat length]; rewrite ?length_app; lia. Qed.
Lemma wire_bulk ls : (length (wire (map c_str ls)) <= 2 * bulk ls)%nat.
Proof. unfold wire, bulk. induction ls as [|l ls IH]; [done|]. cbn [map concat length]. rewrite !length_app. pose proof (c_str_length l). change (length CRLF) with 2%nat. lia. Qed.
Lemma kept_bulk ls : (length (kept ls) <= 2 * bulk ls)%nat.
Proof. unfold kept. etransitivity; [apply wire_bulk|]. pose proof (filter_bulk (λ l, is_host l || negb (hop_header l)) (list.tail ls)). destruct ls as [|l ls]; [done|]. unfold bulk in *. cbn [list.tail concat length] in *. rewrite length_app. lia. Qed.
Lemma host_of_bulk ls h : host_of ls = Some h → (length h <= bulk ls)%nat.
Proof.
  unfold host_of. intros H%list.last_Some_elem_of. apply list_elem_of_fmap in H as (raw & -> & H). apply list_elem_of_In, List.filter_In in H as [H _].
  assert (Hr : (length raw <= length (concat ls))%nat). { destruct ls as [|l ls]; [done|]. cbn [list.tail] in H. cbn [concat]. rewrite length_app. clear -H. induction ls as [|x ls IH]; [done|]. cbn [concat]. rewrite length_app. destruct H as [->|H]; [lia|]. specialize (IH H). lia. }
  unfold host_value. pose proof (skip_space_le (c_str (drop 5 raw))). pose proof (c_str_length (drop 5 raw)). rewrite length_drop in *. unfold bulk. lia.
Qed.

(** [inet_ntoa] and the port of a proper address. *)
Definition dest_ok (d : list Z * list Z) : Prop := length (fst d) = 4%nat ∧ bytes_ok (fst d) ∧ length (snd d) = 2%nat ∧ bytes_ok (snd d).
Lemma print_port n : 0 ≤ n < 65536 → (length (print_u n) <= 5)%nat ∧ (n < 256 → (length (print_u n) <= 3)%nat).
Proof. intros Hn. split; [apply (digits_length 4)|intros; apply (digits_length 2)]; lia. Qed.
Lemma fmt_host_length d : dest_ok d → (length (fmt_http_host d) <= 21)%nat.
Proof.
  destruct d as [ip port]. intros (H1 & H2 & H3 & H4). cbn [fst snd] in *. destruct ip as [|a [|b [|c [|e [|? ?]]]]]; try done. destruct port as [|p [|q [|? ?]]]; try done. unfold bytes_ok in *.
  repeat match goal with H : Forall _ (_ :: _) |- _ => apply Forall_cons_1 in H as [? H] end. unfold is_byte in *.
  assert (Hd : (length (dotted [a; b; c; e]) <= 15)%nat). { unfold dotted. rewrite !length_app. pose proof (proj2 (print_port a ltac:(lia)) ltac:(lia)). pose proof (proj2 (print_port b ltac:(lia)) ltac:(lia)). pose proof (proj2 (print_port c ltac:(lia)) ltac:(lia)). pose proof (proj2 (print_port e ltac:(lia)) ltac:(lia)). change (length (bytes ".")) with 1%nat. lia. }
  unfold fmt_http_host. cbn [snd fst]. case_match; [lia|]. unfold dest_text. cbn [fst snd port_of]. rewrite !length_app. change (length (bytes ":")) with 1%nat. pose proof (proj1 (print_port (256 * p + q) ltac:(lia))). lia.
Qed.

(** ** Buffers *)
Definition buffer_ok (b : httpr_buffer) : Prop := 4096 ≤ max_len b ≤ INT_MAX.
Lemma double_ok fuel need max : 4096 ≤ max ≤ INT_MAX → need ≤ 2 ^ 30 → need ≤ max * 2 ^ Z.of_nat fuel → ∃ m, double_to fuel need max = Ret m ∧ 4096 ≤ m ≤ INT_MAX.
Proof.
  revert max. induction fuel as [|fuel IH]; intros max Hm Hn Hf; cbn [double_to].
  - rewrite (proj2 (Z.leb_le _ _)) by lia. by eexists.
  - destruct (Z.leb_spec need max); [by eexists|]. rewrite (proj2 (Z.leb_le (2 * max) _)) by (unfold INT_MAX; lia). apply IH; [unfold INT_MAX in *; lia|done|].
    rewrite Nat2Z.inj_succ, Z.pow_succ_r in Hf by lia. lia.
Qed.
Lemma append_ok b data : buffer_ok b → zlen (buff b) + zlen data < 2 ^ 30 → ∃ b', httpr_buffer_append b data = Ret b' ∧ buff b' = buff b ++ data ∧ buffer_ok b'.
Proof.
  intros Hb Hl. unfold httpr_buffer_append. rewrite (proj2 (Z.ltb_ge _ _)) by (unfold INT_MAX; lia).
  destruct (double_ok 30 (zlen (buff b) + zlen data + 1) (max_len b) Hb ltac:(lia)) as (m & -> & Hm); [destruct Hb; change (2 ^ Z.of_nat 30) with (2 ^ 30); lia|]. rewrite bind_Ret. by eexists.
Qed.
Lemma fresh_buffer_ok : buffer_ok httpr_buffer_init.
Proof. unfold buffer_ok, INT_MAX. cbn. lia. Qed.

(** Only the buffer, or only the first line and the host, of the payload change. *)
Definition with_buffer (b : httpr_buffer) (c : clientr) : clientr := on_payload (set_client_buffer b) c.
Lemma append_header_ok (c : clientr) line : buffer_ok (client_buffer (payload c)) → zlen (buff (client_buffer (payload c))) + zlen line + 2 < 2 ^ 30 →
  ∃ b, httpr_append_header c line = Ret (with_buffer b c) ∧ buff b = buff (client_buffer (payload c)) ++ line ++ CRLF ∧ buffer_ok b.
Proof.
  intros Hb Hl. unfold httpr_append_header. destruct (append_ok _ line Hb ltac:(lia)) as (b1 & -> & E1 & H1). rewrite bind_Ret. destruct (append_ok b1 CRLF H1) as (b2 & -> & E2 & H2); [rewrite E1, length_app; cbn; lia|].
  rewrite bind_Ret. exists b2. split; [done|]. split; [|done]. by rewrite E2, E1, <- app_assoc.
Qed.

(** ** Reading the head *)
Section Request.
Context (cfg : config) (d : list Z * list Z) (Hd : dest_ok d).

(** What does not change while the request is read. *)
Record reads (c : clientr) (input : list Z) : Prop := {
  rs_client : ∃ b, client c = Some b ∧ bev_input b = input;
  rs_cfg : instance c = cfg;
  rs_dest : destaddr c = d }.
(** The payload after the lines [ls]. *)
Record has_read (ls : list (list Z)) (p : httpr_client) : Prop := {
  hr_first : firstline p = c_str <$> head ls;
  hr_host : host p = host_of ls;
  hr_has : has_host p = bool_decide (host_of ls ≠ None);
  hr_buff : buff (client_buffer p) = kept ls;
  hr_ok : buffer_ok (client_buffer p) }.

Lemma reads_payload c input f : reads c input → reads (on_payload f c) input.
Proof. intros [? ? ?]. by split. Qed.
Lemma reads_touch e c input : reads c input → reads (redsocks_touch_client e c) input.
Proof. intros [? ? ?]. by split. Qed.
Lemma reads_state st c input : reads c input → reads (set_state st c) input.
Proof. intros [? ? ?]. by split. Qed.
Lemma get_input_ok c input : reads c input → get_client_input c = Ret input.
Proof. intros [(b & E & <-) _ _]. unfold get_client_input, get_bev. cbn [bev]. by rewrite E. Qed.
Lemma set_input_ok c input i : reads c input → ∃ c', set_client_input i c = Ret c' ∧ reads c' i ∧ payload c' = payload c ∧ state c' = state c ∧ relay c' = relay c ∧ cbs c' = cbs c.
Proof. intros [(b & E & _) H2 H3]. unfold set_client_input, get_bev. cbn [bev]. rewrite E, bind_Ret. eexists. split; [done|]. split_and!; try done. split; [by eexists|done|done]. Qed.

Lemma host_snoc ls raw : ls ≠ [] → host_of (ls ++ [raw]) = if is_host raw then Some (host_value raw) else host_of ls.
Proof.
  destruct ls as [|l ls]; [done|]. intros _. unfold host_of. cbn [app list.tail]. rewrite List.filter_app, map_app. cbn [List.filter]. destruct (is_host raw); cbn [map]; [by rewrite last_snoc|by rewrite app_nil_r].
Qed.
Lemma kept_snoc ls raw : ls ≠ [] → kept (ls ++ [raw]) = kept ls ++ if is_host raw || negb (hop_header raw) then c_str raw ++ CRLF else [].
Proof.
  destruct ls as [|l ls]; [done|]. intros _. unfold kept, wire. cbn [app list.tail]. rewrite List.filter_app, !map_app, concat_app. cbn [List.filter]. destruct (_ || _); cbn [map concat]; by rewrite ?app_nil_r.
Qed.

(** A line. *)
Lemma header_line c input ls raw : reads c input → has_read ls (payload c) → (ls ≠ [] → roomy raw) → Z.of_nat (bulk (ls ++ [raw])) < ROOM →
  ∃ c', httpr_header raw c = Ret c' ∧ reads c' input ∧ has_read (ls ++ [raw]) (payload c') ∧ state c' = state c ∧ relay c' = relay c ∧ cbs c' = cbs c ∧ auth (payload c') = auth (payload c).
Proof.
  intros Hr Hp Hroom Hb. pose proof Hp as [P1 P2 P3 P4 P5]. unfold httpr_header. rewrite P1. destruct ls as [|l ls].
  - cbn. eexists. split; [done|]. split_and!; [by apply reads_payload| |done..]. split; try done; by cbn.
  - cbn [head fmap option_fmap option_map]. assert (Hne : l :: ls ≠ []) by done. specialize (Hroom Hne). set (ls1 := l :: ls) in *.
    assert (Hlen : zlen (kept ls1) + zlen (c_str raw) + 2 < 2 ^ 30).
    { pose proof (kept_bulk ls1). pose proof (c_str_length raw). unfold bulk in *. rewrite concat_app, !length_app in Hb. cbn [concat length] in Hb. rewrite app_nil_r in Hb. unfold ROOM in *. lia. }
    pose proof (host_snoc ls1 raw Hne) as Eh. pose proof (kept_snoc ls1 raw Hne) as Ek. unfold is_host, hop_header in Eh, Ek, Hroom.
    destruct (strncaseeq (c_str raw) (bytes "Host") 4) eqn:E1.
    + cbn [orb] in Ek. rewrite (proj2 (Z.ltb_ge _ _)), bind_Ret by (specialize (Hroom E1); lia). fold (host_value raw).
      destruct (append_header_ok (on_payload (set_host (host_value raw)) c) (c_str raw) P5) as (b & -> & Eb & Hok); [cbn; rewrite P4; lia|].
      eexists. split; [done|]. split_and!; [by apply reads_payload, reads_payload| |done..]. split; rewrite ?Eh, ?Ek; cbn [payload set_payload on_payload with_buffer set_client_buffer set_host firstline host has_host client_buffer]; [by rewrite P1|done|done|rewrite Eb; cbn; by rewrite P4|done].
    + cbn [orb] in Ek. destruct (strncaseeq (c_str raw) (bytes "Proxy-Connection") 16) eqn:E2; [|destruct (strncaseeq (c_str raw) (bytes "Connection") 10) eqn:E3].
      3: { destruct (append_header_ok c (c_str raw) P5) as (b & -> & Eb & Hok); [rewrite P4; lia|]. eexists. split; [done|]. split_and!; [by apply reads_payload| |done..]. split; rewrite ?Eh, ?Ek; cbn [payload set_payload on_payload with_buffer set_client_buffer set_host firstline host has_host client_buffer]; [by rewrite P1|done|done|rewrite Eb; cbn; by rewrite P4|done]. }
      all: eexists; split; [done|]; split_and!; try done; split; rewrite ?Eh, ?Ek; cbn [orb negb]; rewrite ?app_nil_r; [by rewrite P1|done..].
Qed.

(** *** Texts without NUL *)
Definition nz (l : list Z) : Prop := Forall (λ c, c ≠ 0) l.
Lemma nz_c_str l : nz (c_str l).
Proof. unfold nz. induction l as [|c l IH]; [constructor|]. cbn [c_str]. destruct (Z.eqb_spec c 0); by constructor. Qed.
Lemma c_str_nz l : nz l → c_str l = l.
Proof. induction 1 as [|c l Hc _ IH]; [done|]. cbn [c_str]. rewrite (proj2 (Z.eqb_neq _ _)) by done. by rewrite IH. Qed.
Lemma nz_app a b : nz a → nz b → nz (a ++ b).
Proof. apply Forall_app_2. Qed.
Lemma nz_part a b : nz (a ++ b) → nz a ∧ nz b.
Proof. unfold nz. by rewrite Forall_app. Qed.
Lemma nz_const l : forallb (λ c, negb (c =? 0)) l = true → nz l.
Proof. unfold nz. induction l as [|c l IH]; [constructor|]. cbn [forallb]. intros [H1%negb_true_iff%Z.eqb_neq H2]%andb_true_iff. constructor; auto. Qed.
Lemma nz_print n : 0 ≤ n → nz (print_u n).
Proof. intros Hn. eapply Forall_impl; [|by apply print_u_digits]. cbv beta. lia. Qed.
Lemma nz_fmt : nz (fmt_http_host d).
Proof.
  destruct d as [ip port]. destruct Hd as (H1 & H2 & H3 & H4). cbn [fst snd] in *. destruct ip as [|a [|b [|c [|e [|? ?]]]]]; try done. destruct port as [|p [|q [|? ?]]]; try done. unfold bytes_ok in *.
  repeat match goal with H : Forall _ (_ :: _) |- _ => apply Forall_cons_1 in H as [? H] end. unfold is_byte in *.
  assert (Hdot : nz (dotted [a; b; c; e])) by (unfold dotted; repeat first [apply nz_print; lia|by apply nz_const|apply nz_app]).
  unfold fmt_http_host. case_match; [done|]. unfold dest_text. cbn [fst snd port_of]. apply nz_app; [done|apply nz_app; [by apply nz_const|apply nz_print; lia]].
Qed.
Lemma nz_host ls h : host_of ls = Some h → nz h.
Proof.
  unfold host_of. intros H%list.last_Some_elem_of. apply list_elem_of_fmap in H as (raw & -> & _). unfold host_value, skip_space. pose proof (nz_c_str (drop 5 raw)) as Hn. destruct (span_spec isspace (c_str (drop 5 raw))) as [E _]. rewrite E in Hn. by apply nz_part in Hn as [_ ?].
Qed.
Lemma strchr_spec ch l a b : strchr ch l = Some (a, b) → l = a ++ b ∧ ∃ b', b = ch :: b'.
Proof.
  unfold strchr. destruct (span_spec (λ x, negb (x =? ch)) l) as (E & _ & Hb). destruct (span _ l) as [a' b']. cbn [fst snd] in *. destruct b' as [|x b']; [done|]. intros [= <- <-]. split; [done|].
  exists b'. specialize (Hb x b' eq_refl). apply negb_false_iff, Z.eqb_eq in Hb. by subst.
Qed.

(** The empty line: the new request line. *)
Ltac lens := change (length (bytes "http://")) with 7%nat; change (length [32]) with 1%nat; change (length CRLF) with 2%nat; lia.
Lemma toss_ok c input l ls : reads c input → has_read (l :: ls) (payload c) → Z.of_nat (bulk (l :: ls)) < ROOM →
  httpr_toss_http_firstline c = Ret match strchr 32 (c_str l) with None => None | Some (m, uri) => Some (on_payload (set_firstline (absolute d (l :: ls) m uri)) c) end.
Proof.
  intros Hr [P1 P2 P3 P4 P5] Hb. unfold httpr_toss_http_firstline. set (ls1 := l :: ls) in *. set (hst := default (fmt_http_host d) (host_of ls1)).
  replace (if has_host (payload c) then _ else _) with (Ret hst). 2: { rewrite P3, P2. unfold hst. rewrite (rs_dest _ _ Hr). by destruct (host_of ls1). }
  rewrite bind_Ret, P1. cbn [head fmap option_fmap option_map ls1]. destruct (strchr 32 (c_str l)) as [[m uri]|] eqn:E; [|done]. apply strchr_spec in E as [E (u & ->)].
  assert (Hh : nz hst ∧ zlen hst ≤ ROOM). { unfold hst. destruct (host_of ls1) as [h|] eqn:Eh; cbn; [split; [by eapply nz_host|apply host_of_bulk in Eh; lia]|]. split; [apply nz_fmt|]. pose proof (fmt_host_length d Hd). unfold ROOM. lia. }
  assert (Hl : zlen m + zlen u < ROOM). { pose proof (c_str_length l) as Hc. rewrite E, length_app in Hc. cbn [length] in Hc. unfold bulk, ls1 in Hb. cbn [concat length] in Hb. rewrite length_app in Hb. lia. }
  pose proof (nz_c_str l) as Hn. rewrite E in Hn. apply nz_part in Hn as [Hm Hu]. inversion Hu as [|? ? _ Hu']; subst. destruct Hh as [Hhn Hhl]. change (drop 1 (32 :: u)) with u. unfold ROOM in *.
  destruct (append_ok httpr_buffer_init (m ++ [32]) fresh_buffer_ok) as (b1 & -> & E1 & O1); [cbn; rewrite length_app; cbn; lia|]. rewrite bind_Ret. cbn [buff httpr_buffer_init app] in E1.
  destruct (append_ok b1 (bytes "http://") O1) as (b2 & -> & E2 & O2); [rewrite E1, length_app; lens|]. rewrite bind_Ret.
  destruct (append_ok b2 hst O2) as (b3 & -> & E3 & O3); [rewrite E2, E1, !length_app; lens|]. rewrite bind_Ret.
  destruct (append_ok b3 u O3) as (b4 & -> & E4 & O4); [rewrite E3, E2, E1, !length_app; lens|]. rewrite bind_Ret.
  destruct (append_ok b4 CRLF O4) as (b5 & -> & E5 & O5); [rewrite E4, E3, E2, E1, !length_app; lens|]. rewrite bind_Ret.
  assert (Ea : buff b5 = absolute d ls1 m (32 :: u)) by (rewrite E5, E4, E3, E2, E1; unfold absolute, hst; by rewrite <- !app_assoc).
  rewrite Ea, c_str_nz; [done|]. unfold absolute. fold hst. change (drop 1 (32 :: u)) with u. repeat first [assumption|by apply nz_const|apply nz_app].
Qed.

Definition same (c c' : clientr) : Prop := state c' = state c ∧ relay c' = relay c ∧ cbs c' = cbs c ∧ auth (payload c') = auth (payload c).
Lemma same_trans a b c : same a b → same b c → same a c.
Proof. intros (? & ? & ? & ?) (? & ? & ? & ?). unfold same. split_and!; congruence. Qed.
(** The request is rewritten: its first line, and the headers with the body read so far. *)
Record ready (f hd : list Z) (p : httpr_client) : Prop := {
  rd_first : firstline p = Some f; rd_buff : buff (client_buffer p) = hd; rd_ok : buffer_ok (client_buffer p) }.

Lemma append_ready c input f hd line : reads c input → ready f hd (payload c) → zlen hd + zlen line + 2 < 2 ^ 30 →
  ∃ c', httpr_append_header c line = Ret c' ∧ reads c' input ∧ ready f (hd ++ line ++ CRLF) (payload c') ∧ same c c' ∧ has_host (payload c') = has_host (payload c).
Proof.
  intros Hr [P1 P2 P3] Hl. destruct (append_header_ok c line P3) as (b & -> & Eb & Hok); [rewrite P2; lia|]. eexists. split; [done|]. split_and!; [by apply reads_payload| |by split_and!|done].
  split; [done| |done]. cbn. by rewrite Eb, P2.
Qed.
Lemma last_line_ok c input l ls : reads c input → has_read (l :: ls) (payload c) → Z.of_nat (bulk (l :: ls)) < ROOM →
  match strchr 32 (c_str l) with
  | None => httpr_last_line c = Ret None
  | Some (m, uri) => ∃ c', httpr_last_line c = Ret (Some c') ∧ reads c' input ∧ ready (absolute d (l :: ls) m uri) (new_headers d (l :: ls)) (payload c') ∧ same c c'
  end.
Proof.
  intros Hr Hp Hb. pose proof Hp as [P1 P2 P3 P4 P5]. unfold httpr_last_line. rewrite P1. cbn [head fmap option_fmap option_map]. rewrite (toss_ok c input l ls Hr Hp Hb). destruct (strchr 32 (c_str l)) as [[m uri]|]; [|done]. rewrite bind_Ret.
  set (ls1 := l :: ls) in *. set (f := absolute d ls1 m uri). set (c1 := on_payload (set_firstline f) c). assert (Hk : zlen (kept ls1) < 2 ^ 28) by (pose proof (kept_bulk ls1); unfold ROOM in *; lia).
  assert (Hr1 : reads c1 input) by (by apply reads_payload). assert (Hp1 : ready f (kept ls1) (payload c1)) by (by split). pose proof (fmt_host_length d Hd) as Hfl.
  assert (Hhost : ∃ c2, (if has_host (payload c1) then Ret c1 else let h := bytes "Host: " ++ fmt_http_host (destaddr c1) in _ ← assert ((0 <? zlen h) && (zlen h <? 32)); httpr_append_header c1 h) = Ret c2 ∧
    reads c2 input ∧ ready f (kept ls1 ++ match host_of ls1 with Some _ => [] | None => bytes "Host: " ++ fmt_http_host d ++ CRLF end) (payload c2) ∧ same c1 c2).
  { change (has_host (payload c1)) with (has_host (payload c)). rewrite P3, (rs_dest _ _ Hr1 : destaddr c1 = d). destruct (host_of ls1).
    - exists c1. rewrite app_nil_r. by split_and!.
    - cbn zeta. change (bool_decide _) with false. assert (Hlh : zlen (bytes "Host: " ++ fmt_http_host d) = 6 + zlen (fmt_http_host d)) by (rewrite length_app; change (length (bytes "Host: ")) with 6%nat; lia).
      rewrite assert_true, bind_Ret by (rewrite Hlh; apply andb_true_iff; split; apply Z.ltb_lt; lia).
      destruct (append_ready c1 input f (kept ls1) (bytes "Host: " ++ fmt_http_host d) Hr1 Hp1 ltac:(lia)) as (c2 & -> & R2 & P & S2 & _). exists c2. by split_and!. }
  destruct Hhost as (c2 & Hq & R2 & Q2 & S2). cbv zeta in Hq. rewrite Hq. clear Hq. rewrite bind_Ret. set (hd2 := kept ls1 ++ match host_of ls1 with Some _ => [] | None => _ end) in *.
  assert (Hhd2 : zlen hd2 < 2 ^ 28 + 64). { unfold hd2. rewrite length_app. destruct (host_of ls1); [cbn [length]; lia|]. rewrite !length_app. change (length (bytes "Host: ")) with 6%nat. change (length CRLF) with 2%nat. lia. }
  destruct (append_ready c2 input f hd2 (bytes "Proxy-Connection: close") R2 Q2) as (c3 & -> & R3 & Q3 & S3 & _); [change (length (bytes "Proxy-Connection: close")) with 23%nat; lia|]. rewrite bind_Ret.
  destruct (append_ready c3 input f _ (bytes "Connection: close") R3 Q3) as (c4 & -> & R4 & Q4 & S4 & _); [rewrite !length_app; change (length (bytes "Proxy-Connection: close")) with 23%nat; change (length (bytes "Connection: close")) with 17%nat; change (length CRLF) with 2%nat; lia|]. rewrite bind_Ret.
  destruct (append_ready c4 input f _ [] R4 Q4) as (c5 & -> & R5 & Q5 & S5 & _); [rewrite !length_app; change (length (bytes "Proxy-Connection: close")) with 23%nat; change (length (bytes "Connection: close")) with 17%nat; change (length CRLF) with 2%nat; cbn [length]; lia|]. rewrite bind_Ret.
  exists c5. split; [done|]. split; [done|]. split. { replace (new_headers d ls1) with (((hd2 ++ bytes "Proxy-Connection: close" ++ CRLF) ++ bytes "Connection: close" ++ CRLF) ++ [] ++ CRLF); [done|]. unfold new_headers, hd2. by rewrite <- !app_assoc. }
  eapply same_trans; [|exact S5]. eapply same_trans; [|exact S4]. eapply same_trans; [|exact S3]. eapply same_trans; [|exact S2]. by split_and!.
Qed.

(** How the loop ends, by the lines there are. *)
Definition head_ends (ls : list (list Z)) (x : list Z + list Z) (c : clientr) (r : head_result) : Prop :=
  match x with
  | inl rest => ∃ c', r = HeadMore c' ∧ reads c' rest ∧ has_read ls (payload c') ∧ same c c'
  | inr body =>
      match ls with
      | [] => ∃ c', r = HeadDrop c'
      | l :: _ =>
          match strchr 32 (c_str l) with
          | None => ∃ c', r = HeadDrop c'
          | Some (m, uri) => ∃ c', r = HeadDone c' ∧ reads c' body ∧ ready (absolute d ls m uri) (new_headers d ls) (payload c') ∧ same c c'
          end
      end
  end.
Lemma head_ends_same ls x c c1 r : same c c1 → head_ends ls x c1 r → head_ends ls x c r.
Proof.
  intros Hs. unfold head_ends. destruct x as [rest|body].
  - intros (c' & H1 & H2 & H3 & H4). exists c'. split_and!; try done. by eapply same_trans.
  - destruct ls as [|l ls]; [done|]. destruct (strchr _ _) as [[m uri]|]; [|done]. intros (c' & H1 & H2 & H3 & H4). exists c'. split_and!; try done. by eapply same_trans.
Qed.
Lemma read_head_ok fuel c input ls ls' x : reads c input → has_read ls (payload c) → scan_head input = (ls', x) → (length input < fuel)%nat →
  Forall roomy (list.tail (ls ++ ls')) → Z.of_nat (bulk (ls ++ ls')) < ROOM → ∃ r, httpr_read_head fuel c = Ret r ∧ head_ends (ls ++ ls') x c r.
Proof.
  revert c input ls ls'. induction fuel as [|fuel IH]; intros c input ls ls' Hr Hp Hs Hf Hroom Hb; [lia|]. cbn [httpr_read_head]. rewrite (get_input_ok c input Hr), bind_Ret. rewrite scan_step in Hs.
  destruct (find_nl input) as [[l rest]|] eqn:En.
  2: { injection Hs as <- <-. rewrite app_nil_r in *. eexists. split; [done|]. exists c. by split_and!. }
  destruct (set_input_ok c input rest Hr) as (c1 & -> & R1 & P1 & S1 & T1 & U1). rewrite bind_Ret. rewrite <- P1 in Hp. assert (Hsame : same c c1) by (split_and!; congruence). pose proof (find_nl_length _ _ _ En) as Hl.
  destruct (c_str (strip_cr l)) eqn:El.
  - injection Hs as <- <-. rewrite app_nil_r in *. destruct ls as [|l0 ls].
    + unfold httpr_last_line. rewrite (hr_first _ _ Hp). cbn. eexists. split; [done|]. by eexists.
    + pose proof (last_line_ok c1 rest l0 ls R1 Hp Hb) as H. destruct (strchr 32 (c_str l0)) as [[m uri]|] eqn:Ec.
      * destruct H as (c2 & -> & H2 & H3 & H4). rewrite bind_Ret. eexists. split; [done|]. unfold head_ends. rewrite Ec. exists c2. split_and!; try done; by destruct (same_trans _ _ _ Hsame H4) as (? & ? & ? & ?).
      * rewrite H, bind_Ret. eexists. split; [done|]. unfold head_ends. rewrite Ec. by eexists.
  - destruct (scan_head rest) as [ls2 y] eqn:Er. injection Hs as <- <-. rewrite (cons_middle _ ls ls2), app_assoc in Hroom, Hb |- *.
    assert (Hbulk : Z.of_nat (bulk (ls ++ [strip_cr l])) < ROOM) by (unfold bulk in *; rewrite (concat_app (ls ++ _)), !length_app in Hb; rewrite length_app; lia).
    destruct (header_line c1 rest ls (strip_cr l) R1 Hp) as (c2 & -> & R2 & P2 & S2 & T2 & U2 & A2); [|done|].
    { intros Hne. destruct ls as [|l1 ls0]; [done|]. cbn [app list.tail] in Hroom. rewrite !Forall_app in Hroom. destruct Hroom as [[_ H] _]. by apply Forall_cons_1 in H as [? _]. }
    rewrite bind_Ret. destruct (IH c2 rest (ls ++ [strip_cr l]) ls2 R2 P2 Er ltac:(lia) Hroom Hb) as (r & -> & Hends). exists r. split; [done|]. eapply head_ends_same; [|exact Hends]. eapply same_trans; [exact Hsame|]. by split_and!.
Qed.

(** *** The body *)
Definition passes_on (c : clientr) : bool := match relay c with Some _ => httpr_request_sent <=? state c | None => false end.
Definition with_output (bs : list Z) (o : option bufferevent) : option bufferevent := (λ rb, set_output (bev_output rb ++ bs) rb) <$> o.
Lemma with_output_nil o : with_output [] o = o.
Proof. destruct o as [rb|]; [|done]. cbn. rewrite app_nil_r. by destruct rb. Qed.
Lemma with_output_app a b o : with_output b (with_output a o) = with_output (a ++ b) o.
Proof. destruct o as [rb|]; [|done]. cbn. by rewrite app_assoc. Qed.

Lemma body_read_ok fuel c input f hd : reads c input → ready f hd (payload c) → (length input < fuel)%nat → zlen hd + zlen input < 2 ^ 30 →
  ∃ c', httpr_client_read_content fuel c = Ret c' ∧ reads c' [] ∧ ready f (hd ++ input) (payload c') ∧ state c' = state c ∧ cbs c' = cbs c ∧ auth (payload c') = auth (payload c) ∧
    relay c' = if passes_on c then with_output input (relay c) else relay c.
Proof.
  revert c input hd. induction fuel as [|fuel IH]; intros c input hd Hr Hp Hf Hl; [lia|]. cbn [httpr_client_read_content]. rewrite (get_input_ok c input Hr), bind_Ret. destruct input as [|x input0] eqn:Ei.
  - exists c. rewrite app_nil_r, with_output_nil. split_and!; try done. by destruct (passes_on c).
  - rewrite <- Ei in *. set (k := Z.to_nat post_buffer_len). assert (Hk : (0 < k)%nat) by (unfold k, post_buffer_len; lia). clearbody k. destruct (set_input_ok c input (drop k input) Hr) as (c1 & -> & R1 & P1 & S1 & T1 & U1). rewrite bind_Ret, P1.
    destruct Hp as [F1 F2 F3]. destruct (append_ok (client_buffer (payload c)) (take k input) F3) as (b & -> & Eb & Hok); [rewrite F2, length_take; lia|]. rewrite bind_Ret. set (c2 := on_payload (set_client_buffer b) c1).
    assert (R2 : reads c2 (drop k input)) by (by apply reads_payload). assert (P2 : ready f (hd ++ take k input) (payload c2)) by (split; [cbn; by rewrite P1|by rewrite <- F2, <- Eb|done]).
    assert (Hnext : ∃ c3, match relay c2 with Some _ => if httpr_request_sent <=? state c2 then write_relay (take k input) c2 else Ret c2 | None => Ret c2 end = Ret c3 ∧
      reads c3 (drop k input) ∧ payload c3 = payload c2 ∧ state c3 = state c ∧ cbs c3 = cbs c ∧ relay c3 = if passes_on c then with_output (take k input) (relay c) else relay c).
    { change (relay c2) with (relay c1). change (state c2) with (state c1). rewrite T1, S1. unfold passes_on. destruct (relay c) as [rb|] eqn:Er; [|exists c2; split_and!; try done; congruence].
      destruct (httpr_request_sent <=? state c); [|exists c2; split_and!; try done; congruence]. unfold write_relay, get_bev. cbn [bev]. change (relay c2) with (relay c1). rewrite T1, bind_Ret. eexists. split; [done|]. split_and!; try done. by destruct R2; split. }
    destruct Hnext as (c3 & -> & R3 & P3 & S3 & U3 & T3). rewrite bind_Ret. rewrite <- P3 in P2.
    destruct (IH c3 (drop k input) (hd ++ take k input) R3 P2) as (c4 & -> & R4 & P4 & S4 & U4 & A4 & T4); [rewrite length_drop, Ei in *; cbn [length] in *; lia|rewrite length_app, length_take, length_drop; lia|].
    exists c4. split; [done|]. split; [done|]. split; [by rewrite <- app_assoc, take_drop in P4|]. split_and!; [congruence|congruence|rewrite A4, P3; cbn; by rewrite P1|]. rewrite T4, T3. unfold passes_on. rewrite S3, T3. unfold passes_on.
    destruct (relay c) as [rb|]; [|done]. destruct (httpr_request_sent <=? state c) eqn:Es; [|done]. change (with_output (drop k input) (with_output (take k input) (Some rb)) = with_output input (Some rb)). by rewrite (with_output_app (take k input) (drop k input) (Some rb)), take_drop.
Qed.
Lemma read_content_ok c input f hd : reads c input → ready f hd (payload c) → zlen hd + zlen input < 2 ^ 30 →
  ∃ c', read_content c = Ret c' ∧ reads c' [] ∧ ready f (hd ++ input) (payload c') ∧ state c' = state c ∧ cbs c' = cbs c ∧ auth (payload c') = auth (payload c) ∧
    relay c' = if passes_on c then with_output input (relay c) else relay c.
Proof. intros Hr Hp Hl. unfold read_content. rewrite (get_input_ok c input Hr), bind_Ret. by apply body_read_ok; [| |lia|]. Qed.

(** *** Facts about a rewritten request *)
Lemma send_facts s f hd body : rewrite_request d s = RqSend f hd body → zlen s < ROOM → In 32 f ∧ zlen f < 2 ^ 28 ∧ zlen hd + zlen body < 2 ^ 29.
Proof.
  unfold rewrite_request. destruct (scan_head s) as [ls x] eqn:Es. pose proof (scan_bulk _ _ _ Es) as Hb. destruct x as [rest|bd]; [by destruct ls|]. destruct ls as [|l ls]; [done|]. destruct (strchr 32 (c_str l)) as [[m uri]|] eqn:Ec; [|done].
  intros [= <- <- <-] Hs. apply strchr_spec in Ec as [Ec (u & ->)]. pose proof (c_str_length l) as Hc. rewrite Ec, length_app in Hc. cbn [length] in Hc. pose proof (fmt_host_length d Hd) as Hfl. pose proof (kept_bulk (l :: ls)) as Hk.
  assert (Hh : zlen (default (fmt_http_host d) (host_of (l :: ls))) < ROOM + 32). { destruct (host_of (l :: ls)) as [h|] eqn:Eh; cbn [default from_option id]; [apply host_of_bulk in Eh; lia|unfold ROOM; lia]. }
  assert (Hm : (length m + length u <= bulk (l :: ls))%nat) by (unfold bulk; cbn [concat length]; rewrite length_app; lia). unfold ROOM in *. split_and!.
  - unfold absolute. apply in_app_iff. right. by left.
  - unfold absolute. change (drop 1 (32 :: u)) with u. rewrite !length_app. lens.
  - unfold new_headers. rewrite !length_app. change (length (bytes "Proxy-Connection: close")) with 23%nat. change (length (bytes "Connection: close")) with 17%nat. change (length CRLF) with 2%nat.
    assert (length (match host_of (l :: ls) with Some _ => [] | None => bytes "Host: " ++ fmt_http_host d ++ CRLF end) <= 29)%nat by (destruct (host_of (l :: ls)); [cbn; lia|rewrite !length_app; change (length (bytes "Host: ")) with 6%nat; change (length CRLF) with 2%nat; lia]). lia.
Qed.
Lemma send_grows s t f hd body : rewrite_request d s = RqSend f hd body → rewrite_request d (s ++ t) = RqSend f hd (body ++ t).
Proof.
  unfold rewrite_request. rewrite scan_app. destruct (scan_head s) as [ls [rest|bd]]; [by destruct ls|]. destruct ls as [|l ls]; [done|]. destruct (strchr 32 (c_str l)) as [[m uri]|]; [|done]. by intros [= <- <- <-].
Qed.

(** ** The credentials *)
Definition query_ok (q : list Z) : Prop := (strncaseeq q (bytes "Digest") 6 = true → (7 <= length q)%nat) ∧ zlen q < MD5_PIECE.
Definition creds_ok : Prop := ∀ u p, login cfg = Some u → password cfg = Some p → bytes_ok u ∧ bytes_ok p ∧ zlen u < ROOM ∧ zlen p < ROOM.
Definition auth_ok (a : http_auth) : Prop := ∀ q, last_auth_query a = Some q → query_ok q ∧ login cfg ≠ None ∧ password cfg ≠ None.

Lemma strchr_in ch l : In ch l → strchr ch l ≠ None.
Proof.
  unfold strchr. induction l as [|x l IH]; [done|]. cbn [span]. destruct (Z.eqb_spec x ch) as [->|Hne]; cbn [negb]; [intros _ [=]|]. intros [E|Hi]; [by subst|]. specialize (IH Hi). destruct (span _ l) as [a [|y b]]; done.
Qed.
Lemma method_uri_ok f : In 32 f → ∃ r, method_uri f = Ret r ∧ ∀ m u, r = Some (m, u) → zlen m ≤ zlen f ∧ zlen u ≤ zlen f.
Proof.
  intros Hi. unfold method_uri. pose proof (strchr_in 32 f Hi) as Hs. destruct (strchr 32 f) as [[m r]|] eqn:E1; [|done]. eexists. split; [done|]. intros m' u'. apply strchr_spec in E1 as [E1 _].
  assert (zlen m ≤ zlen f) by (rewrite E1, length_app; lia). destruct (strchr 47 f) as [[x [|y [|c z]]]|] eqn:E2; try done. apply strchr_spec in E2 as [E2 _]. destruct (c =? 47); [|done].
  destruct (strchr 47 z) as [[v w]|] eqn:E3; [|done]. apply strchr_spec in E3 as [E3 _]. destruct (strchr 32 w) as [[u t]|] eqn:E4; [|done]. apply strchr_spec in E4 as [E4 _]. intros [= <- <-]. split; [done|].
  rewrite E2, length_app. cbn [length]. rewrite E3, length_app, E4, length_app. lia.
Qed.
(** The answer to the stored challenge [q], when [f] is the request line: for Basic
    the login in base64, for Digest the answer to the challenge for the method and
    the path of the request, nothing for another scheme.  [inr]: for Digest the
    request line has no path, and the client is dropped. *)
Definition credentials (h : httpr_sys) (q : option (list Z)) (count : Z) (f : list Z) : option (list Z * list Z) + unit :=
  let user := default [] (login cfg) in
  let passwd := default [] (password cfg) in
  match q with
  | None => inl None
  | Some q =>
      if strncaseeq q (bytes "Basic") 5 then inl (Some (bytes "Basic", spec_encode (user ++ bytes ":" ++ passwd)))
      else if strncaseeq q (bytes "Digest") 6 then
        match method_uri f with
        | Ret (Some (m, uri)) =>
            let line := drop 7 q in
            inl ((λ s, (bytes "Digest", s)) <$>
                 digest_answer (collect (extract_all (S (length line)) line) no_challenge) user passwd m uri count (hex8 (rrand1 h) ++ hex8 (rrand2 h)))
        | _ => inr tt
        end
      else inl None
  end.

Lemma digit_nz n : 0 ≤ n < 64 → digit n ≠ 0.
Proof.
  intros Hn. unfold digit. assert (Hb : Forall (λ c, c ≠ 0) b64) by (apply nz_const; vm_compute; reflexivity).
  rewrite Forall_forall in Hb. apply Hb, nth_In. change (length b64) with 64%nat. lia.
Qed.
Lemma nz_base64 l : bytes_ok l → nz (spec_encode l).
Proof.
  unfold bytes_ok, is_byte, nz. induction l as [|a|a b|a b c l IH] using group3_ind; intros Hl; cbn [spec_encode app];
    repeat match goal with H : Forall _ (_ :: _) |- _ => apply Forall_cons_1 in H as [? H] end;
    repeat (apply Forall_cons_2; [first [lia|apply digit_nz; zdiv]|]); [apply Forall_nil_2..|auto].
Qed.

Lemma auth_string_ok h c count f : creds_ok → auth_ok (auth (payload c)) → instance c = cfg → firstline (payload c) = Some f → In 32 f → zlen f < 2 ^ 28 →
  httpr_auth_string h c count = Ret (credentials h (last_auth_query (auth (payload c))) count f).
Proof.
  intros Hc Ha Hi Hf Hin Hl. unfold httpr_auth_string, credentials. rewrite Hi, Hf. destruct (last_auth_query (auth (payload c))) as [q|] eqn:Eq; [|done]. destruct (Ha q Eq) as ((Hq1 & Hq2) & Hlo & Hpa).
  destruct (login cfg) as [u|] eqn:Eu; [|done]. destruct (password cfg) as [pw|] eqn:Ep; [|done]. destruct (Hc u pw Eu Ep) as (Hu & Hp & Hul & Hpl). unfold ROOM in *. cbn [default from_option id].
  destruct (strncaseeq q (bytes "Basic") 5).
  - rewrite basic_ok; [|done|done|change (UINT_MAX / 4) with 1073741823; lia]. rewrite bind_Ret. rewrite c_str_app; [done|]. apply nz_base64. apply Forall_app_2; [done|]. apply Forall_app_2; [by apply bytes_okb_ok|done].
  - destruct (strncaseeq q (bytes "Digest") 6) eqn:Ed; [|done]. specialize (Hq1 eq_refl). destruct (method_uri_ok f Hin) as (r & -> & Hr). rewrite bind_Ret. destruct r as [[m uri]|]; [|done]. destruct (Hr m uri eq_refl) as [Hm Hu'].
    unfold skip_scheme. rewrite (proj2 (Z.ltb_ge _ _)), bind_Ret by lia. rewrite encode_answer, bind_Ret; [by destruct (digest_answer _ _ _ _ _ _ _)|]. unfold MD5_PIECE in *.
    repeat (apply Forall_cons_2; [rewrite ?length_app, ?hex8_length, ?length_drop; lia|]). apply Forall_nil_2.
Qed.

(** ** The client between two callbacks

    The head is not complete; the request waits for a connection to the proxy; it
    was sent, with these credentials; the client was dropped. *)
Inductive phase := PhHead | PhConnecting | PhSent (cred : option (list Z * list Z)) | PhGone.

Inductive tracks (s : list Z) (c : clientr) : phase → Prop :=
| TrHead ls rest : scan_head s = (ls, inl rest) → reads c rest → has_read ls (payload c) → state c = httpr_new → relay c = None → cbs c = CbConnecting → tracks s c PhHead
| TrWait f hd body rb : rewrite_request d s = RqSend f hd body → reads c [] → ready f (hd ++ body) (payload c) → relay c = Some rb → bev_input rb = [] → bev_output rb = [] →
    state c = httpr_recv_request_headers → cbs c = CbConnecting → tracks s c PhConnecting
| TrSent f hd body rb a : rewrite_request d s = RqSend f hd body → reads c [] → ready f (hd ++ body) (payload c) → relay c = Some rb → bev_input rb = [] →
    bev_output rb = f ++ auth_line a ++ hd ++ body → wm_read_low rb = 1 → state c = httpr_request_sent → cbs c = CbSubsys → tracks s c (PhSent a).

(** What more bytes of the client do. *)
Definition client_phase (ph : phase) (s : list Z) : phase :=
  match ph with
  | PhHead => match rewrite_request d s with RqMore => PhHead | RqBad => PhGone | RqSend _ _ _ => PhConnecting end
  | _ => ph
  end.

Definition got_client (bs : list Z) (c : clientr) : outcome clientr :=
  b ← get_bev SClient c; Ret (set_io (add_got SClient bs (io c)) (set_client (Some (set_input (bev_input b ++ bs) b)) c)).
Lemma got_ok c input bs : reads c input → ∃ c', got_client bs c = Ret c' ∧ reads c' (input ++ bs) ∧ payload c' = payload c ∧ state c' = state c ∧ relay c' = relay c ∧ cbs c' = cbs c.
Proof. intros [(b & E & <-) H2 H3]. unfold got_client, get_bev. cbn [bev]. rewrite E, bind_Ret. eexists. split; [done|]. split_and!; try done. split; [by eexists|done|done]. Qed.

Lemma client_event h e s bs c ph : tracks s c ph → zlen (s ++ bs) < ROOM → roomy_head (s ++ bs) → proxy_fd h ≠ None →
  ∃ r, (c ← got_client bs c; httpr_client_read_cb h e c) = Ret r ∧
    match r with Alive c' => tracks (s ++ bs) c' (client_phase ph (s ++ bs)) ∧ auth (payload c') = auth (payload c) | Dropped _ => client_phase ph (s ++ bs) = PhGone end.
Proof.
  intros Ht Hs Hroom Hfd. destruct Ht as [ls rest Hscan Hr Hp Hst Hre Hcb|f hd body rb Hrw Hr Hp Hre Hi Ho Hst Hcb|f hd body rb a Hrw Hr Hp Hre Hi Ho Hw Hst Hcb].
  - destruct (got_ok c rest bs Hr) as (c1 & -> & R1 & P1 & S1 & T1 & U1). rewrite bind_Ret. unfold httpr_client_read_cb. set (c2 := redsocks_touch_client e c1). assert (R2 : reads c2 (rest ++ bs)) by (by apply reads_touch).
    change (state c2) with (state c1). rewrite S1, Hst. cbn [Z.leb httpr_recv_request_headers httpr_new Z.compare]. rewrite (get_input_ok c2 _ R2), bind_Ret. pose proof (scan_app s bs) as Hsc. rewrite Hscan in Hsc.
    destruct (scan_head (rest ++ bs)) as [ls' x] eqn:E'. assert (Hb : Z.of_nat (bulk (ls ++ ls')) < ROOM) by (pose proof (scan_bulk _ _ _ Hsc); lia). unfold roomy_head in Hroom. rewrite Hsc in Hroom. cbn [fst] in Hroom.
    destruct (read_head_ok (S (length (rest ++ bs))) c2 (rest ++ bs) ls ls' x R2 ltac:(cbn; by rewrite P1) E' ltac:(lia) Hroom Hb) as (r & -> & He). rewrite bind_Ret. destruct x as [rest'|body].
    + destruct He as (c3 & -> & R3 & P3 & (S3 & T3 & U3 & A3)). eexists. split; [done|]. split; [|rewrite A3; cbn; by rewrite P1]. replace (client_phase PhHead (s ++ bs)) with PhHead by (unfold client_phase, rewrite_request; rewrite Hsc; by destruct (ls ++ ls')). eapply (TrHead _ _ (ls ++ ls')); [done..|rewrite S3; cbn; congruence|rewrite T3; cbn; congruence|rewrite U3; cbn; congruence].
    + unfold head_ends in He. unfold client_phase, rewrite_request. rewrite Hsc. destruct (ls ++ ls') as [|l ls2] eqn:El; [destruct He as (c3 & ->); eexists; split; [done|]; done|]. destruct (strchr 32 (c_str l)) as [[m uri]|] eqn:Ec; [|destruct He as (c3 & ->); eexists; split; [done|]; done].
      destruct He as (c3 & -> & R3 & P3 & (S3 & T3 & U3 & A3)).
      assert (Hrw : rewrite_request d (s ++ bs) = RqSend (absolute d (l :: ls2) m uri) (new_headers d (l :: ls2)) body) by (unfold rewrite_request; by rewrite Hsc, Ec). destruct (send_facts _ _ _ _ Hrw Hs) as (_ & _ & Hlen).
      destruct (read_content_ok (set_state httpr_recv_request_headers c3) body _ _ (reads_state _ _ _ R3) P3 ltac:(lia)) as (c4 & -> & R4 & P4 & S4 & U4 & A4 & T4). rewrite bind_Ret. destruct (proxy_fd h) as [fd|] eqn:Efd; [|done]. cbn [redsocks_connect_relay].
      eexists. split; [done|]. split; [|cbn; rewrite A4; cbn; rewrite A3; cbn; by rewrite P1]. eapply TrWait; [exact Hrw| |exact P4|done|done|done|exact S4|cbn; rewrite U4; cbn; rewrite U3; cbn; congruence]. by destruct R4; split.
  - destruct (got_ok c [] bs Hr) as (c1 & -> & R1 & P1 & S1 & T1 & U1). rewrite bind_Ret. unfold httpr_client_read_cb. change (state (redsocks_touch_client e c1)) with (state c1). rewrite S1, Hst. cbn [Z.leb httpr_recv_request_headers Z.compare Pos.compare Pos.compare_cont].
    pose proof (send_grows s bs _ _ _ Hrw) as Hrw'. destruct (send_facts _ _ _ _ Hrw' Hs) as (_ & _ & Hlen). rewrite length_app in Hlen.
    destruct (read_content_ok (redsocks_touch_client e c1) bs f (hd ++ body) (reads_touch _ _ _ R1) ltac:(cbn; by rewrite P1) ltac:(rewrite length_app; lia)) as (c4 & -> & R4 & P4 & S4 & U4 & A4 & T4). rewrite bind_Ret. eexists. split; [done|].
    split; [|rewrite A4; cbn; by rewrite P1]. unfold passes_on in T4. cbn [relay redsocks_touch_client set_last_event state] in T4. rewrite T1, S1, Hst, Hre in T4. cbn in T4. eapply TrWait; [exact Hrw'|done|by rewrite app_assoc|exact T4|done|done|rewrite S4; cbn; congruence|rewrite U4; cbn; congruence].
  - destruct (got_ok c [] bs Hr) as (c1 & -> & R1 & P1 & S1 & T1 & U1). rewrite bind_Ret. unfold httpr_client_read_cb. change (state (redsocks_touch_client e c1)) with (state c1). rewrite S1, Hst. cbn [Z.leb httpr_recv_request_headers httpr_request_sent Z.compare Pos.compare Pos.compare_cont].
    pose proof (send_grows s bs _ _ _ Hrw) as Hrw'. destruct (send_facts _ _ _ _ Hrw' Hs) as (_ & _ & Hlen). rewrite length_app in Hlen.
    destruct (read_content_ok (redsocks_touch_client e c1) bs f (hd ++ body) (reads_touch _ _ _ R1) ltac:(cbn; by rewrite P1) ltac:(rewrite length_app; lia)) as (c4 & -> & R4 & P4 & S4 & U4 & A4 & T4). rewrite bind_Ret. eexists. split; [done|].
    assert (A5 : auth (payload c4) = auth (payload c)) by (rewrite A4; cbn; by rewrite P1). split; [|done]. unfold passes_on in T4. cbn [relay redsocks_touch_client set_last_event state] in T4. rewrite T1, S1, Hst, Hre in T4. cbn in T4.
    eapply (TrSent _ _ _ _ _ _ a); [exact Hrw'|done|by rewrite app_assoc|exact T4|done|cbn; rewrite Ho; by rewrite <- !app_assoc|done|rewrite S4; cbn; congruence|rewrite U4; cbn; congruence].
Qed.

Lemma write_relay_ok (c : clientr) rb bs : relay c = Some rb → write_relay bs c = Ret (set_relay (Some (set_output (bev_output rb ++ bs) rb)) c).
Proof. intros E. unfold write_relay, get_bev. cbn [bev]. by rewrite E. Qed.
(** The counter of the shared state, once more. *)
Definition counted (a : http_auth) : http_auth := mkauth (last_auth_query a) (s32 (last_auth_count a + 1)).
(** The connection to the proxy is there: the request is written. *)
Lemma connect_event h e s c : creds_ok → auth_ok (auth (payload c)) → tracks s c PhConnecting → zlen s < ROOM → connected_ok e = true →
  ∃ r f hd body, redsocks_relay_connected (http_relay_subsys h) e c = Ret r ∧ rewrite_request d s = RqSend f hd body ∧
    match credentials h (last_auth_query (auth (payload c))) (last_auth_count (counted (auth (payload c)))) f with
    | inl x => ∃ c', r = Alive c' ∧ tracks s c' (PhSent x) ∧ auth (payload c') = counted (auth (payload c))
    | inr _ => ∃ l, r = Dropped l
    end.
Proof.
  intros Hcr Ha Ht Hs He. inversion Ht as [|f hd body rb Hrw Hr Hp Hre Hi Ho Hst Hcb|].
  unfold redsocks_relay_connected. rewrite He. cbn [http_relay_subsys ss_writecb]. unfold httpr_relay_write_cb. cbn [state set_cbs redsocks_touch_client set_last_event payload]. rewrite Hst. rewrite assert_true, bind_Ret by done.
  rewrite Z.eqb_refl. destruct Hp as [F1 F2 F3]. rewrite F1. rewrite (write_relay_ok _ rb f) by exact Hre. rewrite bind_Ret, Ho. cbn [app].
  destruct (send_facts _ _ _ _ Hrw Hs) as (Hin & Hlf & _). set (c1 := on_payload _ _).
  assert (A1 : auth_ok (auth (payload c1))) by (unfold c1, auth_ok; cbn; exact Ha). rewrite (auth_string_ok h c1 (last_auth_count (auth (payload c1))) f Hcr A1 (rs_cfg _ _ Hr) F1 Hin Hlf), bind_Ret.
  change (last_auth_query (auth (payload c1))) with (last_auth_query (auth (payload c))). change (last_auth_count (auth (payload c1))) with (last_auth_count (counted (auth (payload c)))).
  destruct (credentials _ _ _ _) as [x|[]] eqn:Ex; [|eexists _, f, hd, body; split; [done|]; split; [done|]; rewrite Ex; by eexists].
  rewrite (write_relay_ok c1 (set_output f rb) _ eq_refl), bind_Ret. rewrite (write_relay_ok _ (set_output (f ++ auth_line x) rb)) by reflexivity. rewrite bind_Ret. unfold get_bev. cbn [relay bev set_relay set_state]. rewrite bind_Ret.
  eexists _, f, hd, body. split; [done|]. split; [done|]. rewrite Ex. eexists. split; [done|]. split; [|done]. eapply (TrSent _ _ f hd body _ x); [done| |by split|done|done| |done|done|done].
  - destruct Hr. by split.
  - cbn. rewrite F2. by rewrite <- !app_assoc.
Qed.

Lemma relay_is (c : clientr) rb : relay c = Some rb → get_bev SRelay c = Ret rb.
Proof. intros E. unfold get_bev. cbn [bev]. by rewrite E. Qed.
Lemma reply_input_ok (c : clientr) rb i : relay c = Some rb → set_reply_input i c = Ret (set_relay (Some (set_input i rb)) c).
Proof. intros E. unfold set_reply_input. by rewrite (relay_is c rb E). Qed.
Lemma relay_append_ok (c : clientr) b bs : relay_buffer (payload c) = Some b → buffer_ok b → zlen (buff b) + zlen bs < 2 ^ 30 →
  ∃ b', relay_append bs c = Ret (on_payload (set_relay_buffer (Some b')) c) ∧ buff b' = buff b ++ bs ∧ buffer_ok b'.
Proof. intros E Hb Hl. unfold relay_append. rewrite E. destruct (append_ok b bs Hb Hl) as (b' & -> & H1 & H2). rewrite bind_Ret. by eexists. Qed.
(** The challenge of a reply that demands credentials. *)
Definition demanded (bs : list Z) : option (list Z) :=
  match redsocks_evbuffer_readline bs with
  | Some (line, rest) =>
      match scan_status line, http_auth_request_header (S (length rest)) rest None with
      | Some code, Ret (Some a, _, _) => if code =? 407 then Some (skip_space (drop (length auth_request_header) a)) else None
      | _, _ => None
      end
  | None => None
  end.
(** Such a reply that names a scheme, in one piece. *)
Definition demands (bs : list Z) : Prop := zlen bs ≤ HTTP_HEAD_WM_HIGH ∧ ∃ q, demanded bs = Some q ∧ query_ok q.
(** The demand is met: there is a login, and the stored challenge was not just answered. *)
Definition meets (a : http_auth) : bool := has_login cfg && may_retry a.
Lemma readline_length s l r : redsocks_evbuffer_readline s = Some (l, r) → (length l < length s)%nat.
Proof. unfold redsocks_evbuffer_readline. destruct (find_nl s) as [[x y]|] eqn:E; [|done]. intros [= <- <-]. apply find_nl_length in E. pose proof (c_str_length (strip_cr x)). pose proof (strip_cr_length x). lia. Qed.
Lemma demanded_inv bs q : demanded bs = Some q → ∃ line rest a rest' tee, redsocks_evbuffer_readline bs = Some (line, rest) ∧ scan_status line = Some 407 ∧
  http_auth_request_header (S (length rest)) rest None = Ret (Some a, rest', tee) ∧ q = skip_space (drop (length auth_request_header) a).
Proof.
  unfold demanded. destruct (redsocks_evbuffer_readline bs) as [[line rest]|]; [|done]. destruct (scan_status line) as [code|] eqn:Es; [|done].
  destruct (http_auth_request_header _ _ _) as [[[[a|] rest'] tee]| |] eqn:Eh; try done. destruct (Z.eqb_spec code 407) as [->|]; [|done]. intros [= <-]. exists line, rest, a, rest', tee. by split_and!.
Qed.
Lemma demand_event h e s bs c cred q : tracks s c (PhSent cred) → zlen bs ≤ HTTP_HEAD_WM_HIGH → demanded bs = Some q → proxy_fd h ≠ None →
  ∃ r, bufferevent_readcb (http_relay_subsys h) e c SRelay bs = Ret r ∧
    if meets (auth (payload c)) then ∃ c', r = Alive c' ∧ tracks s c' PhConnecting ∧ auth (payload c') = mkauth (Some q) 0 else ∃ l, r = Dropped l.
Proof.
  intros Ht Hlen Hq Hfd. destruct (demanded_inv bs q Hq) as (line & rest & a & rest' & tee & Hline & Hcode & Hhead & ->). clear Hq.
  inversion Ht as [| |f hd body rb aa Hrw Hr Hp Hre Hi Ho Hw Hst Hcb]. subst cred.
  unfold bufferevent_readcb, get_bev. cbn [bev]. rewrite Hre, bind_Ret, Hi. cbn [app]. pose proof (readline_length _ _ _ Hline) as Hll. cbn [wm_read_low set_input bev_input]. rewrite Hw, (proj2 (Z.leb_le 1 _)) by lia.
  unfold run_readcb. cbn [cbs set_io set_bev set_relay]. rewrite Hcb. cbn [http_relay_subsys ss_readcb]. unfold httpr_relay_read_cb. cbn [state set_io set_bev set_relay redsocks_touch_client set_last_event on_payload set_payload]. rewrite Hst, assert_true, bind_Ret by done. rewrite Z.eqb_refl.
  unfold httpr_first_line. rewrite (relay_is _ (set_input bs rb)) by reflexivity. rewrite bind_Ret. cbn [bev_input set_input]. rewrite Hline. rewrite (reply_input_ok _ (set_input bs rb)) by reflexivity. rewrite bind_Ret. set (c1 := set_relay _ _). unfold HTTP_HEAD_WM_HIGH in Hlen.
  unfold httpr_status. destruct (relay_append_ok c1 httpr_buffer_init line eq_refl fresh_buffer_ok) as (b1 & -> & E1 & O1); [cbn; lia|]. rewrite bind_Ret.
  destruct (relay_append_ok (on_payload (set_relay_buffer (Some b1)) c1) b1 CRLF eq_refl O1) as (b2 & -> & E2 & O2); [rewrite E1; cbn; lia|]. rewrite bind_Ret, Hcode. set (c2 := on_payload _ _). cbn [Z.eqb Pos.eqb].
  unfold meets, has_login, may_retry. change (auth (payload c2)) with (auth (payload c)).
  destruct (match last_auth_query (auth (payload c)) with Some _ => _ | None => _ end); [rewrite andb_false_r, bind_Ret; eexists; (split; [done|]); by eexists|]. change (instance c2) with (instance c). rewrite (rs_cfg _ _ Hr).
  destruct (login cfg) as [u|] eqn:Eu; [|cbn [andb]; rewrite bind_Ret; eexists; (split; [done|]); by eexists]. destruct (password cfg) as [pw|] eqn:Ep; [|cbn [andb]; rewrite bind_Ret; eexists; (split; [done|]); by eexists]. cbn [andb negb].
  rewrite (relay_is c2 (set_input rest (set_input bs rb)) eq_refl), !bind_Ret. cbn [bev_input set_input]. rewrite Hhead, bind_Ret. rewrite (reply_input_ok c2 (set_input rest (set_input bs rb)) rest' eq_refl), bind_Ret.
  unfold httpr_retry. rewrite (relay_is _ (set_input rest' (set_input rest (set_input bs rb)))) by reflexivity. rewrite !bind_Ret. destruct (proxy_fd h) as [fd|]; [|done]. cbn [redsocks_connect_relay]. eexists. split; [done|]. eexists. split; [done|]. split; [|done].
  eapply TrWait; [exact Hrw| | |done|done|done|done|done]; [destruct Hr; by split|destruct Hp; by split].
Qed.

(** ** Runs

    The client sends; the connection to the proxy is there; the proxy replies; or
    another client of the instance changes the authentication state they share. *)
Inductive revent := EvClient (bs : list Z) | EvConnected | EvReply (bs : list Z) | EvShared (a : http_auth).
Definition rstep (h : httpr_sys) (e : env) (ev : revent) (c : clientr) : outcome (hres httpr_client) :=
  match ev with
  | EvClient bs => c ← got_client bs c; httpr_client_read_cb h e c
  | EvConnected => match relay c, cbs c with Some _, CbConnecting => redsocks_relay_connected (http_relay_subsys h) e c | _, _ => Ret (Alive c) end
  | EvReply bs => match relay c, cbs c with Some _, CbSubsys => bufferevent_readcb (http_relay_subsys h) e c SRelay bs | _, _ => Ret (Alive c) end
  | EvShared a => Ret (Alive (on_payload (set_auth a) c))
  end.
Fixpoint rrun (evs : list (httpr_sys * env * revent)) (c : clientr) : outcome (hres httpr_client) :=
  match evs with
  | [] => Ret (Alive c)
  | (h, e, ev) :: evs => r ← rstep h e ev c; match r with Alive c => rrun evs c | Dropped l => Ret (Dropped l) end
  end.
Definition client_bytes (ev : revent) : list Z := match ev with EvClient bs => bs | _ => [] end.
Definition stream (evs : list (httpr_sys * env * revent)) : list Z := concat (map (λ x, client_bytes x.2) evs).
Definition event_ok (x : httpr_sys * env * revent) : Prop :=
  proxy_fd x.1.1 ≠ None ∧ connected_ok x.1.2 = true ∧ match x.2 with EvReply bs => demands bs | EvShared a => auth_ok a | _ => True end.

(** ** The specification of a run

    The bytes of the client so far, the phase, and the shared state. *)
Record rspec := RSpec { sp_stream : list Z; sp_phase : phase; sp_auth : http_auth }.
Definition spec_step (h : httpr_sys) (ev : revent) (m : rspec) : rspec :=
  match ev with
  | EvClient bs => let s := sp_stream m ++ bs in RSpec s (client_phase (sp_phase m) s) (sp_auth m)
  | EvConnected =>
      match sp_phase m, rewrite_request d (sp_stream m) with
      | PhConnecting, RqSend f _ _ =>
          let a := counted (sp_auth m) in
          RSpec (sp_stream m) (match credentials h (last_auth_query a) (last_auth_count a) f with inl x => PhSent x | inr _ => PhGone end) a
      | _, _ => m
      end
  | EvReply bs =>
      match sp_phase m with
      | PhSent _ => if meets (sp_auth m) then RSpec (sp_stream m) PhConnecting (mkauth (demanded bs) 0) else RSpec (sp_stream m) PhGone (sp_auth m)
      | _ => m
      end
  | EvShared a => RSpec (sp_stream m) (sp_phase m) a
  end.
Definition spec_run (evs : list (httpr_sys * env * revent)) (m : rspec) : rspec := fold_left (λ m x, spec_step x.1.1 x.2 m) evs m.

Lemma roomy_app s t : roomy_head (s ++ t) → roomy_head s.
Proof.
  unfold roomy_head. rewrite scan_app. destruct (scan_head s) as [ls [rest|body]]; [|done]. destruct (scan_head (rest ++ t)) as [ls' x]. cbn [fst]. destruct ls as [|l ls]; [intros _; constructor|]. cbn [app list.tail]. by rewrite Forall_app; intros [? _].
Qed.
(** A client that was dropped stays so. *)
Lemma spec_gone evs m : sp_phase m = PhGone → sp_phase (spec_run evs m) = PhGone.
Proof.
  revert m. induction evs as [|[[h e] ev] evs IH]; intros m Hm; [done|]. apply IH. destruct ev; cbn [spec_step fst snd]; rewrite ?Hm; done.
Qed.
Lemma spec_stream evs m : sp_stream (spec_run evs m) = sp_stream m ++ stream evs.
Proof.
  revert m. induction evs as [|[[h e] ev] evs IH]; intros m; [by rewrite app_nil_r|]. unfold stream in *. cbn [map concat spec_run fold_left snd fst]. fold (spec_run evs (spec_step h ev m)). rewrite IH, app_assoc. f_equal.
  destruct ev; cbn [spec_step client_bytes]; rewrite ?app_nil_r; try done; repeat case_match; done.
Qed.

(** The client is as the specification says. *)
Definition ends (m : rspec) (r : hres httpr_client) : Prop :=
  match r with Alive c => tracks (sp_stream m) c (sp_phase m) ∧ auth (payload c) = sp_auth m ∧ auth_ok (sp_auth m) | Dropped _ => sp_phase m = PhGone end.

Lemma tracks_shared s c ph a : tracks s c ph → tracks s (on_payload (set_auth a) c) ph.
Proof.
  intros [ls rest H1 H2 H3 H4 H5 H6|f hd body rb H1 H2 H3 H4 H5 H6 H7 H8|f hd body rb x H1 H2 H3 H4 H5 H6 H7 H8 H9].
  - eapply TrHead; try done; [by destruct H2; split|by destruct H3; split].
  - eapply TrWait; try done; [by destruct H2; split|by destruct H3; split].
  - eapply TrSent; try done; [by destruct H2; split|by destruct H3; split].
Qed.

Lemma relay_event_ok h e ev m c : creds_ok → event_ok (h, e, ev) → ends m (Alive c) → zlen (sp_stream m ++ client_bytes ev) < ROOM → roomy_head (sp_stream m ++ client_bytes ev) →
  ∃ r, rstep h e ev c = Ret r ∧ ends (spec_step h ev m) r.
Proof.
  intros Hcr (Hfd & Hco & Hev) (Ht & Ha & Hok) Hs Hroom. cbn [fst snd] in *. destruct ev as [bs| |bs|a]; cbn [rstep spec_step client_bytes] in *.
  - destruct (client_event h e _ bs c _ Ht Hs Hroom Hfd) as (r & -> & H). exists r. split; [done|]. destruct r as [c'|l]; [|done]. destruct H as [H1 H2]. split; [done|]. by rewrite H2.
  - rewrite app_nil_r in *. destruct m as [s ph au]. cbn [sp_stream sp_phase sp_auth] in *. subst au. destruct Ht as [ls rest H1 H2 H3 H4 H5 H6|f hd body rb H1 H2 H3 H4 H5 H6 H7 H8|f hd body rb x H1 H2 H3 H4 H5 H6 H7 H8 H9].
    + rewrite H5. eexists. split; [done|]. split; [by eapply TrHead|done].
    + rewrite H4, H8. destruct (connect_event h e s c Hcr Hok) as (r & f' & hd' & body' & -> & Hrw & H); [by eapply TrWait|done|done|]. exists r. split; [done|]. rewrite Hrw.
      destruct (credentials _ _ _ _); [|by destruct H as (l & ->)]. destruct H as (c' & -> & H9 & H10). split_and!; [done|done|]. exact Hok.
    + rewrite H4, H9. eexists. split; [done|]. split; [by eapply TrSent|done].
  - rewrite app_nil_r in *. destruct Hev as (Hlen & q & Hq & Hqok). destruct m as [s ph au]. cbn [sp_stream sp_phase sp_auth] in *. subst au. destruct Ht as [ls rest H1 H2 H3 H4 H5 H6|f hd body rb H1 H2 H3 H4 H5 H6 H7 H8|f hd body rb x H1 H2 H3 H4 H5 H6 H7 H8 H9].
    + rewrite H5. eexists. split; [done|]. split; [by eapply TrHead|done].
    + rewrite H4, H8. eexists. split; [done|]. split; [by eapply TrWait|done].
    + rewrite H4, H9. destruct (demand_event h e s bs c x q) as (r & -> & H); [by eapply TrSent|done|done|done|]. exists r. split; [done|]. destruct (meets (auth (payload c))) eqn:Em; [|by destruct H as (l & ->)].
      destruct H as (c' & -> & H10 & H11). rewrite Hq. split_and!; [done|done|]. intros q' [= <-]. unfold meets, has_login in Em. split; [done|]. by destruct (login cfg), (password cfg).
  - eexists. split; [done|]. split_and!; [by apply tracks_shared|done|done].
Qed.
Lemma run_tracks evs m c : creds_ok → Forall event_ok evs → ends m (Alive c) → zlen (sp_stream m ++ stream evs) < ROOM → roomy_head (sp_stream m ++ stream evs) →
  ∃ r, rrun evs c = Ret r ∧ ends (spec_run evs m) r.
Proof.
  intros Hcr Hevs. revert m c. induction Hevs as [|[[h e] ev] evs Hev Hevs IH]; intros m c Hm Hs Hroom; [by eexists|].
  assert (Hst : sp_stream (spec_step h ev m) = sp_stream m ++ client_bytes ev) by (pose proof (spec_stream [(h, e, ev)] m) as H; cbn in H; by rewrite app_nil_r in H).
  cbn [rrun]. unfold stream in Hs, Hroom. cbn [map concat snd] in Hs, Hroom. fold (stream evs) in Hs, Hroom. rewrite app_assoc in Hs, Hroom.
  destruct (relay_event_ok h e ev m c Hcr Hev Hm) as (r & -> & H); [rewrite length_app in Hs; lia|by apply roomy_app in Hroom|]. rewrite bind_Ret. destruct r as [c'|l].
  - apply (IH (spec_step h ev m)); [done|by rewrite Hst..].
  - eexists. split; [done|]. exact (spec_gone evs (spec_step h ev m) H).
Qed.
End Request.

Lemma accept_tracks e cfg d a fd : auth_ok cfg a →
  ∃ c0, httpr_accept_client e cfg (Httpr a None None false httpr_buffer_init None) fd d = Ret (Alive c0) ∧ ends cfg d (RSpec [] PhHead a) (Alive c0).
Proof.
  intros Ha. eexists. split; [reflexivity|]. split_and!; [|done|done]. eapply (TrHead _ _ _ _ [] []); try done; split; try done; first [by eexists|apply fresh_buffer_ok].
Qed.

(** C16: the relay rewrites a request and loses nothing of it.  For every stream of a
    client, every way to cut it into reads before, while and after the connection to the
    proxy is made, every sequence of demands for credentials (407 replies whose challenge
    names a scheme, each in one piece) and every change that other clients make to the
    shared authentication state in between, the run is that of [spec_run]: the client
    waits until the head is complete; it is dropped if there is no request line; otherwise
    each connection to the proxy gets the request line with an absolute URI, the
    credentials for the challenge stored at that time, the headers without those of the
    connection and with a host, and the body, all of it and in order.  The credentials are
    the login in base64 for Basic, the Digest answer for the method and path of the
    request with the shared counter, and nothing without a challenge or for another
    scheme.  After a demand the request is sent again on a new connection, with the new
    challenge, if a login is configured and the request was not the first one sent in
    answer to a stored challenge; otherwise the client is dropped.  The only other drop is
    that of a request without a path when the challenge is a Digest.  The stream is
    shorter than 2^26 bytes, no header line is just the word Host, stored challenges are
    such that the code can read them ([auth_ok]), the login is shorter than 2^26 bytes,
    and connections to the proxy succeed. *)
Theorem httpr_request_refines e cfg d a fd evs : dest_ok d → creds_ok cfg → auth_ok cfg a → Forall (event_ok cfg) evs → zlen (stream evs) < ROOM → roomy_head (stream evs) →
  ∃ c0 r, httpr_accept_client e cfg (Httpr a None None false httpr_buffer_init None) fd d = Ret (Alive c0) ∧ rrun evs c0 = Ret r ∧
    let m := spec_run cfg d evs (RSpec [] PhHead a) in
    (∀ c, r = Alive c → auth (payload c) = sp_auth m) ∧
    match sp_phase m with
    | PhHead => rewrite_request d (stream evs) = RqMore ∧ ∃ c, r = Alive c ∧ relay c = None
    | PhConnecting => ∃ f hd body c rb, rewrite_request d (stream evs) = RqSend f hd body ∧ r = Alive c ∧ relay c = Some rb ∧ cbs c = CbConnecting ∧ bev_output rb = []
    | PhSent x => ∃ f hd body c rb, rewrite_request d (stream evs) = RqSend f hd body ∧ r = Alive c ∧ relay c = Some rb ∧ cbs c = CbSubsys ∧ bev_output rb = f ++ auth_line x ++ hd ++ body
    | PhGone => ∃ l, r = Dropped l
    end.
Proof.
  intros Hd Hcr Ha Hevs Hs Hroom. destruct (accept_tracks e cfg d a fd Ha) as (c0 & E0 & H0). destruct (run_tracks cfg d Hd evs _ c0 Hcr Hevs H0 Hs Hroom) as (r & Er & H). exists c0, r. split; [done|]. split; [done|]. cbn zeta.
  pose proof (spec_stream cfg d evs (RSpec [] PhHead a)) as Hst. cbn [sp_stream app] in Hst. set (m := spec_run cfg d evs _) in *. clearbody m.
  destruct r as [c|l]; [|unfold ends in H; rewrite H; split; [done|by eexists]]. destruct H as (Ht & Hau & _). rewrite Hst in Ht. split; [by intros ? [= <-]|].
  destruct Ht as [ls rest Hscan _ _ _ Hre _|f hd body rb Hrw _ _ Hre _ Ho _ Hcb|f hd body rb x Hrw _ _ Hre _ Ho _ _ Hcb].
  - split; [|by exists c]. unfold rewrite_request. rewrite Hscan. by destruct ls.
  - by exists f, hd, body, c, rb.
  - by exists f, hd, body, c, rb.
Qed.

(** ** The reply *)
Definition header_text (l : list Z) : bool := text_line l && negb (bool_decide (l = [])).
(** A reply is being read: what is in the buffer, what was collected, and what the client was sent. *)
Record replying (c : clientr) (input got out : list Z) : Prop := {
  rp_relay : ∃ rb, relay c = Some rb ∧ bev_input rb = input;
  rp_got : ∃ b, relay_buffer (payload c) = Some b ∧ buff b = got ∧ buffer_ok b;
  rp_client : ∃ cb, client c = Some cb ∧ bev_output cb = out }.
Lemma take_reply_line c l r got out : replying c ((l ++ CRLF) ++ r) got out → text_line l = true → zlen got + zlen l + 2 < 2 ^ 30 →
  ∃ rb c1 c2 c3, get_bev SRelay c = Ret rb ∧ redsocks_evbuffer_readline (bev_input rb) = Some (l, r) ∧ set_reply_input r c = Ret c1 ∧ relay_append l c1 = Ret c2 ∧ relay_append CRLF c2 = Ret c3 ∧
    replying c3 r (got ++ l ++ CRLF) out ∧ state c3 = state c ∧ set_relay None c3 = set_relay None (on_payload (set_relay_buffer (relay_buffer (payload c3))) c).
Proof.
  intros [(rb & Er & Ei) (b & Eb & Eg & Hb) (cb & Ec & Eo)] Hl Hlen. destruct (relay_append_ok (set_relay (Some (set_input r rb)) c) b l Eb Hb ltac:(rewrite Eg; lia)) as (b1 & E1 & G1 & O1).
  destruct (relay_append_ok (on_payload (set_relay_buffer (Some b1)) (set_relay (Some (set_input r rb)) c)) b1 CRLF eq_refl O1) as (b2 & E2 & G2 & O2); [rewrite G1, Eg, length_app; change (length CRLF) with 2%nat; lia|].
  eexists rb, _, _, _. split; [by apply relay_is|]. split; [rewrite Ei; by apply readline_wire|]. split; [by apply reply_input_ok|]. split; [exact E1|]. split; [exact E2|]. split; [|done].
  split; [by eexists|exists b2; split; [done|]; split; [by rewrite G2, G1, Eg, <- app_assoc|done]|by eexists].
Qed.
Lemma skip_lines hs tl c input got out fuel : replying c (wire hs ++ tl) got out → input = wire hs ++ tl → state c = httpr_reply_came → forallb header_text hs = true → (length hs < fuel)%nat → zlen got + zlen input < 2 ^ 30 →
  ∃ c', httpr_skip_headers fuel c = httpr_skip_headers (fuel - length hs) c' ∧ replying c' tl (got ++ wire hs) out ∧ state c' = httpr_reply_came.
Proof.
  intros Hr -> Hst Hh Hf Hl. revert c got fuel Hr Hst Hf Hl. induction hs as [|l hs IH]; intros c got fuel Hr Hst Hf Hl.
  - exists c. cbn [wire map concat app length] in *. by rewrite app_nil_r, Nat.sub_0_r.
  - cbn [forallb] in Hh. apply andb_true_iff in Hh as [[Hl1 Hne]%andb_true_iff Hh]. destruct fuel as [|fuel]; [cbn in Hf; lia|]. change (wire (l :: hs)) with ((l ++ CRLF) ++ wire hs) in *. rewrite <- app_assoc in Hr. rewrite !length_app in Hl. change (length CRLF) with 2%nat in Hl.
    destruct (take_reply_line c l (wire hs ++ tl) got out Hr Hl1 ltac:(lia)) as (rb & c1 & c2 & c3 & E1 & E2 & E3 & E4 & E5 & Hr3 & S3 & _). rewrite <- S3 in Hst.
    destruct (IH Hh c3 (got ++ l ++ CRLF) fuel Hr3 Hst ltac:(cbn in Hf; lia) ltac:(rewrite !length_app; change (length CRLF) with 2%nat; lia)) as (c' & E & Hr' & S'). exists c'. split; [|split; [|done]; by replace (got ++ (l ++ CRLF) ++ wire hs) with ((got ++ l ++ CRLF) ++ wire hs) by (by rewrite <- !app_assoc)].
    cbn [httpr_skip_headers]. rewrite <- S3, Hst. cbn [Z.eqb httpr_reply_came Pos.eqb negb]. rewrite E1, bind_Ret, E2, E3, bind_Ret, E4, bind_Ret, E5, bind_Ret. destruct l as [|x l]; [done|]. rewrite E. f_equal.
Qed.
(** The headers are complete. *)
Lemma skip_all hs body c got out : replying c (wire (hs ++ [[]]) ++ body) got out → state c = httpr_reply_came → forallb header_text hs = true → zlen got + zlen (wire (hs ++ [[]]) ++ body) < 2 ^ 30 → ∀ fuel, (length hs < fuel)%nat →
  ∃ c', httpr_skip_headers fuel c = Ret c' ∧ replying c' body (got ++ wire (hs ++ [[]])) out ∧ state c' = httpr_headers_skipped.
Proof.
  intros Hr Hst Hh Hl fuel Hf. unfold wire in Hr, Hl |- *. rewrite map_app, concat_app in Hr, Hl |- *. fold (wire hs) in Hr, Hl |- *. cbn [map concat app] in Hr, Hl |- *. rewrite <- app_assoc in Hr, Hl.
  destruct (skip_lines hs (CRLF ++ body) c _ got out fuel Hr eq_refl Hst Hh Hf Hl) as (c1 & -> & Hr1 & S1). destruct (fuel - length hs)%nat as [|k] eqn:Ek; [lia|]. rewrite !length_app in Hl. change (length CRLF) with 2%nat in Hl.
  destruct (take_reply_line c1 [] body _ _ Hr1 eq_refl ltac:(rewrite length_app; cbn [length]; lia)) as (rb & c2 & c3 & c4 & E1 & E2 & E3 & E4 & E5 & Hr3 & S3 & _). cbn [httpr_skip_headers]. rewrite S1. cbn [Z.eqb httpr_reply_came Pos.eqb negb].
  rewrite E1, bind_Ret, E2, E3, bind_Ret, E4, bind_Ret, E5, bind_Ret. eexists. split; [by destruct k|]. split; [|done]. rewrite <- app_assoc in Hr3. by destruct Hr3; split.
Qed.
(** They are not: the rest of a line stays in the buffer. *)
Lemma skip_some hs p c got out : replying c (wire hs ++ p) got out → state c = httpr_reply_came → forallb header_text hs = true → find_nl p = None → zlen got + zlen (wire hs ++ p) < 2 ^ 30 → ∀ fuel, (length hs < fuel)%nat →
  ∃ c', httpr_skip_headers fuel c = Ret c' ∧ replying c' p (got ++ wire hs) out ∧ state c' = httpr_reply_came.
Proof.
  intros Hr Hst Hh Hp Hl fuel Hf. destruct (skip_lines hs p c _ got out fuel Hr eq_refl Hst Hh Hf Hl) as (c1 & -> & Hr1 & S1). destruct (fuel - length hs)%nat as [|k] eqn:Ek; [lia|]. exists c1. split; [|done].
  cbn [httpr_skip_headers]. rewrite S1. cbn [Z.eqb httpr_reply_came Pos.eqb negb]. destruct Hr1 as [(rb & Er & Ei) _ _]. rewrite (relay_is c1 rb Er), bind_Ret, Ei. unfold redsocks_evbuffer_readline. by rewrite Hp.
Qed.

(** The callback after the first line. *)
Definition finish (e : env) (c : clientr) : outcome (hres httpr_client) :=
  b ← get_bev SRelay c;
  c ← httpr_skip_headers (S (length (bev_input b))) c;
  if state c =? httpr_headers_skipped then
    b ← get_bev SClient c;
    match relay_buffer (payload c) with
    | None => Fault
    | Some rb => redsocks_start_relay e (set_client (Some (set_output (bev_output b ++ buff rb) b)) c)
    end
  else Ret (Alive c).
Lemma finish_all e c hs body got out : replying c (wire (hs ++ [[]]) ++ body) got out → state c = httpr_reply_came → forallb header_text hs = true → zlen got + zlen (wire (hs ++ [[]]) ++ body) < 2 ^ 30 →
  ∃ c' rb cb, finish e c = redsocks_start_relay e c' ∧ relay c' = Some rb ∧ bev_input rb = body ∧ client c' = Some cb ∧ bev_output cb = out ++ got ++ wire (hs ++ [[]]).
Proof.
  intros Hr Hst Hh Hl. unfold finish. pose proof Hr as [(rb & Er & Ei) _ _]. rewrite (relay_is c rb Er), bind_Ret, Ei. destruct (skip_all hs body c got out Hr Hst Hh Hl (S (length (wire (hs ++ [[]]) ++ body)))) as (c1 & -> & [(rb1 & Er1 & Ei1) (b & Eb & Eg & _) (cb & Ec & Eo)] & S1).
  { pose proof (wire_length (hs ++ [[]])) as Hw. rewrite !length_app in *. cbn [length] in Hw. lia. }
  rewrite bind_Ret, S1, Z.eqb_refl. unfold get_bev. cbn [bev]. rewrite Ec, bind_Ret, Eb. eexists _, rb1, _. split; [done|]. split; [done|]. split; [done|]. split; [done|]. cbn. by rewrite Eo, Eg.
Qed.
Lemma finish_some e c hs p got out : replying c (wire hs ++ p) got out → state c = httpr_reply_came → forallb header_text hs = true → find_nl p = None → zlen got + zlen (wire hs ++ p) < 2 ^ 30 →
  ∃ c', finish e c = Ret (Alive c') ∧ replying c' p (got ++ wire hs) out ∧ state c' = httpr_reply_came.
Proof.
  intros Hr Hst Hh Hp Hl. unfold finish. pose proof Hr as [(rb & Er & Ei) _ _]. rewrite (relay_is c rb Er), bind_Ret, Ei. destruct (skip_some hs p c got out Hr Hst Hh Hp Hl (S (length (wire hs ++ p)))) as (c1 & -> & R1 & S1).
  { pose proof (wire_length hs) as Hw. rewrite length_app. lia. }
  rewrite bind_Ret, S1. by eexists.
Qed.

(** The callback starts with an empty buffer, every time. *)
Lemma read_came h e c input got out : replying c input got out → state c = httpr_reply_came → ∃ c', httpr_relay_read_cb h e c = finish e c' ∧ replying c' input [] out ∧ state c' = httpr_reply_came ∧ cbs c' = cbs c.
Proof.
  intros [H1 _ H3] Hst. exists (on_payload (set_relay_buffer (Some httpr_buffer_init)) (redsocks_touch_client e c)). unfold httpr_relay_read_cb. rewrite Hst. rewrite assert_true, bind_Ret by done.
  change (state (on_payload _ _)) with (state c). rewrite Hst. split; [done|]. split; [|done]. split; [exact H1| |exact H3]. exists httpr_buffer_init. split; [done|]. split; [done|apply fresh_buffer_ok].
Qed.
Definition forwards (code : Z) : Prop := 100 ≤ code ≤ 999 ∧ code ≠ 407.
Lemma read_sent h e c status code r got out : replying c ((status ++ CRLF) ++ r) got out → state c = httpr_request_sent → text_line status = true → scan_status status = Some code → forwards code → zlen status < ROOM →
  ∃ c', httpr_relay_read_cb h e c = finish e c' ∧ replying c' r (status ++ CRLF) out ∧ state c' = httpr_reply_came.
Proof.
  intros [H1 _ H3] Hst Ht Hc (Hc1 & Hc2) Hl. unfold httpr_relay_read_cb. rewrite Hst, assert_true, bind_Ret by done. set (c1 := on_payload _ _). change (state c1) with (state c). rewrite Hst, Z.eqb_refl.
  assert (R1 : replying c1 ((status ++ CRLF) ++ r) [] out) by (split; [exact H1| |exact H3]; exists httpr_buffer_init; split; [done|]; split; [done|apply fresh_buffer_ok]).
  destruct (take_reply_line c1 status r [] out R1 Ht ltac:(unfold ROOM in *; cbn [length]; lia)) as (rb & c2 & c3 & c4 & E1 & E2 & E3 & E4 & E5 & R4 & S4 & _). unfold httpr_first_line. rewrite E1, bind_Ret, E2, E3, bind_Ret. unfold httpr_status. rewrite E4, bind_Ret, E5, bind_Ret, Hc.
  rewrite (proj2 (Z.eqb_neq _ _)) by done. rewrite (proj2 (Z.leb_le 100 code)), (proj2 (Z.leb_le code 999)) by lia. cbn [andb]. rewrite bind_Ret. eexists. split; [reflexivity|]. split; [|done]. by destruct R4; split.
Qed.

(** Bytes of the reply arrive. *)
Definition reply_arrives (h : httpr_sys) (e : env) (bs : list Z) (c : clientr) : outcome (hres httpr_client) :=
  b ← get_bev SRelay c; httpr_relay_read_cb h e (set_io (add_got SRelay bs (io c)) (set_relay (Some (set_input (bev_input b ++ bs) b)) c)).
Lemma arrives_replying c input got out bs rb : replying c input got out → relay c = Some rb → replying (set_io (add_got SRelay bs (io c)) (set_relay (Some (set_input (bev_input rb ++ bs) rb)) c)) (input ++ bs) got out.
Proof. intros [(rb' & Er & Ei) H2 H3] E. rewrite E in Er. injection Er as <-. split; [|exact H2|exact H3]. eexists. split; [done|]. cbn. by rewrite Ei. Qed.

(** C37: the head of a reply reaches the client only if it comes in one piece.  If a read brings
    all of it, the client gets it line by line, and the body goes through the pump.  If a read
    ends inside the head, after the status line and the headers [hs1], then these are lost: the
    client gets the headers that were completed by the last read, as if they were the whole
    reply. *)
Theorem httpr_reply_cut h e1 e2 c rb cb b status code hs1 hs2 p q body :
  state c = httpr_request_sent → relay c = Some rb → bev_input rb = [] → client c = Some cb → relay_buffer (payload c) = Some b → buffer_ok b →
  text_line status = true → scan_status status = Some code → forwards code → forallb header_text hs1 = true → forallb header_text hs2 = true →
  p ++ q = wire (hs2 ++ [[]]) ++ body → find_nl p = None → zlen (wire (status :: hs1) ++ p ++ q) ≤ HTTP_HEAD_WM_HIGH →
  (∃ c1 rb1 cb1, reply_arrives h e1 (wire (status :: hs1) ++ p ++ q) c = redsocks_start_relay e1 c1 ∧ relay c1 = Some rb1 ∧ bev_input rb1 = body ∧
     client c1 = Some cb1 ∧ bev_output cb1 = bev_output cb ++ wire (status :: hs1 ++ hs2 ++ [[]])) ∧
  (∃ c1 c2 rb2 cb2, reply_arrives h e1 (wire (status :: hs1) ++ p) c = Ret (Alive c1) ∧ reply_arrives h e2 q c1 = redsocks_start_relay e2 c2 ∧ relay c2 = Some rb2 ∧ bev_input rb2 = body ∧
     client c2 = Some cb2 ∧ bev_output cb2 = bev_output cb ++ wire (hs2 ++ [[]])).
Proof.
  intros Hst Hre Hin Hcl Hb Hbok Ht Hc Hfw Hh1 Hh2 Hpq Hp Hlen. unfold HTTP_HEAD_WM_HIGH in Hlen.
  assert (R0 : replying c [] (buff b) (bev_output cb)) by (split; [by eexists|by eexists|by eexists]). assert (Hw : ∀ x y, wire (x :: y) = (x ++ CRLF) ++ wire y) by done. assert (Hwa : ∀ x y, wire (x ++ y) = wire x ++ wire y) by (intros; unfold wire; by rewrite map_app, concat_app).
  rewrite !length_app in Hlen. rewrite Hw, length_app in Hlen. rewrite length_app in Hlen. assert (Hsl : zlen status < ROOM) by (unfold ROOM; lia). assert (Hbl : zlen (wire (hs2 ++ [[]]) ++ body) ≤ 4096) by (rewrite <- Hpq, length_app; lia). change (length CRLF) with 2%nat in Hlen. split.
  - unfold reply_arrives. rewrite (relay_is c rb Hre), bind_Ret. pose proof (arrives_replying c [] _ _ (wire (status :: hs1) ++ p ++ q) rb R0 Hre) as R1. rewrite Hpq, Hw in R1 |- *. cbn [app] in R1. set (c1 := set_io _ _) in *. rewrite <- (app_assoc (status ++ CRLF)) in R1.
    destruct (read_sent h e1 c1 status code _ _ _ R1 Hst Ht Hc Hfw Hsl) as (c2 & -> & R2 & S2). rewrite app_assoc, <- Hwa, app_assoc in R2.
    destruct (finish_all e1 c2 (hs1 ++ hs2) body _ _ R2 S2) as (c3 & rb3 & cb3 & E3 & Er & Ei & Ec & Eo); [by rewrite forallb_app, Hh1|rewrite <- (app_assoc hs1), (Hwa hs1), !length_app; rewrite length_app in Hbl; change (length CRLF) with 2%nat; lia|].
    exists c3, rb3, cb3. split; [done|]. split; [done|]. split; [done|]. split; [done|]. rewrite Eo, Hw. by rewrite <- !app_assoc.
  - unfold reply_arrives at 1. rewrite (relay_is c rb Hre), bind_Ret. pose proof (arrives_replying c [] _ _ (wire (status :: hs1) ++ p) rb R0 Hre) as R1. rewrite Hw in R1 |- *. cbn [app] in R1. set (c1 := set_io _ _) in *. rewrite <- (app_assoc (status ++ CRLF)) in R1.
    destruct (read_sent h e1 c1 status code _ _ _ R1 Hst Ht Hc Hfw Hsl) as (c2 & -> & R2 & S2).
    destruct (finish_some e1 c2 hs1 p _ _ R2 S2 Hh1 Hp) as (c3 & -> & R3 & S3); [rewrite !length_app; change (length CRLF) with 2%nat; lia|]. pose proof R3 as [(rb3 & Er3 & _) _ _].
    pose proof (arrives_replying c3 _ _ _ q rb3 R3 Er3) as R4. rewrite Hpq in R4. set (c4 := set_io _ _) in R4. destruct (read_came h e2 c4 _ _ _ R4 S3) as (c5 & E5 & R5 & S5 & _).
    destruct (finish_all e2 c5 hs2 body _ _ R5 S5 Hh2 ltac:(cbn [length]; lia)) as (c6 & rb6 & cb6 & E6 & Er & Ei & Ec & Eo). exists c3, c6, rb6, cb6. split; [done|]. unfold reply_arrives. rewrite (relay_is c3 rb3 Er3), bind_Ret. fold c4. rewrite E5, E6. split; [done|]. split; [done|]. split; [done|]. split; [done|]. done.
Qed.

(** A demand for credentials without a scheme: the line is used after it was freed. *)
Definition waiting_client : clientr :=
  Client (Config (Some (bytes "user")) (Some (bytes "secret")) false) (Some (bufferevent_new 3)) (Some (bufferevent_new 4)) ([10; 0; 0; 1], [0; 80]) httpr_request_sent 0 0 0 CbSubsys no_pump
    (Httpr (mkauth None 1) (Some (bytes "GET http://10.0.0.1/ HTTP/1.1")) None false httpr_buffer_init (Some httpr_buffer_init)) no_io.
Definition relay_sys : httpr_sys := mkrsys 1 2 (Some 5).
Definition relay_env : env := Env 0 true None None.
Example demand_without_scheme : reply_arrives relay_sys relay_env (wire [bytes "HTTP/1.1 407 Authentication Required"; []]) waiting_client = Fault.
Proof. vm_compute. reflexivity. Qed.

(** ** Examples *)
Definition demo_head : list Z := wire [bytes "GET /a HTTP/1.1"; bytes "Host: example.org"; bytes "Connection: keep-alive"; bytes "Accept: text/plain"; []].
Definition demo_dest : list Z * list Z := ([93; 184; 216; 34], [0; 80]).
Definition demo_config : config := Config (Some (bytes "Mufasa")) (Some (bytes "Circle Of Life")) false.
Definition demo_challenge : list Z := bytes "Digest " ++ print_params rfc_challenge.
Definition demo_demand : list Z := wire [bytes "HTTP/1.1 407 Proxy Authentication Required"; auth_request_header ++ bytes " " ++ demo_challenge; []].
(** The proxy demands credentials; another client sends four requests with the same
    challenge before the new connection is there. *)
Definition demo_events : list (httpr_sys * env * revent) :=
  map (λ ev, (relay_sys, relay_env, ev))
    [EvClient (take 20 demo_head); EvClient (drop 20 demo_head ++ bytes "bo"); EvConnected; EvClient (bytes "dy"); EvReply demo_demand;
     EvShared (mkauth (Some demo_challenge) 4); EvConnected].
Definition demo_answer : option (list Z) :=
  rfc_answer (challenge_of rfc_challenge) (bytes "Mufasa") (bytes "Circle Of Life") (bytes "GET") (bytes "/a") 5 (bytes "0000000100000002").

Lemma demo_query : query_ok demo_challenge.
Proof. split; [intros _; apply Nat.leb_le; vm_compute; reflexivity|vm_compute; reflexivity]. Qed.

Lemma httpr_request_refines_witness : ∃ c0 c rb, httpr_accept_client relay_env demo_config (Httpr (mkauth None 0) None None false httpr_buffer_init None) 3 demo_dest = Ret (Alive c0) ∧
  rrun demo_events c0 = Ret (Alive c) ∧ relay c = Some rb ∧ auth (payload c) = mkauth (Some demo_challenge) 5 ∧
  bev_output rb = wire [bytes "GET http://example.org/a HTTP/1.1"] ++ auth_line ((λ s, (bytes "Digest", s)) <$> demo_answer) ++
    wire [bytes "Host: example.org"; bytes "Accept: text/plain"; bytes "Proxy-Connection: close"; bytes "Connection: close"; []] ++ bytes "body".
Proof.
  destruct (httpr_request_refines relay_env demo_config demo_dest (mkauth None 0) 3 demo_events) as (c0 & r & E0 & Er & Ha & H).
  - split_and!; try reflexivity; repeat (apply Forall_cons_2; [unfold is_byte; lia|]); apply Forall_nil_2.
  - intros u p [= <-] [= <-]. split_and!; first [apply bytes_okb_ok; vm_compute; reflexivity|vm_compute; reflexivity].
  - intros q [=].
  - repeat (apply Forall_cons_2; [split; [discriminate|split; [reflexivity|]]|]); try exact Logic.I; [|change (auth_ok demo_config (mkauth (Some demo_challenge) 4)); intros q [= <-]; split; [exact demo_query|done]|apply Forall_nil_2].
    change (demands demo_demand).
    split; [vm_compute; discriminate|]. exists demo_challenge. split; [vm_compute; reflexivity|exact demo_query].
  - vm_compute. reflexivity.
  - unfold roomy_head. repeat (apply Forall_cons_2; [intros _; apply Nat.leb_le; vm_compute; reflexivity|]). apply Forall_nil_2.
  - revert Ha H.
    replace (spec_run demo_config demo_dest demo_events (RSpec [] PhHead (mkauth None 0))) with (RSpec (stream demo_events) (PhSent ((λ s, (bytes "Digest", s)) <$> demo_answer)) (mkauth (Some demo_challenge) 5)) by (vm_compute; reflexivity).
    replace (rewrite_request demo_dest (stream demo_events)) with (RqSend (wire [bytes "GET http://example.org/a HTTP/1.1"]) (wire [bytes "Host: example.org"; bytes "Accept: text/plain"; bytes "Proxy-Connection: close"; bytes "Connection: close"; []]) (bytes "body")) by (vm_compute; reflexivity).
    intros Ha (f & hd & body & c & rb & [= <- <- <-] & -> & Hrb & _ & Ho). exists c0, c, rb. split; [exact E0|]. split; [exact Er|]. split; [exact Hrb|]. split; [exact (Ha c eq_refl)|exact Ho].
Defined.

Lemma httpr_reply_cut_witness : ∃ c1 c2 cb, reply_arrives relay_sys relay_env (wire [bytes "HTTP/1.1 200 OK"; bytes "A: 1"] ++ bytes "B:") waiting_client = Ret (Alive c1) ∧
  reply_arrives relay_sys relay_env (bytes " 2" ++ CRLF ++ CRLF ++ bytes "body") c1 = redsocks_start_relay relay_env c2 ∧ client c2 = Some cb ∧ bev_output cb = wire [bytes "B: 2"; []].
Proof.
  destruct (httpr_reply_cut relay_sys relay_env relay_env waiting_client (bufferevent_new 4) (bufferevent_new 3) httpr_buffer_init (bytes "HTTP/1.1 200 OK") 200 [bytes "A: 1"] [bytes "B: 2"] (bytes "B:") (bytes " 2" ++ CRLF ++ CRLF ++ bytes "body") (bytes "body"))
    as [_ (c1 & c2 & rb & cb & E1 & E2 & _ & _ & E3 & E4)]; try reflexivity.
  - apply fresh_buffer_ok.
  - split; lia.
  - vm_compute. discriminate.
  - exists c1, c2, cb. split; [exact E1|]. split; [exact E2|]. split; [exact E3|exact E4].
Defined.
