(* ===== verification/Parser.v ===== *)
(** * redsocks: the configuration parser

    Models parser.c: the tokens, the parsers of values, and [parser_run], which
    reads the file line by line into a buffer that grows and hands the tokens to a
    state machine.  A C string is the list of its bytes before the NUL.  What the
    sections do on entry and exit, and where values are stored, belongs to their
    owners: the model takes it from the class [ConfStore] and from callbacks. *)
From S2P Require Import Prelude Encrypt Base64 Md5 HttpAuth Redsocks HttpConnect.
#[local] Open Scope Z_scope.

(** ** Tokens *)
Definition isalpha (c : Z) : bool := ((65 <=? c) && (c <=? 90)) || ((97 <=? c) && (c <=? 122)).
Definition isalnum (c : Z) : bool := isalpha c || isdigit c.

Definition unescape (c : Z) : Z :=
  if c =? 110 then 10 else if c =? 116 then 9 else if c =? 114 then 13
  else if c =? 92 then 92 else if c =? 39 then 39 else if c =? 34 then 34 else 0.

(** A pass over a token: its length, more input is needed, or an error. *)
Inductive scan := SLen (n : nat) | SMore | SBad.
Definition scan_succ (s : scan) : scan := match s with SLen n => SLen (S n) | s => s end.

(** The length of the string after its opening quote, escapes counted once. *)
Fixpoint quoted_length (p : list Z) : scan :=
  match p with
  | [] => SMore
  | c :: q =>
      if c =? 34 then SLen 0
      else if c =? 92 then
        match q with
        | [] => SMore
        | d :: q => if unescape d =? 0 then SBad else scan_succ (quoted_length q)
        end
      else scan_succ (quoted_length q)
  end.
Fixpoint number_length (p : list Z) : scan :=
  match p with
  | [] => SMore
  | c :: q =>
      if isdigit c || (c =? 46) then scan_succ (number_length q)
      else if c =? 47 then
        match q with
        | d :: _ => if isdigit d then scan_succ (number_length q) else if (d =? 47) || (d =? 42) then SLen 0 else SMore
        | [] => SMore
        end
      else SLen 0
  end.
Fixpoint word_length (p : list Z) : scan :=
  match p with
  | [] => SMore
  | c :: q => if isalnum c || (c =? 95) || (c =? 46) || (c =? 45) then scan_succ (word_length q) else SLen 0
  end.

(** The copy into an object of [room] bytes, its NUL included. *)
Fixpoint copy_quoted (room : nat) (p : list Z) : outcome (list Z * list Z) :=
  match p, room with
  | [], _ | _, O => Fault
  | c :: q, S room =>
      if c =? 34 then Ret ([], q)
      else if c =? 92 then
        match q with
        | [] => Fault
        | d :: q => '(t, r) ← copy_quoted room q; Ret (unescape d :: t, r)
        end
      else '(t, r) ← copy_quoted room q; Ret (c :: t, r)
  end.

(** The token, and [iter] after it; without a token, [iter] after the spaces and
    whether there was an error. *)
Inductive gettok := Tok (t : list Z) (rest : list Z) | NoTok (rest : list Z) | BadTok (rest : list Z).

Definition plain_token (s : scan) (p : list Z) : gettok :=
  match s with SLen n => Tok (take n p) (drop n p) | SMore => NoTok p | SBad => BadTok p end.
Definition gettoken (p : list Z) : outcome gettok :=
  let p := skip_space p in
  match p with
  | [] => Ret (NoTok [])
  | c :: q =>
      if c =? 34 then
        match quoted_length q with
        | SLen n => '(t, r) ← copy_quoted (S n) q; Ret (Tok t r)
        | SMore => Ret (NoTok p)
        | SBad => Ret (BadTok p)
        end
      else if isdigit c then Ret (plain_token (number_length p) p)
      else if isalpha c then Ret (plain_token (word_length p) p)
      else if (c =? 123) || (c =? 125) || (c =? 61) || (c =? 59) then Ret (Tok [c] q)
      else if (c =? 47) && match q with d :: _ => (d =? 47) || (d =? 42) | [] => false end then Ret (plain_token (SLen 2) p)
      else Ret (BadTok p)
  end.

(** ** Values *)
Inductive on_proxy_fail_e := ONFAIL_CLOSE | ONFAIL_FORWARD_HTTP_ERR.
Inductive parser_type := pt_bool | pt_pchar | pt_uint16 | pt_uint32 | pt_in_addr | pt_in_addr2 | pt_disclose_src | pt_on_proxy_fail | pt_obsolete | pt_redsocks_max_accept_backoff.

(** What a value parser writes; an address is a 32-bit number in host order. *)
Inductive value :=
| VBool (b : bool) | VStr (s : list Z) | VU16 (n : Z) | VU32 (n : Z) | VAddr (a : Z) | VMask (a : Z) | VDisclose (d : disclose_src_e) | VOnFail (o : on_proxy_fail_e).

(** [strtoul(s, &end, 0)]: the number and [end]. *)
Definition digit_value (c : Z) : Z :=
  if isdigit c then c - 48 else if (97 <=? c) && (c <=? 122) then c - 87 else if (65 <=? c) && (c <=? 90) then c - 55 else 99.
Definition number_base (p : list Z) : Z * list Z :=
  match p with
  | a :: x :: h :: q =>
      if (a =? 48) && ((x =? 120) || (x =? 88)) && (digit_value h <? 16) then (16, h :: q) else if a =? 48 then (8, p) else (10, p)
  | a :: _ => if a =? 48 then (8, p) else (10, p)
  | [] => (10, p)
  end.
Definition strtoul (s : list Z) : Z * list Z :=
  let p := skip_space s in
  let '(neg, p) := match p with c :: q => if c =? 45 then (true, q) else if c =? 43 then (false, q) else (false, p) | [] => (false, p) end in
  let '(base, p) := number_base p in
  let '(ds, r) := span (λ c, digit_value c <? base) p in
  match ds with
  | [] => (0, s)
  | _ =>
      let v := fold_left (λ v d, base * v + digit_value d) ds 0 in
      (if ULONG_MAX <? v then ULONG_MAX else if (neg : bool) then u64 (- v) else v, r)
  end.

(** [inet_aton] of Android's C library, on which the program runs: one to four
    numbers, each read by [strtoul] and followed by a dot or the end, the last one
    filling the rest of the address. *)
Fixpoint aton_parts (n : nat) (s : list Z) : option (list Z) :=
  match n with
  | O => None
  | S n =>
      let '(v, e) := strtoul s in
      if bool_decide (e = s) then None
      else match e with
           | [] => Some [v]
           | c :: r => if c =? 46 then match aton_parts n r with Some vs => Some (v :: vs) | None => None end else None
           end
  end.
Definition inet_aton (s : list Z) : option Z :=
  match aton_parts 4 s with
  | Some [a] => if a <? 2 ^ 32 then Some a else None
  | Some [a; b] => if (a <? 256) && (b <? 2 ^ 24) then Some (2 ^ 24 * a + b) else None
  | Some [a; b; c] => if (a <? 256) && (b <? 256) && (c <? 2 ^ 16) then Some (2 ^ 24 * a + 2 ^ 16 * b + c) else None
  | Some [a; b; c; d] => if (a <? 256) && (b <? 256) && (c <? 256) && (d <? 256) then Some (2 ^ 24 * a + 2 ^ 16 * b + 2 ^ 8 * c + d) else None
  | _ => None
  end.

Definition strings_of (l : list string) : list (list Z) := map bytes l.
Definition vp_pbool (token : list Z) : option bool :=
  if existsb (λ t, bool_decide (token = t)) (strings_of ["ok"; "on"; "yes"; "true"]%string) then Some true
  else if existsb (λ t, bool_decide (token = t)) (strings_of ["off"; "no"; "false"]%string) then Some false
  else None.
Fixpoint find_opt {A} (token : list Z) (opt : list (string * A)) : option A :=
  match opt with [] => None | (name, v) :: opt => if bool_decide (token = bytes name) then Some v else find_opt token opt end.
Definition vp_disclose_src (token : list Z) : option disclose_src_e :=
  find_opt token [("off", DISCLOSE_NONE); ("no", DISCLOSE_NONE); ("false", DISCLOSE_NONE); ("X-Forwarded-For", DISCLOSE_X_FORWARDED_FOR);
                  ("Forwarded_ip", DISCLOSE_FORWARDED_IP); ("Forwarded_ipport", DISCLOSE_FORWARDED_IPPORT)]%string.
Definition vp_on_proxy_fail (token : list Z) : option on_proxy_fail_e :=
  find_opt token [("close", ONFAIL_CLOSE); ("forward_http_err", ONFAIL_FORWARD_HTTP_ERR)]%string.
Definition vp_uint16 (token : list Z) : option Z :=
  let '(uli, e) := strtoul token in
  if 65535 <? uli then None else match e with [] => Some (u16 uli) | _ => None end.
Definition vp_uint32 (token : list Z) : option Z :=
  let '(uli, e) := strtoul token in match e with [] => Some (u32 uli) | _ => None end.

(** The resolver: the addresses of a name, or an error, and a random number that
    chooses one of them; the same for all the names of one file. *)
Record resolver := mkres { getaddrinfo : list Z → option (list Z); red_randui32 : Z }.
Definition vp_in_addr (r : resolver) (token : list Z) : outcome (option Z) :=
  match inet_aton token with
  | Some ia => Ret (Some ia)
  | None =>
      match getaddrinfo r token with
      | None => Ret None
      | Some addrs =>
          let count := zlen addrs in
          if count =? 0 then Fault
          else match addrs !! Z.to_nat (u32 (red_randui32 r) mod count) with Some a => Ret (Some a) | None => Fault end
      end
  end.

Definition INADDR_BROADCAST : Z := 2 ^ 32 - 1.
(** The writes, and whether it succeeded. *)
Definition vp_in_addr2 (token : list Z) : list value * bool :=
  let '(host, mask) := span (λ c, negb (c =? 47)) token in
  let '(w, ok) := match inet_aton host with Some ia => ([VAddr ia], true) | None => ([], false) end in
  match mask with
  | [] => (w, ok)
  | _ :: mask =>
      let '(uli, e) := strtoul mask in
      if match e with c :: _ => c =? 46 | [] => false end then
        match inet_aton mask with Some ia => (w ++ [VMask ia], ok) | None => (w, false) end
      else if (0 <? uli) && (uli <? 32) then (w ++ [VMask (u32 (Z.shiftl INADDR_BROADCAST (32 - uli)))], ok)
      else (w, false)
  end.

Definition one {A} (f : A → value) (o : option A) : list value * bool := match o with Some a => ([f a], true) | None => ([], false) end.
Definition value_parser_by_type (r : resolver) (t : parser_type) (token : list Z) : outcome (list value * bool) :=
  match t with
  | pt_bool => Ret (one VBool (vp_pbool token))
  | pt_pchar => Ret ([VStr token], true)
  | pt_uint16 => Ret (one VU16 (vp_uint16 token))
  | pt_uint32 => Ret (one VU32 (vp_uint32 token))
  | pt_in_addr => o ← vp_in_addr r token; Ret (one VAddr o)
  | pt_in_addr2 => Ret (vp_in_addr2 token)
  | pt_disclose_src => Ret (one VDisclose (vp_disclose_src token))
  | pt_on_proxy_fail => Ret (one VOnFail (vp_on_proxy_fail token))
  | pt_obsolete | pt_redsocks_max_accept_backoff => Ret ([], false)
  end.

(** ** Sections

    [addr] is where the values of an entry go; [None] is the null pointer. *)
Class ConfStore (A W : Type) := conf_store : A → value → W → outcome W.

Section Parser.
Context {A W : Type} `{!ConfStore A W}.

Record parser_entry := Entry { key : list Z; type : parser_type; addr : option A }.
(** A callback gets the entries and the world; it returns its result, whether it
    called [parser_error], and both. *)
Definition callback : Type := list parser_entry → W → outcome (Z * bool * list parser_entry * W).
Record parser_section := Sect { name : list Z; onenter : option callback; onexit : option callback; entries : list parser_entry }.

(** What the tokens act on: the error flag and the sections of the context, the
    local variables of [parser_run], and the world. *)
Record machine := Machine {
  error : bool; sections : list parser_section; section : option nat;
  section_token : option (list Z); key_token : option (list Z); value_token : option (list Z); world : W }.
Implicit Types m : machine.

Definition parser_error m : machine :=
  Machine true (sections m) (section m) (section_token m) (key_token m) (value_token m) (world m).
Definition set_section s m : machine := Machine (error m) (sections m) s (section_token m) (key_token m) (value_token m) (world m).
Definition set_section_token t m : machine := Machine (error m) (sections m) (section m) t (key_token m) (value_token m) (world m).
Definition set_key_token t m : machine := Machine (error m) (sections m) (section m) (section_token m) t (value_token m) (world m).
Definition set_value_token t m : machine := Machine (error m) (sections m) (section m) (section_token m) (key_token m) t (world m).
Definition set_world w m : machine := Machine (error m) (sections m) (section m) (section_token m) (key_token m) (value_token m) w.
Definition set_entries (i : nat) es m : machine :=
  Machine (error m) (alter (λ s, Sect (name s) (onenter s) (onexit s) es) i (sections m)) (section m) (section_token m) (key_token m) (value_token m) (world m).

Definition parser_add_section (s : parser_section) (l : list parser_section) : list parser_section := s :: l.

Definition run_callback (cb : option callback) (i : nat) (s : parser_section) m : outcome machine :=
  match cb with
  | None => Ret m
  | Some cb =>
      '(r, err, es, w) ← cb (entries s) (world m);
      let m := set_world w (set_entries i es m) in
      Ret (if (err : bool) || (r =? -1) then parser_error m else m)
  end.

Fixpoint find_section (n : list Z) (l : list parser_section) : option nat :=
  match l with [] => None | s :: l => if bool_decide (name s = n) then Some O else S <$> find_section n l end.

Definition open_section m : outcome machine :=
  match section m, section_token m with
  | Some _, _ => Ret (parser_error m)
  | None, None => Ret (parser_error m)
  | None, Some n =>
      m ← match find_section n (sections m) with
          | Some i =>
              let m := set_section (Some i) m in
              match sections m !! i with Some s => run_callback (onenter s) i s m | None => Fault end
          | None => Ret (parser_error m)
          end;
      Ret (set_section_token None m)
  end.
Definition close_section m : outcome machine :=
  match section m with
  | Some i =>
      m ← match sections m !! i with Some s => run_callback (onexit s) i s m | None => Fault end;
      Ret (set_section None m)
  | None => Ret (parser_error m)
  end.

Definition store_all (a : option A) (vs : list value) (w : W) : outcome W :=
  match vs, a with
  | [], _ => Ret w
  | _, None => Fault
  | _, Some a => fold_left (λ o v, w ← o; conf_store a v w) vs (Ret w)
  end.
Definition find_entry (k : list Z) (es : list parser_entry) : option parser_entry := find (λ e, bool_decide (key e = k)) es.

Definition assign (r : resolver) m : outcome machine :=
  match section m with
  | None => Ret (set_value_token None (set_key_token None (parser_error m)))
  | Some i =>
      m ← match key_token m, value_token m with
          | Some _, None => Ret (parser_error m)
          | Some k, Some v =>
              match sections m !! i with
              | None => Fault
              | Some s =>
                  match find_entry k (entries s) with
                  | Some e =>
                      '(vs, ok) ← value_parser_by_type r (type e) v;
                      w ← store_all (addr e) vs (world m);
                      let m := set_world w m in
                      Ret (if (ok : bool) then m else parser_error m)
                  | None => Ret (parser_error m)
                  end
              end
          | None, _ => _ ← assert false; Ret m
          end;
      Ret (set_value_token None (set_key_token None m))
  end.

Definition word (t : list Z) m : machine :=
  match section m, section_token m, key_token m, value_token m with
  | None, None, _, _ => set_section_token (Some t) m
  | Some _, _, None, _ => set_key_token (Some t) m
  | Some _, _, Some _, None => set_value_token (Some t) m
  | _, _, _, _ => parser_error m
  end.

(** A token other than the start of a comment. *)
Definition token_step (r : resolver) (t : list Z) m : outcome machine :=
  if bool_decide (t = bytes "{") then open_section m
  else if bool_decide (t = bytes "}") then close_section m
  else if bool_decide (t = bytes "=") then
    match section m, key_token m with Some _, Some _ => Ret m | _, _ => Ret (parser_error m) end
  else if bool_decide (t = bytes ";") then assign r m
  else Ret (word t m).

(** ** The buffer

    [unread] is what the file has left; when it [fails] its end is a read error.
    [data] is the first [filled] bytes of the buffer of [size] bytes; a NUL follows
    them. *)
Record FILE := File { unread : list Z; fails : bool; feof : bool; ferror : bool }.

Fixpoint take_line (n : nat) (s : list Z) : list Z * list Z :=
  match n, s with
  | S n, c :: s => if c =? LF then ([c], s) else let '(l, r) := take_line n s in (c :: l, r)
  | _, _ => ([], s)
  end.
Definition ends_line (l : list Z) : bool := match rev l with c :: _ => c =? LF | [] => false end.

Definition fgets (n : Z) (f : FILE) : option (list Z) * FILE :=
  let k := Z.to_nat (n - 1) in
  match k with
  | O => (Some [], f)
  | _ =>
      let '(l, r) := take_line k (unread f) in
      let at_end := (length l <? k)%nat && negb (ends_line l) in
      let f := File r (fails f) (feof f || (at_end && negb (fails f))) (ferror f || (at_end && fails f)) in
      (match l with [] => None | _ => Some l end, f)
  end.

Record context := Ctx { fd : FILE; size : Z; data : list Z; line : Z; in_comment : bool; need_more_space : bool; need_more_data : bool }.

(** [context_filled_add] and [context_filled_set]: the NUL is written inside the
    buffer. *)
Definition filled_add (sz : Z) (d : list Z) : outcome (list Z) := if zlen d <? sz then Ret d else Fault.

(** [strstr(s, ...)] for the end of a comment: what follows it. *)
Fixpoint after_comment (s : list Z) : option (list Z) :=
  match s with
  | a :: s' => match s' with b :: r => if (a =? 42) && (b =? 47) then Some r else after_comment s' | [] => None end
  | [] => None
  end.

(** The loop over the tokens of the buffer.  The result: the buffer from [iter] on,
    whether a comment was opened, the machine, and whether it ended for want of a
    token.  Each token takes at least one byte. *)
Fixpoint tokens (fuel : nat) (r : resolver) (sz : Z) (d : list Z) (iter : nat) m : outcome (list Z * bool * machine * bool) :=
  if error m then Ret (drop iter d, false, m, false)
  else
    match fuel with
    | O => Fault
    | S fuel =>
        g ← gettoken (drop iter d);
        match g with
        | NoTok rest => Ret (rest, false, m, true)
        | BadTok rest => Ret (rest, false, parser_error m, true)
        | Tok t rest =>
            let iter := (length d - length rest)%nat in
            if bool_decide (t = bytes "//") then
              match find_nl rest with
              | None => Fault                      (* strchr returned a null pointer *)
              | Some (_, endc) =>
                  _ ← assert (2 <=? Z.of_nat iter);
                  let iter := (iter - 2)%nat in
                  d ← filled_add sz (take iter d ++ endc);
                  tokens fuel r sz d iter m
              end
            else if bool_decide (t = bytes "/*") then
              d ← filled_add sz rest; Ret (d, true, m, false)
            else
              m ← token_step r t m;
              tokens fuel r sz d iter m
        end
    end.

(** The end of an iteration: the tokens of the buffer. *)
Definition run_tokens (r : resolver) (c : context) (d : list Z) m : outcome (context * machine) :=
  '(d, com, m, ended) ← tokens (S (length d)) r (size c) d 0 m;
  d ← filled_add (size c) d;
  Ret (Ctx (fd c) (size c) d (line c) com (need_more_space c) (ended || need_more_data c), m).

(** The comment that is open, or the tokens. *)
Definition run_buffer (r : resolver) (c : context) m : outcome (context * machine) :=
  if in_comment c then
    match after_comment (data c) with
    | Some d => d ← filled_add (size c) d; run_tokens r c d m
    | None => d ← filled_add (size c) []; Ret (Ctx (fd c) (size c) d (line c) true (need_more_space c) true, m)
    end
  else run_tokens r c (data c) m.

(** One iteration of the loop of [parser_run]; [inr] is its [return -1]. *)
Definition parser_iter (r : resolver) (c : context) m : outcome (context * machine + machine) :=
  _ ← assert (zlen (data c) <? size c);
  let c := if need_more_space c then Ctx (fd c) (size c * 2) (data c) (line c) (in_comment c) false (need_more_data c) else c in
  if need_more_data c then
    let '(s, f) := fgets (size c - zlen (data c)) (fd c) in
    match s with
    | None => if ferror f then Ret (inr (parser_error m)) else Ret (inl (Ctx f (size c) (data c) (line c) (in_comment c) (need_more_space c) true, m))
    | Some s =>
        let s := c_str s in
        d ← filled_add (size c) (data c ++ s);
        if ends_line s then
          '(c, m) ← run_buffer r (Ctx f (size c) d (line c + 1) (in_comment c) (need_more_space c) false) m; Ret (inl (c, m))
        else Ret (inl (Ctx f (size c) d (line c) (in_comment c) true true, m))
    end
  else '(c, m) ← run_buffer r c m; Ret (inl (c, m)).

Fixpoint parser_loop (fuel : nat) (r : resolver) (c : context) m : outcome (machine + machine) :=
  if error m || feof (fd c) then Ret (inl m)
  else
    match fuel with
    | O => Fault
    | S fuel =>
        x ← parser_iter r c m;
        match x with inr m => Ret (inr m) | inl (c, m) => parser_loop fuel r c m end
    end.

(** What is left open at the end of the file. *)
Definition parser_end m : machine :=
  match section m, section_token m, key_token m, value_token m with
  | None, None, None, None => m
  | _, _, _, _ => parser_error m
  end.

Definition parser_start (f : FILE) : context := Ctx f 128 [] 0 false false true.
Definition parser_run (fuel : nat) (r : resolver) (c : context) m : outcome (Z * machine) :=
  x ← parser_loop fuel r c m;
  match x with
  | inr m => Ret (-1, m)
  | inl m => let m := parser_end m in Ret (if error m then -1 else 0, m)
  end.
End Parser.
