(* ===== verification/RedsocksConf.v ===== *)
(** * redsocks: the sections of the configuration file

    The sections [base] of base.c and [redsocks] of redsocks.c as clients of the
    parser: their entries, where the values go, and their callbacks.  The world of
    the parser is the base instance, the redsocks instance being read and those
    that are complete. *)
From S2P Require Import Prelude Encrypt Base64 Md5 HttpAuth Redsocks HttpConnect Parser.
#[local] Open Scope Z_scope.

(** ** base.c *)
Inductive redirector := iptables | generic.
Definition redirector_subsystems : list (string * redirector) := [("iptables", iptables); ("generic", generic)]%string.

Record base_instance := Base {
  configured : bool; chroot : option (list Z); user : option (list Z); group : option (list Z); redirector_name : option (list Z); redirector_of : option redirector; log_name : option (list Z);
  log_debug : bool; log_info : bool; daemon : bool; tcp_keepalive_time : Z; tcp_keepalive_probes : Z; tcp_keepalive_intvl : Z;
  rlimit_nofile : Z; redsocks_conn_max : Z; connpres_idle_timeout : Z; max_accept_backoff_ms : Z }.
Definition zero_base : base_instance := Base false None None None None None None false false false 0 0 0 0 0 0 0.

Inductive base_field := f_chroot | f_user | f_group | f_redirector | f_log | f_log_debug | f_log_info | f_daemon | f_ka_time | f_ka_probes | f_ka_intvl | f_rlimit | f_conn_max | f_idle | f_backoff.

(** ** redsocks.c *)
Inductive relay_kind := http_connect | http_relay | socks4 | socks5.
Definition relay_subsystems : list (string * relay_kind) := [("http-connect", http_connect); ("http-relay", http_relay); ("socks4", socks4); ("socks5", socks5)]%string.

(** The ports are as stored: in host order while the section is read. *)
Record redsocks_config := RConf {
  bind_addr : Z; bind_port : Z; relay_addr : Z; relay_port : Z; rtype : option (list Z); rlogin : option (list Z); rpassword : option (list Z);
  listenq : Z; rsplice : bool; disclose_src : disclose_src_e; on_proxy_fail : on_proxy_fail_e; relay_ss : option relay_kind }.
Inductive red_field := f_local_ip | f_local_port | f_ip | f_port | f_type | f_login | f_password | f_listenq | f_splice | f_disclose_src | f_on_proxy_fail.

Record conf_world := World { base : base_instance; reading_instance : option redsocks_config; instances : list redsocks_config }.
Inductive conf_addr := ABase (f : base_field) | ARed (f : red_field).

Definition set_base (f : base_field) (v : value) (b : base_instance) : outcome base_instance :=
  let '(Base cf ch us gr rn ro ln ld li da kt kp ki rl cm id bo) := b in
  match f, v with
  | f_chroot, VStr s => Ret (Base cf (Some s) us gr rn ro ln ld li da kt kp ki rl cm id bo)
  | f_user, VStr s => Ret (Base cf ch (Some s) gr rn ro ln ld li da kt kp ki rl cm id bo)
  | f_group, VStr s => Ret (Base cf ch us (Some s) rn ro ln ld li da kt kp ki rl cm id bo)
  | f_redirector, VStr s => Ret (Base cf ch us gr (Some s) ro ln ld li da kt kp ki rl cm id bo)
  | f_log, VStr s => Ret (Base cf ch us gr rn ro (Some s) ld li da kt kp ki rl cm id bo)
  | f_log_debug, VBool x => Ret (Base cf ch us gr rn ro ln x li da kt kp ki rl cm id bo)
  | f_log_info, VBool x => Ret (Base cf ch us gr rn ro ln ld x da kt kp ki rl cm id bo)
  | f_daemon, VBool x => Ret (Base cf ch us gr rn ro ln ld li x kt kp ki rl cm id bo)
  | f_ka_time, VU16 n => Ret (Base cf ch us gr rn ro ln ld li da n kp ki rl cm id bo)
  | f_ka_probes, VU16 n => Ret (Base cf ch us gr rn ro ln ld li da kt n ki rl cm id bo)
  | f_ka_intvl, VU16 n => Ret (Base cf ch us gr rn ro ln ld li da kt kp n rl cm id bo)
  | f_rlimit, VU32 n => Ret (Base cf ch us gr rn ro ln ld li da kt kp ki n cm id bo)
  | f_conn_max, VU32 n => Ret (Base cf ch us gr rn ro ln ld li da kt kp ki rl n id bo)
  | f_idle, VU32 n => Ret (Base cf ch us gr rn ro ln ld li da kt kp ki rl cm n bo)
  | f_backoff, VU32 n => Ret (Base cf ch us gr rn ro ln ld li da kt kp ki rl cm id n)
  | _, _ => Fault
  end.
Definition set_red (f : red_field) (v : value) (i : redsocks_config) : outcome redsocks_config :=
  let '(RConf ba bp ra rp ty lo pa lq sp ds op ss) := i in
  match f, v with
  | f_local_ip, VAddr a => Ret (RConf a bp ra rp ty lo pa lq sp ds op ss)
  | f_local_port, VU16 n => Ret (RConf ba n ra rp ty lo pa lq sp ds op ss)
  | f_ip, VAddr a => Ret (RConf ba bp a rp ty lo pa lq sp ds op ss)
  | f_port, VU16 n => Ret (RConf ba bp ra n ty lo pa lq sp ds op ss)
  | f_type, VStr s => Ret (RConf ba bp ra rp (Some s) lo pa lq sp ds op ss)
  | f_login, VStr s => Ret (RConf ba bp ra rp ty (Some s) pa lq sp ds op ss)
  | f_password, VStr s => Ret (RConf ba bp ra rp ty lo (Some s) lq sp ds op ss)
  | f_listenq, VU16 n => Ret (RConf ba bp ra rp ty lo pa n sp ds op ss)
  | f_splice, VBool x => Ret (RConf ba bp ra rp ty lo pa lq x ds op ss)
  | f_disclose_src, VDisclose d => Ret (RConf ba bp ra rp ty lo pa lq sp d op ss)
  | f_on_proxy_fail, VOnFail o => Ret (RConf ba bp ra rp ty lo pa lq sp ds o ss)
  | _, _ => Fault
  end.
#[export] Instance conf_world_store : ConfStore conf_addr conf_world := λ a v w,
  match a with
  | ABase f => b ← set_base f v (base w); Ret (World b (reading_instance w) (instances w))
  | ARed f =>
      match reading_instance w with
      | Some i => i ← set_red f v i; Ret (World (base w) (Some i) (instances w))
      | None => Fault
      end
  end.

Abbreviation entry := (@parser_entry conf_addr).
Definition base_entry (k : string) (t : parser_type) (f : base_field) : entry := Entry (bytes k) t (Some (ABase f)).
Definition base_entries : list entry :=
  [base_entry "chroot" pt_pchar f_chroot; base_entry "user" pt_pchar f_user; base_entry "group" pt_pchar f_group; base_entry "redirector" pt_pchar f_redirector;
   base_entry "log" pt_pchar f_log; base_entry "log_debug" pt_bool f_log_debug; base_entry "log_info" pt_bool f_log_info; base_entry "daemon" pt_bool f_daemon;
   base_entry "tcp_keepalive_time" pt_uint16 f_ka_time; base_entry "tcp_keepalive_probes" pt_uint16 f_ka_probes; base_entry "tcp_keepalive_intvl" pt_uint16 f_ka_intvl;
   base_entry "rlimit_nofile" pt_uint32 f_rlimit; base_entry "redsocks_conn_max" pt_uint32 f_conn_max; base_entry "connpres_idle_timeout" pt_uint32 f_idle;
   base_entry "max_accept_backoff" pt_uint32 f_backoff].

Abbreviation cb := (@callback conf_addr conf_world).
Definition base_onenter : cb := λ es w,
  if configured (base w) then Ret (-1, true, es, w)
  else Ret (0, false, es, World (Base true None None None None None None false false false 0 0 0 0 0 7440 60000) (reading_instance w) (instances w)).
Definition set_redirector (o : option redirector) (b : base_instance) : base_instance :=
  Base (configured b) (chroot b) (user b) (group b) (redirector_name b) o (log_name b) (log_debug b) (log_info b) (daemon b)
    (tcp_keepalive_time b) (tcp_keepalive_probes b) (tcp_keepalive_intvl b) (rlimit_nofile b) (redsocks_conn_max b) (connpres_idle_timeout b) (max_accept_backoff_ms b).
Definition base_onexit : cb := λ es w,
  if max_accept_backoff_ms (base w) =? 0 then Ret (-1, true, es, w)
  else
    match redirector_name (base w) with
    | Some n =>
        match find_opt n redirector_subsystems with
        | Some ss => Ret (0, false, es, World (set_redirector (Some ss) (base w)) (reading_instance w) (instances w))
        | None => match redirector_of (base w) with Some _ => Ret (0, false, es, w) | None => Ret (-1, true, es, w) end
        end
    | None => Ret (-1, true, es, w)
    end.
Definition base_conf_section : @parser_section conf_addr conf_world := Sect (bytes "base") (Some base_onenter) (Some base_onexit) base_entries.

Definition red_keys : list (string * parser_type * red_field) :=
  [("local_ip", pt_in_addr, f_local_ip); ("local_port", pt_uint16, f_local_port); ("ip", pt_in_addr, f_ip); ("port", pt_uint16, f_port); ("type", pt_pchar, f_type); ("login", pt_pchar, f_login);
   ("password", pt_pchar, f_password); ("listenq", pt_uint16, f_listenq); ("splice", pt_bool, f_splice); ("disclose_src", pt_disclose_src, f_disclose_src); ("on_proxy_fail", pt_on_proxy_fail, f_on_proxy_fail)]%string.
Definition redsocks_entries : list entry := map (λ x, Entry (bytes x.1.1) x.1.2 None) red_keys.

(** The version of the kernel, from [uname]; [None] if the call fails. *)
Definition skip_nondigits (p : list Z) : list Z := (span (λ c, negb (isdigit c)) p).2.
Fixpoint version_numbers (n : nat) (rel : list Z) : list Z :=
  match n with O => [] | S n => let '(v, e) := strtoul rel in v :: version_numbers n (skip_nondigits e) end.
Definition is_splice_good (uname : option (list Z)) : bool :=
  match uname with
  | None => false
  | Some rel =>
      match version_numbers 4 rel with
      | [v0; v1; v2; v3] => (2 <? v0) || ((v0 =? 2) && (6 <? v1)) || ((v0 =? 2) && (v1 =? 6) && (27 <? v2)) || ((v0 =? 2) && (v1 =? 6) && (v2 =? 27) && (13 <=? v3))
      | _ => false
      end
  end.

Definition INADDR_LOOPBACK : Z := 127 * 2 ^ 24 + 1.
Definition SOMAXCONN : Z := 128.
Definition fresh_instance (uname : option (list Z)) : redsocks_config :=
  RConf INADDR_LOOPBACK 0 INADDR_LOOPBACK 0 None None None SOMAXCONN (is_splice_good uname) DISCLOSE_NONE ONFAIL_CLOSE None.
Definition field_of_key (k : list Z) : option red_field := find_opt k (map (λ x, (x.1.1, x.2)) red_keys).
Definition redsocks_onenter (uname : option (list Z)) : cb := λ es w,
  Ret (0, false, map (λ e, Entry (key e) (type e) (ARed <$> field_of_key (key e))) es, World (base w) (Some (fresh_instance uname)) (instances w)).

Definition htons (n : Z) : Z := Z.lor (Z.shiftl (Z.land n 255) 8) (Z.shiftr n 8).
Definition redsocks_onexit : cb := λ es w,
  match reading_instance w with
  | None => Fault
  | Some (RConf ba bp ra rp ty lo pa lq sp ds op ss) =>
      let es := map (λ e, Entry (key e) (type e) None) es in
      match ty with
      | None => Ret (-1, true, es, World (base w) None (instances w))
      | Some t =>
          match find_opt t relay_subsystems with
          | None => Ret (-1, true, es, World (base w) None (instances w))
          | Some k =>
              let i := RConf ba (htons bp) ra (htons rp) ty lo pa lq sp ds op (Some k) in
              let w := World (base w) None (i :: instances w) in
              if match ds, k with DISCLOSE_NONE, _ | _, http_connect => false | _, _ => true end then Ret (-1, true, es, w)
              else if match op, k with ONFAIL_CLOSE, _ | _, http_connect => false | _, _ => true end then Ret (-1, true, es, w)
              else Ret (0, false, es, w)
          end
      end
  end.
Definition redsocks_conf_section (uname : option (list Z)) : @parser_section conf_addr conf_world :=
  Sect (bytes "redsocks") (Some (redsocks_onenter uname)) (Some redsocks_onexit) redsocks_entries.

(** ** main.c

    The sections of the subsystems are added in their order: redsocks, then base. *)
Definition conf_sections (uname : option (list Z)) : list (@parser_section conf_addr conf_world) :=
  parser_add_section base_conf_section (parser_add_section (redsocks_conf_section uname) []).
Definition main_machine (uname : option (list Z)) : @machine conf_addr conf_world :=
  Machine false (conf_sections uname) None None None None (World zero_base None []).
Definition read_config (fuel : nat) (r : resolver) (uname : option (list Z)) (f : FILE) : outcome (Z * @machine conf_addr conf_world) :=
  parser_run fuel r (parser_start f) (main_machine uname).
