(* ===== verification/ParserSpec.v ===== *)
(** * redsocks: the configuration parser on the whole text

    [lex] reads a token in one pass, and [srun] runs the machine over the tokens of
    a text.  The parser, which reads lines into a growing buffer and keeps what is
    not yet a token, does the same on the complete lines of the file. *)
From S2P Require Import Prelude Encrypt Base64 Md5 HttpAuth Redsocks Handshake HttpConnect HttpConnectSpec Parser.
#[local] Open Scope Z_scope.

(** ** Tokens in one pass *)
Inductive quoted_text := QText (t r : list Z) | QMore | QBad.
Definition qcons (c : Z) (q : quoted_text) : quoted_text := match q with QText t r => QText (c :: t) r | q => q end.
Fixpoint read_quoted (p : list Z) : quoted_text :=
  match p with
  | [] => QMore
  | c :: q =>
      if c =? 34 then QText [] q
      else if c =? 92 then
        match q with [] => QMore | d :: q => if unescape d =? 0 then QBad else qcons (unescape d) (read_quoted q) end
      else qcons c (read_quoted q)
  end.

Definition lex (s : list Z) : gettok :=
  let p := skip_space s in
  match p with
  | [] => NoTok []
  | c :: q =>
      if c =? 34 then match read_quoted q with QText t r => Tok t r | QMore => NoTok p | QBad => BadTok p end
      else if isdigit c then plain_token (number_length p) p
      else if isalpha c then plain_token (word_length p) p
      else if (c =? 123) || (c =? 125) || (c =? 61) || (c =? 59) then Tok [c] q
      else if (c =? 47) && match q with d :: _ => (d =? 47) || (d =? 42) | [] => false end then plain_token (SLen 2) p
      else BadTok p
  end.

(** Induction over a string in which an escape takes two bytes. *)
Lemma escape_ind (P : list Z → Prop) :
  P [] → (∀ c q, P q → c ≠ 92 → P (c :: q)) → P [92] → (∀ d q, P q → P (92 :: d :: q)) → ∀ p, P p.
Proof.
  intros H0 H1 H2 H3 p. remember (length p) as n eqn:En. revert p En. induction n as [n IH] using lt_wf_ind. intros [|c q] En; [done|].
  destruct (Z.eq_dec c 92) as [->|Hc]; [destruct q as [|d q]; [done|]; apply H3|apply H1; [|done]]; eapply IH; try done; cbn [length] in En; lia.
Qed.

(** The first pass measures what the second one copies. *)
Lemma copy_read p : match quoted_length p with
  | SLen n => ∃ t r, copy_quoted (S n) p = Ret (t, r) ∧ read_quoted p = QText t r
  | SMore => read_quoted p = QMore
  | SBad => read_quoted p = QBad
  end.
Proof.
  induction p as [|c q IH Hc| |d q IH] using escape_ind; cbn [quoted_length read_quoted]; [done| |done|].
  - destruct (Z.eqb_spec c 34) as [->|H34]; [by exists [], q|]. rewrite (proj2 (Z.eqb_neq c 92)) by done.
    destruct (quoted_length q) as [n| |]; cbn [scan_succ]; [|by rewrite IH..]. destruct IH as (t & r & Hco & ->). exists (c :: t), r. split; [|done].
    remember (S n) as m. cbn [copy_quoted]. rewrite (proj2 (Z.eqb_neq c 34)), (proj2 (Z.eqb_neq c 92)) by done. by rewrite Hco.
  - cbn [Z.eqb Pos.eqb]. destruct (unescape d =? 0) eqn:Eu; [done|].
    destruct (quoted_length q) as [n| |]; cbn [scan_succ]; [|by rewrite IH..]. destruct IH as (t & r & Hco & ->). exists (unescape d :: t), r. split; [|done].
    remember (S n) as m. cbn [copy_quoted Z.eqb Pos.eqb]. by rewrite Hco.
Qed.

Lemma gettoken_lex s : gettoken s = Ret (lex s).
Proof.
  unfold gettoken, lex. destruct (skip_space s) as [|c q]; [done|]. destruct (c =? 34).
  - pose proof (copy_read q) as H. destruct (quoted_length q) as [n| |]; [|by rewrite H..]. destruct H as (t & r & -> & ->). done.
  - by repeat case_match.
Qed.

(** ** A token and what follows it *)
Lemma quoted_app p x t r : read_quoted p = QText t r → read_quoted (p ++ x) = QText t (r ++ x).
Proof.
  revert t. induction p as [|c q IH Hc| |d q IH] using escape_ind; intros t; cbn [read_quoted app]; [done| |done|].
  - destruct (c =? 34); [by intros [= <- <-]|]. rewrite (proj2 (Z.eqb_neq c 92)) by done. destruct (read_quoted q) as [t0 r0| |]; [|done..]. intros [= <- <-]. by rewrite (IH t0).
  - cbn [Z.eqb Pos.eqb]. destruct (unescape d =? 0); [done|]. destruct (read_quoted q) as [t0 r0| |]; [|done..]. intros [= <- <-]. by rewrite (IH t0).
Qed.
Lemma quoted_bad p x : read_quoted p = QBad → read_quoted (p ++ x) = QBad.
Proof.
  induction p as [|c q IH Hc| |d q IH] using escape_ind; cbn [read_quoted app]; [done| |done|].
  - destruct (c =? 34); [done|]. rewrite (proj2 (Z.eqb_neq c 92)) by done. destruct (read_quoted q); [done..|]. intros _. by rewrite IH.
  - cbn [Z.eqb Pos.eqb]. destruct (unescape d =? 0); [done|]. destruct (read_quoted q); [done..|]. intros _. by rewrite IH.
Qed.
(** The string ends with its quote. *)
Lemma quoted_shape p t r : read_quoted p = QText t r → ∃ u, p = u ++ 34 :: r ∧ (length t ≤ length u)%nat.
Proof.
  revert t. induction p as [|c q IH Hc| |d q IH] using escape_ind; intros t; cbn [read_quoted]; [done| |done|].
  - destruct (Z.eqb_spec c 34) as [->|]; [intros [= <- <-]; by exists []|]. rewrite (proj2 (Z.eqb_neq c 92)) by done.
    destruct (read_quoted q) as [t0 r0| |]; [|done..]. intros [= <- <-]. destruct (IH t0 eq_refl) as (u & -> & Hl). exists (c :: u). split; [done|]. cbn. lia.
  - cbn [Z.eqb Pos.eqb]. destruct (unescape d =? 0); [done|]. destruct (read_quoted q) as [t0 r0| |]; [|done..]. intros [= <- <-].
    destruct (IH t0 eq_refl) as (u & -> & Hl). exists (92 :: d :: u). split; [done|]. cbn. lia.
Qed.

Lemma scan_succ_len s n : scan_succ s = SLen n → ∃ k, n = S k ∧ s = SLen k.
Proof. destruct s; [|done..]. intros [= <-]. eauto. Qed.

(** A plain token: its bytes are not LF, and a byte follows it. *)
Definition plain_ok (p : list Z) (n : nat) : Prop := (n < length p)%nat ∧ Forall (λ c, c ≠ LF) (take n p).
Lemma plain_ok_cons c q n : c ≠ LF → plain_ok q n → plain_ok (c :: q) (S n).
Proof. intros Hc [Hl Hf]. split; [cbn; lia|]. by constructor. Qed.

Lemma number_shape p n : number_length p = SLen n → plain_ok p n ∧ ∀ x, number_length (p ++ x) = SLen n.
Proof.
  revert n. induction p as [|c q IH]; intros n; [done|]. cbn [number_length app]. destruct (isdigit c || (c =? 46)) eqn:E.
  - intros (k & -> & Hk)%scan_succ_len. destruct (IH k Hk) as [Hp Hx]. split; [|intros x; by rewrite Hx]. apply plain_ok_cons; [|done]. intros ->. done.
  - destruct (Z.eqb_spec c 47) as [->|].
    + destruct q as [|d q']; [done|]. cbn [app]. destruct (isdigit d) eqn:Ed.
      * intros (k & -> & Hk)%scan_succ_len. destruct (IH k Hk) as [Hp Hx]. split; [by apply plain_ok_cons|]. intros x. cbn [app] in Hx. by rewrite Hx.
      * destruct ((d =? 47) || (d =? 42)); [|done]. intros [= <-]. split; [|done]. split; [cbn; lia|constructor].
    + intros [= <-]. split; [|done]. split; [cbn; lia|constructor].
Qed.
Lemma number_not_bad p : number_length p ≠ SBad.
Proof.
  induction p as [|c q IH]; [done|]. cbn [number_length]. assert (scan_succ (number_length q) ≠ SBad) by (by destruct (number_length q)).
  by repeat case_match.
Qed.
Lemma word_shape p n : word_length p = SLen n → plain_ok p n ∧ ∀ x, word_length (p ++ x) = SLen n.
Proof.
  revert n. induction p as [|c q IH]; intros n; [done|]. cbn [word_length app]. destruct (isalnum c || (c =? 95) || (c =? 46) || (c =? 45)) eqn:E.
  - intros (k & -> & Hk)%scan_succ_len. destruct (IH k Hk) as [Hp Hx]. split; [|intros x; by rewrite Hx]. apply plain_ok_cons; [|done]. by intros ->.
  - intros [= <-]. split; [|done]. split; [cbn; lia|constructor].
Qed.
Lemma word_not_bad p : word_length p ≠ SBad.
Proof. induction p as [|c q IH]; [done|]. cbn [word_length]. case_match; [|done]. by destruct (word_length q). Qed.

Lemma skip_split s : ∃ sp, s = sp ++ skip_space s ∧ Forall (λ c, isspace c = true) sp ∧ (∀ c q, skip_space s = c :: q → isspace c = false).
Proof. destruct (span_spec isspace s) as (E & H1 & H2). by exists (span isspace s).1. Qed.
Lemma skip_spaces sp x : Forall (λ c, isspace c = true) sp → skip_space (sp ++ x) = skip_space x.
Proof.
  intros Hs. unfold skip_space. induction Hs as [|c sp Hc _ IH]; [done|]. cbn [app span]. rewrite Hc. by destruct (span isspace (sp ++ x)).
Qed.
Lemma skip_skip s x : skip_space (s ++ x) = skip_space (skip_space s ++ x).
Proof. destruct (skip_split s) as (sp & E & Hsp & _). rewrite E at 1. rewrite <- app_assoc. by apply skip_spaces. Qed.
Lemma skip_app s c q x : skip_space s = c :: q → skip_space (s ++ x) = c :: q ++ x.
Proof. intros E. destruct (skip_split s) as (sp & _ & _ & Hc). rewrite skip_skip, E. cbn [app]. apply skip_nonspace. eauto. Qed.

Lemma lex_skip s x : lex (s ++ x) = lex (skip_space s ++ x).
Proof. unfold lex. by rewrite skip_skip. Qed.
Lemma lex_none s p : lex s = NoTok p → p = skip_space s ∧ lex p = NoTok p.
Proof.
  intros H. assert (E : p = skip_space s).
  { unfold lex, plain_token in H. destruct (skip_space s) as [|c q]; [congruence|]. repeat case_match; congruence. }
  split; [done|]. pose proof (lex_skip s []) as Hs. rewrite !app_nil_r in Hs. subst p. congruence.
Qed.

Lemma plain_split p n r : plain_ok p (S n) → drop (S n) p = r → ∃ u c, p = u ++ c :: r ∧ c ≠ LF ∧ take (S n) p = u ++ [c].
Proof.
  intros [Hl Hf] <-. destruct (take (S n) p) as [|y l] eqn:E; [apply (f_equal length) in E; rewrite length_take in E; cbn [length] in E; lia|].
  destruct (exists_last (l := y :: l) ltac:(done)) as (u & c & Eu). rewrite Eu in *. exists u, c. split_and!; [|by apply Forall_app in Hf as [_ Hf]; apply Forall_cons_1 in Hf as [? _]|done].
  rewrite <- (take_drop (S n) p) at 1. rewrite E. by rewrite <- app_assoc.
Qed.

(** The length of a plain token is not 0. *)
Lemma number_pos c q n : isdigit c = true → number_length (c :: q) = SLen n → ∃ k, n = S k.
Proof. intros Hc. cbn [number_length]. rewrite Hc. intros (k & -> & _)%scan_succ_len. eauto. Qed.
Lemma word_pos c q n : isalpha c = true → word_length (c :: q) = SLen n → ∃ k, n = S k.
Proof. intros Hc. cbn [word_length]. unfold isalnum. rewrite Hc. intros (k & -> & _)%scan_succ_len. eauto. Qed.

Lemma lex_tok s t r : lex s = Tok t r → (∀ x, lex (s ++ x) = Tok t (r ++ x)) ∧ ∃ u c, s = u ++ c :: r ∧ c ≠ LF ∧ (length t ≤ S (length u))%nat.
Proof.
  destruct (skip_split s) as (sp & Es & _ & _). unfold lex. intros H.
  assert (Hx : ∀ x c q, skip_space s = c :: q → skip_space (s ++ x) = c :: q ++ x) by eauto using skip_app.
  destruct (skip_space s) as [|c q] eqn:E; [done|].
  enough ((∀ x, match c :: q ++ x with
    | [] => NoTok [] | c :: q => if c =? 34 then match read_quoted q with QText t r => Tok t r | QMore => NoTok (c :: q) | QBad => BadTok (c :: q) end
      else if isdigit c then plain_token (number_length (c :: q)) (c :: q) else if isalpha c then plain_token (word_length (c :: q)) (c :: q)
      else if (c =? 123) || (c =? 125) || (c =? 61) || (c =? 59) then Tok [c] q
      else if (c =? 47) && match q with d :: _ => (d =? 47) || (d =? 42) | [] => false end then plain_token (SLen 2) (c :: q) else BadTok (c :: q) end = Tok t (r ++ x))
    ∧ ∃ u d, c :: q = u ++ d :: r ∧ d ≠ LF ∧ (length t ≤ S (length u))%nat) as [H1 (u & d & H2 & H3 & H4)].
  { split; [intros x; by rewrite (Hx x c q eq_refl)|]. exists (sp ++ u), d. split_and!; [rewrite Es, H2; by rewrite app_assoc|done|rewrite length_app; lia]. }
  clear Hx Es E s. destruct (Z.eqb_spec c 34) as [->|Hc34].
  { destruct (read_quoted q) as [t0 r0| |] eqn:E; [|done..]. injection H as -> ->. split; [intros x; by rewrite (quoted_app _ _ _ _ E)|].
    apply quoted_shape in E as (u & -> & Hl). exists (34 :: u), 34. split; [done|]. split; [done|]. cbn. lia. }
  assert (Hp : ∀ sc n, sc = SLen n → (∃ k, n = S k) → plain_ok (c :: q) n → plain_token sc (c :: q) = Tok t r →
    (∀ x, plain_token (SLen n) (c :: q ++ x) = Tok t (r ++ x)) ∧ ∃ u d, c :: q = u ++ d :: r ∧ d ≠ LF ∧ (length t ≤ S (length u))%nat).
  { intros sc n -> (k & ->) Hok. cbn [plain_token]. intros [= <- <-]. destruct (plain_split _ _ _ Hok eq_refl) as (u & d & E1 & E2 & E3). split.
    - intros x. destruct Hok as [Hl _]. change (c :: q ++ x) with ((c :: q) ++ x). rewrite take_app_le, drop_app_le by lia. done.
    - exists u, d. split_and!; [done|done|]. rewrite firstn_cons in E3. apply (f_equal length) in E3. cbn [length] in *. rewrite length_app in E3. cbn in E3. lia. }
  destruct (isdigit c) eqn:Ed.
  { destruct (number_length (c :: q)) as [n| |] eqn:En; [|done..]. destruct (number_shape _ _ En) as [Hok Hx]. destruct (Hp _ n eq_refl (number_pos _ _ _ Ed En) Hok H) as [H1 H2].
    split; [|done]. intros x. change (c :: q ++ x) with ((c :: q) ++ x). rewrite Hx. apply H1. }
  destruct (isalpha c) eqn:Ea.
  { destruct (word_length (c :: q)) as [n| |] eqn:En; [|done..]. destruct (word_shape _ _ En) as [Hok Hx]. destruct (Hp _ n eq_refl (word_pos _ _ _ Ea En) Hok H) as [H1 H2].
    split; [|done]. intros x. change (c :: q ++ x) with ((c :: q) ++ x). rewrite Hx. apply H1. }
  destruct ((c =? 123) || (c =? 125) || (c =? 61) || (c =? 59)) eqn:Ep.
  { injection H as <- <-. split; [done|]. exists [], c. split_and!; [done|by intros ->|done]. }
  destruct (Z.eqb_spec c 47) as [->|]; [|done]. destruct q as [|d q]; [done|]. cbn [andb] in H |- *. destruct ((d =? 47) || (d =? 42)) eqn:Edd; [|done]. injection H as <- <-.
  split; [intros x; cbn [app]; by rewrite Edd|]. exists [47], d. split_and!; [done|by intros ->|done].
Qed.

(** ** Complete lines *)
Definition complete (s : list Z) : Prop := s = [] ∨ ∃ s', s = s' ++ [LF].

Lemma complete_suffix u r : complete (u ++ r) → complete r.
Proof.
  intros [E|(s' & E)]; [apply app_eq_nil in E as [_ ->]; by left|]. destruct (decide (r = [])) as [->|Hr]; [by left|]. right.
  destruct (exists_last Hr) as (r' & c & ->). rewrite app_assoc in E. apply app_inj_tail in E as [_ <-]. eauto.
Qed.
Lemma complete_app a b : complete a → complete b → complete (a ++ b).
Proof. intros Ha [->|(b' & ->)]; [by rewrite app_nil_r|]. right. exists (a ++ b'). by rewrite app_assoc. Qed.
(** Behind a token there is at least the end of its line. *)
Lemma complete_tok s t r : complete s → lex s = Tok t r → ∃ r', r = r' ++ [LF].
Proof.
  intros Hc H. destruct (lex_tok _ _ _ H) as [_ (u & c & -> & Hne & _)]. replace (u ++ c :: r) with ((u ++ [c]) ++ r) in Hc by (by rewrite <- app_assoc).
  destruct Hc as [E|(s' & E)]; [apply app_eq_nil in E as [E _]; by apply app_eq_nil in E as [_ ?]|]. destruct (decide (r = [])) as [->|Hr].
  - rewrite app_nil_r in E. apply app_inj_tail in E as [_ E]. done.
  - destruct (exists_last Hr) as (r' & d & ->). rewrite app_assoc in E. apply app_inj_tail in E as [_ <-]. eauto.
Qed.

Lemma skip_complete s : complete s → complete (skip_space s).
Proof. destruct (skip_split s) as (sp & E & _). rewrite E at 1. apply complete_suffix. Qed.

Lemma lex_bad s p x : complete s → lex s = BadTok p → ∃ p', lex (s ++ x) = BadTok p'.
Proof.
  intros Hc. pose proof (skip_complete s Hc) as Hsc. unfold lex. destruct (skip_space s) as [|c q] eqn:E; [done|]. rewrite (skip_app s c q x E).
  destruct (Z.eqb_spec c 34) as [->|]. { destruct (read_quoted q) eqn:Eq; [done..|]. intros _. rewrite (quoted_bad _ _ Eq). eauto. }
  destruct (isdigit c). { pose proof (number_not_bad (c :: q)). by destruct (number_length (c :: q)). }
  destruct (isalpha c). { pose proof (word_not_bad (c :: q)). by destruct (word_length (c :: q)). }
  destruct ((c =? 123) || (c =? 125) || (c =? 61) || (c =? 59)); [done|]. destruct (Z.eqb_spec c 47) as [->|]; cbn [andb]; [|eauto].
  destruct q as [|d q]; [|cbn [app]; destruct ((d =? 47) || (d =? 42)); [done|eauto]].
  destruct Hsc as [?|(s' & Es)]; [done|]. destruct s' as [|? [|]]; done.
Qed.

(** ** The machine on a text *)
Lemma after_comment_short s r : after_comment s = Some r → (length r + 2 ≤ length s)%nat.
Proof.
  induction s as [|a [|b s] IH]; [done..|]. cbn [after_comment]. destruct ((a =? 42) && (b =? 47)); [intros [= <-]; cbn; lia|]. intros H%IH. cbn [length] in *. lia.
Qed.
Lemma after_comment_app s x r : after_comment s = Some r → after_comment (s ++ x) = Some (r ++ x).
Proof. induction s as [|a [|b s] IH]; [done..|]. cbn [after_comment app]. destruct ((a =? 42) && (b =? 47)); [by intros [= <-]|]. intros H%IH. exact H. Qed.
Lemma after_comment_none s x : complete s → after_comment s = None → after_comment (s ++ x) = after_comment x.
Proof.
  intros [->|(s' & ->)]; [done|]. rewrite <- app_assoc. induction s' as [|a s' IH]; intros H.
  - cbn [app]. cbn [after_comment]. by destruct x.
  - destruct (s' ++ [LF]) as [|b l] eqn:El; [by apply app_eq_nil in El as [_ ?]|]. assert (Eq : s' ++ [LF] ++ x = b :: l ++ x) by (rewrite app_assoc, El; done).
    cbn [app] in Eq, IH, H |- *. rewrite Eq. rewrite Eq in IH. rewrite El in H. cbn [after_comment] in *. destruct ((a =? 42) && (b =? 47)); [done|]. by apply IH.
Qed.
Lemma after_comment_suffix s r : after_comment s = Some r → ∃ u, s = u ++ r.
Proof.
  induction s as [|a [|b s] IH]; [done..|]. cbn [after_comment]. destruct ((a =? 42) && (b =? 47)); [intros [= <-]; by exists [a; b]|]. intros (u & E)%IH. exists (a :: u). by rewrite E.
Qed.
Lemma find_nl_suffix s l r : find_nl s = Some (l, r) → ∃ u, s = u ++ r.
Proof.
  revert l. induction s as [|c s IH]; intros l; [done|]. cbn [find_nl]. destruct (c =? 10); [intros [= <- <-]; by exists [c]|].
  destruct (find_nl s) as [[l0 r0]|]; [|done]. intros [= <- <-]. destruct (IH _ eq_refl) as (u & ->). by exists (c :: u).
Qed.
Lemma find_nl_complete r : ∃ l s, find_nl (r ++ [LF]) = Some (l, s).
Proof.
  induction r as [|c r IH]; [by exists [], []|]. cbn [app find_nl]. destruct (c =? 10); [by eexists _, _|]. destruct IH as (l & s & ->). by eexists _, _.
Qed.

Section Run.
Context {A W : Type} `{!ConfStore A W} (r : resolver).
Abbreviation machine := (@machine A W).
Implicit Types m : machine.

Fixpoint srun_fuel (fuel : nat) m (s : list Z) : outcome machine :=
  match fuel with
  | O => Fault
  | S fuel =>
      if error m then Ret m
      else
        match lex s with
        | NoTok _ => Ret m
        | BadTok _ => Ret (parser_error m)
        | Tok t rest =>
            if bool_decide (t = bytes "//") then match find_nl rest with Some (_, s) => srun_fuel fuel m s | None => Ret m end
            else if bool_decide (t = bytes "/*") then match after_comment rest with Some s => srun_fuel fuel m s | None => Ret m end
            else m ← token_step r t m; srun_fuel fuel m rest
        end
  end.
(** The machine on the tokens of [s]: a comment ends at its line or at its mark;
    what is not a token at the end of the text is ignored. *)
Definition srun m (s : list Z) : outcome machine := srun_fuel (S (length s)) m s.

Lemma lex_shorter s t rest : lex s = Tok t rest → (length rest < length s)%nat.
Proof. intros H. destruct (lex_tok _ _ _ H) as [_ (u & c & -> & _)]. rewrite length_app. cbn. lia. Qed.

Lemma srun_enough f g m s : (length s < f)%nat → (length s < g)%nat → srun_fuel f m s = srun_fuel g m s.
Proof.
  revert g m s. induction f as [|f IH]; intros g m s Hf Hg; [lia|]. destruct g as [|g]; [lia|]. cbn [srun_fuel]. destruct (error m); [done|].
  destruct (lex s) as [t rest| |] eqn:E; [|done..]. apply lex_shorter in E. case_bool_decide; [|case_bool_decide].
  - destruct (find_nl rest) as [[l s']|] eqn:En; [|done]. apply find_nl_length in En. apply IH; lia.
  - destruct (after_comment rest) as [s'|] eqn:En; [|done]. apply after_comment_short in En. apply IH; lia.
  - destruct (token_step r t m) as [m'| |]; [|done..]. rewrite !bind_Ret. apply IH; lia.
Qed.
Lemma srun_step m s : srun m s =
  if error m then Ret m
  else match lex s with
       | NoTok _ => Ret m
       | BadTok _ => Ret (parser_error m)
       | Tok t rest =>
           if bool_decide (t = bytes "//") then match find_nl rest with Some (_, s) => srun m s | None => Ret m end
           else if bool_decide (t = bytes "/*") then match after_comment rest with Some s => srun m s | None => Ret m end
           else m ← token_step r t m; srun m rest
       end.
Proof.
  unfold srun at 1. cbn [srun_fuel]. destruct (error m); [done|].
  destruct (lex s) as [t rest| |] eqn:E; [|done..]. apply lex_shorter in E. case_bool_decide; [|case_bool_decide].
  - destruct (find_nl rest) as [[l s']|] eqn:En; [|done]. apply find_nl_length in En. apply srun_enough; lia.
  - destruct (after_comment rest) as [s'|] eqn:En; [|done]. apply after_comment_short in En. apply srun_enough; lia.
  - destruct (token_step r t m) as [m'| |]; [|done..]. rewrite !bind_Ret. apply srun_enough; lia.
Qed.

(** The same with a comment open or not. *)
Definition sspec (com : bool) m (s : list Z) : outcome machine :=
  if com then match after_comment s with Some s => srun m s | None => Ret m end else srun m s.
Lemma srun_error m s : error m = true → srun m s = Ret m.
Proof. intros E. rewrite srun_step. by rewrite E. Qed.
Lemma srun_skip m s x : srun m (s ++ x) = srun m (skip_space s ++ x).
Proof. rewrite !srun_step. by rewrite lex_skip. Qed.

(** ** The loop over the buffer *)
Lemma drop_iter (d : list Z) iter u rest : (iter ≤ length d)%nat → drop iter d = u ++ rest → drop (length d - length rest) d = rest.
Proof.
  intros Hi E. assert (Hl : (length d - iter = length u + length rest)%nat) by (rewrite <- length_drop, E; by rewrite length_app).
  replace (length d - length rest)%nat with (iter + length u)%nat by lia. rewrite <- drop_drop, E. apply drop_app_length.
Qed.

Lemma tokens_spec fuel sz d iter m :
  (iter ≤ length d)%nat → complete (drop iter d) → (length (drop iter d) < fuel)%nat → zlen d < sz →
  match tokens fuel r sz d iter m with
  | Ret (d', com, m', ended) =>
      (∀ x, srun m (drop iter d ++ x) = sspec com m' (d' ++ x)) ∧ complete d' ∧ (length d' ≤ length (drop iter d))%nat ∧
      (error m' = true ∨ (com = true ∧ d' ≠ [] ∧ ended = false) ∨ (com = false ∧ ended = true ∧ lex d' = NoTok d'))
  | Fault => ∀ x, srun m (drop iter d ++ x) = Fault
  | Exit => ∀ x, srun m (drop iter d ++ x) = Exit
  end.
Proof.
  revert d iter m. induction fuel as [|fuel IH]; intros d iter m Hi Hc Hf Hsz; [lia|]. cbn [tokens]. destruct (error m) eqn:Eerr.
  { split_and!; [done|done|done|by left]. }
  rewrite gettoken_lex, bind_Ret. destruct (lex (drop iter d)) as [t rest|p|p] eqn:E.
  2: { destruct (lex_none _ _ E) as [-> Hp]. split_and!; [intros x; apply srun_skip|by apply skip_complete| |right; right; done].
       destruct (skip_split (drop iter d)) as (sp & Es & _). apply (f_equal length) in Es. rewrite length_app in Es. lia. }
  2: { assert (Ep : p = skip_space (drop iter d)) by (unfold lex, plain_token in E; destruct (skip_space (drop iter d)); [done|]; repeat case_match; congruence).
       split_and!; [|subst p; by apply skip_complete| |by left].
       - intros x. cbn [sspec]. rewrite (srun_error (parser_error m)) by done. rewrite srun_step, Eerr. destruct (lex_bad _ _ x Hc E) as (p' & ->). done.
       - subst p. destruct (skip_split (drop iter d)) as (sp & Es & _). apply (f_equal length) in Es. rewrite length_app in Es. lia. }
  destruct (lex_tok _ _ _ E) as [Hx (u & c & Eu & Hne & Ht)]. destruct (complete_tok _ _ _ Hc E) as (r' & Hr').
  replace (u ++ c :: rest) with ((u ++ [c]) ++ rest) in Eu by (by rewrite <- app_assoc). pose proof (drop_iter d iter (u ++ [c]) rest Hi Eu) as Hdrop. set (it := (length d - length rest)%nat) in *.
  assert (Hlen : (length (drop iter d) = length u + 1 + length rest)%nat) by (rewrite Eu, !length_app; cbn; lia). assert (Hit : (it = iter + length u + 1)%nat) by (rewrite length_drop in Hlen; lia).
  assert (Hcr : complete rest) by (rewrite Hr'; right; eauto).
  assert (Hs : ∀ x, srun m (drop iter d ++ x) = if bool_decide (t = bytes "//") then match find_nl (rest ++ x) with Some (_, s) => srun m s | None => Ret m end
      else if bool_decide (t = bytes "/*") then match after_comment (rest ++ x) with Some s => srun m s | None => Ret m end else m ← token_step r t m; srun m (rest ++ x)).
  { intros x. rewrite srun_step, Eerr, Hx. done. }
  destruct (bool_decide_reflect (t = bytes "//")) as [->|_]; [|destruct (bool_decide_reflect (t = bytes "/*")) as [->|_]].
  - destruct (find_nl_complete r') as (l & endc & Hnl). rewrite <- Hr' in Hnl. rewrite Hnl. change (length (bytes "//")) with 2%nat in Ht. rewrite assert_true by (apply Z.leb_le; lia). rewrite bind_Ret.
    pose proof (find_nl_length _ _ _ Hnl) as Hnlen. unfold filled_add. rewrite (proj2 (Z.ltb_lt _ _)), bind_Ret by (rewrite length_app, length_take; lia).
    set (d2 := take (it - 2) d ++ endc). assert (Hd2 : drop (it - 2) d2 = endc) by (unfold d2; rewrite drop_app_ge, length_take by (rewrite length_take; lia); by replace (it - 2 - _)%nat with 0%nat by lia).
    specialize (IH d2 (it - 2)%nat m). rewrite Hd2 in IH. destruct (find_nl_suffix _ _ _ Hnl) as (v & Ev).
    specialize (IH ltac:(unfold d2; rewrite length_app, length_take; lia) ltac:(rewrite Ev in Hcr; by eapply complete_suffix) ltac:(lia) ltac:(unfold d2; rewrite length_app, length_take; lia)).
    assert (Hs' : ∀ x, srun m (drop iter d ++ x) = srun m (endc ++ x)) by (intros x; rewrite Hs, (find_nl_app _ x _ _ Hnl); done).
    destruct (tokens fuel r sz d2 (it - 2) m) as [[[[d' com] m'] ended]| |]; [|intros x; rewrite Hs'; apply IH..]. destruct IH as (I1 & I2 & I3 & I4). split_and!; [|done|lia|done]. intros x. rewrite Hs'. apply I1.
  - unfold filled_add. rewrite (proj2 (Z.ltb_lt _ _)), bind_Ret by (rewrite length_drop in Hlen; lia). split_and!; [|done|lia|right; left; split_and!; [done| |done]].
    + intros x. by rewrite Hs.
    + rewrite Hr'. by destruct r'.
  - destruct (token_step r t m) as [m2| |] eqn:Et; [|intros x; by rewrite Hs..]. rewrite bind_Ret. specialize (IH d it m2). rewrite Hdrop in IH. specialize (IH ltac:(lia) Hcr ltac:(lia) Hsz).
    destruct (tokens fuel r sz d it m2) as [[[[d' com] m'] ended]| |]; [|intros x; rewrite Hs; apply IH..]. destruct IH as (I1 & I2 & I3 & I4). split_and!; [|done|lia|done]. intros x. rewrite Hs. apply I1.
Qed.

Lemma sspec_error com m s : error m = true → sspec com m s = Ret m.
Proof. intros E. unfold sspec. destruct com; [|by apply srun_error]. destruct (after_comment s); [by apply srun_error|done]. Qed.

(** Nothing can be done with [d] before more is read. *)
Definition waiting (com : bool) (d : list Z) : Prop := if com then d = [] else lex d = NoTok d.
Lemma waiting_done com m d : waiting com d → sspec com m d = Ret m.
Proof. destruct com; cbn [waiting sspec]; [by intros ->|]. intros E. rewrite srun_step, E. by destruct (error m). Qed.

Lemma run_buffer_spec c m : complete (data c) → zlen (data c) < size c →
  match run_buffer r c m with
  | Ret (c', m') =>
      (∀ x, sspec (in_comment c) m (data c ++ x) = sspec (in_comment c') m' (data c' ++ x)) ∧ complete (data c') ∧ (length (data c') ≤ length (data c))%nat ∧
      fd c' = fd c ∧ size c' = size c ∧ need_more_space c' = need_more_space c ∧ (in_comment c = true → data c ≠ [] → (length (data c') < length (data c))%nat) ∧
      (error m' = true ∨ (need_more_data c' = true ∧ waiting (in_comment c') (data c')) ∨ (need_more_data c' = need_more_data c ∧ in_comment c' = true ∧ data c' ≠ []))
  | Fault => ∀ x, sspec (in_comment c) m (data c ++ x) = Fault
  | Exit => ∀ x, sspec (in_comment c) m (data c ++ x) = Exit
  end.
Proof.
  intros Hc Hs.
  assert (Htok : ∀ d, complete d → (length d ≤ length (data c))%nat →
    match run_tokens r c d m with
    | Ret (c', m') => (∀ x, srun m (d ++ x) = sspec (in_comment c') m' (data c' ++ x)) ∧ complete (data c') ∧ (length (data c') ≤ length d)%nat ∧
        fd c' = fd c ∧ size c' = size c ∧ need_more_space c' = need_more_space c ∧
        (error m' = true ∨ (need_more_data c' = true ∧ waiting (in_comment c') (data c')) ∨ (need_more_data c' = need_more_data c ∧ in_comment c' = true ∧ data c' ≠ []))
    | Fault => ∀ x, srun m (d ++ x) = Fault
    | Exit => ∀ x, srun m (d ++ x) = Exit
    end).
  { intros d Hd Hl. pose proof (tokens_spec (S (length d)) (size c) d 0 m) as H. rewrite drop_0 in H. specialize (H ltac:(lia) Hd ltac:(lia) ltac:(lia)). unfold run_tokens.
    destruct (tokens (S (length d)) r (size c) d 0 m) as [[[[d' com] m'] ended]| |]; [|done..]. rewrite bind_Ret. destruct H as (H1 & H2 & H3 & H4).
    unfold filled_add. rewrite (proj2 (Z.ltb_lt _ _)), bind_Ret by lia. cbn [in_comment data fd size need_more_space need_more_data]. split_and!; try done.
    destruct H4 as [H4|[(-> & H4 & ->)|(-> & -> & H4)]]; [by left|by right; right|right; left; done]. }
  unfold run_buffer. destruct (in_comment c) eqn:Ec.
  - cbn [sspec]. destruct (after_comment (data c)) as [d|] eqn:Ea.
    + pose proof (after_comment_short _ _ Ea) as Hl. destruct (after_comment_suffix _ _ Ea) as (u & Eu). unfold filled_add. rewrite (proj2 (Z.ltb_lt _ _)), bind_Ret by lia.
      specialize (Htok d ltac:(rewrite Eu in Hc; by eapply complete_suffix) ltac:(lia)).
      assert (Hx : ∀ x, after_comment (data c ++ x) = Some (d ++ x)) by (intros x; by apply after_comment_app).
      destruct (run_tokens r c d m) as [[c' m']| |]; [|intros x; rewrite Hx; apply Htok..]. destruct Htok as (H1 & H2 & H3 & H4 & H5 & H6 & H7).
      split_and!; try done; [intros x; rewrite Hx; apply H1|lia|intros; lia].
    + unfold filled_add. rewrite (proj2 (Z.ltb_lt _ _)), bind_Ret by (cbn; lia). cbn [in_comment data fd size need_more_space need_more_data app]. split_and!; try done.
      * intros x. by rewrite after_comment_none.
      * by left.
      * cbn; lia.
      * intros _ Hne. destruct (data c); [done|cbn; lia].
      * right. left. done.
  - specialize (Htok (data c) Hc ltac:(lia)). destruct (run_tokens r c (data c) m) as [[c' m']| |]; [|apply Htok..].
    destruct Htok as (H1 & H2 & H3 & H4 & H5 & H6 & H7). split_and!; done.
Qed.

(** The complete lines of a text. *)
Fixpoint upto (s : list Z) : list Z :=
  match s with
  | [] => []
  | c :: s => match upto s with [] => if c =? LF then [c] else [] | t => c :: t end
  end.
Lemma upto_complete a b : complete a → upto (a ++ b) = a ++ upto b.
Proof.
  intros [->|(a' & ->)]; [done|]. rewrite <- app_assoc. induction a' as [|c a' IH]; cbn [app upto].
  - cbn [Z.eqb Pos.eqb LF]. by destruct (upto b).
  - cbn [app] in IH. rewrite IH. destruct ((a' ++ [LF]) ++ upto b) as [|y l] eqn:E; [|done]. apply app_eq_nil in E as [E _]. by apply app_eq_nil in E as [_ ?].
Qed.
Lemma upto_none s : find_nl s = None → upto s = [].
Proof. induction s as [|c s IH]; [done|]. cbn [find_nl upto]. destruct (Z.eqb_spec c 10); [done|]. destruct (find_nl s) as [[]|]; [done|]. intros _. rewrite IH by done. by rewrite (proj2 (Z.eqb_neq c LF)). Qed.
Lemma upto_is_complete s : complete (upto s).
Proof.
  induction s as [|c s IH]; [by left|]. cbn [upto]. destruct (upto s) as [|y l].
  - destruct (Z.eqb_spec c LF) as [->|]; [right; by exists []|by left].
  - destruct IH as [?|(s' & E)]; [done|]. right. exists (c :: s'). cbn. by rewrite E.
Qed.

(** ** Reading the file *)
Lemma ends_line_spec l : ends_line l = true ↔ ∃ l', l = l' ++ [LF].
Proof.
  unfold ends_line. destruct (decide (l = [])) as [->|Hl]; [split; [done|intros (l' & E); by destruct l']|]. destruct (exists_last Hl) as (l' & c & ->). rewrite rev_app_distr. cbn [rev app].
  rewrite Z.eqb_eq. split; [intros ->; eauto|]. intros (l2 & E). by apply app_inj_tail in E as [_ ?].
Qed.
Lemma take_line_spec k s l rest : take_line k s = (l, rest) →
  s = l ++ rest ∧ (length l ≤ k)%nat ∧ (ends_line l = false → find_nl l = None ∧ ((length l < k)%nat → rest = [])).
Proof.
  revert s l. induction k as [|k IH]; intros s l; cbn [take_line]; [intros [= <- <-]; split_and!; [done|cbn; lia|intros _; split; [done|cbn; lia]]|]. destruct s as [|c s]; [intros [= <- <-]; by split_and!; [|cbn; lia|]|].
  destruct (Z.eqb_spec c LF) as [->|Hc]; [intros [= <- <-]; by split_and!; [|cbn; lia|]|]. destruct (take_line k s) as [l0 r0] eqn:E. intros [= <- <-]. destruct (IH s l0 E) as (-> & Hl & He).
  split_and!; [done|cbn; lia|]. intros Hel. assert (ends_line l0 = false) as He0.
  { apply not_true_iff_false. rewrite ends_line_spec. intros (l' & ->). apply not_true_iff_false in Hel. apply Hel, ends_line_spec. by exists (c :: l'). }
  destruct (He He0) as [Hn Hr]. split; [cbn [find_nl]; rewrite (proj2 (Z.eqb_neq c 10)) by done; by rewrite Hn|]. cbn [length]. intros. apply Hr. lia.
Qed.

Context (F : bool).

(** Between two iterations. *)
Record inv (c : context) : Prop := {
  i_size : zlen (data c) < size c;
  i_nul : Forall (λ b, b ≠ 0) (unread (fd c));
  i_fails : fails (fd c) = F;
  i_eof : feof (fd c) = true → F = false ∧ unread (fd c) = [] ∧ need_more_data c = true;
  i_err : ferror (fd c) = true → F = true ∧ unread (fd c) = [] ∧ need_more_data c = true;
  i_mode : if need_more_data c then ∃ d part, data c = d ++ part ∧ complete d ∧ find_nl part = None ∧ waiting (in_comment c) d
           else complete (data c) ∧ in_comment c = true ∧ data c ≠ [] ∧ need_more_space c = false }.

(** What the parser has still to do. *)
Definition rest_of (c : context) m : outcome machine := sspec (in_comment c) m (upto (data c ++ unread (fd c))).
Definition measure (c : context) : nat :=
  4 * length (unread (fd c)) + length (data c) + (if feof (fd c) then 0 else 2) + (if need_more_space c then 0 else 1).

Lemma waits_end_of_file c m : inv c → need_more_data c = true → unread (fd c) = [] → rest_of c m = Ret m.
Proof.
  intros Hi Hn Hu. pose proof (i_mode c Hi) as Hm. rewrite Hn in Hm. destruct Hm as (d & part & Ed & Hd & Hp & Hw). unfold rest_of. rewrite Hu, app_nil_r, Ed.
  rewrite upto_complete, upto_none, app_nil_r by done. by apply waiting_done.
Qed.

(** The buffer with a complete line at its end. *)
Lemma buffer_step c m : complete (data c) → zlen (data c) < size c → Forall (λ b, b ≠ 0) (unread (fd c)) → fails (fd c) = F → feof (fd c) = false → ferror (fd c) = false → need_more_space c = false →
  need_more_data c = false →
  match run_buffer r c m with
  | Ret (c', m') => rest_of c m = rest_of c' m' ∧ (error m' = true ∨ inv c') ∧ feof (fd c') = false ∧ need_more_space c' = false ∧ unread (fd c') = unread (fd c) ∧ (length (data c') ≤ length (data c))%nat ∧
      (in_comment c = true → data c ≠ [] → (length (data c') < length (data c))%nat)
  | Fault => rest_of c m = Fault
  | Exit => rest_of c m = Exit
  end.
Proof.
  intros Hc Hs Hnul Hfa Hf Hfe Hsp Hnd. pose proof (run_buffer_spec c m Hc Hs) as H. unfold rest_of. rewrite upto_complete by done. destruct (run_buffer r c m) as [[c' m']| |]; [|apply H..].
  destruct H as (H1 & H2 & H3 & H4 & H5 & H6 & H7 & H8). rewrite H4, H6. split_and!; try done; [rewrite upto_complete by done; apply H1|].
  destruct H8 as [H8|H8]; [by left|]. right. split; rewrite ?H4, ?H5; try done; [lia|by rewrite Hf|by rewrite Hfe|].
  destruct H8 as [[-> Hw]|(Hn & Hi & Hne)]; [|rewrite Hn, Hnd, H6; by split_and!]. exists (data c'), []. rewrite app_nil_r. by split_and!.
Qed.

Lemma c_str_all l : Forall (λ b, b ≠ 0) l → c_str l = l.
Proof. induction 1 as [|c l Hc _ IH]; [done|]. cbn [c_str]. by rewrite (proj2 (Z.eqb_neq c 0)), IH. Qed.

Definition after_iter (c : context) m (o : outcome (context * machine + machine)) : Prop :=
  match o with
  | Ret (inl (c', m')) => rest_of c m = rest_of c' m' ∧ (error m' = true ∨ inv c') ∧ (measure c' < measure c)%nat
  | Ret (inr m') => F = true ∧ m' = parser_error m ∧ rest_of c m = Ret m
  | Fault => rest_of c m = Fault
  | Exit => rest_of c m = Exit
  end.

(** A line, or a part of one, was read. *)
Lemma read_some c m l u f : inv c → need_more_data c = true → feof (fd c) = false → need_more_space c = false →
  unread (fd c) = l ++ u → unread f = u → fails f = F → (feof f = true → F = false ∧ u = []) → (ferror f = true → F = true ∧ u = []) →
  (zlen (data c) + zlen l < size c) → (l ≠ [] ∨ feof f = false) →
  (ends_line l = true → feof f = false ∧ ferror f = false) → (ends_line l = false → find_nl l = None) →
  ∀ c0, rest_of c0 m = rest_of c m → (l ≠ [] → measure c ≤ S (measure c0))%nat → (l = [] → measure c0 = measure c) →
  after_iter c0 m (d ← filled_add (size c) (data c ++ c_str l);
    if ends_line (c_str l) then '(c, m) ← run_buffer r (Ctx f (size c) d (line c + 1) (in_comment c) (need_more_space c) false) m; Ret (inl (c, m))
    else Ret (inl (Ctx f (size c) d (line c) (in_comment c) true true, m))).
Proof.
  intros Hi Hn Hf Hsp Hu Hu' Hfa Hfeof Hferr Hl Hne Hel Hnl c0 Hrest Hm1 Hm2. pose proof (i_nul c Hi) as Hnul. rewrite Hu in Hnul. apply Forall_app in Hnul as [Hn1 Hn2].
  rewrite c_str_all by done. unfold filled_add. rewrite (proj2 (Z.ltb_lt _ _)), bind_Ret by (rewrite length_app; lia).
  pose proof (i_mode c Hi) as Hmode. rewrite Hn in Hmode. destruct Hmode as (d & part & Ed & Hd & Hp & Hw).
  assert (Hr : rest_of c m = sspec (in_comment c) m (upto ((data c ++ l) ++ u))) by (unfold rest_of; by rewrite Hu, app_assoc).
  destruct (ends_line l) eqn:El.
  - destruct (Hel eq_refl) as [Hf1 Hf2]. set (c1 := Ctx f (size c) (data c ++ l) (line c + 1) (in_comment c) (need_more_space c) false).
    assert (Hc1 : complete (data c1)). { right. apply ends_line_spec in El as (l' & ->). exists (data c ++ l'). cbn. by rewrite app_assoc. }
    pose proof (buffer_step c1 m Hc1 ltac:(cbn; rewrite length_app; lia) ltac:(cbn; by rewrite Hu') Hfa Hf1 Hf2 Hsp eq_refl) as H.
    assert (Hr1 : rest_of c0 m = rest_of c1 m) by (rewrite Hrest, Hr; unfold rest_of; cbn; by rewrite Hu').
    destruct (run_buffer r c1 m) as [[c2 m2]| |]; [|cbn; congruence..]. rewrite bind_Ret. cbn [after_iter]. destruct H as (H1 & H2 & H3 & H4 & H5 & H6 & _). split_and!; [congruence|done|].
    assert (l ≠ []) as Hl0 by (by intros ->). specialize (Hm1 Hl0). unfold measure in *. rewrite H3, H4, H5. cbn [unread fd c1]. rewrite Hu'. rewrite Hu, Hf, Hsp in Hm1. cbn [data c1] in H6. rewrite length_app in *.
    assert (length l ≠ 0)%nat by (by destruct l). lia.
  - specialize (Hnl eq_refl). cbn [after_iter]. split_and!.
    + rewrite Hrest, Hr. unfold rest_of. cbn. by rewrite Hu'.
    + right. split; cbn [data size fd unread need_more_data in_comment need_more_space]; rewrite ?Hu'; try done; [rewrite length_app; lia|intros E; destruct (Hfeof E); by split_and!|intros E; destruct (Hferr E); by split_and!|].
      exists d, (part ++ l). rewrite Ed, app_assoc. split_and!; try done. rewrite find_nl_none by done. by rewrite Hnl.
    + unfold measure in *. cbn [unread fd data feof need_more_space]. rewrite Hu', length_app. rewrite Hu, Hf, Hsp, length_app in Hm1, Hm2. destruct (decide (l = [])) as [->|Hl0].
      * destruct Hne as [?|Hne]; [done|]. rewrite Hne. specialize (Hm2 eq_refl). cbn [length] in *. lia.
      * assert (length l ≠ 0)%nat by (by destruct l). specialize (Hm1 Hl0). destruct (feof f); lia.
Qed.

Definition grown (c : context) : context :=
  if need_more_space c then Ctx (fd c) (size c * 2) (data c) (line c) (in_comment c) false (need_more_data c) else c.
Lemma grown_inv c : inv c → inv (grown c) ∧ need_more_space (grown c) = false.
Proof.
  intros Hi. unfold grown. destruct (need_more_space c) eqn:E; [|by split]. split; [|done]. pose proof Hi as [H1 H2 H3 H4 H5 H6]. split; try done; [cbn; lia|].
  cbn [need_more_data data in_comment need_more_space]. destruct (need_more_data c); [done|]. destruct H6 as (? & ? & ? & ?). by split_and!.
Qed.

Lemma iter_spec c m : inv c → feof (fd c) = false → after_iter c m (parser_iter r c m).
Proof.
  intros Hi Hf. unfold parser_iter. rewrite assert_true, bind_Ret by (apply Z.ltb_lt, (i_size c Hi)). fold (grown c). destruct (grown_inv c Hi) as [Hg Hgs].
  assert (Hgeq : fd (grown c) = fd c ∧ data (grown c) = data c ∧ in_comment (grown c) = in_comment c ∧ need_more_data (grown c) = need_more_data c) by (unfold grown; by destruct (need_more_space c)).
  destruct Hgeq as (G1 & G2 & G3 & G4). assert (Hrest : rest_of c m = rest_of (grown c) m) by (unfold rest_of; by rewrite G1, G2, G3).
  assert (Hmeas : (measure (grown c) ≤ S (measure c))%nat) by (unfold measure; rewrite G1, G2, Hgs; destruct (need_more_space c); lia).
  assert (Hsz : zlen (data c) < size (grown c) ∧ (need_more_space c = true → zlen (data c) + 1 < size (grown c))).
  { pose proof (i_size c Hi). unfold grown. destruct (need_more_space c); cbn [size]; split; try done; lia. }
  rewrite G4. destruct (need_more_data c) eqn:En.
  2: { pose proof (i_mode c Hi) as Hm. rewrite En in Hm. destruct Hm as (Hc & Hcom & Hne & Hsp). assert (Eg : grown c = c) by (unfold grown; by rewrite Hsp). rewrite Eg in *.
       assert (Hfe : ferror (fd c) = false) by (destruct (ferror (fd c)) eqn:E; [|done]; destruct (i_err c Hi E) as (_ & _ & ?); congruence).
       pose proof (buffer_step c m Hc (i_size c Hi) (i_nul c Hi) (i_fails c Hi) Hf Hfe Hsp En) as H. destruct (run_buffer r c m) as [[c' m']| |]; [|done..].
       rewrite bind_Ret. destruct H as (H1 & H2 & H3 & H4 & H5 & _ & H6). split_and!; [done|done|]. specialize (H6 Hcom Hne). unfold measure. rewrite H3, H4, H5, Hf, Hsp. lia. }
  rewrite G1, G2. unfold fgets. destruct (Z.to_nat (size (grown c) - zlen (data c) - 1)) as [|k] eqn:Ek.
  { assert (Eg : grown c = c). { unfold grown. destruct (need_more_space c) eqn:E; [|done]. destruct Hsz as [_ Hsz]. specialize (Hsz eq_refl). lia. } rewrite Eg in *.
    pose proof (read_some c m [] (unread (fd c)) (fd c) Hi En Hf Hgs eq_refl eq_refl (i_fails c Hi)) as H. apply H; try done.
    - intros E. by rewrite Hf in E.
    - intros E. destruct (i_err c Hi E) as (? & ? & _). done.
    - cbn; lia.
    - by right. }
  destruct (take_line (S k) (unread (fd c))) as [l rest] eqn:El. destruct (take_line_spec _ _ _ _ El) as (Eu & Hlk & Hend). set (at_end := (length l <? S k)%nat && negb (ends_line l)).
  assert (Hend' : at_end = true → rest = []).
  { unfold at_end. intros [Hlt%Nat.ltb_lt He%negb_true_iff]%andb_true_iff. by apply (Hend He). }
  destruct l as [|b l].
  - assert (Er : rest = []) by (apply Hend'; done). subst rest. cbn [app] in Eu. cbn [ferror feof]. change at_end with true. rewrite (i_fails c Hi), !andb_true_l. destruct F eqn:EF.
    + rewrite orb_true_r. cbn [after_iter]. split_and!; [done..|]. by apply waits_end_of_file.
    + destruct (ferror (fd c)) eqn:Efe; [destruct (i_err c Hi Efe) as (? & _); congruence|]. cbn [orb]. rewrite Hf. cbn [orb negb]. cbn [after_iter]. split_and!.
      * rewrite Hrest. unfold rest_of. cbn [in_comment data fd unread]. by rewrite G1, G2, Eu.
      * right. pose proof Hg as [g1 g2 g3 g4 g5 g6]. split; cbn [data size fd unread fails feof ferror need_more_data in_comment need_more_space]; try done.
        -- lia.
        -- rewrite G2, G4 in g6. done.
      * unfold measure. cbn [unread fd data feof need_more_space]. rewrite Eu, Hf, Hgs. cbn [length]. destruct (need_more_space c); lia.
  - set (f := File rest _ _ _).
    pose proof (read_some (grown c) m (b :: l) rest f Hg ltac:(by rewrite G4) ltac:(by rewrite G1) Hgs ltac:(by rewrite G1) eq_refl (i_fails c Hi)) as H. rewrite G2, Hgs, G3 in H. rewrite G3, Hgs. apply H; clear H.
    + cbn [feof f]. rewrite Hf, (i_fails c Hi). cbn [orb]. intros [Ha Hb%negb_true_iff]%andb_true_iff. split; [done|by apply Hend'].
    + cbn [ferror f]. rewrite (i_fails c Hi). intros [E|[Ha Hb]%andb_true_iff]%orb_true_iff; [|by split; [|apply Hend']]. destruct (i_err c Hi E) as (? & Hu & _). by rewrite Hu in Eu.
    + lia.
    + by left.
    + intros He. cbn [feof ferror f]. unfold at_end. rewrite He, Hf. cbn [negb]. rewrite andb_false_r. cbn [andb orb]. split; [done|].
      destruct (ferror (fd c)) eqn:E; [|done]. destruct (i_err c Hi E) as (_ & Hu & _). by rewrite Hu in Eu.
    + intros He. by apply Hend.
    + done.
    + intros _. done.
    + done.
Qed.

Definition finish (o : outcome machine) : outcome (machine + machine) :=
  m ← o; Ret (if error m then inl m else if F then inr (parser_error m) else inl m).
Lemma loop_spec fuel c m : error m = true ∨ inv c → (measure c < fuel)%nat → parser_loop fuel r c m = finish (rest_of c m).
Proof.
  revert c m. induction fuel as [|fuel IH]; intros c m Hi Hf; [lia|]. cbn [parser_loop]. destruct (error m) eqn:Ee.
  { cbn [orb]. unfold rest_of. rewrite sspec_error by done. unfold finish. by rewrite bind_Ret, Ee. }
  destruct Hi as [?|Hi]; [done|]. destruct (feof (fd c)) eqn:Efe; cbn [orb].
  { destruct (i_eof c Hi Efe) as (HF & Hu & Hn). rewrite waits_end_of_file by done. unfold finish. by rewrite bind_Ret, Ee, HF. }
  pose proof (iter_spec c m Hi Efe) as H. unfold after_iter in H. destruct (parser_iter r c m) as [[[c' m']|m']| |]; [| |by rewrite H..]; rewrite bind_Ret.
  - destruct H as (-> & Hi' & Hm). apply IH; [done|lia].
  - destruct H as (HF & -> & ->). unfold finish. by rewrite bind_Ret, Ee, HF.
Qed.
End Run.

Lemma parser_error_id {A W} (m : @machine A W) : error m = true → parser_error m = m.
Proof. destruct m. cbn. by intros ->. Qed.
Lemma parser_end_error {A W} (m : @machine A W) : error m = true → parser_end m = m.
Proof. intros E. unfold parser_end. repeat case_match; auto using parser_error_id. Qed.

Lemma run_spec {A W} `{!ConfStore A W} r (m : @machine A W) text fails fuel :
  Forall (λ b, b ≠ 0) text → error m = false → (4 * length text + 4 ≤ fuel)%nat →
  parser_run fuel r (parser_start (File text fails false false)) m =
  (m' ← srun r m (upto text);
   let m' := if fails then parser_error m' else parser_end m' in Ret (if error m' then -1 else 0, m')).
Proof.
  intros Hn He Hf. unfold parser_run. rewrite (loop_spec r fails).
  - unfold rest_of, finish. cbn [in_comment data fd unread parser_start app sspec]. destruct (srun r m (upto text)) as [m'| |]; [|done..]. rewrite !bind_Ret.
    destruct (error m') eqn:E; [|by destruct fails]. rewrite parser_end_error, parser_error_id by done. by destruct fails; rewrite E.
  - right. split; try done. exists [], []. split_and!; [done|by left|done|done].
  - unfold measure. cbn. lia.
Qed.

(** C12: [parser_run] understands a configuration file as a sequence of tokens,
    whatever its lines and its buffer.  For every file without NUL bytes, all
    sections and callbacks, and every result of the resolver: the parser never
    leaves its buffer, which doubles when a line does not fit; it ends; and it does
    exactly what the machine does on the tokens of the complete lines of the text,
    with the same errors, assignments and callbacks in the same order, comments
    left out.  It returns 0 if there was no error, no read error and nothing was
    left open, and -1 otherwise.  A last line without a line feed, and a string
    that is not closed, are ignored. *)
Theorem parser_run_refines {A W} `{!ConfStore A W} r (m : @machine A W) text fails fuel :
  Forall (λ b, b ≠ 0) text → error m = false → (4 * length text + 4 ≤ fuel)%nat →
  parser_run fuel r (parser_start (File text fails false false)) m =
  (m' ← srun r m (upto text);
   let m' := if fails then parser_error m' else parser_end m' in Ret (if error m' then -1 else 0, m')).
Proof. apply run_spec. Qed.
