(* ===== verification/ParserPrint.v ===== *)
(** * redsocks: writing a configuration

    A configuration is a list of sections with their assignments.  It is printed
    as text, and the parser does on the text what the configuration says.  The
    configuration file of the application is an instance. *)
From S2P Require Import Prelude Encrypt Base64 Md5 HttpAuth Redsocks Handshake HttpConnect HttpConnectSpec Parser ParserSpec RedsocksConf.
#[local] Open Scope Z_scope.

(** ** Tokens in writing *)
Definition word_char (c : Z) : bool := isalnum c || (c =? 95) || (c =? 46) || (c =? 45).
Definition number_char (c : Z) : bool := isdigit c || (c =? 46).
Definition word_token (t : list Z) : bool := match t with c :: _ => isalpha c && forallb word_char t | [] => false end.
Definition number_token (t : list Z) : bool := match t with c :: _ => isdigit c && forallb number_char t | [] => false end.
Definition escape (c : Z) : list Z := if (c =? 34) || (c =? 92) then [92; c] else [c].
Definition quote (t : list Z) : list Z := 34 :: flat_map escape t ++ [34].
Definition print_token (t : list Z) : list Z := if word_token t || number_token t then t else quote t.

(** Quotes do not make a difference to these. *)
Definition punctuation : list (list Z) := map bytes ["{"; "}"; "="; ";"; "//"; "/*"]%string.
Definition ordinary (t : list Z) : bool := negb (existsb (λ p, bool_decide (t = p)) punctuation) && forallb (λ c, negb (c =? 0)) t.

Record block := Block { b_name : list Z; b_items : list (list Z * list Z) }.
Definition print_item (i : list Z * list Z) : list Z := bytes " " ++ print_token i.1 ++ bytes " = " ++ print_token i.2 ++ bytes ";" ++ [LF].
Definition print_items (l : list (list Z * list Z)) : list Z := concat (map print_item l).
Definition print_block (b : block) : list Z := print_token (b_name b) ++ bytes " {" ++ [LF] ++ print_items (b_items b) ++ bytes "}" ++ [LF].
Definition print_config (l : list block) : list Z := concat (map print_block l).

Definition ordinary_item (i : list Z * list Z) : bool := ordinary i.1 && ordinary i.2.
Definition ordinary_block (b : block) : bool := ordinary (b_name b) && forallb ordinary_item (b_items b).

(** ** Reading them back *)
Definition delimiter (c : Z) : Prop := c = 32 ∨ c = 59.

Lemma read_quote t x : read_quoted (flat_map escape t ++ 34 :: x) = QText t x.
Proof.
  induction t as [|c t IH]; [done|]. cbn [flat_map]. assert (Ec : escape c = if (c =? 34) || (c =? 92) then [92; c] else [c]) by done. rewrite Ec. clear Ec. destruct (Z.eqb_spec c 34) as [->|H34]; cbn [orb].
  - cbn [app read_quoted Z.eqb Pos.eqb]. by rewrite IH.
  - destruct (Z.eqb_spec c 92) as [->|H92]; cbn [app read_quoted Z.eqb Pos.eqb]; [by rewrite IH|]. rewrite (proj2 (Z.eqb_neq c 34)), (proj2 (Z.eqb_neq c 92)) by done. by rewrite IH.
Qed.
Lemma word_scan t d x : forallb word_char t = true → delimiter d → word_length (t ++ d :: x) = SLen (length t).
Proof.
  intros Ht Hd. induction t as [|c t IH]; cbn [app word_length length]; [by destruct Hd as [-> | ->]|]. cbn [forallb] in Ht. apply andb_true_iff in Ht as [Hc Ht]. unfold word_char in Hc. rewrite Hc. by rewrite IH.
Qed.
Lemma number_scan t d x : forallb number_char t = true → delimiter d → number_length (t ++ d :: x) = SLen (length t).
Proof.
  intros Ht Hd. induction t as [|c t IH]; cbn [app number_length length]; [by destruct Hd as [-> | ->]|]. cbn [forallb] in Ht. apply andb_true_iff in Ht as [Hc Ht]. unfold number_char in Hc. rewrite Hc. by rewrite IH.
Qed.
Lemma alpha_class c : isalpha c = true → isspace c = false ∧ (c =? 34) = false ∧ isdigit c = false.
Proof. unfold isalpha, isspace, isdigit. intros H. bool_hyps. lia. Qed.
Lemma digit_class c : isdigit c = true → isspace c = false ∧ (c =? 34) = false.
Proof. unfold isdigit, isspace. intros H. bool_hyps. lia. Qed.

Lemma lex_print t d x : delimiter d → lex (print_token t ++ d :: x) = Tok t (d :: x).
Proof.
  intros Hd. unfold print_token. destruct (word_token t) eqn:Ew; [|destruct (number_token t) eqn:En]; cbn [orb].
  - destruct t as [|c t]; [done|]. cbn [word_token] in Ew. apply andb_true_iff in Ew as [Hc Ht]. destruct (alpha_class c Hc) as (H1 & H2 & H3). unfold lex. cbn [app]. rewrite skip_nonspace by done.
    rewrite H2, H3, Hc. change (c :: t ++ d :: x) with ((c :: t) ++ d :: x). rewrite (word_scan _ d x Ht Hd). cbn [plain_token]. by rewrite take_app_length, drop_app_length.
  - destruct t as [|c t]; [done|]. cbn [number_token] in En. apply andb_true_iff in En as [Hc Ht]. destruct (digit_class c Hc) as (H1 & H2). unfold lex. cbn [app]. rewrite skip_nonspace by done.
    rewrite H2, Hc. change (c :: t ++ d :: x) with ((c :: t) ++ d :: x). rewrite (number_scan _ d x Ht Hd). cbn [plain_token]. by rewrite take_app_length, drop_app_length.
  - unfold quote, lex. cbn [app]. rewrite skip_nonspace by done. cbn [Z.eqb Pos.eqb]. rewrite <- app_assoc. cbn [app]. by rewrite read_quote.
Qed.
Lemma lex_space c s : isspace c = true → lex (c :: s) = lex s.
Proof. intros H. unfold lex. change (c :: s) with ([c] ++ s). rewrite skip_spaces; [done|]. by constructor. Qed.
Lemma lex_punct c s : c ∈ [123; 125; 61; 59] → lex (c :: s) = Tok [c] s.
Proof. rewrite !elem_of_cons, elem_of_nil. by intros [->|[->|[->|[->|[]]]]]. Qed.

Section Print.
Context {A W : Type} `{!ConfStore A W} (r : resolver).
Abbreviation machine := (@machine A W).
Implicit Types m : machine.

(** What a configuration does. *)
Fixpoint run_items m (l : list (list Z * list Z)) : outcome machine :=
  match l with
  | [] => Ret m
  | (k, v) :: l => if error m then Ret m else m ← assign r (set_value_token (Some v) (set_key_token (Some k) m)); run_items m l
  end.
Definition run_block m (b : block) : outcome machine :=
  m ← open_section (set_section_token (Some (b_name b)) m);
  m ← run_items m (b_items b);
  if error m then Ret m else close_section m.
Fixpoint run_blocks m (l : list block) : outcome machine :=
  match l with [] => Ret m | b :: l => if error m then Ret m else m ← run_block m b; run_blocks m l end.

(** The machine between two sections, and inside one. *)
Definition idle m : Prop := section m = None ∧ section_token m = None ∧ key_token m = None ∧ value_token m = None.
Definition inside m : Prop := (∃ i, section m = Some i) ∧ section_token m = None ∧ key_token m = None ∧ value_token m = None.

Lemma srun_space m c s : isspace c = true → srun r m (c :: s) = srun r m s.
Proof. intros H. rewrite !srun_step. by rewrite lex_space. Qed.
Lemma srun_punct m c s : error m = false → c ∈ [123; 125; 61; 59] → srun r m (c :: s) = (m ← token_step r [c] m; srun r m s).
Proof.
  intros He Hc. rewrite srun_step, He, lex_punct by done. rewrite !bool_decide_false; [done|..]; rewrite !elem_of_cons, elem_of_nil in Hc; by destruct Hc as [->|[->|[->|[->|[]]]]].
Qed.
Lemma ordinary_not t p : ordinary t = true → p ∈ punctuation → t ≠ p.
Proof.
  unfold ordinary. intros [H _]%andb_true_iff Hp ->. apply negb_true_iff in H. rewrite <- not_true_iff_false, existsb_exists in H. apply H. exists p. split; [by apply list_elem_of_In|]. by apply bool_decide_true.
Qed.
Lemma srun_token m t d x : error m = false → ordinary t = true → delimiter d → srun r m (print_token t ++ d :: x) = srun r (word t m) (d :: x).
Proof.
  intros He Ho Hd. rewrite srun_step, He, lex_print by done. assert (Hp : ∀ p, p ∈ punctuation → bool_decide (t = p) = false) by (intros p Hp; apply bool_decide_false; by eapply ordinary_not).
  unfold token_step. rewrite !Hp by (unfold punctuation; cbn [map]; rewrite !elem_of_cons; tauto). done.
Qed.

(** What the steps leave. *)
Lemma run_callback_frame cb i s m m' : run_callback cb i s m = Ret m' →
  section m' = section m ∧ section_token m' = section_token m ∧ key_token m' = key_token m ∧ value_token m' = value_token m.
Proof.
  unfold run_callback. destruct cb as [cb|]; [|by intros [= <-]]. destruct (cb (entries s) (world m)) as [[[[x err] es] w]| |]; [|done..]. rewrite bind_Ret. intros [= <-]. by destruct (err || (x =? -1)).
Qed.
Lemma open_inside m n m' : section m = None → key_token m = None → value_token m = None → open_section (set_section_token (Some n) m) = Ret m' → error m' = true ∨ inside m'.
Proof.
  intros H1 H2 H3. unfold open_section. change (section (set_section_token (Some n) m)) with (section m). cbn [section_token set_section_token]. rewrite H1. change (sections (set_section_token (Some n) m)) with (sections m). destruct (find_section n (sections m)) as [i|].
  - change (sections (set_section (Some i) (set_section_token (Some n) m))) with (sections m). destruct (sections m !! i) as [s|]; [|discriminate]. destruct (run_callback _ _ _ _) as [m2| |] eqn:E; [|discriminate..]. rewrite bind_Ret. intros [= <-]. right.
    apply run_callback_frame in E as (E1 & E2 & E3 & E4). split_and!; [exists i; exact E1|done|by cbn; rewrite E3|by cbn; rewrite E4].
  - rewrite bind_Ret. intros [= <-]. by left.
Qed.
Lemma assign_inside m m' : (∃ i, section m = Some i) → section_token m = None → assign r m = Ret m' → inside m'.
Proof.
  intros [i Hi] Ht. unfold assign. rewrite Hi. intros (m2 & H & [= <-])%bind_Ret_inv. assert (section m2 = Some i ∧ section_token m2 = None) as [E1 E2]; [|by split_and!; [exists i|..]].
  destruct (key_token m); [|done]. destruct (value_token m); [|injection H as <-; by split]. destruct (sections m !! i) as [s|]; [|done]. destruct (find_entry _ _) as [e|]; [|injection H as <-; by split].
  destruct (value_parser_by_type r (type e) _) as [[vs ok]| |]; [|done..]. rewrite bind_Ret in H. apply bind_Ret_inv in H as (w & _ & [= <-]). by destruct ok.
Qed.
Lemma close_idle m m' : inside m → close_section m = Ret m' → idle m'.
Proof.
  intros ([i Hi] & H1 & H2 & H3). unfold close_section. rewrite Hi. intros (m2 & H & [= <-])%bind_Ret_inv. destruct (sections m !! i) as [s|]; [|done]. apply run_callback_frame in H as (E1 & E2 & E3 & E4).
  unfold idle. cbn. rewrite E2, E3, E4. done.
Qed.

(** One assignment. *)
Lemma srun_item m i x : error m = false → inside m → ordinary_item i = true →
  srun r m (print_item i ++ x) = (m ← assign r (set_value_token (Some i.2) (set_key_token (Some i.1) m)); srun r m x).
Proof.
  intros He ([j Hj] & Ht & Hk & Hv) Ho. destruct i as [k v]. unfold ordinary_item in Ho. cbn [fst snd] in *. apply andb_true_iff in Ho as [Ok Ov]. unfold print_item. cbn [fst snd]. change (bytes " ") with [32]. change (bytes " = ") with [32; 61; 32]. change (bytes ";") with [59].
  rewrite <- !app_assoc. cbn [app]. rewrite srun_space by done. rewrite srun_token by (try done; by left). unfold word. rewrite Hj, Hk. set (m1 := set_key_token (Some k) m).
  rewrite srun_space by done. rewrite srun_punct by (try done; rewrite !elem_of_cons; tauto). replace (token_step r [61] m1) with (Ret m1) by (unfold token_step; rewrite !bool_decide_false by done; rewrite bool_decide_true by done; cbn; by rewrite Hj).
  rewrite bind_Ret, srun_space by done. rewrite srun_token by (try done; by right). unfold word. cbn [section section_token key_token value_token m1 set_key_token]. rewrite Hj, Hv.
  set (m2 := set_value_token (Some v) m1). rewrite srun_punct by (try done; rewrite !elem_of_cons; tauto). replace (token_step r [59] m2) with (assign r m2) by (unfold token_step; rewrite !bool_decide_false by done; by rewrite bool_decide_true).
  destruct (assign r m2) as [m3| |]; [|done..]. rewrite !bind_Ret. by apply srun_space.
Qed.
Lemma srun_items m l x : error m = true ∨ inside m → forallb ordinary_item l = true →
  srun r m (print_items l ++ x) = (m ← run_items m l; srun r m x) ∧ (∀ m', run_items m l = Ret m' → error m' = true ∨ inside m').
Proof.
  revert m. induction l as [|[k v] l IH]; intros m Hm Hl; [cbn; split; [done|by intros ? [= <-]]|]. cbn [forallb] in Hl. apply andb_true_iff in Hl as [Hi Hl]. cbn [run_items].
  destruct (error m) eqn:He; [rewrite !bind_Ret; split; [by rewrite !srun_error|intros ? [= <-]; by left]|]. destruct Hm as [?|Hm]; [done|].
  unfold print_items. cbn [map concat]. rewrite <- app_assoc, srun_item by done. cbn [fst snd]. fold (print_items l).
  destruct (assign r (set_value_token (Some v) (set_key_token (Some k) m))) as [m1| |] eqn:E; [|done..]. rewrite !bind_Ret.
  assert (Hin : inside m1) by (eapply assign_inside; [|..|exact E]; [exact (proj1 Hm)|exact (proj1 (proj2 Hm))]). apply IH; [by right|done].
Qed.

(** One section. *)
Lemma srun_block m b x : error m = false → idle m → ordinary_block b = true →
  srun r m (print_block b ++ x) = (m ← run_block m b; srun r m x) ∧ (∀ m', run_block m b = Ret m' → error m' = true ∨ idle m').
Proof.
  intros He (H1 & H2 & H3 & H4) [On Oi]%andb_true_iff. unfold print_block, run_block. change (bytes " {") with [32; 123]. change (bytes "}") with [125]. rewrite <- !app_assoc. cbn [app].
  rewrite srun_token by (try done; by left). unfold word. rewrite H1, H2. set (m1 := set_section_token (Some (b_name b)) m). rewrite srun_space by done. rewrite srun_punct by (try done; rewrite !elem_of_cons; tauto).
  replace (token_step r [123] m1) with (open_section m1) by (unfold token_step; by rewrite bool_decide_true).
  destruct (open_section m1) as [m2| |] eqn:E; [|done..]. rewrite !bind_Ret, srun_space by done.
  destruct (srun_items m2 (b_items b) (125 :: [LF] ++ x)) as [S1 S2]; [by eapply open_inside|done|]. cbn [app] in S1. rewrite S1.
  destruct (run_items m2 (b_items b)) as [m3| |]; [|done..]. rewrite !bind_Ret. destruct (S2 m3 eq_refl) as [Em|Hin].
  - rewrite Em, bind_Ret, !srun_error by done. split; [done|]. intros ? [= <-]. by left.
  - destruct (error m3) eqn:E3; [rewrite bind_Ret, !srun_error by done; split; [done|]; intros ? [= <-]; by left|].
    rewrite srun_punct by (try done; rewrite !elem_of_cons; tauto). replace (token_step r [125] m3) with (close_section m3) by (unfold token_step; rewrite bool_decide_false by done; by rewrite bool_decide_true).
    destruct (close_section m3) as [m4| |] eqn:E4; [|done..]. rewrite !bind_Ret, srun_space by done. split; [done|]. intros ? [= <-]. right. by eapply close_idle.
Qed.
Lemma srun_blocks m l : error m = true ∨ idle m → forallb ordinary_block l = true →
  srun r m (print_config l) = run_blocks m l ∧ (∀ m', run_blocks m l = Ret m' → error m' = true ∨ idle m').
Proof.
  revert m. induction l as [|b l IH]; intros m Hm Hl; [split; [change (print_config []) with (@nil Z); rewrite srun_step; by destruct (error m)|by intros ? [= <-]]|]. cbn [forallb] in Hl. apply andb_true_iff in Hl as [Hb Hl]. cbn [run_blocks].
  destruct (error m) eqn:He; [split; [by rewrite srun_error|intros ? [= <-]; by left]|]. destruct Hm as [?|Hm]; [done|]. unfold print_config. cbn [map concat].
  destruct (srun_block m b (concat (map print_block l)) He Hm Hb) as [S1 S2]. rewrite S1. destruct (run_block m b) as [m1| |]; [|done..]. rewrite !bind_Ret. apply IH; [by apply S2|done].
Qed.
End Print.

(** ** The file *)
Definition no_nul (s : list Z) : Prop := Forall (λ b, b ≠ 0) s.
Lemma escape_nul t : no_nul t → no_nul (flat_map escape t).
Proof. induction 1 as [|c t Hc _ IH]; [constructor|]. cbn [flat_map]. apply Forall_app_2; [|done]. unfold escape. case_match; repeat constructor; done. Qed.
Lemma print_token_nul t : ordinary t = true → no_nul (print_token t).
Proof.
  unfold ordinary. intros [_ Ht]%andb_true_iff. apply forallb_Forall in Ht. assert (H : no_nul t) by (eapply Forall_impl; [|exact Ht]; intros c Hc ->; done).
  unfold print_token. case_match; [done|]. constructor; [done|]. apply Forall_app_2; [by apply escape_nul|by constructor].
Qed.
Lemma print_items_nul l : forallb ordinary_item l = true → no_nul (print_items l).
Proof.
  induction l as [|[k v] l IH]; [constructor|]. cbn [forallb]. intros [[Hk Hv]%andb_true_iff Hl]%andb_true_iff. unfold print_items, print_item, no_nul. cbn [map concat fst snd bytes].
  repeat apply Forall_app_2; try (by repeat constructor); [by apply print_token_nul|by apply print_token_nul|by apply IH].
Qed.
Lemma print_config_nul l : forallb ordinary_block l = true → no_nul (print_config l).
Proof.
  induction l as [|b l IH]; [constructor|]. cbn [forallb]. intros [[Hn Hi]%andb_true_iff Hl]%andb_true_iff. unfold print_config, print_block, no_nul. cbn [map concat].
  repeat apply Forall_app_2; try (by repeat constructor); [by apply print_token_nul|by apply print_items_nul|by apply IH].
Qed.
Lemma print_config_complete l : complete (print_config l).
Proof.
  induction l as [|b l IH]; [by left|]. unfold print_config. cbn [map concat]. apply complete_app; [|done]. right. unfold print_block. eexists. rewrite !app_assoc. reflexivity.
Qed.

Lemma run_printed {A W} `{!ConfStore A W} r (m : @machine A W) l fuel :
  error m = false → idle m → forallb ordinary_block l = true → (4 * length (print_config l) + 4 ≤ fuel)%nat →
  parser_run fuel r (parser_start (File (print_config l) false false false)) m = (m' ← run_blocks r m l; Ret (if error m' then -1 else 0, m')).
Proof.
  intros He Hi Ho Hf. rewrite run_spec by (try done; by apply print_config_nul). replace (upto (print_config l)) with (print_config l).
  2: { rewrite <- (app_nil_r (print_config l)) at 2. rewrite upto_complete by apply print_config_complete. by rewrite app_nil_r. }
  destruct (srun_blocks r m l (or_intror Hi) Ho) as [-> H]. destruct (run_blocks r m l) as [m'| |]; [|done..]. rewrite !bind_Ret. cbn zeta. destruct (H m' eq_refl) as [E|(E1 & E2 & E3 & E4)].
  - by rewrite parser_end_error by done.
  - unfold parser_end. by rewrite E1, E2, E3, E4.
Qed.

(** C32: A configuration that is written to a file is read back: for every list of
    sections with assignments whose names, keys and values are [ordinary],
    [parser_run] on the text does exactly what the list says, in its order: it
    enters each section, stores each value under its key and leaves the section,
    up to the first error; and it returns -1 exactly when there was one.  A token
    is ordinary when it has no NUL and is not one of the six texts, an opening or
    closing brace, an equals sign, a semicolon or one of the two comment starts,
    that the parser takes for punctuation even in quotes ([quoted_semicolon]); it
    is written in quotes where it needs them. *)
Theorem config_roundtrip {A W} `{!ConfStore A W} r (m : @machine A W) l fuel :
  error m = false → idle m → forallb ordinary_block l = true → (4 * length (print_config l) + 4 ≤ fuel)%nat →
  parser_run fuel r (parser_start (File (print_config l) false false false)) m = (m' ← run_blocks r m l; Ret (if error m' then -1 else 0, m')).
Proof. apply run_printed. Qed.

(** ** Numbers and addresses *)
Definition is_digit_char (c : Z) : Prop := 48 ≤ c ≤ 57.
Lemma digit_char_value c : is_digit_char c → digit_value c = c - 48 ∧ isspace c = false ∧ (c =? 45) = false ∧ (c =? 43) = false.
Proof.
  unfold is_digit_char, digit_value, isdigit, isspace. intros H. rewrite (proj2 (Z.leb_le 48 c)), (proj2 (Z.leb_le c 57)) by lia. cbn [andb]. split; [done|].
  rewrite orb_false_iff, andb_false_iff, !Z.eqb_neq, Z.leb_gt, Z.leb_gt. lia.
Qed.
Lemma digits_value fuel n : 0 ≤ n < 10 ^ Z.of_nat fuel → fold_left (λ v d, 10 * v + digit_value d) (digits fuel n) 0 = n.
Proof.
  revert n. induction fuel as [|f IH]; intros n Hn; [cbn in *; lia|]. cbn [digits]. rewrite fold_left_app. cbn [fold_left].
  destruct (digit_char_value (48 + n mod 10)) as [-> _]; [unfold is_digit_char; zdiv|]. destruct (Z.ltb_spec n 10); [cbn [fold_left]; rewrite (Z.mod_small n) by lia; lia|].
  rewrite IH; [zdiv|]. rewrite Nat2Z.inj_succ, Z.pow_succ_r in Hn by lia. zdiv.
Qed.
(** No zero in front. *)
Lemma digits_head fuel n : 0 < n < 10 ^ Z.of_nat fuel → ∃ c q, digits fuel n = c :: q ∧ 49 ≤ c ≤ 57.
Proof.
  revert n. induction fuel as [|f IH]; intros n Hn; [cbn in *; lia|]. cbn [digits]. destruct (Z.ltb_spec n 10); [exists (48 + n), []; rewrite (Z.mod_small n) by lia; split; [done|lia]|].
  destruct (IH (n / 10)) as (c & q & -> & Hc); [rewrite Nat2Z.inj_succ, Z.pow_succ_r in Hn by lia; zdiv|]. by exists c, (q ++ [48 + n mod 10]).
Qed.
Lemma span_digits base l rest : Forall (λ c, digit_value c < base) l → (∀ c q, rest = c :: q → digit_value c = 99) → base ≤ 16 → span (λ c, digit_value c <? base) (l ++ rest) = (l, rest).
Proof.
  intros Hl Hr Hb. apply span_app; [eapply Forall_impl; [|exact Hl]; intros c Hc; by apply Z.ltb_lt|]. intros c q E. rewrite (Hr c q E). apply Z.ltb_ge. lia.
Qed.

Lemma strtoul_print n rest : 0 ≤ n < 2 ^ 64 → (∀ c q, rest = c :: q → digit_value c = 99) → strtoul (print_u n ++ rest) = (n, rest).
Proof.
  intros Hn Hr. assert (Hd : Forall (λ c, digit_value c < 10) (print_u n)).
  { eapply Forall_impl; [|apply print_u_digits; lia]. intros c Hc. cbv beta in Hc |- *. destruct (digit_char_value c Hc) as [-> _]. lia. }
  destruct (Z.eq_dec n 0) as [->|Hn0].
  - change (print_u 0) with [48]. unfold strtoul. cbn [app]. rewrite skip_nonspace by done. cbn [Z.eqb Pos.eqb].
    assert (E8 : number_base (48 :: rest) = (8, 48 :: rest)).
    { unfold number_base. destruct rest as [|x [|h q]]; [done|done|]. specialize (Hr x _ eq_refl). cbn [Z.eqb Pos.eqb andb]. destruct (Z.eqb_spec x 120) as [->|]; [done|]. by destruct (Z.eqb_spec x 88) as [->|]. }
    rewrite E8. pose proof (span_digits 8 [48] rest) as Hs. cbn [app] in Hs. rewrite Hs by (try done; by constructor). done.
  - destruct (digits_head 20 n) as (c & q & Ec & Hc); [cbn; lia|]. fold (print_u n) in Ec. destruct (digit_char_value c) as (V1 & V2 & V3 & V4); [unfold is_digit_char; lia|].
    unfold strtoul. rewrite Ec. cbn [app]. rewrite skip_nonspace by done. rewrite V3, V4.
    assert (E10 : number_base (c :: q ++ rest) = (10, c :: q ++ rest)).
    { unfold number_base. rewrite (proj2 (Z.eqb_neq c 48)) by lia. by destruct (q ++ rest) as [|? [|]]. }
    rewrite E10. rewrite Ec in Hd. pose proof (span_digits 10 (c :: q) rest Hd Hr ltac:(lia)) as Hs. cbn [app] in Hs. rewrite Hs.
    assert (Hv : fold_left (λ v d, 10 * v + digit_value d) (c :: q) 0 = n) by (rewrite <- Ec; apply digits_value; cbn; lia). cbv zeta. rewrite Hv. unfold ULONG_MAX. rewrite (proj2 (Z.ltb_ge _ _)) by lia. done.
Qed.
Lemma uint16_print n : 0 ≤ n < 65536 → vp_uint16 (print_u n) = Some n.
Proof.
  intros Hn. unfold vp_uint16. pose proof (strtoul_print n [] ltac:(lia) ltac:(done)) as H. rewrite app_nil_r in H. rewrite H. rewrite (proj2 (Z.ltb_ge _ _)) by lia. by rewrite u16_small.
Qed.

Lemma print_u_nonempty n : print_u n ≠ [].
Proof. unfold print_u. cbn [digits]. intros E. by apply app_eq_nil in E as [_ ?]. Qed.
Lemma aton_part k n rest : 0 ≤ n < 256 → aton_parts (S k) (print_u n ++ 46 :: rest) = match aton_parts k rest with Some vs => Some (n :: vs) | None => None end.
Proof.
  intros Hn. cbn [aton_parts]. rewrite strtoul_print by (try lia; by intros ? ? [= <- _]). rewrite bool_decide_false; [done|]. intros E. apply (f_equal length) in E. rewrite length_app in E.
  pose proof (print_u_nonempty n). destruct (print_u n); [done|]. cbn [length] in E. lia.
Qed.
Lemma aton_last k n : 0 ≤ n < 256 → aton_parts (S k) (print_u n) = Some [n].
Proof.
  intros Hn. cbn [aton_parts]. pose proof (strtoul_print n [] ltac:(lia) ltac:(done)) as H. rewrite app_nil_r in H. rewrite H. rewrite bool_decide_false; [done|]. intros E. by apply (print_u_nonempty n).
Qed.
Lemma aton_dotted a b c d : 0 ≤ a < 256 → 0 ≤ b < 256 → 0 ≤ c < 256 → 0 ≤ d < 256 → inet_aton (dotted [a; b; c; d]) = Some (2 ^ 24 * a + 2 ^ 16 * b + 2 ^ 8 * c + d).
Proof.
  intros Ha Hb Hc Hd. unfold inet_aton, dotted. change (bytes ".") with [46]. cbn [app]. rewrite !aton_part, aton_last by done.
  by rewrite (proj2 (Z.ltb_lt a 256)), (proj2 (Z.ltb_lt b 256)), (proj2 (Z.ltb_lt c 256)), (proj2 (Z.ltb_lt d 256)) by lia.
Qed.

(** ** The configuration of the application

    The file that TransproxyService.kt writes. *)
Definition app_config (listen : list Z) (transproxy proxy : Z) : list block :=
  let item k v := (bytes k, v) in
  [Block (bytes "base") [item "log_debug" (bytes "off"); item "log_info" (bytes "off"); item "log" (bytes "stderr"); item "daemon" (bytes "off"); item "redirector" (bytes "iptables")]%string;
   Block (bytes "redsocks") [item "local_ip" (dotted listen); item "local_port" (print_u transproxy); item "ip" (bytes "127.0.0.1"); item "port" (print_u proxy); item "type" (bytes "socks5")]%string].

(** Lines of text, with apostrophes for quotes. *)
Definition quotes (s : string) : list Z := map (λ c, if c =? 39 then 34 else c) (bytes s).
Definition file_lines (l : list string) : list Z := concat (map (λ s, quotes s ++ [LF]) l).
Example app_text : print_config (app_config [127; 0; 0; 1] 8200 1080) =
  file_lines ["base {"; " log_debug = off;"; " log_info = off;"; " log = stderr;"; " daemon = off;"; " redirector = iptables;"; "}";
              "redsocks {"; " local_ip = 127.0.0.1;"; " local_port = 8200;"; " ip = 127.0.0.1;"; " port = 1080;"; " type = socks5;"; "}"]%string.
Proof. vm_compute. reflexivity. Qed.

(** What the assignment of a known key does. *)
Lemma assign_known {A W} `{!ConfStore A W} r (m : @machine A W) i s e k v vs w : section m = Some i → sections m !! i = Some s → find_entry k (entries s) = Some e →
  value_parser_by_type r (type e) v = Ret (vs, true) → store_all (addr e) vs (world m) = Ret w →
  assign r (set_value_token (Some v) (set_key_token (Some k) m)) = Ret (set_value_token None (set_key_token None (set_world w (set_value_token (Some v) (set_key_token (Some k) m))))).
Proof. intros H1 H2 H3 H4 H5. unfold assign. cbn [section key_token value_token sections world set_value_token set_key_token]. by rewrite H1, H2, H3, H4, bind_Ret, H5. Qed.

(** The machine inside the section of redsocks, with an instance read so far. *)
Definition in_redsocks (uname : option (list Z)) (b : base_instance) (i : redsocks_config) : @machine conf_addr conf_world :=
  Machine false [base_conf_section; Sect (bytes "redsocks") (Some (redsocks_onenter uname)) (Some redsocks_onexit) (map (λ e, Entry (key e) (type e) (ARed <$> field_of_key (key e))) redsocks_entries)]
    (Some 1%nat) None None None (World b (Some i) []).
Lemma red_assign r uname b i k f t v vv i' l : find_entry k (map (λ e, Entry (key e) (type e) (ARed <$> field_of_key (key e))) redsocks_entries) = Some (Entry k t (Some (ARed f))) →
  value_parser_by_type r t v = Ret ([vv], true) → set_red f vv i = Ret i' →
  run_items r (in_redsocks uname b i) ((k, v) :: l) = run_items r (in_redsocks uname b i') l.
Proof.
  intros H1 H2 H3. cbn [run_items error in_redsocks]. rewrite (assign_known r (in_redsocks uname b i) 1 _ _ k v [vv] (World b (Some i') []) eq_refl eq_refl H1); [done|done|].
  cbn [store_all addr fold_left world in_redsocks]. rewrite bind_Ret. unfold conf_store, conf_world_store. cbn [reading_instance]. by rewrite H3.
Qed.

Definition app_base : base_instance := Base true None None None (Some (bytes "iptables")) (Some iptables) (Some (bytes "stderr")) false false false 0 0 0 0 0 7440 60000.
Definition app_instance (uname : option (list Z)) (a b c d lp pp : Z) : redsocks_config :=
  RConf (2 ^ 24 * a + 2 ^ 16 * b + 2 ^ 8 * c + d) (htons lp) INADDR_LOOPBACK (htons pp) (Some (bytes "socks5")) None None SOMAXCONN (is_splice_good uname) DISCLOSE_NONE ONFAIL_CLOSE (Some socks5).

Definition after_base (uname : option (list Z)) : @machine conf_addr conf_world := Machine false (conf_sections uname) None None None None (World app_base None []).
Lemma app_run r uname a b c d lp pp : 0 ≤ a < 256 → 0 ≤ b < 256 → 0 ≤ c < 256 → 0 ≤ d < 256 → 0 ≤ lp < 65536 → 0 ≤ pp < 65536 →
  run_blocks r (main_machine uname) (app_config [a; b; c; d] lp pp) = Ret (Machine false (conf_sections uname) None None None None (World app_base None [app_instance uname a b c d lp pp])).
Proof.
  intros Ha Hb Hc Hd Hlp Hpp. unfold app_config. cbn [run_blocks].
  change (run_block r (main_machine uname) _) with (Ret (after_base uname)). rewrite bind_Ret. cbn [error main_machine after_base]. unfold run_block. cbn [b_name b_items].
  change (open_section _) with (Ret (in_redsocks uname app_base (fresh_instance uname))). rewrite bind_Ret. unfold fresh_instance.
  erewrite (red_assign _ _ _ _ _ f_local_ip pt_in_addr); [|reflexivity|cbn [value_parser_by_type]; unfold vp_in_addr; rewrite aton_dotted by done; reflexivity|reflexivity].
  erewrite (red_assign _ _ _ _ _ f_local_port pt_uint16); [|reflexivity|cbn [value_parser_by_type]; rewrite uint16_print by done; reflexivity|reflexivity].
  erewrite (red_assign _ _ _ _ _ f_ip pt_in_addr); [|reflexivity|reflexivity|reflexivity].
  erewrite (red_assign _ _ _ _ _ f_port pt_uint16); [|reflexivity|cbn [value_parser_by_type]; rewrite uint16_print by done; reflexivity|reflexivity].
  erewrite (red_assign _ _ _ _ _ f_type pt_pchar); [|reflexivity|reflexivity|reflexivity]. cbn [run_items]. rewrite bind_Ret. reflexivity.
Qed.

Lemma ordinary_number t : t ≠ [] → forallb number_char t = true → ordinary t = true.
Proof.
  intros Hne Ht. unfold ordinary. apply andb_true_iff. split.
  - destruct t as [|c t]; [done|]. cbn [forallb] in Ht. apply andb_true_iff in Ht as [Hc _]. apply negb_true_iff, not_true_iff_false. rewrite existsb_exists. intros (p & Hp & Ep%bool_decide_eq_true). subst p.
    apply list_elem_of_In in Hp. unfold punctuation in Hp. cbn [map] in Hp. rewrite !elem_of_cons, elem_of_nil in Hp. destruct Hp as [[= -> _]|[[= -> _]|[[= -> _]|[[= -> _]|[[= -> _]|[[= -> _]|[]]]]]]]; done.
  - apply forallb_forall. intros c Hc. rewrite forallb_forall in Ht. specialize (Ht c Hc). apply negb_true_iff, Z.eqb_neq. by intros ->.
Qed.
Lemma print_u_number n : 0 ≤ n → forallb number_char (print_u n) = true.
Proof.
  intros Hn. apply forallb_forall. intros c Hc. pose proof (print_u_digits n Hn) as H. rewrite Forall_forall in H. specialize (H c Hc). cbv beta in H.
  unfold number_char, isdigit. rewrite (proj2 (Z.leb_le 48 c)), (proj2 (Z.leb_le c 57)) by lia. done.
Qed.
Lemma app_ordinary a b c d lp pp : 0 ≤ a → 0 ≤ b → 0 ≤ c → 0 ≤ d → 0 ≤ lp → 0 ≤ pp → forallb ordinary_block (app_config [a; b; c; d] lp pp) = true.
Proof.
  intros Ha Hb Hc Hd Hlp Hpp.
  assert (Hip : ordinary (dotted [a; b; c; d]) = true).
  { apply ordinary_number; [unfold dotted; intros E; apply app_eq_nil in E as [E _]; by apply (print_u_nonempty a)|]. unfold dotted. change (bytes ".") with [46]. rewrite !forallb_app, !print_u_number by done. done. }
  assert (Hp : ∀ n, 0 ≤ n → ordinary (print_u n) = true) by (intros n Hn; apply ordinary_number; [apply print_u_nonempty|by apply print_u_number]).
  unfold app_config. cbn [forallb]. unfold ordinary_block. cbn [b_name b_items forallb]. unfold ordinary_item. cbn [fst snd]. rewrite Hip, !Hp by done. vm_compute. reflexivity.
Qed.

(** C33: redsocks understands the file that the application writes for it.  For
    every listen address and both ports, whatever the kernel version and the
    resolver: reading it returns 0, the base section asks for iptables and for no
    daemon, and there is exactly one instance, bound to that address and port, with
    a SOCKS5 proxy on the local host at the other port, both ports in network
    order. *)
Theorem app_config_read fuel r uname a b c d lp pp :
  0 ≤ a < 256 → 0 ≤ b < 256 → 0 ≤ c < 256 → 0 ≤ d < 256 → 0 ≤ lp < 65536 → 0 ≤ pp < 65536 →
  (4 * length (print_config (app_config [a; b; c; d] lp pp)) + 4 ≤ fuel)%nat →
  ∃ m, read_config fuel r uname (File (print_config (app_config [a; b; c; d] lp pp)) false false false) = Ret (0, m) ∧
    world m = World app_base None [app_instance uname a b c d lp pp].
Proof.
  intros Ha Hb Hc Hd Hlp Hpp Hf. unfold read_config. rewrite run_printed; [|done|by split_and!|apply app_ordinary; lia|done]. rewrite app_run, bind_Ret by done. by eexists.
Qed.

(** ** Examples *)
Definition no_resolver : resolver := mkres (λ _, None) 0.
Definition linux : option (list Z) := Some (bytes "4.14.186-perf").

Lemma app_config_read_witness : ∃ m, read_config 1200 no_resolver linux (File (print_config (app_config [127; 0; 0; 1] 8200 1080)) false false false) = Ret (0, m) ∧
  instances (world m) = [RConf (127 * 2 ^ 24 + 1) 2080 (127 * 2 ^ 24 + 1) 14340 (Some (bytes "socks5")) None None 128 true DISCLOSE_NONE ONFAIL_CLOSE (Some socks5)].
Proof.
  destruct (app_config_read 1200 no_resolver linux 127 0 0 1 8200 1080) as (m & H1 & H2); [lia..| |].
  - apply Nat.leb_le. vm_compute. reflexivity.
  - exists m. split; [exact H1|]. rewrite H2. vm_compute. reflexivity.
Defined.

(** A text that the buffer of 128 bytes does not hold, with comments. *)
Definition long_text : list Z :=
  file_lines ["base { // the first section"; "  log = /* a comment"; "over lines */ stderr; redirector = 'a long string that is cut by the end of the buffer and continues in the next one, after the buffer has grown to twice its size';"; "}"; "redsocks {"; "type ="; " socks4; }"; "no line feed"]%string.
Lemma parser_run_refines_witness : ∃ m, parser_run 4000 no_resolver (parser_start (File (take (length long_text - 1) long_text) false false false)) (main_machine linux) = Ret (-1, m) ∧
  redirector_name (base (world m)) = Some (bytes "a long string that is cut by the end of the buffer and continues in the next one, after the buffer has grown to twice its size").
Proof.
  rewrite (parser_run_refines no_resolver (main_machine linux) (take (length long_text - 1) long_text) false 4000).
  - eexists. split; [vm_compute; reflexivity|]. vm_compute. reflexivity.
  - vm_compute. repeat (constructor; [discriminate|]). constructor.
  - reflexivity.
  - apply Nat.leb_le. vm_compute. reflexivity.
Defined.

Definition odd_config : list block := [Block (bytes "redsocks") [(bytes "type", bytes "socks5"); (bytes "password", quotes "a 'b' \ c"); (bytes "listenq", bytes "0x10")]].
Lemma config_roundtrip_witness : ∃ m, parser_run 1000 no_resolver (parser_start (File (print_config odd_config) false false false)) (main_machine linux) = Ret (0, m) ∧
  map rpassword (instances (world m)) = [Some (quotes "a 'b' \ c")] ∧ map listenq (instances (world m)) = [16].
Proof.
  rewrite (config_roundtrip no_resolver (main_machine linux) odd_config 1000).
  - eexists. split; [vm_compute; reflexivity|]. split; vm_compute; reflexivity.
  - reflexivity.
  - split; [reflexivity|]. split; [reflexivity|]. split; reflexivity.
  - vm_compute. reflexivity.
  - apply Nat.leb_le. vm_compute. reflexivity.
Defined.

(** A password of one semicolon, in quotes, is taken for the end of the assignment. *)
Example quoted_semicolon : ∃ m, read_config 1000 no_resolver linux (File (file_lines ["redsocks { type = socks5; password = ';'; }"]%string) false false false) = Ret (-1, m).
Proof. eexists. vm_compute. reflexivity. Qed.
(** A semicolon too many fails an assertion. *)
Example stray_semicolon : read_config 1000 no_resolver linux (File (file_lines ["base { redirector = generic;; }"]%string) false false false) = Fault.
Proof. vm_compute. reflexivity. Qed.
(** A file whose last line has no line feed. *)
Example no_final_newline : ∃ m, read_config 1000 no_resolver linux (File (bytes "base { redirector = generic; }") false false false) = Ret (0, m) ∧ configured (base (world m)) = false.
Proof. eexists. vm_compute. split; reflexivity. Qed.
(** A number with a slash that is no mask: the rest of the file is ignored. *)
Example bad_mask_ignored : ∃ m, read_config 1000 no_resolver linux (File (file_lines ["base { redirector = generic; }"; "12/x"; "anything # here"]%string) false false false) = Ret (0, m).
Proof. eexists. vm_compute. reflexivity. Qed.
