(* ===== verification/Pressure.v ===== *)
(** * redsocks: connection pressure

    Models how redsocks.c limits its connections: the count of clients, the
    listeners that are switched off at the limit or when the system has no
    descriptors left, the timer that switches them on again, and the dropping of
    idle connections.  Times are in microseconds; [now] is what [gettimeofday]
    says, which may go backwards. *)
From S2P Require Import Prelude.
#[local] Open Scope Z_scope.

(** From the section [base] of the configuration. *)
Record limits := Limits { conn_limit : Z; idle_limit : Z; backoff_limit : Z }.

Record member := Member { cid : nat; last_event : Z }.
(** An instance: whether its listener is added to the event loop, and its clients. *)
Record listener := Listener { listening : bool; members : list member }.
(** [redsocks_conn], [accept_backoff_ms], [accept_backoff_ev] with its delay if it is
    pending, and [instances]. *)
Record pool := Pool { conn : Z; backoff : Z; timer : option Z; insts : list listener }.

Definition set_conn n (s : pool) : pool := Pool n (backoff s) (timer s) (insts s).
Definition set_backoff n (s : pool) : pool := Pool (conn s) n (timer s) (insts s).
Definition set_timer t (s : pool) : pool := Pool (conn s) (backoff s) t (insts s).
Definition set_insts l (s : pool) : pool := Pool (conn s) (backoff s) (timer s) l.

Section Pressure.
Context (L : limits).

Definition set_listening (b : bool) (s : pool) : pool := set_insts (map (λ i, Listener b (members i)) (insts s)) s.
Definition accept_enable : pool → pool := set_listening true.

Definition conn_pressure_lowered (s : pool) : pool :=
  if conn_limit L <=? conn s then s
  else match timer s with Some _ => accept_enable (set_timer None s) | None => s end.

(** [n] descriptors are closed with success. *)
Definition redsocks_close_internal (n : nat) (s : pool) : pool := Nat.iter n conn_pressure_lowered s.

Definition has_member (id : nat) (i : listener) : bool := existsb (λ c, (cid c =? id)%nat) (members i).
Definition remove_member (id : nat) (i : listener) : listener := Listener (listening i) (List.filter (λ c, negb (cid c =? id)%nat) (members i)).
(** The client leaves its list, if it is on one. *)
Definition redsocks_conn_list_del (id : nat) (s : pool) : pool :=
  let s := if existsb (has_member id) (insts s) then set_insts (map (remove_member id) (insts s)) (set_conn (u32 (conn s - 1)) s) else s in
  conn_pressure_lowered s.
(** The part of [redsocks_drop_client] that is about pressure; [closes] descriptors
    are closed before. *)
Definition drop_member (closes id : nat) (s : pool) : pool := redsocks_conn_list_del id (redsocks_close_internal closes s).

(** What the outside says during a callback: the time, a random number, and how
    many descriptors each client has. *)
Record outside := Outside { now : Z; random : Z; closes : nat → nat }.

Definition max_idle : Z := idle_limit L * 1000000.
Fixpoint drop_idle (e : outside) (cs : list member) (s : pool) (best_next : Z) : pool * Z :=
  match cs with
  | [] => (s, best_next)
  | c :: cs =>
      let idle := now e - last_event c in
      if (idle <=? 0) || (max_idle <=? idle) then drop_idle e cs (drop_member (closes e (cid c)) (cid c) s) 0
      else let delay := max_idle - idle in drop_idle e cs s (if delay <? best_next then delay else best_next)
  end.
(** The lists are walked in their order; dropping a client does not move the others. *)
Definition drop_idle_connections (e : outside) (s : pool) : outcome (pool * Z) :=
  _ ← assert (0 <? idle_limit L);
  Ret (drop_idle e (concat (map members (insts s))) s max_idle).

Definition clamp (v lo hi : Z) : Z := let v := if v <? lo then lo else v in if hi <? v then hi else v.

Definition back_off (e : outside) (next : option Z) (s : pool) : outcome pool :=
  let ms := clamp (u32 (u32 (Z.shiftl (backoff s) 1) + 1)) 1 (backoff_limit L) in
  _ ← assert (negb (ms =? 0));
  let delay := u32 (u32 (random e) mod ms + 1) in
  let tvdelay := delay * 1000 in
  let tvdelay := match next with Some n => if n <? tvdelay then n else tvdelay | None => tvdelay end in
  Ret (set_listening false (set_timer (Some tvdelay) (set_backoff ms s))).
Definition conn_pressure (e : outside) (s : pool) : outcome pool :=
  if negb (idle_limit L =? 0) then
    '(s, next) ← drop_idle_connections e s;
    if next =? 0 then Ret s else back_off e (Some next) s
  else back_off e None s.

(** [socket] fails or not. *)
Definition conn_pressure_ongoing (socket_fails : bool) (s : pool) : bool := (conn_limit L <=? conn s) || socket_fails.
(** The timer has fired: it is not pending any more. *)
Definition redsocks_accept_backoff (e : outside) (socket_fails : bool) (s : pool) : outcome pool :=
  let s := set_timer None s in
  if conn_pressure_ongoing socket_fails s then conn_pressure e s else Ret (accept_enable s).

Definition add_member (i id : nat) (t : Z) (s : pool) : pool := set_insts (alter (λ l, Listener (listening l) (Member id t :: members l)) i (insts s)) s.
Definition redsocks_conn_list_add (e : outside) (i id : nat) (t : Z) (s : pool) : outcome pool :=
  _ ← assert (conn s <? conn_limit L);
  let s := set_conn (u32 (conn s + 1)) (add_member i id t s) in
  if conn_limit L <=? conn s then conn_pressure e s else Ret s.

(** How the calls of [redsocks_accept_client] end: [accept] fails, for want of
    descriptors or not; something fails before the client is allocated, or before it
    is on the list; or it is added to the list, and then reading cannot be enabled,
    the relay cannot be connected after [n] descriptors were closed, or all is well. *)
Inductive accepted := AFails (no_fds : bool) | ASetup (n : nat) | AClient (n m : nat) | AEnableFails (t : Z) (n : nat) | ARelayFails (t : Z) (n m : nat) | ADone (t : Z).

(** [client] is used: it must not have been freed. *)
Definition live (id : nat) (s : pool) : outcome unit := assert (existsb (has_member id) (insts s)).
Definition accept_client (e : outside) (i id : nat) (a : accepted) (s : pool) : outcome pool :=
  _ ← assert (conn s <? conn_limit L);
  match a with
  | AFails no_fds => if no_fds then conn_pressure e s else Ret s
  | ASetup n => Ret (redsocks_close_internal n (set_backoff 0 s))
  | AClient n m => Ret (redsocks_close_internal m (drop_member n id (set_backoff 0 s)))
  | AEnableFails t n =>
      s ← redsocks_conn_list_add e i id t (set_backoff 0 s);
      _ ← live id s; Ret (drop_member n id s)
  | ARelayFails t n m =>
      s ← redsocks_conn_list_add e i id t (set_backoff 0 s);
      _ ← live id s; Ret (drop_member m id (redsocks_close_internal n s))
  | ADone t => s ← redsocks_conn_list_add e i id t (set_backoff 0 s); _ ← live id s; Ret s
  end.

Definition touch (id : nat) (t : Z) (i : listener) : listener := Listener (listening i) (map (λ c, if (cid c =? id)%nat then Member id t else c) (members i)).

(** ** Events

    A connection arrives at listener [i], which must be on; the timer fires, if it is
    pending; a client shows activity, is dropped, or closes some descriptors. *)
Inductive event := EAccept (e : outside) (i id : nat) (a : accepted) | ETimer (e : outside) (socket_fails : bool) | ETouch (id : nat) (t : Z) | EDrop (n id : nat) | EClose (n : nat).
Definition pstep (ev : event) (s : pool) : outcome pool :=
  match ev with
  | EAccept e i id a =>
      match insts s !! i with Some l => if listening l then accept_client e i id a s else Ret s | None => Ret s end
  | ETimer e f => match timer s with Some _ => redsocks_accept_backoff e f s | None => Ret s end
  | ETouch id t => Ret (set_insts (map (touch id t) (insts s)) s)
  | EDrop n id => if existsb (has_member id) (insts s) then Ret (drop_member n id s) else Ret s
  | EClose n => Ret (redsocks_close_internal n s)
  end.
Fixpoint prun (evs : list event) (s : pool) : outcome pool :=
  match evs with [] => Ret s | ev :: evs => s ← pstep ev s; prun evs s end.
(** After [redsocks_init]: [n] instances that listen. *)
Definition pool_init (n : nat) : pool := Pool 0 0 None (replicate n (Listener true [])).
End Pressure.
