(* ===== verification/PressureSpec.v ===== *)
(** * redsocks: the count of connections and the listeners

    The invariant of connection pressure, when accepting goes on for ever, and when
    it does not. *)
From S2P Require Import Prelude Pressure.
#[local] Open Scope Z_scope.

Definition all_members (s : pool) : list member := concat (map members (insts s)).
Definition cids (s : pool) : list nat := map cid (all_members s).
Definition all_listen (b : bool) (s : pool) : Prop := Forall (λ i, listening i = b) (insts s).

Definition limits_ok (L : limits) : Prop := 1 ≤ conn_limit L < 2 ^ 32 ∧ 0 ≤ idle_limit L ∧ 1 ≤ backoff_limit L < 2 ^ 32.

Section Spec.
Context (L : limits) (HL : limits_ok L).

(** Between the steps of a callback; [b] says whether the listeners are on. *)
Record wf (b : bool) (s : pool) : Prop := {
  w_conn : conn s = Z.of_nat (length (cids s));
  w_limit : conn s ≤ conn_limit L;
  w_nodup : NoDup (cids s);
  w_on : all_listen b s;
  w_timer : b = true → timer s = None;
  w_delay : ∀ t, timer s = Some t → 0 < t ≤ backoff_limit L * 1000;
  w_backoff : 0 ≤ backoff s ≤ backoff_limit L }.
(** Between two callbacks. *)
Definition inv (s : pool) : Prop := ∃ b, wf b s ∧ (b = true → conn s < conn_limit L).

(** The listeners stay as they are or are switched on below the limit. *)
Definition on_again (b b' : bool) (s : pool) : Prop := b' = b ∨ (b' = true ∧ conn s < conn_limit L).

Lemma cids_listening b s : cids (set_listening b s) = cids s.
Proof. unfold cids, all_members, set_listening. cbn. rewrite map_map. reflexivity. Qed.
Lemma all_listening b s : all_listen b (set_listening b s).
Proof. unfold all_listen, set_listening. cbn. induction (insts s); constructor; done. Qed.

Lemma lowered_wf b s : wf b s → ∃ b', wf b' (conn_pressure_lowered L s) ∧ on_again b b' s ∧ conn (conn_pressure_lowered L s) = conn s ∧ cids (conn_pressure_lowered L s) = cids s.
Proof.
  intros H. unfold conn_pressure_lowered. destruct (Z.leb_spec (conn_limit L) (conn s)); [exists b; by split_and!; [|left|..]|]. destruct (timer s) eqn:Et; [|exists b; by split_and!; [|left|..]].
  exists true. split_and!; [|by right|done|unfold accept_enable; by rewrite cids_listening]. destruct H as [H1 H2 H3 H4 H5 H6 H7]. split; try done; [unfold accept_enable; by rewrite cids_listening..|apply all_listening].
Qed.
Lemma close_wf n b s : wf b s → ∃ b', wf b' (redsocks_close_internal L n s) ∧ on_again b b' s ∧ conn (redsocks_close_internal L n s) = conn s ∧ cids (redsocks_close_internal L n s) = cids s.
Proof.
  intros H. unfold redsocks_close_internal. induction n as [|n (b1 & H1 & H2 & H3 & H4)]; [exists b; by split_and!; [|left|..]|]. change (Nat.iter (S n) (conn_pressure_lowered L) s) with (conn_pressure_lowered L (Nat.iter n (conn_pressure_lowered L) s)).
  destruct (lowered_wf b1 _ H1) as (b2 & G1 & G2 & G3 & G4). exists b2. split_and!; [done| |congruence|congruence]. unfold on_again in *. rewrite H3 in G2. destruct G2 as [->|G2]; [done|by right].
Qed.

Lemma has_member_In id i : has_member id i = true ↔ id ∈ map cid (members i).
Proof.
  unfold has_member. rewrite existsb_exists. split.
  - intros (c & Hc & E%Nat.eqb_eq). subst id. apply list_elem_of_In, in_map, Hc.
  - intros (c & -> & Hc)%list_elem_of_fmap. exists c. split; [by apply list_elem_of_In|apply Nat.eqb_refl].
Qed.
Lemma has_cids id s : existsb (has_member id) (insts s) = true ↔ id ∈ cids s.
Proof.
  unfold cids, all_members. induction (insts s) as [|i l IH]; cbn [existsb map concat]; [split; [done|by intros ?%elem_of_nil]|]. rewrite orb_true_iff, IH, has_member_In, map_app, elem_of_app. done.
Qed.
Lemma cids_remove id s : cids (set_insts (map (remove_member id) (insts s)) s) = List.filter (λ x, negb (x =? id)%nat) (cids s).
Proof.
  unfold cids, all_members. cbn [insts set_insts]. induction (insts s) as [|i l IH]; [done|]. cbn [map concat]. rewrite !map_app, List.filter_app, IH. f_equal. unfold remove_member. cbn [members].
  induction (members i) as [|c cs IHc]; [done|]. cbn [List.filter map]. destruct (negb (cid c =? id)%nat); cbn [map]; by rewrite IHc.
Qed.
Lemma filter_length (l : list nat) id : NoDup l → id ∈ l → length l = S (length (List.filter (λ x, negb (x =? id)%nat) l)).
Proof.
  induction 1 as [|x l Hx Hn IH]; [by intros ?%elem_of_nil|]. cbn [List.filter length]. rewrite elem_of_cons. destruct (Nat.eqb_spec x id) as [->|Hne]; cbn [negb].
  - intros _. f_equal. clear IH Hn. induction l as [|y l IH]; [done|]. rewrite elem_of_cons in Hx. cbn [List.filter]. destruct (Nat.eqb_spec y id); [subst; tauto|]. cbn [negb length]. rewrite <- IH; tauto.
  - intros [->|Hi]; [done|]. cbn [length]. by rewrite <- IH.
Qed.
Lemma filter_nodup (l : list nat) f : NoDup l → NoDup (List.filter f l).
Proof.
  induction 1 as [|x l Hx _ IH]; [constructor|]. cbn [List.filter]. destruct (f x); [|done]. constructor; [|done]. rewrite list_elem_of_In, List.filter_In. rewrite list_elem_of_In in Hx. tauto.
Qed.

Lemma filter_twice (f g h : nat → bool) l : (∀ x, h x = g x && f x) → List.filter f (List.filter g l) = List.filter h l.
Proof. intros Hh. induction l as [|x l IH]; [done|]. cbn [List.filter]. rewrite Hh. destruct (g x); cbn [andb List.filter]; [|done]. destruct (f x); by rewrite IH. Qed.

(** Dropping a client. *)
Lemma del_wf id b s : wf b s → ∃ b', wf b' (redsocks_conn_list_del L id s) ∧ on_again b b' (redsocks_conn_list_del L id s) ∧
  cids (redsocks_conn_list_del L id s) = List.filter (λ x, negb (x =? id)%nat) (cids s) ∧
  conn (redsocks_conn_list_del L id s) = if existsb (has_member id) (insts s) then conn s - 1 else conn s.
Proof.
  intros H. unfold redsocks_conn_list_del. destruct (existsb (has_member id) (insts s)) eqn:E.
  - apply has_cids in E. set (s1 := set_insts _ _). pose proof (filter_length _ _ (w_nodup _ _ H) E) as Hl. pose proof (w_conn _ _ H) as Hc. pose proof (w_limit _ _ H) as Hm. destruct HL as (Hl1 & _).
    assert (Hc1 : conn s1 = conn s - 1) by (cbn; apply u32_small; lia). assert (Hi1 : cids s1 = List.filter (λ x, negb (x =? id)%nat) (cids s)) by apply (cids_remove id (set_conn (u32 (conn s - 1)) s)).
    assert (Hw : wf b s1).
    { destruct H as [H1 H2 H3 H4 H5 H6 H7]. split; try done; [rewrite Hc1, Hi1; lia|lia|rewrite Hi1; by apply filter_nodup|]. unfold all_listen in *. cbn. clear -H4. induction H4; constructor; done. }
    destruct (lowered_wf b s1 Hw) as (b' & G1 & G2 & G3 & G4). exists b'. unfold on_again. rewrite G3, G4. by split_and!.
  - assert (Hne : id ∉ cids s) by (rewrite <- has_cids; by rewrite E). destruct (lowered_wf b s H) as (b' & G1 & G2 & G3 & G4). exists b'. unfold on_again. rewrite G3, G4. split_and!; try done.
    clear -Hne. induction (cids s) as [|x l IH]; [done|]. rewrite elem_of_cons in Hne. cbn [List.filter]. destruct (Nat.eqb_spec x id); [subst; tauto|]. cbn [negb]. f_equal. apply IH. tauto.
Qed.
Lemma drop_wf n id b s : wf b s → ∃ b', wf b' (drop_member L n id s) ∧ on_again b b' (drop_member L n id s) ∧
  cids (drop_member L n id s) = List.filter (λ x, negb (x =? id)%nat) (cids s) ∧ conn (drop_member L n id s) ≤ conn s ∧ (id ∈ cids s → conn (drop_member L n id s) < conn s).
Proof.
  intros H. unfold drop_member. destruct (close_wf n b s H) as (b1 & H1 & H2 & H3 & H4). destruct (del_wf id b1 _ H1) as (b2 & G1 & G2 & G3 & G4). exists b2.
  rewrite H3 in G4. rewrite H4 in G3. split_and!; [done| |done| |].
  - unfold on_again in *. destruct G2 as [->|G2]; [|by right]. destruct H2 as [->|[-> Hlt]]; [by left|]. right. split; [done|]. rewrite G4. case_match; lia.
  - rewrite G4. case_match; lia.
  - intros Hi. rewrite G4. replace (existsb _ _) with true; [lia|]. symmetry. apply has_cids. by rewrite H4.
Qed.

Lemma on_again_trans b1 b2 b3 s1 s2 : on_again b1 b2 s1 → on_again b2 b3 s2 → conn s2 ≤ conn s1 → on_again b1 b3 s2.
Proof. unfold on_again. intros [->|[-> H]] [->|[-> H']] Hc; auto with lia. Qed.

(** Which clients the walk drops. *)
Definition is_idle (e : outside) (c : member) : bool := (now e - last_event c <=? 0) || (max_idle L <=? now e - last_event c).

Lemma drop_idle_wf e cs b s bn : wf b s → 0 ≤ bn → NoDup (map cid cs) → (∀ c, c ∈ cs → cid c ∈ cids s) →
  let '(s', n) := drop_idle L e cs s bn in
  ∃ b', wf b' s' ∧ on_again b b' s' ∧ conn s' ≤ conn s ∧ 0 ≤ n ∧ (n = 0 → bn = 0 ∨ conn s' < conn s) ∧
    cids s' = List.filter (λ x, negb (existsb (λ c, is_idle e c && (cid c =? x)%nat) cs)) (cids s).
Proof.
  revert b s bn. induction cs as [|c cs IH]; intros b s bn Hw Hb Hn Hin; cbn [drop_idle].
  { exists b. split_and!; try done; [by left|by left|]. clear. induction (cids s) as [|x l IH]; [done|]. cbn [List.filter existsb negb]. f_equal. exact IH. }
  cbn [map] in Hn. inversion Hn as [|? ? Hc Hn0]; subst. clear Hn. rename Hn0 into Hn. fold (is_idle e c). destruct (is_idle e c) eqn:Ei.
  - destruct (drop_wf (closes e (cid c)) (cid c) b s Hw) as (b1 & H1 & H2 & H3 & H4 & H5). set (s1 := drop_member L (closes e (cid c)) (cid c) s) in *.
    assert (Hin1 : ∀ x, x ∈ cs → cid x ∈ cids s1).
    { intros x Hx. rewrite H3, list_elem_of_In, List.filter_In. split; [apply list_elem_of_In, Hin; by right|]. apply negb_true_iff, Nat.eqb_neq. intros E. apply Hc. rewrite <- E. by apply list_elem_of_fmap_2. }
    specialize (IH b1 s1 0 H1 ltac:(lia) Hn Hin1). destruct (drop_idle L e cs s1 0) as [s' n]. destruct IH as (b' & G1 & G2 & G3 & G4 & G5 & G6). specialize (H5 ltac:(apply Hin; by left)).
    exists b'. split_and!; [done|by eapply on_again_trans|lia|done|intros _; right; lia|]. rewrite G6, H3. apply filter_twice. intros x. cbn [existsb]. rewrite Ei, (Nat.eqb_sym (cid c) x). by destruct (x =? cid c)%nat.
  - specialize (IH b s (if max_idle L - (now e - last_event c) <? bn then max_idle L - (now e - last_event c) else bn) Hw). unfold is_idle in Ei. apply orb_false_iff in Ei as [E1%Z.leb_gt E2%Z.leb_gt].
    specialize (IH ltac:(case_match; lia) Hn ltac:(intros x Hx; apply Hin; by right)). destruct (drop_idle L e cs s _) as [s' n]. destruct IH as (b' & G1 & G2 & G3 & G4 & G5 & G6).
    exists b'. split_and!; try done.
    + intros E0. destruct (G5 E0) as [E|E]; [|by right]. left. revert E. case_match; lia.
    + rewrite G6. apply filter_ext. intros x. cbn [existsb]. unfold is_idle at 2. by rewrite (proj2 (Z.leb_gt _ _)), (proj2 (Z.leb_gt _ _)) by done.
Qed.

Lemma clamp_range v hi : 0 ≤ v → 1 ≤ hi → 1 ≤ clamp v 1 hi ≤ hi.
Proof. intros Hv Hh. unfold clamp. repeat case_match; bool_hyps; lia. Qed.

Lemma back_off_wf e next b s : wf b s → (∀ n, next = Some n → 0 < n) →
  ∃ s', back_off L e next s = Ret s' ∧ wf false s' ∧ cids s' = cids s ∧ conn s' = conn s ∧ timer s' ≠ None.
Proof.
  intros Hw Hn. unfold back_off. set (ms := clamp _ _ _). destruct HL as (_ & _ & Hb). assert (Hms : 1 ≤ ms ≤ backoff_limit L) by (apply clamp_range; [apply Z.mod_pos_bound; lia|lia]).
  rewrite assert_true, bind_Ret by (apply negb_true_iff, Z.eqb_neq; lia). set (delay := u32 _). assert (Hd : 1 ≤ delay ≤ ms).
  { unfold delay. pose proof (Z.mod_pos_bound (u32 (random e)) ms ltac:(lia)). rewrite u32_small by lia. lia. }
  eexists. split; [done|]. split_and!; [|by rewrite cids_listening|done|done].
  destruct Hw as [H1 H2 H3 H4 H5 H6 H7]. split; try done; [by rewrite cids_listening..|apply all_listening| |cbn; lia].
  cbn [timer set_listening set_insts set_timer]. intros t [= <-]. destruct next as [n|]; [specialize (Hn n eq_refl); case_match; bool_hyps; lia|lia].
Qed.

(** Relieving the pressure: a client goes, or the listeners are switched off. *)
Lemma conn_pressure_wf e b s : wf b s →
  ∃ s' b', conn_pressure L e s = Ret s' ∧ wf b' s' ∧ conn s' ≤ conn s ∧
    ((on_again b b' s' ∧ conn s' < conn s ∧ idle_limit L ≠ 0) ∨ (b' = false ∧ timer s' ≠ None)) ∧
    (∀ x, x ∈ cids s → (∀ c, c ∈ all_members s → cid c = x → idle_limit L ≠ 0 → is_idle e c = false) → x ∈ cids s').
Proof.
  intros Hw. unfold conn_pressure. destruct (Z.eqb_spec (idle_limit L) 0) as [E0|E0]; cbn [negb].
  { destruct (back_off_wf e None b s Hw ltac:(done)) as (s' & -> & G1 & G2 & G3 & G4). exists s', false. split_and!; [done|done|lia|by right|]. intros x Hx _. by rewrite G2. }
  destruct HL as (_ & Hi & _). unfold drop_idle_connections. rewrite assert_true, bind_Ret by (apply Z.ltb_lt; lia). rewrite bind_Ret. fold (all_members s).
  assert (Hmax : 0 < max_idle L) by (unfold max_idle; lia).
  pose proof (drop_idle_wf e (all_members s) b s (max_idle L) Hw ltac:(lia) (w_nodup _ _ Hw) ltac:(intros c Hc; by apply list_elem_of_fmap_2)) as H.
  destruct (drop_idle L e (all_members s) s (max_idle L)) as [s1 n]. destruct H as (b1 & H1 & H2 & H3 & H4 & H5 & H6).
  assert (Hkeep : ∀ x, x ∈ cids s → (∀ c, c ∈ all_members s → cid c = x → idle_limit L ≠ 0 → is_idle e c = false) → x ∈ cids s1).
  { intros x Hx Hc. rewrite H6, list_elem_of_In, List.filter_In. split; [by apply list_elem_of_In|]. apply negb_true_iff, not_true_iff_false. rewrite existsb_exists.
    intros (c & Hcs & [Hid Ex%Nat.eqb_eq]%andb_true_iff). rewrite (Hc c) in Hid; try done. by apply list_elem_of_In. }
  destruct (Z.eqb_spec n 0) as [->|Hn].
  - exists s1, b1. destruct (H5 eq_refl) as [?|Hlt]; [lia|]. split_and!; [done|done|lia|by left|done].
  - destruct (back_off_wf e (Some n) b1 s1 H1 ltac:(intros ? [= <-]; lia)) as (s' & -> & G1 & G2 & G3 & G4). exists s', false. split_and!; [done|done|lia|by right|]. intros x Hx Hc. rewrite G2. by apply Hkeep.
Qed.

Lemma all_add i id t s l : insts s !! i = Some l → all_members (add_member i id t s) ≡ₚ Member id t :: all_members s.
Proof.
  unfold all_members, add_member. cbn [insts set_insts]. revert i. induction (insts s) as [|x ls IH]; intros [|i]; [done|done| |]; cbn.
  - intros _. done.
  - intros Hi. rewrite (IH i Hi). by rewrite Permutation_middle.
Qed.
Lemma listen_add b i id t s : all_listen b s → all_listen b (add_member i id t s).
Proof.
  unfold all_listen, add_member. cbn [insts set_insts]. revert i. induction (insts s) as [|x ls IH]; intros [|i] H; [done|done| |]; apply Forall_cons_1 in H as [H1 H2]; cbn; constructor; try done. by apply IH.
Qed.

(** The time between the accepting of a client and the check for idle ones. *)
Definition fresh (e : outside) (t : Z) : Prop := 0 < now e - t ∧ (idle_limit L ≠ 0 → now e - t < max_idle L).

Lemma list_add_wf e i id t s l : wf true s → insts s !! i = Some l → conn s < conn_limit L → id ∉ cids s → fresh e t →
  ∃ s', redsocks_conn_list_add L e i id t s = Ret s' ∧ inv s' ∧ id ∈ cids s'.
Proof.
  intros Hw Hi Hlt Hid [Hf1 Hf2]. unfold redsocks_conn_list_add. rewrite assert_true, bind_Ret by (by apply Z.ltb_lt). destruct HL as (HL1 & _).
  pose proof (all_add i id t s l Hi) as Ha. set (s1 := set_conn _ _). assert (Hc1 : cids s1 ≡ₚ id :: cids s) by (unfold cids; change (all_members s1) with (all_members (add_member i id t s)); by rewrite Ha).
  pose proof Hw as [H1 H2 H3 H4 H5 H6 H7]. assert (Hn1 : conn s1 = conn s + 1) by (cbn; apply u32_small; lia).
  assert (Hw1 : wf true s1). { split; try done; [rewrite Hc1, Hn1; cbn [length]; lia|lia|rewrite Hc1; by constructor|by apply listen_add]. }
  assert (Hin1 : id ∈ cids s1) by (rewrite Hc1; by left).
  destruct (Z.leb_spec (conn_limit L) (conn s1)).
  - destruct (conn_pressure_wf e true s1 Hw1) as (s2 & b2 & -> & G1 & G2 & G3 & G4). exists s2. split; [done|]. split.
    + exists b2. split; [done|]. intros ->. destruct G3 as [(_ & ? & _)|[? _]]; [lia|done].
    + apply G4; [done|]. intros c Hc Ec Hidle. unfold is_idle. change (all_members s1) with (all_members (add_member i id t s)) in Hc. rewrite Ha, elem_of_cons in Hc. destruct Hc as [->|Hc].
      * specialize (Hf2 Hidle). cbn [last_event]. by rewrite (proj2 (Z.leb_gt _ _)), (proj2 (Z.leb_gt _ _)).
      * exfalso. apply Hid. rewrite <- Ec. by apply list_elem_of_fmap_2.
  - exists s1. split; [done|]. split; [|done]. exists true. by split.
Qed.

Lemma drop_keeps_inv n id s : inv s → inv (drop_member L n id s).
Proof.
  intros (b & Hw & Hb). destruct (drop_wf n id b s Hw) as (b' & H1 & H2 & _ & H3 & _). exists b'. split; [done|]. intros ->. destruct H2 as [<-|[_ ?]]; [|done]. specialize (Hb eq_refl). lia.
Qed.
Lemma close_inv n s : inv s → inv (redsocks_close_internal L n s).
Proof.
  intros (b & Hw & Hb). destruct (close_wf n b s Hw) as (b' & H1 & H2 & H3 & _). exists b'. split; [done|]. intros ->. rewrite H3. destruct H2 as [<-|[_ ?]]; [by apply Hb|done].
Qed.
Lemma backoff_inv s : inv s → inv (set_backoff 0 s).
Proof. intros (b & [H1 H2 H3 H4 H5 H6 H7] & Hb). exists b. split; [|done]. split; try done. destruct HL as (_ & _ & ?). cbn. lia. Qed.

Definition ok_event (s : pool) (ev : event) : Prop :=
  match ev with
  | EAccept e i id a => (id ∉ cids s) ∧ (match a with AEnableFails t _ | ARelayFails t _ _ | ADone t => fresh e t | _ => True end)
  | _ => True
  end.

Lemma accept_inv e i id a s l : inv s → insts s !! i = Some l → listening l = true → ok_event s (EAccept e i id a) → ∃ s', accept_client L e i id a s = Ret s' ∧ inv s'.
Proof.
  intros Hinv Hi Hl [Hid Ha]. destruct Hinv as (b & Hw & Hb). assert (b = true) as ->. { pose proof (w_on _ _ Hw) as Ho. unfold all_listen in Ho. rewrite Forall_lookup in Ho. pose proof (Ho i l Hi) as E. cbv beta in E. congruence. }
  specialize (Hb eq_refl). unfold accept_client. rewrite assert_true, bind_Ret by (by apply Z.ltb_lt).
  assert (Hw0 : wf true (set_backoff 0 s)). { destruct (backoff_inv s) as (b0 & ? & ?); [by exists true|]. destruct Hw as [H1 H2 H3 H4 H5 H6 H7]. split; try done. destruct HL as (_ & _ & ?). cbn. lia. }
  assert (Hinv0 : inv (set_backoff 0 s)) by (by exists true).
  assert (Hadd : ∀ t, fresh e t → ∃ s', redsocks_conn_list_add L e i id t (set_backoff 0 s) = Ret s' ∧ inv s' ∧ id ∈ cids s') by (intros t Ht; by eapply (list_add_wf e i id t _ l)).
  destruct a as [nofd|n|n k|t n|t n k|t].
  - destruct nofd; [|by exists s; split; [|exists true]]. destruct (conn_pressure_wf e true s Hw) as (s2 & b2 & -> & G1 & G2 & G3 & _). exists s2. split; [done|]. exists b2. split; [done|]. intros ->.
    destruct G3 as [(_ & ? & _)|[? _]]; [lia|done].
  - eexists. split; [done|]. by apply close_inv.
  - eexists. split; [done|]. by apply close_inv, drop_keeps_inv.
  - destruct (Hadd t Ha) as (s' & -> & Hs & Hin). rewrite bind_Ret. unfold live. rewrite assert_true, bind_Ret by (by apply has_cids). eexists. split; [done|]. by apply drop_keeps_inv.
  - destruct (Hadd t Ha) as (s' & -> & Hs & Hin). rewrite bind_Ret. unfold live. rewrite assert_true, bind_Ret by (by apply has_cids). eexists. split; [done|]. by apply drop_keeps_inv, close_inv.
  - destruct (Hadd t Ha) as (s' & -> & Hs & Hin). rewrite bind_Ret. unfold live. rewrite assert_true, bind_Ret by (by apply has_cids). by eexists.
Qed.

Lemma timer_wf b s t : wf b s → timer s = Some t → b = false ∧ wf false (set_timer None s).
Proof. intros Hw Ht. destruct b; [by rewrite (w_timer _ _ Hw eq_refl) in Ht|]. split; [done|]. by destruct Hw as [H1 H2 H3 H4 H5 H6 H7]. Qed.

Lemma touch_inv id t s : inv s → inv (set_insts (map (touch id t) (insts s)) s).
Proof.
  intros (b & [H1 H2 H3 H4 H5 H6 H7] & Hb). exists b. split; [|done].
  assert (Hc : cids (set_insts (map (touch id t) (insts s)) s) = cids s).
  { unfold cids, all_members. cbn [insts set_insts]. clear. induction (insts s) as [|x l IH]; [done|]. cbn [map concat]. rewrite !map_app, IH. f_equal. unfold touch. cbn [members]. rewrite map_map.
    apply map_ext. intros c. by destruct (Nat.eqb_spec (cid c) id). }
  split; rewrite ?Hc; try done. unfold all_listen in *. cbn. clear -H4. induction H4; constructor; done.
Qed.

Lemma step_inv ev s : inv s → ok_event s ev → ∃ s', pstep L ev s = Ret s' ∧ inv s'.
Proof.
  intros Hinv Hok. destruct ev as [e i id a|e f|id t|n id|n]; cbn [pstep].
  - destruct (insts s !! i) as [l|] eqn:Hi; [|by eexists]. destruct (listening l) eqn:El; [|by eexists]. by eapply accept_inv.
  - destruct (timer s) as [t|] eqn:Et; [|by eexists]. destruct Hinv as (b & Hw & Hb). destruct (timer_wf b s t Hw Et) as [-> Hw0]. unfold redsocks_accept_backoff. destruct (conn_pressure_ongoing L f _) eqn:Eo.
    + destruct (conn_pressure_wf e false _ Hw0) as (s2 & b2 & -> & G1 & G2 & G3 & _). exists s2. split; [done|]. exists b2. split; [done|]. intros ->. destruct G3 as [([?|[_ ?]] & _)|[? _]]; done.
    + eexists. split; [done|]. unfold conn_pressure_ongoing in Eo. apply orb_false_iff in Eo as [Eo%Z.leb_gt _]. exists true. split; [|done]. destruct Hw0 as [H1 H2 H3 H4 H5 H6 H7].
      unfold accept_enable. split; try done; [by rewrite cids_listening..|apply all_listening].
  - eexists. split; [done|]. by apply touch_inv.
  - case_match; eexists; (split; [done|]); [by apply drop_keeps_inv|done].
  - eexists. split; [done|]. by apply close_inv.
Qed.

Fixpoint ok_run (evs : list event) (s : pool) : Prop :=
  match evs with [] => True | ev :: evs => ok_event s ev ∧ ∀ s', pstep L ev s = Ret s' → ok_run evs s' end.
Lemma run_inv evs s : inv s → ok_run evs s → ∃ s', prun L evs s = Ret s' ∧ inv s'.
Proof.
  revert s. induction evs as [|ev evs IH]; intros s Hi Hok; [by eexists|]. destruct Hok as [Ho Hr]. destruct (step_inv ev s Hi Ho) as (s1 & E & Hi1). cbn [prun]. rewrite E, bind_Ret. apply IH; [done|by apply Hr].
Qed.
Lemma init_inv n : inv (pool_init n).
Proof.
  exists true. destruct HL as (? & _ & ?). assert (Hc : cids (pool_init n) = []). { unfold cids, all_members, pool_init. cbn. induction n; done. }
  split; [|cbn; lia]. split; try done; [by rewrite Hc|cbn; lia|rewrite Hc; constructor| |cbn; lia]. unfold all_listen, pool_init. cbn [insts]. clear Hc. induction n; [apply Forall_nil_2|by apply Forall_cons_2].
Qed.

(** ** Accepting goes on *)
Definition armed (s : pool) : Prop := all_listen true s ∨ timer s ≠ None.

Lemma lowered_armed s : armed s → armed (conn_pressure_lowered L s).
Proof. intros H. unfold conn_pressure_lowered. case_match; [done|]. case_match; [|done]. left. apply all_listening. Qed.
Lemma close_armed n s : armed s → armed (redsocks_close_internal L n s).
Proof. intros H. unfold redsocks_close_internal. induction n as [|n IH]; [done|]. change (Nat.iter (S n) ?f s) with (f (Nat.iter n f s)). by apply lowered_armed. Qed.
Lemma map_listen b (f : listener → listener) s : (∀ i, listening (f i) = listening i) → all_listen b s → all_listen b (set_insts (map f (insts s)) s).
Proof. intros Hf H. unfold all_listen in *. cbn. induction H; constructor; [by rewrite Hf|done]. Qed.
Lemma drop_armed n id s : armed s → armed (drop_member L n id s).
Proof.
  intros H%(close_armed n). unfold drop_member, redsocks_conn_list_del. apply lowered_armed. case_match; [|done]. destruct H as [H|H]; [left|by right].
  by apply (map_listen true (remove_member id) (set_conn _ _)).
Qed.
Lemma armed_timer s : idle_limit L = 0 → ∀ e s', conn_pressure L e s = Ret s' → armed s'.
Proof.
  intros E0 e s'. unfold conn_pressure. rewrite E0. cbn [Z.eqb negb]. unfold back_off. intros (u & _ & [= <-])%bind_Ret_inv. by right.
Qed.
Lemma armed_add e i id t s s' : idle_limit L = 0 → armed s → redsocks_conn_list_add L e i id t s = Ret s' → armed s'.
Proof.
  intros E0 H. unfold redsocks_conn_list_add. intros (u & _ & E)%bind_Ret_inv. revert E. case_match; [by apply armed_timer|]. intros [= <-]. destruct H as [H|H]; [left; by apply listen_add|by right].
Qed.
Lemma accept_armed e i id a s s' : idle_limit L = 0 → armed s → accept_client L e i id a s = Ret s' → armed s'.
Proof.
  intros E0 H. unfold accept_client. intros (u & _ & E)%bind_Ret_inv. assert (H0 : armed (set_backoff 0 s)) by (destruct H; [by left|by right]). destruct a as [[]|n|n k|t n|t n k|t].
  - by eapply armed_timer.
  - by injection E as <-.
  - injection E as <-. by apply close_armed.
  - injection E as <-. by apply close_armed, drop_armed.
  - apply bind_Ret_inv in E as (s1 & E1 & E). apply bind_Ret_inv in E as (? & _ & [= <-]). apply drop_armed. by eapply armed_add.
  - apply bind_Ret_inv in E as (s1 & E1 & E). apply bind_Ret_inv in E as (? & _ & [= <-]). apply drop_armed, close_armed. by eapply armed_add.
  - apply bind_Ret_inv in E as (s1 & E1 & E). apply bind_Ret_inv in E as (? & _ & [= <-]). by eapply armed_add.
Qed.
Lemma step_armed ev s s' : idle_limit L = 0 → armed s → pstep L ev s = Ret s' → armed s'.
Proof.
  intros E0 H. destruct ev as [e i id a|e f|id t|n id|n]; cbn [pstep].
  - case_match; [|by intros [= <-]]. case_match; [|by intros [= <-]]. by apply accept_armed.
  - case_match; [|by intros [= <-]]. unfold redsocks_accept_backoff. case_match; [by apply armed_timer|]. intros [= <-]. left. apply all_listening.
  - intros [= <-]. destruct H as [H|H]; [left; by apply map_listen|by right].
  - case_match; intros [= <-]; [by apply drop_armed|done].
  - intros [= <-]. by apply close_armed.
Qed.
Lemma run_armed evs s s' : idle_limit L = 0 → armed s → prun L evs s = Ret s' → armed s'.
Proof. intros E0. revert s. induction evs as [|ev evs IH]; intros s H; [by intros [= <-]|]. cbn [prun]. intros (s1 & E1 & E)%bind_Ret_inv. eapply IH; [|done]. by eapply step_armed. Qed.

(** ** Accepting has stopped *)
Definition stalled (s : pool) : Prop := all_listen false s ∧ timer s = None.
Lemma lowered_stalled s : timer s = None → conn_pressure_lowered L s = s.
Proof. intros E. unfold conn_pressure_lowered. rewrite E. by case_match. Qed.
Lemma close_stalled n s : timer s = None → redsocks_close_internal L n s = s.
Proof. intros E. unfold redsocks_close_internal. induction n as [|n IH]; [done|]. change (Nat.iter (S n) ?f s) with (f (Nat.iter n f s)). rewrite IH. by apply lowered_stalled. Qed.
Lemma drop_stalled n id s : stalled s → stalled (drop_member L n id s).
Proof.
  intros [H Ht]. unfold drop_member, redsocks_conn_list_del. rewrite close_stalled by done. case_match; rewrite lowered_stalled by done; split; try done. by apply (map_listen false (remove_member id) (set_conn _ _)).
Qed.
Lemma step_stalled ev s : stalled s → ∃ s', pstep L ev s = Ret s' ∧ stalled s'.
Proof.
  intros H. pose proof H as [Hl Ht]. destruct ev as [e i id a|e f|id t|n id|n]; cbn [pstep].
  - destruct (insts s !! i) as [l|] eqn:Ei; [|by eexists]. unfold all_listen in Hl. rewrite Forall_lookup in Hl. specialize (Hl i l Ei). cbv beta in Hl. rewrite Hl. by eexists.
  - rewrite Ht. by eexists.
  - eexists. split; [done|]. split; [by apply map_listen|done].
  - case_match; eexists; (split; [done|]); [by apply drop_stalled|done].
  - eexists. split; [done|]. by rewrite close_stalled.
Qed.
Lemma run_stalled evs s : stalled s → ∃ s', prun L evs s = Ret s' ∧ stalled s'.
Proof. revert s. induction evs as [|ev evs IH]; intros s H; [by eexists|]. destruct (step_stalled ev s H) as (s1 & E & H1). cbn [prun]. rewrite E, bind_Ret. by apply IH. Qed.
Lemma idle_stalled e cs s bn : stalled s → stalled (drop_idle L e cs s bn).1.
Proof. revert s bn. induction cs as [|c cs IH]; intros s bn H; [done|]. cbn [drop_idle]. case_match; apply IH; [by apply drop_stalled|done]. Qed.
Lemma idle_zero e cs s : (drop_idle L e cs s 0).2 = 0.
Proof.
  revert s. induction cs as [|c cs IH]; intros s; [done|]. cbn [drop_idle]. case_match eqn:E; [apply IH|]. apply orb_false_iff in E as [E1%Z.leb_gt E2%Z.leb_gt]. rewrite (proj2 (Z.ltb_ge _ _)) by lia. apply IH.
Qed.

(** *** Filling up *)
Definition early : outside := Outside 1 0 (λ _, O).
Definition late : outside := Outside (max_idle L) 0 (λ _, O).
Definition at_zero (s : pool) : Prop := Forall (λ c, last_event c = 0) (all_members s).
Record filled (b : bool) (k : nat) (s : pool) : Prop := {
  f_wf : wf b s; f_conn : conn s = Z.of_nat k; f_zero : at_zero s; f_ids : Forall (λ x, (x < k)%nat) (cids s); f_inst : ∃ l, insts s !! O = Some l }.
Definition arrive (k : nat) : event := EAccept early 0 k (ADone 0).

Lemma early_fresh : 0 < idle_limit L → fresh early 0.
Proof. intros Hi. split; [cbn; lia|]. intros _. unfold max_idle. cbn. lia. Qed.

(** One more client; the last one finds no idle client to drop, and the listeners
    are switched off. *)
Lemma arrive_step k s : 0 < idle_limit L → filled true k s → Z.of_nat k < conn_limit L →
  ok_event s (arrive k) ∧ ∃ s', pstep L (arrive k) s = Ret s' ∧ filled (Z.of_nat (S k) <? conn_limit L) (S k) s' ∧ (conn_limit L ≤ Z.of_nat (S k) → timer s' ≠ None).
Proof.
  intros Hi [Hw Hc Hz Hids (l & Hl)] Hk. assert (Hid : k ∉ cids s) by (intros Hin; rewrite Forall_forall in Hids; specialize (Hids k ltac:(by apply list_elem_of_In)); cbv beta in Hids; lia).
  split; [by split; [|apply early_fresh]|]. unfold arrive. cbn [pstep]. rewrite Hl. pose proof (w_on _ _ Hw) as Ho. unfold all_listen in Ho. rewrite Forall_lookup in Ho. specialize (Ho O l Hl). cbv beta in Ho. rewrite Ho.
  unfold accept_client. rewrite assert_true, bind_Ret by (apply Z.ltb_lt; lia). unfold redsocks_conn_list_add. change (conn (set_backoff 0 s)) with (conn s). rewrite assert_true, bind_Ret by (apply Z.ltb_lt; lia).
  pose proof HL as (HL1 & _ & HL3). set (s1 := set_conn _ _). pose proof (all_add 0 k 0 (set_backoff 0 s) l Hl) as Ha. change (all_members (add_member 0 k 0 (set_backoff 0 s))) with (all_members s1) in Ha. change (all_members (set_backoff 0 s)) with (all_members s) in Ha.
  assert (Hc1 : cids s1 ≡ₚ k :: cids s) by (unfold cids; by rewrite Ha). pose proof Hw as [H1 H2 H3 H4 H5 H6 H7]. assert (Hn1 : conn s1 = Z.of_nat (S k)) by (cbn; rewrite u32_small; lia).
  assert (Hw1 : wf true s1). { split; try done; [rewrite Hc1, Hn1; cbn [length]; lia|lia|rewrite Hc1; by constructor|by apply listen_add|cbn; lia]. }
  assert (Hz1 : at_zero s1) by (unfold at_zero; rewrite Ha; by constructor).
  assert (Hids1 : Forall (λ x, (x < S k)%nat) (cids s1)) by (rewrite Hc1; constructor; [lia|]; eapply Forall_impl; [|exact Hids]; intros; cbv beta in *; lia).
  assert (Hi1 : ∃ l, insts s1 !! O = Some l) by (cbn; destruct (insts s); [done|by eexists]).
  assert (Hlive : live k s1 = Ret tt) by (unfold live; apply assert_true, has_cids; rewrite Hc1; by left). rewrite Hn1.
  destruct (Z.leb_spec (conn_limit L) (Z.of_nat (S k))).
  2: { rewrite bind_Ret, Hlive, bind_Ret. exists s1. split; [done|]. rewrite (proj2 (Z.ltb_lt _ _)) by done. split; [by split|lia]. }
  rewrite (proj2 (Z.ltb_ge _ _)) by done. unfold conn_pressure. rewrite (proj2 (Z.eqb_neq _ _)) by lia. cbn [negb]. unfold drop_idle_connections. rewrite assert_true, bind_Ret by (by apply Z.ltb_lt). rewrite bind_Ret. fold (all_members s1).
  assert (Hnone : ∀ c, c ∈ all_members s1 → is_idle early c = false).
  { intros c Hcm. unfold at_zero in Hz1. rewrite Forall_forall in Hz1. specialize (Hz1 c ltac:(by apply list_elem_of_In)). cbv beta in Hz1. unfold is_idle. rewrite Hz1. unfold max_idle. cbn [now early]. apply orb_false_iff. rewrite !Z.leb_gt. lia. }
  assert (Hnb : ∀ cs bn, (∀ c, c ∈ cs → is_idle early c = false) → 0 < bn → ∃ n, drop_idle L early cs s1 bn = (s1, n) ∧ 0 < n).
  { clear -HL Hi. induction cs as [|c cs IH]; intros bn Hcs Hbn; [by eexists|]. cbn [drop_idle]. pose proof (Hcs c ltac:(by left)) as Ec. fold (is_idle early c). rewrite Ec. unfold is_idle in Ec. apply orb_false_iff in Ec as [E1%Z.leb_gt E2%Z.leb_gt].
    apply IH; [intros; apply Hcs; by right|case_match; lia]. }
  destruct (Hnb (all_members s1) (max_idle L) Hnone ltac:(unfold max_idle; lia)) as (n & -> & Hn). rewrite (proj2 (Z.eqb_neq n 0)) by lia.
  destruct (back_off_wf early (Some n) true s1 Hw1 ltac:(by intros ? [= <-])) as (s2 & Eb & G1 & G2 & G3 & G4). rewrite Eb, bind_Ret. unfold back_off in Eb. apply bind_Ret_inv in Eb as (u & _ & [= <-]).
  unfold live. rewrite assert_true, bind_Ret by (apply has_cids; rewrite G2, Hc1; by left). eexists. split; [done|]. split; [|intros _; done]. split; [done|congruence| |by rewrite G2|].
  - unfold at_zero, all_members, set_listening. cbn [insts set_insts set_timer set_backoff]. rewrite map_map. exact Hz1.
  - cbn. destruct Hi1 as (l1 & Hl1). cbn in Hl1. destruct (alter _ _ _) as [|y ys]; [done|]. by eexists.
Qed.

(** The timer finds every client idle: all are dropped, and nothing switches the
    listeners on again. *)
Lemma timer_stalls k s t : 0 < idle_limit L → filled false k s → (0 < k)%nat → conn_limit L ≤ Z.of_nat k → timer s = Some t →
  ∃ s', pstep L (ETimer late false) s = Ret s' ∧ stalled s' ∧ cids s' = [].
Proof.
  intros Hi [Hw Hc Hz _ _] Hk Hlim Ht. cbn [pstep]. rewrite Ht. unfold redsocks_accept_backoff. destruct (timer_wf false s t Hw Ht) as [_ Hw0]. set (s0 := set_timer None s) in *.
  unfold conn_pressure_ongoing. change (conn s0) with (conn s). rewrite Hc, (proj2 (Z.leb_le _ _)) by done. cbn [orb]. unfold conn_pressure. rewrite (proj2 (Z.eqb_neq _ _)) by lia. cbn [negb].
  unfold drop_idle_connections. rewrite assert_true, bind_Ret by (by apply Z.ltb_lt). rewrite bind_Ret. change (concat (map members (insts s0))) with (all_members s).
  assert (Hall : ∀ c, c ∈ all_members s → is_idle late c = true).
  { intros c Hcm. unfold at_zero in Hz. rewrite Forall_forall in Hz. specialize (Hz c ltac:(by apply list_elem_of_In)). cbv beta in Hz. unfold is_idle. rewrite Hz. cbn [now late]. apply orb_true_iff. right. apply Z.leb_le. lia. }
  pose proof (drop_idle_wf late (all_members s) false s0 (max_idle L) Hw0 ltac:(unfold max_idle; lia) (w_nodup _ _ Hw) ltac:(intros c Hcm; by apply (list_elem_of_fmap_2 cid))) as H.
  pose proof (idle_stalled late (all_members s) s0 (max_idle L) (conj (w_on _ _ Hw0) eq_refl)) as Hst.
  assert (Hn : (drop_idle L late (all_members s) s0 (max_idle L)).2 = 0).
  { pose proof (w_conn _ _ Hw) as Hl. unfold cids in Hl. rewrite length_map in Hl. destruct (all_members s) as [|c cs]; [cbn in Hl; lia|]. cbn [drop_idle]. fold (is_idle late c). rewrite (Hall c) by (by left). apply idle_zero. }
  destruct (drop_idle L late (all_members s) s0 (max_idle L)) as [s1 n]. cbn [fst snd] in *. subst n. destruct H as (b1 & _ & _ & _ & _ & _ & Hids). cbn [Z.eqb]. exists s1. split; [done|]. split; [done|].
  rewrite Hids. change (cids s0) with (map cid (all_members s)). destruct (List.filter _ _) as [|x l] eqn:E; [done|exfalso].
  assert (Hx : In x (x :: l)) by (by left). rewrite <- E in Hx. apply List.filter_In in Hx as [Hx1 Hx2]. apply in_map_iff in Hx1 as (c & <- & Hcm). apply negb_true_iff, not_true_iff_false in Hx2. apply Hx2. apply existsb_exists.
  exists c. split; [done|]. rewrite (Hall c) by (by apply list_elem_of_In). cbn. apply Nat.eqb_refl.
Qed.

Lemma fill_and_stall j k s : 0 < idle_limit L → filled true k s → (0 < j)%nat → Z.of_nat (k + j) = conn_limit L →
  let evs := map arrive (seq k j) ++ [ETimer late false] in
  ok_run evs s ∧ ∃ s', prun L evs s = Ret s' ∧ stalled s' ∧ cids s' = [].
Proof.
  intros Hi. revert k s. induction j as [|j IH]; intros k s Hf Hj Hk; [lia|]. cbn [seq map app]. destruct (arrive_step k s Hi Hf ltac:(lia)) as (Hok & s1 & E1 & Hf1 & Ht1). cbn [ok_run prun]. rewrite E1, bind_Ret.
  destruct j as [|j].
  - rewrite (proj2 (Z.ltb_ge _ _)) in Hf1 by lia. destruct (timer s1) as [t|] eqn:Et; [|exfalso; by apply Ht1; [lia|]].
    destruct (timer_stalls (S k) s1 t Hi Hf1 ltac:(lia) ltac:(lia) Et) as (s2 & E2 & Hs2 & Hc2). cbn [seq map app prun ok_run]. split; [split; [done|intros s' [= <-]; by split]|]. rewrite E2, bind_Ret. by eexists.
  - rewrite (proj2 (Z.ltb_lt _ _)) in Hf1 by lia. destruct (IH (S k) s1 Hf1 ltac:(lia) ltac:(lia)) as [I1 I2]. split; [split; [done|by intros s' [= <-]]|exact I2].
Qed.

Lemma init_filled n : (0 < n)%nat → filled true 0 (pool_init n).
Proof.
  intros Hn. destruct (init_inv n) as (b & Hw & _). assert (Ha : all_members (pool_init n) = []) by (unfold all_members, pool_init; cbn; clear; induction n; done).
  assert (b = true) as ->. { pose proof (w_on _ _ Hw) as Ho. unfold all_listen, pool_init in Ho. cbn in Ho. destruct n; [lia|]. cbn in Ho. apply Forall_cons_1 in Ho as [<- _]. done. }
  split; [done|done|unfold at_zero; rewrite Ha; constructor|unfold cids; rewrite Ha; constructor|]. destruct n; [lia|]. cbn. by eexists.
Qed.

(** *** The clock stands still *)
Lemma same_instant e i id t s l : wf true s → insts s !! i = Some l → conn s + 1 = conn_limit L → id ∉ cids s → 0 < idle_limit L → now e ≤ t →
  accept_client L e i id (ADone t) s = Fault.
Proof.
  intros Hw Hi Hc Hid Hidle Ht. unfold accept_client. rewrite assert_true, bind_Ret by (apply Z.ltb_lt; lia). unfold redsocks_conn_list_add. change (conn (set_backoff 0 s)) with (conn s).
  rewrite assert_true, bind_Ret by (apply Z.ltb_lt; lia). pose proof HL as (HL1 & _ & HL3). set (s1 := set_conn _ _). pose proof (all_add i id t (set_backoff 0 s) l Hi) as Ha.
  change (all_members (add_member i id t (set_backoff 0 s))) with (all_members s1) in Ha. change (all_members (set_backoff 0 s)) with (all_members s) in Ha.
  assert (Hc1 : cids s1 ≡ₚ id :: cids s) by (unfold cids; by rewrite Ha). pose proof Hw as [H1 H2 H3 H4 H5 H6 H7]. assert (Hn1 : conn s1 = conn s + 1) by (cbn; rewrite u32_small; lia).
  assert (Hw1 : wf true s1). { split; try done; [rewrite Hc1, Hn1; cbn [length]; lia|lia|rewrite Hc1; by constructor|by apply listen_add|cbn; lia]. }
  rewrite Hn1, (proj2 (Z.leb_le _ _)) by lia. unfold conn_pressure. rewrite (proj2 (Z.eqb_neq _ _)) by lia. cbn [negb]. unfold drop_idle_connections. rewrite assert_true, bind_Ret by (by apply Z.ltb_lt). rewrite bind_Ret. fold (all_members s1).
  pose proof (drop_idle_wf e (all_members s1) true s1 (max_idle L) Hw1 ltac:(unfold max_idle; lia) (w_nodup _ _ Hw1) ltac:(intros c Hcm; by apply (list_elem_of_fmap_2 cid))) as H.
  destruct (drop_idle L e (all_members s1) s1 (max_idle L)) as [s2 n]. destruct H as (b2 & G1 & _ & _ & G4 & _ & G6).
  assert (Hgone : id ∉ cids s2).
  { rewrite G6, list_elem_of_In, List.filter_In. intros [_ Hx]. apply negb_true_iff, not_true_iff_false in Hx. apply Hx. apply existsb_exists. exists (Member id t). split.
    - apply list_elem_of_In. rewrite Ha. by left.
    - rewrite Nat.eqb_refl, andb_true_r. unfold is_idle. cbn [last_event]. by rewrite (proj2 (Z.leb_le (now e - t) 0)) by lia. }
  assert (Hdead : ∀ s', cids s' = cids s2 → live id s' = Fault).
  { intros s' E. unfold live. replace (existsb _ _) with false; [done|]. symmetry. apply not_true_iff_false. rewrite has_cids, E. done. }
  destruct (Z.eqb_spec n 0); [rewrite bind_Ret; by rewrite Hdead|]. destruct (back_off_wf e (Some n) b2 s2 G1 ltac:(intros ? [= <-]; lia)) as (s3 & -> & _ & E3 & _). rewrite bind_Ret. by rewrite Hdead.
Qed.
End Spec.

(** ** What is shown *)

Lemma closed_inv L s : inv L s → conn s = Z.of_nat (length (cids s)) ∧ conn s ≤ conn_limit L ∧ (all_listen true s ∧ timer s = None ∧ conn s < conn_limit L ∨ all_listen false s).
Proof. intros ([] & [H1 H2 H3 H4 H5 H6 H7] & H); (split; [done|]; split; [done|]); [left; split_and!; [done|by apply H5|by apply H]|by right]. Qed.

(** C13: no sequence of accepted connections, failures, timeouts and drops breaks the
    accounting, if new clients are a little younger than the time at which the limit is
    checked: no assertion fails and no freed client is used, [redsocks_conn] is the number of
    clients on the lists, no list holds a client twice, the limit is kept, and either all
    listeners are on, with room for a client and no timer, or all are off; the timer never
    waits longer than [max_accept_backoff]. *)
Theorem pressure_safe L n evs : limits_ok L → ok_run L evs (pool_init n) →
  ∃ s, prun L evs (pool_init n) = Ret s ∧
    conn s = Z.of_nat (length (cids s)) ∧ NoDup (cids s) ∧ conn s ≤ conn_limit L ∧
    (all_listen true s ∧ timer s = None ∧ conn s < conn_limit L ∨ all_listen false s) ∧
    (∀ t, timer s = Some t → 0 < t ≤ backoff_limit L * 1000).
Proof.
  intros HL Hok. destruct (run_inv L HL evs _ (init_inv L HL n) Hok) as (s & E & Hi). exists s. destruct (closed_inv L s Hi) as (H1 & H2 & H3). destruct Hi as (b & Hw & _).
  split_and!; [done|done|by apply (w_nodup L b)|done|done|by apply (w_delay L b)].
Qed.

(** C35: without [connpres_idle_timeout] accepting goes on: after every sequence of
    callbacks either all listeners are on or the timer is pending, and when it fires, with
    room for a client and a descriptor to spare, all listeners are on again. *)
Theorem accept_continues L n evs : limits_ok L → idle_limit L = 0 → ok_run L evs (pool_init n) →
  ∃ s, prun L evs (pool_init n) = Ret s ∧
    (all_listen true s ∨
     ∃ t, timer s = Some t ∧ 0 < t ≤ backoff_limit L * 1000 ∧
       ∀ e, conn s < conn_limit L → ∃ s', pstep L (ETimer e false) s = Ret s' ∧ all_listen true s' ∧ cids s' = cids s).
Proof.
  intros HL E0 Hok. destruct (run_inv L HL evs _ (init_inv L HL n) Hok) as (s & E & Hi). exists s. split; [done|]. assert (Ha : armed s).
  { eapply (run_armed L evs); [done| |done]. left. unfold all_listen, pool_init. cbn [insts]. by apply Forall_replicate. }
  destruct Ha as [Ha|Ha]; [by left|right]. destruct (timer s) as [t|] eqn:Et; [|done]. exists t. split; [done|]. destruct Hi as (b & Hw & _). split; [by apply (w_delay L b s Hw)|].
  intros e Hc. cbn [pstep]. rewrite Et. unfold redsocks_accept_backoff, conn_pressure_ongoing. change (conn (set_timer None s)) with (conn s). rewrite (proj2 (Z.leb_gt _ _)) by done. cbn [orb].
  eexists. split; [done|]. split; [apply all_listening|]. unfold accept_enable. by rewrite cids_listening.
Qed.

(** C31: with [connpres_idle_timeout], which is on by default, accepting can stop for ever:
    when the limit is reached, and all clients have become idle by the time the backoff timer
    fires, they are dropped and the timer is not set again; then no client is left, every
    listener is off, and this stays so whatever happens. *)
Theorem accept_stalls L n : limits_ok L → 0 < idle_limit L → (0 < n)%nat →
  ∃ evs s, ok_run L evs (pool_init n) ∧ prun L evs (pool_init n) = Ret s ∧ cids s = [] ∧
    ∀ evs', ∃ s', prun L evs' s = Ret s' ∧ all_listen false s' ∧ timer s' = None.
Proof.
  intros HL Hi Hn. pose proof HL as (H1 & _). destruct (fill_and_stall L HL (Z.to_nat (conn_limit L)) 0 _ Hi (init_filled L HL n Hn) ltac:(lia) ltac:(lia)) as [Hok (s & E & Hs & Hc)].
  eexists _, s. split; [exact Hok|]. split; [exact E|]. split; [done|]. intros evs'. destruct (run_stalled L evs' s Hs) as (s' & E' & H'). by exists s'.
Qed.

(** The client that reaches the limit is itself taken for idle if the clock has not
    moved since it was accepted, or has gone back: it is dropped, and then used. *)
Theorem accept_same_instant L n evs s e i l id t : limits_ok L → 0 < idle_limit L → ok_run L evs (pool_init n) → prun L evs (pool_init n) = Ret s →
  insts s !! i = Some l → listening l = true → conn s + 1 = conn_limit L → id ∉ cids s → now e ≤ t →
  pstep L (EAccept e i id (ADone t)) s = Fault.
Proof.
  intros HL Hidle Hok Er Hi Hl Hc Hid Ht. destruct (run_inv L HL evs _ (init_inv L HL n) Hok) as (s1 & E & (b & Hw & _)). rewrite Er in E. injection E as <-. cbn [pstep]. rewrite Hi, Hl.
  assert (b = true) as ->. { pose proof (w_on _ _ _ Hw) as Ho. unfold all_listen in Ho. rewrite Forall_lookup in Ho. specialize (Ho i l Hi). cbv beta in Ho. congruence. }
  by eapply same_instant.
Qed.

(** ** On two clients and one instance *)
Definition two_idle : limits := Limits 2 7440 60000.
Definition two : limits := Limits 2 0 60000.
(** An event of a run on closed terms: a fresh client, an age, and the next state. *)
Ltac solve_ok :=
  repeat first [exact I | match goal with
    | |- _ ∧ _ => split
    | |- _ ∉ _ => apply (bool_decide_unpack _); vm_compute; exact I
    | |- ∀ s' : pool, _ => let H := fresh in intros ? H; vm_compute in H; injection H as <-
    | |- context [now] => vm_compute; congruence
    end | progress cbn [ok_run ok_event] | progress unfold PressureSpec.fresh].
Definition at_time (t : Z) : outside := Outside t 5 (λ _, 2%nat).

Lemma pressure_safe_witness : ∃ s, prun two_idle [EAccept (at_time 1) 0 7 (ADone 0); EAccept (at_time 3) 0 8 (ADone 2); EDrop 2 7] (pool_init 1) = Ret s ∧ conn s = 1.
Proof.
  destruct (pressure_safe two_idle 1 [EAccept (at_time 1) 0 7 (ADone 0); EAccept (at_time 3) 0 8 (ADone 2); EDrop 2 7]) as (s & E & H & _).
  - repeat split; vm_compute; congruence.
  - solve_ok.
  - exists s. split; [exact E|]. revert E. vm_compute. by intros [= <-].
Defined.

Lemma accept_continues_witness : ∃ s, prun two [EAccept (at_time 1) 0 7 (ADone 0); EAccept (at_time 3) 0 8 (ADone 2)] (pool_init 1) = Ret s ∧ timer s = Some 1000.
Proof.
  destruct (accept_continues two 1 [EAccept (at_time 1) 0 7 (ADone 0); EAccept (at_time 3) 0 8 (ADone 2)]) as (s & E & _).
  - repeat split; vm_compute; congruence.
  - reflexivity.
  - solve_ok.
  - exists s. split; [exact E|]. revert E. vm_compute. by intros [= <-].
Defined.

Lemma accept_stalls_witness : ∃ evs s, ok_run two_idle evs (pool_init 1) ∧ prun two_idle evs (pool_init 1) = Ret s ∧ cids s = [] ∧
  ∀ evs', ∃ s', prun two_idle evs' s = Ret s' ∧ all_listen false s' ∧ timer s' = None.
Proof. apply (accept_stalls two_idle 1); [repeat split; vm_compute; congruence|reflexivity|lia]. Defined.

Lemma accept_same_instant_witness : pstep two_idle (EAccept (at_time 2) 0 8 (ADone 2)) (Pool 1 0 None [Listener true [Member 7 0]]) = Fault.
Proof.
  apply (accept_same_instant two_idle 1 [EAccept (at_time 1) 0 7 (ADone 0)] _ (at_time 2) 0 (Listener true [Member 7 0]) 8 2); try reflexivity.
  - repeat split; vm_compute; congruence.
  - solve_ok.
  - apply (bool_decide_unpack _). vm_compute. exact I.
Defined.
