(* ===== verification/RedsocksStart.v ===== *)
(** * redsocks: start-up and shutdown

    [base_init] and [base_fini] of base.c, and [redsocks_fini] of redsocks.c.  The answers of
    the system are arguments; the calls that change the process are recorded.  The
    section [base] determines the limits of connection pressure: the descriptors of as
    many clients as are accepted are available. *)
From S2P Require Import Prelude Encrypt Base64 Md5 HttpAuth Redsocks HttpConnect Parser RedsocksConf Pressure PressureSpec.
#[local] Open Scope Z_scope.

(** What the process asks of the system. *)
Inductive call :=
| CLogPreopen (dst : list Z) (dbg info : bool) | CSetrlimit (n : Z) | COpenNull | CChroot (path : list Z) | CChdir | CSetgid (gid : Z) | CSetuid (uid : Z)
| CFork | CLogOpen | CSetsid | CDup2 (fd : Z) | CCloseNull.
(** How it answers; [fork] says whether this is the child. *)
Record system := System {
  getpwnam : list Z → option Z; getgrnam : list Z → option Z; getrlimit : option Z; succeeds : call → bool; fork : option bool }.

(** The rest of [base_init] after a step: it went well, it goes to [fail], or the
    process exits. *)
Inductive step_result A := Well (a : A) | Failed | Exits.
Arguments Well {A}. Arguments Failed {A}. Arguments Exits {A}.
Definition step A : Type := list call * step_result A.
Definition well {A} (a : A) : step A := ([], Well a).
Definition failed {A} : step A := ([], Failed).
#[local] Instance step_bind : MBind step := λ A B f x,
  match x.2 with Well a => (x.1 ++ (f a).1, (f a).2) | Failed => (x.1, Failed) | Exits => (x.1, Exits) end.

Section Init.
Context (os : system).

Definition syscall (c : call) : step unit := ([c], if succeeds os c then Well tt else Failed).
Definition lookup_id (get : list Z → option Z) (n : option (list Z)) : step Z :=
  match n with None => well (-1) | Some n => match get n with Some id => well id | None => failed end end.
Definition when {A} (o : option A) (f : A → step unit) : step unit := match o with Some a => f a | None => well tt end.
Definition when_ (b : bool) (f : step unit) : step unit := if b then f else well tt.
Definition do_fork : step unit := ([CFork], match fork os with None => Failed | Some true => Well tt | Some false => Exits end).

Definition redsocks_has_splice_instance (l : list redsocks_config) : bool := existsb rsplice l.

Definition set_limits (nofile conn_max : Z) (b : base_instance) : base_instance :=
  Base (configured b) (chroot b) (user b) (group b) (redirector_name b) (redirector_of b) (log_name b) (log_debug b) (log_info b) (daemon b)
    (tcp_keepalive_time b) (tcp_keepalive_probes b) (tcp_keepalive_intvl b) nofile conn_max (connpres_idle_timeout b) (max_accept_backoff_ms b).
Definition default_conn_max (nofile : Z) (splice : bool) : Z := u32 (u32 (nofile - nofile / 4) / if splice then 6 else 2).
Definition init_nofile (b : base_instance) : step Z :=
  if negb (rlimit_nofile b =? 0) then _ ← syscall (CSetrlimit (rlimit_nofile b)); well (rlimit_nofile b)
  else match getrlimit os with Some n => well (u32 n) | None => failed end.
Definition init_limits (l : list redsocks_config) (b : base_instance) : step base_instance :=
  nofile ← init_nofile b;
  let conn_max := if redsocks_conn_max b =? 0 then default_conn_max nofile (redsocks_has_splice_instance l) else redsocks_conn_max b in
  well (set_limits nofile conn_max b).

Definition log_destination (b : base_instance) : list Z :=
  match log_name b with Some n => n | None => bytes (if daemon b then "syslog:daemon" else "stderr") end.
(** The body of [base_init] after the check of the instance; the redirectors of
    Android have no [init]. *)
Definition init_body (l : list redsocks_config) (b : base_instance) : step base_instance :=
  uid ← lookup_id (getpwnam os) (user b);
  gid ← lookup_id (getgrnam os) (group b);
  _ ← syscall (CLogPreopen (log_destination b) (log_debug b) (log_info b));
  b ← init_limits l b;
  _ ← when_ (daemon b) (syscall COpenNull);
  _ ← when (chroot b) (λ p, syscall (CChroot p));
  _ ← when_ (daemon b || bool_decide (chroot b ≠ None)) (syscall CChdir);
  _ ← when (group b) (λ _, syscall (CSetgid gid));
  _ ← when (user b) (λ _, syscall (CSetuid uid));
  _ ← when_ (daemon b) do_fork;
  _ ← ([CLogOpen], Well tt);
  _ ← when_ (daemon b) (_ ← syscall CSetsid; _ ← syscall (CDup2 0); _ ← syscall (CDup2 1); _ ← syscall (CDup2 2); ([CCloseNull], Well tt));
  well b.

(** The result, what is left of the instance, and the calls; [None] if the process
    exits. *)
Definition base_fini (b : base_instance) : outcome base_instance :=
  match redirector_of b with Some _ => Ret zero_base | None => Fault end.
Definition null_open (t : list call) : bool := existsb (λ c, match c with COpenNull => succeeds os c | _ => false end) t.
Definition base_init (l : list redsocks_config) (b : base_instance) : outcome (option Z * base_instance * list call) :=
  if negb (configured b) then Ret (Some (-1), b, [])
  else
    _ ← match redirector_of b with Some _ => Ret tt | None => Fault end;
    match init_body l b with
    | (t, Well b) => Ret (Some 0, b, t)
    | (t, Exits) => Ret (None, b, t)
    | (t, Failed) => b ← base_fini b; Ret (Some (-1), b, t ++ if null_open t then [CCloseNull] else [])
    end.

(** What [redsocks_conn_max], [connpres_idle_timeout] and [max_accept_backoff_ms] say. *)
Definition base_limits (b : base_instance) : limits := Limits (redsocks_conn_max b) (connpres_idle_timeout b) (max_accept_backoff_ms b).
End Init.

(** ** Instances *)
Section Fini.
Context (L : limits) (closes : nat → nat).

(** The first instance of the list; [closed] says whether its listener was closed with
    success, if it had one. *)
Definition redsocks_fini_instance (closed : bool) (s : pool) : pool :=
  match insts s with
  | [] => s
  | i :: _ =>
      let s := fold_left (λ s c, drop_member L (closes (cid c)) (cid c) s) (members i) s in
      let s := set_insts (alter (λ i, Listener false (members i)) O (insts s)) s in
      let s := redsocks_close_internal L (if closed then 1 else 0) s in
      set_insts (tail (insts s)) s
  end.
Definition redsocks_fini (closed : bool) (s : pool) : outcome pool :=
  let s := Nat.iter (length (insts s)) (redsocks_fini_instance closed) s in
  _ ← assert (conn s =? 0); Ret s.
End Fini.

(** ** Shutdown *)

(** The count agrees with the lists, whatever the limits are by now. *)
Definition counted (s : pool) : Prop := conn s = Z.of_nat (length (cids s)) ∧ NoDup (cids s) ∧ conn s < 2 ^ 32.

Section Shutdown.
Context (L : limits) (closes : nat → nat).

Lemma close_same n s : map members (insts (redsocks_close_internal L n s)) = map members (insts s) ∧ conn (redsocks_close_internal L n s) = conn s.
Proof.
  unfold redsocks_close_internal. induction n as [|n [IH1 IH2]]; [done|]. change (Nat.iter (S n) ?f s) with (f (Nat.iter n f s)). rewrite <- IH1, <- IH2. unfold conn_pressure_lowered.
  case_match; [done|]. case_match; [|done]. split; [|done]. unfold accept_enable, set_listening. cbn. by rewrite map_map.
Qed.
Lemma cids_members s s' : map members (insts s') = map members (insts s) → cids s' = cids s.
Proof. intros E. unfold cids, all_members. by rewrite E. Qed.
Lemma counted_same s s' : map members (insts s') = map members (insts s) → conn s' = conn s → counted s → counted s'.
Proof. intros E1 E2. unfold counted. by rewrite (cids_members s s' E1), E2. Qed.

Lemma del_members id s : counted s → counted (redsocks_conn_list_del L id s) ∧
  map members (insts (redsocks_conn_list_del L id s)) = map (List.filter (λ c, negb (cid c =? id)%nat)) (map members (insts s)).
Proof.
  intros (H1 & H2 & H3). unfold redsocks_conn_list_del. change (conn_pressure_lowered L ?s) with (redsocks_close_internal L 1 s). destruct (existsb _ _) eqn:E.
  - apply has_cids in E. set (s1 := set_insts _ _). destruct (close_same 1 s1) as [G1 G2]. split; [|rewrite G1; cbn; by rewrite !map_map].
    eapply counted_same; [done..|]. pose proof (filter_length _ _ H2 E) as Hl. pose proof (cids_remove id (set_conn (u32 (conn s - 1)) s)) as Hc. change (cids s1 = List.filter (λ x, negb (x =? id)%nat) (cids s)) in Hc.
    unfold counted. rewrite Hc. change (conn s1) with (u32 (conn s - 1)). rewrite u32_small by lia. split_and!; [lia|by apply filter_nodup|lia].
  - destruct (close_same 1 s) as [G1 G2]. split; [by eapply counted_same|]. rewrite G1. clear -E. induction (insts s) as [|i l IH]; [done|]. cbn [existsb] in E. apply orb_false_iff in E as [E1 E2]. cbn [map]. rewrite <- IH by done. f_equal.
    unfold has_member in E1. induction (members i) as [|c cs IHc]; [done|]. cbn [existsb] in E1. apply orb_false_iff in E1 as [E1 E3]. cbn [List.filter]. rewrite E1. cbn [negb]. f_equal. by apply IHc.
Qed.
Lemma drop_members n id s : counted s → counted (drop_member L n id s) ∧
  map members (insts (drop_member L n id s)) = map (List.filter (λ c, negb (cid c =? id)%nat)) (map members (insts s)).
Proof. intros H. unfold drop_member. destruct (close_same n s) as [G1 G2]. rewrite <- G1. apply del_members. by eapply counted_same. Qed.

(** All clients of a list are dropped. *)
Lemma drop_list cs s : counted s → let s' := fold_left (λ s c, drop_member L (closes (cid c)) (cid c) s) cs s in counted s' ∧
  map members (insts s') = map (List.filter (λ c, negb (existsb (λ d, cid d =? cid c)%nat cs))) (map members (insts s)).
Proof.
  revert s. induction cs as [|d cs IH]; intros s H; cbn [fold_left].
  - split; [done|]. cbn. rewrite <- (map_id (map members (insts s))) at 1. apply map_ext. intros l. by induction l; cbn; f_equal.
  - destruct (drop_members (closes (cid d)) (cid d) s H) as [H1 E1]. destruct (IH _ H1) as [H2 E2]. split; [done|]. rewrite E2, E1, (map_map (List.filter _)). apply map_ext. intros l. clear.
    induction l as [|c l IH]; [done|]. cbn [List.filter existsb]. rewrite (Nat.eqb_sym (cid d) (cid c)). destruct (cid c =? cid d)%nat; cbn [negb orb List.filter]; [done|]. case_match; by rewrite IH.
Qed.
Lemma fini_instance_counted closed s : counted s → counted (redsocks_fini_instance L closes closed s) ∧ length (insts (redsocks_fini_instance L closes closed s)) = pred (length (insts s)).
Proof.
  intros H. unfold redsocks_fini_instance. destruct (insts s) as [|i l] eqn:Ei; [by rewrite Ei|]. destruct (drop_list (members i) s H) as [H1 E1]. set (s1 := fold_left _ _ _) in *. rewrite Ei in E1. cbn [map] in E1.
  assert (Ee : List.filter (λ c, negb (existsb (λ d, cid d =? cid c)%nat (members i))) (members i) = []).
  { destruct (List.filter _ _) as [|c cs] eqn:E; [done|]. assert (Hc : In c (c :: cs)) by (by left). rewrite <- E in Hc. apply List.filter_In in Hc as [Hc Hn]. apply negb_true_iff, not_true_iff_false in Hn. destruct Hn. apply existsb_exists. exists c. split; [done|apply Nat.eqb_refl]. }
  rewrite Ee in E1. destruct (insts s1) as [|j k] eqn:Ej; [done|]. cbn [map] in E1. injection E1 as Ej1 Ej2. set (s2 := set_insts (alter _ _ _) s1). destruct (close_same (if closed then 1 else 0) s2) as [G1 G2].
  change (insts s2) with (Listener false (members j) :: k) in G1. cbn [map members] in G1. rewrite Ej1 in G1. set (s3 := redsocks_close_internal _ _ _) in *. destruct (insts s3) as [|j' k'] eqn:E3; [done|]. cbn [map] in G1. injection G1 as G3 G4. cbn [tail insts set_insts].
  assert (Hc : cids (set_insts k' s3) = cids s1) by (unfold cids, all_members; cbn [insts set_insts]; rewrite Ej; cbn [map]; rewrite G4, Ej1; done).
  split; [unfold counted; rewrite Hc; by rewrite (G2 : conn (set_insts k' s3) = conn s1)|]. cbn [length pred]. apply (f_equal length) in G4, Ej2. rewrite !length_map in G4, Ej2. rewrite length_map in Ej2. lia.
Qed.
Lemma fini_counted closed s : counted s → ∃ s', redsocks_fini L closes closed s = Ret s' ∧ insts s' = [] ∧ conn s' = 0.
Proof.
  intros H. unfold redsocks_fini. assert (G : ∀ k s, counted s → let s' := Nat.iter k (redsocks_fini_instance L closes closed) s in counted s' ∧ length (insts s') = (length (insts s) - k)%nat).
  { clear s H. intros k s H. induction k as [|k [I1 I2]]; [split; [done|cbn; lia]|]. change (Nat.iter (S k) ?f s) with (f (Nat.iter k f s)). destruct (fini_instance_counted closed _ I1) as [J1 J2]. split; [done|]. rewrite J2, I2. lia. }
  destruct (G (length (insts s)) s H) as [(H1 & _) H2]. set (s' := Nat.iter _ _ _) in *. assert (E : insts s' = []) by (apply nil_length_inv; lia).
  assert (Hz : conn s' = 0) by (rewrite H1; unfold cids, all_members; by rewrite E). rewrite Hz. cbn. by exists s'.
Qed.
End Shutdown.

(** Redsocks goes down cleanly: after any sequence of callbacks, in any state of the
    listeners and of the timer, [redsocks_fini] drops every client, takes down every
    instance and finds that no connection is left, whatever the limits are by then, which
    [base_fini] has cleared before. *)
Theorem shutdown_clean L n evs closes closed : limits_ok L → ok_run L evs (pool_init n) →
  ∃ s, prun L evs (pool_init n) = Ret s ∧
    ∀ b, ∃ s', redsocks_fini (base_limits b) closes closed s = Ret s' ∧ insts s' = [] ∧ conn s' = 0.
Proof.
  intros HL Hok. destruct (run_inv L HL evs _ (init_inv L HL n) Hok) as (s & E & (b & Hw & _)). exists s. split; [done|]. intros b'. apply fini_counted.
  destruct HL as (H1 & _). split_and!; [by apply (w_conn L b)|by apply (w_nodup L b)|]. pose proof (w_limit L b s Hw). lia.
Qed.

(** ** Limits *)
Definition fds_per_client (l : list redsocks_config) : Z := if redsocks_has_splice_instance l then 6 else 2.

Lemma step_bind_well {A B} (x : step A) (f : A → step B) t b : x ≫= f = (t, Well b) → ∃ a t1 t2, x = (t1, Well a) ∧ f a = (t2, Well b) ∧ t = t1 ++ t2.
Proof. unfold mbind, step_bind. destruct x as [t1 [a| |]]; cbn; [|done..]. destruct (f a) as [t2 y] eqn:E. intros [= <- ->]. by eexists a, t1, t2. Qed.

(** [base_init] changes nothing of the configuration but the two limits. *)
Lemma init_body_limits os l b t b' : init_body os l b = (t, Well b') → ∃ nofile,
  b' = set_limits nofile (if redsocks_conn_max b =? 0 then default_conn_max nofile (redsocks_has_splice_instance l) else redsocks_conn_max b) b ∧
  (if rlimit_nofile b =? 0 then ∃ n, getrlimit os = Some n ∧ nofile = u32 n else nofile = rlimit_nofile b).
Proof.
  unfold init_body. intros (uid & ? & ? & _ & H & _)%step_bind_well. apply step_bind_well in H as (gid & ? & ? & _ & H & _). apply step_bind_well in H as (? & ? & ? & _ & H & _). apply step_bind_well in H as (b1 & ? & ? & Hl & H & _).
  do 8 (apply step_bind_well in H as (? & ? & ? & _ & H & _)). injection H as _ <-. unfold init_limits in Hl. apply step_bind_well in Hl as (nofile & ? & ? & Hn & Hl & _). injection Hl as _ <-. exists nofile. split; [done|].
  unfold init_nofile in Hn. destruct (Z.eqb_spec (rlimit_nofile b) 0); cbn [negb] in Hn.
  - destruct (getrlimit os) as [n|] eqn:E; [|done]. injection Hn as _ <-. by eexists.
  - apply step_bind_well in Hn as (? & ? & ? & _ & Hn & _). by injection Hn.
Qed.
Lemma default_conn_max_bounds nofile (splice : bool) : 0 ≤ nofile < 2 ^ 32 → let k := if splice then 6 else 2 in
  k * default_conn_max nofile splice ≤ nofile - nofile / 4 ∧ (8 ≤ nofile → 1 ≤ default_conn_max nofile splice) ∧ 0 ≤ default_conn_max nofile splice < 2 ^ 32.
Proof.
  intros Hn k. assert (Hq : 0 ≤ nofile / 4 ∧ 4 * (nofile / 4) ≤ nofile < 4 * (nofile / 4) + 4) by (pose proof (Z.div_mod nofile 4); pose proof (Z.mod_pos_bound nofile 4); lia).
  set (q := nofile / 4) in *. unfold default_conn_max. fold q. rewrite (u32_small (nofile - q)) by lia. fold k. assert (Hk : k = 6 ∨ k = 2) by (subst k; destruct splice; auto).
  assert (Hd : k * ((nofile - q) / k) ≤ nofile - q < k * ((nofile - q) / k) + k) by (pose proof (Z.div_mod (nofile - q) k); pose proof (Z.mod_pos_bound (nofile - q) k); lia).
  set (d := (nofile - q) / k) in *. rewrite u32_small by (destruct Hk as [-> | ->]; lia). destruct Hk as [-> | ->]; lia.
Qed.

(** C34: the default limit fits the descriptors of the process.  If the section [base] sets no
    [redsocks_conn_max] and [base_init] succeeds with at least 8 descriptors, then the limits
    that connection pressure works with are in range, the instance is otherwise unchanged,
    and at any time, after any sequence of callbacks, the clients need at most three
    quarters of the descriptors: two each, or six with the pipes of splice. *)
Theorem descriptors_suffice os l b b' t n evs : base_init os l b = Ret (Some 0, b', t) →
  redsocks_conn_max b = 0 → 0 ≤ rlimit_nofile b < 2 ^ 32 → 8 ≤ rlimit_nofile b' → 0 ≤ connpres_idle_timeout b → 1 ≤ max_accept_backoff_ms b < 2 ^ 32 → ok_run (base_limits b') evs (pool_init n) →
  limits_ok (base_limits b') ∧ b' = set_limits (rlimit_nofile b') (redsocks_conn_max b') b ∧
  ∃ s, prun (base_limits b') evs (pool_init n) = Ret s ∧ fds_per_client l * Z.of_nat (length (cids s)) ≤ rlimit_nofile b' - rlimit_nofile b' / 4.
Proof.
  intros Hinit Hc Hr H8 Hidle Hbo Hok. unfold base_init in Hinit. destruct (configured b); [cbn [negb] in Hinit|by injection Hinit]. destruct (redirector_of b); [|done]. rewrite bind_Ret in Hinit.
  destruct (init_body os l b) as [t' [b1| |]] eqn:E; [injection Hinit as <- <-|by destruct (base_fini b)|done]. apply init_body_limits in E as (nofile & -> & Hn). rewrite Hc in *. cbn [Z.eqb set_limits rlimit_nofile redsocks_conn_max] in *.
  assert (Hnf : 0 ≤ nofile < 2 ^ 32) by (destruct (Z.eqb_spec (rlimit_nofile b) 0); [destruct Hn as (? & _ & ->); unfold u32; by apply Z.mod_pos_bound|lia]).
  destruct (default_conn_max_bounds nofile (redsocks_has_splice_instance l) Hnf) as (D1 & D2 & D3). specialize (D2 H8).
  assert (HL : limits_ok (base_limits (set_limits nofile (default_conn_max nofile (redsocks_has_splice_instance l)) b))) by (unfold limits_ok, base_limits, set_limits; cbn; lia).
  split; [done|]. split; [done|]. destruct (run_inv _ HL evs _ (init_inv _ HL n) Hok) as (s & Es & (bb & Hw & _)). exists s. split; [done|]. pose proof (w_limit _ _ _ Hw) as Hl. rewrite (w_conn _ _ _ Hw) in Hl. cbn in Hl. unfold fds_per_client. destruct (redsocks_has_splice_instance l); lia.
Qed.

(** ** Examples *)
Definition phone : system := System (λ _, None) (λ _, None) (Some 1024) (λ _, true) None.
Definition plain_base : base_instance := Base true None None None (Some (bytes "iptables")) (Some iptables) (Some (bytes "stderr")) false false false 0 0 0 0 0 7440 60000.
Definition two_events : list event := [EAccept (at_time 1) 0 7 (ADone 0); EAccept (at_time 3) 0 8 (ADone 2)].
Definition splice_instance : redsocks_config := fresh_instance (Some (bytes "4.14.186")).

Lemma shutdown_clean_witness : ∃ s, prun two_idle two_events (pool_init 1) = Ret s ∧ conn s = 2 ∧
  ∃ s', redsocks_fini (base_limits zero_base) (λ _, 2%nat) true s = Ret s' ∧ insts s' = [] ∧ conn s' = 0.
Proof.
  destruct (shutdown_clean two_idle 1 two_events (λ _, 2%nat) true) as (s & E & H).
  - repeat split; vm_compute; congruence.
  - unfold two_events. solve_ok.
  - exists s. split; [exact E|]. split; [|exact (H zero_base)]. revert E. vm_compute. by intros [= <-].
Defined.

Lemma descriptors_suffice_witness : ∃ b' t, base_init phone [splice_instance] plain_base = Ret (Some 0, b', t) ∧ redsocks_conn_max b' = 128 ∧
  ∃ s, prun (base_limits b') two_events (pool_init 1) = Ret s ∧ fds_per_client [splice_instance] * Z.of_nat (length (cids s)) ≤ 768.
Proof.
  assert (E : ∃ b' t, base_init phone [splice_instance] plain_base = Ret (Some 0, b', t) ∧ b' = set_limits 1024 128 plain_base) by (eexists _, _; split; vm_compute; reflexivity).
  destruct E as (b' & t & E & Eb). exists b', t. split; [exact E|]. split; [by rewrite Eb|].
  destruct (descriptors_suffice phone [splice_instance] plain_base b' t 1 two_events E) as (_ & _ & s & H1 & H2).
  - reflexivity.
  - cbn. lia.
  - rewrite Eb. cbn. lia.
  - cbn. lia.
  - cbn. lia.
  - rewrite Eb. unfold two_events. solve_ok.
  - exists s. split; [exact H1|]. rewrite Eb in H2. exact H2.
Defined.
