(* ===== verification/SplicePump.v ===== *)
(** * redsocks: the splice pump

    The four callbacks of the splice pump as a step relation over the events
    that are added or active, and what holds in every reachable state: bytes
    are neither lost nor reordered in either direction, the end of file is
    relayed only after the last byte, a direction with pending data always has
    an event that will move it, and every descriptor is closed exactly once. *)
From S2P Require Import Prelude Proto Redsocks Handshake.

(** ** One direction *)

(** Bytes read from the source and not yet written to the destination. *)
Definition pending (c : redsplice_write_ctx) : list Z :=
  default [] (ebsrc0 c) ++ default [] (ebsrc1 c) ++ pi_data (pisrc c).

Definition evshut_ok (x : Z) : Prop := x = 0 ∨ x = 2 ∨ x = 4 ∨ x = 6.
Definition rd_shut (x : Z) : bool := negb (Z.land x EV_READ =? 0).
Definition wr_shut_bit (x : Z) : bool := negb (Z.land x EV_WRITE =? 0).
Definition ev_on (e : event) : bool := ev_added e || ev_active e.

Lemma evshut_lor_w x : evshut_ok x →
  evshut_ok (Z.lor x EV_WRITE) ∧ wr_shut_bit (Z.lor x EV_WRITE) = true ∧
  rd_shut (Z.lor x EV_WRITE) = rd_shut x.
Proof. intros [->|[->|[->| ->]]]; unfold evshut_ok; vm_compute; tauto. Qed.

Lemma evshut_lor_r x : evshut_ok x →
  evshut_ok (Z.lor x EV_READ) ∧ rd_shut (Z.lor x EV_READ) = true ∧
  wr_shut_bit (Z.lor x EV_READ) = wr_shut_bit x.
Proof. intros [->|[->|[->| ->]]]; unfold evshut_ok; vm_compute; tauto. Qed.

(** The fields the draining loops leave alone. *)
Definition drained (c c' : redsplice_write_ctx) : Prop :=
  wr_out c' ++ pending c' = wr_out c ++ pending c ∧
  pi_size (pisrc c') = zlen (pi_data (pisrc c')) ∧
  pi_read (pisrc c') = pi_read (pisrc c) ∧ pi_write (pisrc c') = pi_write (pisrc c) ∧
  wevsrc c' = wevsrc c ∧ wevdst c' = wevdst c ∧
  wshut_src c' = wshut_src c ∧ wshut_dst c' = wshut_dst c ∧
  wr_closed c' = wr_closed c ∧ wr_eof c' = wr_eof c.

Lemma drain_source_spec src r l o d :
  drain_source src r = (l, o, d) →
  o ++ l = src ∧
  (d = DrainErr ∨ (d = Decide true false ∧ l ≠ []) ∨ (d = DrainNext false ∧ l = [])).
Proof.
  unfold drain_source. case_match eqn:E; bool_hyps.
  { intros [= <- <- <-]. destruct src; [|done]. split; [done|]. by right; right. }
  destruct r as [| |n]; intros [= <- <- <-]; [split; [done|]; right; left; split; [done|]; by destruct src
    |by split; [|left]|].
  split; [apply take_drop|]. case_match eqn:E2; bool_hyps.
  - right; right. split; [done|]. apply skipn_all2. lia.
  - right; left. split; [done|]. intros Hd. apply (f_equal length) in Hd.
    rewrite length_drop in Hd. simpl in Hd. lia.
Qed.

Lemma drain_evbuffer_spec eb r l o d :
  drain_evbuffer eb false r = (l, o, d) →
  o ++ default [] l = default [] eb ∧
  (d = DrainErr ∨ (d = Decide true false ∧ default [] l ≠ []) ∨ (d = DrainNext false ∧ default [] l = [])).
Proof.
  destruct eb as [src|]; simpl.
  - destruct (drain_source src r) as [[l' o'] d'] eqn:E. intros [= <- <- <-]. by apply (drain_source_spec src r).
  - intros [= <- <- <-]. split; [done|]. by right; right.
Qed.

Lemma drain_pipe_spec p r p' o d :
  drain_pipe p r = (p', o, d) → pi_size p = zlen (pi_data p) →
  o ++ pi_data p' = pi_data p ∧ pi_size p' = zlen (pi_data p') ∧
  pi_read p' = pi_read p ∧ pi_write p' = pi_write p ∧
  (d = DrainErr ∨ (d = Decide true false ∧ pi_data p' ≠ []) ∨ (d = DrainNext false ∧ pi_data p' = [])).
Proof.
  intros Hd Hs. unfold drain_pipe in Hd. destruct (pi_size p =? 0) eqn:E; bool_hyps.
  { injection Hd as <- <- <-. split_and!; [done..|]. right; right. split; [done|].
    destruct (pi_data p); [done|simpl in *; lia]. }
  destruct r as [| |n]; injection Hd as <- <- <-.
  - split_and!; [done..|]. right; left. split; [done|]. intros H. rewrite H in Hs. simpl in Hs. lia.
  - split_and!; [done..|]. by left.
  - cbn [pi_data pi_size pi_read pi_write]. split_and!; [apply take_drop| |done..|].
    + rewrite length_drop. lia.
    + case_match eqn:E2; bool_hyps.
      * right; right. split; [done|]. apply skipn_all2. lia.
      * right; left. split; [done|]. intros H. apply (f_equal length) in H.
        rewrite length_drop in H. simpl in H. lia.
Qed.

Lemma redsplice_drain_spec c r0 r1 r2 c' d :
  redsplice_drain c r0 r1 r2 = (c', d) → pi_size (pisrc c) = zlen (pi_data (pisrc c)) →
  drained c c' ∧
  (d = DrainErr ∨ (d = Decide true false ∧ pending c' ≠ []) ∨ (d = DrainNext false ∧ pending c' = [])).
Proof.
  intros Hd Hs. unfold redsplice_drain in Hd.
  destruct (drain_evbuffer (ebsrc0 c) false r0) as [[e0 o0] d0] eqn:E0.
  apply drain_evbuffer_spec in E0 as [H0 D0]. cbn [ebsrc1 pisrc ebsrc0] in Hd.
  assert (Hp0 : o0 ++ default [] e0 ++ default [] (ebsrc1 c) ++ pi_data (pisrc c) = pending c).
  { unfold pending. by rewrite app_assoc, H0. }
  destruct D0 as [->|[[-> N0]|[-> N0]]].
  1,2: injection Hd as <- <-; unfold drained, pending; cbn; rewrite <- app_assoc, Hp0;
    split; [by split_and!|]; first [by left|right; left; split; [done|]; by destruct (default [] e0)].
  destruct (drain_evbuffer (ebsrc1 c) false r1) as [[e1 o1] d1] eqn:E1.
  apply drain_evbuffer_spec in E1 as [H1 D1]. rewrite N0 in Hp0.
  assert (Hp1 : o0 ++ o1 ++ default [] e1 ++ pi_data (pisrc c) = pending c).
  { rewrite <- Hp0. cbn [app]. by rewrite (app_assoc o1), H1. }
  destruct D1 as [->|[[-> N1]|[-> N1]]].
  1,2: injection Hd as <- <-; unfold drained, pending; cbn; rewrite N0, <- !app_assoc; cbn [app];
    rewrite Hp1; split; [by split_and!|]; first [by left|right; left; split; [done|]; by destruct (default [] e1)].
  destruct (drain_pipe (pisrc c) r2) as [[p o2] d2] eqn:E2.
  apply drain_pipe_spec in E2 as (H2 & Hs2 & Hr & Hw & D2); [|done].
  injection Hd as <- <-. unfold drained, pending. cbn. rewrite N0, N1. cbn [app]. split.
  - split_and!; try done. rewrite <- !app_assoc, H2. f_equal. rewrite N1 in Hp1. exact Hp1.
  - done.
Qed.

(** Result of the write callback of a direction. *)
Inductive write_effect (c c' : redsplice_write_ctx) (dropped : bool) : Prop :=
| WrFailed :
    dropped = true → wshut_dst c' = wshut_dst c → wr_eof c' = wr_eof c → wr_closed c' = wr_closed c →
    pi_read (pisrc c') = pi_read (pisrc c) → pi_write (pisrc c') = pi_write (pisrc c) →
    write_effect c c' dropped
| WrMore :
    dropped = false → pending c' ≠ [] → ev_added (wevdst c') = true →
    wevsrc c' = event_del (wevsrc c) → ev_fd (wevdst c') = ev_fd (wevdst c) →
    wshut_dst c' = wshut_dst c → wr_eof c' = wr_eof c → wr_closed c' = wr_closed c →
    pi_read (pisrc c') = pi_read (pisrc c) → pi_write (pisrc c') = pi_write (pisrc c) →
    write_effect c c' dropped
| WrIdle :
    dropped = false → pending c' = [] → wevsrc c' = event_add (wevsrc c) →
    wevdst c' = event_del (wevdst c) →
    rd_shut (wshut_src c) = false ∨ wr_shut_bit (wshut_dst c) = true →
    wshut_dst c' = wshut_dst c → wr_eof c' = wr_eof c → wr_closed c' = wr_closed c →
    pi_read (pisrc c') = pi_read (pisrc c) → pi_write (pisrc c') = pi_write (pisrc c) →
    write_effect c c' dropped
| WrEof :
    pending c' = [] → rd_shut (wshut_src c) = true → wr_shut_bit (wshut_dst c) = false →
    (dropped = false → wevsrc c' = event_del (wevsrc c) ∧ wevdst c' = event_del (wevdst c)) →
    (dropped = true → wevsrc c' = wevsrc c ∧ wevdst c' = wevdst c) →
    wshut_dst c' = Z.lor (wshut_dst c) EV_WRITE → wr_eof c' = true →
    wr_closed c' = wr_closed c ++ [pi_read (pisrc c); pi_write (pisrc c)] →
    pi_read (pisrc c') = -1 → pi_write (pisrc c') = -1 →
    write_effect c c' dropped.

Lemma redsplice_write_cb_spec c r0 r1 r2 c' dropped :
  redsplice_write_cb c r0 r1 r2 = (c', dropped) → pi_size (pisrc c) = zlen (pi_data (pisrc c)) →
  wr_out c' ++ pending c' = wr_out c ++ pending c ∧
  pi_size (pisrc c') = zlen (pi_data (pisrc c')) ∧ wshut_src c' = wshut_src c ∧
  write_effect c c' dropped.
Proof.
  intros H Hs. unfold redsplice_write_cb in H.
  destruct (redsplice_drain c r0 r1 r2) as [x d] eqn:Ed.
  apply redsplice_drain_spec in Ed as [(P & S & R & W & Es & Ede & Ss & Sd & C & F) D]; [|done].
  destruct D as [->|[[-> N]|[-> N]]].
  - injection H as <- <-. split_and!; [done..|]. by apply WrFailed.
  - unfold redsplice_decide in H. cbn in H. injection H as <- <-. split_and!; [done..|].
    apply WrMore; cbn; first [exact N|congruence].
  - unfold redsplice_decide in H. cbn [negb andb] in H.
    fold (rd_shut (wshut_src x)) in H. rewrite <- (negb_involutive (Z.land (wshut_dst x) EV_WRITE =? 0)) in H.
    fold (wr_shut_bit (wshut_dst x)) in H. rewrite Ss, Sd in H.
    destruct (rd_shut (wshut_src c)) eqn:Er, (wr_shut_bit (wshut_dst c)) eqn:Ew; cbn [negb andb] in H.
    2:{ cbn [wshut_dst wshut_src pisrc] in H. case_match.
        - injection H as <- <-. split_and!; cbn; try congruence; try done. apply WrEof; cbn; first [exact N|congruence|by intros].
        - cbn in H. injection H as <- <-. split_and!; cbn; try congruence; try done.
          apply WrEof; cbn; first [exact N|congruence|intros; done || by rewrite Es, Ede]. }
    all: cbn in H; injection H as <- <-; split_and!; cbn; try congruence; try done;
      apply WrIdle; cbn; first [exact N|congruence|auto].
Qed.

(** ** The two directions of a client *)
Definition dir_inv (base sent got : list Z) (x : redsplice_write_ctx) : Prop :=
  evshut_ok (wshut_src x) ∧ evshut_ok (wshut_dst x) ∧
  pi_size (pisrc x) = zlen (pi_data (pisrc x)) ∧
  sent ++ pending x = base ++ got ∧
  if wr_shut_bit (wshut_dst x) then
    pending x = [] ∧ rd_shut (wshut_src x) = true ∧ ev_on (wevsrc x) = false ∧
    ev_on (wevdst x) = false ∧ pi_read (pisrc x) = -1 ∧ pi_write (pisrc x) = -1
  else
    0 ≤ pi_read (pisrc x) ∧ 0 ≤ pi_write (pisrc x) ∧
    (pending x ≠ [] ∨ rd_shut (wshut_src x) = true → ev_on (wevdst x) = true) ∧
    (ev_on (wevdst x) = true ∨ ev_on (wevsrc x) = true).

Definition fired (e : event) : event := Event (ev_fd e) (ev_added e) false.

(** Preservation by the write callback, run when its event fires. *)
Lemma dir_inv_write base sent got x r0 r1 r2 x' dropped :
  dir_inv base sent got x → wr_shut_bit (wshut_dst x) = false → wr_out x = [] →
  redsplice_write_cb (WCtx (ebsrc0 x) (ebsrc1 x) (pisrc x) (wevsrc x) (fired (wevdst x))
     (wshut_src x) (wshut_dst x) [] (wr_closed x) (wr_eof x)) r0 r1 r2 = (x', dropped) →
  (sent ++ wr_out x') ++ pending x' = base ++ got ∧
  (dropped = false → dir_inv base (sent ++ wr_out x') got x') ∧
  (wr_eof x = false → wr_eof x' = true → pending x' = []).
Proof.
  intros (O1 & O2 & Hs & Hp & Hw) Hbit Hout H. rewrite Hbit in Hw. destruct Hw as (F1 & F2 & E1 & E2).
  apply redsplice_write_cb_spec in H as (Hcons & Hs' & Hsrc & Heff); [|done].
  cbn [wr_out app pisrc wshut_src wshut_dst wevsrc wevdst wr_eof wr_closed] in *.
  assert (Hnew : (sent ++ wr_out x') ++ pending x' = base ++ got).
  { rewrite <- app_assoc, Hcons. exact Hp. }
  split; [done|]. 
  destruct Heff as [Hd|Hd Hpe Ea Es Ef Hds Heo Hcl Hr Hw|Hd Hpe Es Ed Hrd Hds Heo Hcl Hr Hw
                   |Hpe Hrd Hwb Hev _ Hds Heo Hcl Hr Hw]; cbn in *.
  - split; congruence.
  - split; [|congruence]. intros _. unfold dir_inv. rewrite Hsrc, Hds, Hbit, Hr, Hw.
    split_and!; try done; unfold ev_on; rewrite Ea; auto.
  - split; [|congruence]. intros _. unfold dir_inv. rewrite Hsrc, Hds, Hbit, Hr, Hw.
    split_and!; try done; rewrite ?Es, ?Ed; [|by right]. intros [?|Hx]; [done|].
    destruct Hrd as [Hrd|Hrd]; congruence.
  - split; [|done]. intros Hd. destruct (Hev Hd) as [Hes Hed]. unfold dir_inv.
    destruct (evshut_lor_w _ O2) as (L1 & L2 & L3). rewrite Hsrc, Hds, L2, Hes, Hed. by split_and!.
Qed.

Lemma dir_inv_read base sent got x r rx dropped :
  dir_inv base sent got x → wr_shut_bit (wshut_dst x) = false →
  (r = RdBlock → 0 < pi_size (pisrc x)) →
  redsplice_read_cb (RCtx (pisrc x) (wevsrc x) (wevdst x) (wshut_src x) []) r = (rx, dropped) →
  dir_inv base sent (got ++ rd_in rx)
    (WCtx (ebsrc0 x) (ebsrc1 x) (rdst rx) (revsrc rx) (revdst rx) (rshut_src rx) (wshut_dst x)
       (wr_out x) (wr_closed x) (wr_eof x)).
Proof.
  intros (O1 & O2 & Hs & Hp & Hw) Hbit Hb H. rewrite Hbit in Hw. destruct Hw as (F1 & F2 & E1 & E2).
  destruct r as [| |bs]; cbn in H; injection H as <- <-;
    [|by unfold dir_inv; cbn; rewrite Hbit, app_nil_r; split_and!|].
  - unfold dir_inv. cbn. rewrite Hbit, app_nil_r. split_and!; try done. left. apply E1. left.
    unfold pending. specialize (Hb eq_refl). intros Hn.
    apply app_eq_nil in Hn as [_ Hn]. apply app_eq_nil in Hn as [_ Hn]. rewrite Hn in Hs. simpl in Hs. lia.
  - destruct (zlen bs =? 0) eqn:Eb; cbn; unfold dir_inv; cbn; rewrite Hbit, ?app_nil_r.
    + destruct (evshut_lor_r _ O1) as (L1 & L2 & L3). unfold ev_on. cbn. rewrite orb_true_r.
      split_and!; auto.
    + unfold ev_on. cbn. rewrite orb_true_r. split_and!; auto.
      * rewrite length_app. lia.
      * unfold pending in *. cbn. by rewrite !app_assoc, <- Hp, !app_assoc.
Qed.

(** Preservation by what the other direction and the freeing of buffers change. *)
Lemma dir_inv_other base sent got x y :
  dir_inv base sent got x →
  pending y = pending x → pisrc y = pisrc x → wevsrc y = wevsrc x → wevdst y = wevdst x →
  evshut_ok (wshut_src y) → evshut_ok (wshut_dst y) →
  rd_shut (wshut_src y) = rd_shut (wshut_src x) → wr_shut_bit (wshut_dst y) = wr_shut_bit (wshut_dst x) →
  dir_inv base sent got y.
Proof. intros H H1 H2 H3 H4 H5 H6 H7 H8. unfold dir_inv in *. rewrite H1, H2, H3, H4, H7, H8. tauto. Qed.

(** ** Descriptors *)
Definition fdl (z : Z) : list Z := if z =? -1 then [] else [z].
Definition pipe_fds (p : splice_pipe) : list Z := fdl (pi_read p) ++ fdl (pi_write p).

Lemma fdl_open z : 0 ≤ z → fdl z = [z].
Proof. intros. unfold fdl. by if_false. Qed.

Lemma write_cb_fds x r0 r1 r2 x' dropped :
  redsplice_write_cb x r0 r1 r2 = (x', dropped) → pi_size (pisrc x) = zlen (pi_data (pisrc x)) →
  (wr_shut_bit (wshut_dst x) = false → 0 ≤ pi_read (pisrc x) ∧ 0 ≤ pi_write (pisrc x)) →
  wr_closed x' ++ pipe_fds (pisrc x') = wr_closed x ++ pipe_fds (pisrc x).
Proof.
  intros H Hs Hop. apply redsplice_write_cb_spec in H as (_ & _ & _ & Heff); [|done]. unfold pipe_fds.
  destruct Heff as [?? ? Hc Hr Hw|???????? Hr Hw|???????? Hr Hw|?? Hb ???? Hc Hr Hw]; rewrite Hr, Hw; try congruence.
  destruct (Hop Hb). rewrite (fdl_open (pi_read (pisrc x))), (fdl_open (pi_write (pisrc x))), Hc by lia.
  by rewrite <- app_assoc.
Qed.

Lemma write_cb_evfds x r0 r1 r2 x' dropped :
  redsplice_write_cb x r0 r1 r2 = (x', dropped) →
  ev_fd (wevsrc x') = ev_fd (wevsrc x) ∧ ev_fd (wevdst x') = ev_fd (wevdst x).
Proof.
  unfold redsplice_write_cb, redsplice_drain, redsplice_decide. intros H.
  repeat (case_match; simplify_eq/=); done.
Qed.

Lemma read_cb_fds x r x' dropped :
  redsplice_read_cb x r = (x', dropped) →
  ev_fd (revsrc x') = ev_fd (revsrc x) ∧ ev_fd (revdst x') = ev_fd (revdst x) ∧
  pipe_fds (rdst x') = pipe_fds (rdst x).
Proof.
  unfold redsplice_read_cb. intros H. repeat (case_match; simplify_eq/=); done.
Qed.

Lemma write_cb_shut x r0 r1 r2 x' dropped :
  redsplice_write_cb x r0 r1 r2 = (x', dropped) → pi_size (pisrc x) = zlen (pi_data (pisrc x)) →
  evshut_ok (wshut_dst x) → wr_shut_bit (wshut_dst x) = false → wr_eof x = false →
  wshut_src x' = wshut_src x ∧ evshut_ok (wshut_dst x') ∧
  rd_shut (wshut_dst x') = rd_shut (wshut_dst x) ∧ wr_shut_bit (wshut_dst x') = wr_eof x'.
Proof.
  intros H Hs Ho Hb He. apply redsplice_write_cb_spec in H as (_ & _ & Hsrc & Heff); [|done].
  destruct (evshut_lor_w _ Ho) as (L1 & L2 & L3).
  destruct Heff as [? Hd Heo|?????  Hd Heo|????? Hd Heo|????? Hd Heo]; rewrite Hd, Heo; split_and!; congruence.
Qed.

(** Freed buffers stay freed. *)
Lemma write_cb_shape x r0 r1 r2 x' dropped :
  redsplice_write_cb x r0 r1 r2 = (x', dropped) →
  is_Some (ebsrc0 x') ∧ is_Some (ebsrc0 x) ∨ ebsrc0 x' = None ∧ ebsrc0 x = None.
Proof.
  unfold redsplice_write_cb, redsplice_drain, redsplice_decide, drain_evbuffer. intros H.
  destruct (ebsrc0 x) as [src|].
  - left. split; [|done]. repeat (case_match; simplify_eq/=); done.
  - right. split; [|done]. repeat (case_match; simplify_eq/=); done.
Qed.

Lemma write_cb_shape1 x r0 r1 r2 x' dropped :
  redsplice_write_cb x r0 r1 r2 = (x', dropped) →
  is_Some (ebsrc1 x') ∧ is_Some (ebsrc1 x) ∨ ebsrc1 x' = None ∧ ebsrc1 x = None.
Proof.
  unfold redsplice_write_cb, redsplice_drain, redsplice_decide, drain_evbuffer. intros H.
  destruct (ebsrc1 x) as [src|] eqn:E1.
  - left. split; [|done]. repeat (case_match; simplify_eq/=); try done; by rewrite E1.
  - right. split; [|done]. repeat (case_match; simplify_eq/=); done.
Qed.

(** ** The pump as a transition system *)
Section Pump.
Context {P : Type}.
Implicit Types c : redsocks_client P.

Definition request_ctx c : redsplice_write_ctx :=
  WCtx (bev_output_of (relay c)) (bev_input_of (client c)) (request (pump c)) (client_read (pump c))
    (relay_write (pump c)) (client_evshut c) (relay_evshut c) [] [] false.
Definition reply_ctx c : redsplice_write_ctx :=
  WCtx (bev_output_of (client c)) (bev_input_of (relay c)) (reply (pump c)) (relay_read (pump c))
    (client_write (pump c)) (relay_evshut c) (client_evshut c) [] [] false.

(** An event that fires is no longer active. *)
Definition fire_relay_write c : redsocks_client P :=
  let p := pump c in
  set_pump (Pump (request p) (reply p) (client_read p) (client_write p) (relay_read p)
              (fired (relay_write p))) c.
Definition fire_client_write c : redsocks_client P :=
  let p := pump c in
  set_pump (Pump (request p) (reply p) (client_read p) (fired (client_write p)) (relay_read p)
              (relay_write p)) c.

(** A read would block only when the pipe is full: there is data at the socket. *)
Inductive splice_step c : hres P → Prop :=
| StepClientRead e r :
    ev_on (client_read (pump c)) = true → (r = RdBlock → 0 < pi_size (request (pump c))) →
    splice_step c (redsplice_client_read e c r)
| StepRelayRead e r :
    ev_on (relay_read (pump c)) = true → (r = RdBlock → 0 < pi_size (reply (pump c))) →
    splice_step c (redsplice_relay_read e c r)
| StepRelayWrite e r0 r1 r2 :
    ev_on (relay_write (pump c)) = true →
    splice_step c (redsplice_relay_write e (fire_relay_write c) r0 r1 r2)
| StepClientWrite e r0 r1 r2 :
    ev_on (client_write (pump c)) = true →
    splice_step c (redsplice_client_write e (fire_client_write c) r0 r1 r2).

Inductive splice_reach c0 : hres P → Prop :=
| ReachStart : splice_reach c0 (Alive c0)
| ReachStep c r : splice_reach c0 (Alive c) → splice_step c r → splice_reach c0 r.

(** [msgs]: what was to be sent to the proxy first; [hb]: the proxy's bytes
    consumed by the handshake. *)
Definition log_ok (msgs hb : list Z) (l : io_log) : Prop :=
  (∃ rest, msgs ++ from_client l = to_relay l ++ rest) ∧
  (∃ rest, from_relay l = hb ++ to_client l ++ rest) ∧
  (SRelay ∈ wr_shut l → to_relay l = msgs ++ from_client l) ∧
  (SClient ∈ wr_shut l → from_relay l = hb ++ to_client l).

Definition log_of (r : hres P) : io_log := match r with Alive c => io c | Dropped l => l end.

(** The log after a write callback: bytes sent, descriptors closed, end of file. *)
Definition wlog (s : side) (bs cl : list Z) (eof : bool) (l : io_log) : io_log :=
  let l := add_closed cl (add_sent s bs l) in if eof then add_wr_shut s l else l.

Lemma wlog_relay bs cl eof l :
  to_relay (wlog SRelay bs cl eof l) = to_relay l ++ bs ∧ to_client (wlog SRelay bs cl eof l) = to_client l ∧
  from_relay (wlog SRelay bs cl eof l) = from_relay l ∧ from_client (wlog SRelay bs cl eof l) = from_client l ∧
  closed (wlog SRelay bs cl eof l) = closed l ++ cl.
Proof. by destruct eof. Qed.
Lemma wlog_client bs cl eof l :
  to_relay (wlog SClient bs cl eof l) = to_relay l ∧ to_client (wlog SClient bs cl eof l) = to_client l ++ bs ∧
  from_relay (wlog SClient bs cl eof l) = from_relay l ∧ from_client (wlog SClient bs cl eof l) = from_client l ∧
  closed (wlog SClient bs cl eof l) = closed l ++ cl.
Proof. by destruct eof. Qed.
Lemma wlog_wr_shut s bs cl eof l s' :
  s' ∈ wr_shut (wlog s bs cl eof l) → s' ∈ wr_shut l ∨ s' = s ∧ eof = true.
Proof.
  destruct eof, s; cbn; try (by left); intros H; apply elem_of_app in H as [H|H]; try (by left);
    apply list_elem_of_singleton in H; by right.
Qed.

Lemma wlog_relay_ok msgs hb bs cl eof l rest :
  log_ok msgs hb l → to_relay l ++ bs ++ rest = msgs ++ from_client l →
  (eof = true → rest = []) → SRelay ∉ wr_shut l → log_ok msgs hb (wlog SRelay bs cl eof l).
Proof.
  intros (L1 & L2 & L3 & L4) Hr He Hn.
  destruct (wlog_relay bs cl eof l) as (T1 & T2 & T3 & T4 & _). unfold log_ok. rewrite T1, T2, T3, T4.
  split_and!; [|done| |].
  - exists rest. by rewrite <- app_assoc.
  - intros H. apply wlog_wr_shut in H as [H|[_ H]]; [done|]. by rewrite <- Hr, (He H), app_nil_r.
  - intros H. apply wlog_wr_shut in H as [H|[H _]]; [by apply L4|done].
Qed.
Lemma wlog_client_ok msgs hb bs cl eof l rest :
  log_ok msgs hb l → hb ++ to_client l ++ bs ++ rest = from_relay l →
  (eof = true → rest = []) → SClient ∉ wr_shut l → log_ok msgs hb (wlog SClient bs cl eof l).
Proof.
  intros (L1 & L2 & L3 & L4) Hr He Hn.
  destruct (wlog_client bs cl eof l) as (T1 & T2 & T3 & T4 & _). unfold log_ok. rewrite T1, T2, T3, T4.
  split_and!; [done| | |].
  - exists rest. by rewrite <- app_assoc.
  - intros H. apply wlog_wr_shut in H as [H|[H _]]; [by apply L3|done].
  - intros H. apply wlog_wr_shut in H as [H|[_ H]]; [done|]. by rewrite <- Hr, (He H), app_nil_r.
Qed.

Definition splice_inv (msgs hb fds : list Z) c : Prop :=
  use_splice (instance c) = true ∧
  (∀ s b, bev s c = Some b → bev_fd b = -1) ∧
  dir_inv msgs (to_relay (io c)) (from_client (io c)) (request_ctx c) ∧
  dir_inv [] (hb ++ to_client (io c)) (from_relay (io c)) (reply_ctx c) ∧
  (SRelay ∈ wr_shut (io c) → wr_shut_bit (relay_evshut c) = true) ∧
  (SClient ∈ wr_shut (io c) → wr_shut_bit (client_evshut c) = true) ∧
  closed (io c) ++ open_fds c ≡ₚ fds.

Definition res_inv (msgs hb fds : list Z) (r : hres P) : Prop :=
  match r with
  | Alive c => splice_inv msgs hb fds c
  | Dropped l => log_ok msgs hb l ∧ closed l ≡ₚ fds
  end.

Lemma splice_inv_log msgs hb fds c : splice_inv msgs hb fds c → log_ok msgs hb (io c).
Proof.
  intros (_ & _ & (_ & _ & _ & R1 & R2) & (_ & _ & _ & Q1 & Q2) & W1 & W2 & _). split_and!.
  - by eexists.
  - eexists. rewrite app_assoc. by symmetry.
  - intros H. cbn [request_ctx wshut_dst] in R2. rewrite (W1 H) in R2. destruct R2 as [R2 _].
    by rewrite R2, app_nil_r in R1.
  - intros H. cbn [reply_ctx wshut_dst] in Q2. rewrite (W2 H) in Q2. destruct Q2 as [Q2 _].
    by rewrite Q2, app_nil_r in Q1.
Qed.

Lemma free_unused_output b : default [] (bev_output_of (bufferevent_free_unused b)) = default [] (bev_output_of b).
Proof.
  destruct b as [b|]; [|done]. simpl. case_match eqn:E; [|done]. bool_hyps. destruct E as [_ E].
  cbn. by destruct (bev_output b).
Qed.
Lemma free_unused_input b : default [] (bev_input_of (bufferevent_free_unused b)) = default [] (bev_input_of b).
Proof.
  destruct b as [b|]; [|done]. simpl. case_match eqn:E; [|done]. bool_hyps. destruct E as [E _].
  cbn. by destruct (bev_input b).
Qed.
Lemma free_unused_some b v : bufferevent_free_unused b = Some v → b = Some v.
Proof. destruct b as [b|]; simpl; [|done]. by case_match. Qed.

Lemma open_fds_eq c :
  use_splice (instance c) = true → (∀ s b, bev s c = Some b → bev_fd b = -1) →
  open_fds c = pipe_fds (request (pump c)) ++ pipe_fds (reply (pump c)) ++
               fdl (ev_fd (client_read (pump c))) ++ fdl (ev_fd (relay_read (pump c))).
Proof.
  intros Hu Hb. unfold open_fds, pipe_fds. rewrite Hu, <- !app_assoc.
  pose proof (Hb SClient) as Hc. pose proof (Hb SRelay) as Hr. cbn [bev] in Hc, Hr.
  destruct (client c) as [bc|]; [rewrite (Hc bc eq_refl)|];
    (destruct (relay c) as [br|]; [rewrite (Hr br eq_refl)|]); done.
Qed.

Lemma touch_pump_inv msgs hb fds e c :
  splice_inv msgs hb fds c → splice_inv msgs hb fds (redsocks_touch_pump e c).
Proof.
  intros (Hu & Hb & Hq & Hp & W1 & W2 & Hf).
  assert (Hb' : ∀ s b, bev s (redsocks_touch_pump e c) = Some b → bev_fd b = -1).
  { intros s b H. apply (Hb s). destruct s; by apply free_unused_some. }
  split_and!; [done|done| | |done|done|].
  - pose proof Hq as (O1 & O2 & _). eapply dir_inv_other; [exact Hq|..]; try done.
    unfold pending, request_ctx. cbn. by rewrite free_unused_output, free_unused_input.
  - pose proof Hp as (O1 & O2 & _). eapply dir_inv_other; [exact Hp|..]; try done.
    unfold pending, reply_ctx. cbn. by rewrite free_unused_output, free_unused_input.
  - rewrite open_fds_eq in * by done. done.
Qed.

Lemma drop_inv msgs hb fds c :
  log_ok msgs hb (io c) → closed (io c) ++ open_fds c ≡ₚ fds → res_inv msgs hb fds (redsocks_drop_client c).
Proof. done. Qed.

Lemma read_cb_shut x r x' dropped :
  redsplice_read_cb x r = (x', dropped) → evshut_ok (rshut_src x) →
  wr_shut_bit (rshut_src x') = wr_shut_bit (rshut_src x).
Proof.
  unfold redsplice_read_cb. intros H Ho. destruct (evshut_lor_r _ Ho) as (_ & _ & L).
  repeat (case_match; simplify_eq/=); done.
Qed.

Lemma client_read_inv msgs hb fds e c r :
  splice_inv msgs hb fds c → ev_on (client_read (pump c)) = true →
  (r = RdBlock → 0 < pi_size (request (pump c))) →
  res_inv msgs hb fds (redsplice_client_read e c r).
Proof.
  intros Hinv Hon Hblk. apply (touch_pump_inv _ _ _ e) in Hinv. unfold redsplice_client_read.
  set (c1 := redsocks_touch_pump e c) in *.
  destruct (redsplice_read_cb _ r) as [x dropped] eqn:Ex.
  set (c2 := set_io _ _). enough (splice_inv msgs hb fds c2).
  { destruct dropped; [|done]. apply drop_inv; [by eapply splice_inv_log|]. by destruct H as (_ & _ & _ & _ & _ & _ & ?). }
  destruct Hinv as (Hu & Hb & Hq & Hp & W1 & W2 & Hf).
  assert (Hbit : wr_shut_bit (relay_evshut c1) = false).
  { destruct Hq as (_ & _ & _ & _ & Hq). cbn [request_ctx wshut_dst] in Hq.
    destruct (wr_shut_bit _); [|done]. destruct Hq as (_ & _ & Hq & _). cbn in Hq. congruence. }
  pose proof (dir_inv_read _ _ _ (request_ctx c1) r x dropped Hq Hbit Hblk Ex) as Hq'.
  pose proof (read_cb_shut _ _ _ _ Ex (proj1 Hq)) as Hw. cbn [rshut_src] in Hw.
  destruct (read_cb_fds _ _ _ _ Ex) as (F1 & F2 & F3). cbn [revsrc revdst rdst] in F1, F2, F3.
  split_and!; [done|exact Hb|exact Hq'| |done| |].
  - pose proof Hp as (O1 & _). pose proof Hq' as (O2 & _).
    eapply dir_inv_other; [exact Hp|..]; try done.
  - intros H. cbn. rewrite Hw. by apply W2.
  - rewrite open_fds_eq in * by done. cbn. rewrite F1, F3. done.
Qed.

Lemma relay_read_inv msgs hb fds e c r :
  splice_inv msgs hb fds c → ev_on (relay_read (pump c)) = true →
  (r = RdBlock → 0 < pi_size (reply (pump c))) →
  res_inv msgs hb fds (redsplice_relay_read e c r).
Proof.
  intros Hinv Hon Hblk. apply (touch_pump_inv _ _ _ e) in Hinv. unfold redsplice_relay_read.
  set (c1 := redsocks_touch_pump e c) in *.
  destruct (redsplice_read_cb _ r) as [x dropped] eqn:Ex.
  set (c2 := set_io _ _). enough (splice_inv msgs hb fds c2).
  { destruct dropped; [|done]. apply drop_inv; [by eapply splice_inv_log|]. by destruct H as (_ & _ & _ & _ & _ & _ & ?). }
  destruct Hinv as (Hu & Hb & Hq & Hp & W1 & W2 & Hf).
  assert (Hbit : wr_shut_bit (client_evshut c1) = false).
  { destruct Hp as (_ & _ & _ & _ & Hp). cbn [reply_ctx wshut_dst] in Hp.
    destruct (wr_shut_bit _); [|done]. destruct Hp as (_ & _ & Hp & _). cbn in Hp. congruence. }
  pose proof (dir_inv_read _ _ _ (reply_ctx c1) r x dropped Hp Hbit Hblk Ex) as Hp'.
  pose proof (read_cb_shut _ _ _ _ Ex (proj1 Hp)) as Hw. cbn [rshut_src] in Hw.
  destruct (read_cb_fds _ _ _ _ Ex) as (F1 & F2 & F3). cbn [revsrc revdst rdst] in F1, F2, F3.
  split_and!; [done|exact Hb| |exact Hp'| |done|].
  - pose proof Hq as (O1 & _). pose proof Hp' as (O2 & _).
    eapply dir_inv_other; [exact Hq|..]; try done.
  - intros H. cbn. rewrite Hw. by apply W1.
  - rewrite open_fds_eq in * by done. cbn. rewrite F1, F3. done.
Qed.

Lemma put_output_pending (o : option (list Z)) b :
  is_Some o ∧ is_Some (bev_output_of b) ∨ o = None ∧ bev_output_of b = None →
  bev_output_of (put_output o b) = o ∧ bev_input_of (put_output o b) = bev_input_of b.
Proof. destruct b, o; simpl; intros [[??]|[??]]; try done; by (destruct H || destruct H0). Qed.
Lemma put_input_pending (i : option (list Z)) b :
  is_Some i ∧ is_Some (bev_input_of b) ∨ i = None ∧ bev_input_of b = None →
  bev_input_of (put_input i b) = i ∧ bev_output_of (put_input i b) = bev_output_of b.
Proof. destruct b, i; simpl; intros [[??]|[??]]; try done; by (destruct H || destruct H0). Qed.
Lemma put_output_fd o b v : put_output o b = Some v → ∃ v', b = Some v' ∧ bev_fd v = bev_fd v'.
Proof. destruct b as [w|], o; simpl; intros [= <-]; by exists w. Qed.
Lemma put_input_fd i b v : put_input i b = Some v → ∃ v', b = Some v' ∧ bev_fd v = bev_fd v'.
Proof. destruct b as [w|], i; simpl; intros [= <-]; by exists w. Qed.

Lemma relay_write_inv msgs hb fds e c r0 r1 r2 :
  splice_inv msgs hb fds c → ev_on (relay_write (pump c)) = true →
  res_inv msgs hb fds (redsplice_relay_write e (fire_relay_write c) r0 r1 r2).
Proof.
  intros Hinv Hon. apply (touch_pump_inv _ _ _ e) in Hinv. unfold redsplice_relay_write.
  set (c0 := redsocks_touch_pump e c) in *. set (c1 := redsocks_touch_pump e (fire_relay_write c)).
  destruct (redsplice_write_cb _ r0 r1 r2) as [x dropped] eqn:Ex.
  destruct Hinv as (Hu & Hb & Hq & Hp & W1 & W2 & Hf).
  assert (Hbit : wr_shut_bit (relay_evshut c0) = false).
  { destruct Hq as (_ & _ & _ & _ & Hq). cbn [request_ctx wshut_dst] in Hq.
    destruct (wr_shut_bit _); [|done]. destruct Hq as (_ & _ & _ & Hq & _). cbn in Hq. congruence. }
  destruct (dir_inv_write _ _ _ (request_ctx c0) r0 r1 r2 x dropped Hq Hbit eq_refl Ex) as (Hcons & Halive & Heof).
  destruct (write_cb_shut _ _ _ _ _ _ Ex (proj1 (proj2 (proj2 Hq))) (proj1 (proj2 Hq)) Hbit eq_refl)
    as (S1 & S2 & S3 & S4). cbn [wshut_src wshut_dst] in S1, S2, S3, S4.
  pose proof (write_cb_fds _ _ _ _ _ _ Ex (proj1 (proj2 (proj2 Hq)))) as F1.
  destruct (write_cb_evfds _ _ _ _ _ _ Ex) as [F2 _].
  destruct (put_output_pending (ebsrc0 x) (relay c1) (write_cb_shape _ _ _ _ _ _ Ex)) as [B1 B2].
  destruct (put_input_pending (ebsrc1 x) (client c1) (write_cb_shape1 _ _ _ _ _ _ Ex)) as [B3 B4].
  set (c2 := set_io _ _).
  assert (Hio : io c2 = wlog SRelay (wr_out x) (wr_closed x) (wr_eof x) (io c0)) by done.
  destruct (wlog_relay (wr_out x) (wr_closed x) (wr_eof x) (io c0)) as (T1 & T2 & T3 & T4 & T5).
  assert (Hb2 : ∀ s b, bev s c2 = Some b → bev_fd b = -1).
  { intros [|] b H; [apply put_input_fd in H as (v & Hv & ->)|apply put_output_fd in H as (v & Hv & ->)].
    - by apply (Hb SClient).
    - by apply (Hb SRelay). }
  assert (Hf2 : closed (io c2) ++ open_fds c2 ≡ₚ fds).
  { rewrite <- Hf, !open_fds_eq, Hio, T5 by done. cbn. rewrite <- app_assoc, (app_assoc (wr_closed x)), F1.
    - cbn. by rewrite F2.
    - destruct Hq as (_ & _ & _ & _ & Hq). cbn in Hq, Hbit. rewrite Hbit in Hq. cbn. tauto. }
  assert (Hlog : log_ok msgs hb (io c2)).
  { rewrite Hio. apply (wlog_relay_ok _ _ _ _ _ _ (pending x)); [apply (splice_inv_log msgs hb fds c0); by split_and!
      |by rewrite app_assoc|by apply Heof|]. intros H. by rewrite (W1 H) in Hbit. }
  destruct dropped; [by apply drop_inv|]. specialize (Halive eq_refl).
  split_and!; [done|done| | | | |done]; rewrite ?Hio, ?T1, ?T2, ?T3, ?T4.
  - pose proof Halive as (O1 & O2 & _). eapply dir_inv_other; [exact Halive|..]; try done.
    unfold pending. change (ebsrc0 (request_ctx c2)) with (bev_output_of (put_output (ebsrc0 x) (relay c1))).
    change (ebsrc1 (request_ctx c2)) with (bev_input_of (put_input (ebsrc1 x) (client c1))). by rewrite B1, B3.
  - pose proof Hp as (O1 & O2 & _). eapply dir_inv_other; [exact Hp|..];
      try done; try (cbn; congruence); try (cbn [reply_ctx wshut_dst client_evshut c2 set_io set_evshut]; by rewrite S1).
    unfold pending. change (ebsrc0 (reply_ctx c2)) with (bev_output_of (put_input (ebsrc1 x) (client c1))).
    change (ebsrc1 (reply_ctx c2)) with (bev_input_of (put_output (ebsrc0 x) (relay c1))). by rewrite B4, B2.
  - intros H. cbn. rewrite S4. apply wlog_wr_shut in H as [H|[_ H]]; [by rewrite (W1 H) in Hbit|done].
  - intros H. cbn. rewrite S1. apply wlog_wr_shut in H as [H|[H _]]; [by apply W2|done].
Qed.
Lemma client_write_inv msgs hb fds e c r0 r1 r2 :
  splice_inv msgs hb fds c → ev_on (client_write (pump c)) = true →
  res_inv msgs hb fds (redsplice_client_write e (fire_client_write c) r0 r1 r2).
Proof.
  intros Hinv Hon. apply (touch_pump_inv _ _ _ e) in Hinv. unfold redsplice_client_write.
  set (c0 := redsocks_touch_pump e c) in *. set (c1 := redsocks_touch_pump e (fire_client_write c)).
  destruct (redsplice_write_cb _ r0 r1 r2) as [x dropped] eqn:Ex.
  destruct Hinv as (Hu & Hb & Hq & Hp & W1 & W2 & Hf).
  assert (Hbit : wr_shut_bit (client_evshut c0) = false).
  { destruct Hp as (_ & _ & _ & _ & Hp). cbn [reply_ctx wshut_dst] in Hp.
    destruct (wr_shut_bit _); [|done]. destruct Hp as (_ & _ & _ & Hp & _). cbn in Hp. congruence. }
  destruct (dir_inv_write _ _ _ (reply_ctx c0) r0 r1 r2 x dropped Hp Hbit eq_refl Ex) as (Hcons & Halive & Heof).
  destruct (write_cb_shut _ _ _ _ _ _ Ex (proj1 (proj2 (proj2 Hp))) (proj1 (proj2 Hp)) Hbit eq_refl)
    as (S1 & S2 & S3 & S4). cbn [wshut_src wshut_dst] in S1, S2, S3, S4.
  pose proof (write_cb_fds _ _ _ _ _ _ Ex (proj1 (proj2 (proj2 Hp)))) as F1.
  destruct (write_cb_evfds _ _ _ _ _ _ Ex) as [F2 _].
  destruct (put_output_pending (ebsrc0 x) (client c1) (write_cb_shape _ _ _ _ _ _ Ex)) as [B1 B2].
  destruct (put_input_pending (ebsrc1 x) (relay c1) (write_cb_shape1 _ _ _ _ _ _ Ex)) as [B3 B4].
  set (c2 := set_io _ _).
  assert (Hio : io c2 = wlog SClient (wr_out x) (wr_closed x) (wr_eof x) (io c0)) by done.
  destruct (wlog_client (wr_out x) (wr_closed x) (wr_eof x) (io c0)) as (T1 & T2 & T3 & T4 & T5).
  assert (Hb2 : ∀ s b, bev s c2 = Some b → bev_fd b = -1).
  { intros [|] b H; [apply put_output_fd in H as (v & Hv & ->)|apply put_input_fd in H as (v & Hv & ->)].
    - by apply (Hb SClient).
    - by apply (Hb SRelay). }
  assert (Hf2 : closed (io c2) ++ open_fds c2 ≡ₚ fds).
  { rewrite <- Hf, !open_fds_eq, Hio, T5 by done. cbn.
    rewrite <- app_assoc, (app_assoc (wr_closed x)), (Permutation_app_comm (wr_closed x)), <- app_assoc,
      (app_assoc (wr_closed x)), F1.
    - cbn. by rewrite F2.
    - destruct Hp as (_ & _ & _ & _ & Hp). cbn in Hp, Hbit. rewrite Hbit in Hp. cbn. tauto. }
  assert (Hlog : log_ok msgs hb (io c2)).
  { rewrite Hio. apply (wlog_client_ok _ _ _ _ _ _ (pending x)); [apply (splice_inv_log msgs hb fds c0); by split_and!
      |by rewrite !app_assoc|by apply Heof|]. intros H. by rewrite (W2 H) in Hbit. }
  destruct dropped; [by apply drop_inv|]. specialize (Halive eq_refl).
  split_and!; [done|done| | | | |done]; rewrite ?Hio, ?T1, ?T2, ?T3, ?T4.
  - pose proof Hq as (O1 & O2 & _). eapply dir_inv_other; [exact Hq|..];
      try done; try (cbn; congruence); try (cbn [request_ctx wshut_dst relay_evshut c2 set_io set_evshut]; by rewrite S1).
    unfold pending. change (ebsrc0 (request_ctx c2)) with (bev_output_of (put_input (ebsrc1 x) (relay c1))).
    change (ebsrc1 (request_ctx c2)) with (bev_input_of (put_output (ebsrc0 x) (client c1))). by rewrite B4, B2.
  - pose proof Halive as (O1 & O2 & _). rewrite app_assoc. eapply dir_inv_other; [exact Halive|..]; try done.
    unfold pending. change (ebsrc0 (reply_ctx c2)) with (bev_output_of (put_output (ebsrc0 x) (client c1))).
    change (ebsrc1 (reply_ctx c2)) with (bev_input_of (put_input (ebsrc1 x) (relay c1))). by rewrite B1, B3.
  - intros H. cbn. rewrite S1. apply wlog_wr_shut in H as [H|[H _]]; [by apply W1|done].
  - intros H. cbn. rewrite S4. apply wlog_wr_shut in H as [H|[_ H]]; [by rewrite (W2 H) in Hbit|done].
Qed.

Lemma splice_reach_inv msgs hb fds c0 r :
  splice_inv msgs hb fds c0 → splice_reach c0 r → res_inv msgs hb fds r.
Proof.
  intros H0. induction 1 as [|c r _ IH Hstep]; [done|]. destruct Hstep.
  - by apply client_read_inv.
  - by apply relay_read_inv.
  - by apply relay_write_inv.
  - by apply client_write_inv.
Qed.

(** ** From the start of the pump *)

(** [c0] is the client whose splice pump was just started from a finished
    handshake; [fds] are its sockets and pipes. *)
Definition splice_started (c0 : redsocks_client P) (msgs hb fds : list Z) : Prop :=
  ∃ e c cfd rfd a b d f,
    use_splice (instance c) = true ∧ handshake_done cfd rfd c msgs hb ∧ 0 ≤ cfd ∧ 0 ≤ rfd ∧
    pipe_a e = Some (a, b) ∧ pipe_b e = Some (d, f) ∧ 0 ≤ a ∧ 0 ≤ b ∧ 0 ≤ d ∧ 0 ≤ f ∧
    redsocks_start_relay e c = Ret (Alive c0) ∧ fds = [a; b; d; f; cfd; rfd].

Lemma start_splice_inv c0 msgs hb fds : splice_started c0 msgs hb fds → splice_inv msgs hb fds c0.
Proof.
  intros (e & c & cfd & rfd & a & b & d & f & Hu &
    (Hpump & W1 & W2 & Htc & Hws & Hcl & <- & (br & Hr & Hrf & Hri & Hm) & (bc & Hc & Hcf & Hco & Hci)) &
    C1 & C2 & Ha & Hb & A1 & A2 & A3 & A4 & H & ->).
  unfold redsocks_start_relay, redsocks_start_splicepump, get_bev in H.
  cbn [instance set_state bev client relay pump] in H. rewrite Hu, Hr, Hc, !bind_Ret, Ha, Hb, Hpump in H.
  cbn in H. injection H as <-.
  split_and!.
  - done.
  - by intros [|] v [= <-].
  - unfold dir_inv, pending. cbn. rewrite W1, W2, app_nil_r, app_assoc, Hm, Hci. unfold evshut_ok.
    change (wr_shut_bit 0) with false. cbn. split_and!; try done; auto.
  - unfold dir_inv, pending. cbn. rewrite W1, W2, Htc, Hco, Hri, !app_nil_r. unfold evshut_ok.
    change (wr_shut_bit 0) with false. cbn. split_and!; try done; auto.
  - cbn. rewrite Hws. by intros ?%elem_of_nil.
  - cbn. rewrite Hws. by intros ?%elem_of_nil.
  - rewrite open_fds_eq; [|done|by intros [|] v [= <-]]. unfold pipe_fds. cbn -[fdl].
    rewrite Hcl, Hcf, Hrf, !fdl_open by lia. done.
Qed.
End Pump.

(** C26: through any run of the splice pump, what was sent to the proxy is a
    prefix of the handshake messages followed by the client's bytes, what was
    sent to the client is a prefix of the proxy's bytes after the handshake,
    and the end of file is passed on only when all of them were sent. *)
Theorem splice_pump_stream {P} (c0 : redsocks_client P) msgs hb fds r :
  splice_started c0 msgs hb fds → splice_reach c0 r →
  log_ok msgs hb (log_of r).
Proof.
  intros Hs Hr. eapply splice_reach_inv in Hr; [|by eapply start_splice_inv].
  destruct r; [by eapply splice_inv_log|apply Hr].
Qed.

(** In every reachable state a direction is finished (its destination is
    shut for writing, nothing is pending) or has an event that will run; with
    bytes pending or the end of file not yet passed on, it is the write event. *)
Theorem splice_pump_live {P} (c0 c1 : redsocks_client P) msgs hb fds :
  splice_started c0 msgs hb fds → splice_reach c0 (Alive c1) →
  ∀ x, x = request_ctx c1 ∨ x = reply_ctx c1 →
  if wr_shut_bit (wshut_dst x) then pending x = [] ∧ rd_shut (wshut_src x) = true
  else (pending x ≠ [] ∨ rd_shut (wshut_src x) = true → ev_on (wevdst x) = true) ∧
       (ev_on (wevdst x) = true ∨ ev_on (wevsrc x) = true).
Proof.
  intros Hs Hr x Hx. eapply splice_reach_inv in Hr; [|by eapply start_splice_inv].
  destruct Hr as (_ & _ & Hq & Hp & _).
  assert (Hdir : ∃ base sent got, dir_inv base sent got x) by (destruct Hx as [->| ->]; eauto).
  destruct Hdir as (base & sent & got & _ & _ & _ & _ & H'). by destruct (wr_shut_bit _); tauto.
Qed.

(** When the client is dropped, for whatever reason, each of its six
    descriptors (two sockets, two pipes) has been closed exactly once. *)
Theorem splice_pump_fds {P} (c0 : redsocks_client P) msgs hb fds l :
  splice_started c0 msgs hb fds → splice_reach c0 (Dropped l) →
  closed l ≡ₚ fds.
Proof.
  intros Hs Hr. eapply splice_reach_inv in Hr; [|by eapply start_splice_inv]. apply Hr.
Qed.

(** ** A run: the client sends two bytes and closes, the proxy closes *)
Definition run_env : env := Env 0 true (Some (10, 11)) (Some (12, 13)).
Definition run_client : redsocks_client unit :=
  Client (Config None None true) (Some (Bev 3 [7] [] 0 0 0 0 EV_READ)) (Some (Bev 4 [] [6] 0 0 0 0 6))
    ([1; 2; 3; 4], [0; 80]) 1 0 0 0 CbSubsys no_pump tt (Io [5] [] [0; 90] [7] [] []).
Definition alive {P} (c : redsocks_client P) (r : hres P) : redsocks_client P :=
  match r with Alive c' => c' | Dropped _ => c end.
Definition run0 : redsocks_client unit :=
  Eval vm_compute in match redsocks_start_relay run_env run_client with Ret r => alive run_client r | _ => run_client end.
Definition run1 := Eval vm_compute in alive run0 (redsplice_client_read run_env run0 (RdData [8; 9])).
Definition run2 := Eval vm_compute in alive run1 (redsplice_relay_write run_env (fire_relay_write run1) (IoDone 1) (IoDone 1) (IoDone 1)).
Definition run3 := Eval vm_compute in alive run2 (redsplice_relay_write run_env (fire_relay_write run2) IoBlock IoBlock (IoDone 1)).
Definition run4 := Eval vm_compute in alive run3 (redsplice_client_read run_env run3 (RdData [])).
Definition run5 := Eval vm_compute in alive run4 (redsplice_relay_write run_env (fire_relay_write run4) IoBlock IoBlock IoBlock).
Definition run6 := Eval vm_compute in alive run5 (redsplice_relay_read run_env run5 (RdData [])).
Definition run7 := Eval vm_compute in redsplice_client_write run_env (fire_client_write run6) IoBlock IoBlock IoBlock.

Lemma run_started : splice_started run0 [5; 6] [0; 90] [10; 11; 12; 13; 3; 4].
Proof.
  exists run_env, run_client, 3, 4, 10, 11, 12, 13.
  unfold handshake_done. split_and!; try done; eexists; split_and!; done.
Qed.
Ltac run_step c h k :=
  lazymatch goal with |- splice_reach _ ?r => replace r with h by (vm_compute; reflexivity) end;
  refine (ReachStep run0 c h _ k).

Lemma run_reach3 : splice_reach run0 (Alive run3).
Proof.
  run_step run2 (redsplice_relay_write run_env (fire_relay_write run2) IoBlock IoBlock (IoDone 1))
    (StepRelayWrite run2 run_env IoBlock IoBlock (IoDone 1) eq_refl).
  run_step run1 (redsplice_relay_write run_env (fire_relay_write run1) (IoDone 1) (IoDone 1) (IoDone 1))
    (StepRelayWrite run1 run_env (IoDone 1) (IoDone 1) (IoDone 1) eq_refl).
  run_step run0 (redsplice_client_read run_env run0 (RdData [8; 9]))
    (StepClientRead run0 run_env (RdData [8; 9]) eq_refl ltac:(done)).
  apply ReachStart.
Defined.
Lemma run_reach7 : splice_reach run0 run7.
Proof.
  run_step run6 (redsplice_client_write run_env (fire_client_write run6) IoBlock IoBlock IoBlock)
    (StepClientWrite run6 run_env IoBlock IoBlock IoBlock eq_refl).
  run_step run5 (redsplice_relay_read run_env run5 (RdData []))
    (StepRelayRead run5 run_env (RdData []) eq_refl ltac:(done)).
  run_step run4 (redsplice_relay_write run_env (fire_relay_write run4) IoBlock IoBlock IoBlock)
    (StepRelayWrite run4 run_env IoBlock IoBlock IoBlock eq_refl).
  run_step run3 (redsplice_client_read run_env run3 (RdData []))
    (StepClientRead run3 run_env (RdData []) eq_refl ltac:(done)).
  exact run_reach3.
Defined.

Lemma splice_pump_stream_witness :
  log_of run7 = Io [5; 6; 7; 8; 9] [] [0; 90] [7; 8; 9] [SRelay; SClient] [10; 11; 12; 13; 3; 4] ∧
  log_ok [5; 6] [0; 90] (log_of run7).
Proof.
  split; [vm_compute; reflexivity|].
  apply (splice_pump_stream run0 [5; 6] [0; 90] [10; 11; 12; 13; 3; 4] run7);
    [exact run_started|exact run_reach7].
Defined.

Lemma splice_pump_live_witness :
  pending (request_ctx run2) = [9] ∧ ev_on (relay_write (pump run2)) = true ∧
  ∀ x, x = request_ctx run3 ∨ x = reply_ctx run3 →
  if wr_shut_bit (wshut_dst x) then pending x = [] ∧ rd_shut (wshut_src x) = true
  else (pending x ≠ [] ∨ rd_shut (wshut_src x) = true → ev_on (wevdst x) = true) ∧
       (ev_on (wevdst x) = true ∨ ev_on (wevsrc x) = true).
Proof.
  split; [reflexivity|]. split; [reflexivity|].
  apply (splice_pump_live run0 run3 [5; 6] [0; 90] [10; 11; 12; 13; 3; 4]);
    [exact run_started|exact run_reach3].
Defined.

Lemma splice_pump_fds_witness : closed (log_of run7) ≡ₚ [10; 11; 12; 13; 3; 4].
Proof.
  apply (splice_pump_fds run0 [5; 6] [0; 90] [10; 11; 12; 13; 3; 4] (log_of run7));
    [exact run_started|exact run_reach7].
Defined.
