(* ===== verification/BufferPump.v ===== *)
(** * redsocks: the buffer pump

    The callbacks of the pump that redsocks uses when splicing is off.  Data
    that the client sent during the handshake waits in the input of its
    bufferevent until the relay's first write event moves it; an end of file of
    the client handled before that event shuts the relay's write side and
    leaves the data behind. *)
From S2P Require Import Prelude Proto Redsocks.

Section BufferPump.
Context {P : Type}.
Implicit Types c : redsocks_client P.

(** Bytes of one direction that were read and not yet written. *)
Definition in_flight c (from to : side) : list Z :=
  match bev from c, bev to c with
  | Some f, Some t => bev_output t ++ bev_input f
  | _, _ => []
  end.

(** Both sides are connected and the pump's write limit is set on them. *)
Definition pump_ready c : Prop :=
  ∀ s, ∃ b, bev s c = Some b ∧ wm_write_high b = REDSOCKS_RELAY_HALFBUFF.

Lemma bev_set_bev s b c : bev s (set_bev s b c) = b.
Proof. by destruct s. Qed.
Lemma bev_set_anti s b c : bev s (set_bev (anti s) b c) = bev s c.
Proof. by destruct s. Qed.
Lemma bev_anti_set s b c : bev (anti s) (set_bev s b c) = bev (anti s) c.
Proof. by destruct s. Qed.

(** Moving the input of one side to the output of the other. *)
Lemma move_keeps c from f t f' :
  pump_ready c → bev from c = Some f → bev (anti from) c = Some t →
  bev_input f' = [] → wm_write_high f' = wm_write_high f →
  let c' := set_bev (anti from) (Some (set_output (bev_output t ++ bev_input f) t))
              (set_bev from (Some f') c) in
  in_flight c' from (anti from) = in_flight c from (anti from) ∧ pump_ready c'.
Proof.
  intros Hr Hf Ht Hi Hw c'. unfold in_flight. subst c'.
  rewrite bev_set_anti, !bev_set_bev, Hf, Ht, Hi. split; [apply app_nil_r|].
  destruct (Hr from) as (b1 & E1 & W1), (Hr (anti from)) as (b2 & E2 & W2).
  intros s. destruct s, from; cbn in *; eexists; split; try done; cbn; congruence.
Qed.

Lemma shutdown_keeps c s how :
  pump_ready c →
  ∃ r, redsocks_shutdown c s how = Ret r ∧
       ∀ c', r = Alive c' → (∀ a, in_flight c' a (anti a) = in_flight c a (anti a)) ∧ pump_ready c'.
Proof.
  intros Hr. destruct (Hr s) as (b & E & W). unfold redsocks_shutdown, get_bev. rewrite E, bind_Ret.
  destruct (Hr (anti s)) as (b2 & E2 & W2).
  match goal with |- context [if ?g then set_io _ c else c] => generalize g end. intros g.
  destruct (shut_both _); eexists; (split; [done|]); intros c' [= <-].
  destruct s, g; cbn in E, E2; split; intros []; unfold in_flight; cbn; rewrite ?E, ?E2; try done;
    eexists; (split; [done|]); done.
Qed.

(** The read and write callbacks of the buffer pump keep every byte of the
    direction they serve, in order; the write callback drops the client only
    when nothing is left to read. *)
Theorem bufferpump_callbacks_keep from c :
  pump_ready c →
  (∃ c', redsocks_relay_readcb c from (anti from) = Ret (Alive c') ∧
         in_flight c' from (anti from) = in_flight c from (anti from) ∧ pump_ready c') ∧
  (∃ r, redsocks_relay_writecb c from (anti from) = Ret r ∧
        (∀ c', r = Alive c' →
               in_flight c' from (anti from) = in_flight c from (anti from) ∧ pump_ready c') ∧
        (∀ l, r = Dropped l → ∃ f, bev from c = Some f ∧ bev_input f = [])).
Proof.
  intros Hr. destruct (Hr from) as (f & Ef & Wf), (Hr (anti from)) as (t & Et & Wt). split.
  - unfold redsocks_relay_readcb, get_bev. rewrite Ef, Et, !bind_Ret. case_match; [|case_match].
    + eexists. split; [done|]. by apply (move_keeps c from f t).
    + eexists. split; [done|]. split.
      * unfold in_flight. rewrite bev_set_bev, bev_anti_set, Ef, Et. done.
      * intros s. destruct (Hr s) as (b & E & W). destruct s, from; cbn in *; eexists; split; try done; cbn; congruence.
    + by eexists.
  - unfold redsocks_relay_writecb, get_bev. rewrite Ef, Et, !bind_Ret. case_match eqn:Eof; [|case_match].
    + destruct (shutdown_keeps c (anti from) SHUT_WR Hr) as (r & -> & Hk). exists r. split_and!; [done| |].
      * intros c' ->. destruct (Hk c' eq_refl) as [H1 H2]. split; [apply H1|done].
      * intros l _. exists f. split; [done|]. bool_hyps. destruct Eof as [Eof _]. by destruct (bev_input f).
    + eexists. split_and!; [done| |done]. intros c' [= <-]. apply (move_keeps c from f t); try done; by case_match.
    + eexists. split_and!; [done| |done]. by intros c' [= <-].
Qed.

Lemma shutdown_rd_client c b :
  client c = Some b → client_evshut c = 0 → relay_evshut c = 0 →
  redsocks_shutdown c SClient SHUT_RD
  = Ret (Alive (set_evshut 2 0 (set_client (Some (bufferevent_disable EV_READ b)) c))).
Proof. destruct c. cbn. intros -> -> ->. reflexivity. Qed.

Lemma shutdown_wr_relay c b :
  relay c = Some b → client_evshut c = 2 → relay_evshut c = 0 →
  redsocks_shutdown c SRelay SHUT_WR
  = Ret (Alive (set_evshut 2 4 (set_relay (Some (bufferevent_disable EV_WRITE b))
                                  (set_io (add_wr_shut SRelay (io c)) c)))).
Proof. destruct c. cbn. intros -> -> ->. reflexivity. Qed.

Lemma start_bufferpump_eq e c bc br :
  use_splice (instance c) = false → client c = Some bc → relay c = Some br →
  ∃ bc0 br0,
    redsocks_start_relay e c
    = Ret (Alive (set_cbs CbPump (set_relay (Some br0) (set_client (Some bc0) (set_state pump_active c))))) ∧
    bev_input bc0 = bev_input bc ∧ bev_output br0 = bev_output br.
Proof.
  intros Hu Hc Hr. unfold redsocks_start_relay, redsocks_start_bufferpump, get_bev.
  cbn [instance set_state bev client relay]. rewrite Hu, Hc, Hr, !bind_Ret. by eexists _, _.
Qed.

(** The early data of a client is lost when its end of file is handled
    between the start of the buffer pump and the relay's next write event: the
    relay's write side is shut down and no longer enabled while the data is
    still in the client's input buffer. *)
Theorem bufferpump_early_data_lost e c bc br :
  use_splice (instance c) = false → client c = Some bc → relay c = Some br →
  bev_input bc ≠ [] → bev_output br = [] → client_evshut c = 0 → relay_evshut c = 0 →
  ∃ c0 c1 bc1 br1,
    redsocks_start_relay e c = Ret (Alive c0) ∧ bufferevent_eof e c0 SClient = Ret (Alive c1) ∧
    client c1 = Some bc1 ∧ relay c1 = Some br1 ∧ bev_input bc1 = bev_input bc ∧
    Z.land (bev_enabled br1) EV_WRITE = 0 ∧ wr_shut (io c1) = wr_shut (io c) ++ [SRelay] ∧
    to_relay (io c1) = to_relay (io c) ∧ from_client (io c1) = from_client (io c).
Proof.
  intros Hu Hc Hr Hi Ho H1 H2.
  destruct (start_bufferpump_eq e c bc br Hu Hc Hr) as (bc0 & br0 & Hst & B1 & B2).
  set (c0 := set_cbs _ _) in Hst.
  assert (He : bufferevent_eof e c0 SClient = Ret (Alive (set_evshut 2 4
    (set_relay (Some (bufferevent_disable EV_WRITE br0)) (set_io (add_wr_shut SRelay (io c)) (set_evshut 2 0
    (set_client (Some (bufferevent_disable EV_READ (bufferevent_disable EV_READ bc0)))
      (redsocks_touch_client e (set_client (Some (bufferevent_disable EV_READ bc0)) c0))))))))).
  { unfold bufferevent_eof. change (get_bev SClient c0) with (Ret bc0). rewrite bind_Ret.
    unfold redsocks_event_error.
    rewrite (shutdown_rd_client _ (bufferevent_disable EV_READ bc0)), bind_Ret by done.
    cbn [bev anti relay set_evshut set_client redsocks_touch_client set_last_event set_bev c0 set_cbs set_relay].
    rewrite B2, Ho.
    etransitivity; [by apply (shutdown_wr_relay _ br0)|done]. }
  eexists c0, _, _, _. split; [done|]. split; [exact He|]. split_and!; try done.
  cbn [bev_enabled bufferevent_disable]. by rewrite <- Z.land_assoc, Z.land_0_r.
Qed.
End BufferPump.

Definition lossy_client : redsocks_client unit :=
  Client (Config None None false) (Some (Bev 3 [7; 8] [] 0 0 0 0 EV_READ)) (Some (Bev 4 [] [] 0 0 0 0 6))
    ([1; 2; 3; 4], [0; 80]) 1 0 0 0 CbSubsys no_pump tt (Io [5] [] [0; 90] [7; 8] [] []).

Lemma bufferpump_early_data_lost_witness :
  ∃ c0 c1 bc1 br1,
    redsocks_start_relay (Env 0 true None None) lossy_client = Ret (Alive c0) ∧
    bufferevent_eof (Env 0 true None None) c0 SClient = Ret (Alive c1) ∧
    client c1 = Some bc1 ∧ relay c1 = Some br1 ∧ bev_input bc1 = [7; 8] ∧
    Z.land (bev_enabled br1) EV_WRITE = 0 ∧ wr_shut (io c1) = [SRelay] ∧
    to_relay (io c1) = [5] ∧ from_client (io c1) = [7; 8].
Proof.
  apply (bufferpump_early_data_lost (Env 0 true None None) lossy_client
           (Bev 3 [7; 8] [] 0 0 0 0 EV_READ) (Bev 4 [] [] 0 0 0 0 6)); reflexivity || done.
Defined.

Definition pumping_client : redsocks_client unit :=
  Client (Config None None false) (Some (Bev 3 [7; 8] [] 0 4096 0 4096 6)) (Some (Bev 4 [] [5] 0 4096 0 4096 6))
    ([1; 2; 3; 4], [0; 80]) pump_active 0 0 0 CbPump no_pump tt (Io [] [] [] [7; 8] [] []).

Lemma bufferpump_callbacks_keep_witness :
  (∃ c', redsocks_relay_readcb pumping_client SClient SRelay = Ret (Alive c') ∧
         in_flight c' SClient SRelay = [5; 7; 8] ∧ pump_ready c') ∧
  (∃ r, redsocks_relay_writecb pumping_client SClient SRelay = Ret r ∧
        (∀ c', r = Alive c' → in_flight c' SClient SRelay = [5; 7; 8] ∧ pump_ready c') ∧
        (∀ l, r = Dropped l → ∃ f, bev SClient pumping_client = Some f ∧ bev_input f = [])).
Proof.
  apply (bufferpump_callbacks_keep SClient pumping_client).
  intros [|]; eexists; split; reflexivity.
Defined.
