(* ===== verification/Connection.v ===== *)
(** * redsocks: a proxied connection from end to end

    Composes the SOCKS handshakes with the splice pump: from the accepted
    connection to the last byte, for every cutting of the proxy's stream and
    every order of events. *)
From S2P Require Import Prelude Proto Redsocks Handshake Socks5 Socks4 SplicePump.

(** What the two ends of a connection have seen when the proxy's stream is
    [net] followed by [more] and [unread] of it is still unread: the proxy a
    prefix of the messages and the client's bytes, the client a prefix of what
    follows the proxy's answer, and everything before an end of file. *)
Definition delivered (msgs rest more unread : list Z) (l : io_log) : Prop :=
  (∃ x, msgs ++ from_client l = to_relay l ++ x) ∧ (∃ x, rest ++ more = to_client l ++ x) ∧
  (SRelay ∈ wr_shut l → to_relay l = msgs ++ from_client l) ∧
  (SClient ∈ wr_shut l → rest ++ more = to_client l ++ unread).

Lemma log_delivered msgs hb rest more unread l :
  log_ok msgs hb l → from_relay l ++ unread = (hb ++ rest) ++ more → delivered msgs rest more unread l.
Proof.
  intros (L1 & (x & L2) & L3 & L4) Hf. rewrite <- app_assoc in Hf. split_and!; [done| |done|].
  - exists (x ++ unread). rewrite L2, <- !app_assoc in Hf. apply app_inv_head in Hf. done.
  - intros H. rewrite (L4 H), <- app_assoc in Hf. apply app_inv_head in Hf. done.
Qed.

Section Connection.
Context {P : Type}.

(** A handshake that was accepted leaves a client whose pump was started from
    the finished handshake, by one of the events, with the pipes that the system
    created then. *)
Lemma agrees_started seen cfg cfd rfd net rest msgs (r : hres P) rest' :
  use_splice cfg = true → 0 ≤ cfd → 0 ≤ rfd →
  hs_agrees_in cfd rfd net seen cfg (Accepted rest msgs) r rest' →
  ∃ c0 hb e a b d f, r = Alive c0 ∧ rest' = rest ∧ hb ++ rest = net ∧
    seen e ∧ pipe_a e = Some (a, b) ∧ pipe_b e = Some (d, f) ∧
    splice_started c0 msgs hb [a; b; d; f; cfd; rfd].
Proof.
  intros Hu Hc Hr (-> & c0 & b & bc & -> & _ & _ & _ & _ & _ & _ & Hs).
  destruct Hs as (e & c2 & hb & Hsn & Hp & Hi & Hd & Hfull & Hst).
  destruct (Hp Hu) as (a & b' & d & f & Ha & Hb & H1 & H2 & H3 & H4).
  exists c0, hb, e, a, b', d, f. split_and!; [done..|].
  exists e, c2, cfd, rfd, a, b', d, f. split_and!; try done. by rewrite Hi.
Qed.

(** Every run of a pump started from a finished handshake, [fds] being its two
    pipes and its two sockets: a run that drops the client has closed these
    descriptors, each of them once, and no other. *)
Definition connection_ok (c0 : redsocks_client P) (fds : list Z) (net rest msgs : list Z) : Prop :=
  ∀ r, splice_reach c0 r →
    (∀ more unread, from_relay (log_of r) ++ unread = net ++ more →
       delivered msgs rest more unread (log_of r)) ∧
    (∀ l, r = Dropped l → closed l ≡ₚ fds).

Lemma started_ok c0 msgs hb fds rest :
  splice_started c0 msgs hb fds → connection_ok c0 fds (hb ++ rest) rest msgs.
Proof.
  intros Hs r Hr. eapply splice_reach_inv in Hr; [|by eapply start_splice_inv]. split.
  - intros more unread. apply log_delivered. destruct r; [by eapply splice_inv_log|apply Hr].
  - intros l ->. apply Hr.
Qed.

(** The handshake and the pump, for any protocol that meets [HandshakeSim]. *)
Lemma connection_stream (ss : relay_subsys P) sim `{!HandshakeSim ss sim} cfg cfd rfd c net evs rest msgs :
  use_splice cfg = true → 0 ≤ cfd → 0 ≤ rfd →
  hs_inv sim cfd rfd net cfg (Accepted rest msgs) c net → Forall (hs_ok cfg) evs →
  (length net ≤ reads evs)%nat →
  ∃ c0 e a b d f, hs_run ss evs c net = Ret (Alive c0, rest) ∧
    e ∈ evs.*1 ∧ pipe_a e = Some (a, b) ∧ pipe_b e = Some (d, f) ∧
    connection_ok c0 [a; b; d; f; cfd; rfd] net rest msgs.
Proof.
  intros Hu Hc Hr Hinv Hok Hn.
  destruct (hs_run_refines_in ss sim cfd rfd net (λ e, e ∈ evs.*1) cfg _ evs c net Hinv Hok) as (r & rest' & Hrun & Hag).
  { apply Forall_forall. intros x Hx. apply list_elem_of_fmap. exists x. split; [done|by apply list_elem_of_In]. }
  { done. }
  destruct (agrees_started _ _ _ _ _ _ _ _ _ Hu Hc Hr Hag)
    as (c0 & hb & e & a & b & d & f & -> & -> & <- & Hsn & Ha & Hb & Hst).
  exists c0, e, a, b, d, f. split_and!; [done..|]. by eapply started_ok.
Qed.
End Connection.

(** C7: a connection through a SOCKS5 proxy with the splice pump, from the
    accepted socket to the last byte: when the proxy's answer is an acceptance,
    then however it is cut into reads and whatever the order of events, the
    proxy receives a prefix of the handshake messages followed by the client's
    bytes (early data included), the client receives a prefix of the bytes that
    follow the answer, and an end of file is passed on only after the last byte.
    A dropped client has closed, once each and nothing else, its two sockets and
    the four ends of the two pipes that the system created in the event that
    started the pump. *)
Theorem socks5_connection_stream cfg e cfd rfd dest net evs rest msgs :
  use_splice cfg = true → 0 ≤ cfd → 0 ≤ rfd →
  connected_ok e = true → Forall is_byte net → Forall (hs_ok cfg) evs →
  (length net ≤ reads evs)%nat →
  proto_run (socks5_proto (spec_creds cfg) dest) net [] = Accepted rest msgs →
  ∃ c c0 e' a b d f,
    hs_start socks5_subsys e (socks5_instance_init cfg) (Socks5 0 0) cfd rfd dest = Ret (Alive c) ∧
    hs_run socks5_subsys evs c net = Ret (Alive c0, rest) ∧
    e' ∈ evs.*1 ∧ pipe_a e' = Some (a, b) ∧ pipe_b e' = Some (d, f) ∧
    connection_ok c0 [a; b; d; f; cfd; rfd] net rest msgs.
Proof.
  intros Hu Hc Hr He Hby Hok Hn Hv.
  destruct (socks5_start cfg e cfd rfd dest net He Hby) as (c & Hst & Hinv). rewrite Hv in Hinv.
  pose proof (proj2 (instance_init_creds cfg)) as Hsp.
  destruct (connection_stream socks5_subsys (sim5 (spec_creds cfg) dest) _ cfd rfd c net evs rest msgs
              (eq_trans Hsp Hu) Hc Hr Hinv) as (c0 & e' & a & b & d & f & Hcon); [|done|by exists c, c0, e', a, b, d, f].
  eapply Forall_impl; [|exact Hok]. intros x [H1 H2]. split; [|done]. intros H. apply H1. congruence.
Qed.

Lemma socks5_connection_stream_witness :
  ∃ c c0 e' a b d f,
    hs_start socks5_subsys witness_env (socks5_instance_init (Config (Some [117]) (Some [112; 119]) true))
      (Socks5 0 0) 3 4 ([10; 0; 0; 1], [0; 80]) = Ret (Alive c) ∧
    hs_run socks5_subsys witness_events c [5; 2; 1; 0; 5; 0; 0; 3; 2; 104; 105; 0; 0; 9; 9]
      = Ret (Alive c0, [9; 9]) ∧
    e' ∈ witness_events.*1 ∧ pipe_a e' = Some (a, b) ∧ pipe_b e' = Some (d, f) ∧
    connection_ok c0 [a; b; d; f; 3; 4] [5; 2; 1; 0; 5; 0; 0; 3; 2; 104; 105; 0; 0; 9; 9] [9; 9]
      [5; 2; 0; 2; 1; 1; 117; 2; 112; 119; 5; 1; 0; 1; 10; 0; 0; 1; 0; 80].
Proof.
  apply (socks5_connection_stream (Config (Some [117]) (Some [112; 119]) true) witness_env 3 4
    ([10; 0; 0; 1], [0; 80]) [5; 2; 1; 0; 5; 0; 0; 3; 2; 104; 105; 0; 0; 9; 9] witness_events).
  - reflexivity.
  - lia.
  - lia.
  - reflexivity.
  - by repeat (constructor; [unfold is_byte; lia|]).
  - by repeat (constructor; [split; [apply witness_env_ok|done]|]).
  - simpl. lia.
  - reflexivity.
Defined.
