(* ===== verification/BConnection.v ===== *)
(** * badvpn: BConnector and BConnection

    The non-blocking stream connection of system/BConnection_unix.c: connecting,
    and asynchronous sends and receives that are tried at once and otherwise
    wait for the reactor.  The results of system calls, of the reactor's limits
    and of registrations are arguments.  A stream interface delivers an
    operation to its handler and a completion to its user by a job; both are
    handler calls here.  [ASSERT] failures are [Fault]. *)
From S2P Require Import Prelude.

Definition BREACTOR_READ : Z := 1.
Definition BREACTOR_WRITE : Z := 2.
Definition BREACTOR_ERROR : Z := 4.
Definition BREACTOR_HUP : Z := 8.

Definition SEND_STATE_NOT_INITED : Z := 0.
Definition SEND_STATE_READY : Z := 1.
Definition SEND_STATE_BUSY : Z := 2.
Definition RECV_STATE_NOT_INITED : Z := 0.
Definition RECV_STATE_READY : Z := 1.
Definition RECV_STATE_BUSY : Z := 2.
Definition RECV_STATE_INITED_CLOSED : Z := 3.
Definition RECV_STATE_NOT_INITED_CLOSED : Z := 4.

Definition require (b : bool) : outcome unit := if b then Ret tt else Fault.

(** ** BConnector *)
Record BConnector := Connector { cn_fd : Z; connected : bool; have_bfd : bool; cn_job : bool }.

Inductive connect_result := ConnectDone | ConnectInProgress | ConnectFailed.

(** What the system answers while a connector is made. *)
Record connect_env := ConnectEnv {
  addr_supported : bool; socket_res : Z; nonblock_ok : bool; connect_res : connect_result; add_fd_ok : bool }.

(** The connector, if it was made, and the descriptors closed. *)
Definition BConnector_InitFrom (e : connect_env) : option BConnector * list Z :=
  if negb (addr_supported e) then (None, [])
  else if socket_res e <? 0 then (None, [])
  else if negb (nonblock_ok e) then (None, [socket_res e])
  else match connect_res e with
       | ConnectFailed => (None, [socket_res e])
       | ConnectInProgress =>
           if add_fd_ok e then (Some (Connector (socket_res e) false true false), [])
           else (None, [socket_res e])
       | ConnectDone => (Some (Connector (socket_res e) true false true), [])
       end.

(** The argument of the handler: [is_error]. [so_error]: the value read by
    getsockopt, or [None] when it fails. *)
Definition connector_fd_handler (o : BConnector) (so_error : option Z) : outcome (BConnector * bool) :=
  _ ← require ((0 <=? cn_fd o) && negb (connected o) && have_bfd o);
  let o := Connector (cn_fd o) (connected o) false (cn_job o) in
  match so_error with
  | Some 0 => Ret (Connector (cn_fd o) true false (cn_job o), false)
  | _ => Ret (o, negb (connected o))
  end.

Definition connector_job_handler (o : BConnector) : outcome (BConnector * bool) :=
  _ ← require ((0 <=? cn_fd o) && connected o && negb (have_bfd o));
  Ret (Connector (cn_fd o) (connected o) (have_bfd o) false, false).

(** The descriptors closed. *)
Definition BConnector_Free (o : BConnector) : list Z := if cn_fd o =? -1 then [] else [cn_fd o].

(** ** BConnection *)

(** [busy_data] and its length: an offset into the user's buffer and a size.
    [registered]: the descriptor is in the reactor. *)
Record BConnection := Con {
  fd : Z; close_fd : bool; is_hupd : bool; registered : bool; wait_events : Z;
  send_state : Z; send_busy : Z * Z; send_job : bool;
  recv_state : Z; recv_busy : Z * Z; recv_job : bool }.

Definition set_wait (z : Z) (c : BConnection) : BConnection :=
  Con (fd c) (close_fd c) (is_hupd c) (registered c) z (send_state c) (send_busy c) (send_job c)
    (recv_state c) (recv_busy c) (recv_job c).
Definition set_hupd (c : BConnection) : BConnection :=
  Con (fd c) (close_fd c) true false (wait_events c) (send_state c) (send_busy c) (send_job c)
    (recv_state c) (recv_busy c) (recv_job c).
Definition set_send (st : Z) (d : Z * Z) (j : bool) (c : BConnection) : BConnection :=
  Con (fd c) (close_fd c) (is_hupd c) (registered c) (wait_events c) st d j
    (recv_state c) (recv_busy c) (recv_job c).
Definition set_recv (st : Z) (d : Z * Z) (j : bool) (c : BConnection) : BConnection :=
  Con (fd c) (close_fd c) (is_hupd c) (registered c) (wait_events c) (send_state c) (send_busy c) (send_job c)
    st d j.

(** Where the descriptor comes from: a listener (is its job set, the result of
    accept, of making it non-blocking), a connector, or the caller. *)
Inductive con_source :=
| FromListener (job : bool) (accept_res : Z) (nonblock : bool)
| FromConnector (cn : BConnector)
| FromPipe (pipefd : Z) (close_it nonblock : bool).

(** The descriptor and whether it is to be closed, the source afterwards, and
    whether the set-up goes on. *)
Definition source_fd (src : con_source) : outcome (option (Z * bool * bool) * con_source) :=
  match src with
  | FromListener job fd nb =>
      _ ← require job;
      Ret (if fd <? 0 then None else Some (fd, true, nb), FromListener false fd nb)
  | FromConnector o =>
      _ ← require ((0 <=? cn_fd o) && connected o && negb (have_bfd o) && negb (cn_job o));
      Ret (Some (cn_fd o, true, true), FromConnector (Connector (-1) (connected o) (have_bfd o) (cn_job o)))
  | FromPipe fd close_it nb => _ ← require (0 <=? fd); Ret (Some (fd, close_it, nb), src)
  end.

(** The connection, the source afterwards, and the descriptors closed. *)
Definition BConnection_Init (src : con_source) (add_ok : bool) : outcome (option BConnection * con_source * list Z) :=
  '(x, src) ← source_fd src;
  match (x : option (Z * bool * bool)) with
  | None => Ret (None, src, [])
  | Some (fd, close, ok) =>
      let fail1 := Ret (None, src, if close then [fd] else []) in
      if negb ok then fail1
      else if add_ok then
        Ret (Some (Con fd close false true 0 SEND_STATE_NOT_INITED (0, 0) false RECV_STATE_NOT_INITED (0, 0) false),
             src, [])
      else fail1
  end.

Definition BReactor_SetFileDescriptorEvents (c : BConnection) : outcome BConnection :=
  _ ← require (registered c); Ret c.

Definition BConnection_Free (c : BConnection) : outcome (list Z) :=
  _ ← require (send_state c =? SEND_STATE_NOT_INITED);
  _ ← require ((recv_state c =? RECV_STATE_NOT_INITED) || (recv_state c =? RECV_STATE_NOT_INITED_CLOSED));
  _ ← require (is_hupd c || registered c);
  Ret (if close_fd c then [fd c] else []).

Definition BConnection_SendAsync_Init (c : BConnection) : outcome BConnection :=
  _ ← require (send_state c =? SEND_STATE_NOT_INITED);
  Ret (set_send SEND_STATE_READY (send_busy c) false c).

Definition BConnection_SendAsync_Free (c : BConnection) : outcome BConnection :=
  _ ← require ((send_state c =? SEND_STATE_READY) || (send_state c =? SEND_STATE_BUSY));
  c ← (if is_hupd c then Ret c
       else BReactor_SetFileDescriptorEvents (set_wait (Z.land (wait_events c) (Z.lnot BREACTOR_WRITE)) c));
  Ret (set_send SEND_STATE_NOT_INITED (send_busy c) false c).

Definition BConnection_RecvAsync_Init (c : BConnection) : outcome BConnection :=
  _ ← require (recv_state c =? RECV_STATE_NOT_INITED);
  Ret (set_recv RECV_STATE_READY (recv_busy c) false c).

Definition BConnection_RecvAsync_Free (c : BConnection) : outcome BConnection :=
  _ ← require ((recv_state c =? RECV_STATE_READY) || (recv_state c =? RECV_STATE_BUSY)
               || (recv_state c =? RECV_STATE_INITED_CLOSED));
  c ← (if is_hupd c then Ret c
       else BReactor_SetFileDescriptorEvents (set_wait (Z.land (wait_events c) (Z.lnot BREACTOR_READ)) c));
  Ret (set_recv RECV_STATE_NOT_INITED (recv_busy c) false c).

(** Result of a write or a read. *)
Inductive sys_result := SysAgain | SysError | SysDone (n : Z).

(** What a handler reports to the user of the connection. *)
Inductive con_event := CNone | CSent (n : Z) | CReceived (n : Z) | CRecvClosed | CError.

Definition wait_for (ev : Z) (c : BConnection) : outcome (BConnection * con_event) :=
  c ← BReactor_SetFileDescriptorEvents (set_wait (Z.lor (wait_events c) ev) c);
  Ret (c, CNone).

(** [lim]: the reactor's limit lets another call through. *)
Definition connection_send (c : BConnection) (lim : bool) (w : sys_result) : outcome (BConnection * con_event) :=
  _ ← require (send_state c =? SEND_STATE_BUSY);
  if negb (is_hupd c) && negb lim then wait_for BREACTOR_WRITE c
  else match w with
       | SysAgain => if is_hupd c then Ret (c, CError) else wait_for BREACTOR_WRITE c
       | SysError => Ret (c, CError)
       | SysDone bytes =>
           _ ← require ((0 <? bytes) && (bytes <=? snd (send_busy c)));
           Ret (set_send SEND_STATE_READY (send_busy c) (send_job c) c, CSent bytes)
       end.

Definition connection_recv (c : BConnection) (lim : bool) (r : sys_result) : outcome (BConnection * con_event) :=
  _ ← require (recv_state c =? RECV_STATE_BUSY);
  if negb (is_hupd c) && negb lim then wait_for BREACTOR_READ c
  else match r with
       | SysAgain => if is_hupd c then Ret (c, CError) else wait_for BREACTOR_READ c
       | SysError => Ret (c, CError)
       | SysDone bytes =>
           if bytes =? 0
           then Ret (set_recv RECV_STATE_INITED_CLOSED (recv_busy c) (recv_job c) c, CRecvClosed)
           else
             _ ← require ((0 <? bytes) && (bytes <=? snd (recv_busy c)));
             Ret (set_recv RECV_STATE_READY (recv_busy c) (recv_job c) c, CReceived bytes)
       end.

Definition has (events ev : Z) : bool := negb (Z.land events ev =? 0).

Definition connection_fd_handler (c : BConnection) (events : Z) (slim rlim : bool) (w r : sys_result) :
    outcome (BConnection * con_event) :=
  _ ← require (negb (is_hupd c));
  c ← BReactor_SetFileDescriptorEvents (set_wait (Z.land (wait_events c) (Z.lnot events)) c);
  let c := if has events BREACTOR_HUP then set_hupd c else c in
  let broken := has events (Z.lor BREACTOR_ERROR BREACTOR_HUP) in
  let have_send := has events BREACTOR_WRITE || (broken && (send_state c =? SEND_STATE_BUSY)) in
  _ ← require (negb (has events BREACTOR_WRITE) || (send_state c =? SEND_STATE_BUSY));
  let have_recv := has events BREACTOR_READ || (broken && (recv_state c =? RECV_STATE_BUSY)) in
  _ ← require (negb (has events BREACTOR_READ) || (recv_state c =? RECV_STATE_BUSY));
  if have_send then
    connection_send (if have_recv then set_recv (recv_state c) (recv_busy c) true c else c) slim w
  else if have_recv then connection_recv c rlim r
  else if is_hupd c then Ret (c, CNone) else Ret (c, CError).

Definition connection_send_job_handler (c : BConnection) (lim : bool) (w : sys_result) :=
  _ ← require (send_state c =? SEND_STATE_BUSY);
  connection_send (set_send (send_state c) (send_busy c) false c) lim w.

Definition connection_recv_job_handler (c : BConnection) (lim : bool) (r : sys_result) :=
  _ ← require (recv_state c =? RECV_STATE_BUSY);
  connection_recv (set_recv (recv_state c) (recv_busy c) false c) lim r.

Definition connection_send_if_handler_send (c : BConnection) (data data_len : Z) (lim : bool) (w : sys_result) :=
  _ ← require (send_state c =? SEND_STATE_READY);
  _ ← require (0 <? data_len);
  connection_send (set_send SEND_STATE_BUSY (data, data_len) (send_job c) c) lim w.

Definition connection_recv_if_handler_recv (c : BConnection) (data data_avail : Z) (lim : bool) (r : sys_result) :=
  _ ← require (recv_state c =? RECV_STATE_READY);
  _ ← require (0 <? data_avail);
  connection_recv (set_recv RECV_STATE_BUSY (data, data_avail) (recv_job c) c) lim r.

(** ** The contract between the connection, its user, the reactor and the system *)
Inductive con_op :=
| OpSend (data len : Z) (lim : bool) (w : sys_result)
| OpRecv (data len : Z) (lim : bool) (r : sys_result)
| OpFd (events : Z) (slim rlim : bool) (w r : sys_result)
| OpRecvJob (lim : bool) (r : sys_result)
| OpSendInit | OpSendFree | OpRecvInit | OpRecvFree.

Definition con_apply (op : con_op) (c : BConnection) : outcome (BConnection * con_event) :=
  match op with
  | OpSend d n lim w => connection_send_if_handler_send c d n lim w
  | OpRecv d n lim r => connection_recv_if_handler_recv c d n lim r
  | OpFd ev slim rlim w r => connection_fd_handler c ev slim rlim w r
  | OpRecvJob lim r => connection_recv_job_handler c lim r
  | OpSendInit => c ← BConnection_SendAsync_Init c; Ret (c, CNone)
  | OpSendFree => c ← BConnection_SendAsync_Free c; Ret (c, CNone)
  | OpRecvInit => c ← BConnection_RecvAsync_Init c; Ret (c, CNone)
  | OpRecvFree => c ← BConnection_RecvAsync_Free c; Ret (c, CNone)
  end.

(** A write of [n > 0] bytes takes some of them; a read also reports the end. *)
Definition write_ok (n : Z) (w : sys_result) : Prop :=
  match w with SysDone k => 0 < k ≤ n | _ => True end.
Definition read_ok (n : Z) (r : sys_result) : Prop :=
  match r with SysDone k => 0 ≤ k ≤ n | _ => True end.

(** The reactor reports only what is waited for, errors and hang-ups, to a
    registered descriptor when no job is pending; an error comes with a hang-up,
    as on a TCP socket. *)
Definition fd_events_ok (c : BConnection) (ev : Z) : Prop :=
  registered c = true ∧ recv_job c = false ∧ 0 < ev < 16 ∧
  (has ev BREACTOR_READ = true → has (wait_events c) BREACTOR_READ = true) ∧
  (has ev BREACTOR_WRITE = true → has (wait_events c) BREACTOR_WRITE = true) ∧
  (has ev BREACTOR_ERROR = true → has ev BREACTOR_HUP = true).

Definition con_allowed (op : con_op) (c : BConnection) : Prop :=
  match op with
  | OpSend _ n _ w => send_state c = SEND_STATE_READY ∧ 0 < n ∧ write_ok n w
  | OpRecv _ n _ r => recv_state c = RECV_STATE_READY ∧ 0 < n ∧ read_ok n r
  | OpFd ev _ _ w r => fd_events_ok c ev ∧ write_ok (snd (send_busy c)) w ∧ read_ok (snd (recv_busy c)) r
  | OpRecvJob _ r => recv_job c = true ∧ read_ok (snd (recv_busy c)) r
  | OpSendInit => send_state c = SEND_STATE_NOT_INITED
  | OpSendFree => send_state c = SEND_STATE_READY ∨ send_state c = SEND_STATE_BUSY
  | OpRecvInit => recv_state c = RECV_STATE_NOT_INITED
  | OpRecvFree =>
      recv_state c = RECV_STATE_READY ∨ recv_state c = RECV_STATE_BUSY ∨ recv_state c = RECV_STATE_INITED_CLOSED
  end.

(** Runs that keep the contract; nothing but freeing follows an error. *)
Inductive con_reach (c0 : BConnection) : BConnection → bool → Prop :=
| ConStart : con_reach c0 c0 false
| ConStep c op c' ev :
    con_reach c0 c false → con_allowed op c → con_apply op c = Ret (c', ev) →
    con_reach c0 c' (match ev with CError => true | _ => false end).

(** Freeing what is still initialised, as the users of a connection do. *)
Definition con_teardown (c : BConnection) : outcome (list Z) :=
  c ← (if send_state c =? SEND_STATE_NOT_INITED then Ret c else BConnection_SendAsync_Free c);
  c ← (if recv_state c =? RECV_STATE_NOT_INITED then Ret c else BConnection_RecvAsync_Free c);
  BConnection_Free c.

(** ** Invariant *)
Definition con_shape (c : BConnection) : Prop :=
  registered c = negb (is_hupd c) ∧
  (send_state c = 0 ∨ send_state c = 1 ∨ send_state c = 2) ∧
  (recv_state c = 0 ∨ recv_state c = 1 ∨ recv_state c = 2 ∨ recv_state c = 3) ∧
  (send_state c = 2 → 0 < snd (send_busy c)) ∧ (recv_state c = 2 → 0 < snd (recv_busy c)).

(** The reactor watches for exactly the operations that wait; after a hang-up
    it watches for none, and a receive is pending only as a job. *)
Definition send_waits (c : BConnection) : Prop :=
  if is_hupd c then send_state c ≠ 2 else has (wait_events c) BREACTOR_WRITE = (send_state c =? 2).
Definition recv_waits (c : BConnection) : Prop :=
  if is_hupd c then recv_job c = (recv_state c =? 2)
  else has (wait_events c) BREACTOR_READ = ((recv_state c =? 2) && negb (recv_job c)) ∧
       (recv_job c = true → recv_state c = 2).
Definition con_waits (c : BConnection) : Prop :=
  0 ≤ wait_events c < 4 ∧ send_waits c ∧ recv_waits c.

(** An operation that was started and has not completed is scheduled. *)
Definition not_stranded (c : BConnection) : Prop :=
  (send_state c = SEND_STATE_BUSY → registered c = true ∧ has (wait_events c) BREACTOR_WRITE = true) ∧
  (recv_state c = RECV_STATE_BUSY →
     recv_job c = true ∨ registered c = true ∧ has (wait_events c) BREACTOR_READ = true).

Lemma wait_cases z : 0 ≤ z < 4 → z = 0 ∨ z = 1 ∨ z = 2 ∨ z = 3.
Proof. lia. Qed.

Lemma wait_lor z ev : 0 ≤ z < 4 → ev = BREACTOR_READ ∨ ev = BREACTOR_WRITE →
  0 ≤ Z.lor z ev < 4 ∧ has (Z.lor z ev) ev = true ∧
  (∀ ev', ev' = BREACTOR_READ ∨ ev' = BREACTOR_WRITE → ev' ≠ ev → has (Z.lor z ev) ev' = has z ev').
Proof.
  intros Hz Hev. destruct (wait_cases z Hz) as [->|[->|[->| ->]]], Hev as [->| ->];
    (split; [split; [discriminate|reflexivity]|split; [reflexivity|intros ev' [->| ->] ?; done]]).
Qed.

Lemma wait_clear z ev : 0 ≤ z < 4 → 0 ≤ ev < 16 →
  0 ≤ Z.land z (Z.lnot ev) < 4 ∧
  (∀ e, e = BREACTOR_READ ∨ e = BREACTOR_WRITE →
     has (Z.land z (Z.lnot ev)) e = has z e && negb (has ev e)).
Proof.
  intros Hz Hev. destruct (wait_cases z Hz) as [->|[->|[->| ->]]].
  all: assert (Hc : ∃ n : nat, ev = Z.of_nat n ∧ (n < 16)%nat) by (exists (Z.to_nat ev); lia).
  all: destruct Hc as (n & -> & Hn).
  all: do 16 (destruct n as [|n]; [split; [split; [discriminate|reflexivity]|intros e [->| ->]; reflexivity]|]); lia.
Qed.

(** What an operation leaves behind. *)
Definition con_result (c c' : BConnection) (ev : con_event) : Prop :=
  con_shape c' ∧ fd c' = fd c ∧ close_fd c' = close_fd c ∧ (ev ≠ CError → con_waits c').

Lemma con_shape_send c st d j :
  con_shape c → st = 0 ∨ st = 1 ∨ st = 2 → (st = 2 → 0 < snd d) → con_shape (set_send st d j c).
Proof. intros (H1 & _ & H3 & _ & H5) ? ?. done. Qed.
Lemma con_shape_recv c st d j :
  con_shape c → st = 0 ∨ st = 1 ∨ st = 2 ∨ st = 3 → (st = 2 → 0 < snd d) → con_shape (set_recv st d j c).
Proof. intros (H1 & H2 & _ & H4 & _) ? ?. done. Qed.

Lemma connection_send_ok c lim w :
  con_shape c → 0 ≤ wait_events c < 4 → recv_waits c → send_state c = 2 →
  (is_hupd c = false → has (wait_events c) BREACTOR_WRITE = false) → write_ok (snd (send_busy c)) w →
  ∃ c' ev, connection_send c lim w = Ret (c', ev) ∧ con_result c c' ev.
Proof.
  intros Hsh Hb Hr Hs Hw Hok. pose proof Hsh as (H1 & _ & H3 & H4 & H5).
  unfold connection_send. rewrite Hs. cbn [Z.eqb SEND_STATE_BUSY Pos.eqb require]. rewrite bind_Ret.
  assert (Hwait : is_hupd c = false →
    ∃ c' ev, wait_for BREACTOR_WRITE c = Ret (c', ev) ∧ con_result c c' ev).
  { intros Hh. unfold wait_for, BReactor_SetFileDescriptorEvents. cbn [registered set_wait].
    rewrite H1, Hh. eexists _, _. split; [done|]. destruct (wait_lor _ BREACTOR_WRITE Hb) as (L1 & L2 & L3); [by right|].
    split_and!; try done. intros _. unfold con_waits, send_waits, recv_waits in *. cbn -[has Z.lor]. rewrite Hh, L2, Hs in *.
    split; [exact L1|]. split; [done|]. by rewrite L3; [|left|]. }
  destruct (is_hupd c) eqn:Eh; cbn [negb andb]; [|destruct lim; cbn [negb]; [|by apply Hwait]].
  all: destruct w as [| |k]; try (by apply Hwait); try (eexists _, _; split; [done|]; by split_and!).
  all: cbn in Hok; replace ((0 <? k) && (k <=? snd (send_busy c))) with true by (symmetry; bool_hyps; lia);
    eexists _, _; (split; [done|]); (split_and!; [apply con_shape_send; auto; discriminate|done..|]); intros _;
    unfold con_waits, send_waits, recv_waits in *; cbn -[has Z.lor]; rewrite ?Eh in *; (split; [exact Hb|]); (split; [first [done|by apply Hw]|exact Hr]).
Qed.

Lemma connection_recv_ok c lim r :
  con_shape c → 0 ≤ wait_events c < 4 → send_waits c → recv_state c = 2 → recv_job c = false →
  (is_hupd c = false → has (wait_events c) BREACTOR_READ = false) → read_ok (snd (recv_busy c)) r →
  ∃ c' ev, connection_recv c lim r = Ret (c', ev) ∧ con_result c c' ev.
Proof.
  intros Hsh Hb Hr Hs Hj Hw Hok. pose proof Hsh as (H1 & H2 & _ & H4 & H5).
  unfold connection_recv. rewrite Hs. cbn [Z.eqb RECV_STATE_BUSY Pos.eqb require]. rewrite bind_Ret.
  assert (Hwait : is_hupd c = false →
    ∃ c' ev, wait_for BREACTOR_READ c = Ret (c', ev) ∧ con_result c c' ev).
  { intros Hh. unfold wait_for, BReactor_SetFileDescriptorEvents. cbn [registered set_wait].
    rewrite H1, Hh. eexists _, _. split; [done|]. destruct (wait_lor _ BREACTOR_READ Hb) as (L1 & L2 & L3); [by left|].
    split_and!; try done. intros _. unfold con_waits, send_waits, recv_waits in *. cbn -[has Z.lor]. rewrite Hh, L2, Hs, Hj in *.
    split; [exact L1|]. split; [|done]. by rewrite L3; [|right|]. }
  destruct (is_hupd c) eqn:Eh; cbn [negb andb]; [|destruct lim; cbn [negb]; [|by apply Hwait]].
  all: destruct r as [| |k]; try (by apply Hwait); try (eexists _, _; split; [done|]; by split_and!).
  all: cbn in Hok; destruct (k =? 0) eqn:Ek; bool_hyps;
    [|replace ((0 <? k) && (k <=? snd (recv_busy c))) with true by (symmetry; bool_hyps; lia)].
  all: eexists _, _; (split; [done|]); (split_and!; [apply con_shape_recv; auto; discriminate|done..|]); intros _;
    unfold con_waits, send_waits, recv_waits in *; cbn -[has Z.lor]; rewrite ?Eh, ?Hj in *; (split; [exact Hb|]); (split; [exact Hr|]); first [done|split; [by apply Hw|done]].
Qed.

Definition con_inv (c : BConnection) : Prop := con_shape c ∧ con_waits c.

Lemma con_send_if_ok c d n lim w :
  con_inv c → send_state c = 1 → 0 < n → write_ok n w →
  ∃ c' ev, connection_send_if_handler_send c d n lim w = Ret (c', ev) ∧ con_result c c' ev.
Proof.
  intros [Hsh (Hb & Hs & Hr)] Hst Hn Hw. unfold connection_send_if_handler_send, SEND_STATE_READY.
  rewrite Hst, (proj2 (Z.ltb_lt 0 n)) by done.
  apply (connection_send_ok (set_send SEND_STATE_BUSY (d, n) (send_job c) c)); try done.
  - apply con_shape_send; auto.
  - intros Hh. cbn in Hh. unfold send_waits in Hs. by rewrite Hh, Hst in Hs.
Qed.

Lemma con_recv_if_ok c d n lim r :
  con_inv c → recv_state c = 1 → 0 < n → read_ok n r →
  ∃ c' ev, connection_recv_if_handler_recv c d n lim r = Ret (c', ev) ∧ con_result c c' ev.
Proof.
  intros [Hsh (Hb & Hs & Hr)] Hst Hn Hw. unfold connection_recv_if_handler_recv, RECV_STATE_READY.
  rewrite Hst, (proj2 (Z.ltb_lt 0 n)) by done. unfold recv_waits in Hr. rewrite Hst in Hr.
  assert (Hj : recv_job c = false).
  { destruct (is_hupd c); [done|]. destruct Hr as [_ Hr]. destruct (recv_job c); [|done]. discriminate (Hr eq_refl). }
  apply (connection_recv_ok (set_recv RECV_STATE_BUSY (d, n) (recv_job c) c)); try done.
  - apply con_shape_recv; auto.
  - intros Hh. cbn in Hh. rewrite Hh in Hr. apply Hr.
Qed.

Lemma con_recv_job_ok c lim r :
  con_inv c → recv_job c = true → read_ok (snd (recv_busy c)) r →
  ∃ c' ev, connection_recv_job_handler c lim r = Ret (c', ev) ∧ con_result c c' ev.
Proof.
  intros [Hsh (Hb & Hs & Hr)] Hj Hw. unfold connection_recv_job_handler, RECV_STATE_BUSY.
  assert (Hst : recv_state c = 2).
  { unfold recv_waits in Hr. destruct (is_hupd c); [|by apply Hr]. rewrite Hj in Hr. by apply Z.eqb_eq. }
  rewrite Hst. pose proof Hsh as (H1 & H2 & H3 & H4 & H5).
  apply (connection_recv_ok (set_recv 2 (recv_busy c) false c)); try done.
  - apply con_shape_recv; auto.
  - intros Hh. cbn in Hh. unfold recv_waits in Hr. rewrite Hh, Hj in Hr. cbn. by rewrite (proj1 Hr), andb_false_r.
Qed.

Lemma broken_hup ev :
  0 < ev < 16 → (has ev BREACTOR_ERROR = true → has ev BREACTOR_HUP = true) →
  has ev (Z.lor BREACTOR_ERROR BREACTOR_HUP) = has ev BREACTOR_HUP.
Proof.
  intros Hev. assert (Hc : ∃ n : nat, ev = Z.of_nat n ∧ (n < 16)%nat) by (exists (Z.to_nat ev); lia).
  destruct Hc as (n & -> & Hn). do 16 (destruct n as [|n]; [vm_compute; intros H; try done; by rewrite H|]). lia.
Qed.

(** The end of the descriptor handler: [W], [R], [h] are the bits reported. *)
Lemma con_fd_dispatch c W R h slim rlim w r :
  con_shape c → 0 ≤ wait_events c < 4 → recv_job c = false → is_hupd c = h →
  (W = true → (send_state c =? 2) = true) → (R = true → (recv_state c =? 2) = true) →
  has (wait_events c) BREACTOR_WRITE = (send_state c =? 2) && negb W →
  has (wait_events c) BREACTOR_READ = (recv_state c =? 2) && negb R →
  write_ok (snd (send_busy c)) w → read_ok (snd (recv_busy c)) r →
  ∃ c' e,
    (if W || h && (send_state c =? 2) then
       connection_send (if R || h && (recv_state c =? 2) then set_recv (recv_state c) (recv_busy c) true c else c) slim w
     else if R || h && (recv_state c =? 2) then connection_recv c rlim r
     else if h then Ret (c, CNone) else Ret (c, CError)) = Ret (c', e) ∧ con_result c c' e.
Proof.
  intros Hsh Hb Hj Hh HW HR Bw Br Hw Hr. pose proof Hsh as (_ & _ & H3 & _ & H5).
  destruct (W || h && (send_state c =? 2)) eqn:Es.
  - assert (Hs2 : (send_state c =? 2) = true) by (destruct W, h; auto).
    rewrite Hs2 in Bw. apply Z.eqb_eq in Hs2.
    destruct (R || h && (recv_state c =? 2)) eqn:Er.
    + assert (Hr2 : (recv_state c =? 2) = true) by (destruct R, h; auto).
      apply (connection_send_ok (set_recv _ _ true c)); try done.
      * unfold recv_waits. cbn -[has]. rewrite Hh, Br, Hr2. apply Z.eqb_eq in Hr2. destruct h, R; try done; by rewrite Hr2 in Er.
      * cbn -[has]. rewrite Hh, Bw. destruct h, W; done.
    + apply connection_send_ok; try done.
      * unfold recv_waits. rewrite Hh, Hj, Br. destruct h, R, (recv_state c =? 2); done.
      * rewrite Hh, Bw. destruct h, W; done.
  - destruct (R || h && (recv_state c =? 2)) eqn:Er.
    + assert (Hr2 : (recv_state c =? 2) = true) by (destruct R, h; auto).
      rewrite Hr2 in Br. apply Z.eqb_eq in Hr2. apply connection_recv_ok; try done.
      * unfold send_waits. rewrite Hh, Bw. destruct h; [apply Z.eqb_neq|]; by destruct W, (send_state c =? 2).
      * rewrite Hh, Br. destruct h, R; done.
    + destruct h; eexists _, _; (split; [done|]); split_and!; try done. intros _.
      split; [done|]. unfold send_waits, recv_waits. rewrite Hh, Hj.
      split; [apply Z.eqb_neq|]; by destruct R, W, (recv_state c =? 2), (send_state c =? 2).
Qed.

Lemma con_fd_ok c ev slim rlim w r :
  con_inv c → fd_events_ok c ev → write_ok (snd (send_busy c)) w → read_ok (snd (recv_busy c)) r →
  ∃ c' e, connection_fd_handler c ev slim rlim w r = Ret (c', e) ∧ con_result c c' e.
Proof.
  intros [Hsh (Hb & Hs & Hr)] (Hreg & Hj & Hev & Hrd & Hwr & Herr) Hw Hrr.
  pose proof Hsh as (H1 & H2 & H3 & H4 & H5).
  assert (Hh : is_hupd c = false) by (destruct (is_hupd c); [by rewrite H1 in Hreg|done]).
  unfold send_waits, recv_waits in Hs, Hr. rewrite Hh in Hs, Hr. destruct Hr as [Hr _].
  rewrite Hj, andb_true_r in Hr. rewrite Hs in Hwr. rewrite Hr in Hrd.
  unfold connection_fd_handler, BReactor_SetFileDescriptorEvents. cbn [registered set_wait].
  rewrite Hh, Hreg. cbn [negb require]. rewrite !bind_Ret.
  destruct (wait_clear _ ev Hb ltac:(lia)) as [Hb1 Hbits].
  pose proof (Hbits BREACTOR_READ (or_introl eq_refl)) as Br.
  pose proof (Hbits BREACTOR_WRITE (or_intror eq_refl)) as Bw. rewrite Hs in Bw. rewrite Hr in Br.
  set (c1 := set_wait _ c). set (c2 := if has ev BREACTOR_HUP then set_hupd c1 else c1).
  assert (Hf : send_state c2 = send_state c ∧ recv_state c2 = recv_state c ∧ send_busy c2 = send_busy c ∧
    recv_busy c2 = recv_busy c ∧ recv_job c2 = false ∧ is_hupd c2 = has ev BREACTOR_HUP ∧
    wait_events c2 = wait_events c1 ∧ fd c2 = fd c ∧ close_fd c2 = close_fd c ∧ con_shape c2).
  { unfold c2. destruct (has ev BREACTOR_HUP); split_and!; done. }
  destruct Hf as (F1 & F2 & F3 & F4 & F5 & F6 & F7 & F8 & F9 & Hsh2). clearbody c2.
  rewrite F1, F2, F4, F6. unfold SEND_STATE_BUSY, RECV_STATE_BUSY.
  assert (Gw : negb (has ev BREACTOR_WRITE) || (send_state c =? 2) = true)
    by (destruct (has ev BREACTOR_WRITE); [by apply Hwr|done]).
  assert (Gr : negb (has ev BREACTOR_READ) || (recv_state c =? 2) = true)
    by (destruct (has ev BREACTOR_READ); [by apply Hrd|done]).
  rewrite Gw, Gr, (broken_hup ev Hev Herr). cbn [require]. rewrite !bind_Ret.
  rewrite <- F6.
  destruct (con_fd_dispatch c2 (has ev BREACTOR_WRITE) (has ev BREACTOR_READ) (is_hupd c2) slim rlim w r)
    as (c' & e & Hx & R1 & R2 & R3 & R4); rewrite ?F1, ?F2, ?F3, ?F4, ?F7; try done.
  rewrite F1, F2, F4 in Hx. exists c', e. split; [exact Hx|]. split; [done|]. by rewrite R2, R3, F8, F9.
Qed.

(** Freeing one side, also after an error. *)
Definition con_freed (c c' : BConnection) : Prop :=
  con_shape c' ∧ fd c' = fd c ∧ close_fd c' = close_fd c ∧ (con_waits c → con_waits c').

Lemma con_send_free_ok c :
  con_shape c → send_state c = 1 ∨ send_state c = 2 →
  ∃ c', BConnection_SendAsync_Free c = Ret c' ∧ con_freed c c' ∧
        send_state c' = 0 ∧ recv_state c' = recv_state c.
Proof.
  intros Hsh Hst. pose proof Hsh as (H1 & H2 & H3 & H4 & H5).
  unfold BConnection_SendAsync_Free, BReactor_SetFileDescriptorEvents.
  replace ((_ =? _) || _) with true by (symmetry; destruct Hst as [-> | ->]; reflexivity).
  cbn [require]. rewrite bind_Ret. cbn [registered set_wait]. rewrite H1.
  destruct (is_hupd c) eqn:Eh; cbn [negb require]; eexists; (split; [done|]);
    (split; [|done]); (split_and!; [by apply con_shape_send; auto|done..|]); intros (Hb & Hs & Hr);
    unfold con_waits, send_waits, recv_waits in *; cbn -[has Z.land Z.lnot]; rewrite Eh in *; [done|].
  destruct (wait_clear (wait_events c) BREACTOR_WRITE Hb) as [Hb' Hx]; [done|].
  split; [exact Hb'|]. rewrite !Hx by auto. by rewrite andb_false_r, andb_true_r.
Qed.

Lemma con_recv_free_ok c :
  con_shape c → recv_state c = 1 ∨ recv_state c = 2 ∨ recv_state c = 3 →
  ∃ c', BConnection_RecvAsync_Free c = Ret c' ∧ con_freed c c' ∧
        recv_state c' = 0 ∧ send_state c' = send_state c.
Proof.
  intros Hsh Hst. pose proof Hsh as (H1 & H2 & H3 & H4 & H5).
  unfold BConnection_RecvAsync_Free, BReactor_SetFileDescriptorEvents.
  replace ((_ =? _) || _ || _) with true by (symmetry; destruct Hst as [-> |[-> | ->]]; reflexivity).
  cbn [require]. rewrite bind_Ret. cbn [registered set_wait]. rewrite H1.
  destruct (is_hupd c) eqn:Eh; cbn [negb require]; eexists; (split; [done|]);
    (split; [|done]); (split_and!; [by apply con_shape_recv; auto|done..|]); intros (Hb & Hs & Hr);
    unfold con_waits, send_waits, recv_waits in *; cbn -[has Z.land Z.lnot]; rewrite Eh in *; [done|].
  destruct (wait_clear (wait_events c) BREACTOR_READ Hb) as [Hb' Hx]; [done|].
  split; [exact Hb'|]. rewrite !Hx by auto. by rewrite andb_false_r, andb_true_r.
Qed.

Lemma con_init_ok c :
  con_inv c →
  (send_state c = 0 → ∃ c', BConnection_SendAsync_Init c = Ret c' ∧ con_result c c' CNone) ∧
  (recv_state c = 0 → ∃ c', BConnection_RecvAsync_Init c = Ret c' ∧ con_result c c' CNone).
Proof.
  intros [Hsh (Hb & Hs & Hr)]. split; intros Hst;
    unfold BConnection_SendAsync_Init, BConnection_RecvAsync_Init; rewrite Hst; eexists; (split; [done|]).
  - split_and!; [by apply con_shape_send; auto|done..|]. intros _. split; [done|].
    split; [|done]. unfold send_waits in *. cbn -[has]. rewrite Hst in Hs. by destruct (is_hupd c).
  - split_and!; [by apply con_shape_recv; auto|done..|]. intros _. split; [done|].
    split; [done|]. unfold recv_waits in *. cbn -[has]. rewrite Hst in Hr. destruct (is_hupd c); [done|].
    by split; [apply Hr|].
Qed.

Lemma con_apply_ok c op :
  con_inv c → con_allowed op c → ∃ c' ev, con_apply op c = Ret (c', ev) ∧ con_result c c' ev.
Proof.
  intros Hinv Ha. destruct op as [d n lim w|d n lim r|ev slim rlim w r|lim r| | | |]; cbn [con_apply con_allowed] in *.
  - destruct Ha as (? & ? & ?). by apply con_send_if_ok.
  - destruct Ha as (? & ? & ?). by apply con_recv_if_ok.
  - destruct Ha as (? & ? & ?). by apply con_fd_ok.
  - destruct Ha. by apply con_recv_job_ok.
  - destruct (proj1 (con_init_ok c Hinv) Ha) as (c' & -> & H). by exists c', CNone.
  - destruct (con_send_free_ok c (proj1 Hinv) Ha) as (c' & -> & (? & ? & ? & Hw) & _).
    exists c', CNone. split; [done|]. split_and!; [done..|]. intros _. apply Hw, Hinv.
  - destruct (proj2 (con_init_ok c Hinv) Ha) as (c' & -> & H). by exists c', CNone.
  - destruct (con_recv_free_ok c (proj1 Hinv) Ha) as (c' & -> & (? & ? & ? & Hw) & _).
    exists c', CNone. split; [done|]. split_and!; [done..|]. intros _. apply Hw, Hinv.
Qed.

(** ** What one operation does, for the users of a connection *)
Definition same_fd (c c' : BConnection) : Prop := fd c' = fd c ∧ close_fd c' = close_fd c.

(** A send of [x] was tried: it completed in part, waits, or failed. *)
Definition send_step (c c' : BConnection) (ev : con_event) (x : Z * Z) (w : sys_result) : Prop :=
  same_fd c c' ∧ recv_state c' = recv_state c ∧ recv_busy c' = recv_busy c ∧ send_busy c' = x ∧
  match ev with
  | CNone => send_state c' = 2
  | CError => send_state c' = 2 ∧ (w = SysError ∨ w = SysAgain ∧ is_hupd c' = true)
  | CSent n => send_state c' = 1 ∧ 0 < n ≤ snd x
  | _ => False
  end.
Definition recv_step (c c' : BConnection) (ev : con_event) (x : Z * Z) (r : sys_result) : Prop :=
  same_fd c c' ∧ send_state c' = send_state c ∧ send_busy c' = send_busy c ∧ recv_busy c' = x ∧
  match ev with
  | CNone => recv_state c' = 2
  | CError => recv_state c' = 2 ∧ (r = SysError ∨ r = SysAgain ∧ is_hupd c' = true)
  | CReceived n => recv_state c' = 1 ∧ 0 < n ≤ snd x ∧ r = SysDone n
  | CRecvClosed => recv_state c' = 3 ∧ r = SysDone 0
  | _ => False
  end.

Ltac io_cases :=
  intros H; repeat (case_match; simplify_eq/=; inv_binds; simplify_eq/=); bool_hyps; split_and!;
  try done; auto; try lia; try (right; split; congruence); try congruence.

Lemma connection_send_step c lim w c' ev :
  connection_send c lim w = Ret (c', ev) → send_step c c' ev (send_busy c) w ∧ is_hupd c' = is_hupd c.
Proof. unfold connection_send, wait_for, BReactor_SetFileDescriptorEvents, require, send_step, same_fd. io_cases. Qed.
Lemma connection_recv_step c lim r c' ev :
  connection_recv c lim r = Ret (c', ev) → recv_step c c' ev (recv_busy c) r ∧ is_hupd c' = is_hupd c.
Proof. unfold connection_recv, wait_for, BReactor_SetFileDescriptorEvents, require, recv_step, same_fd. io_cases. Qed.

Lemma send_if_step c d n lim w c' ev :
  connection_send_if_handler_send c d n lim w = Ret (c', ev) → send_step c c' ev (d, n) w ∧ is_hupd c' = is_hupd c.
Proof.
  unfold connection_send_if_handler_send. intros H. inv_binds.
  by apply connection_send_step in H as ((? & ? & ? & ? & ?) & ?).
Qed.
Lemma recv_if_step c d n lim r c' ev :
  connection_recv_if_handler_recv c d n lim r = Ret (c', ev) → recv_step c c' ev (d, n) r ∧ is_hupd c' = is_hupd c.
Proof.
  unfold connection_recv_if_handler_recv. intros H. inv_binds.
  by apply connection_recv_step in H as ((? & ? & ? & ? & ?) & ?).
Qed.
Lemma recv_job_step c lim r c' ev :
  connection_recv_job_handler c lim r = Ret (c', ev) → recv_step c c' ev (recv_busy c) r ∧ is_hupd c' = is_hupd c.
Proof.
  unfold connection_recv_job_handler. intros H. inv_binds.
  by apply connection_recv_step in H as ((? & ? & ? & ? & ?) & ?).
Qed.

Lemma some_event ev :
  0 < ev < 16 → (has ev BREACTOR_ERROR = true → has ev BREACTOR_HUP = true) →
  has ev BREACTOR_READ || has ev BREACTOR_WRITE || has ev BREACTOR_HUP = true.
Proof.
  intros Hev. assert (Hc : ∃ n : nat, ev = Z.of_nat n ∧ (n < 16)%nat) by (exists (Z.to_nat ev); lia).
  destruct Hc as (n & -> & Hn). destruct n as [|n]; [lia|].
  do 15 (destruct n as [|n]; [vm_compute; intros H; try done; by apply H|]). lia.
Qed.

(** A descriptor event reaches an operation that is in progress, if there is one. *)
Lemma fd_step_cases c ev slim rlim w r c' e :
  connection_fd_handler c ev slim rlim w r = Ret (c', e) → fd_events_ok c ev →
  is_hupd c' = is_hupd c || has ev BREACTOR_HUP ∧
  (send_state c = 2 ∧ send_step c c' e (send_busy c) w ∨
   recv_state c = 2 ∧ recv_step c c' e (recv_busy c) r ∨
   (send_state c ≠ 2 ∧ recv_state c ≠ 2 ∧
    e = CNone ∧ same_fd c c' ∧ send_state c' = send_state c ∧ recv_state c' = recv_state c)).
Proof.
  unfold connection_fd_handler, BReactor_SetFileDescriptorEvents. intros H (_ & _ & Hev & _ & _ & Herr).
  pose proof (some_event ev Hev Herr) as Hsome. rewrite (broken_hup ev Hev Herr) in H. inv_binds. simplify_eq.
  assert (Hh : is_hupd c = false) by (unfold require in Hv; by destruct (is_hupd c)). rewrite Hh. clear Hv.
  set (c1 := set_wait _ c) in *. set (c2 := if has ev BREACTOR_HUP then set_hupd c1 else c1) in *.
  assert (F : send_state c2 = send_state c ∧ recv_state c2 = recv_state c ∧ send_busy c2 = send_busy c ∧
    recv_busy c2 = recv_busy c ∧ same_fd c c2 ∧ is_hupd c2 = has ev BREACTOR_HUP)
    by (unfold c2; by destruct (has ev BREACTOR_HUP)).
  destruct F as (F1 & F2 & F3 & F4 & [F5 F6] & F7). clearbody c2. clearbody c1.
  rewrite F1, F2, F4, F7 in *. unfold SEND_STATE_BUSY, RECV_STATE_BUSY, require in *. cbn [orb].
  assert (Hsend : ∀ c3, is_hupd c3 = is_hupd c2 → same_fd c2 c3 → send_busy c3 = send_busy c2 →
    recv_state c3 = recv_state c2 → recv_busy c3 = recv_busy c2 → connection_send c3 slim w = Ret (c', e) →
    is_hupd c' = has ev BREACTOR_HUP ∧ send_step c c' e (send_busy c) w).
  { intros c3 E1 [E2 E3] E4 E5 E6 Hx. apply connection_send_step in Hx as (((X1 & X2) & X3 & X4 & X5 & X6) & X7).
    unfold send_step, same_fd. rewrite <- F3, <- E4. by split_and!; try congruence. }
  assert (Hrecv : connection_recv c2 rlim r = Ret (c', e) →
    is_hupd c' = has ev BREACTOR_HUP ∧ recv_step c c' e (recv_busy c) r).
  { intros Hx. apply connection_recv_step in Hx as (((X1 & X2) & X3 & X4 & X5 & X6) & X7).
    unfold recv_step, same_fd. rewrite <- F4. by split_and!; try congruence. }
  destruct (send_state c =? 2) eqn:Es, (recv_state c =? 2) eqn:Er;
    destruct (has ev BREACTOR_WRITE), (has ev BREACTOR_READ); try done; cbn in H;
    destruct (has ev BREACTOR_HUP) eqn:Ehup; try done; cbn in H, Hsome;
    try (apply Hrecv in H as [? ?]; bool_hyps; split; [done|]; right; by left);
    try (apply Hsend in H as [? ?]; [|done..]; bool_hyps; split; [done|]; by left);
    simplify_eq; bool_hyps; unfold same_fd; split; try done; right; right; split_and!; first [done|congruence].
Qed.

(** When only one side is busy, the event is that side's. *)
Lemma fd_step c ev slim rlim w r c' e :
  connection_fd_handler c ev slim rlim w r = Ret (c', e) → fd_events_ok c ev →
  is_hupd c' = is_hupd c || has ev BREACTOR_HUP ∧
  (send_state c = 2 → recv_state c ≠ 2 → send_step c c' e (send_busy c) w) ∧
  (send_state c ≠ 2 → recv_state c = 2 → recv_step c c' e (recv_busy c) r) ∧
  (send_state c ≠ 2 → recv_state c ≠ 2 →
     e = CNone ∧ same_fd c c' ∧ send_state c' = send_state c ∧ recv_state c' = recv_state c).
Proof. intros H Hev. destruct (fd_step_cases _ _ _ _ _ _ _ _ H Hev) as [Hh Hc]. tauto. Qed.

(** Calls that complete. *)
Lemma connection_send_done c j :
  send_state c = 2 → 0 < j ≤ snd (send_busy c) → ∃ c', connection_send c true (SysDone j) = Ret (c', CSent j).
Proof.
  intros Hs Hj. unfold connection_send. rewrite Hs, andb_false_r.
  replace ((0 <? j) && _) with true by (symmetry; solve_bool). by eexists.
Qed.
Lemma connection_recv_done c j :
  recv_state c = 2 → 0 < j ≤ snd (recv_busy c) → ∃ c', connection_recv c true (SysDone j) = Ret (c', CReceived j).
Proof.
  intros Hs Hj. unfold connection_recv. rewrite Hs, andb_false_r.
  replace (j =? 0) with false by (symmetry; solve_bool).
  replace ((0 <? j) && _) with true by (symmetry; solve_bool). by eexists.
Qed.
Lemma send_if_done c d n j :
  send_state c = 1 → 0 < j ≤ n → ∃ c', connection_send_if_handler_send c d n true (SysDone j) = Ret (c', CSent j).
Proof.
  intros Hs Hj. unfold connection_send_if_handler_send, SEND_STATE_READY. rewrite Hs, (proj2 (Z.ltb_lt 0 n)) by lia.
  by apply (connection_send_done (set_send 2 (d, n) (send_job c) c)).
Qed.
Lemma recv_if_done c d n j :
  recv_state c = 1 → 0 < j ≤ n → ∃ c', connection_recv_if_handler_recv c d n true (SysDone j) = Ret (c', CReceived j).
Proof.
  intros Hs Hj. unfold connection_recv_if_handler_recv, RECV_STATE_READY. rewrite Hs, (proj2 (Z.ltb_lt 0 n)) by lia.
  by apply (connection_recv_done (set_recv 2 (d, n) (recv_job c) c)).
Qed.
Lemma recv_job_done c j :
  recv_state c = 2 → 0 < j ≤ snd (recv_busy c) →
  ∃ c', connection_recv_job_handler c true (SysDone j) = Ret (c', CReceived j).
Proof.
  intros Hs Hj. unfold connection_recv_job_handler, RECV_STATE_BUSY. rewrite Hs.
  by apply (connection_recv_done (set_recv 2 (recv_busy c) false c)).
Qed.
Lemma fd_write_done c j r :
  registered c = true → is_hupd c = false → send_state c = 2 → 0 < j ≤ snd (send_busy c) →
  ∃ c', connection_fd_handler c BREACTOR_WRITE true true (SysDone j) r = Ret (c', CSent j).
Proof.
  intros Hr Hh Hs Hj. unfold connection_fd_handler, BReactor_SetFileDescriptorEvents.
  cbn [registered set_wait]. rewrite Hh, Hr. cbn [negb require]. rewrite !bind_Ret.
  change (has BREACTOR_WRITE BREACTOR_HUP) with false. change (has BREACTOR_WRITE BREACTOR_READ) with false.
  change (has BREACTOR_WRITE (Z.lor BREACTOR_ERROR BREACTOR_HUP)) with false. change (has BREACTOR_WRITE BREACTOR_WRITE) with true.
  cbn [andb orb negb send_state set_wait]. rewrite Hs. cbn [require Z.eqb Pos.eqb SEND_STATE_BUSY RECV_STATE_BUSY].
  rewrite !bind_Ret.
  by apply connection_send_done.
Qed.
Lemma fd_read_done c j w :
  registered c = true → is_hupd c = false → recv_state c = 2 → 0 < j ≤ snd (recv_busy c) →
  ∃ c', connection_fd_handler c BREACTOR_READ true true w (SysDone j) = Ret (c', CReceived j).
Proof.
  intros Hr Hh Hs Hj. unfold connection_fd_handler, BReactor_SetFileDescriptorEvents.
  cbn [registered set_wait]. rewrite Hh, Hr. cbn [negb require]. rewrite !bind_Ret.
  change (has BREACTOR_READ BREACTOR_HUP) with false. change (has BREACTOR_READ BREACTOR_WRITE) with false.
  change (has BREACTOR_READ (Z.lor BREACTOR_ERROR BREACTOR_HUP)) with false. change (has BREACTOR_READ BREACTOR_READ) with true.
  cbn [andb orb negb recv_state set_wait]. rewrite Hs. cbn [require Z.eqb Pos.eqb SEND_STATE_BUSY RECV_STATE_BUSY].
  rewrite !bind_Ret.
  by apply connection_recv_done.
Qed.

Lemma con_teardown_ok c : con_shape c → con_teardown c = Ret (if close_fd c then [fd c] else []).
Proof.
  intros Hsh. pose proof Hsh as (_ & H2 & _). unfold con_teardown.
  assert (Hs : ∃ c', (if send_state c =? SEND_STATE_NOT_INITED then Ret c else BConnection_SendAsync_Free c) = Ret c' ∧
    con_shape c' ∧ fd c' = fd c ∧ close_fd c' = close_fd c ∧ send_state c' = 0).
  { destruct H2 as [H2|H2]; [exists c; by rewrite H2|].
    destruct (con_send_free_ok c Hsh H2) as (c' & -> & (? & ? & ? & _) & ? & _).
    exists c'. destruct H2 as [-> | ->]; done. }
  destruct Hs as (c1 & -> & Hsh1 & <- & <- & Hs1). rewrite bind_Ret. pose proof Hsh1 as (H1 & _ & H3 & _).
  assert (Hr : ∃ c', (if recv_state c1 =? RECV_STATE_NOT_INITED then Ret c1 else BConnection_RecvAsync_Free c1) = Ret c' ∧
    con_shape c' ∧ fd c' = fd c1 ∧ close_fd c' = close_fd c1 ∧ send_state c' = 0 ∧ recv_state c' = 0).
  { destruct H3 as [H3|H3]; [exists c1; by rewrite H3|].
    destruct (con_recv_free_ok c1 Hsh1 H3) as (c' & -> & (? & ? & ? & _) & ? & Hs').
    exists c'. rewrite Hs'. destruct H3 as [-> |[-> | ->]]; done. }
  destruct Hr as (c2 & -> & (H1' & _) & <- & <- & Hs2 & Hr2). rewrite bind_Ret.
  unfold BConnection_Free. rewrite Hs2, Hr2, H1'. by destruct (is_hupd c2).
Qed.

Lemma con_reach_inv c0 c failed :
  con_inv c0 → con_reach c0 c failed →
  con_shape c ∧ fd c = fd c0 ∧ close_fd c = close_fd c0 ∧ (failed = false → con_waits c).
Proof.
  intros Hinv. induction 1 as [|c op c' ev _ IH Ha Happ]; [by destruct Hinv|].
  destruct IH as (Hsh & Hf & Hcl & Hw). specialize (Hw eq_refl).
  destruct (con_apply_ok c op (conj Hsh Hw) Ha) as (c1 & ev1 & Heq & R1 & R2 & R3 & R4).
  rewrite Heq in Happ. injection Happ as <- <-. split_and!; [done|congruence..|].
  intros E. apply R4. by destruct ev1.
Qed.

Lemma con_waits_not_stranded c : con_shape c → con_waits c → not_stranded c.
Proof.
  intros (H1 & _) (Hb & Hs & Hr). unfold send_waits, recv_waits in *. unfold not_stranded. rewrite H1.
  destruct (is_hupd c); split; intros Hst; rewrite Hst in *; try done.
  - by left.
  - destruct Hr as [Hr _]. destruct (recv_job c); [by left|by right].
Qed.

Lemma init_con_inv src src' cl c0 : BConnection_Init src true = Ret (Some c0, src', cl) → con_inv c0.
Proof.
  intros Hi. unfold BConnection_Init in Hi. inv_binds.
  repeat case_match; simplify_eq/=; (split; [|done]); split_and!; cbn; auto; discriminate.
Qed.


(** A connection whose receive waits, then a hang-up with data, then the end. *)
Definition demo_connector : BConnector := Connector 7 true false false.
Definition demo_con : BConnection := Con 7 true false true 0 0 (0, 0) false 0 (0, 0) false.
Definition demo_con1 : BConnection := Con 7 true false true 0 0 (0, 0) false 1 (0, 0) false.
Definition demo_con2 : BConnection := Con 7 true false true 1 0 (0, 0) false 2 (0, 4) false.
Definition demo_con3 : BConnection := Con 7 true true false 0 0 (0, 0) false 1 (0, 4) false.


(** The contract is needed: an error event without a hang-up whose write succeeds
    leaves the descriptor watched for writing, and the next writable event finds
    no send in progress. *)
Example error_event_leaves_watch :
  (let c := Con 7 true false true 2 2 (0, 4) false 0 (0, 0) false in
   '(c, ev) ← connection_fd_handler c BREACTOR_ERROR true true (SysDone 4) SysAgain;
   Ret (wait_events c, send_state c, ev)) = Ret (BREACTOR_WRITE, SEND_STATE_READY, CSent 4) ∧
  (let c := Con 7 true false true 2 2 (0, 4) false 0 (0, 0) false in
   '(c, ev) ← connection_fd_handler c BREACTOR_ERROR true true (SysDone 4) SysAgain;
   connection_fd_handler c BREACTOR_WRITE true true SysAgain SysAgain) = Fault.
Proof. split; reflexivity. Qed.
