(* ===== verification/BSocksClient.v ===== *)
(** * badvpn: the SOCKS5 client of tun2socks

    Models socksclient/BSocksClient.c: the client connects (BConnector), then
    runs the SOCKS5 handshake over a BConnection, sending through a
    PacketStreamSender and receiving into a buffer that is reallocated for
    each message.  The client owns the connector, the connection, its send and
    receive sides, the sender and the buffer; freeing any of them twice, using
    one that is not there, reading or writing outside the buffer and failing an
    [ASSERT] are all [Fault].  [mem]: what realloc returns, [None] when it
    fails, else the bytes the new memory happens to hold.  Once the client is up
    its user sends and receives over the interfaces of the connection; these
    calls are events like those of the reactor. *)
From S2P Require Import Prelude BadvpnMisc Proto PacketProto BConnection.

Definition STATE_CONNECTING : Z := 1.
Definition STATE_SENDING_HELLO : Z := 2.
Definition STATE_SENT_HELLO : Z := 3.
Definition STATE_SENDING_PASSWORD : Z := 10.
Definition STATE_SENT_PASSWORD : Z := 11.
Definition STATE_SENDING_REQUEST : Z := 4.
Definition STATE_SENT_REQUEST : Z := 5.
Definition STATE_RECEIVED_REPLY_HEADER : Z := 6.
Definition STATE_UP : Z := 7.

Definition BSOCKSCLIENT_EVENT_ERROR : Z := 1.
Definition BSOCKSCLIENT_EVENT_UP : Z := 2.
Definition BSOCKSCLIENT_EVENT_ERROR_CLOSED : Z := 3.
Definition BCONNECTION_EVENT_ERROR : Z := 1.
Definition BCONNECTION_EVENT_RECVCLOSED : Z := 2.

(** ** Data *)

Inductive BSocksClient_auth_info :=
| AuthNone
| AuthPassword (username password : list Z).

Definition auth_type (a : BSocksClient_auth_info) : Z :=
  match a with
  | AuthNone => SOCKS_METHOD_NO_AUTHENTICATION_REQUIRED
  | AuthPassword _ _ => SOCKS_METHOD_USERNAME_PASSWORD
  end.

Definition BSocksClient_auth_none : BSocksClient_auth_info := AuthNone.
Definition BSocksClient_auth_password (u p : list Z) : BSocksClient_auth_info := AuthPassword u p.

(** [recv_dest] is an offset into the buffer.  [send_op], [recv_op]: an operation
    handed to the stream interfaces of the connection whose job has not run.
    [closed_fds] logs the descriptors closed. *)
Record BSocksClient := BSC {
  auth_info : list BSocksClient_auth_info; dest_addr : BAddr; bs_state : Z; buffer : option (list Z);
  connector : BConnector; con : option BConnection; send_sender : option PacketStreamSender;
  recv_dest : Z; recv_len : Z; recv_total : Z;
  send_op : option (Z * Z); recv_op : option (Z * Z); closed_fds : list Z }.

Definition set_bs_state (st : Z) (o : BSocksClient) : BSocksClient :=
  BSC (auth_info o) (dest_addr o) st (buffer o) (connector o) (con o) (send_sender o)
    (recv_dest o) (recv_len o) (recv_total o) (send_op o) (recv_op o) (closed_fds o).
Definition set_buffer (b : option (list Z)) (o : BSocksClient) : BSocksClient :=
  BSC (auth_info o) (dest_addr o) (bs_state o) b (connector o) (con o) (send_sender o)
    (recv_dest o) (recv_len o) (recv_total o) (send_op o) (recv_op o) (closed_fds o).
Definition set_con (c : option BConnection) (o : BSocksClient) : BSocksClient :=
  BSC (auth_info o) (dest_addr o) (bs_state o) (buffer o) (connector o) c (send_sender o)
    (recv_dest o) (recv_len o) (recv_total o) (send_op o) (recv_op o) (closed_fds o).
Definition set_connector (c : BConnector) (o : BSocksClient) : BSocksClient :=
  BSC (auth_info o) (dest_addr o) (bs_state o) (buffer o) c (con o) (send_sender o)
    (recv_dest o) (recv_len o) (recv_total o) (send_op o) (recv_op o) (closed_fds o).
Definition set_sender (s : option PacketStreamSender) (q : option (Z * Z)) (o : BSocksClient) : BSocksClient :=
  BSC (auth_info o) (dest_addr o) (bs_state o) (buffer o) (connector o) (con o) s
    (recv_dest o) (recv_len o) (recv_total o) q (recv_op o) (closed_fds o).
Definition set_recv_range (d l t : Z) (o : BSocksClient) : BSocksClient :=
  BSC (auth_info o) (dest_addr o) (bs_state o) (buffer o) (connector o) (con o) (send_sender o)
    d l t (send_op o) (recv_op o) (closed_fds o).
Definition set_recv_op (q : option (Z * Z)) (o : BSocksClient) : BSocksClient :=
  BSC (auth_info o) (dest_addr o) (bs_state o) (buffer o) (connector o) (con o) (send_sender o)
    (recv_dest o) (recv_len o) (recv_total o) (send_op o) q (closed_fds o).
Definition add_closed_fds (l : list Z) (o : BSocksClient) : BSocksClient :=
  BSC (auth_info o) (dest_addr o) (bs_state o) (buffer o) (connector o) (con o) (send_sender o)
    (recv_dest o) (recv_len o) (recv_total o) (send_op o) (recv_op o) (closed_fds o ++ l).

(** A handler returns the client and what it reported to the user's handler. *)
Definition handled : Type := outcome (BSocksClient * option Z).
Definition report_error (o : BSocksClient) (error : Z) : handled := Ret (o, Some error).

Definition get {A} (x : option A) : outcome A := match x with Some a => Ret a | None => Fault end.

(** ** Control and user I/O *)
Definition init_control_io (o : BSocksClient) : outcome BSocksClient :=
  c ← get (con o); c ← BConnection_RecvAsync_Init c; c ← BConnection_SendAsync_Init c;
  _ ← require (match send_sender o with None => true | _ => false end);
  Ret (set_recv_op None (set_sender (Some (mkpss [] (-1) 0)) None (set_con (Some c) o))).

Definition free_control_io (o : BSocksClient) : outcome BSocksClient :=
  _ ← get (send_sender o); c ← get (con o);
  c ← BConnection_SendAsync_Free c; c ← BConnection_RecvAsync_Free c;
  Ret (set_recv_op None (set_sender None None (set_con (Some c) o))).

Definition init_up_io (o : BSocksClient) : outcome BSocksClient :=
  c ← get (con o); c ← BConnection_RecvAsync_Init c; c ← BConnection_SendAsync_Init c;
  Ret (set_con (Some c) o).

Definition free_up_io (o : BSocksClient) : outcome BSocksClient :=
  c ← get (con o); c ← BConnection_SendAsync_Free c; c ← BConnection_RecvAsync_Free c;
  Ret (set_con (Some c) o).

Definition BRealloc (m : option (list Z)) (bytes : Z) (mem : option (list Z)) : option (list Z) :=
  let n := Z.to_nat (if bytes =? 0 then 1 else bytes) in
  match mem with
  | None => None
  | Some g => Some (take n (default [] m) ++ drop (length (default [] m)) (resize n 0 g))
  end.

Definition reserve_buffer (o : BSocksClient) (size : bsize_t) (mem : option (list Z)) : option BSocksClient :=
  match size with
  | None => None
  | Some n => match BRealloc (buffer o) n mem with
              | None => None
              | Some b => Some (set_buffer (Some b) o)
              end
  end.

Definition do_receive (o : BSocksClient) : outcome BSocksClient :=
  _ ← require (recv_len o <? recv_total o);
  Ret (set_recv_op (Some (recv_dest o + recv_len o, recv_total o - recv_len o)) o).

Definition start_receive (o : BSocksClient) (dest total : Z) : outcome BSocksClient :=
  _ ← require (0 <? total); do_receive (set_recv_range dest 0 total o).

(** [PacketPassInterface_Sender_Send] of the first [len] bytes of the buffer. *)
Definition send_buffer (o : BSocksClient) (len : Z) : outcome BSocksClient :=
  b ← get (buffer o); p ← mread b 0 len; s ← get (send_sender o);
  _ ← require (in_len s =? -1);
  match pss_input_handler_send s p with
  | (s, SSend off n) => Ret (set_sender (Some s) (Some (off, n)) o)
  | (s, SDone) => Fault
  end.

(** ** Handlers *)
Definition auth_finished (o : BSocksClient) (mem : option (list Z)) : handled :=
  let size := bsize_fromsize sizeof_request_header in
  let size := match dest_addr o with
              | BAddrIPv4 _ _ => bsize_add size (bsize_fromsize sizeof_socks_addr_ipv4)
              | BAddrIPv6 _ _ => bsize_add size (bsize_fromsize sizeof_socks_addr_ipv6)
              | BAddrNone => size
              end in
  match reserve_buffer o size mem with
  | None => report_error o BSOCKSCLIENT_EVENT_ERROR
  | Some o =>
      b ← get (buffer o);
      '(atyp, addr) ← (match dest_addr o with
                       | BAddrIPv4 ip port => Ret (SOCKS_ATYP_IPV4, ip ++ port)
                       | BAddrIPv6 ip port => Ret (SOCKS_ATYP_IPV6, ip ++ port)
                       | BAddrNone => Fault
                       end);
      b ← mwrite b sizeof_request_header addr;
      b ← mwrite b 0 [SOCKS_VERSION; SOCKS_CMD_CONNECT; 0; atyp];
      len ← get size;
      o ← send_buffer (set_buffer (Some b) o) len;
      Ret (set_bs_state STATE_SENDING_REQUEST o, None)
  end.

(** [for (i = 0; i < num_auth_info; i++)]: one byte per method. *)
Fixpoint write_methods (b : list Z) (off : Z) (l : list BSocksClient_auth_info) : outcome (list Z) :=
  match l with
  | [] => Ret b
  | a :: l' => b ← mwrite b off [u8 (auth_type a)]; write_methods b (off + sizeof_client_hello_method) l'
  end.

Definition connector_fail1 (o : BSocksClient) : handled :=
  o ← free_control_io o; c ← get (con o); cl ← BConnection_Free c;
  report_error (add_closed_fds cl (set_con None o)) BSOCKSCLIENT_EVENT_ERROR.

Definition connector_handler (o : BSocksClient) (is_error add_ok : bool) (mem : option (list Z)) : handled :=
  _ ← require (bs_state o =? STATE_CONNECTING);
  if is_error then report_error o BSOCKSCLIENT_EVENT_ERROR
  else
    '(c, src, cl) ← BConnection_Init (FromConnector (connector o)) add_ok;
    let cn := match src with FromConnector cn => cn | _ => connector o end in
    let o := add_closed_fds cl (set_connector cn o) in
    match c with
    | None => report_error o BSOCKSCLIENT_EVENT_ERROR
    | Some c =>
        o ← init_control_io (set_con (Some c) o);
        let num_auth_info := zlen (auth_info o) in
        if (num_auth_info =? 0) || (num_auth_info >? 255) then connector_fail1 o
        else
          let size := bsize_add (bsize_fromsize sizeof_client_hello_header)
                        (bsize_mul (bsize_fromsize num_auth_info) (bsize_fromsize sizeof_client_hello_method)) in
          match reserve_buffer o size mem with
          | None => connector_fail1 o
          | Some o =>
              b ← get (buffer o);
              b ← mwrite b 0 [SOCKS_VERSION; u8 num_auth_info];
              b ← write_methods b sizeof_client_hello_header (auth_info o);
              len ← get size;
              o ← send_buffer (set_buffer (Some b) o) len;
              Ret (set_bs_state STATE_SENDING_HELLO o, None)
          end
    end.

Definition connection_handler (o : BSocksClient) (event : Z) : handled :=
  _ ← require (negb (bs_state o =? STATE_CONNECTING));
  if (bs_state o =? STATE_UP) && (event =? BCONNECTION_EVENT_RECVCLOSED)
  then report_error o BSOCKSCLIENT_EVENT_ERROR_CLOSED
  else report_error o BSOCKSCLIENT_EVENT_ERROR.

(** The password packet of [recv_handler_done]. *)
Definition send_password (o : BSocksClient) (username password : list Z) (mem : option (list Z)) : handled :=
  if (zlen username =? 0) || (zlen username >? 255) || (zlen password =? 0) || (zlen password >? 255)
  then report_error o BSOCKSCLIENT_EVENT_ERROR
  else
    let size := bsize_fromsize (1 + 1 + zlen username + 1 + zlen password) in
    match reserve_buffer o size mem with
    | None => report_error o BSOCKSCLIENT_EVENT_ERROR
    | Some o =>
        b ← get (buffer o);
        b ← mwrite b 0 [1];
        b ← mwrite b 1 [u8 (zlen username)];
        b ← mwrite b 2 username;
        b ← mwrite b (2 + zlen username) [u8 (zlen password)];
        b ← mwrite b (3 + zlen username) password;
        len ← get size;
        o ← send_buffer (set_buffer (Some b) o) len;
        Ret (set_bs_state STATE_SENDING_PASSWORD o, None)
    end.

Definition received_hello (o : BSocksClient) (mem : option (list Z)) : handled :=
  b ← get (buffer o); ver ← mget b 0; method ← mget b 1;
  if negb (ver =? SOCKS_VERSION) then report_error o BSOCKSCLIENT_EVENT_ERROR
  else match find (λ a, auth_type a =? method) (auth_info o) with
       | None => report_error o BSOCKSCLIENT_EVENT_ERROR
       | Some AuthNone => auth_finished o mem
       | Some (AuthPassword u p) => send_password o u p mem
       end.

Definition received_reply_header (o : BSocksClient) : handled :=
  b ← get (buffer o); ver ← mget b 0; rep ← mget b 1; atyp ← mget b 3;
  if negb (ver =? SOCKS_VERSION) then report_error o BSOCKSCLIENT_EVENT_ERROR
  else if negb (rep =? SOCKS_REP_SUCCEEDED) then report_error o BSOCKSCLIENT_EVENT_ERROR
  else
    let rest := λ addr_len, o ← start_receive o sizeof_reply_header addr_len;
                            Ret (set_bs_state STATE_RECEIVED_REPLY_HEADER o, None) in
    if atyp =? SOCKS_ATYP_IPV4 then rest sizeof_socks_addr_ipv4
    else if atyp =? SOCKS_ATYP_IPV6 then rest sizeof_socks_addr_ipv6
    else report_error o BSOCKSCLIENT_EVENT_ERROR.

Definition received_password_reply (o : BSocksClient) (mem : option (list Z)) : handled :=
  b ← get (buffer o); b0 ← mget b 0;
  if negb (b0 =? 1) then report_error o BSOCKSCLIENT_EVENT_ERROR
  else b1 ← mget b 1;
       if negb (b1 =? 0) then report_error o BSOCKSCLIENT_EVENT_ERROR
       else auth_finished o mem.

Definition received_reply_rest (o : BSocksClient) : handled :=
  o ← free_control_io (set_buffer None o); o ← init_up_io o;
  Ret (set_bs_state STATE_UP o, Some BSOCKSCLIENT_EVENT_UP).

Definition recv_handler_done (o : BSocksClient) (data_len : Z) (mem : option (list Z)) : handled :=
  _ ← require ((0 <=? data_len) && (data_len <=? recv_total o - recv_len o));
  let o := set_recv_range (recv_dest o) (recv_len o + data_len) (recv_total o) o in
  if recv_len o <? recv_total o then o ← do_receive o; Ret (o, None)
  else if bs_state o =? STATE_SENT_HELLO then received_hello o mem
  else if bs_state o =? STATE_SENT_REQUEST then received_reply_header o
  else if bs_state o =? STATE_SENT_PASSWORD then received_password_reply o mem
  else if bs_state o =? STATE_RECEIVED_REPLY_HEADER then received_reply_rest o
  else Fault.

(** Reserve a buffer of [size] bytes, receive [total] bytes into it. *)
Definition receive_into (o : BSocksClient) (size : bsize_t) (total st : Z) (mem : option (list Z)) : handled :=
  match reserve_buffer o size mem with
  | None => report_error o BSOCKSCLIENT_EVENT_ERROR
  | Some o => o ← start_receive o 0 total; Ret (set_bs_state st o, None)
  end.

Definition send_handler_done (o : BSocksClient) (mem : option (list Z)) : handled :=
  _ ← get (buffer o);
  if bs_state o =? STATE_SENDING_HELLO then
    receive_into o (bsize_fromsize sizeof_server_hello) sizeof_server_hello STATE_SENT_HELLO mem
  else if bs_state o =? STATE_SENDING_REQUEST then
    receive_into o (bsize_add (bsize_fromsize sizeof_reply_header)
                      (bsize_max (bsize_fromsize sizeof_socks_addr_ipv4) (bsize_fromsize sizeof_socks_addr_ipv6)))
      sizeof_reply_header STATE_SENT_REQUEST mem
  else if bs_state o =? STATE_SENDING_PASSWORD then
    receive_into o (bsize_fromsize 2) 2 STATE_SENT_PASSWORD mem
  else Fault.

Definition BSocksClient_Init (auths : list BSocksClient_auth_info) (dest : BAddr) (e : connect_env) :
    outcome (option BSocksClient * list Z) :=
  _ ← require (match dest with BAddrNone => false | _ => true end);
  match BConnector_InitFrom e with
  | (Some cn, cl) => Ret (Some (BSC auths dest STATE_CONNECTING None cn None None 0 0 0 None None cl), cl)
  | (None, cl) => Ret (None, cl)
  end.

(** The descriptors closed over the life of the client. *)
Definition BSocksClient_Free (o : BSocksClient) : outcome (list Z) :=
  o ← (if negb (bs_state o =? STATE_CONNECTING) then
         o ← (if bs_state o =? STATE_UP then free_up_io o else free_control_io o);
         c ← get (con o); cl ← BConnection_Free c; Ret (add_closed_fds cl (set_con None o))
       else Ret o);
  Ret (closed_fds o ++ BConnector_Free (connector o)).

(** The interfaces of the connection, for the user of a client that is up. *)
Definition BSocksClient_GetSendInterface (o : BSocksClient) : outcome BConnection :=
  _ ← require (bs_state o =? STATE_UP); get (con o).
Definition BSocksClient_GetRecvInterface (o : BSocksClient) : outcome BConnection :=
  _ ← require (bs_state o =? STATE_UP); get (con o).

(** ** The client among the events of the reactor and the calls of its user *)

(** [u_data]: what the user last handed to the send interface; [u_taken]: the
    bytes of it that the interface reported as sent; [u_got]: the bytes that the
    receive interface gave to the user. *)
Record user_io := User { u_data : list Z; u_taken : list Z; u_got : list Z }.
Definition no_user : user_io := User [] [] [].

(** [net]: what the proxy will send and the client has not read; [sent]: what was
    sent over the connection; [report]: the last report to the user's handler. *)
Record world := World { cl : BSocksClient; net : list Z; sent : list Z; report : option Z; user : user_io }.
Definition start_world (o : BSocksClient) (nt : list Z) : world := World o nt [] None no_user.

(** [StreamPassInterface_Sender_Send] and [StreamRecvInterface_Receiver_Recv] of
    the user, with their assertions: an interface has one operation at a time. *)
Definition user_send (w : world) (data : list Z) : outcome world :=
  let o := cl w in
  c ← BSocksClient_GetSendInterface o;
  _ ← require ((0 <? zlen data) && (send_state c =? SEND_STATE_READY));
  _ ← require (match send_op o with None => true | _ => false end);
  Ret (World (set_sender (send_sender o) (Some (0, zlen data)) o) (net w) (sent w) (report w)
         (User data (u_taken (user w)) (u_got (user w)))).
Definition user_recv (w : world) (len : Z) : outcome world :=
  let o := cl w in
  c ← BSocksClient_GetRecvInterface o;
  _ ← require ((0 <? len) && (recv_state c =? RECV_STATE_READY));
  _ ← require (match recv_op o with None => true | _ => false end);
  Ret (World (set_recv_op (Some (0, len)) o) (net w) (sent w) (report w) (user w)).

Inductive bs_event :=
| EvConnFd (so_error : option Z) (add_ok : bool)       (* the connector's descriptor *)
| EvConnJob (add_ok : bool)                            (* the connector's job *)
| EvSendJob (lim : bool) (w : sys_result)              (* the send operation's job *)
| EvRecvJob (lim : bool) (r : sys_result)              (* the receive operation's job *)
| EvConRecvJob (lim : bool) (r : sys_result)           (* the connection's receive job *)
| EvFd (ev : Z) (slim rlim : bool) (w r : sys_result)  (* the connection's descriptor *)
| EvUserSend (data : list Z)                           (* the user sends *)
| EvUserRecv (len : Z).                                (* the user receives *)

Definition done_with (w : world) (x : handled) : outcome world :=
  '(o, rep) ← x; Ret (World o (net w) (sent w) (match rep with Some e => Some e | None => report w end) (user w)).

(** What the connection reports is handled by the client and its sender; once the
    client is up, the operations are its user's. *)
Definition con_done (w : world) (c : BConnection) (ev : con_event) (mem : option (list Z)) : outcome world :=
  let o := set_con (Some c) (cl w) in
  match ev with
  | CNone => Ret (World o (net w) (sent w) (report w) (user w))
  | CError => done_with w (connection_handler o BCONNECTION_EVENT_ERROR)
  | CRecvClosed => done_with w (connection_handler o BCONNECTION_EVENT_RECVCLOSED)
  | CSent n =>
      if bs_state o =? STATE_UP then
        bs ← mread (u_data (user w)) (fst (send_busy c)) n;
        Ret (World o (net w) (sent w ++ bs) (report w)
               (User (u_data (user w)) (u_taken (user w) ++ take (Z.to_nat n) (u_data (user w))) (u_got (user w))))
      else
        b ← get (buffer o); bs ← mread b (fst (send_busy c)) n;
        s ← get (send_sender o);
        let w := World o (net w) (sent w ++ bs) (report w) (user w) in
        match pss_output_handler_done s n with
        | (s, SSend off k) =>
            Ret (World (set_sender (Some s) (Some (off, k)) o) (net w) (sent w) (report w) (user w))
        | (s, SDone) => done_with w (send_handler_done (set_sender (Some s) None o) mem)
        end
  | CReceived n =>
      let bs := take (Z.to_nat n) (net w) in
      if bs_state o =? STATE_UP then
        Ret (World o (drop (Z.to_nat n) (net w)) (sent w) (report w)
               (User (u_data (user w)) (u_taken (user w)) (u_got (user w) ++ bs)))
      else
        b ← get (buffer o); b ← mwrite b (fst (recv_busy c)) bs;
        done_with (World o (drop (Z.to_nat n) (net w)) (sent w) (report w) (user w))
          (recv_handler_done (set_buffer (Some b) o) n mem)
  end.

Definition bs_fire (ev : bs_event) (mem : option (list Z)) (w : world) : outcome world :=
  let o := cl w in
  match ev with
  | EvConnFd so ok =>
      '(cn, is_error) ← connector_fd_handler (connector o) so;
      done_with w (connector_handler (set_connector cn o) is_error ok mem)
  | EvConnJob ok =>
      '(cn, is_error) ← connector_job_handler (connector o);
      done_with w (connector_handler (set_connector cn o) is_error ok mem)
  | EvSendJob lim wr =>
      c ← get (con o); '(off, n) ← get (send_op o);
      '(c, e) ← connection_send_if_handler_send c off n lim wr;
      con_done (World (set_sender (send_sender o) None o) (net w) (sent w) (report w) (user w)) c e mem
  | EvRecvJob lim r =>
      c ← get (con o); '(off, n) ← get (recv_op o);
      '(c, e) ← connection_recv_if_handler_recv c off n lim r;
      con_done (World (set_recv_op None o) (net w) (sent w) (report w) (user w)) c e mem
  | EvConRecvJob lim r =>
      c ← get (con o); '(c, e) ← connection_recv_job_handler c lim r; con_done w c e mem
  | EvFd ev slim rlim wr r =>
      c ← get (con o); '(c, e) ← connection_fd_handler c ev slim rlim wr r; con_done w c e mem
  | EvUserSend data => user_send w data
  | EvUserRecv len => user_recv w len
  end.

(** A read delivers bytes that the proxy sent. *)
Definition data_ok (r : sys_result) (net : list Z) : Prop :=
  match r with SysDone k => k ≤ zlen net | _ => True end.

(** The contract of the reactor, of the system and of the user: the reactor looks
    at descriptors when no job is pending; the user sends and receives once the
    client is up, one operation at a time on each interface. *)
Definition bs_allowed (ev : bs_event) (w : world) : Prop :=
  let o := cl w in
  match ev with
  | EvConnFd _ _ => bs_state o = STATE_CONNECTING ∧ have_bfd (connector o) = true
  | EvConnJob _ => bs_state o = STATE_CONNECTING ∧ cn_job (connector o) = true
  | EvSendJob _ wr => ∃ off n, send_op o = Some (off, n) ∧ write_ok n wr
  | EvRecvJob _ r => ∃ off n, recv_op o = Some (off, n) ∧ read_ok n r ∧ data_ok r (net w)
  | EvConRecvJob _ r =>
      ∃ c, con o = Some c ∧ recv_job c = true ∧ read_ok (snd (recv_busy c)) r ∧ data_ok r (net w)
  | EvFd ev _ _ wr r =>
      ∃ c, con o = Some c ∧ send_op o = None ∧ recv_op o = None ∧ fd_events_ok c ev ∧
           write_ok (snd (send_busy c)) wr ∧ read_ok (snd (recv_busy c)) r ∧ data_ok r (net w)
  | EvUserSend data =>
      bs_state o = STATE_UP ∧ 0 < zlen data ∧ send_op o = None ∧
      ∀ c, con o = Some c → send_state c = SEND_STATE_READY
  | EvUserRecv len =>
      bs_state o = STATE_UP ∧ 0 < len ∧ recv_op o = None ∧
      ∀ c, con o = Some c → recv_state c = RECV_STATE_READY
  end.

(** After an error the user must free the client. *)
Definition failed (w : world) : bool :=
  match report w with
  | Some e => (e =? BSOCKSCLIENT_EVENT_ERROR) || (e =? BSOCKSCLIENT_EVENT_ERROR_CLOSED)
  | None => false
  end.

(** The code of the error that a failed client reported: a connection closed by
    the proxy is told apart from the other errors once the client is up. *)
Definition error_code (o : BSocksClient) : Z :=
  match con o with
  | Some c => if (bs_state o =? STATE_UP) && (recv_state c =? RECV_STATE_INITED_CLOSED)
              then BSOCKSCLIENT_EVENT_ERROR_CLOSED else BSOCKSCLIENT_EVENT_ERROR
  | None => BSOCKSCLIENT_EVENT_ERROR
  end.

(** The handshake: no allocation fails, no call fails, the proxy does not close,
    and the user does not use the client yet; a call that would block after a
    hang-up is a failure. *)
Definition calm (hup : bool) (x : sys_result) : Prop := x ≠ SysError ∧ (hup = true → x ≠ SysAgain).
Definition clean_event (ev : bs_event) (mem : option (list Z)) (w : world) : Prop :=
  mem ≠ None ∧
  match ev with
  | EvConnFd so ok => so = Some 0 ∧ ok = true
  | EvConnJob ok => ok = true
  | EvSendJob _ wr => ∀ c, con (cl w) = Some c → calm (is_hupd c) wr
  | EvRecvJob _ r | EvConRecvJob _ r => r ≠ SysDone 0 ∧ ∀ c, con (cl w) = Some c → calm (is_hupd c) r
  | EvFd ev _ _ wr r =>
      r ≠ SysDone 0 ∧
      ∀ c, con (cl w) = Some c → calm (is_hupd c || has ev BREACTOR_HUP) wr ∧ calm (is_hupd c || has ev BREACTOR_HUP) r
  | EvUserSend _ | EvUserRecv _ => False
  end.

Inductive bs_clean_reach (w0 : world) : world → Prop :=
| BsCleanStart : bs_clean_reach w0 w0
| BsCleanStep w ev mem w' :
    bs_clean_reach w0 w → failed w = false → bs_allowed ev w → clean_event ev mem w →
    bs_fire ev mem w = Ret w' → bs_clean_reach w0 w'.

(** The reads and writes in progress complete, [k] bytes at most at a time. *)
Definition next_event (k : Z) (w : world) : option bs_event :=
  let o := cl w in
  if failed w then None
  else if bs_state o =? STATE_CONNECTING then
    Some (if have_bfd (connector o) then EvConnFd (Some 0) true else EvConnJob true)
  else match send_op o, recv_op o, con o with
       | Some (_, n), _, _ => Some (EvSendJob true (SysDone (Z.min k n)))
       | None, Some (_, n), _ =>
           if zlen (net w) =? 0 then None else Some (EvRecvJob true (SysDone (Z.min k (Z.min n (zlen (net w))))))
       | None, None, Some c =>
           if send_state c =? SEND_STATE_BUSY
           then Some (EvFd BREACTOR_WRITE true true (SysDone (Z.min k (snd (send_busy c)))) SysAgain)
           else if (recv_state c =? RECV_STATE_BUSY) && negb (zlen (net w) =? 0) then
             let r := SysDone (Z.min k (Z.min (snd (recv_busy c)) (zlen (net w)))) in
             Some (if recv_job c then EvConRecvJob true r else EvFd BREACTOR_READ true true SysAgain r)
           else None
       | None, None, None => None
       end.

Fixpoint bs_drive (ks : list Z) (w : world) : outcome world :=
  match ks with
  | [] => Ret w
  | k :: ks' => match next_event k w with
                | None => Ret w
                | Some ev => w ← bs_fire ev (Some []) w; bs_drive ks' w
                end
  end.

Inductive bs_reach (w0 : world) : world → Prop :=
| BsStart : bs_reach w0 w0
| BsStep w ev mem w' :
    bs_reach w0 w → failed w = false → bs_allowed ev w → bs_fire ev mem w = Ret w' → bs_reach w0 w'.

(** ** Specification: the handshake as a process *)
Section Spec.
Context (auths : list BSocksClient_auth_info) (dest : BAddr).

Definition bs_hello : list Z := 5 :: zlen auths :: map auth_type auths.
Definition bs_request : list Z :=
  match dest with
  | BAddrIPv4 ip port => [5; 1; 0; 1] ++ ip ++ port
  | BAddrIPv6 ip port => [5; 1; 0; 4] ++ ip ++ port
  | BAddrNone => []
  end.
Definition bs_login (u p : list Z) : list Z := 1 :: zlen u :: u ++ zlen p :: p.
Definition login_ok (u p : list Z) : bool :=
  negb ((zlen u =? 0) || (zlen u >? 255) || (zlen p =? 0) || (zlen p >? 255)).

Definition bs_address (n : nat) : proto := PRead n (λ _, PAccept).
Definition bs_reply_cont (d : list Z) : proto :=
  match d with
  | [ver; rep; _; atyp] =>
      if negb (ver =? 5) then PReject else if negb (rep =? 0) then PReject
      else if atyp =? 1 then bs_address 6 else if atyp =? 4 then bs_address 18 else PReject
  | _ => PReject
  end.
Definition bs_connect : proto := PSend bs_request (PRead 4 bs_reply_cont).
Definition bs_login_cont (d : list Z) : proto :=
  match d with
  | [ver; status] => if negb (ver =? 1) then PReject else if negb (status =? 0) then PReject else bs_connect
  | _ => PReject
  end.
Definition bs_hello_cont (d : list Z) : proto :=
  match d with
  | [ver; method] =>
      if negb (ver =? 5) then PReject
      else match find (λ a, auth_type a =? method) auths with
           | None => PReject
           | Some AuthNone => bs_connect
           | Some (AuthPassword u p) =>
               if login_ok u p then PSend (bs_login u p) (PRead 2 bs_login_cont) else PReject
           end
  | _ => PReject
  end.
Definition bs_proto : proto :=
  if (zlen auths =? 0) || (zlen auths >? 255) then PReject else PSend bs_hello (PRead 2 bs_hello_cont).

Definition dest_ok : Prop :=
  match dest with
  | BAddrNone => False
  | BAddrIPv4 ip port => length ip = 4%nat ∧ length port = 2%nat
  | BAddrIPv6 ip port => length ip = 16%nat ∧ length port = 2%nat
  end.

(** The process that follows the message being sent. *)
Definition after_send (st : Z) (p : proto) : Prop :=
  (st = STATE_SENDING_HELLO ∧ p = PRead 2 bs_hello_cont) ∨
  (st = STATE_SENDING_PASSWORD ∧ p = PRead 2 bs_login_cont) ∨
  (st = STATE_SENDING_REQUEST ∧ p = PRead 4 bs_reply_cont).

(** The process that waits for the bytes being received at offset [d]. *)
Definition reading (st : Z) (p : proto) (d : Z) : Prop :=
  (st = STATE_SENT_HELLO ∧ p = PRead 2 bs_hello_cont ∧ d = 0) ∨
  (st = STATE_SENT_PASSWORD ∧ p = PRead 2 bs_login_cont ∧ d = 0) ∨
  (st = STATE_SENT_REQUEST ∧ p = PRead 4 bs_reply_cont ∧ d = 0) ∨
  (st = STATE_RECEIVED_REPLY_HEADER ∧ d = 4 ∧ (p = bs_address 6 ∨ p = bs_address 18)).

(** ** Invariant *)

(** An operation on [x]: its job is pending, or the connection is busy with it. *)
Definition in_progress (op : option (Z * Z)) (st : Z) (busy x : Z * Z) : Prop :=
  (op = Some x ∧ st = 1) ∨ (op = None ∧ st = 2 ∧ busy = x).

Context (fd0 : Z).

(** The client has a connection and nothing was closed. *)
Definition linked (o : BSocksClient) (c : BConnection) : Prop :=
  auth_info o = auths ∧ dest_addr o = dest ∧ con o = Some c ∧ con_shape c ∧
  fd c = fd0 ∧ close_fd c = true ∧ cn_fd (connector o) = -1 ∧ closed_fds o = [].

Definition connecting (v : verdict) (w : world) : Prop :=
  let o := cl w in
  auth_info o = auths ∧ dest_addr o = dest ∧ bs_state o = STATE_CONNECTING ∧ buffer o = None ∧ con o = None ∧
  send_sender o = None ∧ send_op o = None ∧ recv_op o = None ∧ closed_fds o = [] ∧
  cn_fd (connector o) = fd0 ∧ cn_job (connector o) = connected (connector o) ∧
  have_bfd (connector o) = negb (connected (connector o)) ∧
  sent w = [] ∧ proto_run bs_proto (net w) [] = v.

Definition sending (v : verdict) (w : world) (c : BConnection) : Prop :=
  let o := cl w in
  ∃ s m msgs p,
    linked o c ∧ con_waits c ∧ send_sender o = Some s ∧ buffer o = Some m ∧ in_len s = zlen m ∧ zlen m < 600 ∧
    0 ≤ in_used s < zlen m ∧
    in_progress (send_op o) (send_state c) (send_busy c) (in_used s, zlen m - in_used s) ∧
    recv_state c = 1 ∧ recv_op o = None ∧ after_send (bs_state o) p ∧
    sent w = msgs ++ take (Z.to_nat (in_used s)) m ∧ proto_run p (net w) (msgs ++ m) = v.

Definition receiving (v : verdict) (w : world) (c : BConnection) : Prop :=
  let o := cl w in
  ∃ s m n k,
    linked o c ∧ con_waits c ∧ send_sender o = Some s ∧ in_len s = -1 ∧ buffer o = Some m ∧
    recv_total o = Z.of_nat n ∧ 0 ≤ recv_len o < Z.of_nat n ∧ recv_dest o + recv_total o ≤ zlen m ∧
    in_progress (recv_op o) (recv_state c) (recv_busy c)
      (recv_dest o + recv_len o, recv_total o - recv_len o) ∧
    send_state c = 1 ∧ send_op o = None ∧ reading (bs_state o) (PRead n k) (recv_dest o) ∧
    (bs_state o = STATE_SENT_REQUEST → 22 ≤ zlen m) ∧
    proto_run (PRead n k) (take (Z.to_nat (recv_len o)) (drop (Z.to_nat (recv_dest o)) m) ++ net w) (sent w) = v.

Definition up (v : verdict) (w : world) (c : BConnection) : Prop :=
  let o := cl w in
  linked o c ∧ con_waits c ∧ bs_state o = STATE_UP ∧ send_sender o = None ∧ buffer o = None ∧
  send_state c = 1 ∧ recv_state c = 1 ∧ send_op o = None ∧ recv_op o = None ∧ v = Accepted (net w) (sent w).

(** Nothing was reported and the user did not start any operation. *)
Definition quiet (w : world) : Prop := report w = None ∧ user w = no_user.
Definition bs_live (v : verdict) (w : world) : Prop :=
  (quiet w ∧ ∃ c, sending v w c ∨ receiving v w c) ∨
  ((report w = Some BSOCKSCLIENT_EVENT_UP ∧ user w = no_user) ∧ ∃ c, up v w c).
Definition bs_inv (v : verdict) (w : world) : Prop := (quiet w ∧ connecting v w) ∨ bs_live v w.

(** One side of a client that is up: idle, or with an operation of the user. *)
Definition user_side (op : option (Z * Z)) (st : Z) (busy : Z * Z) (P : Z * Z → Prop) : Prop :=
  (op = None ∧ st = 1) ∨ ∃ x, P x ∧ in_progress op st busy x.

(** The client is up and its user may have operations in progress: the user got
    the bytes that follow the proxy's answer, and the bytes that the user sent
    follow the messages of the handshake. *)
Definition used (v : verdict) (w : world) (c : BConnection) : Prop :=
  let o := cl w in
  report w = Some BSOCKSCLIENT_EVENT_UP ∧ linked o c ∧ con_waits c ∧ bs_state o = STATE_UP ∧
  user_side (send_op o) (send_state c) (send_busy c) (λ x, x = (0, zlen (u_data (user w))) ∧ 0 < snd x) ∧
  user_side (recv_op o) (recv_state c) (recv_busy c) (λ x, 0 < snd x) ∧
  ∃ msgs, v = Accepted (u_got (user w) ++ net w) msgs ∧ sent w = msgs ++ u_taken (user w).

(** The client can be freed and closes its socket. *)
Definition freeable (o : BSocksClient) : Prop := BSocksClient_Free o = Ret [fd0].

(** What an event leads to: a live client, or an error reported to the user. *)
Definition bs_post (v : verdict) (clean : Prop) (w : world) : Prop :=
  bs_live v w ∨
  (report w = Some BSOCKSCLIENT_EVENT_ERROR ∧ bs_state (cl w) ≠ STATE_UP ∧ freeable (cl w) ∧ (clean → v = Rejected)).
(** What an event leads to once the client is up. *)
Definition used_post (v : verdict) (w : world) : Prop :=
  (∃ c, used v w c) ∨ (report w = Some (error_code (cl w)) ∧ freeable (cl w)).
End Spec.

(** ** Freeing *)
Lemma con_free_closed c :
  con_shape c → send_state c = 0 → recv_state c = 0 → close_fd c = true → BConnection_Free c = Ret [fd c].
Proof.
  intros (H1 & _) Hs Hr Hc. unfold BConnection_Free. rewrite Hs, Hr, H1, Hc. by destruct (is_hupd c).
Qed.

Lemma free_sides c :
  con_shape c → send_state c = 1 ∨ send_state c = 2 → recv_state c = 1 ∨ recv_state c = 2 ∨ recv_state c = 3 →
  ∃ c', (c ← BConnection_SendAsync_Free c; BConnection_RecvAsync_Free c) = Ret c' ∧
        con_freed c c' ∧ send_state c' = 0 ∧ recv_state c' = 0.
Proof.
  intros Hsh Hs Hr. destruct (con_send_free_ok c Hsh Hs) as (c1 & -> & (Hsh1 & F1 & C1 & W1) & S1 & R1).
  rewrite <- R1 in Hr. destruct (con_recv_free_ok c1 Hsh1 Hr) as (c2 & Hf & (Hsh2 & F2 & C2 & W2) & R2 & S2).
  exists c2. rewrite bind_Ret. split; [done|]. split_and!; [|congruence..].
  split_and!; [done|congruence..|auto].
Qed.

Lemma init_sides c :
  con_inv c → send_state c = 0 → recv_state c = 0 →
  ∃ c', (c ← BConnection_RecvAsync_Init c; BConnection_SendAsync_Init c) = Ret c' ∧
        con_inv c' ∧ same_fd c c' ∧ send_state c' = 1 ∧ recv_state c' = 1.
Proof.
  intros Hinv Hs Hr. destruct (proj2 (con_init_ok c Hinv) Hr) as (c1 & E1 & R1 & R2 & R3 & R4).
  assert (Hs1 : send_state c1 = 0 ∧ recv_state c1 = 1).
  { unfold BConnection_RecvAsync_Init in E1. inv_binds. by subst c1. }
  destruct (proj1 (con_init_ok c1 (conj R1 (R4 ltac:(done)))) (proj1 Hs1)) as (c2 & E2 & Q1 & Q2 & Q3 & Q4).
  exists c2. rewrite E1, bind_Ret, E2. split; [done|]. split; [split; [done|by apply Q4]|].
  split; [split; congruence|]. unfold BConnection_SendAsync_Init in E2. inv_binds. subst c2. by split; [|apply Hs1].
Qed.

(** The parts of the request [auth_finished] writes, and their size. *)
Lemma request_parts dest : dest_ok dest →
  ∃ atyp addr, bs_request dest = [5; 1; 0; atyp] ++ addr ∧
    match dest with
    | BAddrIPv4 ip port => Ret (SOCKS_ATYP_IPV4, ip ++ port)
    | BAddrIPv6 ip port => Ret (SOCKS_ATYP_IPV6, ip ++ port)
    | BAddrNone => Fault
    end = Ret (atyp, addr) ∧
    match dest with
    | BAddrIPv4 _ _ => bsize_add (bsize_fromsize sizeof_request_header) (bsize_fromsize sizeof_socks_addr_ipv4)
    | BAddrIPv6 _ _ => bsize_add (bsize_fromsize sizeof_request_header) (bsize_fromsize sizeof_socks_addr_ipv6)
    | BAddrNone => bsize_fromsize sizeof_request_header
    end = Some (4 + zlen addr) ∧ zlen addr < 100.
Proof.
  destruct dest as [|ip port|ip port]; [done|..]; intros [Hi Hp]; eexists _, _; (split; [done|]); (split; [done|]);
    rewrite length_app, Hi, Hp; done.
Qed.

(** Writing the two parts of a message fills a buffer of its size. *)
Lemma mwrite_back_front {A} b off x y (f : list Z → outcome A) :
  off = zlen x → zlen b = off + zlen y →
  (b1 ← mwrite b off y; b2 ← mwrite b1 0 x; f b2) = f (x ++ y).
Proof.
  intros -> Hl. rewrite <- (take_drop (length x) b).
  assert (length (take (length x) b) = length x) by (rewrite length_take; lia).
  assert (length (drop (length x) b) = length y) by (rewrite length_drop; lia).
  revert H H0. generalize (take (length x) b) (drop (length x) b). intros p q Hp Hq.
  rewrite <- (app_nil_r q), <- Hp, mwrite_app, bind_Ret by done.
  change ((b2 ← mwrite ([] ++ p ++ (y ++ [])) (zlen (@nil Z)) x; f b2) = f (x ++ y)).
  by rewrite mwrite_app, bind_Ret, !app_nil_r.
Qed.

Lemma write_methods_ok l a rest :
  zlen l ≤ zlen rest →
  write_methods (a ++ rest) (zlen a) l = Ret (a ++ map auth_type l ++ drop (length l) rest).
Proof.
  revert a rest. induction l as [|x l IH]; intros a rest Hl; [by rewrite drop_0|].
  cbn [write_methods length] in *. rewrite (mwrite_extend a) by (cbn [length]; lia). rewrite bind_Ret.
  unfold sizeof_client_hello_method. replace (zlen a + 1) with (zlen (a ++ [u8 (auth_type x)]))
    by (rewrite length_app; cbn [length]; lia).
  rewrite IH by (rewrite length_drop; cbn [length]; lia). rewrite drop_drop, <- app_assoc. by destruct x.
Qed.

Section Client.
Context (auths : list BSocksClient_auth_info) (dest : BAddr) (fd0 : Z).
Hypothesis Hdest : dest_ok dest.
Abbreviation linked := (linked auths dest fd0).
Abbreviation freeable := (freeable fd0).
Abbreviation sending := (sending auths dest fd0).
Abbreviation receiving := (receiving auths dest fd0).
Abbreviation up := (up auths dest fd0).
Abbreviation connecting := (connecting auths dest fd0).
Abbreviation bs_inv := (bs_inv auths dest fd0).
Abbreviation bs_post := (bs_post auths dest fd0).
Abbreviation used := (used auths dest fd0).
Abbreviation used_post := (used_post auths dest fd0).

Definition control_sides (c : BConnection) : Prop :=
  (send_state c = 1 ∨ send_state c = 2) ∧ (recv_state c = 1 ∨ recv_state c = 2 ∨ recv_state c = 3).

Lemma free_control_ok o c :
  linked o c → control_sides c → is_Some (send_sender o) →
  ∃ c', free_control_io o = Ret (set_recv_op None (set_sender None None (set_con (Some c') o))) ∧
        con_freed c c' ∧ send_state c' = 0 ∧ recv_state c' = 0.
Proof.
  intros (_ & _ & Hc & Hsh & _) [Hs Hr] [s Hse]. destruct (free_sides c Hsh Hs Hr) as (c' & Hf & Hrest).
  exists c'. split; [|done]. unfold free_control_io. rewrite Hse, Hc. cbn [get]. rewrite !bind_Ret.
  apply bind_Ret_inv in Hf as (c1 & -> & Hf). rewrite bind_Ret, Hf. done.
Qed.

Lemma freeable_control o c :
  linked o c → control_sides c → is_Some (send_sender o) →
  bs_state o ≠ STATE_CONNECTING → bs_state o ≠ STATE_UP → freeable o.
Proof.
  intros Hl Hs Hse H1 H2. destruct (free_control_ok o c Hl Hs Hse) as (c' & Hf & (Hsh & F1 & C1 & _) & S & R).
  destruct Hl as (_ & _ & _ & _ & Hfd & Hcl & Hcn & Hc). red. unfold BSocksClient_Free.
  apply Z.eqb_neq in H1, H2. rewrite H1, H2, Hf. cbn [negb]. rewrite !bind_Ret. cbn [con get set_recv_op set_sender set_con].
  rewrite bind_Ret, con_free_closed, bind_Ret by congruence. cbn.
  unfold BConnector_Free. rewrite Hcn, Hc, F1, Hfd. done.
Qed.

Lemma freeable_up o c :
  linked o c → control_sides c → bs_state o = STATE_UP → freeable o.
Proof.
  intros (_ & _ & Hco & Hsh & Hfd & Hcl & Hcn & Hc) [Hs Hr] H.
  destruct (free_sides c Hsh Hs Hr) as (c' & Hf & (Hsh' & F1 & C1 & _) & S & R).
  red. unfold BSocksClient_Free, free_up_io. rewrite H. cbn [negb Z.eqb STATE_UP STATE_CONNECTING Pos.eqb].
  rewrite Hco. cbn [get]. rewrite !bind_Ret. apply bind_Ret_inv in Hf as (c1 & -> & Hf). rewrite bind_Ret, Hf, !bind_Ret.
  cbn [con set_con get]. rewrite bind_Ret, con_free_closed, bind_Ret by congruence. cbn.
  unfold BConnector_Free. rewrite Hcn, Hc, F1, Hfd. done.
Qed.

Lemma freeable_connecting v w : connecting v w → 0 ≤ fd0 → freeable (cl w).
Proof.
  intros (_ & _ & Hst & _ & _ & _ & _ & _ & Hc & Hfd & _) Hpos.
  red. unfold BSocksClient_Free, BConnector_Free. rewrite Hst. cbn. rewrite Hc, Hfd.
  replace (fd0 =? -1) with false; [done|]. symmetry. apply Z.eqb_neq. lia.
Qed.

(** ** Buffers *)
Lemma reserve_ok o n mem :
  0 < n →
  (reserve_buffer o (Some n) mem = None ∧ mem = None) ∨
  (∃ b, reserve_buffer o (Some n) mem = Some (set_buffer (Some b) o) ∧ zlen b = n).
Proof.
  intros Hn. unfold reserve_buffer, BRealloc. destruct mem as [g|]; [right|by left].
  eexists. split; [done|]. rewrite length_app, length_take, length_drop, length_resize.
  replace (n =? 0) with false by (symmetry; apply Z.eqb_neq; lia). lia.
Qed.

Lemma send_buffer_ok o m s :
  buffer o = Some m → send_sender o = Some s → in_len s = -1 → 0 < zlen m →
  send_buffer o (zlen m) = Ret (set_sender (Some (mkpss m (zlen m) 0)) (Some (0, zlen m)) o).
Proof.
  intros Hb Hs Hi Hm. unfold send_buffer. rewrite Hb, Hs. cbn [get]. rewrite !bind_Ret, mread_all, !bind_Ret, Hi.
  unfold pss_input_handler_send, send_data. cbn [in_used in_len]. cbn [require Z.eqb Pos.eqb]. rewrite bind_Ret.
  rewrite (proj2 (Z.ltb_lt _ _)) by lia. by rewrite Z.sub_0_r.
Qed.

(** ** Handlers *)

(** A handler returned, and left the client in order or reported an error. *)
Definition handler_ok (v : verdict) (clean : Prop) (x : handled) (nt sn : list Z) : Prop :=
  ∃ o rep, x = Ret (o, rep) ∧ bs_post v clean (World o nt sn rep no_user).

Lemma handler_fail v clean o nt sn :
  freeable o → (clean → v = Rejected) → bs_state o ≠ STATE_UP →
  handler_ok v clean (report_error o BSOCKSCLIENT_EVENT_ERROR) nt sn.
Proof. intros Hf Hc He. eexists o, (Some _). split; [done|]. by right. Qed.

(** Both sides of the connection are ready. *)
Definition idle (o : BSocksClient) (c : BConnection) : Prop :=
  linked o c ∧ con_waits c ∧ (∃ s, send_sender o = Some s ∧ in_len s = -1) ∧
  send_state c = 1 ∧ recv_state c = 1 ∧ send_op o = None ∧ recv_op o = None.

Lemma idle_freeable o c :
  idle o c → bs_state o ≠ STATE_CONNECTING → bs_state o ≠ STATE_UP → freeable o.
Proof.
  intros (Hl & _ & (s & Hs & _) & H1 & H2 & _) ? ?. eapply freeable_control; [exact Hl|split; auto|by exists s|done..].
Qed.

Lemma start_sending v o c m st p nt sn clean :
  idle o c → 0 < zlen m < 600 → after_send auths dest st p → proto_run (PSend m p) nt sn = v →
  handler_ok v clean (o ← send_buffer (set_buffer (Some m) o) (zlen m); Ret (set_bs_state st o, None)) nt sn.
Proof.
  intros (Hl & Hw & (s & Hs & Hi) & H1 & H2 & H3 & H4) Hm Ha Hv.
  rewrite (send_buffer_ok _ m s) by (done || apply Hm). rewrite bind_Ret. eexists _, _. split; [done|].
  left. left. split; [done|]. exists c. left. exists (mkpss m (zlen m) 0), m, sn, p. unfold linked in *. cbn.
  rewrite Z.sub_0_r. split_and!; try done; try lia; [apply Hl..|by left|by rewrite app_nil_r].
Qed.

Lemma start_receiving v o c m st n k d nt sn clean :
  idle o c → buffer o = Some m → (0 < n)%nat → d + Z.of_nat n ≤ zlen m →
  reading auths dest st (PRead n k) d → (st = STATE_SENT_REQUEST → 22 ≤ zlen m) → proto_run (PRead n k) nt sn = v →
  handler_ok v clean (o ← start_receive o d (Z.of_nat n); Ret (set_bs_state st o, None)) nt sn.
Proof.
  intros (Hl & Hw & (s & Hs & Hi) & H1 & H2 & H3 & H4) Hb Hn Hd Hr Hq Hv.
  unfold start_receive, do_receive. rewrite (proj2 (Z.ltb_lt 0 (Z.of_nat n))) by lia. cbn [require]. rewrite bind_Ret.
  cbn [recv_len recv_total set_recv_range]. rewrite (proj2 (Z.ltb_lt 0 (Z.of_nat n))) by lia. cbn [require]. rewrite !bind_Ret.
  eexists _, _. split; [done|]. left. left. split; [done|]. exists c. right. exists s, m, n, k.
  unfold linked in *. cbn. rewrite Z.add_0_r, Z.sub_0_r.
  split_and!; try done; try lia; [apply Hl..|by left].
Qed.

Lemma auth_finished_ok o c mem nt sn clean :
  idle o c → bs_state o ≠ STATE_CONNECTING → bs_state o ≠ STATE_UP → (clean → mem ≠ None) →
  handler_ok (proto_run (bs_connect dest) nt sn) clean (auth_finished o mem) nt sn.
Proof.
  intros Hi H1 H2 Hc. pose proof Hi as ((_ & Hd & _) & _).
  destruct (request_parts dest Hdest) as (atyp & addr & Hreq & Hm & Hsize & Hmax).
  unfold auth_finished. rewrite Hd, Hsize.
  destruct (reserve_ok o (4 + zlen addr) mem ltac:(lia)) as [[-> ->]|(b & -> & Hb)].
  { apply handler_fail; [by eapply idle_freeable|by intros ?%Hc|done]. }
  cbn [buffer set_buffer dest_addr get]. rewrite Hd, Hm, !bind_Ret.
  unfold sizeof_request_header, SOCKS_VERSION, SOCKS_CMD_CONNECT.
  rewrite mwrite_back_front, <- Hreq by (cbn [length]; lia). cbn [get]. rewrite bind_Ret.
  replace (4 + zlen addr) with (zlen (bs_request dest)) by (rewrite Hreq, length_app; cbn [length]; lia).
  apply (start_sending _ (set_buffer (Some b) o) c (bs_request dest) STATE_SENDING_REQUEST (PRead 4 bs_reply_cont));
    [done| |by right; right|done].
  rewrite Hreq, length_app. cbn [length]. lia.
Qed.

Lemma send_password_ok o c u p mem nt sn clean :
  idle o c → bs_state o ≠ STATE_CONNECTING → bs_state o ≠ STATE_UP → (clean → mem ≠ None) →
  handler_ok (proto_run (if login_ok u p then PSend (bs_login u p) (PRead 2 (bs_login_cont dest)) else PReject) nt sn)
    clean (send_password o u p mem) nt sn.
Proof.
  intros Hi H1 H2 Hc. unfold send_password, login_ok. destruct (_ || _) eqn:El; cbn [negb].
  { apply handler_fail; [by eapply idle_freeable|done|done]. }
  bool_hyps. destruct El as [[[L1 L2] L3] L4].
  destruct (reserve_ok o (1 + 1 + zlen u + 1 + zlen p) mem ltac:(lia)) as [[Hn ->]|(b & Hr & Hb)];
    unfold bsize_fromsize; [rewrite Hn|rewrite Hr].
  { apply handler_fail; [by eapply idle_freeable|by intros ?%Hc|done]. }
  cbn [buffer set_buffer get]. rewrite bind_Ret, !u8_small by (unfold is_byte; lia).
  change b with ([] ++ b).
  rewrite (mwrite_extend [] b 0 [1]), bind_Ret by (cbn [length]; lia).
  rewrite (mwrite_extend ([] ++ [1])), bind_Ret by (rewrite ?length_drop; cbn [length app]; lia).
  rewrite (mwrite_extend (([] ++ [1]) ++ [zlen u])), bind_Ret by (rewrite ?length_drop; cbn [length app]; lia).
  rewrite (mwrite_extend ((([] ++ [1]) ++ [zlen u]) ++ u)), bind_Ret
    by (rewrite ?length_drop, ?length_app; cbn [length app]; lia).
  rewrite (mwrite_extend (((([] ++ [1]) ++ [zlen u]) ++ u) ++ [zlen p])), bind_Ret
    by (rewrite ?length_drop, ?length_app; cbn [length app]; lia).
  rewrite drop_ge, app_nil_r by (rewrite ?length_drop; cbn [length app]; lia). rewrite bind_Ret.
  replace (((((_ ++ _) ++ _) ++ _) ++ _) ++ p) with (bs_login u p) by (unfold bs_login; cbn; by rewrite <- app_assoc).
  replace (1 + 1 + zlen u + 1 + zlen p) with (zlen (bs_login u p))
    by (unfold bs_login; cbn [length]; rewrite length_app; cbn [length]; lia).
  apply (start_sending _ (set_buffer (Some b) o) c (bs_login u p) STATE_SENDING_PASSWORD (PRead 2 (bs_login_cont dest)));
    [done|unfold bs_login; cbn [length]; rewrite length_app; cbn [length]; lia|by right; left|done].
Qed.

(** The bytes received so far, and the client ready for the next message. *)
Lemma received_hello_ok o c ver method t mem nt sn clean :
  idle o c → bs_state o ≠ STATE_CONNECTING → bs_state o ≠ STATE_UP → (clean → mem ≠ None) →
  buffer o = Some (ver :: method :: t) →
  handler_ok (proto_run (bs_hello_cont auths dest [ver; method]) nt sn) clean (received_hello o mem) nt sn.
Proof.
  intros Hi H1 H2 Hc Hb. pose proof Hi as ((Ha & _) & _). unfold received_hello, bs_hello_cont. rewrite Hb, Ha. cbn [get].
  rewrite bind_Ret. change (mget _ 0) with (Ret ver). change (mget _ 1) with (Ret method). rewrite !bind_Ret.
  change SOCKS_VERSION with 5. destruct (ver =? 5); cbn [negb].
  2:{ apply handler_fail; [by eapply idle_freeable|done|done]. }
  destruct (find _ auths) as [[|u p]|].
  - by eapply auth_finished_ok.
  - by eapply send_password_ok.
  - apply handler_fail; [by eapply idle_freeable|done|done].
Qed.

Lemma received_password_reply_ok o c ver status t mem nt sn clean :
  idle o c → bs_state o ≠ STATE_CONNECTING → bs_state o ≠ STATE_UP → (clean → mem ≠ None) →
  buffer o = Some (ver :: status :: t) →
  handler_ok (proto_run (bs_login_cont dest [ver; status]) nt sn) clean (received_password_reply o mem) nt sn.
Proof.
  intros Hi H1 H2 Hc Hb. unfold received_password_reply, bs_login_cont. rewrite Hb. cbn [get].
  rewrite bind_Ret. change (mget _ 0) with (Ret ver). change (mget _ 1) with (Ret status). rewrite !bind_Ret.
  destruct (ver =? 1); cbn [negb]; [destruct (status =? 0); cbn [negb]|]; [by eapply auth_finished_ok|..];
    (apply handler_fail; [by eapply idle_freeable|done|done]).
Qed.

Lemma received_reply_header_ok o c ver rep rsv atyp t nt sn clean :
  idle o c → bs_state o ≠ STATE_CONNECTING → bs_state o ≠ STATE_UP →
  buffer o = Some (ver :: rep :: rsv :: atyp :: t) → 18 ≤ zlen t →
  handler_ok (proto_run (bs_reply_cont [ver; rep; rsv; atyp]) nt sn) clean (received_reply_header o) nt sn.
Proof.
  intros Hi H1 H2 Hb Ht. unfold received_reply_header, bs_reply_cont. rewrite Hb. cbn [get].
  rewrite bind_Ret. change (mget _ 0) with (Ret ver). change (mget _ 1) with (Ret rep). change (mget _ 3) with (Ret atyp).
  rewrite !bind_Ret. change SOCKS_VERSION with 5. change SOCKS_REP_SUCCEEDED with 0.
  change SOCKS_ATYP_IPV4 with 1. change SOCKS_ATYP_IPV6 with 4.
  destruct (ver =? 5); cbn [negb]; [destruct (rep =? 0); cbn [negb]|];
    [|apply handler_fail; [by eapply idle_freeable|done|done]..].
  destruct (atyp =? 1); [|destruct (atyp =? 4)]; [| |apply handler_fail; [by eapply idle_freeable|done|done]].
  - apply (start_receiving _ o c _ STATE_RECEIVED_REPLY_HEADER 6 (λ _, PAccept) 4 nt sn clean Hi Hb);
      [lia|cbn [length]; lia| |done..]. do 3 right. split_and!; [done..|by left].
  - apply (start_receiving _ o c _ STATE_RECEIVED_REPLY_HEADER 18 (λ _, PAccept) 4 nt sn clean Hi Hb);
      [lia|cbn [length]; lia| |done..]. do 3 right. split_and!; [done..|by right].
Qed.

Lemma received_reply_rest_ok o c nt sn clean :
  idle o c → handler_ok (Accepted nt sn) clean (received_reply_rest o) nt sn.
Proof.
  intros (Hl & Hw & (s & Hs & _) & H1 & H2 & H3 & H4). unfold received_reply_rest.
  destruct (free_control_ok (set_buffer None o) c) as (c1 & -> & (Hsh & F1 & C1 & W1) & S1 & R1);
    [done|split; auto|by exists s|]. rewrite bind_Ret. unfold init_up_io.
  cbn [con set_recv_op set_sender set_con get]. rewrite bind_Ret.
  destruct (init_sides c1 (conj Hsh (W1 Hw)) S1 R1) as (c2 & Hi & [Hsh2 Hw2] & [F2 C2] & S2 & R2).
  apply bind_Ret_inv in Hi as (cx & -> & Hi). rewrite bind_Ret, Hi, !bind_Ret.
  eexists _, _. split; [done|]. left. right. split; [done|]. exists c2.
  destruct Hl as (L1 & L2 & L3 & L4 & L5 & L6 & L7 & L8).
  unfold up, linked. cbn. split_and!; try done; congruence.
Qed.

Lemma receive_into_ok o c n k sz st mem nt sn clean :
  idle o c → bs_state o ≠ STATE_CONNECTING → bs_state o ≠ STATE_UP → (clean → mem ≠ None) →
  (0 < n)%nat → Z.of_nat n ≤ sz → (st = STATE_SENT_REQUEST → sz = 22) → reading auths dest st (PRead n k) 0 →
  handler_ok (proto_run (PRead n k) nt sn) clean (receive_into o (Some sz) (Z.of_nat n) st mem) nt sn.
Proof.
  intros Hi H1 H2 Hc Hn Hsz Hst Hr. unfold receive_into.
  destruct (reserve_ok o sz mem ltac:(lia)) as [[-> ->]|(b & -> & Hb)].
  { apply handler_fail; [by eapply idle_freeable|by intros ?%Hc|done]. }
  apply (start_receiving _ (set_buffer (Some b) o) c b st n k); try done; [lia|]. intros E. rewrite Hb, Hst by done. lia.
Qed.

Lemma send_handler_done_ok o c p mem nt sn clean :
  idle o c → is_Some (buffer o) → after_send auths dest (bs_state o) p → (clean → mem ≠ None) →
  handler_ok (proto_run p nt sn) clean (send_handler_done o mem) nt sn.
Proof.
  intros Hi [b Hb] Ha Hc. unfold send_handler_done. rewrite Hb. cbn [get]. rewrite bind_Ret.
  assert (H1 : bs_state o ≠ STATE_CONNECTING) by (destruct Ha as [[-> _]|[[-> _]|[-> _]]]; done).
  assert (H2 : bs_state o ≠ STATE_UP) by (destruct Ha as [[-> _]|[[-> _]|[-> _]]]; done).
  destruct Ha as [[E ->]|[[E ->]|[E ->]]]; rewrite E; cbn [Z.eqb Pos.eqb STATE_SENDING_HELLO STATE_SENDING_REQUEST STATE_SENDING_PASSWORD].
  - apply (receive_into_ok o c 2 (bs_hello_cont auths dest)); try done; [lia|]. by left.
  - apply (receive_into_ok o c 2 (bs_login_cont dest)); try done; [lia|]. by right; left.
  - apply (receive_into_ok o c 4 bs_reply_cont 22); try done; [lia|]. by right; right; left.
Qed.

Lemma recv_complete_ok o c m n k mem nt sn clean :
  idle o c → buffer o = Some m → recv_dest o + Z.of_nat n ≤ zlen m →
  reading auths dest (bs_state o) (PRead n k) (recv_dest o) →
  (bs_state o = STATE_SENT_REQUEST → 22 ≤ zlen m) → (clean → mem ≠ None) →
  handler_ok (proto_run (k (take n (drop (Z.to_nat (recv_dest o)) m))) nt sn) clean
    (if bs_state o =? STATE_SENT_HELLO then received_hello o mem
     else if bs_state o =? STATE_SENT_REQUEST then received_reply_header o
     else if bs_state o =? STATE_SENT_PASSWORD then received_password_reply o mem
     else if bs_state o =? STATE_RECEIVED_REPLY_HEADER then received_reply_rest o
     else Fault) nt sn.
Proof.
  intros Hi Hb Hlen Hr Hq Hc.
  destruct Hr as [(E & Hp & Hd)|[(E & Hp & Hd)|[(E & Hp & Hd)|(E & Hd & Hp)]]]; rewrite Hd in *; rewrite E in *;
    cbn [Z.eqb Pos.eqb STATE_SENT_HELLO STATE_SENT_REQUEST STATE_SENT_PASSWORD STATE_RECEIVED_REPLY_HEADER];
    try (injection Hp as -> ->; rewrite drop_0).
  - destruct m as [|x [|y t]]; cbn [length] in Hlen; try lia. eapply received_hello_ok; try done; by rewrite E.
  - destruct m as [|x [|y t]]; cbn [length] in Hlen; try lia. eapply received_password_reply_ok; try done; by rewrite E.
  - specialize (Hq eq_refl). destruct m as [|x [|y [|z [|q t]]]]; cbn [length] in *; try lia.
    eapply received_reply_header_ok; try done; [by rewrite E..|lia].
  - destruct Hp as [Hp|Hp]; injection Hp as -> ->; by eapply received_reply_rest_ok.
Qed.

Lemma recv_handler_done_ok o c m n k dl mem nt sn clean :
  idle o c → buffer o = Some m → recv_total o = Z.of_nat n → 0 ≤ recv_len o → 0 < dl → recv_len o + dl ≤ Z.of_nat n →
  0 ≤ recv_dest o → recv_dest o + Z.of_nat n ≤ zlen m → reading auths dest (bs_state o) (PRead n k) (recv_dest o) →
  (bs_state o = STATE_SENT_REQUEST → 22 ≤ zlen m) → (clean → mem ≠ None) →
  handler_ok (proto_run (PRead n k)
      (take (Z.to_nat (recv_len o + dl)) (drop (Z.to_nat (recv_dest o)) m) ++ nt) sn)
    clean (recv_handler_done o dl mem) nt sn.
Proof.
  intros Hi Hb Ht Hl Hdl Hle Hd0 Hd Hr Hq Hc. unfold recv_handler_done.
  replace ((0 <=? dl) && (dl <=? recv_total o - recv_len o)) with true by (symmetry; solve_bool).
  cbn [require]. rewrite bind_Ret. cbn [recv_len recv_total recv_dest set_recv_range bs_state]. rewrite Ht.
  destruct (recv_len o + dl <? Z.of_nat n) eqn:E; bool_hyps.
  - unfold do_receive. cbn [recv_len recv_total recv_dest set_recv_range].
    rewrite (proj2 (Z.ltb_lt (recv_len o + dl) (Z.of_nat n))) by lia. cbn [require]. rewrite !bind_Ret.
    destruct Hi as (Hlk & Hw & (s & Hs & Hsi) & H1 & H2 & H3 & H4).
    eexists _, _. split; [done|]. left. left. split; [done|]. exists c. right. exists s, m, n, k.
    unfold linked in *. cbn -[take drop Z.to_nat]. split_and!; try done; try lia; [apply Hlk..|by left].
  - replace (recv_len o + dl) with (Z.of_nat n) by lia. rewrite Nat2Z.id. cbn [proto_run].
    set (d := take n (drop (Z.to_nat (recv_dest o)) m)).
    assert (Hdn : length d = n) by (unfold d; rewrite length_take, length_drop; lia).
    rewrite length_app, Hdn, (proj2 (Nat.leb_le _ _)) by lia. rewrite <- Hdn at 1 2. rewrite take_app_length, drop_app_length.
    by apply (recv_complete_ok (set_recv_range (recv_dest o) (Z.of_nat n) (Z.of_nat n) o) c m n k mem nt sn clean).
Qed.

(** ** Events of the connection *)
Lemma linked_con o c c' :
  linked o c → con_shape c' → same_fd c c' → linked (set_con (Some c') o) c'.
Proof.
  intros (L1 & L2 & L3 & L4 & L5 & L6 & L7 & L8) Hsh [F C]. unfold BSocksClient.linked. cbn.
  split_and!; try done; congruence.
Qed.

Lemma done_with_ok v clean w x :
  quiet w → handler_ok v clean x (net w) (sent w) → ∃ w', done_with w x = Ret w' ∧ bs_post v clean w'.
Proof.
  intros [Hr Hu] (o & rep & -> & Hp). eexists. split; [done|]. rewrite Hr, Hu. by destruct rep.
Qed.

(** An error of the connection, before the client is up. *)
Lemma con_failed v clean w o c ev :
  quiet w → linked o c → control_sides c → is_Some (send_sender o) →
  bs_state o ≠ STATE_CONNECTING → bs_state o ≠ STATE_UP → ¬ clean →
  ∃ w', done_with w (connection_handler o ev) = Ret w' ∧ bs_post v clean w'.
Proof.
  intros Hr Hl Hs Hse H1 H2 Hc. apply done_with_ok; [done|]. unfold connection_handler.
  apply Z.eqb_neq in H1 as E1. apply Z.eqb_neq in H2 as E2. rewrite E1, E2. cbn [negb require andb]. rewrite bind_Ret.
  apply handler_fail; [by eapply freeable_control|done|done].
Qed.

(** The message [m] is being sent, [u] bytes of it are out. *)
Definition in_flight (v : verdict) (w : world) (u : Z) : Prop :=
  let o := cl w in
  quiet w ∧ ∃ s m msgs p,
    send_sender o = Some s ∧ buffer o = Some m ∧ in_len s = zlen m ∧ zlen m < 600 ∧ in_used s = u ∧ 0 ≤ u < zlen m ∧
    send_op o = None ∧ recv_op o = None ∧ after_send auths dest (bs_state o) p ∧
    sent w = msgs ++ take (Z.to_nat u) m ∧ proto_run p (net w) (msgs ++ m) = v.

Lemma after_send_state st p : after_send auths dest st p → st ≠ STATE_CONNECTING ∧ st ≠ STATE_UP.
Proof. by intros [[-> _]|[[-> _]|[-> _]]]. Qed.
Lemma reading_state st p d : reading auths dest st p d → st ≠ STATE_CONNECTING ∧ st ≠ STATE_UP ∧ 0 ≤ d.
Proof. by intros [(-> & _ & ->)|[(-> & _ & ->)|[(-> & _ & ->)|(-> & -> & _)]]]. Qed.

Lemma con_done_send v clean w c c' ev mem wr u :
  in_flight v w u → linked (cl w) c → recv_state c = 1 →
  (∀ m, buffer (cl w) = Some m → send_step c c' ev (u, zlen m - u) wr) → con_shape c' → (ev ≠ CError → con_waits c') →
  (clean → mem ≠ None ∧ ev ≠ CError) →
  ∃ w', con_done w c' ev mem = Ret w' ∧ bs_post v clean w'.
Proof.
  intros (Hrep & s & m & msgs & p & Hs & Hb & Hlen & Hmx & Hu & Hur & Ho1 & Ho2 & Ha & Hsn & Hv) Hl Hrs Hst Hsh Hw Hc.
  destruct (Hst m Hb) as (Hfd & Hr' & _ & Hbusy & Hev). rewrite Hrs in Hr'.
  pose proof (linked_con _ _ _ Hl Hsh Hfd) as Hl'. destruct (after_send_state _ _ Ha) as [Hs1 Hs2].
  unfold con_done. destruct ev as [|n|n| |]; try done.
  - eexists. split; [done|]. left. left. split; [done|]. exists c'. left. exists s, m, msgs, p. rewrite Hu. cbn.
    split_and!; try done; [by apply Hw|lia|lia|]. right. by split_and!.
  - destruct Hev as [Hev Hn]. cbn [buffer set_con send_sender bs_state].
    rewrite (proj2 (Z.eqb_neq _ _) Hs2), Hb, Hs, Hbusy. cbn [get fst]. rewrite bind_Ret.
    unfold mread. replace ((0 <=? u) && _ && _) with true by (symmetry; cbn [snd] in Hn; solve_bool). rewrite !bind_Ret.
    set (bs := take _ _).
    assert (Hbs : (sent w ++ bs) = msgs ++ take (Z.to_nat (u + n)) m).
    { rewrite Hsn, <- app_assoc. f_equal. unfold bs. rewrite Z2Nat.inj_add, take_take_drop by lia. done. }
    unfold pss_output_handler_done, send_data. cbn [in_used in_len in_packet]. rewrite Hu, Hlen.
    destruct (u + n <? zlen m) eqn:E; bool_hyps.
    + eexists. split; [done|]. left. left. split; [done|]. exists c'. left.
      exists (mkpss (in_packet s) (zlen m) (u + n)), m, msgs, p. cbn -[take Z.to_nat].
      split_and!; try done; [by apply Hw|lia|by left].
    + assert (Hall : sent w ++ bs = msgs ++ m) by (rewrite Hbs, take_ge by lia; done).
      apply done_with_ok; [done|]. cbn [net sent]. rewrite Hall, <- Hv.
      apply (send_handler_done_ok _ c'); [|by exists m|done|by intros [? ?]%Hc].
      split_and!; try done; [by apply Hw|]. by eexists.
  - apply con_failed with (c := c'); try done;
      first [by eexists; exact Hs|by intros [? ?]%Hc|split; rewrite ?Hr'; tauto].
Qed.

(** Bytes are being received, [recv_len] of them are in the buffer. *)
Definition in_receipt (v : verdict) (w : world) : Prop :=
  let o := cl w in
  quiet w ∧ ∃ s m n k,
    send_sender o = Some s ∧ in_len s = -1 ∧ buffer o = Some m ∧ recv_total o = Z.of_nat n ∧
    0 ≤ recv_len o < Z.of_nat n ∧ recv_dest o + recv_total o ≤ zlen m ∧ send_op o = None ∧ recv_op o = None ∧
    reading auths dest (bs_state o) (PRead n k) (recv_dest o) ∧ (bs_state o = STATE_SENT_REQUEST → 22 ≤ zlen m) ∧
    proto_run (PRead n k) (take (Z.to_nat (recv_len o)) (drop (Z.to_nat (recv_dest o)) m) ++ net w) (sent w) = v.

(** A write just behind the bytes received extends them. *)
Lemma mwrite_received m d l bs :
  0 ≤ d → 0 ≤ l → d + l + zlen bs ≤ zlen m →
  ∃ m', mwrite m (d + l) bs = Ret m' ∧ length m' = length m ∧
    take (Z.to_nat (l + zlen bs)) (drop (Z.to_nat d) m') = take (Z.to_nat l) (drop (Z.to_nat d) m) ++ bs.
Proof.
  intros Hd Hl Hle. unfold mwrite. if_true. eexists. split; [done|].
  split; [rewrite !length_app, length_take, length_drop; lia|].
  replace (Z.to_nat (d + l)) with (Z.to_nat d + Z.to_nat l)%nat by lia.
  rewrite <- (take_drop (Z.to_nat d) m) at 1 2. rewrite <- take_take_drop.
  assert (Hn : length (take (Z.to_nat d) m) = Z.to_nat d) by (rewrite length_take; lia).
  rewrite (take_app_length' (take (Z.to_nat d) m)) by done.
  rewrite (drop_app_length' (take (Z.to_nat d) m)) by done.
  rewrite <- !app_assoc, drop_app_length' by done.
  assert (Hk : length (take (Z.to_nat l) (drop (Z.to_nat d) m)) = Z.to_nat l) by (rewrite length_take, length_drop; lia).
  rewrite app_assoc, take_app_length' by (rewrite length_app, Hk; lia). done.
Qed.

Lemma con_done_recv v clean w c c' ev mem r :
  in_receipt v w → linked (cl w) c → send_state c = 1 →
  recv_step c c' ev (recv_dest (cl w) + recv_len (cl w), recv_total (cl w) - recv_len (cl w)) r →
  data_ok r (net w) → con_shape c' → (ev ≠ CError → con_waits c') →
  (clean → mem ≠ None ∧ ev ≠ CError ∧ ev ≠ CRecvClosed) →
  ∃ w', con_done w c' ev mem = Ret w' ∧ bs_post v clean w'.
Proof.
  intros (Hrep & s & m & n & k & Hs & Hsi & Hb & Ht & Hlen & Hd & Ho1 & Ho2 & Ha & Hq & Hv) Hl Hss Hst Hdat Hsh Hw Hc.
  destruct Hst as (Hfd & Hs' & _ & Hbusy & Hev). rewrite Hss in Hs'.
  pose proof (linked_con _ _ _ Hl Hsh Hfd) as Hl'. destruct (reading_state _ _ _ Ha) as (Hs1 & Hs2 & Hd0).
  unfold con_done. destruct ev as [|j|j| |]; try done.
  - eexists. split; [done|]. left. left. split; [done|]. exists c'. right. exists s, m, n, k. cbn -[take drop Z.to_nat].
    split_and!; try done; [by apply Hw|lia|lia|]. right. by split_and!.
  - destruct Hev as (Hev & Hj & ->). cbn in Hdat. cbn [buffer set_con bs_state].
    rewrite (proj2 (Z.eqb_neq _ _) Hs2), Hb, Hbusy. cbn [get fst]. rewrite bind_Ret.
    cbn [snd] in Hj.
    assert (Hnj : zlen (take (Z.to_nat j) (net w)) = j) by (rewrite length_take; lia).
    destruct (mwrite_received m (recv_dest (cl w)) (recv_len (cl w)) (take (Z.to_nat j) (net w)))
      as (m' & -> & Hlm & Htk); [done|lia|lia|]. rewrite bind_Ret.
    apply done_with_ok; [done|]. cbn [net sent]. rewrite Hnj in Htk.
    rewrite <- Hv, <- (take_drop (Z.to_nat j) (net w)) at 1. rewrite app_assoc, <- Htk.
    apply (recv_handler_done_ok (set_buffer (Some m') (set_con (Some c') (cl w))) c' m' n k j);
      cbn [buffer set_buffer set_con recv_total recv_len recv_dest bs_state]; rewrite ?Hlm; try done; try lia;
      [|by intros [? ?]%Hc].
    split_and!; try done; [by apply Hw|by exists s].
  - apply con_failed with (c := c'); try done;
      first [by eexists; exact Hs|by intros (? & ? & ?)%Hc|split; rewrite ?Hs'; tauto].
  - apply con_failed with (c := c'); try done;
      first [by eexists; exact Hs|by intros (? & ? & ?)%Hc|split; rewrite ?Hs'; tauto].
Qed.

(** ** The connector *)
Lemma connector_fail1_ok v clean o c nt sn :
  linked o c → control_sides c → is_Some (send_sender o) → bs_state o = STATE_CONNECTING →
  (clean → v = Rejected) → handler_ok v clean (connector_fail1 o) nt sn.
Proof.
  intros Hl Hs Hse Hst Hc. unfold connector_fail1.
  destruct (free_control_ok o c Hl Hs Hse) as (c' & -> & (Hsh & F & C & _) & S & R).
  destruct Hl as (_ & _ & _ & _ & Hfd & Hcl & Hcn & Hcf). rewrite bind_Ret.
  cbn [con set_recv_op set_sender set_con get]. rewrite bind_Ret, con_free_closed, bind_Ret by congruence.
  apply handler_fail; [|done|cbn; by rewrite Hst]. red. unfold BSocksClient_Free, BConnector_Free. cbn. rewrite Hst. cbn.
  by rewrite Hcn, Hcf, F, Hfd.
Qed.

Lemma hello_buffer b :
  zlen b = 2 + zlen auths → 0 < zlen auths ≤ 255 →
  (b ← mwrite b 0 [SOCKS_VERSION; u8 (zlen auths)]; write_methods b sizeof_client_hello_header auths)
  = Ret (bs_hello auths).
Proof.
  intros Hb Ha. change b with ([] ++ b). rewrite (mwrite_extend [] b 0) by (cbn [length]; lia).
  rewrite bind_Ret, u8_small by (unfold is_byte; lia).
  change sizeof_client_hello_header with (zlen [SOCKS_VERSION; zlen auths]).
  rewrite (write_methods_ok auths [SOCKS_VERSION; zlen auths]) by (rewrite length_drop; cbn [length]; lia).
  rewrite drop_drop, drop_ge, app_nil_r by (cbn [length]; lia). done.
Qed.

(** The client after [init_control_io]. *)
Lemma connected_idle o cn (ok : bool) :
  auth_info o = auths → dest_addr o = dest → send_sender o = None → closed_fds o = [] →
  connector o = cn → cn_fd cn = fd0 → 0 ≤ fd0 → connected cn = true → have_bfd cn = false → cn_job cn = false →
  if ok then
    ∃ c cn' o', BConnection_Init (FromConnector cn) true = Ret (Some c, FromConnector cn', []) ∧
      init_control_io (set_con (Some c) (add_closed_fds [] (set_connector cn' o))) = Ret o' ∧
      bs_state o' = bs_state o ∧ ∃ c', idle o' c'
  else BConnection_Init (FromConnector cn) false = Ret (None, FromConnector (Connector (-1) true false false), [fd0]).
Proof.
  intros Ha Hd Hse Hcl Hcn Hfd Hpos H1 H2 H3. destruct cn as [f co hb jb]. cbn in Hfd, H1, H2, H3. subst f co hb jb.
  assert (Hi : BConnection_Init (FromConnector (Connector fd0 true false false)) ok
    = if ok then Ret (Some (Con fd0 true false true 0 0 (0, 0) false 0 (0, 0) false), FromConnector (Connector (-1) true false false), [])
      else Ret (None, FromConnector (Connector (-1) true false false), [fd0])).
  { unfold BConnection_Init, source_fd. cbn [cn_fd connected have_bfd cn_job]. rewrite (proj2 (Z.leb_le 0 fd0)) by done. by destruct ok. }
  destruct ok; [|exact Hi]. eexists _, _. rewrite Hi.
  set (c := Con fd0 true false true 0 0 (0, 0) false 0 (0, 0) false).
  assert (Hinv : con_inv c) by (split; [|done]; split_and!; cbn; auto; discriminate).
  destruct (init_sides c Hinv eq_refl eq_refl) as (c2 & Hx & [Hsh2 Hw2] & [F2 C2] & S2 & R2).
  unfold init_control_io. cbn [con set_con get send_sender add_closed_fds set_connector]. rewrite bind_Ret, Hse.
  apply bind_Ret_inv in Hx as (cx & -> & Hx). rewrite bind_Ret, Hx. cbn [require]. rewrite !bind_Ret.
  eexists. split; [done|]. split; [done|]. split; [done|]. exists c2.
  split_and!; try done; [|by eexists]. unfold BSocksClient.linked. cbn. rewrite Hcl. split_and!; done.
Qed.

Lemma connector_handler_ok clean w cn is_error ok mem :
  let v := proto_run (bs_proto auths dest) (net w) [] in
  connecting v w → 0 ≤ fd0 → quiet w → cn_fd cn = fd0 →
  (is_error = false → connected cn = true ∧ have_bfd cn = false ∧ cn_job cn = false) →
  (clean → is_error = false ∧ ok = true ∧ mem ≠ None) →
  handler_ok v clean (connector_handler (set_connector cn (cl w)) is_error ok mem) (net w) (sent w).
Proof.
  intros v (Ha & Hd & Hst & _ & _ & Hse & _ & _ & Hcl & _ & _ & _ & Hsn & _) Hpos Hrep Hfd Hcn Hc.
  unfold connector_handler. cbn [bs_state set_connector connector]. rewrite Hst. cbn [require Z.eqb STATE_CONNECTING Pos.eqb].
  rewrite bind_Ret. destruct is_error.
  { apply handler_fail; [|by intros [? ?]%Hc|cbn; by rewrite Hst]. red. unfold BSocksClient_Free, BConnector_Free. cbn. rewrite Hst. cbn.
    rewrite Hcl, Hfd. replace (fd0 =? -1) with false; [done|]. symmetry. apply Z.eqb_neq. lia. }
  destruct (Hcn eq_refl) as (C1 & C2 & C3).
  pose proof (connected_idle (set_connector cn (cl w)) cn ok Ha Hd Hse Hcl eq_refl Hfd Hpos C1 C2 C3) as Hi.
  destruct ok.
  2:{ rewrite Hi, bind_Ret. apply handler_fail; [|by intros (_ & ? & _)%Hc|cbn; by rewrite Hst].
      red. unfold BSocksClient_Free, BConnector_Free. cbn. rewrite Hst. cbn. by rewrite Hcl. }
  destruct Hi as (c & cn' & o' & -> & Hinit & Hst' & c' & Hidle). rewrite bind_Ret. cbv beta iota zeta. rewrite Hinit, bind_Ret.
  pose proof Hidle as (Hl & _ & (s & Hs & _) & S1 & R1 & _). pose proof Hl as (Ha' & _). rewrite Ha'.
  cbn [bs_state set_connector] in Hst'. rewrite Hst in Hst'.
  assert (Hfail : (clean → v = Rejected) → handler_ok v clean (connector_fail1 o') (net w) (sent w)).
  { intros Hr. eapply connector_fail1_ok; [exact Hl|split; auto|by exists s|done..]. }
  unfold v, bs_proto in *. destruct ((zlen auths =? 0) || (zlen auths >? 255)) eqn:En; [by apply Hfail|]. bool_hyps.
  assert (Hsz : bsize_add (bsize_fromsize sizeof_client_hello_header)
    (bsize_mul (bsize_fromsize (zlen auths)) (bsize_fromsize sizeof_client_hello_method)) = Some (2 + zlen auths)).
  { unfold bsize_mul, bsize_add, bsize_fromsize, sizeof_client_hello_header, sizeof_client_hello_method.
    rewrite Z.mul_1_r. replace (negb (zlen auths =? 0) && (1 >? SIZE_MAX / zlen auths)) with false.
    - replace (zlen auths >? SIZE_MAX - 2) with false; [done|]. symmetry. unfold SIZE_MAX. solve_bool.
    - symmetry. apply andb_false_iff. right. rewrite Z.gtb_ltb. apply Z.ltb_ge.
      apply Z.div_le_lower_bound; unfold SIZE_MAX; lia. }
  rewrite Hsz. destruct (reserve_ok o' (2 + zlen auths) mem ltac:(lia)) as [[-> ->]|(b & -> & Hb)].
  { apply Hfail. by intros (_ & _ & ?)%Hc. }
  cbn [buffer set_buffer get auth_info]. rewrite Ha', bind_Ret, <- bind_assoc_outcome, hello_buffer, !bind_Ret by lia.
  replace (2 + zlen auths) with (zlen (bs_hello auths)) by (unfold bs_hello; cbn [length]; rewrite length_map; lia).
  rewrite Hsn.
  apply (start_sending _ (set_buffer (Some b) o') c' (bs_hello auths) STATE_SENDING_HELLO (PRead 2 (bs_hello_cont auths dest)));
    [done|unfold bs_hello; cbn [length]; rewrite length_map; lia|by left|done].
Qed.

(** ** Every event keeps the invariant *)
Lemma send_step_clean c c' ev x wr : send_step c c' ev x wr → calm (is_hupd c') wr → ev ≠ CError.
Proof. intros (_ & _ & _ & _ & H) [C1 C2] ->. destruct H as [_ [H|[H1 H2]]]; [done|]. by apply C2. Qed.
Lemma recv_step_clean c c' ev x r :
  recv_step c c' ev x r → r ≠ SysDone 0 → calm (is_hupd c') r → ev ≠ CError ∧ ev ≠ CRecvClosed.
Proof.
  intros (_ & _ & _ & _ & H) H0 [C1 C2]. split; intros ->.
  - destruct H as [_ [H|[H1 H2]]]; [done|]. by apply C2.
  - by destruct H.
Qed.

Lemma no_recv_job c : con_waits c → recv_state c ≠ 2 → recv_job c = false.
Proof.
  intros (_ & _ & Hr) Hst. unfold recv_waits in Hr. apply Z.eqb_neq in Hst as E. rewrite E in Hr.
  destruct (is_hupd c); [done|]. destruct (recv_job c); [|done]. by destruct Hst, Hr as [_ ->].
Qed.

Lemma sending_fire v w c ev mem :
  sending v w c → quiet w → bs_allowed ev w →
  ∃ w', bs_fire ev mem w = Ret w' ∧ bs_post v (clean_event ev mem w) w'.
Proof.
  intros (s & m & msgs & p & Hl & Hw & Hs & Hb & Hlen & Hmx & Hu & Hp & Hrs & Hro & Ha & Hsn & Hv) Hrep Hall.
  pose proof Hl as (_ & _ & Hc & Hsh & _). destruct (after_send_state _ _ Ha) as [Hn1 Hn2].
  destruct ev as [so ok|ok|lim wr|lim r|lim r|e slim rlim wr r|dt|ln]; cbn [bs_allowed] in Hall; cbn [bs_fire clean_event].
  - by destruct Hall.
  - by destruct Hall.
  - destruct Hall as (off & k & Hop & Hok). destruct Hp as [[Hp Hst]|(Hp & _)]; [|congruence].
    rewrite Hp in Hop. injection Hop as <- <-. rewrite Hc, Hp. cbn [get]. rewrite !bind_Ret.
    destruct (con_send_if_ok c (in_used s) (zlen m - in_used s) lim wr (conj Hsh Hw) Hst ltac:(lia) Hok)
      as (c' & e & He & R1 & R2 & R3 & R4). rewrite He, bind_Ret. apply send_if_step in He as [He Hh].
    apply (con_done_send _ _ _ c c' e mem wr (in_used s)); try done.
    + split; [done|]. by exists s, m, msgs, p.
    + intros m' [= <-]%(eq_trans (eq_sym Hb)). done.
    + intros [Hm Hcl]. split; [done|]. eapply send_step_clean; [exact He|]. rewrite Hh. by apply Hcl.
  - destruct Hall as (? & ? & ? & _). congruence.
  - destruct Hall as (c1 & Hc1 & Hj & _). assert (c1 = c) as -> by congruence.
    rewrite no_recv_job in Hj; [done|done|lia].
  - destruct Hall as (c1 & Hc1 & Hop & _ & Hev & Hok & Hrok & Hdat). assert (c1 = c) as -> by congruence.
    destruct Hp as [[Hp _]|(_ & Hst & Hbusy)]; [congruence|].
    rewrite Hc. cbn [get]. rewrite bind_Ret.
    destruct (con_fd_ok c e slim rlim wr r (conj Hsh Hw) Hev Hok Hrok) as (c' & ce & He & R1 & R2 & R3 & R4).
    rewrite He, bind_Ret. destruct (fd_step _ _ _ _ _ _ _ _ He Hev) as (Hh & Hsend & _).
    specialize (Hsend Hst ltac:(lia)). rewrite Hbusy in Hsend.
    apply (con_done_send _ _ _ c c' ce mem wr (in_used s)); try done.
    + split; [done|]. by exists s, m, msgs, p.
    + intros m' [= <-]%(eq_trans (eq_sym Hb)). done.
    + intros (Hm & _ & Hcl). split; [done|]. eapply send_step_clean; [exact Hsend|]. rewrite Hh. by apply Hcl.
  - by destruct Hall.
  - by destruct Hall.
Qed.

Lemma receiving_fire v w c ev mem :
  receiving v w c → quiet w → bs_allowed ev w →
  ∃ w', bs_fire ev mem w = Ret w' ∧ bs_post v (clean_event ev mem w) w'.
Proof.
  intros (s & m & n & k & Hl & Hw & Hs & Hsi & Hb & Ht & Hlen & Hd & Hp & Hss & Hso & Ha & Hq & Hv) Hrep Hall.
  pose proof Hl as (_ & _ & Hc & Hsh & _). destruct (reading_state _ _ _ Ha) as (Hn1 & Hn2 & Hn3).
  assert (Hrc : ∀ o, o = cl w ∨ o = set_recv_op None (cl w) → recv_op o = None →
    in_receipt v (World o (net w) (sent w) (report w) (user w))).
  { intros o Ho Hn. split; [done|]. exists s, m, n, k. destruct Ho as [-> | ->]; split_and!; try done; apply Hlen. }
  destruct ev as [so ok|ok|lim wr|lim r|lim r|e slim rlim wr r|dt|ln]; cbn [bs_allowed] in Hall; cbn [bs_fire clean_event].
  - by destruct Hall.
  - by destruct Hall.
  - destruct Hall as (? & ? & ? & _). congruence.
  - destruct Hall as (off & j & Hop & Hok & Hdat). destruct Hp as [[Hp Hst]|(Hp & _)]; [|congruence].
    rewrite Hp in Hop. injection Hop as <- <-. rewrite Hc, Hp. cbn [get]. rewrite !bind_Ret.
    destruct (con_recv_if_ok c (recv_dest (cl w) + recv_len (cl w)) (recv_total (cl w) - recv_len (cl w)) lim r
      (conj Hsh Hw) Hst ltac:(lia) Hok) as (c' & e & He & R1 & R2 & R3 & R4).
    rewrite He, bind_Ret. apply recv_if_step in He as [He Hh].
    apply (con_done_recv _ _ _ c c' e mem r); try done; [by apply Hrc; [right|]|].
    intros (Hm & H0 & Hcl). split; [done|]. eapply recv_step_clean; [exact He|done|]. rewrite Hh. by apply Hcl.
  - destruct Hall as (c1 & Hc1 & Hj & Hok & Hdat). assert (c1 = c) as -> by congruence.
    destruct Hp as [[_ Hst]|(Hop & Hst & Hbusy)]; [rewrite no_recv_job in Hj; [done|done|lia]|].
    rewrite Hc. cbn [get]. rewrite bind_Ret.
    destruct (con_recv_job_ok c lim r (conj Hsh Hw) Hj Hok) as (c' & ce & He & R1 & R2 & R3 & R4).
    rewrite He, bind_Ret. apply recv_job_step in He as [He Hh]. rewrite Hbusy in He.
    destruct w as [o nt sn rep u]. apply (con_done_recv _ _ _ c c' ce mem r); try done; [by apply Hrc; [left|]|].
    intros (Hm & H0 & Hcl). split; [done|]. eapply recv_step_clean; [exact He|done|]. rewrite Hh. by apply Hcl.
  - destruct Hall as (c1 & Hc1 & _ & Hop & Hev & Hok & Hrok & Hdat). assert (c1 = c) as -> by congruence.
    destruct Hp as [[Hp _]|(_ & Hst & Hbusy)]; [congruence|].
    rewrite Hc. cbn [get]. rewrite bind_Ret.
    destruct (con_fd_ok c e slim rlim wr r (conj Hsh Hw) Hev Hok Hrok) as (c' & ce & He & R1 & R2 & R3 & R4).
    rewrite He, bind_Ret. destruct (fd_step _ _ _ _ _ _ _ _ He Hev) as (Hh & _ & Hrecv & _).
    specialize (Hrecv ltac:(lia) Hst). rewrite Hbusy in Hrecv.
    destruct w as [o nt sn rep u]. apply (con_done_recv _ _ _ c c' ce mem r); try done; [by apply Hrc; [left|]|].
    intros (Hm & H0 & Hcl). split; [done|]. eapply recv_step_clean; [exact Hrecv|done|]. rewrite Hh. by apply Hcl.
  - by destruct Hall.
  - by destruct Hall.
Qed.

Hypothesis Hfd0 : 0 ≤ fd0.

Lemma connecting_fire v w ev mem :
  connecting v w → quiet w → bs_allowed ev w →
  ∃ w', bs_fire ev mem w = Ret w' ∧ bs_post v (clean_event ev mem w) w'.
Proof.
  intros Hcon Hrep Hall.
  pose proof Hcon as (_ & _ & Hst & _ & Hc & _ & Hso & Hro & _ & Hfd & Hj & Hb & _ & <-).
  destruct ev as [so ok|ok|lim wr|lim r|lim r|e slim rlim wr r|dt|ln]; cbn [bs_allowed] in Hall; cbn [bs_fire clean_event];
    try (destruct Hall as (? & ? & ? & _); congruence); try (destruct Hall as (? & ? & _); congruence).
  - destruct Hall as [_ Hbf]. rewrite Hbf in Hb. assert (Hcd : connected (connector (cl w)) = false)
      by (by destruct (connected (connector (cl w)))).
    unfold connector_fd_handler. rewrite Hfd, Hcd, Hbf, (proj2 (Z.leb_le 0 fd0)) by done. cbn [negb andb require]. rewrite bind_Ret.
    rewrite Hcd in Hj. cbn [cn_fd connected have_bfd cn_job].
    destruct so as [[|z|z]|]; rewrite ?bind_Ret; (apply done_with_ok; [done|]); apply connector_handler_ok; try done;
      first [by intros (? & _ & ?)|by intros (_ & ? & _)].
  - destruct Hall as [_ Hjb]. rewrite Hjb in Hj. rewrite <- Hj in Hb.
    unfold connector_job_handler. rewrite Hfd, <- Hj, Hb, (proj2 (Z.leb_le 0 fd0)) by done. cbn [negb andb require]. rewrite !bind_Ret.
    apply done_with_ok; [done|]. apply connector_handler_ok; try done. by intros (? & ?).
  - destruct Hall as [E _]. by rewrite Hst in E.
  - destruct Hall as [E _]. by rewrite Hst in E.
Qed.

(** ** The client once it is up *)
Lemma used_send_idle w :
  send_op (cl w) = None →
  w = World (set_sender (send_sender (cl w)) None (cl w)) (net w) (sent w) (report w) (user w).
Proof. destruct w as [[] ? ? ? ?]. cbn. by intros ->. Qed.
Lemma used_recv_idle w :
  recv_op (cl w) = None → w = World (set_recv_op None (cl w)) (net w) (sent w) (report w) (user w).
Proof. destruct w as [[] ? ? ? ?]. cbn. by intros ->. Qed.

Lemma up_used v w c : up v w c → report w = Some BSOCKSCLIENT_EVENT_UP → user w = no_user → used v w c.
Proof.
  intros (Hl & Hw & Hst & _ & _ & Hs & Hr & Hso & Hro & ->) Hrep Hu. unfold BSocksClient.used. rewrite Hu.
  split_and!; try done; [by left..|]. exists (sent w). by rewrite app_nil_r.
Qed.

Lemma used_freeable v w c : used v w c → freeable (cl w).
Proof.
  intros (_ & Hl & _ & Hst & Hs & Hr & _). eapply freeable_up; [exact Hl| |done].
  split; [destruct Hs as [[_ ?]|(x & _ & [[_ ?]|(_ & ? & _)])]|destruct Hr as [[_ ?]|(x & _ & [[_ ?]|(_ & ? & _)])]]; tauto.
Qed.

(** The report of a closed connection is told apart from other errors. *)
Lemma user_failed v w o c ev :
  linked o c → bs_state o = STATE_UP → control_sides c →
  (ev =? BCONNECTION_EVENT_RECVCLOSED) = (recv_state c =? RECV_STATE_INITED_CLOSED) →
  ∃ w', done_with w (connection_handler o ev) = Ret w' ∧ used_post v w'.
Proof.
  intros Hl Hst Hs Hev. unfold connection_handler. rewrite Hst, Hev. cbn [negb require Z.eqb STATE_UP STATE_CONNECTING Pos.eqb andb].
  rewrite bind_Ret. assert (Hcode : error_code o = if recv_state c =? RECV_STATE_INITED_CLOSED
    then BSOCKSCLIENT_EVENT_ERROR_CLOSED else BSOCKSCLIENT_EVENT_ERROR).
  { unfold error_code. destruct Hl as (_ & _ & -> & _). by rewrite Hst. }
  destruct (recv_state c =? RECV_STATE_INITED_CLOSED); (eexists; split; [done|]); right; cbn [report cl];
    (split; [by rewrite Hcode|by eapply freeable_up]).
Qed.

(** A send of the user was tried. *)
Lemma user_sent v w c c' ev mem wr :
  used v w c → send_step c c' ev (0, zlen (u_data (user w))) wr → con_shape c' →
  (ev ≠ CError → con_waits c') → 0 < zlen (u_data (user w)) →
  ∃ w', con_done (World (set_sender (send_sender (cl w)) None (cl w)) (net w) (sent w) (report w) (user w)) c' ev mem = Ret w' ∧
        used_post v w'.
Proof.
  intros (Hrep & Hl & Hw & Hst & _ & Hr & msgs & Hv & Hsn) (Hfd & Hr' & Hrb & Hbusy & Hev) Hsh Hw' Hd.
  pose proof (linked_con _ _ _ Hl Hsh Hfd) as Hl'. rewrite <- Hr', <- Hrb in Hr.
  assert (Hrs : recv_state c' = 1 ∨ recv_state c' = 2)
    by (destruct Hr as [[_ ?]|(x & _ & [[_ ?]|(_ & ? & _)])]; tauto).
  unfold con_done. cbn [cl net sent report user]. destruct ev as [|n|n| |]; try done.
  - eexists. split; [done|]. left. exists c'. split_and!; try done; [by apply Hw'| |by exists msgs].
    right. exists (0, zlen (u_data (user w))). split; [done|]. right. by split_and!.
  - destruct Hev as [Hss Hn]. cbn [snd] in Hn. cbn [bs_state set_con set_sender]. rewrite Hst. cbn [Z.eqb Pos.eqb STATE_UP].
    rewrite Hbusy. cbn [fst]. unfold mread. replace ((0 <=? 0) && _ && _) with true by (symmetry; solve_bool). rewrite bind_Ret.
    eexists. split; [done|]. left. exists c'. split_and!; try done; [by apply Hw'|by left|].
    exists msgs. split; [done|]. cbn [sent user u_taken]. by rewrite Hsn, <- app_assoc.
  - destruct Hev as [Hss _]. eapply user_failed; [exact Hl'|done|split; tauto|]. by destruct Hrs as [-> | ->].
Qed.

(** A receive of the user was tried. *)
Lemma user_received v w c c' ev mem x r :
  used v w c → recv_step c c' ev x r → con_shape c' → data_ok r (net w) →
  (ev ≠ CError → con_waits c') → 0 < snd x →
  ∃ w', con_done (World (set_recv_op None (cl w)) (net w) (sent w) (report w) (user w)) c' ev mem = Ret w' ∧
        used_post v w'.
Proof.
  intros (Hrep & Hl & Hw & Hst & Hs & _ & msgs & Hv & Hsn) (Hfd & Hs' & Hsb & Hbusy & Hev) Hsh Hdat Hw' Hd.
  pose proof (linked_con _ _ _ Hl Hsh Hfd) as Hl'. rewrite <- Hs', <- Hsb in Hs.
  assert (Hss : send_state c' = 1 ∨ send_state c' = 2)
    by (destruct Hs as [[_ ?]|(y & _ & [[_ ?]|(_ & ? & _)])]; tauto).
  unfold con_done. cbn [cl net sent report user]. destruct ev as [|n|n| |]; try done.
  - eexists. split; [done|]. left. exists c'. split_and!; try done; [by apply Hw'| |by exists msgs].
    right. exists x. split; [done|]. right. by split_and!.
  - destruct Hev as (Hrs & Hn & ->). cbn [bs_state set_con set_recv_op]. rewrite Hst. cbn [Z.eqb Pos.eqb STATE_UP].
    eexists. split; [done|]. left. exists c'. split_and!; try done; [by apply Hw'|by left|].
    exists msgs. split; [|done]. cbn [net user u_got]. by rewrite <- app_assoc, take_drop.
  - destruct Hev as [Hrs _]. eapply user_failed; [exact Hl'|done|split; tauto|by rewrite Hrs].
  - destruct Hev as [Hrs _]. eapply user_failed; [exact Hl'|done|split; tauto|by rewrite Hrs].
Qed.

Lemma used_fire v w c ev mem :
  used v w c → bs_allowed ev w → ∃ w', bs_fire ev mem w = Ret w' ∧ used_post v w'.
Proof.
  intros Hu Hall. pose proof Hu as (Hrep & Hl & Hw & Hst & Hs & Hr & msgs & Hv & Hsn). pose proof Hl as (_ & _ & Hc & Hsh & _).
  destruct ev as [so ok|ok|lim wr|lim r|lim r|e slim rlim wr r|dt|ln]; cbn [bs_allowed] in Hall; cbn [bs_fire].
  1,2: destruct Hall as [E _]; by rewrite Hst in E.
  - destruct Hall as (off & n & Hop & Hok). rewrite Hc, Hop. cbn [get]. rewrite !bind_Ret.
    destruct Hs as [[Hs _]|(x & [-> Hx] & [[Hs Hss]|(Hs & _)])]; [congruence| |congruence].
    rewrite Hs in Hop. injection Hop as <- <-.
    destruct (con_send_if_ok c 0 (zlen (u_data (user w))) lim wr (conj Hsh Hw) Hss Hx Hok) as (c' & e & He & R1 & _ & _ & R4).
    rewrite He, bind_Ret. apply send_if_step in He as [He _]. by eapply user_sent.
  - destruct Hall as (off & n & Hop & Hok & Hdat). rewrite Hc, Hop. cbn [get]. rewrite !bind_Ret.
    destruct Hr as [[Hr _]|(x & Hx & [[Hr Hrs]|(Hr & _)])]; [congruence| |congruence].
    rewrite Hr in Hop. injection Hop as ->.
    destruct (con_recv_if_ok c off n lim r (conj Hsh Hw) Hrs Hx Hok) as (c' & e & He & R1 & _ & _ & R4).
    rewrite He, bind_Ret. apply recv_if_step in He as [He _]. by eapply user_received.
  - destruct Hall as (c1 & Hc1 & Hj & Hok & Hdat). assert (c1 = c) as -> by congruence.
    destruct Hr as [[_ Hrs]|(x & Hx & [[_ Hrs]|(Hr & Hrs & Hb)])];
      [rewrite no_recv_job in Hj; [done|done|lia]..|].
    rewrite Hc. cbn [get]. rewrite bind_Ret.
    destruct (con_recv_job_ok c lim r (conj Hsh Hw) Hj Hok) as (c' & ce & He & R1 & _ & _ & R4).
    rewrite He, bind_Ret. apply recv_job_step in He as [He _]. rewrite Hb in He.
    rewrite (used_recv_idle w Hr). by eapply user_received.
  - destruct Hall as (c1 & Hc1 & Hop & Hrp & Hev & Hok & Hrok & Hdat). assert (c1 = c) as -> by congruence.
    rewrite Hc. cbn [get]. rewrite bind_Ret.
    destruct (con_fd_ok c e slim rlim wr r (conj Hsh Hw) Hev Hok Hrok) as (c' & ce & He & R1 & R2 & R3 & R4).
    rewrite He, bind_Ret. destruct (fd_step_cases _ _ _ _ _ _ _ _ He Hev) as (_ & [[Hss Hst']|[[Hrs Hst']|Hi]]).
    + destruct Hs as [[_ ?]|(x & [-> Hx] & [[_ ?]|(_ & _ & Hb)])]; [lia..|]. rewrite Hb in Hst'.
      rewrite (used_send_idle w Hop). by eapply user_sent.
    + destruct Hr as [[_ ?]|(x & Hx & [[_ ?]|(_ & _ & Hb)])]; [lia..|]. rewrite Hb in Hst'.
      rewrite (used_recv_idle w Hrp). by eapply user_received.
    + destruct Hi as (Hns & Hnr & -> & Hf & E1 & E2). eexists. split; [done|]. left. exists c'.
      split_and!; try done; [by eapply linked_con|by apply R4| | |by exists msgs].
      * left. split; [done|]. rewrite E1. destruct Hs as [[_ ?]|(x & _ & [[? _]|(_ & ? & _)])]; [done|congruence..].
      * left. split; [done|]. rewrite E2. destruct Hr as [[_ ?]|(x & _ & [[? _]|(_ & ? & _)])]; [done|congruence..].
  - destruct Hall as (_ & Hd & Hop & Hss). unfold user_send, BSocksClient_GetSendInterface.
    rewrite Hst, Hc. cbn [require Z.eqb Pos.eqb STATE_UP get].
    rewrite !bind_Ret, Hop, (Hss c Hc), (proj2 (Z.ltb_lt _ _) Hd). eexists. split; [done|]. left. exists c.
    split_and!; try done; [|by exists msgs]. right. eexists. split; [by split|]. left. split; [done|by apply Hss].
  - destruct Hall as (_ & Hd & Hop & Hrs). unfold user_recv, BSocksClient_GetRecvInterface.
    rewrite Hst, Hc. cbn [require Z.eqb Pos.eqb STATE_UP get].
    rewrite !bind_Ret, Hop, (Hrs c Hc), (proj2 (Z.ltb_lt _ _) Hd). eexists. split; [done|]. left. exists c.
    split_and!; try done; [|by exists msgs]. right. exists (0, ln). split; [done|]. left. split; [done|by apply Hrs].
Qed.

(** ** Every event of the handshake *)
Definition user_event (ev : bs_event) : bool := match ev with EvUserSend _ | EvUserRecv _ => true | _ => false end.

Lemma up_fire v w c ev mem :
  up v w c → report w = Some BSOCKSCLIENT_EVENT_UP ∧ user w = no_user → bs_allowed ev w → user_event ev = false →
  ∃ w', bs_fire ev mem w = Ret w' ∧ bs_post v (clean_event ev mem w) w'.
Proof.
  intros (Hl & Hw & Hst & Hse & Hb & Hs & Hr & Hso & Hro & ->) Hrep Hall Hue. pose proof Hl as (_ & _ & Hc & Hsh & _).
  destruct ev as [so ok|ok|lim wr|lim r|lim r|e slim rlim wr r|dt|ln]; cbn [bs_allowed] in Hall; cbn [bs_fire]; try done.
  1,2: destruct Hall as [E _]; by rewrite Hst in E.
  1,2: destruct Hall as (? & ? & ? & _); congruence.
  - destruct Hall as (c1 & Hc1 & Hj & _). assert (c1 = c) as -> by congruence.
    rewrite no_recv_job in Hj; [done|done|lia].
  - destruct Hall as (c1 & Hc1 & _ & _ & Hev & Hok & Hrok & _). assert (c1 = c) as -> by congruence.
    rewrite Hc. cbn [get]. rewrite bind_Ret.
    destruct (con_fd_ok c e slim rlim wr r (conj Hsh Hw) Hev Hok Hrok) as (c' & ce & He & R1 & R2 & R3 & R4).
    rewrite He, bind_Ret. destruct (fd_step _ _ _ _ _ _ _ _ He Hev) as (_ & _ & _ & Hidle).
    destruct (Hidle ltac:(lia) ltac:(lia)) as (-> & Hf & S1 & S2).
    eexists. split; [done|]. left. right. split; [done|]. exists c'.
    split_and!; try done; [by eapply linked_con|by apply R4|congruence..].
Qed.

Lemma bs_fire_ok v w ev mem :
  bs_inv v w → bs_allowed ev w → user_event ev = false →
  ∃ w', bs_fire ev mem w = Ret w' ∧ bs_post v (clean_event ev mem w) w'.
Proof.
  intros [[Hrep Hc]|[[Hrep (c & [Hs|Hr])]|[Hrep (c & Hu)]]] Hall Hue.
  - by apply connecting_fire.
  - by eapply sending_fire.
  - by eapply receiving_fire.
  - by eapply up_fire.
Qed.

Lemma bs_inv_freeable v w : bs_inv v w → freeable (cl w).
Proof.
  intros [[_ Hc]|[[_ (c & [Hs|Hr])]|[_ (c & Hu)]]].
  - by eapply freeable_connecting.
  - destruct Hs as (s & m & msgs & p & Hl & _ & Hse & _ & _ & _ & _ & Hp & Hrs & _ & Ha & _).
    destruct (after_send_state _ _ Ha). eapply freeable_control; [exact Hl| |by eexists|done..].
    split; [|tauto]. destruct Hp as [[_ ?]|(_ & ? & _)]; tauto.
  - destruct Hr as (s & m & n & k & Hl & _ & Hse & _ & _ & _ & _ & _ & Hp & Hss & _ & Ha & _).
    destruct (reading_state _ _ _ Ha) as (? & ? & _). eapply freeable_control; [exact Hl| |by eexists|done..].
    split; [tauto|]. destruct Hp as [[_ ?]|(_ & ? & _)]; tauto.
  - destruct Hu as (Hl & _ & Hst & _ & _ & Hs & Hr & _). eapply freeable_up; [exact Hl|split; tauto|done].
Qed.

Lemma bs_inv_not_failed v w : bs_inv v w → failed w = false.
Proof. intros [[[H _] _]|[[[H _] _]|[[H _] _]]]; unfold failed; by rewrite H. Qed.

(** ** Letting the pending operations complete *)
Definition mu (w : world) : Z :=
  600 * zlen (net w) +
  (if bs_state (cl w) =? STATE_CONNECTING then 600
   else match send_sender (cl w) with
        | Some s => if in_len s =? -1 then 0 else in_len s - in_used s
        | None => 0
        end).

Lemma live_mu v w : bs_live auths dest fd0 v w → 0 ≤ mu w ≤ 600 * zlen (net w) + 599.
Proof.
  intros [[_ (c & [Hs|Hr])]|[_ (c & Hu)]]; unfold mu.
  - destruct Hs as (s & m & msgs & p & _ & _ & Hse & _ & Hlen & Hmx & Hu & _ & _ & _ & Ha & _).
    apply after_send_state in Ha as [E _]. apply Z.eqb_neq in E. rewrite E, Hse, Hlen. case_match; lia.
  - destruct Hr as (s & m & n & k & _ & _ & Hse & Hi & _ & _ & _ & _ & _ & _ & _ & Ha & _).
    apply reading_state in Ha as [E _]. apply Z.eqb_neq in E. rewrite E, Hse, Hi. cbn. lia.
  - destruct Hu as (_ & _ & Hst & Hse & _). rewrite Hst, Hse. cbn. lia.
Qed.

Lemma done_with_net w x w' : done_with w x = Ret w' → net w' = net w.
Proof. unfold done_with. intros H. inv_binds. by destruct v; simplify_eq/=. Qed.

Lemma send_handler_done_sender o mem o' rep :
  send_handler_done o mem = Ret (o', rep) → send_sender o' = send_sender o.
Proof.
  unfold send_handler_done, receive_into, start_receive, do_receive, reserve_buffer, report_error. intros H.
  repeat (case_match; simplify_eq/=; inv_binds; simplify_eq/=); done.
Qed.

(** A write that completes in part leaves less to do. *)
Lemma con_done_sent_mu v w c n mem w' u :
  in_flight v w u → con_done w c (CSent n) mem = Ret w' → bs_live auths dest fd0 v w' → 0 < n → mu w' < mu w.
Proof.
  intros (_ & s & m & msgs & p & Hs & Hb & Hlen & Hmx & Hu & Hur & _ & _ & Ha & _) H Hlive Hn.
  apply after_send_state in Ha as [E E2]. apply Z.eqb_neq in E, E2.
  assert (Hmu : mu w = 600 * zlen (net w) + (zlen m - u)).
  { unfold mu. rewrite E, Hs, Hlen, Hu. case_match; bool_hyps; lia. }
  rewrite Hmu. unfold con_done in H. cbn [buffer set_con send_sender bs_state] in H. rewrite E2, Hb, Hs in H. inv_binds. cbn [get] in *. simplify_eq.
  unfold pss_output_handler_done, send_data in H. cbn [in_used in_len in_packet] in H.
  destruct (_ <? _) eqn:El; bool_hyps.
  - injection H as <-. unfold mu. cbn [cl net bs_state set_sender set_con send_sender].
    rewrite (proj2 (Z.eqb_neq _ _) E). cbn [in_len in_used]. case_match; bool_hyps; lia.
  - pose proof (done_with_net _ _ _ H) as Hnet. cbn [net] in Hnet. unfold done_with in H.
    apply bind_Ret_inv in H as ([o' rep] & Hx & [= <-]). apply send_handler_done_sender in Hx. cbn [send_sender set_sender] in Hx.
    destruct (live_mu _ _ Hlive) as [_ Hle]. unfold mu in *. cbn [cl net] in *. rewrite Hx in *. cbn [in_len Z.eqb Pos.eqb] in *.
    destruct (bs_state o' =? STATE_CONNECTING); lia.
Qed.

Lemma con_done_recv_net w c n mem w' :
  con_done w c (CReceived n) mem = Ret w' → net w' = drop (Z.to_nat n) (net w).
Proof.
  unfold con_done. destruct (_ =? STATE_UP); intros H; [by injection H as <-|]. inv_binds. by apply done_with_net in H.
Qed.

(** What a completed event must do: lead to a live client with less to do, or to
    a rejection. *)
Definition progress (v : verdict) (w w' : world) : Prop :=
  (bs_live auths dest fd0 v w' ∧ mu w' < mu w) ∨ (failed w' = true ∧ v = Rejected).

Lemma progress_intro v (clean : Prop) w w' :
  bs_post v clean w' → clean → (bs_live auths dest fd0 v w' → mu w' < mu w) → progress v w w'.
Proof.
  intros [H|(Hf & _ & _ & Hr)] Hc Hmu; [left; auto|right]. unfold failed. rewrite Hf. auto.
Qed.

Lemma connecting_drive v w :
  connecting v w → quiet w →
  ∃ w', bs_fire (if have_bfd (connector (cl w)) then EvConnFd (Some 0) true else EvConnJob true) (Some []) w = Ret w' ∧
        progress v w w'.
Proof.
  intros Hc Hrep. pose proof Hc as (_ & _ & Hst & _ & _ & _ & _ & _ & _ & _ & Hj & Hb & _).
  set (ev := if have_bfd _ then _ else _).
  destruct (connecting_fire v w ev (Some []) Hc Hrep) as (w' & Hf & Hp).
  { unfold ev. destruct (have_bfd (connector (cl w))) eqn:E; [done|]. split; [done|].
    rewrite Hj. by destruct (connected (connector (cl w))). }
  exists w'. split; [done|]. eapply progress_intro; [exact Hp| |].
  - unfold ev. by destruct (have_bfd _).
  - intros Hl. apply live_mu in Hl as [_ Hl]. unfold mu at 2. rewrite Hst. cbn [Z.eqb STATE_CONNECTING Pos.eqb].
    assert (net w' = net w) as Hn; [|rewrite Hn in Hl; lia].
    unfold ev in Hf. destruct (have_bfd _); cbn [bs_fire] in Hf;
      apply bind_Ret_inv in Hf as ([cn ie] & _ & Hf); by apply done_with_net in Hf.
Qed.

Lemma sending_flight v w s m msgs p :
  send_sender (cl w) = Some s → buffer (cl w) = Some m → in_len s = zlen m → zlen m < 600 → 0 ≤ in_used s < zlen m →
  recv_op (cl w) = None → after_send auths dest (bs_state (cl w)) p →
  sent w = msgs ++ take (Z.to_nat (in_used s)) m → proto_run p (net w) (msgs ++ m) = v → quiet w →
  in_flight v (World (set_sender (send_sender (cl w)) None (cl w)) (net w) (sent w) (report w) (user w)) (in_used s) ∧
  (send_op (cl w) = None → in_flight v w (in_used s)) ∧
  mu (World (set_sender (send_sender (cl w)) None (cl w)) (net w) (sent w) (report w) (user w)) = mu w.
Proof. intros. split; [|split; [|done]]; [|intros]; (split; [done|]); by exists s, m, msgs, p. Qed.

Lemma sending_drive v w c k ev :
  sending v w c → quiet w → 0 < k → next_event k w = Some ev →
  ∃ w', bs_fire ev (Some []) w = Ret w' ∧ progress v w w'.
Proof.
  intros Hs Hrep Hk Hn.
  pose proof Hs as (s & m & msgs & p & Hl & Hw & Hse & Hb & Hlen & Hmx & Hu & Hp & Hrs & Hro & Ha & Hsn & Hv).
  pose proof Hl as (_ & _ & Hc & Hsh & _). destruct (after_send_state _ _ Ha) as [Hn1 _].
  destruct (sending_flight v w s m msgs p) as (Hf1 & Hf2 & Hmu); [done..|].
  unfold next_event, failed in Hn. rewrite (proj1 Hrep), (proj2 (Z.eqb_neq _ _) Hn1), Hro, Hc in Hn.
  set (n := zlen m - in_used s) in *. set (j := Z.min k n).
  assert (Hj : 0 < j ≤ n) by (unfold j, n; lia).
  destruct Hp as [[Hop Hst]|(Hop & Hst & Hbusy)]; rewrite Hop in Hn.
  - injection Hn as <-. fold j.
    destruct (sending_fire v w c (EvSendJob true (SysDone j)) (Some []) Hs Hrep) as (w' & Hf & Hpost); [by exists (in_used s), n|].
    exists w'. split; [done|]. eapply progress_intro; [exact Hpost|by split; [|intros ? _; split]|]. intros Hlive.
    cbn [bs_fire] in Hf. rewrite Hc, Hop in Hf. cbn [get] in Hf. rewrite !bind_Ret in Hf.
    destruct (send_if_done c (in_used s) n j Hst Hj) as (c' & Hs'). rewrite Hs', bind_Ret in Hf.
    rewrite <- Hmu. eapply con_done_sent_mu; [exact Hf1|exact Hf|done|lia].
  - rewrite Hst, Hbusy in Hn. cbn in Hn. injection Hn as <-. fold j.
    pose proof Hsh as (Hreg & _). destruct Hw as (Hwb & Hws & Hwr). unfold send_waits in Hws. rewrite Hst in Hws.
    destruct (is_hupd c) eqn:Eh; [done|].
    destruct (sending_fire v w c (EvFd BREACTOR_WRITE true true (SysDone j) SysAgain) (Some []) Hs Hrep) as (w' & Hf & Hpost).
    { exists c. rewrite Hbusy. split_and!; try done. unfold fd_events_ok. rewrite Hreg.
      split_and!; try done. apply no_recv_job; [|lia]. unfold con_waits, send_waits. by rewrite Eh, Hst. }
    exists w'. split; [done|]. eapply progress_intro; [exact Hpost| |].
    { split; [done|]. split; [done|]. intros c1 [= <-]%(eq_trans (eq_sym Hc)). by rewrite Eh. }
    intros Hlive. cbn [bs_fire] in Hf. rewrite Hc in Hf. cbn [get] in Hf. rewrite bind_Ret in Hf.
    destruct (fd_write_done c j SysAgain) as (c' & Hs'); [done..|by rewrite Hbusy|]. rewrite Hs', bind_Ret in Hf.
    eapply con_done_sent_mu; [by apply Hf2|exact Hf|done|lia].
Qed.

(** A read that completes takes at least one byte of the answer. *)
Lemma received_progress v (clean : Prop) w w1 c j mem w' s :
  bs_post v clean w' → clean → con_done w1 c (CReceived j) mem = Ret w' → net w1 = net w →
  0 < j ≤ zlen (net w) → bs_state (cl w) ≠ STATE_CONNECTING → send_sender (cl w) = Some s → in_len s = -1 →
  progress v w w'.
Proof.
  intros Hpost Hc Hd Hnet Hj Hst Hs Hi. eapply progress_intro; [done..|]. intros Hl.
  apply live_mu in Hl as [_ Hl]. apply con_done_recv_net in Hd. rewrite Hd, Hnet, length_drop in Hl.
  unfold mu at 2. rewrite (proj2 (Z.eqb_neq _ _) Hst), Hs, Hi. cbn [Z.eqb Pos.eqb]. lia.
Qed.

Lemma receiving_drive v w c k ev :
  receiving v w c → quiet w → 0 < k → next_event k w = Some ev →
  ∃ w', bs_fire ev (Some []) w = Ret w' ∧ progress v w w'.
Proof.
  intros Hs Hrep Hk Hn.
  pose proof Hs as (s & m & n & kk & Hl & Hw & Hse & Hsi & Hb & Ht & Hlen & Hd & Hp & Hss & Hso & Ha & Hq & Hv).
  pose proof Hl as (_ & _ & Hc & Hsh & _). destruct (reading_state _ _ _ Ha) as [Hn1 _].
  unfold next_event, failed in Hn. rewrite (proj1 Hrep), (proj2 (Z.eqb_neq _ _) Hn1), Hso, Hc in Hn.
  set (d := recv_dest (cl w) + recv_len (cl w)) in *. set (q := recv_total (cl w) - recv_len (cl w)) in *.
  assert (Hq0 : 0 < q) by (unfold q; lia).
  destruct Hp as [[Hop Hst]|(Hop & Hst & Hbusy)]; rewrite Hop in Hn.
  - destruct (zlen (net w) =? 0) eqn:En; [done|]. apply Z.eqb_neq in En. injection Hn as <-.
    set (j := Z.min k (Z.min q (zlen (net w)))). assert (Hj : 0 < j ≤ q ∧ j ≤ zlen (net w)) by (unfold j; lia).
    destruct (receiving_fire v w c (EvRecvJob true (SysDone j)) (Some []) Hs Hrep) as (w' & Hf & Hpost).
    { exists d, q. split_and!; try done; cbn; lia. }
    exists w'. split; [done|]. cbn [bs_fire] in Hf. rewrite Hc, Hop in Hf. cbn [get] in Hf. rewrite !bind_Ret in Hf.
    destruct (recv_if_done c d q j Hst ltac:(lia)) as (c' & Hs'). rewrite Hs', bind_Ret in Hf.
    eapply received_progress; [exact Hpost| |exact Hf|done|lia|done..].
    split; [done|]. split; [intros [= E]; lia|done].
  - rewrite Hst, Hss, Hbusy in Hn. cbn [snd Z.eqb Pos.eqb SEND_STATE_BUSY RECV_STATE_BUSY andb] in Hn.
    destruct (zlen (net w) =? 0) eqn:En; [done|]. apply Z.eqb_neq in En. cbn [negb] in Hn. injection Hn as <-.
    set (j := Z.min k (Z.min q (zlen (net w)))). assert (Hj : 0 < j ≤ q ∧ j ≤ zlen (net w)) by (unfold j; lia).
    destruct (recv_job c) eqn:Ej.
    + destruct (receiving_fire v w c (EvConRecvJob true (SysDone j)) (Some []) Hs Hrep) as (w' & Hf & Hpost).
      { exists c. rewrite Hbusy. split_and!; try done; cbn; lia. }
      exists w'. split; [done|]. cbn [bs_fire] in Hf. rewrite Hc in Hf. cbn [get] in Hf. rewrite bind_Ret in Hf.
      destruct (recv_job_done c j Hst ltac:(rewrite Hbusy; cbn; lia)) as (c' & Hs'). rewrite Hs', bind_Ret in Hf.
      eapply received_progress; [exact Hpost| |exact Hf|done|lia|done..].
      split; [done|]. split; [intros [= E]; lia|done].
    + pose proof Hsh as (Hreg & _). pose proof Hw as (_ & _ & Hwr). unfold recv_waits in Hwr. rewrite Hst, Ej in Hwr.
      destruct (is_hupd c) eqn:Eh; [done|]. destruct Hwr as [Hwr _].
      destruct (receiving_fire v w c (EvFd BREACTOR_READ true true SysAgain (SysDone j)) (Some []) Hs Hrep) as (w' & Hf & Hpost).
      { exists c. rewrite Hbusy. unfold fd_events_ok. rewrite Hreg. split_and!; try done; cbn; lia. }
      exists w'. split; [done|]. cbn [bs_fire] in Hf. rewrite Hc in Hf. cbn [get] in Hf. rewrite bind_Ret in Hf.
      destruct (fd_read_done c j SysAgain) as (c' & Hs'); [done..|rewrite Hbusy; cbn; lia|]. rewrite Hs', bind_Ret in Hf.
      eapply received_progress; [exact Hpost| |exact Hf|done|lia|done..].
      split; [done|]. split; [intros [= E]; lia|]. intros c1 [= <-]%(eq_trans (eq_sym Hc)). by rewrite Eh.
Qed.

(** The state of a client with nothing left to do agrees with the verdict. *)
Definition bs_agrees (v : verdict) (w : world) : Prop :=
  match v with
  | Accepted rest msgs =>
      report w = Some BSOCKSCLIENT_EVENT_UP ∧ bs_state (cl w) = STATE_UP ∧ net w = rest ∧ sent w = msgs
  | Rejected => failed w = true
  | Waiting msgs =>
      report w = None ∧ bs_state (cl w) ≠ STATE_CONNECTING ∧ bs_state (cl w) ≠ STATE_UP ∧ net w = [] ∧ sent w = msgs
  end.

Lemma settled_agrees v w k : bs_inv v w → next_event k w = None → bs_agrees v w.
Proof.
  intros Hinv Hn. pose proof (bs_inv_not_failed _ _ Hinv) as Hnf. unfold next_event in Hn. rewrite Hnf in Hn.
  destruct Hinv as [[_ Hc]|[[[Hrep _] (c & [Hs|Hr])]|[[Hrep _] (c & Hu)]]].
  - destruct Hc as (_ & _ & E & _). by rewrite E in Hn.
  - destruct Hs as (s & m & msgs & p & (_ & _ & Hc & _) & _ & _ & _ & _ & _ & _ & Hp & _ & Hro & Ha & _).
    destruct (after_send_state _ _ Ha) as [E _]. rewrite (proj2 (Z.eqb_neq _ _) E), Hro, Hc in Hn.
    destruct Hp as [[Hop _]|(Hop & Hst & _)]; rewrite Hop in Hn; [done|]. by rewrite Hst in Hn.
  - destruct Hr as (s & m & n & kk & (_ & _ & Hc & _) & _ & _ & _ & _ & Ht & Hlen & Hd & Hp & Hss & Hso & Ha & _ & <-).
    destruct (reading_state _ _ _ Ha) as (E & E2 & Hd0). rewrite (proj2 (Z.eqb_neq _ _) E), Hso, Hc in Hn.
    assert (Hnet : net w = []).
    { destruct (net w); [done|]. destruct Hp as [[Hop _]|(Hop & Hst & _)]; rewrite Hop in Hn; [done|].
      by rewrite Hst, Hss in Hn. }
    rewrite Hnet, app_nil_r. cbn [proto_run]. rewrite (proj2 (Nat.leb_gt _ _)); [done|].
    rewrite length_take, length_drop. lia.
  - by destruct Hu as (_ & _ & Hst & _ & _ & _ & _ & _ & _ & ->).
Qed.

Lemma drive_agrees v ks w :
  bs_inv v w → Forall (λ k, 0 < k) ks → mu w < zlen ks → ∃ w', bs_drive ks w = Ret w' ∧ bs_agrees v w'.
Proof.
  revert w. induction ks as [|k ks IH]; intros w Hinv Hks Hmu.
  { exfalso. assert (0 ≤ mu w); [|cbn [length] in Hmu; lia]. destruct Hinv as [[_ Hc]|Hl]; [|apply live_mu in Hl; lia].
    destruct Hc as (_ & _ & E & _). unfold mu. rewrite E. cbn. lia. }
  inversion_clear Hks as [|? ? Hk Hks']. cbn [bs_drive].
  destruct (next_event k w) as [ev|] eqn:En; [|exists w; split; [done|by eapply settled_agrees]].
  assert (Hstep : ∃ w', bs_fire ev (Some []) w = Ret w' ∧ progress v w w').
  { pose proof (bs_inv_not_failed _ _ Hinv) as Hnf.
    destruct Hinv as [[Hrep Hc]|[[Hrep (c & [Hs|Hr])]|[Hrep (c & Hu)]]].
    - pose proof Hc as (_ & _ & E & _). unfold next_event in En. rewrite Hnf, E in En. injection En as <-.
      by apply connecting_drive.
    - by eapply sending_drive.
    - by eapply receiving_drive.
    - exfalso. destruct Hu as ((_ & _ & Hc & _) & _ & E & _ & _ & Hs & Hr & Hso & Hro & _).
      unfold next_event in En. by rewrite Hnf, E, Hso, Hro, Hc, Hs, Hr in En. }
  destruct Hstep as (w' & -> & [[Hl Hlt]|[Hf ->]]); rewrite bind_Ret.
  - apply IH; [by right|done|cbn [length] in Hmu; lia].
  - exists w'. split; [|done]. destruct ks; [done|]. cbn [bs_drive]. unfold next_event. by rewrite Hf.
Qed.
End Client.

(** ** From the start of the client *)
Lemma bs_init_inv auths dest e o l nt :
  BSocksClient_Init auths dest e = Ret (Some o, l) →
  0 ≤ socket_res e ∧
  bs_inv auths dest (socket_res e) (proto_run (bs_proto auths dest) nt []) (start_world o nt).
Proof.
  unfold BSocksClient_Init, BConnector_InitFrom. intros H. inv_binds.
  repeat case_match; simplify_eq/=; bool_hyps; (split; [lia|]); left; by split_and!.
Qed.

(** Along a run the client is in its handshake, in use, or failed and waiting to
    be freed. *)
Definition bs_alive auths dest fd0 (v : verdict) (w : world) : Prop :=
  bs_inv auths dest fd0 v w ∨ ∃ c, used auths dest fd0 v w c.

Lemma bs_alive_ok auths dest fd0 v w :
  0 ≤ fd0 → bs_alive auths dest fd0 v w → failed w = false ∧ freeable fd0 (cl w).
Proof.
  intros Hf [H|(c & Hu)]; [split; [by eapply bs_inv_not_failed|by eapply bs_inv_freeable]|].
  split; [|by eapply used_freeable]. destruct Hu as (Hrep & _). unfold failed. by rewrite Hrep.
Qed.

Lemma alive_up auths dest fd0 v w :
  bs_alive auths dest fd0 v w → bs_state (cl w) = STATE_UP → ∃ c, used auths dest fd0 v w c.
Proof.
  intros [Hinv|Hu] Hst; [|done].
  destruct Hinv as [[_ (_ & _ & E & _)]|[[_ (c & [Hs|Hr])]|[[H1 H2] (c & Hu)]]]; [by rewrite Hst in E|..|exists c; by apply up_used].
  - destruct Hs as (? & ? & ? & ? & _ & _ & _ & _ & _ & _ & _ & _ & _ & _ & E & _). by apply after_send_state in E as [_ ?].
  - destruct Hr as (? & ? & ? & ? & _ & _ & _ & _ & _ & _ & _ & _ & _ & _ & _ & E & _). by apply reading_state in E as (_ & ? & _).
Qed.

Lemma bs_alive_fire auths dest fd0 v w ev mem :
  dest_ok dest → 0 ≤ fd0 → bs_alive auths dest fd0 v w → bs_allowed ev w →
  ∃ w', bs_fire ev mem w = Ret w' ∧
    (bs_alive auths dest fd0 v w' ∨ (report w' = Some (error_code (cl w')) ∧ freeable fd0 (cl w'))).
Proof.
  intros Hd Hf Hinv Ha.
  assert (Hc : (∃ c, used auths dest fd0 v w c) ∨ (bs_inv auths dest fd0 v w ∧ user_event ev = false)).
  { destruct Hinv as [Hinv|Hu]; [|by left]. destruct (user_event ev) eqn:Eu; [left|by right].
    apply alive_up; [by left|]. destruct ev; try done; by destruct Ha. }
  destruct Hc as [(c & Hu)|[Hi Hue]].
  - destruct (used_fire _ _ _ v w c ev mem Hu Ha) as (w' & E & [H|H]); exists w'; (split; [done|]); [by left; right|by right].
  - destruct (bs_fire_ok _ _ _ Hd Hf v w ev mem Hi Ha Hue) as (w' & E & [H|(H1 & H2 & H3 & _)]); exists w';
      (split; [done|]); [by left; left; right|right]. split; [|done]. rewrite H1. unfold error_code.
    apply Z.eqb_neq in H2. rewrite H2. by destruct (con (cl w')).
Qed.

Lemma bs_reach_alive auths dest fd0 v w0 w :
  dest_ok dest → 0 ≤ fd0 → bs_inv auths dest fd0 v w0 → bs_reach w0 w →
  bs_alive auths dest fd0 v w ∨ (report w = Some (error_code (cl w)) ∧ freeable fd0 (cl w)).
Proof.
  intros Hd Hf H0. induction 1 as [|w ev mem w' _ IH Hnf Ha Hfire]; [by left; left|].
  destruct IH as [IH|[IH _]].
  - destruct (bs_alive_fire _ _ _ _ _ ev mem Hd Hf IH Ha) as (w1 & E & H). rewrite E in Hfire. by injection Hfire as <-.
  - exfalso. unfold failed, error_code in *. rewrite IH in Hnf. by repeat case_match.
Qed.


(** C9: the handshake of the client refines its process: after any run of the
    handshake without failures, however its messages and the proxy's answer are cut, letting the
    reads and writes in progress complete brings the client up exactly when the
    answer is an acceptance, with the bytes that follow it unread, reports an
    error exactly when it is a refusal or malformed, and otherwise leaves it
    waiting; the messages sent are those of the process. *)
Theorem bsocks_handshake_refines auths dest e o l nt w ks :
  dest_ok dest → BSocksClient_Init auths dest e = Ret (Some o, l) →
  bs_clean_reach (start_world o nt) w → Forall (λ k, 0 < k) ks → mu w < zlen ks →
  ∃ w', bs_drive ks w = Ret w' ∧ bs_agrees (proto_run (bs_proto auths dest) nt []) w'.
Proof.
  intros Hd Hi Hr Hks Hmu. apply (bs_init_inv _ _ _ _ _ nt) in Hi as [Hf H0].
  assert (H : bs_inv auths dest (socket_res e) (proto_run (bs_proto auths dest) nt []) w ∨
              failed w = true ∧ proto_run (bs_proto auths dest) nt [] = Rejected).
  { clear Hmu. induction Hr as [|w ev mem w' _ IH Hnf Ha Hc Hfire]; [by left|].
    destruct IH as [IH|[IH _]]; [|congruence].
    assert (Hue : user_event ev = false) by (destruct ev; try done; by destruct Hc).
    destruct (bs_fire_ok _ _ _ Hd Hf _ _ ev mem IH Ha Hue) as (w1 & E & [Hl|(Hfl & _ & _ & Hrej)]);
      rewrite E in Hfire; injection Hfire as <-; [by left; right|right]. unfold failed. rewrite Hfl. auto. }
  destruct H as [H|[Hfl ->]]; [by eapply drive_agrees|].
  exists w. split; [|done]. destruct ks; [done|]. cbn [bs_drive]. unfold next_event. by rewrite Hfl.
Qed.

Definition demo_auths : list BSocksClient_auth_info := [AuthNone; AuthPassword [117] [112; 119]].
Definition demo_dest : BAddr := BAddrIPv4 [10; 0; 0; 1] [0; 80].
Definition demo_env : connect_env := ConnectEnv true 9 true ConnectInProgress true.
Definition demo_net : list Z := [5; 2; 1; 0; 5; 0; 0; 1; 1; 2; 3; 4; 0; 9; 42].
Definition demo_client : BSocksClient :=
  BSC demo_auths demo_dest STATE_CONNECTING None (Connector 9 false true false) None None 0 0 0 None None [].
Definition demo_w0 : world := start_world demo_client demo_net.
Definition demo_w1 : world :=
  Eval vm_compute in match bs_fire (EvConnFd (Some 0) true) (Some [1; 2; 3]) demo_w0 with Ret w => w | _ => demo_w0 end.
Definition demo_w2 : world :=
  Eval vm_compute in match bs_fire (EvSendJob true (SysDone 3)) None demo_w1 with Ret w => w | _ => demo_w1 end.

(** The user of the client sends two bytes and receives while the proxy closes. *)
Definition demo_events : list (bs_event * option (list Z)) :=
  let mem := Some [1; 2; 3] in
  [(EvConnFd (Some 0) true, mem); (EvSendJob true (SysDone 4), mem); (EvRecvJob true (SysDone 2), mem);
   (EvSendJob true (SysDone 6), mem); (EvRecvJob true (SysDone 2), mem); (EvSendJob true (SysDone 10), mem);
   (EvRecvJob true (SysDone 4), mem); (EvRecvJob true (SysDone 6), mem);
   (EvUserRecv 16, None); (EvUserSend [7; 8], None); (EvRecvJob true (SysDone 1), None);
   (EvSendJob true SysAgain, None); (EvUserRecv 16, None); (EvRecvJob false SysAgain, None);
   (EvFd 3 true true (SysDone 2) SysAgain, None); (EvConRecvJob true (SysDone 0), None)].
Fixpoint run_events (l : list (bs_event * option (list Z))) (w : world) : outcome world :=
  match l with
  | [] => Ret w
  | (ev, mem) :: l' => w ← bs_fire ev mem w; run_events l' w
  end.
Fixpoint allowed_events (l : list (bs_event * option (list Z))) (w : world) : Prop :=
  match l with
  | [] => True
  | (ev, mem) :: l' =>
      failed w = false ∧ bs_allowed ev w ∧ match bs_fire ev mem w with Ret w' => allowed_events l' w' | _ => False end
  end.
Lemma run_events_reach w0 l w w' :
  bs_reach w0 w → allowed_events l w → run_events l w = Ret w' → bs_reach w0 w'.
Proof.
  revert w. induction l as [|[ev mem] l IH]; cbn [run_events allowed_events]; intros w Hw Ha Hr; [congruence|].
  destruct Ha as (Hf & Ha & Hl). destruct (bs_fire ev mem w) as [w1| |] eqn:E; try done. rewrite bind_Ret in Hr.
  eapply IH; [by eapply BsStep|done..].
Qed.
Ltac allow_event :=
  first [by vm_compute | repeat eexists; by vm_compute | by split_and!; first [by vm_compute|intros ? [= <-]]].
Ltac allow_events :=
  repeat (cbn [allowed_events]; split; [reflexivity|]; split; [allow_event|];
    match goal with |- match ?x with _ => _ end => let y := eval vm_compute in x in change x with y end); done.
Definition demo_used : world :=
  Eval vm_compute in match run_events (take 15 demo_events) demo_w0 with Ret w => w | _ => demo_w0 end.
Definition demo_closed : world :=
  Eval vm_compute in match run_events demo_events demo_w0 with Ret w => w | _ => demo_w0 end.
Lemma demo_used_reach : bs_reach demo_w0 demo_used.
Proof.
  apply (run_events_reach demo_w0 (take 15 demo_events) demo_w0); [apply BsStart| |vm_compute; reflexivity].
  unfold demo_events. cbn [take]. allow_events.
Qed.
Lemma demo_closed_reach : bs_reach demo_w0 demo_closed.
Proof.
  apply (run_events_reach demo_w0 demo_events demo_w0); [apply BsStart| |vm_compute; reflexivity].
  unfold demo_events. allow_events.
Qed.


Lemma bsocks_handshake_refines_witness :
  ∃ w', bs_drive (repeat 3 (100 * 100)) demo_w2 = Ret w' ∧
    bs_agrees (Accepted [42] [5; 2; 0; 2; 1; 1; 117; 2; 112; 119; 5; 1; 0; 1; 10; 0; 0; 1; 0; 80]) w'.
Proof.
  apply (bsocks_handshake_refines demo_auths demo_dest demo_env demo_client [] demo_net demo_w2 (repeat 3 (100 * 100))).
  - done.
  - reflexivity.
  - apply (BsCleanStep demo_w0 demo_w1 (EvSendJob true (SysDone 3)) (Some [])); [|done|by exists 0, 4|done|reflexivity].
    apply (BsCleanStep demo_w0 demo_w0 (EvConnFd (Some 0) true) (Some [1; 2; 3])); [apply BsCleanStart|done|done|done|reflexivity].
  - apply Forall_forall. intros x Hx. apply repeat_spec in Hx. lia.
  - rewrite repeat_length. vm_compute. reflexivity.
Defined.
