(* ===== verification/SocksAgree.v ===== *)
(** * The two SOCKS5 clients decide alike

    redsocks and tun2socks each have a SOCKS5 client.  Given the same
    credentials, destination and proxy answer, both accept, both reject or both
    wait, having sent the same messages, with two exceptions: a bound address
    given as a domain name, which redsocks skips and tun2socks refuses, and an
    empty login or password, which redsocks sends when the proxy asks for it and
    tun2socks refuses to send. *)
From S2P Require Import Prelude Proto Redsocks Handshake Socks5 PacketProto BConnection BadvpnMisc BSocksClient.

(** The authentication methods tun2socks offers for the same credentials. *)
Definition auths_of (creds : option (list Z * list Z)) : list BSocksClient_auth_info :=
  match creds with
  | None => [BSocksClient_auth_none]
  | Some (l, w) => [BSocksClient_auth_none; BSocksClient_auth_password l w]
  end.

(** The answer's reply carries a domain name. *)
Definition domain_reply (net : list Z) : Prop :=
  ∃ pre rsv rest, net = pre ++ [5; 0; rsv; 3] ++ rest ∧ (pre = [5; 0] ∨ pre = [5; 2; 1; 0]).

(** The proxy asks for a login of which a part is empty. *)
Definition empty_login (creds : option (list Z * list Z)) (net : list Z) : Prop :=
  ∃ u p rest, creds = Some (u, p) ∧ (u = [] ∨ p = []) ∧ net = [5; 2] ++ rest.

Section Agree.
Context (dest : list Z * list Z).
Abbreviation baddr := (BAddrIPv4 (fst dest) (snd dest)).

Lemma reply_agrees s msgs pre :
  pre = [5; 0] ∨ pre = [5; 2; 1; 0] →
  proto_run (PRead 4 bs_reply_cont) s msgs = proto_run spec_reply s msgs ∨
  proto_run (PRead 4 bs_reply_cont) s msgs = Rejected ∧ domain_reply (pre ++ s).
Proof.
  intros Hpre. destruct s as [|a [|b [|c [|d s]]]]; try (by left).
  unfold spec_reply. cbn -[spec_address spec_domain bs_address proto_run]. cbn [proto_run length Nat.leb take drop].
  cbn [bs_reply_cont reply_cont].
  destruct (a =? 5) eqn:Ea; cbn [negb orb]; [|by left].
  destruct (b =? 0) eqn:Eb; cbn [negb orb]; [|by left].
  destruct (d =? 1) eqn:E1; [by left|]. destruct (d =? 4) eqn:E4; [by left|].
  destruct (d =? 3) eqn:E3; [|by left]. right. split; [done|]. bool_hyps. subst. by exists pre, c, s.
Qed.

Lemma login_agrees s msgs :
  proto_run (PRead 2 (bs_login_cont baddr)) s msgs = proto_run (spec_auth_reply dest) s msgs ∨
  proto_run (PRead 2 (bs_login_cont baddr)) s msgs = Rejected ∧ domain_reply ([5; 2] ++ s).
Proof.
  destruct s as [|a [|b s]]; try (by left). unfold spec_auth_reply. cbn [proto_run length Nat.leb take drop].
  cbn [bs_login_cont auth_cont].
  destruct (a =? 1) eqn:Ea; cbn [negb andb]; [|by left]. destruct (b =? 0) eqn:Eb; cbn [negb andb]; [|by left].
  bool_hyps. subst. apply (reply_agrees s (msgs ++ spec_connect dest) [5; 2; 1; 0]). by right.
Qed.

Lemma login_ok_empty u p : zlen u ≤ 255 → zlen p ≤ 255 → login_ok u p = false → u = [] ∨ p = [].
Proof.
  intros Hu Hp H. unfold login_ok in H. destruct u as [|x u]; [by left|]. destruct p as [|y p]; [by right|].
  exfalso. apply negb_false_iff in H. bool_hyps. cbn [length] in *. lia.
Qed.

Lemma verdicts_agree creds net :
  (∀ l w, creds = Some (l, w) → zlen l ≤ 255 ∧ zlen w ≤ 255) →
  proto_run (bs_proto (auths_of creds) baddr) net [] = proto_run (socks5_proto creds dest) net [] ∨
  proto_run (bs_proto (auths_of creds) baddr) net [] = Rejected ∧ (domain_reply net ∨ empty_login creds net).
Proof.
  intros Hok.
  assert (Hb : bs_proto (auths_of creds) baddr
    = PSend (spec_methods creds) (PRead 2 (bs_hello_cont (auths_of creds) baddr))) by (by destruct creds as [[l w]|]).
  rewrite Hb. unfold socks5_proto, spec_method_reply. cbn [proto_run app].
  destruct net as [|a [|b net]]; try (by left). cbn [length Nat.leb take drop bs_hello_cont method_cont].
  destruct (a =? 5) eqn:Ea; cbn [negb]; [|by left]. apply Z.eqb_eq in Ea as ->.
  assert (Hf : find (λ x, auth_type x =? b) (auths_of creds)
    = if b =? 0 then Some AuthNone
      else match creds with Some (l, w) => if b =? 2 then Some (AuthPassword l w) else None | None => None end).
  { rewrite (Z.eqb_sym b 0), (Z.eqb_sym b 2). destruct creds as [[l w]|]; cbn; by repeat case_match. }
  rewrite Hf. destruct (b =? 0) eqn:E0.
  { apply Z.eqb_eq in E0 as ->.
    destruct (reply_agrees net (spec_methods creds ++ spec_connect dest) [5; 0]) as [H|[H ?]]; [by left|by left|right; auto]. }
  destruct creds as [[l w]|]; [|by left]. destruct (b =? 2) eqn:E2; [|by left]. apply Z.eqb_eq in E2 as ->.
  destruct (login_ok l w) eqn:El.
  - destruct (login_agrees net (spec_methods (Some (l, w)) ++ bs_login l w)) as [H|[H ?]]; [by left|right; auto].
  - right. split; [done|]. right. destruct (Hok l w eq_refl). exists l, w, net. split_and!; [done|by apply login_ok_empty|done].
Qed.
End Agree.

(** Both clients accepted, rejected or wait, with the same bytes left and sent. *)
Definition same_decision (r : hres socks5_client) (rest : list Z) (w : world) : Prop :=
  match r with
  | Dropped _ => failed w = true
  | Alive c =>
      net w = rest ∧ (∃ b, Redsocks.relay c = Some b ∧ sent w = to_relay (io c) ++ bev_output b) ∧
      if state c =? pump_active then report w = Some BSOCKSCLIENT_EVENT_UP
      else report w = None ∧ bs_state (cl w) ≠ STATE_UP
  end.

Lemma decisions_agree cfd rfd full cfg v r rest w :
  hs_agrees cfd rfd full cfg v r rest → bs_agrees v w → same_decision r rest w.
Proof.
  destruct v as [rs ms| |ms]; unfold hs_agrees; cbn [hs_agrees_in bs_agrees].
  - intros (-> & c & b & bc & -> & Hst & Hr & _ & Hm & _) (Hrep & _ & Hn & Hs). cbn. rewrite Hst.
    split_and!; [done|by exists b; rewrite Hm|done].
  - intros (l & ->) Hf. done.
  - intros (-> & c & b & bc & -> & Hst & Hr & Hm & _) (Hrep & _ & Hup & Hn & Hs). cbn.
    rewrite (proj2 (Z.eqb_neq _ _) Hst). split_and!; [done|by exists b; rewrite Hm|done|done].
Qed.

(** C11: for the same credentials, destination and proxy answer, in any cutting
    and order of events, the SOCKS5 clients of redsocks and of tun2socks take
    the same decision, leave the same bytes unread and have sent the same
    messages, but for two cases, in which tun2socks fails: the reply names its
    bound address by a domain, or the proxy asks for the login and the login or
    the password is empty. *)
Theorem socks_clients_agree cfg e cfd rfd dest nt evs ce o l ks :
  connected_ok e = true → Forall is_byte nt → Forall (hs_ok cfg) evs → (length nt ≤ reads evs)%nat →
  length (fst dest) = 4%nat → length (snd dest) = 2%nat →
  BSocksClient_Init (auths_of (spec_creds cfg)) (BAddrIPv4 (fst dest) (snd dest)) ce = Ret (Some o, l) →
  Forall (λ k, 0 < k) ks → mu (start_world o nt) < zlen ks →
  ∃ c r rest w,
    hs_start socks5_subsys e (socks5_instance_init cfg) (Socks5 0 0) cfd rfd dest = Ret (Alive c) ∧
    hs_run socks5_subsys evs c nt = Ret (r, rest) ∧ bs_drive ks (start_world o nt) = Ret w ∧
    (same_decision r rest w ∨ failed w = true ∧ (domain_reply nt ∨ empty_login (spec_creds cfg) nt)).
Proof.
  intros He Hby Hok Hn Hd1 Hd2 Hi Hks Hmu.
  destruct (socks5_start cfg e cfd rfd dest nt He Hby) as (c & Hc & Hinv).
  destruct (hs_run_refines socks5_subsys (sim5 (spec_creds cfg) dest) cfd rfd nt _ _ evs c nt Hinv)
    as (r & rest & Hrun & Hag); [|done|].
  { eapply Forall_impl; [|exact Hok]. intros x [H1 H2]. split; [|done].
    intros H. apply H1. by rewrite <- (proj2 (instance_init_creds cfg)). }
  apply (bs_init_inv _ _ _ _ _ nt) in Hi as [Hf H0].
  destruct (drive_agrees _ (BAddrIPv4 (fst dest) (snd dest)) _ (conj Hd1 Hd2) Hf _ ks _ H0 Hks Hmu) as (w & Hw & Hwa).
  exists c, r, rest, w. split_and!; [done..|].
  destruct (verdicts_agree dest (spec_creds cfg) nt (spec_creds_bound cfg)) as [E|[E Hdom]]; rewrite E in Hwa.
  - left. by eapply decisions_agree.
  - by right.
Qed.

Lemma socks_clients_agree_witness :
  ∃ c r rest w,
    hs_start socks5_subsys witness_env (socks5_instance_init (Config (Some [117]) (Some [112; 119]) true))
      (Socks5 0 0) 3 4 ([10; 0; 0; 1], [0; 80]) = Ret (Alive c) ∧
    hs_run socks5_subsys witness_events c demo_net = Ret (r, rest) ∧
    bs_drive (repeat 3 (100 * 100)) demo_w0 = Ret w ∧
    (same_decision r rest w ∨ failed w = true ∧ (domain_reply demo_net ∨ empty_login (Some ([117], [112; 119])) demo_net)).
Proof.
  apply (socks_clients_agree (Config (Some [117]) (Some [112; 119]) true) witness_env 3 4
    ([10; 0; 0; 1], [0; 80]) demo_net witness_events demo_env demo_client [] (repeat 3 (100 * 100))).
  - reflexivity.
  - by repeat (constructor; [unfold is_byte; lia|]).
  - by repeat (constructor; [split; [apply witness_env_ok|done]|]).
  - simpl. lia.
  - reflexivity.
  - reflexivity.
  - reflexivity.
  - apply Forall_forall. intros x Hx. apply repeat_spec in Hx. lia.
  - rewrite repeat_length. vm_compute. reflexivity.
Defined.
