(* ===== verification/TcpClient.v ===== *)
(** * tun2socks: one TCP connection between lwIP and the SOCKS client

    Models the [client_*] functions of tun2socks/tun2socks.c.  A [tcp_client]
    joins a TCP control block of lwIP and a SOCKS client: bytes from the
    application wait in [buf] until they are sent to SOCKS, bytes from SOCKS
    are in [socks_recv_buf] until lwIP has taken them.  Either end may close
    first; the other is then kept until the buffered bytes are through.

    The world holds the client structure ([None] once it is freed), what the
    code can see of the control block and of the SOCKS client, and the variable
    of the running lwIP callback that [dead_aborted] points to.  Using the
    structure after it was freed, the control block or the SOCKS client after
    they were closed, a pointer to the variable of a callback that returned,
    memory outside an object, and failing an [ASSERT] are all [Fault].  What
    lwIP answers ([lwip]) and which events come are arguments. *)
From S2P Require Import Prelude.
#[local] Set Warnings "-clear-no-such-hyp".

Definition TCP_WND : Z := 4 * 1460.
Definition CLIENT_SOCKS_RECV_BUF_SIZE : Z := 8192.
Definition ERR_OK : Z := 0.
Definition ERR_MEM : Z := -1.
Definition ERR_ABRT : Z := -13.
Definition SOCKS_EVENT_ERROR : Z := 1.
Definition SOCKS_EVENT_UP : Z := 2.
Definition SOCKS_EVENT_ERROR_CLOSED : Z := 3.

Definition check (b : bool) : outcome unit := if b then Ret tt else Fault.

(** ** State *)

(** [dead_aborted]: null, the variable of the running callback, or the variable
    of a callback that has returned. *)
Inductive dead_t := DeadNull | DeadFrame | DeadDangling.

Record tcp_client := Client {
  aborted : bool; dead_aborted : dead_t; client_closed : bool;
  buf : list Z; buf_used : Z; socks_up : bool; socks_closed : bool;
  socks_recv_buf : list Z; socks_recv_buf_used : Z; socks_recv_buf_sent : Z;
  socks_recv_waiting : bool; socks_recv_tcp_pending : Z }.

(** A control block: what became of it, which callbacks are set, the window it
    announces, the bytes written and not yet acknowledged. *)
Inductive pcb_status := PcbOpen | PcbClosed | PcbAborted | PcbFreed.
Record tcp_pcb := Pcb {
  status : pcb_status; errf : bool; recvf : bool; sentf : bool; rcv_wnd : Z; unacked : Z }.

(** A SOCKS client: is it there, its state, the operations in progress. *)
Inductive socks_phase := SocksConnecting | SocksUp | SocksEnded.
Record socks_client := Socks { live : bool; phase : socks_phase; sending : option Z; receiving : bool }.

(** Bytes that passed, and what happened to the resources. *)
Record tlog := Log {
  from_tcp : list Z; to_socks : list Z; from_socks : list Z; to_tcp : list Z;
  aborts : Z; closes : Z; socks_frees : Z; frees : Z }.

Record world := World {
  client : option tcp_client; pcb : tcp_pcb; socks : socks_client;
  num_clients : Z; frame : option Z; log : tlog }.

(** What lwIP answers during one call: does tcp_close work, the send buffer and
    result for each tcp_write, the result of tcp_output. *)
Record lwip := Lwip { close_ok : bool; writes : list (Z * Z); output_res : Z }.

Definition set_client (c : option tcp_client) (w : world) : world :=
  World c (pcb w) (socks w) (num_clients w) (frame w) (log w).
Definition set_pcb (p : tcp_pcb) (w : world) : world :=
  World (client w) p (socks w) (num_clients w) (frame w) (log w).
Definition set_socks (s : socks_client) (w : world) : world :=
  World (client w) (pcb w) s (num_clients w) (frame w) (log w).
Definition set_frame (f : option Z) (w : world) : world :=
  World (client w) (pcb w) (socks w) (num_clients w) f (log w).
Definition set_num_clients (n : Z) (w : world) : world :=
  World (client w) (pcb w) (socks w) n (frame w) (log w).
Definition set_log (l : tlog) (w : world) : world :=
  World (client w) (pcb w) (socks w) (num_clients w) (frame w) l.

(** Reading the structure, if it was not freed. *)
Definition deref (w : world) : outcome tcp_client := match client w with Some c => Ret c | None => Fault end.
Definition store (c : tcp_client) (w : world) : outcome world := _ ← deref w; Ret (set_client (Some c) w).

Definition set_closed (c : tcp_client) : tcp_client :=
  Client (aborted c) (dead_aborted c) true (buf c) (buf_used c) (socks_up c) (socks_closed c) (socks_recv_buf c)
    (socks_recv_buf_used c) (socks_recv_buf_sent c) (socks_recv_waiting c) (socks_recv_tcp_pending c).
Definition set_aborted (c : tcp_client) : tcp_client :=
  Client true (dead_aborted c) (client_closed c) (buf c) (buf_used c) (socks_up c) (socks_closed c) (socks_recv_buf c)
    (socks_recv_buf_used c) (socks_recv_buf_sent c) (socks_recv_waiting c) (socks_recv_tcp_pending c).
Definition set_dead (d : dead_t) (c : tcp_client) : tcp_client :=
  Client (aborted c) d (client_closed c) (buf c) (buf_used c) (socks_up c) (socks_closed c) (socks_recv_buf c)
    (socks_recv_buf_used c) (socks_recv_buf_sent c) (socks_recv_waiting c) (socks_recv_tcp_pending c).
Definition set_socks_closed (c : tcp_client) : tcp_client :=
  Client (aborted c) (dead_aborted c) (client_closed c) (buf c) (buf_used c) (socks_up c) true (socks_recv_buf c)
    (socks_recv_buf_used c) (socks_recv_buf_sent c) (socks_recv_waiting c) (socks_recv_tcp_pending c).
Definition set_socks_up (c : tcp_client) : tcp_client :=
  Client (aborted c) (dead_aborted c) (client_closed c) (buf c) (buf_used c) true (socks_closed c) (socks_recv_buf c)
    (socks_recv_buf_used c) (socks_recv_buf_sent c) (socks_recv_waiting c) (socks_recv_tcp_pending c).
Definition set_buf (b : list Z) (n : Z) (c : tcp_client) : tcp_client :=
  Client (aborted c) (dead_aborted c) (client_closed c) b n (socks_up c) (socks_closed c) (socks_recv_buf c)
    (socks_recv_buf_used c) (socks_recv_buf_sent c) (socks_recv_waiting c) (socks_recv_tcp_pending c).
Definition set_recv (b : list Z) (used sent : Z) (waiting : bool) (pending : Z) (c : tcp_client) : tcp_client :=
  Client (aborted c) (dead_aborted c) (client_closed c) (buf c) (buf_used c) (socks_up c) (socks_closed c) b
    used sent waiting pending.

(** ** lwIP and SOCKS operations the code calls *)
Definition is_open (p : tcp_pcb) : bool := match status p with PcbOpen => true | _ => false end.

(** tcp_err, tcp_recv and tcp_sent with NULL, or set. *)
Definition tcp_callbacks (e r s : bool) (w : world) : outcome world :=
  _ ← check (is_open (pcb w));
  Ret (set_pcb (Pcb (status (pcb w)) e r s (rcv_wnd (pcb w)) (unacked (pcb w))) w).

Definition tcp_end (st : pcb_status) (w : world) : world :=
  let l := log w in
  set_log (Log (from_tcp l) (to_socks l) (from_socks l) (to_tcp l)
             (aborts l + match st with PcbAborted => 1 | _ => 0 end)
             (closes l + match st with PcbAborted => 0 | _ => 1 end) (socks_frees l) (frees l))
    (set_pcb (Pcb st false false false (rcv_wnd (pcb w)) (unacked (pcb w))) w).

Definition tcp_close (lw : lwip) (w : world) : outcome (world * bool) :=
  _ ← check (is_open (pcb w));
  Ret (if close_ok lw then (tcp_end PcbClosed w, true) else (w, false)).

Definition tcp_abort (w : world) : outcome world :=
  _ ← check (is_open (pcb w)); Ret (tcp_end PcbAborted w).

Definition tcp_recved (n : Z) (w : world) : outcome world :=
  _ ← check (is_open (pcb w));
  let p := pcb w in Ret (set_pcb (Pcb (status p) (errf p) (recvf p) (sentf p) (rcv_wnd p + n) (unacked p)) w).

Definition socks_client_free (w : world) : outcome world :=
  _ ← check (live (socks w)); let l := log w in
  Ret (set_log (Log (from_tcp l) (to_socks l) (from_socks l) (to_tcp l) (aborts l) (closes l) (socks_frees l + 1) (frees l))
         (set_socks (Socks false SocksEnded None false) w)).

(** StreamPassInterface_Sender_Send and StreamRecvInterface_Receiver_Recv. *)
Definition Sender_Send (len : Z) (w : world) : outcome world :=
  let s := socks w in
  _ ← check (live s && (0 <? len) && match sending s with None => true | _ => false end);
  Ret (set_socks (Socks (live s) (phase s) (Some len) (receiving s)) w).
Definition Receiver_Recv (w : world) : outcome world :=
  let s := socks w in
  _ ← check (live s && negb (receiving s));
  Ret (set_socks (Socks (live s) (phase s) (sending s) true) w).

(** ** DEAD_ENTER, DEAD_KILL_WITH, DEAD_LEAVE2

    The previous pointer must be null, or DEAD_LEAVE2 would write through it:
    callbacks do not nest. *)
Definition DEAD_ENTER (w : world) : outcome world :=
  c ← deref w;
  _ ← check (match dead_aborted c, frame w with DeadNull, None => true | _, _ => false end);
  store (set_dead DeadFrame c) (set_frame (Some 0) w).

Definition DEAD_KILL_WITH (v : Z) (w : world) : outcome world :=
  c ← deref w;
  match dead_aborted c with
  | DeadNull => Ret w
  | DeadFrame => _ ← check (match frame w with Some _ => true | None => false end); Ret (set_frame (Some v) w)
  | DeadDangling => Fault
  end.

(** Returns [DEAD_KILLED]; the variable is gone afterwards. *)
Definition DEAD_LEAVE2 (w : world) : outcome (world * Z) :=
  match frame w with
  | None => Fault
  | Some v =>
      let w := set_frame None w in
      if v =? 0 then c ← deref w; w ← store (set_dead DeadNull c) w; Ret (w, v)
      else match client w with
           | None => Ret (w, v)
           | Some c => w ← store (set_dead DeadDangling c) w; Ret (w, v)
           end
  end.

(** ** Closing *)
Definition client_dealloc (w : world) : outcome world :=
  c ← deref w;
  _ ← check (client_closed c && socks_closed c);
  _ ← check (0 <? num_clients w);
  let w := set_num_clients (num_clients w - 1) w in
  w ← (if negb (aborted c) then DEAD_KILL_WITH (-1) w else Ret w);
  let l := log w in
  Ret (set_log (Log (from_tcp l) (to_socks l) (from_socks l) (to_tcp l) (aborts l) (closes l) (socks_frees l) (frees l + 1))
         (set_client None w)).

Definition client_abort_pcb (w : world) : outcome world :=
  c ← deref w; _ ← check (negb (aborted c));
  w ← tcp_abort w; w ← store (set_aborted c) w;
  DEAD_KILL_WITH 1 w.

(** These three call each other; [n] bounds the depth of the calls, and
    [close_depth] is enough. *)
Fixpoint client_handle_freed_client (n : nat) (lw : lwip) (w : world) : outcome world :=
  match n with
  | O => Fault
  | S n =>
      c ← deref w; _ ← check (negb (client_closed c));
      w ← store (set_closed c) w;
      if (0 <? buf_used c) && negb (socks_closed c) then Ret w
      else if negb (socks_closed c) then client_free_socks n lw w else client_dealloc w
  end
with client_free_socks (n : nat) (lw : lwip) (w : world) : outcome world :=
  match n with
  | O => Fault
  | S n =>
      c ← deref w; _ ← check (negb (socks_closed c));
      w ← (if socks_up c && negb (client_closed c)
           then tcp_callbacks (errf (pcb w)) false (sentf (pcb w)) w else Ret w);
      w ← socks_client_free w; w ← store (set_socks_closed c) w;
      if socks_up c && ((0 <=? socks_recv_buf_used c) || (0 <? socks_recv_tcp_pending c)) && negb (client_closed c)
      then Ret w
      else if negb (client_closed c) then client_free_client n lw w else client_dealloc w
  end
with client_free_client (n : nat) (lw : lwip) (w : world) : outcome world :=
  match n with
  | O => Fault
  | S n =>
      c ← deref w; _ ← check (negb (client_closed c));
      w ← tcp_callbacks false false false w;
      '(w, ok) ← tcp_close lw w;
      w ← (if (ok : bool) then Ret w else client_abort_pcb w);
      client_handle_freed_client n lw w
  end.
Definition close_depth : nat := 4.

Definition client_abort_client (lw : lwip) (w : world) : outcome world :=
  c ← deref w; _ ← check (negb (client_closed c));
  w ← tcp_callbacks false false false w; w ← client_abort_pcb w;
  client_handle_freed_client close_depth lw w.

Definition client_murder (w : world) : outcome world :=
  c ← deref w;
  w ← (if negb (client_closed c) then
         w ← tcp_callbacks false false false w; w ← client_abort_pcb w;
         c ← deref w; store (set_closed c) w
       else Ret w);
  c ← deref w;
  w ← (if negb (socks_closed c) then
         w ← socks_client_free w; c ← deref w; store (set_socks_closed c) w
       else Ret w);
  client_dealloc w.

(** ** From the application to SOCKS *)
Definition client_send_to_socks (w : world) : outcome world :=
  c ← deref w; _ ← check (negb (socks_closed c) && socks_up c && (0 <? buf_used c));
  Sender_Send (buf_used c) w.

Definition client_socks_send_handler_done (data_len : Z) (lw : lwip) (w : world) : outcome world :=
  c ← deref w;
  _ ← check (negb (socks_closed c) && socks_up c && (0 <? buf_used c) && (0 <? data_len) && (data_len <=? buf_used c));
  b ← memmove (buf c) 0 data_len (buf_used c - data_len);
  let c := set_buf b (buf_used c - data_len) c in
  w ← store c w;
  w ← (if negb (client_closed c) then tcp_recved data_len w else Ret w);
  if 0 <? buf_used c then Sender_Send (buf_used c) w
  else if client_closed c then client_free_socks close_depth lw w else Ret w.

(** ** From SOCKS to the application *)
Definition client_socks_recv_initiate (w : world) : outcome world :=
  c ← deref w;
  _ ← check (negb (client_closed c) && negb (socks_closed c) && socks_up c && (socks_recv_buf_used c =? -1));
  Receiver_Recv w.

(** The loop of [client_socks_recv_send_out]; [false]: tcp_write failed.  Each
    round writes a byte at least, so [n] is the number of bytes left. *)
Fixpoint send_out_loop (n : nat) (ws : list (Z * Z)) (w : world) : outcome (world * bool) :=
  match n with
  | O => Fault
  | S n =>
      c ← deref w; _ ← check (is_open (pcb w));
      let '(sndbuf, err) := match ws with x :: _ => x | [] => (0, ERR_OK) end in
      let to_write := Z.min (socks_recv_buf_used c - socks_recv_buf_sent c) (u16 sndbuf) in
      if to_write =? 0 then Ret (w, true)
      else
        bs ← mread (socks_recv_buf c) (socks_recv_buf_sent c) to_write;
        if negb (err =? ERR_OK) then Ret (w, err =? ERR_MEM)
        else
          let sent := socks_recv_buf_sent c + to_write in
          let p := pcb w in let l := log w in
          w ← store (set_recv (socks_recv_buf c) (socks_recv_buf_used c) sent (socks_recv_waiting c)
                       (socks_recv_tcp_pending c + to_write) c) w;
          let w := set_pcb (Pcb (status p) (errf p) (recvf p) (sentf p) (rcv_wnd p) (unacked p + to_write)) w in
          let w := set_log (Log (from_tcp l) (to_socks l) (from_socks l) (to_tcp l ++ bs) (aborts l) (closes l)
                              (socks_frees l) (frees l)) w in
          if sent <? socks_recv_buf_used c then send_out_loop n (tl ws) w else Ret (w, true)
  end.

(** [false]: the client was aborted. *)
Definition client_socks_recv_send_out (lw : lwip) (w : world) : outcome (world * bool) :=
  c ← deref w;
  _ ← check (negb (client_closed c) && socks_up c && (0 <? socks_recv_buf_used c)
             && (socks_recv_buf_sent c <? socks_recv_buf_used c) && negb (socks_recv_waiting c));
  '(w, ok) ← send_out_loop (Z.to_nat (socks_recv_buf_used c - socks_recv_buf_sent c)) (writes lw) w;
  if negb ok then w ← client_abort_client lw w; Ret (w, false)
  else
    _ ← check (is_open (pcb w));
    if negb (output_res lw =? ERR_OK) then w ← client_abort_client lw w; Ret (w, false)
    else
      c ← deref w;
      if socks_recv_buf_sent c <? socks_recv_buf_used c then
        if socks_recv_tcp_pending c =? 0 then w ← client_abort_client lw w; Ret (w, false)
        else
          w ← store (set_recv (socks_recv_buf c) (socks_recv_buf_used c) (socks_recv_buf_sent c) true
                       (socks_recv_tcp_pending c) c) w;
          Ret (w, true)
      else
        w ← store (set_recv (socks_recv_buf c) (-1) (socks_recv_buf_sent c) (socks_recv_waiting c)
                     (socks_recv_tcp_pending c) c) w;
        Ret (w, true).

Definition client_socks_recv_handler_done (data_len : Z) (lw : lwip) (w : world) : outcome world :=
  c ← deref w;
  _ ← check ((0 <? data_len) && (data_len <=? CLIENT_SOCKS_RECV_BUF_SIZE) && negb (socks_closed c) && socks_up c
             && (socks_recv_buf_used c =? -1));
  if client_closed c then Ret w
  else
    w ← store (set_recv (socks_recv_buf c) data_len 0 false (socks_recv_tcp_pending c) c) w;
    '(w, ok) ← client_socks_recv_send_out lw w;
    if negb ok then Ret w
    else
      c ← deref w;
      if socks_recv_buf_used c =? -1 then client_socks_recv_initiate w else Ret w.

(** ** Reports of the SOCKS client *)
Definition client_socks_handler (event : Z) (lw : lwip) (w : world) : outcome world :=
  c ← deref w; _ ← check (negb (socks_closed c));
  if event =? SOCKS_EVENT_ERROR then client_free_socks close_depth lw w
  else if event =? SOCKS_EVENT_UP then
    _ ← check (negb (socks_up c));
    let c := set_recv (socks_recv_buf c) (-1) (socks_recv_buf_sent c) (socks_recv_waiting c) 0 c in
    w ← store c w;
    w ← (if negb (client_closed c) then tcp_callbacks (errf (pcb w)) (recvf (pcb w)) true w else Ret w);
    w ← store (set_socks_up c) w;
    w ← (if 0 <? buf_used c then client_send_to_socks w else Ret w);
    if negb (client_closed c) then client_socks_recv_initiate w else Ret w
  else if event =? SOCKS_EVENT_ERROR_CLOSED then
    _ ← check (socks_up c); client_free_socks close_depth lw w
  else Fault.

(** ** Jobs of the SOCKS side *)
Inductive job :=
| JSocks (event : Z)        (* the SOCKS client reports *)
| JSent (n : Z)             (* [n] bytes of [buf] were sent *)
| JRecv (data : list Z).    (* [data] was received into [socks_recv_buf] *)

Definition phase_is (a b : socks_phase) : bool :=
  match a, b with
  | SocksConnecting, SocksConnecting | SocksUp, SocksUp | SocksEnded, SocksEnded => true
  | _, _ => false
  end.

Definition job_enabled (j : job) (w : world) : bool :=
  let s := socks w in
  live s &&
  match j with
  | JSocks e =>
      (e =? SOCKS_EVENT_ERROR) || ((e =? SOCKS_EVENT_UP) && phase_is (phase s) SocksConnecting)
      || ((e =? SOCKS_EVENT_ERROR_CLOSED) && phase_is (phase s) SocksUp)
  | JSent n => match sending s with Some len => (0 <? n) && (n <=? len) | None => false end
  | JRecv d => receiving s && (0 <? zlen d) && (zlen d <=? CLIENT_SOCKS_RECV_BUF_SIZE)
  end.

Definition job_run (j : job) (lw : lwip) (w : world) : outcome world :=
  let s := socks w in let l := log w in
  match j with
  | JSocks e =>
      client_socks_handler e lw
        (set_socks (Socks (live s) (if e =? SOCKS_EVENT_UP then SocksUp else phase s) (sending s) (receiving s)) w)
  | JSent n =>
      c ← deref w; bs ← mread (buf c) 0 n;
      client_socks_send_handler_done n lw
        (set_log (Log (from_tcp l) (to_socks l ++ bs) (from_socks l) (to_tcp l) (aborts l) (closes l) (socks_frees l) (frees l))
           (set_socks (Socks (live s) (phase s) None (receiving s)) w))
  | JRecv d =>
      c ← deref w; b ← mwrite (socks_recv_buf c) 0 d;
      w ← store (set_recv b (socks_recv_buf_used c) (socks_recv_buf_sent c) (socks_recv_waiting c)
                   (socks_recv_tcp_pending c) c) w;
      client_socks_recv_handler_done (zlen d) lw
        (set_log (Log (from_tcp l) (to_socks l) (from_socks l ++ d) (to_tcp l) (aborts l) (closes l) (socks_frees l) (frees l))
           (set_socks (Socks (live s) (phase s) (sending s) false) w))
  end.

(** Jobs that SYNC_COMMIT runs before it returns. *)
Fixpoint SYNC_COMMIT (jobs : list (job * lwip)) (w : world) : outcome world :=
  match jobs with
  | [] => Ret w
  | (j, lw) :: jobs' => w ← (if job_enabled j w then job_run j lw w else Ret w); SYNC_COMMIT jobs' w
  end.

(** ** lwIP callbacks; they return an [err_t] *)
Definition abrt_or_ok (killed : Z) : Z := if 0 <? killed then ERR_ABRT else ERR_OK.

Definition client_err_func (lw : lwip) (w : world) : outcome world :=
  c ← deref w; _ ← check (negb (client_closed c));
  client_handle_freed_client close_depth lw w.

(** [p]: the bytes of the pbuf chain, or NULL. *)
Definition client_recv_func (p : option (list Z)) (lw : lwip) (jobs : list (job * lwip)) (w : world) :
    outcome (world * Z) :=
  c ← deref w; _ ← check (negb (client_closed c));
  w ← DEAD_ENTER w;
  c ← deref w;
  match p with
  | None => w ← client_free_client close_depth lw w; '(w, k) ← DEAD_LEAVE2 w; Ret (w, abrt_or_ok k)
  | Some d =>
      _ ← check (0 <? zlen d);
      if zlen d >? TCP_WND - buf_used c then '(w, k) ← DEAD_LEAVE2 w; Ret (w, ERR_MEM)
      else
        b ← mwrite (buf c) (buf_used c) d;
        let c := set_buf b (buf_used c + zlen d) c in
        w ← store c w;
        w ← (if (buf_used c =? zlen d) && socks_up c then
               _ ← check (negb (socks_closed c)); w ← client_send_to_socks w; SYNC_COMMIT jobs w
             else Ret w);
        '(w, k) ← DEAD_LEAVE2 w; Ret (w, abrt_or_ok k)
  end.

Definition client_sent_func (len : Z) (lw : lwip) (jobs : list (job * lwip)) (w : world) : outcome (world * Z) :=
  c ← deref w;
  _ ← check (negb (client_closed c) && socks_up c && (0 <? len) && (len <=? socks_recv_tcp_pending c));
  w ← DEAD_ENTER w;
  c ← deref w;
  let c := set_recv (socks_recv_buf c) (socks_recv_buf_used c) (socks_recv_buf_sent c) (socks_recv_waiting c)
             (socks_recv_tcp_pending c - len) c in
  w ← store c w;
  w ← (if 0 <? socks_recv_buf_used c then
         _ ← check (socks_recv_waiting c && (socks_recv_buf_sent c <? socks_recv_buf_used c));
         w ← store (set_recv (socks_recv_buf c) (socks_recv_buf_used c) (socks_recv_buf_sent c) false
                      (socks_recv_tcp_pending c) c) w;
         '(w, ok) ← client_socks_recv_send_out lw w;
         if negb ok then Ret w
         else
           c ← deref w; _ ← check (0 <? socks_recv_tcp_pending c);
           if (socks_recv_buf_used c =? -1) && negb (socks_closed c)
           then w ← client_socks_recv_initiate w; SYNC_COMMIT jobs w else Ret w
       else if socks_closed c && (socks_recv_tcp_pending c =? 0) then client_free_client close_depth lw w
       else Ret w);
  '(w, k) ← DEAD_LEAVE2 w; Ret (w, abrt_or_ok k).

(** [m]: what malloc returns, if anything; its fields are not initialised. *)
Definition listener_accept_func (m : option tcp_client) (socks_ok : bool) (jobs : list (job * lwip)) (w : world) :
    outcome (world * Z) :=
  match m with
  | None => Ret (w, ERR_MEM)
  | Some m =>
      if negb socks_ok then Ret (w, ERR_MEM)
      else
        _ ← check (0 <=? num_clients w);
        let c := Client false DeadNull false (buf m) 0 false false (socks_recv_buf m) (socks_recv_buf_used m)
                   (socks_recv_buf_sent m) (socks_recv_waiting m) (socks_recv_tcp_pending m) in
        let w := World (Some c) (pcb w) (Socks true SocksConnecting None false) (num_clients w + 1) (frame w) (log w) in
        w ← tcp_callbacks true true (sentf (pcb w)) w;
        w ← DEAD_ENTER w; w ← SYNC_COMMIT jobs w;
        '(w, k) ← DEAD_LEAVE2 w; Ret (w, abrt_or_ok k)
  end.

(** ** Events of a connection *)
Inductive tevent :=
| EvRecv (p : option (list Z)) (lw : lwip) (jobs : list (job * lwip))
| EvSent (len : Z) (lw : lwip) (jobs : list (job * lwip))
| EvErr (lw : lwip)
| EvJob (j : job) (lw : lwip)
| EvMurder.

(** lwIP calls a callback of an open control block that is set, delivers no more
    than the window it announced, and acknowledges no more than was written. *)
Definition ev_enabled (ev : tevent) (w : world) : bool :=
  let p := pcb w in
  match ev with
  | EvRecv None _ _ => is_open p && recvf p
  | EvRecv (Some d) _ _ => is_open p && recvf p && (0 <? zlen d) && (zlen d <=? rcv_wnd p)
  | EvSent len _ _ => is_open p && sentf p && (0 <? len) && (len <=? unacked p)
  | EvErr _ => is_open p && errf p
  | EvJob j _ => job_enabled j w
  | EvMurder => match client w with Some _ => true | None => false end
  end.

(** The control block as the callback finds it. *)
Definition ev_fire (ev : tevent) (w : world) : outcome (world * Z) :=
  let p := pcb w in let l := log w in
  match ev with
  | EvRecv None lw jobs => client_recv_func None lw jobs w
  | EvRecv (Some d) lw jobs =>
      client_recv_func (Some d) lw jobs
        (set_log (Log (from_tcp l ++ d) (to_socks l) (from_socks l) (to_tcp l) (aborts l) (closes l) (socks_frees l) (frees l))
           (set_pcb (Pcb (status p) (errf p) (recvf p) (sentf p) (rcv_wnd p - zlen d) (unacked p)) w))
  | EvSent len lw jobs =>
      client_sent_func len lw jobs
        (set_pcb (Pcb (status p) (errf p) (recvf p) (sentf p) (rcv_wnd p) (unacked p - len)) w)
  | EvErr lw => w ← client_err_func lw (tcp_end PcbFreed w); Ret (w, ERR_OK)
  | EvJob j lw => w ← job_run j lw w; Ret (w, ERR_OK)
  | EvMurder => w ← client_murder w; Ret (w, ERR_OK)
  end.

(** Events that are not enabled do not happen. *)
Fixpoint run (evs : list tevent) (w : world) : outcome world :=
  match evs with
  | [] => Ret w
  | ev :: evs' => if ev_enabled ev w then '(w, _) ← ev_fire ev w; run evs' w else run evs' w
  end.

(** ** Invariant *)
Definition b2z (b : bool) : Z := if b then 1 else 0.

(** [n0]: the other clients. What holds of a live client between any two calls. *)
Record core (n0 : Z) (w : world) (c : tcp_client) : Prop := {
  co_client : client w = Some c;
  co_num : num_clients w = n0 + 1 ∧ 0 ≤ n0 ∧ frees (log w) = 0;
  co_open : is_open (pcb w) = negb (client_closed c);
  co_ends : aborts (log w) + closes (log w) = b2z (client_closed c) ∧ 0 ≤ aborts (log w) ∧ 0 ≤ closes (log w);
  co_aborted : aborted c = (0 <? aborts (log w));
  co_live : live (socks w) = negb (socks_closed c) ∧ socks_frees (log w) = b2z (socks_closed c);
  co_one : client_closed c && socks_closed c = false;
  co_buf : zlen (buf c) = TCP_WND ∧ 0 ≤ buf_used c ≤ TCP_WND;
  co_up : from_tcp (log w) = to_socks (log w) ++ take (Z.to_nat (buf_used c)) (buf c);
  co_cbs : client_closed c = false →
    errf (pcb w) = true ∧ recvf (pcb w) = negb (socks_closed c) ∧ sentf (pcb w) = socks_up c ∧
    rcv_wnd (pcb w) = TCP_WND - buf_used c;
  co_socks_up : socks_closed c = true → socks_up c = true;
  co_phase : socks_closed c = false → phase (socks w) = if socks_up c then SocksUp else SocksConnecting;
  co_sending : match sending (socks w) with
               | Some len => socks_closed c = false ∧ socks_up c = true ∧ 0 < len ≤ buf_used c
               | None => socks_closed c = false → socks_up c = true → buf_used c = 0
               end;
  co_rbuf : zlen (socks_recv_buf c) = CLIENT_SOCKS_RECV_BUF_SIZE;
  co_receiving : receiving (socks w) = true → socks_closed c = false ∧ socks_up c = true ∧ socks_recv_buf_used c = -1;
  co_down : ∃ rest, from_socks (log w) = to_tcp (log w) ++ rest;
  co_early : socks_up c = false → from_socks (log w) = [] ∧ to_tcp (log w) = [] ∧ unacked (pcb w) = 0;
  co_pending : socks_up c = true → socks_recv_tcp_pending c = unacked (pcb w) ∧ 0 ≤ unacked (pcb w) }.

(** The state of the bytes on their way to the application. *)
Definition recv_ok (w : world) (c : tcp_client) : Prop :=
  (socks_recv_buf_used c = -1 ∧ from_socks (log w) = to_tcp (log w) ∧
     receiving (socks w) = negb (socks_closed c) ∧ (socks_closed c = true → 0 < socks_recv_tcp_pending c)) ∨
  (0 < socks_recv_buf_used c ≤ CLIENT_SOCKS_RECV_BUF_SIZE ∧ 0 ≤ socks_recv_buf_sent c < socks_recv_buf_used c ∧
     socks_recv_waiting c = true ∧ 0 < socks_recv_tcp_pending c ∧ receiving (socks w) = false ∧
     from_socks (log w) = to_tcp (log w) ++
       drop (Z.to_nat (socks_recv_buf_sent c)) (take (Z.to_nat (socks_recv_buf_used c)) (socks_recv_buf c))).

Definition freed (n0 : Z) (w : world) : Prop :=
  client w = None ∧ num_clients w = n0 ∧ frees (log w) = 1 ∧
  aborts (log w) + closes (log w) = 1 ∧ 0 ≤ aborts (log w) ∧ 0 ≤ closes (log w) ∧ socks_frees (log w) = 1 ∧
  is_open (pcb w) = false ∧ live (socks w) = false ∧
  (∃ rest, from_tcp (log w) = to_socks (log w) ++ rest) ∧ (∃ rest, from_socks (log w) = to_tcp (log w) ++ rest).

(** The variable of the running callback tells whether it aborted. *)
Definition frame_ok (w : world) : Prop :=
  match client w, frame w with
  | Some c, None => dead_aborted c = DeadNull ∨ (dead_aborted c = DeadDangling ∧ aborted c = true)
  | Some c, Some v => dead_aborted c = DeadFrame ∧ v = b2z (aborted c)
  | None, None => True
  | None, Some v => v = if 0 <? aborts (log w) then 1 else -1
  end.

Definition inv (n0 : Z) (w : world) : Prop :=
  frame_ok w ∧
  (freed n0 w ∨ ∃ c, core n0 w c ∧ (client_closed c = true → 0 < buf_used c) ∧
                      (client_closed c = false → socks_up c = true → recv_ok w c)).

(** ** Closing *)

(** The world after the control block ended with status [st]. *)
Definition after_tcp (st : pcb_status) (c : tcp_client) (w : world) : world :=
  let ab := match st with PcbAborted => true | _ => false end in
  let w' := tcp_end st w in
  World (Some (set_closed (if ab then set_aborted c else c))) (pcb w') (socks w') (num_clients w')
    (if ab then match dead_aborted c with DeadFrame => Some 1 | _ => frame w' end else frame w') (log w').
Definition after_socks (c : tcp_client) (w : world) : world :=
  let l := log w in
  World (Some (set_socks_closed c)) (pcb w) (Socks false SocksEnded None false) (num_clients w) (frame w)
    (Log (from_tcp l) (to_socks l) (from_socks l) (to_tcp l) (aborts l) (closes l) (socks_frees l + 1) (frees l)).
Definition after_free (c : tcp_client) (w : world) : world :=
  let l := log w in
  World None (pcb w) (socks w) (num_clients w - 1)
    (if aborted c then frame w else match dead_aborted c with DeadFrame => Some (-1) | _ => frame w end)
    (Log (from_tcp l) (to_socks l) (from_socks l) (to_tcp l) (aborts l) (closes l) (socks_frees l) (frees l + 1)).

Lemma deref_eq w c : client w = Some c → deref w = Ret c.
Proof. unfold deref. by intros ->. Qed.

Lemma store_eq w c c' : client w = Some c → store c' w = Ret (set_client (Some c') w).
Proof. intros H. unfold store. by rewrite (deref_eq _ _ H). Qed.

Lemma dealloc_eq n0 w c :
  client w = Some c → frame_ok w → num_clients w = n0 + 1 → 0 ≤ n0 → client_closed c = true → socks_closed c = true →
  client_dealloc w = Ret (after_free c w).
Proof.
  intros Hc Hf Hn H0 H1 H2. unfold frame_ok in Hf. rewrite Hc in Hf.
  destruct w as [cl p s n f l]. cbn in Hc, Hn, Hf. subst cl n.
  unfold client_dealloc, deref. cbn [client]. rewrite bind_Ret, H1, H2. cbn [andb check]. rewrite bind_Ret.
  cbn [num_clients]. rewrite (proj2 (Z.ltb_lt 0 (n0 + 1))) by lia. cbn [check]. rewrite bind_Ret.
  unfold DEAD_KILL_WITH, deref, after_free, set_num_clients. cbn [client pcb socks num_clients frame log].
  destruct (aborted c); cbn [negb]; rewrite ?bind_Ret; [done|].
  destruct f as [v|]; [destruct Hf as [-> _]|destruct Hf as [-> |[_ ?]]]; done.
Qed.

Definition tcp_ended (st : pcb_status) (c : tcp_client) : tcp_client :=
  set_closed (match st with PcbAborted => set_aborted c | _ => c end).

Definition finish_tcp (st : pcb_status) (c : tcp_client) (w : world) : world :=
  let c1 := tcp_ended st c in let w1 := after_tcp st c w in
  if socks_closed c then after_free c1 w1
  else if 0 <? buf_used c then w1
  else after_free (set_socks_closed c1) (after_socks c1 w1).

Definition close_status (lw : lwip) : pcb_status := if close_ok lw then PcbClosed else PcbAborted.

(** What the closing functions rely on. *)
Definition closable (n0 : Z) (w : world) (c : tcp_client) : Prop :=
  client w = Some c ∧ frame_ok w ∧ num_clients w = n0 + 1 ∧ 0 ≤ n0 ∧ is_open (pcb w) = true ∧ aborted c = false ∧
  client_closed c = false ∧ live (socks w) = negb (socks_closed c).

(** [client_handle_freed_client] once the control block has ended. *)
Lemma handle_freed_eq n0 st c w lw d :
  closable n0 w c →
  client_handle_freed_client (S (S d)) lw (set_client (Some (match st with PcbAborted => set_aborted c | _ => c end))
    (set_frame (frame (after_tcp st c w)) (tcp_end st w))) = Ret (finish_tcp st c w).
Proof.
  intros (Hc & Hf & Hn & H0 & Ho & Ha & Hcl & Hl).
  assert (E : (0 <? n0 + 1) = true) by (apply Z.ltb_lt; lia). unfold frame_ok in Hf. rewrite Hc in Hf.
  destruct w as [cl p [lv ph sd rc] n f l], c as [ab de cd b bu up sc rb ru rs rw rp].
  cbn in Hc, Hn, Hl, Ha, Hcl, Hf. subst cl n lv ab cd.
  assert (Hd : f = None ∧ de = DeadNull ∨ f = Some 0 ∧ de = DeadFrame).
  { destruct f as [v|]; [right; by destruct Hf as [-> ->]|left; destruct Hf as [-> |[_ ?]]; done]. }
  unfold finish_tcp, client_dealloc, socks_client_free, DEAD_KILL_WITH, store, deref.
  destruct st, sc, (0 <? bu) eqn:Eb; destruct Hd as [[-> ->]|[-> ->]]; cbn; rewrite ?Eb, ?E; cbn;
    try done; rewrite ?andb_false_r; cbn; rewrite ?andb_false_r, ?E; done.
Qed.

(** [client_abort_pcb] on an open control block. *)
Lemma abort_pcb_eq n0 c w p :
  closable n0 w c → is_open p = true → rcv_wnd p = rcv_wnd (pcb w) → unacked p = unacked (pcb w) →
  client_abort_pcb (set_pcb p w)
  = Ret (set_client (Some (set_aborted c)) (set_frame (frame (after_tcp PcbAborted c w)) (tcp_end PcbAborted w))).
Proof.
  intros (Hc & Hf & _ & _ & _ & Ha & Hcl & _) Hp Hr Hu. unfold frame_ok in Hf. rewrite Hc in Hf.
  destruct w as [cl q s n f l], c as [ab de cd b bu up sc rb ru rs rw rp].
  cbn in Hc, Ha, Hcl, Hf, Hr, Hu. subst cl ab cd.
  assert (Hd : f = None ∧ de = DeadNull ∨ f = Some 0 ∧ de = DeadFrame).
  { destruct f as [v|]; [right; by destruct Hf as [-> ->]|left; destruct Hf as [-> |[_ ?]]; done]. }
  unfold client_abort_pcb, tcp_abort, DEAD_KILL_WITH, store, deref. cbn. rewrite Hp.
  destruct p as [st1 e1 r1 s1 wn1 un1], q as [st2 e2 r2 s2 wn2 un2]. cbn in Hr, Hu. subst wn1 un1.
  by destruct Hd as [[-> ->]|[-> ->]].
Qed.

Lemma abort_client_eq n0 c w lw : closable n0 w c → client_abort_client lw w = Ret (finish_tcp PcbAborted c w).
Proof.
  intros H. pose proof H as (Hc & _ & _ & _ & Ho & _ & Hcl & _). unfold client_abort_client, deref, tcp_callbacks.
  rewrite Hc, bind_Ret, Hcl, Ho. cbn [negb check]. rewrite !bind_Ret.
  rewrite (abort_pcb_eq n0 c) by done. rewrite bind_Ret. by apply (handle_freed_eq n0 PcbAborted).
Qed.

Lemma free_client_eq n0 c w lw d :
  closable n0 w c → client_free_client (S (S (S d))) lw w = Ret (finish_tcp (close_status lw) c w).
Proof.
  intros H. pose proof H as (Hc & _ & _ & _ & Ho & _ & Hcl & _). cbn [client_free_client].
  unfold deref, tcp_callbacks, tcp_close. rewrite Hc, bind_Ret, Hcl, Ho. cbn [negb check]. rewrite !bind_Ret.
  replace (is_open (pcb (set_pcb _ w))) with (is_open (pcb w)) by done. rewrite Ho. cbn [check]. rewrite bind_Ret.
  unfold close_status. destruct (close_ok lw) eqn:Ec.
  - rewrite !bind_Ret. etransitivity; [|by apply (handle_freed_eq n0 PcbClosed c w lw d)].
    f_equal. destruct w as [cl q s n f l]. cbn in Hc. by subst cl.
  - rewrite bind_Ret, (abort_pcb_eq n0 c) by done. rewrite bind_Ret. by apply (handle_freed_eq n0 PcbAborted).
Qed.

Lemma err_func_eq n0 c w lw :
  closable n0 w c → client_err_func lw (tcp_end PcbFreed w) = Ret (finish_tcp PcbFreed c w).
Proof.
  intros H. pose proof H as (Hc & _ & _ & _ & _ & _ & Hcl & _). unfold client_err_func, deref.
  replace (client (tcp_end PcbFreed w)) with (Some c) by (by destruct w). rewrite bind_Ret, Hcl. cbn [negb check]. rewrite bind_Ret.
  etransitivity; [|by apply (handle_freed_eq n0 PcbFreed c w lw 2)].
  f_equal. destruct w as [cl q s n f l]. cbn in Hc. by subst cl.
Qed.

(** Freeing the SOCKS side. *)
Definition no_recv (w : world) : world :=
  let p := pcb w in set_pcb (Pcb (status p) (errf p) false (sentf p) (rcv_wnd p) (unacked p)) w.

Definition finish_socks (lw : lwip) (c : tcp_client) (w : world) : world :=
  let c1 := set_socks_closed c in
  let w1 := after_socks c (if socks_up c && negb (client_closed c) then no_recv w else w) in
  if client_closed c then after_free c1 w1
  else if socks_up c && ((0 <=? socks_recv_buf_used c) || (0 <? socks_recv_tcp_pending c)) then w1
  else finish_tcp (close_status lw) c1 w1.

Lemma free_socks_eq n0 c w lw :
  client w = Some c → frame_ok w → num_clients w = n0 + 1 → 0 ≤ n0 → is_open (pcb w) = negb (client_closed c) →
  aborted c && negb (client_closed c) = false → live (socks w) = true → socks_closed c = false →
  client_free_socks close_depth lw w = Ret (finish_socks lw c w).
Proof.
  intros Hc Hf Hn H0 Ho Ha Hl Hs. unfold close_depth. cbn [client_free_socks]. unfold deref. rewrite Hc, bind_Ret, Hs.
  cbn [negb check]. rewrite bind_Ret.
  set (w1 := if socks_up c && negb (client_closed c) then no_recv w else w).
  replace (if socks_up c && negb (client_closed c) then _ else _) with (Ret w1).
  2:{ subst w1. unfold tcp_callbacks, no_recv. destruct (socks_up c), (client_closed c); cbn [negb andb] in *; try done.
      by rewrite Ho. }
  rewrite bind_Ret. unfold socks_client_free, store, deref, finish_socks. fold w1.
  assert (Hw : client w1 = Some c ∧ frame w1 = frame w ∧ num_clients w1 = n0 + 1 ∧ socks w1 = socks w ∧ is_open (pcb w1) = is_open (pcb w)).
  { subst w1. by destruct (socks_up c && negb (client_closed c)). }
  destruct Hw as (Hc1 & Hf1 & Hn1 & Hs1 & Ho1). rewrite Hs1, Hl. cbn [check]. rewrite !bind_Ret.
  replace (client (set_log _ _)) with (Some c) by (by destruct w1). rewrite !bind_Ret.
  change (set_client _ _) with (after_socks c w1).
  assert (Hf2 : frame_ok (after_socks c w1)).
  { unfold frame_ok in *. rewrite Hc in Hf. cbn. by rewrite Hf1. }
  destruct (client_closed c) eqn:Ecl; cbn [negb andb].
  - rewrite andb_false_r. by apply (dealloc_eq n0).
  - clearbody w1. rewrite andb_true_r. destruct (socks_up c && ((0 <=? _) || _)); [done|]. apply (free_client_eq n0 (set_socks_closed c)).
    rewrite andb_true_r in Ha. unfold closable. cbn. by rewrite Ho1, Ho.
Qed.

(** What is needed of a client for the world to be right once it is freed. *)
Definition accounted (n0 : Z) (w : world) (c : tcp_client) : Prop :=
  num_clients w = n0 + 1 ∧ frees (log w) = 0 ∧ aborts (log w) = 0 ∧ closes (log w) = 0 ∧ aborted c = false ∧
  live (socks w) = negb (socks_closed c) ∧ socks_frees (log w) = b2z (socks_closed c) ∧
  (∃ rest, from_tcp (log w) = to_socks (log w) ++ rest) ∧ (∃ rest, from_socks (log w) = to_tcp (log w) ++ rest).

Lemma core_accounted n0 w c : core n0 w c → client_closed c = false → accounted n0 w c.
Proof.
  intros [] H. destruct co_ends0 as (He & ? & ?), co_num0 as (? & ? & ?), co_live0 as [? ?]. rewrite H in He. cbn [b2z] in He.
  assert (aborts (log w) = 0) as Ha by lia. rewrite Ha in co_aborted0.
  unfold accounted. split_and!; try done; [lia|by eexists].
Qed.

Lemma core_closable n0 w c : core n0 w c → frame_ok w → client_closed c = false → closable n0 w c.
Proof.
  intros H Hf Hc. pose proof (core_accounted _ _ _ H Hc) as (? & ? & ? & ? & ? & ? & _). destruct H.
  unfold closable. rewrite co_open0, Hc. by destruct co_num0 as (? & ? & ?).
Qed.

Lemma finish_tcp_freed n0 st c w :
  client w = Some c → accounted n0 w c → frame_ok w → st ≠ PcbOpen → socks_closed c = true ∨ buf_used c ≤ 0 →
  inv n0 (finish_tcp st c w).
Proof.
  intros Hc (Hn & Hfr & Hab & Hcl & Ha & Hl & Hsf & Hu & Hd) Hf Hst Hwhy.
  unfold frame_ok in Hf. rewrite Hc in Hf.
  destruct w as [cl p [lv ph sd rc] n f l], c as [ab de cd b bu up sc rb ru rs rw rp], l.
  cbn in Hn, Hfr, Hab, Hcl, Ha, Hl, Hsf, Hu, Hd, Hf, Hwhy, Hc. subst.
  assert (Hd' : f = None ∧ de = DeadNull ∨ f = Some 0 ∧ de = DeadFrame).
  { destruct f as [v|]; [right; by destruct Hf as [-> ->]|left; destruct Hf as [-> |[_ ?]]; done]. }
  unfold finish_tcp. cbn [socks_closed buf_used].
  assert (Hb : sc = false → (0 <? bu) = false) by (intros ->; destruct Hwhy; [done|]; by apply Z.ltb_ge).
  destruct sc; [clear Hb|rewrite Hb by done]; (split; [|left]);
    destruct st, Hd' as [[-> ->]|[-> ->]]; try done; unfold freed, is_open; cbn; split_and!; try done; lia.
Qed.

Lemma finish_tcp_waits n0 st c w :
  core n0 w c → frame_ok w → st ≠ PcbOpen → client_closed c = false → socks_closed c = false → 0 < buf_used c →
  inv n0 (finish_tcp st c w).
Proof.
  intros H Hf Hst Hcl Hsc Hb. pose proof (core_accounted _ _ _ H Hcl) as (Hn & Hfr & Hab & Hc0 & Ha & Hl & _).
  destruct H. unfold frame_ok in Hf. rewrite co_client0 in Hf.
  unfold finish_tcp. rewrite Hsc, (proj2 (Z.ltb_lt 0 _)) by done. split.
  - unfold frame_ok, after_tcp. cbn. clear - Hf Ha Hst. rewrite Ha in Hf.
    destruct (frame w) as [v|]; [destruct Hf as [Hf Hv]|destruct Hf as [Hf|[]]; [|done]]; rewrite Hf; destruct st; try done;
      cbn; rewrite ?Ha; auto.
  - right. exists (tcp_ended st c). split; [|split; by destruct st].
    assert (Hcc : tcp_ended st c = set_closed (if match st with PcbAborted => true | _ => false end then set_aborted c else c)) by (by destruct st).
    destruct st; try done; split; cbn; rewrite ?Hab, ?Hc0, ?Hsc, ?Ha in *; try done; try lia; naive_solver.
Qed.

Lemma finish_tcp_inv n0 st c w :
  core n0 w c → frame_ok w → st ≠ PcbOpen → client_closed c = false → inv n0 (finish_tcp st c w).
Proof.
  intros H Hf Hst Hcl. destruct (socks_closed c) eqn:Hsc; [|destruct (Z.lt_ge_cases 0 (buf_used c))].
  2: by apply finish_tcp_waits.
  all: apply finish_tcp_freed; eauto using core_accounted, co_client.
Qed.

Lemma close_status_ended lw : close_status lw ≠ PcbOpen.
Proof. unfold close_status. by destruct (close_ok lw). Qed.

(** Freeing the SOCKS side when the control block is closed already, and when it is open. *)
Lemma finish_socks_closed n0 lw c w :
  core n0 w c → frame_ok w → socks_closed c = false → client_closed c = true → inv n0 (finish_socks lw c w).
Proof.
  intros [] Hf Hsc Hcl. unfold frame_ok in Hf. rewrite co_client0 in Hf. unfold finish_socks. rewrite Hcl, andb_false_r.
  destruct co_ends0 as (He & ? & ?), co_num0 as (? & ? & ?), co_live0 as [? Hsf].
  rewrite Hcl in *. rewrite Hsc in *. cbn in He, Hsf, co_open0. split.
  - unfold frame_ok, after_free, after_socks. cbn. rewrite co_aborted0 in Hf |- *.
    destruct (frame w) as [v|]; [destruct Hf as [-> ->]|destruct Hf as [-> |[-> E]]; destruct (0 <? aborts (log w)); done].
    by destruct (0 <? aborts (log w)).
  - left. unfold freed. cbn. split_and!; try done; try lia. by eexists.
Qed.

Lemma finish_socks_open n0 lw c w :
  core n0 w c → frame_ok w → socks_closed c = false → client_closed c = false →
  (socks_up c = true → recv_ok w c) → inv n0 (finish_socks lw c w).
Proof.
  intros H Hf Hsc Hcl Hr. pose proof (core_accounted _ _ _ H Hcl) as (Hn & Hfr & Hab & Hc0 & Ha & Hl & Hsf & Hu & Hd).
  pose proof H as []. unfold finish_socks. rewrite Hcl. cbn [negb]. rewrite andb_true_r.
  set (w1 := if socks_up c then no_recv w else w).
  assert (Hw1 : log w1 = log w ∧ socks w1 = socks w ∧ frame w1 = frame w ∧ num_clients w1 = num_clients w)
    by (subst w1; by destruct (socks_up c)). destruct Hw1 as (El & Es & Ef & En).
  assert (Hf1 : frame_ok (after_socks c w1)).
  { unfold frame_ok in *. rewrite co_client0 in Hf. cbn. rewrite Ef. destruct (frame w); [done|]. naive_solver. }
  destruct (socks_up c && _) eqn:Ek.
  - apply andb_true_iff in Ek as [Eup Ek]. specialize (Hr Eup).
    split; [done|right]. exists (set_socks_closed c). subst w1. rewrite Eup. split; [|split; [by cbn; rewrite Hcl|]].
    + destruct (co_cbs0 Hcl) as (? & ? & ? & ?), co_num0 as (? & ? & ?), co_ends0 as (? & ? & ?), co_buf0.
      rewrite ?Hcl, ?Eup, ?Hsf, ?Hsc in *. split; cbn; rewrite ?Hcl, ?Eup, ?Hsf, ?Hsc; auto; done.
    + intros _ _. destruct Hr as [(E1 & E2 & E3 & E4)|(E1 & E2 & E3 & E4 & E5 & E6)]; [left|right]; cbn.
      * rewrite E1 in *. cbn in Ek. apply Z.ltb_lt in Ek. done.
      * done.
  - apply finish_tcp_freed; [done| |done|apply close_status_ended|by left].
    unfold accounted. cbn. rewrite ?El, ?En, ?Hsf, Hsc. done.
Qed.

(** ** Every call returns, and keeps the invariant *)
Definition in_call (w : world) : bool := match frame w with Some _ => true | None => false end.

(** [r] returns a world where the invariant holds, within the same callback as [w]. *)
Definition goes (n0 : Z) (w : world) (r : outcome world) : Prop :=
  ∃ w', r = Ret w' ∧ inv n0 w' ∧ in_call w' = in_call w.

Lemma finish_tcp_call st c w : client w = Some c → frame_ok w → in_call (finish_tcp st c w) = in_call w.
Proof.
  intros Hc Hf. unfold frame_ok in Hf. rewrite Hc in Hf. unfold in_call, finish_tcp, after_free, after_tcp, after_socks.
  destruct (socks_closed c), (0 <? buf_used c), st; cbn; destruct (frame w) as [v|], (aborted c), (dead_aborted c); try done; naive_solver.
Qed.

Lemma finish_socks_call lw c w : client w = Some c → frame_ok w → in_call (finish_socks lw c w) = in_call w.
Proof.
  intros Hc Hf. unfold finish_socks. set (w1 := if socks_up c && _ then _ else _).
  assert (Hw : frame w1 = frame w) by (subst w1; by destruct (socks_up c && _)). clearbody w1.
  pose proof Hf as Hf'. unfold frame_ok in Hf. rewrite Hc in Hf. destruct (client_closed c).
  - unfold in_call, after_free, after_socks. cbn. rewrite Hw.
    destruct (frame w) as [v|], (aborted c), (dead_aborted c); try done; naive_solver.
  - destruct (socks_up c && _); [unfold in_call; cbn; by rewrite Hw|].
    rewrite finish_tcp_call; [unfold in_call; cbn; by rewrite Hw|done|].
    unfold frame_ok. cbn. rewrite Hw. done.
Qed.

Lemma abort_client_goes n0 c w lw :
  core n0 w c → frame_ok w → client_closed c = false → goes n0 w (client_abort_client lw w).
Proof.
  intros H Hf Hc. eexists. rewrite (abort_client_eq n0 c) by auto using core_closable. split; [done|].
  split; [by apply finish_tcp_inv|]. apply finish_tcp_call; [apply H|done].
Qed.

Lemma free_client_goes n0 c w lw :
  core n0 w c → frame_ok w → client_closed c = false → goes n0 w (client_free_client close_depth lw w).
Proof.
  intros H Hf Hc. eexists. unfold close_depth. rewrite (free_client_eq n0 c w lw 1) by auto using core_closable. split; [done|].
  split; [apply finish_tcp_inv; auto using close_status_ended|]. apply finish_tcp_call; [apply H|done].
Qed.

Lemma err_func_goes n0 c w lw :
  core n0 w c → frame_ok w → client_closed c = false → goes n0 w (client_err_func lw (tcp_end PcbFreed w)).
Proof.
  intros H Hf Hc. eexists. rewrite (err_func_eq n0 c) by auto using core_closable. split; [done|].
  split; [by apply finish_tcp_inv|]. apply finish_tcp_call; [apply H|done].
Qed.

Lemma free_socks_goes n0 c w lw :
  core n0 w c → frame_ok w → socks_closed c = false → (client_closed c = false → socks_up c = true → recv_ok w c) →
  goes n0 w (client_free_socks close_depth lw w).
Proof.
  intros H Hf Hs Hr. pose proof H as []. destruct co_num0 as (? & ? & ?), co_live0 as [Hl _]. exists (finish_socks lw c w).
  split; [|split].
  - apply (free_socks_eq n0); try done; [|by rewrite Hl, Hs]. destruct (client_closed c) eqn:E; [by rewrite andb_false_r|].
    pose proof (core_accounted _ _ _ H E) as (_ & _ & _ & _ & -> & _). done.
  - destruct (client_closed c) eqn:E; [by apply finish_socks_closed|apply finish_socks_open; auto].
  - by apply finish_socks_call.
Qed.

(** ** Towards the application *)

(** Bytes [sent..used) of [socks_recv_buf] are next for lwIP. *)
Definition unsent (c : tcp_client) : list Z :=
  drop (Z.to_nat (socks_recv_buf_sent c)) (take (Z.to_nat (socks_recv_buf_used c)) (socks_recv_buf c)).

Definition writing (n0 : Z) (w : world) (c : tcp_client) : Prop :=
  core n0 w c ∧ frame_ok w ∧ client_closed c = false ∧ socks_up c = true ∧
  0 < socks_recv_buf_used c ≤ CLIENT_SOCKS_RECV_BUF_SIZE ∧ 0 ≤ socks_recv_buf_sent c ≤ socks_recv_buf_used c ∧
  receiving (socks w) = false ∧ from_socks (log w) = to_tcp (log w) ++ unsent c.

Lemma take_unsent c n :
  zlen (socks_recv_buf c) = CLIENT_SOCKS_RECV_BUF_SIZE → socks_recv_buf_used c ≤ CLIENT_SOCKS_RECV_BUF_SIZE →
  0 ≤ socks_recv_buf_sent c → 0 ≤ n ≤ socks_recv_buf_used c - socks_recv_buf_sent c →
  mread (socks_recv_buf c) (socks_recv_buf_sent c) n = Ret (take (Z.to_nat n) (unsent c)).
Proof.
  intros Hl Hu Hs Hn. unfold mread. if_true. f_equal. unfold unsent.
  rewrite !take_drop_commute, take_take. do 2 f_equal. lia.
Qed.

(** One round of the loop. *)
Definition wrote (n : Z) (c : tcp_client) : tcp_client :=
  set_recv (socks_recv_buf c) (socks_recv_buf_used c) (socks_recv_buf_sent c + n) (socks_recv_waiting c)
    (socks_recv_tcp_pending c + n) c.
Definition after_write (n : Z) (c : tcp_client) (w : world) : world :=
  let p := pcb w in let l := log w in
  World (Some (wrote n c)) (Pcb (status p) (errf p) (recvf p) (sentf p) (rcv_wnd p) (unacked p + n)) (socks w)
    (num_clients w) (frame w)
    (Log (from_tcp l) (to_socks l) (from_socks l) (to_tcp l ++ take (Z.to_nat n) (unsent c)) (aborts l) (closes l)
       (socks_frees l) (frees l)).

Lemma after_write_ok n0 w c n :
  writing n0 w c → 0 ≤ n ≤ socks_recv_buf_used c - socks_recv_buf_sent c → writing n0 (after_write n c w) (wrote n c).
Proof.
  intros (H & Hf & Hcl & Hup & Hu & Hs & Hr & Hd) Hn. pose proof H as []. unfold frame_ok in Hf. rewrite co_client0 in Hf.
  assert (Hd' : from_socks (log w) = (to_tcp (log w) ++ take (Z.to_nat n) (unsent c)) ++ unsent (wrote n c)).
  { rewrite Hd, <- app_assoc. f_equal. rewrite <- (take_drop (Z.to_nat n) (unsent c)) at 1. f_equal. unfold unsent, wrote. cbn.
    rewrite drop_drop. f_equal. lia. }
  unfold writing. split_and!; cbn; try done; try lia.
  split; cbn; try done; [by eexists|by rewrite Hup|].
  intros E. destruct (co_pending0 E). lia.
Qed.

Lemma send_out_loop_ok n0 c0 n ws w c :
  writing n0 w c → socks_recv_buf_used c - socks_recv_buf_sent c ≤ Z.of_nat n → (n ≠ 0)%nat →
  socks_closed c = socks_closed c0 → socks_recv_waiting c = false →
  socks_recv_tcp_pending c - socks_recv_buf_sent c = socks_recv_tcp_pending c0 - socks_recv_buf_sent c0 →
  ∃ w' c' ok, send_out_loop n ws w = Ret (w', ok) ∧ writing n0 w' c' ∧ in_call w' = in_call w ∧
    socks_closed c' = socks_closed c0 ∧ socks_recv_buf_used c' = socks_recv_buf_used c ∧ socks_recv_waiting c' = false ∧ socks_recv_buf_sent c ≤ socks_recv_buf_sent c' ∧
    socks_recv_tcp_pending c' - socks_recv_buf_sent c' = socks_recv_tcp_pending c0 - socks_recv_buf_sent c0.
Proof.
  revert ws w c. induction n as [|n IH]; intros ws w c H Hn Hnz Hc Hw Hp; [done|].
  pose proof H as (Hco & _ & Hcl & _ & Hu & Hs & _). pose proof Hco as []. cbn [send_out_loop].
  unfold deref at 1. rewrite co_client0, bind_Ret, co_open0, Hcl. cbn [negb check]. rewrite bind_Ret.
  destruct (match ws with x :: _ => x | [] => (0, ERR_OK) end) as [sb err]. pose proof (u16_range sb) as Hsb.
  set (n1 := Z.min (socks_recv_buf_used c - socks_recv_buf_sent c) (u16 sb)).
  destruct (n1 =? 0) eqn:E1; [exists w, c, true; by split_and!|]. apply Z.eqb_neq in E1.
  assert (Hn1 : 0 < n1 ≤ socks_recv_buf_used c - socks_recv_buf_sent c) by lia.
  rewrite (take_unsent c n1), bind_Ret by (done || lia).
  destruct (err =? ERR_OK); cbn [negb]; [|exists w, c, (err =? ERR_MEM); by split_and!].
  unfold store, deref. rewrite co_client0, !bind_Ret. change (set_log _ _) with (after_write n1 c w).
  assert (Hw1 : writing n0 (after_write n1 c w) (wrote n1 c)) by (apply after_write_ok; [done|lia]).
  destruct (Z.ltb_spec (socks_recv_buf_sent c + n1) (socks_recv_buf_used c)) as [Hlt|Hge].
  - edestruct (IH (tl ws) (after_write n1 c w) (wrote n1 c)) as (w' & c' & ok & -> & ? & ? & ? & ? & ? & ? & ?); cbn; try done; try lia.
    exists w', c', ok. cbn in *. split_and!; try done; lia.
  - exists (after_write n1 c w), (wrote n1 c), true. cbn. split_and!; try done; lia.
Qed.

(** Everything was queued, or the rest waits for [client_sent_func]. *)
Definition sent_out (n0 : Z) (w : world) (c : tcp_client) : Prop :=
  core n0 w c ∧ frame_ok w ∧ client_closed c = false ∧ socks_up c = true ∧ 0 < socks_recv_tcp_pending c ∧
  receiving (socks w) = false ∧
  (socks_recv_buf_used c = -1 ∧ from_socks (log w) = to_tcp (log w) ∨ socks_recv_buf_used c ≠ -1 ∧ recv_ok w c).

(** The client after the fields of the receiving side changed. *)
Lemma set_recv_core n0 w c used sent wait :
  core n0 w c → receiving (socks w) = false →
  core n0 (set_client (Some (set_recv (socks_recv_buf c) used sent wait (socks_recv_tcp_pending c) c)) w)
    (set_recv (socks_recv_buf c) used sent wait (socks_recv_tcp_pending c) c).
Proof. intros [] Hr. split; cbn; try done. by rewrite Hr. Qed.

Lemma set_recv_frame w c b used sent wait pend :
  client w = Some c → frame_ok w → frame_ok (set_client (Some (set_recv b used sent wait pend c)) w).
Proof. unfold frame_ok. by intros -> ?. Qed.

Lemma send_out_ok n0 w c lw :
  writing n0 w c → socks_recv_buf_sent c < socks_recv_buf_used c → socks_recv_waiting c = false →
  ∃ w' ok, client_socks_recv_send_out lw w = Ret (w', ok) ∧ in_call w' = in_call w ∧
    if (ok : bool) then ∃ c', sent_out n0 w' c' ∧ socks_closed c' = socks_closed c else inv n0 w'.
Proof.
  intros H Hlt Hw. pose proof H as (Hco & _ & Hcl & Hup & Hu & Hs & _). pose proof Hco as [].
  unfold client_socks_recv_send_out. rewrite (deref_eq _ _ co_client0), bind_Ret, Hcl, Hup, Hw. cbn [negb andb].
  rewrite !(proj2 (Z.ltb_lt _ _)) by lia. cbn [andb check]. rewrite bind_Ret.
  edestruct (send_out_loop_ok n0 c (Z.to_nat (socks_recv_buf_used c - socks_recv_buf_sent c)) (writes lw) w c)
    as (w1 & c1 & ok & -> & H1 & Hi & Hc1 & Hu' & Hw1 & Hs1 & Hp1); try done; try lia.
  rewrite bind_Ret. destruct H1 as (Hco1 & Hf1 & Hcl1 & Hup1 & Hu1 & Hss1 & Hr1 & Hd1). rewrite <- Hi.
  destruct (abort_client_goes n0 c1 w1 lw Hco1 Hf1 Hcl1) as (wa & -> & Hia & Hca).
  destruct ok; cbn [negb]; [|by exists wa, false].
  rewrite (co_open _ _ _ Hco1), Hcl1. cbn [negb check]. rewrite bind_Ret.
  destruct (output_res lw =? ERR_OK); cbn [negb]; [|by exists wa, false].
  pose proof (co_client _ _ _ Hco1) as Hc. pose proof (co_pending _ _ _ Hco1 Hup1) as [Hpe Hpe0].
  pose proof (co_pending0 Hup) as [Hpc Hpc0].
  unfold store, deref. rewrite Hc, !bind_Ret.
  destruct (Z.ltb_spec (socks_recv_buf_sent c1) (socks_recv_buf_used c1)) as [Hl1|Hg1].
  - destruct (socks_recv_tcp_pending c1 =? 0) eqn:Ep; [by exists wa, false|apply Z.eqb_neq in Ep].
    eexists _, true. split; [done|split; [done|]]. eexists (set_recv (socks_recv_buf c1) _ _ _ (socks_recv_tcp_pending c1) c1).
    split; [|done]. unfold sent_out. split_and!; [by apply set_recv_core|by apply set_recv_frame|done|done|cbn; lia|done|].
    right. cbn. split; [lia|]. right. cbn. split_and!; try done; lia.
  - eexists _, true. split; [done|split; [done|]]. eexists (set_recv (socks_recv_buf c1) _ _ _ (socks_recv_tcp_pending c1) c1).
    split; [|done]. unfold sent_out. split_and!; [by apply set_recv_core|by apply set_recv_frame|done|done|cbn; lia|done|].
    left. cbn. split; [done|]. rewrite Hd1. unfold unsent. rewrite drop_ge; [by rewrite app_nil_r|].
    rewrite length_take. lia.
Qed.

(** ** Jobs *)
Lemma live_core n0 w :
  inv n0 w → live (socks w) = true →
  ∃ c, core n0 w c ∧ frame_ok w ∧ socks_closed c = false ∧ (client_closed c = true → 0 < buf_used c) ∧
       (client_closed c = false → socks_up c = true → recv_ok w c).
Proof.
  intros [Hf [H|(c & H & Hb & Hr)]] Hl.
  - destruct H as (_ & _ & _ & _ & _ & _ & _ & _ & H & _). congruence.
  - exists c. split_and!; try done. destruct (co_live _ _ _ H) as [E _]. rewrite Hl in E. by destruct (socks_closed c).
Qed.

Lemma shift_buf (b : list Z) used n :
  0 ≤ n ≤ used → used ≤ zlen b →
  ∃ b', memmove b 0 n (used - n) = Ret b' ∧ length b' = length b ∧
        take (Z.to_nat (used - n)) b' = drop (Z.to_nat n) (take (Z.to_nat used) b).
Proof.
  intros Hn Hu.
  set (y := take (Z.to_nat n) b). set (m := drop (Z.to_nat n) (take (Z.to_nat used) b)). set (t := drop (Z.to_nat used) b).
  assert (Eb : b = y ++ m ++ t).
  { subst y m t. rewrite app_assoc. rewrite <- (take_drop (Z.to_nat used) b) at 1. f_equal.
    rewrite <- (take_drop (Z.to_nat n) (take (Z.to_nat used) b)) at 1. f_equal. rewrite take_take. f_equal. lia. }
  assert (Hy : zlen y = n) by (subst y; rewrite length_take; lia).
  assert (Hm : zlen m = used - n) by (subst m; rewrite length_drop, length_take; lia).
  pose proof (memmove_down y m t) as H. rewrite <- Eb, Hy, Hm in H. eexists. split; [exact H|].
  split; [by apply memmove_length in H|]. rewrite <- Hm, Nat2Z.id. apply take_app_length.
Qed.

(** The world when [client_socks_send_handler_done] has removed [n] bytes of [buf]. *)
Definition after_sent (n : Z) (b' : list Z) (c : tcp_client) (w : world) : world :=
  let p := pcb w in let s := socks w in let l := log w in
  World (Some (set_buf b' (buf_used c - n) c))
    (if client_closed c then p else Pcb (status p) (errf p) (recvf p) (sentf p) (rcv_wnd p + n) (unacked p))
    (Socks (live s) (phase s) (if 0 <? buf_used c - n then Some (buf_used c - n) else None) (receiving s))
    (num_clients w) (frame w)
    (Log (from_tcp l) (to_socks l ++ take (Z.to_nat n) (buf c)) (from_socks l) (to_tcp l) (aborts l) (closes l)
       (socks_frees l) (frees l)).

Lemma after_sent_core n0 w c n b' :
  core n0 w c → socks_closed c = false → socks_up c = true → 0 < n ≤ buf_used c → length b' = length (buf c) →
  take (Z.to_nat (buf_used c - n)) b' = drop (Z.to_nat n) (take (Z.to_nat (buf_used c)) (buf c)) →
  core n0 (after_sent n b' c w) (set_buf b' (buf_used c - n) c).
Proof.
  intros [] Hsc Hup Hn Hl Hb. destruct co_buf0 as [? ?]. split; cbn; try done.
  - by destruct (client_closed c).
  - split; [congruence|lia].
  - rewrite Hb, co_up0, <- app_assoc. f_equal. rewrite <- (take_drop (Z.to_nat n) (take (Z.to_nat (buf_used c)) (buf c))) at 1.
    f_equal. rewrite take_take. f_equal. lia.
  - intros Hcl. rewrite Hcl. destruct (co_cbs0 Hcl) as (? & ? & ? & ?). cbn. split_and!; try done. lia.
  - rewrite Hsc, Hup. destruct (Z.ltb_spec 0 (buf_used c - n)); [split_and!; try done; lia|lia].
  - rewrite Hup. done.
  - intros E. destruct (co_pending0 E). by destruct (client_closed c).
Qed.

Lemma sent_job_eq n0 w c n len lw :
  core n0 w c → socks_closed c = false → sending (socks w) = Some len → 0 < n ≤ len →
  ∃ b', length b' = length (buf c) ∧
    take (Z.to_nat (buf_used c - n)) b' = drop (Z.to_nat n) (take (Z.to_nat (buf_used c)) (buf c)) ∧
    job_run (JSent n) lw w
    = if (0 <? buf_used c - n) || negb (client_closed c) then Ret (after_sent n b' c w)
      else client_free_socks close_depth lw (after_sent n b' c w).
Proof.
  intros [] Hsc Es Hn. rewrite Es in co_sending0. destruct co_sending0 as (_ & Hup & Hlen), co_buf0 as [Hbl Hbu], co_live0 as [Hl _].
  rewrite Hsc in Hl. destruct (shift_buf (buf c) (buf_used c) n) as (b' & Hmv & Hlb & Hbb); [lia|lia|].
  exists b'. split; [done|split; [done|]].
  cbn [job_run]. rewrite (deref_eq _ _ co_client0), bind_Ret.
  replace (mread (buf c) 0 n) with (Ret (take (Z.to_nat n) (buf c))) by (unfold mread; by if_true). rewrite bind_Ret.
  unfold client_socks_send_handler_done. rewrite (deref_eq _ c) by (by destruct w). rewrite bind_Ret, Hsc, Hup.
  rewrite !(proj2 (Z.ltb_lt _ _)), (proj2 (Z.leb_le _ _)) by lia. cbn [negb andb check]. rewrite bind_Ret, Hmv, bind_Ret.
  rewrite (store_eq _ c) by (by destruct w). rewrite bind_Ret. cbn [client_closed set_buf buf_used].
  unfold tcp_recved, Sender_Send, after_sent. cbn [pcb set_client set_log set_socks]. rewrite co_open0.
  destruct (client_closed c), (0 <? buf_used c - n) eqn:E; cbn; rewrite ?E, ?Hl; done.
Qed.

Lemma recv_ok_after_sent n b' c w : recv_ok w c → recv_ok (after_sent n b' c w) (set_buf b' (buf_used c - n) c).
Proof. intros [?|?]; [by left|by right]. Qed.

Lemma sent_job_goes n0 w n lw :
  inv n0 w → job_enabled (JSent n) w = true → goes n0 w (job_run (JSent n) lw w).
Proof.
  intros Hi He. cbn [job_enabled] in He. apply andb_true_iff in He as [Hl He].
  destruct (live_core _ _ Hi Hl) as (c & H & Hf & Hsc & Hb & Hr). destruct (sending (socks w)) as [len|] eqn:Es; [|done].
  apply andb_true_iff in He as [Hn1 Hn2]. apply Z.ltb_lt in Hn1. apply Z.leb_le in Hn2. pose proof H as [].
  destruct (sent_job_eq n0 w c n len lw H Hsc Es) as (b' & Hlb & Hbb & ->); [lia|].
  rewrite Es in co_sending0. destruct co_sending0 as (_ & Hup & Hlen).
  assert (Hc1 : core n0 (after_sent n b' c w) (set_buf b' (buf_used c - n) c)) by (apply after_sent_core; done || lia).
  assert (Hf1 : frame_ok (after_sent n b' c w)) by (unfold frame_ok in *; rewrite co_client0 in Hf; done).
  destruct (_ || _) eqn:E.
  - eexists. split; [done|split; [|done]]. split; [done|right]. exists (set_buf b' (buf_used c - n) c). split; [done|].
    split; [|intros; apply recv_ok_after_sent; auto]. cbn. intros Hcl. rewrite Hcl, orb_false_r in E. by apply Z.ltb_lt.
  - apply orb_false_iff in E as [_ E]. apply negb_false_iff in E.
    destruct (free_socks_goes n0 _ _ lw Hc1 Hf1) as (w' & ? & ? & ?); [done|cbn; by rewrite E|]. by exists w'.
Qed.

(** Receiving starts on an idle interface. *)
Definition after_recv (w : world) : world :=
  set_socks (Socks (live (socks w)) (phase (socks w)) (sending (socks w)) true) w.

Lemma recv_initiate_eq n0 w c :
  core n0 w c → client_closed c = false → socks_closed c = false → socks_up c = true → socks_recv_buf_used c = -1 →
  receiving (socks w) = false → client_socks_recv_initiate w = Ret (after_recv w).
Proof.
  intros [] Hcl Hsc Hup Hu Hr. unfold client_socks_recv_initiate, Receiver_Recv.
  rewrite (deref_eq _ _ co_client0), bind_Ret, Hcl, Hsc, Hup, Hu. cbn [negb andb].
  destruct co_live0 as [Hl _]. rewrite Hsc in Hl. unfold after_recv. by rewrite Hl, Hr.
Qed.

Lemma after_recv_core n0 w c :
  core n0 w c → socks_closed c = false → socks_up c = true → socks_recv_buf_used c = -1 → core n0 (after_recv w) c.
Proof. intros [] ? ? ?. split; cbn; done. Qed.

(** Receiving after everything was queued. *)
Lemma sent_out_initiate n0 w c :
  sent_out n0 w c → socks_closed c = false → socks_recv_buf_used c = -1 → goes n0 w (client_socks_recv_initiate w).
Proof.
  intros (H & Hf & Hcl & Hup & Hp & Hr & Hd) Hsc Hu. exists (after_recv w).
  rewrite (recv_initiate_eq n0 w c) by done. split; [done|split; [|done]]. split; [done|right].
  exists c. split; [by apply after_recv_core|]. split; [by rewrite Hcl|]. intros _ _. left.
  destruct Hd as [[_ Hd]|[? _]]; [|done]. cbn. by rewrite Hsc.
Qed.

Lemma sent_out_inv n0 w c : sent_out n0 w c → socks_closed c = true ∨ socks_recv_buf_used c ≠ -1 → inv n0 w.
Proof.
  intros (H & Hf & Hcl & Hup & Hp & Hr & Hd) Hw. split; [done|right]. exists c. split; [done|]. split; [by rewrite Hcl|].
  intros _ _. destruct Hd as [[Hu Hd]|[_ Hd]]; [|done]. destruct Hw as [Hw|?]; [|done]. left. by rewrite Hr, Hw.
Qed.

(** The world when [d] was received. *)
Definition after_got (d : list Z) (c : tcp_client) (w : world) : world :=
  let s := socks w in let l := log w in
  World (Some c) (pcb w) (Socks (live s) (phase s) (sending s) false) (num_clients w) (frame w)
    (Log (from_tcp l) (to_socks l) (from_socks l ++ d) (to_tcp l) (aborts l) (closes l) (socks_frees l) (frees l)).

Lemma deref_got d c w : deref (after_got d c w) = Ret c.
Proof. done. Qed.
Lemma store_got d c c' w : store c' (after_got d c w) = Ret (after_got d c' w).
Proof. done. Qed.

Lemma after_got_core n0 w c d b' used sent wait :
  core n0 w c → socks_up c = true → length b' = length (socks_recv_buf c) →
  let c' := set_recv b' used sent wait (socks_recv_tcp_pending c) c in core n0 (after_got d c' w) c'.
Proof.
  intros [] Hup Hl. split; cbn; try done; [congruence| |by rewrite Hup].
  destruct co_down0 as [rest ->]. exists (rest ++ d). by rewrite app_assoc.
Qed.

Lemma recv_job_goes n0 w d lw :
  inv n0 w → job_enabled (JRecv d) w = true → goes n0 w (job_run (JRecv d) lw w).
Proof.
  intros Hi He. cbn [job_enabled] in He. apply andb_true_iff in He as [Hl He]. rewrite !andb_true_iff in He.
  destruct He as [[Hrc Hd1] Hd2]. apply Z.ltb_lt in Hd1. apply Z.leb_le in Hd2.
  destruct (live_core _ _ Hi Hl) as (c & H & Hf & Hsc & Hb & Hr). pose proof H as [].
  destruct (co_receiving0 Hrc) as (_ & Hup & Hu).
  cbn [job_run]. rewrite (deref_eq _ _ co_client0), bind_Ret.
  set (b' := d ++ drop (length d) (socks_recv_buf c)).
  assert (Hw : mwrite (socks_recv_buf c) 0 d = Ret b') by (apply (mwrite_extend [] (socks_recv_buf c) 0 d); [done|lia]).
  assert (Hbl : length b' = length (socks_recv_buf c)) by (by apply mwrite_length in Hw).
  rewrite Hw, bind_Ret, (store_eq _ c) by done. rewrite bind_Ret. change (set_log _ _) with (after_got d (set_recv b' (socks_recv_buf_used c)
    (socks_recv_buf_sent c) (socks_recv_waiting c) (socks_recv_tcp_pending c) c) w).
  unfold client_socks_recv_handler_done. rewrite deref_got, bind_Ret.
  cbn [set_recv socks_closed socks_up client_closed socks_recv_buf_used socks_recv_buf socks_recv_tcp_pending].
  rewrite Hsc, Hup, Hu, (proj2 (Z.ltb_lt _ _)), (proj2 (Z.leb_le _ _)) by done. cbn [negb andb Z.eqb Pos.eqb check]. rewrite bind_Ret.
  assert (Hfr : ∀ us se wa, frame_ok (after_got d (set_recv b' us se wa (socks_recv_tcp_pending c) c) w)).
  { intros. unfold frame_ok in *. rewrite co_client0 in Hf. done. }
  destruct (client_closed c) eqn:Ecl.
  { eexists. split; [done|split; [|done]]. split; [apply Hfr|right]. eexists. split; [by apply after_got_core|].
    cbn. rewrite Ecl. done. }
  rewrite store_got, bind_Ret.
  change (after_got d _ w) with (after_got d (set_recv b' (zlen d) 0 false (socks_recv_tcp_pending c) c) w).
  assert (Hwr : writing n0 (after_got d (set_recv b' (zlen d) 0 false (socks_recv_tcp_pending c) c) w)
                  (set_recv b' (zlen d) 0 false (socks_recv_tcp_pending c) c)).
  { unfold writing. split; [by apply after_got_core|]. specialize (Hr eq_refl Hup).
    split_and!; [apply Hfr|done|done|done|done|cbn; lia|cbn; lia|done|]. unfold unsent. cbn.
    destruct Hr as [(_ & -> & _)|(? & _)]; [|lia]. f_equal. subst b'. by rewrite Nat2Z.id, take_app_length. }
  destruct (send_out_ok n0 _ _ lw Hwr) as (w' & ok & -> & Hic & Hok); [done|done|]. rewrite bind_Ret.
  destruct ok; cbn [negb]; [|by exists w']. destruct Hok as (c' & Hso & Hcc).
  pose proof Hso as (Hco' & _). rewrite (deref_eq _ c') by apply Hco'. rewrite bind_Ret.
  cbn [set_recv socks_closed] in Hcc. destruct (Z.eqb_spec (socks_recv_buf_used c') (-1)).
  - destruct (sent_out_initiate n0 w' c' Hso) as (w2 & ? & ? & Hi2); [congruence|done|]. exists w2. by rewrite Hi2, Hic.
  - exists w'. split_and!; [done| |done]. apply (sent_out_inv n0 w' c'); auto.
Qed.

(** SOCKS came up: sending starts if there is something to send, receiving unless the control block is closed. *)
Definition after_up (c : tcp_client) (w : world) : world :=
  let p := pcb w in
  World (Some (set_socks_up (set_recv (socks_recv_buf c) (-1) (socks_recv_buf_sent c) (socks_recv_waiting c) 0 c)))
    (if client_closed c then p else Pcb (status p) (errf p) (recvf p) true (rcv_wnd p) (unacked p))
    (Socks true SocksUp (if 0 <? buf_used c then Some (buf_used c) else None) (negb (client_closed c)))
    (num_clients w) (frame w) (log w).

Lemma after_up_inv n0 w c :
  core n0 w c → frame_ok w → socks_closed c = false → socks_up c = false → (client_closed c = true → 0 < buf_used c) →
  inv n0 (after_up c w).
Proof.
  intros H Hf Hsc Hup Hb. pose proof H as []. destruct (co_early0 Hup) as (Ef & Et & Eu). destruct co_live0 as [_ Hsf].
  unfold frame_ok in Hf. rewrite co_client0 in Hf. rewrite Hsc in *.
  split; [done|right].
  exists (set_socks_up (set_recv (socks_recv_buf c) (-1) (socks_recv_buf_sent c) (socks_recv_waiting c) 0 c)).
  split; [|split; [done|]].
  - split; cbn; rewrite ?Hsc; try done.
    + by destruct (client_closed c).
    + intros Hcl. destruct (co_cbs0 Hcl) as (? & ? & ? & ?). rewrite Hcl. done.
    + destruct (Z.ltb_spec 0 (buf_used c)); [split_and!; try done; lia|lia].
    + intros _. rewrite <- Eu. destruct (client_closed c); cbn; lia.
  - intros Hcl _. left. cbn in *. rewrite Hcl, Hsc, Ef, Et. done.
Qed.

Lemma handler_up_eq n0 w c lw :
  core n0 w c → socks_closed c = false → socks_up c = false → receiving (socks w) = false →
  client_socks_handler SOCKS_EVENT_UP lw (set_socks (Socks (live (socks w)) SocksUp (sending (socks w)) false) w)
  = Ret (after_up c w).
Proof.
  intros H Hsc Hup Hrc. pose proof H as []. destruct co_live0 as [Hl _].
  destruct (sending (socks w)) as [len|] eqn:Es; [destruct co_sending0 as (_ & ? & _); congruence|]. rewrite Hsc in Hl.
  destruct w as [cl p s n f l], c as [ab de cd b bu up sc rb ru rs rw rp]. cbn in *. subst cl up sc.
  unfold client_socks_handler, client_send_to_socks, client_socks_recv_initiate, Sender_Send, Receiver_Recv, tcp_callbacks, store, deref,
    after_up, set_client, set_pcb, set_socks, set_socks_up, set_recv.
  cbn. rewrite Hl, co_open0. destruct cd; cbn; destruct (0 <? bu) eqn:E; cbn; rewrite ?E; done.
Qed.

Lemma socks_world_core n0 w c ph :
  core n0 w c → ph = phase (socks w) → core n0 (set_socks (Socks (live (socks w)) ph (sending (socks w)) (receiving (socks w))) w) c.
Proof. intros [] ->. by split. Qed.

Lemma socks_job_goes n0 w e lw :
  inv n0 w → job_enabled (JSocks e) w = true → goes n0 w (job_run (JSocks e) lw w).
Proof.
  intros Hi He. cbn [job_enabled] in He. apply andb_true_iff in He as [Hl He].
  destruct (live_core _ _ Hi Hl) as (c & H & Hf & Hsc & Hb & Hr). pose proof H as []. cbn [job_run].
  rewrite !orb_true_iff, !andb_true_iff, !Z.eqb_eq in He.
  set (ws := set_socks (Socks (live (socks w)) (phase (socks w)) (sending (socks w)) (receiving (socks w))) w).
  assert (Hgo : goes n0 w (client_free_socks close_depth lw ws)).
  { change (goes n0 ws (client_free_socks close_depth lw ws)). apply (free_socks_goes n0 c); [by apply socks_world_core|exact Hf|done|done]. }
  destruct He as [[-> |[-> Hp]]|[-> Hp]].
  - unfold client_socks_handler. rewrite (deref_eq _ c), bind_Ret, Hsc by done. exact Hgo.
  - assert (Hup : socks_up c = false) by (rewrite (co_phase0 Hsc) in Hp; by destruct (socks_up c)).
    assert (Hrc : receiving (socks w) = false).
    { destruct (receiving (socks w)); [|done]. destruct (co_receiving0 eq_refl) as (_ & ? & _). congruence. }
    cbn [Z.eqb SOCKS_EVENT_UP Pos.eqb]. rewrite Hrc, (handler_up_eq n0 w c lw) by done.
    exists (after_up c w). split_and!; [done|by apply after_up_inv|done].
  - assert (Hup : socks_up c = true) by (rewrite (co_phase0 Hsc) in Hp; by destruct (socks_up c)).
    unfold client_socks_handler. rewrite (deref_eq _ c), bind_Ret, Hsc by done. cbn. rewrite Hup. exact Hgo.
Qed.

Lemma job_goes n0 w j lw : inv n0 w → job_enabled j w = true → goes n0 w (job_run j lw w).
Proof. destruct j; [apply socks_job_goes|apply sent_job_goes|apply recv_job_goes]. Qed.

Lemma commit_goes n0 jobs w : inv n0 w → goes n0 w (SYNC_COMMIT jobs w).
Proof.
  revert w. induction jobs as [|[j lw] jobs IH]; intros w Hi; [by exists w|]. cbn [SYNC_COMMIT].
  destruct (job_enabled j w) eqn:E; [|rewrite bind_Ret; auto].
  destruct (job_goes n0 w j lw Hi E) as (w1 & -> & Hi1 & Hc1). rewrite bind_Ret.
  destruct (IH w1 Hi1) as (w2 & -> & Hi2 & Hc2). exists w2. by rewrite Hc2.
Qed.

(** ** Callbacks *)
Lemma set_dead_core n0 w c d f :
  core n0 w c → core n0 (set_client (Some (set_dead d c)) (set_frame f w)) (set_dead d c).
Proof. intros []. by split. Qed.

Definition entered (c : tcp_client) (w : world) : world := set_client (Some (set_dead DeadFrame c)) (set_frame (Some 0) w).

Lemma dead_null n0 w c :
  core n0 w c → frame_ok w → in_call w = false → client_closed c = false → dead_aborted c = DeadNull.
Proof.
  intros H Hf Hin Hcl. destruct (core_accounted _ _ _ H Hcl) as (_ & _ & _ & _ & Ha & _).
  unfold frame_ok in Hf. rewrite (co_client _ _ _ H) in Hf. unfold in_call in Hin. destruct (frame w); [done|].
  destruct Hf as [?|[_ ?]]; congruence.
Qed.

Lemma enter_eq w c :
  client w = Some c → dead_aborted c = DeadNull → in_call w = false → DEAD_ENTER w = Ret (entered c w).
Proof.
  intros Hc Hd Hf. unfold DEAD_ENTER. rewrite (deref_eq _ _ Hc), bind_Ret, Hd. unfold in_call in Hf.
  destruct (frame w); [done|]. cbn [check]. by rewrite bind_Ret, (store_eq _ c).
Qed.

Lemma entered_frame n0 w c : core n0 w c → client_closed c = false → frame_ok (entered c w).
Proof. intros H Hc. destruct (core_accounted _ _ _ H Hc) as (_ & _ & _ & _ & Ha & _). unfold frame_ok, entered. cbn. by rewrite Ha. Qed.

(** At the end of a callback its variable tells whether it aborted. *)
Lemma leave_ok n0 w :
  inv n0 w → in_call w = true →
  ∃ w' k, DEAD_LEAVE2 w = Ret (w', k) ∧ inv n0 w' ∧ in_call w' = false ∧ abrt_or_ok k = if 0 <? aborts (log w') then ERR_ABRT else ERR_OK.
Proof.
  intros [Hf Hi] Hc. unfold DEAD_LEAVE2. unfold frame_ok in Hf. unfold in_call in Hc. destruct (frame w) as [v|] eqn:Ef; [|done].
  destruct Hi as [H|(c & H & Hb & Hr)].
  - pose proof H as (Hcl & _). rewrite Hcl in Hf. cbn [set_frame client]. rewrite Hcl.
    assert (Hi' : inv n0 (set_frame None w)) by (split; [unfold frame_ok; cbn; by rewrite Hcl|left; exact H]).
    destruct (0 <? aborts (log w)) eqn:Ea; subst v; cbn [Z.eqb]; (eexists _, _; split_and!; [done|done|done|]);
      cbn; by rewrite Ea.
  - pose proof (co_client _ _ _ H) as Hcl. rewrite Hcl in Hf. destruct Hf as [Hd ->].
    pose proof (co_aborted _ _ _ H) as Ha.
    assert (Hi' : ∀ d, (d = DeadNull ∨ d = DeadDangling ∧ aborted c = true) →
                    inv n0 (set_client (Some (set_dead d c)) (set_frame None w))).
    { intros d Hdd. split; [exact Hdd|right]. exists (set_dead d c). split; [by apply set_dead_core|]. split; [done|exact Hr]. }
    destruct (aborted c) eqn:Eab; cbn [b2z Z.eqb set_frame client].
    + rewrite Hcl, (store_eq _ c), bind_Ret by done. eexists _, _. split_and!; [done|apply Hi'; auto|done|]. cbn. by rewrite <- Ha.
    + rewrite (deref_eq _ c), bind_Ret, (store_eq _ c), bind_Ret by done.
      eexists _, _. split_and!; [done|apply Hi'; auto|done|]. cbn. by rewrite <- Ha.
Qed.

(** A callback returns [ERR_ABRT] if it called tcp_abort, and [ERR_OK] otherwise. *)
Definition returns (n0 : Z) (r : outcome (world * Z)) : Prop :=
  ∃ w' res, r = Ret (w', res) ∧ inv n0 w' ∧ in_call w' = false ∧ res = if 0 <? aborts (log w') then ERR_ABRT else ERR_OK.

Lemma leave_returns n0 w r :
  goes n0 w r → in_call w = true → returns n0 (w ← r; '(w, k) ← DEAD_LEAVE2 w; Ret (w, abrt_or_ok k)).
Proof.
  intros (w1 & -> & Hi & Hc) Hin. rewrite bind_Ret. rewrite Hin in Hc.
  destruct (leave_ok n0 w1 Hi Hc) as (w2 & k & -> & Hi2 & Hc2 & Hk). rewrite bind_Ret. by eexists _, _.
Qed.

(** An event of the control block finds an open client. *)
Lemma open_core n0 w :
  inv n0 w → is_open (pcb w) = true →
  ∃ c, core n0 w c ∧ frame_ok w ∧ client_closed c = false ∧ (socks_up c = true → recv_ok w c).
Proof.
  intros [Hf [H|(c & H & Hb & Hr)]] Ho.
  - destruct H as (_ & _ & _ & _ & _ & _ & _ & H & _). congruence.
  - exists c. rewrite (co_open _ _ _ H) in Ho. apply negb_true_iff in Ho. split_and!; auto.
Qed.

(** The world when [d] was copied to [buf]. *)
Definition after_in (d b' : list Z) (c : tcp_client) (w : world) : world :=
  let p := pcb w in let s := socks w in let l := log w in
  World (Some (set_buf b' (buf_used c + zlen d) (set_dead DeadFrame c)))
    (Pcb (status p) (errf p) (recvf p) (sentf p) (rcv_wnd p - zlen d) (unacked p))
    (Socks (live s) (phase s) (if (buf_used c + zlen d =? zlen d) && socks_up c then Some (zlen d) else sending s) (receiving s))
    (num_clients w) (Some 0)
    (Log (from_tcp l ++ d) (to_socks l) (from_socks l) (to_tcp l) (aborts l) (closes l) (socks_frees l) (frees l)).

Lemma after_in_inv n0 w c d b' :
  core n0 w c → client_closed c = false → socks_closed c = false → (socks_up c = true → recv_ok w c) →
  0 < zlen d → zlen d ≤ rcv_wnd (pcb w) → length b' = length (buf c) →
  take (Z.to_nat (buf_used c + zlen d)) b' = take (Z.to_nat (buf_used c)) (buf c) ++ d →
  inv n0 (after_in d b' c w).
Proof.
  intros H Hcl Hsc Hr Hd Hw Hl Hb. pose proof H as []. destruct co_buf0 as [? ?], (co_cbs0 Hcl) as (? & ? & ? & Hwnd).
  destruct (core_accounted _ _ _ H Hcl) as (_ & _ & _ & _ & Ha & _).
  split; [unfold frame_ok; cbn; by rewrite Ha|right]. exists (set_buf b' (buf_used c + zlen d) (set_dead DeadFrame c)).
  split; [|split; [cbn; by rewrite Hcl|]].
  - split; cbn; try done.
    + split; [congruence|lia].
    + by rewrite Hb, co_up0, app_assoc.
    + intros _. split_and!; try done. lia.
    + destruct (socks_up c); [|rewrite andb_false_r; destruct (sending (socks w)); [|done]; by destruct co_sending0 as (_ & ? & _)].
      rewrite andb_true_r. destruct (Z.eqb_spec (buf_used c + zlen d) (zlen d)); [split_and!; try done; lia|].
      destruct (sending (socks w)); [destruct co_sending0 as (_ & _ & ?); split_and!; try done; lia|].
      intros. rewrite co_sending0 in n by done. lia.
  - intros _ Hup. specialize (Hr Hup). destruct Hr as [?|?]; [by left|by right].
Qed.

Lemma recv_func_data n0 w d lw jobs :
  inv n0 w → in_call w = false → ev_enabled (EvRecv (Some d) lw jobs) w = true →
  returns n0 (ev_fire (EvRecv (Some d) lw jobs) w).
Proof.
  intros Hi Hin He. cbn [ev_enabled] in He. rewrite !andb_true_iff, Z.ltb_lt, Z.leb_le in He. destruct He as [[[Ho Hrf] Hd1] Hd2].
  destruct (open_core _ _ Hi Ho) as (c & H & Hf & Hcl & Hr). pose proof H as [].
  destruct (co_cbs0 Hcl) as (_ & E & _ & Hwnd), co_buf0 as [Hbl Hbu]. rewrite Hrf in E. symmetry in E. apply negb_true_iff in E.
  set (b' := (take (Z.to_nat (buf_used c)) (buf c) ++ d) ++ drop (length d) (drop (Z.to_nat (buf_used c)) (buf c))).
  assert (Hlen : length (take (Z.to_nat (buf_used c)) (buf c)) = Z.to_nat (buf_used c)) by (rewrite length_take; lia).
  assert (Hmw : mwrite (buf c) (buf_used c) d = Ret b').
  { rewrite <- (take_drop (Z.to_nat (buf_used c)) (buf c)) at 1. apply mwrite_extend; [lia|rewrite length_drop; lia]. }
  assert (Hal : inv n0 (after_in d b' c w)).
  { apply after_in_inv; try done; [by apply mwrite_length in Hmw|]. subst b'.
    rewrite take_app_le by (rewrite length_app; lia). apply take_ge. rewrite length_app. lia. }
  cbn [ev_fire]. unfold client_recv_func. rewrite (deref_eq _ c), bind_Ret, Hcl by done. cbn [negb check].
  rewrite bind_Ret, (enter_eq _ c), bind_Ret by eauto using dead_null. rewrite (deref_eq _ (set_dead DeadFrame c)), bind_Ret by done.
  rewrite (proj2 (Z.ltb_lt 0 (zlen d))) by done. cbn [check]. rewrite bind_Ret. cbn [buf buf_used set_dead].
  rewrite Z.gtb_ltb, (proj2 (Z.ltb_ge _ _)) by lia. rewrite Hmw, bind_Ret, (store_eq _ (set_dead DeadFrame c)), bind_Ret by done.
  apply (leave_returns n0 (after_in d b' c w)); [|done]. cbn [buf_used set_buf socks_up set_dead socks_closed].
  destruct ((buf_used c + zlen d =? zlen d) && socks_up c) eqn:Es.
  - apply andb_true_iff in Es as [Es Hup]. rewrite E. cbn [negb check]. rewrite bind_Ret.
    replace (client_send_to_socks _) with (Ret (after_in d b' c w)); [rewrite bind_Ret; by apply commit_goes|].
    apply Z.eqb_eq in Es. assert (Hb0 : buf_used c = 0) by lia.
    rewrite Hb0 in co_sending0. destruct (sending (socks w)) eqn:Esd; [lia|].
    destruct co_live0 as [Hl _]. rewrite E in Hl. unfold client_send_to_socks, Sender_Send, deref. cbn.
    rewrite E, Hup, Hb0, Hl, Esd. cbn [negb andb]. rewrite (proj2 (Z.ltb_lt _ _)) by lia.
    unfold after_in. rewrite Hb0, Hup, Hl. cbn. by rewrite Z.eqb_refl.
  - eexists. split_and!; [|exact Hal|done]. unfold after_in, entered, set_client, set_frame, set_log, set_pcb. cbn. rewrite Es.
    by destruct (socks w).
Qed.

Lemma recv_func_eof n0 w lw jobs :
  inv n0 w → in_call w = false → ev_enabled (EvRecv None lw jobs) w = true → returns n0 (ev_fire (EvRecv None lw jobs) w).
Proof.
  intros Hi Hin He. cbn [ev_enabled] in He. apply andb_true_iff in He as [Ho _].
  destruct (open_core _ _ Hi Ho) as (c & H & Hf & Hcl & Hr). pose proof (co_client _ _ _ H) as Hc.
  cbn [ev_fire]. unfold client_recv_func. rewrite (deref_eq _ c), bind_Ret, Hcl by done. cbn [negb check].
  rewrite bind_Ret, (enter_eq _ c), bind_Ret by eauto using dead_null. rewrite (deref_eq _ (set_dead DeadFrame c)), bind_Ret by done.
  apply (leave_returns n0 (entered c w)); [|done].
  apply (free_client_goes n0 (set_dead DeadFrame c)); [by apply set_dead_core|by apply (entered_frame n0)|done].
Qed.

(** The world when [len] bytes were acknowledged. *)
Definition acked (len : Z) (c : tcp_client) : tcp_client :=
  set_recv (socks_recv_buf c) (socks_recv_buf_used c) (socks_recv_buf_sent c) (socks_recv_waiting c)
    (socks_recv_tcp_pending c - len) (set_dead DeadFrame c).
Definition after_ack (len : Z) (c : tcp_client) (w : world) : world :=
  let p := pcb w in
  World (Some (acked len c)) (Pcb (status p) (errf p) (recvf p) (sentf p) (rcv_wnd p) (unacked p - len)) (socks w)
    (num_clients w) (Some 0) (log w).

Lemma after_ack_core n0 w c len :
  core n0 w c → client_closed c = false → socks_up c = true → 0 < len ≤ unacked (pcb w) →
  core n0 (after_ack len c w) (acked len c) ∧ frame_ok (after_ack len c w).
Proof.
  intros H Hcl Hup Hl. destruct (core_accounted _ _ _ H Hcl) as (_ & _ & _ & _ & Ha & _). pose proof H as [].
  split; [|unfold frame_ok; cbn; by rewrite Ha]. split; cbn; try done; [by rewrite Hup|].
  intros _. destruct (co_pending0 Hup). lia.
Qed.

(** [client_sent_func] when bytes wait to be queued. *)
Lemma sent_func_continue n0 w c lw jobs :
  core n0 w c → frame_ok w → client_closed c = false → socks_up c = true → receiving (socks w) = false →
  0 < socks_recv_buf_used c ≤ CLIENT_SOCKS_RECV_BUF_SIZE → 0 ≤ socks_recv_buf_sent c < socks_recv_buf_used c →
  from_socks (log w) = to_tcp (log w) ++ unsent c →
  goes n0 w
    (w ← store (set_recv (socks_recv_buf c) (socks_recv_buf_used c) (socks_recv_buf_sent c) false (socks_recv_tcp_pending c) c) w;
     '(w, ok) ← client_socks_recv_send_out lw w;
     if negb ok then Ret w
     else
       c ← deref w; _ ← check (0 <? socks_recv_tcp_pending c);
       if (socks_recv_buf_used c =? -1) && negb (socks_closed c)
       then w ← client_socks_recv_initiate w; SYNC_COMMIT jobs w else Ret w).
Proof.
  intros H Hf Hcl Hup Hrc Hu Hs Hd. pose proof (co_client _ _ _ H) as Hc. rewrite (store_eq _ c), bind_Ret by done.
  set (c1 := set_recv _ _ _ false _ c). set (w1 := set_client (Some c1) w).
  assert (Hw : writing n0 w1 c1).
  { unfold writing. split; [by apply set_recv_core|]. split_and!; try done; [by apply set_recv_frame|cbn; lia..]. }
  destruct (send_out_ok n0 w1 c1 lw Hw) as (w2 & ok & -> & Hic & Hok); [cbn; lia|done|]. rewrite bind_Ret.
  destruct ok; cbn [negb]; [|by exists w2]. destruct Hok as (c2 & Hso & Hsc).
  pose proof Hso as (H2 & _ & _ & _ & Hp & _). rewrite (deref_eq _ c2), bind_Ret by apply H2.
  rewrite (proj2 (Z.ltb_lt _ _)) by done. cbn [check]. rewrite bind_Ret.
  destruct (Z.eqb_spec (socks_recv_buf_used c2) (-1)), (socks_closed c2) eqn:Esc; cbn [negb andb];
    try (exists w2; split_and!; [done|eapply sent_out_inv; eauto|done]).
  destruct (sent_out_initiate n0 w2 c2) as (w3 & -> & Hi3 & Hc3); [done..|]. rewrite bind_Ret.
  destruct (commit_goes n0 jobs w3 Hi3) as (w4 & -> & Hi4 & Hc4). exists w4. by rewrite Hc4, Hc3, Hic.
Qed.

Lemma sent_func_returns n0 w len lw jobs :
  inv n0 w → in_call w = false → ev_enabled (EvSent len lw jobs) w = true → returns n0 (ev_fire (EvSent len lw jobs) w).
Proof.
  intros Hi Hin He. cbn [ev_enabled] in He. rewrite !andb_true_iff, Z.ltb_lt, Z.leb_le in He. destruct He as [[[Ho Hsf] Hd1] Hd2].
  destruct (open_core _ _ Hi Ho) as (c & H & Hf & Hcl & Hr). pose proof H as [].
  destruct (co_cbs0 Hcl) as (_ & _ & Hup & _). rewrite Hsf in Hup. symmetry in Hup. destruct (co_pending0 Hup) as [Hpe _].
  destruct (after_ack_core n0 w c len) as [H1 Hf1]; [done..|].
  cbn [ev_fire]. unfold client_sent_func. rewrite (deref_eq _ c), bind_Ret, Hcl, Hup by done. cbn [negb andb].
  rewrite (proj2 (Z.ltb_lt _ _)), (proj2 (Z.leb_le _ _)) by lia. cbn [andb check]. rewrite bind_Ret, (enter_eq _ c), bind_Ret by eauto using dead_null.
  rewrite (deref_eq _ (set_dead DeadFrame c)), bind_Ret, (store_eq _ (set_dead DeadFrame c)), bind_Ret by done.
  change (set_client _ _) with (after_ack len c w). change (set_recv _ _ _ _ _ (set_dead DeadFrame c)) with (acked len c).
  apply (leave_returns n0 (after_ack len c w)); [|done]. specialize (Hr Hup).
  destruct (Z.ltb_spec 0 (socks_recv_buf_used (acked len c))) as [Hu|Hu]; cbn [acked set_recv set_dead socks_recv_buf_used] in Hu.
  - destruct Hr as [(? & _)|(Hu1 & Hs1 & Hw1 & _ & Hrc & Hd)]; [lia|].
    replace (socks_recv_waiting (acked len c) && _) with true by (cbn; rewrite Hw1; symmetry; apply Z.ltb_lt; lia).
    cbn [check]. rewrite bind_Ret. by apply sent_func_continue.
  - destruct Hr as [(Hu1 & Hd & Hrc & Hp)|(? & _)]; [|lia].
    destruct (socks_closed (acked len c) && (socks_recv_tcp_pending (acked len c) =? 0)) eqn:E.
    + by apply (free_client_goes n0 (acked len c)).
    + eexists. split_and!; [done| |done]. split; [done|right]. exists (acked len c). split; [done|].
      split; [cbn; by rewrite Hcl|]. intros _ _. left. cbn in *. split_and!; try done. intros Hsc. rewrite Hsc in E. cbn in E.
      apply Z.eqb_neq in E. lia.
Qed.

Lemma murder_goes n0 w c : core n0 w c → frame_ok w → in_call w = false → ∃ w', client_murder w = Ret w' ∧ frame_ok w' ∧ freed n0 w' ∧ in_call w' = false.
Proof.
  intros [] Hf Hin. unfold frame_ok in Hf. rewrite co_client0 in Hf. unfold in_call in Hin.
  destruct w as [cl [st e r sn wn un] [lv ph sd rc] n f l], c as [ab de cd b bu up sc rb ru rs rw rp], l as [ft ts fs tt la lc sf fr].
  cbn in *. subst cl. destruct f; [done|]. destruct co_num0 as (-> & Hn & ->), co_live0 as [-> ->], co_ends0 as (He & Ha0 & Hc0).
  assert (E : (0 <? n0 + 1) = true) by (apply Z.ltb_lt; lia).
  assert (Hab : cd = false → ab = false ∧ la = 0 ∧ lc = 0).
  { intros ->. cbn in He. split_and!; [rewrite co_aborted0; apply Z.ltb_ge|..]; lia. }
  assert (Hdead : ab = true ∨ de = DeadNull) by (destruct Hf as [-> |[_ ?]]; auto).
  assert (Hft : ∃ rest, ft = ts ++ rest) by (by eexists).
  unfold client_murder, client_dealloc, tcp_callbacks, client_abort_pcb, tcp_abort, socks_client_free, DEAD_KILL_WITH, store, deref.
  unfold is_open in co_open0. cbn in co_open0.
  destruct cd; [destruct sc; [done|]|destruct (Hab eq_refl) as (-> & -> & ->); destruct Hdead as [?|Hde]; [done|subst de]; destruct st; try done; destruct sc];
    cbn; rewrite ?E; cbn; try (destruct ab; cbn; [|destruct Hdead as [?|Hde]; [done|subst de; cbn]]);
    (eexists; split; [done|split; [done|split; [|done]]]); unfold freed, is_open; cbn; split_and!; try done; lia.
Qed.

Lemma returns_step n0 r : returns n0 r → ∃ w' res, r = Ret (w', res) ∧ inv n0 w' ∧ in_call w' = false.
Proof. intros (w' & res & -> & ? & ? & _). by exists w', res. Qed.

Lemma goes_step n0 w r : goes n0 w r → in_call w = false → ∃ w' res, (w ← r; Ret (w, ERR_OK)) = Ret (w', res) ∧ inv n0 w' ∧ in_call w' = false.
Proof. intros (w' & -> & ? & Hc) Hin. exists w', ERR_OK. by rewrite Hc. Qed.

(** Every event that can happen is handled. *)
Lemma fire_ok n0 w ev :
  inv n0 w → in_call w = false → ev_enabled ev w = true →
  ∃ w' res, ev_fire ev w = Ret (w', res) ∧ inv n0 w' ∧ in_call w' = false.
Proof.
  intros Hi Hin He. destruct ev as [[d|] lw jobs|len lw jobs|lw|j lw|].
  - apply returns_step. by apply recv_func_data.
  - apply returns_step. by apply recv_func_eof.
  - apply returns_step. by apply sent_func_returns.
  - cbn in He. apply andb_true_iff in He as [Ho _]. destruct (open_core _ _ Hi Ho) as (c & H & Hf & Hcl & _).
    cbn [ev_fire]. apply (goes_step n0 w); [by apply (err_func_goes n0 c)|done].
  - cbn [ev_fire]. apply (goes_step n0 w); [by apply job_goes|done].
  - cbn in He. destruct Hi as [Hf [H|(c & H & _)]]; [destruct H as (H & _); by rewrite H in He|].
    destruct (murder_goes n0 w c H Hf Hin) as (w' & Hm & ? & ? & ?). exists w', ERR_OK. cbn [ev_fire]. rewrite Hm.
    split; [done|]. split; [|done]. split; auto.
Qed.

Lemma run_ok n0 evs w : inv n0 w → in_call w = false → ∃ w', run evs w = Ret w' ∧ inv n0 w' ∧ in_call w' = false.
Proof.
  revert w. induction evs as [|ev evs IH]; intros w Hi Hin; [by exists w|]. cbn [run].
  destruct (ev_enabled ev w) eqn:E; [|auto].
  destruct (fire_ok n0 w ev Hi Hin E) as (w1 & res & -> & Hi1 & Hin1). rewrite bind_Ret. auto.
Qed.

(** ** A connection from its start *)

(** lwIP has accepted a connection; [n0] clients are there. *)
Definition accepting (n0 : Z) : world :=
  World None (Pcb PcbOpen false false false TCP_WND 0) (Socks false SocksEnded None false) n0 None
    (Log [] [] [] [] 0 0 0 0).
(** The memory of a client structure. *)
Definition allocated (m : tcp_client) : Prop :=
  zlen (buf m) = TCP_WND ∧ zlen (socks_recv_buf m) = CLIENT_SOCKS_RECV_BUF_SIZE.

Lemma accept_ok n0 m jobs :
  0 ≤ n0 → allocated m → returns n0 (listener_accept_func (Some m) true jobs (accepting n0)).
Proof.
  intros H0 [Hb Hrb]. unfold listener_accept_func. cbn [negb accepting num_clients]. rewrite (proj2 (Z.leb_le _ _)) by done.
  cbn [check]. rewrite bind_Ret. unfold tcp_callbacks. cbn [pcb is_open status check accepting]. rewrite bind_Ret.
  set (c := Client false DeadNull false _ _ _ _ _ _ _ _ _). rewrite bind_Ret, (enter_eq _ c), bind_Ret by eauto using dead_null.
  eapply (leave_returns n0 (entered c _)); [|done]. apply commit_goes. split; [done|right]. exists (set_dead DeadFrame c). split; [|by split].
  unfold set_pcb. cbn. split; cbn; try done; try lia; try (split_and!; done || lia). by exists [].
Qed.

Definition session (n0 : Z) (m : tcp_client) (jobs : list (job * lwip)) (evs : list tevent) : outcome world :=
  '(w, _) ← listener_accept_func (Some m) true jobs (accepting n0); run evs w.

Lemma session_ok n0 m jobs evs :
  0 ≤ n0 → allocated m → ∃ w, session n0 m jobs evs = Ret w ∧ inv n0 w ∧ in_call w = false.
Proof.
  intros H0 Hm. destruct (accept_ok n0 m jobs H0 Hm) as (w & res & E & Hi & Hin & _). unfold session. rewrite E, bind_Ret.
  by apply run_ok.
Qed.

(** A structure as malloc may return it. *)
Definition demo_alloc : tcp_client :=
  Client true DeadDangling true (repeat 7 (Z.to_nat TCP_WND)) 3 true true
    (repeat 9 (Z.to_nat CLIENT_SOCKS_RECV_BUF_SIZE)) 4 5 true 6.
Definition demo_lwip : lwip := Lwip true [(2000, ERR_OK)] ERR_OK.
(** SOCKS comes up, data passes both ways, the application closes with bytes still buffered. *)
Definition demo_jobs : list (job * lwip) := [(JSocks SOCKS_EVENT_UP, demo_lwip)].
Definition demo_events : list tevent :=
  [EvRecv (Some [1; 2; 3]) demo_lwip []; EvJob (JRecv [8; 9]) demo_lwip; EvSent 2 demo_lwip []; EvJob (JSent 1) demo_lwip;
   EvRecv (Some [4; 5]) demo_lwip []; EvRecv None demo_lwip []].

(** C5: every call of a connection's handlers returns: whatever lwIP answers,
    in whatever order events and nested jobs come, no handler uses the
    structure, the control block or the SOCKS client after it was given up,
    writes through a pointer to a callback that returned, leaves a buffer, or
    fails an assertion.  Until both sides have ended the structure exists and
    is counted; then it is freed exactly once, with exactly one close or abort
    of the control block and exactly one free of the SOCKS client. *)
Theorem tcp_client_safe n0 m jobs evs :
  0 ≤ n0 → allocated m →
  ∃ w, session n0 m jobs evs = Ret w ∧
    match client w with
    | Some c =>
        num_clients w = n0 + 1 ∧ frees (log w) = 0 ∧ client_closed c && socks_closed c = false ∧
        aborts (log w) + closes (log w) = b2z (client_closed c) ∧ is_open (pcb w) = negb (client_closed c) ∧
        socks_frees (log w) = b2z (socks_closed c) ∧ live (socks w) = negb (socks_closed c)
    | None =>
        num_clients w = n0 ∧ frees (log w) = 1 ∧ aborts (log w) + closes (log w) = 1 ∧ is_open (pcb w) = false ∧
        socks_frees (log w) = 1 ∧ live (socks w) = false
    end.
Proof.
  intros H0 Hm. destruct (session_ok n0 m jobs evs H0 Hm) as (w & E & (_ & [H|(c & H & _)]) & _); exists w; (split; [done|]).
  - destruct H as (-> & ? & ? & ? & ? & ? & ? & ? & ? & _). done.
  - pose proof H as []. rewrite co_client0. destruct co_num0 as (? & ? & ?), co_ends0 as (? & ? & ?), co_live0. done.
Qed.

Lemma tcp_client_safe_witness :
  ∃ w, session 2 demo_alloc demo_jobs demo_events = Ret w ∧
    match client w with
    | Some c =>
        num_clients w = 2 + 1 ∧ frees (log w) = 0 ∧ client_closed c && socks_closed c = false ∧
        aborts (log w) + closes (log w) = b2z (client_closed c) ∧ is_open (pcb w) = negb (client_closed c) ∧
        socks_frees (log w) = b2z (socks_closed c) ∧ live (socks w) = negb (socks_closed c)
    | None =>
        num_clients w = 2 ∧ frees (log w) = 1 ∧ aborts (log w) + closes (log w) = 1 ∧ is_open (pcb w) = false ∧
        socks_frees (log w) = 1 ∧ live (socks w) = false
    end.
Proof. apply (tcp_client_safe 2 demo_alloc demo_jobs demo_events); [lia|split; vm_compute; reflexivity]. Defined.

(** C6: a connection relays the bytes of both directions in order, without loss
    or change: what SOCKS has been given is a prefix of what the application
    sent, the rest waits in [buf] while the structure exists; what lwIP has
    taken is a prefix of what SOCKS delivered, and while both ends are up the
    rest is exactly the unsent part of [socks_recv_buf].  The window announced
    to the application is the free part of [buf], so data always fits. *)
Theorem tcp_client_streams n0 m jobs evs :
  0 ≤ n0 → allocated m →
  ∃ w, session n0 m jobs evs = Ret w ∧
    (∃ rest, from_tcp (log w) = to_socks (log w) ++ rest) ∧ (∃ rest, from_socks (log w) = to_tcp (log w) ++ rest) ∧
    ∀ c, client w = Some c →
      from_tcp (log w) = to_socks (log w) ++ take (Z.to_nat (buf_used c)) (buf c) ∧
      (client_closed c = false → rcv_wnd (pcb w) = TCP_WND - buf_used c) ∧
      (client_closed c = false → socks_up c = true →
       from_socks (log w) = to_tcp (log w) ++ (if socks_recv_buf_used c =? -1 then [] else unsent c)).
Proof.
  intros H0 Hm. destruct (session_ok n0 m jobs evs H0 Hm) as (w & E & (_ & [H|(c & H & _ & Hr)]) & _); exists w; (split; [done|]).
  - destruct H as (Hc & _ & _ & _ & _ & _ & _ & _ & _ & ? & ?). rewrite Hc. done.
  - pose proof H as []. split; [by eexists|split; [done|]]. rewrite co_client0. intros ? [= <-]. split_and!; [done|naive_solver|].
    intros Hcl Hup. destruct (Hr Hcl Hup) as [(-> & -> & _)|(Hu & _ & _ & _ & _ & ->)]; cbn; [by rewrite app_nil_r|].
    by rewrite (proj2 (Z.eqb_neq _ _)) by lia.
Qed.

Lemma tcp_client_streams_witness :
  ∃ w, session 2 demo_alloc demo_jobs demo_events = Ret w ∧
    (∃ rest, from_tcp (log w) = to_socks (log w) ++ rest) ∧ (∃ rest, from_socks (log w) = to_tcp (log w) ++ rest) ∧
    ∀ c, client w = Some c →
      from_tcp (log w) = to_socks (log w) ++ take (Z.to_nat (buf_used c)) (buf c) ∧
      (client_closed c = false → rcv_wnd (pcb w) = TCP_WND - buf_used c) ∧
      (client_closed c = false → socks_up c = true →
       from_socks (log w) = to_tcp (log w) ++ (if socks_recv_buf_used c =? -1 then [] else unsent c)).
Proof. apply (tcp_client_streams 2 demo_alloc demo_jobs demo_events); [lia|split; vm_compute; reflexivity]. Defined.

Lemma aborted_zero n0 w : inv n0 w → is_open (pcb w) = true → aborts (log w) = 0.
Proof. intros Hi Ho. destruct (open_core _ _ Hi Ho) as (c & H & _ & Hcl & _). by destruct (core_accounted _ _ _ H Hcl) as (_ & _ & ? & _). Qed.

Definition is_callback (ev : tevent) : bool := match ev with EvRecv _ _ _ | EvSent _ _ _ => true | _ => false end.

Lemma callback_returns n0 w ev :
  inv n0 w → in_call w = false → is_callback ev = true → ev_enabled ev w = true →
  returns n0 (ev_fire ev w) ∧ is_open (pcb w) = true.
Proof.
  intros Hi Hin Hcb He. destruct ev as [[d|] lw jobs|len lw jobs|lw|j lw|]; try discriminate Hcb.
  - split; [by apply recv_func_data|]. cbn [ev_enabled] in He. rewrite !andb_true_iff in He. tauto.
  - split; [by apply recv_func_eof|]. cbn [ev_enabled] in He. rewrite !andb_true_iff in He. tauto.
  - split; [by apply sent_func_returns|]. cbn [ev_enabled] in He. rewrite !andb_true_iff in He. tauto.
Qed.

(** At any point of a connection, an lwIP callback returns [ERR_ABRT]
    exactly when tcp_abort was called during it, directly or from a nested job,
    and [ERR_OK] otherwise; [client_recv_func] never answers [ERR_MEM]. *)
Theorem tcp_callback_result n0 m jobs evs ev :
  0 ≤ n0 → allocated m → is_callback ev = true →
  ∃ w, session n0 m jobs evs = Ret w ∧
    (ev_enabled ev w = true →
     ∃ w' res, ev_fire ev w = Ret (w', res) ∧
       (aborts (log w') = aborts (log w) ∧ res = ERR_OK ∨ aborts (log w') = aborts (log w) + 1 ∧ res = ERR_ABRT)).
Proof.
  intros H0 Hm Hcb. destruct (session_ok n0 m jobs evs H0 Hm) as (w & E & Hi & Hin). exists w. split; [done|]. intros He.
  destruct (callback_returns n0 w ev Hi Hin Hcb He) as [(w' & res & -> & [_ Hi'] & _ & ->) Ho].
  exists w', (if 0 <? aborts (log w') then ERR_ABRT else ERR_OK). split; [done|]. rewrite (aborted_zero n0 w Hi Ho).
  assert (Ha : aborts (log w') = 0 ∨ aborts (log w') = 1).
  { destruct Hi' as [(_ & _ & _ & ? & ? & ? & _)|(c & H & _)]; [lia|].
    destruct (co_ends _ _ _ H) as (? & ? & ?). destruct (client_closed c); cbn in *; lia. }
  destruct Ha as [-> | ->]; [by left|by right].
Qed.

Definition demo_abort : tevent := EvRecv None (Lwip false [] ERR_OK) [].
Lemma tcp_callback_result_witness :
  ∃ w, session 2 demo_alloc demo_jobs (take 4 demo_events) = Ret w ∧ ev_enabled demo_abort w = true ∧
    ∃ w' res, ev_fire demo_abort w = Ret (w', res) ∧
      (aborts (log w') = aborts (log w) ∧ res = ERR_OK ∨ aborts (log w') = aborts (log w) + 1 ∧ res = ERR_ABRT).
Proof.
  destruct (tcp_callback_result 2 demo_alloc demo_jobs (take 4 demo_events) demo_abort) as (w & E & H);
    [lia|split; vm_compute; reflexivity|reflexivity|].
  assert (En : ev_enabled demo_abort w = true) by (vm_compute in E; injection E as <-; reflexivity).
  exists w. split; [exact E|split; [exact En|exact (H En)]].
Defined.

(** C28: a connection never stalls.  Bytes that wait for SOCKS are being sent
    once SOCKS is up.  While both ends are up, the client receives from SOCKS
    or waits for an acknowledgement of bytes that lwIP has.  After SOCKS ended,
    such an acknowledgement is outstanding and its callback is set; after the
    application closed, bytes are left to send. *)
Theorem tcp_client_progress n0 m jobs evs :
  0 ≤ n0 → allocated m →
  ∃ w, session n0 m jobs evs = Ret w ∧
    ∀ c, client w = Some c →
      (socks_closed c = false → socks_up c = true → 0 < buf_used c → ∃ len, sending (socks w) = Some len ∧ 0 < len ≤ buf_used c) ∧
      (client_closed c = false → socks_closed c = false → socks_up c = true →
       receiving (socks w) = true ∨ socks_recv_waiting c = true ∧ 0 < unacked (pcb w) ∧ sentf (pcb w) = true) ∧
      (socks_closed c = true → socks_up c = true ∧ 0 < unacked (pcb w) ∧ sentf (pcb w) = true) ∧
      (client_closed c = true → 0 < buf_used c).
Proof.
  intros H0 Hm. destruct (session_ok n0 m jobs evs H0 Hm) as (w & E & (_ & [H|(c & H & Hb & Hr)]) & _); exists w; (split; [done|]).
  { destruct H as (Hc & _). by rewrite Hc. }
  pose proof H as []. rewrite co_client0. intros ? [= <-]. split_and!; try done.
  - intros Hsc Hup Hbu. destruct (sending (socks w)) as [len|]; [exists len; tauto|]. specialize (co_sending0 Hsc Hup). lia.
  - intros Hcl Hsc Hup. destruct (co_cbs0 Hcl) as (_ & _ & Hsf & _), (co_pending0 Hup) as [Hp _]. rewrite Hup in Hsf.
    destruct (Hr Hcl Hup) as [(_ & _ & Hrc & _)|(_ & _ & ? & ? & _)]; [left; by rewrite Hrc, Hsc|right; rewrite <- Hp; done].
  - intros Hsc. pose proof (co_socks_up0 Hsc) as Hup. rewrite Hsc, andb_true_r in co_one0.
    destruct (co_cbs0 co_one0) as (_ & _ & Hsf & _), (co_pending0 Hup) as [Hp _]. rewrite Hup in Hsf. rewrite <- Hp.
    destruct (Hr co_one0 Hup) as [(_ & _ & _ & ?)|(_ & _ & _ & ? & _)]; auto.
Qed.

Lemma tcp_client_progress_witness :
  ∃ w, session 2 demo_alloc demo_jobs demo_events = Ret w ∧
    ∀ c, client w = Some c →
      (socks_closed c = false → socks_up c = true → 0 < buf_used c → ∃ len, sending (socks w) = Some len ∧ 0 < len ≤ buf_used c) ∧
      (client_closed c = false → socks_closed c = false → socks_up c = true →
       receiving (socks w) = true ∨ socks_recv_waiting c = true ∧ 0 < unacked (pcb w) ∧ sentf (pcb w) = true) ∧
      (socks_closed c = true → socks_up c = true ∧ 0 < unacked (pcb w) ∧ sentf (pcb w) = true) ∧
      (client_closed c = true → 0 < buf_used c).
Proof. apply (tcp_client_progress 2 demo_alloc demo_jobs demo_events); [lia|split; vm_compute; reflexivity]. Defined.

(** The last send of a closed client frees it, with every byte delivered. *)
Lemma last_sent n0 w c lw :
  core n0 w c → frame_ok w → client_closed c = true → socks_closed c = false → sending (socks w) = Some (buf_used c) →
  ∃ w', job_run (JSent (buf_used c)) lw w = Ret w' ∧ client w' = None ∧ to_socks (log w') = from_tcp (log w').
Proof.
  intros H Hf Hcl Hsc Hs. pose proof H as []. rewrite Hs in co_sending0. destruct co_sending0 as (_ & Hup & Hb).
  destruct (sent_job_eq n0 w c (buf_used c) (buf_used c) lw H Hsc Hs) as (b' & Hlb & Hbb & ->); [lia|].
  rewrite Z.sub_diag, Hcl. cbn [negb orb Z.ltb Z.compare].
  assert (Hc1 : core n0 (after_sent (buf_used c) b' c w) (set_buf b' (buf_used c - buf_used c) c)) by (apply after_sent_core; done || lia).
  destruct co_num0 as (? & ? & ?), co_live0 as [Hl _]. rewrite Hsc in Hl.
  rewrite (free_socks_eq n0 (set_buf b' (buf_used c - buf_used c) c)); cbn; try done.
  - eexists. split; [done|]. unfold finish_socks. cbn. rewrite Hcl, andb_false_r. cbn. split; [done|]. by rewrite co_up0.
  - unfold frame_ok in *. by rewrite co_client0 in Hf.
  - rewrite Hcl, co_open0. by rewrite Hcl.
  - by rewrite Hcl, andb_false_r.
Qed.

Lemma sent_enabled w n len :
  live (socks w) = true → sending (socks w) = Some len → 0 < n ≤ len → job_enabled (JSent n) w = true.
Proof. intros Hl Hs Hn. unfold job_enabled. rewrite Hl, Hs. solve_bool. Qed.

Lemma sent_none_disabled w : job_enabled (JSent 0) w = false.
Proof. unfold job_enabled. by destruct (live (socks w)), (sending (socks w)). Qed.

(** C29: when the application has closed and SOCKS is up, the connection drains:
    once SOCKS has taken the bytes it was given, in one piece or two, SOCKS has
    every byte that the application sent and the structure is freed. *)
Theorem tcp_client_drains n0 m jobs evs w c lw :
  0 ≤ n0 → allocated m → session n0 m jobs evs = Ret w → client w = Some c → client_closed c = true → socks_up c = true →
  ∃ n w', run [EvJob (JSent n) lw; EvJob (JSent (buf_used c - n)) lw] w = Ret w' ∧ client w' = None ∧
    to_socks (log w') = from_tcp (log w').
Proof.
  intros H0 Hm Hs Hc Hcl Hup. destruct (session_ok n0 m jobs evs H0 Hm) as (w0 & E & (Hf & Hi) & _).
  rewrite Hs in E. injection E as <-. destruct Hi as [(Hn & _)|(c0 & H & Hb & _)]; [congruence|].
  pose proof H as []. assert (c0 = c) as -> by congruence. specialize (Hb Hcl). rewrite Hcl in co_one0. cbn in co_one0.
  destruct co_live0 as [Hl _]. rewrite co_one0 in Hl. destruct (sending (socks w)) as [len|] eqn:Es; [|specialize (co_sending0 co_one0 Hup); lia].
  destruct co_sending0 as (_ & _ & Hlen). exists len. cbn [run ev_enabled ev_fire]. rewrite (sent_enabled w len len) by (done || lia).
  destruct (Z.eq_dec len (buf_used c)) as [-> |Hne].
  - destruct (last_sent n0 w c lw) as (w' & -> & Hcn & Hd); [done..|]. exists w'. rewrite !bind_Ret, Z.sub_diag, sent_none_disabled. done.
  - destruct (sent_job_eq n0 w c len len lw H co_one0 Es) as (b' & Hlb & Hbb & ->); [lia|].
    rewrite (proj2 (Z.ltb_lt 0 (buf_used c - len))) by lia. cbn [orb]. rewrite !bind_Ret.
    assert (Hc1 : core n0 (after_sent len b' c w) (set_buf b' (buf_used c - len) c)) by (apply after_sent_core; done || lia).
    assert (Es1 : sending (socks (after_sent len b' c w)) = Some (buf_used c - len)).
    { cbn. by rewrite (proj2 (Z.ltb_lt 0 (buf_used c - len))) by lia. }
    rewrite (sent_enabled (after_sent len b' c w) _ _ Hl Es1) by lia.
    destruct (last_sent n0 (after_sent len b' c w) (set_buf b' (buf_used c - len) c) lw) as (w' & Hj & Hcn & Hd); try done.
    { unfold frame_ok in *. by rewrite co_client0 in Hf. }
    exists w'. cbn [buf_used set_buf] in Hj. by rewrite Hj, !bind_Ret.
Qed.

Definition demo_world : world := match session 2 demo_alloc demo_jobs demo_events with Ret w => w | _ => accepting 2 end.
Definition demo_client : tcp_client := match client demo_world with Some c => c | None => demo_alloc end.
Lemma tcp_client_drains_witness :
  ∃ n w', run [EvJob (JSent n) demo_lwip; EvJob (JSent (buf_used demo_client - n)) demo_lwip] demo_world = Ret w' ∧
    client w' = None ∧ to_socks (log w') = from_tcp (log w').
Proof.
  apply (tcp_client_drains 2 demo_alloc demo_jobs demo_events demo_world demo_client demo_lwip);
    [lia|split; vm_compute; reflexivity|vm_compute; reflexivity..].
Defined.

(** Examples: the application closes with four bytes buffered; SOCKS takes them
    and the client is freed. *)
Example demo_drained :
  match run [EvJob (JSent 2) demo_lwip; EvJob (JSent 2) demo_lwip] demo_world with
  | Ret w => (client w, to_socks (log w), to_tcp (log w), num_clients w, closes (log w), aborts (log w))
             = (None, [1; 2; 3; 4; 5], [8; 9], 2, 1, 0)
  | _ => False
  end.
Proof. vm_compute. reflexivity. Qed.
