(* ===== verification/AvlTree.v ===== *)
(** * Trees and paths for the AVL tree of badvpn

    The abstract side of structure/BAVL.h: binary trees whose nodes carry their
    address, value and balance factor; the path from a node to the root as a
    list of frames; heights and the balance invariant.  A tree is determined,
    as far as its users see, by its in-order list. *)
From S2P Require Import Prelude.
From stdpp Require Import gmap.
#[local] Open Scope Z_scope.

(** Addresses of nodes. *)
Abbreviation loc := positive.

Section trees.
Context {V : Type}.

Inductive tree := Leaf | Br (l : tree) (x : loc) (v : V) (b : Z) (r : tree).

(** The node [x] with [a] on side [side] and [o] on the other. *)
Definition tn (side : bool) (a : tree) (x : loc) (v : V) (b : Z) (o : tree) : tree :=
  if side then Br o x v b a else Br a x v b o.

Definition rootof (t : tree) : option loc := match t with Leaf => None | Br _ x _ _ _ => Some x end.

Fixpoint inorder (t : tree) : list (loc * V) :=
  match t with Leaf => [] | Br l x v _ r => inorder l ++ (x, v) :: inorder r end.

Definition locs (t : tree) : list loc := (inorder t).*1.

Fixpoint height (t : tree) : Z := match t with Leaf => 0 | Br l _ _ _ r => 1 + Z.max (height l) (height r) end.

(** Balance factors are right and within bounds. *)
Fixpoint balanced (t : tree) : Prop :=
  match t with
  | Leaf => True
  | Br l _ _ b r => b = height r - height l ∧ -1 ≤ b ≤ 1 ∧ balanced l ∧ balanced r
  end.

(** One step towards the root: the hole is on side [side] of [x], [sib] on the other. *)
Record frame := Frame { fside : bool; floc : loc; fval : V; fbal : Z; fsib : tree }.
Definition plug1 (f : frame) (t : tree) : tree := tn (fside f) t (floc f) (fval f) (fbal f) (fsib f).
Fixpoint plug (c : list frame) (t : tree) : tree := match c with [] => t | f :: c' => plug c' (plug1 f t) end.
Definition up (c : list frame) : option loc := match c with [] => None | f :: _ => Some (floc f) end.
Fixpoint ctx_top (c : list frame) (hole : option loc) : option loc :=
  match c with [] => hole | f :: c' => ctx_top c' (Some (floc f)) end.

Fixpoint before (c : list frame) : list (loc * V) :=
  match c with
  | [] => []
  | f :: c' => before c' ++ (if fside f then inorder (fsib f) ++ [(floc f, fval f)] else [])
  end.
Fixpoint after (c : list frame) : list (loc * V) :=
  match c with
  | [] => []
  | f :: c' => (if fside f then [] else (floc f, fval f) :: inorder (fsib f)) ++ after c'
  end.

Lemma inorder_tn side a x v b o :
  inorder (tn side a x v b o) = if side then inorder o ++ (x, v) :: inorder a else inorder a ++ (x, v) :: inorder o.
Proof. by destruct side. Qed.

Lemma inorder_plug c t : inorder (plug c t) = before c ++ inorder t ++ after c.
Proof.
  revert t. induction c as [|[s x v b o] c IH]; intros t; [by rewrite app_nil_r|]. cbn [plug before after].
  rewrite IH. unfold plug1. cbn [fside floc fval fbal fsib]. rewrite inorder_tn. destruct s; by list_simplifier.
Qed.

Lemma height_nonneg t : 0 ≤ height t.
Proof. induction t; cbn; lia. Qed.

(** [height] of the child on side [side], less that of the other. *)
Definition bal_to (side : bool) (b : Z) : Z := if side then b else - b.

Lemma height_tn side a x v b o : height (tn side a x v b o) = 1 + Z.max (height a) (height o).
Proof. destruct side; cbn; lia. Qed.

Lemma balanced_tn side a x v b o :
  balanced (tn side a x v b o) ↔ bal_to side b = height a - height o ∧ -1 ≤ b ≤ 1 ∧ balanced a ∧ balanced o.
Proof. destruct side; cbn; split; intros (? & ? & ? & ?); split_and!; try done; lia. Qed.

(** The frames are balanced when the hole has height [h]. *)
Fixpoint bal_ctx (c : list frame) (h : Z) : Prop :=
  match c with
  | [] => True
  | f :: c' => bal_to (fside f) (fbal f) = h - height (fsib f) ∧ -1 ≤ fbal f ≤ 1 ∧ balanced (fsib f) ∧
               bal_ctx c' (1 + Z.max h (height (fsib f)))
  end.

Lemma balanced_plug c t : balanced (plug c t) ↔ balanced t ∧ bal_ctx c (height t).
Proof.
  revert t. induction c as [|[s x v b o] c IH]; intros t; [cbn; tauto|]. cbn [plug]. rewrite IH. unfold plug1.
  cbn [fside floc fval fbal fsib bal_ctx]. rewrite balanced_tn, height_tn. tauto.
Qed.

(** A balanced tree of height [h] has at least [2 ^ (h / 2)] - 1 nodes. *)
Lemma balanced_size t : balanced t → ∀ k : nat, 2 * Z.of_nat k ≤ height t → 2 ^ Z.of_nat k ≤ Z.of_nat (length (inorder t)) + 1.
Proof.
  induction t as [|l IHl x v b r IHr]; cbn [balanced height inorder].
  - intros _ k Hk. assert (k = 0%nat) as -> by lia. cbn. lia.
  - intros (Hb & Hr & Hl1 & Hr1) k Hk. rewrite length_app. cbn [length]. destruct k as [|k]; [cbn; lia|].
    specialize (IHl Hl1 k). specialize (IHr Hr1 k). rewrite Nat2Z.inj_succ, Z.pow_succ_r by lia. lia.
Qed.

End trees.
Arguments tree : clear implicits.
Arguments frame : clear implicits.
