(* ===== verification/Bavl.v ===== *)
(** * The AVL tree of badvpn

    Models structure/BAVL.h.  Nodes are cells of a heap, with a parent pointer,
    two links, a balance factor and the value found at the tree's offset from
    the node; the tree holds the pointer to its root.  Every store of the code
    is a store here; following a null pointer, or one to a cell that is not
    there, is a [Fault], and so is a failed [ASSERT].  The balance factor is an
    [int8_t] that stays between -2 and 2.  Loops that follow links carry fuel:
    the number of cells is enough, because a path visits no cell twice. *)
From S2P Require Import Prelude AvlTree.
From stdpp Require Import gmap.
#[local] Open Scope Z_scope.

Section bavl.
Context {V : Type}.

Record BAVLNode := Node { parent : option loc; link0 : option loc; link1 : option loc; balance : Z; value : V }.
Record BAVL := Tree { root : option loc; heap : gmap loc BAVLNode }.

Definition link (n : BAVLNode) (side : bool) : option loc := if side then link1 n else link0 n.
Definition set_parent (p : option loc) (n : BAVLNode) : BAVLNode := Node p (link0 n) (link1 n) (balance n) (value n).
Definition set_link (side : bool) (p : option loc) (n : BAVLNode) : BAVLNode :=
  if side then Node (parent n) (link0 n) p (balance n) (value n) else Node (parent n) p (link1 n) (balance n) (value n).
Definition set_balance (b : Z) (n : BAVLNode) : BAVLNode := Node (parent n) (link0 n) (link1 n) b (value n).

(** Reading and writing the fields of [*x]. *)
Definition get (x : loc) (o : BAVL) : outcome BAVLNode :=
  match heap o !! x with Some n => Ret n | None => Fault end.
Definition upd (x : loc) (f : BAVLNode → BAVLNode) (o : BAVL) : outcome BAVL :=
  n ← get x o; Ret (Tree (root o) (<[x := f n]> (heap o))).
Definition deref (p : option loc) : outcome loc := match p with Some x => Ret x | None => Fault end.
Definition set_root (p : option loc) (o : BAVL) : BAVL := Tree p (heap o).
Definition is_link (x : loc) (p : option loc) : bool := bool_decide (p = Some x).

(** [p->link[x == p->link[1]] = n], or the root when [p] is null. *)
Definition replace_in_parent (p : option loc) (x : loc) (n : option loc) (o : BAVL) : outcome BAVL :=
  match p with
  | Some p => np ← get p o; upd p (set_link (is_link x (link1 np)) n) o
  | None => Ret (set_root n o)
  end.
(** [c->parent = p] unless [c] is null. *)
Definition adopt (c : option loc) (p : loc) (o : BAVL) : outcome BAVL :=
  match c with Some c => upd c (set_parent (Some p)) o | None => Ret o end.

Definition _BAVL_rotate (r : loc) (dir : bool) (o : BAVL) : outcome BAVL :=
  n ← get r o; nr ← deref (link n (negb dir)); nn ← get nr o;
  o ← upd r (set_link (negb dir) (link nn dir)) o;
  o ← adopt (link nn dir) r o;
  o ← upd nr (set_link dir (Some r)) o;
  n ← get r o; o ← upd nr (set_parent (parent n)) o;
  o ← replace_in_parent (parent n) r (Some nr) o;
  upd r (set_parent (Some nr)) o.

(** Follows the links of side [side] to the end; [_BAVL_subtree_max] is the right side. *)
Fixpoint last_link (fuel : nat) (side : bool) (x : loc) (o : BAVL) : outcome loc :=
  match fuel with
  | O => Fault
  | S fuel => n ← get x o; match link n side with Some y => last_link fuel side y o | None => Ret x end
  end.
Definition fuel_of (o : BAVL) : nat := S (size (heap o)).
Definition _BAVL_subtree_max (x : loc) (o : BAVL) : outcome loc := last_link (fuel_of o) true x o.

Definition _BAVL_replace_subtree (dest : loc) (n : option loc) (o : BAVL) : outcome BAVL :=
  d ← get dest o;
  o ← replace_in_parent (parent d) dest n o;
  match n with Some n => upd n (set_parent (parent d)) o | None => Ret o end.

(** [n2] is a child of [n1]. *)
Definition swap_adjacent (n1 n2 : loc) (o : BAVL) : outcome BAVL :=
  a ← get n1 o; b ← get n2 o;
  let side := is_link n2 (link1 a) in
  let c := link a (negb side) in
  o ← upd n1 (set_link false (link0 b)) o; o ← adopt (link0 b) n1 o;
  o ← upd n1 (set_link true (link1 b)) o; o ← adopt (link1 b) n1 o;
  a ← get n1 o;
  o ← upd n2 (set_parent (parent a)) o;
  o ← replace_in_parent (parent a) n1 (Some n2) o;
  o ← upd n2 (set_link side (Some n1)) o;
  o ← upd n1 (set_parent (Some n2)) o;
  o ← upd n2 (set_link (negb side) c) o;
  adopt c n2 o.

Definition swap_apart (n1 n2 : loc) (o : BAVL) : outcome BAVL :=
  a ← get n1 o; b ← get n2 o;
  (* parents *)
  o ← upd n1 (set_parent (parent b)) o;
  o ← replace_in_parent (parent b) n2 (Some n1) o;
  o ← upd n2 (set_parent (parent a)) o;
  o ← replace_in_parent (parent a) n1 (Some n2) o;
  (* left children *)
  a ← get n1 o; b ← get n2 o;
  o ← upd n1 (set_link false (link0 b)) o; o ← adopt (link0 b) n1 o;
  o ← upd n2 (set_link false (link0 a)) o; o ← adopt (link0 a) n2 o;
  (* right children *)
  a ← get n1 o; b ← get n2 o;
  o ← upd n1 (set_link true (link1 b)) o; o ← adopt (link1 b) n1 o;
  o ← upd n2 (set_link true (link1 a)) o; adopt (link1 a) n2 o.

Definition _BAVL_swap_nodes (n1 n2 : loc) (o : BAVL) : outcome BAVL :=
  a ← get n1 o; b ← get n2 o;
  o ← (if is_link n1 (parent b) || is_link n2 (parent a)
       then if is_link n2 (parent a) then swap_adjacent n2 n1 o else swap_adjacent n1 n2 o
       else swap_apart n1 n2 o);
  a ← get n1 o; b ← get n2 o;
  o ← upd n1 (set_balance (balance b)) o;
  upd n2 (set_balance (balance a)) o.

Definition OPTNEG (a : Z) (neg : bool) : Z := if neg then - a else a.

(** The transformations of [_BAVL_rebalance] when the balance factor is 2 or -2:
    the new root of the subtree and the corrected change of its height. *)
Definition rebalance_rotate (node : loc) (delta : Z) (o : BAVL) : outcome (BAVL * loc * Z) :=
  n ← get node o;
  if (balance n =? 2) || (balance n =? -2) then
    let bside := balance n =? 2 in let bsidef := if bside then 1 else -1 in
    child ← deref (link n bside); ch ← get child o;
    if balance ch * bsidef =? 1 then
      o ← _BAVL_rotate node (negb bside) o;
      o ← upd node (set_balance 0) o; o ← upd child (set_balance 0) o;
      Ret (o, child, delta - 1)
    else if balance ch * bsidef =? 0 then
      o ← _BAVL_rotate node (negb bside) o;
      o ← upd node (set_balance bsidef) o; o ← upd child (set_balance (- bsidef)) o;
      Ret (o, child, delta)
    else if balance ch * bsidef =? -1 then
      gchild ← deref (link ch (negb bside));
      o ← _BAVL_rotate child bside o; o ← _BAVL_rotate node (negb bside) o;
      g ← get gchild o;
      o ← upd node (set_balance (- Z.max 0 (balance g * bsidef) * bsidef)) o;
      o ← upd child (set_balance (Z.max 0 (- balance g * bsidef) * bsidef)) o;
      o ← upd gchild (set_balance 0) o;
      Ret (o, gchild, delta - 1)
    else Fault
  else Ret (o, node, delta).

Definition in_range (z : Z) : bool := (-1 <=? z) && (z <=? 1).

Fixpoint _BAVL_rebalance (fuel : nat) (node : loc) (side : bool) (deltac : Z) (o : BAVL) : outcome BAVL :=
  match fuel with
  | O => Fault
  | S fuel =>
      n ← get node o; _ ← assert (in_range deltac && in_range (balance n));
      if deltac =? 0 then Ret o
      else
        let delta := Z.max deltac (OPTNEG (balance n) side) - Z.max 0 (OPTNEG (balance n) side) in
        _ ← assert (in_range delta);
        o ← upd node (set_balance (balance n - OPTNEG deltac side)) o;
        '(o, node, delta) ← rebalance_rotate node delta o;
        _ ← assert (in_range delta);
        n ← get node o;
        match parent n with
        | Some p => np ← get p o; _BAVL_rebalance fuel p (is_link node (link1 np)) delta o
        | None => Ret o
        end
  end.

Definition BAVL_Init (h : gmap loc BAVLNode) : BAVL := Tree None h.
Definition BAVL_IsEmpty (o : BAVL) : bool := match root o with None => true | Some _ => false end.

Section order.
Context (comparator : V → V → Z).

Definition _BAVL_compare_values (v1 v2 : V) : outcome Z :=
  let res := comparator v1 v2 in
  _ ← assert ((res =? -1) || (res =? 0) || (res =? 1)); Ret res.

(** The search of [BAVL_Insert] and of the lookups: the last node visited and
    the result of its comparison. *)
Fixpoint search (fuel : nat) (v : V) (c : loc) (o : BAVL) : outcome (loc * Z) :=
  match fuel with
  | O => Fault
  | S fuel =>
      n ← get c o; comp ← _BAVL_compare_values v (value n);
      if comp =? 0 then Ret (c, comp)
      else match link n (comp =? 1) with Some c' => search fuel v c' o | None => Ret (c, comp) end
  end.

(** The result and [*ref]. *)
Definition BAVL_Insert (node : loc) (o : BAVL) : outcome (BAVL * bool * option loc) :=
  match root o with
  | None =>
      n ← get node o;
      Ret (Tree (Some node) (<[node := Node None None None 0 (value n)]> (heap o)), true, None)
  | Some r =>
      n ← get node o; '(c, comp) ← search (fuel_of o) (value n) r o;
      if comp =? 0 then Ret (o, false, Some c)
      else
        let side := comp =? 1 in
        o ← upd c (set_link side (Some node)) o;
        o ← upd node (λ n, Node (Some c) None None 0 (value n)) o;
        o ← _BAVL_rebalance (fuel_of o) c side 1 o;
        Ret (o, true, Some c)
  end.

(** The second half of [BAVL_Remove], for a node with at most one child. *)
Definition remove_node (node : loc) (o : BAVL) : outcome BAVL :=
  n ← get node o;
  _ ← assert (match link0 n, link1 n with Some _, Some _ => false | _, _ => true end);
  let child := match link0 n with Some c => Some c | None => link1 n end in
  match parent n with
  | Some p =>
      np ← get p o;
      let side := is_link node (link1 np) in
      o ← _BAVL_replace_subtree node child o;
      _BAVL_rebalance (fuel_of o) p side (-1) o
  | None => _BAVL_replace_subtree node child o
  end.

Definition BAVL_Remove (node : loc) (o : BAVL) : outcome BAVL :=
  n ← get node o;
  o ← (match link0 n, link1 n with
       | Some l, Some _ => max ← _BAVL_subtree_max l o; _BAVL_swap_nodes node max o
       | _, _ => Ret o
       end);
  remove_node node o.

Definition BAVL_Lookup (v : V) (o : BAVL) : outcome (option loc) :=
  match root o with
  | None => Ret None
  | Some r => '(c, _) ← search (fuel_of o) v r o; Ret (Some c)
  end.

Definition BAVL_LookupExact (v : V) (o : BAVL) : outcome (option loc) :=
  match root o with
  | None => Ret None
  | Some r => '(c, comp) ← search (fuel_of o) v r o; Ret (if comp =? 0 then Some c else None)
  end.
End order.

Definition BAVL_GetEnd (side : bool) (o : BAVL) : outcome (option loc) :=
  match root o with None => Ret None | Some r => x ← last_link (fuel_of o) side r o; Ret (Some x) end.
Definition BAVL_GetFirst : BAVL → outcome (option loc) := BAVL_GetEnd false.
Definition BAVL_GetLast : BAVL → outcome (option loc) := BAVL_GetEnd true.

(** Climbs while the node is on side [side] of its parent. *)
Fixpoint climb (fuel : nat) (side : bool) (x : loc) (o : BAVL) : outcome (option loc) :=
  match fuel with
  | O => Fault
  | S fuel =>
      n ← get x o;
      match parent n with
      | Some p => np ← get p o; if is_link x (link np side) then climb fuel side p o else Ret (Some p)
      | None => Ret None
      end
  end.
Definition BAVL_GetNeighbour (side : bool) (x : loc) (o : BAVL) : outcome (option loc) :=
  n ← get x o;
  match link n side with
  | Some y => z ← last_link (fuel_of o) (negb side) y o; Ret (Some z)
  | None => climb (fuel_of o) side x o
  end.
Definition BAVL_GetNext : loc → BAVL → outcome (option loc) := BAVL_GetNeighbour true.
Definition BAVL_GetPrev : loc → BAVL → outcome (option loc) := BAVL_GetNeighbour false.

(** [BAVL_Verify]: the height of the subtree, or a failed assertion. *)
Fixpoint _BAVL_assert_recurser (fuel : nat) (comparator : V → V → Z) (x : loc) (o : BAVL) : outcome Z :=
  match fuel with
  | O => Fault
  | S fuel =>
      n ← get x o; _ ← assert (in_range (balance n));
      hl ← (match link0 n with
            | Some l => nl ← get l o; _ ← assert (is_link x (parent nl));
                        comp ← _BAVL_compare_values comparator (value nl) (value n);
                        _ ← assert (comp =? -1); _BAVL_assert_recurser fuel comparator l o
            | None => Ret 0
            end);
      hr ← (match link1 n with
            | Some r => nr ← get r o; _ ← assert (is_link x (parent nr));
                        comp ← _BAVL_compare_values comparator (value nr) (value n);
                        _ ← assert (comp =? 1); _BAVL_assert_recurser fuel comparator r o
            | None => Ret 0
            end);
      _ ← assert (balance n =? hr - hl);
      Ret (Z.max hl hr + 1)
  end.
Definition BAVL_Verify (comparator : V → V → Z) (o : BAVL) : outcome unit :=
  match root o with
  | Some r =>
      n ← get r o; _ ← assert (match parent n with None => true | Some _ => false end);
      _ ← _BAVL_assert_recurser (fuel_of o) comparator r o; Ret tt
  | None => Ret tt
  end.

End bavl.
Arguments BAVLNode : clear implicits.
Arguments BAVL : clear implicits.
