(* ===== verification/BavlRep.v ===== *)
(** * The AVL tree of badvpn: the heap represents a tree

    [rep o c s]: in [o], the subtree [s] hangs at the end of the path [c].  The
    operations of [Bavl] that relink nodes are specified on it. *)
From S2P Require Import Prelude AvlTree Bavl.
From stdpp Require Import gmap.
#[local] Open Scope Z_scope.
#[local] Set Warnings "-clear-no-such-hyp".

Lemma disjoint_app {A} (l k1 k2 : list A) :
  (∀ x, x ∈ l → x ∉ k1 ++ k2) → (∀ x, x ∈ l → x ∉ k1) ∧ (∀ x, x ∈ l → x ∉ k2).
Proof. intros H. split; intros x Hx; specialize (H x Hx); rewrite not_elem_of_app in H; tauto. Qed.
Lemma disjoint_cons {A} (l : list A) y k :
  (∀ x, x ∈ l → x ∉ (y :: k)) → (y ∉ l) ∧ (∀ x, x ∈ l → x ∉ k).
Proof. intros H. split; [intros Hy; specialize (H y Hy)|intros x Hx; specialize (H x Hx)]; rewrite not_elem_of_cons in H; tauto. Qed.

Lemma disjoint_app_l {A} (l1 l2 k : list A) :
  (∀ x, x ∈ l1 ++ l2 → x ∉ k) → (∀ x, x ∈ l1 → x ∉ k) ∧ (∀ x, x ∈ l2 → x ∉ k).
Proof. intros H. split; intros x Hx; apply H, elem_of_app; auto. Qed.
Lemma disjoint_cons_l {A} y (l k : list A) :
  (∀ x, x ∈ (y :: l) → x ∉ k) → (y ∉ k) ∧ (∀ x, x ∈ l → x ∉ k).
Proof. intros H. split; [apply H; by left|intros x Hx; apply H; by right]. Qed.

Lemma nodup_perm {A} (l k : list A) : l ≡ₚ k → NoDup l → NoDup k.
Proof. by intros ->. Qed.

Section rep.
Context {V : Type}.
Implicit Types (h : gmap loc (BAVLNode V)) (o : BAVL V) (s t : tree V) (c : list (frame V)).

Definition nd (p : option loc) (side : bool) (a b : option loc) (k : Z) (v : V) : BAVLNode V :=
  if side then Node p b a k v else Node p a b k v.

Fixpoint repr h (p : option loc) t : Prop :=
  match t with
  | Leaf => True
  | Br l x v b r => h !! x = Some (Node p (rootof l) (rootof r) b v) ∧ repr h (Some x) l ∧ repr h (Some x) r
  end.

Fixpoint repr_ctx h c (hole : option loc) : Prop :=
  match c with
  | [] => True
  | f :: c' => h !! floc f = Some (nd (up c') (fside f) hole (rootof (fsib f)) (fbal f) (fval f)) ∧
               repr h (Some (floc f)) (fsib f) ∧ repr_ctx h c' (Some (floc f))
  end.

Fixpoint clocs c : list loc := match c with [] => [] | f :: c' => floc f :: locs (fsib f) ++ clocs c' end.

Record rep o c s : Prop := {
  rep_sub : repr (heap o) (up c) s;
  rep_ctx : repr_ctx (heap o) c (rootof s);
  rep_root : root o = ctx_top c (rootof s);
  rep_nodup : NoDup (locs s ++ clocs c) }.

Lemma locs_br (l r : tree V) x v b : locs (Br l x v b r) = locs l ++ x :: locs r.
Proof. unfold locs. cbn. by rewrite fmap_app. Qed.

Lemma locs_leaf : locs (Leaf (V:=V)) = [].
Proof. done. Qed.

Lemma locs_tn side (a b : tree V) x v k : locs (tn side a x v k b) ≡ₚ x :: locs a ++ locs b.
Proof. destruct side; unfold tn; rewrite locs_br; solve_Permutation. Qed.

Lemma locs_plug c s : locs (plug c s) ≡ₚ locs s ++ clocs c.
Proof.
  revert s. induction c as [|f c IH]; intros s; [by rewrite app_nil_r|]. cbn [plug clocs]. rewrite IH. unfold plug1.
  rewrite locs_tn. solve_Permutation.
Qed.

Lemma repr_ext h h' p t : (∀ x, x ∈ locs t → h' !! x = h !! x) → repr h p t → repr h' p t.
Proof.
  revert p. induction t as [|l IHl x v b r IHr]; intros p Hx; [done|]. rewrite locs_br in Hx. intros (H & Hl & Hr).
  cbn. rewrite Hx by set_solver. split; [done|]. split; [apply IHl|apply IHr]; (done || set_solver).
Qed.

Lemma repr_ctx_ext h h' c hole : (∀ x, x ∈ clocs c → h' !! x = h !! x) → repr_ctx h c hole → repr_ctx h' c hole.
Proof.
  revert hole. induction c as [|f c IH]; intros hole Hx; [done|]. cbn in Hx. intros (H & Hs & Hc). cbn.
  rewrite Hx by set_solver. split; [done|]. split; [eapply repr_ext; [|done]|apply IH]; (done || set_solver).
Qed.

Lemma repr_tn h p side a x v b t :
  repr h p (tn side a x v b t) ↔ h !! x = Some (nd p side (rootof a) (rootof t) b v) ∧ repr h (Some x) a ∧ repr h (Some x) t.
Proof. destruct side; cbn; tauto. Qed.

Lemma rootof_tn side (a b : tree V) x v k : rootof (tn side a x v k b) = Some x.
Proof. by destruct side. Qed.

(** Moving the focus along the path. *)
Lemma rep_zip o f c s : rep o (f :: c) s ↔ rep o c (plug1 f s).
Proof.
  unfold plug1. split; intros []; cbn in *.
  - destruct rep_ctx0 as (? & ? & ?). split; rewrite ?repr_tn, ?rootof_tn; try done. rewrite locs_tn.
    eapply nodup_perm; [|exact rep_nodup0]. solve_Permutation.
  - apply repr_tn in rep_sub0 as (? & ? & ?). rewrite rootof_tn in *. split; cbn; try done.
    rewrite locs_tn in rep_nodup0. eapply nodup_perm; [|exact rep_nodup0]. solve_Permutation.
Qed.

Lemma rep_app o c2 c s : rep o (c2 ++ c) s ↔ rep o c (plug c2 s).
Proof. revert s. induction c2 as [|f c2 IH]; intros s; [done|]. cbn [app plug]. rewrite rep_zip. apply IH. Qed.

Lemma rep_plug o c s : rep o c s ↔ rep o [] (plug c s).
Proof. rewrite <- (app_nil_r c) at 1. apply rep_app. Qed.

(** A path that ends below [p]. *)
Definition up_to c (p : option loc) : option loc := match c with [] => p | f :: _ => Some (floc f) end.
Fixpoint repr_seg h c (p hole : option loc) : Prop :=
  match c with
  | [] => True
  | f :: c' => h !! floc f = Some (nd (up_to c' p) (fside f) hole (rootof (fsib f)) (fbal f) (fval f)) ∧
               repr h (Some (floc f)) (fsib f) ∧ repr_seg h c' p (Some (floc f))
  end.

Lemma up_app c1 c2 : up (c1 ++ c2) = up_to c1 (up c2).
Proof. by destruct c1. Qed.

Lemma repr_ctx_app h c1 c2 hole :
  repr_ctx h (c1 ++ c2) hole ↔ repr_seg h c1 (up c2) hole ∧ repr_ctx h c2 (ctx_top c1 hole).
Proof.
  revert hole. induction c1 as [|f c1 IH]; intros hole; cbn; [tauto|]. rewrite IH, up_app. tauto.
Qed.

Lemma ctx_top_app c1 c2 hole : ctx_top (V:=V) (c1 ++ c2) hole = ctx_top c2 (ctx_top c1 hole).
Proof. revert hole. induction c1 as [|f c1 IH]; intros hole; [done|apply IH]. Qed.

Lemma clocs_app c1 c2 : clocs (c1 ++ c2) = clocs c1 ++ clocs c2.
Proof. induction c1 as [|f c1 IH]; [done|]. cbn. by rewrite IH, app_assoc. Qed.

Lemma repr_seg_ext h h' c p hole : (∀ x, x ∈ clocs c → h' !! x = h !! x) → repr_seg h c p hole → repr_seg h' c p hole.
Proof.
  revert hole. induction c as [|f c IH]; intros hole Hx; [done|]. cbn in Hx. intros (H & Hs & Hc). cbn.
  rewrite Hx by set_solver. split; [done|]. split; [eapply repr_ext; [|done]|apply IH]; (done || set_solver).
Qed.

(** ** Running the code on a represented tree *)
Lemma get_eq ro h x n : h !! x = Some n → get x (Tree ro h) = Ret n.
Proof. unfold get. cbn. by intros ->. Qed.
Lemma upd_eq ro h x n f : h !! x = Some n → upd x f (Tree ro h) = Ret (Tree ro (<[x := f n]> h)).
Proof. intros H. unfold upd. by rewrite (get_eq _ _ _ _ H). Qed.

Lemma link_nd_same p d a b k v : link (nd p d a b k v) d = a.
Proof. by destruct d. Qed.
Lemma link_nd_other p d a b k v : link (nd p d a b k v) (negb d) = b.
Proof. by destruct d. Qed.
Lemma set_link_nd_same p d a b k v q : set_link d q (nd p d a b k v) = nd p d q b k v.
Proof. by destruct d. Qed.
Lemma set_link_nd_other p d a b k v q : set_link (negb d) q (nd p d a b k v) = nd p d a q k v.
Proof. by destruct d. Qed.
Lemma set_parent_nd p d a b k v q : set_parent q (nd p d a b k v) = nd q d a b k v.
Proof. by destruct d. Qed.
Lemma set_balance_nd p d a b k v k' : set_balance k' (nd p d a b k v) = nd p d a b k' v.
Proof. by destruct d. Qed.
Lemma parent_nd p d a b k v : parent (nd p d a b k v) = p.
Proof. by destruct d. Qed.
Lemma balance_nd p d a b k v : balance (nd p d a b k v) = k.
Proof. by destruct d. Qed.
Lemma value_nd p d a b k v : value (nd p d a b k v) = v.
Proof. by destruct d. Qed.
Lemma is_link_nd p d x b k v : b ≠ Some x → is_link x (link1 (nd p d (Some x) b k v)) = d.
Proof. intros H. unfold is_link. destruct d; cbn; [by rewrite bool_decide_true|by rewrite bool_decide_false]. Qed.

(** The hole of [c] now holds [n]. *)
Definition relink c (n : option loc) h : gmap loc (BAVLNode V) :=
  match c with
  | [] => h
  | f :: c' => <[floc f := nd (up c') (fside f) n (rootof (fsib f)) (fbal f) (fval f)]> h
  end.
(** What [relink] finds at the end of [c]. *)
Definition hole_at c h (x : loc) : Prop :=
  match c with
  | [] => True
  | f :: c' => h !! floc f = Some (nd (up c') (fside f) (Some x) (rootof (fsib f)) (fbal f) (fval f)) ∧ rootof (fsib f) ≠ Some x
  end.

Lemma replace_in_parent_eq c h x n :
  hole_at c h x → replace_in_parent (up c) x n (Tree (ctx_top c (Some x)) h) = Ret (Tree (ctx_top c n) (relink c n h)).
Proof.
  destruct c as [|f c]; [done|]. intros [H Hs]. cbn [up replace_in_parent]. rewrite (get_eq _ _ _ _ H), bind_Ret.
  by rewrite (upd_eq _ _ _ _ _ H), is_link_nd, set_link_nd_same.
Qed.

Lemma relink_ne c n h x : x ∉ clocs c → relink c n h !! x = h !! x.
Proof. destruct c as [|f c]; [done|]. cbn. intros H. apply lookup_insert_ne. set_solver. Qed.

Lemma relink_ctx c n h m : repr_ctx h c m → NoDup (clocs c) → repr_ctx (relink c n h) c n.
Proof.
  destruct c as [|f c]; [done|]. cbn. rewrite NoDup_cons, NoDup_app. intros (_ & Hs & Hc) (Hf & _).
  rewrite lookup_insert_eq. split; [done|].
  split; [eapply repr_ext; [|exact Hs]|eapply repr_ctx_ext; [|exact Hc]]; intros x Hx; apply lookup_insert_ne; set_solver.
Qed.

Lemma hole_at_ctx c h x : repr_ctx h c (Some x) → x ∉ clocs c → hole_at c h x.
Proof.
  destruct c as [|f c]; [done|]. cbn. intros (H & _) Hx. split; [done|]. destruct (fsib f) as [|l y v b r]; [done|].
  rewrite locs_br in Hx. cbn. set_solver.
Qed.

(** [t] now has the parent [p]. *)
Definition adopted t (p : option loc) h : gmap loc (BAVLNode V) :=
  match t with Leaf => h | Br l x v b r => <[x := Node p (rootof l) (rootof r) b v]> h end.

Lemma adopted_ne t p h x : x ∉ locs t → adopted t p h !! x = h !! x.
Proof. destruct t as [|l y v b r]; [done|]. rewrite locs_br. intros H. apply lookup_insert_ne. set_solver. Qed.

Lemma adopt_none (p : loc) o : adopt None p o = Ret o.
Proof. done. Qed.
Lemma adopt_some (x p : loc) o : adopt (Some x) p o = upd x (set_parent (Some p)) o.
Proof. done. Qed.
Lemma replace_right ro h x y n p l k w :
  h !! y = Some (Node p l (Some x) k w) → replace_in_parent (Some y) x n (Tree ro h) = Ret (Tree ro (<[y := Node p l n k w]> h)).
Proof.
  intros H. cbn [replace_in_parent]. rewrite (get_eq _ _ _ _ H), bind_Ret. cbn [link1]. unfold is_link.
  by rewrite bool_decide_true, (upd_eq _ _ _ _ _ H).
Qed.
Lemma adopt_eq ro h q t p : repr h q t → adopt (rootof t) p (Tree ro h) = Ret (Tree ro (adopted t (Some p) h)).
Proof. destruct t as [|l x v b r]; [done|]. intros (H & _). cbn [adopt rootof]. by rewrite (upd_eq _ _ _ _ _ H). Qed.

Lemma adopted_repr h q t p : repr h q t → NoDup (locs t) → repr (adopted t p h) p t.
Proof.
  destruct t as [|l x v b r]; [done|]. rewrite locs_br, NoDup_app, NoDup_cons. cbn. intros (_ & Hl & Hr) (_ & Hd & Hx & _).
  rewrite lookup_insert_eq. split; [done|].
  split; (eapply repr_ext; [|eassumption]); intros y Hy; apply lookup_insert_ne; set_solver.
Qed.

End rep.

(** Fields of nodes. *)
Ltac fields := rewrite ?link_nd_same, ?link_nd_other, ?set_link_nd_same, ?set_link_nd_other, ?set_parent_nd, ?set_balance_nd,
  ?parent_nd, ?balance_nd, ?value_nd, ?rootof_tn.
(** The distinctness of nodes, as facts. *)
Ltac nodup_split :=
  repeat match goal with
  | H : NoDup (_ ++ _) |- _ => apply NoDup_app in H as (? & ? & ?)
  | H : NoDup (_ :: _) |- _ => apply NoDup_cons in H as [? ?]
  | H : NoDup [] |- _ => clear H
  | H : _ ∉ _ ++ _ |- _ => apply not_elem_of_app in H as [? ?]
  | H : _ ∉ _ :: _ |- _ => apply not_elem_of_cons in H as [? ?]
  | H : ∀ x, x ∈ _ → x ∉ _ ++ _ |- _ => apply disjoint_app in H as [? ?]
  | H : ∀ x, x ∈ _ ++ _ → x ∉ _ |- _ => apply disjoint_app_l in H as [? ?]
  | H : ∀ x, x ∈ (_ :: _) → x ∉ _ |- _ => apply disjoint_cons_l in H as [? ?]
  | H : ∀ x, x ∈ _ → x ∉ (_ :: _) |- _ => apply disjoint_cons in H as [? ?]
  end.
Ltac permute :=
  rewrite ?locs_tn, ?locs_br, ?locs_leaf; cbn [clocs floc fsib app]; rewrite ?clocs_app; cbn [clocs floc fsib app]; rewrite ?app_nil_r; solve_Permutation.
Ltac distinct := lazymatch goal with
  | |- _ ≠ _ => first [assumption | apply not_eq_sym; assumption | let E := fresh in intros E; subst; contradiction]
  | |- ?x ∉ ?l => first
      [ assumption
      | match goal with H : ∀ y, y ∈ _ → y ∉ l |- _ => apply H; assumption end
      | let Hl := fresh in intros Hl; match goal with H : ∀ y, y ∈ l → y ∉ _ |- _ => apply (H _ Hl); assumption end ]
  end.
Ltac lookups :=
  repeat first [rewrite lookup_insert_eq | rewrite lookup_insert_ne by distinct
               | rewrite relink_ne by distinct | rewrite adopted_ne by distinct].
(** What was represented still is, where the heap did not change. *)
Ltac framed := first [eapply repr_ext; [|eassumption] | eapply repr_ctx_ext; [|eassumption] | eapply repr_seg_ext; [|eassumption]]; intros; lookups; done.
Ltac represented := lazymatch goal with
  | |- _ !! _ = Some _ => lookups; first [reflexivity | eassumption]
  | |- repr ?h ?p ?t => match h with
      | context [adopted t p ?h1] =>
          apply (repr_ext (adopted t p h1)); [intros; lookups; done|eapply adopted_repr; [first [eassumption | framed]|done]]
      | _ => framed end
  | |- repr_ctx ?h ?c ?n => match h with
      | context [relink c n ?h1] =>
          apply (repr_ctx_ext (relink c n h1)); [intros; lookups; done|eapply relink_ctx; [first [eassumption | framed]|done]]
      | _ => framed end
  | |- repr_seg _ _ _ _ => framed
  | _ => done
  end.
Ltac step_core :=
  first [rewrite bind_Ret | rewrite adopt_none | rewrite adopt_some
        | erewrite replace_right by (lookups; eassumption || reflexivity)
        | erewrite get_eq by (lookups; eassumption || reflexivity)
        | erewrite upd_eq by (lookups; eassumption || reflexivity)
        | erewrite adopt_eq by (eassumption || framed)
        | erewrite replace_in_parent_eq by (apply hole_at_ctx; [framed|distinct])].
(** Nodes written by side, and nodes written out. *)
Ltac step_heap := step_core; fields; cbn [deref].
Ltac step_node :=
  step_core; cbv beta iota delta [deref link1 link0 parent balance value link set_link set_parent set_balance negb].

Section relinking.
Context {V : Type}.
Implicit Types (h : gmap loc (BAVLNode V)) (o : BAVL V) (s t : tree V) (c : list (frame V)).

(** ** Rotation *)
Lemma rotate_rep o c dir A r v b M nr v' b' C :
  rep o c (tn dir A r v b (tn dir M nr v' b' C)) →
  ∃ o', _BAVL_rotate r dir o = Ret o' ∧ rep o' c (tn dir (tn dir A r v b M) nr v' b' C).
Proof.
  intros [Hsub Hctx Hroot Hnd]. destruct o as [ro h]. cbn in Hsub, Hctx, Hroot. rewrite !rootof_tn in *.
  rewrite !repr_tn, !rootof_tn in Hsub. destruct Hsub as (Hr & HA & Hnr & HM & HC).
  assert (Hd : NoDup (r :: nr :: locs A ++ locs M ++ locs C ++ clocs c)).
  { eapply nodup_perm; [|exact Hnd]. rewrite !locs_tn. solve_Permutation. }
  revert Hnd. nodup_split. intros Hnd. subst ro. unfold _BAVL_rotate. repeat step_heap.
  eexists. split; [done|]. split; cbn [heap root]; rewrite ?repr_tn; fields; [split_and!; represented|represented|done|].
  eapply nodup_perm; [|exact Hnd]. rewrite !locs_tn. solve_Permutation.
Qed.

(** ** Balance factors *)
Lemma set_balance_rep o c side A x v b B k :
  rep o c (tn side A x v b B) → ∃ o', upd x (set_balance k) o = Ret o' ∧ rep o' c (tn side A x v k B).
Proof.
  intros [Hsub Hctx Hroot Hnd]. destruct o as [ro h]. cbn in Hsub, Hctx, Hroot. rewrite rootof_tn in *.
  rewrite repr_tn in Hsub. destruct Hsub as (Hx & HA & HB).
  assert (Hd : NoDup (x :: locs A ++ locs B ++ clocs c)).
  { eapply nodup_perm; [|exact Hnd]. rewrite locs_tn. solve_Permutation. }
  revert Hnd. nodup_split. intros Hnd. step_heap.
  eexists. split; [done|]. split; cbn [heap root]; rewrite ?repr_tn; fields; [split_and!; represented|represented|done|].
  eapply nodup_perm; [|exact Hnd]. by rewrite !locs_tn.
Qed.

(** ** Replacing a node by its only child *)
Lemma replace_subtree_rep o c side ch x v b :
  rep o c (tn side ch x v b Leaf) → ∃ o', _BAVL_replace_subtree x (rootof ch) o = Ret o' ∧ rep o' c ch.
Proof.
  intros [Hsub Hctx Hroot Hnd]. destruct o as [ro h]. cbn in Hsub, Hctx, Hroot. rewrite rootof_tn in *.
  rewrite repr_tn in Hsub. destruct Hsub as (Hx & HA & _).
  assert (Hd : NoDup (x :: locs ch ++ clocs c)).
  { eapply nodup_perm; [|exact Hnd]. permute. }
  apply NoDup_cons in Hd as [Hxx Hd']. revert Hd'. nodup_split. intros Hd'. subst ro. unfold _BAVL_replace_subtree. do 3 step_heap.
  rewrite bind_Ret. exists (Tree (ctx_top c (rootof ch)) (adopted ch (up c) (relink c (rootof ch) h))). split.
  - destruct ch as [|l y w k r]; [done|]. destruct HA as (Hy & _). cbn [rootof adopted]. rewrite locs_br in *. nodup_split.
    by erewrite upd_eq by (lookups; eassumption).
  - split; cbn [heap root]; [nodup_split; represented| |done|done]. nodup_split.
    apply (repr_ctx_ext (relink c (rootof ch) h)); [intros; lookups; done|]. by eapply relink_ctx.
Qed.

(** ** Exchanging a node with the greatest node of its left subtree *)
Lemma is_link_ne x y : y ≠ x → is_link x (Some y) = false.
Proof. intros H. unfold is_link. apply bool_decide_false. congruence. Qed.
Lemma is_link_eq x : is_link x (Some x) = true.
Proof. unfold is_link. by apply bool_decide_true. Qed.
Lemma is_link_root x t : x ∉ locs t → is_link x (rootof t) = false.
Proof. intros H. unfold is_link. apply bool_decide_false. destruct t; [done|]. rewrite locs_br in H. cbn. set_solver. Qed.
Lemma is_link_up x c : x ∉ clocs c → is_link x (up c) = false.
Proof. intros H. unfold is_link. apply bool_decide_false. destruct c as [|f c]; [done|]. cbn in *. set_solver. Qed.

Lemma swap_adjacent_rep o c x v b r l2 m mv mb :
  rep o (Frame false x v b r :: c) (Br l2 m mv mb Leaf) →
  ∃ o', swap_adjacent x m o = Ret o' ∧ rep o' (Frame false m mv mb r :: c) (Br l2 x v b Leaf).
Proof.
  intros [Hsub Hctx Hroot Hnd]. destruct o as [ro h]. cbn in Hsub, Hctx, Hroot.
  destruct Hsub as (Hm & Hl & _), Hctx as (Hx & Hr & Hc).
  assert (Hd : NoDup (x :: m :: locs l2 ++ locs r ++ clocs c)).
  { eapply nodup_perm; [|exact Hnd]. permute. }
  revert Hnd. nodup_split. intros Hnd. subst ro. unfold swap_adjacent, nd in *. cbn [up] in *.
  repeat step_node. rewrite is_link_root by distinct. repeat step_node.
  eexists. split; [done|]. split; cbn [heap root repr repr_ctx up floc fside fval fbal fsib rootof nd];
    [split_and!; represented|split_and!; represented|done|].
  eapply nodup_perm; [|exact Hnd]. permute.
Qed.

(** The parent of [m] is not [x]: one frame between them, or more. *)
Lemma swap_apart_one o c x v b r y w k sib l2 m mv mb :
  rep o (Frame true y w k sib :: Frame false x v b r :: c) (Br l2 m mv mb Leaf) →
  ∃ o', swap_apart x m o = Ret o' ∧ rep o' (Frame true y w k sib :: Frame false m mv mb r :: c) (Br l2 x v b Leaf).
Proof.
  intros [Hsub Hctx Hroot Hnd]. destruct o as [ro h]. cbn in Hsub, Hctx, Hroot.
  destruct Hsub as (Hm & Hl & _), Hctx as (Hy & Hs & Hx & Hr & Hc).
  assert (Hd : NoDup (x :: m :: y :: locs sib ++ locs l2 ++ locs r ++ clocs c)).
  { eapply nodup_perm; [|exact Hnd]. permute. }
  revert Hnd. nodup_split. intros Hnd. subst ro. unfold swap_apart, nd in *. cbn [up] in *. repeat step_node.
  eexists. split; [done|]. split; cbn [heap root repr repr_ctx up floc fside fval fbal fsib rootof nd];
    [split_and!; represented|split_and!; represented|done|].
  eapply nodup_perm; [|exact Hnd]. permute.
Qed.

Lemma swap_apart_many o c x v b r q qv qk qs c3 y w k sib l2 m mv mb :
  rep o (Frame true q qv qk qs :: c3 ++ Frame true y w k sib :: Frame false x v b r :: c) (Br l2 m mv mb Leaf) →
  ∃ o', swap_apart x m o = Ret o' ∧
    rep o' (Frame true q qv qk qs :: c3 ++ Frame true y w k sib :: Frame false m mv mb r :: c) (Br l2 x v b Leaf).
Proof.
  intros [Hsub Hctx Hroot Hnd]. destruct o as [ro h]. cbn in Hsub, Hctx, Hroot. rewrite up_app, repr_ctx_app, ctx_top_app in *.
  destruct Hsub as (Hm & Hl & _), Hctx as (Hq & Hqs & H3 & Hy & Hs & Hx & Hr & Hc).
  assert (Hd : NoDup (x :: m :: y :: q :: locs qs ++ clocs c3 ++ locs sib ++ locs l2 ++ locs r ++ clocs c)).
  { eapply nodup_perm; [|exact Hnd]. permute. }
  revert Hnd. nodup_split. intros Hnd. subst ro. unfold swap_apart, nd in *. cbn [up floc fside fval fbal fsib ctx_top] in *.
  repeat step_node.
  eexists. split; [done|]. rewrite ?app_comm_cons. 
  split; cbn [heap root repr repr_ctx app up floc fside fval fbal fsib rootof nd ctx_top];
    rewrite ?up_app, ?repr_ctx_app, ?ctx_top_app; cbn [repr_ctx up floc fside fval fbal fsib nd ctx_top];
    [split_and!; represented|split_and!; represented|done|].
  eapply nodup_perm; [|exact Hnd]. permute.
Qed.

Lemma rep_get o c side A x v b B :
  rep o c (tn side A x v b B) → get x o = Ret (nd (up c) side (rootof A) (rootof B) b v).
Proof. intros [Hsub _ _ _]. destruct o as [ro h]. apply repr_tn in Hsub as [Hx _]. by apply get_eq. Qed.

Lemma rep_get_frame o f c s :
  rep o (f :: c) s → get (floc f) o = Ret (nd (up c) (fside f) (rootof s) (rootof (fsib f)) (fbal f) (fval f)).
Proof. intros H. apply rep_zip in H. by apply rep_get in H. Qed.

Lemma rep_fresh o c side A x v b B : rep o c (tn side A x v b B) → x ∉ clocs c.
Proof.
  intros [_ _ _ Hnd]. assert (Hd : NoDup (x :: locs A ++ locs B ++ clocs c)) by (eapply nodup_perm; [|exact Hnd]; permute).
  nodup_split. done.
Qed.

Lemma swap_links_rep o c2 c x v b r l2 m mv mb :
  rep o (c2 ++ Frame false x v b r :: c) (Br l2 m mv mb Leaf) → Forall (λ f, fside f = true) c2 →
  ∃ o', (if is_link x (up (c2 ++ Frame false x v b r :: c)) || is_link m (up c)
         then if is_link m (up c) then swap_adjacent m x o else swap_adjacent x m o
         else swap_apart x m o) = Ret o' ∧
        rep o' (c2 ++ Frame false m mv mb r :: c) (Br l2 x v b Leaf).
Proof.
  intros H Hf. pose proof (rep_fresh _ _ false l2 m mv mb Leaf H) as Hm. rewrite clocs_app in Hm. cbn [clocs floc] in Hm.
  assert (Hx : x ∉ clocs c2).
  { destruct H as [_ _ _ Hnd]. rewrite clocs_app in Hnd. cbn [clocs floc] in Hnd. revert Hnd.
    rewrite !NoDup_app, NoDup_cons. set_solver. }
  nodup_split. rewrite (is_link_up m c) by done.
  destruct c2 as [|[s1 q qv qk qs] c2]; cbn [app up floc].
  { rewrite is_link_eq. by apply swap_adjacent_rep. }
  cbn [clocs floc] in Hx. nodup_split. rewrite is_link_ne by done. cbn [orb].
  apply Forall_cons in Hf as [Hs Hf]. cbn in Hs. subst s1. destruct c2 as [|[s2 y w k sib] c3 _] using rev_ind.
  { by apply swap_apart_one. }
  apply Forall_app in Hf as [_ Hf]. apply Forall_cons in Hf as [Hs _]. cbn in Hs. subst s2.
  rewrite <- app_assoc in *. cbn [app] in H |- *. rewrite <- app_assoc in H. by apply swap_apart_many.
Qed.

Lemma swap_nodes_rep o c2 c x v b r l2 m mv mb :
  rep o (c2 ++ Frame false x v b r :: c) (Br l2 m mv mb Leaf) → Forall (λ f, fside f = true) c2 →
  ∃ o', _BAVL_swap_nodes x m o = Ret o' ∧ rep o' (c2 ++ Frame false m mv b r :: c) (Br l2 x v mb Leaf).
Proof.
  intros H Hf. unfold _BAVL_swap_nodes.
  rewrite (rep_get o c false (plug c2 (Br l2 m mv mb Leaf)) x v b r) by (by apply rep_app, rep_zip in H).
  rewrite bind_Ret, (rep_get o _ false l2 m mv mb Leaf H), bind_Ret. rewrite !parent_nd.
  destruct (swap_links_rep o c2 c x v b r l2 m mv mb H Hf) as (o1 & -> & H1). rewrite bind_Ret.
  rewrite (rep_get o1 _ false l2 x v b Leaf H1), bind_Ret.
  rewrite (rep_get o1 c false (plug c2 (Br l2 x v b Leaf)) m mv mb r) by (by apply rep_app, rep_zip in H1).
  rewrite bind_Ret, !balance_nd. destruct (set_balance_rep o1 _ false l2 x v b Leaf mb H1) as (o2 & -> & H2). rewrite bind_Ret.
  apply rep_app, rep_zip in H2. destruct (set_balance_rep o2 c false _ m mv mb r b H2) as (o3 & -> & H3).
  exists o3. split; [done|]. apply rep_app. by apply rep_zip.
Qed.

End relinking.
