(* ===== verification/BavlOps.v ===== *)
(** * The AVL tree of badvpn: its operations

    The operations of [Bavl] on a represented tree: rebalancing restores the
    balance invariant and keeps the in-order list; insertion and removal change
    the in-order list by one node; searches and the walks to neighbours compute
    what the list says. *)
From S2P Require Import Prelude AvlTree Bavl BavlRep.
From stdpp Require Import gmap.
#[local] Open Scope Z_scope.
#[local] Set Warnings "-clear-no-such-hyp".

Section rebalance.
Context {V : Type}.
Implicit Types (o : BAVL V) (s t A B : tree V) (c : list (frame V)).

Lemma tn_flip d (a b : tree V) x v k : tn (negb d) a x v k b = tn d b x v k a.
Proof. by destruct d. Qed.

Lemma bal_to_neg d b : bal_to (negb d) b = - bal_to d b.
Proof. destruct d; cbn; lia. Qed.

Definition sgn (side : bool) : Z := if side then 1 else -1.

Lemma bal_to_sgn d b : b * sgn d = bal_to d b.
Proof. destruct d; cbn; lia. Qed.

Lemma tall_tn d t : 0 < height t → ∃ a x v k b, t = tn d a x v k b.
Proof. destruct t as [|l x v k r]; cbn; [lia|]. intros _. destruct d; [by exists r, x, v, k, l|by exists l, x, v, k, r]. Qed.

(** Reading and writing at the focus, and below it. *)
Lemma set_balance_below o c d A r v b M nr v' b' C k :
  rep o c (tn d (tn d A r v b M) nr v' b' C) →
  ∃ o', upd r (set_balance k) o = Ret o' ∧ rep o' c (tn d (tn d A r v k M) nr v' b' C).
Proof.
  intros H. apply (rep_zip o (Frame d nr v' b' C)) in H. destruct (set_balance_rep o _ d A r v b M k H) as (o' & E & H').
  exists o'. split; [done|]. by apply (rep_zip o' (Frame d nr v' b' C)) in H'.
Qed.

(** What [rebalance_rotate] promises: the subtree [s] became [s'] with root [y]. *)
Definition rebalanced o c s delta (x : loc) : Prop :=
  ∃ o' s' y, rebalance_rotate x delta o = Ret (o', y, delta + (height s' - height s)) ∧ rep o' c s' ∧ rootof s' = Some y ∧
    balanced s' ∧ inorder s' = inorder s ∧ -1 ≤ height s' - height s ≤ 0 ∧ (balanced s → height s' = height s).

Lemma heavy_unbalanced d A x v k B (P : Prop) : k = 2 * sgn d → balanced (tn d A x v k B) → P.
Proof. intros -> H. apply balanced_tn in H as (_ & H & _). destruct d; cbn in H; lia. Qed.

(** A single rotation: the outer grandchild [N] is at least as high as the inner [M]. *)
Lemma single_rotation o c d A x v k y w yb M N delta :
  rep o c (tn d (tn d N y w yb M) x v k A) → k = 2 * sgn d → height N = height A + 1 →
  height A ≤ height M ≤ height A + 1 → bal_to d yb = height N - height M → balanced A → balanced M → balanced N →
  rebalanced o c (tn d (tn d N y w yb M) x v k A) delta x.
Proof.
  intros H Hk HN HM Hyb HbA HbM HbN. unfold rebalanced, rebalance_rotate. rewrite (rep_get _ _ _ _ _ _ _ _ H), bind_Ret, balance_nd.
  replace ((k =? 2) || (k =? -2)) with true by (subst k; by destruct d). replace (k =? 2) with d by (subst k; by destruct d).
  fold (sgn d). rewrite link_nd_same, rootof_tn. cbn [deref]. rewrite bind_Ret.
  pose proof (rep_zip o (Frame d x v k A) c (tn d N y w yb M)) as Hz. apply Hz in H. rewrite (rep_get _ _ _ _ _ _ _ _ H), bind_Ret, balance_nd.
  apply Hz in H. clear Hz. unfold plug1 in H. cbn in H. rewrite <- (tn_flip d A), <- (tn_flip d M) in H.
  destruct (rotate_rep _ _ _ _ _ _ _ _ _ _ _ _ H) as (o1 & Hr & H1). rewrite bal_to_sgn, Hr.
  assert (Hgo : ∀ k1 k2 dl, bal_to d k1 = height M - height A → bal_to d k2 = height N - (1 + Z.max (height A) (height M)) →
    -1 ≤ k1 ≤ 1 → -1 ≤ k2 ≤ 1 → dl = delta + (1 + Z.max (1 + Z.max (height A) (height M)) (height N) - (height A + 3)) →
    -1 ≤ dl - delta ≤ 0 →
    ∃ o' s' z, (o ← upd x (set_balance k1) o1; o ← upd y (set_balance k2) o; Ret (o, y, dl))
       = Ret (o', z, delta + (height s' - height (tn d (tn d N y w yb M) x v k A))) ∧ rep o' c s' ∧ rootof s' = Some z ∧
       balanced s' ∧ inorder s' = inorder (tn d (tn d N y w yb M) x v k A) ∧
       -1 ≤ height s' - height (tn d (tn d N y w yb M) x v k A) ≤ 0 ∧
       (balanced (tn d (tn d N y w yb M) x v k A) → height s' = height (tn d (tn d N y w yb M) x v k A))).
  { intros k1 k2 dl Hk1 Hk2 Hr1 Hr2 Hdl Hdl2.
    destruct (set_balance_below _ _ _ _ _ _ _ _ _ _ _ _ k1 H1) as (o2 & -> & H2). rewrite bind_Ret.
    destruct (set_balance_rep _ _ _ _ _ _ _ _ k2 H2) as (o3 & -> & H3). rewrite bind_Ret.
    exists o3, (tn (negb d) (tn (negb d) A x v k1 M) y w k2 N), y. rewrite !height_tn.
    split; [do 2 f_equal; lia|]. split; [done|]. split; [apply rootof_tn|].
    split; [rewrite !balanced_tn, !bal_to_neg, !height_tn; split_and!; try done; lia|].
    split; [|split; [lia|by apply heavy_unbalanced]]. rewrite !inorder_tn. destruct d; cbn; by list_simplifier. }
  assert (Hyb' : bal_to d yb = 1 ∨ bal_to d yb = 0) by lia. assert (Hsg : bal_to d (sgn d) = 1 ∧ bal_to d (- sgn d) = -1 ∧ -1 ≤ sgn d ≤ 1)
    by (destruct d; cbn; lia). destruct Hyb' as [E|E]; rewrite E; cbn [Z.eqb Pos.eqb]; apply Hgo; rewrite ?E; destruct d; cbn in *; lia.
Qed.

(** A double rotation: the inner grandchild is higher. *)
Lemma double_rotation o c d A x v k y w yb N g gw gb G1 G2 delta :
  rep o c (tn d (tn d N y w yb (tn d G1 g gw gb G2)) x v k A) → k = 2 * sgn d → height N = height A →
  Z.max (height G1) (height G2) = height A → bal_to d gb = height G1 - height G2 → -1 ≤ gb ≤ 1 → bal_to d yb = -1 →
  balanced A → balanced N → balanced G1 → balanced G2 →
  rebalanced o c (tn d (tn d N y w yb (tn d G1 g gw gb G2)) x v k A) delta x.
Proof.
  intros H Hk HN HG Hgb Hgr Hyb HbA HbN Hb1 Hb2. unfold rebalanced, rebalance_rotate.
  rewrite (rep_get _ _ _ _ _ _ _ _ H), bind_Ret, balance_nd.
  replace ((k =? 2) || (k =? -2)) with true by (subst k; by destruct d). replace (k =? 2) with d by (subst k; by destruct d).
  fold (sgn d). rewrite link_nd_same, rootof_tn. cbn [deref]. rewrite bind_Ret.
  apply (rep_zip o (Frame d x v k A) c (tn d N y w yb _)) in H.
  rewrite (rep_get _ _ _ _ _ _ _ _ H), bind_Ret, balance_nd, bal_to_sgn, Hyb, link_nd_other, rootof_tn. cbn [Z.eqb Pos.eqb deref].
  rewrite bind_Ret. destruct (rotate_rep _ _ _ _ _ _ _ _ _ _ _ _ H) as (o1 & -> & H1). rewrite bind_Ret.
  apply rep_zip in H1. unfold plug1 in H1. cbn [fside floc fval fbal fsib] in H1. rewrite <- (tn_flip d A), <- (tn_flip d G2) in H1.
  destruct (rotate_rep _ _ _ _ _ _ _ _ _ _ _ _ H1) as (o2 & -> & H2). rewrite bind_Ret.
  rewrite (rep_get _ _ _ _ _ _ _ _ H2), bind_Ret, balance_nd.
  set (kx := - Z.max 0 (gb * sgn d) * sgn d). set (ky := Z.max 0 (- gb * sgn d) * sgn d).
  assert (Hkx : bal_to d kx = - Z.max 0 (bal_to d gb) ∧ -1 ≤ kx ≤ 1) by (subst kx; destruct d; cbn in *; lia).
  assert (Hky : bal_to d ky = Z.max 0 (- bal_to d gb) ∧ -1 ≤ ky ≤ 1) by (subst ky; destruct d; cbn in *; lia).
  destruct (set_balance_below _ _ _ _ _ _ _ _ _ _ _ _ kx H2) as (o3 & -> & H3). rewrite bind_Ret.
  rewrite tn_flip in H3. destruct (set_balance_below _ _ _ _ _ _ _ _ _ _ _ _ ky H3) as (o4 & -> & H4). rewrite bind_Ret.
  destruct (set_balance_rep _ _ _ _ _ _ _ _ 0 H4) as (o5 & -> & H5). rewrite bind_Ret. rewrite !height_tn.
  exists o5, (tn d (tn d N y w ky G1) g gw 0 (tn (negb d) A x v kx G2)), g. rewrite !height_tn.
  split; [do 2 f_equal; lia|]. split; [done|]. split; [apply rootof_tn|].
  split; [rewrite !balanced_tn, !bal_to_neg, !height_tn; split_and!; try done; destruct d; cbn in *; lia|].
  split; [|split; [lia|by apply heavy_unbalanced]]. rewrite !inorder_tn. destruct d; cbn; by list_simplifier.
Qed.

Lemma rebalance_rotate_ok o c d A x v k B delta :
  rep o c (tn d A x v k B) → bal_to d k = height A - height B → -2 ≤ k ≤ 2 → balanced A → balanced B →
  rebalanced o c (tn d A x v k B) delta x.
Proof.
  intros H Hk Hr HA HB. destruct (decide (-1 ≤ k ≤ 1)) as [Hs|Hs].
  { exists o, (tn d A x v k B), x. unfold rebalance_rotate. rewrite (rep_get _ _ _ _ _ _ _ _ H), bind_Ret, balance_nd.
    if_false. split; [do 2 f_equal; lia|]. split_and!; try done; [apply rootof_tn|by apply balanced_tn|lia|lia]. }
  assert (Hheavy : ∃ e (H2 O : tree V), tn d A x v k B = tn e H2 x v k O ∧ k = 2 * sgn e ∧ height H2 = height O + 2 ∧ balanced H2 ∧ balanced O).
  { assert (bal_to d k = 2 ∨ bal_to d k = -2) as [E|E] by (destruct d; cbn; lia).
    - exists d, A, B. split_and!; try done; [destruct d; cbn in *; lia|lia].
    - exists (negb d), B, A. rewrite tn_flip. split_and!; try done; [destruct d; cbn in *; lia|lia]. }
  destruct Hheavy as (e & H2 & O & Et & Hke & Hh & Hb2 & HbO). rewrite Et in *. clear Et.
  pose proof (height_nonneg O) as HO. destruct (tall_tn e H2) as (N & y & w & yb & M & ->); [lia|].
  rewrite height_tn in Hh. apply balanced_tn in Hb2 as (Hyb & Hyr & HbN & HbM).
  destruct (Z.eq_dec (bal_to e yb) (-1)) as [Hm|Hm].
  - destruct (tall_tn e M) as (G1 & g & gw & gb & G2 & ->); [lia|]. rewrite height_tn in *.
    apply balanced_tn in HbM as (Hgb & Hgr & Hb1 & Hb2). apply double_rotation; try done; lia.
  - apply single_rotation; try done; destruct e; cbn in *; lia.
Qed.

(** One level of [_BAVL_rebalance]: the subtree on side [side] of [x] changed its height by [d]. *)
Lemma rebalance_level o c n side A x v b B d :
  rep o c (tn side A x v b B) → balanced A → balanced B → -1 ≤ b ≤ 1 → -1 ≤ d ≤ 1 → d ≠ 0 →
  bal_to side b = (height A - d) - height B →
  ∃ o' s' y dl,
    _BAVL_rebalance (S n) x side d o
    = match up c with Some p => np ← get p o'; _BAVL_rebalance n p (is_link y (link1 np)) dl o' | None => Ret o' end ∧
    rep o' c s' ∧ rootof s' = Some y ∧ balanced s' ∧ inorder s' = inorder (tn side A x v b B) ∧
    -1 ≤ dl ≤ 1 ∧ height s' - dl = 1 + Z.max (height A - d) (height B).
Proof.
  intros H HA HB Hb Hd Hd0 Hbal. cbn [_BAVL_rebalance]. rewrite (rep_get _ _ _ _ _ _ _ _ H), bind_Ret, balance_nd.
  replace (in_range d && in_range b) with true by (unfold in_range; symmetry; solve_bool). cbn [assert].
  rewrite bind_Ret, (proj2 (Z.eqb_neq d 0)) by done.
  set (delta := Z.max d (OPTNEG b side) - Z.max 0 (OPTNEG b side)). set (k := b - OPTNEG d side).
  assert (Hdelta : delta = Z.max (height A) (height B) - Z.max (height A - d) (height B)) by (subst delta; destruct side; cbn in *; lia).
  assert (Hk : bal_to side k = height A - height B ∧ -2 ≤ k ≤ 2) by (subst k; destruct side; cbn in *; lia).
  assert (Hin : ∀ z, -1 ≤ z ≤ 1 → in_range z = true) by (intros; unfold in_range; solve_bool).
  rewrite Hin by lia. cbn [assert]. rewrite bind_Ret.
  destruct (set_balance_rep _ _ _ _ _ _ _ _ k H) as (o1 & -> & H1). rewrite bind_Ret.
  destruct Hk as [Hk1 Hk2]. destruct (rebalance_rotate_ok o1 c side A x v k B delta H1 Hk1 Hk2 HA HB)
    as (o2 & s2 & y & -> & H2 & Hy & Hb2 & Hi2 & Hh2 & Hh0). rewrite bind_Ret, height_tn in *.
  assert (Hnr : delta = -1 → height s2 = 1 + Z.max (height A) (height B)).
  { intros E. apply Hh0. apply balanced_tn. split_and!; try done; destruct side; cbn in *; lia. }
  rewrite Hin by lia. cbn [assert]. rewrite bind_Ret.
  destruct s2 as [|l2 y2 w2 k2 r2]; [done|]. injection Hy as ->. rewrite (rep_get o2 c false l2 y w2 k2 r2 H2), bind_Ret, parent_nd.
  eexists o2, _, y, _. split; [done|]. split_and!; try done; try lia. rewrite Hi2, !inorder_tn. done.
Qed.

Lemma rebalance_zero o c n side A x v b B :
  rep o c (tn side A x v b B) → balanced A → balanced B → -1 ≤ b ≤ 1 → bal_to side b = height A - height B →
  bal_ctx c (1 + Z.max (height A) (height B)) →
  ∃ o' s', _BAVL_rebalance (S n) x side 0 o = Ret o' ∧ rep o' [] s' ∧ balanced s' ∧ inorder s' = inorder (plug c (tn side A x v b B)).
Proof.
  intros H HA HB Hb Hbal Hc. exists o, (plug c (tn side A x v b B)). split; [|split; [by apply (proj1 (rep_plug o c _))|split; [|done]]].
  - cbn [_BAVL_rebalance]. rewrite (rep_get _ _ _ _ _ _ _ _ H), bind_Ret, balance_nd.
    by replace (in_range 0 && in_range b) with true by (unfold in_range; symmetry; solve_bool).
  - apply balanced_plug. rewrite balanced_tn, height_tn. split; [split_and!; (done || lia)|done].
Qed.

(** The whole of [_BAVL_rebalance]; the fuel is more than the number of ancestors. *)
Lemma rebalance_ok c : ∀ o n side A x v b B d,
  rep o c (tn side A x v b B) → (length c < n)%nat → balanced A → balanced B → -1 ≤ b ≤ 1 → -1 ≤ d ≤ 1 →
  bal_to side b = (height A - d) - height B → bal_ctx c (1 + Z.max (height A - d) (height B)) →
  ∃ o' s', _BAVL_rebalance n x side d o = Ret o' ∧ rep o' [] s' ∧ balanced s' ∧ inorder s' = inorder (plug c (tn side A x v b B)).
Proof.
  induction c as [|[fs fx fv fb fo] c IH]; intros o n side A x v b B d H Hn HA HB Hb Hd Hbal Hc; (destruct n as [|n]; [cbn in Hn; lia|]).
  all: destruct (Z.eq_dec d 0) as [-> |Hd0].
  1,3: rewrite Z.sub_0_r in *; by apply rebalance_zero.
  all: destruct (rebalance_level o _ n side A x v b B d H HA HB Hb Hd Hd0 Hbal) as (o1 & s1 & y & dl & -> & H1 & Hy & Hb1 & Hi1 & Hdl & Hh);
    cbn [up floc].
  - exists o1, s1. done.
  - cbn in Hc. destruct Hc as (Hfb & Hfr & Hfo & Hc). pose proof (rep_get_frame o1 _ _ _ H1) as Hg.
    cbn [floc fside fsib fbal fval] in Hg. rewrite Hg, bind_Ret, Hy, is_link_nd.
    2:{ intros E. destruct fo as [|l0 z0 w0 k0 r0]; [done|]. injection E as ->. destruct s1 as [|l1 y1 w1 k1 r1]; [done|].
        injection Hy as ->. apply (rep_fresh _ _ false) in H1. cbn [clocs floc fsib] in H1. rewrite locs_br in H1. set_solver. }
    apply rep_zip in H1. unfold plug1 in H1. cbn [fside floc fval fbal fsib] in H1.
    destruct (IH o1 n fs s1 fx fv fb fo dl H1) as (o2 & s2 & -> & H2 & Hb2 & Hi2); try done; [cbn in Hn; lia|by rewrite Hh|by rewrite Hh|].
    exists o2, s2. split_and!; try done. rewrite Hi2. cbn [plug]. rewrite !inorder_plug. unfold plug1. cbn [fside floc fval fbal fsib].
    by rewrite !inorder_tn, Hi1, inorder_tn.
Qed.
End rebalance.

(** ** Paths *)
Section paths.
Context {V : Type}.
Implicit Types (o : BAVL V) (s t : tree V) (c : list (frame V)).

Lemma before_app c1 c2 : before (V:=V) (c1 ++ c2) = before c2 ++ before c1.
Proof. induction c1 as [|f c1 IH]; cbn; [by rewrite app_nil_r|]. by rewrite IH, app_assoc. Qed.
Lemma after_app c1 c2 : after (V:=V) (c1 ++ c2) = after c1 ++ after c2.
Proof. induction c1 as [|f c1 IH]; cbn; [done|]. by rewrite IH, app_assoc. Qed.
Lemma plug_app c1 c2 t : plug (V:=V) (c1 ++ c2) t = plug c2 (plug c1 t).
Proof. revert t. induction c1 as [|f c1 IH]; intros t; [done|apply IH]. Qed.

(** A node of a tree has a path to it. *)
Lemma path_to t x v : (x, v) ∈ inorder t → ∃ c l b r, t = plug c (Br l x v b r).
Proof.
  induction t as [|l IHl y w b r IHr]; cbn; [by intros ?%not_elem_of_nil|].
  rewrite elem_of_app, elem_of_cons. intros [H|[[= <- <-]|H]].
  - destruct (IHl H) as (c & l1 & b1 & r1 & ->). exists (c ++ [Frame false y w b r]), l1, b1, r1. by rewrite plug_app.
  - by exists [], l, b, r.
  - destruct (IHr H) as (c & l1 & b1 & r1 & ->). exists (c ++ [Frame true y w b l]), l1, b1, r1. by rewrite plug_app.
Qed.

(** The way to the end of a side. *)
Lemma path_to_end side t :
  t ≠ Leaf → ∃ c a x v b, t = plug c (tn side Leaf x v b a) ∧ Forall (λ f, fside f = side) c.
Proof.
  induction t as [|l IHl y w b r IHr]; [done|]. intros _. set (ch := if side then r else l). set (sb := if side then l else r).
  assert (Ht : Br l y w b r = tn side ch y w b sb) by (by destruct side).
  assert (IH : ch ≠ Leaf → ∃ c a x v b, ch = plug c (tn side Leaf x v b a) ∧ Forall (λ f, fside f = side) c) by (by destruct side).
  clearbody ch sb. rewrite Ht. destruct ch as [|l1 y1 w1 b1 r1]; [by exists [], sb, y, w, b|].
  destruct IH as (c & a & x & v & b2 & E & Hc); [done|]. exists (c ++ [Frame side y w b sb]), a, x, v, b2.
  rewrite plug_app, <- E. split; [done|]. apply Forall_app. split; [done|]. by apply Forall_singleton.
Qed.

Lemma after_right c : Forall (λ f : frame V, fside f = true) c → after c = [].
Proof. induction 1 as [|f c Hf _ IH]; [done|]. cbn. by rewrite Hf, IH. Qed.
Lemma before_left c : Forall (λ f : frame V, fside f = false) c → before c = [].
Proof. induction 1 as [|f c Hf _ IH]; [done|]. cbn. by rewrite Hf, IH. Qed.

(** ** Fuel *)
Lemma repr_alloc h p t x : repr h p t → x ∈ locs t → is_Some (h !! x).
Proof.
  revert p. induction t as [|l IHl y w b r IHr]; intros p; [by intros _ ?%not_elem_of_nil|]. rewrite locs_br, elem_of_app, elem_of_cons.
  intros (Hy & Hl & Hr) [H|[-> |H]]; eauto.
Qed.

Lemma clocs_length c : (length c ≤ length (clocs c))%nat.
Proof. induction c as [|f c IH]; [done|]. cbn. rewrite length_app. lia. Qed.

Lemma rep_size o c s : rep o c s → (length c + length (inorder s) ≤ size (heap o))%nat.
Proof.
  intros H. apply (proj1 (rep_plug o c s)) in H. destruct H as [Hr _ _ Hnd]. cbn in Hnd. rewrite app_nil_r in Hnd.
  assert (Hs : (length (locs (plug c s)) ≤ size (heap o))%nat).
  { rewrite <- (size_list_to_set (C:=gset loc)) by done. rewrite <- size_dom. apply subseteq_size. intros x Hx.
    apply elem_of_list_to_set in Hx. apply elem_of_dom. by eapply repr_alloc. }
  revert Hs. rewrite locs_plug, length_app. unfold locs. rewrite length_fmap.
  pose proof (clocs_length c). lia.
Qed.

(** ** Walks *)
Lemma last_link_ok side o a y v b c : ∀ c0 n x,
  rep o c0 (plug c (tn side Leaf y v b a)) → rootof (plug c (tn side Leaf y v b a)) = Some x →
  Forall (λ f, fside f = side) c → (length c < n)%nat → last_link n side x o = Ret y.
Proof.
  induction c as [|f c IH] using rev_ind; intros c0 n x H Hx Hc Hn; (destruct n as [|n]; [lia|]); cbn [last_link].
  - cbn [plug] in Hx, H. rewrite rootof_tn in Hx. injection Hx as Hxy. subst x. rewrite (rep_get _ _ _ _ _ _ _ _ H), bind_Ret, link_nd_same. done.
  - rewrite plug_app in H, Hx. cbn [plug] in H, Hx. unfold plug1 in *. rewrite rootof_tn in Hx. injection Hx as Hxy. subst x.
    apply Forall_app in Hc as [Hc Hs]. apply Forall_cons in Hs as [Hs _]. cbn beta in Hs. rewrite Hs in H.
    rewrite (rep_get _ _ _ _ _ _ _ _ H), bind_Ret, link_nd_same. rewrite length_app in Hn. cbn in Hn.
    apply (rep_zip o (Frame side (floc f) (fval f) (fbal f) (fsib f))) in H.
    destruct (rootof (plug c (tn side Leaf y v b a))) as [z|] eqn:Ez; [eapply IH; eauto; lia|].
    assert (length (inorder (plug c (tn side Leaf y v b a))) = 0%nat) as E0 by (by destruct (plug c _)).
    rewrite inorder_plug, inorder_tn, !length_app in E0. destruct side; cbn in E0; rewrite ?length_app in E0; cbn in E0; lia.
Qed.

(** The end of the in-order list on a side. *)
Definition end_of (side : bool) (m : list (loc * V)) : option loc := if side then fst <$> last m else fst <$> head m.

Lemma end_of_path side c a x v b :
  Forall (λ f, fside f = side) c → end_of side (inorder (plug c (tn side Leaf x v b a))) = Some x.
Proof.
  intros Hc. rewrite inorder_plug, inorder_tn. destruct side; cbn [end_of].
  - rewrite after_right by done. cbn. by rewrite app_nil_r, last_app, last_snoc.
  - by rewrite before_left by done.
Qed.

Lemma last_link_end side o c0 t x n :
  rep o c0 t → rootof t = Some x → (length (inorder t) < n)%nat → ∃ y, last_link n side x o = Ret y ∧ end_of side (inorder t) = Some y.
Proof.
  intros H Hx Hn. destruct (path_to_end side t) as (c & a & y & v & b & -> & Hc); [by destruct t|].
  exists y. split; [|by apply end_of_path]. eapply last_link_ok; eauto.
  assert (length c ≤ length (before c) + length (after c))%nat.
  { clear. induction c as [|f c IH]; [done|]. cbn. rewrite !length_app. destruct (fside f); cbn; rewrite ?length_app; cbn; lia. }
  rewrite inorder_plug, !length_app in Hn. lia.
Qed.

(** Climbing finds the nearest element outside the subtree. *)
Lemma climb_ok side o : ∀ c n s x,
  rep o c s → rootof s = Some x → (length c < n)%nat →
  climb n side x o = Ret (if side then fst <$> head (after c) else fst <$> last (before c)).
Proof.
  induction c as [|f c IH]; intros n s x H Hx Hn; (destruct n as [|n]; [lia|]); cbn [climb];
    (destruct s as [|l y w b r]; [done|]); injection Hx as ->; rewrite (rep_get _ _ false l x w b r H), bind_Ret, parent_nd; cbn [up].
  - by destruct side.
  - rewrite (rep_get_frame _ _ _ _ H), bind_Ret. cbn [rootof].
    assert (Hs : rootof (fsib f) ≠ Some x).
    { intros E. destruct (fsib f) as [|l0 z0 w0 k0 r0] eqn:Ef; [done|]. injection E as ->. apply (rep_fresh _ _ false l x w b r) in H.
      cbn [clocs] in H. rewrite Ef, locs_br in H. set_solver. }
    assert (El : is_link x (link (nd (up c) (fside f) (Some x) (rootof (fsib f)) (fbal f) (fval f)) side) = Bool.eqb (fside f) side).
    { unfold is_link. destruct (fside f), side; cbn; (by apply bool_decide_true) || (by apply bool_decide_false). }
    rewrite El. destruct (Bool.eqb (fside f) side) eqn:E.
    + apply Bool.eqb_prop in E. apply rep_zip in H. rewrite (IH n _ _ H) by (apply rootof_tn || (cbn in Hn; lia)). cbn. rewrite E.
      destruct side; [done|by rewrite app_nil_r].
    + apply eqb_false_iff in E. cbn. destruct (fside f), side; try done. by rewrite app_assoc, last_snoc.
Qed.
End paths.
