(* ===== verification/BavlSpec.v ===== *)
(** * The AVL tree of badvpn: what its users rely on

    [holds o m]: the tree [o] represents a balanced search tree with in-order
    list [m], which is sorted by the comparator.  Every operation of [Bavl] is
    specified on [m]. *)
From S2P Require Import Prelude AvlTree Bavl BavlRep BavlOps.
From stdpp Require Import gmap sorting.
#[local] Open Scope Z_scope.
#[local] Set Warnings "-clear-no-such-hyp".

(** What the tree requires of a comparator: a total order. *)
Class BAVLOrder {V : Type} (cmp : V → V → Z) : Prop := {
  cmp_range a b : cmp a b = -1 ∨ cmp a b = 0 ∨ cmp a b = 1;
  cmp_eq a b : cmp a b = 0 → a = b;
  cmp_flip a b : cmp b a = - cmp a b;
  cmp_trans a b c : cmp a b = -1 → cmp b c = -1 → cmp a c = -1 }.

Arguments cmp_range {V} cmp {_} a b.
Arguments cmp_eq {V} cmp {_} a b.
Arguments cmp_flip {V} cmp {_} a b.
Arguments cmp_trans {V} cmp {_} a b c.

Section spec.
Context {V : Type} (cmp : V → V → Z) `{!BAVLOrder cmp}.
Implicit Types (o : BAVL V) (s t : tree V) (c : list (frame V)) (m : list (loc * V)).

Definition below (p q : loc * V) : Prop := cmp p.2 q.2 = -1.
Definition sorted m : Prop := StronglySorted below m.

Definition holds o m : Prop := ∃ s, rep o [] s ∧ balanced s ∧ inorder s = m ∧ sorted m.

Lemma cmp_refl a : cmp a a = 0.
Proof. pose proof (cmp_flip cmp a a). lia. Qed.

Lemma cmp_gt a b : cmp a b = 1 ↔ cmp b a = -1.
Proof. rewrite (cmp_flip cmp a b). lia. Qed.

Lemma sorted_app m1 m2 : sorted (m1 ++ m2) ↔ sorted m1 ∧ sorted m2 ∧ ∀ p q, p ∈ m1 → q ∈ m2 → below p q.
Proof.
  unfold sorted. induction m1 as [|p m1 IH]; cbn.
  - split; [intros H; split_and!; [constructor|done|by intros ?? ?%not_elem_of_nil]|tauto].
  - split.
    + intros [H1 H2]%StronglySorted_inv. apply IH in H1 as (H1 & H3 & H4). rewrite Forall_app in H2. destruct H2 as [H2 H5].
      split_and!; [by constructor|done|]. intros p' q Hp Hq. apply elem_of_cons in Hp as [-> |Hp]; [|by apply H4].
      rewrite Forall_forall in H5. auto.
    + intros (H1 & H2 & H3). apply StronglySorted_inv in H1 as [H1 H4]. constructor.
      * apply IH. split_and!; try done. intros. apply H3; [by right|done].
      * apply Forall_app. split; [done|]. apply Forall_forall. intros q Hq. apply H3; [by left|done].
Qed.

Lemma sorted_cons p m : sorted (p :: m) ↔ sorted m ∧ ∀ q, q ∈ m → below p q.
Proof.
  rewrite (sorted_app [p] m). split.
  - intros (_ & ? & H). split; [done|]. intros q Hq. apply H; [by left|done].
  - intros [? H]. split_and!; [repeat constructor|done|]. intros p' q Hp Hq. apply list_elem_of_singleton in Hp as ->. auto.
Qed.

Lemma compare_values_eq a b : _BAVL_compare_values cmp a b = Ret (cmp a b).
Proof. unfold _BAVL_compare_values. destruct (cmp_range cmp a b) as [E|[E|E]]; by rewrite E. Qed.

(** ** Searching *)
Definition on_path (v : V) c : Prop := Forall (λ f, cmp v (fval f) = if fside f then 1 else -1) c.

Lemma search_ok o v s : ∀ c0 n x,
  rep o c0 s → rootof s = Some x → height s ≤ Z.of_nat n →
  ∃ c A y w b B, search cmp n v x o = Ret (y, cmp v w) ∧ s = plug c (Br A y w b B) ∧ on_path v c ∧
    (cmp v w = 1 → B = Leaf) ∧ (cmp v w = -1 → A = Leaf).
Proof.
  induction s as [|l IHl y w b r IHr]; intros c0 n x H Hx Hn; [done|]. injection Hx as <-. cbn in Hn.
  pose proof (height_nonneg l) as Hnl. pose proof (height_nonneg r) as Hnr. destruct n as [|n]; [lia|]. cbn [search]. rewrite (rep_get o c0 false l y w b r H), bind_Ret, value_nd, compare_values_eq, bind_Ret.
  unfold nd. cbn [link link0 link1]. destruct (cmp_range cmp v w) as [E|[E|E]]; rewrite E; cbn [Z.eqb Pos.eqb].
  - destruct l as [|l1 z1 w1 b1 r1].
    { exists [], Leaf, y, w, b, r. rewrite E. split_and!; try done. constructor. }
    apply (rep_zip o (Frame false y w b r) c0) in H. cbv beta iota delta [rootof link link0 link1].
    destruct (IHl _ n z1 H) as (c & A & y' & w' & b' & B & Hs & Es & Hc & H1 & H2); [done|lia|].
    exists (c ++ [Frame false y w b r]), A, y', w', b', B. rewrite plug_app, <- Es. split_and!; try done. apply Forall_app. split; [done|].
    by apply Forall_cons.
  - exists [], l, y, w, b, r. rewrite E. split_and!; try done. constructor.
  - destruct r as [|l1 z1 w1 b1 r1].
    { exists [], l, y, w, b, Leaf. rewrite E. split_and!; try done. constructor. }
    apply (rep_zip o (Frame true y w b l) c0) in H. cbv beta iota delta [rootof link link0 link1].
    destruct (IHr _ n z1 H) as (c & A & y' & w' & b' & B & Hs & Es & Hc & H1 & H2); [done|lia|].
    exists (c ++ [Frame true y w b l]), A, y', w', b', B. rewrite plug_app, <- Es. split_and!; try done. apply Forall_app. split; [done|].
    by apply Forall_cons.
Qed.

(** What lies beside a search path is smaller, or greater. *)
Lemma path_bounds v c : ∀ s, sorted (inorder (plug c s)) → on_path v c →
  (∀ p, p ∈ before c → cmp p.2 v = -1) ∧ (∀ p, p ∈ after c → cmp v p.2 = -1).
Proof.
  induction c as [|[fs fx fv fb fo] c IH]; intros s Hs Hc; cbn; [by split; intros ? ?%not_elem_of_nil|].
  apply Forall_cons in Hc as [Hf Hc]. cbn in Hf. cbn [plug] in Hs. destruct (IH _ Hs Hc) as [IHb IHa].
  rewrite inorder_plug in Hs. unfold plug1 in Hs. cbn [fside floc fval fbal fsib] in Hs. rewrite inorder_tn in Hs.
  apply sorted_app in Hs as (_ & Hs & _). apply sorted_app in Hs as (Hs & _ & _).
  destruct fs; apply sorted_app in Hs as (Hs1 & Hs2 & Hs3).
  - split; intros p; rewrite !elem_of_app; [|intros [?%not_elem_of_nil|?]; [done|auto]]. apply cmp_gt in Hf.
    intros [?|[Hp|Hp%list_elem_of_singleton]]; [auto| |by subst p].
    assert (Hb : below p (fx, fv)) by (apply Hs3; [done|by left]). unfold below in Hb. cbn in Hb. by eapply (cmp_trans cmp).
  - apply sorted_cons in Hs2 as [_ Hs2]. split; intros p; rewrite !elem_of_app; [intros [?|?%not_elem_of_nil]; [auto|done]|].
    intros [[-> |Hp]%elem_of_cons|?]; [done| |auto]. specialize (Hs2 p Hp). unfold below in Hs2. cbn in Hs2. by eapply (cmp_trans cmp).
Qed.

Lemma holds_root o m : holds o m → root o = None ∧ m = [] ∨ ∃ r, root o = Some r ∧ m ≠ [].
Proof.
  intros (s & [_ _ Hr _] & _ & <- & _). cbn in Hr. destruct s as [|l y w b r]; [left; done|right].
  exists y. split; [done|]. cbn. by destruct (inorder l).
Qed.

Lemma height_size s : height s ≤ Z.of_nat (length (inorder s)).
Proof. induction s as [|l IHl y w b r IHr]; cbn; [done|]. rewrite length_app. cbn [length]. lia. Qed.

Lemma path_length c : (length c ≤ length (before (V:=V) c) + length (after c))%nat.
Proof. induction c as [|f c IH]; [done|]. cbn. rewrite !length_app. destruct (fside f); cbn; rewrite ?length_app; cbn; lia. Qed.

Lemma height_plug_same c s t : height s = height t → height (V:=V) (plug c s) = height (plug c t).
Proof. revert s t. induction c as [|f c IH]; intros s t Hh; [done|]. cbn. apply IH. unfold plug1. rewrite !height_tn. lia. Qed.

(** A sorted list splits at a value in one way. *)
Lemma sorted_split x v m1 m2 k1 k2 :
  sorted (m1 ++ (x, v) :: m2) → m1 ++ (x, v) :: m2 = k1 ++ (x, v) :: k2 → m1 = k1 ∧ m2 = k2.
Proof.
  revert k1. induction m1 as [|p m1 IH]; intros [|q k1] Hs E; cbn in *; simplify_eq; try done.
  - exfalso. apply sorted_cons in Hs as [_ Hs]. specialize (Hs (x, v)). unfold below in Hs. cbn in Hs. rewrite cmp_refl in Hs.
    assert (0 = -1) by (apply Hs; set_solver). lia.
  - exfalso. apply sorted_cons in Hs as [_ Hs]. specialize (Hs (x, v)). unfold below in Hs. cbn in Hs. rewrite cmp_refl in Hs.
    assert (0 = -1) by (apply Hs; set_solver). lia.
  - apply sorted_cons in Hs as [Hs _]. destruct (IH k1 Hs) as [-> ->]; done.
Qed.

(** The search on a tree that is not empty: the list around the last node. *)
Lemma search_holds o m v r :
  holds o m → root o = Some r →
  ∃ s c A y w b B, search cmp (fuel_of o) v r o = Ret (y, cmp v w) ∧ rep o [] s ∧ balanced s ∧ inorder s = m ∧ sorted m ∧
    s = plug c (Br A y w b B) ∧ on_path v c ∧ (cmp v w = 1 → B = Leaf) ∧ (cmp v w = -1 → A = Leaf).
Proof.
  intros (s & H & Hb & Hm & Hs) Hr. pose proof (rep_size _ _ _ H) as Hz. pose proof (height_size s).
  pose proof (rep_root _ _ _ H) as Hroot. cbn in Hroot, Hz.
  destruct (search_ok o v s [] (fuel_of o) r H) as (c & A & y & w & b & B & E & Es & Hc & H1 & H2); [congruence|unfold fuel_of; lia|].
  exists s, c, A, y, w, b, B. done.
Qed.

(** The value is at the last node of the search, or it is nowhere. *)
Lemma search_member m v c A y w b B :
  inorder (plug c (Br A y w b B)) = m → sorted m → on_path v c → (cmp v w = 1 → B = Leaf) → (cmp v w = -1 → A = Leaf) →
  cmp v w ≠ 0 → v ∉ m.*2.
Proof.
  intros <- Hs Hc H1 H2 Hne Hin. pose proof Hs as Hs'. destruct (path_bounds v c _ Hs Hc) as [Hb Ha].
  rewrite inorder_plug in Hin, Hs'. cbn [inorder] in Hin, Hs'.
  apply list_elem_of_fmap in Hin as ([z v'] & E & Hin). cbn in E. subst v'. rewrite !elem_of_app, elem_of_cons in Hin.
  apply sorted_app in Hs' as (_ & Hs' & _). apply sorted_app in Hs' as (Hs' & _ & _). apply sorted_app in Hs' as (_ & Hs1 & Hs2).
  apply sorted_cons in Hs1 as [_ Hs1].
  destruct Hin as [Hin|[[Hin|[Hin|Hin]]|Hin]].
  - specialize (Hb _ Hin). cbn in Hb. rewrite cmp_refl in Hb. done.
  - assert (Hl : below (z, v) (y, w)) by (apply Hs2; [done|by left]). unfold below in Hl. cbn in Hl. rewrite (H2 Hl) in Hin.
    by apply not_elem_of_nil in Hin.
  - injection Hin as -> ->. by rewrite cmp_refl in Hne.
  - specialize (Hs1 _ Hin). unfold below in Hs1. cbn in Hs1. apply cmp_gt in Hs1. rewrite (H1 Hs1) in Hin. by apply not_elem_of_nil in Hin.
  - specialize (Ha _ Hin). cbn in Ha. rewrite cmp_refl in Ha. done.
Qed.

Lemma lookup_exact_ok o m v :
  holds o m → ∃ res, BAVL_LookupExact cmp v o = Ret res ∧ match res with Some x => (x, v) ∈ m | None => v ∉ m.*2 end.
Proof.
  intros Hh. unfold BAVL_LookupExact. destruct (holds_root o m Hh) as [[-> ->]|(r & Hr & _)].
  { exists None. split; [done|]. apply not_elem_of_nil. }
  rewrite Hr. destruct (search_holds o m v r Hh Hr) as (s & c & A & y & w & b & B & -> & H & Hb & Hm & Hs & -> & Hc & H1 & H2).
  rewrite bind_Ret. destruct (Z.eqb_spec (cmp v w) 0) as [E|E].
  - exists (Some y). split; [done|]. apply (cmp_eq cmp) in E as ->. rewrite <- Hm, inorder_plug. cbn. set_solver.
  - exists None. split; [done|]. by eapply search_member.
Qed.

(** [BAVL_Lookup] finds the value or a neighbour of it. *)
Lemma lookup_ok o m v :
  holds o m → ∃ res, BAVL_Lookup cmp v o = Ret res ∧
    match res with
    | None => m = []
    | Some x => (x, v) ∈ m ∨ ∃ m1 m2, m = m1 ++ m2 ∧ (∀ p, p ∈ m1 → cmp p.2 v = -1) ∧ (∀ p, p ∈ m2 → cmp v p.2 = -1) ∧
                                  (fst <$> last m1 = Some x ∨ fst <$> head m2 = Some x)
    end.
Proof.
  intros Hh. unfold BAVL_Lookup. destruct (holds_root o m Hh) as [[-> ->]|(r & Hr & _)]; [by exists None|].
  rewrite Hr. destruct (search_holds o m v r Hh Hr) as (s & c & A & y & w & b & B & -> & H & Hb & Hm & Hs & -> & Hc & H1 & H2).
  rewrite bind_Ret. exists (Some y). split; [done|].
  destruct (cmp_range cmp v w) as [E|[E|E]].
  - right. rewrite (H2 E) in *. exists (before c), ((y, w) :: inorder B ++ after c).
    assert (Hc' : on_path v (Frame false y w b B :: c)) by (by apply Forall_cons).
    rewrite <- Hm in Hs. destruct (path_bounds v (Frame false y w b B :: c) Leaf Hs Hc') as [Hlo Hhi]. cbn in Hlo, Hhi. rewrite app_nil_r in Hlo.
    rewrite <- Hm, inorder_plug. cbn. split_and!; auto.
  - left. apply (cmp_eq cmp) in E as ->. rewrite <- Hm, inorder_plug. cbn. set_solver.
  - right. rewrite (H1 E) in *. exists (before c ++ inorder A ++ [(y, w)]), (after c).
    assert (Hc' : on_path v (Frame true y w b A :: c)) by (by apply Forall_cons).
    rewrite <- Hm in Hs. destruct (path_bounds v (Frame true y w b A :: c) Leaf Hs Hc') as [Hlo Hhi]. cbn in Hlo, Hhi.
    rewrite <- Hm, inorder_plug. cbn. split_and!; auto; [by list_simplifier|]. left. by rewrite app_assoc, last_snoc.
Qed.

(** ** Insertion *)
Lemma attach_rep o c side y w b A node n0 :
  rep o c (tn side Leaf y w b A) → heap o !! node = Some n0 → node ∉ locs (plug c (tn side Leaf y w b A)) →
  ∃ o1 o', upd y (set_link side (Some node)) o = Ret o1 ∧ upd node (λ n, Node (Some y) None None 0 (value n)) o1 = Ret o' ∧
           rep o' c (tn side (Br Leaf node (value n0) 0 Leaf) y w b A).
Proof.
  intros [Hsub Hctx Hroot Hnd] Hn Hfresh. destruct o as [ro h]. cbn in Hsub, Hctx, Hroot, Hn. rewrite rootof_tn in *.
  rewrite repr_tn in Hsub. destruct Hsub as (Hy & _ & HA). rewrite locs_plug in Hfresh.
  assert (Hd : NoDup (node :: y :: locs A ++ clocs c)).
  { apply NoDup_cons. split; [revert Hfresh; rewrite locs_tn, locs_leaf; set_solver|]. eapply nodup_perm; [|exact Hnd]. permute. }
  pose proof Hd as Hd'. revert Hd'. clear Hnd. nodup_split. intros Hd'.
  pose proof (upd_eq ro h y _ (set_link side (Some node)) Hy) as E1. rewrite set_link_nd_same in E1.
  eexists _, _. split; [exact E1|]. split; [erewrite upd_eq by (lookups; eassumption); reflexivity|]. split; cbn [heap root]; rewrite ?repr_tn; cbn [repr rootof]; fields;
    [split_and!; represented|represented|done|]. eapply nodup_perm; [|exact Hd']. permute.
Qed.

Lemma insert_ok o m node n0 :
  holds o m → heap o !! node = Some n0 → node ∉ m.*1 →
  ∃ o' ok ref, BAVL_Insert cmp node o = Ret (o', ok, ref) ∧
    if (ok : bool)
    then ∃ m1 m2, m = m1 ++ m2 ∧ (value n0 ∉ m.*2) ∧ holds o' (m1 ++ (node, value n0) :: m2) ∧
           (m = [] ∧ ref = None ∨ m ≠ [] ∧ (ref = fst <$> last m1 ∨ ref = fst <$> head m2))
    else o' = o ∧ ∃ y, ref = Some y ∧ (y, value n0) ∈ m.
Proof.
  intros Hh Hn Hfresh. unfold BAVL_Insert. destruct (holds_root o m Hh) as [[Hr ->]|(r & Hr & Hne)]; rewrite Hr.
  { unfold get. rewrite Hn, bind_Ret. eexists _, true, None. split; [done|]. exists [], []. split_and!; [done|apply not_elem_of_nil| |by left].
    exists (Br Leaf node (value n0) 0 Leaf). split_and!; [|cbn; lia|done|repeat constructor].
    split; cbn; [by rewrite lookup_insert_eq|done|done|apply NoDup_singleton]. }
  unfold get. rewrite Hn, bind_Ret.
  destruct (search_holds o m (value n0) r Hh Hr) as (s & c & A & y & w & b & B & -> & H & Hb & Hm & Hs & -> & Hc & H1 & H2). rewrite bind_Ret.
  destruct (Z.eqb_spec (cmp (value n0) w) 0) as [E|E].
  { eexists _, false, _. split; [done|]. split; [done|]. exists y. split; [done|]. apply (cmp_eq cmp) in E as ->.
    rewrite <- Hm, inorder_plug. cbn. set_solver. }
  set (side := cmp (value n0) w =? 1).
  assert (Ht : ∃ A', Br A y w b B = tn side Leaf y w b A' ∧ on_path (value n0) (Frame side y w b A' :: c)).
  { subst side. destruct (cmp_range cmp (value n0) w) as [E'|[E'|E']]; [|done|]; rewrite E'; cbn [Z.eqb Pos.eqb].
    - rewrite (H2 E'). exists B. split; [done|]. by apply Forall_cons.
    - rewrite (H1 E'). exists A. split; [done|]. by apply Forall_cons. }
  pose proof (search_member m (value n0) c A y w b B Hm Hs Hc H1 H2 E) as Hnew.
  destruct Ht as (A' & Ht & Hc'). rewrite Ht in *. apply rep_plug in H. apply balanced_plug in Hb as [Hb Hbc].
  rewrite balanced_tn in Hb. rewrite height_tn in Hbc. destruct Hb as (Hb1 & Hb2 & _ & HbA). cbn [height] in Hb1, Hbc.
  destruct (attach_rep o c side y w b A' node n0 H Hn) as (o0 & o1 & E0 & E1 & H3). { unfold locs. by rewrite Hm. }
  rewrite E0, bind_Ret, E1, bind_Ret. pose proof (rep_size _ _ _ H3) as Hz. cbn in Hz.
  destruct (rebalance_ok c o1 (fuel_of o1) side (Br Leaf node (value n0) 0 Leaf) y w b A' 1 H3) as (o2 & s2 & -> & H4 & Hb4 & Hi4);
    cbn [height balanced]; try done; try lia; [unfold fuel_of; lia|]. rewrite bind_Ret.
  exists o2, true, (Some y). split; [done|].
  exists (before (Frame side y w b A' :: c)), (after (Frame side y w b A' :: c)).
  pose proof Hm as Hm'. rewrite <- Hm in Hs. destruct (path_bounds (value n0) (Frame side y w b A' :: c) Leaf Hs Hc') as [Hlo Hhi].
  change (plug c (tn side Leaf y w b A')) with (plug (Frame side y w b A' :: c) Leaf) in Hm', Hs.
  change (plug c (tn side _ y w b A')) with (plug (Frame side y w b A' :: c) (Br Leaf node (value n0) 0 Leaf)) in Hi4.
  rewrite inorder_plug in Hm', Hi4, Hs. cbn [inorder app] in Hm', Hi4, Hs.
  split_and!; [done|done| |right; split; [done|]].
  - exists s2. split_and!; [done|done|done|]. apply sorted_app in Hs as (Hs1 & Hs2 & Hs3). apply sorted_app. split_and!; [done| |].
    + apply sorted_cons. split; [done|]. intros q Hq. by apply Hhi.
    + intros p q Hp Hq. apply elem_of_cons in Hq as [-> |Hq]; [by apply Hlo|auto].
  - cbn [before after fside]. destruct side; [left; by rewrite app_assoc, last_snoc|right; done].
Qed.

(** ** Removal *)
Lemma remove_node_ok o c sd ch x v b :
  rep o c (tn sd ch x v b Leaf) → balanced (plug c (tn sd ch x v b Leaf)) →
  ∃ o' s', remove_node x o = Ret o' ∧ rep o' [] s' ∧ balanced s' ∧ inorder s' = before c ++ inorder ch ++ after c.
Proof.
  intros H Hb. apply balanced_plug in Hb as [Hb Hbc]. apply balanced_tn in Hb as (Hb1 & Hb2 & Hbch & _). rewrite height_tn in Hbc.
  cbn [height] in Hb1, Hbc. pose proof (height_nonneg ch) as Hh. rewrite Z.max_l in Hbc by done.
  unfold remove_node. rewrite (rep_get _ _ _ _ _ _ _ _ H), bind_Ret, parent_nd. cbn [rootof].
  set (nn := nd (up c) sd (rootof ch) None b v).
  replace (match link0 nn, link1 nn with Some _, Some _ => false | _, _ => true end) with true by (subst nn; by destruct sd, (rootof ch)).
  replace (match link0 nn with Some c0 => Some c0 | None => link1 nn end) with (rootof ch) by (subst nn; by destruct sd, (rootof ch)).
  clear nn. cbn [assert]. rewrite bind_Ret. destruct (replace_subtree_rep o c sd ch x v b H) as (o1 & E1 & H1).
  destruct c as [|[fs fx fv fb fo] c]; cbn [up floc].
  { exists o1, ch. split_and!; try done. cbn. by rewrite app_nil_r. }
  pose proof (rep_get_frame o _ _ _ H) as Hg. cbn [floc fside fsib fbal fval] in Hg. rewrite Hg, bind_Ret, rootof_tn, is_link_nd.
  2:{ intros E. destruct fo as [|l0 z0 w0 k0 r0]; [done|]. injection E as ->. apply (rep_fresh _ _ sd) in H. cbn [clocs fsib] in H.
      rewrite locs_br in H. clear - H. set_solver. }
  rewrite E1, bind_Ret. apply rep_zip in H1. unfold plug1 in H1. cbn [fside floc fval fbal fsib] in H1.
  cbn in Hbc. destruct Hbc as (Hf1 & Hf2 & Hf3 & Hf4). pose proof (rep_size _ _ _ H1) as Hz.
  destruct (rebalance_ok c o1 (fuel_of o1) fs ch fx fv fb fo (-1) H1) as (o2 & s2 & -> & H2 & Hb4 & Hi); try done; try lia.
  - unfold fuel_of. lia.
  - replace (Z.max (height ch - -1) (height fo)) with (Z.max (1 + height ch) (height fo)) by lia. done.
  - exists o2, s2. split_and!; try done. rewrite Hi.
    change (plug c (tn fs ch fx fv fb fo)) with (plug (Frame fs fx fv fb fo :: c) ch). apply inorder_plug.
Qed.

(** A node with two children: the greatest node of its left subtree is found and
    exchanged with it, and it then has no right child. *)
Lemma swap_for_remove_rep o c l x v b r y :
  rep o c (Br l x v b r) → balanced (plug c (Br l x v b r)) → rootof l = Some y →
  ∃ c2 a mx mv mb o1, l = plug c2 (Br a mx mv mb Leaf) ∧ Forall (λ f, fside f = true) c2 ∧
    rep o (c2 ++ Frame false x v b r :: c) (Br a mx mv mb Leaf) ∧ _BAVL_subtree_max y o = Ret mx ∧ _BAVL_swap_nodes x mx o = Ret o1 ∧
    rep o1 (c2 ++ Frame false mx mv b r :: c) (tn false a x v mb Leaf) ∧
    balanced (plug (c2 ++ Frame false mx mv b r :: c) (tn false a x v mb Leaf)).
Proof.
  intros H Hb Hy. assert (Hl : l ≠ Leaf) by (by intros ->).
  destruct (path_to_end true l Hl) as (c2 & a & mx & mv & mb & Ep & Hc2). cbn [tn] in Ep.
  pose proof H as H'. apply (rep_zip o (Frame false x v b r) c l) in H'. pose proof (rep_size _ _ _ H') as Hz. cbn [length] in Hz.
  assert (Hmax : last_link (fuel_of o) true y o = Ret mx).
  { apply (last_link_ok true o a mx mv mb c2 (Frame false x v b r :: c)); cbn [tn]; rewrite <- ?Ep; try done.
    unfold fuel_of. rewrite Ep, inorder_plug, !length_app in Hz. pose proof (path_length c2). lia. }
  rewrite Ep in H'. apply rep_app in H'. destruct (swap_nodes_rep o c2 c x v b r a mx mv mb H' Hc2) as (o1 & E1 & H1).
  exists c2, a, mx, mv, mb, o1. split_and!; try done.
  rewrite Ep in Hb. change (Br (plug c2 (Br a mx mv mb Leaf)) x v b r) with (plug1 (Frame false x v b r) (plug c2 (Br a mx mv mb Leaf))) in Hb.
  rewrite plug_app. cbn [plug]. rewrite !balanced_plug in *. unfold plug1 in *. cbn [fside floc fval fbal fsib] in *.
  rewrite !balanced_tn, !height_tn, !balanced_plug in *. rewrite !(height_plug_same c2 (Br a mx mv mb Leaf) (tn false a x v mb Leaf)) in Hb by done.
  done.
Qed.

Lemma remove_rep o c l x v b r :
  rep o c (Br l x v b r) → balanced (plug c (Br l x v b r)) →
  ∃ o' s', BAVL_Remove x o = Ret o' ∧ rep o' [] s' ∧ balanced s' ∧ inorder s' = before c ++ inorder l ++ inorder r ++ after c.
Proof.
  intros H Hb. unfold BAVL_Remove. rewrite (rep_get o c false l x v b r H), bind_Ret. unfold nd. cbn [link0 link1].
  destruct (rootof l) as [y|] eqn:El; [destruct (rootof r) as [z|] eqn:Er|]; rewrite ?bind_Ret.
  - destruct (swap_for_remove_rep o c l x v b r y H Hb El) as (c2 & a & mx & mv & mb & o1 & Ep & Hc2 & _ & -> & E1 & H1 & Hb1).
    rewrite bind_Ret, E1, bind_Ret. destruct (remove_node_ok o1 (c2 ++ Frame false mx mv b r :: c) false a x v mb H1 Hb1) as (o' & s' & ? & ? & ? & Hi).
    exists o', s'. split_and!; try done. rewrite Hi, before_app, after_app, (after_right c2) by done. cbn [before after fside floc fval fsib app].
    rewrite Ep, inorder_plug, (after_right c2) by done. cbn. by list_simplifier.
  - destruct r; [|done]. destruct (remove_node_ok o c false l x v b H Hb) as (o' & s' & ? & ? & ? & Hi). by exists o', s'.
  - destruct l; [|done]. destruct (remove_node_ok o c true r x v b H Hb) as (o' & s' & ? & ? & ? & Hi). by exists o', s'.
Qed.

Lemma remove_ok o m1 x v m2 :
  holds o (m1 ++ (x, v) :: m2) → ∃ o', BAVL_Remove x o = Ret o' ∧ holds o' (m1 ++ m2).
Proof.
  intros (s & H & Hb & Hm & Hs). destruct (path_to s x v) as (c & l & b & r & ->). { rewrite Hm. set_solver. }
  apply rep_plug in H. destruct (remove_rep o c l x v b r H Hb) as (o' & s' & E & H' & Hb' & Hi). exists o'. split; [done|]. exists s'.
  assert (Hl : before c ++ inorder l = m1 ∧ inorder r ++ after c = m2).
  { rewrite inorder_plug in Hm. cbn in Hm.
    assert (Hm' : (before c ++ inorder l) ++ (x, v) :: inorder r ++ after c = m1 ++ (x, v) :: m2) by (rewrite <- Hm; by list_simplifier).
    apply (sorted_split x v); [by rewrite Hm'|done]. }
  destruct Hl as [<- <-]. split_and!; try done; [by rewrite Hi; list_simplifier|].
  apply sorted_app in Hs as (Hs1 & [Hs2 _]%sorted_cons & Hs3). apply sorted_app. split_and!; try done.
  intros p q Hp Hq. apply Hs3; [done|by right].
Qed.

(** ** The ends of the list, and neighbours *)
Lemma get_end_ok side o m : holds o m → BAVL_GetEnd side o = Ret (end_of side m).
Proof.
  intros Hh. unfold BAVL_GetEnd. destruct (holds_root o m Hh) as [[-> ->]|(r & Hr & _)]; [by destruct side|]. rewrite Hr.
  destruct Hh as (s & H & _ & <- & _). pose proof (rep_size _ _ _ H) as Hz. pose proof (rep_root _ _ _ H) as Hroot. cbn in Hz, Hroot.
  destruct (last_link_end side o [] s r (fuel_of o) H) as (y & -> & ->); [congruence|unfold fuel_of; lia|done].
Qed.

Lemma neighbour_ok side o m1 x v m2 :
  holds o (m1 ++ (x, v) :: m2) → BAVL_GetNeighbour side x o = Ret (if side then fst <$> head m2 else fst <$> last m1).
Proof.
  intros (s & H & _ & Hm & Hs). destruct (path_to s x v) as (c & l & b & r & ->). { rewrite Hm. set_solver. }
  apply rep_plug in H. rewrite inorder_plug in Hm. cbn in Hm.
  assert (Hm' : (before c ++ inorder l) ++ (x, v) :: inorder r ++ after c = m1 ++ (x, v) :: m2) by (rewrite <- Hm; by list_simplifier).
  destruct (sorted_split x v (before c ++ inorder l) (inorder r ++ after c) m1 m2) as [<- <-]; [by rewrite Hm'|done|].
  pose proof (rep_size _ _ _ H) as Hz. cbn in Hz. rewrite length_app in Hz. cbn in Hz.
  unfold BAVL_GetNeighbour. rewrite (rep_get o c false l x v b r H), bind_Ret.
  set (ch := if side then r else l). replace (link _ side) with (rootof ch) by (subst ch; by destruct side).
  destruct (rootof ch) as [z|] eqn:Ez.
  - assert (Hch : rep o ((if side then Frame true x v b l else Frame false x v b r) :: c) ch).
    { subst ch. destruct side; by apply rep_zip. }
    destruct (last_link_end (negb side) o _ ch z (fuel_of o) Hch Ez) as (y & -> & Ey); [unfold fuel_of; subst ch; destruct side; lia|].
    rewrite bind_Ret. f_equal. rewrite <- Ey. subst ch. destruct side; cbn [negb end_of].
    + destruct r as [|r1 y1 w1 k1 r2]; [done|]. cbn [inorder]. by destruct (inorder r1).
    + destruct l as [|l1 y1 w1 k1 l2]; [done|]. cbn [inorder]. rewrite (last_app (before c)).
      destruct (last (inorder l1 ++ (y1, w1) :: inorder l2)) eqn:El; [done|]. apply last_None in El. by destruct (inorder l1).
  - rewrite (climb_ok side o c (fuel_of o) _ x H) by (done || (unfold fuel_of; lia)). subst ch.
    destruct side; [by destruct r|]. destruct l; [|done]. cbn. by rewrite app_nil_r.
Qed.

(** ** The checks of [BAVL_Verify] *)
Lemma assert_recurser_ok o : ∀ s c n x,
  rep o c s → rootof s = Some x → balanced s → sorted (inorder s) → height s ≤ Z.of_nat n →
  _BAVL_assert_recurser n cmp x o = Ret (height s).
Proof.
  induction s as [|l IHl y w b r IHr]; intros c n x H Hx Hb Hs Hn; [done|]. injection Hx as <-. cbn in Hn.
  pose proof (height_nonneg l) as Hnl. pose proof (height_nonneg r) as Hnr. destruct n as [|n]; [lia|]. cbn [_BAVL_assert_recurser].
  rewrite (rep_get o c false l y w b r H), bind_Ret. unfold nd. cbn [balance link0 link1 value].
  destruct Hb as (Hb & Hbr & Hbl & Hbr'). cbn in Hs. apply sorted_app in Hs as (Hs1 & [Hs2 Hs3]%sorted_cons & Hs4).
  replace (in_range b) with true by (unfold in_range; symmetry; solve_bool). cbn [assert]. rewrite bind_Ret.
  set (ml := match rootof l with Some _ => _ | None => _ end). set (mr := match rootof r with Some _ => _ | None => _ end).
  assert (El : ml = Ret (height l)).
  { subst ml. destruct l as [|l1 z u k l2]; [done|]. cbn [rootof]. pose proof (proj2 (rep_zip o (Frame false y w b r) c _) H) as Hl.
    rewrite (rep_get _ _ false l1 z u k l2 Hl), bind_Ret. cbn [up floc]. rewrite parent_nd, is_link_eq. cbn [assert].
    rewrite bind_Ret, value_nd, compare_values_eq, bind_Ret.
    assert (Hlt : below (z, u) (y, w)) by (apply Hs4; [cbn; set_solver|by left]). unfold below in Hlt. cbn in Hlt. rewrite Hlt.
    cbn [Z.eqb Pos.eqb assert]. rewrite bind_Ret. eapply IHl; eauto. lia. }
  assert (Er : mr = Ret (height r)).
  { subst mr. destruct r as [|r1 z u k r2]; [done|]. cbn [rootof]. pose proof (proj2 (rep_zip o (Frame true y w b l) c _) H) as Hr.
    rewrite (rep_get _ _ false r1 z u k r2 Hr), bind_Ret. cbn [up floc]. rewrite parent_nd, is_link_eq. cbn [assert].
    rewrite bind_Ret, value_nd, compare_values_eq, bind_Ret.
    assert (Hlt : below (y, w) (z, u)) by (apply Hs3; cbn; set_solver). unfold below in Hlt. cbn in Hlt. apply cmp_gt in Hlt. rewrite Hlt.
    cbn [Z.eqb Pos.eqb assert]. rewrite bind_Ret. eapply IHr; eauto. lia. }
  rewrite El, bind_Ret, Er, bind_Ret, (proj2 (Z.eqb_eq b _)) by done. cbn [assert]. rewrite bind_Ret. cbn [height]. f_equal. lia.
Qed.

Lemma verify_ok o m : holds o m → BAVL_Verify cmp o = Ret tt.
Proof.
  intros Hh. unfold BAVL_Verify. destruct (holds_root o m Hh) as [[-> _]|(r & Hr & _)]; [done|]. rewrite Hr.
  destruct Hh as (s & H & Hb & <- & Hs). pose proof (rep_size _ _ _ H) as Hz. pose proof (height_size s).
  pose proof (rep_root _ _ _ H) as Hroot. cbn in Hz, Hroot. rewrite Hr in Hroot. destruct s as [|l y w k r2]; [done|]. injection Hroot as ->.
  rewrite (rep_get o [] false l y w k r2 H), bind_Ret, parent_nd. cbn [up assert]. rewrite bind_Ret.
  by rewrite (assert_recurser_ok o (Br l y w k r2) [] (fuel_of o) y) by (done || (unfold fuel_of; lia)).
Qed.

(** ** Depth *)
Lemma search_depth o m r :
  holds o m → root o = Some r →
  ∃ h : nat, 2 ^ (Z.of_nat h `div` 2) ≤ Z.of_nat (length m) + 1 ∧ ∀ v, ∃ res, search cmp h v r o = Ret res.
Proof.
  intros (s & H & Hb & <- & _) Hr. pose proof (rep_root _ _ _ H) as Hroot. cbn in Hroot. pose proof (height_nonneg s) as Hh.
  exists (Z.to_nat (height s)). split.
  - pose proof (balanced_size s Hb (Z.to_nat (height s `div` 2))) as Hs. rewrite !Z2Nat.id in * by (try done; apply Z.div_pos; lia).
    apply Hs. apply Z.mul_div_le. lia.
  - intros v. destruct (search_ok o v s [] (Z.to_nat (height s)) r H) as (c & A & y & w & b & B & E & _); [congruence|lia|]. by eexists.
Qed.
End spec.
