(* ===== verification/BavlSet.v ===== *)
(** * The AVL tree of badvpn implements an ordered set

    Programs that allocate nodes, insert, remove, search and walk, run on the
    tree of [Bavl] and on a sorted list of values. *)
From S2P Require Import Prelude AvlTree Bavl BavlRep BavlOps BavlSpec.
From stdpp Require Import gmap.
#[local] Open Scope Z_scope.
#[local] Set Warnings "-clear-no-such-hyp".

Section set.
Context {V : Type} (cmp : V → V → Z) `{!BAVLOrder cmp}.
Implicit Types (o : BAVL V) (m : list V) (mm : list (loc * V)).

Inductive set_op := SInsert (v : V) | SRemove (v : V) | SFind (v : V) | SFirst | SLast | SNext (v : V) | SPrev (v : V).
Inductive answer := Flag (b : bool) | Value (v : option V).

(** ** The sorted list *)
Definition less (v : V) m : list V := List.filter (λ u, cmp u v =? -1) m.
Definition more (v : V) m : list V := List.filter (λ u, cmp v u =? -1) m.
Definition member (v : V) m : bool := existsb (λ u, cmp v u =? 0) m.
Definition set_step (op : set_op) m : list V * answer :=
  match op with
  | SInsert v => if member v m then (m, Flag false) else (less v m ++ v :: more v m, Flag true)
  | SRemove v => if member v m then (less v m ++ more v m, Flag true) else (m, Flag false)
  | SFind v => (m, Flag (member v m))
  | SFirst => (m, Value (head m))
  | SLast => (m, Value (last m))
  | SNext v => (m, Value (if member v m then head (more v m) else None))
  | SPrev v => (m, Value (if member v m then last (less v m) else None))
  end.
Fixpoint set_run (ops : list set_op) m : list V * list answer :=
  match ops with
  | [] => (m, [])
  | op :: ops => let '(m, a) := set_step op m in let '(m, l) := set_run ops m in (m, a :: l)
  end.

(** ** The tree *)
Definition value_at (x : option loc) o : outcome (option V) :=
  match x with Some x => n ← get x o; Ret (Some (value n)) | None => Ret None end.

(** malloc of an object with value [v]: its node is not initialised. *)
Definition alloc_node (x : loc) (v : V) o : BAVL V := Tree (root o) (<[x := Node (Some x) (Some x) (Some x) 77 v]> (heap o)).
Definition free_node (x : loc) o : BAVL V := Tree (root o) (delete x (heap o)).

Definition tree_step (op : set_op) o : outcome (BAVL V * answer) :=
  match op with
  | SInsert v =>
      let x := fresh (dom (heap o)) in
      '(o, ok, _) ← BAVL_Insert cmp x (alloc_node x v o);
      Ret (if (ok : bool) then o else free_node x o, Flag ok)
  | SRemove v =>
      x ← BAVL_LookupExact cmp v o;
      match x with
      | Some x => o ← BAVL_Remove x o; Ret (free_node x o, Flag true)
      | None => Ret (o, Flag false)
      end
  | SFind v => x ← BAVL_LookupExact cmp v o; Ret (o, Flag (match x with Some _ => true | None => false end))
  | SFirst => x ← BAVL_GetFirst o; v ← value_at x o; Ret (o, Value v)
  | SLast => x ← BAVL_GetLast o; v ← value_at x o; Ret (o, Value v)
  | SNext v =>
      x ← BAVL_LookupExact cmp v o;
      match x with Some x => y ← BAVL_GetNext x o; u ← value_at y o; Ret (o, Value u) | None => Ret (o, Value None) end
  | SPrev v =>
      x ← BAVL_LookupExact cmp v o;
      match x with Some x => y ← BAVL_GetPrev x o; u ← value_at y o; Ret (o, Value u) | None => Ret (o, Value None) end
  end.
Fixpoint tree_run (ops : list set_op) o : outcome (BAVL V * list answer) :=
  match ops with
  | [] => Ret (o, [])
  | op :: ops => '(o, a) ← tree_step op o; '(o, l) ← tree_run ops o; Ret (o, a :: l)
  end.

(** ** Sorted lists *)
Lemma filter_none (f : V → bool) m : (∀ u, u ∈ m → f u = false) → List.filter f m = [].
Proof. induction m as [|u m IH]; intros H; [done|]. cbn. rewrite H by set_solver. apply IH. set_solver. Qed.
Lemma filter_all (f : V → bool) m : (∀ u, u ∈ m → f u = true) → List.filter f m = m.
Proof. induction m as [|u m IH]; intros H; [done|]. cbn. rewrite H by set_solver. f_equal. apply IH. set_solver. Qed.

(** The lists around the value [v] in a sorted list, [v] being there or not. *)
Definition around (v : V) (m1 m2 : list V) : Prop := (∀ u, u ∈ m1 → cmp u v = -1) ∧ (∀ u, u ∈ m2 → cmp v u = -1).

Lemma around_split v m1 m0 m2 :
  around v m1 m2 → (∀ u, u ∈ m0 → u = v) → less v (m1 ++ m0 ++ m2) = m1 ∧ more v (m1 ++ m0 ++ m2) = m2.
Proof.
  intros [H1 H2] H0. unfold less, more. rewrite !List.filter_app. split.
  - rewrite (filter_all _ m1), (filter_none _ m0), (filter_none _ m2), app_nil_r; [done|..]; intros u Hu.
    + rewrite (cmp_flip cmp v u), (H2 u Hu). done.
    + by rewrite (H0 u Hu), cmp_refl.
    + by rewrite (H1 u Hu).
  - rewrite (filter_none _ m1), (filter_none _ m0), (filter_all _ m2); [done|..]; intros u Hu.
    + by rewrite (H2 u Hu).
    + by rewrite (H0 u Hu), cmp_refl.
    + by rewrite (cmp_flip cmp u v), (H1 u Hu).
Qed.

Lemma sorted_around mm1 x v mm2 : sorted cmp (mm1 ++ (x, v) :: mm2) → around v mm1.*2 mm2.*2.
Proof.
  intros (_ & [_ H2]%sorted_cons & H3)%sorted_app; try done. split; intros u (p & -> & Hp)%list_elem_of_fmap.
  - apply (H3 p (x, v)); [done|by left].
  - by apply (H2 p).
Qed.

Lemma member_true v m : v ∈ m → member v m = true.
Proof. intros H. apply existsb_exists. exists v. split; [by apply list_elem_of_In|]. by rewrite cmp_refl. Qed.
Lemma member_false v m : v ∉ m → member v m = false.
Proof.
  intros H. destruct (member v m) eqn:E; [|done]. apply existsb_exists in E as (u & Hu & E). apply Z.eqb_eq, (cmp_eq cmp) in E as ->.
  by apply list_elem_of_In in Hu.
Qed.

(** ** Cells outside the tree *)
Lemma holds_heap o h mm : holds cmp o mm → (∀ x, x ∈ mm.*1 → h !! x = heap o !! x) → holds cmp (Tree (root o) h) mm.
Proof.
  intros (s & [Hs Hc Hr Hn] & Hb & Hm & Hso) Hh. exists s. split_and!; try done. split; cbn; try done.
  eapply repr_ext; [|exact Hs]. intros x Hx. apply Hh. by rewrite <- Hm.
Qed.

Lemma holds_value o mm x v : holds cmp o mm → (x, v) ∈ mm → ∃ n, heap o !! x = Some n ∧ value n = v.
Proof.
  intros (s & H & _ & <- & _) Hx. destruct (path_to s x v Hx) as (c & l & b & r & ->). apply rep_plug in H. destruct H as [(Hx' & _) _ _ _].
  by eexists.
Qed.

Lemma holds_dom o mm x : holds cmp o mm → x ∈ mm.*1 → x ∈ dom (heap o).
Proof.
  intros Hh ([y v] & -> & Hy)%list_elem_of_fmap. destruct (holds_value o mm y v Hh Hy) as (n & E & _). apply elem_of_dom. by eexists.
Qed.

Lemma holds_alloc o mm x v : holds cmp o mm → x ∉ dom (heap o) → holds cmp (alloc_node x v o) mm ∧ x ∉ mm.*1.
Proof.
  intros Hh Hx. assert (Hn : x ∉ mm.*1) by (intros Hin; apply Hx; by eapply holds_dom). split; [|done].
  apply holds_heap; [done|]. intros y Hy. apply lookup_insert_ne. intros ->. done.
Qed.

Lemma holds_free o mm x : holds cmp o mm → x ∉ mm.*1 → holds cmp (free_node x o) mm.
Proof. intros Hh Hn. apply holds_heap; [done|]. intros y Hy. apply lookup_delete_ne. intros ->. done. Qed.

Lemma value_at_ok o mm (y : option (loc * V)) :
  holds cmp o mm → (∀ p, y = Some p → p ∈ mm) → value_at (fst <$> y) o = Ret (snd <$> y).
Proof.
  intros Hh Hy. destruct y as [[x v]|]; [|done]. destruct (holds_value o mm x v Hh) as (n & E & Hv); [by apply Hy|].
  cbn. unfold get. by rewrite E, bind_Ret, Hv.
Qed.

Lemma holds_nodup o mm : holds cmp o mm → NoDup mm.*1.
Proof. intros (s & [_ _ _ Hn] & _ & <- & _). cbn in Hn. by rewrite app_nil_r in Hn. Qed.

Lemma last_elem {A} (l : list A) x : last l = Some x → x ∈ l.
Proof. intros (k & ->)%last_Some. set_solver. Qed.
Lemma head_elem {A} (l : list A) x : head l = Some x → x ∈ l.
Proof. destruct l; cbn; [done|]. intros [= ->]. by left. Qed.

(** One step of the tree is one step of the list. *)
Lemma find_split o mm v :
  holds cmp o mm → ∃ res, BAVL_LookupExact cmp v o = Ret res ∧
    match res with
    | Some x => ∃ mm1 mm2, mm = mm1 ++ (x, v) :: mm2 ∧ member v mm.*2 = true ∧ less v mm.*2 = mm1.*2 ∧ more v mm.*2 = mm2.*2
    | None => (v ∉ mm.*2) ∧ member v mm.*2 = false
    end.
Proof.
  intros Hh. destruct (lookup_exact_ok cmp o mm v Hh) as (res & E & H). exists res. split; [done|].
  destruct res as [x|]; [|split; [done|by apply member_false]].
  apply list_elem_of_split in H as (mm1 & mm2 & ->). exists mm1, mm2. destruct Hh as (_ & _ & _ & _ & Hs).
  rewrite fmap_app, fmap_cons. cbn [snd]. apply sorted_around in Hs. split_and!; [done|apply member_true; set_solver|..];
    by apply (around_split v mm1.*2 [v] mm2.*2 Hs); set_solver.
Qed.

(** What a tree promises: it holds [m]. *)
Definition stores o m : Prop := ∃ mm, holds cmp o mm ∧ mm.*2 = m.

Definition agrees o m op : Prop := ∃ o', tree_step op o = Ret (o', (set_step op m).2) ∧ stores o' (set_step op m).1.

Lemma insert_agrees o m v : stores o m → agrees o m (SInsert v).
Proof.
  intros (mm & Hh & <-). unfold agrees. cbn [tree_step set_step].
  set (x := fresh (dom (heap o))). destruct (holds_alloc o mm x v Hh) as [Ha Hx]; [apply is_fresh|].
  destruct (insert_ok cmp (alloc_node x v o) mm x (Node (Some x) (Some x) (Some x) 77 v) Ha) as (o' & ok & ref & -> & H);
    [cbn; apply lookup_insert_eq|done|]. rewrite bind_Ret. destruct ok.
  - destruct H as (m1 & m2 & -> & Hv & Ho' & _). cbn [value] in *. rewrite member_false by done. exists o'. split; [done|].
    exists (m1 ++ (x, v) :: m2). split; [done|]. rewrite !fmap_app, fmap_cons. cbn [fst snd].
    destruct Ho' as (_ & _ & _ & _ & Hs). apply sorted_around in Hs.
    destruct (around_split v m1.*2 [] m2.*2 Hs) as [El Em]; [set_solver|]. cbn [app] in El, Em. by rewrite El, Em.
  - destruct H as (-> & y & _ & Hy). cbn [value] in Hy. rewrite member_true by (apply list_elem_of_fmap; by exists (y, v)).
    exists (free_node x (alloc_node x v o)). split; [done|]. exists mm. split; [by apply holds_free|done].
Qed.

Lemma remove_agrees o m v : stores o m → agrees o m (SRemove v).
Proof.
  intros (mm & Hh & <-). unfold agrees. cbn [tree_step set_step].
  destruct (find_split o mm v Hh) as ([x|] & -> & H); rewrite bind_Ret.
  - destruct H as (mm1 & mm2 & -> & -> & -> & ->). destruct (remove_ok cmp o mm1 x v mm2 Hh) as (o' & -> & Ho'). rewrite bind_Ret.
    exists (free_node x o'). split; [done|]. exists (mm1 ++ mm2). split; [|by rewrite fmap_app]. apply holds_free; [done|].
    apply holds_nodup in Hh. rewrite fmap_app, fmap_cons in Hh. cbn in Hh. rewrite fmap_app.
    revert Hh. rewrite NoDup_app, NoDup_cons. set_solver.
  - destruct H as [_ ->]. exists o. split; [done|]. by exists mm.
Qed.

Lemma walk_agrees o m v side :
  stores o m → agrees o m (if (side : bool) then SNext v else SPrev v).
Proof.
  intros (mm & Hh & <-). unfold agrees. destruct (find_split o mm v Hh) as ([x|] & E & H);
    exists o; destruct side; cbn [tree_step set_step]; rewrite E, bind_Ret; (split; [|by exists mm]).
  - destruct H as (mm1 & mm2 & -> & -> & _ & ->). unfold BAVL_GetNext. rewrite (neighbour_ok cmp true o mm1 x v mm2 Hh), bind_Ret.
    rewrite (value_at_ok o (mm1 ++ (x, v) :: mm2)); [|done|intros q Hq%head_elem; set_solver]. rewrite bind_Ret. by destruct mm2.
  - destruct H as (mm1 & mm2 & -> & -> & -> & _). unfold BAVL_GetPrev. rewrite (neighbour_ok cmp false o mm1 x v mm2 Hh), bind_Ret.
    rewrite (value_at_ok o (mm1 ++ (x, v) :: mm2)); [|done|intros q Hq%last_elem; set_solver]. rewrite bind_Ret. by rewrite fmap_last.
  - by destruct H as (_ & ->).
  - by destruct H as (_ & ->).
Qed.

Lemma tree_step_ok o m op : stores o m → agrees o m op.
Proof.
  intros Hst. destruct op as [v|v|v| | |v|v];
    [by apply insert_agrees|by apply remove_agrees| | | |by apply (walk_agrees o m v true)|by apply (walk_agrees o m v false)];
    destruct Hst as (mm & Hh & <-); exists o; cbn [tree_step set_step]; (split; [|by exists mm]).
  - destruct (find_split o mm v Hh) as ([x|] & -> & H); rewrite bind_Ret; [by destruct H as (_ & _ & _ & -> & _)|by destruct H as (_ & ->)].
  - unfold BAVL_GetFirst. rewrite (get_end_ok cmp false o mm Hh), bind_Ret. cbn [end_of].
    rewrite (value_at_ok o mm) by (done || (intros; by apply head_elem)). rewrite bind_Ret. by destruct mm.
  - unfold BAVL_GetLast. rewrite (get_end_ok cmp true o mm Hh), bind_Ret. cbn [end_of].
    rewrite (value_at_ok o mm) by (done || (intros; by apply last_elem)). by rewrite bind_Ret, fmap_last.
Qed.

Lemma init_stores : stores (BAVL_Init ∅) [].
Proof. exists []. split; [|done]. exists Leaf. split_and!; try done; [|constructor]. split; cbn; (done || constructor). Qed.

Lemma tree_run_ok ops o m : stores o m → ∃ o', tree_run ops o = Ret (o', (set_run ops m).2) ∧ stores o' (set_run ops m).1.
Proof.
  revert o m. induction ops as [|op ops IH]; intros o m Hs; [by exists o|]. cbn [tree_run set_run].
  destruct (tree_step_ok o m op Hs) as (o1 & -> & H1). rewrite bind_Ret. destruct (set_step op m) as [m1 a] eqn:E. cbn [fst snd] in *.
  destruct (IH o1 m1 H1) as (o2 & -> & H2). rewrite bind_Ret. destruct (set_run ops m1) as [m2 l]. by exists o2.
Qed.

Lemma stores_verify o m : stores o m → BAVL_Verify cmp o = Ret tt.
Proof. intros (mm & Hh & _). by eapply verify_ok. Qed.
End set.

(** ** Integers, as the ports of tun2socks *)

(** [conaddr_comparator] of tun2socks.c. *)
Definition conaddr_comparator (v1 v2 : Z) : Z := if v1 =? v2 then 0 else if v2 <? v1 then 1 else -1.

#[export] Instance conaddr_order : BAVLOrder conaddr_comparator.
Proof.
  split; unfold conaddr_comparator; intros *;
    repeat match goal with
    | |- context [?a =? ?b] => destruct (Z.eqb_spec a b)
    | |- context [?a <? ?b] => destruct (Z.ltb_spec a b)
    end; lia.
Qed.

(** C14: the AVL tree implements an ordered set.  For every total order and every
    program of insertions, removals, searches and walks on a tree that starts
    empty, the pointer code returns (no null or dangling pointer is followed,
    no assertion fails), gives the answers of a sorted list without
    duplicates, and leaves a tree that passes [BAVL_Verify]: parent pointers,
    order and balance factors are right at every node. *)
Theorem bavl_implements_set {V} (cmp : V → V → Z) `{!BAVLOrder cmp} (ops : list (@set_op V)) :
  ∃ o, tree_run cmp ops (BAVL_Init ∅) = Ret (o, (set_run cmp ops []).2) ∧ BAVL_Verify cmp o = Ret tt.
Proof.
  destruct (tree_run_ok cmp ops (BAVL_Init ∅) [] (init_stores cmp)) as (o & E & H). exists o. split; [done|]. by eapply stores_verify.
Qed.

Definition demo_ops : list (@set_op Z) :=
  [SInsert 5; SInsert 3; SInsert 8; SInsert 1; SInsert 2; SInsert 9; SInsert 3; SRemove 5; SFirst; SLast; SNext 3; SPrev 8; SRemove 7;
   SRemove 1; SFind 5; SFind 9].
Lemma bavl_implements_set_witness :
  ∃ o, tree_run conaddr_comparator demo_ops (BAVL_Init ∅) = Ret (o, (set_run conaddr_comparator demo_ops []).2) ∧
    BAVL_Verify conaddr_comparator o = Ret tt.
Proof. apply (bavl_implements_set conaddr_comparator demo_ops). Defined.

Example demo_answers :
  (set_run conaddr_comparator demo_ops []).2
  = [Flag true; Flag true; Flag true; Flag true; Flag true; Flag true; Flag false; Flag true; Value (Some 1); Value (Some 9);
     Value (Some 8); Value (Some 3); Flag false; Flag true; Flag false; Flag true].
Proof. vm_compute. reflexivity. Qed.

(** A search is short.  In a tree with [n] nodes built by any such program,
    [BAVL_Insert] and the lookups visit at most [h] nodes for some [h] with
    [2 ^ (h / 2) <= n + 1], whatever the value. *)
Theorem bavl_search_depth {V} (cmp : V → V → Z) `{!BAVLOrder cmp} (ops : list (@set_op V)) :
  ∃ o, tree_run cmp ops (BAVL_Init ∅) = Ret (o, (set_run cmp ops []).2) ∧
    ∀ r, root o = Some r →
    ∃ h : nat, 2 ^ (Z.of_nat h `div` 2) ≤ Z.of_nat (length (set_run cmp ops []).1) + 1 ∧
      ∀ v, ∃ y comp, search cmp h v r o = Ret (y, comp).
Proof.
  destruct (tree_run_ok cmp ops (BAVL_Init ∅) [] (init_stores cmp)) as (o & E & mm & Hh & Hm). exists o. split; [done|]. intros r Hr.
  destruct (search_depth cmp o mm r Hh Hr) as (h & Hl & Hs). exists h. rewrite <- Hm, length_fmap. split; [done|].
  intros v. destruct (Hs v) as ([y comp] & Ey). by exists y, comp.
Qed.

Lemma bavl_search_depth_witness :
  ∃ o, tree_run conaddr_comparator demo_ops (BAVL_Init ∅) = Ret (o, (set_run conaddr_comparator demo_ops []).2) ∧
    ∀ r, root o = Some r →
    ∃ h : nat, 2 ^ (Z.of_nat h `div` 2) ≤ Z.of_nat (length (set_run conaddr_comparator demo_ops []).1) + 1 ∧
      ∀ v, ∃ y comp, search conaddr_comparator h v r o = Ret (y, comp).
Proof. apply (bavl_search_depth conaddr_comparator demo_ops). Defined.
