(* ===== verification/BavlCells.v ===== *)
(** * The AVL tree neither takes nor frees memory

    Insertion and removal write only to cells of the heap that exist, so the set
    of cells stays the same: memory belongs to the user of the tree. *)
From S2P Require Import Prelude AvlTree Bavl.
From stdpp Require Import gmap.

Section cells.
Context {V : Type}.
Implicit Types o : BAVL V.

Definition cells o : gset loc := dom (heap o).

Lemma upd_cells x f o o' : upd x f o = Ret o' → cells o' = cells o.
Proof.
  unfold upd, get, cells. destruct (heap o !! x) as [n|] eqn:E; [|done]. rewrite bind_Ret. intros [= <-]. cbn. apply dom_insert_lookup_L. by rewrite E.
Qed.

(** Turn every store in the context into an equation between sets of cells. *)
Ltac cells_eqs :=
  repeat match goal with
    | H : upd _ _ _ = Ret _ |- _ => apply upd_cells in H
    end.

Lemma replace_in_parent_cells p x n o o' : replace_in_parent p x n o = Ret o' → cells o' = cells o.
Proof. unfold replace_in_parent. destruct p; intros H; inv_binds; cells_eqs; by subst. Qed.
Lemma adopt_cells c p o o' : adopt c p o = Ret o' → cells o' = cells o.
Proof. unfold adopt. destruct c; intros H; inv_binds; cells_eqs; by subst. Qed.

Ltac cells_all :=
  cells_eqs;
  repeat match goal with
    | H : replace_in_parent _ _ _ _ = Ret _ |- _ => apply replace_in_parent_cells in H
    | H : adopt _ _ _ = Ret _ |- _ => apply adopt_cells in H
    end.

Lemma rotate_cells r dir o o' : _BAVL_rotate r dir o = Ret o' → cells o' = cells o.
Proof. unfold _BAVL_rotate. intros H. inv_binds. cells_all. congruence. Qed.
Lemma replace_subtree_cells dest n o o' : _BAVL_replace_subtree dest n o = Ret o' → cells o' = cells o.
Proof. unfold _BAVL_replace_subtree. intros H. inv_binds. destruct n; inv_binds; cells_all; congruence. Qed.
Lemma swap_adjacent_cells n1 n2 o o' : swap_adjacent n1 n2 o = Ret o' → cells o' = cells o.
Proof. unfold swap_adjacent. intros H. inv_binds. cells_all. congruence. Qed.
Lemma swap_apart_cells n1 n2 o o' : swap_apart n1 n2 o = Ret o' → cells o' = cells o.
Proof. unfold swap_apart. intros H. inv_binds. cells_all. congruence. Qed.
Lemma swap_nodes_cells n1 n2 o o' : _BAVL_swap_nodes n1 n2 o = Ret o' → cells o' = cells o.
Proof.
  unfold _BAVL_swap_nodes. intros H. inv_binds. cells_all.
  match goal with H : (if _ then _ else _) = Ret ?o1 |- _ => assert (cells o1 = cells o) end; [|congruence].
  repeat case_match; first [by eapply swap_adjacent_cells|by eapply swap_apart_cells].
Qed.

Lemma rebalance_rotate_cells node delta o o' n d : rebalance_rotate node delta o = Ret (o', n, d) → cells o' = cells o.
Proof.
  unfold rebalance_rotate. intros H. inv_binds.
  repeat (match goal with H : (if ?b then _ else _) = Ret _ |- _ => destruct b end; try discriminate; inv_binds);
    repeat match goal with H : _BAVL_rotate _ _ _ = Ret _ |- _ => apply rotate_cells in H end; cells_all; congruence.
Qed.

Lemma rebalance_cells fuel node side deltac o o' : _BAVL_rebalance fuel node side deltac o = Ret o' → cells o' = cells o.
Proof.
  revert node side deltac o. induction fuel as [|fuel IH]; intros node side deltac o; cbn [_BAVL_rebalance]; [done|]. intros H. inv_binds.
  case_match; [inv_binds; by subst|]. inv_binds. match goal with x : (BAVL V * loc * Z)%type |- _ => destruct x as [[o2 n2] d2] end. inv_binds.
  match goal with H : rebalance_rotate _ _ _ = Ret _ |- _ => apply rebalance_rotate_cells in H end. cells_all.
  case_match; inv_binds; [match goal with H : _BAVL_rebalance _ _ _ _ _ = Ret _ |- _ => apply IH in H end|]; congruence.
Qed.

Lemma insert_cells cmp node o o' ok ref : BAVL_Insert cmp node o = Ret (o', ok, ref) → cells o' = cells o.
Proof.
  unfold BAVL_Insert. destruct (root o).
  - intros H. inv_binds. match goal with x : (loc * Z)%type |- _ => destruct x end. case_match; inv_binds; [congruence|].
    match goal with H : _BAVL_rebalance _ _ _ _ _ = Ret _ |- _ => apply rebalance_cells in H end. cells_all. congruence.
  - unfold get. destruct (heap o !! node) as [n|] eqn:E; [|done]. rewrite bind_Ret. intros [= <- _ _]. unfold cells. cbn. apply dom_insert_lookup_L. by rewrite E.
Qed.

Lemma remove_cells node o o' : BAVL_Remove node o = Ret o' → cells o' = cells o.
Proof.
  unfold BAVL_Remove, remove_node. intros H. inv_binds.
  match goal with H : match link0 _ with _ => _ end = Ret ?o1 |- _ => assert (cells o1 = cells o) as E1 end.
  { repeat case_match; inv_binds; subst; try done; by eapply swap_nodes_cells. }
  case_match; inv_binds; repeat match goal with
    | H : _BAVL_rebalance _ _ _ _ _ = Ret _ |- _ => apply rebalance_cells in H
    | H : _BAVL_replace_subtree _ _ _ = Ret _ |- _ => apply replace_subtree_cells in H end; congruence.
Qed.
End cells.
