(* ===== verification/SAvl.v ===== *)
(** * Ordered trees of entries: the interface of SAvl

    Models the operations of structure/SAvl.h that are used with the entries
    compared by a function of their own (feature NOKEYS): what the tree promises
    is stated on the list of its entries in order.  The comparison function is
    an argument of each call, as it reads fields of the entries that may change
    while they are in the tree; the promise of an insertion requires that the
    entries of the tree are sorted by the function of that call. *)
From S2P Require Import Prelude AvlTree Bavl BavlRep BavlOps BavlSpec.
From stdpp Require Import gmap sorting.
#[local] Open Scope Z_scope.

Class SAvl (T : Type) := {
  SAvl_Init : T;
  SAvl_IsEmpty : T → bool;
  SAvl_GetFirst : T → outcome (option loc);
  SAvl_Insert : (loc → loc → Z) → loc → T → outcome (T * bool);
  SAvl_Remove : loc → T → outcome T }.

Definition sorted_by (cmp : loc → loc → Z) (l : list loc) : Prop := StronglySorted (λ a b, cmp a b = -1) l.

(** [tree_entries t l]: [t] is a tree of the entries [l]. *)
Class SAvlSpec (T : Type) `{SAvl T} := {
  tree_entries : T → list loc → Prop;
  tree_init : tree_entries SAvl_Init [];
  tree_nodup t l : tree_entries t l → NoDup l;
  tree_is_empty t l : tree_entries t l → SAvl_IsEmpty t = match l with [] => true | _ => false end;
  tree_get_first t l : tree_entries t l → SAvl_GetFirst t = Ret (head l);
  tree_insert cmp t l x : BAVLOrder cmp → tree_entries t l → sorted_by cmp l → x ∉ l →
    ∃ t' l1 l2, SAvl_Insert cmp x t = Ret (t', true) ∧ l = l1 ++ l2 ∧ tree_entries t' (l1 ++ x :: l2) ∧ sorted_by cmp (l1 ++ x :: l2);
  tree_remove t l1 x l2 : tree_entries t (l1 ++ x :: l2) → ∃ t', SAvl_Remove x t = Ret t' ∧ tree_entries t' (l1 ++ l2) }.
