(* ===== verification/CAvl.v ===== *)
(** * The generic AVL tree of badvpn, and SAvl on top of it

    Models structure/CAvl_impl.h and structure/SAvl_impl.h for trees of entries
    that are compared by a function of their own (features NOKEYS and no COUNTS,
    ASSOC or KEYS_ARE_INDICES).  A link is the address of an entry; the node of
    an entry is a cell of the heap with the fields of [BAVLNode].  References
    that the code passes along to spare it a dereference are arguments here too,
    with the assertions that check them.

    On trees in order these routines do what those of BAVL.h do, and so keep the
    promises of [SAvlSpec]. *)
From S2P Require Import Prelude AvlTree Bavl BavlRep BavlOps BavlSpec BavlSet SAvl.
From stdpp Require Import gmap sorting.
#[local] Open Scope Z_scope.
#[local] Set Warnings "-clear-no-such-hyp".

Section cavl.
Context {V : Type}.
Implicit Types (o : BAVL V).

Definition same_ref (p q : option loc) : bool := bool_decide (p = q).

Definition CAvl_check_parent (p : option loc) (c : loc) o : outcome bool :=
  n ← get c o;
  if same_ref p (parent n) then
    match p with
    | None => Ret true
    | Some q => np ← get q o; Ret (is_link c (link0 np) || is_link c (link1 np))
    end
  else Ret false.

Definition CAvl_rotate (r : loc) (dir : bool) (r_parent : option loc) o : outcome (BAVL V) :=
  ok ← CAvl_check_parent r_parent r o; _ ← assert ok;
  n ← get r o; nr ← deref (link n (negb dir)); nn ← get nr o;
  o ← upd r (set_link (negb dir) (link nn dir)) o;
  o ← adopt (link nn dir) r o;
  o ← upd nr (set_link dir (Some r)) o;
  o ← upd nr (set_parent r_parent) o;
  o ← replace_in_parent r_parent r (Some nr) o;
  upd r (set_parent (Some nr)) o.

(** The loops over the left and over the right links. *)
Definition CAvl_subtree_min (n : loc) o : outcome loc := last_link (fuel_of o) false n o.
Definition CAvl_subtree_max (n : loc) o : outcome loc := last_link (fuel_of o) true n o.

Definition CAvl_replace_subtree_fix_assoc (dest : loc) (n : option loc) (dest_parent : option loc) o : outcome (BAVL V) :=
  ok ← CAvl_check_parent dest_parent dest o; _ ← assert ok;
  o ← replace_in_parent dest_parent dest n o;
  match n with
  | Some n => d ← get dest o; upd n (set_parent (parent d)) o
  | None => Ret o
  end.

(** [enode] is a child of [node]. *)
Definition CAvl_swap_connected (node enode : loc) (node_parent : option loc) o : outcome (BAVL V) :=
  a ← get node o; b ← get enode o;
  let side := is_link enode (link1 a) in
  let c := link a (negb side) in
  o ← upd node (set_link false (link0 b)) o; o ← adopt (link0 b) node o;
  o ← upd node (set_link true (link1 b)) o; o ← adopt (link1 b) node o;
  a ← get node o;
  o ← upd enode (set_parent (parent a)) o;
  o ← replace_in_parent node_parent node (Some enode) o;
  o ← upd enode (set_link side (Some node)) o;
  o ← upd node (set_parent (Some enode)) o;
  o ← upd enode (set_link (negb side) c) o;
  adopt c enode o.

Definition CAvl_swap_apart (node enode : loc) (node_parent enode_parent : option loc) o : outcome (BAVL V) :=
  b ← get enode o;
  (* parents *)
  o ← upd node (set_parent (parent b)) o;
  o ← replace_in_parent enode_parent enode (Some node) o;
  o ← upd enode (set_parent node_parent) o;
  o ← replace_in_parent node_parent node (Some enode) o;
  (* left children *)
  a ← get node o; b ← get enode o;
  o ← upd node (set_link false (link0 b)) o; o ← adopt (link0 b) node o;
  o ← upd enode (set_link false (link0 a)) o; o ← adopt (link0 a) enode o;
  (* right children *)
  a ← get node o; b ← get enode o;
  o ← upd node (set_link true (link1 b)) o; o ← adopt (link1 b) node o;
  o ← upd enode (set_link true (link1 a)) o; adopt (link1 a) enode o.

Definition CAvl_swap_for_remove (node enode : loc) (node_parent enode_parent : option loc) o : outcome (BAVL V) :=
  ok ← CAvl_check_parent node_parent node o; _ ← assert ok;
  ok ← CAvl_check_parent enode_parent enode o; _ ← assert ok;
  o ← (if same_ref enode_parent (Some node) then CAvl_swap_connected node enode node_parent o
       else CAvl_swap_apart node enode node_parent enode_parent o);
  a ← get node o; b ← get enode o;
  o ← upd node (set_balance (balance b)) o;
  upd enode (set_balance (balance a)) o.

(** The transformations of [CAvl_rebalance] when the balance factor is wrong. *)
Definition CAvl_rebalance_rotate (node : loc) (delta : Z) o : outcome (BAVL V * loc * Z) :=
  n ← get node o;
  if (balance n =? 2) || (balance n =? -2) then
    let bside := balance n =? 2 in let bsidef := if bside then 1 else -1 in
    child ← deref (link n bside); ch ← get child o;
    if balance ch * bsidef =? 1 then
      o ← CAvl_rotate node (negb bside) (parent n) o;
      o ← upd node (set_balance 0) o; o ← upd child (set_balance 0) o;
      Ret (o, child, delta - 1)
    else if balance ch * bsidef =? 0 then
      o ← CAvl_rotate node (negb bside) (parent n) o;
      o ← upd node (set_balance bsidef) o; o ← upd child (set_balance (- bsidef)) o;
      Ret (o, child, delta)
    else if balance ch * bsidef =? -1 then
      gchild ← deref (link ch (negb bside));
      o ← CAvl_rotate child bside (Some node) o;
      n ← get node o;
      o ← CAvl_rotate node (negb bside) (parent n) o;
      g ← get gchild o;
      o ← upd node (set_balance (- Z.max 0 (balance g * bsidef) * bsidef)) o;
      o ← upd child (set_balance (Z.max 0 (- balance g * bsidef) * bsidef)) o;
      o ← upd gchild (set_balance 0) o;
      Ret (o, gchild, delta - 1)
    else Fault
  else Ret (o, node, delta).

Fixpoint CAvl_rebalance (fuel : nat) (node : loc) (side : bool) (deltac : Z) o : outcome (BAVL V) :=
  match fuel with
  | O => Fault
  | S fuel =>
      n ← get node o; _ ← assert (in_range deltac && in_range (balance n));
      if deltac =? 0 then Ret o
      else
        let delta := Z.max deltac (OPTNEG (balance n) side) - Z.max 0 (OPTNEG (balance n) side) in
        _ ← assert (in_range delta);
        o ← upd node (set_balance (balance n - OPTNEG deltac side)) o;
        '(o, node, delta) ← CAvl_rebalance_rotate node delta o;
        _ ← assert (in_range delta);
        n ← get node o;
        match parent n with
        | Some node_parent => np ← get node_parent o; CAvl_rebalance fuel node_parent (is_link node (link1 np)) delta o
        | None => Ret o
        end
  end.

Section order.
Context (cmp : loc → loc → Z).

Definition CAvl_compare_entries (node1 node2 : loc) : outcome Z :=
  let res := cmp node1 node2 in
  _ ← assert (-1 <=? res); _ ← assert (res <=? 1); Ret res.

(** The loop of [CAvl_Insert]: the last node visited and its comparison. *)
Fixpoint CAvl_search (fuel : nat) (node c : loc) o : outcome (loc * Z) :=
  match fuel with
  | O => Fault
  | S fuel =>
      comp ← CAvl_compare_entries node c;
      if comp =? 0 then Ret (c, comp)
      else n ← get c o; match link n (comp =? 1) with Some c' => CAvl_search fuel node c' o | None => Ret (c, comp) end
  end.

(** The result and [*out_ref]. *)
Definition CAvl_Insert (node : loc) o : outcome (BAVL V * bool * option loc) :=
  match root o with
  | None =>
      o ← upd node (λ n, Node None None None 0 (value n)) (set_root (Some node) o);
      Ret (o, true, None)
  | Some r =>
      '(c, comp) ← CAvl_search (fuel_of o) node r o;
      if comp =? 0 then Ret (o, false, Some c)
      else
        let side := comp =? 1 in
        o ← upd c (set_link side (Some node)) o;
        o ← upd node (λ n, Node (Some c) None None 0 (value n)) o;
        o ← CAvl_rebalance (fuel_of o) c side 1 o;
        Ret (o, true, Some c)
  end.
End order.

(** The second half of [CAvl_Remove]. *)
Definition CAvl_remove_node (node : loc) o : outcome (BAVL V) :=
  n ← get node o;
  _ ← assert (match link0 n, link1 n with Some _, Some _ => false | _, _ => true end);
  let paren := parent n in
  let child := match link0 n with Some c => Some c | None => link1 n end in
  match paren with
  | Some p =>
      np ← get p o;
      let side := is_link node (link1 np) in
      o ← CAvl_replace_subtree_fix_assoc node child paren o;
      CAvl_rebalance (fuel_of o) p side (-1) o
  | None => CAvl_replace_subtree_fix_assoc node child paren o
  end.

Definition CAvl_Remove (node : loc) o : outcome (BAVL V) :=
  _ ← assert (match root o with None => false | Some _ => true end);
  n ← get node o;
  o ← (match link0 n, link1 n with
       | Some l, Some _ =>
           max ← CAvl_subtree_max l o; nm ← get max o;
           CAvl_swap_for_remove node max (parent n) (parent nm) o
       | _, _ => Ret o
       end);
  CAvl_remove_node node o.

Definition CAvl_GetFirst o : outcome (option loc) :=
  match root o with None => Ret None | Some r => x ← CAvl_subtree_min r o; Ret (Some x) end.
Definition CAvl_GetLast o : outcome (option loc) :=
  match root o with None => Ret None | Some r => x ← CAvl_subtree_max r o; Ret (Some x) end.
Definition CAvl_IsEmpty o : bool := match root o with None => true | Some _ => false end.
Definition CAvl_Init (h : gmap loc (BAVLNode V)) : BAVL V := Tree None h.
End cavl.

(** ** The same as BAVL *)
Section same.
Context {V : Type}.
Implicit Types (o : BAVL V) (s t : tree V) (c : list (frame V)).

Lemma bind_ext {A B} (x : outcome A) (f g : A → outcome B) : (∀ a, x = Ret a → f a = g a) → (x ≫= f) = (x ≫= g).
Proof. destruct x; [|done..]. intros E. by apply E. Qed.

(** The parent of a node. *)
Definition par (x : loc) o : option (option loc) := parent <$> heap o !! x.

Lemma par_get x o p : par x o = Some p → ∃ n, get x o = Ret n ∧ parent n = p.
Proof. unfold par, get. destruct (heap o !! x) as [n|]; [|done]. intros [= E]. by exists n. Qed.
Lemma par_link x y side p o o' : upd y (set_link side p) o = Ret o' → par x o' = par x o.
Proof.
  unfold upd, get, par. destruct (heap o !! y) as [n|] eqn:Ey; [|done]. intros [= <-]. cbn. destruct (decide (x = y)) as [->|Hx].
  - rewrite lookup_insert_eq, Ey. cbn. by destruct side.
  - by rewrite lookup_insert_ne.
Qed.
Lemma par_adopt x k p o o' : adopt k p o = Ret o' → k ≠ Some x → par x o' = par x o.
Proof.
  unfold adopt, upd, get, par. destruct k as [y|]; [|by intros [= <-]]. destruct (heap o !! y) as [n|]; [|done]. intros [= <-] Hne. cbn.
  rewrite lookup_insert_ne; [done|]. congruence.
Qed.

Lemma check_parent_ok o c s x : rep o c s → rootof s = Some x → CAvl_check_parent (up c) x o = Ret true.
Proof.
  intros H Hx. destruct s as [|l y v b r]; [done|]. injection Hx as ->. unfold CAvl_check_parent, same_ref. rewrite (rep_get o c false l x v b r H), bind_Ret, parent_nd.
  rewrite bool_decide_true by done. destruct c as [|f c]; [done|]. cbn [up]. rewrite (rep_get_frame o f c _ H), bind_Ret. f_equal. cbn [rootof].
  destruct (fside f); cbn; rewrite is_link_eq; [apply orb_true_r|done].
Qed.

Lemma rotate_eq o c dir A r v b M nr v' b' C :
  rep o c (tn dir A r v b (tn dir M nr v' b' C)) → CAvl_rotate r dir (up c) o = _BAVL_rotate r dir o.
Proof.
  intros H. assert (HM : rootof M ≠ Some r).
  { destruct H as [_ _ _ Hnd]. assert (Hd : NoDup (r :: nr :: locs A ++ locs M ++ locs C ++ clocs c)).
    { eapply nodup_perm; [|exact Hnd]. rewrite !locs_tn. solve_Permutation. }
    clear Hnd. nodup_split. destruct M as [|l y w k r0]; [done|]. rewrite locs_br in *. intros [= ->]. nodup_split. done. }
  unfold CAvl_rotate, _BAVL_rotate. rewrite (check_parent_ok o c _ r H) by apply rootof_tn. rewrite bind_Ret. cbn [assert]. rewrite bind_Ret.
  rewrite (rep_get o c dir A r v b _ H), !bind_Ret, link_nd_other, rootof_tn. cbn [deref]. rewrite !bind_Ret.
  pose proof H as Hc. assert (Hc' : rep o (Frame (negb dir) r v b A :: c) (tn dir M nr v' b' C)).
  { apply rep_zip. unfold plug1. cbn [fside floc fval fbal fsib]. by rewrite tn_flip. }
  rewrite (rep_get o _ dir M nr v' b' C Hc'), !bind_Ret, link_nd_same. apply bind_ext. intros o1 E1. apply bind_ext. intros o2 E2. apply bind_ext. intros o3 E3.
  assert (Hp : par r o3 = Some (up c)).
  { rewrite (par_link r _ _ _ _ _ E3), (par_adopt r _ _ _ _ E2), (par_link r _ _ _ _ _ E1) by done. unfold par.
    pose proof (rep_get o c dir A r v b _ H) as Hg. unfold get in Hg. destruct (heap o !! r); [|done]. injection Hg as ->. cbn. by rewrite parent_nd. }
  destruct (par_get _ _ _ Hp) as (n & Eg & Ep). by rewrite Eg, bind_Ret, Ep.
Qed.

(** The children of a node that is two levels too high on one side. *)
Lemma heavy_children d (A : tree V) x v k B :
  bal_to d k = height A - height B → -2 ≤ k ≤ 2 → k = 2 ∨ k = -2 → balanced A → balanced B →
  ∃ e (N : tree V) y w yb M O, tn d A x v k B = tn e (tn e N y w yb M) x v k O ∧ k = 2 * sgn e ∧
    (bal_to e yb = -1 → ∃ G1 g gw gb G2, M = tn e G1 g gw gb G2) ∧ (bal_to e yb = 1 ∨ bal_to e yb = 0 ∨ bal_to e yb = -1).
Proof.
  intros Hk Hr Hs HA HB.
  assert (Hheavy : ∃ e (H2 O : tree V), tn d A x v k B = tn e H2 x v k O ∧ k = 2 * sgn e ∧ height H2 = height O + 2 ∧ balanced H2 ∧ balanced O).
  { assert (bal_to d k = 2 ∨ bal_to d k = -2) as [E|E] by (destruct d; cbn; lia).
    - exists d, A, B. split_and!; try done; [destruct d; cbn in *; lia|lia].
    - exists (negb d), B, A. rewrite tn_flip. split_and!; try done; [destruct d; cbn in *; lia|lia]. }
  destruct Hheavy as (e & H2 & O & -> & Hke & Hh & Hb2 & HbO).
  pose proof (height_nonneg O) as HO. destruct (tall_tn e H2) as (N & y & w & yb & M & ->); [lia|].
  rewrite height_tn in Hh. apply balanced_tn in Hb2 as (Hyb & Hyr & HbN & HbM).
  exists e, N, y, w, yb, M, O. split; [done|]. split; [done|]. split; [|destruct e; cbn in *; lia].
  intros Hm. destruct (tall_tn e M) as (G1 & g & gw & gb & G2 & ->); [lia|]. by exists G1, g, gw, gb, G2.
Qed.

Lemma rebalance_rotate_eq o c d A x v k B delta :
  rep o c (tn d A x v k B) → bal_to d k = height A - height B → -2 ≤ k ≤ 2 → balanced A → balanced B →
  CAvl_rebalance_rotate x delta o = rebalance_rotate x delta o.
Proof.
  intros H Hk Hr HA HB. unfold CAvl_rebalance_rotate, rebalance_rotate. rewrite (rep_get _ _ _ _ _ _ _ _ H), !bind_Ret, balance_nd, parent_nd.
  destruct ((k =? 2) || (k =? -2)) eqn:Ek; [|done]. assert (Hs : k = 2 ∨ k = -2) by (apply orb_true_iff in Ek as [E|E]; apply Z.eqb_eq in E; lia).
  destruct (heavy_children d A x v k B Hk Hr Hs HA HB) as (e & N & y & w & yb & M & O & Et & Hke & Hg & Hyb).
  pose proof (rep_get _ _ _ _ _ _ _ _ H) as Hget. rewrite Et in H. pose proof (rep_get _ _ _ _ _ _ _ _ H) as Hget'. rewrite Hget in Hget'. injection Hget' as ->.
  replace (k =? 2) with e by (rewrite Hke; by destruct e). fold (sgn e). rewrite link_nd_same, rootof_tn. cbn [deref]. rewrite !bind_Ret.
  pose proof (rep_zip o (Frame e x v k O) c (tn e N y w yb M)) as Hz. apply Hz in H. rewrite (rep_get _ _ _ _ _ _ _ _ H), !bind_Ret, balance_nd, bal_to_sgn.
  destruct Hyb as [E|[E|E]]; rewrite E; cbn [Z.eqb Pos.eqb].
  1,2: apply Hz in H; unfold plug1 in H; cbn [fside floc fval fbal fsib] in H; rewrite <- (tn_flip e O), <- (tn_flip e M) in H; by rewrite (rotate_eq _ _ _ _ _ _ _ _ _ _ _ _ H).
  destruct (Hg E) as (G1 & g & gw & gb & G2 & ->). rewrite link_nd_other, rootof_tn. cbn [deref]. rewrite !bind_Ret.
  change (Some x) with (up (Frame e x v k O :: c)). rewrite (rotate_eq _ _ _ _ _ _ _ _ _ _ _ _ H).
  destruct (rotate_rep _ _ _ _ _ _ _ _ _ _ _ _ H) as (o1 & -> & H1). rewrite !bind_Ret.
  apply rep_zip in H1. unfold plug1 in H1. cbn [fside floc fval fbal fsib] in H1. rewrite <- (tn_flip e O), <- (tn_flip e G2) in H1.
  rewrite (rep_get _ _ _ _ _ _ _ _ H1), !bind_Ret, parent_nd. by rewrite (rotate_eq _ _ _ _ _ _ _ _ _ _ _ _ H1).
Qed.

(** One level: what is left to do is the same call at the parent. *)
Lemma rebalance_level_eq o c n side A x v b B d :
  rep o c (tn side A x v b B) → balanced A → balanced B → -1 ≤ b ≤ 1 → -1 ≤ d ≤ 1 → d ≠ 0 →
  bal_to side b = (height A - d) - height B →
  (∀ o' s' y dl p, up c = Some p → rep o' c s' → rootof s' = Some y → balanced s' → -1 ≤ dl ≤ 1 →
     height s' - dl = 1 + Z.max (height A - d) (height B) →
     (np ← get p o'; CAvl_rebalance n p (is_link y (link1 np)) dl o') = (np ← get p o'; _BAVL_rebalance n p (is_link y (link1 np)) dl o')) →
  CAvl_rebalance (S n) x side d o = _BAVL_rebalance (S n) x side d o.
Proof.
  intros H HA HB Hb Hd Hd0 Hbal Hrec. cbn [_BAVL_rebalance CAvl_rebalance]. rewrite (rep_get _ _ _ _ _ _ _ _ H), !bind_Ret, balance_nd.
  apply bind_ext. intros _ _. rewrite (proj2 (Z.eqb_neq d 0)) by done. apply bind_ext. intros _ _.
  set (delta := Z.max d (OPTNEG b side) - Z.max 0 (OPTNEG b side)). set (k := b - OPTNEG d side).
  assert (Hdelta : delta = Z.max (height A) (height B) - Z.max (height A - d) (height B)) by (subst delta; destruct side; cbn in *; lia).
  assert (Hk : bal_to side k = height A - height B ∧ -2 ≤ k ≤ 2) by (subst k; destruct side; cbn in *; lia). destruct Hk as [Hk1 Hk2].
  destruct (set_balance_rep _ _ _ _ _ _ _ _ k H) as (o1 & -> & H1). rewrite !bind_Ret.
  rewrite (rebalance_rotate_eq o1 c side A x v k B delta H1 Hk1 Hk2 HA HB).
  destruct (rebalance_rotate_ok o1 c side A x v k B delta H1 Hk1 Hk2 HA HB) as (o2 & s2 & y & -> & H2 & Hy & Hb2 & _ & Hh2 & Hh0).
  rewrite !bind_Ret, height_tn in *. apply bind_ext. intros _ _.
  assert (Hnr : delta = -1 → height s2 = 1 + Z.max (height A) (height B)).
  { intros E. apply Hh0. apply balanced_tn. split_and!; try done; destruct side; cbn in *; lia. }
  destruct s2 as [|l2 y2 w2 k2 r2]; [discriminate|]. injection Hy as ->. rewrite (rep_get o2 c false l2 y w2 k2 r2 H2), !bind_Ret, parent_nd.
  destruct (up c) as [p|] eqn:Eu; [|reflexivity]. apply (Hrec o2 (Br l2 y w2 k2 r2)); try done; lia.
Qed.

Lemma rebalance_zero_eq n x side o : CAvl_rebalance (S n) x side 0 o = _BAVL_rebalance (S n) x side 0 o.
Proof. cbn [_BAVL_rebalance CAvl_rebalance]. apply bind_ext. intros k _. apply bind_ext. intros _ _. rewrite Z.eqb_refl. reflexivity. Qed.

Lemma rebalance_eq c : ∀ o n side A x v b B d,
  rep o c (tn side A x v b B) → balanced A → balanced B → -1 ≤ b ≤ 1 → -1 ≤ d ≤ 1 →
  bal_to side b = (height A - d) - height B → bal_ctx c (1 + Z.max (height A - d) (height B)) →
  CAvl_rebalance n x side d o = _BAVL_rebalance n x side d o.
Proof.
  induction c as [|[fs fx fv fb fo] c IH]; intros o n side A x v b B d H HA HB Hb Hd Hbal Hc; (destruct n as [|n]; [reflexivity|]);
    (destruct (Z.eq_dec d 0) as [-> |Hd0]; [apply rebalance_zero_eq|]);
    (eapply rebalance_level_eq; [eassumption..|]).
  { discriminate. }
  intros o1 s1 y dl p [= <-] H1 Hy Hb1 Hdl Hh. cbn in Hc. destruct Hc as (Hfb & Hfr & Hfo & Hc). pose proof (rep_get_frame o1 _ _ _ H1) as Hg.
  cbn [floc fside fsib fbal fval] in Hg. rewrite Hg, !bind_Ret, Hy, is_link_nd.
  2:{ intros E. destruct fo as [|l0 z0 w0 k0 r0]; [done|]. injection E as ->. destruct s1 as [|l1 y1 w1 k1 r1]; [done|].
      injection Hy as ->. apply (rep_fresh _ _ false) in H1. cbn [clocs floc fsib] in H1. rewrite locs_br in H1. clear - H1. set_solver. }
  apply rep_zip in H1. unfold plug1 in H1. cbn [fside floc fval fbal fsib] in H1.
  apply (IH o1 n fs s1 fx fv fb fo dl H1); try done; by rewrite Hh.
Qed.

(** ** Removal *)
Lemma replace_eq o c side ch x v b :
  rep o c (tn side ch x v b Leaf) → CAvl_replace_subtree_fix_assoc x (rootof ch) (up c) o = _BAVL_replace_subtree x (rootof ch) o.
Proof.
  intros H. unfold CAvl_replace_subtree_fix_assoc, _BAVL_replace_subtree. rewrite (check_parent_ok o c _ x H) by apply rootof_tn.
  rewrite bind_Ret. cbn [assert]. rewrite bind_Ret, (rep_get _ _ _ _ _ _ _ _ H), bind_Ret, parent_nd. apply bind_ext. intros o1 E1.
  assert (Hp : par x o1 = Some (up c)).
  { assert (Hpo : par x o = Some (up c)).
    { pose proof (rep_get o c side ch x v b _ H) as Hg. unfold get in Hg. unfold par. destruct (heap o !! x); [|done]. injection Hg as ->. cbn. by rewrite parent_nd. }
    unfold replace_in_parent in E1. destruct (up c) as [p|]; [|by injection E1 as <-]. inv_binds. by rewrite (par_link x _ _ _ _ _ E1). }
  destruct (rootof ch); [|done]. destruct (par_get _ _ _ Hp) as (n & Eg & Ep). by rewrite Eg, bind_Ret, Ep.
Qed.

Lemma remove_node_eq o c sd ch x v b :
  rep o c (tn sd ch x v b Leaf) → balanced (plug c (tn sd ch x v b Leaf)) → CAvl_remove_node x o = remove_node x o.
Proof.
  intros H Hb. apply balanced_plug in Hb as [Hb Hbc]. apply balanced_tn in Hb as (Hb1 & Hb2 & Hbch & _). rewrite height_tn in Hbc.
  cbn [height] in Hb1, Hbc. pose proof (height_nonneg ch) as Hh. rewrite Z.max_l in Hbc by done.
  unfold CAvl_remove_node, remove_node. rewrite (rep_get _ _ _ _ _ _ _ _ H), !bind_Ret, parent_nd. cbn [rootof].
  set (nn := nd (up c) sd (rootof ch) None b v). apply bind_ext. intros _ _.
  replace (match link0 nn with Some c0 => Some c0 | None => link1 nn end) with (rootof ch) by (subst nn; by destruct sd, (rootof ch)).
  clear nn. pose proof (replace_eq o c sd ch x v b H) as Hre. destruct (replace_subtree_rep o c sd ch x v b H) as (o1 & E1 & H1).
  destruct c as [|[fs fx fv fb fo] c]; cbn [up floc] in *; [done|].
  pose proof (rep_get_frame o _ _ _ H) as Hg. cbn [floc fside fsib fbal fval] in Hg. rewrite Hg, !bind_Ret, rootof_tn, is_link_nd.
  2:{ intros E. destruct fo as [|l0 z0 w0 k0 r0]; [done|]. injection E as ->. apply (rep_fresh _ _ sd) in H. cbn [clocs fsib] in H.
      rewrite locs_br in H. clear - H. set_solver. }
  rewrite Hre, E1, !bind_Ret. apply rep_zip in H1. unfold plug1 in H1. cbn [fside floc fval fbal fsib] in H1.
  cbn in Hbc. destruct Hbc as (Hf1 & Hf2 & Hf3 & Hf4).
  apply (rebalance_eq c o1 (fuel_of o1) fs ch fx fv fb fo (-1) H1); try done; try lia.
  replace (Z.max (height ch - -1) (height fo)) with (Z.max (1 + height ch) (height fo)) by lia. done.
Qed.

Lemma rep_par o c side A x v b B : rep o c (tn side A x v b B) → par x o = Some (up c).
Proof.
  intros H. pose proof (rep_get o c side A x v b B H) as Hg. unfold get in Hg. unfold par. destruct (heap o !! x); [|done].
  injection Hg as ->. cbn. by rewrite parent_nd.
Qed.

Lemma swap_eq o c2 c x v b r a m mv mb :
  rep o (c2 ++ Frame false x v b r :: c) (Br a m mv mb Leaf) →
  CAvl_swap_for_remove x m (up c) (up (c2 ++ Frame false x v b r :: c)) o = _BAVL_swap_nodes x m o.
Proof.
  intros H. set (cc := c2 ++ Frame false x v b r :: c) in *.
  assert (Hx : rep o c (Br (plug c2 (Br a m mv mb Leaf)) x v b r)) by (by apply rep_app, rep_zip in H).
  assert (Hm : (m ∉ clocs c) ∧ rootof a ≠ Some x).
  { pose proof (rep_fresh _ _ false a m mv mb Leaf H) as Hm. unfold cc in Hm. rewrite clocs_app in Hm. cbn [clocs floc] in Hm. split; [clear - Hm; set_solver|].
    intros Ea. destruct a as [|a1 z w k a2]; [done|]. injection Ea as ->. apply (rep_zip o (Frame false m mv mb Leaf) cc (Br a1 x w k a2)) in H.
    apply (rep_fresh _ _ false a1 x w k a2) in H. unfold cc in H. cbn [clocs floc] in H. rewrite clocs_app in H. cbn [clocs floc] in H. clear - H. set_solver. }
  destruct Hm as [Hm Ha]. unfold CAvl_swap_for_remove, _BAVL_swap_nodes. rewrite (check_parent_ok o c _ x Hx) by done. rewrite bind_Ret. cbn [assert]. rewrite bind_Ret.
  rewrite (check_parent_ok o cc _ m H) by done. rewrite bind_Ret. cbn [assert]. rewrite bind_Ret.
  pose proof (rep_get o c false _ x v b r Hx) as Egx. pose proof (rep_get o cc false a m mv mb Leaf H) as Egm.
  rewrite Egx, bind_Ret, Egm, bind_Ret, !parent_nd, (is_link_up m c), orb_false_r by done.
  change (same_ref (up cc) (Some x)) with (is_link x (up cc)). destruct (is_link x (up cc)).
  - f_equal. unfold CAvl_swap_connected, swap_adjacent. rewrite Egx, !bind_Ret, Egm, !bind_Ret.
    apply bind_ext. intros o1 E1. apply bind_ext. intros o2 E2. apply bind_ext. intros o3 E3. apply bind_ext. intros o4 E4.
    assert (Hp : par x o4 = Some (up c)).
    { rewrite (par_adopt x _ _ _ _ E4), (par_link x _ _ _ _ _ E3), (par_adopt x _ _ _ _ E2), (par_link x _ _ _ _ _ E1) by (first [done|exact Ha]). by eapply (rep_par o c false). }
    destruct (par_get _ _ _ Hp) as (n & Eg & Ep). by rewrite Eg, !bind_Ret, Ep.
  - f_equal. unfold CAvl_swap_apart, swap_apart. by rewrite Egx, !bind_Ret, Egm, !bind_Ret, !parent_nd.
Qed.

Lemma ctx_top_some c (x : loc) : ∃ y, ctx_top (V:=V) c (Some x) = Some y.
Proof. revert x. induction c as [|f c IH]; intros x; cbn; [by exists x|apply IH]. Qed.

Lemma remove_eq o c l x v b r :
  rep o c (Br l x v b r) → balanced (plug c (Br l x v b r)) → CAvl_Remove x o = BAVL_Remove x o.
Proof.
  intros H Hb. unfold CAvl_Remove, BAVL_Remove. destruct (ctx_top_some c x) as [y0 Hy0].
  pose proof (rep_root _ _ _ H) as Hroot. cbn [rootof] in Hroot. rewrite Hroot, Hy0. cbn [assert]. rewrite bind_Ret.
  rewrite (rep_get o c false l x v b r H), !bind_Ret, parent_nd. unfold nd. cbn [link0 link1].
  destruct (rootof l) as [y|] eqn:El; [destruct (rootof r) as [z|] eqn:Er|]; rewrite ?bind_Ret.
  - destruct (swap_for_remove_rep o c l x v b r y H Hb El) as (c2 & a & mx & mv & mb & o1 & Ep & Hc2 & H0 & E & E1 & H1 & Hb1).
    change (CAvl_subtree_max y o) with (_BAVL_subtree_max y o). rewrite E, !bind_Ret, (rep_get o _ false a mx mv mb Leaf H0), bind_Ret, parent_nd.
    rewrite (swap_eq o c2 c x v b r a mx mv mb H0), E1, !bind_Ret. by eapply remove_node_eq.
  - destruct r; [|done]. by apply (remove_node_eq o c false l x v b).
  - destruct l; [|done]. by apply (remove_node_eq o c true r x v b).
Qed.
End same.

(** ** Trees of entries *)
Section entries.
Context (cmp : loc → loc → Z) `{!BAVLOrder cmp}.
Implicit Types (o : BAVL loc) (s t : tree loc) (c : list (frame loc)) (l : list loc).

(** The value of a node is the entry it belongs to. *)
Definition self (l : list loc) : list (loc * loc) := (λ x, (x, x)) <$> l.

Lemma self_app l1 l2 : self (l1 ++ l2) = self l1 ++ self l2.
Proof. apply fmap_app. Qed.
Lemma self_fst l : (self l).*1 = l.
Proof. induction l as [|x l IH]; [done|]. cbn. f_equal. exact IH. Qed.

Lemma compare_entries_eq x y : CAvl_compare_entries cmp x y = _BAVL_compare_values cmp x y.
Proof.
  unfold CAvl_compare_entries, _BAVL_compare_values. destruct (cmp_range cmp x y) as [E|[E|E]]; by rewrite E.
Qed.

Lemma search_eq node s : ∀ o c x n, rep o c s → rootof s = Some x → (∀ p, p ∈ inorder s → p.2 = p.1) →
  CAvl_search cmp n node x o = search cmp n node x o.
Proof.
  induction s as [|l IHl y w b r IHr]; intros o c x n H Hx Hs; [done|]. injection Hx as ->. destruct n as [|n]; [done|]. cbn [CAvl_search search].
  rewrite (rep_get o c false l x w b r H), !bind_Ret, value_nd, compare_entries_eq.
  assert (w = x) as -> by (apply (Hs (x, w)); cbn; set_solver). apply bind_ext. intros comp Ec. destruct (comp =? 0); [done|]. rewrite bind_Ret.
  unfold nd. cbn [link link0 link1]. destruct (comp =? 1).
  - destruct (rootof r) as [z|] eqn:Ez; [|done]. apply (IHr o (Frame true x x b l :: c)); [by apply rep_zip|done|]. intros p Hp. apply Hs. cbn. set_solver.
  - destruct (rootof l) as [z|] eqn:Ez; [|done]. apply (IHl o (Frame false x x b r :: c)); [by apply rep_zip|done|]. intros p Hp. apply Hs. cbn. set_solver.
Qed.

Lemma insert_eq o l node n0 :
  holds cmp o (self l) → heap o !! node = Some n0 → value n0 = node → node ∉ l → CAvl_Insert cmp node o = BAVL_Insert cmp node o.
Proof.
  intros Hh Hn Hv Hfresh. unfold CAvl_Insert, BAVL_Insert. destruct (root o) as [r|] eqn:Hr.
  2: { unfold upd, get. cbn. rewrite Hn. by cbn. }
  unfold get at 1. rewrite Hn, bind_Ret, Hv.
  assert (Es : CAvl_search cmp (fuel_of o) node r o = search cmp (fuel_of o) node r o).
  { destruct Hh as (s & H & _ & Hm & _). apply (search_eq node s o []); [done|pose proof (rep_root _ _ _ H); cbn in *; congruence|].
    rewrite Hm. intros p (x & -> & _)%list_elem_of_fmap. done. }
  rewrite Es. destruct (search_holds cmp o (self l) node r Hh Hr) as (s & c & A & y & w & b & B & -> & H & Hb & Hm & Hs & -> & Hc & H1 & H2). rewrite !bind_Ret.
  destruct (Z.eqb_spec (cmp node w) 0) as [E|E]; [done|]. set (side := cmp node w =? 1).
  assert (Ht : ∃ A', Br A y w b B = tn side Leaf y w b A').
  { subst side. destruct (cmp_range cmp node w) as [E'|[E'|E']]; [|done|]; rewrite E'; cbn [Z.eqb Pos.eqb]; [rewrite (H2 E')|rewrite (H1 E')]; by eexists. }
  destruct Ht as (A' & Ht). rewrite Ht in *. apply rep_plug in H. apply balanced_plug in Hb as [Hb Hbc].
  rewrite balanced_tn in Hb. rewrite height_tn in Hbc. destruct Hb as (Hb1 & Hb2 & _ & HbA). cbn [height] in Hb1, Hbc.
  destruct (attach_rep cmp o c side y w b A' node n0 H Hn) as (o0 & o1 & E0 & E1 & H3). { unfold locs. by rewrite Hm, self_fst. }
  rewrite E0, !bind_Ret, E1, !bind_Ret.
  rewrite (rebalance_eq c o1 (fuel_of o1) side (Br Leaf node (value n0) 0 Leaf) y w b A' 1 H3); [reflexivity|..]; cbn [height balanced]; try done; lia.
Qed.

Lemma remove_holds_eq o l node : holds cmp o (self l) → node ∈ l → CAvl_Remove node o = BAVL_Remove node o.
Proof.
  intros (s & H & Hb & Hm & Hs) Hx. destruct (path_to s node node) as (c & a & b & r & ->).
  { rewrite Hm. apply list_elem_of_fmap. by exists node. }
  apply rep_plug in H. by eapply remove_eq.
Qed.

(** C24: on every balanced search tree of entries, inserting an entry, removing one
    and finding the first or the last one with CAvl leave the same nodes, links,
    parents and balance factors, and return the same, as with BAVL; none of the
    assertions on the references that CAvl passes along fails. *)
Theorem cavl_same_as_bavl o l :
  holds cmp o (self l) →
  (∀ node n0, heap o !! node = Some n0 → value n0 = node → node ∉ l → CAvl_Insert cmp node o = BAVL_Insert cmp node o) ∧
  (∀ node, node ∈ l → CAvl_Remove node o = BAVL_Remove node o) ∧
  CAvl_GetFirst o = BAVL_GetFirst o ∧ CAvl_GetLast o = BAVL_GetLast o.
Proof.
  intros Hh. split_and!; [|intros x Hx|done|done].
  - intros node n0. by apply insert_eq.
  - by eapply remove_holds_eq.
Qed.
End entries.

(** ** SAvl *)
Definition addr_cmp (a b : loc) : Z := match Pos.compare a b with Lt => -1 | Eq => 0 | Gt => 1 end.
#[export] Instance addr_order : BAVLOrder addr_cmp.
Proof.
  unfold addr_cmp. split.
  - intros a b. destruct (a ?= b)%positive; auto.
  - intros a b. destruct (Pos.compare_spec a b); [done|lia|lia].
  - intros a b. rewrite (Pos.compare_antisym a b). by destruct (a ?= b)%positive.
  - intros a b d. destruct (Pos.compare_spec a b), (Pos.compare_spec b d), (Pos.compare_spec a d); lia.
Qed.

(** The tree of a queue of entries: the node of an entry is part of it, and holds
    nothing before the entry is inserted. *)
#[export] Instance CAvl_SAvl : SAvl (BAVL loc) := {|
  SAvl_Init := CAvl_Init ∅;
  SAvl_IsEmpty := CAvl_IsEmpty;
  SAvl_GetFirst := CAvl_GetFirst;
  SAvl_Insert cmp entry o := '(o, res, _) ← CAvl_Insert cmp entry (alloc_node entry entry o); Ret (o, res);
  SAvl_Remove entry o := CAvl_Remove entry o |}.

Lemma sorted_self cmp l : sorted_by cmp l ↔ sorted cmp (self l).
Proof.
  unfold sorted_by, sorted. split.
  - induction 1 as [|x l Hl IH Hx]; constructor; [done|]. apply Forall_forall. intros p (y & -> & Hy)%list_elem_of_fmap.
    by apply (proj1 (Forall_forall _ _) Hx).
  - induction l as [|x l IH]; intros Hs; constructor; inversion Hs as [|? ? Hl Hx]; subst; [by apply IH|]. apply Forall_forall. intros y Hy.
    apply (proj1 (Forall_forall _ _) Hx (y, y)). apply list_elem_of_fmap. by exists y.
Qed.

Definition holds_entries (o : BAVL loc) (l : list loc) : Prop := ∃ cmp, BAVLOrder cmp ∧ holds cmp o (self l).

(** The order may be another one, if the entries are sorted by it too. *)
Lemma holds_reorder cmp o l : holds_entries o l → sorted_by cmp l → holds cmp o (self l).
Proof. intros (cmp' & _ & (s & H & Hb & Hm & _)) Hs. exists s. split_and!; try done. by apply sorted_self. Qed.

Lemma self_split l m1 m2 : self l = m1 ++ m2 → ∃ l1 l2, l = l1 ++ l2 ∧ m1 = self l1 ∧ m2 = self l2.
Proof.
  revert m1. induction l as [|x l IH]; intros [|p m1] E; cbn in *.
  - exists [], []. by subst.
  - done.
  - exists [], (x :: l). by subst.
  - injection E as <- E. destruct (IH m1 E) as (l1 & l2 & -> & -> & ->). by exists (x :: l1), l2.
Qed.

#[export] Instance CAvl_SAvlSpec : SAvlSpec (BAVL loc).
Proof.
  refine {| tree_entries := holds_entries |}.
  - exists addr_cmp. split; [apply _|]. exists Leaf. split_and!; try done; [|constructor]. by split; try done; constructor.
  - intros t l (cmp & Ho & Hh). rewrite <- (self_fst l). by eapply holds_nodup.
  - intros t l (cmp & Ho & Hh). cbn. unfold CAvl_IsEmpty. destruct (holds_root cmp t _ Hh) as [[-> Hl]|(r & -> & Hl)]; by destruct l.
  - intros t l (cmp & Ho & Hh). change (SAvl_GetFirst t) with (BAVL_GetEnd false t). rewrite (get_end_ok cmp false t _ Hh). by destruct l.
  - intros cmp t l x Ho He Hs Hx. pose proof (holds_reorder cmp t l He Hs) as Hh.
    assert (Hh' : holds cmp (alloc_node x x t) (self l)).
    { apply holds_heap; [done|]. intros y Hy. rewrite self_fst in Hy. apply lookup_insert_ne. by intros ->. }
    assert (Hn : heap (alloc_node x x t) !! x = Some (Node (Some x) (Some x) (Some x) 77 x)) by apply lookup_insert_eq.
    cbn. rewrite (insert_eq cmp _ l x _ Hh' Hn) by done.
    destruct (insert_ok cmp _ (self l) x _ Hh' Hn) as (o' & ok & ref & -> & Hok); [by rewrite self_fst|]. rewrite bind_Ret.
    destruct ok; [|destruct Hok as (_ & y & _ & (z & [= -> ->] & Hz)%list_elem_of_fmap); done].
    destruct Hok as (m1 & m2 & El & _ & Hh2 & _). destruct (self_split l m1 m2 El) as (l1 & l2 & -> & -> & ->).
    assert (Hh3 : holds cmp o' (self (l1 ++ x :: l2))) by (by rewrite self_app).
    exists o', l1, l2. split; [done|]. split; [done|]. split; [by exists cmp|]. destruct Hh3 as (? & _ & _ & _ & Hs3). by apply sorted_self.
  - intros t l1 x l2 (cmp & Ho & Hh). cbn. rewrite (remove_holds_eq cmp t (l1 ++ x :: l2)) by (done || set_solver). rewrite self_app in Hh.
    destruct (remove_ok cmp t (self l1) x x (self l2) Hh) as (o' & -> & Hh'). exists o'. split; [done|]. exists cmp. split; [done|]. by rewrite self_app.
Qed.
