(* ===== verification/FairQueue.v ===== *)
(** * The fair queue of badvpn

    Models flow/PacketPassFairQueue.c: flows share one output; each flow has a
    time, the amount of data it has sent, and the queued flow with the least
    time is sent next.  Times are 64-bit and wrap around; when a time would
    overflow, a common amount is subtracted from all of them.  Flows are objects
    of a memory, found by their addresses; the queue of flows is any tree that
    keeps the promises of [SAvlSpec].  A failed [ASSERT] is a [Fault]. *)
From S2P Require Import Prelude BadvpnMisc AvlTree BavlSpec PacketPassInterface SAvl.
From stdpp Require Import gmap sorting.
#[local] Open Scope Z_scope.
#[local] Set Warnings "-clear-no-such-hyp".

Definition FAIRQUEUE_MAX_TIME : Z := 2 ^ 64 - 1.

Definition bmax_uint64 (a b : Z) : Z := if b <? a then a else b.

Record Flow := mkflow {
  handler_busy : option Z;
  input : PacketPassInterface;
  time : Z;
  is_queued : bool;
  queued_data : list Z }.

Definition set_time (t : Z) (f : Flow) : Flow := mkflow (handler_busy f) (input f) t (is_queued f) (queued_data f).
Definition set_queued (b : bool) (f : Flow) : Flow := mkflow (handler_busy f) (input f) (time f) b (queued_data f).
Definition set_data (d : list Z) (f : Flow) : Flow := mkflow (handler_busy f) (input f) (time f) (is_queued f) d.
Definition set_busy (h : option Z) (f : Flow) : Flow := mkflow h (input f) (time f) (is_queued f) (queued_data f).
Definition set_input (i : PacketPassInterface) (f : Flow) : Flow := mkflow (handler_busy f) i (time f) (is_queued f) (queued_data f).

Section queue.
Context {T : Type} `{SAvl T}.

Record PacketPassFairQueue := mkq {
  output : PacketPassInterface;
  use_cancel : bool;
  packet_weight : Z;
  sending_flow : option loc;
  sending_len : Z;
  previous_flow : option loc;
  queued_tree : T;
  flows_list : list loc;
  freeing : bool;
  schedule_job : bool;
  mem : gmap loc Flow }.

Definition set_output (i : PacketPassInterface) (m : PacketPassFairQueue) : PacketPassFairQueue :=
  mkq i (use_cancel m) (packet_weight m) (sending_flow m) (sending_len m) (previous_flow m) (queued_tree m) (flows_list m) (freeing m) (schedule_job m) (mem m).
Definition set_sending (s : option loc) (m : PacketPassFairQueue) : PacketPassFairQueue :=
  mkq (output m) (use_cancel m) (packet_weight m) s (sending_len m) (previous_flow m) (queued_tree m) (flows_list m) (freeing m) (schedule_job m) (mem m).
Definition set_sending_len (n : Z) (m : PacketPassFairQueue) : PacketPassFairQueue :=
  mkq (output m) (use_cancel m) (packet_weight m) (sending_flow m) n (previous_flow m) (queued_tree m) (flows_list m) (freeing m) (schedule_job m) (mem m).
Definition set_previous (p : option loc) (m : PacketPassFairQueue) : PacketPassFairQueue :=
  mkq (output m) (use_cancel m) (packet_weight m) (sending_flow m) (sending_len m) p (queued_tree m) (flows_list m) (freeing m) (schedule_job m) (mem m).
Definition set_tree (t : T) (m : PacketPassFairQueue) : PacketPassFairQueue :=
  mkq (output m) (use_cancel m) (packet_weight m) (sending_flow m) (sending_len m) (previous_flow m) t (flows_list m) (freeing m) (schedule_job m) (mem m).
Definition set_flows (l : list loc) (m : PacketPassFairQueue) : PacketPassFairQueue :=
  mkq (output m) (use_cancel m) (packet_weight m) (sending_flow m) (sending_len m) (previous_flow m) (queued_tree m) l (freeing m) (schedule_job m) (mem m).
Definition set_freeing (b : bool) (m : PacketPassFairQueue) : PacketPassFairQueue :=
  mkq (output m) (use_cancel m) (packet_weight m) (sending_flow m) (sending_len m) (previous_flow m) (queued_tree m) (flows_list m) b (schedule_job m) (mem m).
Definition set_job (b : bool) (m : PacketPassFairQueue) : PacketPassFairQueue :=
  mkq (output m) (use_cancel m) (packet_weight m) (sending_flow m) (sending_len m) (previous_flow m) (queued_tree m) (flows_list m) (freeing m) b (mem m).
Definition set_mem (h : gmap loc Flow) (m : PacketPassFairQueue) : PacketPassFairQueue :=
  mkq (output m) (use_cancel m) (packet_weight m) (sending_flow m) (sending_len m) (previous_flow m) (queued_tree m) (flows_list m) (freeing m) (schedule_job m) h.

(** Reading and writing the flow object at [x]. *)
Definition get (x : loc) (m : PacketPassFairQueue) : outcome Flow :=
  match mem m !! x with Some f => Ret f | None => Fault end.
Definition upd (x : loc) (g : Flow → Flow) (m : PacketPassFairQueue) : outcome PacketPassFairQueue :=
  f ← get x m; Ret (set_mem (<[x := g f]> (mem m)) m).
Definition is_null (p : option loc) : bool := match p with None => true | Some _ => false end.
Definition is_flow (x : loc) (p : option loc) : bool := bool_decide (p = Some x).
Definition deref (p : option loc) : outcome loc := match p with Some x => Ret x | None => Fault end.

(** The time of the flow at an address; the comparison reads it there. *)
Definition time_of (h : gmap loc Flow) (x : loc) : Z := match h !! x with Some f => time f | None => 0 end.

Definition compare_flows (h : gmap loc Flow) (f1 f2 : loc) : Z :=
  let cmp := B_COMPARE (time_of h f1) (time_of h f2) in
  if cmp =? 0 then B_COMPARE (Z.pos f1) (Z.pos f2) else cmp.

Definition get_current_time (m : PacketPassFairQueue) : outcome Z :=
  match sending_flow m with
  | Some x => f ← get x m; Ret (time f)
  | None =>
      first_flow ← SAvl_GetFirst (queued_tree m);
      t ← match first_flow with
          | Some x => f ← get x m; _ ← assert (is_queued f); Ret (Some (time f))
          | None => Ret None
          end;
      t ← match previous_flow m with
          | Some x => f ← get x m;
                      Ret match t with
                          | None => Some (time f)
                          | Some t => if time f <? t then Some (time f) else Some t
                          end
          | None => Ret t
          end;
      Ret (default 0 t)
  end.

(** The loop that subtracts time from the flows of [l]. *)
Fixpoint subtract_time (subtract : Z) (flow : loc) (l : list loc) (m : PacketPassFairQueue) : outcome PacketPassFairQueue :=
  match l with
  | [] => Ret m
  | someflow :: l =>
      f ← get someflow m;
      m ← (if (time f <? subtract) && negb (bool_decide (someflow = flow))
           then _ ← assert (negb (is_queued f)); upd someflow (set_time 0) m
           else upd someflow (set_time (u64 (time f - subtract))) m);
      subtract_time subtract flow l m
  end.

Definition increment_sent_flow (flow : loc) (amount : Z) (m : PacketPassFairQueue) : outcome PacketPassFairQueue :=
  f ← get flow m;
  _ ← assert (amount <=? FAIRQUEUE_MAX_TIME); _ ← assert (negb (is_queued f)); _ ← assert (is_null (sending_flow m));
  m ← (if u64 (FAIRQUEUE_MAX_TIME - time f) <? amount
       then
         first_flow ← SAvl_GetFirst (queued_tree m);
         subtract ← match first_flow with
                    | None => Ret (time f)
                    | Some x => g ← get x m; _ ← assert (is_queued g); Ret (time g)
                    end;
         subtract_time subtract flow (flows_list m) m
       else Ret m);
  f ← get flow m;
  upd flow (set_time (u64 (time f + amount))) m.

Definition schedule (m : PacketPassFairQueue) : outcome PacketPassFairQueue :=
  _ ← assert (is_null (sending_flow m)); _ ← assert (is_null (previous_flow m)); _ ← assert (negb (freeing m));
  _ ← assert (negb (SAvl_IsEmpty (queued_tree m)));
  first ← SAvl_GetFirst (queued_tree m); qflow ← deref first;
  f ← get qflow m; _ ← assert (is_queued f);
  t ← SAvl_Remove qflow (queued_tree m);
  m ← upd qflow (set_queued false) (set_tree t m);
  f ← get qflow m;
  i ← PacketPassInterface_Sender_Send (output m) (queued_data f);
  Ret (set_sending_len (zlen (queued_data f)) (set_sending (Some qflow) (set_output i m))).

(** The pending group clears the job before it calls the handler. *)
Definition schedule_job_handler (m : PacketPassFairQueue) : outcome PacketPassFairQueue :=
  let m := set_job false m in
  _ ← assert (is_null (sending_flow m)); _ ← assert (negb (freeing m));
  let m := set_previous None m in
  if SAvl_IsEmpty (queued_tree m) then Ret m else schedule m.

Definition fq_input_handler_send (flow : loc) (data : list Z) (m : PacketPassFairQueue) : outcome PacketPassFairQueue :=
  f ← get flow m;
  _ ← assert (negb (is_flow flow (sending_flow m))); _ ← assert (negb (is_queued f)); _ ← assert (negb (freeing m));
  m ← (if is_flow flow (previous_flow m) then Ret (set_previous None m)
       else t ← get_current_time m; upd flow (set_time (bmax_uint64 (time f) t)) m);
  m ← upd flow (set_data data) m;
  '(t, res) ← SAvl_Insert (compare_flows (mem m)) flow (queued_tree m);
  _ ← assert res;
  m ← upd flow (set_queued true) (set_tree t m);
  if is_null (sending_flow m) && negb (schedule_job m) then schedule m else Ret m.

(** Returns the busy handler to call last, if the flow has one. *)
Definition fq_output_handler_done (m : PacketPassFairQueue) : outcome (PacketPassFairQueue * option Z) :=
  flow ← deref (sending_flow m);
  _ ← assert (is_null (previous_flow m)); _ ← assert (negb (schedule_job m)); _ ← assert (negb (freeing m));
  f ← get flow m; _ ← assert (negb (is_queued f));
  let m := set_previous (Some flow) (set_sending None m) in
  m ← increment_sent_flow flow (u64 (u64 (packet_weight m) + u64 (sending_len m))) m;
  let m := set_job true m in
  f ← get flow m; i ← PacketPassInterface_Done (input f); m ← upd flow (set_input i) m;
  match handler_busy f with
  | Some h => m ← upd flow (set_busy None) m; Ret (m, Some h)
  | None => Ret (m, None)
  end.

Definition PacketPassFairQueue_Init (out : PacketPassInterface) (use_cancel : bool) (packet_weight : Z) :
    outcome (option PacketPassFairQueue) :=
  _ ← assert (0 <? packet_weight); _ ← assert (negb use_cancel || PacketPassInterface_HasCancel out);
  if negb ((u64 (PacketPassInterface_GetMTU out) <=? FAIRQUEUE_MAX_TIME)
           && (u64 packet_weight <=? u64 (FAIRQUEUE_MAX_TIME - u64 (PacketPassInterface_GetMTU out))))
  then Ret None
  else
    out ← PacketPassInterface_Sender_Init out;
    Ret (Some (mkq out use_cancel packet_weight None 0 None SAvl_Init [] false false ∅)).

Definition PacketPassFairQueue_Free (m : PacketPassFairQueue) : outcome unit :=
  _ ← assert (bool_decide (flows_list m = [])); _ ← assert (SAvl_IsEmpty (queued_tree m));
  _ ← assert (is_null (previous_flow m)); assert (is_null (sending_flow m)).

Definition PacketPassFairQueue_PrepareFree (m : PacketPassFairQueue) : PacketPassFairQueue := set_freeing true m.
Definition PacketPassFairQueue_GetMTU (m : PacketPassFairQueue) : Z := PacketPassInterface_GetMTU (output m).

(** [flow] is the address of an object that is not a flow yet. *)
Definition PacketPassFairQueueFlow_Init (flow : loc) (m : PacketPassFairQueue) : outcome PacketPassFairQueue :=
  _ ← assert (negb (freeing m));
  i ← PacketPassInterface_Init (PacketPassInterface_GetMTU (output m));
  Ret (set_flows (flows_list m ++ [flow]) (set_mem (<[flow := mkflow None i 0 false []]> (mem m)) m)).

Definition remove_flow (flow : loc) (l : list loc) : list loc := List.filter (λ x, negb (bool_decide (x = flow))) l.

Definition PacketPassFairQueueFlow_Free (flow : loc) (m : PacketPassFairQueue) : outcome PacketPassFairQueue :=
  f ← get flow m;
  _ ← assert (freeing m || negb (is_flow flow (sending_flow m)));
  let m := if is_flow flow (sending_flow m) then set_sending None m else m in
  let m := if is_flow flow (previous_flow m) then set_previous None m else m in
  m ← (if is_queued f then t ← SAvl_Remove flow (queued_tree m); Ret (set_tree t m) else Ret m);
  Ret (set_flows (remove_flow flow (flows_list m)) (set_mem (delete flow (mem m)) m)).

Definition PacketPassFairQueueFlow_AssertFree (flow : loc) (m : PacketPassFairQueue) : outcome unit :=
  assert (freeing m || negb (is_flow flow (sending_flow m))).

Definition PacketPassFairQueueFlow_IsBusy (flow : loc) (m : PacketPassFairQueue) : outcome bool :=
  _ ← assert (negb (freeing m)); Ret (is_flow flow (sending_flow m)).

Definition PacketPassFairQueueFlow_RequestCancel (flow : loc) (m : PacketPassFairQueue) : outcome PacketPassFairQueue :=
  _ ← assert (is_flow flow (sending_flow m)); _ ← assert (use_cancel m); _ ← assert (negb (freeing m)); _ ← assert (negb (schedule_job m));
  i ← PacketPassInterface_Sender_RequestCancel (output m);
  Ret (set_output i m).

Definition PacketPassFairQueueFlow_SetBusyHandler (flow : loc) (handler : Z) (m : PacketPassFairQueue) : outcome PacketPassFairQueue :=
  _ ← assert (is_flow flow (sending_flow m)); _ ← assert (negb (freeing m));
  upd flow (set_busy (Some handler)) m.

Definition PacketPassFairQueueFlow_GetInput (flow : loc) (m : PacketPassFairQueue) : outcome PacketPassInterface :=
  f ← get flow m; Ret (input f).
End queue.
Arguments PacketPassFairQueue T : clear implicits.

(** ** The order of the flows *)
(** The order: by time, then by address. *)
Lemma compare_lt h x y : compare_flows h x y = -1 ↔ time_of h x < time_of h y ∨ time_of h x = time_of h y ∧ Z.pos x < Z.pos y.
Proof.
  unfold compare_flows. destruct (B_COMPARE_spec (time_of h x) (time_of h y)) as [[? ->]|[[? ->]|[? ->]]]; cbn; [lia| |lia].
  destruct (B_COMPARE_spec (Z.pos x) (Z.pos y)) as [[? ->]|[[? ->]|[? ->]]]; lia.
Qed.

#[export] Instance compare_order h : BAVLOrder (compare_flows h).
Proof.
  split.
  - intros x y. unfold compare_flows. destruct (B_COMPARE_spec (time_of h x) (time_of h y)) as [[? ->]|[[? ->]|[? ->]]]; cbn; [lia| |lia].
    destruct (B_COMPARE_spec (Z.pos x) (Z.pos y)) as [[? ->]|[[? ->]|[? ->]]]; lia.
  - intros x y. unfold compare_flows. destruct (B_COMPARE_spec (time_of h x) (time_of h y)) as [[? ->]|[[? ->]|[? ->]]]; cbn; [lia| |lia].
    destruct (B_COMPARE_spec (Z.pos x) (Z.pos y)) as [[? ->]|[[? ->]|[? ->]]]; [lia|congruence|lia].
  - intros x y. unfold compare_flows.
    destruct (B_COMPARE_spec (time_of h x) (time_of h y)) as [[? ->]|[[? ->]|[? ->]]],
      (B_COMPARE_spec (time_of h y) (time_of h x)) as [[? ->]|[[? ->]|[? ->]]]; cbn; try lia.
    destruct (B_COMPARE_spec (Z.pos x) (Z.pos y)) as [[? ->]|[[? ->]|[? ->]]],
      (B_COMPARE_spec (Z.pos y) (Z.pos x)) as [[? ->]|[[? ->]|[? ->]]]; lia.
  - intros x y z. rewrite !compare_lt. lia.
Qed.

Lemma sorted_by_mono h h' l :
  (∀ x y, x ∈ l → y ∈ l → compare_flows h x y = -1 → compare_flows h' x y = -1) →
  sorted_by (compare_flows h) l → sorted_by (compare_flows h') l.
Proof.
  unfold sorted_by. induction 2 as [|x l Hl IH Hx]; constructor.
  - apply IH. intros a b Ha Hb. apply H; by right.
  - apply Forall_forall. intros y Hy. apply H; [by left|by right|]. by apply (proj1 (Forall_forall _ _) Hx).
Qed.

Lemma sorted_by_shift h h' s l : (∀ x, x ∈ l → time_of h' x = time_of h x - s) →
  sorted_by (compare_flows h) l → sorted_by (compare_flows h') l.
Proof. intros E. apply sorted_by_mono. intros x y Hx Hy. rewrite !compare_lt, !E by done. lia. Qed.

(** The first flow of the queue has the least time. *)
Lemma sorted_by_first h x l y : sorted_by (compare_flows h) (x :: l) → y ∈ x :: l → time_of h x ≤ time_of h y.
Proof.
  intros Hs Hy. inversion Hs as [|? ? _ Hx]; subst. apply elem_of_cons in Hy as [->|Hy]; [done|].
  apply (proj1 (Forall_forall _ _) Hx), compare_lt in Hy. lia.
Qed.

(** ** Time *)
Section facts.
Context {T : Type} `{SAvl T}.
Implicit Types (m : PacketPassFairQueue T) (h : gmap loc Flow).

Lemma flow_get_eq x f m : mem m !! x = Some f → get x m = Ret f.
Proof. unfold get. by intros ->. Qed.
Lemma flow_upd_eq x f g m : mem m !! x = Some f → upd x g m = Ret (set_mem (<[x := g f]> (mem m)) m).
Proof. intros E. unfold upd. by rewrite (flow_get_eq x f m E). Qed.
Lemma set_mem_twice h h' m : set_mem h (set_mem h' m) = set_mem h m.
Proof. done. Qed.
Lemma set_mem_id m : set_mem (mem m) m = m.
Proof. by destruct m. Qed.

Lemma time_of_eq h x f : h !! x = Some f → time_of h x = time f.
Proof. unfold time_of. by intros ->. Qed.

(** The time of a flow after the subtraction. *)
Definition less_time (s : Z) (flow x : loc) (f : Flow) : Flow :=
  set_time (if (time f <? s) && negb (bool_decide (x = flow)) then 0 else u64 (time f - s)) f.

Lemma subtract_time_ok s flow l m :
  NoDup l → (∀ x, x ∈ l → ∃ f, mem m !! x = Some f ∧ (is_queued f = true → s ≤ time f)) →
  ∃ h, subtract_time s flow l m = Ret (set_mem h m) ∧
    (∀ x, x ∉ l → h !! x = mem m !! x) ∧ (∀ x f, x ∈ l → mem m !! x = Some f → h !! x = Some (less_time s flow x f)).
Proof.
  revert m. induction l as [|y l IH]; intros m Hn Hl.
  { exists (mem m). rewrite set_mem_id. split_and!; try done. intros x f Hx. by apply elem_of_nil in Hx. }
  apply NoDup_cons in Hn as [Hy Hn]. destruct (Hl y) as (f & Ef & Hq); [by left|]. cbn [subtract_time].
  rewrite (flow_get_eq _ _ _ Ef), bind_Ret.
  assert (E : (if (time f <? s) && negb (bool_decide (y = flow))
           then assert (negb (is_queued f)) ≫= (λ _, upd y (set_time 0) m)
           else upd y (set_time (u64 (time f - s))) m) = Ret (set_mem (<[y := less_time s flow y f]> (mem m)) m)).
  { unfold less_time. rewrite !(flow_upd_eq y f) by done. destruct (Z.ltb_spec (time f) s); cbn [andb]; [|done].
    destruct (bool_decide (y = flow)); cbn [negb]; [done|]. destruct (is_queued f); [|done]. specialize (Hq eq_refl). lia. }
  rewrite E, bind_Ret. destruct (IH (set_mem (<[y := less_time s flow y f]> (mem m)) m)) as (h & -> & H1 & H2); [done| |].
  { intros x Hx. destruct (Hl x) as (g & Eg & Hg); [by right|]. exists g. cbn. rewrite lookup_insert_ne; [done|]. by intros ->. }
  exists h. rewrite set_mem_twice. split; [done|]. split.
  - intros x Hx. rewrite H1 by set_solver. cbn. apply lookup_insert_ne. set_solver.
  - intros x g Hx Eg. apply elem_of_cons in Hx as [->|Hx].
    + rewrite H1 by done. cbn. rewrite lookup_insert_eq. congruence.
    + apply H2; [done|]. cbn. rewrite lookup_insert_ne; [done|]. by intros ->.
Qed.

(** The times after a packet of [flow] was sent: [s] was subtracted from all of
    them, and [amount] added to that of [flow]. *)
Definition sent_time (s amount : Z) (flow x : loc) (f : Flow) : Z :=
  if bool_decide (x = flow) then time f + amount - s else Z.max 0 (time f - s).
Definition sent_mem (s amount : Z) (flow : loc) h : gmap loc Flow :=
  map_imap (λ x f, Some (set_time (sent_time s amount flow x f) f)) h.

Lemma sent_mem_lookup s amount flow h x :
  sent_mem s amount flow h !! x = (λ f, set_time (sent_time s amount flow x f) f) <$> h !! x.
Proof. unfold sent_mem. rewrite map_lookup_imap. by destruct (h !! x). Qed.

Definition time_range (h : gmap loc Flow) : Prop := ∀ x f, h !! x = Some f → 0 ≤ time f ≤ FAIRQUEUE_MAX_TIME.

Lemma u64_sub_add a b : 0 ≤ a + b ≤ FAIRQUEUE_MAX_TIME → u64 (u64 a + b) = a + b.
Proof. unfold u64, FAIRQUEUE_MAX_TIME. intros Hr. rewrite Zplus_mod_idemp_l. apply Z.mod_small. lia. Qed.
Lemma u64_id a : 0 ≤ a ≤ FAIRQUEUE_MAX_TIME → u64 a = a.
Proof. unfold FAIRQUEUE_MAX_TIME. intros Hr. apply u64_small. lia. Qed.

(** Without an overflow. *)
Lemma sent_mem_add amount flow f h :
  time_range h → h !! flow = Some f → time f + amount ≤ FAIRQUEUE_MAX_TIME → 0 ≤ amount →
  <[flow := set_time (u64 (time f + amount)) f]> h = sent_mem 0 amount flow h.
Proof.
  intros Hr Ef Hm Ha. apply map_eq. intros x. rewrite sent_mem_lookup. pose proof (Hr flow f Ef).
  destruct (decide (x = flow)) as [->|Hx].
  - rewrite lookup_insert_eq, Ef. cbn. unfold sent_time. rewrite bool_decide_true by done. rewrite u64_id by lia. do 2 f_equal. lia.
  - rewrite lookup_insert_ne by done. destruct (h !! x) as [g|] eqn:Eg; [|done]. cbn. f_equal. unfold sent_time.
    rewrite bool_decide_false by done. pose proof (Hr x g Eg). destruct g; unfold set_time; cbn in *. f_equal. lia.
Qed.
Context `{!SAvlSpec T}.

(** The memory of the flows and the queue: [l] are the queued flows in order. *)
Record mem_ok (t : T) (fl : list loc) h (l : list loc) : Prop := {
  q_tree : tree_entries t l;
  q_sorted : sorted_by (compare_flows h) l;
  q_nodup : NoDup fl;
  q_flows x : x ∈ fl ↔ is_Some (h !! x);
  q_queued x : x ∈ l ↔ ∃ f, h !! x = Some f ∧ is_queued f = true;
  q_time : time_range h }.

Lemma queued_time t fl h l x f : mem_ok t fl h l → h !! x = Some f → is_queued f = true → x ∈ l ∧ time_of h x = time f.
Proof. intros Hm Ef Hq. split; [|by apply time_of_eq]. apply (q_queued _ _ _ _ Hm). by exists f. Qed.

(** The least time of the queue; [d] when it is empty. *)
Definition least (d : Z) h (l : list loc) : Z := match l with [] => d | x :: _ => time_of h x end.

Lemma least_ok t fl h l d y : mem_ok t fl h l → y ∈ l → least d h l ≤ time_of h y.
Proof. intros Hm Hy. destruct l as [|x l]; [by apply elem_of_nil in Hy|]. by eapply sorted_by_first, Hy; apply Hm. Qed.

Lemma least_range t fl h l flow f :
  mem_ok t fl h l → h !! flow = Some f → (∀ y, y ∈ l → time f ≤ time_of h y) → time f ≤ least (time f) h l ≤ FAIRQUEUE_MAX_TIME.
Proof.
  intros Hm Ef Hle. pose proof (q_time _ _ _ _ Hm flow f Ef). destruct l as [|x l]; cbn; [lia|].
  specialize (Hle x). destruct (proj1 (q_queued _ _ _ _ Hm x)) as (g & Eg & _); [by left|]. rewrite (time_of_eq _ _ _ Eg) in *.
  pose proof (q_time _ _ _ _ Hm x g Eg). split; [apply Hle; by left|lia].
Qed.

Lemma first_time m l d : mem_ok (queued_tree m) (flows_list m) (mem m) l →
  ((SAvl_GetFirst (queued_tree m) ≫= λ first_flow, match first_flow with
     | None => Ret d
     | Some x => g ← get x m; _ ← assert (is_queued g); Ret (time g)
     end) : outcome Z) = Ret (least d (mem m) l).
Proof.
  intros Hm. rewrite (tree_get_first _ l (q_tree _ _ _ _ Hm)), bind_Ret. destruct l as [|x l]; [done|]. cbn [head].
  destruct (proj1 (q_queued _ _ _ _ Hm x)) as (f & Ef & Hq); [by left|].
  rewrite (flow_get_eq x f) by done. rewrite bind_Ret, Hq. cbn. by rewrite (time_of_eq _ _ _ Ef).
Qed.

Lemma increment_ok m l flow f amount :
  mem_ok (queued_tree m) (flows_list m) (mem m) l →
  mem m !! flow = Some f → is_queued f = false → sending_flow m = None →
  0 ≤ amount ≤ FAIRQUEUE_MAX_TIME → (∀ y, y ∈ l → time f ≤ time_of (mem m) y) →
  ∃ s, increment_sent_flow flow amount m = Ret (set_mem (sent_mem s amount flow (mem m)) m) ∧
    0 ≤ s ∧ 0 ≤ time f + amount - s ≤ FAIRQUEUE_MAX_TIME ∧ (∀ y, y ∈ l → s ≤ time_of (mem m) y).
Proof.
  intros Hm Ef Hq Hs Ha Hle. pose proof (q_time _ _ _ _ Hm flow f Ef) as Hf. unfold increment_sent_flow.
  rewrite (flow_get_eq flow f) by done. rewrite bind_Ret, Hq, Hs. rewrite (assert_true (amount <=? _)) by lia. rewrite bind_Ret. cbn [assert negb is_null]. rewrite !bind_Ret.
  rewrite (u64_id (_ - _)) by lia. destruct (Z.ltb_spec (FAIRQUEUE_MAX_TIME - time f) amount) as [Ho|Ho].
  2: { exists 0. rewrite bind_Ret, (flow_get_eq flow f) by done. rewrite bind_Ret, (flow_upd_eq flow f) by done.
       rewrite sent_mem_add by (first [done|lia|apply Hm]). split; [done|]. split_and!; try lia. intros y Hy.
       apply (q_queued _ _ _ _ Hm) in Hy as (g & Eg & _). rewrite (time_of_eq _ _ _ Eg). apply (q_time _ _ _ _ Hm y g Eg). }
  rewrite <- bind_assoc_outcome, (first_time m l) by done. rewrite bind_Ret. set (s := least (time f) (mem m) l).
  assert (Hs1 : time f ≤ s ≤ FAIRQUEUE_MAX_TIME) by (by eapply least_range).
  assert (Hs2 : ∀ y, y ∈ l → s ≤ time_of (mem m) y) by (intros y Hy; by eapply least_ok).
  exists s. split; [|split_and!; [lia..|done]].
  destruct (subtract_time_ok s flow (flows_list m) m) as (h & -> & H1 & H2); [apply Hm| |].
  { intros x Hx. apply (q_flows _ _ _ _ Hm) in Hx as [g Eg]. exists g. split; [done|]. intros Hg.
    destruct (queued_time _ _ _ _ x g Hm Eg Hg) as [Hx <-]. by apply Hs2. }
  rewrite bind_Ret. assert (Hin : ∀ x g, mem m !! x = Some g → x ∈ flows_list m) by (intros x g Eg; by apply (q_flows _ _ _ _ Hm); eexists).
  rewrite (flow_get_eq flow (less_time s flow flow f)) by (cbn; eauto). rewrite bind_Ret, (flow_upd_eq flow (less_time s flow flow f)) by (cbn; eauto).
  cbn [mem set_mem]. rewrite set_mem_twice. do 2 f_equal. apply map_eq. intros x. rewrite sent_mem_lookup.
  destruct (decide (x = flow)) as [->|Hx].
  - rewrite lookup_insert_eq, Ef. cbn. unfold sent_time, less_time, set_time. cbn. rewrite !bool_decide_true by done. rewrite andb_false_r.
    do 2 f_equal. rewrite u64_sub_add; lia.
  - rewrite lookup_insert_ne by done. destruct (mem m !! x) as [g|] eqn:Eg.
    + rewrite (H2 x g) by eauto. unfold less_time, sent_time. cbn. rewrite !bool_decide_false by done. cbn [negb]. rewrite andb_true_r. do 2 f_equal.
      pose proof (q_time _ _ _ _ Hm x g Eg). destruct (Z.ltb_spec (time g) s); [lia|]. rewrite u64_id; lia.
    + rewrite H1; [done|]. intros Hx'. apply (q_flows _ _ _ _ Hm) in Hx' as [g Eg']. congruence.
Qed.
End facts.
