(* ===== verification/FairQueueSafe.v ===== *)
(** * The fair queue of badvpn: its invariant

    The queue, the interfaces of its flows and the one of its output, driven by
    their users: every assertion of the code holds, a queued flow with the least
    time is sent, and the output is never idle while a flow is queued. *)
From S2P Require Import Prelude AvlTree BavlSpec PacketPassInterface SAvl FairQueue.
From stdpp Require Import gmap sorting.
#[local] Open Scope Z_scope.
#[local] Set Warnings "-clear-no-such-hyp".

(** ** Runs

    What can happen to a queue: the calls of its users, the calls of the output,
    and the jobs of the interfaces and of the queue, each when it is pending. *)
Inductive fq_op :=
| QFlowInit (x : loc) | QAttach (x : loc) | QFlowFree (x : loc) | QPrepareFree
| QSend (x : loc) (data : list Z) | QInputJob (x : loc) | QInputDone (x : loc)
| QOutputJob | QOutputFinish | QOutputDone | QCancelJob
| QScheduleJob | QCancel (x : loc) | QSetBusy (x : loc) (handler : Z).

Section safe.
Context {T : Type} `{SAvlSpec T}.
Implicit Types (m : PacketPassFairQueue T) (h : gmap loc Flow).

Definition fq_step (op : fq_op) m : outcome (PacketPassFairQueue T) :=
  match op with
  | QFlowInit x => PacketPassFairQueueFlow_Init x m
  | QAttach x => f ← get x m; i ← PacketPassInterface_Sender_Init (input f); upd x (set_input i) m
  | QFlowFree x => _ ← PacketPassFairQueueFlow_AssertFree x m; PacketPassFairQueueFlow_Free x m
  | QPrepareFree => Ret (PacketPassFairQueue_PrepareFree m)
  | QSend x data => f ← get x m; i ← PacketPassInterface_Sender_Send (input f) data; upd x (set_input i) m
  | QInputJob x =>
      f ← get x m; '(i, data) ← _PacketPassInterface_job_operation (input f);
      m ← upd x (set_input i) m; fq_input_handler_send x data m
  | QInputDone x => f ← get x m; i ← _PacketPassInterface_job_done (input f); upd x (set_input i) m
  | QOutputJob => '(i, _) ← _PacketPassInterface_job_operation (output m); Ret (set_output i m)
  | QOutputFinish => i ← PacketPassInterface_Done (output m); Ret (set_output i m)
  | QOutputDone =>
      i ← _PacketPassInterface_job_done (output m);
      '(m, _) ← fq_output_handler_done (set_output i m); Ret m
  | QCancelJob => i ← _PacketPassInterface_job_requestcancel (output m); Ret (set_output i m)
  | QScheduleJob => schedule_job_handler m
  | QCancel x => PacketPassFairQueueFlow_RequestCancel x m
  | QSetBusy x handler => PacketPassFairQueueFlow_SetBusyHandler x handler m
  end.

Definition of_flow (P : Flow → Prop) (x : loc) m : Prop := match mem m !! x with Some f => P f | None => False end.

(** When it can happen: a flow sends when its last packet is done, and is freed
    when it is not busy; once the queue is being freed, only flows are freed. *)
Definition fq_allowed (op : fq_op) m : Prop :=
  match op with
  | QFlowInit x => freeing m = false ∧ mem m !! x = None
  | QAttach x => freeing m = false ∧ of_flow (λ f, handler_done (input f) = false) x m
  | QFlowFree x => of_flow (λ _, True) x m ∧ (freeing m = true ∨ sending_flow m ≠ Some x)
  | QPrepareFree => True
  | QSend x data => freeing m = false ∧
      of_flow (λ f, state (input f) = PPI_STATE_NONE ∧ handler_done (input f) = true ∧ zlen data ≤ mtu (input f)) x m
  | QInputJob x => freeing m = false ∧ of_flow (λ f, job_operation (input f) = true) x m
  | QInputDone x => freeing m = false ∧ of_flow (λ f, job_done (input f) = true) x m
  | QOutputJob => freeing m = false ∧ job_operation (output m) = true
  | QOutputFinish => freeing m = false ∧ state (output m) = PPI_STATE_BUSY
  | QOutputDone => freeing m = false ∧ job_done (output m) = true
  | QCancelJob => freeing m = false ∧ job_requestcancel (output m) = true
  | QScheduleJob => freeing m = false ∧ schedule_job m = true
  | QCancel x => freeing m = false ∧ use_cancel m = true ∧ sending_flow m = Some x
  | QSetBusy x _ => freeing m = false ∧ sending_flow m = Some x
  end.

(** ** The invariant *)
Record flow_ok (mt : Z) (f : Flow) : Prop := {
  fl_ppi : ppi_ok (input f);
  fl_cancel : handler_requestcancel (input f) = false;
  fl_mtu : mtu (input f) = mt;
  fl_data : zlen (queued_data f) ≤ mt }.

Record out_ok m : Prop := {
  o_ppi : ppi_ok (output m);
  o_done : handler_done (output m) = true;
  o_mtu : 0 ≤ mtu (output m);
  o_weight : 0 < packet_weight m;
  o_max : packet_weight m + mtu (output m) ≤ FAIRQUEUE_MAX_TIME;
  o_cancel : use_cancel m = true → handler_requestcancel (output m) = true;
  o_len : 0 ≤ sending_len m ≤ mtu (output m) }.

Definition idle_flow h (x : loc) : Prop := ∃ f, h !! x = Some f ∧ is_queued f = false.

Record fq_core m (l : list loc) : Prop := {
  c_mem : mem_ok (queued_tree m) (flows_list m) (mem m) l;
  c_flow x f : mem m !! x = Some f → flow_ok (mtu (output m)) f;
  c_out : out_ok m;
  c_sending x : sending_flow m = Some x → idle_flow (mem m) x ∧ ∀ y, y ∈ l → time_of (mem m) x ≤ time_of (mem m) y;
  c_previous x : previous_flow m = Some x → idle_flow (mem m) x;
  c_busy x f : freeing m = false → mem m !! x = Some f →
    is_state (input f) PPI_STATE_BUSY = is_queued f || is_flow x (sending_flow m) }.

(** A flow is being sent; or the queue is empty; or the job that sends is set. *)
Definition phase m (l : list loc) : Prop :=
  match sending_flow m with
  | Some _ => is_state (output m) PPI_STATE_NONE = false ∧ previous_flow m = None ∧ schedule_job m = false
  | None => is_state (output m) PPI_STATE_NONE = true ∧ (schedule_job m = false → previous_flow m = None ∧ l = [])
  end.

Definition fq_ok m (l : list loc) : Prop := fq_core m l ∧ (freeing m = false → phase m l).

(** ** Flows whose times stay *)
Lemma time_of_insert h x f g y : h !! x = Some f → time g = time f → time_of (<[x := g]> h) y = time_of h y.
Proof.
  intros Ef Hg. unfold time_of. destruct (decide (y = x)) as [->|Hy]; [by rewrite lookup_insert_eq, Ef|by rewrite lookup_insert_ne].
Qed.

Lemma mem_ok_insert t fl h l x f g :
  mem_ok t fl h l → h !! x = Some f → time g = time f → is_queued g = is_queued f → mem_ok t fl (<[x := g]> h) l.
Proof.
  intros [Ht Hs Hn Hf Hq Hr] Ef Hg Hgq. split; try done.
  - eapply (sorted_by_shift h _ 0); [|done]. intros y _. rewrite (time_of_insert h x f g) by done. lia.
  - intros y. rewrite Hf. destruct (decide (y = x)) as [->|Hy]; [rewrite lookup_insert_eq, Ef; done|by rewrite lookup_insert_ne].
  - intros y. rewrite Hq. destruct (decide (y = x)) as [->|Hy]; [|by rewrite lookup_insert_ne].
    rewrite lookup_insert_eq, Ef. split; intros (k & [= <-] & Hk); eexists; (split; [done|congruence]).
  - intros y k. destruct (decide (y = x)) as [->|Hy]; [|rewrite lookup_insert_ne by done; apply Hr].
    rewrite lookup_insert_eq. intros [= <-]. rewrite Hg. by apply (Hr x).
Qed.

Lemma idle_insert h x f g y : h !! x = Some f → is_queued g = is_queued f → idle_flow h y → idle_flow (<[x := g]> h) y.
Proof.
  intros Ef Hg (k & Ek & Hk). destruct (decide (y = x)) as [->|Hy].
  - exists g. rewrite lookup_insert_eq. split; [done|congruence].
  - exists k. by rewrite lookup_insert_ne.
Qed.

(** A flow whose time and place in the queue stay gets another interface. *)
Lemma core_insert m l x f g :
  fq_core m l → mem m !! x = Some f → time g = time f → is_queued g = is_queued f → flow_ok (mtu (output m)) g →
  (freeing m = false → is_state (input g) PPI_STATE_BUSY = is_state (input f) PPI_STATE_BUSY) → fq_core (set_mem (<[x := g]> (mem m)) m) l.
Proof.
  intros [Hm Hf Ho Hs Hp Hb] Ef Hg Hgq Hok Hbz. split; cbn.
  - by eapply mem_ok_insert.
  - intros y k. destruct (decide (y = x)) as [->|Hy]; [|rewrite lookup_insert_ne by done; apply Hf].
    rewrite lookup_insert_eq. by intros [= <-].
  - by destruct Ho; split.
  - intros y Hy. destruct (Hs y Hy) as [Hi Ht]. split; [by eapply idle_insert|].
    intros z Hz. rewrite !(time_of_insert _ x f g) by done. by apply Ht.
  - intros y Hy. eapply idle_insert; eauto.
  - intros y k Hfr. destruct (decide (y = x)) as [->|Hy]; [|rewrite lookup_insert_ne by done; by apply Hb].
    rewrite lookup_insert_eq. intros [= <-]. rewrite Hbz, Hgq by done. by apply Hb.
Qed.

(** ** Scheduling *)
Definition sending_ppi (i : PacketPassInterface) (data : list Z) : PacketPassInterface :=
  mkppi (mtu i) (handler_requestcancel i) true true data (job_requestcancel i) (job_done i) PPI_STATE_OPERATION_PENDING false.

Definition scheduled (x : loc) (f : Flow) (t : T) m : PacketPassFairQueue T :=
  set_sending_len (zlen (queued_data f)) (set_sending (Some x) (set_output (sending_ppi (output m) (queued_data f))
    (set_mem (<[x := set_queued false f]> (mem m)) (set_tree t m)))).

Lemma sending_ppi_ok i data : ppi_ok i → is_state i PPI_STATE_NONE = true → zlen data ≤ mtu i → ppi_ok (sending_ppi i data).
Proof.
  intros [H1 H2 H3 H4] Hn Hd. unfold is_state in *. split; cbn; try done.
  - rewrite H2. by destruct (state i).
  - intros Hc. apply H3 in Hc as [Hc _]. rewrite Hc in Hn. done.
Qed.

Lemma schedule_eq m x l f :
  fq_core m (x :: l) → sending_flow m = None → previous_flow m = None → freeing m = false → is_state (output m) PPI_STATE_NONE = true →
  mem m !! x = Some f → ∃ t, schedule m = Ret (scheduled x f t m) ∧ tree_entries t l ∧ is_queued f = true.
Proof.
  intros Hc Hs Hp Hf Hn Ef. pose proof (q_tree _ _ _ _ (c_mem _ _ Hc)) as Ht.
  destruct (proj1 (q_queued _ _ _ _ (c_mem _ _ Hc) x)) as (f' & Ef' & Hq); [by left|]. assert (f' = f) as -> by congruence.
  destruct (tree_remove _ [] x l Ht) as (t & Er & Ht'). exists t. split; [|done]. unfold schedule. rewrite Hs, Hp, Hf, (tree_is_empty _ _ Ht).
  cbn [assert negb is_null]. rewrite !bind_Ret, (tree_get_first _ _ Ht). cbn [head]. rewrite bind_Ret. cbn [deref]. rewrite bind_Ret, (flow_get_eq x f) by done.
  rewrite bind_Ret, Hq. cbn [assert]. rewrite bind_Ret, Er, bind_Ret, (flow_upd_eq x f) by done. rewrite bind_Ret.
  rewrite (flow_get_eq x (set_queued false f)) by (cbn; apply lookup_insert_eq). rewrite bind_Ret. destruct (c_out _ _ Hc). rewrite Sender_Send_ok; [done|..].
  - cbn. unfold is_state in Hn. by destruct (state (output m)).
  - done.
  - cbn. apply (c_flow _ _ Hc x f Ef).
Qed.

(** Taking the first flow out of the queue. *)
Lemma mem_ok_pop t t' fl h x l f :
  mem_ok t fl h (x :: l) → h !! x = Some f → tree_entries t' l → mem_ok t' fl (<[x := set_queued false f]> h) l.
Proof.
  intros Hm Ef Ht. pose proof (tree_nodup _ _ (q_tree _ _ _ _ Hm)) as Hn. apply NoDup_cons in Hn as [Hx Hn].
  destruct Hm as [_ Hs Hnf Hf Hq Hr]. split; try done.
  - eapply (sorted_by_shift h _ 0); [|by inversion Hs]. intros y _. rewrite (time_of_insert h x f) by done. lia.
  - intros y. rewrite Hf. destruct (decide (y = x)) as [->|Hy]; [rewrite lookup_insert_eq, Ef; done|by rewrite lookup_insert_ne].
  - intros y. destruct (decide (y = x)) as [->|Hy].
    + rewrite lookup_insert_eq. split; [done|]. intros (k & [= <-] & Hk). done.
    + rewrite lookup_insert_ne by done. rewrite <- Hq, elem_of_cons. intuition.
  - intros y k. destruct (decide (y = x)) as [->|Hy]; [|rewrite lookup_insert_ne by done; apply Hr].
    rewrite lookup_insert_eq. intros [= <-]. exact (Hr x f Ef).
Qed.

Lemma scheduled_ok m x l f t :
  fq_core m (x :: l) → sending_flow m = None → previous_flow m = None → freeing m = false → is_state (output m) PPI_STATE_NONE = true →
  schedule_job m = false → mem m !! x = Some f → is_queued f = true → tree_entries t l → fq_ok (scheduled x f t m) l.
Proof.
  intros Hc Hs Hp Hf Hn Hj Ef Hq Ht. pose proof (c_flow _ _ Hc x f Ef) as Hok. split; [|by intros _; unfold phase; cbn].
  pose proof (c_out _ _ Hc) as Ho. split; cbn.
  - eapply mem_ok_pop; [apply Hc|done..].
  - intros y k. destruct (decide (y = x)) as [->|Hy]; [|rewrite lookup_insert_ne by done; apply Hc].
    rewrite lookup_insert_eq. intros [= <-]. by destruct Hok; split.
  - destruct Ho, Hok. split; cbn; try done; [by apply sending_ppi_ok|lia].
  - intros y [= <-]. split; [exists (set_queued false f); by rewrite lookup_insert_eq|]. intros y Hy.
    rewrite !(time_of_insert _ x f) by done. eapply sorted_by_first; [apply Hc|by right].
  - intros y. by rewrite Hp.
  - intros y k _. destruct (decide (y = x)) as [->|Hy].
    + rewrite lookup_insert_eq. intros [= <-]. cbn. rewrite (c_busy _ _ Hc x f Hf Ef), Hq. symmetry. by apply bool_decide_eq_true_2.
    + rewrite lookup_insert_ne by done. intros Ek. rewrite (c_busy _ _ Hc y k Hf Ek), Hs. unfold is_flow. f_equal.
      rewrite !bool_decide_false; congruence.
Qed.

(** ** The current time *)
Definition waiting m (l : list loc) (y : loc) : Prop := y ∈ l ∨ sending_flow m = Some y ∨ previous_flow m = Some y.

Lemma time_of_range h x : time_range h → 0 ≤ time_of h x ≤ FAIRQUEUE_MAX_TIME.
Proof. intros Hr. unfold time_of. destruct (h !! x) eqn:E; [by eapply Hr|done]. Qed.

Lemma current_ok m l :
  fq_core m l → (sending_flow m ≠ None → previous_flow m = None) →
  ∃ c, get_current_time m = Ret c ∧ 0 ≤ c ≤ FAIRQUEUE_MAX_TIME ∧ (∀ y, waiting m l y → c ≤ time_of (mem m) y) ∧
    (∀ x, sending_flow m = Some x → c = time_of (mem m) x).
Proof.
  intros Hc Hp. pose proof (c_mem _ _ Hc) as Hm. pose proof (λ x, time_of_range (mem m) x (q_time _ _ _ _ Hm)) as Hr.
  unfold get_current_time, waiting. destruct (sending_flow m) as [x|] eqn:Es.
  { destruct (c_sending _ _ Hc x Es) as [(f & Ef & _) Ht]. rewrite (flow_get_eq x f), bind_Ret by done. exists (time f). rewrite <- (time_of_eq _ _ _ Ef).
    split; [done|]. split; [apply Hr|]. rewrite Hp by done. split; [|by intros y [= ->]]. intros y [Hy|[[= ->]|[=]]]; [by apply Ht|done]. }
  clear Hp. rewrite (tree_get_first _ l (q_tree _ _ _ _ Hm)), bind_Ret.
  assert (Hl : (match head l with
          | Some x => f ← get x m; _ ← assert (is_queued f); Ret (Some (time f))
          | None => Ret None
          end : outcome (option Z)) = Ret (time_of (mem m) <$> head l)).
  { destruct l as [|x l]; [done|]. cbn [head]. destruct (proj1 (q_queued _ _ _ _ Hm x)) as (f & Ef & Hq); [by left|].
    rewrite (flow_get_eq x f) by done. rewrite bind_Ret, Hq. cbn. by rewrite (time_of_eq _ _ _ Ef). }
  rewrite Hl, bind_Ret. clear Hl.
  assert (Hle : ∀ y, y ∈ l → ∃ x, head l = Some x ∧ time_of (mem m) x ≤ time_of (mem m) y).
  { intros y Hy. destruct l as [|x l]; [by apply elem_of_nil in Hy|]. exists x. split; [done|]. by eapply sorted_by_first; [apply Hm|]. }
  destruct (previous_flow m) as [p|] eqn:Ep.
  - destruct (c_previous _ _ Hc p Ep) as (f & Ef & _). rewrite (flow_get_eq p f) by done. rewrite !bind_Ret, <- (time_of_eq _ _ _ Ef).
    destruct (head l) as [x|] eqn:El; cbn [fmap option_fmap option_map]; [destruct (Z.ltb_spec (time_of (mem m) p) (time_of (mem m) x))|];
      eexists; (split; [reflexivity|]); cbn [default from_option]; (split; [apply Hr|]); (split; [|done]);
      intros y [Hy|[[=]|[= ->]]]; try done; try lia; destruct (Hle y Hy) as (z & E & Hz); simplify_eq; unfold id; lia.
  - eexists. split; [reflexivity|]. destruct (head l) as [x|] eqn:El; cbn; (split; [first [apply Hr|done]|]); (split; [|done]);
      intros y [Hy|[[=]|[=]]]; destruct (Hle y Hy) as (z & E & Hz); by simplify_eq.
Qed.

(** ** Queueing a flow *)
Lemma time_of_insert_ne h x g y : y ≠ x → time_of (<[x := g]> h) y = time_of h y.
Proof. intros Hy. unfold time_of. by rewrite lookup_insert_ne. Qed.

Lemma mem_ok_push t t' fl h l1 l2 x f g :
  mem_ok t fl h (l1 ++ l2) → h !! x = Some f → is_queued f = false → is_queued g = true → 0 ≤ time g ≤ FAIRQUEUE_MAX_TIME →
  tree_entries t' (l1 ++ x :: l2) → sorted_by (compare_flows (<[x := g]> h)) (l1 ++ x :: l2) → mem_ok t' fl (<[x := g]> h) (l1 ++ x :: l2).
Proof.
  intros [_ _ Hn Hf Hq Hr] Ef Hfq Hg Ht Htr Hs. split; try done.
  - intros y. rewrite Hf. destruct (decide (y = x)) as [->|Hy]; [rewrite lookup_insert_eq, Ef; done|by rewrite lookup_insert_ne].
  - intros y. assert (Ey : y ∈ l1 ++ x :: l2 ↔ y = x ∨ y ∈ l1 ++ l2) by set_solver. rewrite Ey. destruct (decide (y = x)) as [->|Hy].
    + rewrite lookup_insert_eq. split; [|by left]. intros _. by exists g.
    + rewrite lookup_insert_ne by done. rewrite <- Hq. intuition.
  - intros y k. destruct (decide (y = x)) as [->|Hy]; [|rewrite lookup_insert_ne by done; apply Hr].
    rewrite lookup_insert_eq. by intros [= <-].
Qed.

Lemma insert_queued m l x f g :
  mem_ok (queued_tree m) (flows_list m) (mem m) l → mem m !! x = Some f → is_queued f = false → 0 ≤ time g ≤ FAIRQUEUE_MAX_TIME →
  ∃ t l1 l2, SAvl_Insert (compare_flows (<[x := g]> (mem m))) x (queued_tree m) = Ret (t, true) ∧ l = l1 ++ l2 ∧
    mem_ok t (flows_list m) (<[x := set_queued true g]> (mem m)) (l1 ++ x :: l2).
Proof.
  intros Hm Ef Hq Hg. assert (Hx : x ∉ l) by (intros Hx; apply (q_queued _ _ _ _ Hm) in Hx as (k & Ek & Hk); congruence).
  destruct (tree_insert (compare_flows (<[x := g]> (mem m))) (queued_tree m) l x) as (t & l1 & l2 & E & -> & Ht & Hs);
    [apply _|apply Hm| |done|].
  { eapply (sorted_by_shift (mem m) _ 0); [|apply Hm]. intros y Hy. rewrite time_of_insert_ne; [lia|]. by intros ->. }
  exists t, l1, l2. split; [done|]. split; [done|]. eapply mem_ok_push; try done.
  eapply (sorted_by_shift (<[x := g]> (mem m)) _ 0); [|done]. intros y _. unfold time_of.
  destruct (decide (y = x)) as [->|Hy]; [rewrite !lookup_insert_eq; cbn; lia|rewrite !lookup_insert_ne by done; lia].
Qed.

(** ** A packet arrives on a flow *)
Definition busy_ppi (i : PacketPassInterface) : PacketPassInterface :=
  mkppi (mtu i) (handler_requestcancel i) (handler_done i) false (job_operation_data i) (job_requestcancel i) (job_done i)
    PPI_STATE_BUSY (cancel_requested i).

Lemma job_operation_ok i : ppi_ok i → job_operation i = true →
  _PacketPassInterface_job_operation i = Ret (busy_ppi i, job_operation_data i) ∧ ppi_ok (busy_ppi i) ∧
  is_state i PPI_STATE_OPERATION_PENDING = true.
Proof.
  intros [H1 H2 H3 H4] Hj. rewrite Hj in H1. unfold _PacketPassInterface_job_operation, is_state in *. cbn. destruct (state i); try done.
  split; [done|]. split; [|done]. split; cbn; try done. intros Hc. by apply H3 in Hc as [? _].
Qed.

Definition arrived (x : loc) (tm : Z) (f : Flow) : Flow :=
  mkflow (handler_busy f) (busy_ppi (input f)) tm true (job_operation_data (input f)).
Definition queued_state (x : loc) (g : Flow) (t : T) m : PacketPassFairQueue T :=
  set_tree t (set_previous (if is_flow x (previous_flow m) then None else previous_flow m) (set_mem (<[x := g]> (mem m)) m)).

Lemma bmax_max a b : bmax_uint64 a b = Z.max a b.
Proof. unfold bmax_uint64. destruct (Z.ltb_spec b a); lia. Qed.

Lemma not_busy m l x f : fq_core m l → freeing m = false → mem m !! x = Some f → is_state (input f) PPI_STATE_BUSY = false →
  is_queued f = false ∧ is_flow x (sending_flow m) = false.
Proof. intros Hc Hf Ef Hb. rewrite (c_busy _ _ Hc x f Hf Ef) in Hb. by apply orb_false_iff in Hb. Qed.

Lemma is_flow_false x p : is_flow x p = false → p ≠ Some x.
Proof. by intros E%bool_decide_eq_false. Qed.

(** The state of [m] with the interface of the flow busy. *)
Lemma current_busy m x g : time g = time_of (mem m) x → is_Some (mem m !! x) → is_queued g = false → idle_flow (mem m) x →
  get_current_time (set_mem (<[x := g]> (mem m)) m) = get_current_time m.
Proof.
  intros Hg [f Ef] Hq (f' & Ef' & Hf'). assert (f' = f) as -> by congruence. rewrite (time_of_eq _ _ _ Ef) in Hg.
  unfold get_current_time. cbn [sending_flow set_mem queued_tree previous_flow].
  assert (E : ∀ y, (k ← get y (set_mem (<[x := g]> (mem m)) m); Ret (time k)) = (k ← get y m; Ret (time k))).
  { intros y. unfold get. cbn. destruct (decide (y = x)) as [->|Hy]; [rewrite lookup_insert_eq, Ef; cbn; congruence|by rewrite lookup_insert_ne]. }
  assert (E' : ∀ y (F : Z → bool → outcome (option Z)), (k ← get y (set_mem (<[x := g]> (mem m)) m); F (time k) (is_queued k)) =
     (k ← get y m; F (time k) (is_queued k))).
  { intros y F. unfold get. cbn. destruct (decide (y = x)) as [->|Hy]; [rewrite lookup_insert_eq, Ef; cbn; congruence|by rewrite lookup_insert_ne]. }
  destruct (sending_flow m) as [y|]; [apply E|]. destruct (SAvl_GetFirst (queued_tree m)) as [[y|]| |]; [|rewrite !bind_Ret|done..].
  - rewrite !bind_Ret, (E' y (λ t q, _ ← assert q; Ret (Some t))). destruct (get y m) as [k| |]; [|done..]. rewrite !bind_Ret.
    destruct (assert (is_queued k)); [|done..]. rewrite !bind_Ret. destruct (previous_flow m) as [z|]; [|done].
    by rewrite (E' z (λ t q, Ret (if t <? time k then Some t else Some (time k)))).
  - destruct (previous_flow m) as [z|]; [|done]. by rewrite (E' z (λ t q, Ret (Some t))).
Qed.

Definition arrival_time m (x : loc) (f : Flow) (c : Z) : Z := if is_flow x (previous_flow m) then time f else Z.max (time f) c.

Lemma input_eq m l x f c :
  fq_core m l → freeing m = false → mem m !! x = Some f → job_operation (input f) = true →
  get_current_time m = Ret c → 0 ≤ c ≤ FAIRQUEUE_MAX_TIME →
  let g := arrived x (arrival_time m x f c) f in
  ∃ t l1 l2, l = l1 ++ l2 ∧ mem_ok t (flows_list m) (<[x := g]> (mem m)) (l1 ++ x :: l2) ∧
    fq_step (QInputJob x) m =
      (if is_null (sending_flow m) && negb (schedule_job m) then schedule (queued_state x g t m) else Ret (queued_state x g t m)).
Proof.
  intros Hc Hf Ef Hj Ec Hcr g. destruct (job_operation_ok (input f)) as (Ej & _ & Hst); [by apply (c_flow _ _ Hc x f)|done|].
  destruct (not_busy m l x f Hc Hf Ef) as [Hq Hs]. { revert Hst. unfold is_state. by destruct (state (input f)). }
  pose proof (c_mem _ _ Hc) as Hm. pose proof (q_time _ _ _ _ Hm x f Ef) as Ht.
  set (f1 := set_input (busy_ppi (input f)) f). set (tm := arrival_time m x f c) in *.
  assert (Htm : 0 ≤ tm ≤ FAIRQUEUE_MAX_TIME) by (unfold tm, arrival_time; destruct (is_flow x (previous_flow m)); lia).
  destruct (insert_queued m l x f (set_data (job_operation_data (input f)) (set_time tm f1))) as (t & l1 & l2 & Ei & -> & Hm'); try done.
  exists t, l1, l2. split; [done|]. split; [done|]. unfold fq_step. rewrite (flow_get_eq x f) by done. rewrite bind_Ret, Ej, bind_Ret.
  cbn beta iota. rewrite (flow_upd_eq x f) by done. rewrite bind_Ret. fold f1. unfold fq_input_handler_send.
  rewrite (flow_get_eq x f1) by (cbn; apply lookup_insert_eq). rewrite bind_Ret. cbn [sending_flow set_mem freeing]. rewrite Hs, Hf.
  change (is_queued f1) with (is_queued f). rewrite Hq. cbn [assert negb]. rewrite !bind_Ret.
  set (m1 := set_mem (<[x := f1]> (mem m)) m).
  assert (E1 : (if is_flow x (previous_flow m1) then Ret (set_previous None m1)
       else t ← get_current_time m1; upd x (set_time (bmax_uint64 (time f1) t)) m1) =
     Ret (set_previous (if is_flow x (previous_flow m) then None else previous_flow m) (set_mem (<[x := set_time tm f1]> (mem m)) m))).
  { unfold tm, arrival_time. cbn [previous_flow m1 set_mem]. destruct (is_flow x (previous_flow m)).
    - unfold m1. destruct f as [hb fi ft fq fd]; done.
    - unfold m1. rewrite current_busy, Ec by (first [by rewrite (time_of_eq _ _ _ Ef)|by eexists|done|by exists f]).
      rewrite bind_Ret, (flow_upd_eq x f1) by (cbn; apply lookup_insert_eq). rewrite bmax_max. cbn [mem set_mem]. by rewrite insert_insert_eq. }
  rewrite E1, bind_Ret. rewrite (flow_upd_eq x (set_time tm f1)) by (cbn; apply lookup_insert_eq). rewrite bind_Ret. cbn [mem set_mem set_previous queued_tree].
  rewrite insert_insert_eq, Ei, bind_Ret. cbn beta iota. cbn [assert]. rewrite bind_Ret.
  rewrite (flow_upd_eq x (set_data (job_operation_data (input f)) (set_time tm f1))) by (cbn; apply lookup_insert_eq). rewrite bind_Ret.
  cbn [mem set_mem set_tree set_previous]. by rewrite insert_insert_eq.
Qed.

Lemma queued_core m l1 l2 x f tm t :
  fq_core m (l1 ++ l2) → freeing m = false → mem m !! x = Some f → job_operation (input f) = true →
  (∀ y, sending_flow m = Some y → time_of (mem m) y ≤ tm) →
  mem_ok t (flows_list m) (<[x := arrived x tm f]> (mem m)) (l1 ++ x :: l2) →
  fq_core (queued_state x (arrived x tm f) t m) (l1 ++ x :: l2).
Proof.
  intros Hc Hf Ef Hj Htm Hm. destruct (job_operation_ok (input f)) as (_ & Hb & Hst); [by apply (c_flow _ _ Hc x f)|done|].
  destruct (not_busy m _ x f Hc Hf Ef) as [Hq Hs]. { revert Hst. unfold is_state. by destruct (state (input f)). }
  pose proof (c_flow _ _ Hc x f Ef) as Hok. split; cbn.
  - done.
  - intros y k. destruct (decide (y = x)) as [->|Hy]; [|rewrite lookup_insert_ne by done; apply Hc].
    rewrite lookup_insert_eq. intros [= <-]. destruct Hok as [Hp Hca Hmt Hd]. split; try done. cbn. rewrite <- Hmt. apply Hp.
  - by destruct (c_out _ _ Hc); split.
  - intros y Hy. assert (y ≠ x) by (intros ->; by apply is_flow_false in Hs). destruct (c_sending _ _ Hc y Hy) as [(k & Ek & Hk) Ht].
    split; [exists k; by rewrite lookup_insert_ne|]. intros z Hz. rewrite (time_of_insert_ne _ x _ y) by done.
    destruct (decide (z = x)) as [->|Hzx].
    + rewrite (time_of_eq _ x (arrived x tm f)) by apply lookup_insert_eq. by apply Htm.
    + rewrite time_of_insert_ne by done. apply Ht. set_solver.
  - intros y. destruct (is_flow x (previous_flow m)) eqn:E; [done|]. intros Hy. destruct (c_previous _ _ Hc y Hy) as (k & Ek & Hk).
    exists k. split; [|done]. rewrite lookup_insert_ne; [done|]. intros ->. by apply is_flow_false in E.
  - intros y k _. destruct (decide (y = x)) as [->|Hy]; [|rewrite lookup_insert_ne by done; by apply Hc].
    rewrite lookup_insert_eq. by intros [= <-].
Qed.

(** What the step does to the times of the flows. *)
Definition same_times m m' : Prop := ∀ y f f', mem m !! y = Some f → mem m' !! y = Some f' → time f' = time f.

Lemma input_ok m l x f :
  fq_ok m l → freeing m = false → mem m !! x = Some f → job_operation (input f) = true →
  ∃ m' l' c, fq_step (QInputJob x) m = Ret m' ∧ fq_ok m' l' ∧ get_current_time m = Ret c ∧ (∀ y, waiting m l y → c ≤ time_of (mem m) y) ∧
    time_of (mem m') x = arrival_time m x f c ∧ ∀ y, y ≠ x → time_of (mem m') y = time_of (mem m) y.
Proof.
  intros [Hc Hp] Hf Ef Hj. specialize (Hp Hf). destruct (current_ok m l) as (c & Ec & Hcr & Hw & Hcs); [done| |].
  { unfold phase in Hp. destruct (sending_flow m); [by intros _; apply Hp|done]. }
  destruct (input_eq m l x f c Hc Hf Ef Hj Ec Hcr) as (t & l1 & l2 & -> & Hm & E). set (tm := arrival_time m x f c) in *.
  assert (Hq : fq_core (queued_state x (arrived x tm f) t m) (l1 ++ x :: l2)).
  { apply queued_core; try done. intros y Hy. rewrite <- (Hcs y Hy). unfold tm, arrival_time, phase in *. rewrite Hy in Hp.
    destruct Hp as (_ & -> & _). unfold is_flow. rewrite bool_decide_false by done. lia. }
  assert (Ht : ∀ k, time k = tm → time_of (<[x := k]> (mem m)) x = tm) by (intros k Hk; by rewrite (time_of_eq _ x k) by apply lookup_insert_eq).
  rewrite E. destruct (is_null (sending_flow m) && negb (schedule_job m)) eqn:Eb.
  - apply andb_true_iff in Eb as [Es Ej]. apply negb_true_iff in Ej. destruct (sending_flow m) eqn:Es'; [done|].
    unfold phase in Hp. rewrite Es' in Hp. destruct Hp as [Ho Hp]. destruct (Hp Ej) as [Hpr Hl].
    destruct l1; [|done]. cbn in Hl. subst l2. cbn [app] in *.
    destruct (schedule_eq (queued_state x (arrived x tm f) t m) x [] (arrived x tm f)) as (t' & Esch & Ht' & Hfq); try done.
    { cbn. by rewrite Hpr; destruct (is_flow x None). } { cbn. apply lookup_insert_eq. }
    rewrite Esch. exists (scheduled x (arrived x tm f) t' (queued_state x (arrived x tm f) t m)), [], c. split; [done|]. split.
    { apply scheduled_ok; try done. { cbn. by rewrite Hpr; destruct (is_flow x None). } cbn. apply lookup_insert_eq. }
    split; [done|]. split; [done|]. cbn [mem scheduled queued_state set_mem set_tree set_previous set_sending_len set_sending set_output].
    rewrite insert_insert_eq. split; [by apply Ht|]. intros y Hy. by apply time_of_insert_ne.
  - exists (queued_state x (arrived x tm f) t m), (l1 ++ x :: l2), c. split; [done|]. split.
    { split; [done|]. intros _. unfold phase in *. cbn. destruct (sending_flow m) eqn:Es'; cbn in *.
      - destruct Hp as (H1 & -> & H2). split_and!; try done.
      - split; [apply Hp|]. intros Hjf. rewrite Hjf in Eb. done. }
    split; [done|]. split; [done|]. cbn [mem queued_state set_mem set_tree set_previous]. split; [by apply Ht|]. intros y Hy. by apply time_of_insert_ne.
Qed.

(** ** The schedule job *)
Lemma core_ctl m l p j : fq_core m l → (∀ x, p = Some x → idle_flow (mem m) x) → fq_core (set_previous p (set_job j m)) l.
Proof. intros [Hm Hf Ho Hs Hp Hb] Hpi. split; try done. by destruct Ho; split. Qed.

Lemma time_of_scheduled m x f t y : mem m !! x = Some f → time_of (mem (scheduled x f t m)) y = time_of (mem m) y.
Proof. intros Ef. cbn. by apply time_of_insert with f. Qed.

Lemma schedule_job_ok m l :
  fq_ok m l → freeing m = false → schedule_job m = true →
  ∃ m' l', schedule_job_handler m = Ret m' ∧ fq_ok m' l' ∧ ∀ y, time_of (mem m') y = time_of (mem m) y.
Proof.
  intros [Hc Hp] Hf Hj. specialize (Hp Hf). unfold phase in Hp. destruct (sending_flow m) eqn:Es; [destruct Hp as (_ & _ & ?); congruence|].
  destruct Hp as [Ho _]. set (m1 := set_previous None (set_job false m)). assert (Hc1 : fq_core m1 l) by (by apply core_ctl).
  unfold schedule_job_handler. cbn [sending_flow set_job freeing]. rewrite Es, Hf. cbn [assert negb is_null]. rewrite !bind_Ret. fold m1.
  rewrite (tree_is_empty _ l (q_tree _ _ _ _ (c_mem _ _ Hc1))). destruct l as [|x l].
  - exists m1, []. split; [done|]. split; [|done]. split; [done|]. intros _. unfold phase, m1. cbn. by rewrite Es.
  - destruct (proj1 (q_queued _ _ _ _ (c_mem _ _ Hc1) x)) as (f & Ef & Hq); [by left|].
    destruct (schedule_eq m1 x l f) as (t & E & Ht & _); try done. exists (scheduled x f t m1), l. split; [done|]. split.
    + by apply scheduled_ok.
    + intros y. by rewrite time_of_scheduled.
Qed.

(** ** A packet was sent *)
Definition done_ppi (i : PacketPassInterface) : PacketPassInterface :=
  mkppi (mtu i) (handler_requestcancel i) (handler_done i) (job_operation i) (job_operation_data i) false true PPI_STATE_DONE_PENDING (cancel_requested i).

Lemma Done_ok i : ppi_ok i → is_state i PPI_STATE_BUSY = true → PacketPassInterface_Done i = Ret (done_ppi i) ∧ ppi_ok (done_ppi i).
Proof.
  intros [H1 H2 H3 H4] Hb. unfold PacketPassInterface_Done. rewrite Hb. split; [done|]. split; cbn; try done. rewrite H1. unfold is_state in *.
  by destruct (state i).
Qed.

Definition idle_ppi (i : PacketPassInterface) : PacketPassInterface :=
  mkppi (mtu i) (handler_requestcancel i) (handler_done i) (job_operation i) (job_operation_data i) (job_requestcancel i) false PPI_STATE_NONE (cancel_requested i).

Lemma job_done_ok i : ppi_ok i → job_done i = true →
  _PacketPassInterface_job_done i = Ret (idle_ppi i) ∧ ppi_ok (idle_ppi i) ∧ is_state i PPI_STATE_DONE_PENDING = true.
Proof.
  intros [H1 H2 H3 H4] Hj. rewrite Hj in H2. unfold _PacketPassInterface_job_done, is_state in *. cbn. destruct (state i); try done.
  split; [done|]. split; [|done]. split; cbn; try done. intros Hc. by apply H3 in Hc as [? _].
Qed.

(** The state after [output_handler_done]. *)
Definition finished (x : loc) (f : Flow) (tm : Z) (h : gmap loc Flow) m : PacketPassFairQueue T :=
  set_job true (set_previous (Some x) (set_sending None (set_output (idle_ppi (output m))
    (set_mem (<[x := mkflow None (done_ppi (input f)) tm (is_queued f) (queued_data f)]> h) m)))).

Lemma mem_ok_sent t fl h l x f s amount :
  mem_ok t fl h l → h !! x = Some f → is_queued f = false → 0 ≤ s → 0 ≤ time f + amount - s ≤ FAIRQUEUE_MAX_TIME →
  (∀ y, y ∈ l → s ≤ time_of h y) → mem_ok t fl (sent_mem s amount x h) l.
Proof.
  intros [Ht Hs Hn Hf Hq Hr] Ef Hfq Hs0 Hx Hle. split; try done.
  - eapply (sorted_by_shift h _ s); [|done]. intros y Hy. specialize (Hle y Hy). unfold time_of in *. rewrite sent_mem_lookup.
    apply Hq in Hy as (g & Eg & Hg). rewrite Eg in *. cbn. unfold sent_time. rewrite bool_decide_false by (intros ->; congruence). lia.
  - intros y. rewrite Hf, sent_mem_lookup. by destruct (h !! y).
  - intros y. rewrite Hq, sent_mem_lookup. split.
    + intros (g & Eg & Hg). rewrite Eg. cbn. by eexists.
    + intros (g & Eg & Hg). destruct (h !! y) as [k|]; [|done]. injection Eg as <-. by exists k.
  - intros y g. rewrite sent_mem_lookup. destruct (h !! y) as [k|] eqn:Ek; [|done]. intros [= <-]. cbn. unfold sent_time.
    pose proof (Hr y k Ek). case_bool_decide; [subst; congruence || (assert (k = f) as -> by congruence; lia)|lia].
Qed.

(** What a sent packet costs its flow. *)
Definition cost m : Z := packet_weight m + sending_len m.

Lemma cost_eq m : out_ok m → u64 (u64 (packet_weight m) + u64 (sending_len m)) = cost m ∧ 0 < cost m ≤ packet_weight m + mtu (output m).
Proof. intros Ho. destruct Ho. unfold cost. rewrite (u64_id (packet_weight m)), (u64_id (sending_len m)), u64_id by lia. lia. Qed.

Lemma sent_fields s amount x f h : h !! x = Some f → sent_mem s amount x h !! x = Some (set_time (time f + amount - s) f).
Proof. intros Ef. rewrite sent_mem_lookup, Ef. cbn. unfold sent_time. by rewrite bool_decide_true. Qed.

Lemma output_eq m l x f :
  fq_ok m l → freeing m = false → job_done (output m) = true → sending_flow m = Some x → mem m !! x = Some f →
  ∃ s, fq_step QOutputDone m = Ret (finished x f (time f + cost m - s) (sent_mem s (cost m) x (mem m)) m) ∧
    0 ≤ s ∧ 0 ≤ time f + cost m - s ≤ FAIRQUEUE_MAX_TIME ∧ (∀ y, y ∈ l → s ≤ time_of (mem m) y) ∧ is_queued f = false.
Proof.
  intros [Hc Hp] Hf Hj Hs Ef. specialize (Hp Hf). unfold phase in Hp. rewrite Hs in Hp. destruct Hp as (_ & Hpr & Hjob).
  destruct (job_done_ok (output m)) as (Ej & _ & _); [apply (c_out _ _ Hc)|done|].
  destruct (c_sending _ _ Hc x Hs) as [(f' & Ef' & Hq) Hle]. assert (f' = f) as -> by congruence. rewrite (time_of_eq _ _ _ Ef) in Hle.
  destruct (cost_eq m (c_out _ _ Hc)) as [Ecost Hcost]. pose proof (o_max _ (c_out _ _ Hc)) as Hmax.
  set (m1 := set_previous (Some x) (set_sending None (set_output (idle_ppi (output m)) m))).
  destruct (increment_ok m1 l x f (cost m)) as (s & Ei & Hs0 & Hr & Hsl); try done; [apply Hc|lia|].
  exists s. split; [|done]. unfold fq_step. rewrite Ej, bind_Ret. unfold fq_output_handler_done.
  cbn [sending_flow set_output previous_flow schedule_job freeing]. rewrite Hs, Hpr, Hjob, Hf. cbn [deref assert negb is_null]. rewrite !bind_Ret.
  rewrite (flow_get_eq x f) by done. rewrite bind_Ret, Hq. cbn [assert negb]. rewrite bind_Ret. fold m1. cbn [packet_weight sending_len m1 set_previous set_sending set_output].
  rewrite Ecost. fold m1. rewrite Ei, bind_Ret. cbn [mem m1 set_previous set_sending set_output].
  pose proof (sent_fields s (cost m) x f (mem m) Ef) as Es. rewrite (flow_get_eq x (set_time (time f + cost m - s) f)) by done. rewrite bind_Ret.
  destruct (Done_ok (input f)) as [Ed _]; [by apply (c_flow _ _ Hc x f)|rewrite (c_busy _ _ Hc x f Hf Ef), Hs, Hq; by apply bool_decide_eq_true_2|].
  cbn [input set_time]. rewrite Ed, bind_Ret. rewrite (flow_upd_eq x (set_time (time f + cost m - s) f)) by done. rewrite bind_Ret.
  cbn [handler_busy set_time]. unfold finished. destruct (handler_busy f) as [hb|] eqn:Eb.
  - rewrite (flow_upd_eq x (set_input (done_ppi (input f)) (set_time (time f + cost m - s) f))) by (cbn; apply lookup_insert_eq).
    cbn. by rewrite insert_insert_eq.
  - cbn. unfold set_input, set_time. cbn. by rewrite Eb.
Qed.

Lemma output_ok m l x f :
  fq_ok m l → freeing m = false → job_done (output m) = true → sending_flow m = Some x → mem m !! x = Some f →
  ∃ m' s, fq_step QOutputDone m = Ret m' ∧ fq_ok m' l ∧ 0 ≤ s ∧ (∀ y, y ∈ l → s ≤ time_of (mem m) y) ∧
    0 ≤ time f + cost m - s ∧ time_of (mem m') x = time f + cost m - s ∧
    (∀ y, y ≠ x → is_Some (mem m !! y) → time_of (mem m') y = Z.max 0 (time_of (mem m) y - s)).
Proof.
  intros Hok Hf Hj Hs Ef. destruct (output_eq m l x f) as (s & E & Hs0 & Hr & Hle & Hq); try done. destruct Hok as [Hc Hp].
  eexists _, s. split; [exact E|]. pose proof (sent_fields s (cost m) x f (mem m) Ef) as Es.
  set (g := mkflow None (done_ppi (input f)) (time f + cost m - s) (is_queued f) (queued_data f)).
  destruct (job_done_ok (output m)) as (_ & Hoi & Ho); [apply (c_out _ _ Hc)|done|].
  split; [split|].
  - assert (Hm : mem_ok (queued_tree m) (flows_list m) (<[x := g]> (sent_mem s (cost m) x (mem m))) l).
    { eapply mem_ok_insert; [|exact Es|done|done]. eapply mem_ok_sent; try done. apply Hc. }
    destruct (Done_ok (input f)) as [_ Hd]; [by apply (c_flow _ _ Hc x f)|rewrite (c_busy _ _ Hc x f Hf Ef), Hs, Hq; by apply bool_decide_eq_true_2|].
    split; cbn; fold g.
    + done.
    + intros y k. destruct (decide (y = x)) as [->|Hy].
      * rewrite lookup_insert_eq. intros [= <-]. destruct (c_flow _ _ Hc x f Ef). by split.
      * rewrite lookup_insert_ne, sent_mem_lookup by done. destruct (mem m !! y) as [j|] eqn:Ey; [|done]. intros [= <-].
        destruct (c_flow _ _ Hc y j Ey). by split.
    + destruct (c_out _ _ Hc). by split.
    + done.
    + intros y [= <-]. exists g. by rewrite lookup_insert_eq.
    + intros y k _. destruct (decide (y = x)) as [->|Hy].
      * rewrite lookup_insert_eq. intros [= <-]. cbn. rewrite Hq. unfold is_flow. by rewrite bool_decide_false.
      * rewrite lookup_insert_ne, sent_mem_lookup by done. destruct (mem m !! y) as [j|] eqn:Ey; [|done]. intros [= <-]. cbn.
        rewrite (c_busy _ _ Hc y j Hf Ey), Hs. f_equal. unfold is_flow. rewrite !bool_decide_false; congruence.
  - intros _. unfold phase. by cbn.
  - split; [done|]. split; [done|]. split; [lia|]. cbn. fold g. split.
    + by rewrite (time_of_eq _ x g) by apply lookup_insert_eq.
    + intros y Hy [k Ek]. rewrite time_of_insert_ne by done. unfold time_of. rewrite sent_mem_lookup, Ek. cbn. unfold sent_time. by rewrite bool_decide_false.
Qed.

(** ** Flows come and go *)
Lemma sorted_sublist cmp (l l' : list loc) : l' `sublist_of` l → sorted_by cmp l → sorted_by cmp l'.
Proof.
  unfold sorted_by. induction 1 as [|x l1 l2 Hs IH|x l1 l2 Hs IH]; [done|..]; intros Hl; inversion Hl as [|? ? Hl2 Hx]; subst; [|by apply IH].
  constructor; [by apply IH|]. apply Forall_forall. intros y Hy. apply (proj1 (Forall_forall _ _) Hx). eapply elem_of_submseteq; [done|]. by apply sublist_submseteq.
Qed.

Lemma remove_flow_elem x y l : y ∈ remove_flow x l ↔ y ∈ l ∧ y ≠ x.
Proof.
  unfold remove_flow. rewrite !list_elem_of_In, filter_In, negb_true_iff, bool_decide_eq_false. done.
Qed.
Lemma remove_flow_nodup x l : NoDup l → NoDup (remove_flow x l).
Proof. rewrite !NoDup_ListNoDup. apply List.NoDup_filter. Qed.

Lemma mem_ok_delete t t' fl h l l' x :
  mem_ok t fl h l → tree_entries t' l' → l' `sublist_of` l → (∀ y, y ∈ l' ↔ y ∈ l ∧ y ≠ x) → mem_ok t' (remove_flow x fl) (delete x h) l'.
Proof.
  intros [_ Hs Hn Hf Hq Hr] Ht Hsub Hl. split; try done.
  - eapply (sorted_by_shift h _ 0); [|by eapply sorted_sublist]. intros y Hy. apply Hl in Hy as [_ Hy]. unfold time_of. rewrite lookup_delete_ne by done. lia.
  - by apply remove_flow_nodup.
  - intros y. rewrite remove_flow_elem, Hf. destruct (decide (y = x)) as [->|Hy].
    + rewrite lookup_delete_eq. split; [by intros [_ ?]|by intros [? ?]].
    + rewrite lookup_delete_ne by done. intuition.
  - intros y. rewrite Hl, Hq. destruct (decide (y = x)) as [->|Hy].
    + rewrite lookup_delete_eq. split; [by intros [_ ?]|by intros (? & ? & _)].
    + rewrite lookup_delete_ne by done. intuition.
  - intros y f. destruct (decide (y = x)) as [->|Hy]; [by rewrite lookup_delete_eq|]. rewrite lookup_delete_ne by done. apply Hr.
Qed.

Lemma tree_drop m l x f :
  fq_core m l → mem m !! x = Some f → ∃ t l', (if is_queued f then t ← SAvl_Remove x (queued_tree m); Ret (set_tree t m) else Ret m) = Ret (set_tree t m) ∧
    tree_entries t l' ∧ l' `sublist_of` l ∧ ∀ y, y ∈ l' ↔ y ∈ l ∧ y ≠ x.
Proof.
  intros Hc Ef. pose proof (c_mem _ _ Hc) as Hm. pose proof (q_tree _ _ _ _ Hm) as Ht. destruct (is_queued f) eqn:Hq.
  - assert (Hx : x ∈ l) by (apply (q_queued _ _ _ _ Hm); by exists f). apply list_elem_of_split in Hx as (l1 & l2 & ->).
    destruct (tree_remove _ l1 x l2 Ht) as (t & E & Ht'). exists t, (l1 ++ l2). rewrite E. split; [done|]. split; [done|].
    split; [by apply sublist_app, sublist_cons|]. pose proof (tree_nodup _ _ Ht) as Hn. apply NoDup_app in Hn as (_ & H1 & H2).
    apply NoDup_cons in H2 as [H2 _]. intros y. rewrite !elem_of_app, elem_of_cons. specialize (H1 x). split; [|intuition]. intros Hy. split; [intuition|].
    intros ->. destruct Hy as [Hy|Hy]; [apply (H1 Hy); by left|done].
  - exists (queued_tree m), l. split; [by destruct m|]. split; [done|]. split; [done|]. intros y. split; [|by intros [? _]]. intros Hy. split; [done|].
    intros ->. apply (q_queued _ _ _ _ Hm) in Hy as (g & Eg & Hg). congruence.
Qed.

Definition forget (x : loc) (p : option loc) : option loc := if is_flow x p then None else p.

Lemma free_ok m l x f :
  fq_ok m l → mem m !! x = Some f → freeing m = true ∨ sending_flow m ≠ Some x →
  ∃ m' l', fq_step (QFlowFree x) m = Ret m' ∧ fq_ok m' l' ∧ mem m' = delete x (mem m) ∧ flows_list m' = remove_flow x (flows_list m).
Proof.
  intros [Hc Hp] Ef Ha. assert (Ea : (freeing m || negb (is_flow x (sending_flow m))) = true).
  { unfold is_flow. destruct Ha as [->|Ha]; [done|]. rewrite bool_decide_false by done. apply orb_true_r. }
  unfold fq_step, PacketPassFairQueueFlow_AssertFree, PacketPassFairQueueFlow_Free. rewrite Ea. cbn [assert]. rewrite bind_Ret, (flow_get_eq x f) by done. rewrite !bind_Ret.
  set (m1 := set_previous (forget x (previous_flow m)) (set_sending (forget x (sending_flow m)) m)).
  assert (E1 : (if is_flow x (previous_flow (if is_flow x (sending_flow m) then set_sending None m else m))
      then set_previous None (if is_flow x (sending_flow m) then set_sending None m else m)
      else (if is_flow x (sending_flow m) then set_sending None m else m)) = m1).
  { unfold m1, forget. destruct m as [? ? ? se ? pr ? ? ? ? ?]. cbn. by destruct (is_flow x se), (is_flow x pr) eqn:E; cbn; rewrite ?E. }
  rewrite E1. destruct (tree_drop m l x f Hc Ef) as (t & l' & Et & Ht & Hsub & Hl).
  assert (Et' : (if is_queued f then t ← SAvl_Remove x (queued_tree m1); Ret (set_tree t m1) else Ret m1) = Ret (set_tree t m1)).
  { destruct (is_queued f); cbn in Et |- *; [destruct (SAvl_Remove x (queued_tree m)); try done|]; apply Ret_inj in Et; cbn;
      [by injection Et as ->|]. f_equal. unfold m1. destruct m; cbn in *. by injection Et as ->. }
  rewrite Et', bind_Ret. cbn [mem set_tree m1 set_previous set_sending flows_list].
  eexists _, l'. split; [reflexivity|]. split; [|done]. split.
  - assert (Hd : ∀ y g, delete x (mem m) !! y = Some g → y ≠ x ∧ mem m !! y = Some g) by (intros y g Hg; by apply lookup_delete_Some in Hg as [? ?]).
    assert (Hfg : ∀ p y, forget x p = Some y → y ≠ x ∧ p = Some y).
    { intros p y. unfold forget, is_flow. case_bool_decide; [done|]. intros ->. split; [congruence|done]. }
    assert (Hid : ∀ y, y ≠ x → idle_flow (mem m) y → idle_flow (delete x (mem m)) y).
    { intros y Hy (g & Eg & Hg). exists g. by rewrite lookup_delete_ne. }
    split; cbn.
    + eapply mem_ok_delete; [apply Hc|done..].
    + intros y g [_ Hg]%Hd. by apply (c_flow _ _ Hc y).
    + by destruct (c_out _ _ Hc); split.
    + intros y [Hy Hs]%Hfg. destruct (c_sending _ _ Hc y Hs) as [Hi Hti]. split; [by apply Hid|]. intros z [Hz Hzx]%Hl.
      unfold time_of. rewrite !lookup_delete_ne by done. by apply Hti.
    + intros y [Hy Hs]%Hfg. by apply Hid, (c_previous _ _ Hc).
    + intros y g Hf [Hy Hg]%Hd. rewrite (c_busy _ _ Hc y g Hf Hg). f_equal. unfold forget, is_flow. repeat case_bool_decide; congruence.
  - cbn. intros Hf. destruct Ha as [Ha|Ha]; [congruence|]. specialize (Hp Hf). unfold phase in *. cbn.
    assert (Hfs : forget x (sending_flow m) = sending_flow m) by (unfold forget, is_flow; by rewrite bool_decide_false).
    rewrite Hfs. destruct (sending_flow m); destruct Hp as [H1 H2]; (split; [done|]).
    + destruct H2 as [-> ->]. unfold forget, is_flow. by rewrite bool_decide_false.
    + intros Hj. destruct (H2 Hj) as [-> ->]. unfold forget, is_flow. rewrite bool_decide_false by done. split; [done|].
      by apply sublist_nil_r.
Qed.

Lemma init_flow_ok m l x :
  fq_ok m l → freeing m = false → mem m !! x = None →
  ∃ m' i, fq_step (QFlowInit x) m = Ret m' ∧ fq_ok m' l ∧ mem m' = <[x := mkflow None i 0 false []]> (mem m) ∧ state i = PPI_STATE_NONE.
Proof.
  intros [Hc Hp] Hf Ex. pose proof (c_out _ _ Hc) as Ho. set (i := mkppi (mtu (output m)) false false false [] false false PPI_STATE_NONE false).
  assert (Ei : PacketPassInterface_Init (PacketPassInterface_GetMTU (output m)) = Ret i).
  { destruct Ho. unfold PacketPassInterface_Init, PacketPassInterface_GetMTU. by rewrite assert_true by lia. }
  unfold fq_step, PacketPassFairQueueFlow_Init. rewrite Hf, Ei. cbn [assert negb]. rewrite !bind_Ret. eexists _, i. split; [reflexivity|].
  destruct (ppi_init_ok _ _ Ei) as (Hi & _). split; [|done].
  set (g := mkflow None i 0 false []). assert (Hne : ∀ y f, mem m !! y = Some f → y ≠ x) by (intros y f Ey ->; congruence).
  assert (Hl : ∀ y, y ∈ l → y ≠ x) by (intros y Hy; apply (q_queued _ _ _ _ (c_mem _ _ Hc)) in Hy as (f & Ey & _); by eapply Hne).
  assert (Hid : ∀ y, idle_flow (mem m) y → idle_flow (<[x := g]> (mem m)) y).
  { intros y (f & Ef & Hq). exists f. rewrite lookup_insert_ne; [done|]. intros <-. by apply (Hne x f). }
  split; [split|]; cbn; fold g.
  - destruct (c_mem _ _ Hc) as [Ht Hs Hn Hfl Hq Hr]. split; try done.
    + eapply (sorted_by_shift (mem m) _ 0); [|done]. intros y Hy. rewrite time_of_insert_ne; [lia|by apply Hl].
    + apply NoDup_app. split; [done|]. split; [|apply NoDup_singleton]. intros y Hy ->%list_elem_of_singleton. apply Hfl in Hy as [f Ef]. congruence.
    + intros y. rewrite elem_of_app, list_elem_of_singleton, Hfl. destruct (decide (y = x)) as [->|Hy].
      * rewrite lookup_insert_eq. split; [by eexists|by right].
      * rewrite lookup_insert_ne by done. intuition.
    + intros y. rewrite Hq. destruct (decide (y = x)) as [->|Hy]; [|by rewrite lookup_insert_ne].
      rewrite lookup_insert_eq, Ex. split; [by intros (? & ? & _)|by intros (? & [= <-] & ?)].
    + intros y f. destruct (decide (y = x)) as [->|Hy]; [rewrite lookup_insert_eq; by intros [= <-]|rewrite lookup_insert_ne by done; apply Hr].
  - intros y f. destruct (decide (y = x)) as [->|Hy]; [|rewrite lookup_insert_ne by done; apply Hc].
    rewrite lookup_insert_eq. intros [= <-]. destruct Ho. by split.
  - by destruct Ho; split.
  - intros y Hy. destruct (c_sending _ _ Hc y Hy) as [Hi' Ht]. split; [by apply Hid|]. intros z Hz. destruct Hi' as (f & Ef & _).
    rewrite !time_of_insert_ne by (first [by apply Hl|by eapply Hne]). by apply Ht.
  - intros y Hy. by apply Hid, (c_previous _ _ Hc).
  - intros y f _. destruct (decide (y = x)) as [->|Hy]; [|rewrite lookup_insert_ne by done; by apply Hc].
    rewrite lookup_insert_eq. intros [= <-]. cbn. symmetry. apply bool_decide_eq_false_2. intros Hs.
    destruct (c_sending _ _ Hc x Hs) as [(f & Ef & _) _]. congruence.
  - done.
Qed.

(** ** The interfaces *)
Lemma core_output m l i :
  fq_core m l → ppi_ok i → mtu i = mtu (output m) → handler_done i = handler_done (output m) →
  handler_requestcancel i = handler_requestcancel (output m) → fq_core (set_output i m) l.
Proof.
  intros [Hm Hf Ho Hs Hp Hb] Hi Hmt Hd Hr. split; try done; cbn.
  - intros y f Ef. rewrite Hmt. by apply (Hf y).
  - destruct Ho. split; cbn; rewrite ?Hmt, ?Hd, ?Hr; done.
Qed.

Lemma ok_output m l i :
  fq_ok m l → ppi_ok i → mtu i = mtu (output m) → handler_done i = handler_done (output m) →
  handler_requestcancel i = handler_requestcancel (output m) → is_state i PPI_STATE_NONE = is_state (output m) PPI_STATE_NONE → fq_ok (set_output i m) l.
Proof.
  intros [Hc Hp] Hi Hmt Hd Hr Hs. split; [by apply core_output|]. intros Hf. specialize (Hp Hf). unfold phase in *. cbn. by rewrite Hs.
Qed.

Lemma ok_input m l x f g :
  fq_ok m l → mem m !! x = Some f → time g = time f → is_queued g = is_queued f → flow_ok (mtu (output m)) g →
  (freeing m = false → is_state (input g) PPI_STATE_BUSY = is_state (input f) PPI_STATE_BUSY) → fq_ok (set_mem (<[x := g]> (mem m)) m) l.
Proof. intros [Hc Hp] Ef Ht Hq Hok Hb. split; [by eapply core_insert|done]. Qed.

(** A cancellation leaves the interface in progress. *)
Lemma cancel_ok i : ppi_ok i → is_state i PPI_STATE_NONE = false → handler_requestcancel i = true →
  ∃ j, PacketPassInterface_Sender_RequestCancel i = Ret j ∧ ppi_ok j ∧ mtu j = mtu i ∧ handler_done j = handler_done i ∧
    handler_requestcancel j = handler_requestcancel i ∧ is_state j PPI_STATE_NONE = false.
Proof.
  destruct i as [mt rc hd jo d jr jd s c]. intros [H1 H2 H3 H4] Hn Hr. unfold is_state in *. cbn in *. subst rc jo jd. unfold PacketPassInterface_Sender_RequestCancel.
  destruct s, c; cbn in *; try done; (eexists; split; [reflexivity|]); cbn; (split; [|done]); split; cbn; try done; intros Hj; apply H3 in Hj; naive_solver.
Qed.

Lemma canceljob_ok i : ppi_ok i → job_requestcancel i = true →
  ∃ j, _PacketPassInterface_job_requestcancel i = Ret j ∧ ppi_ok j ∧ mtu j = mtu i ∧ handler_done j = handler_done i ∧
    handler_requestcancel j = handler_requestcancel i ∧ is_state j PPI_STATE_NONE = is_state i PPI_STATE_NONE.
Proof.
  destruct i as [mt rc hd jo d jr jd s c]. intros [H1 H2 H3 H4] Hj. unfold is_state in *. cbn in *. destruct (H3 Hj) as (-> & -> & ->). subst jo jd jr.
  eexists. split; [reflexivity|]. split; [|done]. by split.
Qed.

Lemma of_flow_inv P x m : of_flow P x m → ∃ f, mem m !! x = Some f ∧ P f.
Proof. unfold of_flow. destruct (mem m !! x); [eauto|done]. Qed.

(** The steps that only touch interfaces, handlers or the freeing flag. *)
Lemma minor_step_ok m l op :
  fq_ok m l → fq_allowed op m →
  match op with QAttach _ | QPrepareFree | QSend _ _ | QInputDone _ | QOutputJob | QOutputFinish | QCancelJob | QCancel _ | QSetBusy _ _ => True | _ => False end →
  ∃ m', fq_step op m = Ret m' ∧ fq_ok m' l ∧ ∀ y, time_of (mem m') y = time_of (mem m) y.
Proof.
  intros Hok Ha Hop. pose proof Hok as [Hc Hp]. pose proof (c_out _ _ Hc) as Ho.
  destruct op as [x|x|x| |x data|x|x| | | | | |x|x hb]; try done; cbn [fq_allowed] in Ha.
  - destruct Ha as [Hf (f & Ef & Hd)%of_flow_inv]. unfold fq_step. rewrite (flow_get_eq x f), bind_Ret by done.
    unfold PacketPassInterface_Sender_Init. rewrite Hd. cbn [assert negb]. rewrite !bind_Ret, (flow_upd_eq x f) by done. eexists. split; [reflexivity|].
    split; [|intros y; by apply time_of_insert with f]. eapply ok_input; try done. destruct (c_flow _ _ Hc x f Ef) as [[H1 H2 H3 H4] ? ? ?]. split; [by split|done..].
  - eexists. split; [reflexivity|]. split; [|done]. split; [|done]. destruct Hc as [Hm Hf Ho' Hs Hpr Hb]. split; try done. by destruct Ho; split.
  - destruct Ha as [Hf (f & Ef & Hn & Hd & Hl)%of_flow_inv]. destruct (c_flow _ _ Hc x f Ef) as [Hi Hcc Hmt Hdl]. unfold fq_step.
    rewrite (flow_get_eq x f), bind_Ret, Sender_Send_ok, bind_Ret, (flow_upd_eq x f) by done. eexists. split; [reflexivity|].
    assert (Hns : is_state (input f) PPI_STATE_NONE = true) by (unfold is_state; by rewrite Hn).
    split; [|intros y; by apply time_of_insert with f]. eapply ok_input; try done.
    + split; [exact (sending_ppi_ok (input f) data Hi Hns Hl)|done..].
    + intros _. unfold is_state. cbn. by rewrite Hn.
  - destruct Ha as [Hf (f & Ef & Hj)%of_flow_inv]. destruct (c_flow _ _ Hc x f Ef) as [Hi Hcc Hmt Hdl]. unfold fq_step.
    destruct (job_done_ok (input f) Hi Hj) as (Ej & Hi' & Hst). rewrite (flow_get_eq x f), bind_Ret, Ej, bind_Ret, (flow_upd_eq x f) by done.
    eexists. split; [reflexivity|]. split; [|intros y; by apply time_of_insert with f]. eapply ok_input; try done.
    intros _. revert Hst. unfold is_state. cbn. by destruct (state (input f)).
  - destruct Ha as [Hf Hj]. destruct (job_operation_ok (output m) (o_ppi _ Ho) Hj) as (Ej & Hi & Hst). unfold fq_step. rewrite Ej, bind_Ret. eexists.
    split; [reflexivity|]. split; [|done]. eapply ok_output; try done. revert Hst. unfold is_state. cbn. by destruct (state (output m)).
  - destruct Ha as [Hf Hb]. assert (Hst : is_state (output m) PPI_STATE_BUSY = true) by (unfold is_state; by rewrite Hb).
    destruct (Done_ok (output m) (o_ppi _ Ho) Hst) as (Ej & Hi). unfold fq_step. rewrite Ej, bind_Ret. eexists.
    split; [reflexivity|]. split; [|done]. eapply ok_output; try done. unfold is_state. by rewrite Hb.
  - destruct Ha as [Hf Hj]. destruct (canceljob_ok (output m) (o_ppi _ Ho) Hj) as (i & Ej & Hi & H1 & H2 & H3 & H4). unfold fq_step. rewrite Ej, bind_Ret.
    eexists. split; [reflexivity|]. split; [|done]. by eapply ok_output.
  - destruct Ha as (Hf & Hu & Hs). specialize (Hp Hf). unfold phase in Hp. rewrite Hs in Hp. destruct Hp as (Hst & _ & Hj).
    destruct (cancel_ok (output m) (o_ppi _ Ho) Hst (o_cancel _ Ho Hu)) as (i & Ej & Hi & H1 & H2 & H3 & H4).
    unfold fq_step, PacketPassFairQueueFlow_RequestCancel, is_flow. rewrite Hs, bool_decide_true, Hu, Hf, Hj by done. cbn [assert negb]. rewrite !bind_Ret, Ej, bind_Ret.
    eexists. split; [reflexivity|]. split; [|done]. eapply ok_output; try done. congruence.
  - destruct Ha as [Hf Hs]. destruct (c_sending _ _ Hc x Hs) as [(f & Ef & _) _]. unfold fq_step, PacketPassFairQueueFlow_SetBusyHandler, is_flow.
    rewrite Hs, bool_decide_true, Hf by done. cbn [assert negb]. rewrite !bind_Ret, (flow_upd_eq x f) by done. eexists. split; [reflexivity|].
    split; [|intros y; by apply time_of_insert with f]. eapply ok_input; try done. destruct (c_flow _ _ Hc x f Ef). by split.
Qed.

Lemma sending_mem m l : fq_ok m l → freeing m = false → job_done (output m) = true → ∃ x f, sending_flow m = Some x ∧ mem m !! x = Some f.
Proof.
  intros [Hc Hp] Hf Hj. specialize (Hp Hf). unfold phase in Hp. destruct (sending_flow m) as [x|] eqn:Es.
  - destruct (c_sending _ _ Hc x Es) as [(f & Ef & _) _]. by exists x, f.
  - destruct Hp as [Hp _]. rewrite (ppi_done _ (o_ppi _ (c_out _ _ Hc))) in Hj. revert Hp Hj. unfold is_state. by destruct (state (output m)).
Qed.

Lemma step_ok m l op : fq_ok m l → fq_allowed op m → ∃ m' l', fq_step op m = Ret m' ∧ fq_ok m' l'.
Proof.
  intros Hok Ha.
  assert (Hminor : (∃ m', fq_step op m = Ret m' ∧ fq_ok m' l ∧ ∀ y, time_of (mem m') y = time_of (mem m) y) → ∃ m' l', fq_step op m = Ret m' ∧ fq_ok m' l').
  { intros (m' & E & H' & _). by exists m', l. }
  destruct op as [x|x|x| |x data|x|x| | | | | |x|x hb]; try (apply Hminor, minor_step_ok; done); cbn [fq_allowed] in Ha.
  - destruct Ha as [Hf Ex]. destruct (init_flow_ok m l x Hok Hf Ex) as (m' & i & E & H' & _). by exists m', l.
  - destruct Ha as [(f & Ef & _)%of_flow_inv Ha]. destruct (free_ok m l x f Hok Ef Ha) as (m' & l' & E & H' & _). by exists m', l'.
  - destruct Ha as [Hf (f & Ef & Hj)%of_flow_inv]. destruct (input_ok m l x f Hok Hf Ef Hj) as (m' & l' & c & E & H' & _). by exists m', l'.
  - destruct Ha as [Hf Hj]. destruct (sending_mem m l Hok Hf Hj) as (x & f & Hs & Ef).
    destruct (output_ok m l x f Hok Hf Hj Hs Ef) as (m' & s & E & H' & _). by exists m', l.
  - destruct Ha as [Hf Hj]. destruct (schedule_job_ok m l Hok Hf Hj) as (m' & l' & E & H' & _). by exists m', l'.
Qed.
End safe.
