(* ===== verification/FairQueueFair.v ===== *)
(** * The fair queue of badvpn: safety and fairness

    What the queue of [FairQueue] guarantees on every run: its assertions hold,
    and a flow that has packets to send is never served less than another one,
    up to the size of a packet. *)
From S2P Require Import Prelude AvlTree BavlSpec PacketPassInterface SAvl FairQueue FairQueueSafe.
From stdpp Require Import gmap sorting.
#[local] Open Scope Z_scope.
#[local] Set Warnings "-clear-no-such-hyp".

Section fair.
Context {T : Type} `{SAvlSpec T}.
Implicit Types (m : PacketPassFairQueue T) (h : gmap loc Flow).

(** ** Runs *)
(** Every sequence of allowed operations; [Fault] when an assertion fails. *)
Inductive fq_run : PacketPassFairQueue T → list fq_op → outcome (PacketPassFairQueue T) → Prop :=
| fq_stop m : fq_run m [] (Ret m)
| fq_next m op ops m' r : fq_allowed op m → fq_step op m = Ret m' → fq_run m' ops r → fq_run m (op :: ops) r
| fq_fail m op ops : fq_allowed op m → (∀ m', fq_step op m ≠ Ret m') → fq_run m (op :: ops) Fault.

(** An interface that has no user yet; the parameters are C ints. *)
Definition fresh_output (out : PacketPassInterface) : Prop := ∃ mt cancel, 0 ≤ mt < 2 ^ 31 ∧
  out = mkppi mt cancel false false [] false false PPI_STATE_NONE false.

Lemma init_ok out uc weight r :
  fresh_output out → 0 < weight < 2 ^ 31 → PacketPassFairQueue_Init out uc weight = Ret r →
  ∃ m, r = Some m ∧ fq_ok m [] ∧ packet_weight m = weight ∧ mtu (output m) = mtu out.
Proof.
  intros (mt & cancel & Hmt & ->) Hw. unfold PacketPassFairQueue_Init, PacketPassInterface_GetMTU, PacketPassInterface_HasCancel. cbn [mtu handler_requestcancel].
  rewrite (assert_true (0 <? weight)) by lia. rewrite bind_Ret. rewrite (u64_id mt), (u64_id weight), (u64_id (_ - mt)) by (unfold FAIRQUEUE_MAX_TIME; lia).
  assert (Hb : (mt <=? FAIRQUEUE_MAX_TIME) && (weight <=? FAIRQUEUE_MAX_TIME - mt) = true).
  { rewrite andb_true_iff, !Z.leb_le. unfold FAIRQUEUE_MAX_TIME. lia. }
  rewrite Hb. cbn [negb].
  destruct (negb uc || cancel) eqn:Eu; [|done]. cbn. intros [= <-]. eexists. split; [reflexivity|]. split; [|done].
  split; [|by intros _; unfold phase]. split; cbn; try done.
  - split; try done; [apply tree_init|by constructor|by constructor|..]; intros x.
    + split; [by intros ?%elem_of_nil|]. by intros [? ?].
    + split; [by intros ?%elem_of_nil|]. by intros (? & ? & _).
  - split; cbn; [by split; cbn; first [done|lia]|done|lia|lia|unfold FAIRQUEUE_MAX_TIME; lia|intros ->; by destruct cancel|lia].
Qed.

Lemma fq_run_ok m l ops r : fq_run m ops r → fq_ok m l → ∃ m' l', r = Ret m' ∧ fq_ok m' l'.
Proof.
  intros Hr. revert l. induction Hr as [m|m op ops m' r Ha E Hr IH|m op ops Ha E]; intros l Hok.
  - by exists m, l.
  - destruct (step_ok m l op Hok Ha) as (m1 & l1 & E1 & H1). rewrite E in E1. injection E1 as <-. by eapply IH.
  - destruct (step_ok m l op Hok Ha) as (m1 & l1 & E1 & H1). by destruct (E m1).
Qed.

(** ** Fairness *)
(** A flow has a packet to send: it is queued, or being sent, or was sent last
    and may send its next packet before the schedule job runs. *)
Definition backlogged (g : loc) m : Prop :=
  (∃ k, mem m !! g = Some k ∧ is_queued k = true) ∨ sending_flow m = Some g ∨ previous_flow m = Some g.

Lemma backlogged_waiting g m l : fq_core m l → backlogged g m → waiting m l g ∧ is_Some (mem m !! g).
Proof.
  intros Hc [(k & Ek & Hk)|[Hs|Hp]]; (split; [unfold waiting|]).
  - left. apply (q_queued _ _ _ _ (c_mem _ _ Hc)). by exists k.
  - by eexists.
  - by right; left.
  - destruct (c_sending _ _ Hc g Hs) as [(k & Ek & _) _]. by eexists.
  - by right; right.
  - destruct (c_previous _ _ Hc g Hp) as (k & Ek & _). by eexists.
Qed.

(** What the step gives to a flow: the cost of the packet that was sent. *)
Definition service (x : loc) (op : fq_op) m : Z :=
  match op with QOutputDone => if is_flow x (sending_flow m) then cost m else 0 | _ => 0 end.

(** How far the time of [f] is ahead of that of [g]. *)
Definition lead (f g : loc) m : Z := time_of (mem m) f - time_of (mem m) g.
(** The largest cost of a packet. *)
Definition max_cost m : Z := packet_weight m + mtu (output m).

Definition fair_step_prop (f g : loc) (op : fq_op) m m' : Prop :=
  lead f g m + service f op m - service g op m ≤ lead f g m' ≤ Z.max (lead f g m) (max_cost m) ∧ is_Some (mem m' !! f).

Lemma fair_same f g op m m' :
  out_ok m → service f op m = 0 → service g op m = 0 → time_of (mem m') f = time_of (mem m) f → time_of (mem m') g = time_of (mem m) g →
  is_Some (mem m' !! f) → fair_step_prop f g op m m'.
Proof. intros Ho E1 E2 Ef Eg Hf. unfold fair_step_prop, lead. rewrite E1, E2, Ef, Eg. destruct Ho. unfold max_cost. split; [lia|done]. Qed.

Lemma fair_output m m' l x k f g s :
  fq_core m l → sending_flow m = Some x → mem m !! x = Some k → f ≠ g → is_Some (mem m !! f) → is_Some (mem m !! g) →
  (g ≠ x → g ∈ l) → 0 ≤ s → (∀ y, y ∈ l → s ≤ time_of (mem m) y) →
  0 ≤ time k + cost m - s → time_of (mem m') x = time k + cost m - s →
  (∀ y, y ≠ x → is_Some (mem m !! y) → time_of (mem m') y = Z.max 0 (time_of (mem m) y - s)) →
  is_Some (mem m' !! f) → fair_step_prop f g QOutputDone m m'.
Proof.
  intros Hc Hs Ek Hfg Hf Hg Hgl Hs0 Hsl Hnn Hx Hy Hf'. split; [|done]. unfold lead, service, max_cost. rewrite Hs. unfold is_flow.
  destruct (cost_eq m (c_out _ _ Hc)) as [_ Hcost]. destruct (c_sending _ _ Hc x Hs) as [_ Hle]. pose proof (time_of_eq _ _ _ Ek) as Hk.
  pose proof (time_of_range _ f (q_time _ _ _ _ (c_mem _ _ Hc))). pose proof (time_of_range _ g (q_time _ _ _ _ (c_mem _ _ Hc))).
  destruct (decide (x = f)) as [->|Hxf].
  - rewrite bool_decide_true, bool_decide_false by congruence. specialize (Hgl (not_eq_sym Hfg)). specialize (Hsl g Hgl). specialize (Hle g Hgl).
    rewrite Hx, (Hy g) by done. lia.
  - rewrite (bool_decide_false (Some x = Some f)), (Hy f) by congruence. destruct (decide (x = g)) as [->|Hxg].
    + rewrite bool_decide_true, Hx by done. lia.
    + rewrite bool_decide_false, (Hy g) by congruence. specialize (Hsl g (Hgl (not_eq_sym Hxg))). lia.
Qed.

(** ** What stays *)
Definition keep m m' : Prop :=
  packet_weight m' = packet_weight m ∧ mtu (output m') = mtu (output m) ∧ use_cancel m' = use_cancel m ∧ ∀ x, is_Some (mem m !! x) → is_Some (mem m' !! x).

Lemma keep_refl m : keep m m.
Proof. done. Qed.
Lemma keep_trans m1 m2 m3 : keep m1 m2 → keep m2 m3 → keep m1 m3.
Proof. intros (E1 & E2 & E3 & E4) (E5 & E6 & E7 & E8). split_and!; [congruence..|eauto]. Qed.
Lemma keep_insert x f m : keep m (set_mem (<[x := f]> (mem m)) m).
Proof. split_and!; try done. intros y Hy. cbn. destruct (decide (y = x)) as [->|?]; [by rewrite lookup_insert_eq|by rewrite lookup_insert_ne]. Qed.
Lemma keep_upd x g m m' : upd x g m = Ret m' → keep m m'.
Proof. unfold upd. intros E. inv_binds. subst. apply keep_insert. Qed.
Lemma keep_output i m : mtu i = mtu (output m) → keep m (set_output i m).
Proof. done. Qed.

Lemma send_mtu i d j : PacketPassInterface_Sender_Send i d = Ret j → mtu j = mtu i.
Proof. unfold PacketPassInterface_Sender_Send. intros E. inv_binds. by subst. Qed.
Lemma done_mtu i j : PacketPassInterface_Done i = Ret j → mtu j = mtu i.
Proof. unfold PacketPassInterface_Done. intros E. inv_binds. by subst. Qed.
Lemma cancel_mtu i j : PacketPassInterface_Sender_RequestCancel i = Ret j → mtu j = mtu i.
Proof. unfold PacketPassInterface_Sender_RequestCancel. intros E. inv_binds. repeat case_match; inv_binds; by subst. Qed.
Lemma operation_mtu i j d : _PacketPassInterface_job_operation i = Ret (j, d) → mtu j = mtu i.
Proof. unfold _PacketPassInterface_job_operation. intros E. inv_binds. by subst. Qed.
Lemma jobdone_mtu i j : _PacketPassInterface_job_done i = Ret j → mtu j = mtu i.
Proof. unfold _PacketPassInterface_job_done. intros E. inv_binds. by subst. Qed.
Lemma jobcancel_mtu i j : _PacketPassInterface_job_requestcancel i = Ret j → mtu j = mtu i.
Proof. unfold _PacketPassInterface_job_requestcancel. intros E. inv_binds. by subst. Qed.

Lemma keep_subtract s flow l m m' : subtract_time s flow l m = Ret m' → keep m m'.
Proof.
  revert m. induction l as [|x l IH]; intros m E; cbn in E; [injection E as <-; apply keep_refl|]. inv_binds.
  apply IH in E. eapply keep_trans; [|done]. case_match; inv_binds; by eapply keep_upd.
Qed.

Lemma keep_increment flow a m m' : increment_sent_flow flow a m = Ret m' → keep m m'.
Proof.
  unfold increment_sent_flow. intros E. inv_binds. apply keep_upd in E. eapply keep_trans; [|done].
  case_match; inv_binds; [by eapply keep_subtract|by subst].
Qed.

Lemma keep_schedule m m' : schedule m = Ret m' → keep m m'.
Proof.
  unfold schedule. intros E. inv_binds. subst. repeat match goal with H : upd _ _ _ = Ret _ |- _ => apply keep_upd in H end.
  eapply keep_trans; [eassumption|]. by eapply (keep_output _ _), send_mtu.
Qed.

Lemma keep_job m m' : schedule_job_handler m = Ret m' → keep m m'.
Proof. unfold schedule_job_handler. intros E. inv_binds. case_match; inv_binds; [by subst|by apply keep_schedule in E]. Qed.

(** Chain the changes of the context. *)
Ltac keep_chain :=
  repeat match goal with
  | H : upd _ _ _ = Ret _ |- _ => apply keep_upd in H
  | H : schedule _ = Ret _ |- _ => apply keep_schedule in H
  | H : increment_sent_flow _ _ _ = Ret _ |- _ => apply keep_increment in H
  end; unfold keep in *; cbn in *; destruct_and?; split_and!; [congruence..|eauto 10].

Lemma keep_input x d m m' : fq_input_handler_send x d m = Ret m' → keep m m'.
Proof. unfold fq_input_handler_send. intros E. inv_binds. repeat (case_match; inv_binds); subst; keep_chain. Qed.

Lemma keep_done m m' r : fq_output_handler_done m = Ret (m', r) → keep m m'.
Proof. unfold fq_output_handler_done. intros E. inv_binds. repeat (case_match; inv_binds); subst; keep_chain. Qed.

Lemma keep_step op m m' : fq_step op m = Ret m' → (∀ x, op ≠ QFlowFree x) → keep m m'.
Proof.
  intros E Hop. destruct op as [x|x|x| |x data|x|x| | | | | |x|x hb]; unfold fq_step in E; inv_binds.
  - unfold PacketPassFairQueueFlow_Init in E. inv_binds. subst. apply keep_insert.
  - by apply keep_upd in E.
  - by destruct (Hop x).
  - subst. done.
  - by apply keep_upd in E.
  - repeat (case_match; inv_binds). apply keep_input in E. apply keep_upd in Hv1. by eapply keep_trans.
  - by apply keep_upd in E.
  - case_match. inv_binds. subst. by eapply keep_output, operation_mtu.
  - subst. by eapply keep_output, done_mtu.
  - case_match. inv_binds. subst. apply keep_done in Hv0. eapply keep_trans; [|done]. by eapply keep_output, jobdone_mtu.
  - subst. by eapply keep_output, jobcancel_mtu.
  - by apply keep_job.
  - unfold PacketPassFairQueueFlow_RequestCancel in E. inv_binds. subst. by eapply keep_output, cancel_mtu.
  - unfold PacketPassFairQueueFlow_SetBusyHandler in E. inv_binds. by apply keep_upd in E.
Qed.

Lemma params_free x m m' : PacketPassFairQueueFlow_Free x m = Ret m' → max_cost m' = max_cost m ∧ use_cancel m' = use_cancel m.
Proof.
  unfold PacketPassFairQueueFlow_Free. intros E. inv_binds. subst. unfold max_cost. cbn.
  destruct (is_queued v), (is_flow x (sending_flow m)); inv_binds; subst; cbn; by destruct (is_flow x (previous_flow m)).
Qed.

Lemma params_step op m m' : fq_step op m = Ret m' → max_cost m' = max_cost m ∧ use_cancel m' = use_cancel m.
Proof.
  intros E. assert (Hop : (∀ x, op ≠ QFlowFree x) ∨ ∃ x, op = QFlowFree x) by (destruct op; eauto; left; done).
  destruct Hop as [Hx|[x ->]].
  - destruct (keep_step op m m' E Hx) as (E1 & E2 & E3 & _). unfold max_cost. split; congruence.
  - unfold fq_step in E. inv_binds. by eapply params_free.
Qed.

Lemma run_params m ops m' : fq_run m ops (Ret m') → max_cost m' = max_cost m ∧ use_cancel m' = use_cancel m.
Proof.
  intros Hr. remember (Ret m') as r eqn:Er. induction Hr as [m|m op ops m1 r Ha E Hr IH|]; [by injection Er as <-| |done].
  destruct (IH Er) as [-> ->]. by eapply params_step.
Qed.

Lemma fair_step m l op m' f g :
  fq_ok m l → fq_allowed op m → fq_step op m = Ret m' → f ≠ g → is_Some (mem m !! f) → backlogged g m →
  op ≠ QFlowFree f → op ≠ QFlowFree g → fair_step_prop f g op m m'.
Proof.
  intros Hok Ha E Hfg Hf Hg Hnf Hng. pose proof Hok as [Hc Hp]. pose proof (c_out _ _ Hc) as Ho.
  destruct (backlogged_waiting g m l Hc Hg) as [Hw Hgm].
  assert (Hkeep : (∀ x, op ≠ QFlowFree x) → is_Some (mem m' !! f)) by (intros Hx; by apply (keep_step op m m' E Hx)).
  assert (Hminor : (∃ m1, fq_step op m = Ret m1 ∧ fq_ok m1 l ∧ ∀ y, time_of (mem m1) y = time_of (mem m) y) → (∀ x, op ≠ QFlowFree x) → op ≠ QOutputDone →
    fair_step_prop f g op m m').
  { intros (m1 & E1 & _ & Ht) Hx Hd. rewrite E in E1. injection E1 as <-. apply fair_same; try done; [by destruct op..|by apply Hkeep]. }
  destruct op as [x|x|x| |x data|x|x| | | | | |x|x hb]; try (apply Hminor; [by apply minor_step_ok|done|done]); cbn [fq_allowed] in Ha.
  - destruct Ha as [Hfr Ex]. destruct (init_flow_ok m l x Hok Hfr Ex) as (m1 & i & E1 & _ & Em & _). rewrite E in E1. injection E1 as <-.
    apply fair_same; try done; [rewrite Em; apply time_of_insert_ne; intros ->..|by apply Hkeep]; rewrite Ex in *; by destruct Hf, Hgm.
  - destruct Ha as [(k & Ek & _)%of_flow_inv Ha]. destruct (free_ok m l x k Hok Ek Ha) as (m1 & l1 & E1 & _ & Em & _). rewrite E in E1. injection E1 as <-.
    apply fair_same; try done; rewrite Em; unfold time_of; rewrite lookup_delete_ne by congruence; done.
  - destruct Ha as [Hfr (k & Ek & Hj)%of_flow_inv]. destruct (input_ok m l x k Hok Hfr Ek Hj) as (m1 & l1 & c & E1 & _ & Ec & Hcw & Hx & Hy).
    rewrite E in E1. injection E1 as <-. split; [|by apply Hkeep]. unfold lead, service, max_cost. specialize (Hcw g Hw).
    pose proof (time_of_eq _ _ _ Ek) as Hk. destruct Ho. unfold arrival_time in Hx.
    destruct (decide (f = x)) as [->|Hfx]; [rewrite Hx, (Hy g) by done; destruct (is_flow x (previous_flow m)); lia|].
    rewrite (Hy f) by done. destruct (decide (g = x)) as [->|Hgx]; [|rewrite (Hy g) by done; lia].
    rewrite Hx. destruct (is_flow x (previous_flow m)); lia.
  - destruct Ha as [Hfr Hj]. destruct (sending_mem m l Hok Hfr Hj) as (x & k & Hs & Ek).
    destruct (output_ok m l x k Hok Hfr Hj Hs Ek) as (m1 & s & E1 & _ & Hs0 & Hsl & Hnn & Hx & Hy). rewrite E in E1. injection E1 as <-.
    apply (fair_output m m' l x k f g s); try done; [|by apply Hkeep]. intros Hgx. specialize (Hp Hfr). unfold phase in Hp. rewrite Hs in Hp. destruct Hp as (_ & Hpr & _).
    destruct Hw as [Hw|[Hw|Hw]]; [done|congruence..].
  - destruct Ha as [Hfr Hj]. destruct (schedule_job_ok m l Hok Hfr Hj) as (m1 & l1 & E1 & _ & Ht). cbn [fq_step] in E. rewrite E in E1. injection E1 as <-.
    apply fair_same; try done. by apply Hkeep.
Qed.

(** A part of a run in which [g] is always backlogged and neither [f] nor [g] is
    freed; what the two flows were served. *)
Inductive contention (f g : loc) : PacketPassFairQueue T → PacketPassFairQueue T → Z → Z → Prop :=
| con_stop m : contention f g m m 0 0
| con_next m op m1 m2 wf wg :
    backlogged g m → fq_allowed op m → op ≠ QFlowFree f → op ≠ QFlowFree g → fq_step op m = Ret m1 →
    contention f g m1 m2 wf wg → contention f g m m2 (service f op m + wf) (service g op m + wg).

Lemma contention_ok f g m m' wf wg l :
  contention f g m m' wf wg → f ≠ g → fq_ok m l → is_Some (mem m !! f) →
  lead f g m + wf - wg ≤ lead f g m' ≤ Z.max (lead f g m) (max_cost m).
Proof.
  intros Hr Hfg. revert l. induction Hr as [m|m op m1 m2 wf wg Hb Ha Hnf Hng E Hr IH]; intros l Hok Hf; [lia|].
  destruct (fair_step m l op m1 f g Hok Ha E Hfg Hf Hb Hnf Hng) as [H1 H2]. destruct (step_ok m l op Hok Ha) as (m3 & l1 & E3 & H3).
  rewrite E in E3. injection E3 as <-. specialize (IH l1 H3 H2).
  destruct (params_step op m m1 E) as [Em _]. rewrite Em in IH. lia.
Qed.

(** However calls, packets and jobs are interleaved, no assertion of the fair
    queue or of the interfaces of its flows and output fails, the insertions in
    its tree included.  In every state that is reached, unless the queue is being
    freed: the flow being sent has the least time of all that wait; the output is
    idle only if no flow is queued or the job that sends the next one is set.
    Once all flows are freed, the queue can be freed. *)
Theorem fairqueue_safe out uc weight m ops r :
  fresh_output out → 0 < weight < 2 ^ 31 → PacketPassFairQueue_Init out uc weight = Ret (Some m) → fq_run m ops r →
  ∃ m', r = Ret m' ∧
    (∀ x y f k, sending_flow m' = Some x → mem m' !! x = Some f → mem m' !! y = Some k → is_queued k = true → time f ≤ time k) ∧
    (freeing m' = false → ∀ y k, mem m' !! y = Some k → is_queued k = true → sending_flow m' ≠ None ∨ schedule_job m' = true) ∧
    (flows_list m' = [] → PacketPassFairQueue_Free m' = Ret tt).
Proof.
  intros Ho Hw E Hr. destruct (init_ok out uc weight _ Ho Hw E) as (m0 & [= <-] & Hok & _).
  destruct (fq_run_ok m [] ops r Hr Hok) as (m' & l & -> & [Hc Hp]). exists m'. split; [done|]. split_and!.
  - intros x y f k Hs Ef Ek Hk. destruct (c_sending _ _ Hc x Hs) as [_ Hle]. destruct (queued_time _ _ _ _ y k (c_mem _ _ Hc) Ek Hk) as [Hy <-].
    rewrite <- (time_of_eq _ _ _ Ef). by apply Hle.
  - intros Hf y k Ek Hk. specialize (Hp Hf). unfold phase in Hp. destruct (sending_flow m'); [by left|right]. destruct (schedule_job m'); [done|].
    destruct Hp as [_ Hp]. destruct (Hp eq_refl) as [_ ->]. destruct (queued_time _ _ _ _ y k (c_mem _ _ Hc) Ek Hk) as [Hy _]. by apply elem_of_nil in Hy.
  - intros Hfl. assert (Hn : ∀ y, mem m' !! y = None).
    { intros y. destruct (mem m' !! y) eqn:Ey; [|done]. assert (Hy : y ∈ flows_list m') by (apply (q_flows _ _ _ _ (c_mem _ _ Hc)); by eexists).
      rewrite Hfl in Hy. by apply elem_of_nil in Hy. }
    assert (Hid : ∀ y, ¬ idle_flow (mem m') y) by (intros y (k & Ek & _); by rewrite Hn in Ek).
    unfold PacketPassFairQueue_Free. rewrite Hfl, bool_decide_true by done. rewrite (tree_is_empty _ l (q_tree _ _ _ _ (c_mem _ _ Hc))).
    destruct l as [|y l]; [|destruct (proj1 (q_queued _ _ _ _ (c_mem _ _ Hc) y)) as (k & Ek & _); [by left|by rewrite Hn in Ek]].
    destruct (previous_flow m') as [p|] eqn:Ep; [destruct (Hid p); by apply (c_previous _ _ Hc)|].
    destruct (sending_flow m') as [x|] eqn:Es; [destruct (Hid x); by apply (c_sending _ _ Hc)|done].
Qed.

(** C22: a flow with packets to send gets its share.  Take any part of a run in
    which the flow [g] always has a packet queued, being sent or just sent; then
    no other flow [f] is served more than [g] is, beyond the cost of one packet
    of the largest size and beyond what [f] had been behind [g] at its start.
    In particular [f] cannot be served for ever while [g] waits.  The service is
    counted in bytes plus the weight of each packet, over any length of time:
    the times of the flows are 64-bit and wrap around in between. *)
Theorem fairqueue_fair_share out uc weight m ops m1 f g m2 wf wg :
  fresh_output out → 0 < weight < 2 ^ 31 → PacketPassFairQueue_Init out uc weight = Ret (Some m) → fq_run m ops (Ret m1) →
  f ≠ g → is_Some (mem m1 !! f) → contention f g m1 m2 wf wg →
  wf - wg ≤ Z.max 0 (weight + mtu out + (time_of (mem m1) g - time_of (mem m1) f)).
Proof.
  intros Ho Hw E Hr Hfg Hf Hcon. destruct (init_ok out uc weight _ Ho Hw E) as (m0 & [= <-] & Hok & Hwm & Hmt).
  destruct (fq_run_ok m [] ops _ Hr Hok) as (m' & l & [= <-] & Hok1).
  assert (Hm : max_cost m1 = weight + mtu out).
  { rewrite <- Hmt, <- Hwm. change (packet_weight m + mtu (output m)) with (max_cost m). by eapply run_params. }
  pose proof (contention_ok f g m1 m2 wf wg l Hcon Hfg Hok1 Hf) as Hl. rewrite Hm in Hl. unfold lead in Hl. lia.
Qed.
End fair.
