(* ===== verification/FairQueueLog.v ===== *)
(** * The fair queue of badvpn: its packets

    Every packet given to a flow is handed to the output, once and in order. *)
From S2P Require Import Prelude AvlTree BavlSpec PacketPassInterface SAvl FairQueue FairQueueSafe FairQueueFair.
From stdpp Require Import gmap sorting.
#[local] Open Scope Z_scope.
#[local] Set Warnings "-clear-no-such-hyp".

Section log.
Context {T : Type} `{SAvlSpec T}.
Implicit Types (m : PacketPassFairQueue T) (h : gmap loc Flow).

(** The packets given to each flow since it was initialised, and those of the
    flow that the output was called with. *)
Record flow_log := mkfl { given : list (list Z); handed : list (list Z) }.
Implicit Types (lg : gmap loc flow_log).

Definition log_step (op : fq_op) m lg : gmap loc flow_log :=
  match op with
  | QFlowInit x => <[x := mkfl [] []]> lg
  | QSend x data => alter (λ g, mkfl (given g ++ [data]) (handed g)) x lg
  | QOutputJob =>
      match sending_flow m with
      | Some x => alter (λ g, mkfl (given g) (handed g ++ [job_operation_data (output m)])) x lg
      | None => lg
      end
  | _ => lg
  end.

(** The packet of a flow on its way: with the interface of the flow, in the
    queue, or with the interface of the output. *)
Definition in_queue m (x : loc) (f : Flow) : list (list Z) :=
  if job_operation (input f) then [job_operation_data (input f)]
  else if is_queued f then [queued_data f]
  else if is_flow x (sending_flow m) && job_operation (output m) then [job_operation_data (output m)] else [].

Definition log_ok m lg : Prop :=
  ∀ x f, mem m !! x = Some f → ∃ g, lg !! x = Some g ∧ given g = handed g ++ in_queue m x f.

(** A step that logs nothing and keeps what is on its way. *)
Lemma log_keep m m' lg :
  log_ok m lg → (∀ x f', mem m' !! x = Some f' → ∃ f, mem m !! x = Some f ∧ in_queue m' x f' = in_queue m x f) → log_ok m' lg.
Proof. intros Hl Hs x f' Ef'. destruct (Hs x f' Ef') as (f & Ef & ->). by apply Hl. Qed.

(** A change of one flow. *)
Lemma log_insert m lg x f f' :
  log_ok m lg → mem m !! x = Some f → in_queue m x f' = in_queue m x f → log_ok (set_mem (<[x := f']> (mem m)) m) lg.
Proof.
  intros Hl Ef Hq. apply (log_keep m); [done|]. intros y k. cbn. destruct (decide (y = x)) as [->|Hy].
  - rewrite lookup_insert_eq. intros [= <-]. by exists f.
  - rewrite lookup_insert_ne by done. intros Ek. by exists k.
Qed.

Lemma in_queue_ctl m m' x f : sending_flow m' = sending_flow m → job_operation (output m') = job_operation (output m) →
  job_operation_data (output m') = job_operation_data (output m) → in_queue m' x f = in_queue m x f.
Proof. unfold in_queue. by intros -> -> ->. Qed.

Lemma busy_operation i : ppi_ok i → is_state i PPI_STATE_OPERATION_PENDING = false → job_operation i = false.
Proof. intros [H1 _ _ _]. congruence. Qed.

(** A flow that is scheduled keeps its packet. *)
Lemma in_queue_scheduled m x f t y k : 
  job_operation (input f) = false → is_queued f = true → sending_flow m = None → mem m !! x = Some f →
  mem (scheduled x f t m) !! y = Some k → ∃ k', mem m !! y = Some k' ∧ in_queue (scheduled x f t m) y k = in_queue m y k'.
Proof.
  intros Hj Hq Hs Ef. cbn. destruct (decide (y = x)) as [->|Hy].
  - rewrite lookup_insert_eq. intros [= <-]. exists f. split; [done|]. unfold in_queue, is_flow. cbn. rewrite Hj, Hq.
    by rewrite bool_decide_true.
  - rewrite lookup_insert_ne by done. intros Ek. exists k. split; [done|]. unfold in_queue, is_flow. cbn. rewrite Hs.
    by rewrite !bool_decide_false by congruence.
Qed.

Lemma log_schedule m m' l lg :
  log_ok m lg → fq_core m l → l ≠ [] → sending_flow m = None → previous_flow m = None → freeing m = false → is_state (output m) PPI_STATE_NONE = true →
  schedule m = Ret m' → log_ok m' lg.
Proof.
  intros Hl Hc Hne Hs Hp Hf Hn E. destruct l as [|x l]; [done|]. destruct (proj1 (q_queued _ _ _ _ (c_mem _ _ Hc) x)) as (f & Ef & Hq); [by left|].
  destruct (schedule_eq m x l f) as (t & E' & _); try done. rewrite E in E'. injection E' as ->. apply (log_keep m); [done|].
  intros y k. apply in_queue_scheduled; try done. apply busy_operation; [by apply (c_flow _ _ Hc x)|].
  pose proof (c_busy _ _ Hc x f Hf Ef) as Hb. rewrite Hq in Hb. revert Hb. unfold is_state. by destruct (state (input f)).
Qed.

Lemma log_input m m' l lg x :
  fq_ok m l → log_ok m lg → fq_allowed (QInputJob x) m → fq_step (QInputJob x) m = Ret m' → log_ok m' lg.
Proof.
  intros [Hc Hp] Hl [Hf (f & Ef & Hj)%of_flow_inv] E. specialize (Hp Hf). destruct (current_ok m l) as (c & Ec & Hcr & Hw & Hcs); [done| |].
  { unfold phase in Hp. destruct (sending_flow m); [by intros _; apply Hp|done]. }
  destruct (input_eq m l x f c Hc Hf Ef Hj Ec Hcr) as (t & l1 & l2 & -> & Hm & E'). set (tm := arrival_time m x f c) in *.
  assert (Hq : log_ok (queued_state x (arrived x tm f) t m) lg).
  { apply (log_keep (set_mem (<[x := arrived x tm f]> (mem m)) m)).
    - apply (log_insert m lg x f); [done..|]. unfold in_queue. cbn. by rewrite Hj.
    - intros y k Ek. exists k. split; [done|]. by apply in_queue_ctl. }
  rewrite E' in E. destruct (is_null (sending_flow m) && negb (schedule_job m)) eqn:Eb; [|by injection E as <-].
  apply andb_true_iff in Eb as [Es Ej]. apply negb_true_iff in Ej. unfold phase in Hp. destruct (sending_flow m) eqn:Es'; [done|].
  destruct Hp as [Ho Hp]. destruct (Hp Ej) as [Hpr _]. eapply (log_schedule _ m' (l1 ++ x :: l2)); try done.
  - apply queued_core; try done. intros y Hy. congruence.
  - by destruct l1.
  - cbn. rewrite Hpr. by destruct (is_flow x None).
Qed.

(** The flow of an interface that is not busy has no packet further on. *)
Lemma in_queue_idle m l x f : fq_core m l → freeing m = false → mem m !! x = Some f → is_state (input f) PPI_STATE_BUSY = false →
  in_queue m x f = if job_operation (input f) then [job_operation_data (input f)] else [].
Proof. intros Hc Hf Ef Hb. unfold in_queue. destruct (not_busy m l x f Hc Hf Ef Hb) as [-> ->]. by destruct (job_operation (input f)). Qed.

Lemma log_send m m' l lg x data :
  fq_ok m l → log_ok m lg → fq_allowed (QSend x data) m → fq_step (QSend x data) m = Ret m' → log_ok m' (log_step (QSend x data) m lg).
Proof.
  intros [Hc _] Hl [Hf (f & Ef & Hn & Hd & Hlen)%of_flow_inv] E. cbn [fq_step] in E.
  rewrite (flow_get_eq x f), bind_Ret, Sender_Send_ok, bind_Ret, (flow_upd_eq x f) in E by done. injection E as <-.
  intros y k. cbn. destruct (decide (y = x)) as [->|Hy].
  - rewrite lookup_insert_eq. intros [= <-]. destruct (Hl x f Ef) as (g & Eg & Hg). rewrite lookup_alter_eq, Eg. eexists. split; [done|].
    cbn. unfold in_queue. cbn. rewrite Hg. rewrite (in_queue_idle m l x f) by (try done; unfold is_state; by rewrite Hn).
    rewrite busy_operation by (first [by apply (c_flow _ _ Hc x f)|unfold is_state; by rewrite Hn]). by rewrite app_nil_r.
  - rewrite lookup_insert_ne, lookup_alter_ne by done. apply Hl.
Qed.

Lemma log_operation m m' l lg :
  fq_ok m l → log_ok m lg → fq_allowed QOutputJob m → fq_step QOutputJob m = Ret m' → log_ok m' (log_step QOutputJob m lg).
Proof.
  intros [Hc Hp] Hl [Hf Hj] E. destruct (job_operation_ok (output m) (o_ppi _ (c_out _ _ Hc)) Hj) as (Ej & _ & Hst). cbn [fq_step] in E.
  rewrite Ej, bind_Ret in E. injection E as <-. specialize (Hp Hf). unfold phase in Hp. cbn [log_step]. destruct (sending_flow m) as [x|] eqn:Es.
  2: { destruct Hp as [Hp _]. revert Hp Hst. unfold is_state. by destruct (state (output m)). }
  destruct (c_sending _ _ Hc x Es) as [(f & Ef & Hq) _].
  intros y k Ek. cbn in Ek. destruct (Hl y k Ek) as (g & Eg & Hg). unfold in_queue in *. rewrite Es, Hj in Hg. cbn. rewrite Es, andb_false_r.
  destruct (decide (y = x)) as [->|Hy].
  - assert (k = f) as -> by congruence. rewrite Hq in *. unfold is_flow in Hg. rewrite bool_decide_true in Hg by done. cbn in Hg.
    assert (Hb : job_operation (input f) = false).
    { apply busy_operation; [by apply (c_flow _ _ Hc x)|]. pose proof (c_busy _ _ Hc x f Hf Ef) as Hb. rewrite Hq, Es in Hb. unfold is_flow in Hb.
      rewrite bool_decide_true in Hb by done. revert Hb. unfold is_state. by destruct (state (input f)). }
    rewrite Hb in *. rewrite lookup_alter_eq, Eg. eexists. split; [done|]. cbn. by rewrite app_nil_r.
  - rewrite lookup_alter_ne by done. exists g. split; [done|]. unfold is_flow in Hg. rewrite bool_decide_false in Hg by congruence. done.
Qed.

Lemma log_done m m' l lg :
  fq_ok m l → log_ok m lg → fq_allowed QOutputDone m → fq_step QOutputDone m = Ret m' → log_ok m' lg.
Proof.
  intros Hok Hl [Hf Hj] E. pose proof Hok as [Hc _]. destruct (sending_mem m l Hok Hf Hj) as (x & f & Hs & Ef).
  destruct (output_eq m l x f Hok Hf Hj Hs Ef) as (s & E' & _ & _ & _ & Hq). rewrite E in E'. injection E' as ->. clear E.
  assert (Ho : job_operation (output m) = false).
  { pose proof (c_out _ _ Hc) as Ho. apply busy_operation; [apply Ho|]. pose proof (ppi_done _ (o_ppi _ Ho)) as Hd. rewrite Hj in Hd. revert Hd. unfold is_state. by destruct (state (output m)). }
  apply (log_keep m); [done|]. intros y k. cbn. destruct (decide (y = x)) as [->|Hy].
  - rewrite lookup_insert_eq. intros [= <-]. exists f. split; [done|]. unfold in_queue. cbn. by rewrite Hq, Ho, !andb_false_r.
  - rewrite lookup_insert_ne, sent_mem_lookup by done. destruct (mem m !! y) as [j|]; [|done]. intros [= <-]. exists j. split; [done|].
    unfold in_queue. cbn. by rewrite Ho, !andb_false_r.
Qed.

Lemma log_free m m' l lg x :
  fq_ok m l → log_ok m lg → fq_allowed (QFlowFree x) m → fq_step (QFlowFree x) m = Ret m' → log_ok m' lg.
Proof.
  intros Hok Hl [(f & Ef & _)%of_flow_inv Ha] E. destruct (free_ok m l x f Hok Ef Ha) as (m1 & l1 & E1 & _ & Em & _). rewrite E in E1. injection E1 as <-.
  assert (Ho : output m' = output m ∧ sending_flow m' = forget x (sending_flow m)).
  { cbn [fq_step] in E. unfold PacketPassFairQueueFlow_Free in E. inv_binds. subst. destruct (is_queued v0); inv_binds; subst; cbn; unfold forget;
      destruct (is_flow x (sending_flow m)), (is_flow x (previous_flow m)) eqn:E3; cbn; rewrite ?E3; done. }
  apply (log_keep m); [done|]. rewrite Em. intros y k [Hy Ek]%lookup_delete_Some. exists k. split; [done|]. unfold in_queue. destruct Ho as [-> ->].
  assert (Hfl : is_flow y (forget x (sending_flow m)) = is_flow y (sending_flow m)) by (unfold forget, is_flow; repeat case_bool_decide; congruence).
  by rewrite Hfl.
Qed.

Lemma log_minor m m' l lg op :
  fq_ok m l → log_ok m lg → fq_allowed op m → use_cancel m = false →
  match op with QAttach _ | QPrepareFree | QInputDone _ | QOutputFinish | QCancelJob | QCancel _ | QSetBusy _ _ => True | _ => False end →
  fq_step op m = Ret m' → log_ok m' lg.
Proof.
  intros [Hc Hp] Hl Ha Hu Hop E. pose proof (c_out _ _ Hc) as Ho.
  destruct op as [x|x|x| |x data|x|x| | | | | |x|x hb]; try done; cbn [fq_allowed] in Ha; cbn [fq_step] in E.
  - destruct Ha as [Hf (f & Ef & Hd)%of_flow_inv]. rewrite (flow_get_eq x f), bind_Ret in E by done. unfold PacketPassInterface_Sender_Init in E. inv_binds.
    rewrite (flow_upd_eq x f) in E by done. inv_binds. subst. by eapply log_insert.
  - injection E as <-. by apply (log_keep m); [|eauto].
  - destruct Ha as [Hf (f & Ef & Hj)%of_flow_inv]. destruct (job_done_ok (input f)) as (Ej & _ & _); [by apply (c_flow _ _ Hc x)|done|].
    rewrite (flow_get_eq x f), bind_Ret, Ej, bind_Ret, (flow_upd_eq x f) in E by done. injection E as <-. by eapply log_insert.
  - unfold PacketPassInterface_Done in E. inv_binds. subst. by apply (log_keep m); [|eauto].
  - unfold _PacketPassInterface_job_requestcancel in E. inv_binds. subst. by apply (log_keep m); [|eauto].
  - destruct Ha as (_ & ? & _). congruence.
  - unfold PacketPassFairQueueFlow_SetBusyHandler in E. inv_binds. destruct Ha as [Hf Hs]. destruct (c_sending _ _ Hc x Hs) as [(f & Ef & _) _].
    rewrite (flow_upd_eq x f) in E by done. injection E as <-. by eapply log_insert.
Qed.

Lemma log_init m m' l lg x :
  fq_ok m l → log_ok m lg → fq_allowed (QFlowInit x) m → fq_step (QFlowInit x) m = Ret m' → log_ok m' (log_step (QFlowInit x) m lg).
Proof.
  intros Hok Hl [Hf Ex] E. destruct (init_flow_ok m l x Hok Hf Ex) as (m1 & i & E1 & [Hc1 _] & Em & Hi). rewrite E in E1. injection E1 as <-.
  assert (Ho : output m' = output m ∧ sending_flow m' = sending_flow m).
  { cbn [fq_step] in E. unfold PacketPassFairQueueFlow_Init in E. inv_binds. by subst. }
  pose proof (c_flow _ _ Hc1 x (mkflow None i 0 false [])) as Hx. rewrite Em, lookup_insert_eq in Hx. specialize (Hx eq_refl).
  assert (Hs : is_flow x (sending_flow m) = false).
  { apply bool_decide_eq_false_2. intros Hs. destruct Hok as [Hc _]. destruct (c_sending _ _ Hc x Hs) as [(f & Ef & _) _]. congruence. }
  intros y k. rewrite Em. cbn [log_step]. destruct (decide (y = x)) as [->|Hy].
  - rewrite !lookup_insert_eq. intros [= <-]. eexists. split; [done|]. unfold in_queue. destruct Ho as [_ ->]. rewrite Hs.
    cbn. rewrite (busy_operation i); [done|apply Hx|]. unfold is_state. by rewrite Hi.
  - rewrite !lookup_insert_ne by done. intros Ek. destruct (Hl y k Ek) as (g & Eg & Hg). exists g. split; [done|]. rewrite Hg. f_equal.
    destruct Ho as [Ho Hs']. symmetry. apply in_queue_ctl; congruence.
Qed.

Lemma log_job m m' l lg : fq_ok m l → log_ok m lg → fq_allowed QScheduleJob m → fq_step QScheduleJob m = Ret m' → log_ok m' lg.
Proof.
  intros [Hc Hp] Hl [Hf Hj] E. specialize (Hp Hf). unfold phase in Hp. destruct (sending_flow m) eqn:Es; [destruct Hp as (_ & _ & ?); congruence|].
  cbn [fq_step] in E. unfold schedule_job_handler in E. inv_binds. set (m1 := set_previous None (set_job false m)) in *.
  assert (Hc1 : fq_core m1 l) by (by apply core_ctl). assert (Hl1 : log_ok m1 lg) by (apply (log_keep m); [done|]; intros y k Ek; by exists k).
  rewrite (tree_is_empty _ l (q_tree _ _ _ _ (c_mem _ _ Hc1))) in E. destruct l as [|x l]; [by injection E as <-|].
  by eapply (log_schedule m1 m' (x :: l)); try done; destruct Hp.
Qed.

Lemma log_step_ok m m' l lg op :
  fq_ok m l → log_ok m lg → use_cancel m = false → fq_allowed op m → fq_step op m = Ret m' → log_ok m' (log_step op m lg).
Proof.
  intros Hok Hl Hu Ha E. destruct op as [x|x|x| |x data|x|x| | | | | |x|x hb];
    [by eapply log_init|by eapply log_minor|by eapply log_free|by eapply log_minor|by eapply log_send|by eapply log_input|by eapply log_minor
    |by eapply log_operation|by eapply log_minor|by eapply log_done|by eapply log_minor|by eapply log_job|by eapply log_minor|by eapply log_minor].
Qed.

(** A run with its log. *)
Inductive logged_run : PacketPassFairQueue T → gmap loc flow_log → PacketPassFairQueue T → gmap loc flow_log → Prop :=
| lr_stop m lg : logged_run m lg m lg
| lr_next m lg op m1 m2 lg2 : fq_allowed op m → fq_step op m = Ret m1 → logged_run m1 (log_step op m lg) m2 lg2 → logged_run m lg m2 lg2.

Lemma logged_ok m lg m' lg' l : logged_run m lg m' lg' → fq_ok m l → log_ok m lg → use_cancel m = false → log_ok m' lg' ∧ ∃ l', fq_ok m' l'.
Proof.
  intros Hr. revert l. induction Hr as [m lg|m lg op m1 m2 lg2 Ha E Hr IH]; intros l Hok Hl Hu; [eauto|].
  destruct (step_ok m l op Hok Ha) as (m3 & l1 & E3 & Hok1). rewrite E in E3. injection E3 as <-.
  apply (IH l1); [done|by eapply log_step_ok|]. by destruct (params_step op m m1 E) as [_ ->].
Qed.

(** C23: the queue loses, duplicates and reorders nothing: without cancellation,
    the packets given to a flow are those that the output was called with for
    it, in the same order, followed by the one packet that may be on its way,
    with the interface of the flow, in the queue or with the output.  When the
    interface of the flow is ready for the next packet, all were handed over. *)
Theorem fairqueue_delivers out weight m m' lg x f :
  fresh_output out → 0 < weight < 2 ^ 31 → PacketPassFairQueue_Init out false weight = Ret (Some m) → logged_run m ∅ m' lg →
  mem m' !! x = Some f →
  ∃ g, lg !! x = Some g ∧ given g = handed g ++ in_queue m' x f ∧
    (freeing m' = false → state (input f) = PPI_STATE_NONE → handed g = given g).
Proof.
  intros Ho Hw E Hr Ef. destruct (init_ok out false weight _ Ho Hw E) as (m0 & [= <-] & Hok & _).
  assert (Hi : log_ok m ∅ ∧ use_cancel m = false).
  { unfold PacketPassFairQueue_Init in E. inv_binds. case_match; inv_binds; [done|]. subst m. split; [|done]. intros y k Ek. cbn in Ek. by rewrite lookup_empty in Ek. }
  destruct (logged_ok m ∅ m' lg [] Hr Hok (proj1 Hi) (proj2 Hi)) as [Hl (l & Hc & _)]. destruct (Hl x f Ef) as (g & Eg & Hg). exists g. split; [done|].
  split; [done|]. intros Hf Hn. rewrite Hg, (in_queue_idle m' l x f) by (try done; unfold is_state; by rewrite Hn).
  rewrite busy_operation by (first [by apply (c_flow _ _ Hc x f)|unfold is_state; by rewrite Hn]). by rewrite app_nil_r.
Qed.
End log.
