(* ===== verification/FairQueueDemo.v ===== *)
(** * The fair queue of badvpn on its tree

    Runs of the fair queue with the AVL tree of [CAvl], on which the theorems of
    [FairQueueFair] and [FairQueueLog] are applied. *)
From S2P Require Import Prelude AvlTree Bavl BavlSpec PacketPassInterface SAvl CAvl FairQueue FairQueueSafe FairQueueFair FairQueueLog.
From stdpp Require Import gmap.
#[local] Open Scope Z_scope.

Definition demo_output : PacketPassInterface := mkppi 100 false false false [] false false PPI_STATE_NONE false.
Definition demo_queue : PacketPassFairQueue (BAVL loc) :=
  mkq (mkppi 100 false true false [] false false PPI_STATE_NONE false) false 1 None 0 None SAvl_Init [] false false ∅.

(** Two flows with their users. *)
Definition demo_start : list fq_op := [QFlowInit 7; QAttach 7; QFlowInit 4; QAttach 4; QFlowInit 9; QAttach 9].
(** All flows send; the packets of the first two are sent. *)
Definition demo_traffic : list fq_op :=
  [QSend 7 [1; 2; 3; 4; 5]; QInputJob 7; QSend 4 [6]; QSend 9 [7; 8]; QInputJob 9; QInputJob 4; QOutputJob; QOutputFinish; QOutputDone;
   QInputDone 7; QSend 7 [9]; QInputJob 7; QScheduleJob; QOutputJob; QOutputFinish; QOutputDone; QInputDone 4; QScheduleJob].
(** The queue is freed. *)
Definition demo_end : list fq_op := [QPrepareFree; QFlowFree 9; QFlowFree 7; QFlowFree 4].

Fixpoint exec (ops : list fq_op) (m : PacketPassFairQueue (BAVL loc)) : outcome (PacketPassFairQueue (BAVL loc)) :=
  match ops with [] => Ret m | op :: ops => m ← fq_step op m; exec ops m end.
Fixpoint allowed_all (ops : list fq_op) (m : PacketPassFairQueue (BAVL loc)) : Prop :=
  match ops with [] => True | op :: ops => fq_allowed op m ∧ match fq_step op m with Ret m' => allowed_all ops m' | _ => False end end.

Lemma exec_run ops m m' : allowed_all ops m → exec ops m = Ret m' → fq_run m ops (Ret m').
Proof.
  revert m. induction ops as [|op ops IH]; intros m Ha E; cbn in *; [injection E as ->; constructor|].
  destruct Ha as [Ha Hr]. destruct (fq_step op m) as [m1| |] eqn:E1; [|done..]. rewrite bind_Ret in E. econstructor; [done..|]. by apply IH.
Qed.

(** The final state of an execution that returns. *)
Definition final (ops : list fq_op) (m : PacketPassFairQueue (BAVL loc)) : PacketPassFairQueue (BAVL loc) :=
  match exec ops m with Ret m' => m' | _ => m end.

Ltac decide_run := vm_compute; repeat split; try discriminate; try (left; reflexivity); try (intros ?; discriminate).

Lemma demo_fresh : fresh_output demo_output.
Proof. exists 100, false. split; [lia|done]. Qed.

Lemma fairqueue_safe_witness :
  (∃ m', fq_run demo_queue (demo_start ++ demo_traffic ++ demo_end) (Ret m') ∧ PacketPassFairQueue_Free m' = Ret tt) ∧
  sending_flow (final (demo_start ++ demo_traffic) demo_queue) = Some 9%positive.
Proof.
  split; [|vm_compute; reflexivity].
  assert (Hr : fq_run demo_queue (demo_start ++ demo_traffic ++ demo_end) (Ret (final (demo_start ++ demo_traffic ++ demo_end) demo_queue))).
  { apply exec_run; [decide_run|vm_compute; reflexivity]. }
  destruct (fairqueue_safe demo_output false 1 demo_queue _ _ demo_fresh ltac:(lia) eq_refl Hr) as (m' & E & _ & _ & Hf).
  exists (final (demo_start ++ demo_traffic ++ demo_end) demo_queue). split; [exact Hr|]. apply Ret_inj in E. rewrite E. apply Hf. rewrite <- E. vm_compute. reflexivity.
Defined.

(** What a flow is served by an execution; a part of a run as a list. *)
Fixpoint served (x : loc) (ops : list fq_op) (m : PacketPassFairQueue (BAVL loc)) : Z :=
  match ops with [] => 0 | op :: ops => service x op m + match fq_step op m with Ret m' => served x ops m' | _ => 0 end end.
Fixpoint contended (f g : loc) (ops : list fq_op) (m : PacketPassFairQueue (BAVL loc)) : Prop :=
  match ops with
  | [] => True
  | op :: ops => backlogged g m ∧ fq_allowed op m ∧ op ≠ QFlowFree f ∧ op ≠ QFlowFree g ∧
                 match fq_step op m with Ret m' => contended f g ops m' | _ => False end
  end.

Lemma exec_contention f g ops m m' : contended f g ops m → exec ops m = Ret m' → contention f g m m' (served f ops m) (served g ops m).
Proof.
  revert m. induction ops as [|op ops IH]; intros m Ha E; cbn in *; [injection E as ->; constructor|].
  destruct Ha as (Hb & Ha & Hf & Hg & Hr). destruct (fq_step op m) as [m1| |] eqn:E1; [|done..]. rewrite bind_Ret in E.
  econstructor; [done..|]. by apply IH.
Qed.

Definition demo_before : list fq_op := demo_start ++ take 6 demo_traffic.
Definition demo_after : list fq_op := drop 6 demo_traffic.
Definition demo_mid : PacketPassFairQueue (BAVL loc) := final demo_before demo_queue.

(** Flow 9 waits all the time; flow 7 is served 6, its packet of 5 bytes. *)
Lemma fairqueue_fair_share_witness :
  served 7 demo_after demo_mid = 6 ∧ served 9 demo_after demo_mid = 0 ∧ served 7 demo_after demo_mid - served 9 demo_after demo_mid ≤ Z.max 0 (1 + 100 + (0 - 0)).
Proof.
  split; [vm_compute; reflexivity|]. split; [vm_compute; reflexivity|].
  assert (Hr : fq_run demo_queue demo_before (Ret demo_mid)) by (apply exec_run; [decide_run|vm_compute; reflexivity]).
  assert (Hc : contention 7%positive 9%positive demo_mid (final demo_after demo_mid) (served 7 demo_after demo_mid) (served 9 demo_after demo_mid)).
  { apply exec_contention; [|vm_compute; reflexivity]. vm_compute. repeat split; try discriminate; try (left; eexists; split; reflexivity); try (right; left; reflexivity). }
  exact (fairqueue_fair_share demo_output false 1 demo_queue demo_before demo_mid 7 9 _ _ _ demo_fresh ltac:(lia) eq_refl Hr ltac:(discriminate) ltac:(vm_compute; eexists; reflexivity) Hc).
Defined.

(** The log of an execution. *)
Fixpoint exec_log (ops : list fq_op) (m : PacketPassFairQueue (BAVL loc)) (lg : gmap loc flow_log) : gmap loc flow_log :=
  match ops with [] => lg | op :: ops => match fq_step op m with Ret m' => exec_log ops m' (log_step op m lg) | _ => lg end end.

Lemma exec_logged ops m m' lg : allowed_all ops m → exec ops m = Ret m' → logged_run m lg m' (exec_log ops m lg).
Proof.
  revert m lg. induction ops as [|op ops IH]; intros m lg Ha E; cbn in *; [injection E as ->; constructor|].
  destruct Ha as [Ha Hr]. destruct (fq_step op m) as [m1| |] eqn:E1; [|done..]. rewrite bind_Ret in E. econstructor; [done..|]. by apply IH.
Qed.

Lemma fairqueue_delivers_witness : ∃ f g, mem (final (demo_start ++ demo_traffic) demo_queue) !! 7%positive = Some f ∧
  exec_log (demo_start ++ demo_traffic) demo_queue ∅ !! 7%positive = Some g ∧ given g = [[1; 2; 3; 4; 5]; [9]] ∧ handed g = [[1; 2; 3; 4; 5]] ∧
  in_queue (final (demo_start ++ demo_traffic) demo_queue) 7 f = [[9]].
Proof.
  assert (Hl : logged_run demo_queue ∅ (final (demo_start ++ demo_traffic) demo_queue) (exec_log (demo_start ++ demo_traffic) demo_queue ∅)).
  { apply exec_logged; [decide_run|vm_compute; reflexivity]. }
  destruct (mem (final (demo_start ++ demo_traffic) demo_queue) !! 7%positive) as [f|] eqn:Ef; [|vm_compute in Ef; discriminate].
  destruct (fairqueue_delivers demo_output 1 demo_queue _ _ 7%positive f demo_fresh ltac:(lia) eq_refl Hl Ef) as (g & Eg & Hg & _).
  exists f, g. split; [reflexivity|]. split; [exact Eg|]. vm_compute in Ef, Eg. injection Ef as <-. injection Eg as <-. repeat split.
Defined.

(** The tree after three insertions. *)
Definition demo_tree : BAVL loc :=
  match (t ← SAvl_Insert addr_cmp 7%positive SAvl_Init; t ← SAvl_Insert addr_cmp 4%positive t.1; SAvl_Insert addr_cmp 9%positive t.1) with
  | Ret (t, _) => t
  | _ => SAvl_Init
  end.

Lemma demo_tree_holds : holds addr_cmp demo_tree (self [4; 7; 9]%positive).
Proof.
  exists (Br (Br Leaf 4 4 0 Leaf) 7 7 0 (Br Leaf 9 9 0 Leaf))%positive. split_and!.
  - split; [vm_compute; repeat split|done|vm_compute; reflexivity|]. vm_compute. repeat constructor; set_solver.
  - vm_compute. repeat split; discriminate.
  - reflexivity.
  - repeat constructor.
Qed.

Lemma cavl_same_as_bavl_witness :
  CAvl_Remove 7%positive demo_tree = BAVL_Remove 7%positive demo_tree ∧ CAvl_Remove 7%positive demo_tree ≠ Fault ∧ CAvl_GetFirst demo_tree = Ret (Some 4%positive).
Proof.
  destruct (cavl_same_as_bavl addr_cmp demo_tree [4; 7; 9]%positive demo_tree_holds) as (_ & Hr & Hf & _).
  split; [apply Hr; set_solver|]. split; [vm_compute; discriminate|]. rewrite Hf. vm_compute. reflexivity.
Defined.
