(* ===== verification/SocksUdpGw.v ===== *)
(** * tun2socks: the UDP relay

    Models tun2socks/SocksUdpGwClient.c as it is compiled for Android, where each
    local address has its own socket to the SOCKS server (or to the DNS gateway),
    and [device_read_handler_send] of tun2socks.c, which feeds it.  Connections
    are cells of a heap; they are found through the AVL tree of BAVL.h by their
    local address and kept in a list, least recently used first.  The send path
    of a connection is a [Channel].

    The pending jobs of the relay form a stack, as in BPending.c: the job set
    last runs first.  The first packet of a connection is not copied: the
    connection keeps a pointer into the read buffer of the device, which
    [first_job] reads later.  [JDevice] is the job that hands this buffer back;
    the device can overwrite it when that job has run. *)
From S2P Require Import Prelude Encrypt AvlTree Bavl BavlSet ChunkBuffer PacketPassInterface BadvpnMisc DeviceUdp PacketRecvInterface UdpChannel.
From stdpp Require Import gmap.
#[local] Open Scope Z_scope.

(** ** Addresses *)
Definition wf_addr (a : BAddr) : bool :=
  match a with
  | BAddrNone => true
  | BAddrIPv4 ip port => (length ip =? 4)%nat && bytes_okb ip && ((length port =? 2)%nat && bytes_okb port)
  | BAddrIPv6 ip port => (length ip =? 16)%nat && bytes_okb ip && ((length port =? 2)%nat && bytes_okb port)
  end.
(** The addresses that a [BAddr] can hold. *)
Definition Addr : Type := {a : BAddr | wf_addr a = true}.
Definition mk_addr (a : BAddr) : outcome Addr :=
  match Sumbool.sumbool_of_bool (wf_addr a) with left H => Ret (exist _ a H) | right _ => Fault end.

Definition udp_conaddr_comparator (v1 v2 : Addr) : Z := BAddr_CompareOrder (`v1) (`v2).

(** ** udpgw_proto.h *)
Definition sizeof_socks_udp_header : Z := 4.
Definition sizeof_udpgw_addr_ipv4 : Z := 6.
Definition sizeof_udpgw_addr_ipv6 : Z := 18.

Definition udpgw_compute_mtu (dgram_mtu : Z) : Z :=
  let bs := bsize_add (bsize_fromsize sizeof_socks_udp_header)
              (bsize_add (bsize_max (bsize_fromsize sizeof_udpgw_addr_ipv4) (bsize_fromsize sizeof_udpgw_addr_ipv6)) (bsize_fromint dgram_mtu)) in
  match bsize_toint bs with Some s => s | None => -1 end.

(** ** Data *)
Definition CONNECTION_UDP_BUFFER_SIZE : Z := 64.

Inductive job := JDevice | JFirst (con : loc) | JRequest (con : loc) | JArrive (con : loc).
#[export] Instance job_eq : EqDecision job.
Proof. solve_decision. Defined.

(** [first_data] is an offset into the read buffer of the device; [send_addr] is
    where the socket of the connection sends to. *)
Record connection := mkcon {
  local_addr : Addr; remote_addr : BAddr; first_data : Z; first_data_len : Z; is_dns : bool;
  send_addr : BAddr; send_chan : Channel; recv_if : PacketPassInterface }.

Record client := mkcl {
  udp_mtu : Z; udpgw_mtu : Z; num_connections : Z; max_connections : Z; socks_server_addr : BAddr; dnsgw : BAddr;
  connections_tree : BAVL Addr; connections_list : list loc; conns : gmap loc connection;
  jobs : list job; device_buf : list Z }.

Definition set_num (n : Z) (o : client) : client :=
  mkcl (udp_mtu o) (udpgw_mtu o) n (max_connections o) (socks_server_addr o) (dnsgw o) (connections_tree o) (connections_list o) (conns o) (jobs o) (device_buf o).
Definition set_tree (t : BAVL Addr) (o : client) : client :=
  mkcl (udp_mtu o) (udpgw_mtu o) (num_connections o) (max_connections o) (socks_server_addr o) (dnsgw o) t (connections_list o) (conns o) (jobs o) (device_buf o).
Definition set_list (l : list loc) (o : client) : client :=
  mkcl (udp_mtu o) (udpgw_mtu o) (num_connections o) (max_connections o) (socks_server_addr o) (dnsgw o) (connections_tree o) l (conns o) (jobs o) (device_buf o).
Definition set_conns (h : gmap loc connection) (o : client) : client :=
  mkcl (udp_mtu o) (udpgw_mtu o) (num_connections o) (max_connections o) (socks_server_addr o) (dnsgw o) (connections_tree o) (connections_list o) h (jobs o) (device_buf o).
Definition set_jobs (j : list job) (o : client) : client :=
  mkcl (udp_mtu o) (udpgw_mtu o) (num_connections o) (max_connections o) (socks_server_addr o) (dnsgw o) (connections_tree o) (connections_list o) (conns o) j (device_buf o).
Definition set_device (m : list Z) (o : client) : client :=
  mkcl (udp_mtu o) (udpgw_mtu o) (num_connections o) (max_connections o) (socks_server_addr o) (dnsgw o) (connections_tree o) (connections_list o) (conns o) (jobs o) m.

Definition set_chan (ch : Channel) (c : connection) : connection :=
  mkcon (local_addr c) (remote_addr c) (first_data c) (first_data_len c) (is_dns c) (send_addr c) ch (recv_if c).
Definition set_recv (i : PacketPassInterface) (c : connection) : connection :=
  mkcon (local_addr c) (remote_addr c) (first_data c) (first_data_len c) (is_dns c) (send_addr c) (send_chan c) i.
Definition set_remote (a : BAddr) (c : connection) : connection :=
  mkcon (local_addr c) a (first_data c) (first_data_len c) (is_dns c) (send_addr c) (send_chan c) (recv_if c).
Definition set_conaddr (l : Addr) (r : BAddr) (dns : bool) (c : connection) : connection :=
  mkcon l r (first_data c) (first_data_len c) dns (send_addr c) (send_chan c) (recv_if c).

Definition get_con (x : loc) (o : client) : outcome connection :=
  match conns o !! x with Some c => Ret c | None => Fault end.
Definition put_con (x : loc) (c : connection) (o : client) : client := set_conns (<[x := c]> (conns o)) o.
(** [BPending_Set] of a job that is not set; [BPending_Free] and [BPending_Unset]. *)
Definition push_job (j : job) (o : client) : client := set_jobs (j :: jobs o) o.
Definition drop_job (j : job) (o : client) : client := set_jobs (filter (λ k, k ≠ j) (jobs o)) o.

(** [LinkedList1_Remove]: the node must be in the list. *)
Definition list_unlink (x : loc) (l : list loc) : outcome (list loc) :=
  if bool_decide (x ∈ l) then Ret (filter (λ y, y ≠ x) l) else Fault.

(** ** Operations *)

(** The test on [is_dns] in the code is guarded by [!con], which is never true. *)
Definition find_connection (local : Addr) (o : client) : outcome (option loc) :=
  BAVL_LookupExact udp_conaddr_comparator local (connections_tree o).

(** The receive side is freed with the connection; freeing the writer drops its
    jobs; [first_job] is not freed. *)
Definition connection_free (x : loc) (o : client) : outcome client :=
  _ ← get_con x o;
  let o := set_num (num_connections o - 1) o in
  l ← list_unlink x (connections_list o);
  let o := set_list l o in
  t ← BAVL_Remove x (connections_tree o);
  let o := drop_job (JRequest x) (drop_job (JArrive x) o) in
  Ret (set_conns (delete x (conns o)) (set_tree (free_node x t) o)).

Definition remove_lru_connection (local : Addr) (o : client) : outcome client :=
  r ← find_connection local o;
  _ ← assert (match r with None => true | Some _ => false end); _ ← assert (0 <? num_connections o);
  match connections_list o with
  | [] => Fault
  | x :: _ => connection_free x o
  end.

(** The comparison key of the tree node is part of the connection. *)
Definition reset_connection (x : loc) (local : Addr) (remote : BAddr) (dns : bool) (o : client) : outcome client :=
  c ← get_con x o;
  t ← upd x (λ n, Node (parent n) (link0 n) (link1 n) (balance n) local) (connections_tree o);
  Ret (set_tree t (put_con x (set_conaddr local remote dns c) o)).

(** The SOCKS UDP header and the address. *)
Definition socks_udp_header (remote : BAddr) : list Z :=
  be16 0 ++ [0] ++ [match remote with BAddrIPv4 _ _ => SOCKS_ATYP_IPV4 | _ => SOCKS_ATYP_IPV6 end].
Definition udpgw_addr (remote : BAddr) : list Z :=
  match remote with BAddrIPv4 ip port | BAddrIPv6 ip port => ip ++ port | BAddrNone => [] end.

(** Returns 1 if there is no room, else 0. *)
Definition connection_send (x : loc) (data data_len : Z) (o : client) : outcome (client * Z) :=
  c ← get_con x o;
  '(w, out) ← Writer_StartPacket (writer (send_chan c));
  match out with
  | None => Ret (o, 1)
  | Some out =>
      let ch := mkch w (pbuf (send_chan c)) in
      '(ch, out_pos) ← (if is_dns c then Ret (ch, 0)
                        else
                          ch ← ch_store ch out 0 (socks_udp_header (remote_addr c));
                          ch ← ch_store ch out sizeof_socks_udp_header (udpgw_addr (remote_addr c));
                          Ret (ch, sizeof_socks_udp_header + zlen (udpgw_addr (remote_addr c))));
      bytes ← mread (device_buf o) data data_len;
      ch ← ch_store ch out out_pos bytes;
      w ← Writer_EndPacket (writer ch) (out_pos + data_len);
      Ret (push_job (JArrive x) (put_con x (set_chan (mkch w (pbuf ch)) c) o), 0)
  end.

Definition connection_first_job_handler (x : loc) (o : client) : outcome client :=
  c ← get_con x o; '(o, _) ← connection_send x (first_data c) (first_data_len c) o; Ret o.

(** What the system answers: [malloc], [BDatagram_Init], [BDatagram_SetReuseAddr],
    the allocations of the send buffer and of the receive buffer. *)
Record init_env := mkenv { e_malloc : option loc; e_dgram : bool; e_reuse : bool; e_alloc : Z → option (list Z); e_recv : bool }.

Definition connection_init (e : init_env) (local : Addr) (remote : BAddr) (data data_len : Z) (dns : bool) (o : client) :
    outcome (client * option loc) :=
  match e_malloc e with
  | None => Ret (o, None)
  | Some x =>
      let o := push_job (JFirst x) o in
      let fail0 (o : client) : outcome (client * option loc) := Ret (drop_job (JFirst x) o, None) in
      if negb (e_dgram e) then fail0 o
      else if negb (e_reuse e) then fail0 o
      else
        let addr := if dns then dnsgw o else socks_server_addr o in
        ch ← ch_init (e_alloc e) (udp_mtu o) CONNECTION_UDP_BUFFER_SIZE;
        match ch with
        | None => fail0 o
        | Some ch =>
            let o := push_job (JRequest x) o in
            i ← PacketPassInterface_Init (udp_mtu o);
            i ← PacketPassInterface_Sender_Init i;
            if negb (e_recv e) then fail0 (drop_job (JRequest x) o)
            else
              '(t, inserted, _) ← BAVL_Insert udp_conaddr_comparator x (alloc_node x local (connections_tree o));
              _ ← assert inserted;
              let o := set_list (connections_list o ++ [x]) (set_tree t o) in
              let o := set_num (num_connections o + 1) o in
              Ret (put_con x (mkcon local remote data data_len dns addr ch i) o, Some x)
        end
  end.

(** What became of a submitted packet; the code returns nothing. *)
Inductive submitted := SCreated (con : loc) | SFailed | SQueued (con : loc) | SDropped (con : loc).

Definition is_ip (a : BAddr) : bool := match a with BAddrNone => false | _ => true end.

Definition SocksUdpGwClient_SubmitPacket (e : init_env) (local : Addr) (remote : BAddr) (dns : bool) (data data_len : Z) (o : client) :
    outcome (client * submitted) :=
  _ ← assert (is_ip (`local)); _ ← assert (is_ip remote); _ ← assert (0 <=? data_len); _ ← assert (data_len <=? udp_mtu o);
  con ← find_connection local o;
  match con with
  | None =>
      o ← (if num_connections o =? max_connections o then remove_lru_connection local o else Ret o);
      '(o, r) ← connection_init e local remote data data_len dns o;
      Ret (o, match r with Some x => SCreated x | None => SFailed end)
  | Some x =>
      o ← reset_connection x local remote dns o;
      '(o, res) ← connection_send x data data_len o;
      if res =? 1 then Ret (o, SDropped x)
      else l ← list_unlink x (connections_list o); Ret (set_list (l ++ [x]) o, SQueued x)
  end.

Definition SocksUdpGwClient_Init (memory_num : Z) (mtu max : Z) (socks_server dns : BAddr) : outcome client :=
  _ ← assert (negb (BAddr_IsInvalid socks_server));
  let max := if UINT16_MAX + 1 <? max then UINT16_MAX + 1 else max in
  Ret (mkcl mtu (udpgw_compute_mtu mtu) memory_num max socks_server dns (BAVL_Init ∅) [] ∅ [] []).

Fixpoint free_all (n : nat) (o : client) : outcome client :=
  match connections_list o, n with
  | [], _ => Ret o
  | _, O => Fault
  | x :: _, S n => o ← connection_free x o; free_all n o
  end.
Definition SocksUdpGwClient_Free (o : client) : outcome client := free_all (length (connections_list o)) o.

(** ** Receiving

    [dgram_handler_received]: the result is what the user is given. *)
Definition received_addr (atyp : Z) (data : list Z) : option (BAddr * list Z) :=
  if atyp =? SOCKS_ATYP_IPV6 then
    if zlen data <? sizeof_udpgw_addr_ipv6 then None else Some (BAddrIPv6 (take 16 data) (take 2 (drop 16 data)), drop 18 data)
  else
    if zlen data <? sizeof_udpgw_addr_ipv4 then None else Some (BAddrIPv4 (take 4 data) (take 2 (drop 4 data)), drop 6 data).

Definition dgram_handler_received (x : loc) (data : list Z) (o : client) : outcome (client * option (Addr * BAddr * list Z)) :=
  c ← get_con x o;
  _ ← assert (zlen data <=? udpgw_mtu o);
  i ← PacketPassInterface_Done (recv_if c);
  let c := set_recv i c in
  let o := put_con x c o in
  let submit (c : connection) (data : list Z) (o : client) : outcome (client * option (Addr * BAddr * list Z)) :=
    if udp_mtu o <? zlen data then Ret (o, None) else Ret (o, Some (local_addr c, remote_addr c, data)) in
  if is_dns c then submit c data o
  else if zlen data <? sizeof_socks_udp_header then Ret (o, None)
  else
    frag ← mget data 2; atyp ← mget data 3;
    if negb (frag =? 0) then Ret (o, None)
    else match received_addr atyp (drop 4 data) with
         | None => Ret (o, None)
         | Some (remote, rest) => let c := set_remote remote c in submit c rest (put_con x c o)
         end.

(** A datagram arrives in the receive buffer of the connection, which passes it on
    and asks for the next one when it was taken. *)
Definition receive_datagram (x : loc) (data : list Z) (o : client) : outcome (client * option (Addr * BAddr * list Z)) :=
  c ← get_con x o;
  i ← PacketPassInterface_Sender_Send (recv_if c) data;
  '(i, data) ← _PacketPassInterface_job_operation i;
  '(o, r) ← dgram_handler_received x data (put_con x (set_recv i c) o);
  c ← get_con x o; i ← _PacketPassInterface_job_done (recv_if c);
  Ret (put_con x (set_recv i c) o, r).

(** ** Jobs, the device and the socket *)
Definition run_job (o : client) : outcome client :=
  match jobs o with
  | [] => Fault
  | j :: js =>
      let o := set_jobs js o in
      match j with
      | JDevice => Ret o
      | JFirst x => connection_first_job_handler x o
      | JRequest x => c ← get_con x o; ch ← ch_offer (send_chan c); Ret (put_con x (set_chan ch c) o)
      | JArrive x =>
          c ← get_con x o; '(ch, request) ← ch_arrive (send_chan c);
          let o := put_con x (set_chan ch c) o in
          Ret (if (request : bool) then push_job (JRequest x) o else o)
      end
  end.

(** The socket took the packet: where it went and its bytes. *)
Definition packet_sent (x : loc) (o : client) : outcome (client * (BAddr * list Z)) :=
  c ← get_con x o; '(ch, packet, request) ← ch_sent (send_chan c);
  let o := put_con x (set_chan ch c) o in
  Ret (if (request : bool) then push_job (JRequest x) o else o, (send_addr c, packet)).

(** [device_read_handler_send] with the packet [m] in the read buffer, as far as
    UDP goes; [None] if the packet is left to lwIP. *)
Definition device_read_handler_send (opts : udp_options) (e : init_env) (m : list Z) (o : client) : outcome (client * option submitted) :=
  let o := push_job JDevice (set_device m o) in
  s ← process_device_udp_packet opts (udp_mtu o) m;
  match s with
  | None => Ret (o, None)
  | Some s =>
      local ← mk_addr (sub_local s);
      '(o, r) ← SocksUdpGwClient_SubmitPacket e local (sub_remote s) (sub_dns s) (sub_data s) (sub_len s) o;
      Ret (o, Some r)
  end.
