(* ===== verification/SocksUdpGwOrder.v ===== *)
(** * The order of the UDP connections

    [BAddr_CompareOrder] is a total order on the addresses that a [BAddr] can
    hold, so that the AVL tree of the connections finds each local address: it
    compares the addresses as numbers. *)
From S2P Require Import Prelude Encrypt AvlTree BavlSpec BadvpnMisc SocksUdpGw.
#[local] Open Scope Z_scope.

(** The number that bytes in network order stand for. *)
Fixpoint val (l : list Z) : Z := match l with [] => 0 | b :: l => b * 256 ^ zlen l + val l end.

Lemma ntoh_val l : ntoh l = val l.
Proof.
  unfold ntoh. assert (H : ∀ n, fold_left (λ n b, n * 256 + b) l n = n * 256 ^ zlen l + val l); [|by rewrite H].
  induction l as [|b l IH]; intros n; cbn [fold_left val length]; [lia|]. rewrite IH.
  rewrite Nat2Z.inj_succ, Z.pow_succ_r by lia. lia.
Qed.

Lemma val_range l : bytes_ok l → 0 ≤ val l < 256 ^ zlen l.
Proof.
  induction l as [|b l IH]; intros Hl; cbn [val length]; [lia|]. apply Forall_cons_1 in Hl as [Hb Hl]. specialize (IH Hl).
  rewrite Nat2Z.inj_succ, Z.pow_succ_r by lia. unfold is_byte in Hb. nia.
Qed.

Lemma val_inj l l' : bytes_ok l → bytes_ok l' → length l = length l' → val l = val l' → l = l'.
Proof.
  revert l'. induction l as [|b l IH]; intros [|b' l'] Hl Hl' Hn E; try done. apply Forall_cons_1 in Hl as [Hb Hl], Hl' as [Hb' Hl'].
  cbn [val length] in *. injection Hn as Hn. rewrite <- Hn in E. pose proof (val_range l Hl). pose proof (val_range l' Hl') as Hr'. rewrite <- Hn in Hr'.
  assert (b = b') as -> by nia. f_equal. apply IH; try done. lia.
Qed.

Lemma memcmp_val l l' : bytes_ok l → bytes_ok l' → length l = length l' → memcmp l l' = B_COMPARE (val l) (val l').
Proof.
  revert l'. induction l as [|b l IH]; intros [|b' l'] Hl Hl' Hn; try done. apply Forall_cons_1 in Hl as [Hb Hl], Hl' as [Hb' Hl'].
  cbn [memcmp val length] in *. injection Hn as Hn. rewrite <- Hn. pose proof (val_range l Hl). pose proof (val_range l' Hl') as Hr'. rewrite <- Hn in Hr'.
  unfold B_COMPARE. destruct (Z.eqb_spec b b') as [->|Hne].
  - rewrite IH by done. unfold B_COMPARE. repeat case_match; bool_hyps; lia.
  - destruct (Z.ltb_spec b' b), (Z.ltb_spec b b'); try lia; repeat case_match; bool_hyps; nia.
Qed.

(** An address as one number: its family, then the address, then the port. *)
Definition rank (a : BAddr) : Z :=
  match a with
  | BAddrNone => 0
  | BAddrIPv4 ip port | BAddrIPv6 ip port => BAddr_type a * 2 ^ 200 + val ip * 2 ^ 16 + val port
  end.

Lemma wf_addr_spec a : wf_addr a = true →
  match a with
  | BAddrNone => True
  | BAddrIPv4 ip port => (length ip = 4%nat ∧ bytes_ok ip) ∧ (length port = 2%nat ∧ bytes_ok port)
  | BAddrIPv6 ip port => (length ip = 16%nat ∧ bytes_ok ip) ∧ (length port = 2%nat ∧ bytes_ok port)
  end.
Proof.
  destruct a as [|ip port|ip port]; cbn; [done|..]; rewrite !andb_true_iff, !Nat.eqb_eq; intros ((? & ?) & ? & ?);
    split; split; done || by apply bytes_okb_ok.
Qed.

Lemma rank_parts ip port n : (length ip = n ∧ bytes_ok ip) → (length port = 2%nat ∧ bytes_ok port) → (n ≤ 16)%nat →
  0 ≤ val ip < 2 ^ 128 ∧ 0 ≤ val port < 2 ^ 16.
Proof.
  intros [Hi Hbi] [Hp Hbp] Hn. pose proof (val_range _ Hbi) as Hr. pose proof (val_range _ Hbp) as Hr'. rewrite Hp in Hr'. rewrite Hi in Hr.
  assert (256 ^ Z.of_nat n ≤ 256 ^ 16) by (apply Z.pow_le_mono_r; lia). change (256 ^ 16) with (2 ^ 128) in *. change (256 ^ Z.of_nat 2) with (2 ^ 16) in *. lia.
Qed.

Lemma rank_range a : wf_addr a = true → BAddr_type a * 2 ^ 200 ≤ rank a < (BAddr_type a + 1) * 2 ^ 200.
Proof.
  intros Ha%wf_addr_spec. destruct a as [|i p|i p]; cbn [rank BAddr_type]; [lia|..]; destruct Ha as [Hi Hp];
    pose proof (rank_parts _ _ _ Hi Hp ltac:(lia)) as [? ?]; lia.
Qed.

(** Lexicographic comparison is comparison of the ranks. *)
Lemma lexi t i p i' p' : 0 ≤ p < 2 ^ 16 → 0 ≤ p' < 2 ^ 16 →
  (let cmp := B_COMPARE i i' in if negb (cmp =? 0) then cmp else B_COMPARE p p') = B_COMPARE (t + i * 2 ^ 16 + p) (t + i' * 2 ^ 16 + p').
Proof.
  intros Hp Hp'. destruct (B_COMPARE_spec i i') as [[Hi ->]|[[-> ->]|[Hi ->]]]; cbn.
  - destruct (B_COMPARE_spec (t + i * 2 ^ 16 + p) (t + i' * 2 ^ 16 + p')) as [[? ->]|[[? ->]|[? ->]]]; lia.
  - destruct (B_COMPARE_spec p p') as [[? ->]|[[? ->]|[? ->]]], (B_COMPARE_spec (t + i' * 2 ^ 16 + p) (t + i' * 2 ^ 16 + p')) as [[? ->]|[[? ->]|[? ->]]]; lia.
  - destruct (B_COMPARE_spec (t + i * 2 ^ 16 + p) (t + i' * 2 ^ 16 + p')) as [[? ->]|[[? ->]|[? ->]]]; lia.
Qed.

Lemma compare_rank a b : wf_addr a = true → wf_addr b = true → BAddr_CompareOrder a b = B_COMPARE (rank a) (rank b).
Proof.
  intros Ha Hb. pose proof (rank_range a Ha) as Ra. pose proof (rank_range b Hb) as Rb. unfold BAddr_CompareOrder.
  destruct (B_COMPARE_spec (BAddr_type a) (BAddr_type b)) as [[Ht ->]|[[Ht ->]|[Ht ->]]]; cbn [Z.eqb negb].
  - destruct (B_COMPARE_spec (rank a) (rank b)) as [[? ->]|[[? ->]|[? ->]]]; lia.
  - clear Ra Rb. apply wf_addr_spec in Ha, Hb. destruct a as [|i p|i p], b as [|i' p'|i' p']; try done; cbn [rank BAddr_type];
      destruct Ha as [Hi Hp], Hb as [Hi' Hp']; pose proof (rank_parts _ _ _ Hi Hp ltac:(lia)) as [_ ?]; pose proof (rank_parts _ _ _ Hi' Hp' ltac:(lia)) as [_ ?];
      rewrite !ntoh_val.
    + by apply (lexi (1 * 2 ^ 200)).
    + destruct Hi as [Hi Hbi], Hi' as [Hi' Hbi']. rewrite memcmp_val by (try done; congruence). rewrite <- (lexi (2 * 2 ^ 200)) by done.
      destruct (B_COMPARE_spec (val i) (val i')) as [[? ->]|[[? ->]|[? ->]]]; done.
  - destruct (B_COMPARE_spec (rank a) (rank b)) as [[? ->]|[[? ->]|[? ->]]]; lia.
Qed.

Lemma rank_inj a b : wf_addr a = true → wf_addr b = true → rank a = rank b → a = b.
Proof.
  intros Ha Hb E. pose proof (rank_range a Ha) as Ra. pose proof (rank_range b Hb) as Rb. assert (Ht : BAddr_type a = BAddr_type b) by lia. clear Ra Rb.
  apply wf_addr_spec in Ha, Hb. destruct a as [|i p|i p], b as [|i' p'|i' p']; try done; cbn [rank BAddr_type] in E;
    destruct Ha as [Hi Hp], Hb as [Hi' Hp']; pose proof (rank_parts _ _ _ Hi Hp ltac:(lia)) as [? ?]; pose proof (rank_parts _ _ _ Hi' Hp' ltac:(lia)) as [? ?];
    destruct Hi as [Hi Hbi], Hi' as [Hi' Hbi'], Hp as [Hp Hbp], Hp' as [Hp' Hbp'];
    (f_equal; (apply val_inj; [done|done|congruence|lia])).
Qed.

#[export] Instance addr_eq : EqDecision Addr.
Proof.
  intros [a Ha] [b Hb]. destruct (Z.eq_dec (rank a) (rank b)) as [E|E].
  - left. apply rank_inj in E; [|done..]. subst b. f_equal. apply (proof_irrel).
  - right. intros [= ->]. done.
Defined.

#[export] Instance conaddr_order : BAVLOrder udp_conaddr_comparator.
Proof.
  unfold udp_conaddr_comparator. split.
  - intros [a Ha] [b Hb]. cbn. rewrite compare_rank by done. destruct (B_COMPARE_spec (rank a) (rank b)) as [[? ->]|[[? ->]|[? ->]]]; lia.
  - intros [a Ha] [b Hb]. cbn. rewrite compare_rank by done. intros E.
    assert (Er : rank a = rank b) by (destruct (B_COMPARE_spec (rank a) (rank b)) as [[? ?]|[[? ?]|[? ?]]]; lia).
    apply rank_inj in Er; [|done..]. subst b. f_equal. apply proof_irrel.
  - intros [a Ha] [b Hb]. cbn. rewrite !compare_rank by done.
    destruct (B_COMPARE_spec (rank a) (rank b)) as [[? ->]|[[? ->]|[? ->]]], (B_COMPARE_spec (rank b) (rank a)) as [[? ->]|[[? ->]|[? ->]]]; lia.
  - intros [a Ha] [b Hb] [c Hc]. cbn. rewrite !compare_rank by done. intros H1 H2.
    destruct (B_COMPARE_spec (rank a) (rank b)) as [[? ?]|[[? ?]|[? ?]]], (B_COMPARE_spec (rank b) (rank c)) as [[? ?]|[[? ?]|[? ?]]],
      (B_COMPARE_spec (rank a) (rank c)) as [[? ->]|[[? ->]|[? ->]]]; lia.
Qed.
