(* ===== verification/SocksUdpGwInv.v ===== *)
(** * The UDP relay: its invariant

    The table of connections, the stack of jobs and the send path of each
    connection, and that every event keeps them; what a connection was given is
    what it sent and what it still holds. *)
From S2P Require Import Prelude Encrypt AvlTree Bavl BavlSpec BavlSet BavlCells ChunkBuffer PacketPassInterface BadvpnMisc DeviceUdp PacketRecvInterface UdpChannel SocksUdpGw SocksUdpGwOrder.
From stdpp Require Import gmap.
#[local] Open Scope Z_scope.
#[local] Set Warnings "-clear-no-such-hyp".

(** A datagram as it goes to the SOCKS server, or to the DNS gateway. *)
Definition udp_wire (remote : BAddr) (dns : bool) (payload : list Z) : list Z :=
  if dns then payload else socks_udp_header remote ++ udpgw_addr remote ++ payload.

(** The receive interface of a connection between two datagrams. *)
Definition recv_idle (mt : Z) (i : PacketPassInterface) : Prop :=
  PacketPassInterface.mtu i = mt ∧ PacketPassInterface.handler_done i = true ∧ PacketPassInterface.state i = PPI_STATE_NONE.

(** What a connection was given and what it sent. *)
Notation traffic := (list (list Z) * list (list Z))%type.

(** The connection [c] at [x], with [js] the pending jobs and [dev] the read buffer
    of the device. *)
Definition con_ok (mt : Z) (js : list job) (dev : list Z) (x : loc) (c : connection) (g : traffic) : Prop :=
  ∃ q ph, ch_ok (send_chan c) mt q ph ∧ (JRequest x ∈ js ↔ ph = CRequest) ∧ (JArrive x ∈ js ↔ ∃ pk, ph = CArriving pk) ∧
    recv_idle mt (recv_if c) ∧
    if decide (JFirst x ∈ js)
    then q = [] ∧ (ph = CRequest ∨ ph = COffer) ∧
         ∃ p, mread dev (first_data c) (first_data_len c) = Ret p ∧ zlen (udp_wire (remote_addr c) (is_dns c) p) ≤ mt ∧
           g.1 = g.2 ++ [udp_wire (remote_addr c) (is_dns c) p]
    else g.1 = g.2 ++ ch_held q ph.

(** The stack: jobs of send paths above the first job of a new connection, above
    the job that hands the device its buffer back. *)
Definition is_chan_job (j : job) : Prop := match j with JRequest _ | JArrive _ => True | _ => False end.
Definition jobs_ok (js : list job) : Prop :=
  NoDup js ∧ ∃ pre tl, js = pre ++ tl ∧ Forall is_chan_job pre ∧ (tl = [] ∨ tl = [JDevice] ∨ ∃ x, tl = [JFirst x; JDevice]).

Definition job_con (j : job) : option loc := match j with JDevice => None | JFirst x | JRequest x | JArrive x => Some x end.

Definition buffer_bound (mt : Z) : Prop := 4 * ((1 + bdivide_up mt 4) * (CONNECTION_UDP_BUFFER_SIZE + 1)) ≤ INT_MAX.

Record cl_ok (o : client) (lg : gmap loc traffic) : Prop := {
  k_mtu : 0 ≤ udp_mtu o ≤ udpgw_mtu o ∧ buffer_bound (udp_mtu o);
  k_max : 0 < max_connections o;
  k_tree : ∃ mm, BavlSpec.holds udp_conaddr_comparator (connections_tree o) mm ∧
             ∀ x v, (x, v) ∈ mm ↔ ∃ c, conns o !! x = Some c ∧ local_addr c = v;
  k_cells : cells (connections_tree o) = dom (conns o);
  k_list : NoDup (connections_list o) ∧ ∀ x, x ∈ connections_list o ↔ is_Some (conns o !! x);
  k_num : num_connections o = zlen (connections_list o) ∧ num_connections o ≤ max_connections o;
  k_jobs : jobs_ok (jobs o);
  k_live : ∀ j x, j ∈ jobs o → job_con j = Some x → is_Some (conns o !! x);
  k_cons : ∀ x c, conns o !! x = Some c → ∃ g, lg !! x = Some g ∧ con_ok (udp_mtu o) (jobs o) (device_buf o) x c g }.

(** ** Sending *)
Lemma header_len r : zlen (socks_udp_header r) = 4.
Proof. done. Qed.

Lemma send_room x data data_len o c q ph p :
  conns o !! x = Some c → ch_ok (send_chan c) (udp_mtu o) q ph → ph = COffer → mread (device_buf o) data data_len = Ret p →
  zlen (udp_wire (remote_addr c) (is_dns c) p) ≤ udp_mtu o →
  ∃ ch, connection_send x data data_len o = Ret (push_job (JArrive x) (put_con x (set_chan ch c) o), 0) ∧
    ch_ok ch (udp_mtu o) q (CArriving (udp_wire (remote_addr c) (is_dns c) p)).
Proof.
  intros Hc Hch -> Hr Hw. pose proof (mread_Ret _ _ _ _ Hr) as (_ & _ & _ & _ & Hlp).
  destruct (ch_put_ok (send_chan c) (udp_mtu o) q _ Hch Hw) as (w & d & c1 & w2 & E1 & E2 & E3 & H).
  unfold connection_send, get_con. rewrite Hc, bind_Ret, E1, bind_Ret. unfold udp_wire in *. destruct (is_dns c).
  - rewrite bind_Ret, Hr, bind_Ret, E2, bind_Ret. rewrite Z.add_0_l, <- Hlp, E3, bind_Ret. by eexists.
  - rewrite app_assoc, <- ch_store_next, <- ch_store_next in E2.
    apply bind_Ret_inv in E2 as (ca & Ea & E2). apply bind_Ret_inv in Ea as (cb & Eb & Ea). rewrite Eb, bind_Ret.
    rewrite header_len in Ea. unfold sizeof_socks_udp_header. rewrite Z.add_0_l in Ea. rewrite Ea, !bind_Ret, Hr, bind_Ret.
    rewrite length_app, Nat2Z.inj_add, header_len, Z.add_0_l in E2. rewrite E2, bind_Ret.
    rewrite !length_app, !Nat2Z.inj_add, header_len, Hlp, Z.add_assoc in E3. rewrite E3, bind_Ret. by eexists.
Qed.

Lemma send_full x data data_len o c q ph :
  conns o !! x = Some c → ch_ok (send_chan c) (udp_mtu o) q ph → ph ≠ COffer → connection_send x data data_len o = Ret (o, 1).
Proof.
  intros Hc Hch Hph. unfold connection_send, get_con. rewrite Hc, bind_Ret, (ch_start_none _ _ _ _ Hch Hph), bind_Ret. done.
Qed.

(** ** The stack of jobs *)
Lemma jobs_ok_tail j js : jobs_ok (j :: js) → jobs_ok js ∧ j ∉ js.
Proof.
  intros [[Hn Hd]%NoDup_cons (pre & tl & E & Hp & Ht)]. split; [|done]. split; [done|]. destruct pre as [|k pre]; cbn in E.
  - destruct Ht as [->|[->|(x & ->)]]; [done|injection E as _ ->; by exists [], []; split_and!; [| |left]|].
    injection E as _ ->. exists [], [JDevice]. split_and!; [done|done|by right; left].
  - injection E as -> ->. apply Forall_cons_1 in Hp as [_ Hp]. by exists pre, tl.
Qed.
Lemma jobs_ok_push j js : jobs_ok js → is_chan_job j → j ∉ js → jobs_ok (j :: js).
Proof.
  intros [Hn (pre & tl & -> & Hp & Ht)] Hj Hjs. split; [by apply NoDup_cons|]. exists (j :: pre), tl. split; [done|]. split; [by constructor|done].
Qed.
(** What is below a job that is not of a send path. *)
Lemma jobs_ok_below j js : jobs_ok (j :: js) → ¬ is_chan_job j → (j = JDevice ∧ js = []) ∨ ∃ x, j = JFirst x ∧ js = [JDevice].
Proof.
  intros [_ (pre & tl & E & Hp & Ht)] Hj. destruct pre as [|k pre]; cbn in E.
  - destruct Ht as [->|[->|(x & ->)]]; [done|injection E as -> ->; by left|injection E as -> ->; right; by exists x].
  - injection E as -> _. by apply Forall_cons_1 in Hp as [? _].
Qed.
Lemma first_has_device x js : jobs_ok js → JFirst x ∈ js → JDevice ∈ js.
Proof.
  intros [_ (pre & tl & -> & Hp & Ht)] [Hx|Hx]%elem_of_app.
  - apply list_elem_of_In in Hx. by apply (proj1 (List.Forall_forall _ _) Hp) in Hx.
  - apply elem_of_app. right. destruct Ht as [->|[->|(y & ->)]]; set_solver.
Qed.

(** ** Frames *)
Lemma con_ok_jobs mt js js' dev x c g :
  (∀ j, job_con j = Some x → (j ∈ js ↔ j ∈ js')) → con_ok mt js dev x c g → con_ok mt js' dev x c g.
Proof.
  intros Hj (q & ph & Hch & Hr & Ha & Hi & Hf). exists q, ph. split; [done|]. rewrite <- (Hj (JRequest x)), <- (Hj (JArrive x)) by done. split_and!; try done.
  destruct (decide (JFirst x ∈ js)) as [H|H], (decide (JFirst x ∈ js')) as [H'|H']; try done; rewrite (Hj (JFirst x)) in H by done; done.
Qed.
Lemma con_ok_dev mt js dev dev' x c g : JFirst x ∉ js → con_ok mt js dev x c g → con_ok mt js dev' x c g.
Proof. intros Hj (q & ph & Hch & Hr & Ha & Hi & Hf). exists q, ph. rewrite decide_False in Hf |- * by done. by split_and!. Qed.

Lemma cl_jobs o lg js : cl_ok o lg → jobs_ok js → (∀ j x, job_con j = Some x → (j ∈ jobs o ↔ j ∈ js)) → cl_ok (set_jobs js o) lg.
Proof.
  intros [H1 H2 H3 H4 H5 H6 H7 H8 H9] Hjs Hj. split; try done; cbn.
  - intros j x Hin Hx. apply (H8 j x); [by apply (Hj j x)|done].
  - intros x c Hc. destruct (H9 x c Hc) as (g & Hg & Hok). exists g. split; [done|]. eapply con_ok_jobs; [|exact Hok]. intros j Hx. by apply (Hj j x).
Qed.

(** One connection changes, with its jobs. *)
Lemma cl_put o lg x c c' js g :
  cl_ok o lg → conns o !! x = Some c → local_addr c' = local_addr c → jobs_ok js →
  (∀ j y, job_con j = Some y → y ≠ x → (j ∈ jobs o ↔ j ∈ js)) →
  con_ok (udp_mtu o) js (device_buf o) x c' g → cl_ok (set_jobs js (put_con x c' o)) (<[x := g]> lg).
Proof.
  intros [H1 H2 (mm & Hh & Hmm) H4 [H5 H5'] H6 H7 H8 H9] Hc Hl Hjs Hj Hok. split; try done; cbn.
  - exists mm. split; [done|]. intros y v. rewrite Hmm. destruct (decide (y = x)) as [->|Hne].
    + rewrite lookup_insert_eq, Hc. split; intros (c0 & [= <-] & <-); by eexists.
    + by rewrite lookup_insert_ne.
  - rewrite H4. symmetry. apply dom_insert_lookup_L. by rewrite Hc.
  - split; [done|]. intros y. rewrite H5'. destruct (decide (y = x)) as [->|Hne]; [rewrite lookup_insert_eq, Hc; split; by eexists|by rewrite lookup_insert_ne].
  - intros j y Hin Hy. destruct (decide (y = x)) as [->|Hne]; [rewrite lookup_insert_eq; by eexists|]. rewrite lookup_insert_ne by done.
    apply (H8 j y); [by apply (Hj j y)|done].
  - intros y cy. destruct (decide (y = x)) as [->|Hne].
    + rewrite !lookup_insert_eq. intros [= <-]. by exists g.
    + rewrite !lookup_insert_ne by done. intros Hcy. destruct (H9 y cy Hcy) as (gy & Hg & Hoky). exists gy. split; [done|].
      eapply con_ok_jobs; [|exact Hoky]. intros j Hy. by apply (Hj j y).
Qed.
Lemma cl_put_same o lg x c c' js g :
  cl_ok o lg → conns o !! x = Some c → local_addr c' = local_addr c → jobs_ok js →
  (∀ j y, job_con j = Some y → y ≠ x → (j ∈ jobs o ↔ j ∈ js)) → lg !! x = Some g →
  con_ok (udp_mtu o) js (device_buf o) x c' g → cl_ok (set_jobs js (put_con x c' o)) lg.
Proof. intros. rewrite <- (insert_id lg x g) by done. by eapply cl_put. Qed.

Lemma other_job j y x k (js : list job) : job_con j = Some y → job_con k = Some x → y ≠ x → (j ∈ k :: js ↔ j ∈ js).
Proof. intros Hj Hk Hne. rewrite elem_of_cons. split; [intros [->|?]; [congruence|done]|by right]. Qed.

(** ** Events *)

(** The connection a job belongs to. *)
Lemma job_live o lg j x : cl_ok o lg → j ∈ jobs o → job_con j = Some x →
  ∃ c g, conns o !! x = Some c ∧ lg !! x = Some g ∧ con_ok (udp_mtu o) (jobs o) (device_buf o) x c g.
Proof.
  intros Hok Hj Hx. destruct (k_live _ _ Hok j x Hj Hx) as [c Hc]. destruct (k_cons _ _ Hok x c Hc) as (g & Hg & Hco). by exists c, g.
Qed.

(** The first packet finds a place offered, and the read buffer as it was. *)
Lemma first_job_ok o lg x js : cl_ok o lg → jobs o = JFirst x :: js → ∃ o', run_job o = Ret o' ∧ cl_ok o' lg.
Proof.
  intros Hok Ej. pose proof (k_jobs _ _ Hok) as Hjo. rewrite Ej in Hjo. destruct (jobs_ok_tail _ _ Hjo) as [Hjs Hnj].
  destruct (job_live o lg (JFirst x) x Hok) as (c & g & Hc & Hg & q & ph & Hch & Hr & Ha & Hi & Hf); [rewrite Ej; by left|done|].
  destruct (jobs_ok_below _ _ Hjo) as [[[=] _]|(y & [= <-] & ->)]; [auto|].
  rewrite Ej in Hr, Ha, Hf. rewrite decide_True in Hf by set_solver. destruct Hf as (-> & Hph & p & Hp & Hw & Hgg).
  assert (Hpo : ph = COffer). { destruct Hph as [->|]; [|done]. apply proj2 in Hr. specialize (Hr eq_refl). set_solver. }
  unfold run_job. rewrite Ej. unfold connection_first_job_handler, get_con. cbn [conns set_jobs]. rewrite Hc, bind_Ret.
  destruct (send_room x (first_data c) (first_data_len c) (set_jobs [JDevice] o) c [] ph p Hc Hch Hpo Hp Hw) as (ch & -> & Hch'). rewrite bind_Ret.
  eexists. split; [done|]. apply (cl_put_same o lg x c _ [JArrive x; JDevice] g); try done.
  - apply jobs_ok_push; [done|done|set_solver].
  - intros k y Hk Hy. rewrite Ej. rewrite (other_job k y x (JFirst x)), (other_job k y x (JArrive x)) by done. done.
  - exists [], (CArriving (udp_wire (remote_addr c) (is_dns c) p)). split; [done|]. split; [split; [set_solver|done]|]. split; [split; [by eexists|set_solver]|].
    split; [done|]. rewrite decide_False by set_solver. done.
Qed.

Lemma request_job_ok o lg x js : cl_ok o lg → jobs o = JRequest x :: js → ∃ o', run_job o = Ret o' ∧ cl_ok o' lg.
Proof.
  intros Hok Ej. pose proof (k_jobs _ _ Hok) as Hjo. rewrite Ej in Hjo. destruct (jobs_ok_tail _ _ Hjo) as [Hjs Hnj].
  destruct (job_live o lg (JRequest x) x Hok) as (c & g & Hc & Hg & q & ph & Hch & Hr & Ha & Hi & Hf); [rewrite Ej; by left|done|].
  unfold run_job. rewrite Ej. unfold get_con. cbn [conns set_jobs]. rewrite Hc, bind_Ret.
  assert (ph = CRequest) as -> by (apply Hr; rewrite Ej; by left). destruct (ch_offer_ok _ _ _ Hch) as (ch & -> & Hch'). rewrite bind_Ret.
  eexists. split; [done|]. apply (cl_put_same o lg x c _ js g); try done.
  - intros k y Hk Hy. rewrite Ej. by apply (other_job k y x (JRequest x)).
  - exists q, COffer. rewrite Ej in Hf, Ha. split; [done|]. split; [done|]. split; [split; [|by intros (? & ?)]|].
    { intros Hin. destruct (proj1 Ha) as [? [=]]. by right. }
    split; [done|]. destruct (decide (JFirst x ∈ js)) as [H|H].
    + rewrite decide_True in Hf by (by right). destruct Hf as (-> & _ & Hf). split; [done|]. split; [by right|done].
    + rewrite decide_False in Hf by (by rewrite elem_of_cons; intros [[=]|?]). by rewrite Hf.
Qed.

Lemma arrive_job_ok o lg x js : cl_ok o lg → jobs o = JArrive x :: js → ∃ o', run_job o = Ret o' ∧ cl_ok o' lg.
Proof.
  intros Hok Ej. pose proof (k_jobs _ _ Hok) as Hjo. rewrite Ej in Hjo. destruct (jobs_ok_tail _ _ Hjo) as [Hjs Hnj].
  destruct (job_live o lg (JArrive x) x Hok) as (c & g & Hc & Hg & q & ph & Hch & Hr & Ha & Hi & Hf); [rewrite Ej; by left|done|].
  unfold run_job. rewrite Ej. unfold get_con. cbn [conns set_jobs]. rewrite Hc, bind_Ret.
  destruct (proj1 Ha) as [pk ->]; [rewrite Ej; by left|]. rewrite Ej in Hf, Hr. destruct (ch_arrive_ok _ _ _ _ Hch) as (ch & b & -> & Hch'). rewrite bind_Ret.
  assert (HF : JFirst x ∉ JArrive x :: js). { intros HF. rewrite decide_True in Hf by done. by destruct Hf as (_ & [|] & _). }
  rewrite decide_False in Hf by done. assert (HR : JRequest x ∉ js). { intros HR. assert (CArriving pk = CRequest) by (apply Hr; by right). done. }
  eexists. split; [done|]. replace (if b then _ else _) with (set_jobs (if b then JRequest x :: js else js) (put_con x (set_chan ch c) o)) by (by destruct b).
  apply (cl_put_same o lg x c _ _ g); try done.
  - destruct b; [by apply jobs_ok_push|done].
  - intros k y Hk Hy. rewrite Ej, (other_job k y x (JArrive x)) by done. destruct b; [by rewrite (other_job k y x (JRequest x))|done].
  - exists (q ++ [pk]), (if b then CRequest else CFull). split; [done|]. split; [destruct b; split; done || set_solver|].
    split; [destruct b; (split; [set_solver|by intros (? & ?)])|]. split; [done|].
    rewrite decide_False by (destruct b; set_solver). rewrite Hf. unfold ch_held. by destruct b; rewrite app_nil_r.
Qed.

Lemma run_job_ok o lg : cl_ok o lg → jobs o ≠ [] → ∃ o', run_job o = Ret o' ∧ cl_ok o' lg.
Proof.
  intros Hok Hne. destruct (jobs o) as [|j js] eqn:Ej; [done|]. destruct j as [|x|x|x].
  - pose proof (k_jobs _ _ Hok) as Hjo. rewrite Ej in Hjo. destruct (jobs_ok_tail _ _ Hjo) as [Hjs _].
    destruct (jobs_ok_below _ _ Hjo) as [[_ ->]|(y & [=] & _)]; [auto|]. unfold run_job. rewrite Ej. eexists. split; [done|]. apply cl_jobs; [done|done|].
    intros k y Hk. rewrite Ej. split; [intros [->|[]%elem_of_nil]%elem_of_cons; done|by intros []%elem_of_nil].
  - by eapply first_job_ok.
  - by eapply request_job_ok.
  - by eapply arrive_job_ok.
Qed.

Lemma packet_sent_ok o lg x c : cl_ok o lg → conns o !! x = Some c → sending (pbuf (send_chan c)) = true →
  ∃ o' p g, packet_sent x o = Ret (o', (send_addr c, p)) ∧ lg !! x = Some g ∧ cl_ok o' (<[x := (g.1, g.2 ++ [p])]> lg).
Proof.
  intros Hok Hc Hs. destruct (k_cons _ _ Hok x c Hc) as (g & Hg & q & ph & Hch & Hr & Ha & Hi & Hf).
  rewrite (pb_send _ _ (ch_pb _ _ _ _ Hch)) in Hs. destruct q as [|p q]; [done|]. clear Hs.
  assert (HF : JFirst x ∉ jobs o). { intros HF. rewrite decide_True in Hf by done. by destruct Hf as [? _]. }
  rewrite decide_False in Hf by done. unfold packet_sent, get_con. rewrite Hc, bind_Ret.
  destruct (ch_sent_ok _ _ _ _ _ Hch) as (ch & b & -> & Hch' & Hb). rewrite bind_Ret. eexists _, p, g. split; [done|]. split; [done|].
  replace (if b then _ else _) with (set_jobs (if b then JRequest x :: jobs o else jobs o) (put_con x (set_chan ch c) o)) by (by destruct b; [|destruct o]).
  assert (HR : b = true → JRequest x ∉ jobs o). { intros Eb HR. apply Hr in HR. specialize (Hb Eb). congruence. }
  eapply cl_put; try done.
  - destruct b; [apply jobs_ok_push; [apply Hok|done|by apply HR]|apply Hok].
  - intros k y Hk Hy. destruct b; [by rewrite (other_job k y x (JRequest x))|done].
  - exists q, (if b then CRequest else ph). split; [done|]. split; [destruct b; [split; [done|by left]|done]|].
    split; [destruct b; [|done]; rewrite (Hb eq_refl) in Ha; split; [intros [[=]|Hin]%elem_of_cons; by destruct (proj1 Ha Hin)|by intros (? & ?)]|]. split; [done|].
    rewrite decide_False by (destruct b; [rewrite elem_of_cons; by intros [[=]|?]|done]). cbn [fst snd]. rewrite Hf. unfold ch_held.
    destruct b; [rewrite (Hb eq_refl)|]; by list_simplifier.
Qed.

Lemma put_twice x a b o : put_con x a (put_con x b o) = put_con x a o.
Proof. unfold put_con. cbn. by rewrite insert_insert_eq. Qed.

Lemma busy_done mt i data : recv_idle mt i → zlen data ≤ mt → ∃ i1 i2 i3,
  PacketPassInterface_Sender_Send i data = Ret i1 ∧ _PacketPassInterface_job_operation i1 = Ret (i2, data) ∧ PacketPassInterface_Done i2 = Ret i3 ∧
  ∃ i4, _PacketPassInterface_job_done i3 = Ret i4 ∧ recv_idle mt i4.
Proof.
  intros (Hm & Hd & Hs) Hl. unfold PacketPassInterface_Sender_Send. rewrite (assert_true (zlen data <=? _)), bind_Ret by lia. unfold is_state. rewrite Hs, Hd.
  eexists _, _, _. split; [done|]. split; [done|]. split; [done|]. eexists. split; [done|]. done.
Qed.

(** The handler changes the remote address of the connection at most. *)
Lemma dgram_handler_ok o x c data i : conns o !! x = Some c → zlen data ≤ udpgw_mtu o → PacketPassInterface_Done (recv_if c) = Ret i →
  ∃ rem r, dgram_handler_received x data o = Ret (put_con x (set_remote rem (set_recv i c)) o, r) ∧
    ∀ l a d, r = Some (l, a, d) → l = local_addr c ∧ a = rem ∧ zlen d ≤ udp_mtu o.
Proof.
  intros Hc Hl Hd. unfold dgram_handler_received, get_con. rewrite Hc, bind_Ret. rewrite (assert_true (zlen data <=? _)), bind_Ret by lia. rewrite Hd, bind_Ret.
  assert (Ec : set_recv i c = set_remote (remote_addr c) (set_recv i c)) by done.
  assert (Hsub : ∀ c' (d : list Z) (o' : client), local_addr c' = local_addr c → udp_mtu o' = udp_mtu o →
    ∃ r, (if udp_mtu o' <? zlen d then Ret (o', None) else Ret (o', Some (local_addr c', remote_addr c', d))) = Ret (o', r) ∧
      ∀ l a d', r = Some (l, a, d') → l = local_addr c ∧ a = remote_addr c' ∧ zlen d' ≤ udp_mtu o).
  { intros c' d o' Hlo Hmt. destruct (Z.ltb_spec (udp_mtu o') (zlen d)); eexists; (split; [done|]); [done|]. intros l a d' [= <- <- <-]. split_and!; [done|done|lia]. }
  change (is_dns (set_recv i c)) with (is_dns c). destruct (is_dns c).
  { exists (remote_addr c). rewrite <- Ec. by apply (Hsub (set_recv i c) data (put_con x (set_recv i c) o)). }
  destruct (Z.ltb_spec (zlen data) sizeof_socks_udp_header) as [Hs|Hs]; [by exists (remote_addr c), None; rewrite <- Ec|]. unfold sizeof_socks_udp_header in Hs.
  assert (Hg : ∀ k, 0 ≤ k < 4 → ∃ b, mget data k = Ret b).
  { intros k Hk. unfold mget. if_true. destruct (data !! Z.to_nat k) eqn:E; [by eexists|]. apply lookup_ge_None in E. lia. }
  destruct (Hg 2) as [frag ->]; [lia|]. destruct (Hg 3) as [atyp ->]; [lia|]. rewrite !bind_Ret.
  destruct (negb (frag =? 0)); [by exists (remote_addr c), None; rewrite <- Ec|].
  destruct (received_addr atyp (drop 4 data)) as [[rem rest]|]; [|by exists (remote_addr c), None; rewrite <- Ec].
  exists rem. rewrite put_twice. by apply (Hsub (set_remote rem (set_recv i c)) rest (put_con x (set_remote rem (set_recv i c)) o)).
Qed.

Lemma receive_datagram_ok o lg x c data : cl_ok o lg → conns o !! x = Some c → JFirst x ∉ jobs o → zlen data ≤ udp_mtu o →
  ∃ o' r, receive_datagram x data o = Ret (o', r) ∧ cl_ok o' lg ∧ (∃ c', o' = put_con x c' o ∧ local_addr c' = local_addr c) ∧
    ∀ l a d, r = Some (l, a, d) → l = local_addr c ∧ zlen d ≤ udp_mtu o.
Proof.
  intros Hok Hc HF Hl. destruct (k_cons _ _ Hok x c Hc) as (g & Hg & q & ph & Hch & Hr & Ha & Hi & Hf). rewrite decide_False in Hf by done.
  destruct (busy_done _ _ data Hi Hl) as (i1 & i2 & i3 & E1 & E2 & E3 & i4 & E4 & H4). unfold receive_datagram, get_con. rewrite Hc, bind_Ret, E1, bind_Ret, E2, bind_Ret.
  destruct (k_mtu _ _ Hok) as [Hm _]. destruct (dgram_handler_ok (put_con x (set_recv i2 c) o) x (set_recv i2 c) data i3) as (rem & r & -> & Hres);
    [by cbn; rewrite lookup_insert_eq|cbn; lia|done|]. rewrite bind_Ret, put_twice. cbn [conns put_con set_conns]. rewrite lookup_insert_eq, bind_Ret.
  cbn [recv_if set_remote set_recv]. rewrite E4, bind_Ret. rewrite put_twice. eexists _, r. split; [done|]. split.
  - replace (put_con _ _ _) with (set_jobs (jobs o) (put_con x (mkcon (local_addr c) rem (first_data c) (first_data_len c) (is_dns c) (send_addr c) (send_chan c) i4) o)) by (by destruct o).
    apply (cl_put_same o lg x c _ _ g); try done; [apply Hok|]. exists q, ph. rewrite decide_False by done. by split_and!.
  - split; [by eexists|]. intros l a d E. by destruct (Hres l a d E) as (-> & _ & ?).
Qed.

Lemma device_overwrite_ok o lg m : cl_ok o lg → JDevice ∉ jobs o → cl_ok (set_device m o) lg.
Proof.
  intros Hok Hd. pose proof Hok as [H1 H2 H3 H4 H5 H6 H7 H8 H9]. split; try done; cbn. intros x c Hc. destruct (H9 x c Hc) as (g & Hg & Hco). exists g. split; [done|].
  eapply con_ok_dev; [|exact Hco]. intros HF. by eapply Hd, first_has_device.
Qed.

(** ** The table *)
Lemma length_unlink (x : loc) l : NoDup l → x ∈ l → S (length (filter (λ y, y ≠ x) l)) = length l.
Proof.
  induction l as [|y l IH]; intros Hn Hx; [by apply elem_of_nil in Hx|]. apply NoDup_cons in Hn as [Hy Hn]. destruct (decide (y = x)) as [->|Hne].
  - rewrite filter_cons_False by (by intros ?). cbn. f_equal. f_equal. clear IH Hn Hx. induction l as [|z l IH]; [done|].
    apply not_elem_of_cons in Hy as [Hz Hy]. rewrite filter_cons_True by congruence. by rewrite IH.
  - rewrite filter_cons_True by done. cbn. f_equal. apply IH; [done|]. by apply elem_of_cons in Hx as [->|].
Qed.

Definition quiet (o : client) : Prop := ∀ j, j ∈ jobs o → job_con j = None.
Lemma drop_quiet j o x : quiet o → job_con j = Some x → drop_job j o = o.
Proof.
  intros Hq Hj. unfold drop_job. replace (filter (λ k, k ≠ j) (jobs o)) with (jobs o); [by destruct o|].
  assert (H : ∀ l : list job, (∀ k, k ∈ l → job_con k = None) → l = filter (λ k, k ≠ j) l); [|by apply H].
  induction l as [|k l IH]; intros Hl; [done|]. rewrite filter_cons_True; [f_equal; apply IH; intros; apply Hl; by right|].
  intros ->. rewrite Hl in Hj; [done|by left].
Qed.

Lemma relay_free_ok o lg x c : cl_ok o lg → conns o !! x = Some c → quiet o →
  ∃ t, connection_free x o = Ret (set_conns (delete x (conns o)) (set_tree t (set_list (filter (λ y, y ≠ x) (connections_list o)) (set_num (num_connections o - 1) o)))) ∧
    cl_ok (set_conns (delete x (conns o)) (set_tree t (set_list (filter (λ y, y ≠ x) (connections_list o)) (set_num (num_connections o - 1) o)))) lg.
Proof.
  intros Hok Hc Hq. pose proof Hok as [H1 H2 (mm & Hh & Hmm) H4 [H5 H5'] H6 H7 H8 H9]. unfold connection_free, get_con. rewrite Hc, bind_Ret.
  assert (Hx : x ∈ connections_list o) by (apply H5'; by rewrite Hc). unfold list_unlink. cbn [connections_list set_num]. rewrite bool_decide_true, bind_Ret by done.
  cbn [connections_tree set_list set_num]. assert (Hin : (x, local_addr c) ∈ mm) by (apply Hmm; by exists c).
  apply list_elem_of_split in Hin as (m1 & m2 & ->). pose proof (holds_nodup _ _ _ Hh) as Hnd.
  destruct (remove_ok _ _ _ _ _ _ Hh) as (t & E & Ht). rewrite E, bind_Ret. exists (free_node x t).
  rewrite fmap_app, fmap_cons in Hnd. cbn [fst] in Hnd. apply NoDup_app in Hnd as (Hn1 & Hd & [Hn2 Hn3]%NoDup_cons).
  assert (Hxm : x ∉ (m1 ++ m2).*1). { rewrite fmap_app. intros [Hin|Hin]%elem_of_app; [|done]. apply (Hd x Hin). by left. }
  rewrite (drop_quiet (JArrive x) _ x), (drop_quiet (JRequest x) _ x) by done. split; [done|]. split; try done; cbn.
  - exists (m1 ++ m2). split; [by apply holds_free|]. intros y v. destruct (decide (y = x)) as [->|Hne].
    + rewrite lookup_delete_eq. split; [|by intros (? & ? & ?)]. intros Hin. destruct Hxm. apply list_elem_of_fmap. by exists (x, v).
    + rewrite lookup_delete_ne by done. rewrite <- Hmm. rewrite !elem_of_app, elem_of_cons. split; [tauto|]. intros [?|[[=]|?]]; tauto.
  - unfold cells, free_node. cbn. rewrite !dom_delete_L. apply remove_cells in E. unfold cells in E, H4. congruence.
  - split; [by apply NoDup_filter|]. intros y. rewrite list_elem_of_filter, H5'. destruct (decide (y = x)) as [->|Hne].
    + rewrite lookup_delete_eq. split; [by intros [? _]|by intros []].
    + rewrite lookup_delete_ne by done. tauto.
  - pose proof (length_unlink x _ H5 Hx). lia.
  - intros j y Hj Hy. by rewrite (Hq j Hj) in Hy.
  - intros y cy. destruct (decide (y = x)) as [->|Hne]; [by rewrite lookup_delete_eq|]. rewrite lookup_delete_ne by done. apply H9.
Qed.

(** A connection is added at the end of the list, its first packet pending. *)
Lemma cl_add o lg x c t p mm1 mm2 :
  cl_ok o lg → jobs o = [JDevice] → conns o !! x = None →
  BavlSpec.holds udp_conaddr_comparator (connections_tree o) (mm1 ++ mm2) → (∀ y v, (y, v) ∈ mm1 ++ mm2 ↔ ∃ c, conns o !! y = Some c ∧ local_addr c = v) →
  BavlSpec.holds udp_conaddr_comparator t (mm1 ++ (x, local_addr c) :: mm2) → cells t = {[x]} ∪ dom (conns o) →
  num_connections o < max_connections o → ch_ok (send_chan c) (udp_mtu o) [] CRequest → recv_idle (udp_mtu o) (recv_if c) →
  mread (device_buf o) (first_data c) (first_data_len c) = Ret p → zlen (udp_wire (remote_addr c) (is_dns c) p) ≤ udp_mtu o →
  cl_ok (put_con x c (set_num (num_connections o + 1) (set_list (connections_list o ++ [x]) (set_tree t (set_jobs [JRequest x; JFirst x; JDevice] o)))))
    (<[x := ([udp_wire (remote_addr c) (is_dns c) p], [])]> lg).
Proof.
  intros [H1 H2 _ H4 [H5 H5'] H6 H7 H8 H9] Hj Hx Hh Hmm Ht Hcells Hlt Hch Hi Hp Hw.
  assert (Hxl : x ∉ connections_list o) by (rewrite H5', Hx; by intros []).
  split; try done; cbn.
  - exists (mm1 ++ (x, local_addr c) :: mm2). split; [done|]. intros y v. destruct (decide (y = x)) as [->|Hne].
    + rewrite lookup_insert_eq. split; [|intros (c0 & Ec & <-); injection Ec as ->; set_solver].
      intros [Hin|[E|Hin]%elem_of_cons]%elem_of_app; [|injection E as ->; by exists c|].
      * destruct (proj1 (Hmm x v)) as (? & ? & _); [set_solver|congruence].
      * destruct (proj1 (Hmm x v)) as (? & ? & _); [set_solver|congruence].
    + rewrite lookup_insert_ne by done. rewrite <- Hmm, !elem_of_app, elem_of_cons. split; [|tauto]. intros [?|[[=]|?]]; tauto.
  - by rewrite dom_insert_L.
  - split; [apply NoDup_app; split; [done|split; [intros y Hy ->%list_elem_of_singleton; done|apply NoDup_singleton]]|].
    intros y. rewrite elem_of_app, list_elem_of_singleton, H5'. destruct (decide (y = x)) as [->|Hne]; [rewrite lookup_insert_eq; split; [by eexists|by right]|].
    rewrite lookup_insert_ne by done. split; [intros [?|?]; done|by left].
  - rewrite length_app. cbn. lia.
  - split; [repeat (apply NoDup_cons; split; [set_solver|]); apply NoDup_nil_2|]. exists [JRequest x], [JFirst x; JDevice]. split; [done|].
    split; [by constructor|]. right. right. by exists x.
  - intros j y Hin Hy. assert (y = x) as ->; [|rewrite lookup_insert_eq; by eexists].
    apply elem_of_cons in Hin as [->|[->|[->|[]%elem_of_nil]%elem_of_cons]%elem_of_cons]; cbn in Hy; congruence.
  - intros y cy. destruct (decide (y = x)) as [->|Hne].
    + rewrite !lookup_insert_eq. intros [= <-]. eexists. split; [done|]. exists [], CRequest. split; [done|]. split; [split; [done|by left]|].
      split; [split; [set_solver|by intros (? & ?)]|]. split; [done|]. rewrite decide_True by set_solver. split; [done|]. split; [by left|]. by exists p.
    + rewrite !lookup_insert_ne by done. intros Hcy. destruct (H9 y cy Hcy) as (g & Hg & Hco). exists g. split; [done|].
      eapply con_ok_jobs; [|exact Hco]. intros j Hy. rewrite Hj. cbn in Hy.
      rewrite (other_job j y x (JRequest x)), (other_job j y x (JFirst x)) by done. done.
Qed.
