(* ===== verification/SocksUdpGwSubmit.v ===== *)
(** * The UDP relay: packets from the device

    What [SocksUdpGwClient_SubmitPacket] does with a packet, on every branch: the
    connection of its local address is found and used again, or the least
    recently used connection makes place for a new one. *)
From S2P Require Import Prelude Encrypt AvlTree Bavl BavlSpec BavlSet BavlCells ChunkBuffer PacketPassInterface BadvpnMisc DeviceUdp DeviceUdpSpec PacketRecvInterface UdpChannel SocksUdpGw SocksUdpGwOrder SocksUdpGwInv.
From stdpp Require Import gmap.
#[local] Open Scope Z_scope.
#[local] Set Warnings "-clear-no-such-hyp".

(** ** The table as a list

    The local addresses of the connections, least recently used first. *)
Definition local_at (o : client) (x : loc) : option Addr := local_addr <$> conns o !! x.
Definition lru (o : client) : list Addr := omap (local_at o) (connections_list o).

(** What a packet from [local] does to it; [ok] if it found memory and room. *)
Definition lru_submit (max : Z) (local : Addr) (ok : bool) (l : list Addr) : list Addr :=
  if bool_decide (local ∈ l) then if ok then filter (λ a, a ≠ local) l ++ [local] else l
  else let l := if zlen l =? max then tail l else l in if ok then l ++ [local] else l.

Definition accepted (r : submitted) : bool := match r with SCreated _ | SQueued _ => true | _ => false end.

(** The record of what each connection was given. *)
Definition log_given (r : submitted) (w : list Z) (lg : gmap loc traffic) : gmap loc traffic :=
  match r with
  | SCreated x => <[x := ([w], [])]> lg
  | SQueued x => match lg !! x with Some g => <[x := (g.1 ++ [w], g.2)]> lg | None => lg end
  | _ => lg
  end.

(** What the system answers: [malloc] returns memory that is free, possibly that
    of the connection that was just removed. *)
Definition malloc_ok (e : init_env) (o : client) : Prop := ∀ x, e_malloc e = Some x → conns o !! x = None.
Definition env_ok (e : init_env) (o : client) : Prop :=
  alloc_ok (e_alloc e) ∧
  ∀ x, e_malloc e = Some x → conns o !! x = None ∨ (num_connections o = max_connections o ∧ head (connections_list o) = Some x).

(** ** The table *)
Lemma omap_ext_in {A B} (f g : A → option B) (l : list A) : (∀ x, x ∈ l → f x = g x) → omap f l = omap g l.
Proof. induction l as [|x l IH]; intros H; [done|]. cbn. rewrite (H x) by (by left). rewrite IH; [done|]. intros y Hy. apply H. by right. Qed.

Lemma filter_ne_absent {A} `{!EqDecision A} (x : A) (l : list A) : x ∉ l → filter (λ y, y ≠ x) l = l.
Proof.
  induction l as [|y l IH]; intros H; [done|]. apply not_elem_of_cons in H as [Hy H]. rewrite filter_cons_True by congruence. by rewrite IH.
Qed.

Lemma lru_length o lg : cl_ok o lg → zlen (lru o) = num_connections o.
Proof.
  intros Hok. destruct (k_list _ _ Hok) as [_ Hl]. rewrite (proj1 (k_num _ _ Hok)). unfold lru, local_at. f_equal.
  assert (H : ∀ l, (∀ x, x ∈ l → is_Some (conns o !! x)) → length (omap (λ x, local_addr <$> conns o !! x) l) = length l).
  { induction l as [|x l IH]; intros Hin; [done|]. cbn. destruct (Hin x) as [c ->]; [by left|]. cbn. f_equal. apply IH. intros y Hy. apply Hin. by right. }
  apply H. intros x. by rewrite Hl.
Qed.

Lemma elem_lru o lg a : cl_ok o lg → a ∈ lru o ↔ ∃ x c, conns o !! x = Some c ∧ local_addr c = a.
Proof.
  intros Hok. unfold lru, local_at. rewrite list_elem_of_omap. destruct (k_list _ _ Hok) as [_ Hl]. split.
  - intros (x & _ & Hx). destruct (conns o !! x) as [c|] eqn:E; [|done]. injection Hx as Hx. by exists x, c.
  - intros (x & c & Hc & Ha). exists x. rewrite Hc. split; [|by rewrite <- Ha]. apply Hl. by rewrite Hc.
Qed.

Lemma find_ok o lg local : cl_ok o lg →
  (find_connection local o = Ret None ∧ local ∉ lru o) ∨
  ∃ x c, find_connection local o = Ret (Some x) ∧ conns o !! x = Some c ∧ local_addr c = local ∧ local ∈ lru o.
Proof.
  intros Hok. destruct (k_tree _ _ Hok) as (mm & Hh & Hmm). unfold find_connection. destruct (lookup_exact_ok _ _ _ local Hh) as ([x|] & -> & H).
  - right. apply Hmm in H as (c & Hc & Hl). exists x, c. split_and!; try done. apply (elem_lru _ _ _ Hok). by exists x, c.
  - left. split; [done|]. rewrite (elem_lru _ _ _ Hok). intros (x & c & Hc & Hl). apply H. apply list_elem_of_fmap. exists (x, local). split; [done|]. apply Hmm. by exists c.
Qed.

(** Two connections have different local addresses. *)
Lemma local_inj o lg x y c d : cl_ok o lg → conns o !! x = Some c → conns o !! y = Some d → local_addr c = local_addr d → x = y.
Proof.
  intros Hok Hc Hd E. destruct (k_tree _ _ Hok) as (mm & Hh & Hmm). destruct Hh as (s & H & Hb & Hm & Hs). 
  assert (Hx : (x, local_addr c) ∈ mm) by (apply Hmm; by exists c). assert (Hy : (y, local_addr c) ∈ mm) by (apply Hmm; by exists d).
  apply list_elem_of_split in Hx as (m1 & m2 & ->). apply (sorted_app _) in Hs as (_ & [_ H2]%sorted_cons & H3).
  apply elem_of_app in Hy as [Hy|[Hy|Hy]%elem_of_cons].
  - specialize (H3 _ (x, local_addr c) Hy ltac:(by left)). unfold below in H3. cbn [snd] in H3. by rewrite (cmp_refl udp_conaddr_comparator) in H3.
  - congruence.
  - specialize (H2 _ Hy). unfold below in H2. cbn [snd] in H2. by rewrite (cmp_refl udp_conaddr_comparator) in H2.
Qed.

(** ** Eviction *)
Lemma evict_ok o lg local x l : cl_ok o lg → jobs o = [JDevice] → local ∉ lru o → connections_list o = x :: l →
  ∃ o', remove_lru_connection local o = Ret o' ∧ cl_ok o' lg ∧ jobs o' = [JDevice] ∧ device_buf o' = device_buf o ∧ lru o' = tail (lru o) ∧
    num_connections o' = num_connections o - 1 ∧ max_connections o' = max_connections o ∧ udp_mtu o' = udp_mtu o ∧ conns o' = delete x (conns o).
Proof.
  intros Hok Hj Hloc Hl. unfold remove_lru_connection. destruct (find_ok o lg local Hok) as [[-> _]|(y & c & _ & _ & _ & Hin)]; [|done].
  rewrite !bind_Ret. cbn [assert]. rewrite !bind_Ret. pose proof (k_num _ _ Hok) as [Hn _]. rewrite Hl in Hn. cbn in Hn. rewrite (assert_true (0 <? _)), bind_Ret by lia. rewrite Hl.
  destruct (k_list _ _ Hok) as [Hnd Hlist]. assert (Hx : is_Some (conns o !! x)) by (apply Hlist; rewrite Hl; by left). destruct Hx as [c Hc].
  assert (Hq : quiet o) by (intros j; rewrite Hj; by intros ->%list_elem_of_singleton).
  destruct (relay_free_ok o lg x c Hok Hc Hq) as (t & -> & Hok'). eexists. split; [done|]. split; [exact Hok'|]. cbn. split_and!; try done.
  rewrite Hl in Hnd |- *. apply NoDup_cons in Hnd as [Hxl Hnd]. rewrite filter_cons_False by (by intros ?).
  rewrite filter_ne_absent by done. unfold lru. rewrite Hl. cbn. unfold local_at at 2. rewrite Hc. cbn.
  apply omap_ext_in. intros y Hy. unfold local_at. cbn. rewrite lookup_delete_ne; [done|]. congruence.
Qed.

(** ** A new connection *)
Lemma drop_push j o x : quiet o → job_con j = Some x → drop_job j (push_job j o) = o.
Proof.
  intros Hq Hj. unfold drop_job, push_job. cbn [jobs set_jobs]. rewrite filter_cons_False by (by intros ?).
  rewrite filter_ne_absent by (intros Hin; rewrite (Hq j Hin) in Hj; done). by destruct o.
Qed.
Lemma drop_push2 j k o x y : quiet o → job_con j = Some x → job_con k = Some y → drop_job k (drop_job j (push_job j (push_job k o))) = o.
Proof.
  intros Hq Hj Hk. assert (E : drop_job j (push_job j (push_job k o)) = drop_job j (push_job k o)).
  { unfold drop_job, push_job. cbn [jobs set_jobs]. rewrite filter_cons_False by (by intros ?). by destruct o. }
  rewrite E. destruct (decide (j = k)) as [->|Hne].
  - rewrite (drop_push k o y) by done. by eapply drop_quiet.
  - unfold drop_job, push_job. cbn [jobs set_jobs]. rewrite (filter_cons_True _ k) by congruence. rewrite filter_cons_False by (by intros ?).
    rewrite !filter_ne_absent; [by destruct o| |]; intros Hin; [rewrite (Hq j Hin) in Hj|apply list_elem_of_filter in Hin as [_ Hin]; rewrite (Hq k Hin) in Hk]; done.
Qed.

(** The new node goes into the tree. *)
Lemma tree_add o lg x local : cl_ok o lg → conns o !! x = None → local ∉ lru o →
  ∃ t ref mm1 mm2, BAVL_Insert udp_conaddr_comparator x (alloc_node x local (connections_tree o)) = Ret (t, true, ref) ∧
    BavlSpec.holds udp_conaddr_comparator (connections_tree o) (mm1 ++ mm2) ∧
    (∀ y v, (y, v) ∈ mm1 ++ mm2 ↔ ∃ c, conns o !! y = Some c ∧ local_addr c = v) ∧
    BavlSpec.holds udp_conaddr_comparator t (mm1 ++ (x, local) :: mm2) ∧ cells t = {[x]} ∪ dom (conns o).
Proof.
  intros Hok Hx Hloc. destruct (k_tree _ _ Hok) as (mm & Hh & Hmm). pose proof (k_cells _ _ Hok) as Hc.
  assert (Hfresh : x ∉ dom (heap (connections_tree o))). { unfold cells in Hc. rewrite Hc. by apply not_elem_of_dom. }
  destruct (holds_alloc _ _ _ x local Hh Hfresh) as [Hh' Hxm].
  destruct (insert_ok udp_conaddr_comparator (alloc_node x local (connections_tree o)) mm x (Node (Some x) (Some x) (Some x) 77 local) Hh') as (t & ok & ref & E & H);
    [apply lookup_insert_eq|done|]. destruct ok; cbn [value] in H.
  - destruct H as (m1 & m2 & -> & _ & Ht & _). exists t, ref, m1, m2. split_and!; try done.
    apply insert_cells in E. rewrite E. unfold cells, alloc_node in *. cbn. by rewrite dom_insert_L, Hc.
  - destruct H as (_ & y & _ & Hy). destruct Hloc. apply (elem_lru _ _ _ Hok). apply Hmm in Hy as (c & Hcy & Hly). by exists y, c.
Qed.

Lemma recv_init mt : 0 ≤ mt → ∃ i0 i, PacketPassInterface_Init mt = Ret i0 ∧ PacketPassInterface_Sender_Init i0 = Ret i ∧ recv_idle mt i.
Proof. intros Hm. unfold PacketPassInterface_Init. rewrite (assert_true (0 <=? mt)), bind_Ret by lia. by eexists _, _. Qed.

Lemma udp_con_init_ok e local remote data data_len dns o lg p :
  cl_ok o lg → jobs o = [JDevice] → alloc_ok (e_alloc e) → malloc_ok e o → local ∉ lru o → num_connections o < max_connections o →
  mread (device_buf o) data data_len = Ret p → zlen (udp_wire remote dns p) ≤ udp_mtu o →
  connection_init e local remote data data_len dns o = Ret (o, None) ∨
  ∃ o' x, connection_init e local remote data data_len dns o = Ret (o', Some x) ∧ cl_ok o' (<[x := ([udp_wire remote dns p], [])]> lg) ∧
    lru o' = lru o ++ [local].
Proof.
  intros Hok Hj Ha Hm Hloc Hlt Hp Hw. assert (Hq : quiet o) by (intros j; rewrite Hj; by intros ->%list_elem_of_singleton).
  unfold connection_init. destruct (e_malloc e) as [x|] eqn:Em; [|by left]. specialize (Hm x Em).
  assert (Hd1 : drop_job (JFirst x) (push_job (JFirst x) o) = o) by (by eapply drop_push).
  assert (Hd2 : drop_job (JFirst x) (drop_job (JRequest x) (push_job (JRequest x) (push_job (JFirst x) o))) = o) by (by eapply drop_push2).
  destruct (e_dgram e); cbn [negb]; [|left; by rewrite Hd1]. destruct (e_reuse e); cbn [negb]; [|left; by rewrite Hd1].
  destruct (k_mtu _ _ Hok) as [Hmt Hbb]. change (udp_mtu (push_job _ _)) with (udp_mtu o).
  destruct (ch_init_ok (e_alloc e) (udp_mtu o) CONNECTION_UDP_BUFFER_SIZE ltac:(lia) ltac:(done) Ha Hbb) as [->|(ch & -> & Hch)]; rewrite bind_Ret; [left; by rewrite Hd1|].
  destruct (recv_init (udp_mtu o)) as (i0 & i & E0 & Ei & Hi); [lia|]. change (udp_mtu (push_job _ _)) with (udp_mtu o). rewrite E0, bind_Ret, Ei, bind_Ret.
  destruct (e_recv e); cbn [negb]; [|left; by rewrite Hd2]. right.
  destruct (tree_add o lg x local Hok Hm Hloc) as (t & ref & mm1 & mm2 & Et & Hh & Hmm & Ht & Hcells). cbn [connections_tree push_job set_jobs].
  rewrite Et, bind_Ret. cbn [assert]. rewrite bind_Ret. eexists _, x. split; [done|]. split.
  - pose proof (cl_add o lg x (mkcon local remote data data_len dns (if dns then dnsgw o else socks_server_addr o) ch i) t p mm1 mm2) as Hadd.
    destruct o; cbn in *. rewrite Hj. apply Hadd; done.
  - destruct (k_list _ _ Hok) as [_ Hl]. unfold lru. cbn [connections_list put_con set_conns set_num set_list]. rewrite omap_app. f_equal.
    + apply omap_ext_in. intros y Hy. unfold local_at. cbn. rewrite lookup_insert_ne; [done|]. intros <-. apply Hl in Hy. rewrite Hm in Hy. by destruct Hy.
    + cbn. unfold local_at. cbn. by rewrite lookup_insert_eq.
Qed.

(** ** A connection that exists *)

(** The key of the tree node is the address that it was found by. *)
Lemma reset_ok o lg x c remote dns : cl_ok o lg → conns o !! x = Some c →
  reset_connection x (local_addr c) remote dns o = Ret (put_con x (set_conaddr (local_addr c) remote dns c) o).
Proof.
  intros Hok Hc. destruct (k_tree _ _ Hok) as (mm & Hh & Hmm). destruct (holds_value _ _ _ x (local_addr c) Hh) as (n & En & Hv); [apply Hmm; by exists c|].
  unfold reset_connection, get_con, upd, get. rewrite Hc, bind_Ret, En, !bind_Ret. rewrite <- Hv. destruct n. cbn. rewrite insert_id by done.
  destruct o as [? ? ? ? ? ? [? ?] ? ? ? ?]. done.
Qed.

Lemma list_move_ok o lg x : cl_ok o lg → x ∈ connections_list o → cl_ok (set_list (filter (λ y, y ≠ x) (connections_list o) ++ [x]) o) lg.
Proof.
  intros [H1 H2 H3 H4 [H5 H5'] [H6 H6'] H7 H8 H9] Hx. split; try done; cbn.
  - split.
    + apply NoDup_app. split; [by apply NoDup_filter|]. split; [|apply NoDup_singleton]. intros y [Hy _]%list_elem_of_filter ->%list_elem_of_singleton. done.
    + intros y. rewrite <- H5', elem_of_app, list_elem_of_filter, list_elem_of_singleton. destruct (decide (y = x)) as [->|]; tauto.
  - split; [|done]. rewrite length_app. cbn. pose proof (length_unlink x _ H5 Hx). lia.
Qed.

Lemma lru_move o lg x c : cl_ok o lg → conns o !! x = Some c →
  lru (set_list (filter (λ y, y ≠ x) (connections_list o) ++ [x]) o) = filter (λ a, a ≠ local_addr c) (lru o) ++ [local_addr c].
Proof.
  intros Hok Hc. unfold lru. cbn [connections_list set_list]. rewrite omap_app. f_equal.
  2: { cbn. unfold local_at. cbn. by rewrite Hc. }
  change (local_at (set_list _ o)) with (local_at o). induction (connections_list o) as [|y l IH]; [done|].
  assert (Ho : ∀ l, omap (local_at o) (y :: l) = match local_at o y with Some a => a :: omap (local_at o) l | None => omap (local_at o) l end) by done.
  rewrite Ho. destruct (decide (y = x)) as [->|Hne].
  - rewrite (filter_cons_False (λ y, y ≠ x)) by (by intros ?). unfold local_at at 2. rewrite Hc. cbn [fmap option_fmap option_map].
    rewrite filter_cons_False by (by intros ?). exact IH.
  - rewrite (filter_cons_True (λ y, y ≠ x)) by done. rewrite Ho. destruct (local_at o y) as [a|] eqn:Ed; [|exact IH].
    unfold local_at in Ed. destruct (conns o !! y) as [d|] eqn:Ey; [|done]. injection Ed as <-. rewrite filter_cons_True; [by rewrite <- IH|]. intros E. apply Hne. by eapply local_inj.
Qed.

(** The local addresses do not change when a connection keeps its own. *)
Lemma lru_put o x c c' : conns o !! x = Some c → local_addr c' = local_addr c → lru (put_con x c' o) = lru o.
Proof.
  intros Hc Hl. unfold lru. cbn [connections_list put_con set_conns]. apply omap_ext_in. intros y _. unfold local_at. cbn.
  destruct (decide (y = x)) as [->|]; [rewrite lookup_insert_eq, Hc; cbn; by f_equal|by rewrite lookup_insert_ne].
Qed.

Lemma hit_ok o lg x c remote dns data data_len p :
  cl_ok o lg → jobs o = [JDevice] → conns o !! x = Some c → mread (device_buf o) data data_len = Ret p → zlen (udp_wire remote dns p) ≤ udp_mtu o →
  ∃ o' res, (o ← reset_connection x (local_addr c) remote dns o; connection_send x data data_len o) = Ret (o', res) ∧ (res = 0 ∨ res = 1) ∧
    cl_ok o' (if res =? 1 then lg else log_given (SQueued x) (udp_wire remote dns p) lg) ∧ lru o' = lru o ∧ connections_list o' = connections_list o ∧
    ∃ c', conns o' !! x = Some c' ∧ local_addr c' = local_addr c.
Proof.
  intros Hok Hj Hc Hp Hw. rewrite (reset_ok o lg x c) by done. rewrite bind_Ret. set (c1 := set_conaddr (local_addr c) remote dns c).
  destruct (k_cons _ _ Hok x c Hc) as (g & Hg & q & ph & Hch & Hr & Ha & Hi & Hf). rewrite Hj in Hr, Ha, Hf. rewrite decide_False in Hf by set_solver.
  assert (Hc1 : conns (put_con x c1 o) !! x = Some c1) by (cbn; by rewrite lookup_insert_eq). pose proof (k_jobs _ _ Hok) as Hjo. rewrite Hj in Hjo.
  destruct ph as [| | |pk].
  - rewrite (send_full x data data_len (put_con x c1 o) c1 q CFull) by done. eexists _, 1. split; [done|]. split; [by right|]. cbn [Z.eqb]. split; [|split; [by apply lru_put with c|split; [done|by exists c1]]].
    replace (put_con x c1 o) with (set_jobs [JDevice] (put_con x c1 o)) by (destruct o; cbn in *; by subst). apply (cl_put_same o lg x c _ _ g); try done; [by rewrite Hj|].
    exists q, CFull. rewrite decide_False by set_solver. by split_and!.
  - exfalso. assert (Hin : JRequest x ∈ [JDevice]) by (by apply Hr). set_solver.
  - destruct (send_room x data data_len (put_con x c1 o) c1 q COffer p Hc1 Hch eq_refl Hp Hw) as (ch & -> & Hch'). eexists _, 0. split; [done|]. split; [by left|]. cbn [Z.eqb].
    rewrite put_twice. split; [|split; [by apply (lru_put o x c)|split; [done|eexists; split; [cbn; apply lookup_insert_eq|done]]]]. unfold log_given. rewrite Hg.
    unfold push_job. cbn [jobs put_con set_conns]. rewrite Hj. apply (cl_put o lg x c); try done.
    + apply jobs_ok_push; [done|done|set_solver].
    + intros k y Hk Hy. rewrite Hj. by rewrite (other_job k y x (JArrive x)).
    + exists q, (CArriving (udp_wire remote dns p)). split; [done|]. split; [split; [set_solver|done]|]. split; [split; [by eexists|intros; by left]|]. split; [done|].
      rewrite decide_False by set_solver. cbn [fst snd]. rewrite Hf. unfold ch_held. by list_simplifier.
  - exfalso. assert (Hin : JArrive x ∈ [JDevice]) by (apply Ha; by eexists). set_solver.
Qed.

(** ** Submitting *)
Lemma wire_payload remote dns p : zlen p ≤ zlen (udp_wire remote dns p).
Proof. unfold udp_wire. destruct dns; [lia|]. rewrite !length_app. lia. Qed.

Lemma submit_miss e local remote dns data data_len o lg p :
  cl_ok o lg → jobs o = [JDevice] → env_ok e o → local ∉ lru o →
  mread (device_buf o) data data_len = Ret p → zlen (udp_wire remote dns p) ≤ udp_mtu o →
  ∃ o' r, (o ← (if num_connections o =? max_connections o then remove_lru_connection local o else Ret o);
           connection_init e local remote data data_len dns o) = Ret (o', r) ∧
    cl_ok o' (match r with Some x => <[x := ([udp_wire remote dns p], [])]> lg | None => lg end) ∧
    lru o' = let l := if zlen (lru o) =? max_connections o then tail (lru o) else lru o in match r with Some _ => l ++ [local] | None => l end.
Proof.
  intros Hok Hj [Ha Hm] Hloc Hp Hw. rewrite (lru_length o lg Hok). pose proof (k_num _ _ Hok) as [Hn Hle]. destruct (Z.eqb_spec (num_connections o) (max_connections o)) as [E|E].
  - pose proof (k_max _ _ Hok). destruct (connections_list o) as [|x l] eqn:El; [cbn in Hn; lia|].
    destruct (evict_ok o lg local x l Hok Hj Hloc El) as (o1 & -> & Hok1 & Hj1 & Hd1 & Hl1 & Hn1 & Hm1 & Hu1 & Hc1). rewrite bind_Ret.
    assert (Hloc1 : local ∉ lru o1). { rewrite Hl1. intros Hin. apply Hloc. destruct (lru o); [done|by right]. }
    destruct (udp_con_init_ok e local remote data data_len dns o1 lg p) as [->|(o2 & y & -> & Hok2 & Hl2)]; try done; try congruence.
    + intros y Ey. rewrite Hc1. destruct (Hm y Ey) as [H0|[_ Hy]]; [|injection Hy as ->; apply lookup_delete_eq]. rewrite lookup_delete_None. by right.
    + lia.
    + by exists o1, None.
    + exists o2, (Some y). split; [done|]. split; [done|]. cbn zeta. by rewrite Hl2, Hl1.
  - rewrite bind_Ret. destruct (udp_con_init_ok e local remote data data_len dns o lg p) as [->|(o2 & y & -> & Hok2 & Hl2)]; try done.
    + intros y Ey. by destruct (Hm y Ey) as [H0|[? _]].
    + lia.
    + by exists o, None.
    + by exists o2, (Some y).
Qed.

Lemma submit_ok e local remote dns data data_len o lg p :
  cl_ok o lg → jobs o = [JDevice] → env_ok e o → is_ip (`local) = true → is_ip remote = true →
  mread (device_buf o) data data_len = Ret p → zlen (udp_wire remote dns p) ≤ udp_mtu o →
  ∃ o' r, SocksUdpGwClient_SubmitPacket e local remote dns data data_len o = Ret (o', r) ∧
    cl_ok o' (log_given r (udp_wire remote dns p) lg) ∧ lru o' = lru_submit (max_connections o) local (accepted r) (lru o).
Proof.
  intros Hok Hj He Hli Hri Hp Hw. pose proof (mread_Ret _ _ _ _ Hp) as (_ & Hl0 & _ & _ & Hlp). pose proof (wire_payload remote dns p).
  unfold SocksUdpGwClient_SubmitPacket. rewrite Hli, Hri. cbn [assert]. rewrite (assert_true (0 <=? _)), (assert_true (_ <=? _)), !bind_Ret by lia.
  unfold lru_submit. destruct (find_ok o lg local Hok) as [[-> Hloc]|(x & c & -> & Hc & <- & Hin)]; rewrite bind_Ret.
  - rewrite bool_decide_false by done. destruct (submit_miss e local remote dns data data_len o lg p) as (o' & r & E & Hok' & Hl'); try done.
    apply bind_Ret_inv in E as (o1 & -> & E). rewrite bind_Ret, E, bind_Ret. eexists _, _. split; [done|]. by destruct r.
  - rewrite bool_decide_true by done. destruct (hit_ok o lg x c remote dns data data_len p) as (o' & res & E & Hres & Hok' & Hl' & Hcl & c' & Hc' & Hlc); try done.
    apply bind_Ret_inv in E as (o1 & -> & E). rewrite bind_Ret, E, bind_Ret. destruct Hres as [->| ->]; cbn [Z.eqb] in *.
    + assert (Hx : x ∈ connections_list o') by (apply (k_list _ _ Hok'); by rewrite Hc'). unfold list_unlink. rewrite bool_decide_true, bind_Ret by done.
      eexists _, _. split; [done|]. split; [by apply list_move_ok|]. cbn [accepted]. rewrite (lru_move o' _ x c' Hok' Hc'). by rewrite Hlc, Hl'.
    + eexists _, _. split; [done|]. by split.
Qed.

(** ** The device *)

(** What a packet from the device may be: bytes, and a datagram in it fits into a
    slot of the send buffer together with the SOCKS header. *)
Definition packet_ok (opts : udp_options) (m : list Z) (o : client) : Prop :=
  bytes_ok m ∧ ∀ s p, process_device_udp_packet opts (udp_mtu o) m = Ret (Some s) → mread m (sub_data s) (sub_len s) = Ret p →
    zlen (udp_wire (sub_remote s) (sub_dns s) p) ≤ udp_mtu o.

Lemma bytes_ok_okb l : bytes_ok l → bytes_okb l = true.
Proof.
  intros H. apply forallb_forall. intros z Hz. apply (proj1 (List.Forall_forall _ _) H) in Hz. unfold is_byte in Hz. lia.
Qed.
Lemma mk_addr_ok a : addr_ok a → ∃ b : Addr, mk_addr a = Ret b ∧ `b = a ∧ is_ip a = true.
Proof.
  intros Ha. assert (Hw : wf_addr a = true).
  { destruct a as [|ip port|ip port]; [done|..]; cbn; destruct Ha as [[-> Hi] [-> Hp]]; by rewrite (bytes_ok_okb _ Hi), (bytes_ok_okb _ Hp). }
  unfold mk_addr. destruct (Sumbool.sumbool_of_bool (wf_addr a)); [|congruence]. eexists. split; [done|]. split; [done|]. by destruct a.
Qed.

(** What the packet [m] is to the relay. *)
Definition packet_of (opts : udp_options) (m : list Z) (o : client) : option (udp_submission * list Z) :=
  match process_device_udp_packet opts (udp_mtu o) m with
  | Ret (Some s) => match mread m (sub_data s) (sub_len s) with Ret p => Some (s, p) | _ => None end
  | _ => None
  end.
Definition log_device (r : option submitted) (sp : option (udp_submission * list Z)) (lg : gmap loc traffic) : gmap loc traffic :=
  match r, sp with
  | Some r, Some (s, p) => log_given r (udp_wire (sub_remote s) (sub_dns s) p) lg
  | _, _ => lg
  end.
Definition lru_device (max : Z) (r : option submitted) (sp : option (udp_submission * list Z)) (l : list Addr) : list Addr :=
  match r, sp with
  | Some r, Some (s, _) => match mk_addr (sub_local s) with Ret a => lru_submit max a (accepted r) l | _ => l end
  | _, _ => l
  end.

Lemma device_ok opts e m o lg : cl_ok o lg → jobs o = [] → env_ok e o → packet_ok opts m o →
  ∃ o' r, device_read_handler_send opts e m o = Ret (o', r) ∧ cl_ok o' (log_device r (packet_of opts m o) lg) ∧
    lru o' = lru_device (max_connections o) r (packet_of opts m o) (lru o) ∧ (is_Some r ↔ is_Some (packet_of opts m o)).
Proof.
  intros Hok Hj He [Hm Hfit]. unfold device_read_handler_send, packet_of.
  assert (Hok1 : cl_ok (push_job JDevice (set_device m o)) lg).
  { unfold push_job. cbn [jobs set_device]. rewrite Hj. apply cl_jobs.
    - apply device_overwrite_ok; [done|]. rewrite Hj. apply not_elem_of_nil.
    - split; [apply NoDup_singleton|]. exists [], [JDevice]. split; [done|]. split; [constructor|]. by right; left.
    - intros j x Hx. cbn [jobs set_device]. rewrite Hj. split; [by intros []%elem_of_nil|]. by intros ->%list_elem_of_singleton. }
  set (o1 := push_job JDevice (set_device m o)) in *. change (udp_mtu o1) with (udp_mtu o).
  destruct (process_sound opts (udp_mtu o) m Hm) as ([s|] & E & Hs); rewrite E, bind_Ret; [|exists o1, None; split; [done|]; split; [done|]; split; [done|by split]].
  destruct (taken_ok opts (udp_mtu o) m s Hm) as (Hlo & Hre & p & Hp & _); [by apply Hs|]. specialize (Hfit s p E Hp). rewrite Hp.
  destruct (mk_addr_ok _ Hlo) as (a & Ea & Hav & Hip). destruct (mk_addr_ok _ Hre) as (_ & _ & _ & Hrip). rewrite Ea, bind_Ret.
  destruct (submit_ok e a (sub_remote s) (sub_dns s) (sub_data s) (sub_len s) o1 lg p) as (o' & r & -> & Hok' & Hl'); try done.
  - unfold o1, push_job. cbn. by rewrite Hj.
  - by rewrite Hav.
  - rewrite bind_Ret. exists o', (Some r). split; [done|]. split; [done|]. split; [unfold lru_device; rewrite Ea; exact Hl'|]. by split; intros _; eexists.
Qed.
