(* ===== verification/SocksUdpGwRun.v ===== *)
(** * The UDP relay: runs

    The relay is driven by packets from the device, by its jobs, by the sockets
    of its connections and by the device taking its read buffer back.  Every
    order of these events that the reactor allows is covered. *)
From S2P Require Import Prelude Encrypt AvlTree Bavl BavlSpec BavlSet BavlCells ChunkBuffer PacketPassInterface BadvpnMisc DeviceUdp DeviceUdpSpec PacketRecvInterface UdpChannel SocksUdpGw SocksUdpGwOrder SocksUdpGwInv SocksUdpGwSubmit.
From stdpp Require Import gmap.
#[local] Open Scope Z_scope.
#[local] Set Warnings "-clear-no-such-hyp".

Inductive udp_event :=
  | EPacket (e : init_env) (m : list Z)       (* a packet from the device *)
  | EJob                                      (* the next pending job *)
  | EOverwrite (m : list Z)                   (* the device reads into its buffer *)
  | ESent (x : loc)                           (* a socket took the packet given to it *)
  | EDatagram (x : loc) (data : list Z).      (* a datagram for a connection *)

(** The relay with what happened: the traffic of each connection, the packets
    submitted (their local address, and whether they were taken), the datagrams
    handed to the user. *)
Record relay := mkrelay { rl : client; traf : gmap loc traffic; subs : list (Addr * bool); got : list (Addr * BAddr * list Z) }.

Definition note_sub (r : option submitted) (sp : option (udp_submission * list Z)) : list (Addr * bool) :=
  match r, sp with
  | Some r, Some (s, _) => match mk_addr (sub_local s) with Ret a => [(a, accepted r)] | _ => [] end
  | _, _ => []
  end.
Definition log_sent (x : loc) (p : list Z) (lg : gmap loc traffic) : gmap loc traffic :=
  match lg !! x with Some g => <[x := (g.1, g.2 ++ [p])]> lg | None => lg end.

Definition udp_step (opts : udp_options) (ev : udp_event) (s : relay) : outcome relay :=
  match ev with
  | EPacket e m =>
      '(o, r) ← device_read_handler_send opts e m (rl s);
      let sp := packet_of opts m (rl s) in
      Ret (mkrelay o (log_device r sp (traf s)) (subs s ++ note_sub r sp) (got s))
  | EJob => o ← run_job (rl s); Ret (mkrelay o (traf s) (subs s) (got s))
  | EOverwrite m => Ret (mkrelay (set_device m (rl s)) (traf s) (subs s) (got s))
  | ESent x => '(o, (_, p)) ← packet_sent x (rl s); Ret (mkrelay o (log_sent x p (traf s)) (subs s) (got s))
  | EDatagram x data =>
      '(o, r) ← receive_datagram x data (rl s);
      Ret (mkrelay o (traf s) (subs s) (got s ++ match r with Some d => [d] | None => [] end))
  end.

Fixpoint udp_run (opts : udp_options) (evs : list udp_event) (s : relay) : outcome relay :=
  match evs with [] => Ret s | ev :: evs => s ← udp_step opts ev s; udp_run opts evs s end.

(** The socket of the connection has a packet to send. *)
Definition is_sending (x : loc) (o : client) : bool := match conns o !! x with Some c => sending (pbuf (send_chan c)) | None => false end.

(** Input from the device is dispatched when no job is pending; the device has its
    buffer when the job that hands it back is done; a socket completes what it was
    given; datagrams arrive at connections, at most as long as the receive buffer,
    and not before the first job of the connection, as input is dispatched when no
    job is pending. *)
Definition allowed (opts : udp_options) (ev : udp_event) (s : relay) : Prop :=
  match ev with
  | EPacket e m => jobs (rl s) = [] ∧ env_ok e (rl s) ∧ packet_ok opts m (rl s)
  | EJob => jobs (rl s) ≠ []
  | EOverwrite _ => JDevice ∉ jobs (rl s)
  | ESent x => is_sending x (rl s) = true
  | EDatagram x data => is_Some (conns (rl s) !! x) ∧ (JFirst x ∉ jobs (rl s)) ∧ zlen data ≤ udp_mtu (rl s)
  end.
Fixpoint allowed_run (opts : udp_options) (evs : list udp_event) (s : relay) : Prop :=
  match evs with [] => True | ev :: evs => allowed opts ev s ∧ ∀ s', udp_step opts ev s = Ret s' → allowed_run opts evs s' end.

(** ** What the events do to the table *)
Lemma lru_ext o o' : connections_list o' = connections_list o → (∀ x, local_at o' x = local_at o x) → lru o' = lru o.
Proof. intros Hl Hx. unfold lru. rewrite Hl. apply omap_ext_in. auto. Qed.

(** Writing a connection with the same local address back, and setting jobs. *)
Definition same_table (o o' : client) : Prop :=
  lru o' = lru o ∧ max_connections o' = max_connections o ∧ udp_mtu o' = udp_mtu o ∧ udpgw_mtu o' = udpgw_mtu o ∧ dom (conns o') = dom (conns o).
#[export] Instance same_table_pre : PreOrder same_table.
Proof. split; [by intros o|]. intros a b c (H1 & H2 & H3 & H4 & H5) (? & ? & ? & ? & ?). unfold same_table. split_and!; congruence. Qed.

Lemma same_put o x c c' : conns o !! x = Some c → local_addr c' = local_addr c → same_table o (put_con x c' o).
Proof. intros Hc Hl. split; [by eapply lru_put|]. split_and!; try done. cbn. apply dom_insert_lookup_L. by rewrite Hc. Qed.
Lemma same_jobs o js : same_table o (set_jobs js o).
Proof. done. Qed.

Lemma get_con_inv x o c : get_con x o = Ret c → conns o !! x = Some c.
Proof. unfold get_con. by destruct (conns o !! x); intros [= ->]. Qed.

Lemma send_same x data len o o' res : connection_send x data len o = Ret (o', res) → same_table o o'.
Proof.
  unfold connection_send. intros E. apply bind_Ret_inv in E as (c & Hc%get_con_inv & E). apply bind_Ret_inv in E as ([w out] & _ & E).
  destruct out as [out|]; [|by injection E as <- <-]. apply bind_Ret_inv in E as ([ch pos] & _ & E). inv_binds. subst.
  unfold push_job. etransitivity; [|apply same_jobs]. by eapply same_put.
Qed.

Lemma run_job_same o o' : run_job o = Ret o' → same_table o o'.
Proof.
  unfold run_job. destruct (jobs o) as [|j js]; [done|]. destruct j as [|x|x|x]; intros E.
  - injection E as <-. apply same_jobs.
  - unfold connection_first_job_handler in E. apply bind_Ret_inv in E as (c & _ & E). apply bind_Ret_inv in E as ([o1 r] & E1 & E). injection E as <-.
    transitivity (set_jobs js o); [done|by eapply send_same].
  - apply bind_Ret_inv in E as (c & Hc%get_con_inv & E). inv_binds. subst. transitivity (set_jobs js o); [done|by eapply same_put].
  - apply bind_Ret_inv in E as (c & Hc%get_con_inv & E). apply bind_Ret_inv in E as ([ch b] & _ & E). injection E as <-.
    transitivity (put_con x (set_chan ch c) (set_jobs js o)); [by eapply (same_put (set_jobs js o))|by destruct b].
Qed.

Lemma packet_sent_same x o o' a p : packet_sent x o = Ret (o', (a, p)) → same_table o o'.
Proof.
  unfold packet_sent. intros E. apply bind_Ret_inv in E as (c & Hc%get_con_inv & E). apply bind_Ret_inv in E as ([[ch p'] b] & _ & E). injection E as <- _ _.
  transitivity (put_con x (set_chan ch c) o); [by eapply same_put|by destruct b].
Qed.

(** ** What stays the same for good *)
Definition same_conf (o o' : client) : Prop := max_connections o' = max_connections o ∧ udp_mtu o' = udp_mtu o ∧ udpgw_mtu o' = udpgw_mtu o.
#[export] Instance same_conf_pre : PreOrder same_conf.
Proof. split; [by intros o|]. intros a b c (H1 & H2 & H3) (? & ? & ?). unfold same_conf. split_and!; congruence. Qed.

Lemma free_conf x o o' : connection_free x o = Ret o' → same_conf o o'.
Proof. unfold connection_free. intros E. inv_binds. by subst. Qed.

Lemma init_conf e local remote data len dns o o' r : connection_init e local remote data len dns o = Ret (o', r) → same_conf o o'.
Proof.
  unfold connection_init. destruct (e_malloc e); [|by intros [= <- _]]. destruct (negb (e_dgram e)); [by intros [= <- _]|]. destruct (negb (e_reuse e)); [by intros [= <- _]|].
  intros E. apply bind_Ret_inv in E as ([ch|] & _ & E); [|by injection E as <- _]. apply bind_Ret_inv in E as (i0 & _ & E). apply bind_Ret_inv in E as (i & _ & E).
  destruct (negb (e_recv e)); [by injection E as <- _|]. apply bind_Ret_inv in E as ([[t b] ref] & _ & E). apply bind_Ret_inv in E as (_ & _ & E). by injection E as <- _.
Qed.

Lemma submit_conf e local remote dns data len o o' r : SocksUdpGwClient_SubmitPacket e local remote dns data len o = Ret (o', r) → same_conf o o'.
Proof.
  unfold SocksUdpGwClient_SubmitPacket. intros E. do 4 apply bind_Ret_inv in E as (_ & _ & E). apply bind_Ret_inv in E as ([x|] & _ & E).
  - apply bind_Ret_inv in E as (o1 & E1 & E). apply bind_Ret_inv in E as ([o2 res] & E2 & E). assert (H1 : same_conf o o1).
    { unfold reset_connection in E1. inv_binds. by subst. }
    apply send_same in E2 as (_ & Hm & Hu & Hg & _). assert (H2 : same_conf o o2) by (by transitivity o1).
    destruct (res =? 1); [by injection E as <- _|]. apply bind_Ret_inv in E as (l & _ & E). by injection E as <- _.
  - apply bind_Ret_inv in E as (o1 & E1 & E). apply bind_Ret_inv in E as ([o2 res] & E2 & E). injection E as <- _. apply init_conf in E2. transitivity o1; [|done].
    destruct (_ =? _); [|by injection E1 as <-]. unfold remove_lru_connection in E1. do 3 apply bind_Ret_inv in E1 as (? & _ & E1).
    destruct (connections_list o); [done|]. by eapply free_conf.
Qed.

Lemma device_conf opts e m o o' r : device_read_handler_send opts e m o = Ret (o', r) → same_conf o o'.
Proof.
  unfold device_read_handler_send. intros E. apply bind_Ret_inv in E as ([s|] & _ & E); [|by injection E as <- _].
  apply bind_Ret_inv in E as (a & _ & E). apply bind_Ret_inv in E as ([o2 res] & E2 & E). injection E as <- _. by apply submit_conf in E2.
Qed.

(** ** Runs *)

(** The table that the submitted packets leave. *)
Definition lru_of (max : Z) (l : list (Addr * bool)) : list Addr := fold_left (λ l s, lru_submit max s.1 s.2 l) l [].

Record relay_ok (max mt : Z) (s : relay) : Prop := {
  r_cl : cl_ok (rl s) (traf s);
  r_max : max_connections (rl s) = max;
  r_mtu : udp_mtu (rl s) = mt;
  r_lru : lru (rl s) = lru_of max (subs s);
  r_got : Forall (λ d, zlen d.2 ≤ mt) (got s) }.

Lemma lru_of_note max r sp l : lru_of max (l ++ note_sub r sp) = lru_device max r sp (lru_of max l).
Proof.
  unfold lru_of, note_sub, lru_device. destruct r as [r|], sp as [[s p]|]; rewrite ?app_nil_r; try done. destruct (mk_addr (sub_local s)); rewrite ?app_nil_r; try done.
  by rewrite fold_left_app.
Qed.

Lemma relay_same max mt s o lg gt : relay_ok max mt s → same_table (rl s) o → cl_ok o lg → Forall (λ d, zlen d.2 ≤ mt) gt →
  relay_ok max mt (mkrelay o lg (subs s) gt).
Proof. intros [H1 H2 H3 H4 H5] (E1 & E2 & E3 & _) Hok Hg. split; [exact Hok|cbn; congruence|cbn; congruence|by etransitivity|exact Hg]. Qed.

Lemma relay_step_ok max mt opts ev s : relay_ok max mt s → allowed opts ev s → ∃ s', udp_step opts ev s = Ret s' ∧ relay_ok max mt s'.
Proof.
  intros Hs Hal. pose proof Hs as [H1 H2 H3 H4 H5]. destruct ev as [e m| |m|x|x data]; cbn [udp_step allowed] in *.
  - destruct Hal as (Hj & He & Hp). destruct (device_ok opts e m (rl s) (traf s) H1 Hj He Hp) as (o & r & E & Hok & Hl & _). rewrite E, bind_Ret.
    apply device_conf in E as (E1 & E2 & _). eexists. split; [done|]. split; cbn [rl traf subs got]; [done|congruence|congruence|by rewrite lru_of_note, Hl, H2, H4|done].
  - destruct (run_job_ok _ _ H1 Hal) as (o & E & Hok). rewrite E, bind_Ret. eexists. split; [done|]. apply relay_same; try done. by apply run_job_same.
  - eexists. split; [done|]. apply relay_same; try done. by apply device_overwrite_ok.
  - unfold is_sending in Hal. destruct (conns (rl s) !! x) as [c|] eqn:Hc; [|done]. destruct (packet_sent_ok _ _ _ _ H1 Hc Hal) as (o & p & g & E & Hg & Hok).
    rewrite E, bind_Ret. eexists. split; [done|]. unfold log_sent. rewrite Hg. apply relay_same; try done. by eapply packet_sent_same.
  - destruct Hal as ([c Hc] & HF & Hl). destruct (receive_datagram_ok _ _ x c data H1 Hc HF Hl) as (o & r & E & Hok & (c' & -> & Hlc) & Hr).
    rewrite E, bind_Ret. eexists. split; [done|]. apply relay_same; try done; [by eapply same_put|]. apply Forall_app_2; [done|].
    destruct r as [[[l a] d]|]; [|constructor]. apply Forall_cons_2; [|constructor]. cbn. destruct (Hr l a d eq_refl). lia.
Qed.

Lemma udp_run_ok max mt opts evs s : relay_ok max mt s → allowed_run opts evs s → ∃ s', udp_run opts evs s = Ret s' ∧ relay_ok max mt s'.
Proof.
  revert s. induction evs as [|ev evs IH]; intros s Hs Hal; [by exists s|]. destruct Hal as [Ha Hal]. cbn [udp_run].
  destruct (relay_step_ok max mt opts ev s Hs Ha) as (s1 & E & Hs1). rewrite E, bind_Ret. by apply IH, Hal.
Qed.

(** ** The start *)
Definition start (o : client) : relay := mkrelay o ∅ [] [].

Lemma compute_mtu_ok mt : 0 ≤ mt → buffer_bound mt → udpgw_compute_mtu mt = mt + 22.
Proof.
  intros Hmt Hb. unfold buffer_bound, CONNECTION_UDP_BUFFER_SIZE, INT_MAX in Hb. pose proof (bdivide_up_spec mt Hmt).
  unfold udpgw_compute_mtu, bsize_fromint, SIZE_MAX. if_false. unfold bsize_add, bsize_max, bsize_fromsize, SIZE_MAX, sizeof_udpgw_addr_ipv4, sizeof_udpgw_addr_ipv6, sizeof_socks_udp_header.
  cbn [Z.gtb Z.leb Z.compare Pos.compare Pos.compare_cont]. rewrite Z.gtb_ltb. if_false. rewrite Z.gtb_ltb. if_false. unfold bsize_toint. if_false. lia.
Qed.

Lemma init_client_ok mt max socks dns : negb (BAddr_IsInvalid socks) = true → 0 ≤ mt → buffer_bound mt → 0 < max →
  ∃ o, SocksUdpGwClient_Init 0 mt max socks dns = Ret o ∧ relay_ok (Z.min max (UINT16_MAX + 1)) mt (start o).
Proof.
  intros Hs Hmt Hb Hmax. unfold SocksUdpGwClient_Init. rewrite Hs. cbn [assert]. rewrite bind_Ret. eexists. split; [done|].
  assert (Hmax' : (if UINT16_MAX + 1 <? max then UINT16_MAX + 1 else max) = Z.min max (UINT16_MAX + 1)) by (destruct (Z.ltb_spec (UINT16_MAX + 1) max); lia).
  destruct (init_stores udp_conaddr_comparator) as (mm & Hh & Hmm). apply fmap_nil_inv in Hmm as ->.
  split; [|exact Hmax'|done|done|apply Forall_nil_2]. split; cbn [rl start traf udp_mtu udpgw_mtu max_connections connections_tree conns connections_list num_connections jobs device_buf].
  - split; [|done]. rewrite compute_mtu_ok by done. lia.
  - rewrite Hmax'. unfold UINT16_MAX. lia.
  - exists []. split; [exact Hh|]. intros x v. split; [by intros []%elem_of_nil|]. intros (c & Hc & _). by rewrite lookup_empty in Hc.
  - unfold cells. cbn. by rewrite !dom_empty_L.
  - split; [apply NoDup_nil_2|]. intros x. rewrite lookup_empty. split; [by intros []%elem_of_nil|by intros []].
  - split; [done|]. rewrite Hmax'. unfold UINT16_MAX. lia.
  - split; [apply NoDup_nil_2|]. exists [], []. split; [done|]. split; [apply Forall_nil_2|by left].
  - by intros j x []%elem_of_nil.
  - intros x c Hc. by rewrite lookup_empty in Hc.
Qed.

(** ** Draining *)
Definition weight1 (j : job) : nat := match j with JDevice | JRequest _ => 1 | JArrive _ => 2 | JFirst _ => 3 end.
Definition weight (js : list job) : nat := list_sum (weight1 <$> js).

Lemma send_jobs x data len o o' res : connection_send x data len o = Ret (o', res) → jobs o' = jobs o ∨ jobs o' = JArrive x :: jobs o.
Proof.
  unfold connection_send. intros E. apply bind_Ret_inv in E as (c & _ & E). apply bind_Ret_inv in E as ([w out] & _ & E).
  destruct out as [out|]; [|left; by injection E as <- <-]. apply bind_Ret_inv in E as ([ch pos] & _ & E). inv_binds. subst. by right.
Qed.

(** Each job leads to fewer. *)
Lemma run_job_weight o o' : run_job o = Ret o' → (weight (jobs o') < weight (jobs o))%nat.
Proof.
  unfold run_job. destruct (jobs o) as [|j js] eqn:Ej; [done|]. destruct j as [|x|x|x]; intros E.
  - injection E as <-. cbn. unfold weight. cbn. lia.
  - unfold connection_first_job_handler in E. apply bind_Ret_inv in E as (c & _ & E). apply bind_Ret_inv in E as ([o1 r] & E1 & E). injection E as <-.
    apply send_jobs in E1 as [-> | ->]; unfold weight; cbn; lia.
  - apply bind_Ret_inv in E as (c & _ & E). inv_binds. subst. unfold weight. cbn. lia.
  - apply bind_Ret_inv in E as (c & _ & E). apply bind_Ret_inv in E as ([ch b] & _ & E). injection E as <-. destruct b; unfold weight; cbn; lia.
Qed.

Lemma udp_run_app opts a b s : udp_run opts (a ++ b) s = (s ← udp_run opts a s; udp_run opts b s).
Proof.
  revert s. induction a as [|ev a IH]; intros s; [done|]. cbn [app udp_run]. destruct (udp_step opts ev s) as [s1| |]; rewrite ?bind_Ret; [apply IH|done|done].
Qed.
Lemma allowed_app opts a b s s' : allowed_run opts a s → udp_run opts a s = Ret s' → allowed_run opts b s' → allowed_run opts (a ++ b) s.
Proof.
  revert s. induction a as [|ev a IH]; intros s Ha E Hb; [by injection E as ->|]. destruct Ha as [Ha Hal]. split; [done|]. intros s1 E1. cbn [udp_run] in E. rewrite E1, bind_Ret in E.
  apply IH; auto.
Qed.

(** The pending jobs come to an end. *)
Lemma jobs_end max mt opts s : relay_ok max mt s → ∃ n s', allowed_run opts (replicate n EJob) s ∧ udp_run opts (replicate n EJob) s = Ret s' ∧
  relay_ok max mt s' ∧ jobs (rl s') = [] ∧ traf s' = traf s ∧ dom (conns (rl s')) = dom (conns (rl s)).
Proof.
  remember (weight (jobs (rl s))) as w eqn:Ew. revert s Ew. induction (lt_wf w) as [w _ IH]. intros s -> Hs. destruct (decide (jobs (rl s) = [])) as [Hj|Hj].
  { exists 0%nat, s. by split_and!. }
  destruct (run_job_ok _ _ (r_cl _ _ _ Hs) Hj) as (o & E & _). destruct (relay_step_ok max mt opts EJob s Hs Hj) as (s1 & E1 & Hs1).
  cbn [udp_step] in E1. rewrite E, bind_Ret in E1. injection E1 as <-. pose proof (run_job_same _ _ E) as (_ & _ & _ & _ & Hd). apply run_job_weight in E as Hw.
  destruct (IH _ Hw (mkrelay o (traf s) (subs s) (got s)) eq_refl Hs1) as (n & s' & Hal & Er & Hs' & Hj' & Ht & Hc). exists (S n), s'.
  cbn [replicate udp_run allowed_run udp_step]. rewrite E, bind_Ret. split_and!; try done; [|by rewrite Hc, <- Hd]. by intros s2 [= <-].
Qed.

(** When no job is pending, what a connection holds is in its buffer, and the
    socket is sending if there is something. *)
Lemma idle_held max mt s x g : relay_ok max mt s → jobs (rl s) = [] → is_Some (conns (rl s) !! x) → traf s !! x = Some g →
  ∃ q, g.1 = g.2 ++ q ∧ (q ≠ [] → is_sending x (rl s) = true).
Proof.
  intros Hs Hj [c Hc] Hg. destruct (k_cons _ _ (r_cl _ _ _ Hs) x c Hc) as (g' & Hg' & q & ph & Hch & _ & Ha & _ & Hf). rewrite Hg in Hg'. injection Hg' as <-.
  rewrite Hj in Ha, Hf. rewrite decide_False in Hf by apply not_elem_of_nil. exists q. split.
  - rewrite Hf. unfold ch_held. destruct ph as [| | |pk]; rewrite ?app_nil_r; try done. exfalso. by eapply not_elem_of_nil, Ha; eexists.
  - intros Hq. unfold is_sending. rewrite Hc, (pb_send _ _ (ch_pb _ _ _ _ Hch)). by destruct q.
Qed.

Lemma sent_step max mt opts s x g : relay_ok max mt s → is_sending x (rl s) = true → traf s !! x = Some g →
  ∃ s' p, udp_step opts (ESent x) s = Ret s' ∧ relay_ok max mt s' ∧ traf s' !! x = Some (g.1, g.2 ++ [p]) ∧ is_Some (conns (rl s') !! x).
Proof.
  intros Hs Hse Hg. destruct (relay_step_ok max mt opts (ESent x) s Hs Hse) as (s' & E & Hs'). pose proof E as E'. cbn [udp_step] in E'.
  apply bind_Ret_inv in E' as ([o [a p]] & E1 & E'). injection E' as <-. exists (mkrelay o (log_sent x p (traf s)) (subs s) (got s)), p. split; [done|]. split; [done|].
  cbn [traf rl]. unfold log_sent. rewrite Hg, lookup_insert_eq. split; [done|]. apply packet_sent_same in E1 as (_ & _ & _ & _ & Hd).
  apply elem_of_dom. rewrite Hd. apply elem_of_dom. unfold is_sending in Hse. destruct (conns (rl s) !! x); [by eexists|done].
Qed.

Lemma drain max mt opts x n s g : relay_ok max mt s → is_Some (conns (rl s) !! x) → traf s !! x = Some g → (length g.1 - length g.2 = n)%nat →
  ∃ evs s', Forall (λ ev, ev = EJob ∨ ev = ESent x) evs ∧ allowed_run opts evs s ∧ udp_run opts evs s = Ret s' ∧ traf s' !! x = Some (g.1, g.1).
Proof.
  revert s g. induction n as [|n IH]; intros s g Hs Hx Hg Hn; destruct (jobs_end max mt opts s Hs) as (k & s1 & Ha & E & Hs1 & Hj & Ht & Hd);
    rewrite <- Ht in Hg; apply elem_of_dom in Hx; rewrite <- Hd in Hx; apply elem_of_dom in Hx; destruct (idle_held max mt s1 x g Hs1 Hj Hx Hg) as (q & Hq & Hse);
    rewrite Hq, length_app in Hn.
  - exists (replicate k EJob), s1. split; [by apply Forall_replicate; left|]. split; [done|]. split; [done|]. destruct q; [|cbn in Hn; lia].
    rewrite app_nil_r in Hq. rewrite Hg. destruct g as [a b]. cbn in Hq. by rewrite Hq.
  - destruct (sent_step max mt opts s1 x g Hs1) as (s2 & p & E2 & Hs2 & Hg2 & Hx2); [apply Hse; by destruct q; [cbn in Hn; lia|]|done|].
    destruct (IH s2 (g.1, g.2 ++ [p]) Hs2 Hx2 Hg2) as (evs & s3 & Hev & Hal & E3 & Hg3); [cbn; rewrite Hq, !length_app; cbn; lia|].
    exists (replicate k EJob ++ ESent x :: evs), s3. split; [apply Forall_app_2; [by apply Forall_replicate; left|apply Forall_cons_2; [by right|done]]|]. split.
    + eapply allowed_app; [done|done|]. split; [apply Hse; by destruct q; [cbn in Hn; lia|]|]. intros s2' E2'. rewrite E2 in E2'. by injection E2' as <-.
    + split; [|done]. rewrite udp_run_app, E, bind_Ret. cbn [udp_run]. by rewrite E2, bind_Ret.
Qed.

Lemma init_run opts mt max socks dns evs o :
  0 ≤ mt → buffer_bound mt → 0 < max → SocksUdpGwClient_Init 0 mt max socks dns = Ret o → allowed_run opts evs (start o) →
  ∃ s, udp_run opts evs (start o) = Ret s ∧ relay_ok (Z.min max (UINT16_MAX + 1)) mt s.
Proof.
  intros Hmt Hb Hmax Ei Hal. apply udp_run_ok; [|done]. destruct (init_client_ok mt max socks dns) as (o' & E & Hs); try done.
  - unfold SocksUdpGwClient_Init in Ei. by destruct (BAddr_IsInvalid socks).
  - rewrite E in Ei. by injection Ei as <-.
Qed.
