(* ===== verification/SocksUdpGwSpec.v ===== *)
(** * The UDP relay: what it promises

    Every run of the relay that the reactor allows, from its initialisation. *)
From S2P Require Import Prelude Encrypt AvlTree Bavl BavlSpec BavlSet BavlCells ChunkBuffer PacketPassInterface BadvpnMisc DeviceUdp DeviceUdpSpec PacketRecvInterface UdpChannel SocksUdpGw SocksUdpGwOrder SocksUdpGwInv SocksUdpGwSubmit SocksUdpGwRun.
From stdpp Require Import gmap.
#[local] Open Scope Z_scope.
#[local] Set Warnings "-clear-no-such-hyp".

(** ** The table *)
Lemma lru_nodup o lg : cl_ok o lg → NoDup (lru o).
Proof.
  intros Hok. destruct (k_list _ _ Hok) as [Hn _]. unfold lru.
  assert (H : ∀ l, NoDup l → NoDup (omap (local_at o) l)); [|by apply H]. induction l as [|x l IH]; intros Hl; [constructor|]. apply NoDup_cons in Hl as [Hx Hl].
  change (omap (local_at o) (x :: l)) with (match local_at o x with Some a => a :: omap (local_at o) l | None => omap (local_at o) l end).
  destruct (local_at o x) as [a|] eqn:Ea; [|auto]. apply NoDup_cons. split; [|auto]. intros (y & Hy & Ey)%list_elem_of_omap. apply Hx. unfold local_at in *.
  destruct (conns o !! x) as [c|] eqn:Ec; [|done]. destruct (conns o !! y) as [d|] eqn:Ed; [|done]. cbn in Ea, Ey.
  replace x with y; [done|]. eapply local_inj; [done|done|done|]. congruence.
Qed.

Lemma free_all_ok n o lg : cl_ok o lg → jobs o = [] → length (connections_list o) = n →
  ∃ o', free_all n o = Ret o' ∧ conns o' = ∅ ∧ cells (connections_tree o') = ∅ ∧ num_connections o' = 0.
Proof.
  revert o. induction n as [|n IH]; intros o Hok Hj Hn; destruct (connections_list o) as [|x l] eqn:El; cbn [length] in Hn; try lia; cbn [free_all]; rewrite El.
  - destruct (k_list _ _ Hok) as [_ Hl]. rewrite El in Hl. assert (Hc : conns o = ∅).
    { apply map_empty. intros x. destruct (conns o !! x) eqn:E; [|done]. exfalso. apply (not_elem_of_nil x), Hl. by eexists. }
    exists o. split; [done|]. split; [done|]. split; [by rewrite (k_cells _ _ Hok), Hc, dom_empty_L|]. rewrite (proj1 (k_num _ _ Hok)). by rewrite El.
  - assert (Hx : is_Some (conns o !! x)) by (apply (k_list _ _ Hok); rewrite El; by left). destruct Hx as [c Hc].
    assert (Hq : quiet o) by (intros j; rewrite Hj; by intros []%elem_of_nil). destruct (relay_free_ok o lg x c Hok Hc Hq) as (t & -> & Hok'). rewrite bind_Ret.
    apply IH; [done|done|]. cbn. pose proof (length_unlink x (connections_list o) (proj1 (k_list _ _ Hok))) as Hu. rewrite El in Hu |- *. cbn in Hn.
    specialize (Hu ltac:(by left)). cbn [length] in Hu. lia.
Qed.

(** C17: No run of the relay reads or writes out of bounds, uses memory that was
    freed or fails an assertion, whatever the order of packets, jobs, sends and
    datagrams, whether the system has memory and sockets or not, and whatever the
    peers send: provided that no datagram from the device exceeds the room left by
    the SOCKS header.  At every point the tree, the list and the count of the
    connections agree: at most [max_connections] of them, one per local address,
    each found by its address.  Datagrams handed to the user fit its MTU.
    When no job is pending the relay can be freed, and nothing is left. *)
Theorem udpgw_safe opts mt max socks dns evs o :
  0 ≤ mt → buffer_bound mt → 0 < max → SocksUdpGwClient_Init 0 mt max socks dns = Ret o → allowed_run opts evs (start o) →
  ∃ s, udp_run opts evs (start o) = Ret s ∧
    num_connections (rl s) = zlen (connections_list (rl s)) ∧ num_connections (rl s) ≤ Z.min max 65536 ∧ NoDup (lru (rl s)) ∧
    (∀ local, ∃ r, find_connection local (rl s) = Ret r ∧
       match r with
       | Some x => x ∈ connections_list (rl s) ∧ ∃ c, conns (rl s) !! x = Some c ∧ local_addr c = local
       | None => local ∉ lru (rl s)
       end) ∧
    Forall (λ d, zlen d.2 ≤ mt) (got s) ∧
    (jobs (rl s) = [] → ∃ o', SocksUdpGwClient_Free (rl s) = Ret o' ∧ conns o' = ∅ ∧ cells (connections_tree o') = ∅ ∧ num_connections o' = 0).
Proof.
  intros Hmt Hb Hmax Ei Hal. destruct (init_run opts mt max socks dns evs o Hmt Hb Hmax Ei Hal) as (s & E & [Hok Hm _ _ Hg]). exists s. split; [done|].
  destruct (k_num _ _ Hok) as [Hn Hle]. split; [done|]. split; [unfold UINT16_MAX in Hm; lia|]. split; [by eapply lru_nodup|]. split.
  - intros local. destruct (find_ok _ _ local Hok) as [[-> H]|(x & c & -> & Hc & Hl & _)]; eexists; (split; [done|]); [done|]. split; [|by exists c].
    apply (k_list _ _ Hok). by rewrite Hc.
  - split; [done|]. intros Hj. by apply free_all_ok with (traf s).
Qed.

(** C19: The table of connections is a least-recently-used cache of the local
    addresses: after any run it holds what the submitted packets leave in a plain
    list, where a packet moves its address to the end if it was taken, a new
    address drops the head of a full list and goes to the end, and a packet that
    finds no memory, socket or room changes nothing else. *)
Theorem udpgw_lru opts mt max socks dns evs o :
  0 ≤ mt → buffer_bound mt → 0 < max → SocksUdpGwClient_Init 0 mt max socks dns = Ret o → allowed_run opts evs (start o) →
  ∃ s, udp_run opts evs (start o) = Ret s ∧ lru (rl s) = lru_of (Z.min max 65536) (subs s).
Proof.
  intros Hmt Hb Hmax Ei Hal. destruct (init_run opts mt max socks dns evs o Hmt Hb Hmax Ei Hal) as (s & E & [_ _ _ Hl _]). by exists s.
Qed.

(** C18: A connection sends what it was given: at every point of a run, the packets
    that its socket took are the first of those that were submitted and taken,
    byte for byte with their SOCKS header, in order, also the first one, which is
    read from the buffer of the device after the event that brought it.  And all
    of them go out: after the pending jobs and the completions of this socket
    alone, all that was given has been sent. *)
Theorem udpgw_delivers opts mt max socks dns evs o :
  0 ≤ mt → buffer_bound mt → 0 < max → SocksUdpGwClient_Init 0 mt max socks dns = Ret o → allowed_run opts evs (start o) →
  ∃ s, udp_run opts evs (start o) = Ret s ∧
    ∀ x, is_Some (conns (rl s) !! x) → ∃ g, traf s !! x = Some g ∧ g.2 `prefix_of` g.1 ∧
      ∃ evs' s', Forall (λ ev, ev = EJob ∨ ev = ESent x) evs' ∧ allowed_run opts evs' s ∧ udp_run opts evs' s = Ret s' ∧ traf s' !! x = Some (g.1, g.1).
Proof.
  intros Hmt Hb Hmax Ei Hal. destruct (init_run opts mt max socks dns evs o Hmt Hb Hmax Ei Hal) as (s & E & Hs). exists s. split; [done|]. intros x Hx.
  pose proof Hx as [c Hc]. destruct (k_cons _ _ (r_cl _ _ _ Hs) x c Hc) as (g & Hg & q & ph & Hch & Hr & Ha & Hi & Hf). exists g. split; [done|]. split.
  - destruct (decide (JFirst x ∈ jobs (rl s))); [destruct Hf as (_ & _ & p & _ & _ & ->)|rewrite Hf]; by apply prefix_app_r.
  - by eapply drain.
Qed.

(** ** Datagrams from the server *)
Lemma addr_split (ip port rest : list Z) n : length ip = n → length port = 2%nat →
  take n ((ip ++ port) ++ rest) = ip ∧ take 2 (drop n ((ip ++ port) ++ rest)) = port ∧ drop (n + 2) ((ip ++ port) ++ rest) = rest.
Proof.
  intros <- Hp. rewrite <- app_assoc. split; [apply take_app_length|]. rewrite drop_app_length. split; [by rewrite take_app_length'|].
  rewrite app_assoc, drop_app_length'; [done|]. rewrite length_app. lia.
Qed.

(** The header that [connection_send] writes, read by [dgram_handler_received]. *)
Lemma header_read remote rest : addr_ok remote →
  mget (udp_wire remote false rest) 2 = Ret 0 ∧ (4 <=? zlen (udp_wire remote false rest)) = true ∧
  ∃ atyp, mget (udp_wire remote false rest) 3 = Ret atyp ∧ received_addr atyp (drop 4 (udp_wire remote false rest)) = Some (remote, rest).
Proof.
  intros Ha. split; [done|]. split; [apply Z.leb_le; unfold udp_wire; rewrite !length_app; pose proof (header_len remote); lia|].
  destruct remote as [|ip port|ip port]; [done|..]; destruct Ha as [[Hi _] [Hp _]]; eexists; (split; [done|]);
    destruct (addr_split ip port rest _ Hi Hp) as (H1 & H2 & H3);
    assert (Hd : ∀ h, zlen h = 4 → drop 4 (h ++ (ip ++ port) ++ rest) = (ip ++ port) ++ rest) by (intros h Hh; apply drop_app_length'; lia);
    unfold udp_wire, udpgw_addr, received_addr; rewrite Hd by apply header_len; cbn [Z.eqb Pos.eqb];
    rewrite H1, H2; cbn [Nat.add] in H3; rewrite H3, !length_app, Hi, Hp; unfold sizeof_udpgw_addr_ipv6, sizeof_udpgw_addr_ipv4; if_false; done.
Qed.

(** What [connection_send] writes in front of a datagram to a host is what
    [dgram_handler_received] expects in front of a datagram from it: the same
    bytes arriving at a connection are handed to the user as the payload, from
    that host, to the local address of the connection; the connection takes the
    next datagram after it.  A connection to the DNS gateway hands over the bytes
    as they are, from the host it last sent to. *)
Theorem udp_reply_roundtrip o lg x c remote payload :
  cl_ok o lg → conns o !! x = Some c → JFirst x ∉ jobs o → addr_ok remote → zlen (udp_wire remote (is_dns c) payload) ≤ udp_mtu o →
  ∃ o', receive_datagram x (udp_wire remote (is_dns c) payload) o = Ret (o', Some (local_addr c, if is_dns c then remote_addr c else remote, payload)) ∧
    cl_ok o' lg.
Proof.
  intros Hok Hc HF Ha Hl. destruct (receive_datagram_ok o lg x c _ Hok Hc HF Hl) as (o' & r & E & Hok' & _ & _). exists o'. split; [|done].
  rewrite E. f_equal. f_equal. unfold receive_datagram, get_con in E. rewrite Hc, bind_Ret in E.
  apply bind_Ret_inv in E as (i1 & E1 & E). apply bind_Ret_inv in E as ([i2 d] & E2 & E). apply bind_Ret_inv in E as ([o2 r2] & E3 & E).
  assert (Hd : d = udp_wire remote (is_dns c) payload).
  { unfold PacketPassInterface_Sender_Send in E1. do 3 apply bind_Ret_inv in E1 as (_ & _ & E1). injection E1 as <-.
    unfold _PacketPassInterface_job_operation in E2. inv_binds. congruence. }
  apply bind_Ret_inv in E as (c2 & _ & E). apply bind_Ret_inv in E as (i4 & _ & E). injection E as _ <-. subst d.
  unfold dgram_handler_received, get_con in E3. cbn [conns put_con set_conns] in E3. rewrite lookup_insert_eq, bind_Ret in E3.
  apply bind_Ret_inv in E3 as (_ & _ & E3). apply bind_Ret_inv in E3 as (i3 & _ & E3). cbn [is_dns set_recv udp_mtu put_con set_conns] in E3.
  pose proof (wire_payload remote (is_dns c) payload). destruct (is_dns c).
  - change (udp_wire remote true payload) with payload in *. rewrite (proj2 (Z.ltb_ge _ _)) in E3 by lia. by injection E3 as _ <-.
  - destruct (header_read remote payload Ha) as (Hf & H4 & atyp & Hat & Hrec). apply Z.leb_le in H4. unfold sizeof_socks_udp_header in E3. 
    rewrite (proj2 (Z.ltb_ge _ 4)) in E3 by lia. rewrite Hf, Hat, !bind_Ret in E3. cbn [Z.eqb negb] in E3. rewrite Hrec in E3.
    rewrite (proj2 (Z.ltb_ge _ _)) in E3 by lia. by injection E3 as _ <-.
Qed.

(** ** The size of the slots *)

Lemma store_cases c d pos bs : ch_store c d pos bs = Fault ∨ ∃ c', ch_store c d pos bs = Ret c' ∧ writer c' = writer c.
Proof.
  unfold ch_store. destruct d as [d|]; [|by left]. destruct (mwrite_cases (mem (buf (pbuf c))) (d + pos) bs) as [(_ & _ & ->)|[_ ->]]; [|by left].
  rewrite bind_Ret. right. by eexists.
Qed.

(** The relay accepts any datagram up to [udp_mtu], but the slots of the send
    buffer have this size too, and the SOCKS header comes on top: if header and
    payload exceed [udp_mtu], [connection_send] fails the assertion in
    [BufferWriter_EndPacket]; without assertions it writes past the slot. *)
Theorem udpgw_oversized o lg x c data data_len p :
  cl_ok o lg → conns o !! x = Some c → (∃ w out, Writer_StartPacket (writer (send_chan c)) = Ret (w, Some out)) →
  mread (device_buf o) data data_len = Ret p → data_len ≤ udp_mtu o → udp_mtu o < zlen (udp_wire (remote_addr c) (is_dns c) p) →
  connection_send x data data_len o = Fault.
Proof.
  intros Hok Hc (w & out & Ew) Hp Hd Hw. destruct (k_cons _ _ Hok x c Hc) as (g & _ & q & ph & Hch & _). destruct (ch_mtu _ _ _ _ Hch) as [_ Hm].
  pose proof (mread_Ret _ _ _ _ Hp) as (_ & _ & _ & _ & Hlp). unfold connection_send, get_con. rewrite Hc, bind_Ret, Ew, bind_Ret.
  assert (Hwm : pri_mtu (recv_interface w) = udp_mtu o). { unfold Writer_StartPacket in Ew. apply bind_Ret_inv in Ew as (_ & _ & Ew). destruct (w_out _); [|done]. by injection Ew as <- _. }
  unfold udp_wire in Hw. destruct (is_dns c); [lia|]. rewrite !length_app in Hw. pose proof (header_len (remote_addr c)) as Hh.
  destruct (store_cases (mkch w (pbuf (send_chan c))) out 0 (socks_udp_header (remote_addr c))) as [->|(c1 & -> & H1)]; [done|]. rewrite bind_Ret.
  destruct (store_cases c1 out sizeof_socks_udp_header (udpgw_addr (remote_addr c))) as [->|(c2 & -> & H2)]; [done|]. rewrite !bind_Ret, Hp, bind_Ret.
  destruct (store_cases c2 out (sizeof_socks_udp_header + zlen (udpgw_addr (remote_addr c))) p) as [->|(c3 & -> & H3)]; [done|]. rewrite bind_Ret.
  unfold Writer_EndPacket, sizeof_socks_udp_header. rewrite H3, H2, H1. cbn [writer]. rewrite Hwm. rewrite (assert_true (0 <=? _)), bind_Ret by lia.
  by rewrite (proj2 (Z.leb_gt _ (udp_mtu o))) by lia.
Qed.
