(* ===== verification/SocksUdpGwDemo.v ===== *)
(** * The UDP relay: a run

    A relay with place for one connection: a DNS query, its answer, then a
    datagram from another address that takes the place, in the memory that was
    just freed. *)
From S2P Require Import Prelude Encrypt AvlTree Bavl BavlSpec BavlSet BavlCells ChunkBuffer PacketPassInterface BadvpnMisc DeviceUdp DeviceUdpSpec PacketRecvInterface UdpChannel SocksUdpGw SocksUdpGwOrder SocksUdpGwInv SocksUdpGwSubmit SocksUdpGwRun SocksUdpGwSpec.
From stdpp Require Import gmap.
#[local] Open Scope Z_scope.

(** ** Allowed runs, decided *)
Definition allowedb (opts : udp_options) (ev : udp_event) (s : relay) : bool :=
  match ev with
  | EPacket e m =>
      bool_decide (jobs (rl s) = []) &&
      match e_malloc e with
      | Some x => bool_decide (conns (rl s) !! x = None) || ((num_connections (rl s) =? max_connections (rl s)) && bool_decide (head (connections_list (rl s)) = Some x))
      | None => true
      end && bytes_okb m &&
      match packet_of opts m (rl s) with
      | Some (sub, p) => zlen (udp_wire (sub_remote sub) (sub_dns sub) p) <=? udp_mtu (rl s)
      | None => true
      end
  | EJob => negb (bool_decide (jobs (rl s) = []))
  | EOverwrite _ => negb (bool_decide (JDevice ∈ jobs (rl s)))
  | ESent x => is_sending x (rl s)
  | EDatagram x data => bool_decide (is_Some (conns (rl s) !! x)) && negb (bool_decide (JFirst x ∈ jobs (rl s))) && (zlen data <=? udp_mtu (rl s))
  end.
Fixpoint check_run (opts : udp_options) (evs : list udp_event) (s : relay) : bool :=
  match evs with
  | [] => true
  | ev :: evs => allowedb opts ev s && match udp_step opts ev s with Ret s' => check_run opts evs s' | _ => false end
  end.
Definition event_env (ev : udp_event) : Prop := match ev with EPacket e _ => alloc_ok (e_alloc e) | _ => True end.

Lemma allowedb_ok opts ev s : event_env ev → allowedb opts ev s = true → allowed opts ev s.
Proof.
  destruct ev as [e m| |m|x|x data]; cbn [event_env allowedb allowed]; intros He Hb.
  - rewrite !andb_true_iff in Hb. destruct Hb as (((Hj%bool_decide_eq_true & Hm) & Hb) & Hp). split; [done|]. split.
    + split; [done|]. intros x Ex. rewrite Ex, orb_true_iff, andb_true_iff, !bool_decide_eq_true, Z.eqb_eq in Hm. tauto.
    + split; [by apply bytes_okb_ok|]. intros sub p Es Er. unfold packet_of in Hp. rewrite Es, Er in Hp. lia.
  - by rewrite negb_true_iff, bool_decide_eq_false in Hb.
  - by rewrite negb_true_iff, bool_decide_eq_false in Hb.
  - done.
  - rewrite !andb_true_iff, negb_true_iff, bool_decide_eq_true, bool_decide_eq_false, Z.leb_le in Hb. tauto.
Qed.
Lemma check_run_ok opts evs s : Forall event_env evs → check_run opts evs s = true → allowed_run opts evs s.
Proof.
  revert s. induction evs as [|ev evs IH]; intros s He Hc; [done|]. apply Forall_cons_1 in He as [He Hes]. cbn [check_run allowed_run] in *. apply andb_true_iff in Hc as [Ha Hc].
  split; [by apply allowedb_ok|]. intros s' E. rewrite E in Hc. by apply IH.
Qed.

(** ** The run *)
Definition demo_alloc (n : Z) : option (list Z) := if n <? 0 then None else Some (replicate (Z.to_nat (4 * n)) 0).
Definition demo_env (x : loc) : init_env := mkenv (Some x) true true demo_alloc true.
Definition demo_server : BAddr := BAddrIPv4 [127; 0; 0; 1] [4; 56].
Definition demo_gateway : BAddr := BAddrIPv4 [127; 0; 0; 1] [20; 233].
Definition demo_client : client := mkcl 40 62 0 1 demo_server demo_gateway (BAVL_Init ∅) [] ∅ [] [].
(** From 10.0.0.3:1000 to 8.8.8.8:99, three bytes. *)
Definition demo_datagram : list Z :=
  match udpgw_client_handler_received demo_options 60 (BAddrIPv4 [8; 8; 8; 8] [0; 99]) (BAddrIPv4 [10; 0; 0; 3] [3; 232]) [1; 2; 3] (replicate 60 0) with
  | Ret (_, Some pkt) => pkt
  | _ => []
  end.
Definition demo_events : list udp_event :=
  [EPacket (demo_env 5%positive) demo_query; EJob; EJob; EJob; EJob; EJob; EOverwrite []; ESent 5%positive; EDatagram 5%positive [9; 9];
   EPacket (demo_env 5%positive) demo_datagram; EJob; EJob; EJob; EJob; ESent 5%positive; EJob;
   EDatagram 5%positive (udp_wire (BAddrIPv4 [8; 8; 8; 8] [0; 99]) false [7])].

Lemma demo_init : SocksUdpGwClient_Init 0 40 1 demo_server demo_gateway = Ret demo_client.
Proof. reflexivity. Qed.
Lemma demo_bound : buffer_bound 40.
Proof. vm_compute. discriminate. Qed.
Lemma demo_alloc_ok : alloc_ok demo_alloc.
Proof. intros n m. unfold demo_alloc. destruct (Z.ltb_spec n 0); [done|]. intros [= <-]. rewrite length_replicate. lia. Qed.
Lemma demo_allowed : allowed_run demo_options demo_events (start demo_client).
Proof. apply check_run_ok; [|by vm_compute]. repeat (apply Forall_cons_2; [first [exact I|exact demo_alloc_ok]|]). apply Forall_nil_2. Qed.

(** ** The properties at this run *)
Definition demo_state : relay := match udp_run demo_options demo_events (start demo_client) with Ret s => s | _ => start demo_client end.
Lemma demo_relay_run : udp_run demo_options demo_events (start demo_client) = Ret demo_state.
Proof. vm_compute. reflexivity. Qed.
#[local] Opaque demo_state.
Lemma demo_cl_ok : cl_ok (rl demo_state) (traf demo_state).
Proof.
  destruct (init_run demo_options 40 1 demo_server demo_gateway demo_events demo_client) as (s & E & [Hok _ _ _ _]);
    [lia|exact demo_bound|lia|exact demo_init|exact demo_allowed|]. rewrite demo_relay_run in E. apply Ret_inj in E. rewrite E. exact Hok.
Qed.
(** What the connection of the datagram is like. *)
Definition demo_con (c : connection) : bool * bool := (is_dns c, match Writer_StartPacket (writer (send_chan c)) with Ret (_, Some _) => true | _ => false end).
Lemma demo_con_ok : ∃ c, conns (rl demo_state) !! 5%positive = Some c ∧ is_dns c = false ∧
  proj1_sig (local_addr c) = BAddrIPv4 [10; 0; 0; 3] [3; 232] ∧ remote_addr c = BAddrIPv4 [8; 8; 8; 8] [0; 99] ∧
  ∃ w out, Writer_StartPacket (writer (send_chan c)) = Ret (w, Some out).
Proof.
  destruct (conns (rl demo_state) !! 5%positive) as [c|] eqn:Ec; [|vm_compute in Ec; discriminate]. exists c. split; [done|].
  assert (H : ∀ A (f : connection → A) a, f <$> conns (rl demo_state) !! 5%positive = Some a → f c = a) by (intros A f a; rewrite Ec; by intros [= ->]).
  split; [by apply H; vm_compute|]. split; [apply (H _ (λ c, proj1_sig (local_addr c))); by vm_compute|]. split; [by apply H; vm_compute|].
  assert (Hw : (demo_con c).2 = true) by (apply (H _ (λ c, (demo_con c).2)); by vm_compute). unfold demo_con in Hw. cbn in Hw.
  destruct (Writer_StartPacket (writer (send_chan c))) as [[w [out|]]| |]; [by exists w, out|discriminate Hw..].
Qed.

Lemma udpgw_safe_witness : ∃ s, udp_run demo_options demo_events (start demo_client) = Ret s ∧ num_connections (rl s) ≤ Z.min 1 65536.
Proof.
  destruct (udpgw_safe demo_options 40 1 demo_server demo_gateway demo_events demo_client) as (s & E & _ & Hn & _);
    [lia|exact demo_bound|lia|exact demo_init|exact demo_allowed|]. exists s. split; [exact E|exact Hn].
Defined.

Lemma udpgw_lru_witness : ∃ s, udp_run demo_options demo_events (start demo_client) = Ret s ∧ lru (rl s) = lru_of (Z.min 1 65536) (subs s).
Proof.
  apply (udpgw_lru demo_options 40 1 demo_server demo_gateway demo_events demo_client); [lia|exact demo_bound|lia|exact demo_init|exact demo_allowed].
Defined.

Lemma udpgw_delivers_witness : ∃ s g, udp_run demo_options (take 15 demo_events) (start demo_client) = Ret s ∧ traf s !! 5%positive = Some g ∧ g.2 `prefix_of` g.1.
Proof.
  destruct (udpgw_delivers demo_options 40 1 demo_server demo_gateway (take 15 demo_events) demo_client) as (s & E & H);
    [lia|exact demo_bound|lia|exact demo_init| |].
  { apply check_run_ok; [|by vm_compute]. repeat (apply Forall_cons_2; [first [exact I|exact demo_alloc_ok]|]). apply Forall_nil_2. }
  destruct (H 5%positive) as (g & Hg & Hp & _); [|exists s, g; split; [exact E|split; [exact Hg|exact Hp]]].
  assert (Hx : (match udp_run demo_options (take 15 demo_events) (start demo_client) with Ret s => bool_decide (is_Some (conns (rl s) !! 5%positive)) | _ => false end) = true) by (by vm_compute).
  rewrite E in Hx. apply bool_decide_eq_true in Hx. exact Hx.
Defined.

Lemma demo_reached : ∃ s c, udp_run demo_options demo_events (start demo_client) = Ret s ∧ cl_ok (rl s) (traf s) ∧ udp_mtu (rl s) = 40 ∧ jobs (rl s) = [] ∧
  conns (rl s) !! 5%positive = Some c ∧ is_dns c = false ∧ proj1_sig (local_addr c) = BAddrIPv4 [10; 0; 0; 3] [3; 232] ∧
  remote_addr c = BAddrIPv4 [8; 8; 8; 8] [0; 99] ∧ ∃ w out, Writer_StartPacket (writer (send_chan c)) = Ret (w, Some out).
Proof.
  destruct demo_con_ok as (c & Hc & H). exists demo_state, c. split; [exact demo_relay_run|]. split; [exact demo_cl_ok|]. split; [by vm_compute|]. split; [by vm_compute|].
  split; [exact Hc|exact H].
Qed.

Lemma udp_reply_roundtrip_witness : ∃ s o' local, udp_run demo_options demo_events (start demo_client) = Ret s ∧
  receive_datagram 5%positive (udp_wire (BAddrIPv4 [8; 8; 4; 4] [0; 98]) false [7; 7]) (rl s) = Ret (o', Some (local, BAddrIPv4 [8; 8; 4; 4] [0; 98], [7; 7])) ∧
  proj1_sig local = BAddrIPv4 [10; 0; 0; 3] [3; 232].
Proof.
  destruct demo_reached as (s & c & Es & Hok & Hm & Hj & Hc & Hd & Hl & _).
  destruct (udp_reply_roundtrip (rl s) (traf s) 5%positive c (BAddrIPv4 [8; 8; 4; 4] [0; 98]) [7; 7]) as (o' & E & _); [exact Hok|exact Hc| | | |].
  - rewrite Hj. apply not_elem_of_nil.
  - split; (split; [done|by apply bytes_okb_ok]).
  - rewrite Hd, Hm. vm_compute. discriminate.
  - rewrite Hd in E. exists s, o', (local_addr c). split; [exact Es|]. split; [exact E|exact Hl].
Defined.

(** A payload of 35 bytes, for slots of 40 bytes. *)
Lemma udpgw_oversized_witness : ∃ s, udp_run demo_options demo_events (start demo_client) = Ret s ∧
  connection_send 5%positive 0 35 (set_device (replicate 35 7) (rl s)) = Fault.
Proof.
  destruct demo_reached as (s & c & Es & Hok & Hm & Hj & Hc & Hd & _ & Hr & Hw). exists s. split; [exact Es|].
  apply (udpgw_oversized _ (traf s) _ c _ _ (replicate 35 7)); [|exact Hc|exact Hw|reflexivity|cbn [udp_mtu set_device]; lia|].
  - apply device_overwrite_ok; [exact Hok|]. rewrite Hj. apply not_elem_of_nil.
  - rewrite Hd, Hr. cbn [udp_mtu set_device]. rewrite Hm. vm_compute. reflexivity.
Defined.

(** ** One socket for two servers

    A connection keeps the address that its socket was opened for.  A datagram,
    then a DNS query from the same local address: the query goes to the SOCKS
    server, without a SOCKS header. *)
Definition demo_query_99 : list Z :=
  match udpgw_client_handler_received demo_options 60 (BAddrIPv4 [8; 8; 8; 8] [0; 53]) (BAddrIPv4 [10; 0; 0; 3] [3; 232]) [0; 1; 1; 0; 0; 1; 0; 0; 0; 0; 0; 0; 5] (replicate 60 0) with
  | Ret (_, Some pkt) => pkt
  | _ => []
  end.
Example dns_query_to_socks_server :
  match udp_run demo_options (demo_events ++ [EPacket (demo_env 6%positive) demo_query_99; EJob; EJob; EJob]) (start demo_client) with
  | Ret s => match packet_sent 5%positive (rl s) with Ret (_, sent) => Some sent | _ => None end
  | _ => None
  end = Some (demo_server, [0; 1; 1; 0; 0; 1; 0; 0; 0; 0; 0; 0; 5]).
Proof. vm_compute. reflexivity. Qed.
